(* ===== verification/_CoqProject ===== *)
-Q . S2P
Prelude.v
CmdRing.v
Thread.v
VmMemory.v
Block.v
BlockClient.v
BlockView.v
BlockProtocol.v
BlockServer.v
BlockControl.v
BlockLifecycle.v
BlockHazards.v
IrqProtocol.v
HashList.v
LHMap.v
LinkedMap.v
HCache.v
CacheMgnt.v
Lru.v
Policy.v
LanAddress.v
Net.v
NetSend.v
NetProtocol.v
NetRecv.v
NetRecvQueue.v
NetRecvClient.v
NetRecvProtocol.v
NetControl.v
NetServer.v
NetClient.v
Dp83820.v
Pic.v
PicSpec.v
Apic.v
ApicSpec.v
ApicTypes.v
ApicIrq.v
ApicRuns.v
Ide.v
IdeSpec.v
IdeHazards.v
Rtc.v
Pit.v
Earm.v
Rewrite.v
Ia32.v
RewriteSpec.v
RewritePatch.v
RewriteDevice.v
RewriteRuns.v
Pci.v
PciSpec.v
