(* ===== verification/Prelude.v ===== *)
(** * Afterburner: a verification library

    Afterburner runs a Linux kernel as a device-driver virtual machine on the L4
    microkernel. Kernel modules in the driver VM (the servers) offer its disks and
    network cards to other VMs, whose modules (the clients) look like ordinary Linux
    devices. The two sides share rings of descriptors in memory, wake each other with
    virtual interrupts, and set up connections with IPC calls. This library
    translates that driver-reuse stack from C into Rocq functions and proves what
    makes it correct. It also covers parts of the wedge, the layer under the guest
    kernels: the virtual interrupt controllers, the disks the guest sees, and the
    rewriter that replaces sensitive instructions of the guest's code.

    ** Conventions

    A C function is a function in the monad [M S] of this file: a state [S] in, a
    value and a new state or a [fault] out. A fault is a bad dereference, an index
    outside an array, a failed [ASSERT], [panic()] or [BUG()], or an exhausted loop
    bound. Theorems of safety show that no fault occurs. Words are [Z], wrapped with
    [u8], [u16], [u32], [u64] where the code can overflow. Fixed C arrays are lists
    accessed with [zlookup]/[zinsert]; heaps are finite maps. [wp F m Q s] is the weakest
    precondition of [m] at [s] with faults in [F] allowed; the tactics [wp_step] and
    [wp_steps] run it over a function body. Ring positions are absolute numbers, reduced
    to slots with [slot]; the lemmas on them are shared by all rings.

    Code outside the repository (Linux block, network and memory layers, the L4
    system calls, build options) appears as parameters: fields of the classes
    [L4Fpage], [BlockEnv], [BlockCtl], [NetEnv], [NetSrvEnv], [NetOpenEnv], [DpEnv],
    [PciEnv], [Kmalloc], [EntryAlloc], [ApicEnv], [RtcEnv], [PitEnv], [EarmEnv], [RewriteEnv], or functions
    that decide the outcome of an allocation, an IPC or a transfer. Each theorem with
    an assumption on them has a witness that instantiates it. Operations of different threads are interleaved by
    inductive step relations whose steps are whole functions, except where the
    protocol depends on a finer grain (CmdRing.v, IrqProtocol.v).

    ** Files

    Glue (l4ka-driver-reuse/kernel/glue):
    - CmdRing.v: the ring of commands between a server's IPC thread and its bottom half
      (vmserver.c). It is a bounded FIFO under every interleaving with one slot
      reserved by a producer: the handlers run are those of the published commands, in
      order. The dispatcher empties it and terminates, allocation waits until a slot is
      free, and both functions run as steps of the transition system.
    - VmMemory.v: aligned page allocation and client address-space records (vmmemory.c).
    - Thread.v: creation and deletion of L4 threads (thread.c).

    Block driver (kernel/block: server.c, client.c, server.h, client.h, block.h and
    L4VMblock_idl_reply.h):
    - Block.v: the shared page, the descriptor ring, connections, bios; the server's
      I/O path [L4VMblock_process_io_queue], [L4VMblock_initiate_io], [L4VMblock_end_io].
    - BlockClient.v: the client's request function and completion handler.
    - BlockView.v: the effect of each operation on one client's page.
    - BlockProtocol.v: both sides and the disk as a transition system. Every segment of
      a request is executed once and ended once towards Linux, with the status of its own
      disk I/O, also when the disk finishes out of order and descriptors are swapped, and a
      request is ended with its last segment; no operation faults; each bio matches its
      request.
    - BlockServer.v, BlockControl.v: register, attach, probe, reattach, detach; every
      call is answered once, claims and handles never leak except as found below.
    - BlockLifecycle.v: initialisation, the control stubs, the interrupt handlers and
      bottom half, the client's registration and probe; registration leads into the
      initial states of the protocol.
    - BlockHazards.v: runs outside the protocol's assumptions that break it.
    - IrqProtocol.v: the interrupt-pending flags at instruction grain.
    - Earm.v: the energy accounts of the server and the throttling that depends on them
      (earm_server.c); what is charged for transfers is exactly what was used while
      requests are below 64 MB, and a client passes the gate once more than its budget.

    Energy-aware disk cache (the ebc files of kernel/block):
    - HashList.v, LHMap.v: heap shapes and the linked hash map (ebc_lhmap.c), which
      refines an ordered association list when its buckets start out cleared.
    - LinkedMap.v: the class of linked maps its clients are proved against, with the
      hash map as instance.
    - HCache.v: the hash table over the caller's entries (ebc_hcache.c), which refines a
      list of entries with their keys.
    - CacheMgnt.v: blocks cached in flash (ebc_cache_mgnt.c); what a reader sees is
      kept by fetching, moving and flushing.
    - Lru.v: the 2Q hot list (ebc_lru.c); it refines the 2Q algorithm on lists and its
      queues stay bounded.
    - Policy.v: the energy policy and the prefetcher (ebc_policy1.c, ebc_prefetcher.c);
      reads are translated to the place that holds the data, writes become visible.

    Network driver (kernel/net, kernel/lanaddress):
    - LanAddress.v: address layout and the generator; distinct for 65536 clients.
    - Net.v, NetSend.v, NetProtocol.v: the send ring (client transmit and clean-up,
      server wrapping and destructor). Packets reach the device once, in order and with
      their data; socket buffers are freed after the device is done; the ring drains;
      the transmit loop over all clients terminates and is complete.
    - NetRecv.v, NetRecvQueue.v, NetRecvClient.v, NetRecvProtocol.v: the receive path
      (server queue, IPC with partial transfers, client threads and ring, interrupt
      handler); frames arrive in order, once, in buffers that hold them, and the server
      frees a frame when the client has got it.
    - NetControl.v: client table, attach to stop, routing of frames, flush tasklet; only an
      attach from an unknown address space faults, in the reply stub.
    - NetServer.v: the stubs, command rings, interrupt handler and bottom half of the
      server and its initialisation; every call is answered once and in order.
    - NetClient.v: loading the client, opening and closing the device; opening leads
      into the initial states of the two ring protocols or gives everything back.
    - Dp83820.v: clients with an emulated DP83820 card, whose transmit ring is linked by
      guest-physical addresses; packets are sent once and in order although the device
      may finish them in any order.

    PCI server (kernel/pci/server.c):
    - Pci.v, PciSpec.v: client and device lists in an explicit heap, the handlers, stubs,
      interrupt path and initialisation. The bottom half refines a table from client
      threads to devices; deregistration and the shared receive buffer do not.

    Wedge (afterburn-wedge):
    - Pic.v, PicSpec.v: the 8259A pair and the interrupt logic (device/i8259a.cc,
      ia32/intlogic.h). They refine a controller on sets of interrupts with fixed
      priorities; programming and mask writes have their exact effect.
    - Apic.v, ApicSpec.v, ApicTypes.v, ApicIrq.v, ApicRuns.v: local APICs, I/O APICs and
      the interrupt logic with them (device/lapic.cc, device/i82093.cc, ia32/intlogic.cc
      and their headers). The page of a local APIC refines a priority controller;
      registers stay well-formed; the set-up divides the interrupt sources; a
      level-triggered interrupt makes its way to the guest and back to the device.
    - Ide.v, IdeSpec.v, IdeHazards.v: the IDE drives and their client of the block server
      (device/ide.cc, ide.h). A guest that follows the protocol of programmed I/O sees a
      disk; larger writes and some registers are not as they should be.
    - Rtc.v: the calendar, the real-time clock and the CMOS registers (common/aftertime.cc,
      device/rtc.h, device/mc146818rtc.cc). The calendar is compared with counting days
      for every 32-bit time; the time registers always show one time, a day late before
      noon.
    - Pit.v: the interval timer (device/i8254.cc, l4ka/intmath.h). Counters are those of an
      8254, computed from the clock when they are read; the ticks of the periodic timer
      come at the programmed period as often as the wedge polls.
    - Rewrite.v: the rewriter of guest instructions (ia32/rewrite_stackless.cc and .h,
      ia32/instr.h, ia32/ops.h, l4ka/rewrite_stackless.h): the emitters, the patch of each
      instruction, and the tables of sensitive instructions, device accesses and bit
      operations.
    - Ia32.v: the reference for it, a decoder and a machine for the instructions that it
      emits.
    - RewriteSpec.v: what each emitter leaves in memory, as decoded code.
    - RewritePatch.v: a kernel that is rewritten successfully calls only the wedge and is
      unchanged outside the blocks; and a table from the architecture's operation codes to
      the code that has to stand in for them, which the rewriter produces exactly.
    - RewriteDevice.v: the code for a device access, executed, makes the access that the
      guest's instruction meant and restores the processor.
    - RewriteRuns.v: instances, and instructions that are translated wrongly.

    ** Bounds and fuel

    Loops over rings and chains carry fuel. It is the number of slots for a ring
    (a loop that revisits a slot finds it not ready), the number of nodes for a chain,
    the number of packets of all clients for the transmit loop, 32 for loops over the
    bits of a word and over the destinations of an interrupt. The loop over instruction
    prefixes is not bounded by its block in the source either; its fuel is an argument, and
    128 is enough for blocks of at most 128 bytes that do not consist of prefixes only. Running
    out is the fault [Diverged], and the safety theorems exclude it, so every modelled
    loop terminates.

    ** Not modelled

    The marshalling of IDL stubs and module boilerplate (glue/glue.c); the reading of
    energy counters from the kernel's log (glue/earm.c), whose macros and weights
    belong to L4, and the debug thread that prints the accounts (block/earm_client.c);
    the block trace and the policy template (ebc_trace.c, ebc_policy-template.c), which
    only record or stub out. In the wedge: the bus master of the IDE controller, the
    ACPI tables, the serial, keyboard and network devices, the walk over the ELF
    sections, the emulation of privileged state behind the calls of rewritten code, the
    64-bit rewriter, and the back ends, which are C++ and assembly on hypervisor
    interfaces. The resource monitor and the native drivers run on L4 or on hardware.
    Vendored code (QEMU, BIOS images, benchmarks) is not part of the system.

    ** What the proofs found

    Some theorems and examples prove that the code fails outside the assumptions of
    the others: lost wake-ups of the pending flags (IrqProtocol.v), a rejected
    descriptor or a detach with I/O in flight (BlockHazards.v), error paths of
    registration (BlockControl.v), the free list after a flush (CacheMgnt.v), the last
    deletion from a hash map (LHMap.v), receiving after a failed allocation
    (NetRecvProtocol.v), deregistration and concurrent registration at the PCI server
    (PciSpec.v), fragments of a client not at bus address 0 (NetProtocol.v), the
    end of interrupt at the slave controller (PicSpec.v), interrupts lost or registers
    overrun in the APICs (ApicRuns.v), large writes, selection and early answers of the IDE
    drives (IdeHazards.v), dates and the periodic timer of the clock (Rtc.v), modes of
    the interval timer without interrupts (Pit.v), a query that reads past an account and
    a throttle that is off by one (Earm.v), and prefixes, string transfers, segment moves, short blocks and
    operands that the rewriter gets wrong (RewriteRuns.v). *)

From stdpp Require Import base list gmap numbers.
From Stdlib Require Import ZArith Lia.

#[global] Open Scope Z_scope.
#[global] Coercion Z.of_nat : nat >-> Z.

(** ** Outcomes of C code

    C code that completes returns a value and a new state; code that
    dereferences a bad pointer, fails an [ASSERT], or calls [panic()] or
    [BUG()] stops with the reason. *)
Inductive fault : Type :=
  | NullDeref        (** dereference of a NULL pointer *)
  | DanglingDeref    (** dereference of memory that is not allocated *)
  | OutOfBounds      (** array index outside the array *)
  | DivByZero        (** [%] or [/] by zero *)
  | AssertFail       (** a failed [ASSERT]: enters the kernel debugger *)
  | KernelPanic      (** Linux [panic()] *)
  | KernelBug        (** Linux [BUG()] *)
  | Diverged.        (** the fuel of a loop ran out *)

#[global] Instance fault_eq_dec : EqDecision fault.
Proof. solve_decision. Defined.

Inductive res (S A : Type) : Type :=
  | Ok (a : A) (s : S)
  | Err (f : fault).
Arguments Ok {S A} a s.
Arguments Err {S A} f.

(** The state-and-fault monad the translated handlers are written in. *)
Definition M (S A : Type) : Type := S → res S A.

#[global] Instance M_ret {S} : MRet (M S) := λ A a s, Ok a s.
#[global] Instance M_bind {S} : MBind (M S) := λ A B k m s,
  match m s with Ok a s' => k a s' | Err f => Err f end.

Definition mfault {S A} (f : fault) : M S A := λ _, Err f.
Definition mget {S} : M S S := λ s, Ok s s.
Definition mput {S} (s : S) : M S unit := λ _, Ok tt s.
Definition mgets {S A} (f : S → A) : M S A := λ s, Ok (f s) s.
Definition mmodify {S} (f : S → S) : M S unit := λ s, Ok tt (f s).

(** [ASSERT(b)] of block.h and net.h in a build without the OPTIMIZE option. *)
Definition massert {S} (b : bool) : M S unit :=
  if b then mret tt else mfault AssertFail.

(** Reading through an optional pointer or an array slot. *)
Definition mof_option {S A} (f : fault) (o : option A) : M S A :=
  match o with Some a => mret a | None => mfault f end.

Definition mof_sum {S A} (r : fault + A) : M S A :=
  match r with inl f => mfault f | inr a => mret a end.

Section monad_lemmas.
Context {S A B : Type}.

(** A statement that completes is replaced by its result. *)
Lemma bind_ok (m : M S A) (k : A → M S B) s a s' :
  m s = Ok a s' → (m ≫= k) s = k a s'.
Proof. intros H. unfold mbind, M_bind. by rewrite H. Qed.

Lemma bind_mret (a : A) (k : A → M S B) s : ((mret a : M S A) ≫= k) s = k a s.
Proof. done. Qed.

Lemma bind_err (m : M S A) (k : A → M S B) s f :
  m s = Err f → (m ≫= k) s = Err f.
Proof. intros H. unfold mbind, M_bind. by rewrite H. Qed.

(** Inversion of a completed sequence. *)
Lemma bind_ok_inv (m : M S A) (k : A → M S B) s b s' :
  (m ≫= k) s = Ok b s' → ∃ a s1, m s = Ok a s1 ∧ k a s1 = Ok b s'.
Proof. unfold mbind, M_bind. destruct (m s); naive_solver. Qed.

Lemma massert_ok b (s : S) : b = true → massert b s = Ok tt s.
Proof. by intros ->. Qed.

Lemma massert_inv b (s s' : S) u : massert b s = Ok u s' → b = true ∧ s' = s.
Proof. destruct b; simpl; [intros [= _ ->]|]; done. Qed.

Lemma mof_option_ok f (o : option A) a (s : S) :
  o = Some a → mof_option f o s = Ok a s.
Proof. by intros ->. Qed.

Lemma mof_option_inv f (o : option A) a (s s' : S) :
  mof_option f o s = Ok a s' → o = Some a ∧ s' = s.
Proof. destruct o; simpl; [intros [= -> ->]|]; done. Qed.
End monad_lemmas.

(** ** Weakest preconditions

    [wp F m Q s]: from [s], the code [m] completes with [Q] or stops with a
    fault that [F] admits. [F := any_fault] is partial correctness,
    [F := no_fault] total correctness. *)
Definition wp {S A} (F : fault → Prop) (m : M S A) (Q : A → S → Prop) (s : S) : Prop :=
  match m s with Ok a s' => Q a s' | Err f => F f end.
Definition any_fault (f : fault) : Prop := True.
Definition no_fault (f : fault) : Prop := False.

Section wp_lemmas.
Context {S : Type} (F : fault → Prop).

Lemma wp_bind {A B} (m : M S A) (k : A → M S B) Q s :
  wp F m (λ a s', wp F (k a) Q s') s → wp F (m ≫= k) Q s.
Proof. unfold wp, mbind, M_bind. by destruct (m s). Qed.
Lemma wp_mret {A} (a : A) Q (s : S) : Q a s → wp F (mret a) Q s.
Proof. done. Qed.
Lemma wp_mget Q (s : S) : Q s s → wp F mget Q s.
Proof. done. Qed.
Lemma wp_mgets {A} (f : S → A) Q s : Q (f s) s → wp F (mgets f) Q s.
Proof. done. Qed.
Lemma wp_mmodify f Q (s : S) : Q tt (f s) → wp F (mmodify f) Q s.
Proof. done. Qed.
Lemma wp_mfault {A} f (Q : A → S → Prop) s : F f → wp F (mfault f) Q s.
Proof. done. Qed.
Lemma wp_massert b Q (s : S) :
  (b = false → F AssertFail) → (b = true → Q tt s) → wp F (massert b) Q s.
Proof. unfold wp. destruct b; simpl; auto. Qed.
Lemma wp_mof_option {A} f (o : option A) Q (s : S) :
  (o = None → F f) → (∀ a, o = Some a → Q a s) → wp F (mof_option f o) Q s.
Proof. unfold wp. destruct o; simpl; auto. Qed.
Lemma wp_mof_sum {A} (r : fault + A) Q (s : S) :
  (∀ f, r = inl f → F f) → (∀ a, r = inr a → Q a s) → wp F (mof_sum r) Q s.
Proof. unfold wp. destruct r; simpl; auto. Qed.
Lemma wp_mono {A} (m : M S A) (P Q : A → S → Prop) s :
  wp F m P s → (∀ a s', P a s' → Q a s') → wp F m Q s.
Proof. unfold wp. destruct (m s); auto. Qed.
Lemma wp_ok {A} (m : M S A) Q s a s' : wp F m Q s → m s = Ok a s' → Q a s'.
Proof. unfold wp. intros H Hm. by rewrite Hm in H. Qed.
Lemma wp_run {A} (m : M S A) Q s a s' : m s = Ok a s' → Q a s' → wp F m Q s.
Proof. unfold wp. by intros ->. Qed.
End wp_lemmas.

Lemma wp_no_fault {S A} (m : M S A) Q s :
  wp no_fault m Q s → ∃ a s', m s = Ok a s' ∧ Q a s'.
Proof. unfold wp. destruct (m s); [eauto|done]. Qed.

(** Code that can only stop with the fault [f]. *)
Lemma wp_only_fault {S A} (m : M S A) f s : wp (λ g, g = f) m (λ _ _, False) s → m s = Err f.
Proof. unfold wp. destruct (m s); naive_solver. Qed.

(** ** Machine words

    A [w]-bit unsigned integer is a [Z]; a store into a [w]-bit field wraps. *)
Definition wrap (w x : Z) : Z := x `mod` 2 ^ w.
Abbreviation u8 := (wrap 8).
Abbreviation u16 := (wrap 16).
Abbreviation u32 := (wrap 32).
Abbreviation u64 := (wrap 64).

Lemma wrap_small w x : 0 ≤ x < 2 ^ w → wrap w x = x.
Proof. apply Z.mod_small. Qed.

Lemma wrap_range w x : 0 ≤ w → 0 ≤ wrap w x < 2 ^ w.
Proof. intros. apply Z.mod_pos_bound. by apply Z.pow_pos_nonneg. Qed.

(** ** Arrays indexed by machine integers *)
Definition zlookup {A} (l : list A) (i : Z) : option A :=
  if decide (0 ≤ i) then l !! Z.to_nat i else None.
Definition zinsert {A} (i : Z) (x : A) (l : list A) : list A :=
  if decide (0 ≤ i) then <[Z.to_nat i := x]> l else l.

Section arrays.
Context {A : Type}.
Implicit Types (l : list A) (x y : A) (i j : Z).

Lemma zlookup_lt l i x : zlookup l i = Some x → 0 ≤ i < length l.
Proof.
  unfold zlookup. case_decide; [|done]. intros Hl.
  apply lookup_lt_Some in Hl. lia.
Qed.

Lemma zlookup_is_Some l i : 0 ≤ i < length l → is_Some (zlookup l i).
Proof.
  intros. unfold zlookup. rewrite decide_True by lia.
  apply lookup_lt_is_Some. lia.
Qed.

Lemma length_zinsert i x l : length (zinsert i x l) = length l.
Proof. unfold zinsert. case_decide; [apply length_insert|done]. Qed.

Lemma zlookup_zinsert_eq l i x : 0 ≤ i < length l → zlookup (zinsert i x l) i = Some x.
Proof.
  intros. unfold zlookup, zinsert. rewrite !decide_True by lia.
  apply list_lookup_insert_eq. lia.
Qed.

Lemma zlookup_zinsert_ne l i j x : i ≠ j → zlookup (zinsert i x l) j = zlookup l j.
Proof.
  intros. unfold zlookup, zinsert. repeat case_decide; try done.
  apply list_lookup_insert_ne. lia.
Qed.

Lemma zlookup_zinsert l i j x :
  0 ≤ i < length l →
  zlookup (zinsert i x l) j = if decide (i = j) then Some x else zlookup l j.
Proof.
  intros. case_decide; subst; [by apply zlookup_zinsert_eq|by apply zlookup_zinsert_ne].
Qed.

Lemma zinsert_id l i x : zlookup l i = Some x → zinsert i x l = l.
Proof. unfold zlookup, zinsert. case_decide; [apply list_insert_id|done]. Qed.

Lemma zinsert_zinsert i x y l : zinsert i x (zinsert i y l) = zinsert i x l.
Proof. unfold zinsert. case_decide; [apply list_insert_insert_eq|done]. Qed.

Lemma zlookup_replicate (n : nat) x i : 0 ≤ i < n → zlookup (replicate n x) i = Some x.
Proof.
  intros. unfold zlookup. rewrite decide_True by lia.
  apply lookup_replicate. split; [done|lia].
Qed.
End arrays.

Lemma zlookup_fmap {A B} (f : A → B) l i : zlookup (f <$> l) i = f <$> zlookup l i.
Proof. unfold zlookup. case_decide; [apply list_lookup_fmap|done]. Qed.

(** ** Circular buffers

    A ring of [n] slots is addressed by positions that only grow; position
    [p] lives in slot [p mod n]. *)
Definition slot (n p : nat) : Z := (p `mod` n)%nat.

(** The C idiom [(i + 1) % n], stored into a 16-bit index. *)
Definition cnext (n i : Z) : Z := u16 (Z.rem (i + 1) n).

Section slots.
Context (n : nat) (Hn : (0 < n)%nat).

Lemma slot_range p : 0 ≤ slot n p < n.
Proof. unfold slot. pose proof (Nat.mod_upper_bound p n). lia. Qed.

Lemma slot_succ p : n ≤ 2 ^ 16 → cnext n (slot n p) = slot n (S p).
Proof.
  intros Hle. unfold cnext. pose proof (slot_range p) as Hr.
  assert (Z.rem (slot n p + 1) n = slot n (S p)) as ->.
  { rewrite Z.rem_mod_nonneg by lia. unfold slot.
    replace (Z.of_nat (p `mod` n) + 1) with (Z.of_nat (S (p `mod` n))) by lia.
    rewrite <- Nat2Z.inj_mod. f_equal.
    replace (S (p `mod` n)) with ((p `mod` n + 1))%nat by lia.
    rewrite Nat.Div0.add_mod_idemp_l. f_equal. lia. }
  apply wrap_small. pose proof (slot_range (S p)). lia.
Qed.

Lemma slot_inj p i j : (i < n)%nat → (j < n)%nat → slot n (p + i) = slot n (p + j) → i = j.
Proof.
  unfold slot. intros Hi Hj Heq. apply Nat2Z.inj in Heq.
  pose proof (Nat.div_mod_eq (p + i) n) as Ei. pose proof (Nat.div_mod_eq (p + j) n) as Ej.
  rewrite Heq in Ei. remember ((p + i) `div` n)%nat as a. remember ((p + j) `div` n)%nat as b.
  destruct (Nat.lt_trichotomy a b) as [?|[->|?]]; [|lia|];
    [assert (n * (a + 1) ≤ n * b)%nat|assert (n * (b + 1) ≤ n * a)%nat];
    try (apply Nat.mul_le_mono_l); lia.
Qed.

(** Positions that differ by less than [n] have different slots. *)
Lemma slot_ne p q : p ≠ q → (p < q + n)%nat → (q < p + n)%nat → slot n p ≠ slot n q.
Proof.
  intros Hne H1 H2 Heq. apply Hne.
  destruct (decide (p ≤ q)%nat).
  - assert (0 = q - p)%nat; [|lia].
    apply (slot_inj p); [lia..|]. rewrite Nat.add_0_r, Heq. f_equal. lia.
  - assert (0 = p - q)%nat; [|lia].
    apply (slot_inj q); [lia..|]. rewrite Nat.add_0_r, <- Heq. f_equal. lia.
Qed.

Lemma slot_add_n p : slot n (p + n) = slot n p.
Proof.
  unfold slot. f_equal. rewrite <- (Nat.mul_1_l n) at 1. apply Nat.Div0.mod_add.
Qed.

(** Every slot is that of exactly one position of a window of length [n]. *)
Lemma slot_window p k : 0 ≤ k < n → ∃ i, (i < n)%nat ∧ slot n (p + i) = k.
Proof.
  intros Hk. exists ((Z.to_nat k + n - p `mod` n) `mod` n)%nat.
  split; [apply Nat.mod_upper_bound; lia|]. unfold slot.
  rewrite Nat.Div0.add_mod_idemp_r.
  pose proof (Nat.mod_upper_bound p n). pose proof (Nat.div_mod_eq p n).
  replace (p + (Z.to_nat k + n - p `mod` n))%nat
    with (Z.to_nat k + (p `div` n + 1) * n)%nat by lia.
  rewrite Nat.Div0.mod_add, Nat.mod_small by lia. lia.
Qed.
End slots.

(** ** Automation *)

(** Run one completed statement of a translated function. *)
Ltac mstep H := rewrite (bind_ok _ _ _ _ _ H); cbv beta zeta.

Ltac mret_step := rewrite bind_mret; cbv beta zeta.

(** Open one level of a completed sequence. *)
Ltac minv H :=
  lazymatch type of H with
  | (_ ≫= _) _ = Ok _ _ =>
      let a := fresh "a" in let s := fresh "s" in let H1 := fresh "Hm" in
      apply bind_ok_inv in H as (a & s & H1 & H)
  end.

(** One symbolic step of a [wp] goal; branches of the code become goals. *)
Ltac wp_step :=
  lazymatch goal with
  | |- wp _ (_ ≫= _) _ _ => apply wp_bind; cbv beta
  | |- wp _ (mret _) _ _ => apply wp_mret; cbv beta
  | |- wp _ mget _ _ => apply wp_mget; cbv beta
  | |- wp _ (mgets _) _ _ => apply wp_mgets; cbv beta
  | |- wp _ (mmodify _) _ _ => apply wp_mmodify; cbv beta
  | |- wp _ (mfault _) _ _ => apply wp_mfault; try exact I
  | |- wp _ (massert _) _ _ => apply wp_massert; [intros ?; try exact I|intros ?]
  | |- wp _ (mof_option _ _) _ _ => apply wp_mof_option; [intros ?; try exact I|intros ? ?]
  | |- wp _ (let '_ := ?x in _) _ _ => destruct x eqn:?
  | |- wp _ (if ?b then _ else _) _ _ => destruct b eqn:?
  | |- wp _ (match ?x with _ => _ end) _ _ => destruct x eqn:?
  end.
Ltac wp_steps := repeat (cbv zeta; wp_step).

Create HintDb ab.
Create Rewrite HintDb ab.
#[export] Hint Resolve wrap_range massert_ok mof_option_ok : ab.
#[export] Hint Rewrite @length_zinsert @length_insert @length_replicate : ab.
