(* ===== verification/CmdRing.v ===== *)
(** * Command rings and virtual interrupts of the driver servers

    Models l4ka-driver-reuse/kernel/glue/vmserver.c and vmserver.h: the ring
    of eight commands through which a server thread hands client requests
    to the Linux side of the driver VM, the delivery of the virtual
    interrupt that announces them, and the locator calls. *)

From stdpp Require Import base list numbers relations.
From Stdlib Require Import ZArith Lia.
From S2P Require Import Prelude.

(** ** Data *)

Definition L4VM_SERVER_CMD_RING_LEN : nat := 8.

(** [H] is the type of command handlers (C function pointers), [D] what
    [cmd->data] points to. *)
Record L4VM_server_cmd_t (H D : Type) : Type := mk_cmd {
  handler : option H;
  reply_to_tid : Z;
  cmd_data : option D
}.
Arguments mk_cmd {H D}.
Arguments handler {H D}.
Arguments reply_to_tid {H D}.
Arguments cmd_data {H D}.

Record L4VM_server_cmd_ring_t (H D : Type) : Type := mk_cmd_ring {
  next_free : Z;
  next_cmd : Z;
  wake_server : bool;
  ring_server_tid : Z;
  cmds : list (L4VM_server_cmd_t H D)
}.
Arguments mk_cmd_ring {H D}.
Arguments next_free {H D}.
Arguments next_cmd {H D}.
Arguments wake_server {H D}.
Arguments ring_server_tid {H D}.
Arguments cmds {H D}.

(** The interrupt words a server passes by reference. *)
Record irq_words : Type := mk_irq { irq_status : Z; irq_pending : bool }.

(** Calls that leave the module: L4 IPC and the wedge. *)
Inductive l4_event : Type :=
  | EvSendVirq (irq_no tid : Z)     (** l4ka_wedge_send_virtual_irq *)
  | EvRaiseIrq (irq_no : Z)         (** l4ka_wedge_raise_irq *)
  | EvIpc (to_tid irq_no : Z)       (** L4_Ipc to [to_tid], wait for anyone *)
  | EvReply (tid : Z).              (** L4_Reply *)

Definition L4_nilthread : Z := 0.

(** ** Operations *)

(** [irq_status_reset]: read the events and clear the word, atomically. *)
Definition irq_status_reset (w : irq_words) : Z * irq_words :=
  (irq_status w, mk_irq 0 (irq_pending w)).

(** [ipc_failed] is the outcome of the send IPC. *)
Definition L4VM_server_deliver_irq (ipc_failed : bool)
    (irq_tid irq_no irq_flags irq_mask : Z) (w : irq_words) : irq_words * list l4_event :=
  let st := u32 (Z.lor (irq_status w) irq_flags) in
  if negb (bool_decide (Z.land st irq_mask = 0)) && negb (irq_pending w) then
    (mk_irq st true,
     EvSendVirq irq_no irq_tid :: if ipc_failed then [EvRaiseIrq irq_no] else [])
  else (mk_irq st (irq_pending w), []).

Section ring.
Context {H D : Type}.
Implicit Types (r : L4VM_server_cmd_ring_t H D) (c : L4VM_server_cmd_t H D).

Definition ring_succ (i : Z) : Z := cnext L4VM_SERVER_CMD_RING_LEN i.

Definition set_wake_server (b : bool) r :=
  mk_cmd_ring (next_free r) (next_cmd r) b (ring_server_tid r) (cmds r).
Definition set_next_free (i : Z) r :=
  mk_cmd_ring i (next_cmd r) (wake_server r) (ring_server_tid r) (cmds r).
Definition set_next_cmd (i : Z) r :=
  mk_cmd_ring (next_free r) i (wake_server r) (ring_server_tid r) (cmds r).
Definition set_cmd (i : Z) c r :=
  mk_cmd_ring (next_free r) (next_cmd r) (wake_server r) (ring_server_tid r)
    (zinsert i c (cmds r)).

(** [L4VM_server_cmd_init]; [data] and [server_tid] are left as they were. *)
Definition L4VM_server_cmd_init r : L4VM_server_cmd_ring_t H D :=
  mk_cmd_ring 0 0 false (ring_server_tid r)
    ((λ c, mk_cmd None L4_nilthread (cmd_data c)) <$> cmds r).

(** The body of the wait loop of [L4VM_server_cmd_allocate], up to and
    including the IPC. *)
Definition cmd_allocate_wait (irq_tid irq_no irq_flags irq_mask : Z) r (w : irq_words)
    : L4VM_server_cmd_ring_t H D * irq_words * l4_event :=
  let r := set_wake_server true r in
  let st := u32 (Z.lor (irq_status w) irq_flags) in
  if negb (bool_decide (Z.land st irq_mask = 0)) && negb (irq_pending w)
  then (r, mk_irq st true, EvIpc irq_tid irq_no)
  else (r, mk_irq st (irq_pending w), EvIpc L4_nilthread irq_no).

(** [L4VM_server_cmd_allocate]. While the thread waits in [L4_Ipc] the
    rest of the system runs: [ipc] maps the ring, the interrupt words and
    the rest [x] of the driver's state at the call to those at its return,
    with whether the IPC failed. *)
Fixpoint L4VM_server_cmd_allocate_loop {X : Type}
    (ipc : l4_event → L4VM_server_cmd_ring_t H D → irq_words → X →
           bool * (L4VM_server_cmd_ring_t H D * irq_words * X))
    (irq_tid irq_no irq_flags irq_mask cmd_idx : Z)
    (fuel : nat) r (w : irq_words) (x : X) (evs : list l4_event)
    : option (Z * L4VM_server_cmd_ring_t H D * irq_words * X * list l4_event) :=
  match fuel with
  | O => None
  | S fuel =>
      c ← zlookup (cmds r) cmd_idx;
      match handler c with
      | None => Some (cmd_idx, set_next_free (ring_succ (next_free r)) r, w, x, evs)
      | Some _ =>
          let '(r1, w1, ev) := cmd_allocate_wait irq_tid irq_no irq_flags irq_mask r w in
          let '(failed, (r2, w2, x2)) := ipc ev r1 w1 x in
          L4VM_server_cmd_allocate_loop ipc irq_tid irq_no irq_flags irq_mask cmd_idx fuel
            r2 w2 x2 (evs ++ ev :: if failed then [EvRaiseIrq irq_no] else [])
      end
  end.

Definition L4VM_server_cmd_allocate {X : Type} ipc (irq_tid irq_no irq_flags irq_mask : Z)
    (fuel : nat) r w (x : X) :=
  L4VM_server_cmd_allocate_loop ipc irq_tid irq_no irq_flags irq_mask (next_free r) fuel r w x [].

(** [L4VM_server_cmd_dispatcher] over a driver state [S]; [run] is the
    indirect call [cmd->handler(cmd, data)]. *)
Fixpoint L4VM_server_cmd_dispatch_loop {S : Type}
    (run : H → L4VM_server_cmd_t H D → S → S) (fuel : nat) r (s : S)
    : option (L4VM_server_cmd_ring_t H D * S) :=
  match fuel with
  | O => None
  | Datatypes.S fuel =>
      c ← zlookup (cmds r) (next_cmd r);
      match handler c with
      | None => Some (r, s)
      | Some h =>
          let s := run h c s in
          let r := set_cmd (next_cmd r) (mk_cmd None (reply_to_tid c) (cmd_data c)) r in
          L4VM_server_cmd_dispatch_loop run fuel (set_next_cmd (ring_succ (next_cmd r)) r) s
      end
  end.

Definition L4VM_server_cmd_dispatcher {S : Type}
    (run : H → L4VM_server_cmd_t H D → S → S) (server_tid : Z) (fuel : nat) r (s : S)
    : option (L4VM_server_cmd_ring_t H D * S * list l4_event) :=
  '(r, s) ← L4VM_server_cmd_dispatch_loop run fuel r s;
  if wake_server r then Some (set_wake_server false r, s, [EvReply server_tid])
  else Some (r, s, []).

(** What a service stub of the server thread does with the slot it was
    given (e.g. [IVMblock_Control_probe_implementation]): the parameters
    and the reply address first, the handler last. *)
Definition cmd_fill (i tid : Z) (d : D) r : L4VM_server_cmd_ring_t H D :=
  match zlookup (cmds r) i with
  | Some c => set_cmd i (mk_cmd (handler c) tid (Some d)) r
  | None => r
  end.
Definition cmd_publish (i : Z) (h : H) r : L4VM_server_cmd_ring_t H D :=
  match zlookup (cmds r) i with
  | Some c => set_cmd i (mk_cmd (Some h) (reply_to_tid c) (cmd_data c)) r
  | None => r
  end.
End ring.

(** ** Locator calls *)
Inductive corba_major : Type :=
  | CORBA_NO_EXCEPTION | CORBA_USER_EXCEPTION | CORBA_SYSTEM_EXCEPTION.

Definition ENODEV : Z := 19.
Definition EIO : Z := 5.

(** [major] is the exception the locator IPC comes back with. *)
Definition L4VM_server_register_location (major : corba_major) : Z :=
  match major with
  | CORBA_USER_EXCEPTION => - ENODEV
  | CORBA_NO_EXCEPTION => 0
  | _ => - EIO
  end.
Definition L4VM_server_locate (major : corba_major) : Z :=
  match major with
  | CORBA_USER_EXCEPTION => - ENODEV
  | CORBA_NO_EXCEPTION => 0
  | _ => - EIO
  end.

(** ** The queue a ring represents *)

Section theory.
Context {H D : Type}.
Implicit Types (r : L4VM_server_cmd_ring_t H D) (c : L4VM_server_cmd_t H D).
Abbreviation len := L4VM_SERVER_CMD_RING_LEN.

(** [ring_repr p b q r]: the oldest command sits at position [p]; [q] are
    the published commands, oldest first; [b] tells whether the server
    thread holds a slot it has not published yet. *)
Record ring_repr (p : nat) (b : bool) (q : list (L4VM_server_cmd_t H D)) r : Prop := {
  rr_len : length (cmds r) = len;
  rr_cap : (length q + Nat.b2n b ≤ len)%nat;
  rr_cmd : next_cmd r = slot len p;
  rr_free : next_free r = slot len (p + length q + Nat.b2n b);
  rr_pub : ∀ i c, q !! i = Some c →
    zlookup (cmds r) (slot len (p + i)) = Some c ∧ is_Some (handler c);
  rr_idle : ∀ i, (length q ≤ i < len)%nat →
    ∃ c, zlookup (cmds r) (slot len (p + i)) = Some c ∧ handler c = None
}.

Definition ring_queue (b : bool) (q : list (L4VM_server_cmd_t H D)) r : Prop :=
  ∃ p, ring_repr p b q r.

Lemma ring_succ_slot p : ring_succ (slot len p) = slot len (S p).
Proof. apply slot_succ; unfold len; lia. Qed.

Lemma slot_len_range p : 0 ≤ slot len p < len.
Proof. apply slot_range. unfold len. lia. Qed.

Lemma slot_len_ne p i j : (i < len)%nat → (j < len)%nat → i ≠ j →
  slot len (p + i) ≠ slot len (p + j).
Proof. intros ?? Hne Heq. apply Hne. apply (slot_inj len) with p; auto. unfold len; lia. Qed.

Lemma ring_repr_wake p b q r v : ring_repr p b q r → ring_repr p b q (set_wake_server v r).
Proof. by intros []. Qed.

(** The head of the queue is the command the dispatcher looks at. *)
Lemma ring_repr_head p b c q r :
  ring_repr p b (c :: q) r → zlookup (cmds r) (next_cmd r) = Some c ∧ is_Some (handler c).
Proof.
  intros [? ? -> ? Hpub ?]. destruct (Hpub O c) as [Hl ?]; [done|].
  by rewrite Nat.add_0_r in Hl.
Qed.

Lemma ring_repr_nil p b r :
  ring_repr p b [] r → ∃ c, zlookup (cmds r) (next_cmd r) = Some c ∧ handler c = None.
Proof.
  intros [? ? -> ? ? Hidle]. destruct (Hidle O) as (c & Hl & ?); [simpl; unfold len; lia|].
  rewrite Nat.add_0_r in Hl. eauto.
Qed.

(** The slot at [next_free] is free unless the ring is full. *)
Lemma ring_repr_free_slot p q r :
  ring_repr p false q r →
  ∃ c, zlookup (cmds r) (next_free r) = Some c ∧ (handler c = None ↔ (length q < len)%nat).
Proof.
  intros [? Hcap ? -> Hpub Hidle]. simpl in Hcap. rewrite Nat.add_0_r.
  destruct (decide (length q < len)%nat).
  - destruct (Hidle (length q)) as (c & ? & ?); [lia|]. exists c. tauto.
  - destruct q as [|c q]; [simpl in *; unfold len in *; lia|].
    assert (length (c :: q) = len) as -> by lia.
    rewrite slot_add_n by (unfold len; lia). destruct (Hpub O c) as [Hl [h Hh]]; [done|].
    rewrite Nat.add_0_r in Hl. exists c. split; [done|]. rewrite Hh. split; [done|lia].
Qed.

(** Reserving the slot at [next_free]. *)
Lemma ring_repr_reserve p q r :
  ring_repr p false q r → (length q < len)%nat →
  ring_repr p true q (set_next_free (ring_succ (next_free r)) r).
Proof.
  intros [? ? ? Hfree ? ?] ?. split; simpl; auto; [lia|].
  rewrite Hfree, ring_succ_slot. f_equal. simpl. lia.
Qed.

(** A store into the reserved slot, with the handler still NULL. *)
Lemma ring_repr_fill p q r tid d :
  ring_repr p true q r → ring_repr p true q (cmd_fill (slot len (p + length q)) tid d r).
Proof.
  intros [Hlen Hcap Hcmd Hfree Hpub Hidle]. unfold cmd_fill. simpl in Hcap.
  destruct (Hidle (length q)) as (c0 & Hc0 & Hh0); [lia|]. rewrite Hc0.
  split; simpl; auto.
  - by rewrite length_zinsert.
  - intros i c Hq. apply lookup_lt_Some in Hq as Hi.
    rewrite zlookup_zinsert_ne; [auto|]. apply slot_len_ne; lia.
  - intros i Hi. rewrite zlookup_zinsert by (rewrite Hlen; apply slot_len_range).
    case_decide; [|auto]. eexists; split; [done|]. by simpl.
Qed.

(** Publishing the reserved slot appends it to the queue. *)
Lemma ring_repr_publish p q r h c0 :
  ring_repr p true q r →
  zlookup (cmds r) (slot len (p + length q)) = Some c0 →
  ring_repr p false (q ++ [mk_cmd (Some h) (reply_to_tid c0) (cmd_data c0)])
    (cmd_publish (slot len (p + length q)) h r).
Proof.
  intros [Hlen Hcap Hcmd Hfree Hpub Hidle] Hc0. unfold cmd_publish. rewrite Hc0.
  simpl in *.
  split; simpl; rewrite ?length_app; simpl; auto.
  - by rewrite length_zinsert.
  - lia.
  - rewrite Hfree. f_equal. lia.
  - intros i c Hq. rewrite zlookup_zinsert by (rewrite Hlen; apply slot_len_range).
    apply lookup_app_Some in Hq as [Hq|[Hi Hq]].
    + apply lookup_lt_Some in Hq as Hi. rewrite decide_False; [auto|].
      apply slot_len_ne; lia.
    + apply list_lookup_singleton_Some in Hq as [? <-].
      rewrite decide_True by (f_equal; lia). eauto.
  - intros i Hi. rewrite zlookup_zinsert_ne; [apply Hidle; lia|]. apply slot_len_ne; lia.
Qed.

(** Releasing the head slot and moving on removes the oldest command. *)
Lemma ring_repr_dispatch p b c q r c' :
  ring_repr p b (c :: q) r → handler c' = None →
  ring_repr (S p) b q
    (set_next_cmd (ring_succ (next_cmd r)) (set_cmd (next_cmd r) c' r)).
Proof.
  intros [Hlen Hcap Hcmd Hfree Hpub Hidle] Hc'. simpl in Hcap.
  split; simpl; auto.
  - by rewrite length_zinsert.
  - lia.
  - by rewrite Hcmd, ring_succ_slot.
  - rewrite Hfree. f_equal. simpl. lia.
  - intros i c1 Hq. apply lookup_lt_Some in Hq as Hi.
    rewrite Hcmd, zlookup_zinsert_ne.
    + replace (S (p + i)) with (p + S i)%nat by lia. by apply Hpub.
    + replace (slot len p) with (slot len (p + 0)) by (f_equal; lia).
      replace (S (p + i)) with (p + S i)%nat by lia. apply slot_len_ne; unfold len in *; lia.
  - intros i Hi. rewrite Hcmd, zlookup_zinsert by (rewrite Hlen; apply slot_len_range).
    replace (S (p + i)) with (p + S i)%nat by lia.
    case_decide as Hne; [eauto|]. apply Hidle. simpl.
    destruct (decide (S i = len)) as [Heq|]; [|lia].
    rewrite Heq, slot_add_n in Hne by (unfold len; lia). done.
Qed.

Lemma ring_queue_length b q r : ring_queue b q r → (length q + Nat.b2n b ≤ len)%nat.
Proof. by intros [p []]. Qed.
End theory.

(** ** The server thread and the dispatcher, interleaved

    The server thread serves one IDL request at a time: it allocates a slot
    (waiting while the ring is full), stores the parameters, then the
    handler. The dispatcher runs in interrupt or work-queue context and may
    run between any two of these steps. [run] is the call of a command's
    handler, on the rest [X] of the driver's state. *)
Section system.
Context {H D X : Type} (run : H → L4VM_server_cmd_t H D → X → X).
Implicit Types (r : L4VM_server_cmd_ring_t H D).
Abbreviation len := L4VM_SERVER_CMD_RING_LEN.

Definition request : Type := H * Z * D.

Inductive producer : Type :=
  | Ready
  | Waiting (idx : Z) (rq : request)
  | Reserved (idx : Z) (rq : request)
  | Filled (idx : Z) (rq : request).

(** [s_enq] logs the published commands. *)
Record system : Type := mk_system {
  s_ring : L4VM_server_cmd_ring_t H D;
  s_pc : producer;
  s_enq : list request;
  s_drv : X
}.

Inductive sys_step : system → system → Prop :=
  | step_alloc_now r enq x rq c :
      zlookup (cmds r) (next_free r) = Some c → handler c = None →
      sys_step (mk_system r Ready enq x)
        (mk_system (set_next_free (ring_succ (next_free r)) r) (Reserved (next_free r) rq) enq x)
  | step_alloc_block r enq x rq c h :
      zlookup (cmds r) (next_free r) = Some c → handler c = Some h →
      sys_step (mk_system r Ready enq x)
        (mk_system (set_wake_server true r) (Waiting (next_free r) rq) enq x)
  | step_wait_again r enq x idx rq c h :
      zlookup (cmds r) idx = Some c → handler c = Some h →
      sys_step (mk_system r (Waiting idx rq) enq x)
        (mk_system (set_wake_server true r) (Waiting idx rq) enq x)
  | step_wait_done r enq x idx rq c :
      zlookup (cmds r) idx = Some c → handler c = None →
      sys_step (mk_system r (Waiting idx rq) enq x)
        (mk_system (set_next_free (ring_succ (next_free r)) r) (Reserved idx rq) enq x)
  | step_fill r enq x idx h tid d :
      sys_step (mk_system r (Reserved idx (h, tid, d)) enq x)
        (mk_system (cmd_fill idx tid d r) (Filled idx (h, tid, d)) enq x)
  | step_publish r enq x idx h tid d :
      sys_step (mk_system r (Filled idx (h, tid, d)) enq x)
        (mk_system (cmd_publish idx h r) Ready (enq ++ [(h, tid, d)]) x)
  | step_dispatch r pc enq x c h :
      zlookup (cmds r) (next_cmd r) = Some c → handler c = Some h →
      sys_step (mk_system r pc enq x)
        (mk_system (set_next_cmd (ring_succ (next_cmd r))
           (set_cmd (next_cmd r) (mk_cmd None (reply_to_tid c) (cmd_data c)) r))
           pc enq (run h c x))
  | step_wake r pc enq x :
      wake_server r = true →
      sys_step (mk_system r pc enq x) (mk_system (set_wake_server false r) pc enq x).

(** The command a request turns into. *)
Definition request_cmd (rq : request) : L4VM_server_cmd_t H D :=
  let '(h, tid, d) := rq in mk_cmd (Some h) tid (Some d).

(** What dispatching one queued command does to the driver state. *)
Definition run_cmd (x : X) (c : L4VM_server_cmd_t H D) : X :=
  match handler c with Some h => run h c x | None => x end.

Definition holds_slot (pc : producer) : bool :=
  match pc with Reserved _ _ | Filled _ _ => true | _ => false end.

Definition pc_ok (p : nat) (q : list (L4VM_server_cmd_t H D)) r (pc : producer) : Prop :=
  match pc with
  | Ready => True
  | Waiting idx _ => idx = next_free r
  | Reserved idx _ => idx = slot len (p + length q)
  | Filled idx (h, tid, d) => idx = slot len (p + length q) ∧
      zlookup (cmds r) idx = Some (mk_cmd None tid (Some d))
  end.

(** The commands published so far are those whose handlers have run, in
    order, followed by the ones in the ring. *)
Definition sys_inv (x0 : X) (s : system) : Prop :=
  ∃ p q ran, ring_repr p (holds_slot (s_pc s)) q (s_ring s)
    ∧ pc_ok p q (s_ring s) (s_pc s)
    ∧ request_cmd <$> s_enq s = ran ++ q
    ∧ s_drv s = foldl run_cmd x0 ran.

Definition sys_init (r : L4VM_server_cmd_ring_t H D) (x0 : X) : system :=
  mk_system (L4VM_server_cmd_init r) Ready [] x0.

Lemma init_repr r : length (cmds r) = len → ring_repr 0 false [] (L4VM_server_cmd_init r).
Proof.
  intros Hlen. split; simpl; auto.
  - by rewrite length_fmap.
  - unfold len; lia.
  - intros i c Hq. by rewrite lookup_nil in Hq.
  - intros i Hi. unfold slot. rewrite Nat.mod_small by lia.
    unfold zlookup. rewrite decide_True by lia. rewrite list_lookup_fmap, Nat2Z.id.
    destruct (lookup_lt_is_Some_2 (cmds r) i) as [c ->]; [lia|]. simpl. eauto.
Qed.

Lemma reserve_ok p q r pc rq c :
  ring_repr p false q r → holds_slot pc = false →
  zlookup (cmds r) (next_free r) = Some c → handler c = None →
  ring_repr p true q (set_next_free (ring_succ (next_free r)) r)
  ∧ pc_ok p q (set_next_free (ring_succ (next_free r)) r) (Reserved (next_free r) rq).
Proof.
  intros Hr _ Hc Hh. destruct (ring_repr_free_slot _ _ _ Hr) as (c' & Hc' & Hiff).
  simplify_eq. split; [apply ring_repr_reserve; tauto|].
  simpl. rewrite (rr_free _ _ _ _ Hr). f_equal. simpl. lia.
Qed.

(** The dispatcher touches neither the index the producer waits for nor
    the slot it holds. *)
Lemma pc_ok_dispatch p q r pc c c' :
  ring_repr p (holds_slot pc) (c :: q) r → pc_ok p (c :: q) r pc →
  pc_ok (S p) q (set_next_cmd (ring_succ (next_cmd r)) (set_cmd (next_cmd r) c' r)) pc.
Proof.
  intros Hr. pose proof (rr_cap _ _ _ _ Hr) as Hcap.
  destruct pc as [|idx rq|idx rq|idx [[h tid] d]]; simpl in *; try done.
  - intros ->. f_equal. lia.
  - intros [-> Hl]. split; [f_equal; lia|]. rewrite zlookup_zinsert_ne; [done|].
    rewrite (rr_cmd _ _ _ _ Hr). replace (slot len p) with (slot len (p + 0)) by (f_equal; lia).
    apply slot_len_ne; unfold len in *; lia.
Qed.

Lemma sys_inv_step x0 s s' : sys_step s s' → sys_inv x0 s → sys_inv x0 s'.
Proof.
  intros Hstep (p & q & ran & Hr & Hpc & Henq & Hx).
  destruct Hstep as [r enq x rq c Hl Hh|r enq x rq c h Hl Hh|r enq x idx rq c h Hl Hh
    |r enq x idx rq c Hl Hh|r enq x idx h tid d|r enq x idx h tid d
    |r pc enq x c h Hl Hh|r pc enq x Hw]; simpl in *.
  - exists p, q, ran. destruct (reserve_ok _ _ _ Ready rq _ Hr eq_refl Hl Hh). auto.
  - exists p, q, ran. split_and!; [by apply ring_repr_wake|done..].
  - exists p, q, ran. split_and!; [by apply ring_repr_wake|done..].
  - subst idx. exists p, q, ran. destruct (reserve_ok _ _ _ Ready rq _ Hr eq_refl Hl Hh). auto.
  - subst idx. exists p, q, ran. split_and!; [by apply ring_repr_fill| |done..]. simpl.
    split; [done|]. unfold cmd_fill.
    pose proof (rr_cap _ _ _ _ Hr) as Hcap. simpl in Hcap.
    destruct (rr_idle _ _ _ _ Hr (length q)) as (c & Hc & Hh); [lia|].
    rewrite Hc, Hh. simpl. apply zlookup_zinsert_eq.
    rewrite (rr_len _ _ _ _ Hr). apply slot_len_range.
  - destruct Hpc as [-> Hl]. exists p, (q ++ [mk_cmd (Some h) tid (Some d)]), ran.
    split_and!; [|done|cbn [s_enq]; rewrite fmap_app, Henq; simpl; by rewrite app_assoc|done].
    apply (ring_repr_publish _ _ _ h _ Hr Hl).
  - destruct q as [|c0 q].
    { apply ring_repr_nil in Hr as (? & ? & ?). congruence. }
    destruct (ring_repr_head _ _ _ _ _ Hr) as [Hl0 _]. simplify_eq.
    exists (S p), q, (ran ++ [c]). split_and!; [by eapply ring_repr_dispatch|by eapply pc_ok_dispatch| |].
    + cbn [s_enq]. rewrite Henq. by rewrite <- app_assoc.
    + cbn [s_drv]. rewrite foldl_app. generalize (foldl run_cmd x0 ran). intros y.
      simpl. unfold run_cmd. by rewrite Hh.
  - exists p, q, ran. split_and!; [by apply ring_repr_wake| |done..].
    by destruct pc as [| | |? [[]]].
Qed.

Lemma sys_inv_reachable r x0 s :
  length (cmds r) = len → rtc sys_step (sys_init r x0) s → sys_inv x0 s.
Proof.
  intros Hlen Hs. remember (sys_init r x0) as s0 eqn:E.
  assert (sys_inv x0 s0) as H0.
  { subst. exists 0%nat, [], []. split_and!; [by apply init_repr|done..]. }
  clear E. induction Hs; eauto using sys_inv_step.
Qed.

(** *** The code's functions are sequences of these steps *)
Lemma dispatch_loop_steps fuel r x r' x' pc enq :
  L4VM_server_cmd_dispatch_loop run fuel r x = Some (r', x') →
  rtc sys_step (mk_system r pc enq x) (mk_system r' pc enq x').
Proof.
  revert r x. induction fuel as [|fuel IH]; intros r x; [done|]. cbn [L4VM_server_cmd_dispatch_loop].
  destruct (zlookup (cmds r) (next_cmd r)) as [c|] eqn:Hc; [|done]. cbn [mbind option_bind].
  destruct (handler c) as [h|] eqn:Hh; intros Heq; [|by simplify_eq].
  eapply rtc_l; [by eapply step_dispatch|]. by apply IH.
Qed.

Lemma dispatcher_steps tid fuel r x r' x' evs pc enq :
  L4VM_server_cmd_dispatcher run tid fuel r x = Some (r', x', evs) →
  rtc sys_step (mk_system r pc enq x) (mk_system r' pc enq x').
Proof.
  unfold L4VM_server_cmd_dispatcher.
  destruct (L4VM_server_cmd_dispatch_loop run fuel r x) as [[r1 x1]|] eqn:E; [|done].
  cbn [mbind option_bind]. pose proof (dispatch_loop_steps _ _ _ _ _ pc enq E) as Hs.
  destruct (wake_server r1) eqn:Hw; intros; simplify_eq; [|done].
  eapply rtc_r; [done|by apply step_wake].
Qed.

(** While the server thread waits in its IPC, others take steps of theirs:
    the thread's own place and the published commands stay. *)
Definition env_steps (ipc : l4_event → L4VM_server_cmd_ring_t H D → irq_words → X →
           bool * (L4VM_server_cmd_ring_t H D * irq_words * X)) : Prop :=
  ∀ ev r w x b r' w' x' pc enq, ipc ev r w x = (b, (r', w', x')) →
    rtc sys_step (mk_system r pc enq x) (mk_system r' pc enq x').

Lemma allocate_loop_steps ipc irq_tid irq_no irq_flags irq_mask idx rq fuel r w x evs i r' w' x' evs' enq :
  env_steps ipc →
  L4VM_server_cmd_allocate_loop ipc irq_tid irq_no irq_flags irq_mask idx fuel r w x evs
    = Some (i, r', w', x', evs') →
  rtc sys_step (mk_system r (Waiting idx rq) enq x) (mk_system r' (Reserved i rq) enq x').
Proof.
  intros Henv. revert r w x evs. induction fuel as [|fuel IH]; intros r w x evs; [done|].
  cbn [L4VM_server_cmd_allocate_loop].
  destruct (zlookup (cmds r) idx) as [c|] eqn:Hc; [|done]. cbn [mbind option_bind].
  destruct (handler c) as [h|] eqn:Hh; intros Heq.
  - unfold cmd_allocate_wait in Heq.
    eapply rtc_l; [by eapply step_wait_again|].
    destruct (negb _ && negb _);
      (match type of Heq with context [ipc ?ev ?r1 ?w1 x] =>
        destruct (ipc ev r1 w1 x) as [b [[r2 w2] x2]] eqn:E end);
      (etrans; [by eapply Henv|by eapply IH]).
  - simplify_eq. apply rtc_once. by eapply step_wait_done.
Qed.

Lemma allocate_steps ipc irq_tid irq_no irq_flags irq_mask rq fuel r w x i r' w' x' evs enq :
  env_steps ipc →
  L4VM_server_cmd_allocate ipc irq_tid irq_no irq_flags irq_mask fuel r w x = Some (i, r', w', x', evs) →
  rtc sys_step (mk_system r Ready enq x) (mk_system r' (Reserved i rq) enq x').
Proof.
  intros Henv. unfold L4VM_server_cmd_allocate. destruct fuel as [|fuel]; [done|].
  cbn [L4VM_server_cmd_allocate_loop].
  destruct (zlookup (cmds r) (next_free r)) as [c|] eqn:Hc; [|done]. cbn [mbind option_bind].
  destruct (handler c) as [h|] eqn:Hh; intros Heq.
  - unfold cmd_allocate_wait in Heq.
    eapply rtc_l; [by eapply (step_alloc_block _ _ _ rq)|].
    destruct (negb _ && negb _);
      (match type of Heq with context [ipc ?ev ?r1 ?w1 x] =>
        destruct (ipc ev r1 w1 x) as [b [[r2 w2] x2]] eqn:E end);
      (etrans; [by eapply Henv|by eapply allocate_loop_steps]).
  - simplify_eq. apply rtc_once. by eapply step_alloc_now.
Qed.
End system.

(** ** Properties *)

Section dispatch.
Context {H D S : Type} (run : H → L4VM_server_cmd_t H D → S → S).
Abbreviation len := L4VM_SERVER_CMD_RING_LEN.

Lemma dispatch_loop_queue {b} p q (r : L4VM_server_cmd_ring_t H D) (s : S) fuel :
  ring_repr p b q r → (length q < fuel)%nat →
  ∃ r', L4VM_server_cmd_dispatch_loop run fuel r s = Some (r', foldl (run_cmd run) s q)
    ∧ ring_repr (p + length q) b [] r' ∧ wake_server r' = wake_server r.
Proof.
  revert p r s fuel. induction q as [|c q IH]; intros p r s fuel Hr Hf;
    (destruct fuel as [|fuel]; [simpl in Hf; lia|]).
  - destruct (ring_repr_nil _ _ _ Hr) as (c & Hl & Hh). simpl. rewrite Hl. simpl. rewrite Hh.
    exists r. by rewrite Nat.add_0_r.
  - destruct (ring_repr_head _ _ _ _ _ Hr) as [Hl [h Hh]]. simpl. rewrite Hl. simpl. rewrite Hh.
    destruct (IH (Datatypes.S p) (set_next_cmd (ring_succ (next_cmd r)) (set_cmd (next_cmd r)
      (mk_cmd None (reply_to_tid c) (cmd_data c)) r)) (run h c s) fuel) as (r' & Heq & Hr' & Hw).
    { by eapply ring_repr_dispatch. }
    { simpl in Hf. lia. }
    exists r'. split_and!; [|by rewrite Nat.add_succ_r|done].
    unfold run_cmd at 2. rewrite Hh. exact Heq.
Qed.
End dispatch.

(** [L4VM_server_cmd_dispatcher] drains the ring: from a ring that holds
    the commands [q] it terminates within [length q + 1] rounds, runs the
    handlers of [q] in order and each exactly once, leaves the ring empty, and
    sends the wake-up reply exactly when the server thread asked for it. *)
Theorem cmd_dispatcher_drains {H D S : Type} (run : H → L4VM_server_cmd_t H D → S → S)
    (q : list (L4VM_server_cmd_t H D)) (r : L4VM_server_cmd_ring_t H D) (s : S) (tid : Z) fuel :
  ring_queue false q r → (length q < fuel)%nat →
  ∃ r', L4VM_server_cmd_dispatcher run tid fuel r s
        = Some (r', foldl (run_cmd run) s q, if wake_server r then [EvReply tid] else [])
    ∧ ring_queue false [] r' ∧ wake_server r' = false.
Proof.
  intros [p Hr] Hf. destruct (dispatch_loop_queue run p q r s fuel Hr Hf) as (r' & Heq & Hr' & Hw).
  unfold L4VM_server_cmd_dispatcher. rewrite Heq. simpl. rewrite Hw.
  destruct (wake_server r) eqn:E; eexists; (split; [done|]); split; try done;
    eexists; [apply ring_repr_wake|]; exact Hr'.
Qed.

(** A ring with two commands, for the witnesses. *)
Definition sample_cmd (h : nat) : L4VM_server_cmd_t nat nat := mk_cmd (Some h) (Z.of_nat h) (Some h).
Definition sample_idle : L4VM_server_cmd_t nat nat := mk_cmd None 0 None.
Definition sample_ring (wake : bool) : L4VM_server_cmd_ring_t nat nat :=
  mk_cmd_ring 1 7 wake 99
    ([sample_cmd 2; sample_idle] ++ replicate 5 sample_idle ++ [sample_cmd 1]).

Lemma sample_ring_queue wake : ring_queue false [sample_cmd 1; sample_cmd 2] (sample_ring wake).
Proof.
  exists 7%nat. split; try reflexivity; try (simpl; unfold L4VM_SERVER_CMD_RING_LEN; lia).
  - intros [|[|i]] c Hq; simplify_eq/=; vm_compute; eauto.
  - intros i Hi. simpl in Hi. unfold L4VM_SERVER_CMD_RING_LEN in Hi.
    do 8 (destruct i as [|i]; [try lia; vm_compute; eauto|]). lia.
Qed.

Lemma cmd_dispatcher_drains_witness :
  ∃ r', L4VM_server_cmd_dispatcher (λ h _ s, s ++ [h]) 99 9 (sample_ring true) []
        = Some (r', [1; 2]%nat, [EvReply 99])
    ∧ ring_queue false [] r' ∧ wake_server r' = false.
Proof.
  apply (cmd_dispatcher_drains (λ h _ s, s ++ [h]) [sample_cmd 1; sample_cmd 2]
    (sample_ring true) [] 99 9); [apply sample_ring_queue|simpl; lia].
Defined.

Section allocate.
Context {H D X : Type}.
Abbreviation len := L4VM_SERVER_CMD_RING_LEN.
Abbreviation ring := (L4VM_server_cmd_ring_t H D).

(** What the rest of the driver VM does while the server thread waits: the
    dispatcher runs the oldest [k] commands; nobody else allocates. *)
Definition env_dispatches (k : nat)
    (ipc : l4_event → ring → irq_words → X → bool * (ring * irq_words * X)) : Prop :=
  ∀ ev r w x p q, ring_repr p false q r →
    ∃ b r' w' x', ipc ev r w x = (b, (r', w', x')) ∧
      ring_repr (p + min k (length q)) false (drop k q) r'.

(** Once the dispatcher has run, the slot the server thread waits for is
    free and can be reserved. *)
Lemma allocate_after_wait (k p : nat) q (r r2 : ring) :
  ring_repr p false q r → length q = len →
  ring_repr (p + min (S k) (length q)) false (drop (S k) q) r2 →
  (∃ c2, zlookup (cmds r2) (next_free r) = Some c2 ∧ handler c2 = None) ∧
  ring_queue true (drop (S k) q) (set_next_free (ring_succ (next_free r2)) r2).
Proof.
  intros Hr Hlen Hr2.
  assert (next_free r2 = next_free r) as Hnf.
  { rewrite (rr_free _ _ _ _ Hr2), (rr_free _ _ _ _ Hr). f_equal.
    rewrite length_drop. cbn [Nat.b2n]. lia. }
  assert (length (drop (S k) q) < len)%nat as Hlt.
  { rewrite length_drop, Hlen. unfold len. lia. }
  split; [|eexists; by apply ring_repr_reserve].
  destruct (ring_repr_free_slot _ _ _ Hr2) as (c2 & Hc2 & Hiff2).
  rewrite Hnf in Hc2. exists c2. tauto.
Qed.
End allocate.

(** [L4VM_server_cmd_allocate] returns the slot at [next_free], reserved
    and not yet published, and never a slot whose command is still queued: at
    once and without IPC when a slot is free, and otherwise after a single
    wait, provided the dispatcher runs at least one command meanwhile. *)
Theorem cmd_allocate_reserves {H D X : Type} (k : nat)
    (ipc : l4_event → L4VM_server_cmd_ring_t H D → irq_words → X →
           bool * (L4VM_server_cmd_ring_t H D * irq_words * X))
    irq_tid irq_no irq_flags irq_mask (q : list (L4VM_server_cmd_t H D)) r w (x : X) fuel :
  env_dispatches (S k) ipc → ring_queue false q r → (2 ≤ fuel)%nat →
  ∃ r' w' x' evs,
    L4VM_server_cmd_allocate ipc irq_tid irq_no irq_flags irq_mask fuel r w x
      = Some (next_free r, r', w', x', evs)
    ∧ if decide (length q < L4VM_SERVER_CMD_RING_LEN)%nat
      then ring_queue true q r' ∧ w' = w ∧ x' = x ∧ evs = []
      else ring_queue true (drop (S k) q) r' ∧ evs ≠ [].
Proof.
  intros Henv [p Hr] Hfuel. destruct fuel as [|[|fuel]]; [lia..|].
  unfold L4VM_server_cmd_allocate.
  destruct (ring_repr_free_slot _ _ _ Hr) as (c & Hc & Hiff).
  cbn [L4VM_server_cmd_allocate_loop]. rewrite Hc. cbn [mbind option_bind]. case_decide as Hq.
  - rewrite (proj2 Hiff Hq). do 4 eexists. split; [done|]. split; [|done].
    exists p. by apply ring_repr_reserve.
  - destruct (handler c) as [h|] eqn:Hh; [|tauto]. unfold cmd_allocate_wait.
    set (r1 := set_wake_server true r).
    assert (ring_repr p false q r1) as Hr1 by by apply ring_repr_wake.
    assert (length q = L4VM_SERVER_CMD_RING_LEN) as Hlen.
    { pose proof (rr_cap _ _ _ _ Hr). simpl in *. lia. }
    destruct (negb _ && negb _);
      match goal with |- context [ipc ?ev r1 ?w1 ?x1] =>
        destruct (Henv ev r1 w1 x1 _ _ Hr1) as (b & r2 & w2 & x2 & Heq & Hr2) end; rewrite Heq;
      destruct (allocate_after_wait _ _ _ _ _ Hr Hlen Hr2) as [(c2 & -> & Hh2) Hres];
      cbn [mbind option_bind]; rewrite Hh2; (do 4 eexists; split; [done|]; by split).
Qed.

(** The environment of the witness: the dispatcher drains the whole ring. *)
Definition drain_env (_ : l4_event) (r : L4VM_server_cmd_ring_t nat nat) (w : irq_words) (x : unit)
    : bool * (L4VM_server_cmd_ring_t nat nat * irq_words * unit) :=
  match L4VM_server_cmd_dispatch_loop (λ _ _ u, u) 9 r tt with
  | Some (r', _) => (false, (r', w, x))
  | None => (true, (r, w, x))
  end.

Lemma drain_env_dispatches : env_dispatches 8 drain_env.
Proof.
  intros ev r w x p q Hr. pose proof (rr_cap _ _ _ _ Hr) as Hcap. simpl in Hcap.
  unfold L4VM_SERVER_CMD_RING_LEN in Hcap.
  destruct (dispatch_loop_queue (λ _ _ u, u) p q r tt 9 Hr) as (r' & Heq & Hr' & _); [lia|].
  unfold drain_env. rewrite Heq. do 4 eexists. split; [done|].
  rewrite drop_ge by lia. replace (min 8 (length q)) with (length q) by lia. done.
Qed.

Definition full_ring : L4VM_server_cmd_ring_t nat nat :=
  mk_cmd_ring 0 0 false 99 (sample_cmd <$> [0; 1; 2; 3; 4; 5; 6; 7]%nat).

Lemma full_ring_queue : ring_queue false (cmds full_ring) full_ring.
Proof.
  exists 0%nat. split; try reflexivity.
  - intros i c Hq. apply lookup_lt_Some in Hq as Hi. simpl in Hi.
    do 8 (destruct i as [|i]; [simplify_eq/=; vm_compute; eauto|]). lia.
  - intros i Hi. simpl in Hi. unfold L4VM_SERVER_CMD_RING_LEN in Hi. lia.
Qed.

Lemma cmd_allocate_reserves_witness :
  ∃ r' w' x' evs,
    L4VM_server_cmd_allocate drain_env 5 7 1 255 2 full_ring (mk_irq 0 false) tt
      = Some (0, r', w', x', evs)
    ∧ ring_queue true [] r' ∧ evs ≠ [].
Proof.
  apply (cmd_allocate_reserves 7 drain_env 5 7 1 255 (cmds full_ring) full_ring
    (mk_irq 0 false) tt 2); [apply drain_env_dispatches|apply full_ring_queue|lia].
Defined.

(** C13. First in, first out, exactly once, under every interleaving of the
    server thread with the dispatcher. In a reachable state the handlers that
    have run are those of the first published commands, in order, each once
    and with the reply address and the parameters it was published with; the
    others, at most eight, are in the ring. From there
    [L4VM_server_cmd_dispatcher] terminates, runs the handlers of all the
    others in order and answers a waiting server thread; and this run, like
    every run of [L4VM_server_cmd_allocate], is a sequence of the steps of the
    system (provided the same holds for what others do during its IPC). *)
Theorem cmd_ring_fifo {H D X : Type} (run : H → L4VM_server_cmd_t H D → X → X)
    (r : L4VM_server_cmd_ring_t H D) (x0 : X) (s : system) :
  length (cmds r) = L4VM_SERVER_CMD_RING_LEN → rtc (sys_step run) (sys_init r x0) s →
  (∃ ran q, request_cmd <$> s_enq s = ran ++ q
    ∧ s_drv s = foldl (run_cmd run) x0 ran
    ∧ ring_queue (holds_slot (s_pc s)) q (s_ring s)
    ∧ (length q ≤ L4VM_SERVER_CMD_RING_LEN)%nat)
  ∧ (∀ tid, ∃ r',
       let x' := foldl (run_cmd run) x0 (request_cmd <$> s_enq s) in
       L4VM_server_cmd_dispatcher run tid (S L4VM_SERVER_CMD_RING_LEN) (s_ring s) (s_drv s)
         = Some (r', x', if wake_server (s_ring s) then [EvReply tid] else [])
       ∧ ring_queue (holds_slot (s_pc s)) [] r'
       ∧ rtc (sys_step run) s (mk_system r' (s_pc s) (s_enq s) x'))
  ∧ (∀ ipc irq_tid irq_no irq_flags irq_mask fuel w rq i r' w' x' evs,
       env_steps run ipc → s_pc s = Ready →
       L4VM_server_cmd_allocate ipc irq_tid irq_no irq_flags irq_mask fuel (s_ring s) w (s_drv s)
         = Some (i, r', w', x', evs) →
       rtc (sys_step run) s (mk_system r' (Reserved i rq) (s_enq s) x')).
Proof.
  intros Hlen Hs. destruct (sys_inv_reachable _ _ _ _ Hlen Hs) as (p & q & ran & Hr & _ & Heq & Hx).
  pose proof (rr_cap _ _ _ _ Hr) as Hcap. split_and!.
  - exists ran, q. split_and!; [done..|by exists p|lia].
  - intros tid. destruct (dispatch_loop_queue run p q (s_ring s) (s_drv s) (S L4VM_SERVER_CMD_RING_LEN) Hr)
      as (r' & Hrun & Hr' & Hw); [lia|]. cbv zeta. rewrite Heq, foldl_app, <- Hx.
    assert (∃ r2, L4VM_server_cmd_dispatcher run tid (S L4VM_SERVER_CMD_RING_LEN) (s_ring s) (s_drv s)
      = Some (r2, foldl (run_cmd run) (s_drv s) q, if wake_server (s_ring s) then [EvReply tid] else [])
      ∧ ring_queue (holds_slot (s_pc s)) [] r2) as (r2 & Hd & Hr2).
    { unfold L4VM_server_cmd_dispatcher. rewrite Hrun. cbn [mbind option_bind]. rewrite Hw.
      destruct (wake_server (s_ring s)); eexists; (split; [done|]);
        eexists; [apply ring_repr_wake|]; exact Hr'. }
    exists r2. split_and!; [done..|]. destruct s. by eapply dispatcher_steps.
  - intros ipc irq_tid irq_no irq_flags irq_mask fuel w rq i r' w' x' evs Henv Hpc Ha.
    destruct s as [sr pc enq x]. cbn in *. subst pc. by eapply allocate_steps.
Qed.

(** A run that publishes a command and dispatches it; the handlers log. *)
Definition log_run (h : nat) (_ : L4VM_server_cmd_t nat nat) (x : list nat) : list nat := x ++ [h].
Definition sample_run : @system nat nat (list nat) :=
  let r0 := L4VM_server_cmd_init full_ring in
  let r1 := cmd_publish 0 3%nat (cmd_fill 0 11 4%nat (set_next_free (ring_succ 0) r0)) in
  mk_system (set_next_cmd (ring_succ 0) (set_cmd 0 (mk_cmd None 11 (Some 4%nat)) r1)) Ready
    [(3%nat, 11, 4%nat)] [3%nat].

Lemma sample_run_reachable : rtc (sys_step log_run) (sys_init full_ring []) sample_run.
Proof.
  eapply rtc_l; [eapply (step_alloc_now _ _ _ _ (3%nat, 11, 4%nat)); vm_compute; reflexivity|].
  eapply rtc_l; [apply step_fill|].
  eapply rtc_l; [apply step_publish|].
  eapply rtc_l; [eapply step_dispatch; vm_compute; reflexivity|].
  apply rtc_refl.
Qed.

Lemma cmd_ring_fifo_witness :
  ∃ ran q, request_cmd <$> s_enq sample_run = ran ++ q
    ∧ s_drv sample_run = foldl (run_cmd log_run) [] ran
    ∧ ring_queue (holds_slot (s_pc sample_run)) q (s_ring sample_run)
    ∧ (length q ≤ L4VM_SERVER_CMD_RING_LEN)%nat.
Proof.
  apply (cmd_ring_fifo log_run full_ring); [reflexivity|exact sample_run_reachable].
Defined.

(** Delivery of the virtual interrupt: the flags are recorded in every case,
    and a message goes out exactly when an unmasked event is set and none is
    pending; a failed send falls back to raising the interrupt locally. *)
Lemma deliver_irq_spec failed irq_tid irq_no irq_flags irq_mask w :
  let '(w', evs) := L4VM_server_deliver_irq failed irq_tid irq_no irq_flags irq_mask w in
  irq_status w' = u32 (Z.lor (irq_status w) irq_flags)
  ∧ (irq_pending w = true → irq_pending w' = true)
  ∧ (evs = [] ↔ irq_pending w = true ∨ Z.land (irq_status w') irq_mask = 0)
  ∧ (evs ≠ [] → irq_pending w' = true).
Proof.
  unfold L4VM_server_deliver_irq. destruct w as [st pend]; simpl.
  destruct pend; simpl; rewrite ?andb_false_r, ?andb_true_r; simpl; [naive_solver|].
  case_bool_decide; simpl; naive_solver.
Qed.
