(* ===== verification/Thread.v ===== *)
(** * Kernel threads of the drivers

    Models l4ka-driver-reuse/kernel/glue/thread.c: the creation of an L4 thread
    with a stack from the Linux page allocator, and its deletion. The wedge that
    starts the thread is a parameter. *)

From Stdlib Require Import ZArith Lia.
From stdpp Require Import base list numbers.
From S2P Require Import Prelude CmdRing.

Definition STACK_SIZE_PAGE_SHIFT : Z := 2.
Definition STACK_SIZE : Z := Z.shiftl 4096 STACK_SIZE_PAGE_SHIFT.

Inductive thread_event : Type :=
  | ThGetPages (stack order : Z)
  | ThFreePages (stack order : Z)
  | ThCreate (stack tid : Z)
  | ThDelete (tid : Z).

(** [L4VM_thread_create]. [func] tells whether there is a thread function,
    [get_pages] is what [__get_free_pages] returns (0 is failure) and [create]
    what the wedge makes of the stack; its failure enters the kernel debugger. *)
Definition L4VM_thread_create (func : bool) (tlocal_size get_pages : Z) (create : Z → Z)
    : M (list thread_event) Z :=
  if negb func then mret L4_nilthread else
  if bool_decide (STACK_SIZE / 2 < tlocal_size) then mret L4_nilthread else
  mmodify (.++ [ThGetPages get_pages STACK_SIZE_PAGE_SHIFT]);;
  if bool_decide (get_pages = 0) then mret L4_nilthread else
  let tid := create get_pages in
  mmodify (.++ [ThCreate get_pages tid]);;
  (if bool_decide (tid = L4_nilthread) then
     mmodify (.++ [ThFreePages get_pages STACK_SIZE_PAGE_SHIFT]);;
     mfault AssertFail
   else mret tt);;
  mret tid.

Definition L4VM_thread_delete (tid : Z) : M (list thread_event) unit := mmodify (.++ [ThDelete tid]).

(** The stacks allocated and not freed. *)
Definition stack_step (held : list Z) (e : thread_event) : list Z :=
  match e with
  | ThGetPages s _ => if decide (s = 0) then held else s :: held
  | ThFreePages s _ => match held with [] => [] | x :: l => if decide (x = s) then l else x :: l end
  | _ => held
  end.
Definition stacks (evs : list thread_event) : list Z := foldl stack_step [] evs.

Lemma stacks_snoc evs e : stacks (evs ++ [e]) = stack_step (stacks evs) e.
Proof. unfold stacks. by rewrite foldl_app. Qed.

(** A call of [L4VM_thread_create] that returns a thread has given it a stack of
    its own, and one that returns no thread holds no memory. It stops in the
    kernel debugger exactly when the wedge refuses a thread it got a stack for. *)
Lemma thread_create_stack func sz pages create evs :
  match L4VM_thread_create func sz pages create evs with
  | Ok tid evs' =>
      if decide (tid = L4_nilthread) then stacks evs' = stacks evs
      else stacks evs' = pages :: stacks evs ∧ pages ≠ 0 ∧ tid = create pages ∧ sz ≤ STACK_SIZE / 2
  | Err f => f = AssertFail ∧ func = true ∧ sz ≤ STACK_SIZE / 2 ∧ pages ≠ 0 ∧ create pages = L4_nilthread
  end.
Proof.
  unfold L4VM_thread_create, mmodify, mbind, M_bind, mret, M_ret, mfault.
  destruct func; simpl; [|done]. case_bool_decide; simpl; [done|].
  repeat case_bool_decide; simpl.
  - rewrite stacks_snoc. simpl. by rewrite decide_True.
  - split_and!; [done..|lia|done|done].
  - rewrite decide_False by done. rewrite !stacks_snoc. simpl. rewrite decide_False by done.
    split_and!; [done..|lia].
Qed.

(** Deleting a thread does not free the stack it was created with. *)
Lemma thread_delete_keeps_stack tid evs :
  ∃ evs', L4VM_thread_delete tid evs = Ok tt evs' ∧ stacks evs' = stacks evs.
Proof. eexists. split; [done|]. by rewrite stacks_snoc. Qed.
