(* ===== verification/VmMemory.v ===== *)
(** * Aligned allocations and client address spaces

    Models l4ka-driver-reuse/kernel/glue/vmmemory.c and vmmemory.h: the
    allocation of naturally aligned regions that can be granted as one L4
    flexpage, the table of client address spaces, and the loop that touches
    the pages of a flexpage before it is mapped. *)

From stdpp Require Import base list numbers.
From Stdlib Require Import ZArith Lia.
From S2P Require Import Prelude CmdRing.

Definition PAGE_SHIFT : Z := 12.
Definition PAGE_SIZE : Z := 4096.
Definition ENOMEM : Z := 12.

(** ** Flexpages

    The L4 convenience functions for flexpages are in the kernel's user
    headers, not in this repository; these are the laws their documentation
    gives. *)
Class L4Fpage : Type := {
  L4_Fpage_t : Type;
  L4_FpageLog2 : Z → Z → L4_Fpage_t;
  L4_Address : L4_Fpage_t → Z;
  L4_Size : L4_Fpage_t → Z;
  L4_Address_FpageLog2 : ∀ a s, 0 ≤ a → PAGE_SHIFT ≤ s →
    L4_Address (L4_FpageLog2 a s) = a - a `mod` 2 ^ s;
  L4_Size_FpageLog2 : ∀ a s, 0 ≤ a → PAGE_SHIFT ≤ s →
    L4_Size (L4_FpageLog2 a s) = 2 ^ s
}.

(** A flexpage as a pair of base and log2 of the size. *)
#[global] Program Instance fpage_pair : L4Fpage := {
  L4_Fpage_t := Z * Z;
  L4_FpageLog2 := λ a s, (a - a `mod` 2 ^ s, s);
  L4_Address := fst;
  L4_Size := λ f, 2 ^ f.2
}.
Next Obligation. done. Qed.
Next Obligation. done. Qed.

Section fpages.
Context {F : L4Fpage}.

Record L4VM_alligned_alloc_t : Type := mk_alloc {
  al_start : Z; actual_log2size : Z; al_fpage : L4_Fpage_t
}.

(** Calls into the Linux page allocator. *)
Inductive page_event : Type :=
  | EvGetPages (order start : Z) | EvFreePages (start order : Z).

(** [L4VM_fpage_alloc]. [get_free_pages] is Linux' [__get_free_pages] on
    the calls made so far; 0 is failure. The result is the C return code,
    the filled-in structure and the calls made. *)
Definition L4VM_fpage_alloc (get_free_pages : list page_event → Z → Z) (req_log2size : Z)
    : Z * option L4VM_alligned_alloc_t * list page_event :=
  let req := if bool_decide (req_log2size < PAGE_SHIFT) then PAGE_SHIFT else req_log2size in
  let order := req - PAGE_SHIFT in
  let start := get_free_pages [] order in
  if bool_decide (start = 0) then (- ENOMEM, None, [EvGetPages order 0]) else
  let fpage := L4_FpageLog2 start req in
  if bool_decide (L4_Address fpage = start) then
    (0, Some (mk_alloc start req fpage), [EvGetPages order start])
  else
    let evs := [EvGetPages order start; EvFreePages start order] in
    let order := order + 1 in
    let start := get_free_pages evs order in
    if bool_decide (start = 0) then (- ENOMEM, None, evs ++ [EvGetPages order 0])
    else (0, Some (mk_alloc start (req + 1) (L4_FpageLog2 (start + 2 ^ req) req)),
          evs ++ [EvGetPages order start]).

(** [L4VM_fpage_dealloc]: what it frees. *)
Definition L4VM_fpage_dealloc (info : L4VM_alligned_alloc_t) : page_event :=
  EvFreePages (al_start info) (actual_log2size info - PAGE_SHIFT).

Record L4VM_alligned_vmarea_t : Type := mk_vmarea {
  ioremap_addr : option Z; vm_fpage : L4_Fpage_t
}.

Inductive vm_event : Type := EvIoremap (size addr : Z) | EvIounmap (addr : Z).

(** [L4VM_fpage_vmarea_release] *)
Definition L4VM_fpage_vmarea_release (info : L4VM_alligned_vmarea_t)
    : L4VM_alligned_vmarea_t * list vm_event :=
  (mk_vmarea None (vm_fpage info),
   match ioremap_addr info with Some a => [EvIounmap a] | None => [] end).

(** [L4VM_fpage_vmarea_get]; [ioremap] maps the calls made so far and a
    size to an address, 0 for failure. *)
Definition L4VM_fpage_vmarea_get (ioremap : list vm_event → Z → Z) (req_log2size : Z)
    : Z * option L4VM_alligned_vmarea_t * list vm_event :=
  let req := if bool_decide (req_log2size < PAGE_SHIFT) then PAGE_SHIFT else req_log2size in
  let addr := ioremap [] (2 ^ req) in
  if bool_decide (addr = 0) then (- ENOMEM, None, [EvIoremap (2 ^ req) 0]) else
  let info := mk_vmarea (Some addr) (L4_FpageLog2 addr req) in
  let evs := [EvIoremap (2 ^ req) addr] in
  if bool_decide (L4_Address (vm_fpage info) = addr) then (0, Some info, evs) else
  let '(_, evs') := L4VM_fpage_vmarea_release info in
  let evs := evs ++ evs' in
  let size := 2 ^ (req + 1) in
  let addr := ioremap evs size in
  if bool_decide (addr = 0) then (- ENOMEM, None, evs ++ [EvIoremap size 0])
  else (0, Some (mk_vmarea (Some addr) (L4_FpageLog2 (addr + 2 ^ req) req)),
        evs ++ [EvIoremap size addr]).

(** [L4VM_page_in]: the addresses it reads. [page] is a pointer to 4-byte
    words, so [page += page_size] moves it by [4 * page_size] bytes. *)
Fixpoint L4VM_page_in_loop (fuel : nat) (page e page_size : Z) : option (list Z) :=
  match fuel with
  | O => None
  | S fuel =>
      if bool_decide (page < e) then
        rest ← L4VM_page_in_loop fuel (page + 4 * page_size) e page_size;
        Some (page :: rest)
      else Some []
  end.
Definition L4VM_page_in (fuel : nat) (fp : L4_Fpage_t) (page_size : Z) : option (list Z) :=
  L4VM_page_in_loop fuel (L4_Address fp) (L4_Address fp + L4_Size fp) page_size.
End fpages.

(** ** Client address spaces *)

Record L4VM_client_space_info_t : Type := mk_space {
  space_id : Z; bus_start : Z; bus_size : Z; refcnt : Z
}.

(** The replies of the resource monitor: exception and out-parameters. *)
Record rmon_env : Type := {
  rm_tid_to_space_id : Z → corba_major * Z;
  rm_space_phys_range : Z → corba_major * (Z * Z);
  rm_client_phys_range : Z → corba_major * (Z * Z)
}.

(** The mapping of CORBA exceptions to error codes, written out in each of
    [L4VM_tid_to_space_id], [L4VM_get_client_dma_info] and
    [L4VM_get_space_dma_info]. *)
Definition corba_err (major : corba_major) : Z :=
  match major with
  | CORBA_USER_EXCEPTION => - ENODEV
  | CORBA_NO_EXCEPTION => 0
  | CORBA_SYSTEM_EXCEPTION => - EIO
  end.

Definition L4VM_tid_to_space_id (env : rmon_env) (tid : Z) : Z * Z :=
  let '(major, sid) := rm_tid_to_space_id env tid in (corba_err major, sid).
Definition L4VM_get_client_dma_info (env : rmon_env) (tid : Z) : Z * (Z * Z) :=
  let '(major, range) := rm_client_phys_range env tid in (corba_err major, range).
Definition L4VM_get_space_dma_info (env : rmon_env) (sid : Z) : Z * (Z * Z) :=
  let '(major, range) := rm_space_phys_range env sid in (corba_err major, range).

(** The list of spaces, newest first; a pointer to an entry is its distance
    from the end, which does not change when entries are pushed in front. *)
Abbreviation space_table := (list L4VM_client_space_info_t).

Fixpoint space_find (sid : Z) (t : space_table) : option nat :=
  match t with
  | [] => None
  | c :: t => if bool_decide (space_id c = sid) then Some (length t) else space_find sid t
  end.
Definition space_deref (t : space_table) (p : nat) : option L4VM_client_space_info_t :=
  reverse t !! p.
Fixpoint space_ref (sid : Z) (t : space_table) : space_table :=
  match t with
  | [] => []
  | c :: t =>
      if bool_decide (space_id c = sid)
      then mk_space (space_id c) (bus_start c) (bus_size c) (u32 (refcnt c + 1)) :: t
      else c :: space_ref sid t
  end.

(** [L4VM_get_space_info]; [kmalloc_ok] tells whether [kmalloc] succeeds. *)
Definition L4VM_get_space_info (env : rmon_env) (kmalloc_ok : bool) (sid : Z) (t : space_table)
    : option nat * space_table :=
  match space_find sid t with
  | Some p => (Some p, space_ref sid t)
  | None =>
      let '(err, (start, size)) := L4VM_get_space_dma_info env sid in
      if bool_decide (err = 0) then
        if kmalloc_ok then (Some (length t), mk_space sid start size 1 :: t) else (None, t)
      else (None, t)
  end.

Definition L4VM_get_client_space_info (env : rmon_env) (kmalloc_ok : bool) (tid : Z)
    (t : space_table) : option nat * space_table :=
  let '(err, sid) := L4VM_tid_to_space_id env tid in
  if bool_decide (err = 0) then L4VM_get_space_info env kmalloc_ok sid t else (None, t).

(** ** Properties of the allocations *)

(** The page-allocator blocks still held after a sequence of calls. *)
Definition pages_step (held : list (Z * Z)) (e : page_event) : list (Z * Z) :=
  match e with
  | EvGetPages order start => if bool_decide (start = 0) then held else (start, order) :: held
  | EvFreePages start order => filter (λ b, b ≠ (start, order)) held
  end.
Definition pages_held (evs : list page_event) : list (Z * Z) := foldl pages_step [] evs.

Section fpage_theory.
Context {F : L4Fpage}.

(** The end of the doubled block always contains an aligned block of the
    requested size. *)
Lemma realign_fits start size :
  0 < size → 0 ≤ start →
  let a := start + size - (start + size) `mod` size in
  start < a ∧ a + size ≤ start + 2 * size ∧ a `mod` size = 0.
Proof.
  intros Hs Hp. simpl. pose proof (Z.mod_pos_bound (start + size) size Hs).
  split_and!; [lia|lia|]. rewrite Zminus_mod, Zmod_mod, Z.sub_diag. apply Z.mod_0_l. lia.
Qed.

Lemma pages_held_retry order start s2 :
  start ≠ 0 → s2 ≠ 0 →
  pages_held ([EvGetPages order start; EvFreePages start order] ++ [EvGetPages (order + 1) s2])
    = [(s2, order + 1)].
Proof.
  intros H1 H2. unfold pages_held. cbn [foldl app pages_step].
  rewrite !bool_decide_eq_false_2 by done.
  rewrite filter_cons_False by naive_solver. by rewrite filter_nil.
Qed.
End fpage_theory.

(** A successful [L4VM_fpage_alloc] yields a flexpage of the requested
    size (at least one page) whose base is aligned to that size and which lies
    inside the block obtained from Linux; the only block still held is the one
    [L4VM_fpage_dealloc] frees. *)
Theorem fpage_alloc_aligned {F : L4Fpage} (gfp : list page_event → Z → Z) (req : Z) info evs :
  (∀ h o, 0 ≤ gfp h o) →
  L4VM_fpage_alloc gfp req = (0, Some info, evs) →
  let size := 2 ^ Z.max req PAGE_SHIFT in
  L4_Size (al_fpage info) = size
  ∧ L4_Address (al_fpage info) `mod` size = 0
  ∧ al_start info ≤ L4_Address (al_fpage info)
  ∧ L4_Address (al_fpage info) + size ≤ al_start info + 2 ^ actual_log2size info
  ∧ L4VM_fpage_dealloc info = EvFreePages (al_start info) (actual_log2size info - PAGE_SHIFT)
  ∧ pages_held evs = [(al_start info, actual_log2size info - PAGE_SHIFT)].
Proof.
  intros Hpos. unfold L4VM_fpage_alloc.
  set (r := if bool_decide (req < PAGE_SHIFT) then PAGE_SHIFT else req).
  assert (r = Z.max req PAGE_SHIFT) as Hr by (unfold r; case_bool_decide; lia).
  assert (PAGE_SHIFT ≤ r) by lia. rewrite <- Hr.
  assert (0 < 2 ^ r) by (apply Z.pow_pos_nonneg; unfold PAGE_SHIFT in *; lia).
  pose proof (Hpos [] (r - PAGE_SHIFT)) as Hs. repeat case_bool_decide; try done; intros [= <- <-].
  - cbn [al_fpage al_start actual_log2size] in *. rewrite L4_Size_FpageLog2 by done.
    rewrite L4_Address_FpageLog2 in * by done. split_and!; try done; try lia.
    + rewrite H2. pose proof (Z.mod_pos_bound (gfp [] (r - PAGE_SHIFT)) (2 ^ r)). lia.
    + unfold pages_held. simpl. by rewrite bool_decide_eq_false_2.
  - match goal with |- context [gfp ?h ?o] => pose proof (Hpos h o) as Hs2; set (s2 := gfp h o) in * end.
    cbn [al_fpage al_start actual_log2size]. rewrite L4_Size_FpageLog2 by lia.
    rewrite L4_Address_FpageLog2 by lia.
    destruct (realign_fits s2 (2 ^ r)) as (? & ? & ?); [done..|].
    rewrite Z.pow_add_r by (unfold PAGE_SHIFT in *; lia).
    split_and!; try done; try lia.
    replace (r + 1 - PAGE_SHIFT) with (r - PAGE_SHIFT + 1) by lia. by apply pages_held_retry.
Qed.

(** A page allocator that returns misaligned blocks. *)
Definition misaligned_gfp (h : list page_event) (_ : Z) : Z :=
  match h with [] => 4096 | _ => 12288 end.

Lemma fpage_alloc_aligned_witness :
  let '(_, info, evs) := @L4VM_fpage_alloc fpage_pair misaligned_gfp 13 in
  info = Some (@mk_alloc fpage_pair 12288 14 (16384, 13)) ∧
  16384 `mod` 8192 = 0 ∧ pages_held evs = [(12288, 2)].
Proof.
  assert (@L4VM_fpage_alloc fpage_pair misaligned_gfp 13 =
    (0, Some (@mk_alloc fpage_pair 12288 14 (16384, 13)),
     [EvGetPages 1 4096; EvFreePages 4096 1; EvGetPages 2 12288])) as Heq by reflexivity.
  destruct (@fpage_alloc_aligned fpage_pair misaligned_gfp 13 _ _
    ltac:(intros [|? ?] ?; simpl; lia) Heq) as (_ & H1 & _ & _ & _ & H2).
  split; [reflexivity|]. split; [exact H1|exact H2].
Defined.

(** [L4VM_page_in] advances a word pointer by [page_size] words, so of a
    flexpage of up to four pages it reads the first page only: the other pages
    are not brought in before the mapping. *)
Theorem page_in_skips_pages {F : L4Fpage} (fp : L4_Fpage_t) fuel :
  0 < L4_Size fp ≤ 4 * PAGE_SIZE → (2 ≤ fuel)%nat →
  L4VM_page_in fuel fp PAGE_SIZE = Some [L4_Address fp].
Proof.
  intros Hs Hf. destruct fuel as [|[|fuel]]; [lia..|]. unfold L4VM_page_in. simpl.
  rewrite bool_decide_eq_true_2 by lia. rewrite bool_decide_eq_false_2 by lia. done.
Qed.

Lemma page_in_skips_pages_witness :
  @L4VM_page_in fpage_pair 2 (@L4_FpageLog2 fpage_pair 32768 14) PAGE_SIZE = Some [32768].
Proof.
  apply (@page_in_skips_pages fpage_pair (@L4_FpageLog2 fpage_pair 32768 14) 2);
    [vm_compute; split; congruence|lia].
Defined.

(** ** Properties of the space table *)

Definition spaces_wf (t : space_table) : Prop := NoDup (space_id <$> t).

Lemma space_find_spec sid t p :
  space_find sid t = Some p → ∃ c, space_deref t p = Some c ∧ space_id c = sid ∧ (p < length t)%nat.
Proof.
  induction t as [|c t IH]; simpl; [done|]. unfold space_deref in *. rewrite reverse_cons.
  case_bool_decide.
  - intros [= <-]. exists c. split_and!; [|done|lia].
    apply lookup_app_Some. right. rewrite length_reverse, Nat.sub_diag. by split.
  - intros Hf. destruct (IH Hf) as (c' & Hl & ? & ?). exists c'.
    split_and!; [|done|lia]. by apply lookup_app_l_Some.
Qed.

Lemma space_find_None sid t : space_find sid t = None ↔ sid ∉ space_id <$> t.
Proof.
  induction t as [|c t IH]; simpl; [split; [intros _; apply not_elem_of_nil|done]|].
  rewrite not_elem_of_cons. case_bool_decide; [naive_solver|]. rewrite IH. naive_solver.
Qed.

Lemma space_ref_ids sid t : space_id <$> space_ref sid t = space_id <$> t.
Proof.
  induction t as [|c t IH]; [done|]. cbn [space_ref].
  case_bool_decide; rewrite !fmap_cons; [done|]. by rewrite IH.
Qed.

Lemma length_space_ref sid t : length (space_ref sid t) = length t.
Proof. induction t; simpl; [done|]. case_bool_decide; simpl; congruence. Qed.

(** Taking a reference changes only the count of the entry found. *)
Lemma space_ref_deref sid t p :
  spaces_wf t → space_deref (space_ref sid t) p =
    (λ c, if bool_decide (space_id c = sid)
          then mk_space (space_id c) (bus_start c) (bus_size c) (u32 (refcnt c + 1)) else c)
    <$> space_deref t p.
Proof.
  unfold space_deref, spaces_wf. intros Hnd. rewrite <- list_lookup_fmap, fmap_reverse. do 2 f_equal.
  induction t as [|c t IH]; simpl; [done|]. inversion Hnd as [|? ? Hni Hnd']; subst.
  case_bool_decide; f_equal; auto.
  clear IH Hnd Hnd'. induction t as [|c' t IH]; [done|]. simpl in *.
  apply not_elem_of_cons in Hni as [? Hni]. rewrite bool_decide_eq_false_2 by congruence.
  f_equal. auto.
Qed.

(** [L4VM_get_space_info] keeps one entry per address space: the table
    stays free of duplicates, pointers handed out earlier stay valid and keep
    their bus window, and a returned pointer denotes the entry of the requested
    space, with the reference just taken counted. *)
Theorem get_space_info_spec env ok sid t :
  spaces_wf t →
  let '(r, t') := L4VM_get_space_info env ok sid t in
  spaces_wf t'
  ∧ (∀ p c, space_deref t p = Some c → ∃ n, space_deref t' p =
       Some (mk_space (space_id c) (bus_start c) (bus_size c) n) ∧
       n = if bool_decide (space_id c = sid) then u32 (refcnt c + 1) else refcnt c)
  ∧ match r with
    | Some p => ∃ c, space_deref t' p = Some c ∧ space_id c = sid
        ∧ (sid ∉ space_id <$> t → refcnt c = 1 ∧ rm_space_phys_range env sid
             = (CORBA_NO_EXCEPTION, (bus_start c, bus_size c)))
    | None => t' = t ∧ sid ∉ space_id <$> t
    end.
Proof.
  intros Hwf. unfold L4VM_get_space_info. destruct (space_find sid t) as [p|] eqn:Hf.
  - destruct (space_find_spec _ _ _ Hf) as (c & Hc & Hid & Hp). split_and!.
    + unfold spaces_wf. by rewrite space_ref_ids.
    + intros p' c' Hc'. rewrite space_ref_deref, Hc' by done. simpl.
      case_bool_decide; destruct c'; simpl; eauto.
    + rewrite space_ref_deref, Hc by done. simpl. eexists. split; [done|].
      rewrite bool_decide_eq_true_2 by done. split; [done|]. intros Hni.
      apply space_find_None in Hni. congruence.
  - apply space_find_None in Hf as Hni. unfold L4VM_get_space_dma_info.
    assert (∀ p c, space_deref t p = Some c → space_id c ≠ sid) as Hne.
    { intros p c Hc Heq. apply Hni. apply list_elem_of_fmap. exists c. split; [done|].
      apply elem_of_reverse. by eapply list_elem_of_lookup_2. }
    assert (∀ p c, space_deref t p = Some c → ∃ n, space_deref t p =
       Some (mk_space (space_id c) (bus_start c) (bus_size c) n) ∧
       n = if bool_decide (space_id c = sid) then u32 (refcnt c + 1) else refcnt c) as Hsame.
    { intros p c Hc. rewrite bool_decide_eq_false_2 by eauto. destruct c; simpl; eauto. }
    destruct (rm_space_phys_range env sid) as [major [start size]] eqn:Hrm.
    case_bool_decide as Hmaj; [destruct ok|]; try (by split_and!).
    split_and!; [by constructor| |].
    + intros p c Hc. destruct (Hsame p c Hc) as (n & Hn & ->). eexists. split; [|done].
      unfold space_deref in *. rewrite reverse_cons. by apply lookup_app_l_Some.
    + exists (mk_space sid start size 1). split_and!; [|done|intros _; destruct major; done].
      unfold space_deref. rewrite reverse_cons. apply lookup_app_Some. right.
      by rewrite length_reverse, Nat.sub_diag.
Qed.

Definition sample_rmon : rmon_env := {|
  rm_tid_to_space_id := λ tid, (CORBA_NO_EXCEPTION, tid / 16);
  rm_space_phys_range := λ sid, (CORBA_NO_EXCEPTION, (sid * 1048576, 1048576));
  rm_client_phys_range := λ tid, (CORBA_NO_EXCEPTION, (0, 0))
|}.

Lemma get_space_info_spec_witness :
  let '(r, t') := L4VM_get_space_info sample_rmon true 3 [mk_space 2 0 4096 7] in
  spaces_wf t' ∧ ∃ p c, r = Some p ∧ space_deref t' p = Some c ∧ space_id c = 3.
Proof.
  pose proof (get_space_info_spec sample_rmon true 3 [mk_space 2 0 4096 7]
    ltac:(unfold spaces_wf; simpl; apply NoDup_singleton)) as Hw.
  destruct Hw as (Hwf & _ & c & Hc & Hid & _). split; [exact Hwf|]. eauto.
Defined.
