(* ===== verification/Block.v ===== *)
(** * The block-device server: data and I/O path

    Models l4ka-driver-reuse/kernel/block/block.h, server.h and the I/O path
    of server.c ([L4VMblock_end_io], [L4VMblock_initiate_io],
    [L4VMblock_process_io_queue], [L4VMblock_process_client_io], the client
    notification), in the configuration without the EARM energy accounting,
    with DO_L4VMBLOCK_REORDER, without L4VMBLOCK_READ_ONLY and with assertions
    enabled. Shared pages, bios, clients and connections are explicit parts of
    the server state; a pointer to a descriptor is the pair of the client that
    owns the shared page and the ring index. *)

From stdpp Require Import base list gmap numbers.
From Stdlib Require Import ZArith Lia.
From S2P Require Import Prelude CmdRing VmMemory.

(** ** Shared data (L4VMblock_idl.idl, block.h) *)

Definition IVMblock_descriptor_ring_size : nat := 400.
Definition IVMblock_descriptor_max_vectors : Z := 512.
Definition L4VMBLOCK_MAX_DEVICES : nat := 16.
Definition L4VMBLOCK_MAX_CLIENTS : nat := 8.
Definition L4VMBLOCK_INVALID_HANDLE : Z := 2 ^ 32 - 1.
Definition L4VMBLOCK_CLIENT_IRQ_CLEAN : Z := 1.
Definition L4VMBLOCK_SERVER_IRQ_DISPATCH : Z := 1.
Definition L4VMBLOCK_IRQ_BOTTOM_HALF_CMD : Z := 1.
Definition L4VMBLOCK_IRQ_TOP_HALF_CMD : Z := 2.

(** The status bit field of a ring descriptor. *)
Record desc_status : Type := mk_status {
  server_owned : bool; do_write : bool; speculative : bool; server_err : bool
}.

Record IVMblock_ring_descriptor_t : Type := mk_desc {
  d_status : desc_status;
  d_handle : Z;
  d_page : Z;
  d_offset : Z;
  d_size : Z;
  d_count : Z;
  d_client_data : option Z;   (** opaque to the server *)
  d_energy : list Z
}.

Record IVMblock_vector_t : Type := mk_vec { v_size : Z; v_page : Z }.

Record IVMblock_client_shared_t : Type := mk_shared {
  client_irq_no : Z;
  client_irq_tid : Z;
  client_main_tid : Z;
  client_irq_status : Z;
  client_irq_pending : bool;
  server_irq_no : Z;
  server_irq_tid : Z;
  server_main_tid : Z;
  dma_vec : list IVMblock_vector_t;
  dma_lock : Z;
  desc_ring : list IVMblock_ring_descriptor_t
}.

(** [L4VMblock_ring_t] of block.h. *)
Record L4VMblock_ring_t : Type := mk_ring { cnt : Z; start_free : Z; start_dirty : Z }.

(** [L4VMblock_ring_available]; the sum is computed in [int]. *)
Definition L4VMblock_ring_available (r : L4VMblock_ring_t) : Z :=
  u16 (Z.rem (start_dirty r + cnt r - (start_free r + 1)) (cnt r)).

(** ** Server data (server.h) *)

Record bio_vec : Type := mk_bio_vec { bv_page : Z; bv_len : Z; bv_offset : Z }.

(** A pointer to a ring descriptor: client and ring index. *)
Definition desc_ptr : Type := Z * Z.

Record bio : Type := mk_bio {
  bi_sector : Z;
  bi_bdev : option Z;
  bi_io_vec : list bio_vec;
  bi_vcnt : Z;
  bi_idx : Z;
  bi_size : Z;
  bi_private : option desc_ptr
}.

Record L4VMblock_client_info_t : Type := mk_client {
  cl_handle : Z;
  client_shared : option IVMblock_client_shared_t;
  ring_info : L4VMblock_ring_t;
  bio_ring : list (option positive);
  client_space : option L4VM_client_space_info_t;
  client_alloc_info : L4VM_alligned_alloc_t
}.

Record L4VMblock_conn_info_t : Type := mk_conn {
  cn_handle : Z;
  cn_client : option Z;
  blkdev : option Z;
  block_size : Z;
  kdev : Z * Z
}.

(** The handlers a command can carry, and their parameters. *)
Inductive block_handler : Type :=
  | Hprobe | Hattach | Hdetach | Hregister | Hreattach.
Inductive block_params : Type :=
  | Pprobe (devid : Z * Z)
  | Pattach (client_handle : Z) (devid : Z * Z) (rw : Z)
  | Pdetach (handle : Z)
  | Pregister
  | Preattach (handle : Z).

Inductive rw_mode : Type := READ | WRITE | READA.
#[global] Instance rw_mode_eq_dec : EqDecision rw_mode.
Proof. solve_decision. Defined.

(** IDL exceptions of the Control interface. *)
Inductive ivm_exception : Type :=
  | ex_invalid_client | ex_invalid_device | ex_no_memory.

Record devprobe : Type := mk_devprobe {
  pr_devid : Z * Z; device_size : Z; device_flags : Z; pr_block_size : Z;
  hardsect_size : Z; read_ahead : Z; max_read_ahead : Z; req_max_sectors : Z
}.

(** Calls into Linux and L4, in the order made. *)
Inductive bevent : Type :=
  | BSubmit (rw : rw_mode) (b : positive)
  | BPut (b : positive)
  | BTasklet
  | BSendVirq (irq_no tid : Z)
  | BOpen (kdev : Z * Z) (write : bool) (bdev : option Z)
  | BClaim (bdev : Z) | BRelease (bdev : Z) | BSetBlocksize (bdev size : Z) | BBlkdevPut (bdev : Z)
  | BReplyProbe (tid : Z) (r : devprobe + ivm_exception)
  | BReplyAttach (tid : Z) (r : option Z) (ex : option ivm_exception)
  | BReplyDetach (tid : Z) (ex : option ivm_exception)
  | BReplyRegister (tid : Z) (r : option (Z * (Z * Z) * (Z * Z))) (ex : option ivm_exception)
  | BReplyReattach (tid : Z) (r : option ((Z * Z) * (Z * Z))) (ex : option ivm_exception)
  | BScheduleDispatch | BScheduleBottomHalf | BL4 (e : l4_event).

Abbreviation block_cmd_ring := (L4VM_server_cmd_ring_t block_handler block_params).

Record L4VMblock_server_t : Type := mk_server {
  server_tid : Z;
  my_irq_tid : Z;
  my_main_tid : Z;
  sv_irq : irq_words;
  irq_mask : Z;
  L4VMblock_server_irq : Z;            (** a global of the module *)
  server_info : irq_words;             (** the page shared with all clients *)
  server_alloc_info : L4VM_alligned_alloc_t;
  top_half_cmds : block_cmd_ring;
  bottom_half_cmds : block_cmd_ring;
  connections : list L4VMblock_conn_info_t;
  clients : list L4VMblock_client_info_t;
  bios : gmap positive bio;            (** allocated bios *)
  spaces : space_table;
  trace : list bevent
}.

(** What the server calls in Linux, L4 and the wedge. Each answer may depend
    on everything done so far. *)
Class BlockEnv : Type := {
  (** [bio_alloc] with GFP_NOIO, for a number of vectors. It takes its memory
      from a pool and may sleep, so a bio with one vector is always found. *)
  bio_alloc : L4VMblock_server_t → Z → option positive;
  bus_to_phys : Z → Z;
  virt_addr_valid : Z → bool;          (** of the page with this frame number *)
  send_virq_failed : L4VMblock_server_t → bool;
  open_by_devnum : L4VMblock_server_t → Z * Z → bool → option Z;
  bd_claim : L4VMblock_server_t → Z → Z;
  set_blocksize : L4VMblock_server_t → Z → Z → Z;
  bio_alloc_fresh : ∀ s n b, bio_alloc s n = Some b → bios s !! b = None;
  bio_alloc_one : ∀ s, is_Some (bio_alloc s 1)
}.

Abbreviation MS := (M L4VMblock_server_t).

(** An allocator that answers a new identifier. *)
Lemma fresh_bio (s : L4VMblock_server_t) (n : Z) (b : positive) :
  Some (fresh (dom (bios s))) = Some b → bios s !! b = None.
Proof. intros [= <-]. apply not_elem_of_dom_1, is_fresh. Qed.

(** ** Field updates *)

Definition set_owned (b : bool) (st : desc_status) : desc_status :=
  mk_status b (do_write st) (speculative st) (server_err st).
Definition set_err (st : desc_status) : desc_status :=
  mk_status (server_owned st) (do_write st) (speculative st) true.
Definition with_status (f : desc_status → desc_status) (d : IVMblock_ring_descriptor_t) :=
  mk_desc (f (d_status d)) (d_handle d) (d_page d) (d_offset d) (d_size d) (d_count d)
    (d_client_data d) (d_energy d).
Definition with_desc_ring (l : list IVMblock_ring_descriptor_t) (cs : IVMblock_client_shared_t) :=
  mk_shared (client_irq_no cs) (client_irq_tid cs) (client_main_tid cs) (client_irq_status cs)
    (client_irq_pending cs) (server_irq_no cs) (server_irq_tid cs) (server_main_tid cs)
    (dma_vec cs) (dma_lock cs) l.
Definition with_client_irq (st : Z) (p : bool) (cs : IVMblock_client_shared_t) :=
  mk_shared (client_irq_no cs) (client_irq_tid cs) (client_main_tid cs) st p
    (server_irq_no cs) (server_irq_tid cs) (server_main_tid cs)
    (dma_vec cs) (dma_lock cs) (desc_ring cs).
Definition with_shared (cs : IVMblock_client_shared_t) (c : L4VMblock_client_info_t) :=
  mk_client (cl_handle c) (Some cs) (ring_info c) (bio_ring c) (client_space c) (client_alloc_info c).
Definition with_ring_info (r : L4VMblock_ring_t) (c : L4VMblock_client_info_t) :=
  mk_client (cl_handle c) (client_shared c) r (bio_ring c) (client_space c) (client_alloc_info c).
Definition with_bio_ring (l : list (option positive)) (c : L4VMblock_client_info_t) :=
  mk_client (cl_handle c) (client_shared c) (ring_info c) l (client_space c) (client_alloc_info c).
Definition with_private (p : option desc_ptr) (b : bio) :=
  mk_bio (bi_sector b) (bi_bdev b) (bi_io_vec b) (bi_vcnt b) (bi_idx b) (bi_size b) p.
Definition with_clients (l : list L4VMblock_client_info_t) (s : L4VMblock_server_t) :=
  mk_server (server_tid s) (my_irq_tid s) (my_main_tid s) (sv_irq s) (irq_mask s)
    (L4VMblock_server_irq s) (server_info s) (server_alloc_info s) (top_half_cmds s) (bottom_half_cmds s) (connections s) l (bios s) (spaces s)
    (trace s).
Definition with_connections (l : list L4VMblock_conn_info_t) (s : L4VMblock_server_t) :=
  mk_server (server_tid s) (my_irq_tid s) (my_main_tid s) (sv_irq s) (irq_mask s)
    (L4VMblock_server_irq s) (server_info s) (server_alloc_info s) (top_half_cmds s) (bottom_half_cmds s) l (clients s) (bios s) (spaces s)
    (trace s).
Definition with_bios (m : gmap positive bio) (s : L4VMblock_server_t) :=
  mk_server (server_tid s) (my_irq_tid s) (my_main_tid s) (sv_irq s) (irq_mask s)
    (L4VMblock_server_irq s) (server_info s) (server_alloc_info s) (top_half_cmds s) (bottom_half_cmds s) (connections s) (clients s) m (spaces s)
    (trace s).
Definition with_spaces (t : space_table) (s : L4VMblock_server_t) :=
  mk_server (server_tid s) (my_irq_tid s) (my_main_tid s) (sv_irq s) (irq_mask s)
    (L4VMblock_server_irq s) (server_info s) (server_alloc_info s) (top_half_cmds s) (bottom_half_cmds s) (connections s) (clients s) (bios s) t
    (trace s).
Definition with_irqs (w i : irq_words) (s : L4VMblock_server_t) :=
  mk_server (server_tid s) (my_irq_tid s) (my_main_tid s) w (irq_mask s) (L4VMblock_server_irq s) i
    (server_alloc_info s) (top_half_cmds s) (bottom_half_cmds s) (connections s) (clients s) (bios s)
    (spaces s) (trace s).
Definition with_bottom (r : block_cmd_ring) (s : L4VMblock_server_t) :=
  mk_server (server_tid s) (my_irq_tid s) (my_main_tid s) (sv_irq s) (irq_mask s)
    (L4VMblock_server_irq s) (server_info s) (server_alloc_info s) (top_half_cmds s) r (connections s) (clients s) (bios s) (spaces s) (trace s).
Definition with_top (r : block_cmd_ring) (s : L4VMblock_server_t) :=
  mk_server (server_tid s) (my_irq_tid s) (my_main_tid s) (sv_irq s) (irq_mask s)
    (L4VMblock_server_irq s) (server_info s) (server_alloc_info s) r (bottom_half_cmds s) (connections s) (clients s) (bios s) (spaces s) (trace s).
Definition log (e : bevent) (s : L4VMblock_server_t) :=
  mk_server (server_tid s) (my_irq_tid s) (my_main_tid s) (sv_irq s) (irq_mask s)
    (L4VMblock_server_irq s) (server_info s) (server_alloc_info s) (top_half_cmds s) (bottom_half_cmds s) (connections s) (clients s) (bios s)
    (spaces s) (trace s ++ [e]).

(** ** Memory accesses *)

Definition emit (e : bevent) : MS unit := mmodify (log e).
Definition get_client (i : Z) : MS L4VMblock_client_info_t :=
  c ← mgets (λ s, zlookup (clients s) i); mof_option OutOfBounds c.
Definition put_client (i : Z) (c : L4VMblock_client_info_t) : MS unit :=
  mmodify (λ s, with_clients (zinsert i c (clients s)) s).
Definition get_conn (i : Z) : MS L4VMblock_conn_info_t :=
  c ← mgets (λ s, zlookup (connections s) i); mof_option OutOfBounds c.
Definition put_conn (i : Z) (c : L4VMblock_conn_info_t) : MS unit :=
  mmodify (λ s, with_connections (zinsert i c (connections s)) s).
Definition get_shared (i : Z) : MS IVMblock_client_shared_t :=
  c ← get_client i; mof_option NullDeref (client_shared c).
Definition put_shared (i : Z) (cs : IVMblock_client_shared_t) : MS unit :=
  c ← get_client i; put_client i (with_shared cs c).
Definition load_desc (p : desc_ptr) : MS IVMblock_ring_descriptor_t :=
  cs ← get_shared p.1; mof_option OutOfBounds (zlookup (desc_ring cs) p.2).
Definition store_desc (p : desc_ptr) (d : IVMblock_ring_descriptor_t) : MS unit :=
  cs ← get_shared p.1; put_shared p.1 (with_desc_ring (zinsert p.2 d (desc_ring cs)) cs).
Definition load_bio_ring (ci i : Z) : MS (option positive) :=
  c ← get_client ci; mof_option OutOfBounds (zlookup (bio_ring c) i).
Definition store_bio_ring (ci i : Z) (b : option positive) : MS unit :=
  c ← get_client ci; put_client ci (with_bio_ring (zinsert i b (bio_ring c)) c).
Definition put_ring_info (ci : Z) (r : L4VMblock_ring_t) : MS unit :=
  c ← get_client ci; put_client ci (with_ring_info r c).
Definition load_bio (b : positive) : MS bio :=
  o ← mgets (λ s, bios s !! b); mof_option DanglingDeref o.
Definition store_bio (b : positive) (v : bio) : MS unit :=
  mmodify (λ s, with_bios (<[b := v]> (bios s)) s).

(** ** Handles (server.h) *)

Definition L4VMblock_conn_lookup (handle : Z) : MS (option Z) :=
  if bool_decide (0 ≤ handle < L4VMBLOCK_MAX_DEVICES) then
    c ← get_conn handle;
    mret (if bool_decide (cn_handle c = handle) then Some handle else None)
  else mret None.
Definition L4VMblock_conn_release (i : Z) : MS unit :=
  c ← get_conn i;
  put_conn i (mk_conn L4VMBLOCK_INVALID_HANDLE (cn_client c) (blkdev c) (block_size c) (kdev c)).
Definition L4VMblock_client_lookup (handle : Z) : MS (option Z) :=
  if bool_decide (0 ≤ handle < L4VMBLOCK_MAX_CLIENTS) then
    c ← get_client handle;
    mret (if bool_decide (cl_handle c = handle) then Some handle else None)
  else mret None.
Definition L4VMblock_client_release (i : Z) : MS unit :=
  c ← get_client i;
  put_client i (mk_client L4VMBLOCK_INVALID_HANDLE (client_shared c) (ring_info c) (bio_ring c)
                  (client_space c) (client_alloc_info c)).

(** ** The I/O path (server.c) *)

Section io.
Context {E : BlockEnv}.

(** [L4VMblock_deliver_client_irq] *)
Definition L4VMblock_deliver_client_irq (ci : Z) : MS unit :=
  cs ← get_shared ci;
  let st := u32 (Z.lor (client_irq_status cs) L4VMBLOCK_CLIENT_IRQ_CLEAN) in
  put_shared ci (with_client_irq st (client_irq_pending cs) cs);;
  if client_irq_pending cs then mret tt else
  put_shared ci (with_client_irq st true cs);;
  emit (BSendVirq (client_irq_no cs) (client_irq_tid cs));;
  failed ← mgets send_virq_failed;
  if (failed : bool) then
    cs ← get_shared ci;
    put_shared ci (with_client_irq (client_irq_status cs) false cs)
  else mret tt.

(** [L4VMblock_notify_tasklet_handler]: every registered client. *)
Fixpoint notify_from (handle : Z) (n : nat) : MS unit :=
  match n with
  | O => mret tt
  | S n =>
      c ← L4VMblock_client_lookup handle;
      match c with
      | Some ci => L4VMblock_deliver_client_irq ci
      | None => mret tt
      end;;
      notify_from (handle + 1) n
  end.
Definition L4VMblock_notify_tasklet_handler : MS unit := notify_from 0 L4VMBLOCK_MAX_CLIENTS.

(** The part of [L4VMblock_end_io] under [if( conn )]: [dp] points to the
    descriptor of the finished bio, [k] is its connection. *)
Definition end_io_release (dp : desc_ptr) (k : Z) : MS unit :=
  conn ← get_conn k;
  ci ← mof_option NullDeref (cn_client conn);
  client ← get_client ci;
  let ri := ring_info client in
  (* the difference of pointers into two different shared pages is no index *)
  (if bool_decide (dp.1 = ci) then mret tt else mfault OutOfBounds);;
  let ring_index := dp.2 in
  let first := (ci, start_dirty ri) in
  first_desc ← load_desc first;
  massert (server_owned (d_status first_desc));;
  (if bool_decide (first = dp) then mret tt else
     (* out of order: swap the descriptors and relocate the other bio *)
     tmp_desc ← load_desc dp;
     store_desc dp first_desc;;
     store_desc first tmp_desc;;
     other ← load_bio_ring ci (start_dirty ri);
     store_bio_ring ci ring_index other;;
     ob ← mof_option NullDeref other;
     obio ← load_bio ob;
     store_bio ob (with_private (Some dp) obio));;
  put_ring_info ci (mk_ring (cnt ri) (start_free ri) (cnext (cnt ri) (start_dirty ri)));;
  (* in order or swapped, the finished descriptor is now the first one *)
  store_bio_ring ci (start_dirty ri) None;;
  d ← load_desc first;
  store_desc first (with_status (set_owned false) d).

(** [L4VMblock_end_io] for the bio at [b]; [err] is the block layer's error. *)
Definition L4VMblock_end_io (b : positive) (err : bool) : MS Z :=
  bio ← load_bio b;
  dp ← mof_option AssertFail (bi_private bio);
  (if err then
     d ← load_desc dp; store_desc dp (with_status set_err d)
   else mret tt);;
  if bool_decide (bi_size bio ≠ 0) then mret 1 else
  desc ← load_desc dp;
  conn ← L4VMblock_conn_lookup (d_handle desc);
  match conn with
  | None => mret tt
  | Some k => end_io_release dp k
  end;;
  mmodify (λ s, with_bios (delete b (bios s)) s);;
  emit (BPut b);;
  emit BTasklet;;
  mret 0.

Definition page_vec (bus_base page size : Z) : bio_vec :=
  let paddr := bus_to_phys (u32 (page + bus_base)) in
  mk_bio_vec (Z.shiftr paddr PAGE_SHIFT) size (Z.land paddr (PAGE_SIZE - 1)).

(** The loop over the DMA vectors. *)
Fixpoint dma_vecs (cs : IVMblock_client_shared_t) (space : option L4VM_client_space_info_t)
    (i : Z) (n : nat) : MS (list bio_vec) :=
  match n with
  | O => mret []
  | S n =>
      v ← mof_option OutOfBounds (zlookup (dma_vec cs) i);
      sp ← mof_option NullDeref space;
      let bv := page_vec (bus_start sp) (v_page v) (v_size v) in
      massert (virt_addr_valid (bv_page bv));;
      rest ← dma_vecs cs space (i + 1) n;
      mret (bv :: rest)
  end.

(** [L4VMblock_initiate_io]; connection [k], client [ci]. *)
Definition L4VMblock_initiate_io (k ci : Z) (dp : desc_ptr) (ring_index : Z) : MS Z :=
  conn ← get_conn k;
  cs ← get_shared ci;
  desc ← load_desc dp;
  client ← get_client ci;
  o ← mgets (λ s, bio_alloc s (if bool_decide (d_size desc ≠ 0) then 1 else d_count desc));
  b ← mof_option AssertFail o;
  store_bio_ring ci ring_index (Some b);;
  vecs ←
    (if bool_decide (d_size desc ≠ 0) then
       sp ← mof_option NullDeref (client_space client);
       mret [page_vec (bus_start sp) (d_page desc) (d_size desc)]
     else
       massert (bool_decide (d_count desc ≤ IVMblock_descriptor_max_vectors));;
       dma_vecs cs (client_space client) 0 (Z.to_nat (d_count desc)));
  store_bio b (mk_bio (d_offset desc) (blkdev conn) vecs (length vecs) 0
                 (foldl (λ n v, u32 (n + bv_len v)) 0 vecs) (Some dp));;
  emit (BSubmit (if do_write (d_status desc) then WRITE
                 else if speculative (d_status desc) then READA else READ) b);;
  mret 1.

(** [L4VMblock_process_io_queue] for client [ci]: 1 when there was nothing
    to do, 0 when one descriptor was taken. *)
Definition L4VMblock_process_io_queue (ci : Z) : MS Z :=
  client ← get_client ci;
  let ri := ring_info client in
  let dp := (ci, start_free ri) in
  desc ← load_desc dp;
  bio ← load_bio_ring ci (start_free ri);
  if negb (server_owned (d_status desc)) || bool_decide (bio ≠ None) then mret 1 else
  put_ring_info ci (mk_ring (cnt ri) (cnext (cnt ri) (start_free ri)) (start_dirty ri));;
  conn ← L4VMblock_conn_lookup (d_handle desc);
  started ← match conn with
    | None => mret false
    | Some k =>
        c ← get_conn k;
        if bool_decide (cn_client c = Some ci) then
          r ← L4VMblock_initiate_io k ci dp (start_free ri);
          mret (bool_decide (r ≠ 0))
        else mret false
    end;
  (if (started : bool) then mret tt else
     d ← load_desc dp;
     store_desc dp (with_status (λ st, set_owned false (set_err st)) d);;
     emit BTasklet);;
  mret 0.

(** [L4VMblock_process_client_io]: one pass over the clients, and passes
    until every client is done. *)
Fixpoint process_pass (idx : Z) (n : nat) : MS Z :=
  match n with
  | O => mret 0
  | S n =>
      c ← L4VMblock_client_lookup idx;
      r ← match c with
          | Some ci => L4VMblock_process_io_queue ci
          | None => mret 1
          end;
      done ← process_pass (idx + 1) n;
      mret (r + done)
  end.
Fixpoint L4VMblock_process_client_io (fuel : nat) : MS unit :=
  match fuel with
  | O => mfault Diverged
  | S fuel =>
      done ← process_pass 0 L4VMBLOCK_MAX_CLIENTS;
      if bool_decide (done < L4VMBLOCK_MAX_CLIENTS) then L4VMblock_process_client_io fuel
      else mret tt
  end.
End io.
