(* ===== verification/BlockClient.v ===== *)
(** * The block-device client stub

    Models l4ka-driver-reuse/kernel/block/client.c and client.h: open and
    release with their reference count, the submission of request segments
    into the shared descriptor ring, the completion loop, the interrupt
    handler, device probing, registration and the boot parameter parser. The
    shared page is a field of the client state; Linux requests are objects
    addressed by an identifier. *)

From stdpp Require Import base list gmap numbers.
From Stdlib Require Import ZArith Lia.
From S2P Require Import Prelude CmdRing VmMemory Block.

Definition EBUSY : Z := 16.
Definition L4VMBLOCK_MAX_DEVS : nat := 16.

(** [L4VMblock_descriptor_t]: one per attached disk. *)
Record L4VMblock_descriptor_t : Type := mk_disk {
  remote_kdev : Z * Z;
  dk_handle : Z;
  dk_refcnt : Z;
  lnx_disk : bool;              (** whether a gendisk exists *)
  dk_capacity : Z               (** in 512-byte sectors *)
}.

Record L4VMblock_shadow_t : Type := mk_shadow { sh_bio : option Z; sh_req : option Z }.

(** A segment of a request: physical address and length of the data. *)
Record segment : Type := mk_seg { seg_phys : Z; seg_len : Z }.
Record rq_bio : Type := mk_rq_bio { rb_id : Z; rb_sector : Z; rb_segs : list segment }.
Record request : Type := mk_request {
  rq_disk : Z;                  (** index of the disk descriptor *)
  nr_hw_segments : Z;
  rq_data_dir : rw_mode;
  rq_bios : list rq_bio;
  rq_errors : Z;
  hard_nr_sectors : Z;          (** sectors left to complete *)
  rq_queued : bool              (** on the queue's list: [queuelist] is not empty *)
}.

(** Calls into Linux and L4. *)
Inductive cevent : Type :=
  | CProcessFirst (req nsect : Z)          (** process_that_request_first *)
  | CDequeue (req : Z)                     (** blkdev_dequeue_request *)
  | CSendVirq (irq_no tid : Z)
  | CBioError (bio size : Z) | CBioEnd (bio size : Z)
  | CEndRequest (req : Z)                  (** end_that_request_last *)
  | CWakeUp
  | CProbe (devid : Z * Z) | CAttach (handle : Z) (devid : Z * Z) | CDetach (handle : Z)
  | CSetBlocksize | CRegister (window : Z * Z).

Record L4VMblock_client_t : Type := mk_bclient {
  shared_window : L4VM_alligned_vmarea_t;
  bc_server_tid : Z;
  bc_handle : Z;
  bc_shared : IVMblock_client_shared_t;
  bc_server_shared : irq_words;
  desc_ring_info : L4VMblock_ring_t;
  shadow_ring : list L4VMblock_shadow_t;
  descriptors : list L4VMblock_descriptor_t;
  requests : gmap Z request;
  ctrace : list cevent
}.

Abbreviation MC := (M L4VMblock_client_t).

Definition bc_with_shared (cs : IVMblock_client_shared_t) (c : L4VMblock_client_t) :=
  mk_bclient (shared_window c) (bc_server_tid c) (bc_handle c) cs (bc_server_shared c) (desc_ring_info c)
    (shadow_ring c) (descriptors c) (requests c) (ctrace c).
Definition bc_with_server_shared (w : irq_words) (c : L4VMblock_client_t) :=
  mk_bclient (shared_window c) (bc_server_tid c) (bc_handle c) (bc_shared c) w (desc_ring_info c)
    (shadow_ring c) (descriptors c) (requests c) (ctrace c).
Definition bc_with_ring (r : L4VMblock_ring_t) (c : L4VMblock_client_t) :=
  mk_bclient (shared_window c) (bc_server_tid c) (bc_handle c) (bc_shared c) (bc_server_shared c) r
    (shadow_ring c) (descriptors c) (requests c) (ctrace c).
Definition bc_with_shadow (l : list L4VMblock_shadow_t) (c : L4VMblock_client_t) :=
  mk_bclient (shared_window c) (bc_server_tid c) (bc_handle c) (bc_shared c) (bc_server_shared c) (desc_ring_info c)
    l (descriptors c) (requests c) (ctrace c).
Definition bc_with_descriptors (l : list L4VMblock_descriptor_t) (c : L4VMblock_client_t) :=
  mk_bclient (shared_window c) (bc_server_tid c) (bc_handle c) (bc_shared c) (bc_server_shared c) (desc_ring_info c)
    (shadow_ring c) l (requests c) (ctrace c).
Definition bc_with_requests (m : gmap Z request) (c : L4VMblock_client_t) :=
  mk_bclient (shared_window c) (bc_server_tid c) (bc_handle c) (bc_shared c) (bc_server_shared c) (desc_ring_info c)
    (shadow_ring c) (descriptors c) m (ctrace c).
Definition bc_log (e : cevent) (c : L4VMblock_client_t) :=
  mk_bclient (shared_window c) (bc_server_tid c) (bc_handle c) (bc_shared c) (bc_server_shared c) (desc_ring_info c)
    (shadow_ring c) (descriptors c) (requests c) (ctrace c ++ [e]).

Definition cemit (e : cevent) : MC unit := mmodify (bc_log e).

(** ** The ring accesses *)
Definition rdesc_load (i : Z) : MC IVMblock_ring_descriptor_t :=
  d ← mgets (λ c, zlookup (desc_ring (bc_shared c)) i); mof_option OutOfBounds d.
Definition rdesc_store (i : Z) (d : IVMblock_ring_descriptor_t) : MC unit :=
  mmodify (λ c, bc_with_shared (with_desc_ring (zinsert i d (desc_ring (bc_shared c)))
                                  (bc_shared c)) c).
Definition shadow_load (p : Z) : MC L4VMblock_shadow_t :=
  o ← mgets (λ c, zlookup (shadow_ring c) p); mof_option OutOfBounds o.
Definition shadow_store (p : Z) (sh : L4VMblock_shadow_t) : MC unit :=
  mmodify (λ c, bc_with_shadow (zinsert p sh (shadow_ring c)) c).
Definition req_load (r : Z) : MC request :=
  o ← mgets (λ c, requests c !! r); mof_option DanglingDeref o.
Definition req_store (r : Z) (v : request) : MC unit :=
  mmodify (λ c, bc_with_requests (<[r := v]> (requests c)) c).
Definition disk_load (i : Z) : MC L4VMblock_descriptor_t :=
  o ← mgets (λ c, zlookup (descriptors c) i); mof_option OutOfBounds o.
Definition disk_store (i : Z) (d : L4VMblock_descriptor_t) : MC unit :=
  mmodify (λ c, bc_with_descriptors (zinsert i d (descriptors c)) c).
Definition with_refcnt (n : Z) (d : L4VMblock_descriptor_t) :=
  mk_disk (remote_kdev d) (dk_handle d) n (lnx_disk d) (dk_capacity d).
Definition with_handle (h : Z) (d : L4VMblock_descriptor_t) :=
  mk_disk (remote_kdev d) h (dk_refcnt d) (lnx_disk d) (dk_capacity d).
Definition with_errors (n : Z) (r : request) :=
  mk_request (rq_disk r) (nr_hw_segments r) (rq_data_dir r) (rq_bios r) n (hard_nr_sectors r)
    (rq_queued r).
Definition with_hard_nr (n : Z) (r : request) :=
  mk_request (rq_disk r) (nr_hw_segments r) (rq_data_dir r) (rq_bios r) (rq_errors r) n
    (rq_queued r).
Definition with_queued (q : bool) (r : request) :=
  mk_request (rq_disk r) (nr_hw_segments r) (rq_data_dir r) (rq_bios r) (rq_errors r)
    (hard_nr_sectors r) q.

(** [blkdev_dequeue_request] takes the request off its queue's list. *)
Definition blkdev_dequeue_request (req : Z) : MC unit :=
  r ← req_load req;
  req_store req (with_queued false r);;
  cemit (CDequeue req).

(** ** Submitting (client.c) *)

(** [L4VMblock_deliver_server_irq] *)
Definition L4VMblock_deliver_server_irq : MC unit :=
  w ← mgets bc_server_shared;
  let st := u32 (Z.lor (irq_status w) L4VMBLOCK_SERVER_IRQ_DISPATCH) in
  mmodify (bc_with_server_shared (mk_irq st (irq_pending w)));;
  if irq_pending w then mret tt else
  mmodify (bc_with_server_shared (mk_irq st true));;
  cs ← mgets bc_shared;
  cemit (CSendVirq (server_irq_no cs) (server_irq_tid cs)).

(** The body of the segment loop of [L4VMblock_process_request], once a
    descriptor is available: request [req], bio [bio], at [sector]. Returns
    the sector after the segment. *)
Definition submit_segment (handle : Z) (dir : rw_mode) (req bio sector : Z) (sg : segment) : MC Z :=
  ring ← mgets desc_ring_info;
  let i := start_free ring in
  rdesc ← rdesc_load i;
  massert (negb (server_owned (d_status rdesc)));;
  p ← mof_option NullDeref (d_client_data rdesc);
  shadow_load p;;
  shadow_store p (mk_shadow (Some bio) (Some req));;
  let st := mk_status false (bool_decide (dir = WRITE)) (bool_decide (dir = READA)) false in
  let d := mk_desc st handle (seg_phys sg) (u32 sector) (seg_len sg) (d_count rdesc)
             (d_client_data rdesc) (d_energy rdesc) in
  rdesc_store i d;;
  let nsect := Z.shiftr (seg_len sg) 9 in
  cemit (CProcessFirst req nsect);;
  rdesc_store i (with_status (set_owned true) d);;
  mmodify (bc_with_ring (mk_ring (cnt ring) (cnext (cnt ring) i) (start_dirty ring)));;
  mret (sector + nsect).

Section submit.
(** What happens while the thread sleeps in [wait_event]: the interrupt
    handler runs. *)
Variable sleep : L4VMblock_client_t → L4VMblock_client_t.

(** The wait for an available descriptor. *)
Fixpoint wait_available (fuel : nat) : MC unit :=
  ring ← mgets desc_ring_info;
  if bool_decide (L4VMblock_ring_available ring ≠ 0) then mret tt else
  match fuel with
  | O => mfault Diverged
  | S fuel => L4VMblock_deliver_server_irq;; mmodify sleep;; wait_available fuel
  end.

Fixpoint submit_segments (fuel : nat) (handle : Z) (dir : rw_mode) (req bio sector : Z)
    (sgs : list segment) : MC unit :=
  match sgs with
  | [] => mret tt
  | sg :: sgs =>
      wait_available fuel;;
      sector' ← submit_segment handle dir req bio sector sg;
      submit_segments fuel handle dir req bio sector' sgs
  end.

Fixpoint submit_bios (fuel : nat) (handle : Z) (dir : rw_mode) (req : Z) (bs : list rq_bio)
    : MC unit :=
  match bs with
  | [] => mret tt
  | b :: bs =>
      submit_segments fuel handle dir req (rb_id b) (rb_sector b) (rb_segs b);;
      submit_bios fuel handle dir req bs
  end.

(** [L4VMblock_process_request] *)
Definition L4VMblock_process_request (fuel : nat) (req : Z) : MC unit :=
  r ← req_load req;
  disk ← disk_load (rq_disk r);
  if bool_decide (dk_refcnt disk = 0) then req_store req (with_errors (rq_errors r + 1) r)
  else if bool_decide (nr_hw_segments r = 0) then req_store req (with_errors (rq_errors r + 1) r)
  else
    submit_bios fuel (dk_handle disk) (rq_data_dir r) req (rq_bios r);;
    blkdev_dequeue_request req.

(** [L4VMblock_end_request]; [more] is the result of
    [end_that_request_first]. *)
Definition L4VMblock_end_request (more : bool) (req : Z) : MC unit :=
  if more then mret tt else blkdev_dequeue_request req;; cemit (CEndRequest req).

(** [L4VMblock_do_request]: the requests the elevator hands out. *)
Fixpoint do_requests (fuel : nat) (more : bool) (q : list Z) : MC unit :=
  match q with
  | [] => mret tt
  | req :: q =>
      r ← req_load req;
      req_store req (with_errors 0 r);;
      L4VMblock_process_request fuel req;;
      r ← req_load req;
      (if bool_decide (rq_errors r ≠ 0) then L4VMblock_end_request more req else mret tt);;
      do_requests fuel more q
  end.
Definition L4VMblock_do_request (fuel : nat) (more : bool) (q : list Z) : MC unit :=
  do_requests fuel more q;; L4VMblock_deliver_server_irq.
End submit.

(** ** Completing *)

(** One round of the loop of [L4VMblock_finish_transfers]: [false] when the
    loop ends. *)
Definition finish_one : MC bool :=
  ring ← mgets desc_ring_info;
  if bool_decide (start_dirty ring = start_free ring) then mret false else
  rdesc ← rdesc_load (start_dirty ring);
  if server_owned (d_status rdesc) then mret false else
  p ← mof_option AssertFail (d_client_data rdesc);
  sh ← shadow_load p;
  req ← mof_option NullDeref (sh_req sh);
  bio ← mof_option NullDeref (sh_bio sh);
  r ← req_load req;
  (if server_err (d_status rdesc) then
     req_store req (with_errors (rq_errors r + 1) r);; cemit (CBioError bio (d_size rdesc))
   else cemit (CBioEnd bio (d_size rdesc)));;
  let nsect := Z.shiftr (d_size rdesc) 9 in
  r ← req_load req;
  (if bool_decide (hard_nr_sectors r ≤ nsect) then
     req_store req (with_hard_nr 0 r);;
     massert (negb (rq_queued r));;
     cemit (CEndRequest req)
   else req_store req (with_hard_nr (hard_nr_sectors r - nsect) r));;
  shadow_store p (mk_shadow None None);;
  mmodify (bc_with_ring (mk_ring (cnt ring) (start_free ring) (cnext (cnt ring) (start_dirty ring))));;
  mret true.

(** [L4VMblock_finish_transfers]; [cleaned] counts the rounds. *)
Fixpoint finish_loop (fuel : nat) (cleaned : Z) : MC Z :=
  match fuel with
  | O => mfault Diverged
  | S fuel =>
      more ← finish_one;
      if (more : bool) then finish_loop fuel (cleaned + 1) else mret cleaned
  end.
Definition L4VMblock_finish_transfers (fuel : nat) : MC unit :=
  cleaned ← finish_loop fuel 0;
  if bool_decide (cleaned ≠ 0) then cemit CWakeUp else mret tt.

(** [L4VMblock_irq_handler] of the client. *)
Fixpoint L4VMblock_client_irq_handler (fuel : nat) : MC unit :=
  match fuel with
  | O => mfault Diverged
  | S fuel =>
      cs ← mgets bc_shared;
      let events := client_irq_status cs in
      mmodify (bc_with_shared (with_client_irq 0 true cs));;
      (if bool_decide (events ≠ 0)
       then L4VMblock_finish_transfers (S IVMblock_descriptor_ring_size) else mret tt);;
      cs ← mgets bc_shared;
      mmodify (bc_with_shared (with_client_irq (client_irq_status cs) false cs));;
      if bool_decide (events ≠ 0) then L4VMblock_client_irq_handler fuel else mret tt
  end.

(** ** Open and release *)
Section devices.
(** Replies of the server: exception and, for attach, the handle. *)
Variable attach_reply : L4VMblock_client_t → corba_major * Z.
Variable detach_reply : L4VMblock_client_t → corba_major.

(** [L4VMblock_attach_device] *)
Definition L4VMblock_attach_device (disk : Z) : MC Z :=
  d ← disk_load disk;
  h ← mgets bc_handle;
  cemit (CAttach h (remote_kdev d));;
  rep ← mgets attach_reply;
  match rep.1 with
  | CORBA_NO_EXCEPTION => disk_store disk (with_handle rep.2 d);; mret 0
  | _ => mret (- EBUSY)
  end.

(** [L4VMblock_detach_device] *)
Definition L4VMblock_detach_device (disk : Z) : MC Z :=
  d ← disk_load disk;
  cemit (CDetach (dk_handle d));;
  rep ← mgets detach_reply;
  mret match rep with CORBA_NO_EXCEPTION => 0 | _ => - EBUSY end.

(** [L4VMblock_open] *)
Definition L4VMblock_open (disk : Z) : MC Z :=
  d ← disk_load disk;
  err ←
    (if bool_decide (dk_refcnt d = 0) then
       err ← L4VMblock_attach_device disk;
       (if bool_decide (err = 0) then
          d ← disk_load disk; disk_store disk (with_refcnt (u32 (dk_refcnt d + 1)) d)
        else mret tt);;
       mret err
     else disk_store disk (with_refcnt (u32 (dk_refcnt d + 1)) d);; mret 0);
  cemit CSetBlocksize;;
  mret err.

(** [L4VMblock_release] *)
Definition L4VMblock_release (disk : Z) : MC Z :=
  d ← disk_load disk;
  if bool_decide (dk_refcnt d = 0) then mret 0 else
  let n := dk_refcnt d - 1 in
  disk_store disk (with_refcnt n d);;
  if bool_decide (n ≠ 0) then mret 0 else L4VMblock_detach_device disk.
End devices.

(** ** Probing, registration, initialisation *)
Section boot.
(** Replies of the server to a probe and to the registration: exception,
    handle and the bases of the two mappings; and what the mapped pages
    hold. *)
Variable probe_reply : L4VMblock_client_t → Z * Z → corba_major * devprobe.
Variable register_reply : L4VMblock_client_t → corba_major * (Z * Z * Z).
Variable mapped : L4VMblock_client_t → IVMblock_client_shared_t * irq_words.
(** Linux: [alloc_disk], [blk_init_queue] succeed; [ioremap]. *)
Variable alloc_disk_ok blk_init_queue_ok : bool.
Variable ioremap : list vm_event → Z → Z.

(** [L4VMblock_probe_device]; [set_capacity] takes 512-byte sectors. *)
Definition L4VMblock_probe_device (kdev : Z * Z) (minor : Z) : MC Z :=
  cemit (CProbe kdev);;
  rep ← mgets (λ c, probe_reply c kdev);
  match rep.1 with
  | CORBA_NO_EXCEPTION =>
      d ← disk_load minor;
      disk_store minor (mk_disk kdev (dk_handle d) 0 false (dk_capacity d));;
      if negb alloc_disk_ok then mret (- ENOMEM) else
      if negb blk_init_queue_ok then mret (- ENOMEM) else
      d ← disk_load minor;
      disk_store minor (mk_disk (remote_kdev d) (dk_handle d) (dk_refcnt d) true
                          (u32 (device_size rep.2 * 2)));;
      mret 0
  | _ => mret (- ENODEV)
  end.

(** Each descriptor's [client_data] points to its own shadow entry. *)
Definition with_client_data (i : nat) (d : IVMblock_ring_descriptor_t) :=
  mk_desc (d_status d) (d_handle d) (d_page d) (d_offset d) (d_size d) (d_count d)
    (Some (Z.of_nat i)) (d_energy d).
Definition init_client_data (cs : IVMblock_client_shared_t) :=
  with_desc_ring (imap with_client_data (desc_ring cs)) cs.

(** [L4VMblock_client_register]; [client_size] and [server_size] are the
    sizes of the flexpages of the two shared structures. *)
Definition L4VMblock_client_register (client_size server_size : Z) : MC Z :=
  match L4VM_fpage_vmarea_get ioremap (Z.log2_up (client_size + server_size)) with
  | (err, None, _) => mret err
  | (_, Some info, _) =>
      mmodify (λ c, mk_bclient info (bc_server_tid c) (bc_handle c) (bc_shared c) (bc_server_shared c)
                      (desc_ring_info c) (shadow_ring c) (descriptors c) (requests c) (ctrace c));;
      addr ← mof_option AssertFail (ioremap_addr info);
      massert (bool_decide (addr ≤ L4_Address (vm_fpage info)));;
      cemit (CRegister (vm_fpage info));;
      rep ← mgets register_reply;
      match rep.1 with
      | CORBA_NO_EXCEPTION =>
          m ← mgets mapped;
          mmodify (λ c, mk_bclient (shared_window c) (bc_server_tid c) rep.2.1.1
                          (init_client_data m.1) m.2
                          (mk_ring IVMblock_descriptor_ring_size 0 0) (shadow_ring c)
                          (descriptors c) (requests c) (ctrace c));;
          mret 0
      | _ =>
          mmodify (λ c, mk_bclient (L4VM_fpage_vmarea_release (shared_window c)).1 (bc_server_tid c)
                          (bc_handle c) (bc_shared c) (bc_server_shared c) (desc_ring_info c)
                          (shadow_ring c) (descriptors c) (requests c) (ctrace c));;
          mret (- EIO)
      end
  end.

(** The probe loop of the initialisation: pairs of major and minor until a
    zero major, the end of the parameters or of the device table. *)
Fixpoint probe_devices (params : list Z) (minor : Z) : MC unit :=
  match params with
  | major :: mn :: params =>
      if bool_decide (minor < L4VMBLOCK_MAX_DEVS) then
        if bool_decide (major = 0) then mret tt else
        r ← L4VMblock_probe_device (major, mn) minor;
        probe_devices params (if bool_decide (r = 0) then minor + 1 else minor)
      else mret tt
  | _ => mret tt
  end.

Definition with_client_tids (irq_no irq_tid main_tid : Z) (cs : IVMblock_client_shared_t) :=
  mk_shared irq_no irq_tid main_tid (client_irq_status cs) (client_irq_pending cs)
    (server_irq_no cs) (server_irq_tid cs) (server_main_tid cs) (dma_vec cs) (dma_lock cs)
    (desc_ring cs).

(** [L4VMblock_client_init_module]; [irq] is the module parameter, [nr_irqs]
    Linux' NR_IRQS, [locate] the locator's answer; the remaining arguments
    are results of Linux calls. No IO-APIC. *)
Definition L4VMblock_client_init_module (client_size server_size irq nr_irqs irq_gtid main_gtid : Z)
    (locate : corba_major) (request_irq register_blkdev : Z) (params : list Z) : MC Z :=
  first ← mof_option OutOfBounds (zlookup params 0);
  if bool_decide (first = 0) then mret 0 else
  let err := L4VM_server_locate locate in
  if bool_decide (err ≠ 0) then mret err else
  err ← L4VMblock_client_register client_size server_size;
  if bool_decide (err < 0) then mret err else
  if bool_decide (nr_irqs < irq) then mret (- ENOMEM) else
  let irq := if bool_decide (irq = 0) then 7 else irq in
  if bool_decide (request_irq < 0) then mret request_irq else
  mmodify (λ c, bc_with_shared (with_client_tids irq irq_gtid main_gtid (bc_shared c)) c);;
  if bool_decide (register_blkdev < 0) then mret register_blkdev else
  probe_devices params 0;;
  mret 0.
End boot.

(** ** The page-fault handler of the shared window *)

(** [L4VMblock_dspace_handler]: [None] for an address outside the window, and
    otherwise the flexpage to map; the reattach exception stops in the kernel
    debugger. *)
Definition L4VMblock_dspace_handler {F : L4Fpage} (window : L4_Fpage_t)
    (reattach : corba_major) (fault_addr : Z) : fault + option L4_Fpage_t :=
  let start := L4_Address window in
  let e := L4_Address window + L4_Size window in
  if bool_decide (fault_addr < start ∨ fault_addr > e) then inr None else
  match reattach with
  | CORBA_NO_EXCEPTION => inr (Some window)
  | _ => inl AssertFail
  end.

(** ** The boot parameter

    [L4VMblock_setup_probe_param] parses [blockprobe=3,1:3,2]; [strtoul]
    stands for Linux' [simple_strtoul] in base 10: the value of the leading
    digits and the rest of the string. The array has 16 entries. *)
Definition L4VMBLOCK_MAX_PROBE_PARAMS : nat := 16.
Fixpoint setup_probe_loop (strtoul : list Byte.byte → Z * list Byte.byte) (fuel : nat)
    (devices : list Z) (idx : Z) (param : list Byte.byte) : list Z * Z * list Byte.byte :=
  match fuel with
  | O => (devices, idx, param)
  | S fuel =>
      if bool_decide (idx < L4VMBLOCK_MAX_PROBE_PARAMS - 2) then
        match param with
        | [] => (devices, idx, param)
        | _ =>
            let '(major, param) := strtoul param in
            match param with
            | [] => (devices, idx, param)
            | [_] => (devices, idx, [])
            | _ :: param =>
                let '(minor, param) := strtoul param in
                let devices := zinsert (idx + 1) minor (zinsert idx major devices) in
                setup_probe_loop strtoul fuel devices (idx + 2) (tail param)
            end
        end
      else (devices, idx, param)
  end.
Definition L4VMblock_setup_probe_param strtoul (devices : list Z) (param : list Byte.byte)
    : list Z :=
  let '(devices, idx, _) :=
    setup_probe_loop strtoul (S L4VMBLOCK_MAX_PROBE_PARAMS) devices 0 param in
  zinsert idx 0 devices.
