(* ===== verification/BlockView.v ===== *)
(** * Running the block server's I/O path on one client

    The server state seen from one client: its descriptor ring [D], its bio
    ring [B], its ring indices, the allocated bios and the call trace; the rest
    of the server is fixed. Each memory access of Block.v becomes an update of
    one of these components, and the three I/O functions are executed
    symbolically on such a view. *)

From stdpp Require Import base list gmap numbers.
From Stdlib Require Import ZArith Lia.
From S2P Require Import Prelude CmdRing VmMemory Block.

Section view.
Context {E : BlockEnv}.
Context (s0 : L4VMblock_server_t) (ci h : Z) (cs0 : IVMblock_client_shared_t)
  (sp : option L4VM_client_space_info_t) (fp : L4VM_alligned_alloc_t).
Context (Hci : 0 ≤ ci < length (clients s0)).

Definition view_client (D : list IVMblock_ring_descriptor_t) (B : list (option positive))
    (ri : L4VMblock_ring_t) : L4VMblock_client_info_t :=
  mk_client h (Some (with_desc_ring D cs0)) ri B sp fp.

Definition view (D : list IVMblock_ring_descriptor_t) (B : list (option positive))
    (ri : L4VMblock_ring_t) (m : gmap positive bio) (tr : list bevent) : L4VMblock_server_t :=
  mk_server (server_tid s0) (my_irq_tid s0) (my_main_tid s0) (sv_irq s0) (irq_mask s0) (L4VMblock_server_irq s0)
    (server_info s0) (server_alloc_info s0) (top_half_cmds s0) (bottom_half_cmds s0)
    (connections s0) (zinsert ci (view_client D B ri) (clients s0)) m (spaces s0) tr.

Lemma get_client_view D B ri m tr :
  get_client ci (view D B ri m tr) = Ok (view_client D B ri) (view D B ri m tr).
Proof.
  unfold get_client, mgets, mbind, M_bind. cbn [clients view].
  by rewrite zlookup_zinsert_eq.
Qed.

Lemma put_client_view D B ri m tr D' B' ri' :
  put_client ci (view_client D' B' ri') (view D B ri m tr) = Ok tt (view D' B' ri' m tr).
Proof.
  unfold put_client, mmodify, with_clients, view. cbn. by rewrite zinsert_zinsert.
Qed.

Lemma get_shared_view D B ri m tr :
  get_shared ci (view D B ri m tr) = Ok (with_desc_ring D cs0) (view D B ri m tr).
Proof. unfold get_shared. by mstep (get_client_view D B ri m tr). Qed.

Lemma load_desc_view D B ri m tr i d :
  zlookup D i = Some d → load_desc (ci, i) (view D B ri m tr) = Ok d (view D B ri m tr).
Proof.
  intros Hd. unfold load_desc. cbn [fst snd]. mstep (get_shared_view D B ri m tr).
  cbn [desc_ring with_desc_ring]. by apply mof_option_ok.
Qed.

Lemma store_desc_view D B ri m tr i d :
  store_desc (ci, i) d (view D B ri m tr) = Ok tt (view (zinsert i d D) B ri m tr).
Proof.
  unfold store_desc. cbn [fst snd]. mstep (get_shared_view D B ri m tr).
  unfold put_shared. mstep (get_client_view D B ri m tr).
  apply (put_client_view D B ri m tr (zinsert i d D) B ri).
Qed.

Lemma load_bio_ring_view D B ri m tr i o :
  zlookup B i = Some o → load_bio_ring ci i (view D B ri m tr) = Ok o (view D B ri m tr).
Proof.
  intros Ho. unfold load_bio_ring. mstep (get_client_view D B ri m tr).
  by apply mof_option_ok.
Qed.

Lemma store_bio_ring_view D B ri m tr i o :
  store_bio_ring ci i o (view D B ri m tr) = Ok tt (view D (zinsert i o B) ri m tr).
Proof.
  unfold store_bio_ring. mstep (get_client_view D B ri m tr).
  apply (put_client_view D B ri m tr D (zinsert i o B) ri).
Qed.

Lemma put_ring_info_view D B ri m tr r :
  put_ring_info ci r (view D B ri m tr) = Ok tt (view D B r m tr).
Proof.
  unfold put_ring_info. mstep (get_client_view D B ri m tr).
  apply (put_client_view D B ri m tr D B r).
Qed.

Lemma load_bio_view D B ri m tr b v :
  m !! b = Some v → load_bio b (view D B ri m tr) = Ok v (view D B ri m tr).
Proof. intros Hb. unfold load_bio, mgets, mbind, M_bind. cbn. by rewrite Hb. Qed.

Lemma store_bio_view D B ri m tr b v :
  store_bio b v (view D B ri m tr) = Ok tt (view D B ri (<[b:=v]> m) tr).
Proof. done. Qed.

Lemma delete_bio_view D B ri m tr b :
  mmodify (λ s, with_bios (delete b (bios s)) s) (view D B ri m tr)
    = Ok tt (view D B ri (delete b m) tr).
Proof. done. Qed.

Lemma emit_view D B ri m tr e :
  emit e (view D B ri m tr) = Ok tt (view D B ri m (tr ++ [e])).
Proof. done. Qed.

(** The connection a descriptor names belongs to this client. *)
Definition conn_ok (k : Z) : Prop :=
  0 ≤ k < L4VMBLOCK_MAX_DEVICES ∧
  ∃ conn, zlookup (connections s0) k = Some conn ∧ cn_handle conn = k ∧ cn_client conn = Some ci.

Lemma get_conn_view D B ri m tr k conn :
  zlookup (connections s0) k = Some conn →
  get_conn k (view D B ri m tr) = Ok conn (view D B ri m tr).
Proof. intros Hk. unfold get_conn, mgets, mbind, M_bind. cbn. by rewrite Hk. Qed.

Lemma conn_lookup_view D B ri m tr k :
  conn_ok k → L4VMblock_conn_lookup k (view D B ri m tr) = Ok (Some k) (view D B ri m tr).
Proof.
  intros (Hk & conn & Hl & Hh & _). unfold L4VMblock_conn_lookup.
  rewrite bool_decide_eq_true_2 by done. mstep (get_conn_view D B ri m tr _ _ Hl).
  by rewrite bool_decide_eq_true_2.
Qed.

(** ** [L4VMblock_end_io] *)

(** The descriptor after the block layer reported [err] on it. *)
Definition note_err (err : bool) (d : IVMblock_ring_descriptor_t) : IVMblock_ring_descriptor_t :=
  if err then with_status set_err d else d.

(** The bio is not finished: only the error is recorded. *)
Lemma end_io_partial D B ri m tr b v i d err :
  m !! b = Some v → bi_private v = Some (ci, i) → bi_size v ≠ 0 → zlookup D i = Some d →
  L4VMblock_end_io b err (view D B ri m tr) = Ok 1 (view (zinsert i (note_err err d) D) B ri m tr).
Proof.
  intros Hb Hp Hsz Hd. unfold L4VMblock_end_io. mstep (load_bio_view D B ri m tr _ _ Hb).
  rewrite Hp. cbn [mof_option]. mret_step.
  destruct err; cbn [note_err].
  - erewrite bind_ok by (mstep (load_desc_view D B ri m tr _ _ Hd); apply store_desc_view).
    cbv beta zeta. by rewrite bool_decide_eq_true_2.
  - mret_step. rewrite bool_decide_eq_true_2, zinsert_id by done. done.
Qed.
(** The steps of [L4VMblock_end_io] before the release. *)
Lemma end_io_prefix D B ri m tr b v i d k err :
  m !! b = Some v → bi_private v = Some (ci, i) → bi_size v = 0 →
  zlookup D i = Some d → d_handle d = k → conn_ok k →
  L4VMblock_end_io b err (view D B ri m tr) =
    (end_io_release (ci, i) k;;
     mmodify (λ s, with_bios (delete b (bios s)) s);; emit (BPut b);; emit BTasklet;; mret 0)
    (view (zinsert i (note_err err d) D) B ri m tr).
Proof.
  intros Hb Hp Hsz Hd Hh Hk. unfold L4VMblock_end_io. mstep (load_bio_view D B ri m tr _ _ Hb).
  rewrite Hp. cbn [mof_option]. mret_step. rewrite Hsz.
  rewrite bool_decide_eq_false_2 by tauto.
  assert (zlookup (zinsert i (note_err err d) D) i = Some (note_err err d)) as Hd1.
  { apply zlookup_zinsert_eq. by apply zlookup_lt in Hd. }
  assert (d_handle (note_err err d) = k) as Hh1 by by destruct err.
  assert ((if err then d ← load_desc (ci, i); store_desc (ci, i) (with_status set_err d) else mret tt)
    (view D B ri m tr) = Ok tt (view (zinsert i (note_err err d) D) B ri m tr)) as Herr.
  { destruct err; cbn [note_err].
    - mstep (load_desc_view D B ri m tr _ _ Hd). apply store_desc_view.
    - by rewrite zinsert_id. }
  mstep Herr. mstep (load_desc_view _ B ri m tr _ _ Hd1). rewrite Hh1.
  mstep (conn_lookup_view (zinsert i (note_err err d) D) B ri m tr k Hk). done.
Qed.

Lemma release_in_order D B ri m tr i d k :
  conn_ok k → start_dirty ri = i → zlookup D i = Some d → server_owned (d_status d) = true →
  end_io_release (ci, i) k (view D B ri m tr) =
    Ok tt (view (zinsert i (with_status (set_owned false) d) D) (zinsert i None B)
             (mk_ring (cnt ri) (start_free ri) (cnext (cnt ri) i)) m tr).
Proof.
  intros (Hk & conn & Hl & Hh & Hcl) Hi Hd Ho. unfold end_io_release.
  mstep (get_conn_view D B ri m tr _ _ Hl). rewrite Hcl. cbn [mof_option]. mret_step.
  mstep (get_client_view D B ri m tr). cbn [ring_info view_client fst snd]. rewrite Hi.
  rewrite !bool_decide_eq_true_2 by done. mret_step.
  mstep (load_desc_view D B ri m tr _ _ Hd). mstep (massert_ok _ (view D B ri m tr) Ho).
  mret_step.
  mstep (put_ring_info_view D B ri m tr (mk_ring (cnt ri) (start_free ri) (cnext (cnt ri) i))).
  erewrite bind_ok by apply store_bio_ring_view. cbv beta zeta.
  erewrite bind_ok by (apply load_desc_view; exact Hd). cbv beta zeta. apply store_desc_view.
Qed.

Lemma release_swapped D B ri m tr i j d f ob ov k :
  conn_ok k → start_dirty ri = j → i ≠ j →
  zlookup D i = Some d → zlookup D j = Some f → server_owned (d_status f) = true →
  zlookup B j = Some (Some ob) → m !! ob = Some ov →
  end_io_release (ci, i) k (view D B ri m tr) =
    Ok tt (view (zinsert j (with_status (set_owned false) d) (zinsert i f D))
             (zinsert j None (zinsert i (Some ob) B))
             (mk_ring (cnt ri) (start_free ri) (cnext (cnt ri) j))
             (<[ob := with_private (Some (ci, i)) ov]> m) tr).
Proof.
  intros (Hk & conn & Hl & Hh & Hcl) Hj Hne Hd Hf Ho HB Hob. unfold end_io_release.
  mstep (get_conn_view D B ri m tr _ _ Hl). rewrite Hcl. cbn [mof_option]. mret_step.
  mstep (get_client_view D B ri m tr). cbn [ring_info view_client fst snd]. rewrite Hj.
  rewrite (bool_decide_eq_true_2 (ci = ci)) by done. mret_step.
  mstep (load_desc_view D B ri m tr _ _ Hf). mstep (massert_ok _ (view D B ri m tr) Ho).
  rewrite bool_decide_eq_false_2 by congruence.
  rewrite (bind_ok _ _ _ tt (view (zinsert j d (zinsert i f D)) (zinsert i (Some ob) B) ri
    (<[ob := with_private (Some (ci, i)) ov]> m) tr)).
  2:{ mstep (load_desc_view D B ri m tr _ _ Hd). erewrite bind_ok by apply store_desc_view.
      cbv beta zeta. erewrite bind_ok by apply store_desc_view. cbv beta zeta.
      erewrite bind_ok by (apply load_bio_ring_view; exact HB). cbv beta zeta.
      erewrite bind_ok by apply store_bio_ring_view. cbn [mof_option]. mret_step.
      erewrite bind_ok by (apply load_bio_view; exact Hob). cbv beta zeta. apply store_bio_view. }
  cbv beta zeta. erewrite bind_ok by apply put_ring_info_view. cbv beta zeta.
  erewrite bind_ok by apply store_bio_ring_view. cbv beta zeta.
  erewrite bind_ok.
  2:{ apply load_desc_view. apply zlookup_zinsert_eq. rewrite length_zinsert.
      by apply zlookup_lt in Hf. }
  cbv beta zeta. rewrite store_desc_view. by rewrite zinsert_zinsert.
Qed.

(** [L4VMblock_end_io] of the oldest bio. *)
Lemma end_io_in_order D B ri m tr b v i d k err :
  m !! b = Some v → bi_private v = Some (ci, i) → bi_size v = 0 →
  zlookup D i = Some d → d_handle d = k → conn_ok k → start_dirty ri = i →
  server_owned (d_status d) = true →
  L4VMblock_end_io b err (view D B ri m tr) =
    Ok 0 (view (zinsert i (with_status (set_owned false) (note_err err d)) D) (zinsert i None B)
            (mk_ring (cnt ri) (start_free ri) (cnext (cnt ri) i)) (delete b m)
            (tr ++ [BPut b] ++ [BTasklet])).
Proof.
  intros Hb Hp Hsz Hd Hh Hk Hi Ho. rewrite (end_io_prefix _ _ _ _ _ _ _ i d k) by done.
  erewrite bind_ok.
  2:{ apply (release_in_order _ _ _ _ _ _ (note_err err d)); [done..| |].
      - apply zlookup_zinsert_eq. by apply zlookup_lt in Hd.
      - by destruct err. }
  cbv beta zeta. rewrite zinsert_zinsert, app_assoc. done.
Qed.

(** [L4VMblock_end_io] of a younger bio: the two descriptors change places. *)
Lemma end_io_swapped D B ri m tr b v i j d f ob ov k err :
  m !! b = Some v → bi_private v = Some (ci, i) → bi_size v = 0 →
  zlookup D i = Some d → d_handle d = k → conn_ok k → start_dirty ri = j → i ≠ j →
  zlookup D j = Some f → server_owned (d_status f) = true →
  zlookup B j = Some (Some ob) → m !! ob = Some ov →
  L4VMblock_end_io b err (view D B ri m tr) =
    Ok 0 (view (zinsert j (with_status (set_owned false) (note_err err d)) (zinsert i f D))
            (zinsert j None (zinsert i (Some ob) B))
            (mk_ring (cnt ri) (start_free ri) (cnext (cnt ri) j))
            (delete b (<[ob := with_private (Some (ci, i)) ov]> m))
            (tr ++ [BPut b] ++ [BTasklet])).
Proof.
  intros Hb Hp Hsz Hd Hh Hk Hj Hne Hf Ho HB Hob.
  rewrite (end_io_prefix _ _ _ _ _ _ _ i d k) by done.
  erewrite bind_ok.
  2:{ apply (release_swapped _ _ _ _ _ _ j (note_err err d) f ob ov); try done.
      - apply zlookup_zinsert_eq. by apply zlookup_lt in Hd.
      - by rewrite zlookup_zinsert_ne. }
  cbv beta zeta. rewrite zinsert_zinsert, app_assoc. done.
Qed.
(** ** [L4VMblock_process_io_queue] *)

Lemma process_idle D B ri m tr d o :
  zlookup D (start_free ri) = Some d → zlookup B (start_free ri) = Some o →
  server_owned (d_status d) = false ∨ o ≠ None →
  L4VMblock_process_io_queue ci (view D B ri m tr) = Ok 1 (view D B ri m tr).
Proof.
  intros Hd Ho Hidle. unfold L4VMblock_process_io_queue.
  mstep (get_client_view D B ri m tr). cbn [ring_info view_client].
  mstep (load_desc_view D B ri m tr _ _ Hd). mstep (load_bio_ring_view D B ri m tr _ _ Ho).
  assert (negb (server_owned (d_status d)) || bool_decide (o ≠ None) = true) as ->; [|done].
  destruct Hidle as [->|?]; [done|]. rewrite bool_decide_eq_true_2 by done. apply orb_true_r.
Qed.

(** The bio built for a single-page descriptor. *)
Definition single_bio (bdev : option Z) (space : L4VM_client_space_info_t)
    (d : IVMblock_ring_descriptor_t) (dp : desc_ptr) : bio :=
  let bv := page_vec (bus_start space) (d_page d) (d_size d) in
  mk_bio (d_offset d) bdev [bv] 1 0 (u32 (0 + d_size d)) (Some dp).

Definition desc_rw (d : IVMblock_ring_descriptor_t) : rw_mode :=
  if do_write (d_status d) then WRITE else if speculative (d_status d) then READA else READ.

Lemma initiate_single D B ri m tr i d k conn space :
  zlookup (connections s0) k = Some conn → zlookup D i = Some d → sp = Some space →
  d_size d ≠ 0 → ∀ b, bio_alloc (view D B ri m tr) 1 = Some b →
  L4VMblock_initiate_io k ci (ci, i) i (view D B ri m tr) =
    Ok 1 (view D (zinsert i (Some b) B) ri
            (<[b := single_bio (blkdev conn) space d (ci, i)]> m) (tr ++ [BSubmit (desc_rw d) b])).
Proof.
  intros Hl Hd Hsp Hsz b Hb. unfold L4VMblock_initiate_io.
  mstep (get_conn_view D B ri m tr _ _ Hl). mstep (get_shared_view D B ri m tr).
  mstep (load_desc_view D B ri m tr _ _ Hd). mstep (get_client_view D B ri m tr).
  rewrite !bool_decide_eq_true_2 by done. unfold mgets at 1.
  erewrite (bind_ok _ _ _ (Some b)) by (by rewrite Hb). cbv beta zeta.
  cbn [mof_option]. mret_step.
  mstep (store_bio_ring_view D B ri m tr i (Some b)).
  cbn [client_space view_client]. rewrite Hsp. cbn [mof_option].
  erewrite bind_ok by (mret_step; done). done.
Qed.

Lemma process_take D B ri m tr d k :
  let i := start_free ri in
  let ri' := mk_ring (cnt ri) (cnext (cnt ri) i) (start_dirty ri) in
  zlookup D i = Some d → zlookup B i = Some None → server_owned (d_status d) = true →
  d_handle d = k → conn_ok k → d_size d ≠ 0 → is_Some sp →
  ∃ conn space b, zlookup (connections s0) k = Some conn ∧ sp = Some space ∧ m !! b = None ∧
    L4VMblock_process_io_queue ci (view D B ri m tr) =
      Ok 0 (view D (zinsert i (Some b) B) ri'
              (<[b := single_bio (blkdev conn) space d (ci, i)]> m) (tr ++ [BSubmit (desc_rw d) b])).
Proof.
  intros i ri' Hd HB Ho Hh Hk Hsz [space Hsp]. pose proof Hk as (_ & conn & Hl & _ & Hcl).
  destruct (bio_alloc_one (view D B ri' m tr)) as [b Hb].
  exists conn, space, b. split_and!; [done..|exact (bio_alloc_fresh (view D B ri' m tr) _ _ Hb)|].
  unfold L4VMblock_process_io_queue. mstep (get_client_view D B ri m tr).
  cbn [ring_info view_client]. mstep (load_desc_view D B ri m tr _ _ Hd).
  mstep (load_bio_ring_view D B ri m tr _ _ HB). rewrite Ho.
  rewrite (bool_decide_eq_false_2 (None ≠ None)) by tauto. cbn [negb orb].
  mstep (put_ring_info_view D B ri m tr ri'). rewrite Hh.
  mstep (conn_lookup_view D B ri' m tr k Hk).
  erewrite bind_ok.
  2:{ mstep (get_conn_view D B ri' m tr _ _ Hl). rewrite bool_decide_eq_true_2 by done.
      mstep (initiate_single D B ri' m tr _ _ _ _ _ Hl Hd Hsp Hsz b Hb). done. }
  done.
Qed.

(** A descriptor whose handle does not name a connection of this client. *)
Definition conn_bad (k : Z) : Prop :=
  ¬ (0 ≤ k < L4VMBLOCK_MAX_DEVICES) ∨
  ∃ conn, zlookup (connections s0) k = Some conn ∧ (cn_handle conn ≠ k ∨ cn_client conn ≠ Some ci).

Lemma process_reject D B ri m tr d k :
  let i := start_free ri in
  let ri' := mk_ring (cnt ri) (cnext (cnt ri) i) (start_dirty ri) in
  zlookup D i = Some d → zlookup B i = Some None → server_owned (d_status d) = true →
  d_handle d = k → conn_bad k →
  L4VMblock_process_io_queue ci (view D B ri m tr) =
    Ok 0 (view (zinsert i (with_status (λ st, set_owned false (set_err st)) d) D) B ri' m
            (tr ++ [BTasklet])).
Proof.
  intros i ri' Hd HB Ho Hh Hbad.
  unfold L4VMblock_process_io_queue. mstep (get_client_view D B ri m tr).
  cbn [ring_info view_client]. mstep (load_desc_view D B ri m tr _ _ Hd).
  mstep (load_bio_ring_view D B ri m tr _ _ HB). rewrite Ho.
  rewrite (bool_decide_eq_false_2 (None ≠ None)) by tauto. cbn [negb orb].
  mstep (put_ring_info_view D B ri m tr ri'). rewrite Hh.
  assert (∃ o, L4VMblock_conn_lookup k (view D B ri' m tr) = Ok o (view D B ri' m tr) ∧
    (o = None ∨ ∃ conn, o = Some k ∧ zlookup (connections s0) k = Some conn ∧
       cn_client conn ≠ Some ci)) as (o & Hlook & Ho').
  { unfold L4VMblock_conn_lookup. case_bool_decide as Hr; [|by eauto].
    destruct Hbad as [?|(conn & Hl & Hne)]; [tauto|].
    mstep (get_conn_view D B ri' m tr _ _ Hl). eexists. split; [done|].
    case_bool_decide; [right; exists conn|left]; naive_solver. }
  mstep Hlook.
  rewrite (bind_ok _ _ _ false (view D B ri' m tr)).
  2:{ destruct Ho' as [->|(conn & -> & Hl & Hne)]; [done|].
      mstep (get_conn_view D B ri' m tr _ _ Hl). by rewrite bool_decide_eq_false_2. }
  cbv beta zeta.
  erewrite bind_ok.
  2:{ mstep (load_desc_view D B ri' m tr _ _ Hd).
      mstep (store_desc_view D B ri' m tr (start_free ri)
        (with_status (λ st, set_owned false (set_err st)) d)). apply emit_view. }
  done.
Qed.
End view.
