(* ===== verification/BlockProtocol.v ===== *)
(** * The block protocol: client and server over one shared ring

    The client stub (BlockClient.v) and the server (Block.v) run concurrently
    on the shared descriptor ring; the disk completes bios in any order. This
    file composes the translated functions into one transition system and
    proves that the ring protocol loses, duplicates and confuses no request,
    and that none of the assertions of the two drivers fails. *)

From stdpp Require Import base list gmap numbers relations.
From Stdlib Require Import ZArith Lia.
From S2P Require Import Prelude CmdRing VmMemory Block BlockClient BlockView.

(** ** The client operations on a ring *)

Section client_exec.
Definition submitted_desc (handle : Z) (dir : rw_mode) (sector : Z) (sg : segment)
    (d : IVMblock_ring_descriptor_t) : IVMblock_ring_descriptor_t :=
  mk_desc (mk_status true (bool_decide (dir = WRITE)) (bool_decide (dir = READA)) false) handle
    (seg_phys sg) (u32 sector) (seg_len sg) (d_count d) (d_client_data d) (d_energy d).

Lemma submit_segment_ok handle dir req bio sector sg c d p sh0 :
  let r := desc_ring_info c in
  zlookup (desc_ring (bc_shared c)) (start_free r) = Some d →
  server_owned (d_status d) = false → d_client_data d = Some p →
  zlookup (shadow_ring c) p = Some sh0 →
  submit_segment handle dir req bio sector sg c =
    Ok (sector + Z.shiftr (seg_len sg) 9)
      (mk_bclient (shared_window c) (bc_server_tid c) (bc_handle c)
         (with_desc_ring (zinsert (start_free r) (submitted_desc handle dir sector sg d)
            (desc_ring (bc_shared c))) (bc_shared c))
         (bc_server_shared c) (mk_ring (cnt r) (cnext (cnt r) (start_free r)) (start_dirty r))
         (zinsert p (mk_shadow (Some bio) (Some req)) (shadow_ring c))
         (descriptors c) (requests c)
         (ctrace c ++ [CProcessFirst req (Z.shiftr (seg_len sg) 9)])).
Proof.
  intros r Hd Ho Hp Hsh. unfold submit_segment.
  erewrite (bind_ok _ _ _ r) by done. cbv beta zeta.
  erewrite (bind_ok _ _ _ d).
  2:{ unfold rdesc_load. erewrite (bind_ok _ _ _ (Some d)); [done|]. unfold mgets. by rewrite Hd. }
  cbv beta zeta. rewrite Ho. cbn [negb]. erewrite bind_ok by done. cbv beta zeta.
  rewrite Hp. cbn [mof_option]. mret_step.
  erewrite (bind_ok _ _ _ sh0).
  2:{ unfold shadow_load. erewrite (bind_ok _ _ _ (Some sh0)); [done|]. unfold mgets. by rewrite Hsh. }
  cbv beta zeta. unfold submitted_desc. rewrite Hp.
  do 5 (erewrite bind_ok by done; cbv beta zeta). unfold mret, M_ret, bc_with_ring. f_equal.
  cbn. by rewrite zinsert_zinsert.
Qed.

(** What retiring a descriptor does to the request, and the calls into Linux:
    the bio ends, with the error the server noted; with the last sectors of
    the request, so does the request. *)
Definition retired_req (d : IVMblock_ring_descriptor_t) (rq : request) : request :=
  let nsect := Z.shiftr (d_size d) 9 in
  with_hard_nr (if bool_decide (hard_nr_sectors rq ≤ nsect) then 0 else hard_nr_sectors rq - nsect)
    (if server_err (d_status d) then with_errors (rq_errors rq + 1) rq else rq).
Definition bio_event (bio size : Z) (err : bool) : cevent :=
  if err then CBioError bio size else CBioEnd bio size.
Definition retire_events (d : IVMblock_ring_descriptor_t) (bio req : Z) (rq : request) : list cevent :=
  bio_event bio (d_size d) (server_err (d_status d)) ::
  if bool_decide (hard_nr_sectors rq ≤ Z.shiftr (d_size d) 9) then [CEndRequest req] else [].

Lemma finish_one_ok c d p bio req rq :
  let r := desc_ring_info c in
  start_dirty r ≠ start_free r →
  zlookup (desc_ring (bc_shared c)) (start_dirty r) = Some d →
  server_owned (d_status d) = false → d_client_data d = Some p →
  zlookup (shadow_ring c) p = Some (mk_shadow (Some bio) (Some req)) →
  requests c !! req = Some rq →
  (hard_nr_sectors rq ≤ Z.shiftr (d_size d) 9 → rq_queued rq = false) →
  finish_one c =
    Ok true (mk_bclient (shared_window c) (bc_server_tid c) (bc_handle c) (bc_shared c) (bc_server_shared c)
      (mk_ring (cnt r) (start_free r) (cnext (cnt r) (start_dirty r)))
      (zinsert p (mk_shadow None None) (shadow_ring c)) (descriptors c)
      (<[req := retired_req d rq]> (requests c)) (ctrace c ++ retire_events d bio req rq)).
Proof.
  intros r Hne Hd Ho Hp Hsh Hrq Hq. unfold finish_one.
  erewrite (bind_ok _ _ _ r) by done. cbv beta zeta. rewrite bool_decide_eq_false_2 by done.
  erewrite (bind_ok _ _ _ d).
  2:{ unfold rdesc_load. erewrite (bind_ok _ _ _ (Some d)); [done|]. unfold mgets. by rewrite Hd. }
  cbv beta zeta. rewrite Ho, Hp. cbn [mof_option]. mret_step.
  erewrite bind_ok.
  2:{ unfold shadow_load. erewrite (bind_ok _ _ _ (Some _)); [done|]. unfold mgets. by rewrite Hsh. }
  cbv beta zeta. cbn [sh_req sh_bio mof_option]. do 2 mret_step.
  assert (∀ c' v, requests c' !! req = Some v → req_load req c' = Ok v c') as Hload.
  { intros c' v Hv. unfold req_load. erewrite (bind_ok _ _ _ (Some v)); [done|].
    unfold mgets. by rewrite Hv. }
  rewrite (bind_ok _ _ _ _ _ (Hload _ _ Hrq)). cbv beta zeta.
  set (rq1 := if server_err (d_status d) then with_errors (rq_errors rq + 1) rq else rq).
  assert (hard_nr_sectors rq1 = hard_nr_sectors rq ∧ rq_queued rq1 = rq_queued rq) as [Hh1 Hq1]
    by (subst rq1; by destruct (server_err _)).
  erewrite (bind_ok _ _ _ tt (bc_log (bio_event bio (d_size d) (server_err (d_status d)))
    (bc_with_requests (<[req := rq1]> (requests c)) c))).
  2:{ subst rq1. unfold bio_event. destruct (server_err (d_status d)); [done|].
      unfold cemit, mmodify. f_equal. rewrite insert_id by done. by destruct c. }
  cbv beta zeta. erewrite bind_ok by (apply Hload; cbn; apply lookup_insert_eq). cbv beta zeta.
  unfold retired_req, retire_events. fold rq1. rewrite Hh1, Hq1. case_bool_decide as Hlast.
  - rewrite Hq by done.
    erewrite bind_ok by (erewrite bind_ok by done; cbv beta zeta;
                         erewrite bind_ok by done; cbv beta zeta; done).
    cbv beta zeta. do 2 (erewrite bind_ok by done; cbv beta zeta). unfold mret, M_ret.
    f_equal. cbn. unfold bc_with_ring. cbn. by rewrite insert_insert_eq, <- app_assoc.
  - erewrite bind_ok by done.
    cbv beta zeta. do 2 (erewrite bind_ok by done; cbv beta zeta). unfold mret, M_ret.
    f_equal. cbn. unfold bc_with_ring. cbn. by rewrite insert_insert_eq.
Qed.
End client_exec.

(** ** The window of outstanding descriptors *)

Abbreviation ring_size := IVMblock_descriptor_ring_size.
Abbreviation rslot := (slot IVMblock_descriptor_ring_size).

(** A submitted segment: a serial number, the Linux objects to complete, and
    the I/O asked for (sector, physical address, length, whether to write). *)
Record token : Type := mk_token {
  tk_id : nat; tk_bio : Z; tk_req : Z; tk_io : Z * Z * Z * bool
}.

Definition tk_size (t : token) : Z := let '(_, _, size, _) := tk_io t in size.
Definition tk_sectors (t : token) : Z := Z.shiftr (tk_size t) 9.

(** The sectors of the outstanding segments of a request. *)
Definition token_sectors (req : Z) (o : option token) : Z :=
  match o with Some t => if decide (tk_req t = req) then tk_sectors t else 0 | None => 0 end.
Definition pending (own : list (option token)) (req : Z) : Z :=
  foldr (λ o n, token_sectors req o + n) 0 own.

Lemma pending_zinsert own p o o' req :
  zlookup own p = Some o →
  pending (zinsert p o' own) req = pending own req - token_sectors req o + token_sectors req o'.
Proof.
  unfold zlookup, zinsert. case_decide as Hp; [|done].
  generalize (Z.to_nat p). clear. unfold pending.
  induction own as [|a own IH]; intros [|m] Hm; simplify_eq/=; [lia|].
  rewrite (IH _ Hm). lia.
Qed.

Lemma pending_exists own req :
  pending own req ≠ 0 → ∃ i t, zlookup own i = Some (Some t) ∧ tk_req t = req.
Proof.
  intros Hne. assert (∃ n t, own !! n = Some (Some t) ∧ tk_req t = req) as (n & t & Hn & Ht).
  { induction own as [|[t|] own IH]; simpl in Hne; [done| |].
    - destruct (decide (tk_req t = req)); [by exists 0%nat, t|].
      destruct IH as (m & u & ? & ?); [done|]. by exists (S m), u.
    - destruct IH as (m & u & ? & ?); [done|]. by exists (S m), u. }
  exists (Z.of_nat n), t. unfold zlookup. by rewrite decide_True, Nat2Z.id by lia.
Qed.

Lemma pending_nonneg own req :
  (∀ j u, zlookup own j = Some (Some u) → 0 ≤ tk_sectors u) → 0 ≤ pending own req.
Proof.
  intros Hall. assert (Forall (λ o, 0 ≤ token_sectors req o) own) as Hf.
  { apply list.Forall_lookup. intros n [u|] Hn; simpl; [|done]. case_decide; [|done].
    apply (Hall (Z.of_nat n)). unfold zlookup. by rewrite decide_True, Nat2Z.id by lia. }
  clear Hall. induction Hf; simpl; lia.
Qed.

Lemma pending_lower own i t :
  (∀ j u, zlookup own j = Some (Some u) → 0 ≤ tk_sectors u) →
  zlookup own i = Some (Some t) → tk_sectors t ≤ pending own (tk_req t).
Proof.
  intros Hall Hi. pose proof (pending_zinsert own i (Some t) None (tk_req t) Hi) as He.
  simpl in He. rewrite decide_True in He by done.
  assert (0 ≤ pending (zinsert i None own) (tk_req t)); [|lia].
  apply pending_nonneg. intros j u. rewrite zlookup_zinsert by (by apply zlookup_lt in Hi).
  case_decide; [done|]. apply Hall.
Qed.

Definition desc_io (d : IVMblock_ring_descriptor_t) : Z * Z * Z * bool :=
  (d_offset d, d_page d, d_size d, do_write (d_status d)).

(** Where a ring position is in its life. *)
Inductive phase : Type := Completed | Inflight | Queued | Free.

Definition phase_of (SD SF CF p : nat) : phase :=
  if decide (p < SD)%nat then Completed
  else if decide (p < SF)%nat then Inflight
  else if decide (p < CF)%nat then Queued else Free.

(** What a bio transfers, and what the bio of a descriptor has to transfer:
    sector and memory; [pv] translates a client page to a bio vector. *)
Definition bio_io (v : bio) : Z * list bio_vec := (bi_sector v, bi_io_vec v).
Definition desc_bio (pv : Z → Z → bio_vec) (d : IVMblock_ring_descriptor_t) : Z * list bio_vec :=
  (d_offset d, [pv (d_page d) (d_size d)]).

Section window.
Context (ci k : Z) (pv : Z → Z → bio_vec).

(** What the ring holds at a position, phase by phase: descriptor [d], the
    token [o] its client data stands for, its entry [bo] of the bio ring. *)
Definition phase_ok (m : gmap positive bio) (infl : gmap positive (token * bool))
    (fin_io : list (token * bool)) (ph : phase) (sl : Z) (d : IVMblock_ring_descriptor_t)
    (o : option token) (bo : option positive) : Prop :=
  match ph with
  | Completed => server_owned (d_status d) = false ∧ bo = None ∧
      ∃ t, o = Some t ∧ desc_io d = tk_io t ∧ (t, server_err (d_status d)) ∈ fin_io
  | Inflight => server_owned (d_status d) = true ∧ d_handle d = k ∧
      ∃ t b v, o = Some t ∧ desc_io d = tk_io t ∧ bo = Some b ∧ m !! b = Some v ∧
        bi_private v = Some (ci, sl) ∧ bio_io v = desc_bio pv d ∧
        infl !! b = Some (t, server_err (d_status d))
  | Queued => server_owned (d_status d) = true ∧ d_handle d = k ∧ bo = None ∧ d_size d ≠ 0 ∧
      server_err (d_status d) = false ∧ ∃ t, o = Some t ∧ desc_io d = tk_io t
  | Free => server_owned (d_status d) = false ∧ bo = None ∧ o = None
  end.

(** Client data is a bijection between ring slots and shadow entries. *)
Record cd_bij (D : list IVMblock_ring_descriptor_t) : Prop := {
  cd_inj : ∀ x y d e i, zlookup D x = Some d → zlookup D y = Some e →
    d_client_data d = Some i → d_client_data e = Some i → x = y;
  cd_surj : ∀ i, 0 ≤ i < ring_size →
    ∃ x d, zlookup D x = Some d ∧ d_client_data d = Some i
}.

Record window (D : list IVMblock_ring_descriptor_t) (B : list (option positive))
    (m : gmap positive bio) (own : list (option token)) (infl : gmap positive (token * bool))
    (fin_io : list (token * bool)) (CD SD SF CF : nat) : Prop := {
  w_lenD : length D = ring_size;
  w_lenB : length B = ring_size;
  w_lenO : length own = ring_size;
  w_ord : (CD ≤ SD ∧ SD ≤ SF ∧ SF ≤ CF ∧ CF < CD + ring_size)%nat;
  w_bij : cd_bij D;
  w_slot : ∀ p, (CD ≤ p < CD + ring_size)%nat →
    ∃ d i o bo, zlookup D (rslot p) = Some d ∧ d_client_data d = Some i ∧
      zlookup own i = Some o ∧ zlookup B (rslot p) = Some bo ∧
      phase_ok m infl fin_io (phase_of SD SF CF p) (rslot p) d o bo
}.

Lemma ring_size_pos : (0 < ring_size)%nat.
Proof. unfold ring_size. lia. Qed.

Lemma rslot_range p : 0 ≤ rslot p < ring_size.
Proof. apply slot_range, ring_size_pos. Qed.

Lemma rslot_ne p q CD : p ≠ q → (CD ≤ p < CD + ring_size)%nat → (CD ≤ q < CD + ring_size)%nat →
  rslot p ≠ rslot q.
Proof. intros. apply slot_ne; [apply ring_size_pos|lia..]. Qed.

Lemma cnext_rslot p : cnext ring_size (rslot p) = rslot (S p).
Proof. apply slot_succ; [apply ring_size_pos|unfold ring_size; lia]. Qed.

(** Replacing a descriptor by one with the same client data. *)
Lemma cd_bij_update D x d d' :
  cd_bij D → zlookup D x = Some d → d_client_data d' = d_client_data d →
  cd_bij (zinsert x d' D).
Proof.
  intros [Hinj Hsurj] Hx Hcd. pose proof (zlookup_lt _ _ _ Hx) as Hr. split.
  - assert (∀ w g, zlookup (zinsert x d' D) w = Some g →
      ∃ g0, zlookup D w = Some g0 ∧ d_client_data g0 = d_client_data g) as Hback.
    { intros w g. rewrite zlookup_zinsert by done. case_decide; subst; intros ?; simplify_eq; eauto. }
    intros y z e f i (e0 & ? & ?)%Hback (f0 & ? & ?)%Hback He Hf.
    apply (Hinj y z e0 f0 i); congruence.
  - intros i Hi. destruct (Hsurj i Hi) as (y & e & Hy & He). exists y.
    rewrite zlookup_zinsert by done. case_decide; subst; [|eauto].
    exists d'. split; [done|]. simplify_eq. congruence.
Qed.

(** Exchanging two descriptors. *)
Lemma cd_bij_swap D x y d e d' :
  cd_bij D → x ≠ y → zlookup D x = Some d → zlookup D y = Some e →
  d_client_data d' = d_client_data d →
  cd_bij (zinsert y d' (zinsert x e D)).
Proof.
  intros [Hinj Hsurj] Hxy Hx Hy Hcd.
  pose proof (zlookup_lt _ _ _ Hx) as Hrx. pose proof (zlookup_lt _ _ _ Hy) as Hry.
  assert (∀ z f, zlookup (zinsert y d' (zinsert x e D)) z = Some f →
    ∃ z0 f0, zlookup D z0 = Some f0 ∧ d_client_data f = d_client_data f0 ∧
      z0 = if decide (z = y) then x else if decide (z = x) then y else z) as Hback.
  { intros z f. rewrite !zlookup_zinsert by (rewrite ?length_zinsert; done).
    repeat case_decide; subst; intros; simplify_eq; eauto. }
  split.
  - intros z1 z2 f1 f2 i Hz1 Hz2 H1 H2.
    destruct (Hback _ _ Hz1) as (w1 & g1 & Hw1 & E1 & F1).
    destruct (Hback _ _ Hz2) as (w2 & g2 & Hw2 & E2 & F2).
    assert (w1 = w2) as Hw by (apply (Hinj w1 w2 g1 g2 i); congruence).
    rewrite F1, F2 in Hw. repeat case_decide; congruence.
  - intros i Hi. destruct (Hsurj i Hi) as (z & f & Hz & Hf).
    exists (if decide (z = x) then y else if decide (z = y) then x else z).
    rewrite !zlookup_zinsert by (rewrite ?length_zinsert; done).
    repeat case_decide; simplify_eq; try congruence; eauto; eexists; (split; [done|]); congruence.
Qed.

(** ** The four moves *)

Ltac phase_cases := unfold phase_of; repeat case_decide; try lia.

(** A position whose slot, owner and phase a move leaves alone. *)
Lemma phase_ok_mono m infl fio m' infl' fio' ph sl d o bo :
  phase_ok m infl fio ph sl d o bo →
  (∀ b v t, ph = Inflight → bo = Some b → m !! b = Some v → bi_private v = Some (ci, sl) →
     infl !! b = Some t → ∃ v', m' !! b = Some v' ∧ bi_private v' = Some (ci, sl) ∧
       bio_io v' = bio_io v ∧ infl' !! b = Some t) →
  (∀ x, x ∈ fio → x ∈ fio') →
  phase_ok m' infl' fio' ph sl d o bo.
Proof.
  intros Hok Hm Hf. destruct ph; simpl in *; [naive_solver| |done..].
  destruct Hok as (? & ? & t & b & v & ? & ? & ? & Hb & Hp & ? & Hi).
  destruct (Hm b v _ eq_refl H3 Hb Hp Hi) as (v' & ? & ? & ? & ?).
  split_and!; [done..|]. exists t, b, v'. split_and!; try done. congruence.
Qed.

(** The client fills the descriptor at its free index. *)
Lemma window_submit D B m own infl fio CD SD SF CF d i d' t :
  window D B m own infl fio CD SD SF CF → (CF + 1 < CD + ring_size)%nat →
  zlookup D (rslot CF) = Some d → d_client_data d = Some i →
  d_client_data d' = Some i → server_owned (d_status d') = true → d_handle d' = k →
  server_err (d_status d') = false → desc_io d' = tk_io t → d_size d' ≠ 0 →
  window (zinsert (rslot CF) d' D) B m (zinsert i (Some t) own) infl fio CD SD SF (S CF).
Proof.
  intros [HlD HlB HlO Hord Hbij Hslot] Hroom Hd Hi Hi' Ho Hk He Hio Hsz.
  pose proof (rslot_range CF) as Hr.
  destruct (Hslot CF) as (d0 & i0 & o0 & bo & Hd0 & Hi0 & Ho0 & HB0 & Hph); [lia|].
  assert (d0 = d) as -> by congruence. assert (i0 = i) as -> by congruence.
  split; rewrite ?length_zinsert; auto; [lia|eapply cd_bij_update; eauto; congruence|].
  intros p Hp. rewrite zlookup_zinsert by (rewrite HlD; apply rslot_range). case_decide as Heq.
  - assert (p = CF) as -> by (destruct (decide (p = CF)); [done|]; exfalso;
      eapply (rslot_ne p CF CD); [done|lia|lia|congruence]).
    exists d', i, (Some t), bo. rewrite zlookup_zinsert_eq by (by apply zlookup_lt in Ho0).
    split_and!; [done..|]. revert Hph. phase_cases. simpl. intros (_ & -> & _).
    split_and!; eauto.
  - assert (p ≠ CF) by congruence.
    destruct (Hslot p Hp) as (e & j & o & bo' & He' & Hj & Ho' & HB' & Hph').
    exists e, j, o, bo'. split_and!; [done..| |done|].
    + rewrite zlookup_zinsert_ne; [done|]. intros <-.
      apply Heq. eapply cd_inj; eauto.
    + revert Hph'. phase_cases; done.
Qed.

(** The server takes the descriptor at its free index. *)
Lemma window_pickup D B m own infl fio CD SD SF CF d i t b v :
  window D B m own infl fio CD SD SF CF → (SF < CF)%nat →
  zlookup D (rslot SF) = Some d → d_client_data d = Some i → zlookup own i = Some (Some t) →
  m !! b = None → bi_private v = Some (ci, rslot SF) → bio_io v = desc_bio pv d →
  window D (zinsert (rslot SF) (Some b) B) (<[b := v]> m) own (<[b := (t, false)]> infl) fio
    CD SD (S SF) CF.
Proof.
  intros [HlD HlB HlO Hord Hbij Hslot] Hlt Hd Hi Hown Hb Hv Hsec.
  split; rewrite ?length_zinsert; auto; [lia|].
  intros p Hp. destruct (Hslot p Hp) as (e & j & o & bo & He & Hj & Ho & HB & Hph).
  destruct (decide (p = SF)) as [->|Hne].
  - assert (e = d) as -> by congruence. assert (j = i) as -> by congruence.
    assert (o = Some t) as -> by congruence. exists d, i, (Some t), (Some b).
    rewrite zlookup_zinsert_eq by (rewrite HlB; apply rslot_range).
    split_and!; [done..|]. revert Hph. phase_cases. simpl.
    intros (? & ? & ? & ? & Herr & t' & ? & ?). simplify_eq.
    split_and!; [done..|]. exists t', b, v.
    rewrite !lookup_insert_eq, Herr. done.
  - exists e, j, o, bo.
    rewrite zlookup_zinsert_ne by (apply (rslot_ne _ _ CD); lia).
    split_and!; [done..|].
    assert (phase_of SD (S SF) CF p = phase_of SD SF CF p) as -> by (phase_cases; done).
    eapply phase_ok_mono; [exact Hph| |done].
    intros b' v' t' _ _ Hb' Hp' Hi'. exists v'.
    rewrite !lookup_insert_ne by congruence. done.
Qed.

(** What the invariant says of a position in flight. *)
Lemma w_inflight D B m own infl fio CD SD SF CF p :
  window D B m own infl fio CD SD SF CF → (SD ≤ p < SF)%nat →
  ∃ d i t b v, zlookup D (rslot p) = Some d ∧ d_client_data d = Some i ∧
    zlookup own i = Some (Some t) ∧ zlookup B (rslot p) = Some (Some b) ∧
    server_owned (d_status d) = true ∧ d_handle d = k ∧ desc_io d = tk_io t ∧
    m !! b = Some v ∧ bi_private v = Some (ci, rslot p) ∧ bio_io v = desc_bio pv d ∧
    infl !! b = Some (t, server_err (d_status d)).
Proof.
  intros [_ _ _ Hord _ Hslot] Hp.
  destruct (Hslot p) as (d & i & o & bo & Hd & Hi & Ho & HB & Hph); [lia|].
  revert Hph. phase_cases. simpl. intros (? & ? & t & b & v & -> & ? & -> & ? & ? & ? & ?).
  exists d, i, t, b, v. done.
Qed.

(** A bio is in flight at one position only. *)
Lemma w_bio_inj D B m own infl fio CD SD SF CF p q b :
  window D B m own infl fio CD SD SF CF → (SD ≤ p < SF)%nat → (SD ≤ q < SF)%nat →
  zlookup B (rslot p) = Some (Some b) → zlookup B (rslot q) = Some (Some b) → p = q.
Proof.
  intros W Hp Hq HBp HBq. pose proof (w_ord _ _ _ _ _ _ _ _ _ _ W).
  destruct (w_inflight _ _ _ _ _ _ _ _ _ _ p W Hp) as (?&?&?&?&?&?&?&?&?&?&?&?&?&?&?&?).
  destruct (w_inflight _ _ _ _ _ _ _ _ _ _ q W Hq) as (?&?&?&?&?&?&?&?&?&?&?&?&?&?&?&?).
  destruct (decide (p = q)); [done|]. exfalso.
  by eapply (rslot_ne p q CD); [done|lia|lia|congruence].
Qed.

(** A position whose phase is not in flight does not look at the bios. *)
Lemma phase_inflight SD SF CF p :
  phase_of SD SF CF p = Inflight → (SD ≤ p < SF)%nat.
Proof. phase_cases; done || lia. Qed.

(** The disk reports progress, possibly with an error, on an unfinished bio. *)
Lemma window_progress D B m own infl fio CD SD SF CF p d b t e err v' :
  window D B m own infl fio CD SD SF CF → (SD ≤ p < SF)%nat →
  zlookup D (rslot p) = Some d → zlookup B (rslot p) = Some (Some b) →
  infl !! b = Some (t, e) → (∃ v, m !! b = Some v ∧ bi_private v' = bi_private v ∧
    bio_io v' = bio_io v) →
  window (zinsert (rslot p) (note_err err d) D) B (<[b := v']> m) own
    (<[b := (t, e || err)]> infl) fio CD SD SF CF.
Proof.
  intros W Hp Hd HB Hin (v & Hv & Hpriv & Hsec). pose proof W as [HlD HlB HlO Hord Hbij Hslot].
  assert (d_client_data (note_err err d) = d_client_data d) as Hcd by by destruct err.
  split; rewrite ?length_zinsert; auto; [by eapply cd_bij_update|].
  intros q Hq. destruct (Hslot q Hq) as (f & j & o & bo & Hf & Hj & Ho & HB' & Hph).
  destruct (decide (q = p)) as [->|Hne].
  - assert (f = d) as -> by congruence. assert (bo = Some b) as -> by congruence.
    exists (note_err err d), j, o, (Some b).
    rewrite zlookup_zinsert_eq by (rewrite HlD; apply rslot_range).
    split_and!; [done|congruence|done..|]. revert Hph. phase_cases. simpl.
    intros (? & ? & t' & b' & w & ? & Hio & ? & ? & ? & ? & Hin'). simplify_eq.
    split_and!; [by destruct err..|]. exists t, b', v'. rewrite !lookup_insert_eq.
    split_and!; try done; [by destruct err|congruence|unfold bio_io, desc_bio in *; destruct err; simpl; congruence|].
    by destruct err; simpl; rewrite ?orb_true_r, ?orb_false_r.
  - exists f, j, o, bo.
    rewrite zlookup_zinsert_ne by (apply (rslot_ne _ _ CD); lia). split_and!; [done..|].
    eapply phase_ok_mono; [exact Hph| |done]. intros b' w t' Hinf -> Hb' Hp' Hi'.
    assert (b' ≠ b) as Hbb.
    { intros ->. apply Hne. eapply w_bio_inj; [exact W|..]; eauto using phase_inflight. }
    exists w. rewrite !lookup_insert_ne by congruence. done.
Qed.

(** The oldest bio in flight finishes. *)
Lemma window_complete D B m own infl fio CD SD SF CF d b t e err :
  window D B m own infl fio CD SD SF CF → (SD < SF)%nat →
  zlookup D (rslot SD) = Some d → zlookup B (rslot SD) = Some (Some b) →
  infl !! b = Some (t, e) →
  window (zinsert (rslot SD) (with_status (set_owned false) (note_err err d)) D)
    (zinsert (rslot SD) None B) (delete b m) own (delete b infl) (fio ++ [(t, e || err)])
    CD (S SD) SF CF.
Proof.
  intros W Hlt Hd HB Hin. pose proof W as [HlD HlB HlO Hord Hbij Hslot].
  set (d' := with_status (set_owned false) (note_err err d)).
  assert (d_client_data d' = d_client_data d) as Hcd by by destruct err.
  split; rewrite ?length_zinsert; auto; [lia|by eapply cd_bij_update|].
  intros q Hq. destruct (decide (q = SD)) as [->|Hne].
  - destruct (w_inflight _ _ _ _ _ _ _ _ _ _ SD W) as
      (d0 & i & t0 & b0 & v & ? & ? & ? & ? & ? & ? & ? & ? & ? & ? & ?); [lia|].
    simplify_eq. exists d', i, (Some t), None.
    rewrite !zlookup_zinsert_eq by (rewrite ?HlD, ?HlB; apply rslot_range).
    split_and!; [done|congruence|done..|]. phase_cases. simpl. split_and!; [done..|].
    exists t. split_and!; [done|by destruct err|].
    apply elem_of_app. right. apply list_elem_of_singleton. f_equal.
    by destruct err; simpl; rewrite ?orb_true_r, ?orb_false_r.
  - destruct (Hslot q Hq) as (f & j & o & bo & Hf & Hj & Ho & HB' & Hph).
    exists f, j, o, bo. rewrite !zlookup_zinsert_ne by (apply (rslot_ne _ _ CD); lia).
    split_and!; [done..|].
    assert (phase_of (S SD) SF CF q = phase_of SD SF CF q) as -> by (phase_cases; done).
    eapply phase_ok_mono; [exact Hph| |intros; apply elem_of_app; by left].
    intros b' w t' Hinf -> Hb' Hp' Hi'.
    assert (b' ≠ b) as Hbb.
    { intros ->. apply Hne. eapply w_bio_inj; [exact W|..]; eauto using phase_inflight; lia. }
    exists w. rewrite !lookup_delete_ne by congruence. done.
Qed.

(** A younger bio finishes: its descriptor trades places with the oldest. *)
Lemma window_swap D B m own infl fio CD SD SF CF p d f b ob ov t e err :
  window D B m own infl fio CD SD SF CF → (SD < p < SF)%nat →
  zlookup D (rslot p) = Some d → zlookup B (rslot p) = Some (Some b) →
  zlookup D (rslot SD) = Some f → zlookup B (rslot SD) = Some (Some ob) → m !! ob = Some ov →
  infl !! b = Some (t, e) →
  window (zinsert (rslot SD) (with_status (set_owned false) (note_err err d)) (zinsert (rslot p) f D))
    (zinsert (rslot SD) None (zinsert (rslot p) (Some ob) B))
    (delete b (<[ob := with_private (Some (ci, rslot p)) ov]> m)) own (delete b infl)
    (fio ++ [(t, e || err)]) CD (S SD) SF CF.
Proof.
  intros W Hlt Hd HB Hf HBf Hov Hin. pose proof W as [HlD HlB HlO Hord Hbij Hslot].
  set (d' := with_status (set_owned false) (note_err err d)).
  assert (d_client_data d' = d_client_data d) as Hcd by by destruct err.
  assert (rslot p ≠ rslot SD) as Hps by (apply (rslot_ne _ _ CD); lia).
  assert (ob ≠ b) as Hob.
  { intros ->. assert (p = SD); [|lia]. eapply w_bio_inj; [exact W|..]; eauto; lia. }
  split; rewrite ?length_zinsert; auto; [lia|by eapply cd_bij_swap|].
  destruct (w_inflight _ _ _ _ _ _ _ _ _ _ p W) as
    (d0 & i & t0 & b0 & v & ? & ? & ? & ? & ? & ? & ? & ? & ? & ? & ?); [lia|].
  destruct (w_inflight _ _ _ _ _ _ _ _ _ _ SD W) as
    (f0 & i1 & t1 & b1 & v1 & ? & ? & ? & ? & ? & ? & ? & ? & ? & ? & ?); [lia|].
  simplify_eq.
  intros q Hq. destruct (decide (q = SD)) as [->|Hne]; [|destruct (decide (q = p)) as [->|Hne2]].
  - exists d', i, (Some t), None.
    rewrite !zlookup_zinsert_eq by (rewrite ?length_zinsert, ?HlD, ?HlB; apply rslot_range).
    split_and!; [done|congruence|done..|]. phase_cases. simpl. split_and!; [done..|].
    exists t. split_and!; [done|by destruct err|].
    apply elem_of_app. right. apply list_elem_of_singleton. f_equal.
    by destruct err; simpl; rewrite ?orb_true_r, ?orb_false_r.
  - exists f, i1, (Some t1), (Some ob).
    rewrite !(zlookup_zinsert_ne _ (rslot SD)) by congruence.
    rewrite !zlookup_zinsert_eq by (rewrite ?HlD, ?HlB; apply rslot_range).
    split_and!; [done..|]. phase_cases. simpl. split_and!; [done..|].
    exists t1, ob, (with_private (Some (ci, rslot p)) ov).
    rewrite !lookup_delete_ne, lookup_insert_eq by congruence. done.
  - destruct (Hslot q Hq) as (g & j & o & bo & Hg & Hj & Ho & HB' & Hph).
    exists g, j, o, bo. rewrite !zlookup_zinsert_ne by (apply (rslot_ne _ _ CD); lia).
    split_and!; [done..|].
    assert (phase_of (S SD) SF CF q = phase_of SD SF CF q) as -> by (phase_cases; done).
    eapply phase_ok_mono; [exact Hph| |intros; apply elem_of_app; by left].
    intros b' w t' Hinf -> Hb' Hp' Hi'.
    assert (b' ≠ b ∧ b' ≠ ob) as [Hbb Hbo].
    { split; intros ->; [apply Hne2|apply Hne];
        (eapply w_bio_inj; [exact W|..]; eauto using phase_inflight; lia). }
    exists w. rewrite !lookup_delete_ne, lookup_insert_ne by congruence. done.
Qed.

(** The client retires the completed descriptor at its dirty index. *)
Lemma window_finish D B m own infl fio CD SD SF CF d i :
  window D B m own infl fio CD SD SF CF → (CD < SD)%nat →
  zlookup D (rslot CD) = Some d → d_client_data d = Some i →
  window D B m (zinsert i None own) infl fio (S CD) SD SF CF.
Proof.
  intros [HlD HlB HlO Hord Hbij Hslot] Hlt Hd Hi.
  destruct (Hslot CD) as (d0 & i0 & o0 & bo & Hd0 & Hi0 & Ho0 & HB0 & Hph); [lia|].
  assert (d0 = d) as -> by congruence. assert (i0 = i) as -> by congruence.
  revert Hph. phase_cases. simpl. intros (Hown & -> & t & -> & Hio & Hfin).
  split; rewrite ?length_zinsert; auto; [lia|].
  intros q Hq. destruct (decide (q = CD + ring_size)%nat) as [->|Hne].
  - exists d, i, None, None. rewrite slot_add_n by apply ring_size_pos.
    rewrite zlookup_zinsert_eq by (by apply zlookup_lt in Ho0).
    split_and!; [done..|]. phase_cases. done.
  - destruct (Hslot q) as (g & j & o & bo' & Hg & Hj & Ho & HB' & Hph); [lia|].
    exists g, j, o, bo'. split_and!; [done..| |done|done].
    rewrite zlookup_zinsert_ne; [done|]. intros <-.
    eapply (rslot_ne q CD CD); [lia..|]. eapply cd_inj; eauto.
Qed.
End window.

(** ** The joint transition system *)

(** The number of descriptors the client may still fill. *)
Lemma ring_available_positions CD CF :
  (CD ≤ CF < CD + ring_size)%nat →
  L4VMblock_ring_available (mk_ring ring_size (rslot CF) (rslot CD))
    = ring_size - 1 - (CF - CD)%nat.
Proof.
  intros H. unfold L4VMblock_ring_available. cbn [start_dirty start_free cnt].
  pose proof (rslot_range CD) as Hd. pose proof (rslot_range CF) as Hf.
  assert (rslot CF = rslot CD + (CF - CD)%nat ∨ rslot CF = rslot CD + (CF - CD)%nat - ring_size)
    as Hcase.
  { unfold slot in *. pose proof (Nat.div_mod_eq CD ring_size). pose proof (Nat.div_mod_eq CF ring_size).
    set (a := (CD `div` ring_size)%nat) in *. set (b := (CF `div` ring_size)%nat) in *.
    unfold ring_size in *. assert (b = a ∨ b = a + 1)%nat by lia. lia. }
  assert (Z.of_nat ring_size = 400) as Hn by done. remember (Z.of_nat ring_size) as n eqn:En.
  rewrite Z.rem_mod_nonneg by lia.
  assert ((rslot CD + n - (rslot CF + 1)) `mod` n = n - 1 - (CF - CD)%nat) as ->.
  { destruct Hcase as [->| ->].
    - rewrite Z.mod_small by lia. lia.
    - replace (rslot CD + n - (rslot CD + (CF - CD)%nat - n + 1))
        with (n - 1 - (CF - CD)%nat + 1 * n) by lia.
      rewrite Z_mod_plus_full, Z.mod_small by lia. lia. }
  apply wrap_small. lia.
Qed.

(** The joint state: the two drivers, and the bookkeeping of the proof: which
    token each shadow entry stands for, the bios in flight with their token
    and error so far, the finished I/Os, the requests segments ended by the
    client, and the number of segments submitted. *)
Record joint : Type := mk_joint {
  j_srv : L4VMblock_server_t;
  j_cl : L4VMblock_client_t;
  g_own : list (option token);
  g_infl : gmap positive (token * bool);
  g_done : list (token * bool);
  g_fin : list (token * bool);
  g_next : nat
}.

(** The memory of a client page of length [size], through the window the
    client's space has in the driver VM's bus addresses. *)
Definition client_iov {E : BlockEnv} (sp : option L4VM_client_space_info_t) (page size : Z) : bio_vec :=
  page_vec (bus_start (default (mk_space 0 0 0 0) sp)) page size.

Section joint.
Context {E : BlockEnv}.
Context (ci k : Z).

(** The shared page is one object: the client's accesses go to the page in
    the server state. *)
Definition srv_page (s : L4VMblock_server_t) : option IVMblock_client_shared_t :=
  c ← zlookup (clients s) ci; client_shared c.
Definition set_page (cs : IVMblock_client_shared_t) (s : L4VMblock_server_t) : L4VMblock_server_t :=
  match zlookup (clients s) ci with
  | Some c => with_clients (zinsert ci (with_shared cs c) (clients s)) s
  | None => s
  end.
Definition set_bi_size (b : positive) (n : Z) (s : L4VMblock_server_t) : L4VMblock_server_t :=
  with_bios (alter (λ v, mk_bio (bi_sector v) (bi_bdev v) (bi_io_vec v) (bi_vcnt v) (bi_idx v) n
    (bi_private v)) b (bios s)) s.

(** The shadow index a ring slot of the page refers to. *)
Definition shadow_at (cs : IVMblock_client_shared_t) (x : Z) : option Z :=
  d ← zlookup (desc_ring cs) x; d_client_data d.
Definition token_at (own : list (option token)) (cs : IVMblock_client_shared_t) (x : Z)
    : option token :=
  i ← shadow_at cs x; o ← zlookup own i; o.

(** [L4VMblock_process_request] submits a segment, and takes the request off
    its queue after the last one. The queue's lock is held meanwhile, and
    [L4VMblock_finish_transfers] takes the same lock to end a request, so that
    nothing of this request is ended between the two. *)
Definition submit_step (last : bool) (dir : rw_mode) (req bio sector : Z) (sg : segment) : MC Z :=
  sector' ← submit_segment k dir req bio sector sg;
  (if last then blkdev_dequeue_request req else mret tt);;
  mret sector'.

(** The segment is one of the request: Linux' [hard_nr_sectors] counts the
    sectors that are not completed, and the segments of a request have whole
    sectors that add up to it. *)
Definition segment_of (own : list (option token)) (req : Z) (r : request) (sg : segment) (last : bool)
    : Prop :=
  rq_queued r = true ∧ 512 ≤ seg_len sg ∧
  let n := pending own req + Z.shiftr (seg_len sg) 9 in
  if last then n = hard_nr_sectors r else n < hard_nr_sectors r.

Inductive jstep : joint → joint → Prop :=
  (** Linux queues a new request. *)
  | JRequest s c own infl dn fin nx req r :
      requests c !! req = None → rq_queued r = true →
      jstep (mk_joint s c own infl dn fin nx)
        (mk_joint s (bc_with_requests (<[req := r]> (requests c)) c) own infl dn fin nx)
  (** [L4VMblock_process_request] submits one segment. *)
  | JSubmit s c own infl dn fin nx cs c' sector' last dir req r bio sector sg p :
      srv_page s = Some cs →
      L4VMblock_ring_available (desc_ring_info c) ≠ 0 →
      requests c !! req = Some r → segment_of own req r sg last →
      submit_step last dir req bio sector sg (bc_with_shared cs c) = Ok sector' c' →
      shadow_at cs (start_free (desc_ring_info c)) = Some p →
      jstep (mk_joint s c own infl dn fin nx)
        (mk_joint (set_page (bc_shared c') s) c'
           (zinsert p (Some (mk_token nx bio req
              (u32 sector, seg_phys sg, seg_len sg, bool_decide (dir = WRITE)))) own)
           infl dn fin (S nx))
  (** [L4VMblock_process_io_queue] has nothing to do, or takes a descriptor. *)
  | JIdle s c own infl dn fin nx s' :
      L4VMblock_process_io_queue ci s = Ok 1 s' →
      jstep (mk_joint s c own infl dn fin nx) (mk_joint s' c own infl dn fin nx)
  | JPickup s c own infl dn fin nx s' cs cl b t :
      srv_page s = Some cs → zlookup (clients s) ci = Some cl →
      L4VMblock_process_io_queue ci s = Ok 0 s' →
      trace s' = trace s ++ [BSubmit (match zlookup (desc_ring cs) (start_free (ring_info cl)) with
                                      | Some d => desc_rw d | None => READ end) b] →
      token_at own cs (start_free (ring_info cl)) = Some t →
      jstep (mk_joint s c own infl dn fin nx)
        (mk_joint s' c own (<[b := (t, false)]> infl) dn fin nx)
  (** The block layer calls [L4VMblock_end_io] on a bio in flight. *)
  | JProgress s c own infl dn fin nx s' b t e err n :
      infl !! b = Some (t, e) → n ≠ 0 →
      L4VMblock_end_io b err (set_bi_size b n s) = Ok 1 s' →
      jstep (mk_joint s c own infl dn fin nx)
        (mk_joint s' c own (<[b := (t, e || err)]> infl) dn fin nx)
  | JComplete s c own infl dn fin nx s' b t e err :
      infl !! b = Some (t, e) →
      L4VMblock_end_io b err (set_bi_size b 0 s) = Ok 0 s' →
      jstep (mk_joint s c own infl dn fin nx)
        (mk_joint s' c own (delete b infl) (dn ++ [(t, e || err)]) fin nx)
  (** [L4VMblock_finish_transfers] retires one descriptor. *)
  | JFinish s c own infl dn fin nx cs c' d p :
      srv_page s = Some cs →
      finish_one (bc_with_shared cs c) = Ok true c' →
      zlookup (desc_ring cs) (start_dirty (desc_ring_info c)) = Some d →
      d_client_data d = Some p →
      jstep (mk_joint s c own infl dn fin nx)
        (mk_joint (set_page (bc_shared c') s) c' (zinsert p None own) infl dn
           (fin ++ match zlookup own p with
                   | Some (Some t) => [(t, server_err (d_status d))]
                   | _ => []
                   end) nx).

(** Token bookkeeping: each of the [g_next] tokens is ended or outstanding,
    never both, and an ended token's I/O has finished with that result. *)
Record tokens_ok (own : list (option token)) (dn fin : list (token * bool)) (nx : nat) : Prop := {
  tk_inj : ∀ i j t t', zlookup own i = Some (Some t) → zlookup own j = Some (Some t') →
    tk_id t = tk_id t' → i = j;
  tk_part : ∀ x, (x < nx)%nat ↔ x ∈ tk_id ∘ fst <$> fin ∨
    ∃ i t, zlookup own i = Some (Some t) ∧ tk_id t = x;
  tk_disj : ∀ i t, zlookup own i = Some (Some t) → tk_id t ∉ tk_id ∘ fst <$> fin;
  tk_nodup : NoDup (tk_id ∘ fst <$> fin);
  tk_done : ∀ x, x ∈ fin → x ∈ dn
}.

Definition shadows_ok (own : list (option token)) (c : L4VMblock_client_t) : Prop :=
  length (shadow_ring c) = ring_size ∧
  ∀ i t, zlookup own i = Some (Some t) →
    zlookup (shadow_ring c) i = Some (mk_shadow (Some (tk_bio t)) (Some (tk_req t))) ∧
    is_Some (requests c !! tk_req t).

(** What the client tells Linux: the bios it ends, with their size and
    whether with an error, and the requests it ends. *)
Definition completion (e : cevent) : option (Z * Z * bool) :=
  match e with
  | CBioError b n => Some (b, n, true)
  | CBioEnd b n => Some (b, n, false)
  | _ => None
  end.
Definition ended_req (e : cevent) : option Z :=
  match e with CEndRequest req => Some req | _ => None end.
Definition tk_completion (x : token * bool) : Z * Z * bool := (tk_bio x.1, tk_size x.1, x.2).

(** The sectors left of a request with outstanding segments, and when it is
    ended. *)
Record reqs_ok (own : list (option token)) (fin : list (token * bool)) (reqs : gmap Z request)
    (ends : list Z) : Prop := {
  rq_left : ∀ i t, zlookup own i = Some (Some t) →
    ∃ r, reqs !! tk_req t = Some r ∧ 1 ≤ tk_sectors t ∧
      if rq_queued r then pending own (tk_req t) < hard_nr_sectors r
      else pending own (tk_req t) = hard_nr_sectors r;
  rq_ends : ∀ req, req ∈ ends → ∃ r, reqs !! req = Some r ∧ rq_queued r = false ∧
    ∀ i t, zlookup own i = Some (Some t) → tk_req t ≠ req;
  rq_once : NoDup ends;
  rq_all : ∀ t e, (t, e) ∈ fin → ∃ r, reqs !! tk_req t = Some r ∧
    (rq_queued r = false → (∀ i u, zlookup own i = Some (Some u) → tk_req u ≠ tk_req t) →
     tk_req t ∈ ends)
}.

Definition events_ok (tr0 : list cevent) (own : list (option token)) (fin : list (token * bool))
    (c : L4VMblock_client_t) : Prop :=
  ∃ evs, ctrace c = tr0 ++ evs ∧ omap completion evs = tk_completion <$> fin ∧
    reqs_ok own fin (requests c) (omap ended_req evs).

Context (tr0 : list cevent).
Context (s0 : L4VMblock_server_t) (h : Z) (cs0 : IVMblock_client_shared_t)
  (sp : option L4VM_client_space_info_t) (fp : L4VM_alligned_alloc_t).
Abbreviation iov := (client_iov sp).

Definition jinv_at (j : joint) D B m tr CD SD SF CF : Prop :=
  j_srv j = view s0 ci h cs0 sp fp D B (mk_ring ring_size (rslot SF) (rslot SD)) m tr ∧
  desc_ring_info (j_cl j) = mk_ring ring_size (rslot CF) (rslot CD) ∧
  window ci k iov D B m (g_own j) (g_infl j) (g_done j) CD SD SF CF ∧
  shadows_ok (g_own j) (j_cl j) ∧
  tokens_ok (g_own j) (g_done j) (g_fin j) (g_next j) ∧
  (∀ b, is_Some (g_infl j !! b) → ∃ p, (SD ≤ p < SF)%nat ∧ zlookup B (rslot p) = Some (Some b)) ∧
  events_ok tr0 (g_own j) (g_fin j) (j_cl j).

Definition jinv (j : joint) : Prop :=
  ∃ D B m tr CD SD SF CF, jinv_at j D B m tr CD SD SF CF.

Context (Hci : 0 ≤ ci < length (clients s0)) (Hk : conn_ok s0 ci k) (Hsp : is_Some sp).

Abbreviation vw := (view s0 ci h cs0 sp fp).

Lemma srv_page_view D B ri m tr : srv_page (vw D B ri m tr) = Some (with_desc_ring D cs0).
Proof. unfold srv_page. cbn [clients view]. by rewrite zlookup_zinsert_eq. Qed.

Lemma set_page_view D B ri m tr D' cs :
  cs = with_desc_ring D' cs0 → set_page cs (vw D B ri m tr) = vw D' B ri m tr.
Proof.
  intros ->. unfold set_page. cbn [clients view]. rewrite zlookup_zinsert_eq by done.
  unfold with_clients, view. cbn. by rewrite zinsert_zinsert.
Qed.

Lemma client_view D B ri m tr :
  zlookup (clients (vw D B ri m tr)) ci = Some (view_client h cs0 sp fp D B ri).
Proof. cbn [clients view]. by rewrite zlookup_zinsert_eq. Qed.

(** The descriptor at the client's free index is free. *)
Lemma w_free D B m own infl fio CD SD SF CF :
  window ci k iov D B m own infl fio CD SD SF CF →
  ∃ d i, zlookup D (rslot CF) = Some d ∧ d_client_data d = Some i ∧
    zlookup own i = Some None ∧ zlookup B (rslot CF) = Some None ∧
    server_owned (d_status d) = false.
Proof.
  intros [_ _ _ Hord _ Hslot].
  destruct (Hslot CF) as (d & i & o & bo & ? & ? & ? & ? & Hph); [lia|].
  revert Hph. unfold phase_of. repeat case_decide; try lia. simpl. intros (? & -> & ->). eauto 10.
Qed.

(** The descriptor at the server's free index, when one is queued. *)
Lemma w_queued D B m own infl fio CD SD SF CF :
  window ci k iov D B m own infl fio CD SD SF CF → (SF < CF)%nat →
  ∃ d i t, zlookup D (rslot SF) = Some d ∧ d_client_data d = Some i ∧
    zlookup own i = Some (Some t) ∧ zlookup B (rslot SF) = Some None ∧
    server_owned (d_status d) = true ∧ d_handle d = k ∧ d_size d ≠ 0 ∧ desc_io d = tk_io t.
Proof.
  intros [_ _ _ Hord _ Hslot] Hlt.
  destruct (Hslot SF) as (d & i & o & bo & ? & ? & ? & ? & Hph); [lia|].
  revert Hph. unfold phase_of. repeat case_decide; try lia. simpl.
  intros (? & ? & -> & ? & ? & t & -> & ?). exists d, i, t. done.
Qed.

(** The descriptor at the client's dirty index, when one is completed. *)
Lemma w_completed D B m own infl fio CD SD SF CF :
  window ci k iov D B m own infl fio CD SD SF CF → (CD < SD)%nat →
  ∃ d i t, zlookup D (rslot CD) = Some d ∧ d_client_data d = Some i ∧
    zlookup own i = Some (Some t) ∧ server_owned (d_status d) = false ∧
    desc_io d = tk_io t ∧ (t, server_err (d_status d)) ∈ fio.
Proof.
  intros [_ _ _ Hord _ Hslot] Hlt.
  destruct (Hslot CD) as (d & i & o & bo & ? & ? & ? & ? & Hph); [lia|].
  revert Hph. unfold phase_of. repeat case_decide; try lia. simpl.
  intros (? & ? & t & -> & ? & ?). exists d, i, t. done.
Qed.

(** With the client's ring empty, no shadow entry stands for a segment. *)
Lemma window_empty_own D B m own infl fio CD SD SF CF i t :
  window ci k iov D B m own infl fio CD SD SF CF → rslot CF = rslot CD →
  zlookup own i = Some (Some t) → False.
Proof.
  intros [HlD HlB HlO Hord [_ Hsurj] Hslot] Heq Ht.
  assert (CF = CD) as HCF.
  { destruct (decide (CF = CD)); [done|]. exfalso. by eapply (rslot_ne CF CD CD); [done|lia|lia|]. }
  pose proof (zlookup_lt _ _ _ Ht) as Hi. rewrite HlO in Hi.
  destruct (Hsurj i Hi) as (y & d & Hy & Hdi). pose proof (zlookup_lt _ _ _ Hy) as Hyr.
  destruct (slot_window ring_size ring_size_pos CD y) as (q & Hq & <-); [lia|].
  destruct (Hslot (CD + q)%nat) as (d' & i' & o & bo & Hd' & Hi' & Ho & _ & Hph); [lia|].
  revert Hph. unfold phase_of. repeat case_decide; try lia. simpl. intros (_ & _ & ->). congruence.
Qed.

(** *** Server: taking a descriptor *)
Lemma jexec_pickup s c own infl dn fin nx D B m tr CD SD SF CF :
  jinv_at (mk_joint s c own infl dn fin nx) D B m tr CD SD SF CF →
  (SF = CF ∧ L4VMblock_process_io_queue ci s = Ok 1 s) ∨
  ∃ d t b s' B' m', (SF < CF)%nat ∧ zlookup D (rslot SF) = Some d ∧
    L4VMblock_process_io_queue ci s = Ok 0 s' ∧
    trace s' = trace s ++ [BSubmit (desc_rw d) b] ∧
    token_at own (with_desc_ring D cs0) (rslot SF) = Some t ∧
    jinv_at (mk_joint s' c own (<[b := (t, false)]> infl) dn fin nx)
      D B' m' (tr ++ [BSubmit (desc_rw d) b]) CD SD (S SF) CF.
Proof.
  intros (Hs & Hr & W & Hsh & Htk & Hin & Hev). cbn [j_srv j_cl g_own g_infl g_done g_fin g_next] in *.
  pose proof (w_ord _ _ _ _ _ _ _ _ _ _ _ _ _ W) as Hord. subst s.
  destruct (decide (SF = CF)) as [->|Hne].
  - left. split; [done|]. destruct (w_free _ _ _ _ _ _ _ _ _ _ W) as (d & i & Hd & _ & _ & HB & Ho).
    apply (process_idle _ _ _ _ _ _ Hci) with (d := d) (o := None); auto.
  - right. destruct (w_queued _ _ _ _ _ _ _ _ _ _ W) as
      (d & i & t & Hd & Hi & Hown & HB & Ho & Hdk & Hsz & Hio); [lia|].
    destruct (process_take s0 ci h cs0 sp fp Hci D B (mk_ring ring_size (rslot SF) (rslot SD)) m tr
      d k Hd HB Ho Hdk Hk Hsz Hsp) as (conn & space & b0 & Hl & Hspace & Hb & Heq).
    cbn [cnt start_free start_dirty] in Heq. rewrite cnext_rslot in Heq.
    exists d, t, b0. do 3 eexists. split_and!; [lia|done|exact Heq|done| |].
    + unfold token_at, shadow_at. cbn [desc_ring with_desc_ring]. rewrite Hd. cbn. rewrite Hi. cbn.
      by rewrite Hown.
    + split_and!; cbn [j_srv j_cl g_own g_infl g_done g_fin g_next]; auto.
      * eapply window_pickup; eauto; [lia|].
        unfold client_iov. rewrite Hspace. done.
      * intros b' [x Hx]. destruct (decide (b' = b0)) as [->|Hbb].
        -- exists SF. split; [lia|]. apply zlookup_zinsert_eq.
           rewrite (w_lenB _ _ _ _ _ _ _ _ _ _ _ _ _ W). apply rslot_range.
        -- rewrite lookup_insert_ne in Hx by done. destruct (Hin b') as (p & Hp & HBp); [eauto|].
           exists p. split; [lia|]. rewrite zlookup_zinsert_ne; [done|].
           apply (rslot_ne _ _ CD); lia.
Qed.

(** *** Client: submitting a segment *)
Lemma tokens_submit own dn fin nx p t :
  tokens_ok own dn fin nx → zlookup own p = Some None → tk_id t = nx →
  tokens_ok (zinsert p (Some t) own) dn fin (S nx).
Proof.
  intros [Hinj Hpart Hdisj Hnd Hdn] Hp Ht. pose proof (zlookup_lt _ _ _ Hp) as Hr.
  assert (∀ i u, zlookup (zinsert p (Some t) own) i = Some (Some u) →
    (i = p ∧ u = t) ∨ (i ≠ p ∧ zlookup own i = Some (Some u))) as Hcase.
  { intros i u. rewrite zlookup_zinsert by done. case_decide; naive_solver. }
  assert (∀ i u, zlookup own i = Some (Some u) → (tk_id u < nx)%nat) as Hlt.
  { intros i u Hu. apply Hpart. eauto. }
  split; auto.
  - intros i j u u' Hi Hj Hid.
    destruct (Hcase _ _ Hi) as [[-> ->]|[? Hi']], (Hcase _ _ Hj) as [[-> ->]|[? Hj']]; auto.
    + apply Hlt in Hj'. lia.
    + apply Hlt in Hi'. lia.
    + eauto.
  - intros x. destruct (decide (x = nx)) as [->|Hne].
    + split; [|lia]. intros _. right. exists p, t. by rewrite zlookup_zinsert_eq.
    + transitivity (x < nx)%nat; [lia|]. rewrite Hpart. f_equiv. split; intros (i & u & Hu & Hid).
      * exists i, u. rewrite zlookup_zinsert_ne; [done|]. naive_solver.
      * destruct (Hcase _ _ Hu) as [[-> ->]|[? ?]]; [lia|eauto].
  - intros i u Hu. destruct (Hcase _ _ Hu) as [[-> ->]|[? Hu']]; [|eauto].
    rewrite Ht. intros Hx. assert (nx < nx)%nat; [|lia]. apply Hpart. by left.
Qed.

(** Requests and completion events under a submission. *)
Lemma reqs_submit own fin reqs ends p t r sg last :
  reqs_ok own fin reqs ends → zlookup own p = Some None → reqs !! tk_req t = Some r →
  segment_of own (tk_req t) r sg last → tk_size t = seg_len sg →
  reqs_ok (zinsert p (Some t) own) fin
    (if last then <[tk_req t := with_queued false r]> reqs else reqs) ends.
Proof.
  intros [Hleft Hends Honce Hall] Hp Hr (Hq & Hlen & Hn) Hsz.
  pose proof (zlookup_lt _ _ _ Hp) as Hrange.
  assert (∀ req, pending (zinsert p (Some t) own) req = pending own req + token_sectors req (Some t))
    as Hpend by (intros; rewrite (pending_zinsert _ _ None) by done; simpl; lia).
  assert (1 ≤ tk_sectors t) as Hpos.
  { unfold tk_sectors. rewrite Hsz, Z.shiftr_div_pow2 by lia. apply Z.div_le_lower_bound; lia. }
  set (reqs' := if last then _ else _).
  assert (∀ req, req ≠ tk_req t → reqs' !! req = reqs !! req) as Hne.
  { intros req ?. subst reqs'. destruct last; [by rewrite lookup_insert_ne|done]. }
  assert (∃ r', reqs' !! tk_req t = Some r' ∧ rq_queued r' = negb last ∧
    hard_nr_sectors r' = hard_nr_sectors r) as (r' & Hr' & Hq' & Hh').
  { subst reqs'. destruct last; [rewrite lookup_insert_eq|]; eauto. }
  split; [| |done|].
  - intros i u. rewrite zlookup_zinsert by done. rewrite Hpend.
    destruct (decide (tk_req u = tk_req t)) as [Hu|Hu].
    + intros Hi. rewrite Hu. exists r'. rewrite Hq', Hh'. simpl. rewrite decide_True by done.
      split_and!; [done| |unfold tk_sectors; rewrite Hsz; destruct last; exact Hn].
      case_decide; [by simplify_eq|]. by destruct (Hleft _ _ Hi) as (? & _ & ? & _).
    + rewrite Hne by done. case_decide; [by intros; simplify_eq|]. intros Hi.
      simpl. rewrite decide_False, Z.add_0_r by done. eauto.
  - intros req (r0 & Hr0 & Hq0 & Hno)%Hends. assert (req ≠ tk_req t) by congruence.
    exists r0. rewrite Hne by done. split_and!; [done..|].
    intros i u. rewrite zlookup_zinsert by done. case_decide; [intros; by simplify_eq|eauto].
  - intros u e (r0 & Hr0 & Hu)%Hall. destruct (decide (tk_req u = tk_req t)) as [He|He].
    + rewrite He. exists r'. split; [done|]. intros _ Hno. exfalso.
      apply (Hno p t); [by apply zlookup_zinsert_eq|done].
    + exists r0. rewrite Hne by done. split; [done|]. intros ? Hno. apply Hu; [done|].
      intros i v Hi. apply (Hno i v). rewrite zlookup_zinsert_ne; [done|]. intros <-. congruence.
Qed.

(** Retiring a segment: the sectors left go down; when it is the last of its
    request, the request is off its queue and ends. *)
Lemma reqs_finish own fin reqs ends p t e r r' :
  reqs_ok own fin reqs ends → zlookup own p = Some (Some t) → reqs !! tk_req t = Some r →
  let last := bool_decide (hard_nr_sectors r ≤ tk_sectors t) in
  rq_queued r' = rq_queued r →
  hard_nr_sectors r' = (if last then 0 else hard_nr_sectors r - tk_sectors t) →
  (last = true → rq_queued r = false) ∧
  reqs_ok (zinsert p None own) (fin ++ [(t, e)]) (<[tk_req t := r']> reqs)
    (ends ++ if last then [tk_req t] else []).
Proof.
  intros [Hleft Hends Honce Hall] Hp Hr last Hq' Hh'.
  pose proof (zlookup_lt _ _ _ Hp) as Hrange.
  assert (∀ i u, zlookup (zinsert p None own) i = Some (Some u) →
    i ≠ p ∧ zlookup own i = Some (Some u)) as Hback.
  { intros i u. rewrite zlookup_zinsert by done. case_decide; naive_solver. }
  assert (∀ i u, zlookup own i = Some (Some u) → 0 ≤ tk_sectors u) as Hnn.
  { intros i u Hu. destruct (Hleft _ _ Hu) as (_ & _ & ? & _). lia. }
  assert (∀ req, pending (zinsert p None own) req = pending own req - token_sectors req (Some t))
    as Hpend by (intros; rewrite (pending_zinsert _ _ (Some t)) by done; simpl; lia).
  assert (tk_req t ∉ ends) as Hnew by (intros (? & _ & _ & Hno)%Hends; by apply (Hno _ _ Hp)).
  pose proof (pending_lower _ _ _ Hnn Hp) as Hlow.
  destruct (Hleft _ _ Hp) as (r1 & ? & Hpos & Hleft'). assert (r1 = r) as -> by congruence.
  assert (∀ i u, zlookup (zinsert p None own) i = Some (Some u) → tk_req u = tk_req t →
    1 ≤ pending own (tk_req t) - tk_sectors t) as Hother.
  { intros i u Hi Hu. destruct (Hback _ _ Hi) as [_ Hi']. destruct (Hleft _ _ Hi') as (_ & _ & ? & _).
    pose proof (pending_lower (zinsert p None own) i u) as Hl. rewrite Hu, Hpend in Hl. simpl in Hl.
    rewrite decide_True in Hl by done. assert (tk_sectors u ≤ pending own (tk_req t) - tk_sectors t);
      [|lia]. apply Hl; [|done]. intros j v [_ Hv]%Hback. eauto. }
  assert (last = true → rq_queued r = false ∧ pending own (tk_req t) = tk_sectors t) as Hlast.
  { subst last. intros Hl%bool_decide_eq_true. destruct (rq_queued r); [lia|split; [done|lia]]. }
  split; [intros Hl; by destruct (Hlast Hl)|]. split.
  - intros i u Hi. destruct (Hback _ _ Hi) as [Hip Hi']. rewrite Hpend.
    destruct (decide (tk_req u = tk_req t)) as [Hu|Hu].
    + rewrite Hu, lookup_insert_eq. simpl. rewrite decide_True by done. exists r'.
      specialize (Hother _ _ Hi Hu). destruct (Hleft _ _ Hi') as (_ & _ & ? & _).
      destruct last; [destruct Hlast; [done|lia]|]. rewrite Hq', Hh'. split_and!; [done..|].
      destruct (rq_queued r); lia.
    + rewrite lookup_insert_ne by done. simpl. rewrite decide_False, Z.sub_0_r by done. eauto.
  - intros req [Hin|Hin]%elem_of_app.
    + destruct (Hends _ Hin) as (r0 & ? & ? & Hno). assert (req ≠ tk_req t) by congruence.
      exists r0. rewrite lookup_insert_ne by done. split_and!; [done..|].
      intros i u [_ Hi]%Hback. eauto.
    + destruct last; [|by apply elem_of_nil in Hin]. apply list_elem_of_singleton in Hin as ->.
      exists r'. rewrite lookup_insert_eq, Hq'. destruct Hlast as [? Hz]; [done|].
      split_and!; [done..|]. intros i u Hi Hu. specialize (Hother _ _ Hi Hu). lia.
  - apply NoDup_app. split_and!; [done| |destruct last; [apply NoDup_singleton|constructor]].
    intros req Hin. destruct last; [|by intros ?%elem_of_nil].
    intros ->%list_elem_of_singleton. done.
  - intros u e' Hin. destruct (decide (tk_req u = tk_req t)) as [Hu|Hu].
    + rewrite Hu. exists r'. rewrite lookup_insert_eq. split; [done|]. rewrite Hq'. intros Hq Hno.
      apply elem_of_app. right. destruct last eqn:El; [by apply list_elem_of_singleton|]. exfalso.
      rewrite Hq in Hleft'. apply bool_decide_eq_false in El.
      destruct (pending_exists (zinsert p None own) (tk_req t)) as (i & v & Hi & Hv).
      { rewrite Hpend. simpl. rewrite decide_True by done. lia. }
      by apply (Hno i v).
    + apply elem_of_app in Hin as [Hin|Hin]; [|apply list_elem_of_singleton in Hin; simplify_eq].
      destruct (Hall _ _ Hin) as (r0 & Hr0 & Hu'). exists r0. rewrite lookup_insert_ne by done.
      split; [done|]. intros ? Hno. apply elem_of_app. left. apply Hu'; [done|].
      intros i v Hi. destruct (decide (i = p)) as [->|]; [congruence|].
      apply (Hno i v). by rewrite zlookup_zinsert_ne.
Qed.

(** The submission of one segment, the last included. *)
Lemma submit_step_ok last dir req bio sector sg c d p sh0 r :
  let ri := desc_ring_info c in
  zlookup (desc_ring (bc_shared c)) (start_free ri) = Some d →
  server_owned (d_status d) = false → d_client_data d = Some p →
  zlookup (shadow_ring c) p = Some sh0 → requests c !! req = Some r →
  submit_step last dir req bio sector sg c =
    Ok (sector + Z.shiftr (seg_len sg) 9)
      (mk_bclient (shared_window c) (bc_server_tid c) (bc_handle c)
         (with_desc_ring (zinsert (start_free ri) (submitted_desc k dir sector sg d)
            (desc_ring (bc_shared c))) (bc_shared c))
         (bc_server_shared c) (mk_ring (cnt ri) (cnext (cnt ri) (start_free ri)) (start_dirty ri))
         (zinsert p (mk_shadow (Some bio) (Some req)) (shadow_ring c))
         (descriptors c) (if last then <[req := with_queued false r]> (requests c) else requests c)
         (ctrace c ++ CProcessFirst req (Z.shiftr (seg_len sg) 9) ::
            if last then [CDequeue req] else [])).
Proof.
  intros ri Hd Ho Hp Hsh Hr. unfold submit_step.
  erewrite bind_ok by (by apply submit_segment_ok with (d := d) (p := p) (sh0 := sh0)).
  cbv beta zeta. destruct last; [|done].
  erewrite bind_ok; [done|]. unfold blkdev_dequeue_request. erewrite (bind_ok _ _ _ r).
  2:{ unfold req_load. erewrite (bind_ok _ _ _ (Some r)); [done|]. unfold mgets. cbn. by rewrite Hr. }
  cbv beta zeta. erewrite bind_ok by done. cbv beta zeta. unfold cemit, mmodify. f_equal. unfold bc_log.
  cbn. by rewrite <- app_assoc.
Qed.

Lemma jexec_submit s c own infl dn fin nx D B m tr CD SD SF CF last dir req r bio sector sg :
  jinv_at (mk_joint s c own infl dn fin nx) D B m tr CD SD SF CF →
  L4VMblock_ring_available (desc_ring_info c) ≠ 0 → requests c !! req = Some r →
  segment_of own req r sg last →
  ∃ c' p D' own', submit_step last dir req bio sector sg (bc_with_shared (with_desc_ring D cs0) c) =
      Ok (sector + Z.shiftr (seg_len sg) 9) c' ∧
    shadow_at (with_desc_ring D cs0) (start_free (desc_ring_info c)) = Some p ∧
    own' = zinsert p (Some (mk_token nx bio req
      (u32 sector, seg_phys sg, seg_len sg, bool_decide (dir = WRITE)))) own ∧
    jinv_at (mk_joint (set_page (bc_shared c') s) c' own' infl dn fin (S nx))
      D' B m tr CD SD SF (S CF).
Proof.
  intros (Hs & Hr & W & [Hls Hsh] & Htk & Hin & Hev) Hav Hreq Hseg.
  cbn [j_srv j_cl g_own g_infl g_done g_fin g_next] in *.
  pose proof (w_ord _ _ _ _ _ _ _ _ _ _ _ _ _ W) as Hord.
  rewrite Hr, ring_available_positions in Hav by lia.
  destruct (w_free _ _ _ _ _ _ _ _ _ _ W) as (d & p & Hd & Hp & Hown & HB & Ho).
  pose proof (zlookup_lt _ _ _ Hown) as Hpr. rewrite (w_lenO _ _ _ _ _ _ _ _ _ _ _ _ _ W) in Hpr.
  destruct (zlookup_is_Some (shadow_ring c) p) as [sh0 Hsh0]; [rewrite Hls; lia|].
  pose proof (submit_step_ok last dir req bio sector sg (bc_with_shared (with_desc_ring D cs0) c)
    d p sh0 r) as Hsub. cbn in Hsub. rewrite Hr in Hsub. cbn in Hsub.
  specialize (Hsub Hd Ho Hp Hsh0 Hreq). rewrite Hr. cbn [start_free].
  eexists _, p, _, _. split_and!; [exact Hsub| |done|].
  { unfold shadow_at. cbn [desc_ring with_desc_ring]. rewrite Hd. done. }
  split_and!; cbn [j_srv j_cl g_own g_infl g_done g_fin g_next bc_shared desc_ring_info].
  - rewrite Hs. by apply set_page_view.
  - by rewrite cnext_rslot.
  - eapply window_submit; eauto; try done; destruct Hseg as (_ & ? & _); simpl; lia.
  - split; cbn [shadow_ring requests]; [by rewrite length_zinsert|].
    assert (∀ x, is_Some (requests c !! x) →
      is_Some ((if last then <[req := with_queued false r]> (requests c) else requests c) !! x)) as Hmono.
    { intros x Hx. destruct last; [|done]. rewrite lookup_insert. by case_decide. }
    intros i t. rewrite zlookup_zinsert by (rewrite (w_lenO _ _ _ _ _ _ _ _ _ _ _ _ _ W); lia).
    case_decide; subst.
    + intros [= <-]. cbn [tk_bio tk_req]. split; [|by apply Hmono]. apply zlookup_zinsert_eq. lia.
    + intros Ht. destruct (Hsh _ _ Ht). rewrite zlookup_zinsert_ne by done. auto.
  - by apply tokens_submit.
  - done.
  - destruct Hev as (evs & Htr & Hcomp & Hreqs).
    cbn [ctrace requests]. set (q := CProcessFirst _ _ :: _).
    assert (omap completion q = [] ∧ omap ended_req q = []) as [E1 E2] by (subst q; by destruct last).
    exists (evs ++ q). rewrite Htr, app_assoc, !omap_app, E1, E2, !app_nil_r. split; [done|].
    split; [done|]. by eapply (reqs_submit _ _ _ _ _ (mk_token _ _ req _)).
Qed.

(** *** The disk: progress and completion *)
Lemma set_bi_size_view D B ri m tr b n v :
  m !! b = Some v →
  set_bi_size b n (vw D B ri m tr) =
    vw D B ri (<[b := mk_bio (bi_sector v) (bi_bdev v) (bi_io_vec v) (bi_vcnt v) (bi_idx v) n
      (bi_private v)]> m) tr.
Proof.
  intros Hv. unfold set_bi_size, with_bios, view. cbn. f_equal.
  apply map_eq. intros b'. rewrite lookup_alter, lookup_insert.
  repeat case_decide; subst; rewrite ?Hv; done.
Qed.

Lemma infl_bound own infl dn fin nx s c D B m tr CD SD SF CF b x :
  jinv_at (mk_joint s c own infl dn fin nx) D B m tr CD SD SF CF → infl !! b = Some x →
  ∃ p d i v, (SD ≤ p < SF)%nat ∧ zlookup D (rslot p) = Some d ∧ d_client_data d = Some i ∧
    zlookup B (rslot p) = Some (Some b) ∧ m !! b = Some v ∧ bi_private v = Some (ci, rslot p) ∧
    server_owned (d_status d) = true ∧ d_handle d = k.
Proof.
  intros (Hs & Hr & W & Hsh & Htk & Hin & Hev) Hx. cbn [g_infl] in *.
  destruct (Hin b) as (p & Hp & HB); [eauto|].
  destruct (w_inflight _ _ _ _ _ _ _ _ _ _ _ _ _ p W Hp) as
    (d & i & t & b' & v & ? & ? & ? & ? & ? & ? & ? & ? & ? & ? & ?). simplify_eq.
  exists p, d, i, v. done.
Qed.

(** The block layer's update of the remaining size changes nothing else. *)
Lemma jinv_bi_size s c own infl dn fin nx D B m tr CD SD SF CF b x n :
  jinv_at (mk_joint s c own infl dn fin nx) D B m tr CD SD SF CF → infl !! b = Some x →
  ∃ v, m !! b = Some v ∧
    jinv_at (mk_joint (set_bi_size b n s) c own infl dn fin nx) D B
      (<[b := mk_bio (bi_sector v) (bi_bdev v) (bi_io_vec v) (bi_vcnt v) (bi_idx v) n
        (bi_private v)]> m) tr CD SD SF CF.
Proof.
  intros HJ Hx. destruct (infl_bound _ _ _ _ _ _ _ _ _ _ _ _ _ _ _ _ _ HJ Hx) as
    (p & d & i & v & Hp & Hd & Hi & HB & Hv & Hpriv & Ho & Hdk).
  exists v. split; [done|]. destruct HJ as (Hs & Hr & W & Hsh & Htk & Hin & Hev).
  cbn [j_srv j_cl g_own g_infl g_done g_fin g_next] in *. subst s.
  split_and!; auto; cbn [j_srv j_cl g_own g_infl g_done g_fin g_next].
  - by rewrite (set_bi_size_view _ _ _ _ _ _ _ v).
  - destruct x as [t e].
    pose proof (window_progress ci k iov _ _ _ _ _ _ _ _ _ _ p d b t e false
      (mk_bio (bi_sector v) (bi_bdev v) (bi_io_vec v) (bi_vcnt v) (bi_idx v) n (bi_private v))
      W Hp Hd HB Hx) as W'.
    cbn [note_err] in W'. rewrite zinsert_id, orb_false_r, (insert_id infl) in W' by done.
    apply W'. exists v. done.
Qed.

Lemma jexec_progress s c own infl dn fin nx D B m tr CD SD SF CF b t e err n :
  jinv_at (mk_joint s c own infl dn fin nx) D B m tr CD SD SF CF →
  infl !! b = Some (t, e) → n ≠ 0 →
  ∃ s' D' m', L4VMblock_end_io b err (set_bi_size b n s) = Ok 1 s' ∧
    jinv_at (mk_joint s' c own (<[b := (t, e || err)]> infl) dn fin nx) D' B m' tr CD SD SF CF.
Proof.
  intros HJ0 Hx Hn. destruct (jinv_bi_size _ _ _ _ _ _ _ _ _ _ _ _ _ _ _ _ _ n HJ0 Hx)
    as (v0 & Hv0 & HJ).
  destruct (infl_bound _ _ _ _ _ _ _ _ _ _ _ _ _ _ _ _ _ HJ Hx) as
    (p & d & i & v & Hp & Hd & Hi & HB & Hv & Hpriv & Ho & Hdk).
  destruct HJ as (Hs & Hr & W & Hsh & Htk & Hin & Hev).
  cbn [j_srv j_cl g_own g_infl g_done g_fin g_next] in *. rewrite Hs.
  eexists _, _, _. split.
  { apply (end_io_partial _ _ _ _ _ _ Hci _ _ _ _ _ _ v (rslot p) d); [done..| |done].
    rewrite lookup_insert_eq in Hv. simplify_eq. done. }
  split_and!; cbn [j_srv j_cl g_own g_infl g_done g_fin g_next]; auto.
  - eapply (window_progress ci k iov _ _ _ _ _ _ _ _ _ _ p d b t e err v) in W; eauto.
    rewrite (insert_id _ b v) in W by done. exact W.
  - intros b' [x Hx']. apply Hin. destruct (decide (b' = b)) as [->|]; [eauto|].
    rewrite lookup_insert_ne in Hx' by done. eauto.
Qed.

Lemma jexec_complete s c own infl dn fin nx D B m tr CD SD SF CF b t e err :
  jinv_at (mk_joint s c own infl dn fin nx) D B m tr CD SD SF CF → infl !! b = Some (t, e) →
  ∃ s' D' B' m' tr', L4VMblock_end_io b err (set_bi_size b 0 s) = Ok 0 s' ∧
    jinv_at (mk_joint s' c own (delete b infl) (dn ++ [(t, e || err)]) fin nx)
      D' B' m' tr' CD (S SD) SF CF.
Proof.
  intros HJ0 Hx. destruct (jinv_bi_size _ _ _ _ _ _ _ _ _ _ _ _ _ _ _ _ _ 0 HJ0 Hx)
    as (v0 & Hv0 & HJ).
  destruct (infl_bound _ _ _ _ _ _ _ _ _ _ _ _ _ _ _ _ _ HJ Hx) as
    (p & d & i & v & Hp & Hd & Hi & HB & Hv & Hpriv & Ho & Hdk).
  assert (bi_size v = 0) as Hsz by (rewrite lookup_insert_eq in Hv; by simplify_eq).
  destruct HJ as (Hs & Hr & W & Hsh & Htk & Hin & Hev).
  cbn [j_srv j_cl g_own g_infl g_done g_fin g_next] in *. rewrite Hs. clear Hs HJ0.
  pose proof (w_ord _ _ _ _ _ _ _ _ _ _ _ _ _ W) as Hord.
  assert (tokens_ok own (dn ++ [(t, e || err)]) fin nx) as Htk'.
  { destruct Htk as [? ? ? ? Hdn]. split; auto. intros x ?. apply elem_of_app. left. auto. }
  remember (<[b:=_]> m) as m1 eqn:Em. clear Em m Hv0.
  destruct (decide (p = SD)) as [->|Hne].
  - eexists _, _, _, _, _. split; [by eapply (end_io_in_order _ _ _ _ _ _ Hci); eauto|].
    split_and!; cbn [j_srv j_cl g_own g_infl g_done g_fin g_next]; auto.
    + cbn [cnt start_free start_dirty]. by rewrite cnext_rslot.
    + eapply window_complete; eauto. lia.
    + intros b' [x [Hbb Hx']%lookup_delete_Some]. destruct (Hin b') as (q & Hq & HBq); [eauto|].
      assert (q ≠ SD) by (intros ->; congruence). exists q. split; [lia|].
      rewrite zlookup_zinsert_ne; [done|]. apply (rslot_ne _ _ CD); lia.
  - destruct (w_inflight _ _ _ _ _ _ _ _ _ _ _ _ _ SD W) as
      (f & i1 & t1 & ob & ov & Hf & ? & ? & HBf & Hof & ? & ? & Hov & ? & ? & ?); [lia|].
    eexists _, _, _, _, _. split.
    { eapply (end_io_swapped _ _ _ _ _ _ Hci) with (f := f) (ob := ob) (ov := ov);
        [exact Hv|exact Hpriv|done|exact Hd|done|done|cbn [start_dirty]; reflexivity| |done..].
      apply (rslot_ne _ _ CD); lia. }
    split_and!; cbn [j_srv j_cl g_own g_infl g_done g_fin g_next]; auto.
    + cbn [cnt start_free start_dirty]. by rewrite cnext_rslot.
    + eapply window_swap; eauto. lia.
    + intros b' [x [Hbb Hx']%lookup_delete_Some]. destruct (Hin b') as (q & Hq & HBq); [eauto|].
      assert (q ≠ p) by (intros ->; congruence).
      destruct (decide (q = SD)) as [->|Hq2].
      * exists p. split; [lia|]. assert (b' = ob) as -> by congruence.
        rewrite zlookup_zinsert_ne by (apply (rslot_ne _ _ CD); lia).
        apply zlookup_zinsert_eq. rewrite (w_lenB _ _ _ _ _ _ _ _ _ _ _ _ _ W). apply rslot_range.
      * exists q. split; [lia|].
        rewrite !zlookup_zinsert_ne by (apply (rslot_ne _ _ CD); lia). done.
Qed.

(** *** Client: retiring a descriptor *)
Lemma tokens_finish own dn fin nx p t e :
  tokens_ok own dn fin nx → zlookup own p = Some (Some t) → (t, e) ∈ dn →
  tokens_ok (zinsert p None own) dn (fin ++ [(t, e)]) nx.
Proof.
  intros [Hinj Hpart Hdisj Hnd Hdn] Hp He. pose proof (zlookup_lt _ _ _ Hp) as Hr.
  assert (∀ i u, zlookup (zinsert p None own) i = Some (Some u) →
    i ≠ p ∧ zlookup own i = Some (Some u)) as Hcase.
  { intros i u. rewrite zlookup_zinsert by done. case_decide; naive_solver. }
  assert (∀ x, x ∈ tk_id ∘ fst <$> (fin ++ [(t, e)]) ↔ x ∈ tk_id ∘ fst <$> fin ∨ x = tk_id t) as Happ.
  { intros x. rewrite fmap_app, elem_of_app. simpl. by rewrite list_elem_of_singleton. }
  split.
  - intros i j u u' [? Hi]%Hcase [? Hj]%Hcase. eauto.
  - intros x. rewrite Hpart, Happ. split.
    + intros [?|(i & u & Hu & Hid)]; [by left; left|]. destruct (decide (i = p)) as [->|].
      * left. right. congruence.
      * right. exists i, u. by rewrite zlookup_zinsert_ne.
    + intros [[?| ->]|(i & u & [? ?]%Hcase & ?)]; [by left|right; eauto..].
  - intros i u [Hne Hu]%Hcase. rewrite Happ. intros [?|Hid]; [by eapply Hdisj|].
    apply Hne. eapply Hinj; eauto.
  - rewrite fmap_app. apply NoDup_app. split_and!; [done| |apply NoDup_singleton].
    intros x Hx ->%list_elem_of_singleton. by eapply Hdisj.
  - intros x [?| ->%list_elem_of_singleton]%elem_of_app; auto.
Qed.

Lemma jexec_finish s c own infl dn fin nx D B m tr CD SD SF CF :
  jinv_at (mk_joint s c own infl dn fin nx) D B m tr CD SD SF CF →
  let c0 := bc_with_shared (with_desc_ring D cs0) c in
  (CD = SD ∧ finish_one c0 = Ok false c0) ∨
  ∃ c' d p t, (CD < SD)%nat ∧ finish_one c0 = Ok true c' ∧
    zlookup D (rslot CD) = Some d ∧ d_client_data d = Some p ∧ zlookup own p = Some (Some t) ∧
    jinv_at (mk_joint (set_page (bc_shared c') s) c' (zinsert p None own) infl dn
      (fin ++ [(t, server_err (d_status d))]) nx) D B m tr (S CD) SD SF CF.
Proof.
  intros (Hs & Hr & W & [Hls Hsh] & Htk & Hin & Hev) c0.
  cbn [j_srv j_cl g_own g_infl g_done g_fin g_next] in *.
  pose proof (w_ord _ _ _ _ _ _ _ _ _ _ _ _ _ W) as Hord.
  assert (desc_ring_info c0 = mk_ring ring_size (rslot CF) (rslot CD)) as Hr0 by done.
  destruct (decide (CD = SD)) as [->|Hne].
  - left. split; [done|]. unfold finish_one. erewrite (bind_ok _ _ _ (desc_ring_info c0)) by done.
    cbv beta zeta. rewrite Hr0. cbn [start_dirty start_free].
    case_bool_decide as Hsl; [done|]. assert (SD ≠ CF) by congruence.
    destruct (w_slot _ _ _ _ _ _ _ _ _ _ _ _ _ W SD) as (d & i & o & bo & Hd & Hi & Ho & HB & Hph); [lia|].
    erewrite (bind_ok _ _ _ d).
    2:{ unfold rdesc_load. erewrite (bind_ok _ _ _ (Some d)); [done|]. unfold mgets. f_equal. exact Hd. }
    assert (server_owned (d_status d) = true) as ->; [|done].
    revert Hph. unfold phase_of. repeat case_decide; try lia; simpl; tauto.
  - right. destruct (w_completed _ _ _ _ _ _ _ _ _ _ W) as (d & p & t & Hd & Hp & Hown & Ho & Hio & Hfin); [lia|].
    destruct (Hsh _ _ Hown) as [Hsp' [rq Hrq]]. destruct Hev as (evs & Htr & Hcomp & Hreqs).
    assert (d_size d = tk_size t) as Hsz by (unfold tk_size; by rewrite <- Hio).
    assert (Z.shiftr (d_size d) 9 = tk_sectors t) as Hsec by (by rewrite Hsz).
    destruct (reqs_finish _ _ _ _ _ _ (server_err (d_status d)) _ (retired_req d rq) Hreqs Hown Hrq)
      as [Hq Hreqs'].
    { unfold retired_req. by destruct (server_err _). }
    { unfold retired_req. by rewrite Hsec. }
    pose proof (finish_one_ok c0 d p (tk_bio t) (tk_req t) rq) as Hf.
    cbv zeta in Hf. rewrite Hr0 in Hf. cbn [start_dirty start_free] in Hf.
    specialize (Hf (rslot_ne CD CF CD ltac:(lia) ltac:(lia) ltac:(lia)) Hd Ho Hp Hsp' Hrq).
    rewrite Hsec in Hf. specialize (Hf ltac:(intros; by apply Hq, bool_decide_eq_true)).
    eexists _, d, p, t. split_and!; [lia|exact Hf|done..|].
    split_and!; cbn [j_srv j_cl g_own g_infl g_done g_fin g_next bc_shared desc_ring_info].
    + rewrite Hs. by apply set_page_view.
    + cbn [cnt]. by rewrite cnext_rslot.
    + eapply window_finish; eauto. lia.
    + split; cbn [shadow_ring requests]; [by rewrite length_zinsert|].
      intros i u. rewrite zlookup_zinsert by (by apply zlookup_lt in Hown).
      destruct (decide (p = i)); [done|]. intros Hu. destruct (Hsh _ _ Hu) as [? ?].
      rewrite zlookup_zinsert_ne by done. split; [done|].
      rewrite lookup_insert. by destruct (decide (tk_req t = tk_req u)).
    + by apply tokens_finish.
    + done.
    + exists (evs ++ retire_events d (tk_bio t) (tk_req t) rq). cbn [ctrace requests].
      change (ctrace c0) with (ctrace c). change (requests c0) with (requests c).
      rewrite Htr, app_assoc. split; [done|]. rewrite !omap_app, fmap_app, Hcomp.
      unfold retire_events, bio_event. rewrite Hsec, Hsz.
      destruct (server_err (d_status d)), (bool_decide _); split; done.
Qed.

(** A new request has no segments yet and is not ended. *)
Lemma jinv_request s c own infl dn fin nx D B m tr CD SD SF CF req r :
  jinv_at (mk_joint s c own infl dn fin nx) D B m tr CD SD SF CF → requests c !! req = None →
  jinv_at (mk_joint s (bc_with_requests (<[req := r]> (requests c)) c) own infl dn fin nx)
    D B m tr CD SD SF CF.
Proof.
  intros (Hs & Hr & W & [Hls Hsh] & Htk & Hin & evs & Htr & Hcomp & [Hleft Hends Honce Hall]) Hnew.
  cbn [j_srv j_cl g_own g_infl g_done g_fin g_next] in *.
  assert (∀ x v, requests c !! x = Some v → <[req := r]> (requests c) !! x = Some v) as Hmono.
  { intros x v Hx. rewrite lookup_insert_ne; [done|]. congruence. }
  split_and!; auto; cbn [j_srv j_cl g_own g_infl g_done g_fin g_next].
  - split; [done|]. intros i t Ht. destruct (Hsh _ _ Ht) as [? [v Hv]]. split; [done|].
    exists v. cbn. by apply Hmono.
  - exists evs. split_and!; [done..|]. cbn [requests bc_with_requests]. split; [| |done|].
    + intros i t Ht. destruct (Hleft _ _ Ht) as (v & ? & ?). exists v. auto.
    + intros x Hx. destruct (Hends _ Hx) as (v & ? & ?). exists v. auto.
    + intros t e Ht. destruct (Hall _ _ Ht) as (v & ? & ?). exists v. auto.
Qed.

Lemma jinv_step j j' : jstep j j' → jinv j → jinv j'.
Proof.
  intros Hst (D & B & m & tr & CD & SD & SF & CF & HJ).
  pose proof HJ as (Hs & Hr & W & _). destruct Hst as
    [s c own infl dn fin nx req r Hnew Hq
    |s c own infl dn fin nx cs c' sector' last dir req r bio sector sg p Hpg Hav Hrq Hseg Hsub Hp
    |s c own infl dn fin nx s' Hrun
    |s c own infl dn fin nx s' cs cl b t Hpg Hcl Hrun Htr Htok
    |s c own infl dn fin nx s' b t e err n Hx Hn Hrun
    |s c own infl dn fin nx s' b t e err Hx Hrun
    |s c own infl dn fin nx cs c' d p Hpg Hrun Hd Hp]; cbn [j_srv j_cl] in *;
    try (rewrite Hs, srv_page_view in Hpg; injection Hpg as <-).
  - do 8 eexists. by apply jinv_request.
  - destruct (jexec_submit _ _ _ _ _ _ _ _ _ _ _ _ _ _ _ last dir req r bio sector sg HJ Hav Hrq Hseg)
      as (c2 & p2 & D' & own' & Hsub2 & Hp2 & -> & HJ').
    rewrite Hsub in Hsub2. simplify_eq. do 8 eexists; exact HJ'.
  - destruct (jexec_pickup _ _ _ _ _ _ _ _ _ _ _ _ _ _ _ HJ) as
      [[-> Hidle]|(d & t & b & s2 & B' & m' & _ & _ & Hrun2 & _)]; [|congruence].
    rewrite Hrun in Hidle. simplify_eq. do 8 eexists; exact HJ.
  - destruct (jexec_pickup _ _ _ _ _ _ _ _ _ _ _ _ _ _ _ HJ) as
      [[-> Hidle]|(d & t2 & b2 & s2 & B' & m' & _ & _ & Hrun2 & Htr2 & Htok2 & HJ')]; [congruence|].
    rewrite Hs, client_view in Hcl. injection Hcl as <-. cbn [ring_info view_client start_free] in *.
    rewrite Hrun in Hrun2. injection Hrun2 as <-. rewrite Htr in Htr2.
    apply app_inj_2 in Htr2 as [_ Htr2]; [|done]. simplify_eq. do 8 eexists; exact HJ'.
  - destruct (jexec_progress _ _ _ _ _ _ _ _ _ _ _ _ _ _ _ _ _ _ err n HJ Hx Hn)
      as (s2 & D' & m' & Hrun2 & HJ').
    rewrite Hrun in Hrun2. simplify_eq. do 8 eexists; exact HJ'.
  - destruct (jexec_complete _ _ _ _ _ _ _ _ _ _ _ _ _ _ _ _ _ _ err HJ Hx)
      as (s2 & D' & B' & m' & tr' & Hrun2 & HJ').
    rewrite Hrun in Hrun2. simplify_eq. do 8 eexists; exact HJ'.
  - destruct (jexec_finish _ _ _ _ _ _ _ _ _ _ _ _ _ _ _ HJ) as
      [[-> Hno]|(c2 & d2 & p2 & t2 & _ & Hrun2 & Hd2 & Hp2 & Hown2 & HJ')]; [congruence|].
    cbn [desc_ring with_desc_ring] in Hd. rewrite Hr in Hd. cbn [start_dirty] in Hd.
    rewrite Hrun in Hrun2. simplify_eq. rewrite Hown2. do 8 eexists; exact HJ'.
Qed.

(** A freshly registered client: empty rings, client data numbering the
    shadow entries, no bios. *)
Definition jinitial (j : joint) : Prop :=
  ∃ D tr,
    j_srv j = vw D (replicate ring_size None) (mk_ring ring_size 0 0) ∅ tr ∧
    desc_ring_info (j_cl j) = mk_ring ring_size 0 0 ∧
    length (shadow_ring (j_cl j)) = ring_size ∧
    length D = ring_size ∧
    (∀ i, 0 ≤ i < ring_size → ∃ d, zlookup D i = Some d ∧ server_owned (d_status d) = false ∧
       d_client_data d = Some i) ∧
    g_own j = replicate ring_size None ∧ g_infl j = ∅ ∧ g_done j = [] ∧ g_fin j = [] ∧ g_next j = 0%nat.

Lemma jinv_initial j : jinitial j → ctrace (j_cl j) = tr0 → jinv j.
Proof.
  destruct j as [s c own infl dn fin nx]. unfold jinitial.
  cbn [j_srv j_cl g_own g_infl g_done g_fin g_next].
  intros (D & tr & -> & Hr & Hsh & HlD & HD & -> & -> & -> & -> & ->) Htr.
  assert (∀ i t, zlookup (replicate ring_size (@None token)) i ≠ Some (Some t)) as Hnone.
  { intros i t Ht. pose proof (zlookup_lt _ _ _ Ht) as Hi. rewrite length_replicate in Hi.
    by rewrite zlookup_replicate in Ht. }
  exists D, (replicate ring_size None), ∅, tr, 0%nat, 0%nat, 0%nat, 0%nat.
  split_and!; cbn [j_srv j_cl g_own g_infl g_done g_fin g_next]; auto.
  - split; rewrite ?length_replicate; auto; [unfold ring_size; lia| |].
    + split.
      * intros x y d e i Hx Hy Hdx Hey.
        pose proof (zlookup_lt _ _ _ Hx) as Hrx. pose proof (zlookup_lt _ _ _ Hy) as Hry.
        destruct (HD x) as (d' & ? & _ & ?); [lia|]. destruct (HD y) as (e' & ? & _ & ?); [lia|].
        congruence.
      * intros i Hi. destruct (HD i Hi) as (d & ? & _ & ?). eauto.
    + intros p Hp. destruct (HD (rslot p)) as (d & Hd & Ho & Hcd); [apply rslot_range|].
      exists d, (rslot p), None, None.
      rewrite !zlookup_replicate by apply rslot_range. split_and!; try done.
  - split; [done|]. intros i t Ht. by apply Hnone in Ht.
  - split; simpl.
    + intros i j t t' Ht. by apply Hnone in Ht.
    + intros x. split; [lia|]. intros [Hx|(i & t & Ht & _)]; [by apply elem_of_nil in Hx|].
      by apply Hnone in Ht.
    + intros i t Ht. by apply Hnone in Ht.
    + constructor.
    + by intros x Hx%elem_of_nil.
  - intros b [x Hx]. by rewrite lookup_empty in Hx.
  - exists []. rewrite app_nil_r. split_and!; [done..|]. split; simpl.
    + intros i t Ht. by apply Hnone in Ht.
    + by intros req Hreq%elem_of_nil.
    + constructor.
    + by intros t e Ht%elem_of_nil.
Qed.

Lemma jinv_reachable j0 j : jinitial j0 → ctrace (j_cl j0) = tr0 → rtc jstep j0 j → jinv j.
Proof.
  intros H0 Htr Hs. assert (jinv j0) as HJ by (by apply jinv_initial). clear H0 Htr.
  induction Hs; [done|]. eauto using jinv_step.
Qed.

(** Every operation that is not blocked by the code is a step of the
    system: nothing is excluded by the bookkeeping. *)
Lemma jstep_enabled s c own infl dn fin nx D B m tr CD SD SF CF :
  let j := mk_joint s c own infl dn fin nx in
  let c0 := bc_with_shared (with_desc_ring D cs0) c in
  jinv_at j D B m tr CD SD SF CF →
  (∃ r s', L4VMblock_process_io_queue ci s = Ok r s' ∧ ∃ j', jstep j j' ∧ j_srv j' = s')
  ∧ (∀ b n err, is_Some (infl !! b) →
       ∃ s', L4VMblock_end_io b err (set_bi_size b n s) = Ok (if decide (n = 0) then 0 else 1) s' ∧
         ∃ j', jstep j j' ∧ j_srv j' = s')
  ∧ (∀ last dir req r bio sector sg, L4VMblock_ring_available (desc_ring_info c) ≠ 0 →
       requests c !! req = Some r → segment_of own req r sg last →
       ∃ c', submit_step last dir req bio sector sg c0 = Ok (sector + Z.shiftr (seg_len sg) 9) c' ∧
         ∃ j', jstep j j' ∧ j_cl j' = c')
  ∧ (∃ more c', finish_one c0 = Ok more c' ∧
       if more : bool then ∃ j', jstep j j' ∧ j_cl j' = c' else c' = c0).
Proof.
  intros j c0 HJ. subst j. pose proof HJ as (Hsrv & Hr & _). cbn [j_srv j_cl] in *.
  assert (srv_page s = Some (with_desc_ring D cs0)) as Hpg by (rewrite Hsrv; by apply srv_page_view).
  split_and!.
  - destruct (jexec_pickup _ _ _ _ _ _ _ _ _ _ _ _ _ _ _ HJ) as
      [[_ Hrun]|(d & t & b & s' & B' & m' & _ & Hd & Hrun & Htr & Htok & _)].
    + eexists _, _. split; [done|]. eexists. split; [by apply JIdle|done].
    + eexists _, _. split; [done|]. eexists. split; [|by instantiate (1 := mk_joint s' _ _ _ _ _ _)].
      eapply JPickup; [done|rewrite Hsrv; apply client_view|done| |exact Htok].
      rewrite Htr. cbn [ring_info view_client start_free desc_ring with_desc_ring]. by rewrite Hd.
  - intros b n err [[t e] Hx]. case_decide as Hn.
    + subst n. destruct (jexec_complete _ _ _ _ _ _ _ _ _ _ _ _ _ _ _ _ _ _ err HJ Hx)
        as (s' & ? & ? & ? & ? & Hrun & _).
      exists s'. split; [done|]. eexists. split; [by eapply JComplete|done].
    + destruct (jexec_progress _ _ _ _ _ _ _ _ _ _ _ _ _ _ _ _ _ _ err n HJ Hx Hn)
        as (s' & ? & ? & Hrun & _).
      exists s'. split; [done|]. eexists. split; [by eapply JProgress|done].
  - intros last dir req r bio sector sg Hav Hrq Hseg.
    destruct (jexec_submit _ _ _ _ _ _ _ _ _ _ _ _ _ _ _ last dir req r bio sector sg HJ Hav Hrq Hseg)
      as (c' & p & D' & own' & Hrun & Hp & _ & _).
    exists c'. split; [done|]. eexists. split; [by eapply JSubmit|done].
  - destruct (jexec_finish _ _ _ _ _ _ _ _ _ _ _ _ _ _ _ HJ) as
      [[_ Hno]|(c' & d & p & t & _ & Hrun & Hd & Hp & _ & _)].
    + by eexists false, _.
    + exists true, c'. split; [done|]. eexists. split; [eapply JFinish; try done|done].
      rewrite Hr. exact Hd.
Qed.
End joint.

(** ** Properties *)

(** C1. Request integrity of the block ring, for every interleaving of client,
    server and disk, with completions in any order. The bios the client ends,
    read off its calls to Linux, are those of the ended segments, in order,
    each with its size and each segment once; a segment is ended only after its
    own disk I/O has finished, with [bio_io_error] exactly when that I/O
    failed; every submitted segment is either ended or still outstanding, so
    that none is outstanding once the client's ring is empty; and a request is
    ended at most once, namely when it is off its queue and the last of its
    segments has been ended. Linux gives every request segments of whole
    sectors that add up to its [hard_nr_sectors]. *)
Theorem block_requests_integrity {E : BlockEnv} ci k s0 h cs0 sp fp (j0 j : joint) :
  0 ≤ ci < length (clients s0) → conn_ok s0 ci k → is_Some sp →
  jinitial ci s0 h cs0 sp fp j0 → rtc (jstep ci k) j0 j →
  ∃ evs, ctrace (j_cl j) = ctrace (j_cl j0) ++ evs
  ∧ omap completion evs = tk_completion <$> g_fin j
  ∧ NoDup (tk_id ∘ fst <$> g_fin j)
  ∧ (∀ t err, (t, err) ∈ g_fin j → (t, err) ∈ g_done j)
  ∧ (∀ x, (x < g_next j)%nat ↔ x ∈ tk_id ∘ fst <$> g_fin j ∨
       ∃ i t, zlookup (g_own j) i = Some (Some t) ∧ tk_id t = x)
  ∧ NoDup (omap ended_req evs)
  ∧ (∀ t err, (t, err) ∈ g_fin j → ∃ r, requests (j_cl j) !! tk_req t = Some r ∧
       (tk_req t ∈ omap ended_req evs ↔ rq_queued r = false ∧
          ∀ i u, zlookup (g_own j) i = Some (Some u) → tk_req u ≠ tk_req t))
  ∧ (start_free (desc_ring_info (j_cl j)) = start_dirty (desc_ring_info (j_cl j)) →
       ∀ x, (x < g_next j)%nat → x ∈ tk_id ∘ fst <$> g_fin j).
Proof.
  intros Hci Hk Hsp H0 Hs.
  pose proof (jinv_reachable ci k (ctrace (j_cl j0)) s0 h cs0 sp fp Hci Hk Hsp _ _ H0 eq_refl Hs) as HJ.
  destruct HJ as (D & B & m & tr & CD & SD & SF & CF & Hsrv & Hr & W & Hsh & Htk & Hin
    & evs & Htr & Hcomp & [Hleft Hends Honce Hall]).
  pose proof Htk as [Hinj Hpart Hdisj Hnd Hdn].
  exists evs. split_and!; [done..|intros; by apply Hdn|done|done| |].
  - intros t err Ht. destruct (Hall _ _ Ht) as (r & Hr' & Hend). exists r. split; [done|]. split.
    + intros (r2 & ? & ? & ?)%Hends. by simplify_eq.
    + intros [? ?]. auto.
  - intros Heq x Hx. apply Hpart in Hx as [?|(i & t & Ht & Hid)]; [done|]. exfalso.
    rewrite Hr in Heq. by eapply window_empty_own.
Qed.

(** C27. No operation of the protocol faults, and each is a step of the system:
    in every reachable state the server can look for work, any bio in flight
    can report progress or completion, the client can submit the next segment
    of a queued request whenever the ring has room, and can look for
    completions; no assertion of the two drivers fails on these paths (a
    request that ends is off its queue, among others) and no pointer or index
    is bad. The segments of a request are whole sectors that add up to its
    [hard_nr_sectors], the last one and the dequeueing are done under the
    queue's lock, and [bio_alloc] finds memory. *)
Theorem block_protocol_no_fault {E : BlockEnv} ci k s0 h cs0 sp fp (j0 j : joint) :
  0 ≤ ci < length (clients s0) → conn_ok s0 ci k → is_Some sp →
  jinitial ci s0 h cs0 sp fp j0 → rtc (jstep ci k) j0 j →
  ∃ cs, srv_page ci (j_srv j) = Some cs
  ∧ (∃ r s', L4VMblock_process_io_queue ci (j_srv j) = Ok r s' ∧
       ∃ j', jstep ci k j j' ∧ j_srv j' = s')
  ∧ (∀ b n err, is_Some (g_infl j !! b) →
       ∃ s', L4VMblock_end_io b err (set_bi_size b n (j_srv j)) = Ok (if decide (n = 0) then 0 else 1) s' ∧
         ∃ j', jstep ci k j j' ∧ j_srv j' = s')
  ∧ (∀ last dir req r bio sector sg, L4VMblock_ring_available (desc_ring_info (j_cl j)) ≠ 0 →
       requests (j_cl j) !! req = Some r → segment_of (g_own j) req r sg last →
       ∃ c', submit_step k last dir req bio sector sg (bc_with_shared cs (j_cl j))
         = Ok (sector + Z.shiftr (seg_len sg) 9) c' ∧ ∃ j', jstep ci k j j' ∧ j_cl j' = c')
  ∧ (∃ more c', finish_one (bc_with_shared cs (j_cl j)) = Ok more c' ∧
       if more : bool then ∃ j', jstep ci k j j' ∧ j_cl j' = c'
       else c' = bc_with_shared cs (j_cl j)).
Proof.
  intros Hci Hk Hsp H0 Hs.
  pose proof (jinv_reachable ci k (ctrace (j_cl j0)) s0 h cs0 sp fp Hci Hk Hsp _ _ H0 eq_refl Hs) as HJ.
  destruct HJ as (D & B & m & tr & CD & SD & SF & CF & HJ). destruct j as [s c own infl dn fin nx].
  pose proof HJ as (Hsrv & _). cbn [j_srv j_cl g_own g_infl] in *.
  exists (with_desc_ring D cs0). split; [rewrite Hsrv; by apply srv_page_view|].
  by eapply jstep_enabled.
Qed.

(** A bio in flight performs the I/O of the segment it was started for:
    its start sector is the one submitted, whatever reordering has happened to
    the descriptors since. *)
Theorem block_bio_matches_request {E : BlockEnv} ci k s0 h cs0 sp fp (j0 j : joint) b t err :
  0 ≤ ci < length (clients s0) → conn_ok s0 ci k → is_Some sp →
  jinitial ci s0 h cs0 sp fp j0 → rtc (jstep ci k) j0 j →
  g_infl j !! b = Some (t, err) →
  ∃ v i, bios (j_srv j) !! b = Some v ∧ zlookup (g_own j) i = Some (Some t) ∧
    let '(sector, page, len, _) := tk_io t in bio_io v = (sector, [client_iov sp page len]).
Proof.
  intros Hci Hk Hsp H0 Hs Hx.
  pose proof (jinv_reachable ci k (ctrace (j_cl j0)) s0 h cs0 sp fp Hci Hk Hsp _ _ H0 eq_refl Hs) as HJ.
  destruct HJ as (D & B & m & tr & CD & SD & SF & CF & Hsrv & Hr & W & Hsh & Htk & Hin & Hev).
  destruct (Hin b) as (p & Hp & HB); [eauto|].
  destruct (w_inflight _ _ _ _ _ _ _ _ _ _ _ _ _ p W Hp) as
    (d & i & t' & b' & v & ? & ? & ? & ? & ? & ? & Hio & ? & ? & Hsec & ?). simplify_eq.
  exists v, i. rewrite Hsrv. cbn [bios view]. split_and!; [done..|].
  rewrite <- Hio. done.
Qed.

(** ** A sample run

    One client, one connection; a segment is submitted, taken, completed by
    the disk and retired. *)
#[local] Instance sample_env : BlockEnv := {|
  bio_alloc := λ s _, Some (fresh (dom (bios s)));
  bus_to_phys := λ a, a;
  virt_addr_valid := λ _, true;
  send_virq_failed := λ _, false;
  open_by_devnum := λ _ _ _, Some 1;
  bd_claim := λ _ _, 0;
  set_blocksize := λ _ _ _, 0;
  bio_alloc_fresh := fresh_bio;
  bio_alloc_one := λ s, ltac:(eauto)
|}.

Definition sample_shared : IVMblock_client_shared_t :=
  mk_shared 9 21 20 0 false 7 11 10 [] 0 [].
Definition sample_space : L4VM_client_space_info_t := mk_space 3 1048576 1048576 1.
Definition sample_alloc : L4VM_alligned_alloc_t := mk_alloc 65536 12 (65536, 12).
Definition sample_cmds : block_cmd_ring :=
  mk_cmd_ring 0 0 false 5 (replicate 8 (mk_cmd None 0 None)).
Definition sample_server : L4VMblock_server_t :=
  mk_server 5 11 10 (mk_irq 0 false) 255 7 (mk_irq 0 false) sample_alloc sample_cmds sample_cmds
    (mk_conn 0 (Some 0) (Some 1) 4096 (3, 1)
       :: replicate 15 (mk_conn L4VMBLOCK_INVALID_HANDLE None None 0 (0, 0)))
    (replicate 8 (mk_client L4VMBLOCK_INVALID_HANDLE None (mk_ring ring_size 0 0) [] None sample_alloc))
    ∅ [sample_space] [].
Definition sample_desc (i : nat) : IVMblock_ring_descriptor_t :=
  mk_desc (mk_status false false false false) 0 0 0 0 0 (Some (Z.of_nat i)) [].
Definition sample_ring_descs : list IVMblock_ring_descriptor_t := sample_desc <$> seq 0 ring_size.
Definition sample_view := view sample_server 0 0 sample_shared (Some sample_space) sample_alloc.
Definition sample_client : L4VMblock_client_t :=
  mk_bclient (mk_vmarea None (0, 0)) 5 0 sample_shared (mk_irq 0 false) (mk_ring ring_size 0 0)
    (replicate ring_size (mk_shadow None None)) []
    {[ 100 := mk_request 0 1 WRITE [mk_rq_bio 200 64 [mk_seg 8192 4096]] 0 8 true ]} [].

Definition sj0 : joint :=
  mk_joint (sample_view sample_ring_descs (replicate ring_size None) (mk_ring ring_size 0 0) ∅ [])
    sample_client (replicate ring_size None) ∅ [] [] 0.

Definition ok_state {S A} (r : res S A) (d : S) : S := match r with Ok _ s => s | Err _ => d end.
Definition page_of (j : joint) : IVMblock_client_shared_t :=
  default sample_shared (srv_page 0 (j_srv j)).
Definition sample_token : token := mk_token 0 200 100 (64, 8192, 4096, true).

Definition sc1 : L4VMblock_client_t :=
  ok_state (submit_step 0 true WRITE 100 200 64 (mk_seg 8192 4096)
    (bc_with_shared (page_of sj0) (j_cl sj0))) sample_client.
Definition sj1 : joint :=
  mk_joint (set_page 0 (bc_shared sc1) (j_srv sj0)) sc1
    (zinsert 0 (Some sample_token) (g_own sj0)) ∅ [] [] 1.
Definition ss2 : L4VMblock_server_t := ok_state (L4VMblock_process_io_queue 0 (j_srv sj1)) (j_srv sj1).
Definition sj2 : joint :=
  mk_joint ss2 sc1 (g_own sj1) (<[1%positive := (sample_token, false)]> ∅) [] [] 1.
Definition ss3 : L4VMblock_server_t :=
  ok_state (L4VMblock_end_io 1%positive false (set_bi_size 1%positive 0 ss2)) ss2.
Definition sj3 : joint :=
  mk_joint ss3 sc1 (g_own sj1) (delete 1%positive (g_infl sj2)) ([] ++ [(sample_token, false || false)]) [] 1.
Definition sc4 : L4VMblock_client_t :=
  ok_state (finish_one (bc_with_shared (page_of sj3) sc1)) sc1.
Definition sj4 : joint :=
  mk_joint (set_page 0 (bc_shared sc4) ss3) sc4 (zinsert 0 None (g_own sj1)) (g_infl sj3) (g_done sj3)
    ([] ++ [(sample_token, false)]) 1.

Lemma sample_initial : jinitial 0 sample_server 0 sample_shared (Some sample_space) sample_alloc sj0.
Proof.
  exists sample_ring_descs, []. split_and!; try reflexivity.
  intros i Hi. exists (sample_desc (Z.to_nat i)). split_and!; [|done|].
  - unfold zlookup, sample_ring_descs. rewrite decide_True by lia.
    rewrite list_lookup_fmap, lookup_seq_lt by lia. done.
  - cbn. f_equal. lia.
Qed.

Lemma sample_conn_ok : conn_ok sample_server 0 0.
Proof. split; [vm_compute; split; congruence|]. eexists. split_and!; reflexivity. Qed.

Lemma sample_step1 : jstep 0 0 sj0 sj1.
Proof.
  eapply (JSubmit 0 0 _ _ _ _ _ _ _ (page_of sj0) sc1 72 true WRITE 100
    (mk_request 0 1 WRITE [mk_rq_bio 200 64 [mk_seg 8192 4096]] 0 8 true) 200 64 (mk_seg 8192 4096) 0);
    try (vm_compute; reflexivity); [vm_compute; congruence|].
  split_and!; vm_compute; congruence.
Qed.
Lemma sample_step2 : jstep 0 0 sj1 sj2.
Proof.
  eapply (JPickup 0 0 _ _ _ _ _ _ _ ss2 (page_of sj1) _ 1%positive sample_token);
    vm_compute; reflexivity.
Qed.
Lemma sample_step3 : jstep 0 0 sj2 sj3.
Proof. eapply (JComplete 0 0 _ _ _ _ _ _ _ ss3 1%positive sample_token false false); vm_compute; reflexivity. Qed.
Lemma sample_step4 : jstep 0 0 sj3 sj4.
Proof.
  apply (JFinish 0 0 ss3 sc1 (g_own sj1) (g_infl sj3) (g_done sj3) [] 1 (page_of sj3) sc4
    (mk_desc (mk_status false true false false) 0 8192 64 4096 0 (Some 0) []) 0);
    vm_compute; reflexivity.
Qed.

Lemma sample_reach2 : rtc (jstep 0 0) sj0 sj2.
Proof. eauto using rtc_l, rtc_refl, sample_step1, sample_step2. Qed.
Lemma sample_reach4 : rtc (jstep 0 0) sj0 sj4.
Proof.
  etrans; [apply sample_reach2|].
  eauto using rtc_l, rtc_refl, sample_step3, sample_step4.
Qed.

(** The retired segment ends its bio and its request. *)
Lemma block_requests_integrity_witness :
  ∃ evs, ctrace (j_cl sj4) = ctrace (j_cl sj0) ++ evs ∧
    omap completion evs = [(200, 4096, false)] ∧ NoDup (omap ended_req evs).
Proof.
  destruct (block_requests_integrity 0 0 sample_server 0 sample_shared (Some sample_space) sample_alloc sj0 sj4)
    as (evs & Htr & Hc & _ & _ & _ & Hn & _);
    [vm_compute; split; congruence|apply sample_conn_ok|eauto|apply sample_initial|apply sample_reach4|].
  exists evs. split; [exact Htr|]. split; [exact Hc|exact Hn].
Defined.

Lemma block_protocol_no_fault_witness :
  ∃ cs, srv_page 0 (j_srv sj4) = Some cs ∧
    ∃ more c', finish_one (bc_with_shared cs (j_cl sj4)) = Ok more c'.
Proof.
  destruct (block_protocol_no_fault 0 0 sample_server 0 sample_shared (Some sample_space) sample_alloc sj0 sj4)
    as (cs & Hcs & _ & _ & _ & more & c' & Hf & _);
    [vm_compute; split; congruence|apply sample_conn_ok|eauto|apply sample_initial|apply sample_reach4|].
  exists cs. split; [exact Hcs|]. exists more, c'. exact Hf.
Defined.

Lemma block_bio_matches_request_witness :
  ∃ v i, bios (j_srv sj2) !! 1%positive = Some v ∧
    zlookup (g_own sj2) i = Some (Some sample_token) ∧
    bio_io v = (64, [client_iov (Some sample_space) 8192 4096]).
Proof.
  apply (block_bio_matches_request 0 0 sample_server 0 sample_shared (Some sample_space) sample_alloc sj0 sj2
           1%positive sample_token false);
    [vm_compute; split; congruence|apply sample_conn_ok|eauto|apply sample_initial|apply sample_reach2
    |vm_compute; reflexivity].
Defined.
