(* ===== verification/BlockServer.v ===== *)
(** * The block-device server: control interface

    Models the rest of l4ka-driver-reuse/kernel/block/server.c: the service
    stubs of the server thread, which queue a command for each client call, the
    five command handlers that run in Linux context, the interrupt handler and
    the module initialisation. Handlers run in the state-and-fault monad of
    Prelude.v over the server state of Block.v. *)

From stdpp Require Import base list gmap numbers.
From Stdlib Require Import ZArith Lia.
From S2P Require Import Prelude CmdRing VmMemory Block BlockClient.

(** ** Environment *)

(** What the probe reads of a disk: [bdev->bd_disk], its queue and
    partitions ([part[i]->nr_sects], NULL for an absent one). *)
Record gendisk : Type := mk_gendisk {
  gd_flags : Z;
  gd_capacity : Z;               (** in 512-byte sectors *)
  gd_first_minor : Z;
  gd_part : list (option Z);
  gd_max_sectors : Z;
  gd_hardsect_size : Z;
  gd_block_size : Z
}.

Definition GENHD_FL_SUPPRESS_PARTITION_INFO : Z := 32.

(** What the control path calls in Linux, L4 and the resource monitor;
    [fresh_pages] is what the allocated shared pages contain. *)
Class BlockCtl : Type := {
  rmon : L4VMblock_server_t → rmon_env;
  kmalloc_ok : L4VMblock_server_t → bool;
  get_free_pages : L4VMblock_server_t → list page_event → Z → Z;
  fresh_pages : L4VMblock_server_t → IVMblock_client_shared_t;
  bd_disk : L4VMblock_server_t → Z → option gendisk
}.

(** [sizeof] of the two shared structures and [L4_SizeLog2(L4_Fpage(0, n))]. *)
Definition sizeof_client_shared : Z := 28132.
Definition sizeof_server_shared : Z := 8.
Definition L4_SizeLog2_Fpage0 (n : Z) : Z := Z.log2_up n.

(** ** Handles *)

(** The first slot whose handle is free. *)
Fixpoint free_slot (hs : list Z) (i : Z) : option Z :=
  match hs with
  | [] => None
  | h :: hs => if bool_decide (h = L4VMBLOCK_INVALID_HANDLE) then Some i else free_slot hs (i + 1)
  end.

Definition with_cn_handle (h : Z) (c : L4VMblock_conn_info_t) :=
  mk_conn h (cn_client c) (blkdev c) (block_size c) (kdev c).
Definition with_cl_handle (h : Z) (c : L4VMblock_client_info_t) :=
  mk_client h (client_shared c) (ring_info c) (bio_ring c) (client_space c) (client_alloc_info c).

Definition L4VMblock_allocate_conn_handle : MS (option Z) :=
  cs ← mgets connections;
  match free_slot (cn_handle <$> cs) 0 with
  | Some i => c ← get_conn i; put_conn i (with_cn_handle i c);; mret (Some i)
  | None => mret None
  end.

Definition L4VMblock_allocate_client_handle : MS (option Z) :=
  cs ← mgets clients;
  match free_slot (cl_handle <$> cs) 0 with
  | Some i => c ← get_client i; put_client i (with_cl_handle i c);; mret (Some i)
  | None => mret None
  end.

(** ** Replies (L4VMblock_idl_reply.h)

    A reply without exception is marshalled from the pointers it is given. *)
Definition IVMblock_Control_attach_propagate_reply (tid : Z) (handle : option Z)
    (ex : option ivm_exception) : MS unit :=
  match ex with
  | Some _ => emit (BReplyAttach tid None ex)
  | None => h ← mof_option NullDeref handle; emit (BReplyAttach tid (Some h) None)
  end.
Definition IVMblock_Control_register_propagate_reply (tid : Z)
    (r : option (Z * (Z * Z) * (Z * Z))) (ex : option ivm_exception) : MS unit :=
  match ex with
  | Some _ => emit (BReplyRegister tid None ex)
  | None => x ← mof_option NullDeref r; emit (BReplyRegister tid (Some x) None)
  end.
Definition IVMblock_Control_reattach_propagate_reply (tid : Z)
    (r : option ((Z * Z) * (Z * Z))) (ex : option ivm_exception) : MS unit :=
  match ex with
  | Some _ => emit (BReplyReattach tid None ex)
  | None => x ← mof_option NullDeref r; emit (BReplyReattach tid (Some x) None)
  end.
Definition IVMblock_Control_detach_propagate_reply (tid : Z) (ex : option ivm_exception) : MS unit :=
  emit (BReplyDetach tid ex).
Definition IVMblock_Control_probe_propagate_reply (tid : Z) (r : devprobe + ivm_exception) : MS unit :=
  emit (BReplyProbe tid r).

(** ** Command handlers *)

Abbreviation block_cmd := (L4VM_server_cmd_t block_handler block_params).

Section handlers.
Context {E : BlockEnv} {C : BlockCtl}.

(** The three assertions every handler starts with. *)
Definition handler_asserts (cmd : block_cmd) : MS unit :=
  massert (bool_decide (reply_to_tid cmd ≠ 0));;
  massert (bool_decide (is_Some (cmd_data cmd)));;
  tid ← mgets server_tid;
  massert (bool_decide (tid ≠ 0)).

(** [L4VMblock_probe_handler]: the data returned for an open disk. *)
Definition probe_disk (devid : Z * Z) (d : gendisk) : MS devprobe :=
  let minor := devid.2 in
  size ←
    (if bool_decide (Z.land minor (Z.lnot 64) ≠ 0) then
       if bool_decide (Z.land (gd_flags d) GENHD_FL_SUPPRESS_PARTITION_INFO ≠ 0)
       then mret (gd_capacity d / 2)
       else
         let pm := u32 (minor - gd_first_minor d) in
         part ← mof_option OutOfBounds (zlookup (gd_part d) (u32 (pm - 1)));
         nr_sects ← mof_option NullDeref part;
         mret (nr_sects / 2)
     else mret (gd_capacity d));
  mret (mk_devprobe devid (u32 size) (gd_flags d) (gd_block_size d) (gd_hardsect_size d) 8 31
          (gd_max_sectors d)).

Definition L4VMblock_probe_handler (cmd : block_cmd) (devid : Z * Z) : MS unit :=
  handler_asserts cmd;;
  bdev ← mgets (λ s, open_by_devnum s devid false);
  emit (BOpen devid false bdev);;
  r ← match bdev with
      | None => mret (inr ex_invalid_device)
      | Some b =>
          disk ← mgets (λ s, bd_disk s b);
          match disk with
          | None => mret (inr ex_invalid_device)
          | Some d => p ← probe_disk devid d; mret (inl p)
          end
      end;
  match bdev with Some b => emit (BBlkdevPut b) | None => mret tt end;;
  IVMblock_Control_probe_propagate_reply (reply_to_tid cmd) r.

(** [L4VMblock_attach_handler]. The cascade of [goto] labels undoes, on
    each error, what was done before it; first the part after the device
    [b] was opened for client [ci]. *)
Definition attach_opened (cmd : block_cmd) (ci : Z) (devid : Z * Z) (b : Z) : MS unit :=
  err ← mgets (λ s, bd_claim s b);
  if bool_decide (err < 0) then
    emit (BBlkdevPut b);;
    IVMblock_Control_attach_propagate_reply (reply_to_tid cmd) None (Some ex_invalid_device)
  else
  emit (BClaim b);;
  err ← mgets (λ s, set_blocksize s b PAGE_SIZE);
  emit (BSetBlocksize b PAGE_SIZE);;
  if bool_decide (err < 0) then
    emit (BRelease b);; emit (BBlkdevPut b);;
    IVMblock_Control_attach_propagate_reply (reply_to_tid cmd) None (Some ex_invalid_device)
  else
  handle ← L4VMblock_allocate_conn_handle;
  match handle with
  | None =>
      emit (BRelease b);; emit (BBlkdevPut b);;
      IVMblock_Control_attach_propagate_reply (reply_to_tid cmd) None (Some ex_no_memory)
  | Some handle =>
      conn ← L4VMblock_conn_lookup handle;
      k ← mof_option NullDeref conn;
      c ← get_conn k;
      put_conn k (mk_conn (cn_handle c) (Some ci) (Some b) (block_size c) devid);;
      IVMblock_Control_attach_propagate_reply (reply_to_tid cmd) (Some handle) None
  end.

Definition L4VMblock_attach_handler (cmd : block_cmd) (client_handle : Z) (devid : Z * Z) : MS unit :=
  handler_asserts cmd;;
  client ← L4VMblock_client_lookup client_handle;
  match client with
  | None => IVMblock_Control_attach_propagate_reply (reply_to_tid cmd) None (Some ex_invalid_client)
  | Some ci =>
      bdev ← mgets (λ s, open_by_devnum s devid true);
      emit (BOpen devid true bdev);;
      match bdev with
      | Some b => attach_opened cmd ci devid b
      | None =>
          (* try to open the device read-only *)
          bdev ← mgets (λ s, open_by_devnum s devid false);
          emit (BOpen devid false bdev);;
          match bdev with
          | Some b => attach_opened cmd ci devid b
          | None =>
              IVMblock_Control_attach_propagate_reply (reply_to_tid cmd) None (Some ex_invalid_device)
          end
      end
  end.

(** [L4VMblock_detach_handler] *)
Definition L4VMblock_detach_handler (cmd : block_cmd) (handle : Z) : MS unit :=
  handler_asserts cmd;;
  conn ← L4VMblock_conn_lookup handle;
  match conn with
  | None => IVMblock_Control_detach_propagate_reply (reply_to_tid cmd) (Some ex_invalid_client)
  | Some k =>
      c ← get_conn k;
      match blkdev c with
      | Some b => emit (BRelease b);; emit (BBlkdevPut b)
      | None => mret tt
      end;;
      put_conn k (mk_conn (cn_handle c) (cn_client c) None (block_size c) (kdev c));;
      L4VMblock_conn_release k;;
      IVMblock_Control_detach_propagate_reply (reply_to_tid cmd) None
  end.

(** The loop that clears the descriptors, and the fields the server sets,
    in freshly allocated shared pages. *)
Definition clear_desc (d : IVMblock_ring_descriptor_t) : IVMblock_ring_descriptor_t :=
  mk_desc (mk_status false false false false) (d_handle d) 0 (d_offset d) (d_size d) (d_count d)
    (d_client_data d) (d_energy d).
Definition init_shared (irq_no irq_tid main_tid : Z) (cs : IVMblock_client_shared_t) :=
  mk_shared (client_irq_no cs) (client_irq_tid cs) (client_main_tid cs) 0 false
    irq_no irq_tid main_tid (dma_vec cs) (dma_lock cs) (clear_desc <$> desc_ring cs).

(** [L4VMblock_register_handler]. On [err_client_space] the client handle
    stays allocated; on [err_shared_alloc] no exception is set for the
    reply. *)
Definition L4VMblock_register_handler (cmd : block_cmd) : MS unit :=
  massert (bool_decide (reply_to_tid cmd ≠ 0));;
  tid ← mgets server_tid;
  massert (bool_decide (tid ≠ 0));;
  handle ← L4VMblock_allocate_client_handle;
  match handle with
  | None => IVMblock_Control_register_propagate_reply (reply_to_tid cmd) None (Some ex_no_memory)
  | Some handle =>
      client ← L4VMblock_client_lookup handle;
      ci ← mof_option NullDeref client;
      s ← mget;
      let '(p, t) := L4VM_get_client_space_info (rmon s) (kmalloc_ok s) (reply_to_tid cmd) (spaces s) in
      mmodify (with_spaces t);;
      let space := p ≫= space_deref t in
      c ← get_client ci;
      put_client ci (mk_client (cl_handle c) (client_shared c) (ring_info c) (bio_ring c) space
                       (client_alloc_info c));;
      match space with
      | None => IVMblock_Control_register_propagate_reply (reply_to_tid cmd) None (Some ex_no_memory)
      | Some _ =>
          s ← mget;
          match L4VM_fpage_alloc (get_free_pages s) (L4_SizeLog2_Fpage0 sizeof_client_shared) with
          | (_, None, _) =>
              L4VMblock_client_release ci;;
              IVMblock_Control_register_propagate_reply (reply_to_tid cmd) None None
          | (_, Some info, _) =>
              let cs := init_shared (L4VMblock_server_irq s) (my_irq_tid s) (my_main_tid s)
                          (fresh_pages s) in
              c ← get_client ci;
              put_client ci (mk_client (cl_handle c) (Some cs)
                               (mk_ring IVMblock_descriptor_ring_size 0 0)
                               (replicate IVMblock_descriptor_ring_size None)
                               (client_space c) info);;
              IVMblock_Control_register_propagate_reply (reply_to_tid cmd)
                      (Some (handle, al_fpage info, al_fpage (server_alloc_info s))) None
          end
      end
  end.

(** [L4VMblock_reattach_handler]. [L4VM_page_in] only reads the pages. *)
Definition L4VMblock_reattach_handler (cmd : block_cmd) (handle : Z) : MS unit :=
  massert (bool_decide (reply_to_tid cmd ≠ 0));;
  tid ← mgets server_tid;
  massert (bool_decide (tid ≠ 0));;
  client ← L4VMblock_client_lookup handle;
  match client with
  | None => IVMblock_Control_reattach_propagate_reply (reply_to_tid cmd) None (Some ex_invalid_client)
  | Some ci =>
      c ← get_client ci;
      sv ← mgets server_alloc_info;
      IVMblock_Control_reattach_propagate_reply (reply_to_tid cmd)
              (Some (al_fpage (client_alloc_info c), al_fpage sv)) None
  end.

(** The indirect call [cmd->handler( cmd, data )]; a command carries the
    parameters its stub stored with it. *)
Definition run_handler (h : block_handler) (cmd : block_cmd) : MS unit :=
  match h, cmd_data cmd with
  | Hprobe, Some (Pprobe devid) => L4VMblock_probe_handler cmd devid
  | Hattach, Some (Pattach ch devid _) => L4VMblock_attach_handler cmd ch devid
  | Hdetach, Some (Pdetach h) => L4VMblock_detach_handler cmd h
  | Hregister, _ => L4VMblock_register_handler cmd
  | Hreattach, Some (Preattach h) => L4VMblock_reattach_handler cmd h
  | _, _ => mfault AssertFail
  end.

(** ** Linux interrupt functions *)

Definition run_cmd_res (h : block_handler) (cmd : block_cmd) (r : res L4VMblock_server_t unit)
    : res L4VMblock_server_t unit :=
  match r with Ok _ s => run_handler h cmd s | Err f => Err f end.

(** [L4VM_server_cmd_dispatcher] on a ring of the server. *)
Definition dispatch_cmds (ring : L4VMblock_server_t → block_cmd_ring)
    (set_ring : block_cmd_ring → L4VMblock_server_t → L4VMblock_server_t) : MS unit := λ s,
  match L4VM_server_cmd_dispatcher run_cmd_res (server_tid s) (S L4VM_SERVER_CMD_RING_LEN)
          (ring s) (Ok tt s) with
  | None => Err Diverged
  | Some (_, Err f, _) => Err f
  | Some (r, Ok _ s', evs) => Ok tt (foldl (λ s e, log (BL4 e) s) (set_ring r s') evs)
  end.

Definition L4VMblock_bottom_half_handler : MS unit := dispatch_cmds bottom_half_cmds with_bottom.

(** [L4VMblock_dispatch_handler] *)
Definition L4VMblock_dispatch_handler (fuel : nat) : MS unit := L4VMblock_process_client_io fuel.

Definition set_pending (b : bool) (w : irq_words) : irq_words := mk_irq (irq_status w) b.

(** [L4VMblock_irq_handler] *)
Fixpoint L4VMblock_irq_handler (fuel : nat) : MS unit :=
  match fuel with
  | O => mfault Diverged
  | S fuel =>
      s ← mget;
      let '(events, w) := irq_status_reset (sv_irq s) in
      let '(client_events, i) := irq_status_reset (server_info s) in
      mmodify (with_irqs w i);;
      if bool_decide (events = 0) && bool_decide (client_events = 0) then mret tt else
      mmodify (λ s, with_irqs (set_pending true (sv_irq s)) (set_pending true (server_info s)) s);;
      (if bool_decide (client_events ≠ 0) then emit BScheduleDispatch else mret tt);;
      (if bool_decide (Z.land events L4VMBLOCK_IRQ_TOP_HALF_CMD ≠ 0)
       then dispatch_cmds top_half_cmds with_top else mret tt);;
      (if bool_decide (Z.land events L4VMBLOCK_IRQ_BOTTOM_HALF_CMD ≠ 0)
       then emit BScheduleBottomHalf else mret tt);;
      mmodify (λ s, with_irqs (set_pending false (sv_irq s)) (set_pending false (server_info s)) s);;
      L4VMblock_irq_handler fuel
  end.

(** ** Server thread dispatch *)

(** [L4VMblock_deliver_irq] *)
Definition L4VMblock_deliver_irq (ipc_failed : bool) (irq_flags : Z) : MS unit :=
  s ← mget;
  let '(w, evs) := L4VM_server_deliver_irq ipc_failed (my_irq_tid s) (L4VMblock_server_irq s)
                     irq_flags (irq_mask s) (sv_irq s) in
  mmodify (λ s, foldl (λ s e, log (BL4 e) s) (with_irqs w (server_info s) s) evs).

Section stubs.
(** How the rest of the driver VM changes the server while the server
    thread waits for a free command. *)
Variable ipc : l4_event → block_cmd_ring → irq_words → L4VMblock_server_t →
  bool * (block_cmd_ring * irq_words * L4VMblock_server_t).
Variable ipc_failed : bool.
Variable fuel : nat.

(** [L4VMblock_cmd_allocate_bottom] *)
Definition L4VMblock_cmd_allocate_bottom : MS Z := λ s,
  match L4VM_server_cmd_allocate ipc (my_irq_tid s) (L4VMblock_server_irq s)
          L4VMBLOCK_IRQ_BOTTOM_HALF_CMD (irq_mask s) fuel (bottom_half_cmds s) (sv_irq s) s with
  | None => Err Diverged
  | Some (idx, r, w, s', evs) =>
      Ok idx (foldl (λ s e, log (BL4 e) s) (with_bottom r (with_irqs w (server_info s') s')) evs)
  end.

(** The common shape of the stubs: allocate a command, fill it, publish
    it by its handler, raise the interrupt. *)
Definition control_stub (caller : Z) (params : block_params) (h : block_handler) : MS unit :=
  cmd_idx ← L4VMblock_cmd_allocate_bottom;
  mmodify (λ s, with_bottom (cmd_fill cmd_idx caller params (bottom_half_cmds s)) s);;
  mmodify (λ s, with_bottom (cmd_publish cmd_idx h (bottom_half_cmds s)) s);;
  L4VMblock_deliver_irq ipc_failed L4VMBLOCK_IRQ_BOTTOM_HALF_CMD.

Definition IVMblock_Control_probe_implementation (caller : Z) (devid : Z * Z) : MS unit :=
  control_stub caller (Pprobe devid) Hprobe.
Definition IVMblock_Control_attach_implementation (caller client_handle : Z) (devid : Z * Z)
    (rw : Z) : MS unit :=
  control_stub caller (Pattach client_handle devid rw) Hattach.
Definition IVMblock_Control_detach_implementation (caller handle : Z) : MS unit :=
  control_stub caller (Pdetach handle) Hdetach.
Definition IVMblock_Control_register_implementation (caller : Z) : MS unit :=
  control_stub caller Pregister Hregister.
Definition IVMblock_Control_reattach_implementation (caller client_handle : Z) : MS unit :=
  control_stub caller (Preattach client_handle) Hreattach.
End stubs.

(** ** Module initialisation *)

(** [L4VMblock_server_init_module] up to the locator registration, whose
    failure is only reported. [irq_gtid] and [main_gtid] are those of the
    virtual CPU, [request_irq] and [thread_create] the results of the Linux
    calls; the configuration has no IO-APIC. *)
Definition L4VMblock_server_init_module (irq_gtid main_gtid request_irq thread_create : Z) : MS Z :=
  mmodify (λ s,
    mk_server (server_tid s) irq_gtid main_gtid (mk_irq 0 false) (2 ^ 32 - 1)
      (L4VMblock_server_irq s) (server_info s) (server_alloc_info s)
      (L4VM_server_cmd_init (top_half_cmds s)) (L4VM_server_cmd_init (bottom_half_cmds s))
      (with_cn_handle L4VMBLOCK_INVALID_HANDLE <$> connections s)
      (with_cl_handle L4VMBLOCK_INVALID_HANDLE <$> clients s)
      (bios s) (spaces s) (trace s));;
  s ← mget;
  match L4VM_fpage_alloc (get_free_pages s) (L4_SizeLog2_Fpage0 sizeof_server_shared) with
  | (err, None, _) => mret err
  | (_, Some info, _) =>
      let irq := if bool_decide (L4VMblock_server_irq s = 0) then 7 else L4VMblock_server_irq s in
      mmodify (λ s,
        mk_server (server_tid s) (my_irq_tid s) (my_main_tid s) (sv_irq s) (irq_mask s) irq
          (mk_irq 0 false) info (top_half_cmds s) (bottom_half_cmds s) (connections s)
          (clients s) (bios s) (spaces s) (trace s));;
      if bool_decide (request_irq < 0) then mret request_irq else
      mmodify (λ s,
        mk_server thread_create (my_irq_tid s) (my_main_tid s) (sv_irq s) (irq_mask s)
          (L4VMblock_server_irq s) (server_info s) (server_alloc_info s) (top_half_cmds s)
          (bottom_half_cmds s) (connections s) (clients s) (bios s) (spaces s) (trace s));;
      if bool_decide (thread_create = L4_nilthread) then mret (- ENOMEM) else mret 0
  end.
End handlers.
