(* ===== verification/BlockControl.v ===== *)
(** * The block-device server: correctness of the control interface

    Every command handler of BlockServer.v keeps the tables of clients and
    connections consistent, keeps exactly the block devices of the attached
    connections open and claimed, and answers its caller exactly once. *)

From stdpp Require Import base list gmap gmultiset numbers.
From Stdlib Require Import ZArith Lia.
From S2P Require Import Prelude CmdRing VmMemory Block BlockClient BlockServer.

(** ** Device ledger *)

(** The devices opened and not yet put, and those claimed and not yet
    released, after a sequence of calls. *)
Definition held_step (X : gmultiset Z) (e : bevent) : gmultiset Z :=
  match e with
  | BOpen _ _ (Some b) => X ⊎ {[+ b +]}
  | BBlkdevPut b => X ∖ {[+ b +]}
  | _ => X
  end.
Definition claimed_step (X : gmultiset Z) (e : bevent) : gmultiset Z :=
  match e with
  | BClaim b => X ⊎ {[+ b +]}
  | BRelease b => X ∖ {[+ b +]}
  | _ => X
  end.
Definition held (tr : list bevent) : gmultiset Z := foldl held_step ∅ tr.
Definition claimed (tr : list bevent) : gmultiset Z := foldl claimed_step ∅ tr.

Lemma held_snoc tr e : held (tr ++ [e]) = held_step (held tr) e.
Proof. unfold held. by rewrite foldl_app. Qed.
Lemma claimed_snoc tr e : claimed (tr ++ [e]) = claimed_step (claimed tr) e.
Proof. unfold claimed. by rewrite foldl_app. Qed.

(** The device a connection keeps. *)
Definition conn_dev (c : L4VMblock_conn_info_t) : gmultiset Z :=
  if decide (cn_handle c = L4VMBLOCK_INVALID_HANDLE) then ∅ else
  match blkdev c with Some b => {[+ b +]} | None => ∅ end.
Definition conn_devs (l : list L4VMblock_conn_info_t) : gmultiset Z :=
  foldr (λ c X, conn_dev c ⊎ X) ∅ l.

Lemma conn_devs_insert l k c c' :
  zlookup l k = Some c → conn_devs (zinsert k c' l) ⊎ conn_dev c = conn_devs l ⊎ conn_dev c'.
Proof.
  unfold zlookup, zinsert. case_decide; [|done]. generalize (Z.to_nat k). clear.
  induction l as [|x l IH]; intros [|i] Hl; simplify_eq/=; [multiset_solver|].
  specialize (IH _ Hl). multiset_solver.
Qed.

(** ** Replies *)

Definition reply_of (e : bevent) : option Z :=
  match e with
  | BReplyProbe t _ | BReplyAttach t _ _ | BReplyDetach t _ | BReplyRegister t _ _
  | BReplyReattach t _ _ => Some t
  | _ => None
  end.
Definition replies (tr : list bevent) : list Z := omap reply_of tr.

Lemma replies_snoc tr e :
  replies (tr ++ [e]) = replies tr ++ match reply_of e with Some t => [t] | None => [] end.
Proof. unfold replies. by rewrite omap_app. Qed.

(** ** Consistency of the tables *)

Definition conn_wf (cls : list L4VMblock_client_info_t) (k : Z) (c : L4VMblock_conn_info_t) : Prop :=
  cn_handle c = L4VMBLOCK_INVALID_HANDLE ∨
  cn_handle c = k ∧ is_Some (blkdev c) ∧
  ∃ ci cl, cn_client c = Some ci ∧ zlookup cls ci = Some cl ∧ cl_handle cl = ci.

Record server_wf (s : L4VMblock_server_t) : Prop := {
  wf_nconn : length (connections s) = L4VMBLOCK_MAX_DEVICES;
  wf_nclient : length (clients s) = L4VMBLOCK_MAX_CLIENTS;
  wf_conn : ∀ k c, zlookup (connections s) k = Some c → conn_wf (clients s) k c;
  wf_client : ∀ i c, zlookup (clients s) i = Some c →
    cl_handle c = L4VMBLOCK_INVALID_HANDLE ∨ cl_handle c = i;
  wf_held : held (trace s) = conn_devs (connections s);
  wf_claimed : claimed (trace s) = conn_devs (connections s)
}.

Lemma server_wf_eq s s' :
  server_wf s → connections s' = connections s → clients s' = clients s →
  held (trace s') = held (trace s) → claimed (trace s') = claimed (trace s) → server_wf s'.
Proof.
  intros [] Hc Hcl Hh Hcm. split; rewrite ?Hc, ?Hcl, ?Hh, ?Hcm; done.
Qed.

(** ** Handle tables *)

Lemma free_slot_Some hs i j :
  free_slot hs i = Some j → 0 ≤ i → i ≤ j ∧ zlookup hs (j - i) = Some L4VMBLOCK_INVALID_HANDLE.
Proof.
  revert i. induction hs as [|h hs IH]; intros i; simpl; [done|]. case_bool_decide.
  - intros [= ->] ?. rewrite Z.sub_diag. split; [lia|]. unfold zlookup. simpl. by f_equal.
  - intros Hj Hi. destruct (IH _ Hj) as [Hle Hl]; [lia|]. split; [lia|].
    unfold zlookup in *. rewrite decide_True by lia. rewrite decide_True in Hl by lia.
    replace (Z.to_nat (j - i)) with (S (Z.to_nat (j - (i + 1)))) by lia. done.
Qed.

Lemma free_slot_None hs i : free_slot hs i = None → L4VMBLOCK_INVALID_HANDLE ∉ hs.
Proof.
  revert i. induction hs as [|h hs IH]; intros i; simpl; [set_solver|].
  case_bool_decide; [done|]. intros Hn ?%elem_of_cons. naive_solver.
Qed.

Definition conn_find (h : Z) (s : L4VMblock_server_t) : option Z :=
  c ← zlookup (connections s) h; if decide (cn_handle c = h) then Some h else None.
Definition client_find (h : Z) (s : L4VMblock_server_t) : option Z :=
  c ← zlookup (clients s) h; if decide (cl_handle c = h) then Some h else None.

Lemma get_conn_run k s c : zlookup (connections s) k = Some c → get_conn k s = Ok c s.
Proof. intros Hk. unfold get_conn, mgets, mbind, M_bind. by rewrite Hk. Qed.
Lemma get_client_run i s c : zlookup (clients s) i = Some c → get_client i s = Ok c s.
Proof. intros Hk. unfold get_client, mgets, mbind, M_bind. by rewrite Hk. Qed.

Lemma conn_lookup_run h s :
  length (connections s) = L4VMBLOCK_MAX_DEVICES →
  L4VMblock_conn_lookup h s = Ok (conn_find h s) s.
Proof.
  intros Hlen. unfold L4VMblock_conn_lookup, conn_find. case_bool_decide as Hh.
  - destruct (zlookup_is_Some (connections s) h) as [c Hc]; [lia|].
    mstep (get_conn_run _ _ _ Hc). rewrite Hc. cbn [mbind option_bind].
    case_bool_decide; by case_decide.
  - destruct (zlookup (connections s) h) eqn:Hc; [|done]. apply zlookup_lt in Hc. lia.
Qed.

Lemma client_lookup_run h s :
  length (clients s) = L4VMBLOCK_MAX_CLIENTS →
  L4VMblock_client_lookup h s = Ok (client_find h s) s.
Proof.
  intros Hlen. unfold L4VMblock_client_lookup, client_find. case_bool_decide as Hh.
  - destruct (zlookup_is_Some (clients s) h) as [c Hc]; [lia|].
    mstep (get_client_run _ _ _ Hc). rewrite Hc. cbn [mbind option_bind].
    case_bool_decide; by case_decide.
  - destruct (zlookup (clients s) h) eqn:Hc; [|done]. apply zlookup_lt in Hc. lia.
Qed.

Lemma allocate_conn_run s :
  (∃ i c, zlookup (connections s) i = Some c ∧ cn_handle c = L4VMBLOCK_INVALID_HANDLE ∧
     L4VMblock_allocate_conn_handle s =
       Ok (Some i) (with_connections (zinsert i (with_cn_handle i c) (connections s)) s)) ∨
  (∀ i c, zlookup (connections s) i = Some c → cn_handle c ≠ L4VMBLOCK_INVALID_HANDLE) ∧
  L4VMblock_allocate_conn_handle s = Ok None s.
Proof.
  unfold L4VMblock_allocate_conn_handle. erewrite bind_ok by done. cbv beta zeta.
  destruct (free_slot (cn_handle <$> connections s) 0) as [i|] eqn:Hf; [left|right].
  - destruct (free_slot_Some _ _ _ Hf) as [_ Hl]; [lia|]. rewrite Z.sub_0_r, zlookup_fmap in Hl.
    destruct (zlookup (connections s) i) as [c|] eqn:Hc; [|done]. simplify_eq/=.
    exists i, c. split_and!; [done..|]. by mstep (get_conn_run _ _ _ Hc).
  - split; [|done]. intros i c Hc Hh. apply (free_slot_None _ _ Hf).
    rewrite <- Hh. apply list_elem_of_fmap_2.
    unfold zlookup in Hc. case_decide; [|done]. by eapply list_elem_of_lookup_2.
Qed.

Lemma allocate_client_run s :
  (∃ i c, zlookup (clients s) i = Some c ∧ cl_handle c = L4VMBLOCK_INVALID_HANDLE ∧
     L4VMblock_allocate_client_handle s =
       Ok (Some i) (with_clients (zinsert i (with_cl_handle i c) (clients s)) s)) ∨
  (∀ i c, zlookup (clients s) i = Some c → cl_handle c ≠ L4VMBLOCK_INVALID_HANDLE) ∧
  L4VMblock_allocate_client_handle s = Ok None s.
Proof.
  unfold L4VMblock_allocate_client_handle. erewrite bind_ok by done. cbv beta zeta.
  destruct (free_slot (cl_handle <$> clients s) 0) as [i|] eqn:Hf; [left|right].
  - destruct (free_slot_Some _ _ _ Hf) as [_ Hl]; [lia|]. rewrite Z.sub_0_r, zlookup_fmap in Hl.
    destruct (zlookup (clients s) i) as [c|] eqn:Hc; [|done]. simplify_eq/=.
    exists i, c. split_and!; [done..|]. by mstep (get_client_run _ _ _ Hc).
  - split; [|done]. intros i c Hc Hh. apply (free_slot_None _ _ Hf).
    rewrite <- Hh. apply list_elem_of_fmap_2.
    unfold zlookup in Hc. case_decide; [|done]. by eapply list_elem_of_lookup_2.
Qed.

(** ** The handlers *)

Section handlers.
Context {E : BlockEnv} {C : BlockCtl}.

(** A command as the stubs queue it. *)
Definition cmd_ready (cmd : block_cmd) (s : L4VMblock_server_t) : Prop :=
  reply_to_tid cmd ≠ 0 ∧ is_Some (cmd_data cmd) ∧ server_tid s ≠ 0.

(** What a handler establishes. *)
Definition answered (tid : Z) (s s' : L4VMblock_server_t) : Prop :=
  server_wf s' ∧ server_tid s' = server_tid s ∧
  replies (trace s') = replies (trace s) ++ [tid].

Lemma asserts_run cmd s : cmd_ready cmd s → handler_asserts cmd s = Ok tt s.
Proof.
  intros (Ht & Hd & Hs). unfold handler_asserts. rewrite !bool_decide_eq_true_2 by done.
  unfold mgets, massert, mbind, M_bind, mret, M_ret. cbn. by rewrite bool_decide_eq_true_2.
Qed.

(** An event that is a reply to [tid] and moves no device. *)
Definition plain_reply (tid : Z) (e : bevent) : Prop :=
  reply_of e = Some tid ∧ ∀ X, held_step X e = X ∧ claimed_step X e = X.

Lemma answered_reply tid s s1 e :
  server_wf s1 → server_tid s1 = server_tid s → replies (trace s1) = replies (trace s) →
  plain_reply tid e → answered tid s (log e s1).
Proof.
  intros Hwf Ht Hr [He HX]. split_and!; [|done|].
  - eapply server_wf_eq; [exact Hwf|done..| |]; cbn; rewrite ?held_snoc, ?claimed_snoc; apply HX.
  - cbn. by rewrite replies_snoc, He, Hr.
Qed.

(** Connecting a free slot to an open, claimed device. *)
Lemma server_wf_attach s s1 k c ci cl b bs devid :
  server_wf s → zlookup (connections s) k = Some c → cn_handle c = L4VMBLOCK_INVALID_HANDLE →
  zlookup (clients s) ci = Some cl → cl_handle cl = ci →
  connections s1 = zinsert k (mk_conn k (Some ci) (Some b) bs devid) (connections s) →
  clients s1 = clients s → held (trace s1) = held (trace s) ⊎ {[+ b +]} →
  claimed (trace s1) = claimed (trace s) ⊎ {[+ b +]} → server_wf s1.
Proof.
  intros [Hn Hm Hconn Hcl Hh Hc] Hk Hinv Hci Hlive E1 E2 E3 E4.
  pose proof (zlookup_lt _ _ _ Hk) as Hlt.
  pose proof (conn_devs_insert (connections s) k c (mk_conn k (Some ci) (Some b) bs devid) Hk) as Hd.
  assert (conn_dev (mk_conn k (Some ci) (Some b) bs devid) = {[+ b +]}) as Hb.
  { unfold conn_dev. cbn. rewrite decide_False; [done|]. rewrite Hn in Hlt.
    unfold L4VMBLOCK_INVALID_HANDLE, L4VMBLOCK_MAX_DEVICES in *. lia. }
  assert (conn_dev c = ∅) as He by (unfold conn_dev; by rewrite decide_True).
  rewrite Hb, He in Hd.
  split; rewrite ?E1, ?E2, ?E3, ?E4, ?length_zinsert; try done; [|multiset_solver..].
  intros k' c'. rewrite zlookup_zinsert by done. case_decide; [|apply Hconn].
  intros ?; simplify_eq. right. cbn. eauto 10.
Qed.

(** Releasing a connection whose device was released and put. *)
Lemma server_wf_detach s s1 k c c' :
  server_wf s → zlookup (connections s) k = Some c → cn_handle c ≠ L4VMBLOCK_INVALID_HANDLE →
  cn_handle c' = L4VMBLOCK_INVALID_HANDLE →
  connections s1 = zinsert k c' (connections s) → clients s1 = clients s →
  held (trace s1) = held (trace s) ∖ conn_dev c →
  claimed (trace s1) = claimed (trace s) ∖ conn_dev c → server_wf s1.
Proof.
  intros [Hn Hm Hconn Hcl Hh Hc] Hk Hlive Hinv E1 E2 E3 E4.
  pose proof (zlookup_lt _ _ _ Hk) as Hlt.
  pose proof (conn_devs_insert (connections s) k c c' Hk) as Hd.
  assert (conn_dev c' = ∅) as He by (unfold conn_dev; by rewrite decide_True).
  rewrite He in Hd.
  split; rewrite ?E1, ?E2, ?E3, ?E4, ?length_zinsert; try done; [|multiset_solver..].
  intros k' c0. rewrite zlookup_zinsert by done. case_decide; [|apply Hconn].
  intros ?; simplify_eq. by left.
Qed.

Lemma client_find_Some h s ci :
  client_find h s = Some ci → ∃ cl, ci = h ∧ zlookup (clients s) h = Some cl ∧ cl_handle cl = h.
Proof.
  unfold client_find. destruct (zlookup (clients s) h); simpl; [|done]. case_decide; naive_solver.
Qed.
Lemma conn_find_Some h s k :
  conn_find h s = Some k → ∃ c, k = h ∧ zlookup (connections s) h = Some c ∧ cn_handle c = h.
Proof.
  unfold conn_find. destruct (zlookup (connections s) h); simpl; [|done]. case_decide; naive_solver.
Qed.

Ltac ledger := cbn; rewrite ?held_snoc, ?claimed_snoc, ?replies_snoc; cbn; rewrite ?app_nil_r;
  try done; try multiset_solver.
Ltac reply_err := unfold emit; wp_steps; apply answered_reply; [|ledger..|by split];
  (eapply server_wf_eq; [eassumption|ledger..]).

Lemma attach_opened_answered F cmd ci cl devid b s s1 :
  server_wf s → zlookup (clients s) ci = Some cl → cl_handle cl = ci →
  connections s1 = connections s → clients s1 = clients s → server_tid s1 = server_tid s →
  held (trace s1) = held (trace s) ⊎ {[+ b +]} → claimed (trace s1) = claimed (trace s) →
  replies (trace s1) = replies (trace s) →
  wp F (attach_opened cmd ci devid b) (λ _, answered (reply_to_tid cmd) s) s1.
Proof.
  intros Hwf Hcl Hlive E1 E2 E3 E4 E5 E6. unfold attach_opened, emit. wp_steps; try done.
  - apply answered_reply; [|ledger..|by split]. eapply server_wf_eq; [eassumption|ledger..].
  - apply answered_reply; [|ledger..|by split]. eapply server_wf_eq; [eassumption|ledger..].
  - match goal with |- wp _ _ _ ?s2 => destruct (allocate_conn_run s2)
      as [(k & c & Hk & Hinv & Hrun)|[Hnone Hrun]] end.
    all: eapply wp_run; [exact Hrun|]; cbv beta; cbn [log connections] in *.
    2:{ unfold emit, IVMblock_Control_attach_propagate_reply. wp_steps.
        apply answered_reply; [|ledger..|by split]. eapply server_wf_eq; [eassumption|ledger..]. }
    pose proof (zlookup_lt _ _ _ Hk) as Hlt. rewrite E1 in Hk, Hlt.
    pose proof (zlookup_zinsert_eq (connections s) k (with_cn_handle k c) Hlt) as Hk1.
    apply wp_bind. eapply wp_run.
    { apply conn_lookup_run. cbn. rewrite E1, length_zinsert. apply Hwf. }
    unfold conn_find. cbn [with_connections connections log]. rewrite E1, Hk1.
    cbn [mbind option_bind with_cn_handle cn_handle]. rewrite decide_True by done.
    cbv beta. apply wp_bind, wp_mof_option; [done|intros ? [= <-]]. apply wp_bind.
    eapply wp_run; [by apply get_conn_run|]. cbv beta. apply wp_bind.
    unfold put_conn, IVMblock_Control_attach_propagate_reply, emit. wp_steps; simplify_eq.
    apply answered_reply; [|ledger..|by split].
    eapply (server_wf_attach s _ _ c _ cl b (block_size c) devid); try done; [|ledger..].
    cbn. by rewrite zinsert_zinsert.
Qed.

Lemma attach_answered F cmd ch devid s :
  cmd_ready cmd s → server_wf s →
  wp F (L4VMblock_attach_handler cmd ch devid) (λ _, answered (reply_to_tid cmd) s) s.
Proof.
  intros Hrdy Hwf. unfold L4VMblock_attach_handler. apply wp_bind.
  eapply wp_run; [by apply asserts_run|]. cbv beta. apply wp_bind.
  eapply wp_run; [apply client_lookup_run, Hwf|]. cbv beta.
  destruct (client_find ch s) as [ci|] eqn:Hci.
  2:{ unfold IVMblock_Control_attach_propagate_reply. reply_err. }
  apply client_find_Some in Hci as (cl & -> & Hcl & Hch).
  unfold emit, IVMblock_Control_attach_propagate_reply. wp_steps.
  1,2: eapply attach_opened_answered; try done; ledger; simplify_eq; ledger.
  apply answered_reply; [|ledger..|by split].
  eapply server_wf_eq; [eassumption|ledger..].
Qed.

Lemma detach_answered F cmd h s :
  cmd_ready cmd s → server_wf s →
  wp F (L4VMblock_detach_handler cmd h) (λ _, answered (reply_to_tid cmd) s) s.
Proof.
  intros Hrdy Hwf. unfold L4VMblock_detach_handler. apply wp_bind.
  eapply wp_run; [by apply asserts_run|]. cbv beta. apply wp_bind.
  eapply wp_run; [apply conn_lookup_run, Hwf|]. cbv beta.
  destruct (conn_find h s) as [k|] eqn:Hk.
  2:{ unfold IVMblock_Control_detach_propagate_reply. reply_err. }
  apply conn_find_Some in Hk as (c & -> & Hk & Hh). pose proof (zlookup_lt _ _ _ Hk) as Hlt.
  assert (cn_handle c ≠ L4VMBLOCK_INVALID_HANDLE) as Hne.
  { rewrite Hh. rewrite (wf_nconn _ Hwf) in Hlt.
    unfold L4VMBLOCK_INVALID_HANDLE, L4VMBLOCK_MAX_DEVICES in *. lia. }
  destruct (wf_conn _ Hwf _ _ Hk) as [?|(_ & [b Hb] & _)]; [done|].
  assert (conn_dev c = {[+ b +]}) as Hd by (unfold conn_dev; by rewrite decide_False, Hb).
  apply wp_bind. eapply wp_run; [by apply get_conn_run|]. cbv beta. rewrite Hb.
  unfold put_conn, L4VMblock_conn_release, IVMblock_Control_detach_propagate_reply, emit.
  wp_steps. eapply wp_run; [apply get_conn_run; cbn; by rewrite zlookup_zinsert_eq|].
  wp_steps. apply answered_reply; [|ledger..|by split].
  eapply (server_wf_detach s _ h c); [done..| |cbn; by rewrite zinsert_zinsert|done| |];
    rewrite ?Hd; [done|ledger..].
Qed.

(** The probe reads the partition table with the client's minor number. *)
Lemma probe_answered cmd devid s :
  cmd_ready cmd s → server_wf s →
  wp (λ f, f = OutOfBounds ∨ f = NullDeref) (L4VMblock_probe_handler cmd devid)
    (λ _, answered (reply_to_tid cmd) s) s.
Proof.
  intros Hrdy Hwf. unfold L4VMblock_probe_handler, probe_disk, emit,
    IVMblock_Control_probe_propagate_reply. apply wp_bind.
  eapply wp_run; [by apply asserts_run|]. cbv beta. wp_steps; auto.
  all: simplify_eq; unfold emit.
  all: apply answered_reply; [|ledger..|by split].
  all: eapply server_wf_eq; [eassumption|ledger..].
Qed.

Lemma reattach_answered F cmd h s :
  cmd_ready cmd s → server_wf s →
  wp F (L4VMblock_reattach_handler cmd h) (λ _, answered (reply_to_tid cmd) s) s.
Proof.
  intros (Ht & Hd & Hs) Hwf. unfold L4VMblock_reattach_handler.
  rewrite bool_decide_eq_true_2 by done. wp_steps; try done.
  { by rewrite bool_decide_eq_true_2 in *. }
  eapply wp_run; [apply client_lookup_run, Hwf|]. cbv beta.
  destruct (client_find h s) as [k|] eqn:Hk.
  2:{ unfold IVMblock_Control_reattach_propagate_reply. reply_err. }
  apply client_find_Some in Hk as (c & -> & Hk & Hh).
  apply wp_bind. eapply wp_run; [by apply get_client_run|]. cbv beta.
  unfold IVMblock_Control_reattach_propagate_reply, emit. wp_steps; [done|]. simplify_eq.
  apply answered_reply; [|ledger..|by split]. eapply server_wf_eq; [eassumption|ledger..].
Qed.

(** A change of one client entry that was not in use keeps the tables
    consistent when its handle stays its own. *)
Lemma server_wf_client s s1 i c c' :
  server_wf s → zlookup (clients s) i = Some c → cl_handle c = L4VMBLOCK_INVALID_HANDLE →
  cl_handle c' = L4VMBLOCK_INVALID_HANDLE ∨ cl_handle c' = i →
  connections s1 = connections s → clients s1 = zinsert i c' (clients s) →
  held (trace s1) = held (trace s) → claimed (trace s1) = claimed (trace s) → server_wf s1.
Proof.
  intros [Hn Hm Hconn Hcl Hh Hc] Hi Hinv Hc' E1 E2 E3 E4. pose proof (zlookup_lt _ _ _ Hi) as Hlt.
  split; rewrite ?E1, ?E2, ?E3, ?E4, ?length_zinsert; try done.
  - intros k x Hx. destruct (Hconn k x Hx) as [?|(? & ? & ci & cl & ? & Hci & Hlive)]; [by left|].
    right. split_and!; [done..|]. exists ci.
    destruct (decide (i = ci)) as [->|]; [|exists cl; by rewrite zlookup_zinsert_ne].
    exfalso. rewrite Hm in Hlt. simplify_eq.
    unfold L4VMBLOCK_INVALID_HANDLE, L4VMBLOCK_MAX_CLIENTS in *. lia.
  - intros j x. rewrite zlookup_zinsert by done. case_decide; [|apply Hcl]. naive_solver.
Qed.

(** When the shared pages cannot be allocated, the reply is marshalled
    from NULL pointers. *)
Lemma register_answered cmd s :
  cmd_ready cmd s → server_wf s →
  wp (λ f, f = NullDeref) (L4VMblock_register_handler cmd) (λ _, answered (reply_to_tid cmd) s) s.
Proof.
  intros (Ht & Hd & Hs) Hwf. unfold L4VMblock_register_handler.
  rewrite bool_decide_eq_true_2 by done. wp_steps; try done.
  { by rewrite bool_decide_eq_true_2 in *. }
  destruct (allocate_client_run s) as [(i & c & Hi & Hinv & Hrun)|[Hnone Hrun]].
  all: eapply wp_run; [exact Hrun|]; cbv beta.
  2:{ unfold IVMblock_Control_register_propagate_reply. reply_err. }
  pose proof (zlookup_lt _ _ _ Hi) as Hlt.
  pose proof (zlookup_zinsert_eq (clients s) i (with_cl_handle i c) Hlt) as Hi1.
  apply wp_bind. eapply wp_run.
  { apply client_lookup_run. cbn. rewrite length_zinsert. apply Hwf. }
  unfold client_find. cbn [with_clients clients log]. rewrite Hi1.
  cbn [mbind option_bind with_cl_handle cl_handle]. rewrite decide_True by done.
  cbv beta. apply wp_bind, wp_mof_option; [done|intros ? [= <-]]. apply wp_bind, wp_mget.
  destruct (L4VM_get_client_space_info _ _ _ _) as [p t]. apply wp_bind, wp_mmodify. cbv zeta.
  apply wp_bind. eapply wp_run; [by apply get_client_run|]. cbv beta.
  apply wp_bind. unfold put_client at 1. apply wp_mmodify.
  destruct (mbind (space_deref t) p) as [sp|].
  - apply wp_bind, wp_mget. destruct (L4VM_fpage_alloc _ _) as [[err [info|]] evs].
    + apply wp_bind. eapply wp_run.
      { apply get_client_run. cbn. rewrite zinsert_zinsert. by apply zlookup_zinsert_eq. }
      cbv beta. unfold put_client, IVMblock_Control_register_propagate_reply, emit.
      wp_steps; [done|]. simplify_eq. apply answered_reply; [|ledger..|by split].
      eapply (server_wf_client s _ i c); [done..| |done| |ledger|ledger]; cbn; [|by rewrite !zinsert_zinsert].
      by right.
    + unfold L4VMblock_client_release. apply wp_bind, wp_bind. eapply wp_run.
      { apply get_client_run. cbn. rewrite zinsert_zinsert. by apply zlookup_zinsert_eq. }
      unfold put_client, IVMblock_Control_register_propagate_reply. by wp_steps.
  - unfold IVMblock_Control_register_propagate_reply, emit. wp_steps.
    apply answered_reply; [|ledger..|by split].
    eapply (server_wf_client s _ i c); [done..| |done| |ledger|ledger]; cbn; [|by rewrite !zinsert_zinsert].
    by right.
Qed.
End handlers.

(** The parameters a stub stores match the handler it publishes. *)
Definition params_match (h : block_handler) (p : block_params) : bool :=
  match h, p with
  | Hprobe, Pprobe _ | Hattach, Pattach _ _ _ | Hdetach, Pdetach _
  | Hregister, Pregister | Hreattach, Preattach _ => true
  | _, _ => false
  end.

(** The faults the code can run into: the partition index of a probe, and the
    reply of a registration for which no pages are left. *)
Definition ctl_fault (h : block_handler) (f : fault) : Prop :=
  match h with
  | Hprobe => f = OutOfBounds ∨ f = NullDeref
  | Hregister => f = NullDeref
  | _ => False
  end.

(** Every handler keeps the invariants and answers once. *)
Lemma control_handlers_answer {E : BlockEnv} {C : BlockCtl} (h : block_handler) (p : block_params)
    (tid : Z) (s : L4VMblock_server_t) :
  server_wf s → server_tid s ≠ 0 → tid ≠ 0 → params_match h p = true →
  wp (ctl_fault h) (run_handler h (mk_cmd (Some h) tid (Some p))) (λ _, answered tid s) s.
Proof.
  intros Hwf Hs Ht Hp.
  assert (cmd_ready (mk_cmd (Some h) tid (Some p)) s) as Hr by (split_and!; cbn; eauto).
  destruct h, p; try discriminate Hp; cbn [run_handler cmd_data ctl_fault].
  - by apply (probe_answered (mk_cmd _ tid _)).
  - by apply (attach_answered _ (mk_cmd _ tid _)).
  - by apply (detach_answered _ (mk_cmd _ tid _)).
  - by apply (register_answered (mk_cmd _ tid _)).
  - by apply (reattach_answered _ (mk_cmd _ tid _)).
Qed.

(** C15. Every command of the control interface, on every path through its
    error handling: the tables of clients and connections stay consistent, the
    devices open and claimed are exactly those of the attached connections (no
    error path leaks or over-releases a device), the caller gets exactly one
    reply, and the only faults are those of [ctl_fault]; attach, detach and
    reattach never fault. *)
Theorem control_handlers_ok {E : BlockEnv} {C : BlockCtl} (h : block_handler) (p : block_params)
    (tid : Z) (s : L4VMblock_server_t) :
  server_wf s → server_tid s ≠ 0 → tid ≠ 0 → params_match h p = true →
  wp (ctl_fault h) (run_handler h (mk_cmd (Some h) tid (Some p))) (λ _ s',
    server_wf s' ∧ server_tid s' = server_tid s ∧
    replies (trace s') = replies (trace s) ++ [tid]) s.
Proof. apply control_handlers_answer. Qed.

(** ** Registration when something runs out *)

Section register_failures.
Context {E : BlockEnv} {C : BlockCtl}.

(** Up to the lookup of the client's address space. *)
Lemma register_reserves s i c :
  server_wf s → free_slot (cl_handle <$> clients s) 0 = Some i →
  zlookup (clients s) i = Some c →
  L4VMblock_allocate_client_handle s
    = Ok (Some i) (with_clients (zinsert i (with_cl_handle i c) (clients s)) s) ∧
  L4VMblock_client_lookup i (with_clients (zinsert i (with_cl_handle i c) (clients s)) s)
    = Ok (Some i) (with_clients (zinsert i (with_cl_handle i c) (clients s)) s).
Proof.
  intros Hwf Hf Hi. pose proof (zlookup_lt _ _ _ Hi) as Hlt. split.
  - unfold L4VMblock_allocate_client_handle. erewrite bind_ok by done. cbv beta zeta.
    rewrite Hf. by mstep (get_client_run _ _ _ Hi).
  - rewrite client_lookup_run by (cbn; rewrite length_zinsert; apply Hwf).
    unfold client_find. cbn [with_clients clients]. rewrite zlookup_zinsert_eq by done.
    cbn. by rewrite decide_True.
Qed.

(** A registered client without shared pages. *)
Definition half_registered (i : Z) (s : L4VMblock_server_t) : Prop :=
  length (clients s) = L4VMBLOCK_MAX_CLIENTS ∧
  ∃ c, zlookup (clients s) i = Some c ∧ cl_handle c = i ∧ client_shared c = None.

Lemma get_shared_none i s : half_registered i s → get_shared i s = Err NullDeref.
Proof.
  intros (_ & c & Hc & _ & Hn). unfold get_shared. mstep (get_client_run _ _ _ Hc). by rewrite Hn.
Qed.

Lemma deliver_keeps i ci s :
  half_registered i s → client_find ci s = Some ci → ci ≠ i →
  wp (λ f, f = NullDeref) (L4VMblock_deliver_client_irq ci) (λ _, half_registered i) s.
Proof.
  intros Hh Hci Hne. apply client_find_Some in Hci as (cl & _ & Hcl & _).
  assert (∀ s0 cs c0, half_registered i s0 → zlookup (clients s0) ci = Some c0 →
    wp (λ f, f = NullDeref) (put_shared ci cs) (λ _ s', half_registered i s' ∧
      zlookup (clients s') ci = Some (with_shared cs c0)) s0) as Hput.
  { intros s0 cs c0 (Hl & c & Hc & ? & ?) Hc0. unfold put_shared. apply wp_bind.
    eapply wp_run; [by apply get_client_run|]. cbv beta. unfold put_client. wp_steps.
    pose proof (zlookup_lt _ _ _ Hc0). split; [|cbn; by rewrite zlookup_zinsert_eq].
    split; [cbn; by rewrite length_zinsert|]. exists c. cbn. by rewrite zlookup_zinsert_ne by done. }
  assert (∀ s0 c0, zlookup (clients s0) ci = Some c0 → ∀ Q,
    (∀ cs, client_shared c0 = Some cs → Q cs s0) → wp (λ f, f = NullDeref) (get_shared ci) Q s0) as Hget.
  { intros s0 c0 Hc0 Q HQ. unfold get_shared. apply wp_bind.
    eapply wp_run; [by apply get_client_run|]. cbv beta. by apply wp_mof_option. }
  unfold L4VMblock_deliver_client_irq. apply wp_bind. eapply Hget; [done|]. intros cs Hcs. cbv zeta.
  apply wp_bind. eapply wp_mono; [by eapply Hput|]. intros _ s1 [Hh1 Hc1]. cbv beta.
  destruct (client_irq_pending cs); [by apply wp_mret|].
  apply wp_bind. eapply wp_mono; [by eapply Hput|]. intros _ s2 [Hh2 Hc2]. cbv beta.
  unfold emit. wp_steps; [|exact Hh2].
  eapply Hget; [exact Hc2|]. intros cs2 _. cbv beta.
  eapply wp_mono; [by eapply (Hput (log _ s2))|]. intros _ s3 [? _]. done.
Qed.

Lemma notify_faults i s :
  ∀ n h, half_registered i s → h ≤ i < h + Z.of_nat n →
  wp (λ f, f = NullDeref) (notify_from h n) (λ _ _, False) s.
Proof.
  intros n. revert s. induction n as [|n IH]; intros s h Hh Hi; [lia|]. cbn [notify_from].
  apply wp_bind. eapply wp_run; [apply client_lookup_run, Hh|]. cbv beta. apply wp_bind.
  destruct (decide (h = i)) as [->|Hne].
  - assert (client_find i s = Some i) as ->.
    { destruct Hh as (_ & c & Hc & Hci & _). unfold client_find. rewrite Hc. cbn.
      by rewrite decide_True. }
    unfold L4VMblock_deliver_client_irq. apply wp_bind. unfold wp. by rewrite (get_shared_none _ _ Hh).
  - destruct (client_find h s) as [ci|] eqn:Hf.
    + pose proof (client_find_Some _ _ _ Hf) as (? & -> & _).
      eapply wp_mono; [by apply deliver_keeps|]. intros [] s' Hs'. apply IH; [done|lia].
    + wp_steps. apply IH; [done|lia].
Qed.
End register_failures.

Section register_failures_thm.
Context {E : BlockEnv} {C : BlockCtl}.

(** The run of a registration up to the answer of the space lookup. *)
Lemma register_prefix tid p s i c :
  server_wf s → server_tid s ≠ 0 → tid ≠ 0 →
  free_slot (cl_handle <$> clients s) 0 = Some i → zlookup (clients s) i = Some c →
  let s1 := with_clients (zinsert i (with_cl_handle i c) (clients s)) s in
  let '(q, t) := L4VM_get_client_space_info (rmon s1) (kmalloc_ok s1) tid (spaces s) in
  let space := q ≫= space_deref t in
  let c2 := mk_client i (client_shared c) (ring_info c) (bio_ring c) space (client_alloc_info c) in
  let s2 := with_clients (zinsert i c2 (clients s)) (with_spaces t s) in
  L4VMblock_register_handler (mk_cmd (Some Hregister) tid p) s =
    match space with
    | None => IVMblock_Control_register_propagate_reply tid None (Some ex_no_memory) s2
    | Some _ =>
        match L4VM_fpage_alloc (get_free_pages s2) (L4_SizeLog2_Fpage0 sizeof_client_shared) with
        | (_, None, _) => Err NullDeref
        | (_, Some info, _) =>
            let cs := init_shared (L4VMblock_server_irq s) (my_irq_tid s) (my_main_tid s)
                        (fresh_pages s2) in
            Ok tt (log (BReplyRegister tid
                     (Some (i, al_fpage info, al_fpage (server_alloc_info s))) None)
              (with_clients (zinsert i (mk_client i (Some cs)
                  (mk_ring IVMblock_descriptor_ring_size 0 0)
                  (replicate IVMblock_descriptor_ring_size None) space info) (clients s))
                (with_spaces t s)))
        end
    end.
Proof.
  intros Hwf Hs Ht Hf Hi s1. pose proof (zlookup_lt _ _ _ Hi) as Hlt.
  destruct (L4VM_get_client_space_info (rmon s1) (kmalloc_ok s1) tid (spaces s)) as [q t] eqn:Hsp.
  intros space c2 s2.
  destruct (register_reserves s i c) as [H1 H2]; [done..|].
  unfold L4VMblock_register_handler. cbn [reply_to_tid].
  erewrite bind_ok by (apply massert_ok; by rewrite bool_decide_eq_true_2). cbv beta.
  erewrite bind_ok by done. cbv beta.
  erewrite bind_ok by (apply massert_ok; by rewrite bool_decide_eq_true_2). cbv beta.
  fold s1 in H1, H2. mstep H1. mstep H2.
  cbn [mof_option]. mret_step. erewrite bind_ok by done. cbv beta.
  change (spaces s) with (spaces s1) in Hsp. rewrite Hsp. erewrite bind_ok by done. cbv beta zeta.
  assert (∀ x s0, zlookup (clients s0) i = Some x → ∀ {B} (k : _ → MS B),
    (get_client i ≫= k) s0 = k x s0) as Hget.
  { intros x s0 Hx B k. apply bind_ok. by apply get_client_run. }
  erewrite Hget by (cbn; by apply zlookup_zinsert_eq). cbv beta. erewrite bind_ok by done. cbv beta.
  replace (with_clients _ (with_spaces t s1)) with s2.
  2:{ unfold s2, s1, c2, with_clients, with_spaces. cbn. by rewrite zinsert_zinsert. }
  fold space. destruct space as [sp|] eqn:Hspace; [|done].
  erewrite bind_ok by done. cbv beta.
  destruct (L4VM_fpage_alloc _ _) as [[err [info|]] evs].
  - erewrite Hget by (unfold s2; cbn; by apply zlookup_zinsert_eq). cbv beta zeta.
    erewrite bind_ok by done. cbv beta. unfold IVMblock_Control_register_propagate_reply.
    cbn [mof_option]. mret_step. unfold emit, mmodify. do 2 f_equal.
    unfold s2, with_clients, with_spaces. cbn. by rewrite zinsert_zinsert.
  - unfold L4VMblock_client_release.
    erewrite bind_ok.
    2:{ erewrite Hget by (unfold s2; cbn; by apply zlookup_zinsert_eq). cbv beta. done. }
    done.
Qed.
End register_failures_thm.

(** A registration whose address-space lookup fails answers with an
    exception but keeps its client handle: the half-registered client has no
    shared pages, and the next run of the notification tasklet dereferences
    its NULL pointer. *)
Theorem register_failure_crashes_notify {E : BlockEnv} {C : BlockCtl} tid s i c :
  server_wf s → server_tid s ≠ 0 → tid ≠ 0 →
  free_slot (cl_handle <$> clients s) 0 = Some i → zlookup (clients s) i = Some c →
  client_shared c = None →
  (∀ s', (L4VM_get_client_space_info (rmon s') (kmalloc_ok s') tid (spaces s')).1 = None) →
  ∃ s', run_handler Hregister (mk_cmd (Some Hregister) tid (Some Pregister)) s = Ok tt s' ∧
    trace s' = trace s ++ [BReplyRegister tid None (Some ex_no_memory)] ∧
    L4VMblock_client_lookup i s' = Ok (Some i) s' ∧
    L4VMblock_notify_tasklet_handler s' = Err NullDeref.
Proof.
  intros Hwf Hs Ht Hf Hi Hn Hsp. pose proof (zlookup_lt _ _ _ Hi) as Hlt.
  pose proof (register_prefix tid (Some Pregister) s i c Hwf Hs Ht Hf Hi) as Hrun. cbv zeta in Hrun.
  set (s1 := with_clients (zinsert i (with_cl_handle i c) (clients s)) s) in *.
  specialize (Hsp s1). change (spaces s1) with (spaces s) in Hsp.
  destruct (L4VM_get_client_space_info _ _ _ _) as [q t]. cbn in Hsp. subst q.
  cbn [mbind option_bind] in Hrun. eexists. split; [exact Hrun|].
  match goal with |- trace ?s' = _ ∧ _ => assert (half_registered i s') as Hh end.
  { split; [cbn; rewrite length_zinsert; apply Hwf|]. eexists. cbn.
    split; [by apply zlookup_zinsert_eq|]. done. }
  split_and!; [done|..].
  - rewrite client_lookup_run by apply Hh. f_equal. unfold client_find.
    destruct Hh as (_ & c' & -> & ? & _). cbn. by rewrite decide_True.
  - apply wp_only_fault, (notify_faults i); [exact Hh|]. rewrite (wf_nclient _ Hwf) in Hlt. lia.
Qed.

(** A registration for which the shared pages cannot be allocated sets no
    exception, so its reply is marshalled from NULL pointers and the handler
    faults instead of reporting the failure. *)
Theorem register_no_pages_faults {E : BlockEnv} {C : BlockCtl} tid s i c :
  server_wf s → server_tid s ≠ 0 → tid ≠ 0 →
  free_slot (cl_handle <$> clients s) 0 = Some i → zlookup (clients s) i = Some c →
  (∀ s', let '(q, t) := L4VM_get_client_space_info (rmon s') (kmalloc_ok s') tid (spaces s') in
         is_Some (q ≫= space_deref t)) →
  (∀ s' evs order, get_free_pages s' evs order = 0) →
  run_handler Hregister (mk_cmd (Some Hregister) tid (Some Pregister)) s = Err NullDeref.
Proof.
  intros Hwf Hs Ht Hf Hi Hsp Hgfp. cbn [run_handler].
  pose proof (register_prefix tid (Some Pregister) s i c Hwf Hs Ht Hf Hi) as Hrun. cbv zeta in Hrun.
  set (s1 := with_clients (zinsert i (with_cl_handle i c) (clients s)) s) in *.
  specialize (Hsp s1). change (spaces s1) with (spaces s) in Hsp.
  destruct (L4VM_get_client_space_info _ _ _ _) as [q t]. destruct Hsp as [sp Hsp].
  rewrite Hsp in Hrun. rewrite Hrun. unfold L4VM_fpage_alloc. by rewrite Hgfp.
Qed.

(** ** A sample server: no clients, sixteen free connections *)

#[local] Instance ctl_env : BlockEnv := {|
  bio_alloc := λ s _, Some (fresh (dom (bios s)));
  bus_to_phys := λ a, a;
  virt_addr_valid := λ _, true;
  send_virq_failed := λ _, false;
  open_by_devnum := λ _ _ _, Some 1;
  bd_claim := λ _ _, 0;
  set_blocksize := λ _ _ _, 0;
  bio_alloc_fresh := fresh_bio;
  bio_alloc_one := λ s, ltac:(eauto)
|}.
Definition blank_desc : IVMblock_ring_descriptor_t :=
  mk_desc (mk_status true true true true) 9 9 9 9 9 None [].
Definition blank_shared : IVMblock_client_shared_t :=
  mk_shared 0 0 0 1 true 0 0 0 [] 0 (replicate IVMblock_descriptor_ring_size blank_desc).
Definition ctl_sample (space_ok : bool) (pages : Z) (disk : option gendisk) : BlockCtl := {|
  rmon := λ _, {| rm_tid_to_space_id := λ t, (if space_ok then CORBA_NO_EXCEPTION
                                             else CORBA_USER_EXCEPTION, t);
                  rm_space_phys_range := λ _, (CORBA_NO_EXCEPTION, (1048576, 1048576));
                  rm_client_phys_range := λ _, (CORBA_NO_EXCEPTION, (1048576, 1048576)) |};
  kmalloc_ok := λ _, true;
  get_free_pages := λ _ _ _, pages;
  fresh_pages := λ _, blank_shared;
  bd_disk := λ _ _, disk
|}.
Definition idle_cmds : block_cmd_ring := mk_cmd_ring 0 0 false 5 (replicate 8 (mk_cmd None 0 None)).
Definition no_alloc : L4VM_alligned_alloc_t := mk_alloc 0 0 (0, 0).
Definition idle_server : L4VMblock_server_t :=
  mk_server 5 11 10 (mk_irq 0 false) 255 7 (mk_irq 0 false) no_alloc idle_cmds idle_cmds
    (replicate 16 (mk_conn L4VMBLOCK_INVALID_HANDLE None None 0 (0, 0)))
    (replicate 8 (mk_client L4VMBLOCK_INVALID_HANDLE None (mk_ring 0 0 0) [] None no_alloc))
    ∅ [] [].

Lemma zlookup_replicate_inv {A} n (x y : A) i : zlookup (replicate n x) i = Some y → y = x.
Proof. unfold zlookup. case_decide; [|done]. by intros [-> _]%lookup_replicate. Qed.

Lemma idle_server_wf : server_wf idle_server.
Proof.
  split; try reflexivity.
  - intros k c ->%zlookup_replicate_inv. by left.
  - intros k c ->%zlookup_replicate_inv. by left.
Qed.

Lemma control_handlers_ok_witness :
  let h := run_handler (C := ctl_sample true 65536 None) Hregister
             (mk_cmd (Some Hregister) 33 (Some Pregister)) idle_server in
  ∃ s', h = Ok tt s' ∧ replies (trace s') = [33].
Proof.
  pose proof (control_handlers_ok (C := ctl_sample true 65536 None) Hregister Pregister 33 idle_server
    idle_server_wf ltac:(done) ltac:(done) eq_refl) as Hw.
  cbv zeta. unfold wp in Hw. destruct (run_handler _ _ _) as [[] s'|f] eqn:Hr.
  - exists s'. destruct Hw as (_ & _ & Hw). split; [done|exact Hw].
  - vm_compute in Hr. discriminate Hr.
Defined.

Lemma register_failure_crashes_notify_witness :
  ∃ s', run_handler (C := ctl_sample false 65536 None) Hregister
          (mk_cmd (Some Hregister) 33 (Some Pregister)) idle_server = Ok tt s' ∧
    L4VMblock_notify_tasklet_handler s' = Err NullDeref.
Proof.
  destruct (register_failure_crashes_notify (C := ctl_sample false 65536 None) 33 idle_server 0
    (mk_client L4VMBLOCK_INVALID_HANDLE None (mk_ring 0 0 0) [] None no_alloc)) as (s' & H1 & _ & _ & H2);
    [apply idle_server_wf|done..|].
  exists s'. split; [exact H1|exact H2].
Defined.

Lemma register_no_pages_faults_witness :
  run_handler (C := ctl_sample true 0 None) Hregister
    (mk_cmd (Some Hregister) 33 (Some Pregister)) idle_server = Err NullDeref.
Proof.
  apply (register_no_pages_faults (C := ctl_sample true 0 None) 33 idle_server 0
    (mk_client L4VMBLOCK_INVALID_HANDLE None (mk_ring 0 0 0) [] None no_alloc));
    [apply idle_server_wf|done..| |done].
  intros s'. unfold L4VM_get_client_space_info, L4VM_tid_to_space_id. cbn.
  unfold L4VM_get_space_info. destruct (space_find 33 (spaces s')) as [p|] eqn:Hp.
  - apply space_find_spec in Hp as (_ & _ & _ & Hlt). cbn -[space_deref].
    rewrite ?bool_decide_eq_true_2 by done. cbn -[space_deref]. unfold space_deref.
    apply lookup_lt_is_Some. by rewrite length_reverse, length_space_ref.
  - cbn -[space_deref]. rewrite !bool_decide_eq_true_2 by done. cbn -[space_deref].
    unfold space_deref. rewrite reverse_cons, lookup_app_r by (rewrite length_reverse; lia).
    rewrite length_reverse, Nat.sub_diag. eauto.
Defined.
