(* ===== verification/BlockLifecycle.v ===== *)
(** * The block-device server: from initialisation to a running client

    The module initialisation establishes the invariants of CmdRing.v and
    BlockControl.v; a call of the control interface travels from its stub over
    the command ring to its handler and is answered; a registration puts the
    ring into the initial state of the protocol of BlockProtocol.v; and what a
    probe tells the client about the size of a disk. *)

From stdpp Require Import base list gmap gmultiset numbers.
From Stdlib Require Import ZArith Lia.
From S2P Require Import Prelude CmdRing VmMemory Block BlockClient BlockView BlockProtocol BlockServer BlockControl.

(** ** Initialisation *)

Lemma conn_devs_invalid l : (∀ c, c ∈ l → cn_handle c = L4VMBLOCK_INVALID_HANDLE) → conn_devs l = ∅.
Proof.
  induction l as [|c l IH]; [done|]. intros Hl. simpl. rewrite IH by set_solver.
  unfold conn_dev. rewrite decide_True by set_solver. multiset_solver.
Qed.

(** The initialisation of the block server either fails with an error
    code or leaves it ready: consistent tables, two empty command rings, no
    pending interrupt, a valid server thread and interrupt number. *)
Theorem server_init_ready {C : BlockCtl} irq_gtid main_gtid request_irq thread s :
  length (connections s) = L4VMBLOCK_MAX_DEVICES → length (clients s) = L4VMBLOCK_MAX_CLIENTS →
  length (cmds (top_half_cmds s)) = L4VM_SERVER_CMD_RING_LEN →
  length (cmds (bottom_half_cmds s)) = L4VM_SERVER_CMD_RING_LEN → trace s = [] →
  wp no_fault (L4VMblock_server_init_module irq_gtid main_gtid request_irq thread) (λ err s',
    err = 0 ∧ server_wf s' ∧ ring_queue false [] (top_half_cmds s') ∧
      ring_queue false [] (bottom_half_cmds s') ∧ server_tid s' ≠ 0 ∧
      sv_irq s' = mk_irq 0 false ∧ server_info s' = mk_irq 0 false ∧ L4VMblock_server_irq s' ≠ 0
    ∨ err < 0) s.
Proof.
  intros Hn Hm Ht Hb Htr. unfold L4VMblock_server_init_module. wp_steps.
  - right. by rewrite bool_decide_eq_true in *.
  - right. unfold ENOMEM. lia.
  - left. rewrite !bool_decide_eq_false in *. split_and!; try done.
    + split; cbn; rewrite ?length_fmap; auto; rewrite ?Htr.
      * intros k c. rewrite zlookup_fmap. destruct (zlookup _ _); [|done]. intros [= <-]. by left.
      * intros k c. rewrite zlookup_fmap. destruct (zlookup _ _); [|done]. intros [= <-]. by left.
      * rewrite conn_devs_invalid; [done|]. intros c (? & -> & _)%list_elem_of_fmap. done.
      * rewrite conn_devs_invalid; [done|]. intros c (? & -> & _)%list_elem_of_fmap. done.
    + exists 0%nat. by apply init_repr.
    + exists 0%nat. by apply init_repr.
    + cbn. by case_bool_decide.
  - right. unfold L4VM_fpage_alloc in *. repeat case_bool_decide; simplify_eq; unfold ENOMEM; lia.
Qed.

Lemma server_init_ready_witness :
  ∃ s', L4VMblock_server_init_module (C := ctl_sample true 65536 None) 11 10 0 5 idle_server
    = Ok 0 s' ∧ server_wf s'.
Proof.
  pose proof (server_init_ready (C := ctl_sample true 65536 None) 11 10 0 5 idle_server
    eq_refl eq_refl eq_refl eq_refl eq_refl) as Hw.
  unfold wp in Hw. destruct (L4VMblock_server_init_module _ _ _ _ _) as [err s'|] eqn:Hr; [|done].
  assert (err = 0) as -> by (vm_compute in Hr; congruence).
  exists s'. split; [done|]. destruct Hw as [(_ & Hw & _)|Hw]; [exact Hw|lia].
Defined.

(** ** A call of the control interface *)

Section calls.
Context {E : BlockEnv} {C : BlockCtl}.

Definition cmd_ok (c : block_cmd) : Prop :=
  reply_to_tid c ≠ 0 ∧ ∃ h p, handler c = Some h ∧ cmd_data c = Some p ∧ params_match h p = true.

Lemma log_wf es s : server_wf s → server_wf (foldl (λ s e, log (BL4 e) s) s es).
Proof.
  revert s. induction es as [|e es IH]; [done|]. intros s Hs. apply IH.
  eapply server_wf_eq; [exact Hs|..]; cbn; rewrite ?held_snoc, ?claimed_snoc; done.
Qed.
Lemma log_replies es s :
  replies (trace (foldl (λ s e, log (BL4 e) s) s es)) = replies (trace s).
Proof.
  revert s. induction es as [|e es IH]; [done|]. intros s. cbn [foldl]. rewrite IH. cbn.
  rewrite replies_snoc. simpl. by rewrite app_nil_r.
Qed.
Lemma log_same {A} (f : L4VMblock_server_t → A) es s :
  (∀ e s, f (log e s) = f s) → f (foldl (λ s e, log (BL4 e) s) s es) = f s.
Proof. intros Hf. revert s. induction es as [|e es IH]; [done|]. intros s. cbn [foldl]. by rewrite IH. Qed.

(** Running a queue of commands answers all of them, in order. *)
Lemma run_queue_answers q s s' :
  Forall cmd_ok q → server_wf s → server_tid s ≠ 0 →
  foldl (run_cmd run_cmd_res) (Ok tt s) q = Ok tt s' →
  server_wf s' ∧ server_tid s' = server_tid s ∧
  replies (trace s') = replies (trace s) ++ (reply_to_tid <$> q).
Proof.
  intros Hq. revert s. induction Hq as [|c q (Ht & h & p & Hh & Hp & Hm) Hq IH]; intros s Hwf Hs.
  - intros [= ->]. by rewrite app_nil_r.
  - cbn [foldl]. unfold run_cmd at 2. rewrite Hh. cbn [run_cmd_res].
    pose proof (control_handlers_answer h p (reply_to_tid c) s Hwf Hs Ht Hm) as Hw.
    replace (mk_cmd (Some h) (reply_to_tid c) (Some p)) with c in Hw by (destruct c; naive_solver).
    unfold wp in Hw. destruct (run_handler h c s) as [[] s1|f].
    + destruct Hw as (Hwf1 & Ht1 & Hr1). intros Hf. destruct (IH s1 Hwf1) as (? & ? & Hr); [congruence|done|].
      split_and!; [done|congruence|]. rewrite Hr, Hr1, fmap_cons, <- app_assoc. done.
    + assert (∀ l, foldl (run_cmd run_cmd_res) (Err f) l = Err f) as ->; [|done].
      intros l. induction l as [|c' l IHl]; [done|]. cbn. unfold run_cmd at 2.
      destruct (handler c'); exact IHl.
Qed.
End calls.


(** The ring after a stub queued the registration of client thread 33. *)
Definition called_server : L4VMblock_server_t :=
  ok_state (IVMblock_Control_register_implementation (λ _ r w s, (false, (r, w, s))) false 1 33 idle_server)
    idle_server.

Lemma called_server_queue :
  ring_queue false [mk_cmd (Some Hregister) 33 (Some Pregister)] (bottom_half_cmds called_server).
Proof.
  exists 0%nat. split; try reflexivity.
  - cbn. unfold L4VM_SERVER_CMD_RING_LEN. lia.
  - intros i c Hq. apply lookup_lt_Some in Hq as Hi. simpl in Hi.
    destruct i as [|i]; [|lia]. injection Hq as <-. vm_compute. eauto.
  - intros i Hi. simpl in Hi. unfold L4VM_SERVER_CMD_RING_LEN in Hi.
    destruct i as [|i]; [lia|].
    do 7 (destruct i as [|i]; [eexists; split; vm_compute; reflexivity|]). lia.
Qed.


(** ** The stubs *)

(** A control stub with a free command slot returns without waiting; the
    command it leaves is appended to the ring with its caller, parameters and
    handler, the bottom-half event is set, and an interrupt is sent unless one
    is already pending. *)
Theorem control_stub_queues ipc failed fuel caller params h
    (q : list block_cmd) s :
  ring_queue false q (bottom_half_cmds s) → (length q < L4VM_SERVER_CMD_RING_LEN)%nat →
  irq_mask s = 2 ^ 32 - 1 → 0 ≤ irq_status (sv_irq s) < 2 ^ 32 →
  ∃ s', control_stub ipc failed (S fuel) caller params h s = Ok tt s' ∧
    ring_queue false (q ++ [mk_cmd (Some h) caller (Some params)]) (bottom_half_cmds s') ∧
    Z.testbit (irq_status (sv_irq s')) 0 = true ∧ irq_pending (sv_irq s') = true ∧
    (irq_pending (sv_irq s) = false →
       BL4 (EvSendVirq (L4VMblock_server_irq s) (my_irq_tid s)) ∈ trace s').
Proof.
  intros [p Hp] Hlen Hmask Hst.
  destruct (ring_repr_free_slot _ _ _ Hp) as (c & Hc & Hiff).
  pose proof (rr_free _ _ _ _ Hp) as Hfree. rewrite Nat.add_0_r in Hfree.
  pose proof (ring_repr_reserve _ _ _ Hp Hlen) as Hres.
  set (r1 := set_next_free (ring_succ (next_free (bottom_half_cmds s))) (bottom_half_cmds s)) in *.
  pose proof (ring_repr_fill _ _ _ caller params Hres) as Hfill.
  rewrite <- Hfree in Hfill.
  assert (zlookup (cmds (cmd_fill (next_free (bottom_half_cmds s)) caller params r1)) (next_free (bottom_half_cmds s))
    = Some (mk_cmd None caller (Some params))) as Hc1.
  { unfold cmd_fill. change (cmds r1) with (cmds (bottom_half_cmds s)). rewrite Hc.
    rewrite (proj2 Hiff Hlen). cbn. apply zlookup_zinsert_eq. by eapply zlookup_lt. }
  rewrite Hfree in Hc1 at 2. pose proof (ring_repr_publish _ _ _ h _ Hfill Hc1) as Hpub.
  rewrite <- Hfree in Hpub. cbn [reply_to_tid cmd_data] in Hpub.
  unfold control_stub.
  erewrite (bind_ok _ _ s).
  2:{ unfold L4VMblock_cmd_allocate_bottom, L4VM_server_cmd_allocate. cbn [L4VM_server_cmd_allocate_loop].
      rewrite Hc. cbn [mbind option_bind]. rewrite (proj2 Hiff Hlen). cbn [foldl]. reflexivity. }
  cbv beta. erewrite bind_ok by done. cbv beta. erewrite bind_ok by done. cbv beta.
  cbn [bottom_half_cmds with_bottom].
  unfold L4VMblock_deliver_irq. erewrite bind_ok by done. cbv beta. cbn [sv_irq my_irq_tid
    L4VMblock_server_irq irq_mask with_bottom with_irqs].
  unfold L4VM_server_deliver_irq. rewrite Hmask. unfold L4VMBLOCK_IRQ_BOTTOM_HALF_CMD.
  assert (0 ≤ Z.lor (irq_status (sv_irq s)) 1 < 2 ^ 32) as Hr.
  { split; [apply Z.lor_nonneg; lia|]. apply Z.log2_lt_pow2.
    - pose proof (Z.lor_nonneg (irq_status (sv_irq s)) 1).
      destruct (decide (Z.lor (irq_status (sv_irq s)) 1 = 0)) as [Hz|]; [|lia].
      apply Z.lor_eq_0_iff in Hz. lia.
    - rewrite Z.log2_lor by lia. apply Z.max_lub_lt; [|reflexivity].
      destruct (decide (irq_status (sv_irq s) = 0)) as [->|]; [reflexivity|]. apply Z.log2_lt_pow2; lia. }
  rewrite wrap_small by exact Hr.
  assert (Z.testbit (Z.lor (irq_status (sv_irq s)) 1) 0 = true) as Hbit by (by rewrite Z.lor_spec, orb_true_r).
  assert (Z.land (Z.lor (irq_status (sv_irq s)) 1) (2 ^ 32 - 1) ≠ 0) as Hnz.
  { change (2 ^ 32 - 1) with (Z.ones 32). rewrite Z.land_ones, Z.mod_small by lia.
    intros Hz. by rewrite Hz in Hbit. }
  rewrite bool_decide_eq_false_2 by exact Hnz. cbn [negb andb].
  destruct (irq_pending (sv_irq s)) eqn:Hpend; cbn [negb].
  - eexists. split; [done|]. cbn. split_and!; [by exists p|done..].
  - eexists. split; [done|]. cbn.
    destruct failed; cbn; split_and!; try done; try (by exists p); intros _; set_solver.
Qed.

(** The sample server as its initialisation leaves it. *)
Definition ready_server : L4VMblock_server_t :=
  ok_state (L4VMblock_server_init_module (C := ctl_sample true 65536 None) 11 10 0 5 idle_server)
    idle_server.

Lemma ready_server_rings :
  ring_queue false [] (bottom_half_cmds ready_server) ∧ ring_queue false [] (top_half_cmds ready_server).
Proof. split; exists 0%nat; by apply init_repr. Qed.

Lemma control_stub_queues_witness :
  ∃ s', control_stub (λ _ r w s, (false, (r, w, s))) false 1 33 (Pdetach 2) Hdetach ready_server = Ok tt s' ∧
    ring_queue false [mk_cmd (Some Hdetach) 33 (Some (Pdetach 2))] (bottom_half_cmds s').
Proof.
  destruct (control_stub_queues (λ _ r w s, (false, (r, w, s))) false 0 33 (Pdetach 2) Hdetach [] ready_server)
    as (s' & H1 & H2 & _);
    [apply ready_server_rings|cbn; unfold L4VM_SERVER_CMD_RING_LEN; lia|reflexivity|vm_compute; split; congruence|].
  exists s'. split; [exact H1|exact H2].
Defined.

(** ** The interrupt handler *)

(** One invocation of the interrupt handler takes at most two rounds: it
    consumes both event words, schedules the I/O dispatch exactly when a client
    raised an event and the bottom half exactly when a command was queued, and,
    if it found any event, re-enables interrupt delivery. When it finds no
    event it leaves both pending flags as they were. *)
Theorem irq_handler_two_rounds {E : BlockEnv} {C : BlockCtl} fuel s :
  ring_queue false [] (top_half_cmds s) → wake_server (top_half_cmds s) = false →
  let ev := irq_status (sv_irq s) in
  let cev := irq_status (server_info s) in
  ∃ s', L4VMblock_irq_handler (S (S fuel)) s = Ok tt s' ∧
    irq_status (sv_irq s') = 0 ∧ irq_status (server_info s') = 0 ∧
    trace s' = trace s
      ++ (if decide (cev ≠ 0) then [BScheduleDispatch] else [])
      ++ (if decide (Z.land ev L4VMBLOCK_IRQ_BOTTOM_HALF_CMD ≠ 0) then [BScheduleBottomHalf] else []) ∧
    if decide (ev = 0 ∧ cev = 0)
    then irq_pending (sv_irq s') = irq_pending (sv_irq s) ∧
         irq_pending (server_info s') = irq_pending (server_info s)
    else irq_pending (sv_irq s') = false ∧ irq_pending (server_info s') = false.
Proof.
  intros [p Hp] Hwake ev cev. destruct (ring_repr_nil _ _ _ Hp) as (c & Hc & Hh).
  assert (∀ s0, top_half_cmds s0 = top_half_cmds s → dispatch_cmds top_half_cmds with_top s0 = Ok tt s0) as Hdisp.
  { intros s0 H0. unfold dispatch_cmds, L4VM_server_cmd_dispatcher.
    cbn [L4VM_server_cmd_dispatch_loop]. rewrite H0, Hc. cbn [mbind option_bind]. rewrite Hh.
    cbn [mbind option_bind]. rewrite Hwake. cbn [foldl]. rewrite <- H0. by destruct s0. }
  assert (∀ s0, irq_status (sv_irq s0) = 0 → irq_status (server_info s0) = 0 →
    L4VMblock_irq_handler (S fuel) s0 = Ok tt s0) as Hstop.
  { intros s0 E1 E2. cbn [L4VMblock_irq_handler]. erewrite bind_ok by done. cbv beta.
    cbn [irq_status_reset]. rewrite E1, E2. erewrite bind_ok by done. cbv beta.
    rewrite !bool_decide_eq_true_2 by done. cbn [andb]. destruct s0 as [? ? ? [] ? ? []]. cbn in *.
    subst. done. }
  remember (S fuel) as n. cbn [L4VMblock_irq_handler]. erewrite bind_ok by done. cbv beta.
  cbn [irq_status_reset]. fold ev cev. erewrite bind_ok by done. cbv beta.
  destruct (decide (ev = 0 ∧ cev = 0)) as [[-> ->]|Hne].
  { rewrite !bool_decide_eq_true_2 by done. cbn [andb]. eexists. split; [done|].
    cbn. by rewrite app_nil_r. }
  assert (bool_decide (ev = 0) && bool_decide (cev = 0) = false) as ->.
  { repeat case_bool_decide; naive_solver. }
  erewrite bind_ok by done. cbv beta.
  repeat case_bool_decide; repeat (case_decide; try done);
    repeat first [erewrite bind_ok by done; cbv beta | erewrite bind_ok by (by apply Hdisp); cbv beta];
    (eexists; split; [by apply Hstop|]; cbn; rewrite <- ?app_assoc, ?app_nil_r; done).
Qed.

Lemma irq_handler_two_rounds_witness :
  ∃ s', L4VMblock_irq_handler (E := ctl_env) (C := ctl_sample true 65536 None) 2
          (with_irqs (mk_irq 1 true) (mk_irq 1 true) ready_server) = Ok tt s' ∧
    trace s' = [BScheduleDispatch; BScheduleBottomHalf] ∧ irq_pending (server_info s') = false.
Proof.
  destruct (irq_handler_two_rounds (E := ctl_env) (C := ctl_sample true 65536 None) 0
    (with_irqs (mk_irq 1 true) (mk_irq 1 true) ready_server)) as (s' & H1 & _ & _ & H2 & _ & H3);
    [apply ready_server_rings|reflexivity|].
  exists s'. split_and!; [exact H1|exact H2|exact H3].
Defined.

(** ** Registration starts the ring protocol *)

(** What the client holds after its own part of the registration. *)
Lemma client_register_ok reply mapped ioremap csz ssz cl cl' :
  L4VMblock_client_register reply mapped ioremap csz ssz cl = Ok 0 cl' →
  (∃ c0, bc_shared cl' = init_client_data (mapped c0).1) ∧
  desc_ring_info cl' = mk_ring IVMblock_descriptor_ring_size 0 0 ∧ shadow_ring cl' = shadow_ring cl.
Proof.
  intros Hrun.
  assert (wp any_fault (L4VMblock_client_register reply mapped ioremap csz ssz) (λ r c',
    r = 0 → (∃ c0, bc_shared c' = init_client_data (mapped c0).1) ∧
      desc_ring_info c' = mk_ring IVMblock_descriptor_ring_size 0 0 ∧ shadow_ring c' = shadow_ring cl) cl) as Hw.
  { unfold L4VMblock_client_register. destruct (L4VM_fpage_vmarea_get _ _) as [[err [w|]] evs] eqn:Hv.
    - unfold cemit. wp_steps; try (unfold EIO; lia). intros _. cbn. eauto.
    - wp_steps. intros ->. unfold L4VM_fpage_vmarea_get in Hv. cbn in Hv.
      repeat case_bool_decide; unfold ENOMEM in *; simplify_eq. }
  unfold wp in Hw. rewrite Hrun in Hw. auto.
Qed.

Lemma init_client_data_lookup cs i d :
  zlookup (desc_ring cs) i = Some d →
  zlookup (desc_ring (init_client_data cs)) i = Some (with_client_data (Z.to_nat i) d).
Proof.
  unfold zlookup. case_decide; [|done]. intros Hd. cbn. by rewrite list_lookup_imap, Hd.
Qed.

(** C32. A successful registration, followed by the client's own
    initialisation of the shared page the reply maps, is an initial state of
    the ring protocol: all descriptors are client-owned and tied to their
    shadow entries, both views of the ring are empty. Its theorems
    (request integrity, absence of faults) apply from there on. *)
Theorem registration_starts_protocol {E : BlockEnv} {C : BlockCtl} tid s s' i c ioremap csz ssz
    (reply : L4VMblock_client_t → corba_major * (Z * Z * Z)) mapped (cl cl' : L4VMblock_client_t) :
  server_wf s → server_tid s ≠ 0 → tid ≠ 0 → bios s = ∅ →
  free_slot (cl_handle <$> clients s) 0 = Some i → zlookup (clients s) i = Some c →
  (∀ s0, length (desc_ring (fresh_pages s0)) = IVMblock_descriptor_ring_size) →
  length (shadow_ring cl) = IVMblock_descriptor_ring_size →
  run_handler Hregister (mk_cmd (Some Hregister) tid (Some Pregister)) s = Ok tt s' →
  (∃ cs, srv_page i s' = Some cs ∧ ∀ c0, (mapped c0).1 = cs) →
  (∀ ex, BReplyRegister tid None ex ∉ trace s') →
  L4VMblock_client_register reply mapped ioremap csz ssz cl = Ok 0 cl' →
  ∃ sp info, is_Some sp ∧
    jinitial i (set_page i (bc_shared cl') s') i (bc_shared cl') sp info
      (mk_joint (set_page i (bc_shared cl') s') cl' (replicate IVMblock_descriptor_ring_size None) ∅ [] [] 0).
Proof.
  intros Hwf Hs Ht Hbios Hf Hi Hfresh Hsh Hrun (cs & Hcs & Hmap) Hnoex Hcl.
  pose proof (zlookup_lt _ _ _ Hi) as Hlt. cbn [run_handler] in Hrun.
  pose proof (register_prefix tid (Some Pregister) s i c Hwf Hs Ht Hf Hi) as Hp. cbv zeta in Hp.
  destruct (L4VM_get_client_space_info _ _ _ _) as [q t]. rewrite Hrun in Hp. clear Hrun.
  destruct (mbind (space_deref t) q) as [sp|] eqn:Hsp.
  2:{ exfalso. injection Hp as ->. eapply Hnoex. cbn. apply elem_of_app. right. by left. }
  destruct (L4VM_fpage_alloc _ _) as [[err [info|]] evs]; [|done]. injection Hp as ->.
  unfold srv_page in Hcs. cbn -[replicate] in Hcs. rewrite zlookup_zinsert_eq in Hcs by done. injection Hcs as Hcs.
  destruct (client_register_ok _ _ _ _ _ _ _ Hcl) as ((c0 & Hsh') & Hring & Hshad).
  rewrite Hmap in Hsh'. exists (Some sp), info. split; [by eexists|].
  assert (length (desc_ring cs) = IVMblock_descriptor_ring_size) as Hlen.
  { rewrite <- Hcs. cbn. by rewrite length_fmap. }
  exists (desc_ring (bc_shared cl')), (trace s ++ [BReplyRegister tid
    (Some (i, al_fpage info, al_fpage (server_alloc_info s))) None]).
  split_and!; try done.
  - unfold set_page. cbn -[replicate]. rewrite zlookup_zinsert_eq by done. unfold view, view_client, with_clients.
    cbn -[replicate]. rewrite Hbios, !zinsert_zinsert. unfold with_shared. cbn -[replicate].
    by destruct (bc_shared cl').
  - cbn [j_cl]. by rewrite Hshad.
  - rewrite Hsh'. cbn. by rewrite length_imap.
  - intros k Hk. destruct (zlookup_is_Some (desc_ring cs) k) as [d Hd]; [lia|].
    exists (with_client_data (Z.to_nat k) d). rewrite Hsh', (init_client_data_lookup _ _ _ Hd).
    split_and!; [done| |cbn; f_equal; lia]. rewrite <- Hcs in Hd. cbn in Hd.
    rewrite zlookup_fmap in Hd. destruct (zlookup _ k); [|done]. by injection Hd as <-.
Qed.

(** The registration of thread 33 at the idle server, and the client's part. *)
Definition registered_server : L4VMblock_server_t :=
  ok_state (run_handler (E := ctl_env) (C := ctl_sample true 65536 None) Hregister
    (mk_cmd (Some Hregister) 33 (Some Pregister)) idle_server) idle_server.
Definition registered_page : IVMblock_client_shared_t :=
  default blank_shared (srv_page 0 registered_server).
Definition new_client : L4VMblock_client_t :=
  mk_bclient (mk_vmarea None (0, 0)) 5 0 blank_shared (mk_irq 0 false) (mk_ring 0 0 0)
    (replicate IVMblock_descriptor_ring_size (mk_shadow None None)) [] ∅ [].
Definition client_side : res L4VMblock_client_t Z :=
  L4VMblock_client_register (λ _, (CORBA_NO_EXCEPTION, (0, 0, 32768)))
    (λ _, (registered_page, mk_irq 0 false)) (λ _ _, 1048576) 32768 4096 new_client.

Lemma registration_starts_protocol_witness :
  ∃ cl' sp info, client_side = Ok 0 cl' ∧ is_Some sp ∧
    jinitial 0 (set_page 0 (bc_shared cl') registered_server) 0 (bc_shared cl') sp info
      (mk_joint (set_page 0 (bc_shared cl') registered_server) cl'
         (replicate IVMblock_descriptor_ring_size None) ∅ [] [] 0).
Proof.
  destruct client_side as [r cl'|f] eqn:Hc; [|vm_compute in Hc; discriminate Hc].
  assert (r = 0) as -> by (vm_compute in Hc; congruence).
  exists cl'.
  destruct (registration_starts_protocol (E := ctl_env) (C := ctl_sample true 65536 None) 33 idle_server
    registered_server 0 (mk_client L4VMBLOCK_INVALID_HANDLE None (mk_ring 0 0 0) [] None no_alloc)
    (λ _ _, 1048576) 32768 4096 (λ _, (CORBA_NO_EXCEPTION, (0, 0, 32768)))
    (λ _, (registered_page, mk_irq 0 false)) new_client cl') as (sp & info & Hsp & Hj);
    try done; try exact idle_server_wf.
  - exists registered_page. split; [vm_compute; reflexivity|done].
  - intros ex Hin. vm_compute in Hin.
    apply list_elem_of_singleton in Hin. discriminate Hin.
  - exists sp, info. split_and!; done.
Defined.

(** ** Disk sizes *)

Lemma client_probe_capacity d kdev minor cl :
  0 ≤ minor < length (descriptors cl) →
  ∃ cl' dk, L4VMblock_probe_device (λ _ _, (CORBA_NO_EXCEPTION, d)) true true kdev minor cl = Ok 0 cl' ∧
    zlookup (descriptors cl') minor = Some dk ∧ dk_capacity dk = u32 (device_size d * 2).
Proof.
  intros Hm. destruct (zlookup_is_Some (descriptors cl) minor Hm) as [x Hx].
  unfold L4VMblock_probe_device. do 2 (erewrite bind_ok by done; cbv beta). cbn [fst snd negb].
  assert (∀ y c0, zlookup (descriptors c0) minor = Some y → disk_load minor c0 = Ok y c0) as Hload.
  { intros y c0 Hy. unfold disk_load, mgets, mbind, M_bind. by rewrite Hy. }
  erewrite bind_ok by (by apply Hload). cbv beta. erewrite bind_ok by done. cbv beta.
  erewrite bind_ok by (apply Hload; by apply zlookup_zinsert_eq). cbv beta. erewrite bind_ok by done. cbv beta.
  do 2 eexists. split; [done|]. cbn. rewrite zlookup_zinsert_eq; [done|]. by rewrite length_zinsert.
Qed.

(** What a client takes for the capacity of a disk it probes, in 512-byte
    sectors: for a partition, the server halves the sector count and the client
    doubles it again, so the capacity is right up to an odd last sector; for a
    whole disk (minor 0 or 64) the server does not halve it, and the client
    sees a disk twice as large as the real one. *)
Theorem probe_capacity devid disk s minor cl :
  0 ≤ gd_capacity disk < 2 ^ 31 →
  (∀ p n, zlookup (gd_part disk) p = Some (Some n) → 0 ≤ n < 2 ^ 31) →
  0 ≤ minor < length (descriptors cl) →
  wp any_fault (probe_disk devid disk) (λ d _,
    ∃ cl' dk, L4VMblock_probe_device (λ _ _, (CORBA_NO_EXCEPTION, d)) true true devid minor cl = Ok 0 cl' ∧
      zlookup (descriptors cl') minor = Some dk ∧
      if decide (Z.land devid.2 (Z.lnot 64) = 0) then dk_capacity dk = 2 * gd_capacity disk
      else if decide (Z.land (gd_flags disk) GENHD_FL_SUPPRESS_PARTITION_INFO ≠ 0)
      then dk_capacity dk = gd_capacity disk - gd_capacity disk `mod` 2
      else ∃ n, Some n ∈ gd_part disk ∧ dk_capacity dk = n - n `mod` 2) s.
Proof.
  intros Hcap Hpart Hm. unfold probe_disk. wp_steps.
  all: match goal with |- context [L4VMblock_probe_device (λ _ _, (_, ?d))] =>
    destruct (client_probe_capacity d devid minor cl Hm) as (cl' & dk & Hrun & Hdk & Hc) end;
    exists cl', dk; (split_and!; [exact Hrun|exact Hdk|]); rewrite Hc; clear Hc Hrun; cbn [device_size].
  all: repeat match goal with H : bool_decide _ = true |- _ => apply bool_decide_eq_true in H
       | H : bool_decide _ = false |- _ => apply bool_decide_eq_false in H end.
  - rewrite decide_False, decide_True by done.
    assert (0 ≤ gd_capacity disk / 2 < 2 ^ 30) by (split; [apply Z.div_pos|apply Z.div_lt_upper_bound]; lia).
    rewrite !wrap_small by (rewrite ?wrap_small; lia). pose proof (Z.div_mod (gd_capacity disk) 2). lia.
  - simplify_eq. rewrite decide_False by done. rewrite decide_False by tauto.
    match goal with H : zlookup (gd_part disk) _ = Some (Some ?n) |- _ =>
      destruct (Hpart _ _ H) as [Hn0 Hn1]; exists n;
      assert (0 ≤ n / 2 < 2 ^ 30) by (split; [apply Z.div_pos|apply Z.div_lt_upper_bound]; lia);
      rewrite !wrap_small by (rewrite ?wrap_small; lia); pose proof (Z.div_mod n 2);
      unfold zlookup in H; case_decide; [|done]; apply list_elem_of_lookup_2 in H end.
    split; [done|lia].
  - rewrite decide_True by (apply dec_stable; tauto). rewrite !wrap_small by (rewrite ?wrap_small; lia). lia.
Qed.

Definition sample_disk : gendisk := mk_gendisk 0 1000 0 [Some 400; Some 599] 128 512 4096.
Definition probing_client : L4VMblock_client_t :=
  bc_with_descriptors [mk_disk (0, 0) 0 0 false 0] new_client.

Lemma probe_capacity_witness :
  match probe_disk (3, 0) sample_disk idle_server with
  | Ok d _ => ∃ cl' dk,
      L4VMblock_probe_device (λ _ _, (CORBA_NO_EXCEPTION, d)) true true (3, 0) 0 probing_client = Ok 0 cl' ∧
      zlookup (descriptors cl') 0 = Some dk ∧ dk_capacity dk = 2000
  | _ => False
  end.
Proof.
  assert (∀ p n, zlookup (gd_part sample_disk) p = Some (Some n) → 0 ≤ n < 2 ^ 31) as Hp.
  { intros p n. unfold zlookup. case_decide; [|done]. cbn [gd_part sample_disk].
    destruct (Z.to_nat p) as [|[|[|]]]; cbn; intros [= <-]; lia. }
  pose proof (probe_capacity (3, 0) sample_disk idle_server 0 probing_client
    ltac:(cbn; lia) Hp ltac:(cbn; lia)) as H0.
  exact H0.
Defined.
