(* ===== verification/BlockHazards.v ===== *)
(** * The block-device server: descriptors outside the protocol

    What the I/O path of block/server.c does with descriptors whose handle
    names no connection of their client. Such descriptors arise when a client
    detaches a device with requests queued or in flight, or by a client's
    mistake. *)

From stdpp Require Import base list gmap numbers.
From Stdlib Require Import ZArith Lia.
From S2P Require Import Prelude CmdRing VmMemory Block BlockClient BlockView BlockProtocol.

Section hazards.
Context {E : BlockEnv}.
Context (s0 : L4VMblock_server_t) (ci h : Z) (cs0 : IVMblock_client_shared_t)
  (sp : option L4VM_client_space_info_t) (fp : L4VM_alligned_alloc_t).
Context (Hci : 0 ≤ ci < length (clients s0)).
Abbreviation vw := (view s0 ci h cs0 sp fp).

Lemma set_bi_size_alter D B ri m tr b n :
  set_bi_size b n (vw D B ri m tr) = vw D B ri (alter (λ v, mk_bio (bi_sector v) (bi_bdev v)
    (bi_io_vec v) (bi_vcnt v) (bi_idx v) n (bi_private v)) b m) tr.
Proof. done. Qed.

(** Completion of a bio whose connection is gone. *)
Lemma end_io_no_conn D B ri m tr b v i d :
  m !! b = Some v → bi_private v = Some (ci, i) → bi_size v = 0 → zlookup D i = Some d →
  (∃ conn, zlookup (connections s0) (d_handle d) = Some conn ∧ cn_handle conn ≠ d_handle d) →
  0 ≤ d_handle d < L4VMBLOCK_MAX_DEVICES →
  L4VMblock_end_io b false (vw D B ri m tr) =
    Ok 0 (vw D B ri (delete b m) (tr ++ [BPut b] ++ [BTasklet])).
Proof.
  intros Hb Hp Hsz Hd (conn & Hl & Hne) Hr. unfold L4VMblock_end_io.
  mstep (load_bio_view s0 ci h cs0 sp fp D B ri m tr _ _ Hb).
  rewrite Hp. cbn [mof_option]. do 2 mret_step.
  rewrite bool_decide_eq_false_2 by lia.
  mstep (load_desc_view s0 ci h cs0 sp fp Hci D B ri m tr _ _ Hd).
  erewrite (bind_ok _ _ _ None).
  2:{ unfold L4VMblock_conn_lookup. rewrite bool_decide_eq_true_2 by done.
      mstep (get_conn_view s0 ci h cs0 sp fp D B ri m tr _ _ Hl).
      by rewrite bool_decide_eq_false_2 by done. }
  cbv beta. mret_step.
  mstep (delete_bio_view s0 ci h cs0 sp fp D B ri m tr b).
  mstep (emit_view s0 ci h cs0 sp fp D B ri (delete b m) tr (BPut b)).
  mstep (emit_view s0 ci h cs0 sp fp D B ri (delete b m) (tr ++ [BPut b]) BTasklet).
  by rewrite <- app_assoc.
Qed.

(** Completion when the oldest descriptor is no longer server-owned. *)
Lemma end_io_first_not_owned D B ri m tr b v i d first k :
  m !! b = Some v → bi_private v = Some (ci, i) → bi_size v = 0 → zlookup D i = Some d →
  d_handle d = k → conn_ok s0 ci k →
  zlookup D (start_dirty ri) = Some first → server_owned (d_status first) = false →
  L4VMblock_end_io b false (vw D B ri m tr) = Err AssertFail.
Proof.
  intros Hb Hp Hsz Hd Hk Hok Hf Hno. unfold L4VMblock_end_io.
  mstep (load_bio_view s0 ci h cs0 sp fp D B ri m tr _ _ Hb).
  rewrite Hp. cbn [mof_option]. do 2 mret_step.
  rewrite bool_decide_eq_false_2 by lia.
  mstep (load_desc_view s0 ci h cs0 sp fp Hci D B ri m tr _ _ Hd). rewrite Hk.
  mstep (conn_lookup_view s0 ci h cs0 sp fp D B ri m tr _ Hok).
  apply bind_err. destruct Hok as (_ & conn & Hl & _ & Hcl). unfold end_io_release.
  mstep (get_conn_view s0 ci h cs0 sp fp D B ri m tr _ _ Hl). rewrite Hcl. cbn [mof_option]. mret_step.
  mstep (get_client_view s0 ci h cs0 sp fp Hci D B ri m tr). cbn [fst snd ring_info view_client].
  rewrite (bool_decide_eq_true_2 (ci = ci)) by done. mret_step.
  mstep (load_desc_view s0 ci h cs0 sp fp Hci D B ri m tr _ _ Hf). rewrite Hno. done.
Qed.
End hazards.

(** A descriptor with an invalid handle breaks the completion of the ones
    after it: the server hands it back at once and moves [start_free] past it,
    but not [start_dirty]; when the next, valid descriptor is taken and its I/O
    completes, the oldest descriptor is not server-owned any more and the
    assertion at the head of the completion path fails. *)
Theorem rejected_descriptor_stops_server {E : BlockEnv} s0 ci h cs0 sp fp D B m tr i bad good k kb :
  0 ≤ ci < length (clients s0) → is_Some sp →
  0 ≤ i < IVMblock_descriptor_ring_size →
  let j := cnext IVMblock_descriptor_ring_size i in
  let ring := mk_ring IVMblock_descriptor_ring_size i i in
  length D = IVMblock_descriptor_ring_size → length B = IVMblock_descriptor_ring_size →
  zlookup D i = Some bad → server_owned (d_status bad) = true → d_handle bad = kb → conn_bad s0 ci kb →
  zlookup D j = Some good → server_owned (d_status good) = true → d_handle good = k →
  conn_ok s0 ci k → d_size good ≠ 0 → zlookup B i = Some None → zlookup B j = Some None →
  ∃ s1 s2 b, L4VMblock_process_io_queue ci (view s0 ci h cs0 sp fp D B ring m tr) = Ok 0 s1 ∧
    L4VMblock_process_io_queue ci s1 = Ok 0 s2 ∧
    BSubmit (desc_rw good) b ∈ trace s2 ∧
    L4VMblock_end_io b false (set_bi_size b 0 s2) = Err AssertFail.
Proof.
  intros Hci Hsp Hi j ring HlD HlB Hbad Hbo Hbk Hkb Hgood Hgo Hgk Hk Hsz HBi HBj.
  assert (i ≠ j ∧ 0 ≤ j < IVMblock_descriptor_ring_size) as [Hij Hj].
  { unfold j, cnext. clear - Hi. change (Z.of_nat IVMblock_descriptor_ring_size) with 400 in *.
    rewrite Z.rem_mod_nonneg by lia. pose proof (Z.mod_pos_bound (i + 1) 400).
    rewrite wrap_small by lia. split; [|lia].
    destruct (decide (i + 1 = 400)) as [Hw|]; [|rewrite Z.mod_small by lia; lia].
    rewrite Hw, Z_mod_same_full. lia. }
  pose proof (process_reject s0 ci h cs0 sp fp Hci D B ring m tr bad kb Hbad HBi Hbo Hbk Hkb) as H1.
  cbn [start_free start_dirty cnt ring] in H1. fold j in H1.
  set (D1 := zinsert i (with_status (λ st, set_owned false (set_err st)) bad) D) in *.
  assert (zlookup D1 j = Some good) as Hg1 by (unfold D1; by rewrite zlookup_zinsert_ne).
  destruct (process_take s0 ci h cs0 sp fp Hci D1 B (mk_ring IVMblock_descriptor_ring_size j i) m
    (tr ++ [BTasklet]) good k Hg1 HBj Hgo Hgk Hk Hsz Hsp) as (conn & space & b & Hl & Hspace & Hb & H2).
  cbn [start_free start_dirty cnt] in H2. do 3 eexists. split_and!; [exact H1|exact H2| |].
  - cbn. apply elem_of_app. right. by left.
  - rewrite set_bi_size_alter.
    eapply end_io_first_not_owned with (d := good) (i := j); [done|..].
    + rewrite lookup_alter, lookup_insert_eq, decide_True by done. done.
    + done.
    + done.
    + exact Hg1.
    + exact Hgk.
    + exact Hk.
    + cbn [start_dirty]. unfold D1. apply zlookup_zinsert_eq. lia.
    + done.
Qed.

(** Completion after a detach strands the descriptor: when the connection
    of an in-flight bio has been released, its completion frees the bio but
    leaves the descriptor server-owned, the bio ring pointing to the freed bio,
    and [start_dirty] where it was; the next look at that slot treats it as
    still in progress. *)
Theorem completion_after_detach_strands {E : BlockEnv} s0 ci h cs0 sp fp D B ri m tr b v i d conn :
  0 ≤ ci < length (clients s0) →
  m !! b = Some v → bi_private v = Some (ci, i) → bi_size v = 0 →
  zlookup D i = Some d → server_owned (d_status d) = true → zlookup B i = Some (Some b) →
  0 ≤ d_handle d < L4VMBLOCK_MAX_DEVICES →
  zlookup (connections s0) (d_handle d) = Some conn → cn_handle conn = L4VMBLOCK_INVALID_HANDLE →
  ∃ tr', L4VMblock_end_io b false (view s0 ci h cs0 sp fp D B ri m tr)
      = Ok 0 (view s0 ci h cs0 sp fp D B ri (delete b m) tr') ∧
    L4VMblock_process_io_queue ci
      (view s0 ci h cs0 sp fp D B (mk_ring (cnt ri) i (start_dirty ri)) (delete b m) tr')
      = Ok 1 (view s0 ci h cs0 sp fp D B (mk_ring (cnt ri) i (start_dirty ri)) (delete b m) tr').
Proof.
  intros Hci Hb Hp Hsz Hd Ho HB Hr Hl Hinv. eexists. split.
  - eapply end_io_no_conn; try done. exists conn. split; [done|]. rewrite Hinv.
    unfold L4VMBLOCK_INVALID_HANDLE, L4VMBLOCK_MAX_DEVICES in *. lia.
  - apply (process_idle _ _ _ _ _ _ Hci) with (d := d) (o := Some b); auto.
Qed.

(** ** Witnesses on the sample server of BlockProtocol.v *)

Definition hazard_desc (handle : Z) : IVMblock_ring_descriptor_t :=
  mk_desc (mk_status true false false false) handle 8192 64 4096 0 (Some 0) [].
Definition hazard_descs : list IVMblock_ring_descriptor_t :=
  hazard_desc 3 :: hazard_desc 0 :: replicate 398 (hazard_desc 3).

Lemma rejected_descriptor_stops_server_witness :
  ∃ s1 s2 b, L4VMblock_process_io_queue (E := sample_env) 0 (sample_view hazard_descs (replicate ring_size None)
      (mk_ring ring_size 0 0) ∅ []) = Ok 0 s1 ∧
    L4VMblock_process_io_queue (E := sample_env) 0 s1 = Ok 0 s2 ∧
    L4VMblock_end_io b false (set_bi_size b 0 s2) = Err AssertFail.
Proof.
  destruct (rejected_descriptor_stops_server (E := sample_env) sample_server 0 0 sample_shared (Some sample_space)
    sample_alloc hazard_descs (replicate ring_size None) ∅ [] 0 (hazard_desc 3) (hazard_desc 0) 0 3)
    as (s1 & s2 & b & H1 & H2 & _ & H3);
    [vm_compute; split; congruence|by eexists|vm_compute; split; congruence|reflexivity
    |reflexivity|reflexivity|reflexivity|reflexivity| |reflexivity|reflexivity|reflexivity
    |apply sample_conn_ok|done|reflexivity|reflexivity|].
  - right. eexists. split; [reflexivity|]. left. vm_compute. congruence.
  - exists s1, s2, b. split_and!; [exact H1|exact H2|exact H3].
Defined.

Lemma completion_after_detach_strands_witness :
  ∃ tr', L4VMblock_end_io 1%positive false
      (sample_view hazard_descs (Some 1%positive :: replicate 399 None) (mk_ring ring_size 1 0)
         {[ 1%positive := mk_bio 64 None [] 0 0 0 (Some (0, 0)) ]} [])
    = Ok 0 (sample_view hazard_descs (Some 1%positive :: replicate 399 None) (mk_ring ring_size 1 0)
         (delete 1%positive {[ 1%positive := mk_bio 64 None [] 0 0 0 (Some (0, 0)) ]}) tr').
Proof.
  destruct (completion_after_detach_strands (E := sample_env) sample_server 0 0 sample_shared (Some sample_space)
    sample_alloc hazard_descs (Some 1%positive :: replicate 399 None) (mk_ring ring_size 1 0)
    {[ 1%positive := mk_bio 64 None [] 0 0 0 (Some (0, 0)) ]} [] 1%positive
    (mk_bio 64 None [] 0 0 0 (Some (0, 0))) 0 (hazard_desc 3)
    (mk_conn L4VMBLOCK_INVALID_HANDLE None None 0 (0, 0))) as (tr' & H1 & _);
    [vm_compute; split; congruence|reflexivity..|vm_compute; split; congruence|reflexivity|reflexivity|].
  exists tr'. exact H1.
Defined.
