(* ===== verification/IrqProtocol.v ===== *)
(** * Interleaving of interrupt delivery and interrupt handlers

    The block client and server notify each other through two words of a
    shared page, [irq_status] and [irq_pending], and a virtual interrupt. The
    two sides run on different L4 threads, so each access to a word is a step of
    its own. This file models [L4VMblock_deliver_server_irq] of block/client.c
    against [L4VMblock_irq_handler] of block/server.c, and
    [L4VMblock_deliver_client_irq] of block/server.c against
    [L4VMblock_irq_handler] of block/client.c, at that granularity. A status
    word is represented by whether any event bit is set, and a virtual
    interrupt by whether one is waiting at the receiver. *)

From stdpp Require Import base relations.
From S2P Require Import Prelude.

(** ** The sender *)

(** Where the sender is: idle, after [irq_status |= ...], after it has found
    [irq_pending] clear, after it has set it. *)
Inductive sender : Type := SIdle | SPosted | STested | SMarked.

(** The words of one direction. *)
Record words : Type := mk_words { w_status : bool; w_pending : bool; w_virq : bool }.

(** One access of the sender. *)
Inductive send_step : sender → words → sender → words → Prop :=
  | SendPost w : send_step SIdle w SPosted (mk_words true (w_pending w) (w_virq w))
  | SendSkip w : w_pending w = true → send_step SPosted w SIdle w
  | SendTest w : w_pending w = false → send_step SPosted w STested w
  | SendMark w : send_step STested w SMarked (mk_words (w_status w) true (w_virq w))
  | SendVirq w : send_step SMarked w SIdle (mk_words (w_status w) (w_pending w) true).

(** The four accesses without interference. *)
Definition deliver (w : words) : words :=
  if w_pending w then mk_words true true (w_virq w) else mk_words true true true.

Definition sends (x y : sender * words) : Prop := send_step x.1 x.2 y.1 y.2.

Lemma deliver_steps w : rtc sends (SIdle, w) (SIdle, deliver w).
Proof.
  destruct w as [st [] vq]; unfold deliver; cbn.
  - eapply (rtc_l _ _ (SPosted, _)); [apply SendPost|]. cbn.
    eapply (rtc_l _ _ (SIdle, _)); [by apply SendSkip|]. apply rtc_refl.
  - eapply (rtc_l _ _ (SPosted, _)); [apply SendPost|]. cbn.
    eapply (rtc_l _ _ (STested, _)); [by apply SendTest|].
    eapply (rtc_l _ _ (SMarked, _)); [apply SendMark|]. cbn.
    eapply (rtc_l _ _ (SIdle, _)); [apply SendVirq|]. apply rtc_refl.
Qed.

(** ** The server's interrupt handler

    [L4VMblock_irq_handler] of block/server.c: idle, at the head of its loop,
    after a reset that found an event, with [irq_pending] set. [own] are the
    events of the server thread itself, the handler's second source. *)
Inductive shandler : Type := HIdle | HHead | HFound | HBusy.

Inductive shandler_step : shandler → bool → words → shandler → bool → words → Prop :=
  | HEnter own w : w_virq w = true →
      shandler_step HIdle own w HHead own (mk_words (w_status w) (w_pending w) false)
  | HQuit w : w_status w = false → shandler_step HHead false w HIdle false w
  | HReset own w : w_status w || own = true →
      shandler_step HHead own w HFound false (mk_words false (w_pending w) (w_virq w))
  | HMask own w : shandler_step HFound own w HBusy own (mk_words (w_status w) true (w_virq w))
  | HServe own w : shandler_step HBusy own w HHead own (mk_words (w_status w) false (w_virq w)).

Record request_sys : Type := mk_rsys {
  r_send : sender; r_hdl : shandler; r_own : bool; r_words : words
}.

(** A client posting requests and the server's handler. *)
Inductive rstep : request_sys → request_sys → Prop :=
  | RSend p w p' w' h own : send_step p w p' w' → rstep (mk_rsys p h own w) (mk_rsys p' h own w')
  | RHandle p w w' h h' own own' : shandler_step h own w h' own' w' →
      rstep (mk_rsys p h own w) (mk_rsys p h' own' w').

(** The server thread queues a command of its own. *)
Inductive ostep : request_sys → request_sys → Prop :=
  | OPost p h own w : ostep (mk_rsys p h own w)
      (mk_rsys p h true (mk_words (w_status w) (w_pending w) true)).

(** The same system when a delivery is not interleaved. *)
Inductive astep : request_sys → request_sys → Prop :=
  | ASend h own w : astep (mk_rsys SIdle h own w) (mk_rsys SIdle h own (deliver w))
  | AHandle s s' p w w' h h' own own' : s = mk_rsys p h own w → s' = mk_rsys p h' own' w' →
      shandler_step h own w h' own' w' → astep s s'
  | AOwn s s' : ostep s s' → astep s s'.

Definition quiet : words := mk_words false false false.
Definition rsys0 : request_sys := mk_rsys SIdle HIdle false quiet.

(** The handler will not run again by itself, and the client believes that an
    interrupt is on its way. *)
Definition deaf (s : request_sys) : Prop :=
  r_hdl s = HIdle ∧ w_virq (r_words s) = false ∧ w_pending (r_words s) = true ∧
  (r_send s = SIdle ∨ r_send s = SPosted).

Lemma deaf_step s s' : rstep s s' → deaf s → deaf s'.
Proof.
  intros Hs (Hh & Hv & Hp & Hsend). destruct Hs as [p w p' w' h own Hs|p w w' h h' own own' Hs];
    cbn in *; subst; inversion Hs; subst; cbn in *; try congruence; unfold deaf; cbn; auto;
    destruct Hsend; congruence.
Qed.

(** A run with one posting client: the handler consumes the event between the
    client's post and its test of [irq_pending]. *)
Definition deaf_state : request_sys := mk_rsys SIdle HIdle false (mk_words false true false).

Lemma deaf_reachable : rtc (λ s s', rstep s s' ∨ ostep s s') rsys0 deaf_state.
Proof.
  unfold rsys0, deaf_state, quiet.
  (* the server thread's own command wakes the handler *)
  eapply rtc_l; [right; constructor|]. cbn.
  eapply rtc_l; [left; apply (RHandle SIdle), HEnter; done|]. cbn.
  (* the client posts and finds no interrupt pending *)
  eapply rtc_l; [left; apply RSend, SendPost|]. cbn.
  eapply rtc_l; [left; apply RSend, SendTest; done|]. cbn.
  (* the handler consumes both events and stops *)
  eapply rtc_l; [left; apply (RHandle STested), HReset; done|]. cbn.
  eapply rtc_l; [left; apply (RHandle STested), HMask|]. cbn.
  eapply rtc_l; [left; apply (RHandle STested), HServe|]. cbn.
  eapply rtc_l; [left; apply (RHandle STested), HQuit; done|].
  (* the client goes on: marks, sends; the handler finds nothing *)
  eapply rtc_l; [left; apply RSend, SendMark|]. cbn.
  eapply rtc_l; [left; apply RSend, SendVirq|]. cbn.
  eapply rtc_l; [left; apply (RHandle SIdle), HEnter; done|]. cbn.
  eapply rtc_l; [left; apply (RHandle SIdle), HQuit; done|]. apply rtc_refl.
Qed.

(** The server's interrupt handler can go deaf: when it finds no event it
    returns without clearing [irq_pending], and there is a run of one client
    and the handler that leaves the flag set with no interrupt on its way. From
    then on, whatever requests the client posts, no interrupt is sent and the
    handler does not run, until the server thread posts a command of its own. *)
Theorem server_irq_handler_can_go_deaf :
  ∃ s, rtc (λ s s', rstep s s' ∨ ostep s s') rsys0 s ∧ deaf s ∧
    (∀ s', rtc rstep s s' → deaf s') ∧
    ∃ s', rtc rstep s s' ∧ deaf s' ∧ w_status (r_words s') = true ∧ r_send s' = SIdle.
Proof.
  exists deaf_state. split; [apply deaf_reachable|].
  assert (deaf deaf_state) as H0 by (unfold deaf, deaf_state; cbn; auto).
  split; [exact H0|]. split.
  - intros s' Hs. induction Hs; [done|]. eauto using deaf_step.
  - exists (mk_rsys SIdle HIdle false (mk_words true true false)). split_and!; [|unfold deaf; cbn; auto|done..].
    eapply rtc_l; [apply RSend, SendPost|]. cbn.
    eapply rtc_l; [apply RSend, SendSkip; done|]. apply rtc_refl.
Qed.

(** What holds when deliveries are not interleaved. *)
Definition awake (s : request_sys) : Prop :=
  r_send s = SIdle ∧
  match r_hdl s with
  | HIdle => (w_pending (r_words s) = true → w_status (r_words s) = true) ∧
      (w_status (r_words s) || r_own s = true → w_virq (r_words s) = true)
  | HHead => w_pending (r_words s) = true → w_status (r_words s) = true
  | _ => True
  end.

Lemma awake_step s s' : astep s s' → awake s → awake s'.
Proof.
  intros Hs [Hi Hw]. destruct Hs as [h own w|s s' p w w' h h' own own' -> -> Hs|s s' Hs].
  - split; [done|]. destruct w as [st [] vq], h; cbn in *; try done. split; [done|].
    intros _. apply Hw. by destruct Hw as [-> _].
  - destruct Hs; (split; [done|]); cbn in *; try done.
    + apply Hw.
    + split; [done|]. by rewrite H.
  - destruct Hs. split; [done|]. cbn in *. destruct h; try done. by destruct Hw.
Qed.

(** If a delivery runs without being interleaved with the handler, no
    request is lost: whenever the handler is idle and no interrupt is on its
    way, every posted request has been taken and the sender may signal again. *)
Theorem server_irq_atomic_delivery_safe s :
  rtc astep rsys0 s → r_hdl s = HIdle → w_virq (r_words s) = false →
  w_status (r_words s) = false ∧ w_pending (r_words s) = false ∧ r_own s = false.
Proof.
  intros Hs Hh Hv.
  assert (awake s) as [_ Ha].
  { revert Hs. intros Hs. assert (awake rsys0) as H0 by (by split).
    induction Hs; [done|]. eauto using awake_step. }
  rewrite Hh, Hv in Ha. destruct Ha as [Hp Hq].
  destruct (w_status (r_words s)), (w_pending (r_words s)), (r_own s); cbn in *;
    try discriminate (Hq eq_refl); try discriminate (Hp eq_refl); done.
Qed.

Lemma server_irq_atomic_delivery_safe_witness :
  let s := mk_rsys SIdle HIdle false quiet in
  w_status (r_words s) = false ∧ w_pending (r_words s) = false ∧ r_own s = false.
Proof.
  apply (server_irq_atomic_delivery_safe (mk_rsys SIdle HIdle false quiet)); [|done..].
  (* post, enter, reset, mask, serve, quit *)
  eapply rtc_l; [apply ASend|]. cbn.
  eapply rtc_l; [by eapply AHandle; [done..|apply HEnter]|]. cbn.
  eapply rtc_l; [by eapply AHandle; [done..|apply HReset]|]. cbn.
  eapply rtc_l; [eapply AHandle; [done..|apply HMask]|]. cbn.
  eapply rtc_l; [eapply AHandle; [done..|apply HServe]|]. cbn.
  eapply rtc_l; [by eapply AHandle; [done..|apply HQuit]|]. apply rtc_refl.
Defined.

(** ** The client's interrupt handler

    [L4VMblock_irq_handler] of block/client.c: a loop that sets [irq_pending],
    resets the status, works on the events found, clears [irq_pending] and
    repeats while there were events. *)
Inductive chandler : Type := CIdle | CHead | CMasked | CReset (events : bool) | CTail (events : bool).

Inductive chandler_step : chandler → words → chandler → words → Prop :=
  | CEnter w : w_virq w = true → chandler_step CIdle w CHead (mk_words (w_status w) (w_pending w) false)
  | CMask w : chandler_step CHead w CMasked (mk_words (w_status w) true (w_virq w))
  | CTake w : chandler_step CMasked w (CReset (w_status w)) (mk_words false (w_pending w) (w_virq w))
  | CUnmask ev w : chandler_step (CReset ev) w (CTail ev) (mk_words (w_status w) false (w_virq w))
  | CAgain w : chandler_step (CTail true) w CHead w
  | CLeave w : chandler_step (CTail false) w CIdle w.

(** Completions delivered without interleaving, and the client's handler. *)
Inductive cstep : chandler * words → chandler * words → Prop :=
  | CDeliver h w : cstep (h, w) (h, deliver w)
  | CHandle h w h' w' : chandler_step h w h' w' → cstep (h, w) (h', w').

(** What holds of every run. *)
Definition cinv (s : chandler * words) : Prop :=
  match s.1 with
  | CIdle => w_pending s.2 = true → w_virq s.2 = true
  | CTail _ => w_pending s.2 = true → w_virq s.2 = true
  | _ => True
  end.

Lemma cinv_step s s' : cstep s s' → cinv s → cinv s'.
Proof.
  intros [h w|h w h' w' Hs] Hi.
  - destruct h, w as [st [] vq]; unfold cinv, deliver in *; cbn in *; naive_solver.
  - destruct Hs; unfold cinv in *; cbn in *; naive_solver.
Qed.

(** The client's interrupt handler can miss a completion, even when
    deliveries are not interleaved: a completion posted after the handler read
    an empty status but before it clears [irq_pending] sends no interrupt, and
    the handler returns without looking again. The completion stays until a
    later delivery, which always sends an interrupt then: the client never goes
    deaf. *)
Theorem client_irq_handler_can_miss :
  (∃ w, rtc cstep (CIdle, quiet) (CIdle, w) ∧ w_status w = true ∧ w_virq w = false) ∧
  (∀ w, rtc cstep (CIdle, quiet) (CIdle, w) → w_virq (deliver w) = true).
Proof.
  split.
  - exists (mk_words true false false). split; [|done]. unfold quiet.
    eapply rtc_l; [apply CDeliver|]. cbn.
    eapply rtc_l; [by apply CHandle, CEnter|]. cbn.
    eapply rtc_l; [apply CHandle, CMask|]. cbn.
    eapply rtc_l; [apply CHandle, CTake|]. cbn.
    eapply rtc_l; [apply CHandle, CUnmask|]. cbn.
    eapply rtc_l; [apply CHandle, CAgain|].
    eapply rtc_l; [apply CHandle, CMask|]. cbn.
    eapply rtc_l; [apply CHandle, CTake|]. cbn.
    (* the handler has read an empty status; now a completion is delivered *)
    eapply rtc_l; [apply CDeliver|]. cbn.
    eapply rtc_l; [apply CHandle, CUnmask|]. cbn.
    eapply rtc_l; [apply CHandle, CLeave|]. apply rtc_refl.
  - intros w Hs. assert (cinv (CIdle, w)) as Hi.
    { assert (cinv (CIdle, quiet)) as H0 by done. remember (CIdle, quiet) as s0. clear Heqs0.
      remember (CIdle, w) as s1. clear Heqs1. induction Hs; [done|]. eauto using cinv_step. }
    unfold cinv, deliver in *. cbn in *. destruct (w_pending w); cbn; auto.
Qed.
