(* ===== verification/HashList.v ===== *)
(** * Hash buckets threaded by a doubly linked list

    The energy-aware block cache keeps its entries in two structures of the
    same shape: [LHMap] (block/ebc_lhmap.c) and [HCache] (block/ebc_hcache.c).
    Each entry is a node on the collision chain of its bucket and on one doubly
    linked list of all entries. This file holds the nodes, the loops over a
    collision chain that both files write out, and the theory of the two kinds
    of links; [D] is what an entry carries besides its key and links. *)

From Stdlib Require Import ZArith Lia.
From stdpp Require Import base list gmap numbers.
From S2P Require Import Prelude.

Record node (D : Type) : Type := mk_node {
  n_key : Z;
  n_chain : option positive;
  n_next : option positive;
  n_prev : option positive;
  n_val : D
}.
Arguments mk_node {D}.
Arguments n_key {D}.
Arguments n_chain {D}.
Arguments n_next {D}.
Arguments n_prev {D}.
Arguments n_val {D}.

Abbreviation heap D := (gmap positive (node D)).

Section nodes.
Context {D : Type}.
Implicit Types (h : heap D) (n : node D) (p q : positive).

Definition set_chain (q : option positive) n := mk_node (n_key n) q (n_next n) (n_prev n) (n_val n).
Definition set_next (q : option positive) n := mk_node (n_key n) (n_chain n) q (n_prev n) (n_val n).
Definition set_prev (q : option positive) n := mk_node (n_key n) (n_chain n) (n_next n) q (n_val n).

(** ** Loops over a collision chain *)

(** The last entry of a chain: [while(cur != NULL) { prev = cur; cur = cur->chain; }]. *)
Fixpoint chain_end (fuel : nat) h (cur prev : option positive) : fault + option positive :=
  match fuel with
  | O => inl Diverged
  | S fuel =>
      match cur with
      | None => inr prev
      | Some p =>
          match h !! p with
          | None => inl DanglingDeref
          | Some n => chain_end fuel h (n_chain n) (Some p)
          end
      end
  end.

(** The first entry with the key, and its predecessor on the chain. *)
Fixpoint chain_find (fuel : nat) h (key : Z) (cur prev : option positive)
    : fault + (option positive * option positive) :=
  match fuel with
  | O => inl Diverged
  | S fuel =>
      match cur with
      | None => inr (None, prev)
      | Some p =>
          match h !! p with
          | None => inl DanglingDeref
          | Some n =>
              if bool_decide (n_key n = key) then inr (Some p, prev)
              else chain_find fuel h key (n_chain n) (Some p)
          end
      end
  end.

(** The number of entries of a chain. *)
Fixpoint chain_count (fuel : nat) h (cur : option positive) (acc : Z) : fault + Z :=
  match fuel with
  | O => inl Diverged
  | S fuel =>
      match cur with
      | None => inr acc
      | Some p =>
          match h !! p with
          | None => inl DanglingDeref
          | Some n => chain_count fuel h (n_chain n) (u32 (acc + 1))
          end
      end
  end.

(** ** Segments *)

Definition ohead (l : list positive) (b : option positive) : option positive :=
  match l with [] => b | p :: _ => Some p end.
Definition olast (l : list positive) (a : option positive) : option positive :=
  match list.last l with Some p => Some p | None => a end.

(** The nodes [l] are linked in both directions, with [a] before the first and
    [b] after the last. *)
Fixpoint dseg h (a : option positive) (l : list positive) (b : option positive) : Prop :=
  match l with
  | [] => True
  | p :: l => (∃ n, h !! p = Some n ∧ n_prev n = a ∧ n_next n = ohead l b) ∧ dseg h (Some p) l b
  end.

(** The nodes [c] are a NULL-terminated collision chain. *)
Fixpoint cseg h (c : list positive) : Prop :=
  match c with
  | [] => True
  | p :: c => (∃ n, h !! p = Some n ∧ n_chain n = ohead c None) ∧ cseg h c
  end.

Lemma ohead_app l1 l2 b : ohead (l1 ++ l2) b = ohead l1 (ohead l2 b).
Proof. by destruct l1. Qed.
Lemma olast_snoc l p a : olast (l ++ [p]) a = Some p.
Proof. unfold olast. by rewrite last_snoc. Qed.
Lemma olast_cons l p a : olast (p :: l) a = olast l (Some p).
Proof. unfold olast. rewrite last_cons. by destruct (list.last l). Qed.
Lemma olast_app l1 l2 a : olast (l1 ++ l2) a = olast l2 (olast l1 a).
Proof. unfold olast. rewrite last_app. by destruct (list.last l2). Qed.

Lemma dseg_app h a l1 l2 b :
  dseg h a (l1 ++ l2) b ↔ dseg h a l1 (ohead l2 b) ∧ dseg h (olast l1 a) l2 b.
Proof.
  revert a. induction l1 as [|p l1 IH]; intros a; simpl; [tauto|].
  rewrite IH, ohead_app, olast_cons. tauto.
Qed.

(** A segment only depends on the links of its nodes. *)
Lemma dseg_ext h h' a l b :
  dseg h a l b →
  (∀ p n, p ∈ l → h !! p = Some n → ∃ n', h' !! p = Some n' ∧ n_prev n' = n_prev n ∧ n_next n' = n_next n) →
  dseg h' a l b.
Proof.
  revert a. induction l as [|p l IH]; intros a; simpl; [done|].
  intros [(n & Hn & Hp & Hx) Hl] Hext. split; [|apply IH; [done|set_solver]].
  destruct (Hext p n) as (n' & ? & ? & ?); [by left|done|]. exists n'. naive_solver congruence.
Qed.

Lemma cseg_ext h h' c :
  cseg h c → (∀ p n, p ∈ c → h !! p = Some n → ∃ n', h' !! p = Some n' ∧ n_chain n' = n_chain n) →
  cseg h' c.
Proof.
  induction c as [|p c IH]; simpl; [done|]. intros [(n & Hn & Hx) Hc] Hext.
  split; [|apply IH; [done|set_solver]].
  destruct (Hext p n) as (n' & ? & ?); [by left|done|]. exists n'. split; congruence.
Qed.

(** Changing the outer neighbours. *)
Lemma dseg_set_first h a a' p l b :
  dseg h a (p :: l) b → p ∉ l → dseg (alter (set_prev a') p h) a' (p :: l) b.
Proof.
  simpl. intros [(n & Hn & Hp & Hx) Hl] Hni. split.
  - exists (set_prev a' n). by rewrite lookup_alter_eq, Hn.
  - eapply dseg_ext; [exact Hl|]. intros q m Hq Hm. exists m.
    rewrite lookup_alter_ne by set_solver. done.
Qed.

Lemma dseg_set_last h a l p b b' :
  dseg h a (l ++ [p]) b → p ∉ l → dseg (alter (set_next b') p h) a (l ++ [p]) b'.
Proof.
  rewrite !dseg_app. simpl. intros [Hl [(n & Hn & Hp & Hx) _]] Hni. split; [|split; [|done]].
  - eapply dseg_ext; [exact Hl|]. intros q m Hq Hm. exists m.
    rewrite lookup_alter_ne by set_solver. done.
  - exists (set_next b' n). by rewrite lookup_alter_eq, Hn.
Qed.

(** Accesses that do not touch the links of a kind. *)
Lemma lookup_alter_links h f p q n :
  h !! q = Some n → ∃ n', alter f p h !! q = Some n' ∧ (n' = n ∨ n' = f n).
Proof.
  intros Hq. destruct (decide (p = q)) as [->|Hne].
  - exists (f n). rewrite lookup_alter_eq, Hq. auto.
  - exists n. rewrite lookup_alter_ne by done. auto.
Qed.

Lemma cseg_alter h f p c :
  (∀ n, n_chain (f n) = n_chain n) → cseg h c → cseg (alter f p h) c.
Proof.
  intros Hf Hc. eapply cseg_ext; [exact Hc|]. intros q n _ Hn.
  destruct (lookup_alter_links h f p q n Hn) as (n' & ? & [->| ->]); eauto.
Qed.

Lemma dseg_alter h f p a l b :
  (∀ n, n_prev (f n) = n_prev n ∧ n_next (f n) = n_next n) → dseg h a l b → dseg (alter f p h) a l b.
Proof.
  intros Hf Hc. eapply dseg_ext; [exact Hc|]. intros q n _ Hn. destruct (Hf n) as [H1 H2].
  destruct (lookup_alter_links h f p q n Hn) as (n' & ? & [->| ->]); eauto.
Qed.

Lemma dseg_insert_fresh h a l b p n :
  h !! p = None → dseg h a l b → dseg (<[p := n]> h) a l b.
Proof.
  intros Hp Hl. eapply dseg_ext; [exact Hl|]. intros q m _ Hm. exists m.
  rewrite lookup_insert_ne by congruence. done.
Qed.
Lemma cseg_insert_fresh h c p n : h !! p = None → cseg h c → cseg (<[p := n]> h) c.
Proof.
  intros Hp Hc. eapply cseg_ext; [exact Hc|]. intros q m _ Hm. exists m.
  rewrite lookup_insert_ne by congruence. done.
Qed.
Lemma dseg_delete h a l b p : p ∉ l → dseg h a l b → dseg (delete p h) a l b.
Proof.
  intros Hp Hl. eapply dseg_ext; [exact Hl|]. intros q m Hq Hm. exists m.
  rewrite lookup_delete_ne by set_solver. done.
Qed.
Lemma cseg_delete h c p : p ∉ c → cseg h c → cseg (delete p h) c.
Proof.
  intros Hp Hc. eapply cseg_ext; [exact Hc|]. intros q m Hq Hm. exists m.
  rewrite lookup_delete_ne by set_solver. done.
Qed.

Lemma dseg_lookup h a l1 p l2 b :
  dseg h a (l1 ++ p :: l2) b →
  ∃ n, h !! p = Some n ∧ n_prev n = olast l1 a ∧ n_next n = ohead l2 b.
Proof. rewrite dseg_app. simpl. intros [_ [Hn _]]. exact Hn. Qed.

Lemma cseg_lookup h c1 p c2 :
  cseg h (c1 ++ p :: c2) → ∃ n, h !! p = Some n ∧ n_chain n = ohead c2 None.
Proof. induction c1 as [|x c1 IH]; simpl; [tauto|]. intros [_ Hc]. auto. Qed.

(** ** Unlinking and linking *)

(** [if prev then prev->next = next]; [if next then next->prev = prev]. *)
Definition link_next (q b : option positive) h : heap D :=
  match q with Some q => alter (set_next b) q h | None => h end.
Definition link_prev (q a : option positive) h : heap D :=
  match q with Some q => alter (set_prev a) q h | None => h end.

(** Taking [p] out of the doubly linked list. *)
Lemma dseg_unlink h l1 p l2 :
  NoDup (l1 ++ p :: l2) → dseg h None (l1 ++ p :: l2) None →
  dseg (link_prev (ohead l2 None) (olast l1 None) (link_next (olast l1 None) (ohead l2 None) h))
    None (l1 ++ l2) None.
Proof.
  intros Hnd Hd. apply list.NoDup_app in Hnd as (Hnd1 & Hdis & Hnd2). apply list.NoDup_cons in Hnd2 as [Hp Hnd2].
  apply dseg_app in Hd as [H1 H2]. simpl in H2. destruct H2 as [_ H2]. apply dseg_app. split.
  - assert (dseg (link_next (olast l1 None) (ohead l2 None) h) None l1 (ohead l2 None)) as H1'.
    { destruct l1 as [|q l1 _] using rev_ind; [done|]. rewrite olast_snoc. simpl.
      eapply dseg_set_last; [exact H1|]. apply list.NoDup_app in Hnd1. set_solver. }
    destruct l2 as [|r l2]; simpl; [exact H1'|]. eapply dseg_ext; [exact H1'|]. intros q n Hq Hn.
    exists n. rewrite lookup_alter_ne by set_solver. done.
  - destruct l2 as [|r l2]; [done|]. cbn [ohead link_prev]. eapply dseg_set_first.
    + eapply dseg_ext; [exact H2|]. intros q n Hq Hn. exists n.
      unfold link_next. destruct (olast l1 None) as [z|] eqn:Hz; [|done].
      assert (z ∈ l1) by (unfold olast in Hz; destruct (list.last l1) eqn:?; simplify_eq;
        by apply last_Some_elem_of).
      rewrite lookup_alter_ne by set_solver. done.
    + by apply list.NoDup_cons in Hnd2 as [? _].
Qed.

(** Taking [p] out of its collision chain. *)
Lemma cseg_unlink h c1 p c2 :
  NoDup (c1 ++ p :: c2) → cseg h (c1 ++ p :: c2) →
  cseg (match list.last c1 with Some q => alter (set_chain (ohead c2 None)) q h | None => h end) (c1 ++ c2).
Proof.
  induction c1 as [|x c1 IH] using rev_ind; simpl.
  { intros _ [_ Hc]. done. }
  intros Hnd Hc. rewrite last_snoc. clear IH. rewrite <- app_assoc in *. simpl in *.
  revert Hnd Hc. induction c1 as [|y c1 IH]; simpl; intros Hnd Hc.
  - destruct Hc as [(n & Hn & Hx) [_ Hc]]. apply list.NoDup_cons in Hnd as [Hx' Hnd].
    apply list.NoDup_cons in Hnd as [_ Hnd]. split.
    + exists (set_chain (ohead c2 None) n). by rewrite lookup_alter_eq, Hn.
    + eapply cseg_ext; [exact Hc|]. intros q m Hq Hm. exists m. rewrite lookup_alter_ne by set_solver. done.
  - apply list.NoDup_cons in Hnd as [Hy Hnd]. destruct Hc as [(n & Hn & Hx) Hc]. split; [|by apply IH].
    exists n. rewrite lookup_alter_ne by set_solver. split; [done|]. rewrite Hx. by destruct c1.
Qed.

(** Appending a fresh node to a chain. *)
Lemma cseg_append h c p :
  NoDup c → p ∉ c → cseg h c → (∃ n, h !! p = Some n ∧ n_chain n = None) →
  cseg (match list.last c with Some q => alter (set_chain (Some p)) q h | None => h end) (c ++ [p]).
Proof.
  intros Hnd Hp Hc (np & Hnp & Hcp).
  induction c as [|x c _] using rev_ind; [simpl; eauto|]. rewrite last_snoc.
  revert Hnd Hp Hc. induction c as [|y c IH]; simpl; intros Hnd Hp Hc.
  - destruct Hc as [(n & Hn & Hx) _]. split_and!; [|exists np; rewrite lookup_alter_ne by set_solver; done|done].
    exists (set_chain (Some p) n). by rewrite lookup_alter_eq, Hn.
  - apply list.NoDup_cons in Hnd as [Hy Hnd]. destruct Hc as [(n & Hn & Hx) Hc].
    split; [|apply IH; [done|set_solver|done]].
    exists n. rewrite lookup_alter_ne by set_solver. split; [done|]. rewrite Hx. by destruct c.
Qed.

(** ** The loops on a well-formed chain *)

Lemma chain_end_spec h c fuel prev :
  cseg h c → (length c < fuel)%nat → chain_end fuel h (ohead c None) prev = inr (olast c prev).
Proof.
  revert fuel prev. induction c as [|p c IH]; intros [|fuel] prev; simpl; try lia; [done|].
  intros [(n & -> & ->) Hc] Hf. rewrite IH by (done || lia). by rewrite olast_cons.
Qed.

Lemma chain_count_spec h c fuel acc :
  cseg h c → (length c < fuel)%nat → 0 ≤ acc → acc + length c < 2 ^ 32 →
  chain_count fuel h (ohead c None) acc = inr (acc + length c).
Proof.
  revert fuel acc. induction c as [|p c IH]; intros [|fuel] acc; simpl; try lia.
  { intros. f_equal. lia. }
  intros [(n & -> & ->) Hc] Hf Ha Hlt. rewrite wrap_small by lia. rewrite IH by (done || lia). f_equal. lia.
Qed.

(** The entry a search of chain [c] finds: the first with the key. *)
Fixpoint cfind h (key : Z) (c : list positive) : option (list positive * positive * list positive) :=
  match c with
  | [] => None
  | p :: c =>
      if decide (n_key <$> h !! p = Some key) then Some ([], p, c)
      else '(c1, q, c2) ← cfind h key c; Some (p :: c1, q, c2)
  end.

Lemma cfind_Some h key c c1 p c2 :
  cfind h key c = Some (c1, p, c2) →
  c = c1 ++ p :: c2 ∧ n_key <$> h !! p = Some key ∧ ∀ q, q ∈ c1 → n_key <$> h !! q ≠ Some key.
Proof.
  revert c1 p c2. induction c as [|x c IH]; intros c1 p c2; simpl; [done|]. case_decide.
  - intros [= <- <- <-]. split_and!; [done..|set_solver].
  - destruct (cfind h key c) as [[[d1 q] d2]|]; simpl; [|done]. intros [= <- <- <-].
    destruct (IH d1 q d2) as (-> & ? & ?); [done|]. split_and!; [done..|set_solver].
Qed.

Lemma cfind_None h key c : cfind h key c = None ↔ ∀ q, q ∈ c → n_key <$> h !! q ≠ Some key.
Proof.
  induction c as [|x c IH]; simpl; [split; [set_solver|done]|]. case_decide.
  - split; [done|]. intros Hq. exfalso. apply (Hq x); [by left|done].
  - destruct (cfind h key c) as [[[d1 q] d2]|]; simpl.
    + split; [done|]. intros Hq. exfalso. assert (Some (d1, q, d2) = None) by (apply IH; set_solver). done.
    + split; [|done]. intros _ q [->|]%elem_of_cons; [done|]. by apply IH.
Qed.

Lemma chain_find_spec h key c fuel prev :
  cseg h c → (length c < fuel)%nat →
  chain_find fuel h key (ohead c None) prev =
    inr (match cfind h key c with
         | Some (c1, p, _) => (Some p, olast c1 prev)
         | None => (None, olast c prev)
         end).
Proof.
  revert fuel prev. induction c as [|p c IH]; intros [|fuel] prev; simpl; try lia; [done|].
  intros [(n & Hn & Hch) Hc] Hf. rewrite Hn. simpl. case_bool_decide as Hk.
  - by rewrite decide_True by congruence.
  - rewrite decide_False by congruence. rewrite Hch, IH by (done || lia).
    destruct (cfind h key c) as [[[c1 q] c2]|]; simpl; by rewrite olast_cons.
Qed.
End nodes.

(** ** The heap updates of insertion, deletion and promotion *)

Section updates.
Context {D : Type}.
Implicit Types (h : heap D) (n : node D) (p q e : positive).

(** Links may change, keys and contents may not. *)
Definition same_data h h' (P : positive → Prop) : Prop :=
  ∀ q n, P q → h !! q = Some n → ∃ n', h' !! q = Some n' ∧ n_key n' = n_key n ∧ n_val n' = n_val n.

Lemma same_data_refl h P : same_data h h P.
Proof. intros q n _ Hn. eauto. Qed.
Lemma same_data_trans h1 h2 h3 P : same_data h1 h2 P → same_data h2 h3 P → same_data h1 h3 P.
Proof.
  intros H1 H2 q n Hq Hn. destruct (H1 q n Hq Hn) as (n2 & Hn2 & ? & ?).
  destruct (H2 q n2 Hq Hn2) as (n3 & Hn3 & ? & ?). exists n3. split_and!; congruence.
Qed.
Lemma same_data_alter h f p P :
  (∀ n, n_key (f n) = n_key n ∧ n_val (f n) = n_val n) → same_data h (alter f p h) P.
Proof.
  intros Hf q n _ Hn. destruct (lookup_alter_links h f p q n Hn) as (n' & ? & [->| ->]); [eauto|].
  destruct (Hf n). eauto.
Qed.
Lemma same_data_insert h p n P : h !! p = None → same_data h (<[p := n]> h) P.
Proof. intros Hp q m _ Hm. exists m. rewrite lookup_insert_ne by congruence. done. Qed.
Lemma same_data_link_next h (q b : option positive) P : same_data h (link_next q b h) P.
Proof. destruct q; [by apply same_data_alter|apply same_data_refl]. Qed.
Lemma same_data_link_prev h (q b : option positive) P : same_data h (link_prev q b h) P.
Proof. destruct q; [by apply same_data_alter|apply same_data_refl]. Qed.

Lemma cseg_link_next h (q b : option positive) c : cseg h c → cseg (link_next q b h) c.
Proof. destruct q; [by apply cseg_alter|done]. Qed.
Lemma cseg_link_prev h (q b : option positive) c : cseg h c → cseg (link_prev q b h) c.
Proof. destruct q; [by apply cseg_alter|done]. Qed.

(** [prev->chain = q]; nothing without a predecessor. *)
Definition link_chain (o : option positive) (q : option positive) h : heap D :=
  match o with Some o => alter (set_chain q) o h | None => h end.

Lemma same_data_link_chain h (o q : option positive) P : same_data h (link_chain o q h) P.
Proof. destruct o; [by apply same_data_alter|apply same_data_refl]. Qed.
Lemma dseg_link_chain h (o q : option positive) a l b : dseg h a l b → dseg (link_chain o q h) a l b.
Proof. destruct o; [by apply dseg_alter|done]. Qed.
Lemma cseg_link_chain_other h c (o q : option positive) d :
  (∀ p, p ∈ c → p ∉ d) → o = olast c None → cseg h d → cseg (link_chain o q h) d.
Proof.
  intros Hdis -> Hd. unfold olast. destruct (list.last c) as [z|] eqn:Hz; [|done].
  apply last_Some_elem_of in Hz. eapply cseg_ext; [exact Hd|]. intros p n Hp Hn. exists n. cbn.
  rewrite lookup_alter_ne by set_solver. done.
Qed.

(** Linking a new first node [e] in front of [l]. *)
Definition push_front e l h : heap D :=
  link_prev (ohead l None) (Some e) (alter (set_next (ohead l None)) e (alter (set_prev None) e h)).

Lemma dseg_push_front h e l :
  NoDup l → e ∉ l → is_Some (h !! e) → dseg h None l None → dseg (push_front e l h) None (e :: l) None.
Proof.
  intros Hnd He [n Hn] Hl. unfold push_front. set (h2 := alter (set_next _) e _).
  assert (dseg h2 None l None) as Hl2.
  { eapply dseg_ext; [exact Hl|]. intros q m Hq Hm. exists m. unfold h2.
    rewrite !lookup_alter_ne by set_solver. done. }
  assert (h2 !! e = Some (set_next (ohead l None) (set_prev None n))) as He2.
  { unfold h2. by rewrite lookup_alter_eq, lookup_alter_eq, Hn. }
  destruct l as [|q l]; cbn [ohead link_prev].
  - simpl. split; [|done]. eexists. split; [exact He2|done].
  - apply list.NoDup_cons in Hnd as [Hq Hnd].
    split; [|by apply (dseg_set_first h2 None (Some e) q l None)].
    eexists. rewrite lookup_alter_ne by set_solver. split; [exact He2|done].
Qed.
Lemma cseg_push_front h e l c : cseg h c → cseg (push_front e l h) c.
Proof. intros. apply cseg_link_prev. by do 2 (apply cseg_alter; [done|]). Qed.
Lemma same_data_push_front h e l P : same_data h (push_front e l h) P.
Proof.
  eapply same_data_trans; [|apply same_data_link_prev].
  eapply same_data_trans; by apply same_data_alter.
Qed.

(** Moving the node [p] to the front. *)
Lemma dseg_promote h l1 p l2 :
  NoDup (l1 ++ p :: l2) → dseg h None (l1 ++ p :: l2) None →
  dseg (push_front p (l1 ++ l2)
    (link_prev (ohead l2 None) (olast l1 None) (link_next (olast l1 None) (ohead l2 None) h)))
    None (p :: l1 ++ l2) None.
Proof.
  intros Hnd Hd. pose proof (dseg_unlink h l1 p l2 Hnd Hd) as Hu.
  destruct (dseg_lookup _ _ _ _ _ _ Hd) as (n & Hn & _).
  apply dseg_push_front; [| | |exact Hu].
  - apply list.NoDup_app in Hnd as (? & ? & ?%list.NoDup_cons). apply list.NoDup_app. set_solver.
  - apply list.NoDup_app in Hnd as (? & Hx & ?%list.NoDup_cons). set_solver.
  - destruct (same_data_trans _ _ _ (λ _, True) (same_data_link_next h (olast l1 None) (ohead l2 None) _)
      (same_data_link_prev _ (ohead l2 None) (olast l1 None) _) p n I Hn) as (n' & ? & _). eauto.
Qed.

(** Unlinking and freeing [p]. *)
Lemma dseg_remove h l1 p l2 :
  NoDup (l1 ++ p :: l2) → dseg h None (l1 ++ p :: l2) None →
  dseg (delete p (link_prev (ohead l2 None) (olast l1 None) (link_next (olast l1 None) (ohead l2 None) h)))
    None (l1 ++ l2) None.
Proof.
  intros Hnd Hd. apply dseg_delete; [|by apply (dseg_unlink h l1 p l2)].
  apply list.NoDup_app in Hnd as (? & Hx & ?%list.NoDup_cons). set_solver.
Qed.
Lemma cseg_append_last h c p :
  NoDup c → p ∉ c → cseg h c → (∃ n, h !! p = Some n ∧ n_chain n = None) →
  cseg (link_chain (olast c None) (Some p) h) (c ++ [p]).
Proof.
  intros Hnd Hp Hc Hn. unfold olast, link_chain. pose proof (cseg_append h c p Hnd Hp Hc Hn) as H.
  by destruct (list.last c).
Qed.
Lemma cseg_unlink_last h c1 p c2 :
  NoDup (c1 ++ p :: c2) → cseg h (c1 ++ p :: c2) →
  cseg (link_chain (olast c1 None) (ohead c2 None) h) (c1 ++ c2).
Proof.
  intros Hnd Hc. unfold olast, link_chain. pose proof (cseg_unlink h c1 p c2 Hnd Hc) as H.
  by destruct (list.last c1).
Qed.
End updates.
