(* ===== verification/LHMap.v ===== *)
(** * Linked hash map

    Models l4ka-driver-reuse/kernel/block/ebc_lhmap.c and ebc_lhmap.h: a hash
    map from 64-bit keys whose entries are also kept in a doubly linked list,
    newest first. The nodes a map has allocated are its own heap; [data]
    pointers are of an abstract type [D]. The functions are shown to implement a
    list of key-data pairs, and the interface is exported as a type class. *)

From Stdlib Require Import ZArith Lia.
From stdpp Require Import base list gmap numbers.
From S2P Require Import Prelude HashList.

(** ** Data *)

Record LHMap (D : Type) : Type := mk_lhmap {
  lm_entries : Z;
  lm_size : Z;
  lm_head : option positive;
  lm_tail : option positive;
  lm_iterator : option positive;
  lm_buckets : list (option positive);
  lm_heap : heap D
}.
Arguments mk_lhmap {D}.
Arguments lm_entries {D}.
Arguments lm_size {D}.
Arguments lm_head {D}.
Arguments lm_tail {D}.
Arguments lm_iterator {D}.
Arguments lm_buckets {D}.
Arguments lm_heap {D}.

(** Linux' [kmalloc] of one entry: NULL or memory that is not in use. *)
Class Kmalloc (D : Type) : Type := {
  kmalloc : LHMap D → option positive;
  kmalloc_fresh : ∀ m p, kmalloc m = Some p → lm_heap m !! p = None
}.

Section ops.
Context {D : Type} {KM : Kmalloc D}.
Implicit Types (m : LHMap D) (p q e : positive).
Abbreviation ML := (M (LHMap D)).

(** ** Field accesses *)

Definition lm_set_entries (n : Z) m :=
  mk_lhmap n (lm_size m) (lm_head m) (lm_tail m) (lm_iterator m) (lm_buckets m) (lm_heap m).
Definition lm_set_head (q : option positive) m :=
  mk_lhmap (lm_entries m) (lm_size m) q (lm_tail m) (lm_iterator m) (lm_buckets m) (lm_heap m).
Definition lm_set_tail (q : option positive) m :=
  mk_lhmap (lm_entries m) (lm_size m) (lm_head m) q (lm_iterator m) (lm_buckets m) (lm_heap m).
Definition lm_set_iterator (q : option positive) m :=
  mk_lhmap (lm_entries m) (lm_size m) (lm_head m) (lm_tail m) q (lm_buckets m) (lm_heap m).
Definition lm_set_buckets (b : list (option positive)) m :=
  mk_lhmap (lm_entries m) (lm_size m) (lm_head m) (lm_tail m) (lm_iterator m) b (lm_heap m).
Definition lm_set_heap (h : heap D) m :=
  mk_lhmap (lm_entries m) (lm_size m) (lm_head m) (lm_tail m) (lm_iterator m) (lm_buckets m) h.

Definition load p : ML (node D) := o ← mgets (λ m, lm_heap m !! p); mof_option DanglingDeref o.
Definition update p (f : node D → node D) : ML unit :=
  load p;; mmodify (λ m, lm_set_heap (alter f p (lm_heap m)) m).
Definition bucket_of (key : Z) : ML Z :=
  n ← mgets lm_size; if bool_decide (n = 0) then mfault DivByZero else mret (key `mod` n).
Definition get_bucket (b : Z) : ML (option positive) :=
  o ← mgets (λ m, zlookup (lm_buckets m) b); mof_option OutOfBounds o.
Definition set_bucket (b : Z) (q : option positive) : ML unit :=
  mmodify (λ m, lm_set_buckets (zinsert b q (lm_buckets m)) m).
(** Enough rounds for any chain of allocated nodes. *)
Definition walk_fuel m : nat := S (size (lm_heap m)).

(** ** Operations *)

(** [lhmap_create]; [garbage] is what the allocated bucket array contains, and
    [panic] does not return. *)
Definition lhmap_create (map_ok buckets_ok : bool) (garbage : list (option positive)) (sz : Z)
    : fault + LHMap D :=
  if map_ok && buckets_ok then inr (mk_lhmap 0 sz None None None garbage ∅) else inl KernelPanic.

Definition lhmap_insert (key : Z) (data : D) : ML Z :=
  b ← bucket_of key;
  e ← mgets kmalloc;
  e ← mof_option KernelPanic e;
  mmodify (λ m, lm_set_heap (<[e := mk_node key None None None data]> (lm_heap m)) m);;
  first ← get_bucket b;
  match first with
  | Some _ =>
      m ← mget;
      prev ← mof_sum (chain_end (walk_fuel m) (lm_heap m) first first);
      prev ← mof_option AssertFail prev;
      update prev (set_chain (Some e))
  | None => set_bucket b (Some e)
  end;;
  hd ← mgets lm_head;
  match hd with
  | None =>
      mmodify (lm_set_tail (Some e));; mmodify (lm_set_head (Some e));;
      update e (set_next None);; update e (set_prev None)
  | Some q =>
      update e (set_prev None);; update e (set_next hd);;
      update q (set_prev (Some e));; mmodify (lm_set_head (Some e))
  end;;
  mmodify (λ m, lm_set_entries (u32 (lm_entries m + 1)) m);;
  mret 0.

Definition lhmap_lookup (key : Z) : ML (option D) :=
  b ← bucket_of key;
  first ← get_bucket b;
  m ← mget;
  r ← mof_sum (chain_find (walk_fuel m) (lm_heap m) key first None);
  match r.1 with
  | Some e => n ← load e; mret (Some (n_val n))
  | None => mret None
  end.

(** The part of [lhmap_delete] that updates the linked list. *)
Definition delete_unlink e : ML unit :=
  hd ← mgets lm_head;
  tl ← mgets lm_tail;
  n ← load e;
  if bool_decide (Some e = hd) then
    mmodify (lm_set_head (n_next n));;
    match n_next n with Some q => update q (set_prev None) | None => mret tt end
  else if bool_decide (Some e = tl) then
    mmodify (lm_set_tail (n_prev n));;
    match n_prev n with Some q => update q (set_next None) | None => mret tt end
  else
    p ← mof_option NullDeref (n_prev n);
    update p (set_next (n_next n));;
    q ← mof_option NullDeref (n_next n);
    update q (set_prev (n_prev n)).

Definition lhmap_delete (key : Z) : ML (option D) :=
  b ← bucket_of key;
  first ← get_bucket b;
  m ← mget;
  r ← mof_sum (chain_find (walk_fuel m) (lm_heap m) key first None);
  match r.1 with
  | None => mret None
  | Some e =>
      n ← load e;
      (if bool_decide (Some e = first) then set_bucket b (n_chain n)
       else
         q ← mof_option NullDeref r.2;
         nq ← load q;
         massert (bool_decide (n_chain nq = Some e));;
         update q (set_chain (n_chain n)));;
      delete_unlink e;;
      cnt ← mgets lm_entries;
      massert (bool_decide (0 < cnt));;
      mmodify (lm_set_entries (u32 (cnt - 1)));;
      n ← load e;
      mmodify (λ m, lm_set_heap (delete e (lm_heap m)) m);;
      mret (Some (n_val n))
  end.

Definition lhmap_to_front (key : Z) : ML (option D) :=
  b ← bucket_of key;
  first ← get_bucket b;
  m ← mget;
  r ← mof_sum (chain_find (walk_fuel m) (lm_heap m) key first None);
  match r.1 with
  | None => mret None
  | Some e =>
      hd ← mgets lm_head;
      if bool_decide (Some e = hd) then mret None else
      tl ← mgets lm_tail;
      n ← load e;
      (if bool_decide (Some e = tl) then
         mmodify (lm_set_tail (n_prev n));;
         q ← mof_option NullDeref (n_prev n);
         update q (set_next None)
       else
         p ← mof_option NullDeref (n_prev n);
         update p (set_next (n_next n));;
         q ← mof_option NullDeref (n_next n);
         update q (set_prev (n_prev n)));;
      update e (set_prev None);;
      update e (set_next hd);;
      q ← mof_option NullDeref hd;
      update q (set_prev (Some e));;
      mmodify (lm_set_head (Some e));;
      n ← load e;
      mret (Some (n_val n))
  end.

(** [lhmap_delete_last]: data and key of the entry. *)
Definition lhmap_delete_last : ML (option (D * Z)) :=
  tl ← mgets lm_tail;
  match tl with
  | Some t =>
      n ← load t;
      lhmap_delete (n_key n);;
      mret (Some (n_val n, n_key n))
  | None => mret None
  end.

Definition lhmap_iterator_start : ML unit := mmodify (λ m, lm_set_iterator (lm_head m) m).
Definition lhmap_iterator_next : ML (option (D * Z)) :=
  it ← mgets lm_iterator;
  match it with
  | Some p =>
      n ← load p;
      mmodify (lm_set_iterator (n_next n));;
      mret (Some (n_val n, n_key n))
  | None => mret None
  end.

(** [lhmap_force_recount] *)
Fixpoint recount_buckets (fuel : nat) (h : heap D) (bs : list (option positive)) (acc : Z) : fault + Z :=
  match bs with
  | [] => inr acc
  | b :: bs =>
      match chain_count fuel h b acc with
      | inl f => inl f
      | inr acc => recount_buckets fuel h bs acc
      end
  end.
Definition lhmap_force_recount : ML Z :=
  m ← mget;
  mof_sum (recount_buckets (walk_fuel m) (lm_heap m) (take (Z.to_nat (lm_size m)) (lm_buckets m)) 0).
End ops.

(** ** What a map represents *)

Section theory.
Context {D : Type} {KM : Kmalloc D}.
Implicit Types (m : LHMap D) (p q e : positive) (l : list positive) (k : list (Z * D)).

Definition holds (h : heap D) p (kv : Z * D) : Prop := ∃ n, h !! p = Some n ∧ (n_key n, n_val n) = kv.

(** [wf m l cs k]: the list runs through the nodes [l], bucket [i] through the
    chain [cs !! i], and the nodes hold the pairs [k]. The tail pointer is only
    meaningful while the map is not empty. *)
Record wf m l (cs : list (list positive)) k : Prop := {
  wf_nodup : NoDup l;
  wf_dll : dseg (lm_heap m) None l None;
  wf_head : lm_head m = ohead l None;
  wf_tail : l ≠ [] → lm_tail m = olast l None;
  wf_count : lm_entries m = length l;
  wf_max : length l < 2 ^ 32;
  wf_size : 0 < lm_size m ∧ lm_size m = length (lm_buckets m);
  wf_cs : length cs = length (lm_buckets m);
  wf_chain : ∀ (i : nat) c, cs !! i = Some c →
    lm_buckets m !! i = Some (ohead c None) ∧ cseg (lm_heap m) c ∧
    ∀ p, p ∈ c → ∃ n, lm_heap m !! p = Some n ∧ n_key n `mod` lm_size m = i;
  wf_perm : concat cs ≡ₚ l;
  wf_holds : Forall2 (holds (lm_heap m)) l k
}.

Definition repr m k : Prop := ∃ l cs, wf m l cs k.

Lemma wf_in_heap m l cs k p : wf m l cs k → p ∈ l → is_Some (lm_heap m !! p).
Proof.
  intros W (i & Hi)%list_elem_of_lookup. destruct (Forall2_lookup_l _ _ _ _ _ (wf_holds _ _ _ _ W) Hi)
    as (kv & _ & n & Hn & _). eauto.
Qed.

Lemma wf_chain_sub m l cs k (i : nat) c p : wf m l cs k → cs !! i = Some c → p ∈ c → p ∈ l.
Proof.
  intros W Hi Hp. rewrite <- (wf_perm _ _ _ _ W). apply list_elem_of_In, in_concat.
  exists c. split; apply list_elem_of_In; [by eapply list_elem_of_lookup_2|done].
Qed.

Lemma concat_split (cs : list (list positive)) (i : nat) c :
  cs !! i = Some c → ∀ c', ∃ xs ys, concat cs = xs ++ c ++ ys ∧ concat (<[i := c']> cs) = xs ++ c' ++ ys.
Proof.
  intros Hi c'. exists (concat (take i cs)), (concat (drop (S i) cs)).
  pose proof (lookup_lt_Some _ _ _ Hi). split.
  - rewrite <- (take_drop_middle cs i c Hi) at 1. by rewrite concat_app.
  - rewrite insert_take_drop by done. by rewrite concat_app.
Qed.

Lemma wf_chain_nodup m l cs k (i : nat) c : wf m l cs k → cs !! i = Some c → NoDup c.
Proof.
  intros W Hi. destruct (concat_split cs i c Hi c) as (xs & ys & Hc & _).
  pose proof (wf_nodup _ _ _ _ W) as Hnd. rewrite <- (wf_perm _ _ _ _ W), Hc in Hnd.
  apply list.NoDup_app in Hnd as (_ & _ & Hnd). by apply list.NoDup_app in Hnd as (Hnd & _).
Qed.

Lemma wf_chains_disjoint m l cs k (i j : nat) c d p :
  wf m l cs k → cs !! i = Some c → cs !! j = Some d → i ≠ j → p ∈ c → p ∉ d.
Proof.
  intros W Hi Hj Hne Hp Hd. destruct (wf_chain _ _ _ _ W i c Hi) as (_ & _ & H1).
  destruct (wf_chain _ _ _ _ W j d Hj) as (_ & _ & H2).
  destruct (H1 p Hp) as (n & Hn & Hki). destruct (H2 p Hd) as (n' & Hn' & Hkj). simplify_eq. lia.
Qed.

Lemma wf_fuel m l cs k (i : nat) c : wf m l cs k → cs !! i = Some c → (length c < walk_fuel m)%nat.
Proof.
  intros W Hi. pose proof (wf_chain_nodup _ _ _ _ _ _ W Hi) as Hnd.
  unfold walk_fuel. apply Nat.lt_succ_r. rewrite <- size_dom, <- (size_list_to_set (C := gset positive)) by done.
  apply subseteq_size. intros p Hp%elem_of_list_to_set. apply elem_of_dom.
  by eapply wf_in_heap, wf_chain_sub.
Qed.

(** The bucket of a key. *)
Lemma wf_bucket m l cs k key :
  wf m l cs k → ∃ c, let i := Z.to_nat (key `mod` lm_size m) in cs !! i = Some c ∧
    bucket_of key m = Ok (key `mod` lm_size m) m ∧
    get_bucket (key `mod` lm_size m) m = Ok (ohead c None) m ∧
    0 ≤ key `mod` lm_size m < length (lm_buckets m).
Proof.
  intros W. destruct (wf_size _ _ _ _ W) as [Hpos Hsz].
  pose proof (Z.mod_pos_bound key (lm_size m) Hpos) as Hb.
  destruct (lookup_lt_is_Some_2 cs (Z.to_nat (key `mod` lm_size m))) as [c Hc].
  { rewrite (wf_cs _ _ _ _ W). lia. }
  exists c. split_and!; [done| | |lia|lia].
  - unfold bucket_of, mgets, mbind, M_bind. by rewrite bool_decide_eq_false_2 by lia.
  - unfold get_bucket, mgets, mbind, M_bind.
    destruct (wf_chain _ _ _ _ W _ _ Hc) as (Hl & _ & _).
    unfold zlookup. rewrite decide_True by lia. by rewrite Hl.
Qed.

Lemma Forall2_holds_ext (h h' : heap D) l k :
  Forall2 (holds h) l k →
  (∀ p n, p ∈ l → h !! p = Some n → ∃ n', h' !! p = Some n' ∧ n_key n' = n_key n ∧ n_val n' = n_val n) →
  Forall2 (holds h') l k.
Proof.
  intros H. induction H as [|p kv l k (n & Hn & <-) Hl IH]; intros Hext; constructor.
  - destruct (Hext p n) as (n' & ? & ? & ?); [by left|done|]. exists n'. split; congruence.
  - apply IH. intros q n' Hq. apply Hext. by right.
Qed.

(** Where a search ends. *)
Lemma wf_find m l cs k key :
  wf m l cs k → ∃ c, let i := Z.to_nat (key `mod` lm_size m) in cs !! i = Some c ∧
    chain_find (walk_fuel m) (lm_heap m) key (ohead c None) None =
      inr (match cfind (lm_heap m) key c with
           | Some (c1, p, _) => (Some p, olast c1 None)
           | None => (None, olast c None)
           end) ∧
    match cfind (lm_heap m) key c with
    | Some (c1, p, c2) => ∃ l1 l2 k1 v k2, l = l1 ++ p :: l2 ∧ k = k1 ++ (key, v) :: k2 ∧
        length k1 = length l1 ∧ holds (lm_heap m) p (key, v)
    | None => key ∉ k.*1
    end.
Proof.
  intros W. destruct (wf_bucket m l cs k key W) as (c & Hc & _). cbv zeta in Hc. exists c.
  destruct (wf_chain _ _ _ _ W _ _ Hc) as (_ & Hseg & Hkeys).
  split_and!; [done|by apply chain_find_spec; [|eapply wf_fuel]|].
  destruct (cfind (lm_heap m) key c) as [[[c1 p] c2]|] eqn:Hf.
  - apply cfind_Some in Hf as (-> & Hkey & _).
    assert (p ∈ l) as Hp by (eapply wf_chain_sub; [done..|set_solver]).
    apply list_elem_of_split in Hp as (l1 & l2 & ->).
    pose proof (wf_holds _ _ _ _ W) as Hh. apply Forall2_app_inv_l in Hh as (k1 & k2' & H1 & H2 & ->).
    apply Forall2_cons_inv_l in H2 as ([key' v] & k2 & Hp & H2 & ->).
    destruct Hp as (n & Hn & [= <- <-]). rewrite Hn in Hkey. simpl in Hkey. injection Hkey as <-.
    exists l1, l2, k1, (n_val n), k2. split_and!; [done..| |by exists n].
    symmetry. by eapply Forall2_length.
  - intros (kv & Hkv & Hin)%list_elem_of_fmap. apply list_elem_of_lookup in Hin as (j & Hj).
    destruct (Forall2_lookup_r _ _ _ _ _ (wf_holds _ _ _ _ W) Hj) as (p & Hp & n & Hn & <-).
    simpl in Hkv. apply cfind_None with (q := p) in Hf.
    + apply Hf. rewrite Hn, Hkv. done.
    + assert (p ∈ concat cs) as Hpc.
      { rewrite (wf_perm _ _ _ _ W). by eapply list_elem_of_lookup_2. }
      apply list_elem_of_In, in_concat in Hpc as (d & Hd%list_elem_of_In & Hpd%list_elem_of_In).
      apply list_elem_of_lookup in Hd as (i & Hd).
      destruct (wf_chain _ _ _ _ W _ _ Hd) as (_ & _ & Hk). destruct (Hk p Hpd) as (n' & Hn' & Hmod).
      assert (i = Z.to_nat (key `mod` lm_size m)) as ->; [|by simplify_eq].
      rewrite Hn in Hn'. injection Hn' as <-. rewrite Hkv. lia.
Qed.

(** ** The operations on well-formed maps *)

Lemma wp_load F p n Q m : lm_heap m !! p = Some n → Q n m → wp F (load p) Q m.
Proof. intros Hn HQ. unfold load. apply wp_bind, wp_mgets. by rewrite Hn. Qed.
Lemma wp_update F p f Q m :
  is_Some (lm_heap m !! p) → Q tt (lm_set_heap (alter f p (lm_heap m)) m) → wp F (update p f) Q m.
Proof. intros [n Hn] HQ. unfold update. apply wp_bind. eapply wp_load; [exact Hn|]. done. Qed.

Lemma is_Some_alter {A} (f : A → A) p (h : gmap positive A) q :
  is_Some (h !! q) → is_Some (alter f p h !! q).
Proof. rewrite lookup_alter_is_Some. done. Qed.

(** Replacing one chain. *)
Lemma wf_chains_insert m l cs k (i : nat) c (h' : heap D) bs' c' l' k' (en : Z) hd tl it :
  wf m l cs k → cs !! i = Some c → NoDup l' → dseg h' None l' None → hd = ohead l' None →
  (l' ≠ [] → tl = olast l' None) → en = length l' → length l' < 2 ^ 32 →
  bs' = <[i := ohead c' None]> (lm_buckets m) → cseg h' c' →
  (∀ p, p ∈ c' → ∃ n, h' !! p = Some n ∧ n_key n `mod` lm_size m = i) →
  (∀ d p, cseg (lm_heap m) d → (∀ p, p ∈ c → p ∉ d) → (∀ p, p ∈ d → p ∈ l) → cseg h' d ∧
     (p ∈ d → ∃ n n', lm_heap m !! p = Some n ∧ h' !! p = Some n' ∧ n_key n' = n_key n)) →
  (∀ xs ys, xs ++ c ++ ys ≡ₚ l → xs ++ c' ++ ys ≡ₚ l') →
  Forall2 (holds h') l' k' →
  wf (mk_lhmap en (lm_size m) hd tl it bs' h') l' (<[i := c']> cs) k'.
Proof.
  intros W Hi Hnd Hd Hhd Htl Hen Hmax -> Hc' Hkeys Hother Hperm Hh.
  assert (i < length (lm_buckets m))%nat as Hlt.
  { rewrite <- (wf_cs _ _ _ _ W). by eapply lookup_lt_Some. }
  split; cbn; auto.
  - rewrite length_insert. apply W.
  - rewrite !length_insert. apply W.
  - intros j d. rewrite list_lookup_insert_Some. intros [(<- & <- & _)|[Hij Hj]].
    { by rewrite list_lookup_insert_eq. }
    destruct (wf_chain _ _ _ _ W j d Hj) as (Hb & Hseg & Hk).
    assert (∀ p, p ∈ c → p ∉ d) as Hdis by (intros p; by eapply wf_chains_disjoint; eauto).
    assert (∀ p, p ∈ d → p ∈ l) as Hsub by (intros p; by eapply wf_chain_sub).
    split_and!; [by rewrite list_lookup_insert_ne| |].
    + by apply (Hother d 1%positive).
    + intros p Hp. destruct (Hother d p Hseg Hdis Hsub) as [_ Hp']. destruct (Hp' Hp) as (n & n' & Hn & Hn' & Hk').
      destruct (Hk p Hp) as (n2 & Hn2 & ?). exists n'. split; [done|]. congruence.
  - destruct (concat_split cs i c Hi c') as (xs & ys & H1 & ->). apply Hperm.
    rewrite <- H1. apply W.
Qed.

(** The same nodes in another order. *)
Lemma wf_reorder m l cs k (h' : heap D) l' k' hd tl :
  wf m l cs k → l' ≡ₚ l → dseg h' None l' None → hd = ohead l' None →
  (l' ≠ [] → tl = olast l' None) → (∀ c, cseg (lm_heap m) c → cseg h' c) →
  same_data (lm_heap m) h' (λ _, True) → Forall2 (holds h') l' k' →
  wf (mk_lhmap (lm_entries m) (lm_size m) hd tl (lm_iterator m) (lm_buckets m) h') l' cs k'.
Proof.
  intros W Hp Hd Hhd Htl Hc Hs Hh. split; cbn; auto; try apply W.
  - rewrite Hp. apply W.
  - rewrite Hp. apply W.
  - rewrite Hp. apply W.
  - intros i c Hi. destruct (wf_chain _ _ _ _ W i c Hi) as (? & ? & Hk). split_and!; auto.
    intros p Hpc. destruct (Hk p Hpc) as (n & Hn & ?). destruct (Hs p n I Hn) as (n' & ? & Hk' & _).
    exists n'. split; [done|]. by rewrite Hk'.
  - rewrite Hp. apply W.
Qed.

Lemma holds_same_data h h' l k P :
  Forall2 (holds h) l k → same_data h h' P → (∀ p, p ∈ l → P p) → Forall2 (holds h') l k.
Proof.
  intros Hh Hs HP. eapply Forall2_holds_ext; [exact Hh|]. intros p n Hp Hn. apply Hs; auto.
Qed.

Lemma walk_fuel_insert m l cs k (i : nat) c e n :
  wf m l cs k → cs !! i = Some c → lm_heap m !! e = None →
  (length c < S (size (<[e := n]> (lm_heap m))))%nat.
Proof.
  intros W Hi He. pose proof (wf_fuel _ _ _ _ _ _ W Hi) as Hf. unfold walk_fuel in Hf.
  rewrite map_size_insert_None by done. lia.
Qed.

(** The chain part of an insertion: the new node is appended to its chain. *)
Lemma insert_chain F m l cs k key d e c Q :
  wf m l cs k → lm_heap m !! e = None → cs !! Z.to_nat (key `mod` lm_size m) = Some c →
  let b := key `mod` lm_size m in
  let h0 := <[e := mk_node key None None None d]> (lm_heap m) in
  let first := ohead c None in
  Q tt (lm_set_heap (link_chain (olast c None) (Some e) h0)
        (lm_set_buckets (<[Z.to_nat b := ohead (c ++ [e]) None]> (lm_buckets m)) m)) →
  wp F (match first with
        | Some _ =>
            m ← mget;
            prev ← mof_sum (chain_end (walk_fuel m) (lm_heap m) first first);
            prev ← mof_option AssertFail prev;
            update prev (set_chain (Some e))
        | None => set_bucket b (Some e)
        end) Q (lm_set_heap h0 m).
Proof.
  intros W He Hc b h0 first HQ. destruct (wf_chain _ _ _ _ W _ _ Hc) as (Hb & Hseg & _).
  destruct (wf_size _ _ _ _ W) as [Hpos Hsz].
  assert (0 ≤ b) as Hb0 by (apply Z.mod_pos_bound; done).
  assert (cseg h0 c) as Hseg0 by (by apply cseg_insert_fresh).
  destruct c as [|x c]; cbn [ohead] in first; subst first.
  - unfold set_bucket. apply wp_mmodify. unfold zinsert. rewrite decide_True by done. exact HQ.
  - apply wp_bind, wp_mget. apply wp_bind.
    assert (chain_end (walk_fuel (lm_set_heap h0 m)) h0 (ohead (x :: c) None) (Some x)
      = inr (olast (x :: c) (Some x))) as Hend.
    { apply chain_end_spec; [done|]. by eapply walk_fuel_insert. }
    cbn [ohead lm_heap lm_set_heap] in *. rewrite Hend. cbn [mof_sum]. apply wp_mret.
    rewrite olast_cons in *. destruct (olast c (Some x)) as [z|] eqn:Hz.
    2:{ unfold olast in Hz. by destruct (list.last c). }
    apply wp_bind, wp_mof_option; [done|]. intros ? [= <-]. apply wp_update.
    + cbn. assert (z ∈ x :: c) as Hzin.
      { unfold olast in Hz. destruct (list.last c) eqn:Hl; simplify_eq; [|by left].
        right. by apply last_Some_elem_of. }
      assert (z ∈ l) as Hzl by (eapply wf_chain_sub; [exact W|exact Hc|exact Hzin]).
      destruct (wf_in_heap _ _ _ _ _ W Hzl) as [nz Hnz]. exists nz.
      unfold h0. rewrite lookup_insert_ne by congruence. done.
    + cbn [link_chain ohead app] in HQ. rewrite list_insert_id in HQ by done. destruct m. exact HQ.
Qed.

Lemma insert_ok F m k key d :
  repr m k → is_Some (kmalloc m) → length k + 1 < 2 ^ 32 →
  wp F (lhmap_insert key d) (λ r m', r = 0 ∧ repr m' ((key, d) :: k)) m.
Proof.
  intros (l & cs & W) [e He] Hmax. pose proof (kmalloc_fresh _ _ He) as Hfresh.
  destruct (wf_bucket m l cs k key W) as (c & Hc & Hb & Hg & Hr). cbv zeta in Hc.
  unfold lhmap_insert. apply wp_bind. eapply wp_run; [exact Hb|]. cbv beta.
  apply wp_bind, wp_mgets. rewrite He. apply wp_bind, wp_mof_option; [done|]. intros ? [= <-].
  apply wp_bind, wp_mmodify. apply wp_bind. eapply wp_run.
  { instantiate (1 := lm_set_heap (<[e := mk_node key None None None d]> (lm_heap m)) m).
    instantiate (1 := ohead c None). unfold get_bucket in *. unfold mgets, mbind, M_bind in *. cbn in *.
    destruct (zlookup (lm_buckets m) (key `mod` lm_size m)); simpl in *; [by injection Hg as ->|done]. }
  cbv beta. apply wp_bind. eapply insert_chain; [done..|].
  set (h1 := link_chain _ _ _).
  pose proof (wf_chain _ _ _ _ W _ _ Hc) as (Hbk & Hseg & Hkeys).
  pose proof (wf_chain_nodup _ _ _ _ _ _ W Hc) as Hndc.
  assert (e ∉ l) as Hel.
  { intros Hin. destruct (wf_in_heap _ _ _ _ _ W Hin). congruence. }
  assert (e ∉ c) as Hec by (intros Hin; apply Hel; by eapply wf_chain_sub).
  assert (same_data (lm_heap m) h1 (λ _, True)) as Hs1.
  { eapply same_data_trans; [|apply same_data_link_chain]. by apply same_data_insert. }
  assert (is_Some (h1 !! e)) as He1.
  { destruct (same_data_link_chain (<[e := mk_node key None None None d]> (lm_heap m)) (olast c None) (Some e)
      (λ _, True) e (mk_node key None None None d) I) as (n' & Hn' & _); [by rewrite lookup_insert_eq|eauto]. }
  assert (dseg h1 None l None) as Hd1.
  { apply dseg_link_chain, dseg_insert_fresh; [done|apply W]. }
  apply wp_bind, wp_mgets. cbn [lm_head lm_set_heap lm_set_buckets]. rewrite (wf_head _ _ _ _ W).
  (* both ways of linking are [push_front] *)
  assert (∀ m2, lm_heap m2 = push_front e l h1 → lm_entries m2 = lm_entries m → lm_size m2 = lm_size m →
    lm_head m2 = Some e → (lm_tail m2 = olast (e :: l) None) →
    lm_buckets m2 = <[Z.to_nat (key `mod` lm_size m) := ohead (c ++ [e]) None]> (lm_buckets m) →
    wp F (mmodify (λ m, lm_set_entries (u32 (lm_entries m + 1)) m);; mret 0)
      (λ r m', r = 0 ∧ repr m' ((key, d) :: k)) m2) as Hfin.
  { intros m2 E1 E2 E3 E4 E5 E6. apply wp_bind, wp_mmodify, wp_mret. split; [done|].
    assert (length l = length k) as Hlen by (eapply Forall2_length; apply W).
    exists (e :: l), (<[Z.to_nat (key `mod` lm_size m) := c ++ [e]]> cs).
    unfold lm_set_entries. rewrite E1, E2, E3, E4, E6, (wf_count _ _ _ _ W).
    rewrite wrap_small by lia.
    eapply wf_chains_insert; try exact W; try exact Hc; try done.
    - apply list.NoDup_cons. split; [done|apply W].
    - apply dseg_push_front; try done. apply W.
    - simpl. lia.
    - simpl. lia.
    - apply cseg_push_front, cseg_append_last; try done; [by apply cseg_insert_fresh|].
      eexists. by rewrite lookup_insert_eq.
    - intros p [Hp|Hp%list_elem_of_singleton]%elem_of_app.
      + destruct (Hkeys p Hp) as (n & Hn & Hmod).
        destruct (same_data_trans _ _ _ _ Hs1 (same_data_push_front h1 e l _) p n I Hn) as (n' & ? & Hk & _).
        exists n'. split; [done|]. by rewrite Hk.
      + subst p. destruct He1 as [n1 Hn1].
        destruct (same_data_push_front h1 e l (λ _, True) e n1 I Hn1) as (n' & Hn' & Hk & _).
        exists n'. split; [done|]. rewrite Hk.
        destruct (same_data_link_chain (<[e := mk_node key None None None d]> (lm_heap m)) (olast c None) (Some e)
          (λ _, True) e (mk_node key None None None d) I) as (n2 & Hn2 & Hk2 & _); [by rewrite lookup_insert_eq|].
        fold h1 in Hn2. simplify_eq. rewrite Hk2. simpl. lia.
    - intros dd p Hdd Hdis Hsub. split.
      + apply cseg_push_front, (cseg_link_chain_other _ c); [done..|]. by apply cseg_insert_fresh.
      + intros Hp. destruct (wf_in_heap _ _ _ _ _ W (Hsub p Hp)) as [n Hn].
        destruct (same_data_trans _ _ _ _ Hs1 (same_data_push_front h1 e l _) p n I Hn) as (n' & ? & Hk & _).
        eauto.
    - intros xs ys Hp. rewrite <- Hp. solve_Permutation.
    - constructor.
      + destruct (same_data_link_chain (<[e := mk_node key None None None d]> (lm_heap m)) (olast c None) (Some e)
          (λ _, True) e (mk_node key None None None d) I) as (n2 & Hn2 & Hk2 & Hv2); [by rewrite lookup_insert_eq|].
        destruct (same_data_push_front h1 e l (λ _, True) e n2 I Hn2) as (n' & Hn' & Hk & Hv).
        exists n'. split; [done|]. f_equal; [by rewrite Hk, Hk2|by rewrite Hv, Hv2].
      + eapply holds_same_data; [apply W|eapply same_data_trans; [exact Hs1|apply same_data_push_front]|done]. }
  destruct l as [|q l]; cbn [ohead].
  - apply wp_bind. wp_steps. apply wp_update; [done|]. apply wp_update; [by apply is_Some_alter|].
    apply Hfin; try done. cbn. unfold push_front. cbn [ohead link_prev].
    apply map_eq. intros j. rewrite !lookup_alter. repeat case_decide; try done.
    subst. by destruct (h1 !! j).
  - apply wp_bind. apply wp_bind, wp_update; [done|]. apply wp_bind, wp_update; [by apply is_Some_alter|].
    apply wp_bind, wp_update.
    { destruct (wf_in_heap _ _ _ _ q W) as [nq Hnq]; [by left|].
      destruct (Hs1 q nq I Hnq) as (n' & ? & _). do 2 apply is_Some_alter. eauto. }
    apply wp_mmodify. apply Hfin; try done. cbn. by rewrite (wf_tail _ _ _ _ W) by done.
Qed.

(** A search in the code ends where [wf_find] says. *)
Lemma wp_search {A} F m l cs k key 
    (K : Z → option positive → option positive * option positive → M (LHMap D) A) Q :
  wf m l cs k →
  (∀ c, cs !! Z.to_nat (key `mod` lm_size m) = Some c →
     match cfind (lm_heap m) key c with
     | Some (c1, p, c2) => ∀ l1 l2 k1 v k2, l = l1 ++ p :: l2 → k = k1 ++ (key, v) :: k2 →
         length k1 = length l1 → holds (lm_heap m) p (key, v) → c = c1 ++ p :: c2 →
         wp F (K (key `mod` lm_size m) (ohead c None) (Some p, olast c1 None)) Q m
     | None => key ∉ k.*1 → wp F (K (key `mod` lm_size m) (ohead c None) (None, olast c None)) Q m
     end) →
  wp F (b ← bucket_of key; first ← get_bucket b; m ← mget;
        r ← mof_sum (chain_find (walk_fuel m) (lm_heap m) key first None); K b first r) Q m.
Proof.
  intros W HK. destruct (wf_bucket m l cs k key W) as (c & Hc & Hb & Hg & _). cbv zeta in Hc.
  destruct (wf_find m l cs k key W) as (c' & Hc' & Hf & Hspec). cbv zeta in Hc'. simplify_eq.
  apply wp_bind. eapply wp_run; [exact Hb|]. cbv beta. apply wp_bind. eapply wp_run; [exact Hg|]. cbv beta.
  apply wp_bind, wp_mget. rewrite Hf. apply wp_bind. cbn [mof_sum]. apply wp_mret.
  specialize (HK c Hc). destruct (cfind (lm_heap m) key c) as [[[c1 p] c2]|] eqn:Hcf.
  - destruct Hspec as (l1 & l2 & k1 & v & k2 & Hl & Hk & Hlen & Hh).
    apply cfind_Some in Hcf as (Hcc & _). by eapply HK.
  - by apply HK.
Qed.

Lemma lookup_ok F m k key :
  repr m k →
  wp F (lhmap_lookup key) (λ r m', m' = m ∧
    match r with Some v => (key, v) ∈ k | None => key ∉ k.*1 end) m.
Proof.
  intros (l & cs & W). unfold lhmap_lookup. eapply (wp_search F m l cs k key
    (λ _ _ r, match r.1 with Some e => n ← load e; mret (Some (n_val n)) | None => mret None end)); [done|].
  intros c Hc. destruct (cfind (lm_heap m) key c) as [[[c1 p] c2]|].
  - intros l1 l2 k1 v k2 -> -> _ (n & Hn & [= Hk Hv]) _. cbn [fst]. apply wp_bind.
    eapply wp_load; [exact Hn|]. apply wp_mret. split; [done|]. subst. set_solver.
  - intros Hni. cbn [fst]. by apply wp_mret.
Qed.

(** Unlinking a node from the doubly linked list, as [lhmap_delete] does it. *)
Lemma unlink_ok F m l1 e l2 Q :
  NoDup (l1 ++ e :: l2) → dseg (lm_heap m) None (l1 ++ e :: l2) None →
  lm_head m = ohead (l1 ++ e :: l2) None → lm_tail m = olast (l1 ++ e :: l2) None →
  (∀ tl, (l1 ++ l2 ≠ [] → tl = olast (l1 ++ l2) None) →
    Q tt (mk_lhmap (lm_entries m) (lm_size m) (ohead (l1 ++ l2) None) tl (lm_iterator m) (lm_buckets m)
      (link_prev (ohead l2 None) (olast l1 None) (link_next (olast l1 None) (ohead l2 None) (lm_heap m))))) →
  wp F (delete_unlink e) Q m.
Proof.
  intros Hnd Hd Hhd Htl HQ. destruct (dseg_lookup _ _ _ _ _ _ Hd) as (n & Hn & Hprev & Hnext).
  assert (∀ x, x ∈ l1 ++ e :: l2 → is_Some (lm_heap m !! x)) as Hin.
  { intros x (a & b & Hx)%list_elem_of_split. rewrite Hx in Hd.
    destruct (dseg_lookup _ _ _ _ _ _ Hd) as (? & ? & _). eauto. }
  assert (∀ x, olast l1 None = Some x → x ∈ l1) as Hlast.
  { intros x Hx. unfold olast in Hx. destruct (list.last l1) eqn:Hl; simplify_eq. by apply last_Some_elem_of. }
  apply list.NoDup_app in Hnd as (Hnd1 & Hdis & Hnd2). apply list.NoDup_cons in Hnd2 as [He2 Hnd2].
  unfold delete_unlink. do 2 apply wp_bind, wp_mgets. apply wp_bind. eapply wp_load; [exact Hn|].
  rewrite Hhd, Htl, Hprev, Hnext.
  destruct l1 as [|x l1].
  - cbn [ohead app olast list.last]. rewrite bool_decide_eq_true_2 by done.
    apply wp_bind, wp_mmodify. destruct l2 as [|y l2]; cbn [ohead].
    + apply wp_mret. destruct m. by apply HQ.
    + apply wp_update; [apply Hin; set_solver|]. apply HQ. intros _. cbn [lm_tail lm_set_head]. rewrite Htl.
      cbn [app]. by rewrite !olast_cons.
  - rewrite bool_decide_eq_false_2 by (cbn; set_solver).
    assert (∃ z, olast (x :: l1) None = Some z) as [z Hz].
    { rewrite olast_cons. unfold olast. destruct (list.last l1); eauto. }
    pose proof (Hlast z Hz) as Hzin.
    destruct l2 as [|y l2].
    + rewrite olast_app, bool_decide_eq_true_2 by done. apply wp_bind, wp_mmodify. rewrite Hz.
      apply wp_update; [apply Hin; set_solver|].
      specialize (HQ (Some z)). rewrite Hz, app_nil_r in HQ.
      unfold lm_set_heap, lm_set_tail. cbn [lm_head lm_entries lm_size lm_iterator lm_buckets lm_heap lm_tail].
      rewrite Hhd. by apply HQ.
    + rewrite olast_app, olast_cons, bool_decide_eq_false_2.
      2:{ rewrite olast_cons. unfold olast. destruct (list.last l2) as [w|] eqn:Hw; [|set_solver].
          apply last_Some_elem_of in Hw. set_solver. }
      rewrite Hz. apply wp_bind, wp_mof_option; [done|]. intros ? [= <-].
      apply wp_bind, wp_update; [apply Hin; set_solver|]. apply wp_bind, wp_mof_option; [done|].
      intros ? [= <-]. apply wp_update; [apply is_Some_alter, Hin; set_solver|].
      rewrite Hz in HQ. unfold lm_set_heap.
      cbn [lm_head lm_entries lm_size lm_iterator lm_buckets lm_heap lm_tail].
      rewrite Hhd, Htl. apply HQ. intros _. by rewrite !olast_app, !olast_cons.
Qed.

(** The chain part of a deletion. *)
Lemma delete_chain F m l cs k key c1 e c2 n Q :
  wf m l cs k → cs !! Z.to_nat (key `mod` lm_size m) = Some (c1 ++ e :: c2) →
  lm_heap m !! e = Some n →
  let b := key `mod` lm_size m in
  Q tt (lm_set_heap (link_chain (olast c1 None) (ohead c2 None) (lm_heap m))
        (lm_set_buckets (<[Z.to_nat b := ohead (c1 ++ c2) None]> (lm_buckets m)) m)) →
  wp F (if bool_decide (Some e = ohead (c1 ++ e :: c2) None) then set_bucket b (n_chain n)
        else
          q ← mof_option NullDeref (olast c1 None);
          nq ← load q;
          massert (bool_decide (n_chain nq = Some e));;
          update q (set_chain (n_chain n))) Q m.
Proof.
  intros W Hc Hn b HQ. pose proof (wf_chain_nodup _ _ _ _ _ _ W Hc) as Hnd.
  destruct (wf_chain _ _ _ _ W _ _ Hc) as (Hb & Hseg & _). destruct (wf_size _ _ _ _ W) as [Hpos Hsz].
  assert (0 ≤ b) as Hb0 by (apply Z.mod_pos_bound; done).
  destruct (cseg_lookup _ _ _ _ Hseg) as (n0 & Hn0 & Hch). simplify_eq. rewrite Hch.
  destruct c1 as [|q c1 _] using rev_ind.
  - rewrite bool_decide_eq_true_2 by done. unfold set_bucket. apply wp_mmodify. unfold zinsert.
    rewrite decide_True by done. destruct m. exact HQ.
  - rewrite <- app_assoc in *. cbn [app] in *. destruct (cseg_lookup _ _ _ _ Hseg) as (nq & Hnq & Hchq).
    rewrite bool_decide_eq_false_2.
    2:{ apply list.NoDup_app in Hnd as (_ & Hdis & Hnd2). apply list.NoDup_cons in Hnd2 as [Hq _].
        destruct c1 as [|x c1]; cbn; [set_solver|]. intros [= ->]. apply (Hdis x); set_solver. }
    rewrite olast_snoc in *. apply wp_bind, wp_mof_option; [done|]. intros ? [= <-].
    apply wp_bind. eapply wp_load; [exact Hnq|]. cbv beta. apply wp_bind, wp_massert.
    { rewrite bool_decide_eq_false. by rewrite Hchq. }
    intros _. apply wp_update; [eauto|]. unfold b in HQ.
    rewrite ohead_app in HQ, Hb. cbn [ohead] in *. rewrite list_insert_id in HQ by done.
    destruct m. exact HQ.
Qed.

(** The node that is freed is one of the key's; the iterator is not adjusted. *)
Lemma delete_wf F m l cs k key :
  wf m l cs k →
  wp F (lhmap_delete key) (λ r m',
    match r with
    | None => key ∉ k.*1 ∧ m' = m
    | Some v => ∃ l1 e l2 k1 k2 cs', l = l1 ++ e :: l2 ∧ k = k1 ++ (key, v) :: k2 ∧ length k1 = length l1 ∧
        wf m' (l1 ++ l2) cs' (k1 ++ k2) ∧ lm_iterator m' = lm_iterator m
    end) m.
Proof.
  intros W. unfold lhmap_delete.
  apply (wp_search F m l cs k key (λ b first r, _) _ W). intros c Hc.
  destruct (cfind (lm_heap m) key c) as [[[c1 e] c2]|]; [|intros Hni; by apply wp_mret].
  intros l1 l2 k1 v k2 -> -> Hlen (n & Hn & [= Hkey Hval]) ->. cbn [fst snd].
  pose proof (wf_nodup _ _ _ _ W) as Hnd. pose proof (wf_chain_nodup _ _ _ _ _ _ W Hc) as Hndc.
  destruct (wf_chain _ _ _ _ W _ _ Hc) as (Hbk & Hseg & Hkeys).
  apply wp_bind. eapply wp_load; [exact Hn|]. cbv beta. apply wp_bind.
  eapply delete_chain; [exact W|exact Hc|exact Hn|]. set (h1 := link_chain _ _ _).
  assert (same_data (lm_heap m) h1 (λ _, True)) as Hs1 by apply same_data_link_chain.
  apply wp_bind. eapply (unlink_ok F _ l1 e l2); [done| | |by apply W; destruct l1|].
  { cbn. apply dseg_link_chain, W. }
  { cbn. apply W. }
  intros tl Htl. cbn [lm_entries lm_size lm_iterator lm_buckets lm_heap lm_set_heap lm_set_buckets].
  set (h2 := link_prev _ _ _).
  assert (same_data (lm_heap m) h2 (λ _, True)) as Hs2.
  { eapply same_data_trans; [exact Hs1|]. eapply same_data_trans; [apply same_data_link_next|].
    apply same_data_link_prev. }
  destruct (Hs2 e n I Hn) as (n2 & Hn2 & Hk2 & Hv2).
  apply wp_bind, wp_mgets. cbn [lm_entries]. rewrite (wf_count _ _ _ _ W).
  apply wp_bind, wp_massert. { rewrite bool_decide_eq_false, length_app. simpl. lia. } intros _.
  apply wp_bind, wp_mmodify. apply wp_bind. eapply wp_load; [exact Hn2|]. apply wp_bind, wp_mmodify, wp_mret.
  exists l1, e, l2, k1, k2, (<[Z.to_nat (key `mod` lm_size m) := c1 ++ c2]> cs).
  rewrite Hv2, Hval. split_and!; [done..| |done].
  pose proof (wf_max _ _ _ _ W) as Hmax. rewrite length_app in Hmax. simpl in Hmax.
  assert (e ∉ l1 ++ l2) as Hel.
  { apply list.NoDup_app in Hnd as (? & ? & ?%list.NoDup_cons). set_solver. }
  assert (e ∉ c1 ++ c2) as Hec.
  { apply list.NoDup_app in Hndc as (? & ? & ?%list.NoDup_cons). set_solver. }
  assert (same_data (lm_heap m) (delete e h2) (λ q, q ≠ e)) as Hs3.
  { intros q nq Hq Hnq. destruct (Hs2 q nq I Hnq) as (n' & ? & ?). exists n'.
    rewrite lookup_delete_ne by done. done. }
  unfold lm_set_entries, lm_set_heap. cbn [lm_entries lm_size lm_iterator lm_buckets lm_heap lm_head lm_tail].
  eapply wf_chains_insert; try exact W; try exact Hc; try done.
  - apply list.NoDup_app in Hnd as (? & ? & ?%list.NoDup_cons). apply list.NoDup_app. set_solver.
  - apply dseg_remove; [done|]. apply dseg_link_chain, W.
  - rewrite !length_app. simpl. rewrite wrap_small; lia.
  - rewrite length_app. lia.
  - apply cseg_delete; [done|]. apply cseg_link_prev, cseg_link_next. by eapply cseg_unlink_last.
  - intros q Hq. destruct (Hkeys q) as (nq & Hnq & Hmod); [set_solver|].
    destruct (Hs3 q nq) as (n' & ? & Hk' & _); [set_solver|done|]. exists n'. split; [done|]. by rewrite Hk'.
  - intros d q Hd Hdis Hsub. assert (e ∉ d) as Hed by (apply Hdis; set_solver). split.
    + apply cseg_delete; [done|]. apply cseg_link_prev, cseg_link_next.
      apply (cseg_link_chain_other _ c1); [set_solver|done..].
    + intros Hq. destruct (wf_in_heap _ _ _ _ _ W (Hsub q Hq)) as [nq Hnq].
      destruct (Hs3 q nq) as (n' & ? & Hk' & _); [set_solver|done|]. eauto.
  - intros xs ys Hp. apply (Permutation_cons_inv (a := e)). etrans; [|etrans; [exact Hp|]]; solve_Permutation.
  - pose proof (wf_holds _ _ _ _ W) as Hh. apply Forall2_app_inv in Hh as [H1 H2]; [|done].
    apply Forall2_cons_1 in H2 as [_ H2].
    eapply holds_same_data; [by apply Forall2_app|exact Hs3|]. intros q Hq ->. done.
Qed.

Lemma delete_ok F m k key :
  repr m k →
  wp F (lhmap_delete key) (λ r m',
    match r with
    | None => key ∉ k.*1 ∧ m' = m
    | Some v => ∃ k1 k2, k = k1 ++ (key, v) :: k2 ∧ repr m' (k1 ++ k2)
    end) m.
Proof.
  intros (l & cs & W). eapply wp_mono; [by eapply delete_wf|]. intros [v|] m'; [|done].
  intros (l1 & e & l2 & k1 & k2 & cs' & _ & -> & _ & W' & _). exists k1, k2. split; [done|]. by exists (l1 ++ l2), cs'.
Qed.

Lemma to_front_ok F m k key :
  repr m k →
  wp F (lhmap_to_front key) (λ r m',
    match r with
    | None => m' = m ∧ (key ∉ k.*1 ∨ ∃ v k', k = (key, v) :: k')
    | Some v => ∃ k1 k2, k1 ≠ [] ∧ k = k1 ++ (key, v) :: k2 ∧ repr m' ((key, v) :: k1 ++ k2)
    end) m.
Proof.
  intros (l & cs & W). unfold lhmap_to_front.
  apply (wp_search F m l cs k key (λ b first r, _) _ W). intros c Hc.
  destruct (cfind (lm_heap m) key c) as [[[c1 e] c2]|]; [|intros Hni; apply wp_mret; auto].
  intros l1 l2 k1 v k2 -> -> Hlen Hh _. cbn [fst].
  pose proof (wf_nodup _ _ _ _ W) as Hnd. pose proof (wf_dll _ _ _ _ W) as Hd.
  destruct (dseg_lookup _ _ _ _ _ _ Hd) as (n & Hn & Hprev & Hnext).
  assert (∀ x, x ∈ l1 ++ e :: l2 → is_Some (lm_heap m !! x)) as Hin by (intros x; by eapply wf_in_heap).
  apply wp_bind, wp_mgets. rewrite (wf_head _ _ _ _ W).
  destruct l1 as [|x l1].
  { destruct k1; [|done]. rewrite bool_decide_eq_true_2 by done. apply wp_mret. split; [done|]. right. eauto. }
  apply list.NoDup_app in Hnd as (Hnd1 & Hdis & Hnd2). apply list.NoDup_cons in Hnd2 as [He2 Hnd2].
  rewrite bool_decide_eq_false_2 by (cbn; set_solver).
  assert (∃ z, olast (x :: l1) None = Some z ∧ z ∈ x :: l1) as (z & Hz & Hzin).
  { rewrite olast_cons. unfold olast. destruct (list.last l1) eqn:Hl; [|set_solver].
    apply last_Some_elem_of in Hl. eexists. split; [done|set_solver]. }
  apply wp_bind, wp_mgets. rewrite (wf_tail _ _ _ _ W) by done. apply wp_bind.
  eapply wp_load; [exact Hn|]. cbv beta. rewrite Hprev, Hnext, Hz.
  set (h1 := link_prev (ohead l2 None) (Some z) (link_next (Some z) (ohead l2 None) (lm_heap m))).
  assert (same_data (lm_heap m) h1 (λ _, True)) as Hs1.
  { eapply same_data_trans; [apply same_data_link_next|apply same_data_link_prev]. }
  assert (∀ p, is_Some (lm_heap m !! p) → is_Some (h1 !! p)) as Hin1.
  { intros p [np Hnp]. destruct (Hs1 p np I Hnp) as (n' & ? & _). eauto. }
  (* what follows the unlinking *)
  assert (∀ tl, tl = olast ((e :: x :: l1) ++ l2) None →
    wp F (update e (set_prev None);;
          update e (set_next (Some x));;
          q ← mof_option NullDeref (Some x);
          update q (set_prev (Some e));;
          mmodify (lm_set_head (Some e));;
          n ← load e;
          mret (Some (n_val n)))
      (λ r m', match r with
               | None => m' = m ∧ (key ∉ (k1 ++ (key, v) :: k2).*1 ∨ ∃ v0 k', k1 ++ (key, v) :: k2 = (key, v0) :: k')
               | Some v0 => ∃ k3 k4, k3 ≠ [] ∧ k1 ++ (key, v) :: k2 = k3 ++ (key, v0) :: k4 ∧
                   repr m' ((key, v0) :: k3 ++ k4)
               end)
      (lm_set_heap h1 (lm_set_tail tl m))) as Hfin.
  { intros tl Htl. apply wp_bind, wp_update; [apply Hin1, Hin; set_solver|].
    apply wp_bind, wp_update; [apply is_Some_alter, Hin1, Hin; set_solver|].
    apply wp_bind, wp_mof_option; [done|]. intros ? [= <-].
    apply wp_bind, wp_update; [apply is_Some_alter, is_Some_alter, Hin1, Hin; set_solver|].
    apply wp_bind, wp_mmodify. apply wp_bind.
    pose proof (same_data_push_front h1 e ((x :: l1) ++ l2) (λ _, True)) as Hs2.
    pose proof (same_data_trans _ _ _ _ Hs1 Hs2) as Hs3.
    destruct Hh as (n0 & Hn0 & Hkv0). assert (n0 = n) as -> by congruence. injection Hkv0 as Hk0 Hv0.
    destruct (Hs3 e n I Hn) as (n' & Hn' & Hk' & Hv'). eapply wp_load; [exact Hn'|]. apply wp_mret.
    rewrite Hv', Hv0. exists k1, k2. split_and!; [by destruct k1|done|].
    exists ((e :: x :: l1) ++ l2), cs.
    eapply (wf_reorder m _ cs _ (push_front e ((x :: l1) ++ l2) h1)); try exact W; try done.
    - cbn. solve_Permutation.
    - unfold h1. rewrite <- Hz. by apply dseg_promote; [apply W|].
    - intros c0 Hc0. apply cseg_push_front, cseg_link_prev, cseg_link_next. done.
    - pose proof (wf_holds _ _ _ _ W) as Hh. apply Forall2_app_inv in Hh as [H1 H2]; [|done].
      apply Forall2_cons_1 in H2 as [H0 H2].
      eapply holds_same_data; [|exact Hs3|done]. simpl. constructor; [done|]. exact (Forall2_app H1 H2). }
  apply wp_bind. destruct l2 as [|y l2].
  - rewrite olast_app, bool_decide_eq_true_2 by done. apply wp_bind, wp_mmodify.
    apply wp_bind, wp_mof_option; [done|]. intros ? [= <-]. apply wp_update; [apply Hin; set_solver|].
    apply Hfin. rewrite app_nil_r, olast_cons. rewrite <- Hz, !olast_cons. done.
  - rewrite olast_app, olast_cons, bool_decide_eq_false_2.
    2:{ rewrite olast_cons. unfold olast. destruct (list.last l2) as [w|] eqn:Hw; [|set_solver].
        apply last_Some_elem_of in Hw. set_solver. }
    apply wp_bind, wp_mof_option; [done|]. intros ? [= <-].
    apply wp_bind, wp_update; [apply Hin; set_solver|]. apply wp_bind, wp_mof_option; [done|].
    intros ? [= <-]. apply wp_update; [apply is_Some_alter, Hin; set_solver|].
    assert (lm_tail m = olast ((e :: x :: l1) ++ y :: l2) None) as Htl.
    { rewrite (wf_tail _ _ _ _ W) by done. by rewrite !olast_app, !olast_cons. }
    specialize (Hfin (lm_tail m) Htl). destruct m. exact Hfin.
Qed.

Lemma repr_max m k : repr m k → length k < 2 ^ 32.
Proof.
  intros (l & cs & W). assert (length l = length k) as <- by (eapply Forall2_length; apply W). apply W.
Qed.
Lemma repr_entries m k : repr m k → lm_entries m = length k.
Proof.
  intros (l & cs & W). assert (length l = length k) as <- by (eapply Forall2_length; apply W). apply W.
Qed.

(** The tail of a map that is not empty. *)
Lemma repr_tail m k0 kv :
  repr m (k0 ++ [kv]) → ∃ p n, lm_tail m = Some p ∧ lm_heap m !! p = Some n ∧ (n_key n, n_val n) = kv.
Proof.
  intros (l & cs & W). pose proof (wf_holds _ _ _ _ W) as Hh.
  apply Forall2_app_inv_r in Hh as (l0 & l1 & _ & H1 & ->).
  apply Forall2_cons_inv_r in H1 as (p & l2 & (n & Hn & Hkv) & ->%Forall2_nil_inv_r & ->).
  exists p, n. split_and!; [|done..]. rewrite (wf_tail _ _ _ _ W) by (by destruct l0). apply olast_snoc.
Qed.

Lemma delete_last_ok F m k0 key v :
  repr m (k0 ++ [(key, v)]) →
  wp F lhmap_delete_last (λ r m', r = Some (v, key) ∧
    ∃ k1 v' k2, k0 ++ [(key, v)] = k1 ++ (key, v') :: k2 ∧ repr m' (k1 ++ k2)) m.
Proof.
  intros HR. destruct (repr_tail _ _ _ HR) as (p & n & Htl & Hn & [= Hk Hv]).
  unfold lhmap_delete_last. apply wp_bind, wp_mgets. rewrite Htl. apply wp_bind.
  eapply wp_load; [exact Hn|]. cbv beta. apply wp_bind. rewrite Hk. eapply wp_mono; [by apply delete_ok|].
  intros r m' Hr. cbv beta. apply wp_mret. rewrite Hv. split; [done|]. destruct r as [v'|].
  - destruct Hr as (k1 & k2 & ? & ?). eauto.
  - destruct Hr as [Hni _]. exfalso. apply Hni. rewrite fmap_app. set_solver.
Qed.

(** The iterator yields the pairs in list order. *)
Fixpoint lhmap_collect (fuel : nat) : M (LHMap D) (list (Z * D)) :=
  match fuel with
  | O => mfault Diverged
  | S fuel =>
      r ← lhmap_iterator_next;
      match r with
      | None => mret []
      | Some (v, key) => rest ← lhmap_collect fuel; mret ((key, v) :: rest)
      end
  end.

Lemma collect_ok F (l2 : list positive) k2 m (l1 : list positive) cs k fuel :
  wf m (l1 ++ l2) cs k → lm_iterator m = ohead l2 None → Forall2 (holds (lm_heap m)) l2 k2 →
  (length l2 < fuel)%nat → wp F (lhmap_collect fuel) (λ r m', r = k2 ∧ repr m' k) m.
Proof.
  revert k2 m l1 fuel. induction l2 as [|p l2 IH]; intros k2 m l1 fuel W Hit Hh Hf;
    (destruct fuel as [|fuel]; [simpl in Hf; lia|]); cbn [lhmap_collect]; unfold lhmap_iterator_next.
  - do 2 apply wp_bind. apply wp_mgets. rewrite Hit. cbn [ohead]. do 2 apply wp_mret.
    apply Forall2_nil_inv_l in Hh as ->. split; [done|]. by exists (l1 ++ []), cs.
  - apply Forall2_cons_inv_l in Hh as ([key v] & k2' & (n & Hn & [= Hk Hv]) & Hh & ->).
    destruct (dseg_lookup _ _ _ _ _ _ (wf_dll _ _ _ _ W)) as (n' & Hn' & _ & Hnext). simplify_eq.
    do 2 apply wp_bind. apply wp_mgets. rewrite Hit. cbn [ohead]. apply wp_bind.
    eapply wp_load; [exact Hn|]. apply wp_bind, wp_mmodify. apply wp_mret. cbv beta.
    apply wp_bind. eapply wp_mono.
    + apply (IH k2' (lm_set_iterator (n_next n) m) (l1 ++ [p])); [|done..|simpl in Hf; lia].
      rewrite <- app_assoc. destruct W; by split.
    + intros r m' [-> HR]. by apply wp_mret.
Qed.

Lemma iterate_ok F m k :
  repr m k → wp F (lhmap_iterator_start;; lhmap_collect (S (length k))) (λ r m', r = k ∧ repr m' k) m.
Proof.
  intros (l & cs & W). assert (length l = length k) as Hl by (eapply Forall2_length; apply W).
  apply wp_bind. unfold lhmap_iterator_start. apply wp_mmodify.
  apply (collect_ok F l k _ [] cs); [by destruct W|cbn; apply W|apply W|lia].
Qed.

Lemma recount_buckets_ok fuel (h : heap D) (cs : list (list positive)) acc :
  Forall (cseg h) cs → Forall (λ c, (length c < fuel)%nat) cs → 0 ≤ acc →
  acc + length (concat cs) < 2 ^ 32 →
  recount_buckets fuel h ((λ c, ohead c None) <$> cs) acc = inr (acc + length (concat cs)).
Proof.
  revert acc. induction cs as [|c cs IH]; intros acc; cbn [concat fmap list_fmap recount_buckets].
  { intros. f_equal. simpl. lia. }
  intros [Hc Hcs]%list.Forall_cons [Hf Hfs]%list.Forall_cons Ha. rewrite length_app. intros Hlt.
  rewrite (chain_count_spec h c) by (done || lia). cbn [fst]. rewrite IH by (done || lia). f_equal. lia.
Qed.

Lemma recount_ok F m k : repr m k → wp F lhmap_force_recount (λ r m', r = length k ∧ m' = m) m.
Proof.
  intros (l & cs & W). assert (length l = length k) as <- by (eapply Forall2_length; apply W).
  assert (lm_buckets m = (λ c, ohead c None) <$> cs) as Hb.
  { apply list_eq. intros i. rewrite list_lookup_fmap. destruct (cs !! i) as [c|] eqn:Hc; simpl.
    - by destruct (wf_chain _ _ _ _ W i c Hc) as (-> & _).
    - apply lookup_ge_None in Hc. apply lookup_ge_None. by rewrite <- (wf_cs _ _ _ _ W). }
  assert (length (concat cs) = length l) as Hlen by (apply Permutation_length; apply W).
  unfold lhmap_force_recount. apply wp_bind, wp_mget. destruct (wf_size _ _ _ _ W) as [_ Hsz].
  rewrite Hsz, Nat2Z.id, firstn_all, Hb, recount_buckets_ok.
  - cbn [mof_sum]. apply wp_mret. split; [lia|done].
  - apply Forall_lookup_2. intros i c Hc. by destruct (wf_chain _ _ _ _ W i c Hc) as (_ & ? & _).
  - apply Forall_lookup_2. intros i c Hc. by eapply wf_fuel.
  - lia.
  - rewrite Hlen. pose proof (wf_max _ _ _ _ W). lia.
Qed.
End theory.

(** ** Refinement to a list of pairs

    A caller that never inserts a key twice, and never asks for the last entry
    of an empty map, sees a list of pairs with the newest first. *)

Section refinement.
Context {D : Type} {KM : Kmalloc D}.
Implicit Types (m : LHMap D) (k : list (Z * D)) (key : Z).

Inductive lop : Type :=
  | LInsert (key : Z) (d : D)
  | LLookup (key : Z)
  | LDelete (key : Z)
  | LToFront (key : Z)
  | LDeleteLast.
Inductive lret : Type :=
  | RInt (z : Z)
  | RData (d : option D)
  | RLast (d : option (D * Z)).

Definition run_lop (o : lop) : M (LHMap D) lret :=
  match o with
  | LInsert key d => r ← lhmap_insert key d; mret (RInt r)
  | LLookup key => r ← lhmap_lookup key; mret (RData r)
  | LDelete key => r ← lhmap_delete key; mret (RData r)
  | LToFront key => r ← lhmap_to_front key; mret (RData r)
  | LDeleteLast => r ← lhmap_delete_last; mret (RLast r)
  end.
Fixpoint run_lops (os : list lop) : M (LHMap D) (list lret) :=
  match os with
  | [] => mret []
  | o :: os => r ← run_lop o; rs ← run_lops os; mret (r :: rs)
  end.

(** The first pair with a key. *)
Fixpoint assoc (key : Z) k : option D :=
  match k with
  | [] => None
  | (x, v) :: k => if bool_decide (x = key) then Some v else assoc key k
  end.
Fixpoint remove (key : Z) k : list (Z * D) :=
  match k with
  | [] => []
  | (x, v) :: k => if bool_decide (x = key) then k else (x, v) :: remove key k
  end.

Definition spec_lop (o : lop) k : lret * list (Z * D) :=
  match o with
  | LInsert key d => (RInt 0, (key, d) :: k)
  | LLookup key => (RData (assoc key k), k)
  | LDelete key => (RData (assoc key k), remove key k)
  | LToFront key =>
      if bool_decide (fst <$> head k = Some key) then (RData None, k) else
      match assoc key k with
      | Some v => (RData (Some v), (key, v) :: remove key k)
      | None => (RData None, k)
      end
  | LDeleteLast =>
      match list.last k with
      | Some (key, v) => (RLast (Some (v, key)), take (length k - 1) k)
      | None => (RLast None, k)
      end
  end.
Fixpoint spec_lops (os : list lop) k : list lret * list (Z * D) :=
  match os with
  | [] => ([], k)
  | o :: os => let '(r, k1) := spec_lop o k in let '(rs, k2) := spec_lops os k1 in (r :: rs, k2)
  end.

(** What the caller has to respect. *)
Definition lop_allowed (o : lop) k : bool :=
  match o with
  | LInsert key _ => bool_decide (key ∉ k.*1) && bool_decide (length k + 1 < 2 ^ 32)
  | LDeleteLast => bool_decide (k ≠ [])
  | _ => true
  end.
Fixpoint lops_allowed (os : list lop) k : bool :=
  match os with
  | [] => true
  | o :: os => lop_allowed o k && lops_allowed os (spec_lop o k).2
  end.

Lemma assoc_split k1 key v k2 : key ∉ k1.*1 → assoc key (k1 ++ (key, v) :: k2) = Some v.
Proof.
  induction k1 as [|[x w] k1 IH]; simpl; [by rewrite bool_decide_eq_true_2|].
  intros Hni. rewrite bool_decide_eq_false_2 by set_solver. apply IH. set_solver.
Qed.
Lemma remove_split k1 key v k2 : key ∉ k1.*1 → remove key (k1 ++ (key, v) :: k2) = k1 ++ k2.
Proof.
  induction k1 as [|[x w] k1 IH]; simpl; [by rewrite bool_decide_eq_true_2|].
  intros Hni. rewrite bool_decide_eq_false_2 by set_solver. f_equal. apply IH. set_solver.
Qed.
Lemma assoc_none key k : key ∉ k.*1 → assoc key k = None.
Proof.
  induction k as [|[x w] k IH]; [done|]. simpl. intros Hni.
  rewrite bool_decide_eq_false_2 by set_solver. apply IH. set_solver.
Qed.
Lemma remove_none key k : key ∉ k.*1 → remove key k = k.
Proof.
  induction k as [|[x w] k IH]; [done|]. simpl. intros Hni.
  rewrite bool_decide_eq_false_2 by set_solver. f_equal. apply IH. set_solver.
Qed.
Lemma keys_split k1 key (v : D) k2 :
  NoDup (k1 ++ (key, v) :: k2).*1 → key ∉ k1.*1 ∧ key ∉ k2.*1 ∧ NoDup (k1 ++ k2).*1.
Proof.
  rewrite !fmap_app. cbn. intros (H1 & H2 & [H3 H4]%list.NoDup_cons)%list.NoDup_app.
  split_and!; [set_solver|done|]. apply list.NoDup_app. set_solver.
Qed.
Lemma assoc_in k key v : NoDup k.*1 → (key, v) ∈ k → assoc key k = Some v.
Proof.
  intros Hnd (k1 & k2 & ->)%list_elem_of_split. apply assoc_split. by apply keys_split in Hnd as (? & _).
Qed.

Lemma spec_lop_nodup o k : NoDup k.*1 → lop_allowed o k = true → NoDup (spec_lop o k).2.*1.
Proof.
  assert (∀ key, (∃ k1 v k2, k = k1 ++ (key, v) :: k2 ∧ key ∉ k1.*1) ∨ key ∉ k.*1) as Hcase.
  { intros key. induction k as [|[x v] k IH]; [right; set_solver|].
    destruct (decide (x = key)) as [->|Hne]; [left; exists [], v, k; split; [done|set_solver]|].
    destruct IH as [(k1 & w & k2 & -> & ?)|?]; [left|right; set_solver].
    exists ((x, v) :: k1), w, k2. split; [done|set_solver]. }
  intros Hnd Hal. destruct o as [key d|key|key|key|]; simpl in *; [| | | |].
  - apply andb_prop in Hal as [Hni%bool_decide_eq_true _]. by apply list.NoDup_cons.
  - done.
  - destruct (Hcase key) as [(k1 & v & k2 & -> & Hk1)|Hni]; [|by rewrite remove_none].
    rewrite remove_split by done. by apply keys_split in Hnd as (_ & _ & ?).
  - case_bool_decide; [done|]. destruct (Hcase key) as [(k1 & v & k2 & -> & Hk1)|Hni]; [|by rewrite assoc_none].
    rewrite assoc_split, remove_split by done. apply keys_split in Hnd as (? & ? & ?). cbn.
    apply list.NoDup_cons. split; [|done]. rewrite fmap_app. set_solver.
  - destruct (list.last k) as [[key v]|]; [|done]. simpl. rewrite fmap_take.
    rewrite <- (take_drop (length k - 1) k.*1) in Hnd. by apply list.NoDup_app in Hnd as (? & _).
Qed.

Lemma run_lop_ok F o m k :
  (∀ m', is_Some (kmalloc m')) → repr m k → NoDup k.*1 → lop_allowed o k = true →
  wp F (run_lop o) (λ r m', r = (spec_lop o k).1 ∧ repr m' (spec_lop o k).2) m.
Proof.
  intros Hkm HR Hnd Hal. destruct o as [key d|key|key|key|]; simpl in *; apply wp_bind.
  - apply andb_prop in Hal as [_ Hlen%bool_decide_eq_true].
    eapply wp_mono; [by apply insert_ok|]. intros r m' [-> ?]. by apply wp_mret.
  - eapply wp_mono; [by apply lookup_ok|]. intros r m' [-> Hr]. apply wp_mret. split; [|done]. f_equal.
    destruct r; symmetry; [by apply assoc_in|by apply assoc_none].
  - eapply wp_mono; [by apply delete_ok|]. intros r m' Hr. apply wp_mret. destruct r as [v|].
    + destruct Hr as (k1 & k2 & -> & HR'). apply keys_split in Hnd as (? & _).
      by rewrite assoc_split, remove_split.
    + destruct Hr as [? ->]. by rewrite assoc_none, remove_none.
  - eapply wp_mono; [by apply to_front_ok|]. intros r m' Hr. apply wp_mret. destruct r as [v|].
    + destruct Hr as (k1 & k2 & Hk1 & -> & HR'). apply keys_split in Hnd as (? & _).
      destruct k1 as [|[x w] k1]; [done|]. rewrite bool_decide_eq_false_2 by (simpl; set_solver).
      rewrite assoc_split, remove_split by done. done.
    + destruct Hr as [-> [Hni|(v & k' & ->)]].
      * rewrite assoc_none by done. by case_bool_decide.
      * rewrite bool_decide_eq_true_2 by done. done.
  - apply bool_decide_eq_true in Hal. destruct k as [|[key v] k0 _] using rev_ind; [done|].
    rewrite list.last_snoc, length_app. simpl. replace (length k0 + 1 - 1)%nat with (length k0) by lia.
    rewrite take_app_length. eapply wp_mono; [by apply delete_last_ok|]. cbv beta.
    intros r m' (-> & k1 & v' & k2 & Heq & HR'). apply wp_mret. split; [done|]. cbn [snd].
    rewrite Heq in Hnd. pose proof (remove_split k0 key v []) as E1. rewrite app_nil_r in E1.
    rewrite <- E1.
    + rewrite Heq, remove_split; [done|]. by apply keys_split in Hnd as (? & _).
    + rewrite <- Heq in Hnd. by apply keys_split in Hnd as (? & _).
Qed.

Lemma run_lops_ok F os m k :
  (∀ m', is_Some (kmalloc m')) → repr m k → NoDup k.*1 → lops_allowed os k = true →
  wp F (run_lops os) (λ rs m', rs = (spec_lops os k).1 ∧ repr m' (spec_lops os k).2) m.
Proof.
  intros Hkm. revert m k. induction os as [|o os IH]; intros m k HR Hnd Hal; [by apply wp_mret|].
  cbn [run_lops spec_lops lops_allowed] in *. apply andb_prop in Hal as [Ho Hos].
  pose proof (spec_lop_nodup o k Hnd Ho) as Hnd'. apply wp_bind. eapply wp_mono; [by apply run_lop_ok|].
  intros r m' [-> HR']. destruct (spec_lop o k) as [r k1]. cbn in *. apply wp_bind.
  eapply wp_mono; [by apply IH|]. intros rs m'' [-> HR'']. apply wp_mret.
  by destruct (spec_lops os k1).
Qed.

(** A map created over cleared memory is empty. *)
Lemma create_repr sz :
  0 < sz → ∃ m, lhmap_create (D := D) true true (replicate (Z.to_nat sz) None) sz = inr m ∧ repr m [].
Proof.
  intros Hsz. eexists. split; [done|]. exists [], (replicate (Z.to_nat sz) []). split; cbn; try done.
  - constructor.
  - rewrite length_replicate. lia.
  - by rewrite !length_replicate.
  - intros i c [-> Hi]%lookup_replicate. rewrite lookup_replicate_2 by done. split_and!; [done..|set_solver].
  - by induction (Z.to_nat sz).
Qed.
End refinement.
Arguments lop : clear implicits.
Arguments lret : clear implicits.

(** C5. For callers that insert no key that is in the map and do not remove the last
    entry of an empty map ([lops_allowed]; without that see
    [lhmap_delete_last_dangles]), on a map whose array of buckets was cleared when it was
    created (the code does not clear it, see [lhmap_create_uninitialised]) and with a
    [kmalloc] that never fails: a sequence of inserts, lookups, deletes, moves to the
    front and removals of the last entry completes, and returns what a list of pairs
    would. *)
Theorem lhmap_refines {D} {KM : Kmalloc D} (os : list (lop D)) (sz : Z) :
  (∀ m, is_Some (kmalloc m)) → 0 < sz → lops_allowed os [] = true →
  ∃ m0 m', lhmap_create true true (replicate (Z.to_nat sz) None) sz = inr m0 ∧
    run_lops os m0 = Ok (spec_lops os []).1 m' ∧ repr m' (spec_lops os []).2.
Proof.
  intros Hkm Hsz Hal. destruct (create_repr (D := D) sz Hsz) as (m0 & Hm0 & HR).
  pose proof (run_lops_ok no_fault os m0 [] Hkm HR) as Hwp.
  destruct (wp_no_fault _ _ _ (Hwp ltac:(constructor) Hal)) as (rs & m' & Hrun & -> & HR'). eauto.
Qed.

(** Walking a map with the iterator yields its pairs in list order, and
    counting the buckets agrees with the entry count. *)
Theorem lhmap_iterate_recount {D} (m : LHMap D) (k : list (Z * D)) :
  repr m k →
  wp no_fault (lhmap_iterator_start;; lhmap_collect (S (length k))) (λ r m', r = k ∧ repr m' k) m ∧
  lhmap_force_recount m = Ok (lm_entries m) m.
Proof.
  intros HR. split; [by apply iterate_ok|].
  destruct (wp_no_fault _ _ _ (recount_ok no_fault m k HR)) as (r & m' & Hrun & -> & ->).
  by rewrite (repr_entries m k HR).
Qed.

(** ** Concrete runs *)

(** An allocator that never fails. *)
Lemma fresh_node {D} (m : LHMap D) (p : positive) :
  Some (fresh (dom (lm_heap m))) = Some p → lm_heap m !! p = None.
Proof. intros [= <-]. apply not_elem_of_dom, is_fresh. Qed.
#[global] Instance any_kmalloc (D : Type) : Kmalloc D :=
  {| kmalloc m := Some (fresh (dom (lm_heap m))); kmalloc_fresh := fresh_node |}.

Definition sample_ops : list (lop Z) :=
  [LInsert 3 30; LInsert 10 100; LInsert 17 170; LToFront 3; LToFront 3; LLookup 10; LDelete 10;
   LLookup 10; LDeleteLast; LLookup 3].

Lemma lhmap_refines_witness :
  ∃ m', run_lops sample_ops (mk_lhmap 0 7 None None None (replicate 7 None) ∅) =
    Ok [RInt 0; RInt 0; RInt 0; RData (Some 30); RData None; RData (Some 100); RData (Some 100);
        RData None; RLast (Some (170, 17)); RData (Some 30)] m' ∧ repr m' [(3, 30)].
Proof.
  destruct (lhmap_refines sample_ops 7) as (m0 & m' & [= <-] & Hrun & HR).
  - intros m. eexists. reflexivity.
  - lia.
  - reflexivity.
  - exists m'. split; [exact Hrun|exact HR].
Defined.

(** The three-entry map the iterator is shown on. *)
Definition sample_map : LHMap Z :=
  match run_lops (KM := any_kmalloc Z) [LInsert 3 30; LInsert 10 100; LInsert 4 40]
          (mk_lhmap 0 7 None None None (replicate 7 None) ∅) with
  | Ok _ m => m | Err _ => mk_lhmap 0 0 None None None [] ∅
  end.
Lemma sample_map_repr : repr sample_map [(4, 40); (10, 100); (3, 30)].
Proof.
  destruct (create_repr (D := Z) 7 ltac:(lia)) as (m0 & [= <-] & HR).
  pose proof (run_lops_ok no_fault [LInsert 3 30; LInsert 10 100; LInsert 4 40] _ []
    ltac:(intros; eexists; reflexivity) HR ltac:(constructor) eq_refl) as H.
  apply wp_no_fault in H as (rs & m' & Hrun & _ & HR'). unfold sample_map.
  cbn [replicate]. cbn [replicate Z.to_nat Pos.to_nat Pos.iter_op Nat.add] in Hrun. rewrite Hrun. exact HR'.
Qed.

Lemma lhmap_iterate_recount_witness : lhmap_force_recount sample_map = Ok 3 sample_map.
Proof.
  destruct (lhmap_iterate_recount sample_map [(4, 40); (10, 100); (3, 30)] sample_map_repr) as [_ H].
  exact H.
Defined.

(** [lhmap_delete] of the only entry leaves the tail pointer on the freed
    node, so [lhmap_delete_last] on the map that is now empty dereferences it;
    on a map that never had an entry it returns NULL. *)
Theorem lhmap_delete_last_dangles :
  (∃ m, run_lops [LInsert 3 30; LDelete 3] (mk_lhmap 0 7 None None None (replicate 7 None) ∅)
        = Ok [RInt 0; RData (Some 30)] m ∧ lm_entries m = 0 ∧ lm_head m = None ∧
        lhmap_delete_last m = Err DanglingDeref) ∧
  (let m := mk_lhmap (D := Z) 0 7 None None None (replicate 7 None) ∅ in lhmap_delete_last m = Ok None m).
Proof. split; [|done]. eexists. split; [vm_compute; reflexivity|done]. Qed.

(** [lhmap_create] does not clear the bucket array it allocates: what
    the memory contained is taken for a chain, and the first insertion into such
    a bucket follows the stray pointer. *)
Theorem lhmap_create_uninitialised :
  ∃ m, lhmap_create (D := Z) true true (replicate 7 (Some 99%positive)) 7 = inr m ∧
    lm_entries m = 0 ∧ lhmap_insert 3 30 m = Err DanglingDeref.
Proof. eexists. split; [done|]. done. Qed.
