(* ===== verification/LinkedMap.v ===== *)
(** * The linked-map interface

    What ebc_lru.c, ebc_cache_mgnt.c and ebc_prefetcher.c rely on of the linked
    hash map (ebc_lhmap.h): a type class of the operations with their laws over a
    list of key-data pairs. The clients are verified against the class, and the
    functions of ebc_lhmap.c discharge it. *)

From Stdlib Require Import ZArith Lia.
From stdpp Require Import base list gmap numbers.
From S2P Require Import Prelude HashList LHMap.

Class LinkedMap (T D : Type) : Type := {
  lm_repr : T → list (Z * D) → Prop;
  (** the map holds [k] and the iterator has the pairs [rest] before it *)
  lm_iter : T → list (Z * D) → list (Z * D) → Prop;
  lm_insert : Z → D → M T Z;
  lm_lookup : Z → M T (option D);
  lm_delete : Z → M T (option D);
  lm_to_front : Z → M T (option D);
  lm_delete_last : M T (option (D * Z));
  lm_count : T → Z;
  lm_iterator_start : M T unit;
  lm_iterator_next : M T (option (D * Z));
  lm_count_law m k : lm_repr m k → lm_count m = length k;
  lm_insert_law F m k key d :
    lm_repr m k → length k + 1 < 2 ^ 32 →
    wp F (lm_insert key d) (λ r m', r = 0 ∧ lm_repr m' ((key, d) :: k)) m;
  lm_lookup_law F m k key :
    lm_repr m k →
    wp F (lm_lookup key) (λ r m', m' = m ∧ match r with Some v => (key, v) ∈ k | None => key ∉ k.*1 end) m;
  lm_delete_law F m k key :
    lm_repr m k →
    wp F (lm_delete key) (λ r m',
      match r with
      | None => key ∉ k.*1 ∧ m' = m
      | Some v => ∃ k1 k2, k = k1 ++ (key, v) :: k2 ∧ lm_repr m' (k1 ++ k2)
      end) m;
  lm_to_front_law F m k key :
    lm_repr m k →
    wp F (lm_to_front key) (λ r m',
      match r with
      | None => m' = m ∧ (key ∉ k.*1 ∨ ∃ v k', k = (key, v) :: k')
      | Some v => ∃ k1 k2, k1 ≠ [] ∧ k = k1 ++ (key, v) :: k2 ∧ lm_repr m' ((key, v) :: k1 ++ k2)
      end) m;
  lm_delete_last_law F m k0 key v :
    lm_repr m (k0 ++ [(key, v)]) →
    wp F lm_delete_last (λ r m', r = Some (v, key) ∧
      ∃ k1 v' k2, k0 ++ [(key, v)] = k1 ++ (key, v') :: k2 ∧ lm_repr m' (k1 ++ k2)) m;
  lm_iter_repr m k rest : lm_iter m k rest → lm_repr m k;
  lm_iterator_start_law F m k :
    lm_repr m k → wp F lm_iterator_start (λ _ m', lm_iter m' k k) m;
  lm_iterator_next_law F m k rest :
    lm_iter m k rest →
    wp F lm_iterator_next (λ r m',
      match rest with
      | [] => r = None ∧ lm_iter m' k []
      | (key, v) :: rest => r = Some (v, key) ∧ lm_iter m' k rest
      end) m;
  (** deleting a key the iterator has passed does not disturb it *)
  lm_delete_iter_law F m k rest key :
    lm_iter m k rest → NoDup k.*1 → key ∉ rest.*1 →
    wp F (lm_delete key) (λ r m', r = assoc key k ∧ lm_iter m' (remove key k) rest) m
}.

(** ** The linked hash map is an instance *)

(** [kmalloc] that does not fail. *)
Class KmallocTotal (D : Type) {KM : Kmalloc D} : Prop := kmalloc_total (m : LHMap D) : is_Some (kmalloc m).
#[global] Instance any_kmalloc_total D : KmallocTotal D (KM := any_kmalloc D).
Proof. intros m. eexists. reflexivity. Qed.

Section instance.
Context {D : Type} {KM : Kmalloc D} {KT : KmallocTotal D}.

Definition lhmap_iter (m : LHMap D) (k rest : list (Z * D)) : Prop :=
  ∃ l1 l2 cs, wf m (l1 ++ l2) cs k ∧ lm_iterator m = ohead l2 None ∧ Forall2 (holds (lm_heap m)) l2 rest.

Lemma lhmap_iter_start F m k : repr m k → wp F lhmap_iterator_start (λ _ m', lhmap_iter m' k k) m.
Proof.
  intros (l & cs & W). unfold lhmap_iterator_start. apply wp_mmodify.
  exists [], l, cs. split_and!; [by destruct W|apply W|apply W].
Qed.
Lemma lhmap_iter_next F m k rest :
  lhmap_iter m k rest →
  wp F lhmap_iterator_next (λ r m',
    match rest with
    | [] => r = None ∧ lhmap_iter m' k []
    | (key, v) :: rest => r = Some (v, key) ∧ lhmap_iter m' k rest
    end) m.
Proof.
  intros (l1 & l2 & cs & W & Hit & Hh). unfold lhmap_iterator_next. apply wp_bind, wp_mgets. rewrite Hit.
  destruct Hh as [|p [key v] l2 rest (n & Hn & [= Hk Hv]) Hh]; cbn [ohead].
  - apply wp_mret. split; [done|]. exists l1, [], cs. split_and!; [done..|constructor].
  - destruct (dseg_lookup _ _ _ _ _ _ (wf_dll _ _ _ _ W)) as (n' & Hn' & _ & Hnext). simplify_eq.
    apply wp_bind. eapply wp_load; [exact Hn|]. apply wp_bind, wp_mmodify. apply wp_mret.
    split; [done|]. exists (l1 ++ [p]), l2, cs. split_and!; [|done..].
    rewrite <- app_assoc. destruct W; by split.
Qed.
Lemma lhmap_iter_repr m k rest : lhmap_iter m k rest → repr m k.
Proof. intros (l1 & l2 & cs & W & _). by exists (l1 ++ l2), cs. Qed.
(** The pairs an iterator has not reached are the last ones of the map. *)
Lemma lhmap_iter_rest (m : LHMap D) l1 l2 cs k rest :
  wf m (l1 ++ l2) cs k → Forall2 (holds (lm_heap m)) l2 rest → ∃ k1, k = k1 ++ rest ∧ length k1 = length l1.
Proof.
  intros W Hh. pose proof (wf_holds _ _ _ _ W) as Ha. apply Forall2_app_inv_l in Ha as (k1 & k2 & H1 & H2 & ->).
  exists k1. split; [|by symmetry; eapply Forall2_length]. f_equal.
  clear W H1. revert rest Hh. induction H2 as [|p kv l2 k2 (n & Hn & <-) H2 IH]; intros rest Hh;
    inversion Hh as [|? kv' ? rest' (n' & Hn' & <-) Hh']; subst; [done|]. simplify_eq. f_equal. by apply IH.
Qed.
Lemma app_eq_split {A} (l1 l2 la lb : list A) e :
  l1 ++ e :: l2 = la ++ lb →
  (∃ lc, la = l1 ++ e :: lc ∧ l2 = lc ++ lb) ∨ (∃ lc, lb = lc ++ e :: l2 ∧ l1 = la ++ lc).
Proof.
  revert l1. induction la as [|x la IH]; intros l1 Heq.
  - right. exists l1. split; [by rewrite Heq|done].
  - destruct l1 as [|y l1]; simpl in Heq; injection Heq as -> Heq.
    + left. exists la. split; [done|]. by rewrite Heq.
    + destruct (IH l1 Heq) as [(lc & -> & ->)|(lc & -> & ->)]; [left|right]; by exists lc.
Qed.
Lemma lhmap_delete_iter F (m : LHMap D) k rest key :
  lhmap_iter m k rest → NoDup k.*1 → key ∉ rest.*1 →
  wp F (lhmap_delete key) (λ r m', r = assoc key k ∧ lhmap_iter m' (remove key k) rest) m.
Proof.
  intros (la & lb & cs & W & Hit & Hh) Hnd Hni. eapply wp_mono; [by eapply delete_wf|]. intros [v|] m'.
  - intros (l1 & e & l2 & k1 & k2 & cs' & Hl & -> & Hlen & W' & Hit').
    apply keys_split in Hnd as (Hk1 & _). rewrite assoc_split, remove_split by done. split; [done|].
    destruct (lhmap_iter_rest _ _ _ _ _ _ W Hh) as (kr & Hk & Hklen).
    symmetry in Hl. apply app_eq_split in Hl as [(lc & -> & ->)|(lc & -> & ->)].
    + exists (l1 ++ lc), lb, cs'. rewrite <- app_assoc. split_and!; [done|by rewrite Hit'|].
      pose proof (wf_holds _ _ _ _ W') as Ha. rewrite app_assoc in Ha.
      apply app_eq_split in Hk as [(kc & -> & ->)|(kc & -> & ->)].
      * rewrite app_assoc in Ha. apply Forall2_app_inv in Ha as [_ Ha]; [done|].
        rewrite !length_app in Hklen |- *. simpl in Hklen. lia.
      * exfalso. apply Hni. rewrite fmap_app. set_solver.
    + exfalso. apply Hni. apply app_eq_split in Hk as [(kc & -> & ->)|(kc & -> & ->)]; [|rewrite fmap_app; set_solver].
      rewrite !length_app in Hlen, Hklen. simpl in Hklen. lia.
  - intros [Hk ->]. rewrite assoc_none, remove_none by done. split; [done|]. by exists la, lb, cs.
Qed.
Lemma lhmap_insert_total F m k key d :
  repr m k → length k + 1 < 2 ^ 32 →
  wp F (lhmap_insert key d) (λ r m', r = 0 ∧ repr m' ((key, d) :: k)) m.
Proof. intros HR Hl. apply insert_ok; [done|apply kmalloc_total|done]. Qed.

#[global] Instance LHMap_LinkedMap : LinkedMap (LHMap D) D := {|
  lm_repr := repr;
  lm_iter := lhmap_iter;
  lm_insert := lhmap_insert;
  lm_lookup := lhmap_lookup;
  lm_delete := lhmap_delete;
  lm_to_front := lhmap_to_front;
  lm_delete_last := lhmap_delete_last;
  lm_count := lm_entries;
  lm_iterator_start := lhmap_iterator_start;
  lm_iterator_next := lhmap_iterator_next;
  lm_count_law := repr_entries;
  lm_insert_law := lhmap_insert_total;
  lm_lookup_law := lookup_ok;
  lm_delete_law := delete_ok;
  lm_to_front_law := to_front_ok;
  lm_delete_last_law := delete_last_ok;
  lm_iter_repr := lhmap_iter_repr;
  lm_iterator_start_law := lhmap_iter_start;
  lm_iterator_next_law := lhmap_iter_next;
  lm_delete_iter_law := lhmap_delete_iter
|}.
End instance.

(** ** A map inside a larger state *)

(** Run code on the part of the state [get] selects. *)
Definition mzoom {S T A} (get : S → T) (set : T → S → S) (c : M T A) : M S A := λ s,
  match c (get s) with Ok a t => Ok a (set t s) | Err f => Err f end.

Lemma wp_mzoom {S T A} F (get : S → T) set (c : M T A) Q s :
  wp F c (λ a t, Q a (set t s)) (get s) → wp F (mzoom get set c) Q s.
Proof. unfold wp, mzoom. by destruct (c (get s)). Qed.

(** ** Clients whose keys are unique *)

Section unique.
Context {T D : Type} {LM : LinkedMap T D}.
Implicit Types (m : T) (k : list (Z * D)).

Lemma lookup_unique F m k key :
  lm_repr m k → NoDup k.*1 → wp F (lm_lookup key) (λ r m', m' = m ∧ r = assoc key k) m.
Proof.
  intros HR Hnd. eapply wp_mono; [by apply lm_lookup_law|]. intros r m' [-> Hr]. split; [done|].
  destruct r; symmetry; [by apply assoc_in|by apply assoc_none].
Qed.
Lemma delete_unique F m k key :
  lm_repr m k → NoDup k.*1 →
  wp F (lm_delete key) (λ r m', r = assoc key k ∧ lm_repr m' (remove key k)) m.
Proof.
  intros HR Hnd. eapply wp_mono; [by apply lm_delete_law|]. intros [v|] m'.
  - intros (k1 & k2 & -> & HR'). apply keys_split in Hnd as (? & _). by rewrite assoc_split, remove_split.
  - intros [? ->]. by rewrite assoc_none, remove_none.
Qed.

Lemma in_keys k key v : (key, v) ∈ k → key ∈ k.*1.
Proof. intros Hin. apply list_elem_of_fmap. by exists (key, v). Qed.
Lemma assoc_elem k key v : assoc key k = Some v → (key, v) ∈ k.
Proof.
  induction k as [|[x w] k IH]; [done|]. simpl. case_bool_decide; [intros [= ->]; subst; by left|].
  intros ?. right. auto.
Qed.
Lemma assoc_None k key : assoc key k = None → key ∉ k.*1.
Proof.
  induction k as [|[x w] k IH]; [set_solver|]. simpl. case_bool_decide; [done|].
  intros ?. apply not_elem_of_cons. auto.
Qed.
Lemma remove_elem k key kv : NoDup k.*1 → kv ∈ remove key k ↔ kv ∈ k ∧ kv.1 ≠ key.
Proof.
  induction k as [|[x w] k IH]; [set_solver|]. simpl. intros [Hx Hnd]%list.NoDup_cons. case_bool_decide as Hxk.
  - subst. destruct kv as [y v]. split.
    + intros Hin. split; [by right|]. cbn. intros ->. by eapply Hx, in_keys.
    + intros [[?|?]%elem_of_cons Hne]; [|done]. naive_solver.
  - rewrite !elem_of_cons, IH by done. split; [|naive_solver].
    intros [->|[? ?]]; auto.
Qed.
Lemma remove_keys k key : NoDup k.*1 → NoDup (remove key k).*1 ∧ ∀ x, x ∈ (remove key k).*1 ↔ x ∈ k.*1 ∧ x ≠ key.
Proof.
  intros Hnd. destruct (assoc key k) as [v|] eqn:Ha.
  - apply assoc_elem, list_elem_of_split in Ha as (k1 & k2 & ->).
    apply keys_split in Hnd as (H1 & H2 & H3). rewrite remove_split by done. split; [done|].
    intros x. rewrite !fmap_app. cbn. rewrite !elem_of_app, elem_of_cons. split; [|naive_solver].
    intros [Hx|Hx]; split; auto; congruence.
  - apply assoc_None in Ha. rewrite remove_none by done. split; [done|]. intros x. split; [|naive_solver].
    intros Hx. split; [done|congruence].
Qed.
End unique.
