(* ===== verification/HCache.v ===== *)
(** * Hash table cache

    Models l4ka-driver-reuse/kernel/block/ebc_hcache.c and ebc_hcache.h: a
    hash table over entries that the caller allocates, and that are also kept
    in a doubly linked list, oldest first. The caller's entries are a heap of
    nodes; the bucket array holds an entry of the heap or NULL, and has no
    binding for a NULL bucket. The functions are shown to implement a list of
    entries with their keys, and the collision chain of a bucket to be the part
    of that list that hashes to it. *)

From Stdlib Require Import ZArith Lia.
From stdpp Require Import base list gmap numbers.
From S2P Require Import Prelude HashList.

(** ** Data *)

Definition HCACHE_SIZE : Z := 2995973.

Record HCacheEntry : Type := mk_hentry {
  he_hd_sector : Z;
  he_fd_sector : Z;
  he_size : Z;
  he_state : Z;
  he_mask : Z
}.

Record HCache : Type := mk_hcache {
  hc_head : option positive;
  hc_tail : option positive;
  hc_cache : gmap Z positive;
  hc_heap : heap HCacheEntry
}.

Implicit Types (c : HCache) (h : heap HCacheEntry) (k : list (positive * Z)) (e p q : positive).
Abbreviation MH := (M HCache).

Definition hc_set_head (q : option positive) c := mk_hcache q (hc_tail c) (hc_cache c) (hc_heap c).
Definition hc_set_tail (q : option positive) c := mk_hcache (hc_head c) q (hc_cache c) (hc_heap c).
Definition hc_set_cache (b : gmap Z positive) c := mk_hcache (hc_head c) (hc_tail c) b (hc_heap c).
Definition hc_set_heap h c := mk_hcache (hc_head c) (hc_tail c) (hc_cache c) h.

Definition hload p : MH (node HCacheEntry) := o ← mgets (λ c, hc_heap c !! p); mof_option DanglingDeref o.
Definition hupdate p (f : node HCacheEntry → node HCacheEntry) : MH unit :=
  hload p;; mmodify (λ c, hc_set_heap (alter f p (hc_heap c)) c).
Definition hget (b : Z) : MH (option positive) := mgets (λ c, hc_cache c !! b).
Definition hset (b : Z) (q : option positive) : MH unit :=
  mmodify (λ c, hc_set_cache (partial_alter (λ _, q) b (hc_cache c)) c).
(** Enough rounds for any chain of the caller's entries. *)
Definition hwalk_fuel c : nat := S (size (hc_heap c)).

(** ** Operations *)

(** [hcache_init]: the head and the tail are cleared, the buckets keep what the
    allocated memory contains ([garbage]). *)
Definition hcache_init (kmalloc_ok : bool) (garbage : gmap Z positive) h : option HCache :=
  if kmalloc_ok then Some (mk_hcache None None garbage h) else None.

(** The part of [hcache_insert] that puts the entry at the end of its bucket. *)
Definition insert_chain (bucket : Z) e : MH unit :=
  first ← hget bucket;
  match first with
  | Some _ =>
      c ← mget;
      prev ← mof_sum (chain_end (hwalk_fuel c) (hc_heap c) first first);
      prev ← mof_option AssertFail prev;
      hupdate prev (set_chain (Some e))
  | None => hset bucket (Some e)
  end.

(** The part of [hcache_insert] that puts the entry at the end of the list. *)
Definition insert_list e : MH unit :=
  hd ← mgets hc_head;
  match hd with
  | None => mmodify (hc_set_head (Some e))
  | Some _ =>
      tl ← mgets hc_tail;
      t ← mof_option NullDeref tl;
      hupdate t (set_next (Some e))
  end;;
  tl ← mgets hc_tail;
  hupdate e (set_prev tl);;
  mmodify (hc_set_tail (Some e));;
  hupdate e (set_next None).

Definition hcache_insert (key : Z) e : MH Z :=
  let bucket := key `mod` HCACHE_SIZE in
  hupdate e (set_chain None);;
  insert_chain bucket e;;
  insert_list e;;
  mret 0.

Definition hcache_lookup (key : Z) : MH (option positive) :=
  first ← hget (key `mod` HCACHE_SIZE);
  c ← mget;
  r ← mof_sum (chain_find (hwalk_fuel c) (hc_heap c) key first None);
  mret r.1.

(** The part of [hcache_delete] that updates the linked list. *)
Definition hcache_unlink e : MH unit :=
  n ← hload e;
  match n_prev n with
  | None => mmodify (hc_set_head (n_next n))
  | Some p => hupdate p (set_next (n_next n))
  end;;
  n ← hload e;
  match n_next n with
  | None => mmodify (hc_set_tail (n_prev n))
  | Some q => hupdate q (set_prev (n_prev n))
  end.

Definition hcache_delete (key : Z) : MH Z :=
  let bucket := key `mod` HCACHE_SIZE in
  first ← hget bucket;
  c ← mget;
  r ← mof_sum (chain_find (hwalk_fuel c) (hc_heap c) key first None);
  match r.1 with
  | None => mret (-1)
  | Some e =>
      n ← hload e;
      (if bool_decide (Some e = first) then hset bucket (n_chain n)
       else
         p ← mof_option NullDeref r.2;
         np ← hload p;
         massert (bool_decide (n_chain np = Some e));;
         hupdate p (set_chain (n_chain n)));;
      hcache_unlink e;;
      mret 0
  end.

Definition hcache_get_list : MH (option positive) := mgets hc_head.

(** [hcache_iterator_start] and [hcache_iterator_stop] have empty bodies. *)
Definition hcache_iterator_start : MH unit := mret tt.
Definition hcache_iterator_stop : MH unit := mret tt.

(** [hcache_dump]: the lines it prints, as bucket number and entry. *)
Fixpoint dump_chain (fuel : nat) h (i : Z) (cur : option positive) : fault + list (Z * positive) :=
  match fuel with
  | O => inl Diverged
  | S fuel =>
      match cur with
      | None => inr []
      | Some p =>
          match h !! p with
          | None => inl DanglingDeref
          | Some n =>
              match dump_chain fuel h i (n_chain n) with
              | inl f => inl f
              | inr out => inr ((i, p) :: out)
              end
          end
      end
  end.
Fixpoint dump_buckets (c : HCache) (bs : list Z) : fault + list (Z * positive) :=
  match bs with
  | [] => inr []
  | i :: bs =>
      match dump_chain (hwalk_fuel c) (hc_heap c) i (hc_cache c !! i) with
      | inl f => inl f
      | inr out =>
          match dump_buckets c bs with inl f => inl f | inr out' => inr (out ++ out') end
      end
  end.
Definition hcache_dump : MH (list (Z * positive)) :=
  c ← mget; mof_sum (dump_buckets c (seqZ 0 HCACHE_SIZE)).

(** ** What a cache represents *)

(** The entries of bucket [b], in list order. *)
Definition bchain (b : Z) k : list positive :=
  (stdpp.base.filter (λ ek : positive * Z, ek.2 `mod` HCACHE_SIZE = b) k).*1.

(** The list holds the entries [k] in order, each in the chain of its key. *)
Record hwf c k : Prop := {
  hwf_nodup : NoDup k.*1;
  hwf_dll : dseg (hc_heap c) None k.*1 None;
  hwf_head : hc_head c = ohead k.*1 None;
  hwf_tail : hc_tail c = olast k.*1 None;
  hwf_chain : ∀ b, hc_cache c !! b = ohead (bchain b k) None ∧ cseg (hc_heap c) (bchain b k);
  hwf_keys : Forall (λ ek, n_key <$> hc_heap c !! ek.1 = Some ek.2) k
}.

Lemma bchain_app b k1 k2 : bchain b (k1 ++ k2) = bchain b k1 ++ bchain b k2.
Proof. unfold bchain. by rewrite list.filter_app, fmap_app. Qed.
Lemma bchain_cons_eq b e key k :
  key `mod` HCACHE_SIZE = b → bchain b ((e, key) :: k) = e :: bchain b k.
Proof. intros. unfold bchain. by rewrite filter_cons_True. Qed.
Lemma bchain_cons_ne b e key k :
  key `mod` HCACHE_SIZE ≠ b → bchain b ((e, key) :: k) = bchain b k.
Proof. intros. unfold bchain. by rewrite filter_cons_False. Qed.
Lemma bchain_elem b k p : p ∈ bchain b k ↔ ∃ key, (p, key) ∈ k ∧ key `mod` HCACHE_SIZE = b.
Proof.
  unfold bchain. rewrite list_elem_of_fmap. split.
  - intros ([q key] & -> & [Hb Hin]%list_elem_of_filter). eauto.
  - intros (key & Hin & Hb). exists (p, key). split; [done|]. by apply list_elem_of_filter.
Qed.
Lemma bchain_sub b k p : p ∈ bchain b k → p ∈ k.*1.
Proof. intros (key & Hin & _)%bchain_elem. apply list_elem_of_fmap. by exists (p, key). Qed.
Lemma bchain_nodup b k : NoDup k.*1 → NoDup (bchain b k).
Proof.
  induction k as [|[e key] k IH]; [constructor|]. intros [He Hnd]%list.NoDup_cons.
  destruct (decide (key `mod` HCACHE_SIZE = b)).
  - rewrite bchain_cons_eq by done. apply list.NoDup_cons. split; [|auto].
    intros ?%bchain_sub. done.
  - rewrite bchain_cons_ne by done. auto.
Qed.

Lemma hwf_key c k e key : hwf c k → (e, key) ∈ k → n_key <$> hc_heap c !! e = Some key.
Proof. intros W Hin. by apply (proj1 (list.Forall_forall _ _) (hwf_keys _ _ W) (e, key)). Qed.
Lemma hwf_in_heap c k e : hwf c k → e ∈ k.*1 → is_Some (hc_heap c !! e).
Proof.
  intros W ([e' key] & -> & Hin)%list_elem_of_fmap. pose proof (hwf_key _ _ _ _ W Hin) as Hk.
  simpl. destruct (hc_heap c !! e'); [eauto|done].
Qed.
Lemma hwf_fuel c k b : hwf c k → (length (bchain b k) < hwalk_fuel c)%nat.
Proof.
  intros W. unfold hwalk_fuel. apply Nat.lt_succ_r.
  rewrite <- size_dom, <- (size_list_to_set (C := gset positive)) by (apply bchain_nodup, W).
  apply subseteq_size. intros p Hp%elem_of_list_to_set. apply elem_of_dom.
  by eapply hwf_in_heap, bchain_sub.
Qed.
Lemma bchain_disjoint b b' k p : NoDup k.*1 → b ≠ b' → p ∈ bchain b k → p ∉ bchain b' k.
Proof.
  intros Hnd Hne (key & Hin & Hb)%bchain_elem (key' & Hin' & Hb')%bchain_elem.
  assert (key = key') as ->; [|congruence].
  apply list_elem_of_lookup in Hin as [i Hi]. apply list_elem_of_lookup in Hin' as [j Hj].
  assert (i = j) as ->.
  { eapply NoDup_lookup; [exact Hnd|rewrite list_lookup_fmap, Hi; done|by rewrite list_lookup_fmap, Hj]. }
  congruence.
Qed.

(** ** Searching *)

(** The first entry with a key splits the list. *)
Lemma key_split k key :
  key ∉ k.*2 ∨ ∃ k1 e k2, k = k1 ++ (e, key) :: k2 ∧ key ∉ k1.*2.
Proof.
  induction k as [|[e key'] k IH]; [left; by apply not_elem_of_nil|].
  destruct (decide (key' = key)) as [->|Hne].
  { right. exists [], e, k. split; [done|]. apply not_elem_of_nil. }
  destruct IH as [Hni|(k1 & e' & k2 & -> & Hni)].
  - left. simpl. set_solver.
  - right. exists ((e, key') :: k1), e', k2. split; [done|]. simpl. set_solver.
Qed.

Fixpoint hspec_lookup (key : Z) k : option positive :=
  match k with
  | [] => None
  | (e, key') :: k => if decide (key' = key) then Some e else hspec_lookup key k
  end.
Fixpoint hspec_delete (key : Z) k : list (positive * Z) :=
  match k with
  | [] => []
  | (e, key') :: k => if decide (key' = key) then k else (e, key') :: hspec_delete key k
  end.

Lemma hspec_lookup_None k key : key ∉ k.*2 → hspec_lookup key k = None.
Proof.
  induction k as [|[e key'] k IH]; simpl; [done|]. intros Hni.
  rewrite decide_False by set_solver. apply IH. set_solver.
Qed.
Lemma hspec_lookup_Some k1 e key k2 :
  key ∉ k1.*2 → hspec_lookup key (k1 ++ (e, key) :: k2) = Some e.
Proof.
  induction k1 as [|[e' key'] k1 IH]; simpl; intros Hni; [by rewrite decide_True|].
  rewrite decide_False by set_solver. apply IH. set_solver.
Qed.
Lemma hspec_delete_None k key : key ∉ k.*2 → hspec_delete key k = k.
Proof.
  induction k as [|[e key'] k IH]; simpl; [done|]. intros Hni.
  rewrite decide_False by set_solver. rewrite IH by set_solver. done.
Qed.
Lemma hspec_delete_Some k1 e key k2 :
  key ∉ k1.*2 → hspec_delete key (k1 ++ (e, key) :: k2) = k1 ++ k2.
Proof.
  induction k1 as [|[e' key'] k1 IH]; simpl; intros Hni; [by rewrite decide_True|].
  rewrite decide_False by set_solver. rewrite IH by set_solver. done.
Qed.

Lemma cfind_split h key (c1 : list positive) p (c2 : list positive) :
  (∀ q, q ∈ c1 → n_key <$> h !! q ≠ Some key) → n_key <$> h !! p = Some key →
  cfind h key (c1 ++ p :: c2) = Some (c1, p, c2).
Proof.
  intros H1 Hp. induction c1 as [|q c1 IH]; simpl; [by rewrite decide_True|].
  rewrite decide_False by (apply H1; by left). rewrite IH by (intros; apply H1; by right). done.
Qed.

(** What the search of [hcache_lookup] and [hcache_delete] finds. *)
Lemma hwf_find_None c k key :
  hwf c k → key ∉ k.*2 → ∃ pr,
  chain_find (hwalk_fuel c) (hc_heap c) key (hc_cache c !! (key `mod` HCACHE_SIZE)) None = inr (None, pr).
Proof.
  intros W Hni. destruct (hwf_chain _ _ W (key `mod` HCACHE_SIZE)) as [-> Hseg].
  rewrite chain_find_spec by (done || by apply hwf_fuel).
  rewrite (proj2 (cfind_None _ _ _)); [eauto|].
  intros q (key' & Hin & _)%bchain_elem. rewrite (hwf_key _ _ _ _ W Hin). intros [= ->].
  apply Hni, list_elem_of_fmap. by exists (q, key).
Qed.
Lemma hwf_find_Some c k1 e key k2 :
  let b := key `mod` HCACHE_SIZE in
  hwf c (k1 ++ (e, key) :: k2) → key ∉ k1.*2 →
  chain_find (hwalk_fuel c) (hc_heap c) key (hc_cache c !! b) None = inr (Some e, olast (bchain b k1) None).
Proof.
  intros b W Hni. pose proof (hwf_fuel _ _ b W) as Hfu. destruct (hwf_chain _ _ W b) as [-> Hseg].
  rewrite chain_find_spec by done. rewrite bchain_app, bchain_cons_eq by done.
  rewrite cfind_split; [done| |].
  - intros q (key' & Hin & _)%bchain_elem.
    rewrite (hwf_key _ _ q key' W) by (apply elem_of_app; by left).
    intros [= ->]. apply Hni, list_elem_of_fmap. by exists (q, key).
  - apply (hwf_key _ _ e key W), elem_of_app. right. by left.
Qed.

(** ** The operations on well-formed caches *)

Lemma wp_hload F p n Q c : hc_heap c !! p = Some n → Q n c → wp F (hload p) Q c.
Proof. intros Hn HQ. unfold hload. apply wp_bind, wp_mgets. by rewrite Hn. Qed.
Lemma wp_hupdate F p f Q c :
  is_Some (hc_heap c !! p) → Q tt (hc_set_heap (alter f p (hc_heap c)) c) → wp F (hupdate p f) Q c.
Proof. intros [n Hn] HQ. unfold hupdate. apply wp_bind. eapply wp_hload; [exact Hn|]. done. Qed.

Lemma is_Some_link_chain h (o q : option positive) p : is_Some (h !! p) → is_Some (link_chain o q h !! p).
Proof. destruct o; [|done]. simpl. by rewrite lookup_alter_is_Some. Qed.

(** Linking a new last node. *)
Definition push_back e (l : list positive) h : heap HCacheEntry :=
  alter (set_next None) e (alter (set_prev (olast l None)) e (link_next (olast l None) (Some e) h)).

Lemma lookup_link_next_ne h (o b : option positive) q : o ≠ Some q → link_next o b h !! q = h !! q.
Proof. intros. destruct o; [|done]. simpl. apply lookup_alter_ne. congruence. Qed.

Lemma olast_elem (l : list positive) p : olast l None = Some p → p ∈ l.
Proof. unfold olast. destruct (list.last l) eqn:?; [|done]. intros [= ->]. by apply last_Some_elem_of. Qed.

Lemma dseg_push_back h e l :
  NoDup l → e ∉ l → is_Some (h !! e) → dseg h None l None → dseg (push_back e l h) None (l ++ [e]) None.
Proof.
  intros Hnd He [n Hn] Hl. unfold push_back.
  assert (olast l None ≠ Some e) as Hne by (intros ?%olast_elem; done).
  apply dseg_app. simpl. split_and!; [|eexists; split|done].
  - assert (dseg (link_next (olast l None) (Some e) h) None l (Some e)) as Hl'.
    { destruct l as [|q l _] using rev_ind; [done|]. rewrite olast_snoc. simpl.
      eapply dseg_set_last; [exact Hl|]. apply list.NoDup_app in Hnd. set_solver. }
    eapply dseg_ext; [exact Hl'|]. intros q m Hq Hm. exists m.
    rewrite !lookup_alter_ne by set_solver. done.
  - rewrite !lookup_alter_eq, lookup_link_next_ne, Hn by done. done.
  - done.
Qed.
Lemma cseg_push_back h e l d : cseg h d → cseg (push_back e l h) d.
Proof. intros. unfold push_back. do 2 (apply cseg_alter; [done|]). by apply cseg_link_next. Qed.
Lemma same_data_push_back h e l P : same_data h (push_back e l h) P.
Proof.
  unfold push_back. eapply same_data_trans; [apply same_data_link_next|].
  eapply same_data_trans; by apply same_data_alter.
Qed.

Lemma keys_same_data h h' k :
  same_data h h' (λ _, True) → Forall (λ ek : positive * Z, n_key <$> h !! ek.1 = Some ek.2) k →
  Forall (λ ek : positive * Z, n_key <$> h' !! ek.1 = Some ek.2) k.
Proof.
  intros Hs Hf. eapply list.Forall_impl; [exact Hf|]. intros [p key]; simpl. destruct (h !! p) as [n|] eqn:Hn; [|done].
  intros [= <-]. destruct (Hs p n I Hn) as (n' & -> & Hk & _). simpl. by rewrite Hk.
Qed.

(** Replacing the chain of one bucket. *)
Lemma chains_update h h' (m m' : gmap Z positive) k k' b (q : option positive) :
  (∀ i, m !! i = ohead (bchain i k) None ∧ cseg h (bchain i k)) →
  m' = partial_alter (λ _, q) b m → q = ohead (bchain b k') None → cseg h' (bchain b k') →
  (∀ i, i ≠ b → bchain i k' = bchain i k ∧ (cseg h (bchain i k) → cseg h' (bchain i k))) →
  ∀ i, m' !! i = ohead (bchain i k') None ∧ cseg h' (bchain i k').
Proof.
  intros Hm -> -> Hc Ho i. destruct (decide (i = b)) as [->|Hne].
  - by rewrite lookup_partial_alter_eq.
  - destruct (Ho i Hne) as [-> Hi]. destruct (Hm i) as [Hl Hs]. rewrite lookup_partial_alter_ne by done. auto.
Qed.

(** The state [hcache_insert] leaves. *)
Definition inserted c k (key : Z) e : HCache :=
  let b := key `mod` HCACHE_SIZE in
  mk_hcache (ohead (k.*1 ++ [e]) None) (Some e)
    (partial_alter (λ _, ohead (bchain b k ++ [e]) None) b (hc_cache c))
    (push_back e k.*1 (link_chain (olast (bchain b k) None) (Some e) (alter (set_chain None) e (hc_heap c)))).

Lemma hwf_inserted c k key e :
  hwf c k → e ∉ k.*1 → n_key <$> hc_heap c !! e = Some key → hwf (inserted c k key e) (k ++ [(e, key)]).
Proof.
  intros W He Hkey. set (b := key `mod` HCACHE_SIZE).
  assert (∃ n, hc_heap c !! e = Some n) as [n Hn] by (destruct (hc_heap c !! e); [eauto|done]).
  assert (∀ i, e ∉ bchain i k) as Heb by (intros i ?%bchain_sub; done).
  set (h1 := alter (set_chain None) e (hc_heap c)).
  assert (∀ i, cseg h1 (bchain i k)) as Hc1.
  { intros i. eapply cseg_ext; [apply (hwf_chain _ _ W i)|]. intros q m Hq Hm. exists m. unfold h1.
    rewrite lookup_alter_ne by set_solver. done. }
  assert (same_data (hc_heap c) (hc_heap (inserted c k key e)) (λ _, True)) as Hs.
  { apply (same_data_trans _ h1); [by apply same_data_alter|].
    eapply same_data_trans; [apply same_data_link_chain|apply same_data_push_back]. }
  split; cbn [inserted hc_head hc_tail hc_cache]; rewrite ?fmap_app; cbn [fmap list_fmap fst].
  - apply list.NoDup_app. split_and!; [apply W|set_solver|apply NoDup_singleton].
  - apply dseg_push_back; [apply W|done| |].
    + destruct (same_data_trans _ _ _ (λ _, True) (same_data_alter (hc_heap c) (set_chain None) e _ ltac:(done))
        (same_data_link_chain _ (olast (bchain b k) None) (Some e) _) e n I Hn) as (n' & ? & _). eauto.
    + apply dseg_link_chain, dseg_alter; [done|]. apply W.
  - done.
  - by rewrite olast_snoc.
  - eapply (chains_update _ _ _ _ k); [apply (hwf_chain _ _ W)|done|..].
    + by rewrite bchain_app, bchain_cons_eq.
    + rewrite bchain_app, bchain_cons_eq by done. apply cseg_push_back, cseg_append_last;
        [apply bchain_nodup, W|done|done|].
      exists (set_chain None n). unfold h1. by rewrite lookup_alter_eq, Hn.
    + intros i Hne. rewrite bchain_app, bchain_cons_ne, app_nil_r by done. split; [done|]. intros _.
      apply cseg_push_back. eapply cseg_link_chain_other; [|done|apply Hc1].
      intros p. eapply bchain_disjoint; [apply W|done].
  - apply list.Forall_app. split; [by eapply keys_same_data, W|]. constructor; [|done]. simpl.
    destruct (Hs e n I Hn) as (n' & Hn' & Hk & _). rewrite Hn in Hkey.
    trans (n_key <$> Some n'); [exact (f_equal (fmap n_key) Hn')|]. simpl in *. congruence.
Qed.

Lemma olast_cons_Some p (l : list positive) : is_Some (olast (p :: l) None).
Proof. unfold olast. rewrite last_cons. destruct (list.last l); eauto. Qed.

Lemma wp_insert_chain c (ch : list positive) b e Q :
  hc_cache c !! b = ohead ch None → cseg (hc_heap c) ch → (length ch < hwalk_fuel c)%nat →
  Q tt (mk_hcache (hc_head c) (hc_tail c) (partial_alter (λ _, ohead (ch ++ [e]) None) b (hc_cache c))
          (link_chain (olast ch None) (Some e) (hc_heap c))) →
  wp no_fault (insert_chain b e) Q c.
Proof.
  intros Hb Hc Hfu HQ. unfold insert_chain, hget. apply wp_bind, wp_mgets. rewrite Hb.
  destruct ch as [|p ch]; [apply wp_mmodify; exact HQ|]. cbn [ohead]. apply wp_bind, wp_mget, wp_bind.
  assert (chain_end (hwalk_fuel c) (hc_heap c) (Some p) (Some p) = inr (olast (p :: ch) None)) as ->.
  { rewrite (chain_end_spec _ (p :: ch)) by done. by rewrite !olast_cons. }
  cbn [mof_sum]. apply wp_mret, wp_bind. destruct (olast_cons_Some p ch) as [z Hz]. rewrite Hz in *.
  cbn [mof_option]. apply wp_mret, wp_hupdate.
  - apply olast_elem, list_elem_of_split in Hz as (d1 & d2 & Hz). rewrite Hz in Hc.
    apply cseg_lookup in Hc as (n & Hn & _). eauto.
  - assert (partial_alter (λ _, ohead ((p :: ch) ++ [e]) None) b (hc_cache c) = hc_cache c) as Hpa.
    { apply map_eq. intros i. destruct (decide (i = b)) as [->|];
        [by rewrite lookup_partial_alter_eq, Hb|by rewrite lookup_partial_alter_ne]. }
    rewrite Hpa in HQ. by destruct c.
Qed.

Lemma wp_insert_list c (l : list positive) e Q :
  hc_head c = ohead l None → hc_tail c = olast l None → e ∉ l → is_Some (hc_heap c !! e) →
  (∀ p, p ∈ l → is_Some (hc_heap c !! p)) →
  Q tt (mk_hcache (ohead (l ++ [e]) None) (Some e) (hc_cache c) (push_back e l (hc_heap c))) →
  wp no_fault (insert_list e) Q c.
Proof.
  intros Hhd Htl Hel He Hall HQ. unfold insert_list. apply wp_bind, wp_mgets, wp_bind. rewrite Hhd.
  apply wp_mono with (P := λ _ c', c' = mk_hcache (ohead (l ++ [e]) None) (hc_tail c) (hc_cache c)
    (link_next (olast l None) (Some e) (hc_heap c))).
  - destruct l as [|p l]; cbn [ohead]; [by apply wp_mmodify|]. apply wp_bind, wp_mgets, wp_bind. rewrite Htl.
    destruct (olast_cons_Some p l) as [z Hz]. rewrite Hz. cbn [mof_option].
    apply wp_mret, wp_hupdate; [by apply Hall, olast_elem|]. unfold hc_set_heap. by rewrite Hhd, Htl, Hz.
  - cbv beta. intros _ c1 ->. apply wp_bind, wp_mgets. cbn [hc_tail]. rewrite Htl.
    assert (is_Some (link_next (olast l None) (Some e) (hc_heap c) !! e)).
    { rewrite lookup_link_next_ne; [done|]. intros ?%olast_elem. done. }
    apply wp_bind, wp_hupdate; [done|]. apply wp_bind, wp_mmodify, wp_hupdate; [|exact HQ].
    by apply lookup_alter_is_Some.
Qed.

Lemma hcache_insert_spec c k key e :
  hwf c k → e ∉ k.*1 → n_key <$> hc_heap c !! e = Some key →
  hcache_insert key e c = Ok 0 (inserted c k key e).
Proof.
  intros W He Hkey. set (b := key `mod` HCACHE_SIZE).
  assert (is_Some (hc_heap c !! e)) as Hin by (destruct (hc_heap c !! e); [eauto|done]).
  destruct (hwf_chain _ _ W b) as [Hb Hcb].
  enough (wp no_fault (hcache_insert key e) (λ r c', r = 0 ∧ c' = inserted c k key e) c) as Hwp.
  { apply wp_no_fault in Hwp as (r & c' & -> & -> & ->). done. }
  unfold hcache_insert. fold b. apply wp_bind, wp_hupdate; [done|]. apply wp_bind.
  eapply (wp_insert_chain _ (bchain b k)); [exact Hb| | |].
  - eapply cseg_ext; [exact Hcb|]. intros q m Hq%bchain_sub Hm. exists m. cbn.
    rewrite lookup_alter_ne by set_solver. done.
  - pose proof (hwf_fuel _ _ b W). unfold hwalk_fuel in *. cbn.
    by rewrite <- size_dom, dom_alter_L, size_dom.
  - apply wp_bind. eapply (wp_insert_list _ k.*1); cbn; [apply W|apply W|done|..].
    + apply is_Some_link_chain. by apply lookup_alter_is_Some.
    + intros p Hp. apply is_Some_link_chain, lookup_alter_is_Some. by eapply hwf_in_heap.
    + by split.
Qed.

(** The state [hcache_delete] leaves. *)
Definition deleted c k1 e k2 (b : Z) : HCache :=
  let l1 := k1.*1 in let l2 := k2.*1 in
  mk_hcache (ohead (l1 ++ l2) None) (olast (l1 ++ l2) None)
    (partial_alter (λ _, ohead (bchain b k1 ++ bchain b k2) None) b (hc_cache c))
    (link_prev (ohead l2 None) (olast l1 None) (link_next (olast l1 None) (ohead l2 None)
      (link_chain (olast (bchain b k1) None) (ohead (bchain b k2) None) (hc_heap c)))).

Lemma hwf_deleted c k1 e key k2 :
  hwf c (k1 ++ (e, key) :: k2) → hwf (deleted c k1 e k2 (key `mod` HCACHE_SIZE)) (k1 ++ k2).
Proof.
  intros W. set (b := key `mod` HCACHE_SIZE).
  pose proof (hwf_nodup _ _ W) as Hnd. pose proof (hwf_dll _ _ W) as Hd.
  pose proof (bchain_nodup b _ Hnd) as Hndb. destruct (hwf_chain _ _ W b) as [_ Hcb].
  rewrite bchain_app, bchain_cons_eq in Hndb, Hcb by done.
  rewrite fmap_app in Hnd, Hd. cbn [fmap list_fmap fst] in Hnd, Hd.
  assert (same_data (hc_heap c) (hc_heap (deleted c k1 e k2 b)) (λ _, True)) as Hs.
  { unfold deleted; cbn. eapply same_data_trans; [apply same_data_link_chain|].
    eapply same_data_trans; [apply same_data_link_next|apply same_data_link_prev]. }
  split; cbn [deleted hc_head hc_tail hc_cache]; rewrite ?fmap_app; cbn [fmap list_fmap fst].
  - apply list.NoDup_app in Hnd as (? & ? & [? ?]%list.NoDup_cons). apply list.NoDup_app. set_solver.
  - apply (dseg_unlink _ k1.*1 e k2.*1); [done|]. by apply dseg_link_chain.
  - done.
  - done.
  - eapply (chains_update _ _ _ _ (k1 ++ (e, key) :: k2)); [apply (hwf_chain _ _ W)|done|..].
    + by rewrite bchain_app.
    + rewrite bchain_app. apply cseg_link_prev, cseg_link_next. by apply (cseg_unlink_last _ _ e).
    + intros i Hne. rewrite !bchain_app, bchain_cons_ne by done. split; [done|]. intros Hc.
      apply cseg_link_prev, cseg_link_next.
      eapply (cseg_link_chain_other _ (bchain b k1)); [|done|done].
      intros p Hp Hq. eapply (bchain_disjoint b i (k1 ++ (e, key) :: k2) p); [apply W|done|..].
      * rewrite bchain_app. set_solver.
      * by rewrite bchain_app, bchain_cons_ne.
  - eapply keys_same_data; [exact Hs|]. pose proof (hwf_keys _ _ W) as Hk.
    apply list.Forall_app in Hk as [? Hk]. apply list.Forall_cons in Hk as [_ ?]. by apply list.Forall_app.
Qed.

Lemma wp_delete_chain c k1 e key k2 n :
  let b := key `mod` HCACHE_SIZE in
  hwf c (k1 ++ (e, key) :: k2) → hc_heap c !! e = Some n →
  wp no_fault
    (if bool_decide (Some e = hc_cache c !! b) then hset b (n_chain n)
     else
       p ← mof_option NullDeref (olast (bchain b k1) None);
       np ← hload p;
       massert (bool_decide (n_chain np = Some e));;
       hupdate p (set_chain (n_chain n)))
    (λ _ c', c' = mk_hcache (hc_head c) (hc_tail c)
       (partial_alter (λ _, ohead (bchain b k1 ++ bchain b k2) None) b (hc_cache c))
       (link_chain (olast (bchain b k1) None) (ohead (bchain b k2) None) (hc_heap c))) c.
Proof.
  intros b W Hn. destruct (hwf_chain _ _ W b) as [Hb Hcb].
  pose proof (bchain_nodup b _ (hwf_nodup _ _ W)) as Hnd.
  rewrite bchain_app, bchain_cons_eq in Hb, Hcb, Hnd by done.
  assert (n_chain n = ohead (bchain b k2) None) as Hch.
  { destruct (cseg_lookup _ _ _ _ Hcb) as (n' & Hn' & <-). congruence. }
  destruct (bchain b k1) as [|p d _] using rev_ind.
  { rewrite Hb, bool_decide_eq_true_2 by done. apply wp_mmodify. rewrite Hch. done. }
  rewrite bool_decide_eq_false_2.
  2: { rewrite Hb. intros Heq. assert (ohead ((d ++ [p]) ++ e :: bchain b k2) None = Some e) as Ho by done.
    apply list.NoDup_app in Hnd as (_ & Hx & _). apply (Hx e); [|by left].
    destruct d as [|x d]; simpl in Ho; injection Ho as ->; by left. }
  rewrite olast_snoc. rewrite <- app_assoc in Hcb. simpl in Hcb.
  destruct (cseg_lookup _ _ _ _ Hcb) as (np & Hnp & Hpc).
  apply wp_bind. cbn [mof_option]. apply wp_mret, wp_bind. eapply wp_hload; [exact Hnp|].
  apply wp_bind, wp_massert; [by rewrite Hpc, bool_decide_eq_true_2|]. intros _.
  apply wp_hupdate; [eauto|]. rewrite Hch.
  assert (partial_alter (λ _, ohead ((d ++ [p]) ++ bchain b k2) None) b (hc_cache c) = hc_cache c) as ->; [|done].
  apply map_eq. intros i. destruct (decide (i = b)) as [->|]; [|by rewrite lookup_partial_alter_ne].
  rewrite lookup_partial_alter_eq, Hb. by destruct d.
Qed.

Lemma wp_hcache_unlink c (l1 : list positive) e (l2 : list positive) Q :
  NoDup (l1 ++ e :: l2) → dseg (hc_heap c) None (l1 ++ e :: l2) None →
  hc_head c = ohead (l1 ++ e :: l2) None → hc_tail c = olast (l1 ++ e :: l2) None →
  Q tt (mk_hcache (ohead (l1 ++ l2) None) (olast (l1 ++ l2) None) (hc_cache c)
     (link_prev (ohead l2 None) (olast l1 None) (link_next (olast l1 None) (ohead l2 None) (hc_heap c)))) →
  wp no_fault (hcache_unlink e) Q c.
Proof.
  intros Hnd Hd Hhd Htl HQ. unfold hcache_unlink.
  destruct (dseg_lookup _ _ _ _ _ _ Hd) as (n & Hn & Hnp & Hnn).
  apply wp_bind. eapply wp_hload; [exact Hn|]. rewrite Hnp, Hnn.
  apply wp_bind, wp_mono with (P := λ _ c', c' = mk_hcache (ohead (l1 ++ l2) None) (hc_tail c) (hc_cache c)
    (link_next (olast l1 None) (ohead l2 None) (hc_heap c))).
  - destruct l1 as [|p l1 _] using rev_ind; [by apply wp_mmodify|]. rewrite olast_snoc.
    rewrite <- app_assoc in Hd. simpl in Hd. destruct (dseg_lookup _ _ _ _ _ _ Hd) as (np & Hp & _).
    apply wp_hupdate; [eauto|]. unfold hc_set_heap. rewrite Hhd. by destruct l1.
  - cbv beta. intros _ c1 ->. apply wp_bind.
    assert (olast l1 None ≠ Some e) by (intros ?%olast_elem; apply list.NoDup_app in Hnd; set_solver).
    eapply wp_hload; [cbn; rewrite lookup_link_next_ne by done; exact Hn|]. rewrite Hnp, Hnn.
    destruct l2 as [|q l2]; cbn [ohead].
    + apply wp_mmodify. rewrite app_nil_r in *. exact HQ.
    + apply wp_hupdate.
      * change (l1 ++ e :: q :: l2) with (l1 ++ [e] ++ q :: l2) in Hd. rewrite app_assoc in Hd.
        destruct (dseg_lookup _ _ _ _ _ _ Hd) as (nq & Hq & _).
        destruct (same_data_link_next (hc_heap c) (olast l1 None) (Some q) (λ _, True) q nq I Hq) as (? & ? & _).
        cbn. eauto.
      * unfold hc_set_heap; cbn. rewrite Htl, olast_app, olast_cons, olast_cons.
        rewrite olast_app, olast_cons in HQ. exact HQ.
Qed.

Lemma hcache_delete_spec c k1 e key k2 :
  hwf c (k1 ++ (e, key) :: k2) → key ∉ k1.*2 →
  hcache_delete key c = Ok 0 (deleted c k1 e k2 (key `mod` HCACHE_SIZE)).
Proof.
  intros W Hni. set (b := key `mod` HCACHE_SIZE).
  enough (wp no_fault (hcache_delete key) (λ r c', r = 0 ∧ c' = deleted c k1 e k2 b) c) as Hwp.
  { apply wp_no_fault in Hwp as (r & c' & -> & -> & ->). done. }
  pose proof (hwf_dll _ _ W) as Hd. pose proof (hwf_nodup _ _ W) as Hnd.
  rewrite fmap_app in Hd, Hnd. cbn [fmap list_fmap fst] in Hd, Hnd.
  unfold hcache_delete. fold b. apply wp_bind. unfold hget. apply wp_mgets, wp_bind, wp_mget, wp_bind.
  unfold b at 1. rewrite (hwf_find_Some c k1 e key k2) by done. fold b. cbn [mof_sum]. apply wp_mret. cbn [fst snd].
  destruct (dseg_lookup _ _ _ _ _ _ Hd) as (n & Hn & Hnp & Hnn).
  apply wp_bind. eapply wp_hload; [exact Hn|]. apply wp_bind.
  eapply wp_mono; [by apply (wp_delete_chain c k1 e key k2 n)|]. cbv beta. fold b. intros [] c' ->.
  apply wp_bind. eapply (wp_hcache_unlink _ k1.*1 e k2.*1); cbn; [done|by apply dseg_link_chain| | |by split].
  - rewrite (hwf_head _ _ W). by rewrite fmap_app.
  - rewrite (hwf_tail _ _ W). by rewrite fmap_app.
Qed.

Lemma hcache_lookup_spec c k key : hwf c k → hcache_lookup key c = Ok (hspec_lookup key k) c.
Proof.
  intros W. unfold hcache_lookup, hget, mgets, mget, mbind, M_bind. destruct (key_split k key) as [Hni|(k1 & e & k2 & -> & Hni)].
  - destruct (hwf_find_None c k key W Hni) as [pr ->]. by rewrite hspec_lookup_None.
  - rewrite (hwf_find_Some c k1 e key k2) by done. by rewrite hspec_lookup_Some.
Qed.

Lemma hcache_delete_absent c k key : hwf c k → key ∉ k.*2 → hcache_delete key c = Ok (-1) c.
Proof.
  intros W Hni. unfold hcache_delete, hget, mgets, mget, mbind, M_bind.
  by destruct (hwf_find_None c k key W Hni) as [pr ->].
Qed.

(** ** Sequences of operations *)

Inductive hop : Type := HInsert (key : Z) (e : positive) | HLookup (key : Z) | HDelete (key : Z) | HGetList.
Inductive hres : Type := HStatus (r : Z) | HEntry (e : option positive).

Definition hrun_op (o : hop) : MH hres :=
  match o with
  | HInsert key e => r ← hcache_insert key e; mret (HStatus r)
  | HLookup key => r ← hcache_lookup key; mret (HEntry r)
  | HDelete key => r ← hcache_delete key; mret (HStatus r)
  | HGetList => r ← hcache_get_list; mret (HEntry r)
  end.
Fixpoint hrun (ops : list hop) : MH (list hres) :=
  match ops with
  | [] => mret []
  | o :: ops => r ← hrun_op o; rs ← hrun ops; mret (r :: rs)
  end.

(** The list of entries with their keys that the operations maintain. [keys]
    are the key fields of the caller's entries. An insertion is only meaningful
    with the key of the entry, and while the entry is not in the cache. *)
Definition hspec_op (keys : gmap positive Z) (o : hop) k : option (hres * list (positive * Z)) :=
  match o with
  | HInsert key e =>
      if decide (keys !! e = Some key ∧ e ∉ k.*1) then Some (HStatus 0, k ++ [(e, key)]) else None
  | HLookup key => Some (HEntry (hspec_lookup key k), k)
  | HDelete key =>
      if decide (key ∈ k.*2) then Some (HStatus 0, hspec_delete key k) else Some (HStatus (-1), k)
  | HGetList => Some (HEntry (head k.*1), k)
  end.
Fixpoint hspec (keys : gmap positive Z) (ops : list hop) k : option (list hres * list (positive * Z)) :=
  match ops with
  | [] => Some ([], k)
  | o :: ops =>
      '(r, k1) ← hspec_op keys o k; '(rs, k2) ← hspec keys ops k1; Some (r :: rs, k2)
  end.

(** The entries keep their keys and contents. *)
Definition hdata h : gmap positive (Z * HCacheEntry) := (λ n, (n_key n, n_val n)) <$> h.
Definition hkeys h : gmap positive Z := n_key <$> h.

Lemma hdata_alter h f p :
  (∀ n, n_key (f n) = n_key n ∧ n_val (f n) = n_val n) → hdata (alter f p h) = hdata h.
Proof.
  intros Hf. unfold hdata. apply map_eq. intros q. rewrite !lookup_fmap.
  destruct (decide (p = q)) as [->|]; [|by rewrite lookup_alter_ne].
  rewrite lookup_alter_eq. destruct (h !! q) as [n|]; [|done]. simpl. destruct (Hf n) as [-> ->]. done.
Qed.
Lemma hdata_link_next h (o q : option positive) : hdata (link_next o q h) = hdata h.
Proof. destruct o; [by apply hdata_alter|done]. Qed.
Lemma hdata_link_prev h (o q : option positive) : hdata (link_prev o q h) = hdata h.
Proof. destruct o; [by apply hdata_alter|done]. Qed.
Lemma hdata_link_chain h (o q : option positive) : hdata (link_chain o q h) = hdata h.
Proof. destruct o; [by apply hdata_alter|done]. Qed.
Lemma hdata_push_back h e l : hdata (push_back e l h) = hdata h.
Proof. unfold push_back. do 2 (rewrite hdata_alter by done). apply hdata_link_next. Qed.
Lemma hkeys_hdata h h' : hdata h' = hdata h → hkeys h' = hkeys h.
Proof.
  intros Heq. apply (f_equal (fmap fst)) in Heq. unfold hdata, hkeys in *.
  rewrite <- !map_fmap_compose in Heq. exact Heq.
Qed.

Lemma hrun_op_spec c k o r k' :
  hwf c k → hspec_op (hkeys (hc_heap c)) o k = Some (r, k') →
  ∃ c', hrun_op o c = Ok r c' ∧ hwf c' k' ∧ hdata (hc_heap c') = hdata (hc_heap c).
Proof.
  intros W. destruct o as [key e|key|key|]; simpl; unfold mbind, M_bind.
  - case_decide as Hd; [|done]. intros [= <- <-]. destruct Hd as [Hk Hni].
    unfold hkeys in Hk. rewrite lookup_fmap in Hk. rewrite (hcache_insert_spec c k) by done.
    eexists. split_and!; [done|by apply hwf_inserted|]. cbn.
    rewrite hdata_push_back, hdata_link_chain. by apply hdata_alter.
  - intros [= <- <-]. rewrite (hcache_lookup_spec c k) by done. eauto.
  - destruct (key_split k key) as [Hni|(k1 & e & k2 & -> & Hni)].
    + rewrite decide_False by done. intros [= <- <-]. rewrite (hcache_delete_absent c k) by done. eauto.
    + rewrite decide_True by (rewrite fmap_app; simpl; set_solver). rewrite hspec_delete_Some by done.
      intros [= <- <-]. rewrite (hcache_delete_spec c k1 e key k2) by done.
      eexists. split_and!; [done|by apply hwf_deleted|]. cbn.
      by rewrite hdata_link_prev, hdata_link_next, hdata_link_chain.
  - intros [= <- <-]. unfold hcache_get_list, mgets. rewrite (hwf_head _ _ W). exists c. by destruct k.
Qed.

Lemma hrun_spec ops c k rs k' :
  hwf c k → hspec (hkeys (hc_heap c)) ops k = Some (rs, k') →
  ∃ c', hrun ops c = Ok rs c' ∧ hwf c' k' ∧ hdata (hc_heap c') = hdata (hc_heap c).
Proof.
  revert c k rs k'. induction ops as [|o ops IH]; intros c k rs k' W; simpl.
  { intros [= <- <-]. eauto. }
  destruct (hspec_op _ o k) as [[r k1]|] eqn:Ho; simpl; [|done].
  destruct (hspec _ ops k1) as [[rs' k2]|] eqn:Hr; simpl; [|done]. intros [= <- <-].
  destruct (hrun_op_spec c k o r k1 W Ho) as (c1 & H1 & W1 & D1).
  rewrite <- (hkeys_hdata _ _ D1) in Hr. destruct (IH c1 k1 rs' k2 W1 Hr) as (c2 & H2 & W2 & D2).
  exists c2. rewrite (bind_ok _ _ _ _ _ H1), (bind_ok _ _ _ _ _ H2). split_and!; [done..|congruence].
Qed.

Lemma hwf_empty h : hwf (mk_hcache None None ∅ h) [].
Proof. by split; try constructor. Qed.

(** C19. A cache whose array of buckets is all NULL when [hcache_init] returns (the code
    does not clear the allocated array, see [hcache_init_stale]) behaves as a list of entries
    with their keys, for the sequences of operations that [hspec] admits (an entry is
    inserted under its own key, and not while it is in the cache): insertions append, a lookup finds the first entry with the key,
    a deletion takes it out and reports -1 when there is none. No operation
    faults, the list and every collision chain stay linked, and the keys and
    contents of the caller's entries are untouched. *)
Theorem hcache_refines h c ops rs k :
  hcache_init true ∅ h = Some c → hspec (hkeys h) ops [] = Some (rs, k) →
  ∃ c', hrun ops c = Ok rs c' ∧ hwf c' k ∧ hdata (hc_heap c') = hdata h.
Proof. intros [= <-] Hs. by apply (hrun_spec ops _ [] rs k (hwf_empty h)). Qed.

Definition ex_entry (key hd : Z) : node HCacheEntry := mk_node key None None None (mk_hentry hd 0 8 1 255).
Definition ex_heap : heap HCacheEntry :=
  <[1%positive := ex_entry 5 100]> (<[2%positive := ex_entry (5 + HCACHE_SIZE) 200]>
    (<[3%positive := ex_entry 5 300]> ∅)).
Definition ex_ops : list hop :=
  [HInsert 5 1%positive; HInsert (5 + HCACHE_SIZE) 2%positive; HInsert 5 3%positive; HLookup 5;
   HDelete 5; HLookup 5; HDelete 7; HGetList; HInsert 5 1%positive; HGetList].

Lemma hcache_refines_witness :
  ∃ c c', hcache_init true ∅ ex_heap = Some c ∧
    hrun ex_ops c = Ok [HStatus 0; HStatus 0; HStatus 0; HEntry (Some 1%positive); HStatus 0;
      HEntry (Some 3%positive); HStatus (-1); HEntry (Some 2%positive); HStatus 0; HEntry (Some 2%positive)] c' ∧
    hwf c' [(2%positive, 5 + HCACHE_SIZE); (3%positive, 5); (1%positive, 5)].
Proof.
  destruct (hcache_refines ex_heap (mk_hcache None None ∅ ex_heap) ex_ops
    [HStatus 0; HStatus 0; HStatus 0; HEntry (Some 1%positive); HStatus 0;
      HEntry (Some 3%positive); HStatus (-1); HEntry (Some 2%positive); HStatus 0; HEntry (Some 2%positive)]
    [(2%positive, 5 + HCACHE_SIZE); (3%positive, 5); (1%positive, 5)]) as (c' & Hr & W & _).
  - reflexivity.
  - vm_compute. reflexivity.
  - eexists _, c'. split_and!; [reflexivity|exact Hr|exact W].
Defined.

(** ** The dump *)

Lemma dump_chain_spec h (ch : list positive) fuel i :
  cseg h ch → (length ch < fuel)%nat → dump_chain fuel h i (ohead ch None) = inr ((λ p, (i, p)) <$> ch).
Proof.
  revert fuel. induction ch as [|p ch IH]; intros [|fuel]; simpl; try lia; [done|].
  intros [(n & -> & ->) Hc] Hf. by rewrite IH by (done || lia).
Qed.
Lemma dump_buckets_spec c k bs :
  hwf c k → dump_buckets c bs = inr (bs ≫= λ i, (λ p, (i, p)) <$> bchain i k).
Proof.
  intros W. induction bs as [|i bs IH]; [done|]. cbn [dump_buckets]. destruct (hwf_chain _ _ W i) as [-> Hc].
  rewrite dump_chain_spec by (done || by apply hwf_fuel). by rewrite IH.
Qed.

(** Every entry lies in the chain of exactly one of the buckets listed. *)
Lemma buckets_partition (bs : list Z) k :
  NoDup bs → (∀ e key, (e, key) ∈ k → key `mod` HCACHE_SIZE ∈ bs) →
  (bs ≫= λ i, (λ p, (i, p)) <$> bchain i k) ≡ₚ (λ ek : positive * Z, (ek.2 `mod` HCACHE_SIZE, ek.1)) <$> k.
Proof.
  intros Hnd. induction k as [|[e key] k IH]; intros Hin.
  { induction bs as [|i bs IHb]; [done|]. apply list.NoDup_cons in Hnd as [_ Hnd]. simpl.
    apply IHb; [done|set_solver]. }
  set (b := key `mod` HCACHE_SIZE). simpl. fold b.
  rewrite <- IH by (intros e' key' H'; apply (Hin e'); by right).
  destruct (list_elem_of_split bs b) as (b1 & b2 & ->); [apply (Hin e); by left|].
  assert (∀ l, b ∉ l → (l ≫= λ i, (λ p, (i, p)) <$> bchain i ((e, key) :: k)) =
    (l ≫= λ i, (λ p, (i, p)) <$> bchain i k)) as Hl.
  { induction l as [|i l IHl]; [done|]. intros Hni. cbn [mbind list_bind].
    rewrite bchain_cons_ne by set_solver. rewrite IHl by set_solver. done. }
  apply list.NoDup_app in Hnd as (_ & Hx & [Hb2 _]%list.NoDup_cons).
  rewrite !bind_app. cbn [mbind list_bind]. rewrite bchain_cons_eq by done.
  rewrite !Hl by (done || intros Hb1; apply (Hx b Hb1); by left).
  simpl. by rewrite <- Permutation_middle.
Qed.

(** [hcache_dump] completes and prints every entry of the cache once, with the
    number of its bucket; the cache is unchanged. *)
Theorem hcache_dump_complete c k :
  hwf c k → ∃ out, hcache_dump c = Ok out c ∧
    out ≡ₚ (λ ek : positive * Z, (ek.2 `mod` HCACHE_SIZE, ek.1)) <$> k.
Proof.
  intros W. unfold hcache_dump, mget, mbind, M_bind. rewrite (dump_buckets_spec c k) by done.
  eexists. split; [done|]. apply buckets_partition; [apply NoDup_seqZ|].
  intros e key _. apply elem_of_seqZ. apply Z.mod_pos_bound. done.
Qed.

(** [hcache_init] does not clear the bucket array: a stale word in the memory
    that [kmalloc] returned is followed as a collision chain. *)
Lemma hcache_init_stale h c key p :
  h !! p = None → hcache_init true {[key `mod` HCACHE_SIZE := p]} h = Some c →
  hcache_lookup key c = Err DanglingDeref.
Proof.
  intros Hp [= <-]. unfold hcache_lookup, hget, mgets, mget, mbind, M_bind. cbn [hc_cache hc_heap].
  rewrite lookup_singleton_eq. unfold hwalk_fuel. cbn [chain_find hc_heap]. by rewrite Hp.
Qed.
