(* ===== verification/CacheMgnt.v ===== *)
(** * The energy-aware disk cache

    Models l4ka-driver-reuse/kernel/block/ebc_cache_mgnt.c: a flash disk caches
    32-sector blocks of the hard disk. [read_cache] and [write_cache] are linked
    hash maps from the first hard-disk sector of a block to its [CacheEntry];
    [free_list] has the flash blocks that are not in use. The counters of
    [DUMP_STATS], which only the statistics dump reads, are left out.

    The maps are used through the linked-map interface. A sector's contents are
    of an abstract type; [pread64] and [pwrite64] move sectors between a buffer
    and a device, and may move fewer than asked for. *)

From Stdlib Require Import ZArith Lia.
From stdpp Require Import base list gmap numbers.
From S2P Require Import Prelude LHMap LinkedMap.

(** ** Data (ebc_energy.h) *)

Definition OBJECT_SIZE : Z := 32.
(** [BLOCK_MASK(offset,size)], computed in 64 bits. *)
Definition BLOCK_MASK (offset sz : Z) : Z := u64 (Z.shiftl (u64 (Z.shiftl 1 sz) - 1) offset).

Inductive entry_state : Type := ENTRY_READ | ENTRY_WRITE.
Record CacheEntry : Type := mk_entry {
  ce_hd_sector : Z;
  ce_fd_sector : Z;
  ce_mask : Z;
  ce_state : entry_state
}.

Record cache (T Sec : Type) : Type := mk_cache {
  read_cache : T;
  write_cache : T;
  free_list : list Z;
  entries : gmap positive CacheEntry;
  disk : Z → Sec;
  flash : Z → Sec;
  write_buffer : list Sec;
  read_buffer : list Sec;
  (** how many sectors the coming transfers move at most; all when exhausted *)
  io_moves : list nat
}.
Arguments mk_cache {T Sec}.
Arguments read_cache {T Sec}.
Arguments write_cache {T Sec}.
Arguments free_list {T Sec}.
Arguments entries {T Sec}.
Arguments disk {T Sec}.
Arguments flash {T Sec}.
Arguments write_buffer {T Sec}.
Arguments read_buffer {T Sec}.
Arguments io_moves {T Sec}.

(** [qemu_malloc] of a [CacheEntry]: NULL or memory that is not in use. *)
Class EntryAlloc : Type := {
  entry_malloc : gmap positive CacheEntry → option positive;
  entry_malloc_fresh : ∀ h p, entry_malloc h = Some p → h !! p = None
}.

Section ops.
Context {T Sec : Type} {LM : LinkedMap T positive} {EA : EntryAlloc}.
Implicit Types (c : cache T Sec).
Abbreviation MC := (M (cache T Sec)).

Definition set_read_cache (t : T) c := mk_cache t (write_cache c) (free_list c) (entries c) (disk c) (flash c)
  (write_buffer c) (read_buffer c) (io_moves c).
Definition set_write_cache (t : T) c := mk_cache (read_cache c) t (free_list c) (entries c) (disk c) (flash c)
  (write_buffer c) (read_buffer c) (io_moves c).
Definition set_free_list (l : list Z) c := mk_cache (read_cache c) (write_cache c) l (entries c) (disk c) (flash c)
  (write_buffer c) (read_buffer c) (io_moves c).
Definition set_entries (h : gmap positive CacheEntry) c := mk_cache (read_cache c) (write_cache c) (free_list c) h
  (disk c) (flash c) (write_buffer c) (read_buffer c) (io_moves c).
Definition set_disk (d : Z → Sec) c := mk_cache (read_cache c) (write_cache c) (free_list c) (entries c) d (flash c)
  (write_buffer c) (read_buffer c) (io_moves c).
Definition set_flash (d : Z → Sec) c := mk_cache (read_cache c) (write_cache c) (free_list c) (entries c) (disk c) d
  (write_buffer c) (read_buffer c) (io_moves c).
Definition set_write_buffer (b : list Sec) c := mk_cache (read_cache c) (write_cache c) (free_list c) (entries c)
  (disk c) (flash c) b (read_buffer c) (io_moves c).
Definition set_read_buffer (b : list Sec) c := mk_cache (read_cache c) (write_cache c) (free_list c) (entries c)
  (disk c) (flash c) (write_buffer c) b (io_moves c).
Definition set_io_moves (l : list nat) c := mk_cache (read_cache c) (write_cache c) (free_list c) (entries c)
  (disk c) (flash c) (write_buffer c) (read_buffer c) l.

Definition on_read {A} (x : M T A) : MC A := mzoom read_cache set_read_cache x.
Definition on_write {A} (x : M T A) : MC A := mzoom write_cache set_write_cache x.
Definition load_entry (p : positive) : MC CacheEntry :=
  o ← mgets (λ c, entries c !! p); mof_option DanglingDeref o.

(** The sectors [x, x + n) of a device. *)
Definition sectors (d : Z → Sec) (x : Z) (n : nat) : list Sec := (λ i : nat, d (x + i)) <$> seq 0 n.
Definition write_sectors (d : Z → Sec) (x : Z) (b : list Sec) : Z → Sec := λ s, default (d s) (zlookup b (s - x)).
(** The sector of the 64-bit byte offset [x*512]. *)
Definition offset_sector (x : Z) : Z := u64 (x * 512) `div` 512.

(** How much the next transfer moves. *)
Definition next_move (n : nat) : MC nat :=
  l ← mgets io_moves;
  match l with
  | [] => mret n
  | j :: l => mmodify (set_io_moves l);; mret (j `min` n)%nat
  end.
(** [pread64(dev, buffer, n*512, x*512)]: whether all was read. *)
Definition pread64 (dev : cache T Sec → Z → Sec) (buf : cache T Sec → list Sec)
    (set_buf : list Sec → cache T Sec → cache T Sec) (n : nat) (x : Z) : MC bool :=
  j ← next_move n;
  mmodify (λ c, set_buf (sectors (dev c) (offset_sector x) j ++ drop j (buf c)) c);;
  mret (bool_decide (j = n)).
(** [pwrite64(dev, buffer, n*512, x*512)]: whether all was written. *)
Definition pwrite64 (dev : cache T Sec → Z → Sec) (set_dev : (Z → Sec) → cache T Sec → cache T Sec)
    (buf : cache T Sec → list Sec) (n : nat) (x : Z) : MC bool :=
  j ← next_move n;
  mmodify (λ c, set_dev (write_sectors (dev c) (offset_sector x) (take j (buf c))) c);;
  mret (bool_decide (j = n)).

(** ** Operations *)

(** [cinit_caches]; the arguments are what the two calls of [lhmap_create]
    return, [panic] included. *)
Definition cinit_caches (rc wc : fault + T) (free_entries : Z) : MC Z :=
  t ← mof_sum rc;
  mmodify (set_read_cache t);;
  t ← mof_sum wc;
  mmodify (set_write_cache t);;
  l ← mgets free_list;
  massert (bool_decide (l = []));;
  mmodify (λ c, set_free_list (free_list c ++ ((λ i, u64 (i * OBJECT_SIZE)) <$> seqZ 0 free_entries)) c);;
  mret 0.

Definition cinsert_read (key : Z) (data : positive) : MC Z := on_read (lm_insert key data).
Definition cinsert_write (key : Z) (data : positive) : MC Z := on_write (lm_insert key data).
Definition clookup_read (key : Z) : MC (option positive) := on_read (lm_lookup key).
Definition clookup_write (key : Z) : MC (option positive) := on_write (lm_lookup key).
Definition clookup_any (key : Z) : MC (option positive) :=
  r ← on_read (lm_lookup key);
  match r with
  | Some e => mret (Some e)
  | None => on_write (lm_lookup key)
  end.

Definition cmove_to_read (key : Z) : MC Z :=
  r ← on_write (lm_delete key);
  match r with
  | None => mret 1
  | Some e => z ← on_read (lm_insert key e); mret (if bool_decide (z = 0) then 0 else 1)
  end.
Definition cmove_to_write (key : Z) : MC Z :=
  r ← on_read (lm_delete key);
  match r with
  | None => mret 1
  | Some e => z ← on_write (lm_insert key e); mret (if bool_decide (z = 0) then 0 else 1)
  end.

Definition cremove_read (key : Z) : MC (option positive) := on_read (lm_delete key).
Definition cremove_write (key : Z) : MC (option positive) := on_write (lm_delete key).

Definition citerator_start_read : MC unit := on_read lm_iterator_start.
Definition citerator_start_write : MC unit := on_write lm_iterator_start.
Definition citerator_next_read : MC (option (positive * Z)) := on_read lm_iterator_next.
Definition citerator_next_write : MC (option (positive * Z)) := on_write lm_iterator_next.

Definition push_free (x : Z) : MC unit := mmodify (λ c, set_free_list (free_list c ++ [x]) c).
(** [qemu_free] of an entry *)
Definition free_entry (p : positive) : MC unit := mmodify (λ c, set_entries (delete p (entries c)) c).

Definition cflush_read (key : Z) : MC Z :=
  r ← cremove_read key;
  match r with
  | None => mret (-1)
  | Some e => push_free key;; free_entry e;; mret 0
  end.

(** Write back the sectors [i], [i+1], … of an entry whose mask bit is set,
    [n] of them; failed transfers are only reported. *)
Fixpoint write_back (e : CacheEntry) (i : Z) (n : nat) : MC unit :=
  match n with
  | O => mret tt
  | S n =>
      (if Z.testbit (ce_mask e) i then
         pread64 flash write_buffer set_write_buffer 1 (ce_fd_sector e + i);;
         pwrite64 disk set_disk write_buffer 1 (ce_hd_sector e + i);;
         mret tt
       else mret tt);;
      write_back e (i + 1) n
  end.

Definition cflush_write (key : Z) : MC Z :=
  r ← cremove_write key;
  match r with
  | None => mret (-1)
  | Some p =>
      e ← load_entry p;
      (if bool_decide (ce_mask e = BLOCK_MASK 0 OBJECT_SIZE) then
         pread64 flash write_buffer set_write_buffer (Z.to_nat OBJECT_SIZE) (ce_fd_sector e);;
         pwrite64 disk set_disk write_buffer (Z.to_nat OBJECT_SIZE) (ce_hd_sector e);;
         mret tt
       else write_back e 0 (Z.to_nat OBJECT_SIZE));;
      push_free key;;
      free_entry p;;
      mret 0
  end.

(** Take the first free block. *)
Definition pop_free : MC (option Z) :=
  l ← mgets free_list;
  match l with
  | [] => mret None
  | b :: l => mmodify (set_free_list l);; mret (Some b)
  end.

Definition cfetch_read (key : Z) : MC Z :=
  r ← pop_free;
  match r with
  | None => mret (-1)
  | Some block =>
      o ← mgets (λ c, entry_malloc (entries c));
      match o with
      | None => mret (-1)
      | Some p =>
          pread64 disk read_buffer set_read_buffer (Z.to_nat OBJECT_SIZE) key;;
          pwrite64 flash set_flash read_buffer (Z.to_nat OBJECT_SIZE) block;;
          mmodify (λ c, set_entries
            (<[p := mk_entry key block (u32 (BLOCK_MASK 0 OBJECT_SIZE)) ENTRY_READ]> (entries c)) c);;
          cinsert_read key p
      end
  end.

Definition cfetch_write (key : Z) : MC Z := mret (-1).

(** [cget_free_block]: the block, or nothing when the call returns -1. *)
Definition cget_free_block : MC (option Z) := pop_free.

Definition cremove_last_read : MC (option (positive * Z)) := on_read lm_delete_last.
Definition cremove_last_write : MC (option (positive * Z)) := on_write lm_delete_last.
Definition csize_read : MC Z := mgets (λ c, lm_count (read_cache c)).
Definition csize_write : MC Z := mgets (λ c, lm_count (write_cache c)).
End ops.

(** ** Invariant and contents *)

Section theory.
Context {T Sec : Type} {LM : LinkedMap T positive} {EA : EntryAlloc}.
Implicit Types (c : cache T Sec) (kr kw : list (Z * positive)) (key x s : Z) (p : positive).

(** The first sector of an object whose byte offsets fit 64 bits. *)
Definition block_ok (x : Z) : Prop := 0 ≤ x ∧ x + 32 ≤ 2 ^ 55 ∧ x `mod` 32 = 0.
#[global] Instance block_ok_dec x : Decision (block_ok x).
Proof. unfold block_ok. apply _. Defined.

(** The maps hold [kr] and [kw]; every key is cached once and has its entry; a
    block of the read cache is a whole and unmodified copy. *)
Record cinv c kr kw : Prop := {
  ci_read : lm_repr (read_cache c) kr;
  ci_write : lm_repr (write_cache c) kw;
  ci_keys : NoDup (kr ++ kw).*1;
  ci_ptrs : NoDup (kr ++ kw).*2;
  ci_entry : ∀ key p, (key, p) ∈ kr ++ kw → ∃ e, entries c !! p = Some e ∧ ce_hd_sector e = key ∧
    0 ≤ ce_mask e < 2 ^ 32 ∧ block_ok key ∧ block_ok (ce_fd_sector e);
  ci_clean : ∀ key p e, (key, p) ∈ kr → entries c !! p = Some e → ce_mask e = 2 ^ 32 - 1 ∧
    ∀ i, 0 ≤ i < 32 → flash c (ce_fd_sector e + i) = disk c (key + i);
  ci_bufs : length (write_buffer c) = 32%nat ∧ length (read_buffer c) = 32%nat;
  ci_bound : length kr + length kw + length (free_list c) < 2 ^ 32
}.

(** Free blocks and the blocks of the entries are all different. *)
Record cfree c kr kw : Prop := {
  cf_nodup : NoDup (free_list c);
  cf_ok : ∀ b, b ∈ free_list c → block_ok b;
  cf_used : ∀ key p e, (key, p) ∈ kr ++ kw → entries c !! p = Some e → ce_fd_sector e ∉ free_list c;
  cf_inj : ∀ key p e key' p' e', (key, p) ∈ kr ++ kw → (key', p') ∈ kr ++ kw → entries c !! p = Some e →
    entries c !! p' = Some e' → ce_fd_sector e = ce_fd_sector e' → p = p'
}.

(** What hard-disk sector [s] contains as far as the system is concerned:
    the flash copy where the write cache has one, else the disk. *)
Definition view c kw (s : Z) : Sec :=
  match assoc (s - s `mod` 32) kw with
  | Some p =>
      match entries c !! p with
      | Some e => if Z.testbit (ce_mask e) (s `mod` 32) then flash c (ce_fd_sector e + s `mod` 32) else disk c s
      | None => disk c s
      end
  | None => disk c s
  end.

(** No transfer fails. *)
Definition io_good c : Prop := io_moves c = [].

(** *** Devices *)

Lemma offset_sector_id x : 0 ≤ x < 2 ^ 55 → offset_sector x = x.
Proof. intros Hx. unfold offset_sector. rewrite wrap_small by lia. apply Z.div_mul. lia. Qed.
Lemma length_sectors (d : Z → Sec) x n : length (sectors d x n) = n.
Proof. unfold sectors. by rewrite length_fmap, length_seq. Qed.
Lemma zlookup_sectors (d : Z → Sec) x (n : nat) i : 0 ≤ i < n → zlookup (sectors d x n) i = Some (d (x + i)).
Proof.
  intros Hi. unfold sectors. rewrite zlookup_fmap. unfold zlookup. rewrite decide_True by lia.
  rewrite lookup_seq_lt by lia. simpl. do 2 f_equal. lia.
Qed.
Lemma write_sectors_in (d d0 : Z → Sec) x y (n : nat) s :
  x ≤ s < x + n → write_sectors d x (sectors d0 y n) s = d0 (y + (s - x)).
Proof. intros Hs. unfold write_sectors. by rewrite zlookup_sectors by lia. Qed.
Lemma write_sectors_out (d : Z → Sec) x (b : list Sec) s :
  ¬ (x ≤ s < x + length b) → write_sectors d x b s = d s.
Proof.
  intros Hs. unfold write_sectors. destruct (zlookup b (s - x)) eqn:Hl; [|done].
  apply zlookup_lt in Hl. lia.
Qed.

Lemma wp_pread64 F dev buf set_buf n x Q c :
  io_good c → 0 ≤ x < 2 ^ 55 → Q true (set_buf (sectors (dev c) x n ++ drop n (buf c)) c) →
  wp F (pread64 (T := T) dev buf set_buf n x) Q c.
Proof.
  intros Hio Hx HQ. unfold pread64, next_move. apply wp_bind, wp_bind, wp_mgets. rewrite Hio.
  apply wp_mret, wp_bind, wp_mmodify, wp_mret. by rewrite bool_decide_eq_true_2, offset_sector_id.
Qed.
Lemma wp_pwrite64 F dev set_dev buf n x Q c :
  io_good c → 0 ≤ x < 2 ^ 55 → Q true (set_dev (write_sectors (dev c) x (take n (buf c))) c) →
  wp F (pwrite64 (T := T) dev set_dev buf n x) Q c.
Proof.
  intros Hio Hx HQ. unfold pwrite64, next_move. apply wp_bind, wp_bind, wp_mgets. rewrite Hio.
  apply wp_mret, wp_bind, wp_mmodify, wp_mret. by rewrite bool_decide_eq_true_2, offset_sector_id.
Qed.

(** Two blocks are the same or do not overlap. *)
Lemma block_disjoint x y i j :
  block_ok x → block_ok y → x ≠ y → 0 ≤ i < 32 → 0 ≤ j < 32 → x + i ≠ y + j.
Proof.
  intros (? & _ & Hx) (? & _ & Hy) Hne Hi Hj Heq.
  apply Z.mod_divide in Hx as [a ->]; [|lia]. apply Z.mod_divide in Hy as [b ->]; [|lia]. lia.
Qed.
Lemma sector_split s : 0 ≤ s `mod` 32 < 32 ∧ s = s - s `mod` 32 + s `mod` 32 ∧ (s - s `mod` 32) `mod` 32 = 0.
Proof.
  pose proof (Z.mod_pos_bound s 32 ltac:(lia)). split_and!; [lia..|].
  rewrite Zminus_mod_idemp_r, Z.sub_diag. done.
Qed.

Lemma cinv_assoc_read c kr kw key p : cinv c kr kw → assoc key kr = Some p → (key, p) ∈ kr ++ kw.
Proof. intros _ ?%assoc_elem. apply elem_of_app. auto. Qed.
Lemma cinv_nodup c kr kw : cinv c kr kw → NoDup kr.*1 ∧ NoDup kw.*1 ∧ ∀ key, key ∈ kr.*1 → key ∉ kw.*1.
Proof.
  intros I. pose proof (ci_keys _ _ _ I) as H. rewrite fmap_app in H.
  by apply list.NoDup_app in H as (? & ? & ?).
Qed.

(** Free blocks and entries, when a block is taken. *)
Lemma wp_pop_free F Q c :
  (free_list c = [] → Q None c) →
  (∀ b l, free_list c = b :: l → Q (Some b) (set_free_list l c)) →
  wp F (pop_free (T := T) (Sec := Sec)) Q c.
Proof.
  intros H0 H1. unfold pop_free. apply wp_bind, wp_mgets. destruct (free_list c) as [|b l]; [by apply wp_mret, H0|].
  apply wp_bind, wp_mmodify, wp_mret. auto.
Qed.

Lemma cinv_pop c kr kw b l : cinv c kr kw → free_list c = b :: l → cinv (set_free_list l c) kr kw.
Proof.
  intros [] Hl. split; try done. cbn. rewrite Hl in *. simpl in *. lia.
Qed.
Lemma cfree_pop c kr kw b l : cfree c kr kw → free_list c = b :: l → cfree (set_free_list l c) kr kw.
Proof.
  intros [Hn Ho Hu Hi] Hl. rewrite Hl in *. apply list.NoDup_cons in Hn as [_ Hn].
  split; cbn; [done|intros; apply Ho; by right|intros ??? H1 H2 H3|by eauto]. eapply Hu; [done..|by right].
Qed.

(** *** The cache entry [cfetch_read] adds *)

Section fetch.
Context (c : cache T Sec) (kr kw : list (Z * positive)) (key block : Z) (p : positive) (l : list Z)
  (rc : T) (rb : list Sec) (fl' : Z → Sec).
Context (I : cinv c kr kw) (Fr : cfree c kr kw) (Hkey : block_ok key) (Hni : key ∉ (kr ++ kw).*1)
  (Hp : entries c !! p = None) (Hl : free_list c = block :: l) (HR : lm_repr rc ((key, p) :: kr))
  (Hrb : length rb = 32%nat) (Hin : ∀ i, 0 ≤ i < 32 → fl' (block + i) = disk c (key + i))
  (Hout : ∀ s, ¬ (block ≤ s < block + 32) → fl' s = flash c s).
Let e0 := mk_entry key block (2 ^ 32 - 1) ENTRY_READ.
Let c' := mk_cache rc (write_cache c) l (<[p := e0]> (entries c)) (disk c) fl' (write_buffer c) rb (io_moves c).

Lemma fetch_ne key' p' : (key', p') ∈ kr ++ kw → p' ≠ p.
Proof. intros Hk ->. destruct (ci_entry _ _ _ I _ _ Hk) as (e & He & _). congruence. Qed.
Lemma fetch_lookup key' p' : (key', p') ∈ kr ++ kw → entries c' !! p' = entries c !! p'.
Proof. intros Hk. apply lookup_insert_ne, not_eq_sym. by eapply fetch_ne. Qed.
Lemma fetch_block : block_ok block ∧ block ∉ l ∧ NoDup l.
Proof.
  pose proof (cf_nodup _ _ _ Fr) as Hn. rewrite Hl in Hn. apply list.NoDup_cons in Hn as [??].
  split; [|done]. apply Fr. rewrite Hl. by left.
Qed.
Lemma fetch_fd_ne key' p' e : (key', p') ∈ kr ++ kw → entries c !! p' = Some e → ce_fd_sector e ≠ block.
Proof. intros Hk He Heq. eapply (cf_used _ _ _ Fr); [done..|]. rewrite Heq, Hl. by left. Qed.
Lemma fetch_other key' p' e i :
  (key', p') ∈ kr ++ kw → entries c !! p' = Some e → 0 ≤ i < 32 →
  fl' (ce_fd_sector e + i) = flash c (ce_fd_sector e + i).
Proof.
  intros Hk He Hi. apply Hout. destruct (ci_entry _ _ _ I _ _ Hk) as (e' & He' & _ & _ & _ & Hfd).
  simplify_eq. pose proof (fetch_fd_ne _ _ _ Hk He) as Hne. destruct fetch_block as [Hb _].
  intros Hr. apply (block_disjoint (ce_fd_sector e) block i (ce_fd_sector e + i - block)); try done; lia.
Qed.

Lemma fetch_inv : cinv c' ((key, p) :: kr) kw.
Proof.
  pose proof (ci_bound _ _ _ I) as Hb. rewrite Hl in Hb. simpl in Hb. destruct fetch_block as [Hblock _].
  split; try by apply I.
  - done.
  - cbn. apply list.NoDup_cons. split; [done|apply I].
  - cbn. apply list.NoDup_cons. split; [|apply I]. intros ([k' p'] & Heq & Hk)%list_elem_of_fmap. by eapply (fetch_ne k' p').
  - intros key' p' [[= Ek Ep]|Hk]%elem_of_cons.
    + rewrite Ek, Ep. exists e0. cbn. rewrite lookup_insert_eq. split_and!; done || (cbn; lia).
    + rewrite (fetch_lookup key') by done. by apply I.
  - intros key' p' e [[= Ek Ep]|Hk]%elem_of_cons.
    + rewrite Ek, Ep. cbn. rewrite lookup_insert_eq. intros [= <-]. split; [done|]. apply Hin.
    + assert ((key', p') ∈ kr ++ kw) as Hk' by (apply elem_of_app; by left).
      rewrite (fetch_lookup key') by done. intros He.
      destruct (ci_clean _ _ _ I _ _ _ Hk He) as [Hm Hc]. split; [done|]. intros i Hi. cbn.
      rewrite (fetch_other key' p') by done. auto.
  - cbn. split; [apply I|done].
  - cbn. lia.
Qed.

Lemma fetch_free : cfree c' ((key, p) :: kr) kw.
Proof.
  destruct fetch_block as (_ & Hbl & Hnd). split.
  - done.
  - intros b Hb. apply Fr. rewrite Hl. by right.
  - intros key' p' e [[= Ek Ep]|Hk]%elem_of_cons.
    + rewrite Ep. cbn. rewrite lookup_insert_eq. by intros [= <-].
    + rewrite (fetch_lookup key') by done. intros He Hfd.
      eapply (cf_used _ _ _ Fr); [done..|]. rewrite Hl. by right.
  - intros k1 p1 e1 k2 p2 e2 [[= Ek1 Ep1]|H1]%elem_of_cons [[= Ek2 Ep2]|H2]%elem_of_cons; [congruence|..].
    + rewrite Ep1, (fetch_lookup k2 p2 H2). cbn. rewrite lookup_insert_eq. intros [= <-] He2 Heq.
      exfalso. by eapply fetch_fd_ne.
    + rewrite Ep2, (fetch_lookup k1 p1 H1). cbn. rewrite lookup_insert_eq. intros He1 [= <-] Heq.
      exfalso. by eapply fetch_fd_ne.
    + rewrite (fetch_lookup k1 p1 H1), (fetch_lookup k2 p2 H2). intros. by eapply (cf_inj _ _ _ Fr).
Qed.

Lemma fetch_view s : view c' kw s = view c kw s.
Proof.
  unfold view. destruct (assoc _ kw) as [p'|] eqn:Ha; [|done].
  assert ((s - s `mod` 32, p') ∈ kr ++ kw) as Hk by (apply elem_of_app; right; by apply assoc_elem).
  rewrite (fetch_lookup _ _ Hk). destruct (entries c !! p') as [e|] eqn:He; [|done]. cbn.
  rewrite (fetch_other (s - s `mod` 32) p') by (done || apply Z.mod_pos_bound; lia). done.
Qed.
End fetch.

(** ** Operations *)

Lemma take_sectors (d : Z → Sec) x n (b : list Sec) : take n (sectors d x n ++ b) = sectors d x n.
Proof. rewrite <- (length_sectors d x n) at 1. apply take_app_length. Qed.

Lemma cfetch_read_ok F c kr kw key :
  cinv c kr kw → cfree c kr kw → io_good c → block_ok key → key ∉ (kr ++ kw).*1 →
  wp F (cfetch_read key) (λ r c',
    io_good c' ∧ (∀ s, view c' kw s = view c kw s) ∧
    ((r = 0 ∧ ∃ p, cinv c' ((key, p) :: kr) kw ∧ cfree c' ((key, p) :: kr) kw) ∨
     (r = -1 ∧ (free_list c = [] ∨ entry_malloc (entries c) = None) ∧ cinv c' kr kw ∧ cfree c' kr kw))) c.
Proof.
  intros I Fr Hio Hkey Hni. unfold cfetch_read. apply wp_bind, wp_pop_free.
  { intros Hl. apply wp_mret. split_and!; [done..|]. right. auto. }
  intros block l Hl. apply wp_bind, wp_mgets. cbn [entries set_free_list].
  destruct (entry_malloc (entries c)) as [p|] eqn:Hm.
  2:{ apply wp_mret. split_and!; [done..|]. right. split_and!; [done|auto|..].
      - by eapply cinv_pop. - by eapply cfree_pop. }
  assert (block_ok block) as Hblock by (apply Fr; rewrite Hl; by left).
  pose proof Hkey as (? & ? & ?). destruct Hblock as (? & ? & ?).
  apply wp_bind, wp_pread64; [done|lia|]. apply wp_bind, wp_pwrite64; [done|lia|].
  apply wp_bind, wp_mmodify. unfold cinsert_read, on_read. apply wp_mzoom.
  eapply wp_mono; [apply (lm_insert_law F _ kr); [apply I|]|].
  { pose proof (ci_bound _ _ _ I) as Hb. rewrite Hl in Hb. simpl in Hb. lia. }
  intros r t [-> HR]. cbn. rewrite take_sectors.
  assert (length (sectors (disk c) key 32 ++ drop 32 (read_buffer c)) = 32%nat) as Hrb.
  { rewrite length_app, length_sectors, length_drop. pose proof (ci_bufs _ _ _ I). lia. }
  pose proof (entry_malloc_fresh _ _ Hm) as Hfresh.
  assert (∀ i, 0 ≤ i < 32 → write_sectors (flash c) block (sectors (disk c) key 32) (block + i) = disk c (key + i)) as Hin.
  { intros i Hi. rewrite write_sectors_in by lia. f_equal. lia. }
  assert (∀ s, ¬ (block ≤ s < block + 32) → write_sectors (flash c) block (sectors (disk c) key 32) s = flash c s) as Hout.
  { intros s Hs. apply write_sectors_out. by rewrite length_sectors. }
  lazymatch goal with |- io_good ?x ∧ _ => change x with (mk_cache t (write_cache c) l
    (<[p := mk_entry key block (2 ^ 32 - 1) ENTRY_READ]> (entries c)) (disk c)
    (write_sectors (flash c) block (sectors (disk c) key 32)) (write_buffer c)
    (sectors (disk c) key 32 ++ drop 32 (read_buffer c)) (io_moves c)) end.
  split_and!; [done|by eapply (fetch_view c kr kw)|]. left. split; [done|]. exists p.
  split; [by eapply (fetch_inv c kr kw)|by eapply (fetch_free c kr kw)].
Qed.

Lemma clookup_any_ok F c kr kw key :
  cinv c kr kw →
  wp F (clookup_any key) (λ r c', c' = c ∧ r = assoc key (kr ++ kw)) c.
Proof.
  assert (∀ t (c0 : cache T Sec), t = read_cache c0 → set_read_cache t c0 = c0) as Hid1 by (intros ? [] ->; done).
  assert (∀ t (c0 : cache T Sec), t = write_cache c0 → set_write_cache t c0 = c0) as Hid2 by (intros ? [] ->; done).
  assert (∀ k1 k2 : list (Z * positive), assoc key (k1 ++ k2) =
    match assoc key k1 with Some p => Some p | None => assoc key k2 end) as Happ.
  { induction k1 as [|[x p] k1 IH]; [done|]. intros k2. simpl. by case_bool_decide. }
  intros I. destruct (cinv_nodup _ _ _ I) as (Hr & Hw & _). unfold clookup_any, on_read, on_write.
  apply wp_bind, wp_mzoom. eapply wp_mono; [apply (lookup_unique F _ kr); [apply I|done]|].
  intros r t [-> ->]. rewrite Hid1 by done. rewrite Happ. destruct (assoc key kr); [by apply wp_mret|].
  apply wp_mzoom. eapply wp_mono; [apply (lookup_unique F _ kw); [apply I|done]|].
  intros r t [-> ->]. by rewrite Hid2.
Qed.

(** *** Writing an entry back *)

(** The disk once the modified sectors of an entry are written back, up to
    sector [n] of the block. *)
Definition flushed c (e : CacheEntry) (i n : Z) (s : Z) : Sec :=
  if bool_decide (ce_hd_sector e + i ≤ s < ce_hd_sector e + i + n) && Z.testbit (ce_mask e) (s - ce_hd_sector e)
  then flash c (ce_fd_sector e + (s - ce_hd_sector e)) else disk c s.

Lemma write_back_ok F e (n : nat) c i :
  io_good c → block_ok (ce_hd_sector e) → block_ok (ce_fd_sector e) → 0 ≤ i → i + n ≤ 32 →
  length (write_buffer c) = 32%nat →
  wp F (write_back e i n) (λ _ c', ∃ d b, c' = set_write_buffer b (set_disk d c) ∧ length b = 32%nat ∧
    ∀ s, d s = flushed c e i n s) c.
Proof.
  intros Hio Hhd Hfd. pose proof Hhd as (? & ? & ?). pose proof Hfd as (? & ? & ?).
  revert c i Hio. induction n as [|n IH]; intros c i Hio Hi Hn Hb; cbn [write_back].
  { apply wp_mret. exists (disk c), (write_buffer c). split_and!; [by destruct c|done|].
    intros s. unfold flushed. by rewrite bool_decide_eq_false_2 by lia. }
  apply wp_bind. destruct (Z.testbit (ce_mask e) i) eqn:Hbit.
  - apply wp_bind, wp_pread64; [done|lia|]. apply wp_bind, wp_pwrite64; [done|lia|]. apply wp_mret.
    eapply wp_mono; [apply IH; [done|lia|lia|]|].
    { cbn. rewrite length_drop. lia. }
    intros _ c' (d & b & -> & Hbl & Hd). exists d, b. split_and!; [done..|]. intros s. rewrite Hd.
    unfold flushed. cbn [flash disk set_disk set_write_buffer take write_buffer firstn].
    rewrite take_sectors. destruct (decide (s = ce_hd_sector e + i)) as [->|Hne].
    + rewrite bool_decide_eq_false_2, bool_decide_eq_true_2 by lia. cbn [andb].
      replace (ce_hd_sector e + i - ce_hd_sector e) with i by lia. rewrite Hbit, write_sectors_in by lia.
      f_equal. lia.
    + rewrite write_sectors_out by (rewrite length_sectors; lia).
      rewrite (bool_decide_ext _ (ce_hd_sector e + i ≤ s < ce_hd_sector e + i + S n)) by lia. done.
  - apply wp_mret. eapply wp_mono; [apply IH; [done|lia|lia|done]|].
    intros _ c' (d & b & -> & Hbl & Hd). exists d, b. split_and!; [done..|]. intros s. rewrite Hd.
    unfold flushed. destruct (decide (s = ce_hd_sector e + i)) as [->|Hne].
    + replace (ce_hd_sector e + i - ce_hd_sector e) with i by lia. by rewrite Hbit, !andb_false_r.
    + rewrite (bool_decide_ext _ (ce_hd_sector e + i ≤ s < ce_hd_sector e + i + S n)) by lia. done.
Qed.

(** The optimisation for whole blocks does the same. *)
Lemma write_whole_ok F e c :
  io_good c → block_ok (ce_hd_sector e) → block_ok (ce_fd_sector e) → ce_mask e = 2 ^ 32 - 1 →
  length (write_buffer c) = 32%nat →
  wp F (pread64 flash write_buffer set_write_buffer 32 (ce_fd_sector e);;
        pwrite64 disk set_disk write_buffer 32 (ce_hd_sector e);; mret tt)
    (λ _ c', ∃ d b, c' = set_write_buffer b (set_disk d c) ∧ length b = 32%nat ∧
      ∀ s, d s = flushed c e 0 32 s) c.
Proof.
  intros Hio (? & ? & ?) (? & ? & ?) Hm Hb. apply wp_bind, wp_pread64; [done|lia|].
  apply wp_bind, wp_pwrite64; [done|lia|]. apply wp_mret.
  exists (write_sectors (disk c) (ce_hd_sector e) (sectors (flash c) (ce_fd_sector e) 32)),
    (sectors (flash c) (ce_fd_sector e) 32 ++ drop 32 (write_buffer c)). split_and!.
  { unfold set_disk, set_write_buffer. cbn [disk flash write_buffer]. by rewrite take_sectors. }
  { rewrite length_app, length_sectors, length_drop. lia. }
  intros s. unfold flushed.
  rewrite Hm. change (2 ^ 32 - 1) with (Z.ones 32). rewrite Z.testbit_ones by lia. case_bool_decide as Hs.
  - rewrite write_sectors_in by lia.
    replace (_ && _) with true; [done|]. symmetry. apply andb_true_intro. split; lia.
  - apply write_sectors_out. rewrite length_sectors. lia.
Qed.

(** What remains when an entry leaves a cache. *)
Lemma cinv_rest c kr kw key p rest :
  cinv c kr kw → kr ++ kw ≡ₚ (key, p) :: rest →
  NoDup rest.*1 ∧ NoDup rest.*2 ∧ ∀ key' p', (key', p') ∈ rest → (key', p') ∈ kr ++ kw ∧ key' ≠ key ∧ p' ≠ p.
Proof.
  intros I Hp. pose proof (ci_keys _ _ _ I) as Hk. pose proof (ci_ptrs _ _ _ I) as Hq.
  rewrite Hp in Hk, Hq. cbn in Hk, Hq. apply list.NoDup_cons in Hk as [Hk1 Hk], Hq as [Hq1 Hq].
  split_and!; [done..|]. intros key' p' Hin. split_and!.
  - rewrite Hp. by right.
  - intros ->. apply Hk1, list_elem_of_fmap. by exists (key, p').
  - intros ->. apply Hq1, list_elem_of_fmap. by exists (key', p).
Qed.
Lemma remove_perm kw key p : assoc key kw = Some p → kw ≡ₚ (key, p) :: remove key kw.
Proof.
  induction kw as [|[x q] kw IH]; [done|]. simpl. case_bool_decide as Hx.
  - intros [= ->]. by subst.
  - intros Ha. rewrite (IH Ha) at 1. constructor.
Qed.

Lemma assoc_remove_ne kw key x : x ≠ key → assoc x (remove key kw) = assoc x kw.
Proof.
  intros Hne. induction kw as [|[y q] kw IH]; [done|]. simpl. case_bool_decide; simpl.
  - subst. by rewrite bool_decide_eq_false_2 by done.
  - by rewrite IH.
Qed.

Section flush.
Context (c : cache T Sec) (kr kw : list (Z * positive)) (key : Z) (p : positive) (e : CacheEntry)
  (t : T) (d : Z → Sec) (b : list Sec) (fl : list Z).
Context (I : cinv c kr kw) (Ha : assoc key kw = Some p) (He : entries c !! p = Some e)
  (HR : lm_repr t (remove key kw)) (Hb : length b = 32%nat) (Hd : ∀ s, d s = flushed c e 0 32 s)
  (Hfl : length fl = S (length (free_list c))).
Let c' := mk_cache (read_cache c) t fl (delete p (entries c)) d (flash c) b (read_buffer c) (io_moves c).

Lemma flush_perm : kr ++ kw ≡ₚ (key, p) :: kr ++ remove key kw.
Proof. rewrite (remove_perm kw key p Ha) at 1. by rewrite Permutation_middle. Qed.
Lemma flush_entry : ce_hd_sector e = key ∧ block_ok key.
Proof.
  destruct (ci_entry _ _ _ I key p) as (e' & He' & Hk & _ & Hok & _); [|by simplify_eq].
  apply elem_of_app. right. by apply assoc_elem.
Qed.
(** Only the entry's block of the disk changes. *)
Lemma flush_disk key' i : block_ok key' → key' ≠ key → 0 ≤ i < 32 → d (key' + i) = disk c (key' + i).
Proof.
  destruct flush_entry as [Hhd Hk]. intros Hk' Hne Hi. rewrite Hd. unfold flushed.
  rewrite bool_decide_eq_false_2; [done|]. rewrite Hhd. intros Hs.
  apply (block_disjoint key' key i (key' + i - key)); try done; lia.
Qed.

Lemma flush_inv : cinv c' kr (remove key kw).
Proof.
  destruct (cinv_rest _ _ _ _ _ _ I flush_perm) as (Hn1 & Hn2 & Hrest).
  assert (∀ key' p', (key', p') ∈ kr ++ remove key kw → entries c' !! p' = entries c !! p') as Hlk.
  { intros key' p' Hin. apply lookup_delete_ne. apply Hrest in Hin. naive_solver. }
  split; try done; try by apply I.
  - intros key' p' Hin. rewrite (Hlk key' p' Hin). by apply I, Hrest.
  - intros key' p' e' Hin He'. assert ((key', p') ∈ kr ++ remove key kw) as Hin'.
    { apply elem_of_app. by left. }
    rewrite (Hlk key' p' Hin') in He'. destruct (ci_clean _ _ _ I _ _ _ Hin He') as [Hm Hc].
    destruct (Hrest _ _ Hin') as (Hin0 & Hne & _).
    destruct (ci_entry _ _ _ I _ _ Hin0) as (? & _ & _ & _ & Hok & _).
    split; [done|]. intros i Hi. cbn. rewrite flush_disk by done. auto.
  - split; [done|apply I].
  - pose proof (ci_bound _ _ _ I) as Hbd. pose proof (Permutation_length (remove_perm _ _ _ Ha)) as Hl.
    simpl in Hl. cbn. lia.
Qed.

Lemma flush_view s : view c' (remove key kw) s = view c kw s.
Proof.
  destruct flush_entry as [Hhd Hk]. destruct (sector_split s) as (Hi & Hs & Hmod).
  destruct (cinv_nodup _ _ _ I) as (_ & Hw & _).
  destruct (cinv_rest _ _ _ _ _ _ I flush_perm) as (_ & _ & Hrest).
  unfold view. destruct (decide (s - s `mod` 32 = key)) as [Hb0|Hne].
  - rewrite Hb0, Ha, He, (assoc_none key (remove key kw)).
    2:{ intros Hin. apply remove_keys in Hin; [naive_solver|done]. }
    cbn. rewrite Hd. unfold flushed. rewrite Hhd, bool_decide_eq_true_2 by lia. cbn [andb].
    by replace (s - key) with (s `mod` 32) by lia.
  - assert (d s = disk c s) as Hds.
    { rewrite Hd. unfold flushed. rewrite bool_decide_eq_false_2; [done|]. rewrite Hhd. intros Hr. apply Hne.
      destruct Hk as (_ & _ & Hk). apply Z.mod_divide in Hk as [z ->]; [|lia].
      apply Z.mod_divide in Hmod as [y Hy]; [|lia]. lia. }
    assert (assoc (s - s `mod` 32) (remove key kw) = assoc (s - s `mod` 32) kw) as ->.
    { by apply assoc_remove_ne. }
    destruct (assoc (s - s `mod` 32) kw) as [q|] eqn:Hq; [|done]. cbn.
    rewrite lookup_delete_ne, Hds; [done|]. intros <-.
    assert (key = s - s `mod` 32) as ->; [|done].
    destruct (ci_entry _ _ _ I (s - s `mod` 32) p) as (e' & He' & Hk' & _); [|simplify_eq; congruence].
    apply elem_of_app. right. by apply assoc_elem.
Qed.
End flush.

(** [P] is what else is known of the write cache once the key is deleted. *)
Lemma cflush_write_gen F c kr kw key (P : T → Prop) :
  cinv c kr kw → io_good c → key ∈ kw.*1 →
  wp F (lm_delete key) (λ r t, r = assoc key kw ∧ lm_repr t (remove key kw) ∧ P t) (write_cache c) →
  wp F (cflush_write key) (λ r c', r = 0 ∧ io_good c' ∧ cinv c' kr (remove key kw) ∧
    (∀ s, view c' (remove key kw) s = view c kw s) ∧ free_list c' = free_list c ++ [key] ∧
    P (write_cache c')) c.
Proof.
  intros I Hio Hin Hdel. destruct (cinv_nodup _ _ _ I) as (_ & Hw & _).
  destruct (assoc key kw) as [p|] eqn:Ha; [|by apply assoc_None in Ha].
  destruct (ci_entry _ _ _ I key p) as (e & He & Hhd & Hm & Hk & Hfd).
  { apply elem_of_app. right. by apply assoc_elem. }
  unfold cflush_write, cremove_write, on_write. apply wp_bind, wp_mzoom.
  eapply wp_mono; [exact Hdel|]. intros r t (-> & HR & HP).
  apply wp_bind. unfold load_entry. apply wp_bind, wp_mgets. cbn [entries set_write_cache]. rewrite He.
  apply wp_mof_option; [done|]. intros ? [= <-]. apply wp_bind. eapply wp_mono.
  - instantiate (1 := λ _ c', ∃ d b, c' = set_write_buffer b (set_disk d (set_write_cache t c)) ∧
      length b = 32%nat ∧ ∀ s, d s = flushed c e 0 32 s).
    case_bool_decide as Hmask.
    + apply (write_whole_ok F e (set_write_cache t c)); rewrite ?Hhd; try done. apply I.
    + apply (write_back_ok F e 32 (set_write_cache t c) 0); rewrite ?Hhd; try done. apply I.
  - intros _ c' (d & b & -> & Hb & Hd). apply wp_bind. apply wp_mmodify.
    apply wp_bind, wp_mmodify, wp_mret. split_and!; [done..| | |done|exact HP].
    + apply (flush_inv c kr kw key p e t d b (free_list c ++ [key])); try done. rewrite length_app. simpl. lia.
    + apply (flush_view c kr kw key p e t d b (free_list c ++ [key])); try done. rewrite length_app. simpl. lia.
Qed.

Lemma cflush_write_ok F c kr kw key :
  cinv c kr kw → io_good c → key ∈ kw.*1 →
  wp F (cflush_write key) (λ r c', r = 0 ∧ io_good c' ∧ cinv c' kr (remove key kw) ∧
    (∀ s, view c' (remove key kw) s = view c kw s) ∧ free_list c' = free_list c ++ [key]) c.
Proof.
  intros I Hio Hin. destruct (cinv_nodup _ _ _ I) as (_ & Hw & _).
  eapply wp_mono; [apply (cflush_write_gen F c kr kw key (λ _, True)); [done..|]|naive_solver].
  eapply wp_mono; [apply (delete_unique F _ kw); [apply I|done]|]. naive_solver.
Qed.

Lemma read_perm kr kw key p : assoc key kr = Some p → kr ++ kw ≡ₚ (key, p) :: remove key kr ++ kw.
Proof. intros Ha. by rewrite (remove_perm kr key p Ha) at 1. Qed.

Lemma cflush_read_ok F c kr kw key :
  cinv c kr kw → key ∈ kr.*1 →
  wp F (cflush_read key) (λ r c', r = 0 ∧ cinv c' (remove key kr) kw ∧
    (∀ s, view c' kw s = view c kw s) ∧ free_list c' = free_list c ++ [key]) c.
Proof.
  intros I Hin. destruct (cinv_nodup _ _ _ I) as (Hr & _ & _).
  destruct (assoc key kr) as [p|] eqn:Ha; [|by apply assoc_None in Ha].
  pose proof (read_perm kr kw key p Ha) as Hperm.
  destruct (cinv_rest _ _ _ _ _ _ I Hperm) as (Hn1 & Hn2 & Hrest).
  unfold cflush_read, cremove_read, on_read. apply wp_bind, wp_mzoom.
  eapply wp_mono; [apply (delete_unique F _ kr); [apply I|done]|]. intros r t [-> HR]. rewrite Ha.
  apply wp_bind, wp_mmodify, wp_bind, wp_mmodify, wp_mret.
  assert (∀ key' p', (key', p') ∈ remove key kr ++ kw → delete p (entries c) !! p' = entries c !! p') as Hlk.
  { intros key' p' Hk. apply lookup_delete_ne. apply Hrest in Hk. naive_solver. }
  split_and!; [done|split; cbn; try done; try by apply I| |done].
  - intros key' p' Hk. rewrite (Hlk key' p' Hk). by apply I, Hrest.
  - intros key' p' e Hk. assert ((key', p') ∈ remove key kr ++ kw) as Hk' by (apply elem_of_app; by left).
    rewrite (Hlk key' p' Hk'). apply I. apply remove_elem in Hk as [? _]; done.
  - pose proof (ci_bound _ _ _ I). pose proof (Permutation_length (remove_perm _ _ _ Ha)) as Hl.
    rewrite length_app. simpl in *. lia.
  - intros s. unfold view. cbn. destruct (assoc (s - s `mod` 32) kw) as [q|] eqn:Hq; [|done].
    rewrite (Hlk (s - s `mod` 32) q); [done|]. apply elem_of_app. right. by apply assoc_elem.
Qed.

Lemma cmove_to_write_ok F c kr kw key p :
  cinv c kr kw → assoc key kr = Some p →
  wp F (cmove_to_write key) (λ r c', r = 0 ∧ cinv c' (remove key kr) ((key, p) :: kw) ∧
    (∀ s, view c' ((key, p) :: kw) s = view c kw s) ∧ entries c' = entries c ∧
    free_list c' = free_list c ∧ io_moves c' = io_moves c) c.
Proof.
  intros I Ha. destruct (cinv_nodup _ _ _ I) as (Hr & _ & Hdis).
  assert (remove key kr ++ (key, p) :: kw ≡ₚ kr ++ kw) as Hperm.
  { rewrite <- Permutation_middle. by rewrite (read_perm kr kw key p Ha). }
  pose proof (ci_bound _ _ _ I) as Hbd. pose proof (Permutation_length (remove_perm _ _ _ Ha)) as Hl.
  simpl in Hl. unfold cmove_to_write, on_read, on_write. apply wp_bind, wp_mzoom.
  eapply wp_mono; [apply (delete_unique F _ kr); [apply I|done]|]. intros r t [-> HR]. rewrite Ha.
  apply wp_bind, wp_mzoom. eapply wp_mono; [apply (lm_insert_law F _ kw); [apply I|lia]|].
  intros r t' [-> HW]. apply wp_mret. apply assoc_elem in Ha as Hin.
  split_and!; [done|split; cbn; try done; try by apply I| |done..].
  - by rewrite Hperm; apply I.
  - by rewrite Hperm; apply I.
  - intros key' p' Hk. rewrite Hperm in Hk. by apply I.
  - intros key' p' e Hk. apply I. apply remove_elem in Hk as [? _]; done.
  - lia.
  - intros s. unfold view. cbn [assoc]. destruct (sector_split s) as (Hi & Hs & _). case_bool_decide as Hk.
    + cbn. destruct (ci_entry _ _ _ I key p) as (e & He & _); [apply elem_of_app; by left|].
      rewrite He. destruct (ci_clean _ _ _ I key p e Hin He) as [Hm Hc]. rewrite Hm.
      change (2 ^ 32 - 1) with (Z.ones 32). rewrite Z.ones_spec_low by lia.
      rewrite (assoc_none (s - s `mod` 32) kw) by (rewrite <- Hk; apply Hdis; by eapply in_keys).
      rewrite Hc by lia. f_equal. lia.
    + by cbn.
Qed.

Lemma cinit_caches_ok F c tr tw (n : Z) :
  lm_repr tr [] → lm_repr tw [] → 0 ≤ n < 2 ^ 32 → free_list c = [] →
  length (write_buffer c) = 32%nat → length (read_buffer c) = 32%nat →
  wp F (cinit_caches (inr tr) (inr tw) n) (λ r c', r = 0 ∧ cinv c' [] [] ∧ cfree c' [] [] ∧
    disk c' = disk c ∧ io_moves c' = io_moves c ∧ length (free_list c') = Z.to_nat n) c.
Proof.
  intros Hr Hw Hn Hl Hb1 Hb2. unfold cinit_caches. apply wp_bind, wp_mret, wp_bind, wp_mmodify.
  apply wp_bind, wp_mret, wp_bind, wp_mmodify. apply wp_bind, wp_mgets. apply wp_bind, wp_massert.
  { cbn. rewrite Hl. done. }
  intros _. apply wp_bind, wp_mmodify, wp_mret. cbn. rewrite Hl. cbn [app].
  assert ((λ i, u64 (i * OBJECT_SIZE)) <$> seqZ 0 n = (λ i, i * 32) <$> seqZ 0 n) as ->.
  { apply list_fmap_ext. intros i x Hx. apply lookup_seqZ in Hx as [-> Hi]. unfold OBJECT_SIZE.
    apply wrap_small. lia. }
  split_and!; try done.
  - split; cbn; try done; [constructor..|set_solver|set_solver|]. rewrite length_fmap, length_seqZ. lia.
  - split; cbn; [|intros b (i & -> & Hi%elem_of_seqZ)%list_elem_of_fmap|set_solver..].
    + apply NoDup_fmap_2; [intros ???; lia|apply NoDup_seqZ].
    + split_and!; [lia..|]. apply Z.mod_mul. lia.
  - by rewrite length_fmap, length_seqZ.
Qed.

(** *** What the clients of the cache do *)

(** A block is fetched only when it is not cached (ebc_lru.c, ebc_prefetcher.c);
    a write to a cached block moves its entry to the write cache
    (ebc_policy1.c). *)
Inductive cop : Type := CLoad (key : Z) | CDirty (key : Z) | CLookup (key : Z).
Definition run_cop (o : cop) : M (cache T Sec) unit :=
  match o with
  | CLoad key =>
      r ← clookup_any key;
      match r with None => cfetch_read key;; mret tt | Some _ => mret tt end
  | CDirty key =>
      r ← clookup_read key;
      match r with None => mret tt | Some _ => cmove_to_write key;; mret tt end
  | CLookup key => clookup_any key;; mret tt
  end.
Fixpoint run_cops (os : list cop) : M (cache T Sec) unit :=
  match os with [] => mret tt | o :: os => run_cop o;; run_cops os end.
Definition cop_ok (o : cop) : bool := match o with CLoad key => bool_decide (block_ok key) | _ => true end.

(** Consistent, and [v] is what the sectors contain. *)
Definition coherent (v : Z → Sec) c : Prop :=
  io_good c ∧ ∃ kr kw, cinv c kr kw ∧ cfree c kr kw ∧ ∀ s, view c kw s = v s.

Lemma cfree_perm c c' kr kw kr' kw' :
  cfree c kr kw → kr' ++ kw' ≡ₚ kr ++ kw → entries c' = entries c → free_list c' = free_list c → cfree c' kr' kw'.
Proof.
  intros [Hn Ho Hu Hi] Hp He Hf. split; rewrite ?He, ?Hf; [done..| |].
  - intros key p e Hk. rewrite Hp in Hk. eauto.
  - intros k1 p1 e1 k2 p2 e2 H1 H2. rewrite Hp in H1, H2. eauto.
Qed.

Lemma run_cop_ok F o v c : coherent v c → cop_ok o = true → wp F (run_cop o) (λ _ c', coherent v c') c.
Proof.
  intros (Hio & kr & kw & I & Fr & Hv) Hok. destruct o as [key|key|key]; cbn [run_cop]; apply wp_bind.
  - apply bool_decide_eq_true in Hok. eapply wp_mono; [by eapply clookup_any_ok|].
    intros r c' [-> ->]. destruct (assoc key (kr ++ kw)) eqn:Ha.
    { apply wp_mret. split; [done|]. eauto. }
    apply assoc_None in Ha. apply wp_bind. eapply wp_mono; [by apply (cfetch_read_ok F c kr kw)|].
    intros r c' (Hio' & Hv' & [(-> & p & I' & Fr')|(-> & _ & I' & Fr')]); apply wp_mret;
      (split; [done|]); do 2 eexists; split_and!; try done; intros s; by rewrite Hv'.
  - unfold clookup_read, on_read. apply wp_mzoom. destruct (cinv_nodup _ _ _ I) as (Hr & _ & _).
    eapply wp_mono; [apply (lookup_unique F _ kr); [apply I|done]|]. intros r t [-> ->].
    assert (set_read_cache (read_cache c) c = c) as -> by by destruct c.
    destruct (assoc key kr) as [p|] eqn:Ha; [|apply wp_mret; split; [done|]; eauto].
    apply wp_bind. eapply wp_mono; [by apply (cmove_to_write_ok F c kr kw key p)|].
    intros r c' (-> & I' & Hv' & He & Hf & Hio'). apply wp_mret. split; [congruence|].
    exists (remove key kr), ((key, p) :: kw). split_and!; [done| |intros s; by rewrite Hv'].
    eapply cfree_perm; [exact Fr| |done..]. rewrite <- Permutation_middle. by rewrite <- (read_perm kr kw key p Ha).
  - eapply wp_mono; [by eapply clookup_any_ok|]. intros r c' [-> ->]. apply wp_mret. split; [done|]. eauto.
Qed.

Lemma run_cops_ok F os v c : coherent v c → forallb cop_ok os = true → wp F (run_cops os) (λ _ c', coherent v c') c.
Proof.
  revert c. induction os as [|o os IH]; intros c Hc Hok; [by apply wp_mret|].
  cbn [forallb run_cops] in *. apply andb_prop in Hok as [Ho Hos].
  apply wp_bind. eapply wp_mono; [by apply run_cop_ok|]. intros u c' Hc'. by apply IH.
Qed.
End theory.

(** ** Claims *)

(** C16. As long as no transfer fails, however blocks are loaded into the cache, looked up
    and turned into write entries after [cinit_caches], no step faults, the maps, entries,
    blocks and free list stay consistent, and every hard-disk sector keeps its contents
    as seen through the cache. The two maps were created empty, and insertion into them
    always finds memory (a law of [LinkedMap]); after a failed transfer the block holds
    whatever was in the buffer. *)
Theorem cache_coherent_run {T Sec} {LM : LinkedMap T positive} {EA : EntryAlloc}
    (c : cache T Sec) (tr tw : T) (n : Z) (os : list cop) :
  lm_repr tr [] → lm_repr tw [] → 0 ≤ n < 2 ^ 32 → free_list c = [] → io_moves c = [] →
  length (write_buffer c) = 32%nat → length (read_buffer c) = 32%nat → forallb cop_ok os = true →
  wp no_fault (cinit_caches (inr tr) (inr tw) n;; run_cops os) (λ _ c', coherent (disk c) c') c.
Proof.
  intros Hr Hw Hn Hl Hio Hb1 Hb2 Hok. apply wp_bind. eapply wp_mono; [by apply cinit_caches_ok|].
  intros r c' (-> & I & Fr & Hd & Hio' & _). apply run_cops_ok; [|done]. split; [unfold io_good; congruence|].
  exists [], []. split_and!; [done..|]. intros s. unfold view. cbn. by rewrite Hd.
Qed.

(** Flushing an entry completes, removes it from its cache and leaves
    every sector's contents as seen through the cache unchanged; in particular a
    write entry is on the disk afterwards, whether the whole block or single
    sectors are written back. *)
Theorem cache_flush_coherent {T Sec} {LM : LinkedMap T positive}
    (c : cache T Sec) (kr kw : list (Z * positive)) (key : Z) :
  cinv c kr kw → io_good c →
  (key ∈ kw.*1 → wp no_fault (cflush_write key) (λ r c', r = 0 ∧ cinv c' kr (remove key kw) ∧
      (∀ s, view c' (remove key kw) s = view c kw s) ∧
      ∀ s, s - s `mod` 32 = key → disk c' s = view c kw s) c) ∧
  (key ∈ kr.*1 → wp no_fault (cflush_read key) (λ r c', r = 0 ∧ cinv c' (remove key kr) kw ∧
      ∀ s, view c' kw s = view c kw s) c).
Proof.
  intros I Hio. split; intros Hin.
  - eapply wp_mono; [by apply (cflush_write_ok no_fault c kr kw)|].
    intros r c' (-> & _ & I' & Hv & _). split_and!; [done..|]. intros s Hs. rewrite <- Hv. unfold view.
    rewrite assoc_none; [done|]. rewrite Hs. intros Hk. destruct (cinv_nodup _ _ _ I) as (_ & Hw & _).
    apply remove_keys in Hk; [naive_solver|done].
  - eapply wp_mono; [by apply (cflush_read_ok no_fault c kr kw)|].
    intros r c' (-> & I' & Hv & _). done.
Qed.

(** ** Concrete runs *)

Lemma fresh_entry (h : gmap positive CacheEntry) (p : positive) : Some (fresh (dom h)) = Some p → h !! p = None.
Proof. intros [= <-]. apply not_elem_of_dom, is_fresh. Qed.
#[global] Instance any_entry : EntryAlloc :=
  {| entry_malloc h := Some (fresh (dom h)); entry_malloc_fresh := fresh_entry |}.

Abbreviation zcache := (cache (LHMap positive) Z).
Definition empty_map : LHMap positive := mk_lhmap 0 7 None None None (replicate 7 None) ∅.
Lemma empty_map_repr : lm_repr empty_map [].
Proof. destruct (create_repr (D := positive) 7 ltac:(lia)) as (m & [= <-] & HR). exact HR. Qed.

(** Sector [s] of the disk contains [s]. *)
Definition zcache0 : zcache :=
  mk_cache empty_map empty_map [] ∅ (λ s, s) (λ _, -1) (replicate 32 (-7)) (replicate 32 (-7)) [].
Definition ops0 : list cop := [CLoad 32; CLookup 96; CLoad 64; CDirty 64; CLoad 32; CLoad 96; CLoad 128].

Lemma cache_coherent_run_witness :
  ∃ c', (cinit_caches (inr empty_map) (inr empty_map) 3;; run_cops ops0) zcache0 = Ok tt c' ∧
    coherent (λ s, s) c'.
Proof.
  pose proof (cache_coherent_run zcache0 empty_map empty_map 3 ops0 empty_map_repr empty_map_repr
    ltac:(lia) eq_refl eq_refl eq_refl eq_refl eq_refl) as H.
  apply wp_no_fault in H as ([] & c' & Hrun & Hc). exists c'. split; [exact Hrun|exact Hc].
Defined.

(** The state the flush is shown on: block 32 in the read cache and block 64
    in the write cache, with its sectors 2 and 3 overwritten on the flash. *)
Definition zcache1 : zcache :=
  match (cinit_caches (inr empty_map) (inr empty_map) 3;; run_cops [CLoad 32; CLoad 64; CDirty 64]) zcache0 with
  | Ok _ c => set_flash (write_sectors (flash c) 34 [1002; 1003]) c | Err _ => zcache0
  end.

(** Writing to the flash block of a write entry keeps the cache consistent. *)
Lemma cinv_dirty {T Sec} {LM : LinkedMap T positive} (c : cache T Sec) kr kw key p e fl :
  cinv c kr kw → cfree c kr kw → (key, p) ∈ kw → entries c !! p = Some e →
  (∀ s, ¬ (ce_fd_sector e ≤ s < ce_fd_sector e + 32) → fl s = flash c s) →
  cinv (set_flash fl c) kr kw.
Proof.
  intros I Fr Hin He Hfl. split; try apply I. intros key' p' e' Hk' He'. cbn in He'.
  destruct (ci_clean _ _ _ I _ _ _ Hk' He') as [Hm Hc]. split; [done|]. intros i Hi. cbn.
  assert ((key, p) ∈ kr ++ kw ∧ (key', p') ∈ kr ++ kw) as [H1 H2] by (rewrite !elem_of_app; auto).
  destruct (ci_entry _ _ _ I _ _ H1) as (f1 & He1 & _ & _ & _ & Hb1).
  destruct (ci_entry _ _ _ I _ _ H2) as (f2 & He2 & _ & _ & _ & Hb2).
  assert (f1 = e ∧ f2 = e') as [-> ->] by (split; congruence).
  rewrite Hfl; [by apply Hc|]. intros Hr.
  assert (ce_fd_sector e' ≠ ce_fd_sector e) as Hne.
  { intros Heq. assert (p' = p) as -> by (by eapply (cf_inj _ _ _ Fr)).
    pose proof (ci_ptrs _ _ _ I) as Hnd. rewrite fmap_app in Hnd. apply list.NoDup_app in Hnd as (_ & Hd & _).
    apply (Hd p); apply list_elem_of_fmap; by eexists (_, p). }
  apply (block_disjoint (ce_fd_sector e') (ce_fd_sector e) i (ce_fd_sector e' + i - ce_fd_sector e)); try done; lia.
Qed.

Lemma zcache1_inv : ∃ kr kw, cinv zcache1 kr kw ∧ io_good zcache1 ∧ 64 ∈ kw.*1 ∧
  view zcache1 kw 66 = 1002 ∧ view zcache1 kw 68 = 68 ∧ cfree zcache1 kr kw ∧ (64, 2%positive) ∈ kw.
Proof.
  pose proof (cinit_caches_ok no_fault zcache0 empty_map empty_map 3 empty_map_repr empty_map_repr
    ltac:(lia) eq_refl eq_refl eq_refl) as H0.
  assert (wp no_fault (cinit_caches (inr empty_map) (inr empty_map) 3;; run_cops [CLoad 32; CLoad 64; CDirty 64])
    (λ _ c', coherent (λ s, s) c') zcache0) as H.
  { apply wp_bind. eapply wp_mono; [exact H0|]. intros r c' (-> & I & Fr & Hd & Hio & _).
    apply run_cops_ok; [|done]. split; [done|]. exists [], []. split_and!; [done..|].
    intros s. unfold view. cbn. by rewrite Hd. }
  apply wp_no_fault in H as ([] & c & Hrun & Hio & kr & kw & I & Fr & Hv).
  assert (zcache1 = set_flash (write_sectors (flash c) 34 [1002; 1003]) c) as Hz.
  { unfold zcache1. by rewrite Hrun. }
  destruct (cinv_nodup _ _ _ I) as (_ & Hw & _).
  assert (assoc 64 kw = Some 2%positive) as Ha.
  { pose proof (lookup_unique no_fault _ kw 64 (ci_write _ _ _ I) Hw) as Hl. unfold wp in Hl.
    vm_compute in Hrun. injection Hrun as <-. vm_compute in Hl |- *. by destruct Hl as [_ Hl]. }
  assert (entries c !! 2%positive = Some (mk_entry 64 32 (2 ^ 32 - 1) ENTRY_READ)) as He.
  { vm_compute in Hrun. injection Hrun as <-. reflexivity. }
  assert (flash c 36 = 68) as Hf. { vm_compute in Hrun. injection Hrun as <-. reflexivity. }
  rewrite Hz. exists kr, kw. split_and!.
  - eapply (cinv_dirty c kr kw 64); [done|done|by apply assoc_elem|exact He|]. intros s Hs. cbn in Hs.
    apply write_sectors_out. cbn. lia.
  - done.
  - eapply in_keys. by apply assoc_elem.
  - unfold view. change (66 - 66 `mod` 32) with 64. rewrite Ha. cbn [entries set_flash]. rewrite He. reflexivity.
  - unfold view. change (68 - 68 `mod` 32) with 64. rewrite Ha. cbn [entries set_flash]. rewrite He. exact Hf.
  - destruct Fr. by split.
  - by apply assoc_elem.
Qed.

Lemma cache_flush_coherent_witness :
  ∃ c', cflush_write 64 zcache1 = Ok 0 c' ∧ disk c' 66 = 1002 ∧ disk c' 68 = 68.
Proof.
  destruct zcache1_inv as (kr & kw & I & Hio & Hin & Hv1 & Hv2 & _).
  destruct (cache_flush_coherent zcache1 kr kw 64 I Hio) as [H _].
  apply wp_no_fault in H as (r & c' & Hrun & -> & _ & _ & Hd); [|exact Hin].
  exists c'. split; [exact Hrun|]. rewrite (Hd 66 eq_refl), (Hd 68 eq_refl). split; [exact Hv1|exact Hv2].
Defined.

(** A flush puts the entry's hard-disk sector on the free list instead of
    its flash block. After a flush two live entries can share a flash block: here
    fetching block 128 overwrites the flash copy of block 64, which is in the
    write cache, so that its contents are lost. *)
Theorem cache_flush_frees_wrong_block :
  ∃ c e1 e2,
    (cinit_caches (inr empty_map) (inr empty_map) 3;; run_cops [CLoad 32; CLoad 64; CDirty 64];;
     cflush_read 32;; run_cops [CLoad 96; CLoad 128]) zcache0 = Ok tt c ∧
    clookup_write 64 c = Ok (Some e1) c ∧ clookup_read 128 c = Ok (Some e2) c ∧
    ce_fd_sector <$> entries c !! e1 = Some 32 ∧ ce_fd_sector <$> entries c !! e2 = Some 32 ∧
    flash c 32 = 128.
Proof.
  destruct ((cinit_caches (inr empty_map) (inr empty_map) 3;; run_cops [CLoad 32; CLoad 64; CDirty 64];;
     cflush_read 32;; run_cops [CLoad 96; CLoad 128]) zcache0) as [[] c|] eqn:Hrun; [|by vm_compute in Hrun].
  exists c, 2%positive, 4%positive.
  vm_compute in Hrun. injection Hrun as <-. by vm_compute.
Qed.

(** A transfer that fails is only reported: when the read of the flash
    fails, [cflush_write] writes the old contents of its static buffer over the
    disk block, drops the entry and returns success. *)
Theorem cache_flush_ignores_errors :
  ∃ c', cflush_write 64 (set_io_moves [0%nat] zcache1) = Ok 0 c' ∧ disk zcache1 64 = 64 ∧
    disk c' 64 = -7 ∧ clookup_write 64 c' = Ok None c'.
Proof.
  destruct (cflush_write 64 (set_io_moves [0%nat] zcache1)) as [r c'|] eqn:Hrun; [|by vm_compute in Hrun].
  exists c'. vm_compute in Hrun. injection Hrun as <- <-. by vm_compute.
Qed.
