(* ===== verification/Lru.v ===== *)
(** * The 2Q replacement queues

    Models l4ka-driver-reuse/kernel/block/ebc_lru.c: the hot list of disk
    blocks, kept as the queues A1in, A1out and Am of the 2Q algorithm. The queues
    are linked hash maps whose data pointer is always [&lru_dummy]; they are used
    through the linked-map interface. [lru_load_cache] is in the file on the cache
    policy, with the components it calls. *)

From Stdlib Require Import ZArith Lia.
From stdpp Require Import base list gmap numbers.
From S2P Require Import Prelude LHMap LinkedMap.

Definition tq_cache_size : Z := 32768.
Definition tq_kin_divisor : Z := 4.
Definition tq_kout_divisor : Z := 2.
Definition min_transitions : Z := 500.
Definition a1in_size : Z := 11717.
Definition a1out_size : Z := 23417.
Definition am_size : Z := 46817.

Record lru (T : Type) : Type := mk_lru {
  tq_ka : Z;
  tq_kin : Z;
  tq_kout : Z;
  a1in : T;
  a1out : T;
  am : T
}.
Arguments mk_lru {T}.
Arguments tq_ka {T}.
Arguments tq_kin {T}.
Arguments tq_kout {T}.
Arguments a1in {T}.
Arguments a1out {T}.
Arguments am {T}.

Section ops.
Context {T : Type} {LM : LinkedMap T unit}.
Implicit Types (s : lru T).
Abbreviation MQ := (M (lru T)).

Definition set_a1in (t : T) s := mk_lru (tq_ka s) (tq_kin s) (tq_kout s) t (a1out s) (am s).
Definition set_a1out (t : T) s := mk_lru (tq_ka s) (tq_kin s) (tq_kout s) (a1in s) t (am s).
Definition set_am (t : T) s := mk_lru (tq_ka s) (tq_kin s) (tq_kout s) (a1in s) (a1out s) t.
Definition on_a1in {A} (x : M T A) : MQ A := mzoom a1in set_a1in x.
Definition on_a1out {A} (x : M T A) : MQ A := mzoom a1out set_a1out x.
Definition on_am {A} (x : M T A) : MQ A := mzoom am set_am x.

(** [lru_2q_load_am] starts with [BUG()]. *)
Definition lru_2q_load_am : MQ Z := mfault KernelBug.

(** [create] is [lhmap_create]; a map that cannot be allocated is a panic
    there. *)
Definition lru_init (create : Z → fault + T) : MQ Z :=
  let kin := tq_cache_size `div` tq_kin_divisor in
  mmodify (λ s, mk_lru (tq_cache_size - kin) kin (tq_cache_size `div` tq_kout_divisor) (a1in s) (a1out s) (am s));;
  t ← mof_sum (create a1in_size);
  mmodify (set_a1in t);;
  t ← mof_sum (create a1out_size);
  mmodify (set_a1out t);;
  t ← mof_sum (create am_size);
  mmodify (set_am t);;
  lru_2q_load_am;;
  mret 0.

Definition lru_reclaim : MQ unit :=
  s ← mget;
  (if bool_decide (lm_count (a1in s) > tq_kin s) then
     r ← on_a1in lm_delete_last;
     r ← mof_option KernelPanic r;
     z ← on_a1out (lm_insert r.2 tt);
     (if bool_decide (z = 0) then mret tt else mfault KernelPanic);;
     s ← mget;
     if bool_decide (lm_count (a1out s) > tq_kout s) then
       r ← on_a1out lm_delete_last;
       mof_option KernelPanic r;;
       mret tt
     else mret tt
   else mret tt);;
  s ← mget;
  if bool_decide (lm_count (am s) > tq_ka s) then
    r ← on_am lm_delete_last;
    mof_option KernelPanic r;;
    mret tt
  else mret tt.

Definition lru_handle_read (key : Z) : MQ unit :=
  r ← on_am (lm_to_front key);
  match r with
  | Some _ => mret tt
  | None =>
      r ← on_a1out (lm_delete key);
      match r with
      | Some _ => on_am (lm_insert key tt);; lru_reclaim
      | None =>
          r ← on_a1in (lm_lookup key);
          match r with
          | Some _ => mret tt
          | None => on_a1in (lm_insert key tt);; lru_reclaim
          end
      end
  end.

Fixpoint lru_reads (keys : list Z) : MQ unit :=
  match keys with [] => mret tt | key :: keys => lru_handle_read key;; lru_reads keys end.

(** [lru_dump_stats]: the sizes it prints, Am, A1out, A1in. *)
Definition lru_dump_stats : MQ (Z * Z * Z) :=
  mgets (λ s, (lm_count (am s), lm_count (a1out s), lm_count (a1in s))).
End ops.

(** ** Sizes *)

Section sizes.
Context {T : Type} {LM : LinkedMap T unit}.
Implicit Types (s : lru T) (t : T) (n : Z).

Definition sized t n : Prop := ∃ k, lm_repr t k ∧ length k = n :> Z.

Lemma sized_count t n : sized t n → lm_count t = n.
Proof. intros (k & HR & <-). by apply lm_count_law. Qed.
Lemma sized_insert F t n key :
  sized t n → n + 1 < 2 ^ 32 → wp F (lm_insert key tt) (λ r t', r = 0 ∧ sized t' (n + 1)) t.
Proof.
  intros (k & HR & <-) Hn. eapply wp_mono; [by apply (lm_insert_law F _ k)|]. intros r t' [-> HR'].
  split; [done|]. exists ((key, tt) :: k). split; [done|]. simpl. lia.
Qed.
Lemma sized_delete F t n key :
  sized t n → wp F (lm_delete key) (λ r t', match r with None => t' = t | Some _ => sized t' (n - 1) end) t.
Proof.
  intros (k & HR & <-). eapply wp_mono; [by apply lm_delete_law|]. intros [v|] t'; [|naive_solver].
  intros (k1 & k2 & -> & HR'). exists (k1 ++ k2). split; [done|]. rewrite !length_app. simpl. lia.
Qed.
Lemma sized_to_front F t n key :
  sized t n → wp F (lm_to_front key) (λ r t', sized t' n) t.
Proof.
  intros (k & HR & <-). eapply wp_mono; [by apply lm_to_front_law|]. intros [v|] t'.
  - intros (k1 & k2 & _ & -> & HR'). eexists. split; [exact HR'|]. rewrite !length_app. simpl. rewrite length_app. lia.
  - intros [-> _]. by exists k.
Qed.
Lemma sized_delete_last F t n :
  sized t n → 0 < n → wp F lm_delete_last (λ r t', is_Some r ∧ sized t' (n - 1)) t.
Proof.
  intros (k & HR & <-) Hn. destruct k as [|[key v] k0 _] using rev_ind; [simpl in Hn; lia|].
  eapply wp_mono; [by apply lm_delete_last_law|]. intros r t' (-> & k1 & v' & k2 & Heq & HR').
  split; [done|]. exists (k1 ++ k2). split; [done|]. rewrite Heq, !length_app. simpl. lia.
Qed.

(** The configuration [lru_init] computes. *)
Definition configured s : Prop := tq_kin s = 8192 ∧ tq_kout s = 16384 ∧ tq_ka s = 24576.

Definition lru_sizes s (ni no nm : Z) : Prop :=
  configured s ∧ sized (a1in s) ni ∧ sized (a1out s) no ∧ sized (am s) nm.
Definition lru_bounded s : Prop :=
  ∃ ni no nm, lru_sizes s ni no nm ∧ ni ≤ 8192 ∧ no ≤ 16384 ∧ nm ≤ 24576.

(** Reclaiming restores the bounds when one queue is one entry over. *)
Lemma reclaim_bounded F s ni no nm :
  lru_sizes s ni no nm → ni ≤ 8193 → no ≤ 16384 → nm ≤ 24577 →
  wp F lru_reclaim (λ _ s', lru_bounded s') s.
Proof.
  intros (Hc & Hi & Ho & Hm) Hni Hno Hnm. pose proof Hc as (Hki & Hko & Hka). unfold lru_reclaim. apply wp_bind, wp_mget.
  assert (∀ s' no', configured s' → sized (a1in s') (ni `min` 8192) → sized (a1out s') no' → no' ≤ 16384 →
    sized (am s') nm →
    wp F (s ← mget; if bool_decide (lm_count (am s) > tq_ka s) then
            r ← on_am lm_delete_last; mof_option KernelPanic r;; mret tt else mret tt) (λ _ s', lru_bounded s') s') as Htail.
  { intros s' no' Hc' Hi' Ho' Hno' Hm'. apply wp_bind, wp_mget. rewrite (sized_count _ _ Hm').
    pose proof Hc' as (Hki' & Hko' & Hka'). rewrite Hka'. case_bool_decide as Hgt.
    - apply wp_bind. unfold on_am. apply wp_mzoom. eapply wp_mono; [apply (sized_delete_last F _ nm); [done|lia]|].
      intros r t [[x ->] Ht]. apply wp_bind, wp_mret, wp_mret.
      exists (ni `min` 8192), no', (nm - 1). split; [by split_and!|lia].
    - apply wp_mret. exists (ni `min` 8192), no', nm. split; [by split_and!|lia]. }
  apply wp_bind. rewrite (sized_count _ _ Hi), Hki. case_bool_decide as Hgt.
  - apply wp_bind. unfold on_a1in. apply wp_mzoom. eapply wp_mono; [apply (sized_delete_last F _ ni); [done|lia]|].
    intros r t [[x ->] Ht]. apply wp_bind, wp_mret. apply wp_bind. unfold on_a1out at 1. apply wp_mzoom.
    eapply wp_mono; [apply (sized_insert F _ no); [done|lia]|]. intros r t' [-> Ht'].
    apply wp_bind, wp_mret. apply wp_bind, wp_mget. cbn [a1out set_a1out set_a1in tq_kout].
    rewrite (sized_count _ _ Ht'), Hko. replace (ni - 1) with (ni `min` 8192) in Ht by lia. case_bool_decide.
    + apply wp_bind. unfold on_a1out. apply wp_mzoom. eapply wp_mono; [apply (sized_delete_last F _ (no + 1)); [done|lia]|].
      intros r t2 [[y ->] Ht2]. apply wp_bind, wp_mret, wp_mret. eapply Htail; try done. lia.
    + apply wp_mret. by eapply Htail; try done; lia.
  - apply wp_mret. replace ni with (ni `min` 8192) in Hi by lia. by eapply Htail.
Qed.

Lemma handle_read_bounded F key s : lru_bounded s → wp F (lru_handle_read key) (λ _ s', lru_bounded s') s.
Proof.
  intros (ni & no & nm & (Hc & Hi & Ho & Hm) & Hni & Hno & Hnm).
  assert (0 ≤ ni ∧ 0 ≤ no ∧ 0 ≤ nm) as (Hpi & Hpo & Hpm).
  { destruct Hi as (? & _ & <-), Ho as (? & _ & <-), Hm as (? & _ & <-). lia. }
  unfold lru_handle_read. apply wp_bind. unfold on_am at 1. apply wp_mzoom.
  eapply wp_mono; [by apply sized_to_front|]. intros [v|] t Ht.
  { apply wp_mret. exists ni, no, nm. split; [by split_and!|lia]. }
  apply wp_bind. unfold on_a1out. apply wp_mzoom. eapply wp_mono; [by apply sized_delete|].
  intros [v|] t' Ht'.
  - apply wp_bind. unfold on_am. apply wp_mzoom. eapply wp_mono; [by apply (sized_insert F _ nm); [|lia]|].
    intros r t2 [-> Ht2]. eapply reclaim_bounded; [by split_and!|lia..].
  - subst t'. apply wp_bind. unfold on_a1in at 1. apply wp_mzoom. destruct Hi as (k & HR & Hk).
    eapply wp_mono; [by apply lm_lookup_law|]. intros r t2 [-> _].
    assert (sized (a1in s) ni) as Hi by (by exists k). destruct r as [v|].
    { apply wp_mret. exists ni, no, nm. split; [by split_and!|lia]. }
    apply wp_bind. unfold on_a1in. apply wp_mzoom. eapply wp_mono; [by apply (sized_insert F _ ni); [|lia]|].
    intros r t3 [-> Ht3]. eapply (reclaim_bounded F _ (ni + 1) no nm); [by split_and!|lia..].
Qed.

Lemma reads_bounded F keys s : lru_bounded s → wp F (lru_reads keys) (λ _ s', lru_bounded s') s.
Proof.
  revert s. induction keys as [|key keys IH]; intros s Hs; [by apply wp_mret|].
  cbn [lru_reads]. apply wp_bind. eapply wp_mono; [by apply handle_read_bounded|]. intros u s' Hs'. by apply IH.
Qed.
End sizes.

(** ** The 2Q algorithm on lists of keys *)

Abbreviation queues := (list Z * list Z * list Z)%type.

Definition but_last (l : list Z) : list Z := take (length l - 1) l.
Fixpoint rm (key : Z) (l : list Z) : list Z :=
  match l with [] => [] | x :: l => if bool_decide (x = key) then l else x :: rm key l end.

(** A1in overflows into A1out, whose oldest entry is dropped; the oldest entry
    of Am is dropped. *)
Definition tq_reclaim (kin kout ka : Z) (q : queues) : queues :=
  let '(i, o, m) := q in
  let '(i, o) :=
    match list.last i with
    | Some x =>
        if bool_decide (length i > kin)
        then (but_last i, if bool_decide (length (x :: o) > kout) then but_last (x :: o) else x :: o)
        else (i, o)
    | None => (i, o)
    end in
  (i, o, if bool_decide (length m > ka) then but_last m else m).

Definition tq_read (kin kout ka : Z) (key : Z) (q : queues) : queues :=
  let '(i, o, m) := q in
  if bool_decide (key ∈ m) then (i, o, key :: rm key m)
  else if bool_decide (key ∈ o) then tq_reclaim kin kout ka (i, rm key o, key :: m)
  else if bool_decide (key ∈ i) then (i, o, m)
  else tq_reclaim kin kout ka (key :: i, o, m).
Fixpoint tq_reads (kin kout ka : Z) (keys : list Z) (q : queues) : queues :=
  match keys with [] => q | key :: keys => tq_reads kin kout ka keys (tq_read kin kout ka key q) end.

(** No read is of the key at the head of Am. *)
Fixpoint tq_allowed (kin kout ka : Z) (keys : list Z) (q : queues) : bool :=
  match keys with
  | [] => true
  | key :: keys => bool_decide (head q.2 ≠ Some key) && tq_allowed kin kout ka keys (tq_read kin kout ka key q)
  end.

Section refinement.
Context {T : Type} {LM : LinkedMap T unit}.
Implicit Types (s : lru T) (t : T) (l i o m : list Z) (key : Z).

Definition tag l : list (Z * unit) := (λ x, (x, tt)) <$> l.
Definition keyed t l : Prop := lm_repr t (tag l).

Lemma tag_keys l : (tag l).*1 = l.
Proof. unfold tag. rewrite <- list_fmap_compose. apply list_fmap_id. Qed.
Lemma tag_assoc key l : assoc key (tag l) = if bool_decide (key ∈ l) then Some tt else None.
Proof.
  case_bool_decide as Hin.
  - destruct (assoc key (tag l)) as [[]|] eqn:Ha; [done|]. apply assoc_None in Ha. by rewrite tag_keys in Ha.
  - apply assoc_none. by rewrite tag_keys.
Qed.
Lemma tag_remove key l : remove key (tag l) = tag (rm key l).
Proof. induction l as [|x l IH]; [done|]. simpl. case_bool_decide; [done|]. simpl. by rewrite IH. Qed.
Lemma length_tag l : length (tag l) = length l.
Proof. apply length_fmap. Qed.
Lemma tag_split l k1 key k2 : tag l = k1 ++ (key, tt) :: k2 → ∃ l1 l2, l = l1 ++ key :: l2 ∧ k1 = tag l1 ∧ k2 = tag l2.
Proof.
  unfold tag. intros (l1 & l2' & -> & H2 & ->)%fmap_app_inv.
  destruct l2' as [|x l2]; [done|]. cbn in H2. injection H2 as -> ->. eauto.
Qed.
Lemma rm_split key l1 l2 : key ∉ l1 → rm key (l1 ++ key :: l2) = l1 ++ l2.
Proof.
  induction l1 as [|x l1 IH]; simpl; intros Hni; [by rewrite bool_decide_eq_true_2|].
  rewrite bool_decide_eq_false_2 by set_solver. rewrite IH by set_solver. done.
Qed.
Lemma rm_perm key l : key ∈ l → l ≡ₚ key :: rm key l.
Proof.
  induction l as [|x l IH]; [set_solver|]. simpl. case_bool_decide; [by subst|].
  intros Hin. rewrite IH at 1 by set_solver. constructor.
Qed.
Lemma but_last_snoc l x : but_last (l ++ [x]) = l.
Proof. unfold but_last. rewrite length_app. simpl. rewrite Nat.add_sub. apply take_app_length. Qed.

Lemma keyed_count t l : keyed t l → lm_count t = length l.
Proof. intros HR. by rewrite (lm_count_law _ _ HR), length_tag. Qed.
Lemma keyed_insert F t l key :
  keyed t l → length l + 1 < 2 ^ 32 → wp F (lm_insert key tt) (λ r t', r = 0 ∧ keyed t' (key :: l)) t.
Proof. intros HR Hl. apply (lm_insert_law F _ (tag l)); [done|]. by rewrite length_tag. Qed.
Lemma keyed_lookup F t l key :
  keyed t l → NoDup l →
  wp F (lm_lookup key) (λ r t', t' = t ∧ r = if bool_decide (key ∈ l) then Some tt else None) t.
Proof. intros HR Hn. rewrite <- tag_assoc. apply lookup_unique; [done|]. by rewrite tag_keys. Qed.
Lemma keyed_delete F t l key :
  keyed t l → NoDup l →
  wp F (lm_delete key) (λ r t', (r = if bool_decide (key ∈ l) then Some tt else None) ∧ keyed t' (rm key l)) t.
Proof. intros HR Hn. unfold keyed. rewrite <- tag_assoc, <- tag_remove. apply delete_unique; [done|]. by rewrite tag_keys. Qed.
Lemma keyed_to_front F t l key :
  keyed t l → NoDup l → head l ≠ Some key →
  wp F (lm_to_front key) (λ r t',
    (r = if bool_decide (key ∈ l) then Some tt else None) ∧
    keyed t' (if bool_decide (key ∈ l) then key :: rm key l else l)) t.
Proof.
  intros HR Hn Hhd. eapply wp_mono; [by apply lm_to_front_law|]. intros [[]|] t'.
  - intros (k1 & k2 & _ & (l1 & l2 & -> & -> & ->)%tag_split & HR').
    rewrite bool_decide_eq_true_2 by set_solver. split; [done|].
    rewrite rm_split by (apply list.NoDup_app in Hn as (_ & Hd & _); intros Hin; apply (Hd key Hin); by left).
    unfold keyed. replace (tag (key :: l1 ++ l2)) with ((key, tt) :: tag l1 ++ tag l2); [done|].
    unfold tag. cbn. by rewrite fmap_app.
  - rewrite tag_keys. intros [-> [Hni|(v & k' & Heq)]].
    + by rewrite bool_decide_eq_false_2.
    + destruct l; [done|]. injection Heq as -> _ _. done.
Qed.
Lemma keyed_delete_last F t l x :
  keyed t (l ++ [x]) → NoDup (l ++ [x]) →
  wp F lm_delete_last (λ r t', r = Some (tt, x) ∧ keyed t' l) t.
Proof.
  intros HR Hn. unfold keyed, tag in HR. rewrite fmap_app in HR.
  eapply wp_mono; [exact (lm_delete_last_law F _ (tag l) x tt HR)|]. intros r t' (-> & k1 & [] & k2 & Heq & HR'). split; [done|].
  destruct (tag_split (l ++ [x]) k1 x k2) as (l1 & l2 & E & -> & ->).
  { unfold tag. by rewrite fmap_app. }
  assert (l = l1 ++ l2) as ->; [|unfold keyed, tag; by rewrite fmap_app].
  pose proof Hn as Hn2. rewrite E in Hn2.
  apply list.NoDup_app in Hn as (_ & Hd & _). apply list.NoDup_app in Hn2 as (_ & Hd2 & _).
  rewrite <- (rm_split x l1 l2), <- E, rm_split; [by rewrite app_nil_r|..];
    intros Hin; first [apply (Hd x Hin)|apply (Hd2 x Hin)]; by left.
Qed.

(** The queues of a state hold the lists [q], each key once. *)
Definition lru_queues (kin kout ka : Z) s (q : queues) : Prop :=
  tq_kin s = kin ∧ tq_kout s = kout ∧ tq_ka s = ka ∧
  keyed (a1in s) q.1.1 ∧ keyed (a1out s) q.1.2 ∧ keyed (am s) q.2 ∧ NoDup (q.1.1 ++ q.1.2 ++ q.2).
Definition within (kin kout ka : Z) (q : queues) : Prop :=
  length q.1.1 ≤ kin ∧ length q.1.2 ≤ kout ∧ length q.2 ≤ ka.

Lemma queues_nodup i o m : NoDup (i ++ o ++ m) → NoDup i ∧ NoDup o ∧ NoDup m.
Proof. intros (? & _ & (? & _ & ?)%list.NoDup_app)%list.NoDup_app. done. Qed.

Context (kin kout ka : Z) (Hkin : 0 ≤ kin < 2 ^ 31) (Hkout : 0 ≤ kout < 2 ^ 31) (Hka : 0 ≤ ka < 2 ^ 31).

(** The last part of [lru_reclaim]. *)
Lemma reclaim_am F s i o m :
  lru_queues kin kout ka s (i, o, m) → length m ≤ ka + 1 →
  wp F (s ← mget; if bool_decide (lm_count (am s) > tq_ka s) then
          r ← on_am lm_delete_last; mof_option KernelPanic r;; mret tt else mret tt)
    (λ _ s', lru_queues kin kout ka s' (i, o, if bool_decide (length m > ka) then but_last m else m) ∧
             length (if bool_decide (length m > ka) then but_last m else m) ≤ ka) s.
Proof.
  intros (H1 & H2 & H3 & Hi & Ho & Hm & Hn) Hlen. cbn in Hi, Ho, Hm, Hn.
  apply wp_bind, wp_mget. rewrite (keyed_count _ _ Hm), H3. case_bool_decide as Hgt.
  - destruct m as [|x m _] using rev_ind; [simpl in Hgt; lia|]. rewrite but_last_snoc.
    destruct (queues_nodup _ _ _ Hn) as (_ & _ & Hnm). apply wp_bind. unfold on_am. apply wp_mzoom.
    eapply wp_mono; [by apply (keyed_delete_last F _ m x)|]. intros r t [-> Ht].
    apply wp_bind, wp_mret, wp_mret. rewrite length_app in Hlen. simpl in Hlen. split; [|lia].
    split_and!; try done. cbn. rewrite !app_assoc in Hn. apply list.NoDup_app in Hn as (Hn & _ & _).
    by rewrite <- app_assoc in Hn.
  - apply wp_mret. split; [by split_and!|lia].
Qed.

Lemma reclaim_refines F s i o m :
  lru_queues kin kout ka s (i, o, m) → length i ≤ kin + 1 → length o ≤ kout → length m ≤ ka + 1 →
  wp F lru_reclaim (λ _ s', lru_queues kin kout ka s' (tq_reclaim kin kout ka (i, o, m)) ∧
    within kin kout ka (tq_reclaim kin kout ka (i, o, m))) s.
Proof.
  intros HQ Hli Hlo Hlm. pose proof HQ as (H1 & H2 & H3 & Hi & Ho & Hm & Hn). cbn in Hi, Ho, Hm, Hn.
  unfold lru_reclaim. apply wp_bind, wp_mget. rewrite (keyed_count _ _ Hi), H1. apply wp_bind.
  destruct i as [|x i _] using rev_ind.
  { rewrite bool_decide_eq_false_2 by (simpl; lia). apply wp_mret. eapply wp_mono; [by apply reclaim_am|].
    intros _ s' [HQ' Hl]. split; [done|]. split_and!; [cbn; lia..|done]. }
  rewrite length_app in Hli |- *. simpl in Hli |- *. unfold tq_reclaim. rewrite list.last_snoc, length_app. simpl.
  case_bool_decide as Hgt.
  2:{ apply wp_mret. eapply wp_mono; [by apply reclaim_am|].
      intros _ s' [HQ' Hl]. split; [done|]. split_and!; [cbn; rewrite length_app; cbn; lia..|done|done]. }
  rewrite but_last_snoc. destruct (queues_nodup _ _ _ Hn) as (Hni & _ & _).
  apply wp_bind. unfold on_a1in. apply wp_mzoom. eapply wp_mono; [by apply (keyed_delete_last F _ i x)|].
  intros r t [-> Ht]. apply wp_bind, wp_mret. apply wp_bind. unfold on_a1out at 1. apply wp_mzoom.
  eapply wp_mono; [by apply (keyed_insert F _ o); [|lia]|]. intros r t' [-> Ht']. cbn [snd] in Ht'.
  assert (NoDup (i ++ (x :: o) ++ m)) as Hn' by (by rewrite <- app_assoc in Hn).
  apply wp_bind, wp_mret. apply wp_bind, wp_mget. cbn [a1out set_a1out set_a1in tq_kout].
  rewrite (keyed_count _ _ Ht'), H2. simpl. case_bool_decide as Hgt2.
  - destruct (queues_nodup _ _ _ Hn') as (_ & Hno & _). revert Ht' Hno Hn'.
    destruct (x :: o) as [|y o' _] eqn:Exo using rev_ind; [done|]. intros Ht' Hno Hn'.
    rewrite but_last_snoc. assert (S (length o) = length o' + 1)%nat as Hlen.
    { change (S (length o)) with (length (x :: o)). rewrite Exo, length_app. done. }
    apply wp_bind. unfold on_a1out. apply wp_mzoom. eapply wp_mono; [by apply (keyed_delete_last F _ o' y)|].
    intros r t2 [-> Ht2]. apply wp_bind, wp_mret, wp_mret. eapply wp_mono.
    { apply (reclaim_am F _ i o' m); [|done]. split_and!; try done. cbn.
      rewrite <- app_assoc in Hn'. apply list.NoDup_app in Hn' as (Ha & Hb & Hc). apply list.NoDup_app.
      apply list.NoDup_app in Hc as (Hc1 & Hc2 & Hc3%list.NoDup_app). cbn in *.
      split_and!; [done|set_solver|]. apply list.NoDup_app. set_solver. }
    intros _ s' [HQ' Hl]. split; [done|]. split_and!; [cbn; lia..|done].
  - apply wp_mret. eapply wp_mono; [by apply (reclaim_am F _ i (x :: o) m)|].
    intros _ s' [HQ' Hl]. split; [done|]. split_and!; [cbn; lia..|done].
Qed.

Lemma handle_read_refines F s q key :
  lru_queues kin kout ka s q → within kin kout ka q → head q.2 ≠ Some key →
  wp F (lru_handle_read key) (λ _ s', lru_queues kin kout ka s' (tq_read kin kout ka key q) ∧
    within kin kout ka (tq_read kin kout ka key q)) s.
Proof.
  destruct q as [[i o] m]. intros HQ (Hli & Hlo & Hlm) Hhd. pose proof HQ as (H1 & H2 & H3 & Hi & Ho & Hm & Hn).
  cbn in Hi, Ho, Hm, Hn, Hli, Hlo, Hlm, Hhd. destruct (queues_nodup _ _ _ Hn) as (Hni & Hno & Hnm).
  unfold lru_handle_read, tq_read. apply wp_bind. unfold on_am at 1. apply wp_mzoom.
  eapply wp_mono; [by apply (keyed_to_front F _ m)|]. intros r t [-> Ht]. case_bool_decide as Hinm.
  { apply wp_mret. pose proof (rm_perm _ _ Hinm) as Hp. split; [|split_and!; cbn; try done].
    - split_and!; try done. cbn. by rewrite <- Hp.
    - apply Permutation_length in Hp. simpl in Hp. lia. }
  apply wp_bind. unfold on_a1out. apply wp_mzoom. eapply wp_mono; [by apply (keyed_delete F _ o)|].
  intros r t' [-> Ht']. case_bool_decide as Hino.
  { pose proof (rm_perm _ _ Hino) as Hp. pose proof (Permutation_length Hp) as Hpl. simpl in Hpl.
    apply wp_bind. unfold on_am. apply wp_mzoom. eapply wp_mono; [by apply (keyed_insert F _ m); [|lia]|].
    intros r t2 [-> Ht2]. apply reclaim_refines; [|cbn; lia..]. split_and!; try done. cbn.
    assert (i ++ rm key o ++ key :: m ≡ₚ i ++ o ++ m) as ->; [|done]. rewrite Hp at 2. solve_Permutation. }
  assert (rm key o = o) as Hrm.
  { clear -Hino. induction o as [|x o IH]; [done|]. simpl. rewrite bool_decide_eq_false_2 by set_solver.
    f_equal. apply IH. set_solver. }
  rewrite Hrm in Ht'. apply wp_bind. unfold on_a1in at 1. apply wp_mzoom.
  eapply wp_mono; [by apply (keyed_lookup F _ i)|]. intros r t2 [-> ->]. case_bool_decide as Hini.
  { apply wp_mret. split; [by split_and!|by split_and!]. }
  apply wp_bind. unfold on_a1in. apply wp_mzoom. eapply wp_mono; [by apply (keyed_insert F _ i); [|lia]|].
  intros r t3 [-> Ht3]. apply reclaim_refines; [|cbn; lia..]. split_and!; try done. cbn.
  apply list.NoDup_cons. split; [set_solver|done].
Qed.

Lemma reads_refine F keys s q :
  lru_queues kin kout ka s q → within kin kout ka q → tq_allowed kin kout ka keys q = true →
  wp F (lru_reads keys) (λ _ s', lru_queues kin kout ka s' (tq_reads kin kout ka keys q) ∧
    within kin kout ka (tq_reads kin kout ka keys q)) s.
Proof.
  revert s q. induction keys as [|key keys IH]; intros s q HQ HW Hal; [by apply wp_mret|].
  cbn [tq_allowed lru_reads tq_reads] in *. apply andb_prop in Hal as [Hhd%bool_decide_eq_true Hal].
  apply wp_bind. eapply wp_mono; [by apply handle_read_refines|]. intros u s' [HQ' HW']. by apply IH.
Qed.
End refinement.

(** ** Claims *)

(** C29. From queues within their bounds, and with maps whose insertion always finds
    memory (a law of [LinkedMap]; [lhmap_insert] panics when [kmalloc] fails): whatever
    sequence of blocks is read, no call faults or panics, and A1in, A1out and Am never
    exceed 8192, 16384 and 24576 entries between reads. *)
Theorem lru_reads_bounded {T} {LM : LinkedMap T unit} (keys : list Z) (s : lru T) :
  lru_bounded s → ∃ s', lru_reads keys s = Ok tt s' ∧ lru_bounded s'.
Proof.
  intros Hs. destruct (wp_no_fault _ _ _ (reads_bounded no_fault keys s Hs)) as ([] & s' & ? & ?). eauto.
Qed.

(** C28. On queues that hold each key once, reads follow the 2Q algorithm: a hit
    in Am moves the key to its front, a hit in A1out promotes it to Am, a hit in
    A1in changes nothing, any other key enters A1in, and overflowing queues lose
    their oldest key, A1in's to A1out; as long as no read is of the key at the
    front of Am. *)
Theorem lru_reads_2q {T} {LM : LinkedMap T unit} (kin kout ka : Z) (keys : list Z) (s : lru T) (q : queues) :
  0 ≤ kin < 2 ^ 31 → 0 ≤ kout < 2 ^ 31 → 0 ≤ ka < 2 ^ 31 →
  lru_queues kin kout ka s q → within kin kout ka q → tq_allowed kin kout ka keys q = true →
  ∃ s', lru_reads keys s = Ok tt s' ∧ lru_queues kin kout ka s' (tq_reads kin kout ka keys q) ∧
    within kin kout ka (tq_reads kin kout ka keys q).
Proof.
  intros H1 H2 H3 HQ HW Hal.
  destruct (wp_no_fault _ _ _ (reads_refine kin kout ka H1 H2 H3 no_fault keys s q HQ HW Hal)) as ([] & s' & ? & ?).
  eauto.
Qed.

(** [lhmap_to_front] returns NULL for the entry that is already at the
    front, which [lru_handle_read] takes for a miss: reading the block at the
    front of Am again enters it into A1in as well, so that it is in two queues. *)
Theorem lru_am_front_reinserted {T} {LM : LinkedMap T unit} (s : lru T) (key : Z) (i o m : list Z) :
  configured s → keyed (a1in s) i → keyed (a1out s) o → keyed (am s) (key :: m) →
  NoDup i → NoDup o → NoDup (key :: m) → key ∉ i → key ∉ o → length i < 8192 → length m < 24576 →
  ∃ s', lru_handle_read key s = Ok tt s' ∧ keyed (a1in s') (key :: i) ∧ keyed (am s') (key :: m).
Proof.
  intros Hc Hi Ho Hm Hni Hno Hnm Hki Hko Hli Hlm.
  assert (wp no_fault (lru_handle_read key) (λ _ s', keyed (a1in s') (key :: i) ∧ keyed (am s') (key :: m)) s) as H.
  { unfold lru_handle_read. apply wp_bind. unfold on_am. apply wp_mzoom.
    eapply wp_mono; [apply (lm_to_front_law _ _ (tag (key :: m))), Hm|]. intros [v|] t.
    { intros (k1 & k2 & Hne & Heq & _). destruct v. apply tag_split in Heq as (l1 & l2 & E & -> & _).
      destruct l1 as [|y l1]; [done|]. injection E as -> ->. apply list.NoDup_cons in Hnm as [Hnm _].
      exfalso. apply Hnm. set_solver. }
    intros [-> _]. apply wp_bind. unfold on_a1out. apply wp_mzoom.
    eapply wp_mono; [by apply (keyed_delete _ _ o)|]. rewrite bool_decide_eq_false_2 by done.
    intros r t [-> _]. apply wp_bind. unfold on_a1in at 1. apply wp_mzoom.
    eapply wp_mono; [by apply (keyed_lookup _ _ i)|]. rewrite bool_decide_eq_false_2 by done.
    intros r t2 [-> ->]. apply wp_bind. unfold on_a1in at 1. apply wp_mzoom.
    eapply wp_mono; [by apply (keyed_insert _ _ i); [|lia]|]. intros r t3 [-> Ht3].
    destruct Hc as (Hk1 & Hk2 & Hk3). unfold lru_reclaim. apply wp_bind, wp_mget.
    cbn [a1in set_a1in set_a1out set_am tq_kin am]. rewrite (keyed_count _ _ Ht3), Hk1.
    rewrite bool_decide_eq_false_2 by (simpl; lia). apply wp_bind, wp_mret, wp_bind, wp_mget.
    cbn [a1in set_a1in set_a1out set_am tq_ka am]. rewrite (keyed_count _ _ Hm), Hk3.
    rewrite bool_decide_eq_false_2 by (simpl; lia). by apply wp_mret. }
  destruct (wp_no_fault _ _ _ H) as ([] & s' & ? & ?). eauto.
Qed.

(** ** Concrete runs *)

Definition empty_queue : LHMap unit := mk_lhmap 0 7 None None None (replicate 7 None) ∅.
Lemma empty_queue_keyed : keyed empty_queue [].
Proof. destruct (create_repr (D := unit) 7 ltac:(lia)) as (m & [= <-] & HR). exact HR. Qed.

Definition lru0 : lru (LHMap unit) := mk_lru 24576 8192 16384 empty_queue empty_queue empty_queue.

Lemma lru_reads_bounded_witness : ∃ s', lru_reads [1; 2; 1; 8; 3] lru0 = Ok tt s' ∧ lru_bounded s'.
Proof.
  apply (lru_reads_bounded [1; 2; 1; 8; 3] lru0). exists 0, 0, 0.
  split; [split; [done|]|lia]. split_and!; exists []; (split; [exact empty_queue_keyed|done]).
Defined.

(** Queues of at most one, two and two keys. *)
Definition lru1 : lru (LHMap unit) := mk_lru 2 1 2 empty_queue empty_queue empty_queue.
Lemma lru_reads_2q_witness :
  ∃ s', lru_reads [10; 11; 10; 12; 11; 13; 10; 12] lru1 = Ok tt s' ∧
    lru_queues 1 2 2 s' ([13], [], [12; 10]).
Proof.
  destruct (lru_reads_2q 1 2 2 [10; 11; 10; 12; 11; 13; 10; 12] lru1 ([], [], [])) as (s' & Hrun & HQ & _).
  - lia.
  - lia.
  - lia.
  - split_and!; try exact empty_queue_keyed; try done. constructor.
  - split_and!; cbn; lia.
  - reflexivity.
  - exists s'. split; [exact Hrun|exact HQ].
Defined.

Lemma lru_am_front_reinserted_witness :
  ∃ m s', lm_insert 10 tt empty_queue = Ok 0 m ∧
    lru_handle_read 10 (mk_lru 24576 8192 16384 empty_queue empty_queue m) = Ok tt s' ∧
    keyed (a1in s') [10] ∧ keyed (am s') [10].
Proof.
  destruct (wp_no_fault _ _ _ (keyed_insert no_fault empty_queue [] 10 empty_queue_keyed ltac:(simpl; lia)))
    as (r & m & Hrun & -> & Hm).
  destruct (lru_am_front_reinserted (mk_lru 24576 8192 16384 empty_queue empty_queue m) 10 [] [] [])
    as (s' & Hrd & H1 & H2).
  - done.
  - exact empty_queue_keyed.
  - exact empty_queue_keyed.
  - exact Hm.
  - constructor.
  - constructor.
  - apply NoDup_singleton.
  - set_solver.
  - set_solver.
  - simpl; lia.
  - simpl; lia.
  - exists m, s'. auto.
Defined.
