(* ===== verification/Policy.v ===== *)
(** * The energy policy

    Models l4ka-driver-reuse/kernel/block/ebc_policy1.c, ebc_prefetcher.c and
    [lru_load_cache] of ebc_lru.c: disk requests are translated to the flash disk
    where the cache has the block, the hot blocks of Am and their successors are
    loaded into the cache, and modified blocks are written back. The functions
    that start with [BUG()] in this port ([disk_activity], [prefetcher_init],
    [energy_init], [energy_timer], [energy_getlength], [energy_shutdown]) stop
    there. A [PEntry] is not modified after it is inserted and is modelled by its
    [next] field. The [DUMP_STATS] counters are left out. *)

From Stdlib Require Import ZArith Lia.
From stdpp Require Import base list gmap numbers.
From S2P Require Import Prelude LHMap LinkedMap CacheMgnt Lru.

Definition FD_DISK : Z := 0.
Definition FD_FLASH : Z := 1.
Definition OBJECT_MASK : Z := Z.lnot 31.

Inductive disk_mode : Type := DISK_ACTIVE | DISK_STANDBY.
Record EnergyRequest : Type := mk_request { rq_fd : Z; rq_sector_num : Z; rq_size : Z }.

Record energy (TQ TC TP Sec : Type) : Type := mk_energy {
  en_lru : lru TQ;
  en_cache : cache TC Sec;
  prefetch_cache : TP;
  disk_state : disk_mode;
  io_max : Z
}.
Arguments mk_energy {TQ TC TP Sec}.
Arguments en_lru {TQ TC TP Sec}.
Arguments en_cache {TQ TC TP Sec}.
Arguments prefetch_cache {TQ TC TP Sec}.
Arguments disk_state {TQ TC TP Sec}.
Arguments io_max {TQ TC TP Sec}.

Section ops.
Context {TQ TC TP Sec : Type}.
Context {LQ : LinkedMap TQ unit} {LC : LinkedMap TC positive} {LP : LinkedMap TP Z} {EA : EntryAlloc}.
Abbreviation state := (energy TQ TC TP Sec).
Abbreviation ME := (M state).
Implicit Types (s : state).

Definition set_en_lru (q : lru TQ) s := mk_energy q (en_cache s) (prefetch_cache s) (disk_state s) (io_max s).
Definition set_en_cache (c : cache TC Sec) s := mk_energy (en_lru s) c (prefetch_cache s) (disk_state s) (io_max s).
Definition set_prefetch (t : TP) s := mk_energy (en_lru s) (en_cache s) t (disk_state s) (io_max s).
Definition on_lru {A} (x : M (lru TQ) A) : ME A := mzoom en_lru set_en_lru x.
Definition on_cache {A} (x : M (cache TC Sec) A) : ME A := mzoom en_cache set_en_cache x.
Definition on_prefetch {A} (x : M TP A) : ME A := mzoom prefetch_cache set_prefetch x.

(** ** The prefetcher (ebc_prefetcher.c) *)

Definition prefetcher_init : ME Z := mfault KernelBug.

(** The loop of [prefetcher_load_entries] from iteration [i], [n] to go. *)
Fixpoint prefetch_loop (n : nat) (i cur_block : Z) : ME Z :=
  match n with
  | O => mret i
  | S n =>
      r ← on_prefetch (lm_lookup cur_block);
      match r with
      | None => mret i
      | Some next =>
          e ← on_cache (clookup_any next);
          match e with
          | Some _ => prefetch_loop n (i + 1) next
          | None =>
              z ← on_cache (cfetch_read next);
              if bool_decide (z ≠ 0) then mret i else prefetch_loop n (i + 1) next
          end
      end
  end.
Definition prefetcher_load_entries (base count : Z) : ME Z := prefetch_loop (Z.to_nat count) 0 base.

(** ** Loading hot blocks (ebc_lru.c) *)

Fixpoint load_loop (fuel : nat) (max transitions : Z) : ME Z :=
  match fuel with
  | O => mfault Diverged
  | S fuel =>
      r ← on_lru (on_am lm_iterator_next);
      match r with
      | None => mret transitions
      | Some (_, key) =>
          if bool_decide (transitions < max) then
            e ← on_cache (clookup_any key);
            match e with
            | Some _ => load_loop fuel max transitions
            | None =>
                z ← on_cache (cfetch_read key);
                if bool_decide (z ≠ 0) then mret transitions else
                p ← prefetcher_load_entries key 10;
                load_loop fuel max (u32 (u32 (transitions + 1) + p))
            end
          else mret transitions
      end
  end.
(** The iterator makes at most one step per entry of Am. *)
Definition lru_load_cache (max : Z) : ME Z :=
  let max := if bool_decide (max < min_transitions) then min_transitions else max in
  on_lru (on_am lm_iterator_start);;
  s ← mget;
  load_loop (S (Z.to_nat (lm_count (am (en_lru s))))) max 0.

(** ** The policy (ebc_policy1.c) *)

Definition load_at_once : Z := 30.
Definition lru_cache_size : Z := 32768.

Definition disk_activity : ME unit := mfault KernelBug.

(** The write-back loop of [energy_cache_loader]. *)
Fixpoint flush_loop (fuel : nat) (max transitions : Z) : ME Z :=
  match fuel with
  | O => mfault Diverged
  | S fuel =>
      r ← on_cache citerator_next_write;
      match r with
      | None => mret transitions
      | Some (_, key) =>
          if bool_decide (transitions < max) then
            on_cache (cflush_write key);;
            flush_loop fuel max (u32 (transitions + 1))
          else mret transitions
      end
  end.
Definition energy_cache_loader : ME unit :=
  s ← mget;
  let max := u32 (io_max s * load_at_once) `div` 100 in
  transitions ← lru_load_cache max;
  (if bool_decide (transitions < max) then
     on_cache citerator_start_write;;
     s ← mget;
     flush_loop (S (Z.to_nat (lm_count (write_cache (en_cache s))))) max transitions;;
     mret tt
   else mret tt);;
  n ← on_cache csize_read;
  if bool_decide (n > lru_cache_size) then on_cache cremove_last_read;; mret tt else mret tt.

Definition energy_timer : ME unit := mfault KernelBug.
(** The [ASSERT] on the width of the mask holds; [BUG()] is next. *)
Definition energy_init : ME Z := massert (bool_decide (OBJECT_SIZE ≤ 32));; mfault KernelBug.
Definition energy_getlength : ME Z := mfault KernelBug.
Definition energy_shutdown : ME Z := mfault KernelBug.

(** The translations return what they return and the request as they leave it. *)
Definition energy_readtranslation (req : EnergyRequest) : ME (Z * EnergyRequest) :=
  let key := Z.land (rq_sector_num req) OBJECT_MASK in
  let offset := rq_sector_num req `mod` OBJECT_SIZE in
  on_lru (lru_handle_read key);;
  r ← on_cache (clookup_read key);
  match r with
  | Some p =>
      e ← on_cache (load_entry p);
      mret (FD_FLASH, mk_request FD_FLASH (u64 (ce_fd_sector e + offset)) (rq_size req))
  | None =>
      r ← on_cache (clookup_write key);
      match r with
      | Some p =>
          e ← on_cache (load_entry p);
          let req_mask := u32 (BLOCK_MASK offset (rq_size req)) in
          if bool_decide (Z.land req_mask (ce_mask e) ≠ 0) then
            massert (bool_decide (offset + rq_size req ≤ OBJECT_SIZE));;
            mret (FD_FLASH, mk_request FD_FLASH (u64 (ce_fd_sector e + offset)) (rq_size req))
          else
            disk_activity;;
            z ← on_cache (cflush_write key);
            (if bool_decide (z ≠ 0) then mfault KernelPanic else mret tt);;
            mret (FD_DISK, mk_request FD_DISK (rq_sector_num req) (rq_size req))
      | None =>
          disk_activity;;
          mret (FD_DISK, mk_request FD_DISK (rq_sector_num req) (rq_size req))
      end
  end.

Definition set_ce_state (st : entry_state) (e : CacheEntry) :=
  mk_entry (ce_hd_sector e) (ce_fd_sector e) (ce_mask e) st.
Definition set_ce_mask (x : Z) (e : CacheEntry) := mk_entry (ce_hd_sector e) (ce_fd_sector e) x (ce_state e).
Definition update_entry (p : positive) (f : CacheEntry → CacheEntry) : M (cache TC Sec) unit :=
  load_entry p;; mmodify (λ c, set_entries (alter f p (entries c)) c).

Definition energy_writetranslation (req : EnergyRequest) : ME (Z * EnergyRequest) :=
  let key := Z.land (rq_sector_num req) OBJECT_MASK in
  let offset := rq_sector_num req `mod` OBJECT_SIZE in
  r ← on_cache (clookup_read key);
  match r with
  | Some p =>
      e ← on_cache (load_entry p);
      on_cache (update_entry p (set_ce_state ENTRY_WRITE));;
      on_cache (cmove_to_write key);;
      mret (FD_FLASH, mk_request FD_FLASH (u64 (ce_fd_sector e + offset)) (rq_size req))
  | None =>
      r ← on_cache (clookup_write key);
      match r with
      | Some p =>
          e ← on_cache (load_entry p);
          on_cache (update_entry p (set_ce_mask
            (u32 (Z.lor (ce_mask e) (BLOCK_MASK offset (rq_size req))))));;
          mret (FD_FLASH, mk_request FD_FLASH (u64 (ce_fd_sector e + offset)) (rq_size req))
      | None =>
          s ← mget;
          match disk_state s with
          | DISK_STANDBY =>
              b ← on_cache cget_free_block;
              match b with
              | Some block =>
                  o ← mgets (λ s, entry_malloc (entries (en_cache s)));
                  p ← mof_option KernelPanic o;
                  on_cache (mmodify (λ c, set_entries (<[p := mk_entry key block
                    (u32 (BLOCK_MASK offset (rq_size req))) ENTRY_WRITE]> (entries c)) c));;
                  z ← on_cache (cinsert_write key p);
                  (if bool_decide (z ≠ 0) then mfault KernelPanic else mret tt);;
                  mret (FD_FLASH, mk_request FD_FLASH (u64 (block + offset)) (rq_size req))
              | None =>
                  disk_activity;;
                  mret (FD_DISK, mk_request FD_DISK (rq_sector_num req) (rq_size req))
              end
          | DISK_ACTIVE => mret (FD_DISK, mk_request FD_DISK (rq_sector_num req) (rq_size req))
          end
      end
  end.
End ops.

(** ** Masks *)

Lemma object_key x : Z.land x OBJECT_MASK = x - x `mod` 32.
Proof.
  unfold OBJECT_MASK. change 31 with (Z.ones 5). rewrite <- Z.ldiff_land, Z.ldiff_ones_r by lia.
  rewrite Z.shiftr_div_pow2, Z.shiftl_mul_pow2 by lia. change (2 ^ 5) with 32.
  pose proof (Z.div_mod x 32 ltac:(lia)). lia.
Qed.

(** The mask of a request that stays within its object. *)
Lemma block_mask_bits off sz i :
  0 ≤ off → 0 ≤ sz → off + sz ≤ 32 → 0 ≤ i →
  Z.testbit (u32 (BLOCK_MASK off sz)) i = bool_decide (off ≤ i < off + sz).
Proof.
  intros Ho Hs Hle Hi. unfold BLOCK_MASK. rewrite Z.shiftl_1_l.
  assert (2 ^ sz ≤ 2 ^ 32) by (apply Z.pow_le_mono_r; lia). assert (0 < 2 ^ sz) by (apply Z.pow_pos_nonneg; lia).
  rewrite (wrap_small 64 (2 ^ sz)) by lia. replace (2 ^ sz - 1) with (Z.ones sz) by (rewrite Z.ones_equiv; lia).
  assert (0 ≤ Z.shiftl (Z.ones sz) off < 2 ^ 32) as Hr.
  { rewrite Z.shiftl_mul_pow2, Z.ones_equiv by lia. assert (0 < 2 ^ off) by (apply Z.pow_pos_nonneg; lia).
    assert (2 ^ sz * 2 ^ off ≤ 2 ^ 32) by (rewrite <- Z.pow_add_r by lia; apply Z.pow_le_mono_r; lia). nia. }
  rewrite (wrap_small 64), (wrap_small 32) by lia. rewrite Z.shiftl_spec by lia.
  case_bool_decide.
  - apply Z.ones_spec_low. lia.
  - destruct (decide (i < off)); [apply Z.testbit_neg_r; lia|apply Z.ones_spec_high; lia].
Qed.
Lemma block_mask_range off sz : 0 ≤ u32 (BLOCK_MASK off sz) < 2 ^ 32.
Proof. by apply wrap_range. Qed.

(** The mask of an updated entry. *)
Lemma lor_mask_bits x off sz i :
  0 ≤ x < 2 ^ 32 → 0 ≤ off → 0 ≤ sz → off + sz ≤ 32 → 0 ≤ i →
  Z.testbit (u32 (Z.lor x (BLOCK_MASK off sz))) i = Z.testbit x i || bool_decide (off ≤ i < off + sz).
Proof.
  intros Hx Ho Hs Hle Hi. rewrite <- block_mask_bits by done.
  assert (u32 (Z.lor x (BLOCK_MASK off sz)) = Z.lor x (u32 (BLOCK_MASK off sz))) as ->; [|apply Z.lor_spec].
  rewrite <- (wrap_small 32 x) at 2 by done. unfold wrap. rewrite <- !Z.land_ones by lia.
  apply Z.land_lor_distr_l.
Qed.

(** A request mask meets an entry's mask exactly if a requested sector is in it. *)
Lemma mask_disjoint x y : (∀ i, 0 ≤ i → Z.testbit x i = true → Z.testbit y i = false) → Z.land x y = 0.
Proof.
  intros H. apply Z.bits_inj'. intros i Hi. rewrite Z.land_spec, Z.bits_0.
  destruct (Z.testbit x i) eqn:Hx; [|done]. by rewrite H.
Qed.
Lemma mask_meets x y i : Z.testbit x i = true → Z.testbit y i = true → Z.land x y ≠ 0.
Proof.
  intros Hx Hy H0. assert (Z.testbit (Z.land x y) i = true) as Hb by (by rewrite Z.land_spec, Hx, Hy).
  by rewrite H0, Z.bits_0 in Hb.
Qed.

(** ** Translations *)

Section theory.
Context {TQ TC TP Sec : Type}.
Context {LQ : LinkedMap TQ unit} {LC : LinkedMap TC positive} {LP : LinkedMap TP Z} {EA : EntryAlloc}.
Implicit Types (s : energy TQ TC TP Sec) (c : cache TC Sec) (kr kw : list (Z * positive)) (req : EnergyRequest).

(** A request within one object of the disk. *)
Definition request_ok req : Prop :=
  0 ≤ rq_sector_num req ∧ rq_sector_num req + 32 ≤ 2 ^ 55 ∧ 0 < rq_size req ∧
  rq_sector_num req `mod` 32 + rq_size req ≤ 32.
Definition req_key req : Z := rq_sector_num req - rq_sector_num req `mod` 32.

Lemma wp_on_cache F {A} (x : M (cache TC Sec) A) Q s :
  wp F x (λ a c, Q a (set_en_cache c s)) (en_cache s) → wp F (on_cache (TQ := TQ) (TP := TP) x) Q s.
Proof. apply wp_mzoom. Qed.
Lemma set_en_cache_id s : set_en_cache (en_cache s) s = s.
Proof. by destruct s. Qed.
Lemma wp_clookup_read F c kr kw key Q : cinv c kr kw → Q (assoc key kr) c → wp F (clookup_read key) Q c.
Proof.
  intros I HQ. destruct (cinv_nodup _ _ _ I) as (Hr & _ & _). unfold clookup_read, on_read. apply wp_mzoom.
  eapply wp_mono; [apply (lookup_unique F _ kr); [apply I|done]|]. intros r t [-> ->]. by destruct c.
Qed.
Lemma wp_clookup_write F c kr kw key Q : cinv c kr kw → Q (assoc key kw) c → wp F (clookup_write key) Q c.
Proof.
  intros I HQ. destruct (cinv_nodup _ _ _ I) as (_ & Hw & _). unfold clookup_write, on_write. apply wp_mzoom.
  eapply wp_mono; [apply (lookup_unique F _ kw); [apply I|done]|]. intros r t [-> ->]. by destruct c.
Qed.
Lemma wp_load_entry F c p e Q : entries c !! p = Some e → Q e c → wp F (load_entry p) Q c.
Proof. intros He HQ. unfold load_entry. apply wp_bind, wp_mgets. by rewrite He. Qed.

Lemma req_sector req j :
  request_ok req → 0 ≤ j < rq_size req →
  (rq_sector_num req + j) `mod` 32 = rq_sector_num req `mod` 32 + j ∧
  rq_sector_num req + j - (rq_sector_num req + j) `mod` 32 = req_key req.
Proof.
  intros (? & _ & ? & Hle) Hj. unfold req_key. pose proof (Z.mod_pos_bound (rq_sector_num req) 32 ltac:(lia)).
  assert ((rq_sector_num req + j) `mod` 32 = rq_sector_num req `mod` 32 + j) as ->; [|lia].
  rewrite <- (Z.mod_small (rq_sector_num req `mod` 32 + j) 32) by lia.
  rewrite Z.add_mod_idemp_l by lia. done.
Qed.

(** The flash sectors the translations compute do not overflow. *)
Lemma fd_sector_small req fd :
  block_ok fd → request_ok req → u64 (fd + rq_sector_num req `mod` 32) = fd + rq_sector_num req `mod` 32.
Proof.
  intros (? & ? & _) (? & _ & ? & ?). pose proof (Z.mod_pos_bound (rq_sector_num req) 32 ltac:(lia)).
  apply wrap_small. lia.
Qed.

(** A request the cache can answer from the flash. *)
Definition cached c kr kw req : Prop :=
  req_key req ∈ kr.*1 ∨
  ∃ p e, (req_key req, p) ∈ kw ∧ entries c !! p = Some e ∧
    ∀ j, 0 ≤ j < rq_size req → Z.testbit (ce_mask e) (rq_sector_num req `mod` 32 + j) = true.
(** A request for which it has nothing. *)
Definition uncached c kr kw req : Prop :=
  req_key req ∉ kr.*1 ∧
  (req_key req ∉ kw.*1 ∨
   ∃ p e, (req_key req, p) ∈ kw ∧ entries c !! p = Some e ∧
     ∀ j, 0 ≤ j < rq_size req → Z.testbit (ce_mask e) (rq_sector_num req `mod` 32 + j) = false).

Lemma view_read c kr kw key p e i :
  cinv c kr kw → (key, p) ∈ kr → entries c !! p = Some e → 0 ≤ i < 32 →
  flash c (ce_fd_sector e + i) = view c kw (key + i).
Proof.
  intros I Hin He Hi. destruct (ci_clean _ _ _ I _ _ _ Hin He) as [_ Hc]. rewrite Hc by done.
  destruct (ci_entry _ _ _ I key p) as (e' & _ & _ & _ & (? & _ & Hk) & _); [apply elem_of_app; by left|].
  unfold view. rewrite assoc_none; [done|].
  assert ((key + i) `mod` 32 = i) as ->.
  { rewrite <- Z.add_mod_idemp_l, Hk, Z.add_0_l by lia. apply Z.mod_small. lia. }
  replace (key + i - i) with key by lia. apply (cinv_nodup _ _ _ I). by eapply in_keys.
Qed.
Lemma view_written c kr kw p e req j :
  cinv c kr kw → (req_key req, p) ∈ kw → entries c !! p = Some e → request_ok req → 0 ≤ j < rq_size req →
  Z.testbit (ce_mask e) (rq_sector_num req `mod` 32 + j) = true →
  view c kw (rq_sector_num req + j) = flash c (ce_fd_sector e + rq_sector_num req `mod` 32 + j).
Proof.
  intros I Hin He Hok Hj Hbit. destruct (req_sector req j Hok Hj) as [Hm Hk].
  destruct (cinv_nodup _ _ _ I) as (_ & Hw & _). unfold view.
  rewrite Hk, (assoc_in _ _ _ Hw Hin), He, Hm, Hbit. f_equal. lia.
Qed.

Lemma energy_read_ok F s kr kw req :
  lru_bounded (en_lru s) → cinv (en_cache s) kr kw → request_ok req → cached (en_cache s) kr kw req →
  wp F (energy_readtranslation req) (λ r s',
    r.1 = FD_FLASH ∧ rq_fd r.2 = FD_FLASH ∧ rq_size r.2 = rq_size req ∧
    en_cache s' = en_cache s ∧ lru_bounded (en_lru s') ∧
    ∀ j, 0 ≤ j < rq_size req →
      flash (en_cache s) (rq_sector_num r.2 + j) = view (en_cache s) kw (rq_sector_num req + j)) s.
Proof.
  intros Hl I Hok Hcached. pose proof Hok as (Hs0 & Hs1 & Hsz & Hle).
  pose proof (Z.mod_pos_bound (rq_sector_num req) 32 ltac:(lia)) as Hoff.
  destruct (cinv_nodup _ _ _ I) as (Hr & Hw & Hdis).
  unfold energy_readtranslation. rewrite object_key. change (rq_sector_num req - _) with (req_key req).
  unfold OBJECT_SIZE. apply wp_bind. unfold on_lru. apply wp_mzoom.
  eapply wp_mono; [by apply handle_read_bounded|]. intros u q Hq. apply wp_bind, wp_on_cache.
  eapply wp_clookup_read; [exact I|]. destruct (assoc (req_key req) kr) as [p|] eqn:Ha.
  - apply assoc_elem in Ha. destruct (ci_entry _ _ _ I (req_key req) p) as (e & He & _ & _ & _ & Hfd).
    { apply elem_of_app. left. exact Ha. }
    apply wp_bind, wp_on_cache. eapply wp_load_entry; [exact He|]. apply wp_mret. cbn [fst snd rq_fd rq_size rq_sector_num].
    split_and!; [done..|]. intros j Hj. rewrite fd_sector_small by done.
    rewrite <- Z.add_assoc, (view_read _ kr kw (req_key req) p e) by (done || lia).
    f_equal. unfold req_key. lia.
  - destruct Hcached as [Hin|(p & e & Hin & He & Hbits)]; [by apply assoc_None in Ha|].
    destruct (ci_entry _ _ _ I (req_key req) p) as (e' & He' & _ & _ & _ & Hfd); [apply elem_of_app; by right|].
    simplify_eq. apply wp_bind, wp_on_cache. eapply wp_clookup_write; [exact I|].
    rewrite (assoc_in _ _ _ Hw Hin). apply wp_bind, wp_on_cache. eapply wp_load_entry; [exact He|].
    rewrite bool_decide_eq_true_2.
    2:{ apply (mask_meets _ _ (rq_sector_num req `mod` 32 + 0)); [|apply Hbits; lia].
        rewrite block_mask_bits by lia. apply bool_decide_eq_true. lia. }
    apply wp_bind, wp_massert; [by rewrite bool_decide_eq_false|]. intros _. apply wp_mret.
    cbn [fst snd rq_fd rq_size rq_sector_num]. split_and!; [done..|]. intros j Hj.
    rewrite fd_sector_small by done. symmetry. by eapply view_written; [..|apply Hbits].
Qed.

(** Without the blocks in the cache the disk is needed, and [disk_activity] is
    not implemented. *)
Lemma energy_read_miss s kr kw req :
  lru_bounded (en_lru s) → cinv (en_cache s) kr kw → request_ok req → uncached (en_cache s) kr kw req →
  energy_readtranslation req s = Err KernelBug.
Proof.
  intros Hl I Hok [Hnr Hnw]. pose proof Hok as (Hs0 & Hs1 & Hsz & Hle).
  pose proof (Z.mod_pos_bound (rq_sector_num req) 32 ltac:(lia)) as Hoff. destruct (cinv_nodup _ _ _ I) as (Hr & Hw & Hdis).
  apply wp_only_fault. unfold energy_readtranslation. rewrite object_key. change (rq_sector_num req - _) with (req_key req).
  unfold OBJECT_SIZE. apply wp_bind. unfold on_lru. apply wp_mzoom.
  eapply wp_mono; [by apply handle_read_bounded|]. intros u q Hq. apply wp_bind, wp_on_cache.
  eapply wp_clookup_read; [exact I|]. rewrite assoc_none by done. apply wp_bind, wp_on_cache.
  eapply wp_clookup_write; [exact I|]. destruct Hnw as [Hni|(p & e & Hin & He & Hbits)].
  { rewrite assoc_none by done. by apply wp_bind, wp_mfault. }
  rewrite (assoc_in _ _ _ Hw Hin). apply wp_bind, wp_on_cache. eapply wp_load_entry; [exact He|].
  rewrite bool_decide_eq_false_2; [by apply wp_bind, wp_mfault|]. intros Hmeet. apply Hmeet, mask_disjoint.
  intros i Hi. rewrite block_mask_bits by lia. intros Hb%bool_decide_eq_true.
  replace i with (rq_sector_num req `mod` 32 + (i - rq_sector_num req `mod` 32)) by lia. apply Hbits. lia.
Qed.

(** *** Writes *)

(** The caller writes the data where the translation says. *)
Definition write_data (fd x : Z) (data : list Sec) c : cache TC Sec :=
  if bool_decide (fd = FD_FLASH) then set_flash (write_sectors (flash c) x data) c
  else set_disk (write_sectors (disk c) x data) c.

Lemma write_data_flash x data c : write_data FD_FLASH x data c = set_flash (write_sectors (flash c) x data) c.
Proof. done. Qed.

(** Changing an entry's mask or state. *)
Lemma alter_entry c (f : CacheEntry → CacheEntry) p p' e :
  alter f p (entries c) !! p' = Some e →
  ∃ e0, entries c !! p' = Some e0 ∧ e = if bool_decide (p' = p) then f e0 else e0.
Proof.
  destruct (decide (p' = p)) as [->|Hne].
  - rewrite lookup_alter_eq. intros (e0 & He0 & ->)%fmap_Some. exists e0. by rewrite bool_decide_eq_true_2.
  - rewrite lookup_alter_ne by done. intros He. exists e. by rewrite bool_decide_eq_false_2.
Qed.
Section alter.
Context (c : cache TC Sec) (kr kw : list (Z * positive)) (p : positive) (f : CacheEntry → CacheEntry).
Context (Hf : ∀ e, ce_hd_sector (f e) = ce_hd_sector e ∧ ce_fd_sector (f e) = ce_fd_sector e ∧
  (0 ≤ ce_mask e < 2 ^ 32 → 0 ≤ ce_mask (f e) < 2 ^ 32)).

Lemma cinv_alter :
  cinv c kr kw → (∀ key e, (key, p) ∈ kr → entries c !! p = Some e → ce_mask (f e) = ce_mask e) →
  cinv (set_entries (alter f p (entries c)) c) kr kw.
Proof.
  intros I Hr. split; try apply I.
  - intros key p' Hin. destruct (ci_entry _ _ _ I key p' Hin) as (e & He & Hhd & Hm & Hk & Hfd). cbn.
    destruct (Hf e) as (Hf1 & Hf2 & Hf3). destruct (decide (p' = p)) as [->|Hne].
    + rewrite lookup_alter_eq, He. exists (f e). rewrite Hf1, Hf2. split_and!; try done; by apply Hf3.
    + rewrite lookup_alter_ne by done. by exists e.
  - intros key p' e Hin He. apply alter_entry in He as (e0 & He0 & ->).
    destruct (ci_clean _ _ _ I _ _ _ Hin He0) as [Hm Hc]. case_bool_decide; [|done]. subst p'.
    destruct (Hf e0) as (_ & Hf2 & _). by rewrite Hf2, (Hr key).
Qed.
Lemma cfree_alter : cfree c kr kw → cfree (set_entries (alter f p (entries c)) c) kr kw.
Proof.
  assert (∀ p' e0, ce_fd_sector (if bool_decide (p' = p) then f e0 else e0) = ce_fd_sector e0) as Hfd.
  { intros p' e0. case_bool_decide; [apply Hf|done]. }
  intros [Hn Ho Hu Hi]. split; [done..| |].
  - intros key p' e Hin (e0 & He0 & ->)%alter_entry. rewrite Hfd. eauto.
  - intros k1 p1 e1 k2 p2 e2 H1 H2 (e1' & He1 & ->)%alter_entry (e2' & He2 & ->)%alter_entry. rewrite !Hfd. eauto.
Qed.
End alter.

(** The entry a write in standby adds. *)
Lemma new_write_entry c kr kw key block p l x t :
  cinv c kr kw → cfree c kr kw → block_ok key → key ∉ (kr ++ kw).*1 → entries c !! p = None →
  free_list c = block :: l → 0 ≤ x < 2 ^ 32 → lm_repr t ((key, p) :: kw) →
  let c' := set_write_cache t (set_entries (<[p := mk_entry key block x ENTRY_WRITE]> (entries c)) (set_free_list l c)) in
  cinv c' kr ((key, p) :: kw) ∧ cfree c' kr ((key, p) :: kw).
Proof.
  intros I Fr Hkey Hni Hp Hl Hx HR c'.
  assert (∀ key' p', (key', p') ∈ kr ++ (key, p) :: kw → (key', p') = (key, p) ∨ (key', p') ∈ kr ++ kw) as Hcase.
  { intros key' p'. rewrite !elem_of_app, elem_of_cons. tauto. }
  assert (∀ key' p', (key', p') ∈ kr ++ kw → entries c' !! p' = entries c !! p') as Hlk.
  { intros key' p' Hk. apply lookup_insert_ne. intros ->.
    destruct (ci_entry _ _ _ I _ _ Hk) as (e & He & _). congruence. }
  pose proof (cf_nodup _ _ _ Fr) as Hn. rewrite Hl in Hn. apply list.NoDup_cons in Hn as [Hbl Hnd].
  assert (∀ key' p' e, (key', p') ∈ kr ++ kw → entries c !! p' = Some e → ce_fd_sector e ≠ block) as Hnb.
  { intros key' p' e Hk He Heq. eapply (cf_used _ _ _ Fr); [done..|]. rewrite Heq, Hl. by left. }
  pose proof (ci_bound _ _ _ I) as Hb. rewrite Hl in Hb. simpl in Hb. split.
  - split; try by apply I.
    + done.
    + rewrite <- Permutation_middle. cbn. apply list.NoDup_cons. split; [done|apply I].
    + rewrite <- Permutation_middle. cbn. apply list.NoDup_cons. split; [|apply I].
      intros ([k' p'] & Heq & Hk)%list_elem_of_fmap. cbn in Heq. subst p'.
      destruct (ci_entry _ _ _ I _ _ Hk) as (e & He & _). congruence.
    + intros key' p' [[= -> ->]|Hk]%Hcase; [|rewrite (Hlk _ _ Hk); by apply I].
      exists (mk_entry key block x ENTRY_WRITE). cbn. rewrite lookup_insert_eq. split_and!; try done; try lia.
      apply Fr. rewrite Hl. by left.
    + intros key' p' e Hk. rewrite (Hlk key' p'); [by apply I|]. apply elem_of_app. by left.
    + cbn. lia.
  - split.
    + done.
    + intros b Hbk. apply Fr. rewrite Hl. by right.
    + intros key' p' e [[= -> ->]|Hk]%Hcase.
      * cbn. rewrite lookup_insert_eq. by intros [= <-].
      * rewrite (Hlk _ _ Hk). intros He Hin. eapply (cf_used _ _ _ Fr); [done..|]. rewrite Hl. by right.
    + intros k1 p1 e1 k2 p2 e2 [[= -> ->]|H1]%Hcase [[= -> ->]|H2]%Hcase; [done|..].
      * rewrite (Hlk _ _ H2). cbn. rewrite lookup_insert_eq. intros [= <-] He2 Heq. exfalso. by eapply Hnb.
      * rewrite (Hlk _ _ H1). cbn. rewrite lookup_insert_eq. intros He1 [= <-] Heq. exfalso. by eapply Hnb.
      * rewrite (Hlk _ _ H1), (Hlk _ _ H2). intros. by eapply (cf_inj _ _ _ Fr).
Qed.

(** What the sectors contain after the write to the flash: [v] before the
    entry took the request's sectors over. *)
Lemma write_view c kr kw p e (v : Z → Sec) req data :
  cinv c kr kw → cfree c kr kw → (req_key req, p) ∈ kw → entries c !! p = Some e → request_ok req →
  length data = rq_size req :> Z →
  (∀ j, 0 ≤ j < rq_size req → Z.testbit (ce_mask e) (rq_sector_num req `mod` 32 + j) = true) →
  (∀ x, ¬ (rq_sector_num req ≤ x < rq_sector_num req + rq_size req) → view c kw x = v x) →
  let c' := write_data FD_FLASH (ce_fd_sector e + rq_sector_num req `mod` 32) data c in
  cinv c' kr kw ∧ cfree c' kr kw ∧ ∀ x, view c' kw x = write_sectors v (rq_sector_num req) data x.
Proof.
  intros I Fr Hin He Hok Hlen Hbits Hv c'. pose proof Hok as (Hs0 & Hs1 & Hsz & Hle).
  pose proof (Z.mod_pos_bound (rq_sector_num req) 32 ltac:(lia)) as Hoff.
  destruct (cinv_nodup _ _ _ I) as (_ & Hw & _).
  assert ((req_key req, p) ∈ kr ++ kw) as Hin' by (apply elem_of_app; by right).
  destruct (ci_entry _ _ _ I _ _ Hin') as (e' & He' & _ & _ & Hk & Hfd). simplify_eq.
  subst c'. rewrite write_data_flash. split_and!.
  - apply (cinv_dirty c kr kw (req_key req) p e); try done. intros x Hx. apply write_sectors_out. lia.
  - destruct Fr. by split.
  - intros x. destruct (decide (rq_sector_num req ≤ x < rq_sector_num req + rq_size req)) as [Hx|Hx].
    + unfold view. destruct (req_sector req (x - rq_sector_num req) Hok ltac:(lia)) as [Hm Hkey].
      replace (rq_sector_num req + (x - rq_sector_num req)) with x in Hm, Hkey by lia.
      rewrite Hkey, (assoc_in _ _ _ Hw Hin). 
      cbn [entries set_flash flash disk]. rewrite He, Hm, Hbits by lia. unfold write_sectors.
      destruct (zlookup_is_Some data (x - rq_sector_num req)) as [d Hd]; [lia|].
      replace (ce_fd_sector e + (_ + (x - rq_sector_num req)) - _) with (x - rq_sector_num req) by lia. by rewrite Hd.
    + rewrite write_sectors_out by lia. rewrite <- Hv by done. unfold view.
      destruct (assoc (x - x `mod` 32) kw) as [p'|] eqn:Ha; [|done].
      cbn [entries set_flash flash disk].
      destruct (entries c !! p') as [e'|] eqn:He2; [|done]. destruct (Z.testbit _ _); [|done].
      apply write_sectors_out. destruct (sector_split x) as (Hi & Hxs & _). apply assoc_elem in Ha.
      assert ((x - x `mod` 32, p') ∈ kr ++ kw) as Hin2 by (apply elem_of_app; by right).
      destruct (ci_entry _ _ _ I _ _ Hin2) as (e2 & He3 & Hhd & _ & _ & Hfd2).
      assert (e' = e2) as -> by congruence. intros Hr.
      destruct (decide (ce_fd_sector e2 = ce_fd_sector e)) as [Heq|Hne].
      * assert (p' = p) as -> by (by eapply (cf_inj _ _ _ Fr)). simplify_eq.
        assert (x - x `mod` 32 = req_key req) as Hxk; [|unfold req_key in Hxk; lia].
        destruct (ci_entry _ _ _ I _ _ Hin') as (e3 & ? & ? & _). simplify_eq. congruence.
      * apply (block_disjoint (ce_fd_sector e2) (ce_fd_sector e) (x `mod` 32)
          (ce_fd_sector e2 + x `mod` 32 - ce_fd_sector e)); try done; lia.
Qed.

(** The write of an uncached request goes to the disk. *)
Lemma write_disk_view c kr kw req data :
  cinv c kr kw → cfree c kr kw → request_ok req → req_key req ∉ (kr ++ kw).*1 → length data = rq_size req :> Z →
  let c' := write_data FD_DISK (rq_sector_num req) data c in
  cinv c' kr kw ∧ cfree c' kr kw ∧ ∀ x, view c' kw x = write_sectors (view c kw) (rq_sector_num req) data x.
Proof.
  intros I Fr Hok Hni Hlen c'. pose proof Hok as (Hs0 & Hs1 & Hsz & Hle).
  assert (∀ x, rq_sector_num req ≤ x < rq_sector_num req + rq_size req → x - x `mod` 32 = req_key req) as Hblk.
  { intros x Hx. destruct (req_sector req (x - rq_sector_num req) Hok ltac:(lia)) as [_ Hkey].
    by replace (rq_sector_num req + (x - rq_sector_num req)) with x in Hkey by lia. }
  assert (c' = set_disk (write_sectors (disk c) (rq_sector_num req) data) c) as -> by done. split_and!.
  - split; try apply I. intros key p e Hk He. destruct (ci_clean _ _ _ I _ _ _ Hk He) as [Hm Hc].
    split; [done|]. intros i Hi. cbn. rewrite Hc by done. symmetry. apply write_sectors_out. intros Hr.
    apply Hni. rewrite <- (Hblk (key + i)) by lia.
    destruct (ci_entry _ _ _ I key p) as (_ & _ & _ & _ & (? & _ & Hmod) & _); [apply elem_of_app; by left|].
    assert ((key + i) `mod` 32 = i) as ->.
    { rewrite <- Z.add_mod_idemp_l, Hmod, Z.add_0_l by lia. apply Z.mod_small. lia. }
    replace (key + i - i) with key by lia. apply (in_keys _ _ p), elem_of_app. by left.
  - destruct Fr. by split.
  - intros x. destruct (decide (rq_sector_num req ≤ x < rq_sector_num req + rq_size req)) as [Hx|Hx].
    + unfold view, write_sectors. rewrite assoc_none; cbn.
      * by destruct (zlookup_is_Some data (x - rq_sector_num req)) as [d ->]; [lia|].
      * rewrite (Hblk x Hx). rewrite fmap_app in Hni. set_solver.
    + rewrite write_sectors_out by lia. unfold view. cbn. by rewrite write_sectors_out by lia.
Qed.

Lemma wp_update_entry F c p e f Q :
  entries c !! p = Some e → Q tt (set_entries (alter f p (entries c)) c) → wp F (update_entry p f) Q c.
Proof. intros He HQ. unfold update_entry. apply wp_bind. eapply wp_load_entry; [exact He|]. done. Qed.

(** What every way of translating a write guarantees. *)
Definition write_done s kw req data (r : Z * EnergyRequest) (s' : energy TQ TC TP Sec) : Prop :=
  ∃ kr' kw', let c' := write_data r.1 (rq_sector_num r.2) data (en_cache s') in
    rq_fd r.2 = r.1 ∧ rq_size r.2 = rq_size req ∧ cinv c' kr' kw' ∧ cfree c' kr' kw' ∧
    ∀ x, view c' kw' x = write_sectors (view (en_cache s) kw) (rq_sector_num req) data x.

Section write.
Context (F : fault → Prop) (s : energy TQ TC TP Sec) (kr kw : list (Z * positive)) (req : EnergyRequest) (data : list Sec).
Context (I : cinv (en_cache s) kr kw) (Fr : cfree (en_cache s) kr kw) (Hok : request_ok req)
  (Hlen : length data = rq_size req :> Z).
Let c := en_cache s.
Let off := rq_sector_num req `mod` 32.

Lemma write_off : 0 ≤ off < 32 ∧ 0 < rq_size req ∧ off + rq_size req ≤ 32.
Proof.
  destruct Hok as (? & _ & ? & ?). pose proof (Z.mod_pos_bound (rq_sector_num req) 32 ltac:(lia)). subst off. lia.
Qed.
Lemma write_key : block_ok (req_key req).
Proof.
  destruct Hok as (? & ? & ? & ?). pose proof write_off as (? & _). subst off. unfold block_ok, req_key.
  destruct (sector_split (rq_sector_num req)) as (_ & _ & Hm). split_and!; [|lia|done].
  pose proof (Z.mod_le (rq_sector_num req) 32). lia.
Qed.

(** The block is in the read cache. *)
Lemma write_read_entry p e :
  (req_key req, p) ∈ kr → entries c !! p = Some e →
  wp F (on_cache (update_entry p (set_ce_state ENTRY_WRITE));; on_cache (cmove_to_write (req_key req));;
        mret (FD_FLASH, mk_request FD_FLASH (u64 (ce_fd_sector e + off)) (rq_size req)))
    (write_done s kw req data) s.
Proof.
  intros Hin He. destruct (cinv_nodup _ _ _ I) as (Hr & Hw & Hdis). pose proof write_off as (Hoff & Hsz & Hle).
  destruct (ci_entry _ _ _ I (req_key req) p) as (e' & He' & _ & _ & Hk & Hfd); [apply elem_of_app; by left|].
  assert (e' = e) as -> by (subst c; congruence). destruct (ci_clean _ _ _ I _ _ _ Hin He) as [Hm _].
  apply wp_bind, wp_on_cache. eapply wp_update_entry; [exact He|]. apply wp_bind, wp_on_cache.
  cbn [en_cache set_en_cache]. set (c1 := set_entries _ _).
  assert (cinv c1 kr kw) as I1 by (by apply cinv_alter). assert (cfree c1 kr kw) as Fr1 by (by apply cfree_alter).
  pose proof (assoc_in _ _ _ Hr Hin) as Ha.
  eapply wp_mono; [by apply (cmove_to_write_ok F c1 kr kw (req_key req) p)|].
  intros r c2 (-> & I2 & Hv2 & He2 & Hf2 & _). apply wp_mret.
  assert (cfree c2 (remove (req_key req) kr) ((req_key req, p) :: kw)) as Fr2.
  { eapply cfree_perm; [exact Fr1| |done..]. rewrite <- Permutation_middle.
    by rewrite <- (read_perm kr kw (req_key req) p Ha). }
  exists (remove (req_key req) kr), ((req_key req, p) :: kw). cbn [fst snd rq_fd rq_size rq_sector_num en_cache set_en_cache].
  split; [done|]. split; [done|]. subst off. rewrite fd_sector_small by done.
  apply (write_view c2 (remove (req_key req) kr) ((req_key req, p) :: kw) p (set_ce_state ENTRY_WRITE e)); try done.
  - by left.
  - rewrite He2. subst c1. cbn. rewrite lookup_alter_eq. subst c. by rewrite He.
  - intros j Hj. cbn. rewrite Hm. change (2 ^ 32 - 1) with (Z.ones 32). apply Z.ones_spec_low. lia.
  - intros x _. rewrite Hv2. unfold view. destruct (assoc (x - x `mod` 32) kw) as [q|] eqn:Hq; [|done].
    subst c1. cbn [entries set_entries flash disk]. rewrite lookup_alter_ne; [done|]. intros <-.
    apply assoc_elem in Hq. pose proof (ci_ptrs _ _ _ I) as Hnd. rewrite fmap_app in Hnd.
    apply list.NoDup_app in Hnd as (_ & Hd & _). apply (Hd p); apply list_elem_of_fmap; by eexists (_, p).
Qed.

(** The block is in the write cache. *)
Lemma write_write_entry p e :
  (req_key req, p) ∈ kw → entries c !! p = Some e →
  wp F (on_cache (update_entry p (set_ce_mask (u32 (Z.lor (ce_mask e) (BLOCK_MASK off (rq_size req))))));;
        mret (FD_FLASH, mk_request FD_FLASH (u64 (ce_fd_sector e + off)) (rq_size req)))
    (write_done s kw req data) s.
Proof.
  intros Hin He. destruct (cinv_nodup _ _ _ I) as (Hr & Hw & Hdis). pose proof write_off as (Hoff & Hsz & Hle).
  destruct (ci_entry _ _ _ I (req_key req) p) as (e' & He' & _ & Hm & Hk & Hfd); [apply elem_of_app; by right|].
  assert (e' = e) as -> by (subst c; congruence).
  apply wp_bind, wp_on_cache. eapply wp_update_entry; [exact He|]. apply wp_mret.
  exists kr, kw. cbn [fst snd rq_fd rq_size rq_sector_num en_cache set_en_cache].
  split; [done|]. split; [done|]. subst off. rewrite fd_sector_small by done. set (x0 := u32 _).
  assert (0 ≤ x0 < 2 ^ 32) as Hx0 by (by apply wrap_range).
  apply (write_view _ kr kw p (set_ce_mask x0 e)); try done.
  - apply cinv_alter; [intros e0; by split_and!|done|]. intros key e0 Hk0. exfalso.
    pose proof (ci_ptrs _ _ _ I) as Hnd. rewrite fmap_app in Hnd. apply list.NoDup_app in Hnd as (_ & Hd & _).
    apply (Hd p); apply list_elem_of_fmap; by eexists (_, p).
  - by apply cfree_alter; [intros e0; split_and!|].
  - cbn. rewrite lookup_alter_eq. subst c. by rewrite He.
  - intros j Hj. cbn. subst x0. rewrite lor_mask_bits by lia. apply orb_true_intro. right.
    apply bool_decide_eq_true. lia.
  - intros x Hx. unfold view. destruct (assoc (x - x `mod` 32) kw) as [q|] eqn:Hq; [|done].
    cbn [entries set_entries flash disk]. destruct (decide (q = p)) as [->|Hne].
    2:{ by rewrite lookup_alter_ne. }
    rewrite lookup_alter_eq. subst c. rewrite He. cbn. subst x0. pose proof (Z.mod_pos_bound x 32 ltac:(lia)).
    rewrite lor_mask_bits by lia. rewrite bool_decide_eq_false_2; [by rewrite orb_false_r|]. intros Hr0. apply Hx.
    apply assoc_elem in Hq. destruct (ci_entry _ _ _ I (x - x `mod` 32) p) as (e1 & He1 & Hhd1 & _); [apply elem_of_app; by right|].
    destruct (ci_entry _ _ _ I (req_key req) p) as (e2 & He2 & Hhd2 & _); [apply elem_of_app; by right|].
    assert (x - x `mod` 32 = req_key req) as E by congruence. unfold req_key in E. lia.
Qed.

(** The block is not cached and the disk is in standby. *)
Lemma write_new_entry block l p :
  req_key req ∉ (kr ++ kw).*1 → free_list c = block :: l → entry_malloc (entries c) = Some p →
  wp F (on_cache (mmodify (λ c, set_entries (<[p := mk_entry (req_key req) block
          (u32 (BLOCK_MASK off (rq_size req))) ENTRY_WRITE]> (entries c)) c));;
        z ← on_cache (cinsert_write (req_key req) p);
        (if bool_decide (z ≠ 0) then mfault KernelPanic else mret tt);;
        mret (FD_FLASH, mk_request FD_FLASH (u64 (block + off)) (rq_size req)))
    (write_done s kw req data) (set_en_cache (set_free_list l c) s).
Proof.
  intros Hni Hl Hm. pose proof write_off as (Hoff & Hsz & Hle). pose proof write_key as Hk.
  assert (block_ok block) as Hb by (apply Fr; fold c; rewrite Hl; by left).
  apply wp_bind, wp_on_cache, wp_mmodify. apply wp_bind, wp_on_cache. unfold cinsert_write, on_write. apply wp_mzoom.
  eapply wp_mono; [apply (lm_insert_law F _ kw); [apply I|]|].
  { pose proof (ci_bound _ _ _ I) as Hbd. fold c in Hbd. rewrite Hl in Hbd. simpl in Hbd. lia. }
  intros z t [-> HR]. apply wp_bind, wp_mret, wp_mret.
  exists kr, ((req_key req, p) :: kw). cbn [fst snd rq_fd rq_size rq_sector_num en_cache set_en_cache].
  split; [done|]. split; [done|]. subst off. rewrite fd_sector_small by done. set (x0 := u32 (BLOCK_MASK _ _)).
  assert (0 ≤ x0 < 2 ^ 32) as Hx0 by apply block_mask_range.
  destruct (new_write_entry c kr kw (req_key req) block p l x0 t) as [I1 Fr1]; try done.
  { by apply entry_malloc_fresh. }
  apply (write_view _ kr ((req_key req, p) :: kw) p (mk_entry (req_key req) block x0 ENTRY_WRITE)); try done.
  - by left.
  - cbn. by rewrite lookup_insert_eq.
  - intros j Hj. cbn. subst x0. rewrite block_mask_bits by lia. apply bool_decide_eq_true. lia.
  - intros x Hx. unfold view. cbn [assoc]. case_bool_decide as Hxk.
    + cbn. rewrite lookup_insert_eq. cbn. rewrite (assoc_none (x - x `mod` 32) kw).
      2:{ rewrite <- Hxk. rewrite fmap_app in Hni. set_solver. }
      pose proof (Z.mod_pos_bound x 32 ltac:(lia)). subst x0. rewrite block_mask_bits by lia.
      rewrite bool_decide_eq_false_2; [done|]. intros Hr. apply Hx. unfold req_key in Hxk. lia.
    + destruct (assoc (x - x `mod` 32) kw) as [q|] eqn:Hq; [|done]. cbn. rewrite lookup_insert_ne; [done|].
      intros <-. apply assoc_elem in Hq. destruct (ci_entry _ _ _ I (x - x `mod` 32) p) as (e1 & He1 & _).
      { apply elem_of_app. by right. }
      apply entry_malloc_fresh in Hm. subst c. congruence.
Qed.

Lemma energy_write_ok :
  (disk_state s = DISK_STANDBY → free_list c ≠ [] ∧ is_Some (entry_malloc (entries c))) →
  wp F (energy_writetranslation req) (write_done s kw req data) s.
Proof.
  intros Hres. destruct (cinv_nodup _ _ _ I) as (Hr & Hw & Hdis).
  unfold energy_writetranslation. rewrite object_key. change (rq_sector_num req - _) with (req_key req).
  unfold OBJECT_SIZE. fold off. apply wp_bind, wp_on_cache. eapply wp_clookup_read; [exact I|].
  destruct (assoc (req_key req) kr) as [p|] eqn:Ha.
  { apply assoc_elem in Ha. destruct (ci_entry _ _ _ I (req_key req) p) as (e & He & _); [apply elem_of_app; by left|].
    rewrite set_en_cache_id. apply wp_bind, wp_on_cache. eapply wp_load_entry; [exact He|]. rewrite set_en_cache_id.
    by apply write_read_entry. }
  rewrite set_en_cache_id. apply wp_bind, wp_on_cache. eapply wp_clookup_write; [exact I|].
  destruct (assoc (req_key req) kw) as [p|] eqn:Hb.
  { apply assoc_elem in Hb. destruct (ci_entry _ _ _ I (req_key req) p) as (e & He & _); [apply elem_of_app; by right|].
    rewrite set_en_cache_id. apply wp_bind, wp_on_cache. eapply wp_load_entry; [exact He|]. rewrite set_en_cache_id.
    by apply write_write_entry. }
  apply assoc_None in Ha, Hb. assert (req_key req ∉ (kr ++ kw).*1) as Hni by (rewrite fmap_app; set_solver).
  rewrite set_en_cache_id. apply wp_bind, wp_mget. destruct (disk_state s) eqn:Hds.
  - apply wp_mret. exists kr, kw. cbn [fst snd rq_fd rq_size rq_sector_num]. split; [done|]. split; [done|].
    by apply write_disk_view.
  - destruct (Hres eq_refl) as [Hne [p Hp]]. apply wp_bind, wp_on_cache, wp_pop_free; [done|].
    intros block l Hl. apply wp_bind, wp_mgets. cbn [en_cache set_en_cache entries set_free_list].
    fold c. rewrite Hp. apply wp_bind, wp_mof_option; [done|]. intros ? [= <-]. by apply write_new_entry.
Qed.
End write.
End theory.

(** ** Loading and writing back *)

Section loader.
Context {TQ TC TP Sec : Type}.
Context {LQ : LinkedMap TQ unit} {LC : LinkedMap TC positive} {LP : LinkedMap TP Z} {EA : EntryAlloc}.
Implicit Types (s : energy TQ TC TP Sec) (v : Z → Sec).

(** The prefetch table leads to objects only. *)
Definition prefetch_ok s : Prop := ∃ k, lm_repr (prefetch_cache s) k ∧ ∀ key next, (key, next) ∈ k → block_ok next.

(** What loading leaves alone, and what it keeps. *)
Definition load_inv v s s' : Prop :=
  coherent v (en_cache s') ∧ prefetch_cache s' = prefetch_cache s ∧ en_lru s' = en_lru s ∧
  disk_state s' = disk_state s ∧ io_max s' = io_max s.

(** Looking a block up and fetching it if it is not there. *)
Lemma load_block {A} F v s key (K1 : M (energy TQ TC TP Sec) A) K2 Q :
  coherent v (en_cache s) → block_ok key →
  wp F K1 Q s → (∀ z c', coherent v c' → wp F (K2 z) Q (set_en_cache c' s)) →
  wp F (e ← on_cache (clookup_any key);
        match e with Some _ => K1 | None => z ← on_cache (cfetch_read key); K2 z end) Q s.
Proof.
  intros (Hio & kr & kw & I & Fr & Hv) Hk H1 H2. apply wp_bind, wp_on_cache.
  eapply wp_mono; [by eapply clookup_any_ok|]. intros r c' [-> ->]. rewrite set_en_cache_id.
  destruct (assoc key (kr ++ kw)) eqn:Ha; [done|]. apply assoc_None in Ha. apply wp_bind, wp_on_cache.
  eapply wp_mono; [by apply (cfetch_read_ok F _ kr kw)|].
  intros r c' (Hio' & Hv' & [(-> & p & I' & Fr')|(-> & _ & I' & Fr')]); apply H2; (split; [done|]);
    do 2 eexists; split_and!; try done; intros x; by rewrite Hv'.
Qed.

Lemma prefetch_loop_ok F v n i cur s :
  coherent v (en_cache s) → prefetch_ok s →
  wp F (prefetch_loop n i cur) (λ r s', i ≤ r ≤ i + n ∧ load_inv v s s') s.
Proof.
  revert i cur s. induction n as [|n IH]; intros i cur s Hc Hp; cbn [prefetch_loop].
  { apply wp_mret. split; [lia|done]. }
  destruct Hp as (k & HR & Hk). apply wp_bind. unfold on_prefetch. apply wp_mzoom.
  eapply wp_mono; [by apply lm_lookup_law|]. intros r t [-> Hr].
  assert (set_prefetch (prefetch_cache s) s = s) as -> by by destruct s.
  destruct r as [next|]; [|apply wp_mret; split; [lia|done]].
  assert (prefetch_ok s) as Hp by (by exists k). eapply (load_block F v).
  - done.
  - by eapply Hk.
  - eapply wp_mono; [by apply IH|]. intros r s' [Hb Hinv]. split; [lia|done].
  - intros z c' Hc'. case_bool_decide; [apply wp_mret; split; [lia|done]|].
    eapply wp_mono; [by apply IH|]. intros r s' [Hb Hinv]. split; [lia|done].
Qed.

(** The state of a load that has the keys [rest] of Am before it. *)
Definition loading v s (rest : list (Z * unit)) : Prop :=
  coherent v (en_cache s) ∧ prefetch_ok s ∧
  (∃ k, lm_iter (am (en_lru s)) k rest) ∧ ∀ kv, kv ∈ rest → block_ok kv.1.

Lemma load_loop_ok F v fuel max tr s rest :
  loading v s rest → (length rest < fuel)%nat → 0 ≤ tr → tr < max + 11 → max + 22 < 2 ^ 32 →
  wp F (load_loop fuel max tr) (λ r s', 0 ≤ r < max + 11 ∧ coherent v (en_cache s') ∧
    a1in (en_lru s') = a1in (en_lru s) ∧ a1out (en_lru s') = a1out (en_lru s) ∧
    disk_state s' = disk_state s ∧ io_max s' = io_max s) s.
Proof.
  revert tr s rest. induction fuel as [|fuel IH]; intros tr s rest (Hc & Hp & (k & Hit) & Hrest) Hf H0 H1 H2; [lia|].
  cbn [load_loop]. apply wp_bind. unfold on_lru, on_am. do 2 apply wp_mzoom.
  eapply wp_mono; [by apply lm_iterator_next_law|]. intros r t Hr. destruct rest as [|[key []] rest].
  { destruct Hr as [-> _]. apply wp_mret. split; [lia|done]. }
  destruct Hr as [-> Hit']. case_bool_decide as Hlt; [|apply wp_mret; split; [lia|done]].
  assert (∀ c', coherent v c' → loading v (set_en_cache c' (set_en_lru (set_am t (en_lru s)) s)) rest) as Hld.
  { intros c' Hc'. split_and!; [done|done|by exists k|]. intros kv Hkv. apply Hrest. by right. }
  simpl in Hf. eapply (load_block F v).
  - done.
  - apply (Hrest (key, tt)). by left.
  - eapply wp_mono; [apply (IH tr _ rest); [apply (Hld _ Hc)|lia..]|]. done.
  - intros z c' Hc'. case_bool_decide; [apply wp_mret; split; [lia|done]|]. apply wp_bind.
    unfold prefetcher_load_entries. eapply wp_mono; [by apply (prefetch_loop_ok F v)|].
    intros p s' (Hpb & Hc'' & Hpf & Hl & Hds & Hio). change (Z.to_nat 10) with 10%nat in Hpb.
    rewrite (wrap_small 32 (tr + 1)), (wrap_small 32 (tr + 1 + p)) by lia.
    eapply wp_mono; [apply (IH _ s' rest); [|lia..]|].
    + destruct (Hld c' Hc') as (_ & (kp & HRp & Hkp) & Hk' & Hr'). split_and!; [done| | |done].
      * exists kp. by rewrite Hpf.
      * by rewrite Hl.
    + cbn. intros r s2 (? & ? & Ha1 & Ha2 & Hb1 & Hb2). rewrite Ha1, Ha2, Hb1, Hb2, Hl, Hds, Hio. done.
Qed.

(** The write-back loop visits the write entries in order and flushes them. *)
Definition flushing v s (rest : list (Z * positive)) : Prop :=
  io_good (en_cache s) ∧ NoDup rest.*1 ∧ ∃ kr kw, cinv (en_cache s) kr kw ∧
    lm_iter (write_cache (en_cache s)) kw rest ∧ (∀ x, x ∈ kw.*1 ↔ x ∈ rest.*1) ∧ ∀ x, view (en_cache s) kw x = v x.
(** Consistent but for the free list, with the contents [v]. *)
Definition consistent v (c : cache TC Sec) : Prop :=
  io_good c ∧ ∃ kr kw, cinv c kr kw ∧ ∀ x, view c kw x = v x.

Lemma flush_loop_ok F v fuel max tr s rest :
  flushing v s rest → (length rest < fuel)%nat → 0 ≤ tr → max < 2 ^ 32 →
  wp F (flush_loop fuel max tr) (λ r s', consistent v (en_cache s') ∧
    (tr + length rest ≤ max → ∀ x, disk (en_cache s') x = v x)) s.
Proof.
  revert tr s rest. induction fuel as [|fuel IH]; intros tr s rest HF Hf H0 H1; [lia|].
  destruct HF as (Hio & Hnd & kr & kw & I & Hit & Hkeys & Hv).
  cbn [flush_loop]. apply wp_bind, wp_on_cache. unfold citerator_next_write, on_write. apply wp_mzoom.
  eapply wp_mono; [by apply lm_iterator_next_law|]. intros r t Hr.
  assert (∀ rest', lm_iter t kw rest' → cinv (set_write_cache t (en_cache s)) kr kw) as I'.
  { intros rest' Hit'. split; try apply I. by eapply lm_iter_repr. }
  destruct rest as [|[key p] rest].
  { destruct Hr as [-> Hit']. apply wp_mret. split; [split; [done|]; exists kr, kw; split; [by eapply I'|done]|].
    intros _ x. rewrite <- Hv. unfold view. rewrite assoc_none; [done|]. rewrite Hkeys. set_solver. }
  destruct Hr as [-> Hit']. specialize (I' _ Hit'). simpl in Hf. cbn [length]. case_bool_decide as Hlt.
  2:{ apply wp_mret. split; [|lia]. split; [done|]. by exists kr, kw. }
  apply list.NoDup_cons in Hnd as [Hkr Hnd]. destruct (cinv_nodup _ _ _ I) as (_ & Hw & _).
  assert (key ∈ kw.*1) as Hin by (apply Hkeys; by left).
  apply wp_bind, wp_on_cache. eapply wp_mono.
  { apply (cflush_write_gen F _ kr kw key (λ t', lm_iter t' (remove key kw) rest)); [done..|].
    eapply wp_mono; [by apply lm_delete_iter_law|]. intros r t' [-> Hit2]. split_and!; [done| |done].
    by eapply lm_iter_repr. }
  intros r c' (-> & Hio' & I2 & Hv2 & _ & Hit2). rewrite wrap_small by lia.
  eapply wp_mono; [apply (IH (tr + 1) _ rest); [|lia..]|].
  - split_and!; [done..|]. exists kr, (remove key kw). split_and!; [done..| |].
    + intros x. destruct (remove_keys kw key Hw) as [_ Hrk]. rewrite Hrk, Hkeys. cbn. rewrite elem_of_cons.
      split; [naive_solver|]. intros Hx. split; [by right|]. intros ->. done.
    + intros x. rewrite Hv2. apply Hv.
  - intros r s' [Hcons Hall]. split; [done|]. intros Hle. apply Hall. lia.
Qed.

(** Dropping the oldest read entry. *)
Lemma cremove_last_read_ok F v c :
  consistent v c → 0 < lm_count (read_cache c) → wp F cremove_last_read (λ _ c', consistent v c') c.
Proof.
  intros (Hio & kr & kw & I & Hv) Hn. unfold cremove_last_read, on_read. apply wp_mzoom.
  rewrite (lm_count_law _ _ (ci_read _ _ _ I)) in Hn.
  destruct kr as [|[key p] k0 _] using rev_ind; [simpl in Hn; lia|].
  eapply wp_mono; [apply lm_delete_last_law, I|]. intros r t (-> & k1 & p' & k2 & Heq & HR). split; [done|].
  exists (k1 ++ k2), kw. split; [|done]. rewrite Heq in I.
  assert ((k1 ++ (key, p') :: k2) ++ kw ≡ₚ (key, p') :: (k1 ++ k2) ++ kw) as Hp by solve_Permutation.
  destruct (cinv_rest _ _ _ _ _ _ I Hp) as (Hn1 & Hn2 & Hrest).
  split; try done; try apply I.
  - intros key' q Hk. by apply I, Hrest.
  - intros key' q e Hk. apply I. set_solver.
  - pose proof (ci_bound _ _ _ I) as Hb. rewrite !length_app in Hb |- *. simpl in *. lia.
Qed.

Lemma cache_loader_ok F v s k :
  coherent v (en_cache s) → prefetch_ok s → lm_repr (am (en_lru s)) k → (∀ kv, kv ∈ k → block_ok kv.1) →
  0 ≤ io_max s → wp F energy_cache_loader (λ _ s', consistent v (en_cache s')) s.
Proof.
  intros Hc Hp HR Hk Hio0. unfold energy_cache_loader. apply wp_bind, wp_mget. cbv zeta.
  set (max := u32 (io_max s * load_at_once) `div` 100).
  assert (0 ≤ max < 2 ^ 26) as Hmax.
  { subst max. pose proof (wrap_range 32 (io_max s * load_at_once) ltac:(lia)). split; [apply Z.div_pos; lia|].
    apply Z.div_lt_upper_bound; lia. }
  apply wp_bind. unfold lru_load_cache. cbv zeta. apply wp_bind. unfold on_lru, on_am. do 2 apply wp_mzoom.
  eapply wp_mono; [by apply lm_iterator_start_law|]. intros u t Hit. cbv beta in Hit. apply wp_bind, wp_mget.
  set (s1 := set_en_lru (set_am t (en_lru s)) s). set (max' := if bool_decide _ then _ else _).
  assert (0 ≤ max' < 2 ^ 26) as Hmax' by (subst max'; case_bool_decide; unfold min_transitions; lia).
  assert (loading v s1 k) as Hld by (split_and!; [done|done|by exists k|done]).
  eapply wp_mono; [apply (load_loop_ok F v _ max' 0 s1 k); [done| |lia..]|].
  { cbn. rewrite (lm_count_law _ _ (lm_iter_repr _ _ _ Hit)). lia. }
  intros tr s2 (Htr & Hc2 & _). apply wp_bind.
  assert (∀ s', consistent v (en_cache s') →
    wp F (n ← on_cache csize_read;
          if bool_decide (n > lru_cache_size) then on_cache cremove_last_read;; mret tt else mret tt)
      (λ _ s', consistent v (en_cache s')) s') as Htail.
  { intros s' Hs'. apply wp_bind, wp_on_cache, wp_mgets. rewrite set_en_cache_id. case_bool_decide as Hgt; [|by apply wp_mret].
    apply wp_bind, wp_on_cache. eapply wp_mono; [apply (cremove_last_read_ok F v); [done|unfold lru_cache_size in Hgt; lia]|].
    intros r c' Hc'. by apply wp_mret. }
  destruct Hc2 as (Hio2 & kr & kw & I2 & Fr2 & Hv2). case_bool_decide.
  - apply wp_bind, wp_on_cache. unfold citerator_start_write, on_write. apply wp_mzoom.
    eapply wp_mono; [apply lm_iterator_start_law, I2|]. intros u' t' Hit'. cbv beta in Hit'. apply wp_bind, wp_mget. apply wp_bind.
    destruct (cinv_nodup _ _ _ I2) as (_ & Hw & _).
    eapply wp_mono; [apply (flush_loop_ok F v _ max tr _ kw); [| |lia..]|].
    + split_and!; [done..|]. exists kr, kw. split_and!; [|done..]. split; try apply I2. by eapply lm_iter_repr.
    + cbn. rewrite (lm_count_law _ _ (lm_iter_repr _ _ _ Hit')). lia.
    + intros r s3 [Hcons _]. apply wp_mret. by apply Htail.
  - apply wp_mret. apply Htail. split; [done|]. by exists kr, kw.
Qed.
End loader.

(** ** Claims *)

Section claims.
Context {TQ TC TP Sec : Type}.
Context {LQ : LinkedMap TQ unit} {LC : LinkedMap TC positive} {LP : LinkedMap TP Z} {EA : EntryAlloc}.

(** A read within one object that the cache covers is translated to flash
    sectors with the contents of the requested disk sectors, and changes the cache
    in nothing; a read of which the cache has no sector needs the disk and ends in
    the unimplemented [disk_activity]. *)
Theorem energy_read_translation (s : energy TQ TC TP Sec) (kr kw : list (Z * positive)) (req : EnergyRequest) :
  lru_bounded (en_lru s) → cinv (en_cache s) kr kw → request_ok req →
  (cached (en_cache s) kr kw req → wp no_fault (energy_readtranslation req) (λ r s',
     r.1 = FD_FLASH ∧ rq_fd r.2 = FD_FLASH ∧ rq_size r.2 = rq_size req ∧
     en_cache s' = en_cache s ∧ lru_bounded (en_lru s') ∧
     ∀ j, 0 ≤ j < rq_size req →
       flash (en_cache s) (rq_sector_num r.2 + j) = view (en_cache s) kw (rq_sector_num req + j)) s) ∧
  (uncached (en_cache s) kr kw req → energy_readtranslation req s = Err KernelBug).
Proof.
  intros Hl I Hok. split; [by apply energy_read_ok|by apply (energy_read_miss s kr kw)].
Qed.

(** C14. For a request that lies within one object of 32 sectors ([request_ok]; the code
    does not check this): when the caller writes its data where [energy_writetranslation]
    sends it, the contents of the disk as seen through the cache are the old ones with
    the data at the requested sectors, and the cache is consistent, for each
    branch: a read entry that becomes a write entry, a write entry whose mask
    grows, a new entry in standby, and an uncached block with an active disk. In standby
    the cache has a free block and there is memory for the entry (otherwise the code
    stops in [BUG] or a panic). *)
Theorem energy_write_visible (s : energy TQ TC TP Sec) (kr kw : list (Z * positive)) (req : EnergyRequest)
    (data : list Sec) :
  cinv (en_cache s) kr kw → cfree (en_cache s) kr kw → request_ok req → length data = rq_size req :> Z →
  (disk_state s = DISK_STANDBY → free_list (en_cache s) ≠ [] ∧ is_Some (entry_malloc (entries (en_cache s)))) →
  wp no_fault (energy_writetranslation req) (λ r s', ∃ kr' kw',
    let c' := write_data r.1 (rq_sector_num r.2) data (en_cache s') in
    rq_fd r.2 = r.1 ∧ rq_size r.2 = rq_size req ∧ cinv c' kr' kw' ∧ cfree c' kr' kw' ∧
    ∀ x, view c' kw' x = write_sectors (view (en_cache s) kw) (rq_sector_num req) data x) s.
Proof. apply energy_write_ok. Qed.

(** The cache loader completes, whatever Am and the prefetch table contain
    in objects: it loads blocks into free flash blocks, writes entries back and
    drops a read entry, and leaves every sector's contents as seen through the
    cache unchanged. *)
Theorem energy_cache_loader_safe (s : energy TQ TC TP Sec) (v : Z → Sec) (k : list (Z * unit)) :
  coherent v (en_cache s) → prefetch_ok s → lm_repr (am (en_lru s)) k → (∀ kv, kv ∈ k → block_ok kv.1) →
  0 ≤ io_max s → ∃ s', energy_cache_loader s = Ok tt s' ∧ consistent v (en_cache s').
Proof.
  intros. destruct (wp_no_fault _ _ _ (cache_loader_ok no_fault v s k ltac:(done) ltac:(done) ltac:(done)
    ltac:(done) ltac:(done))) as ([] & s' & ? & ?). eauto.
Qed.
End claims.

(** ** Concrete runs *)

Definition no_prefetch : LHMap Z := mk_lhmap 0 7 None None None (replicate 7 None) ∅.
Lemma no_prefetch_repr : lm_repr no_prefetch [].
Proof. destruct (create_repr (D := Z) 7 ltac:(lia)) as (m & [= <-] & HR). exact HR. Qed.

Abbreviation zenergy := (energy (LHMap unit) (LHMap positive) (LHMap Z) Z).
(** The disk is in standby and block 64 is in the write cache. *)
Definition energy0 : zenergy := mk_energy lru0 zcache1 no_prefetch DISK_STANDBY 2000.

Lemma zcache1_free : free_list (en_cache energy0) = [64].
Proof. vm_compute. reflexivity. Qed.
Lemma any_entry_some h : is_Some (entry_malloc (EntryAlloc := any_entry) h).
Proof. eexists. reflexivity. Qed.
Lemma lru0_bounded : lru_bounded lru0.
Proof.
  exists 0, 0, 0. split; [split; [done|]|lia]. split_and!; exists []; (split; [exact empty_queue_keyed|done]).
Qed.

(** The value a run returns. *)
Definition value {S A} (r : res S A) : option A := match r with Ok a _ => Some a | Err _ => None end.

Lemma energy_read_translation_witness :
  ∃ s', energy_readtranslation (mk_request 0 66 3) energy0 = Ok (FD_FLASH, mk_request FD_FLASH 34 3) s' ∧
    flash (en_cache energy0) 34 = 1002.
Proof.
  destruct zcache1_inv as (kr & kw & I & _ & _ & Hv1 & _ & _ & Hin).
  destruct (energy_read_translation energy0 kr kw (mk_request 0 66 3) lru0_bounded I) as [H _].
  { unfold request_ok; cbn [rq_sector_num rq_size]; change (66 `mod` 32) with 2; lia. }
  apply wp_no_fault in H as (r & s' & Hrun & Hr1 & Hr2 & Hr3 & _ & _ & Hfl).
  - exists s'. assert (r = (FD_FLASH, mk_request FD_FLASH 34 3)) as ->.
    { vm_compute in Hrun. injection Hrun as <- _. reflexivity. }
    split; [exact Hrun|]. etransitivity; [exact (Hfl 0 ltac:(cbn; lia))|exact Hv1].
  - right. exists 2%positive, (mk_entry 64 32 (2 ^ 32 - 1) ENTRY_READ). split; [exact Hin|]. split; [reflexivity|].
    intros j Hj. cbn in Hj |- *. change (2 ^ 32 - 1) with (Z.ones 32). apply Z.ones_spec_low.
    change (66 `mod` 32) with 2. lia.
Defined.

Lemma energy_write_visible_witness :
  ∃ r s' kr' kw', energy_writetranslation (mk_request 0 130 2) energy0 = Ok r s' ∧
    view (write_data r.1 (rq_sector_num r.2) [77; 78] (en_cache s')) kw' 131 = 78 ∧
    cinv (write_data r.1 (rq_sector_num r.2) [77; 78] (en_cache s')) kr' kw'.
Proof.
  destruct zcache1_inv as (kr & kw & I & _ & _ & _ & _ & Fr & _).
  pose proof (energy_write_visible energy0 kr kw (mk_request 0 130 2) [77; 78] I Fr) as H.
  apply wp_no_fault in H as (r & s' & Hrun & kr' & kw' & _ & _ & I' & _ & Hv).
  - exists r, s', kr', kw'. split; [exact Hrun|]. split; [|exact I']. rewrite Hv. reflexivity.
  - unfold request_ok; cbn [rq_sector_num rq_size]; change (130 `mod` 32) with 2; lia.
  - reflexivity.
  - intros _. split; [rewrite zcache1_free; discriminate|apply any_entry_some].
Defined.

Lemma energy_cache_loader_safe_witness :
  ∃ c s', (cinit_caches (inr empty_map) (inr empty_map) 3;; run_cops ops0) zcache0 = Ok tt c ∧
    energy_cache_loader (mk_energy (TQ := LHMap unit) (TP := LHMap Z) lru0 c no_prefetch DISK_ACTIVE 2000) = Ok tt s' ∧
    consistent (λ x, x) (en_cache s').
Proof.
  destruct cache_coherent_run_witness as (c & Hrun & Hc). exists c.
  destruct (energy_cache_loader_safe (mk_energy (TQ := LHMap unit) (TP := LHMap Z) lru0 c no_prefetch DISK_ACTIVE 2000) (λ x, x) [])
    as (s' & Hl & Hcons).
  - exact Hc.
  - exists []. split; [exact no_prefetch_repr|]. intros key next Hin. destruct (proj1 (elem_of_nil _) Hin).
  - exact empty_queue_keyed.
  - intros kv Hin. destruct (proj1 (elem_of_nil _) Hin).
  - cbn. lia.
  - exists s'. split; [exact Hrun|]. split; [exact Hl|exact Hcons].
Defined.

(** The state after a one-sector write to a new block. *)
Definition energy1 : zenergy :=
  match energy_writetranslation (mk_request 0 128 1) energy0 with Ok _ s => s | Err _ => energy0 end.

(** The boundary check of reads accepts a request of which the write entry
    has only a part: after a one-sector write in standby, a read of that sector
    and the next is sent to the flash, where the second was never stored. *)
Theorem energy_read_partial_overlap :
  value (energy_writetranslation (mk_request 0 128 1) energy0) = Some (FD_FLASH, mk_request FD_FLASH 64 1) ∧
  value (energy_readtranslation (mk_request 0 128 2) energy1) = Some (FD_FLASH, mk_request FD_FLASH 64 2) ∧
  flash (en_cache energy1) 65 = -1 ∧ disk (en_cache energy1) 129 = 129.
Proof. split_and!; vm_compute; reflexivity. Qed.
