(* ===== verification/LanAddress.v ===== *)
(** * LAN addresses

    Models l4ka-interfaces/lanaddress.h, the address generator service of
    l4ka-driver-reuse/kernel/lanaddress/lanaddress.c and its client call in
    kernel/net/net.c. An address is six bytes; the last two, a little-endian
    halfword, are the handle under which the network server knows a client. *)

From Stdlib Require Import ZArith Lia.
From stdpp Require Import base list numbers.
From S2P Require Import Prelude.

(** ** lanaddress.h *)

Definition LANADDRESS_LEN : nat := 6.
Abbreviation lanaddress_t := (list Z).
Definition byte_ok (b : Z) : Prop := 0 ≤ b < 256.
Definition lanaddr_ok (a : lanaddress_t) : Prop := length a = LANADDRESS_LEN ∧ Forall byte_ok a.
#[global] Instance lanaddr_ok_dec a : Decision (lanaddr_ok a).
Proof. unfold lanaddr_ok, byte_ok. apply _. Defined.

(** The views of the union; the machine is little-endian. *)
Definition raw_byte (a : lanaddress_t) (i : nat) : Z := nth i a 0.
Definition halfword (a : lanaddress_t) (i : nat) : Z := raw_byte a (2 * i) + 256 * raw_byte a (2 * i + 1).
Definition align2_lsb (a : lanaddress_t) : Z := halfword a 0.
Definition align2_msb (a : lanaddress_t) : Z := halfword a 1 + 65536 * halfword a 2.
Definition align4_lsb (a : lanaddress_t) : Z := halfword a 0 + 65536 * halfword a 1.
Definition align4_msb (a : lanaddress_t) : Z := halfword a 2.
Definition status_group (a : lanaddress_t) : bool := Z.testbit (raw_byte a 0) 0.
Definition status_local (a : lanaddress_t) : bool := Z.testbit (raw_byte a 0) 1.
(** Store of a halfword, and of the two status bits. *)
Definition set_halfword (i : nat) (x : Z) (a : lanaddress_t) : lanaddress_t :=
  <[(2 * i)%nat := x `mod` 256]> (<[(2 * i + 1)%nat := (x `div` 256) `mod` 256]> a).
Definition set_status_local (a : lanaddress_t) : lanaddress_t := <[0%nat := Z.lor (raw_byte a 0) 2]> a.
Definition clear_status_group (a : lanaddress_t) : lanaddress_t := <[0%nat := Z.ldiff (raw_byte a 0) 1]> a.
(** Store of both parts of [align4]. *)
Definition set_align4 (lsb msb : Z) (a : lanaddress_t) : lanaddress_t :=
  set_halfword 2 (u16 msb) (set_halfword 1 (u16 (lsb `div` 65536)) (set_halfword 0 (u16 lsb) a)).

Definition lanaddress_set_handle (a : lanaddress_t) (handle : Z) : lanaddress_t :=
  set_halfword (LANADDRESS_LEN / 2 - 1) handle a.
Definition lanaddress_get_handle (a : lanaddress_t) : Z := halfword a (LANADDRESS_LEN / 2 - 1).
Definition lanaddress_is_dst_broadcast (a : lanaddress_t) : bool :=
  bool_decide (align2_lsb a = 0xffff) && bool_decide (align2_msb a = 0xffffffff).

(** ** The address generator *)

Record generator : Type := mk_gen {
  lanaddress_base : lanaddress_t;
  lanaddress_handle : Z;
  lanaddress_valid : bool
}.

(** A network device as far as the module looks at it. *)
Record net_device : Type := mk_dev { dev_is_ether : bool; dev_addr_len : Z; dev_addr : lanaddress_t }.

(** [landaddress_generate_base_address] over the kernel's device list. *)
Fixpoint landaddress_generate_base_address (devs : list net_device) (g : generator) : generator :=
  match devs with
  | [] => g
  | d :: devs =>
      if dev_is_ether d && bool_decide (dev_addr_len d = 6) then
        let a := (λ i : nat, raw_byte (dev_addr d) (LANADDRESS_LEN - 1 - i)) <$> seq 0 LANADDRESS_LEN in
        mk_gen (clear_status_group (set_status_local (lanaddress_set_handle a 0))) (lanaddress_handle g) true
      else landaddress_generate_base_address devs g
  end.

(** The address the caller's variable holds afterwards, unless an exception is
    raised. *)
Definition ILanAddress_generate_lan_address_implementation (lanaddress : lanaddress_t) (g : generator)
    : option lanaddress_t * generator :=
  if lanaddress_valid g then
    let base := lanaddress_set_handle (lanaddress_base g) (lanaddress_handle g) in
    let handle := u16 (lanaddress_handle g + 1) in
    (Some (set_align4 (align4_lsb base) (align4_msb base) lanaddress),
     mk_gen base handle (negb (bool_decide (handle = 0))))
  else (None, g).

(** [L4VMnet_allocate_lan_address] (net.c): the locator and the IPC may fail; a
    user exception is [-ENODEV]. *)
Inductive ipc_outcome : Type := IpcDone | IpcFailed.
Definition ENODEV : Z := 19.
Definition EIO : Z := 5.
Definition L4VMnet_allocate_lan_address (locate : Z) (ipc : ipc_outcome) (reply_addr : lanaddress_t) (g : generator)
    : (Z * option lanaddress_t) * generator :=
  if bool_decide (locate ≠ 0) then ((locate, None), g) else
  match ipc with
  | IpcFailed => ((- EIO, None), g)
  | IpcDone =>
      match ILanAddress_generate_lan_address_implementation reply_addr g with
      | (Some a, g) => ((0, Some (take LANADDRESS_LEN a)), g)
      | (None, g) => ((- ENODEV, None), g)
      end
  end.

(** Calls in sequence. *)
Fixpoint generate_n (n : nat) (reply_addr : lanaddress_t) (g : generator) : list (option lanaddress_t) * generator :=
  match n with
  | O => ([], g)
  | S n =>
      let '(r, g) := ILanAddress_generate_lan_address_implementation reply_addr g in
      let '(rs, g) := generate_n n reply_addr g in (r :: rs, g)
  end.

(** ** Round trips of the views *)

(** An address by its bytes. *)
Lemma lanaddr_bytes a :
  lanaddr_ok a → ∃ b0 b1 b2 b3 b4 b5, a = [b0; b1; b2; b3; b4; b5] ∧
    byte_ok b0 ∧ byte_ok b1 ∧ byte_ok b2 ∧ byte_ok b3 ∧ byte_ok b4 ∧ byte_ok b5.
Proof.
  unfold lanaddr_ok, LANADDRESS_LEN. intros [Hlen Hall].
  do 6 (destruct a as [|? a]; [done|]). destruct a; [|done].
  rewrite !list.Forall_cons in Hall. naive_solver.
Qed.
Lemma mod_byte x : byte_ok (x `mod` 256).
Proof. apply Z.mod_pos_bound. lia. Qed.
Lemma halfword_split x : 0 ≤ x < 65536 → x `mod` 256 + 256 * ((x `div` 256) `mod` 256) = x.
Proof.
  intros Hx. rewrite (Z.mod_small (x `div` 256)); [pose proof (Z.div_mod x 256); lia|].
  split; [apply Z.div_pos; lia|apply Z.div_lt_upper_bound; lia].
Qed.
Lemma halfword_join b0 b1 :
  byte_ok b0 → byte_ok b1 →
  (b0 + 256 * b1) `mod` 256 = b0 ∧ ((b0 + 256 * b1) `div` 256) `mod` 256 = b1 ∧ 0 ≤ b0 + 256 * b1 < 65536.
Proof.
  unfold byte_ok. intros H0 H1. replace (b0 + 256 * b1) with (b0 + b1 * 256) by lia.
  rewrite Z.mod_add, Z.div_add, (Z.div_small b0), !Z.mod_small by lia. lia.
Qed.

Lemma set_handle_ok a h : lanaddr_ok a → lanaddr_ok (lanaddress_set_handle a h).
Proof.
  intros (b0 & b1 & b2 & b3 & b4 & b5 & -> & ?)%lanaddr_bytes. split; [done|].
  pose proof (mod_byte h). pose proof (mod_byte (h `div` 256)). cbn. rewrite !list.Forall_cons. naive_solver.
Qed.
Lemma get_set_handle a h : lanaddr_ok a → 0 ≤ h < 65536 → lanaddress_get_handle (lanaddress_set_handle a h) = h.
Proof.
  intros (b0 & b1 & b2 & b3 & b4 & b5 & -> & _)%lanaddr_bytes Hh. by apply halfword_split.
Qed.
Lemma set_get_handle a : lanaddr_ok a → lanaddress_set_handle a (lanaddress_get_handle a) = a.
Proof.
  intros (b0 & b1 & b2 & b3 & b4 & b5 & -> & _ & _ & _ & _ & H4 & H5)%lanaddr_bytes.
  change (lanaddress_get_handle _) with (b4 + 256 * b5).
  change (lanaddress_set_handle _ ?x) with [b0; b1; b2; b3; x `mod` 256; (x `div` 256) `mod` 256].
  destruct (halfword_join b4 b5 H4 H5) as (-> & -> & _). done.
Qed.
Lemma set_set_handle a h h' : lanaddr_ok a → lanaddress_set_handle (lanaddress_set_handle a h) h' = lanaddress_set_handle a h'.
Proof. by intros (b0 & b1 & b2 & b3 & b4 & b5 & -> & _)%lanaddr_bytes. Qed.

(** Copying through [align4] copies the address. *)
Lemma copy_align4 a b : lanaddr_ok a → length b = LANADDRESS_LEN → set_align4 (align4_lsb a) (align4_msb a) b = a.
Proof.
  intros (b0 & b1 & b2 & b3 & b4 & b5 & -> & H0 & H1 & H2 & H3 & H4 & H5)%lanaddr_bytes Hb.
  do 6 (destruct b as [|? b]; [done|]). destruct b; [|done].
  destruct (halfword_join b0 b1 H0 H1) as (E0 & E1 & R0). destruct (halfword_join b2 b3 H2 H3) as (E2 & E3 & R1).
  destruct (halfword_join b4 b5 H4 H5) as (E4 & E5 & R2).
  set (x0 := b0 + 256 * b1) in *. set (x1 := b2 + 256 * b3) in *. set (x2 := b4 + 256 * b5) in *.
  change (align4_lsb _) with (x0 + 65536 * x1). change (align4_msb _) with x2. unfold set_align4.
  replace (x0 + 65536 * x1) with (x0 + x1 * 65536) by lia.
  assert (u16 (x0 + x1 * 65536) = x0) as ->. { unfold wrap. change (2 ^ 16) with 65536. rewrite Z.mod_add, Z.mod_small; lia. }
  rewrite Z.div_add, (Z.div_small x0), Z.add_0_l by lia. rewrite !wrap_small by lia.
  change ([x0 `mod` 256; (x0 `div` 256) `mod` 256; x1 `mod` 256; (x1 `div` 256) `mod` 256;
    x2 `mod` 256; (x2 `div` 256) `mod` 256] = [b0; b1; b2; b3; b4; b5]). by rewrite E0, E1, E2, E3, E4, E5.
Qed.

(** ** The generated addresses *)

(** A property of all bytes can be checked on each of them. *)
Lemma byte_forall (P : Z → bool) : forallb P (seqZ 0 256) = true → ∀ b, byte_ok b → P b = true.
Proof.
  intros HP b Hb. rewrite List.forallb_forall in HP. apply HP, list_elem_of_In, elem_of_seqZ. exact Hb.
Qed.

(** The base address: local, not a group, handle 0. *)
Lemma base_address_status d :
  lanaddr_ok (dev_addr d) →
  let a := (λ i : nat, raw_byte (dev_addr d) (LANADDRESS_LEN - 1 - i)) <$> seq 0 LANADDRESS_LEN in
  let base := clear_status_group (set_status_local (lanaddress_set_handle a 0)) in
  lanaddr_ok base ∧ status_local base = true ∧ status_group base = false.
Proof.
  destruct d as [e l a0]. cbn [dev_addr].
  intros (b0 & b1 & b2 & b3 & b4 & b5 & -> & H0 & H1 & H2 & H3 & H4 & H5)%lanaddr_bytes. cbv zeta.
  change (clear_status_group _) with [Z.ldiff (Z.lor b5 2) 1; b4; b3; b2; 0; 0].
  assert ((0 <=? Z.ldiff (Z.lor b5 2) 1) && (Z.ldiff (Z.lor b5 2) 1 <? 256) && Z.testbit (Z.ldiff (Z.lor b5 2) 1) 1
          && negb (Z.testbit (Z.ldiff (Z.lor b5 2) 1) 0) = true) as Hb.
  { apply (byte_forall (λ b, (0 <=? Z.ldiff (Z.lor b 2) 1) && (Z.ldiff (Z.lor b 2) 1 <? 256) &&
      Z.testbit (Z.ldiff (Z.lor b 2) 1) 1 && negb (Z.testbit (Z.ldiff (Z.lor b 2) 1) 0))); [|done].
    vm_compute. reflexivity. }
  apply andb_prop in Hb as [[[Hb0 Hb1]%andb_prop Hb2]%andb_prop Hb3%negb_true_iff].
  split_and!; [|done..]. split; [done|]. rewrite !list.Forall_cons. split_and!; try done; unfold byte_ok; lia.
Qed.

(** The generator when it is asked for the [i]-th address. *)
Definition gen_at (b : lanaddress_t) (i : Z) (g : generator) : Prop :=
  lanaddr_ok (lanaddress_base g) ∧ (∀ x, lanaddress_set_handle (lanaddress_base g) x = lanaddress_set_handle b x) ∧
  lanaddress_handle g = (if bool_decide (i < 65536) then i else 0) ∧ lanaddress_valid g = bool_decide (i < 65536).

Lemma generate_step b i g reply :
  gen_at b i g → 0 ≤ i → length reply = LANADDRESS_LEN →
  (ILanAddress_generate_lan_address_implementation reply g).1 =
    (if bool_decide (i < 65536) then Some (lanaddress_set_handle b i) else None) ∧
  gen_at b (i + 1) (ILanAddress_generate_lan_address_implementation reply g).2.
Proof.
  intros (Hok & Hb & Hh & Hv) Hi Hr. unfold ILanAddress_generate_lan_address_implementation. rewrite Hv, Hh.
  case_bool_decide as Hlt.
  - cbn [fst snd]. rewrite copy_align4 by (done || by apply set_handle_ok). split; [by rewrite Hb|].
    split_and!; cbn [lanaddress_base lanaddress_handle lanaddress_valid].
    + by apply set_handle_ok.
    + intros x. by rewrite set_set_handle, Hb.
    + case_bool_decide; [apply wrap_small; lia|]. replace i with 65535 by lia. done.
    + destruct (decide (i = 65535)) as [->|Hne]; [done|].
      rewrite wrap_small by lia. rewrite (bool_decide_eq_true_2 (i + 1 < 65536)) by lia.
      by rewrite bool_decide_eq_false_2 by lia.
  - cbn [fst snd]. split; [done|]. split_and!; [done..| |]; rewrite bool_decide_eq_false_2 by lia; done.
Qed.

Lemma generate_n_at b n i g reply :
  gen_at b i g → 0 ≤ i → length reply = LANADDRESS_LEN →
  (generate_n n reply g).1 =
    (λ j : nat, if bool_decide (i + j < 65536) then Some (lanaddress_set_handle b (i + j)) else None) <$> seq 0 n ∧
  gen_at b (i + n) (generate_n n reply g).2.
Proof.
  revert i g. induction n as [|n IH]; intros i g Hg Hi Hr.
  { split; [done|]. by rewrite Z.add_0_r. }
  cbn [generate_n]. destruct (generate_step b i g reply Hg Hi Hr) as [H1 H2].
  destruct (ILanAddress_generate_lan_address_implementation reply g) as [r g']. cbn [fst snd] in H1, H2.
  destruct (IH (i + 1) g' H2 ltac:(lia) Hr) as [H3 H4]. destruct (generate_n n reply g') as [rs g'']. cbn [fst snd] in *.
  rewrite H1, H3. split.
  - cbn [seq fmap list_fmap]. rewrite Z.add_0_r. f_equal. rewrite <- fmap_S_seq, <- list_fmap_compose.
    apply list_fmap_ext. intros k x Hx. cbn. replace (i + S x) with (i + 1 + x) by lia. done.
  - by replace (i + S n) with (i + 1 + n) by lia.
Qed.

(** ** Claims *)

(** The handle stored in an address is read back unchanged, storing the
    handle that is read changes nothing, and the service's copy through the
    4-byte view reproduces all six bytes. *)
Theorem lanaddress_roundtrip (a b : lanaddress_t) (h : Z) :
  lanaddr_ok a → 0 ≤ h < 65536 → length b = LANADDRESS_LEN →
  lanaddress_get_handle (lanaddress_set_handle a h) = h ∧
  take 4 (lanaddress_set_handle a h) = take 4 a ∧
  lanaddress_set_handle a (lanaddress_get_handle a) = a ∧
  set_align4 (align4_lsb a) (align4_msb a) b = a.
Proof.
  intros Ha Hh Hb. split_and!; [by apply get_set_handle| |by apply set_get_handle|by apply copy_align4].
  by destruct (lanaddr_bytes a Ha) as (b0 & b1 & b2 & b3 & b4 & b5 & -> & _).
Qed.

(** C38. Once a base address was derived from an Ethernet device, the service
    hands out exactly 65536 addresses: the [i]-th carries the handle [i] and
    shares the other bytes with the base, so no two are equal, all are local
    unicast addresses, and every later call raises the exception. *)
Theorem lan_addresses_unique (d : net_device) (devs : list net_device) (n : nat) (reply : lanaddress_t) :
  dev_is_ether d = true → dev_addr_len d = 6 → lanaddr_ok (dev_addr d) → length reply = LANADDRESS_LEN →
  let g := landaddress_generate_base_address (d :: devs) (mk_gen (replicate 6 0) 0 false) in
  ∀ (i : nat) r, (generate_n n reply g).1 !! i = Some r →
    (i < 65536 → ∃ a, r = Some a ∧ lanaddr_ok a ∧ lanaddress_get_handle a = i ∧
       take 4 a = take 4 (lanaddress_base g) ∧ status_local a = true ∧ status_group a = false) ∧
    (65536 ≤ i → r = None).
Proof.
  intros He Hl Ha Hr g i r Hi. destruct (base_address_status d Ha) as (Hok & Hloc & Hgrp).
  set (b := clear_status_group _) in *.
  assert (g = mk_gen b 0 true) as Hg. { subst g. cbn. by rewrite He, Hl. }
  assert (gen_at b 0 g) as Hat by (rewrite Hg; by split_and!).
  destruct (generate_n_at b n 0 g reply Hat ltac:(lia) Hr) as [Hrs _].
  rewrite Hrs in Hi. apply list_lookup_fmap_Some in Hi as (j & -> & [-> _]%lookup_seq). rewrite !Z.add_0_l, Nat.add_0_l.
  split; intros Hlt; [|by rewrite bool_decide_eq_false_2 by lia]. rewrite bool_decide_eq_true_2 by lia.
  eexists. split; [done|]. split_and!; [by apply set_handle_ok|by apply get_set_handle; [|lia]|..]; rewrite ?Hg; cbn [lanaddress_base];
    destruct (lanaddr_bytes b Hok) as (b0 & b1 & b2 & b3 & b4 & b5 & Hb & _); by rewrite Hb in *.
Qed.

(** ** Concrete runs *)

Lemma lanaddress_roundtrip_witness :
  lanaddress_get_handle (lanaddress_set_handle [0; 1; 2; 253; 254; 255] 4660) = 4660 ∧
  set_align4 (align4_lsb [0; 1; 2; 253; 254; 255]) (align4_msb [0; 1; 2; 253; 254; 255]) (replicate 6 9) = [0; 1; 2; 253; 254; 255].
Proof.
  destruct (lanaddress_roundtrip [0; 1; 2; 253; 254; 255] (replicate 6 9) 4660) as (H1 & _ & _ & H2).
  - split; [reflexivity|]. repeat constructor; lia.
  - lia.
  - reflexivity.
  - split; [exact H1|exact H2].
Defined.

Definition sample_dev : net_device := mk_dev true 6 [0; 14; 166; 48; 201; 131].
Lemma lan_addresses_unique_witness :
  ∃ r, (generate_n 3 (replicate 6 0) (landaddress_generate_base_address [sample_dev] (mk_gen (replicate 6 0) 0 false))).1 !! 2%nat
         = Some (Some r) ∧ lanaddress_get_handle r = 2 ∧ status_local r = true.
Proof.
  destruct (lan_addresses_unique sample_dev [] 3 (replicate 6 0)) with (i := 2%nat) (r := Some [130; 201; 48; 166; 2; 0]) as [H _].
  - reflexivity.
  - reflexivity.
  - split; [reflexivity|]. repeat constructor; cbn; lia.
  - reflexivity.
  - vm_compute. reflexivity.
  - destruct (H ltac:(lia)) as (a & [= <-] & _ & Hh & _ & Hs & _). eexists. split; [vm_compute; reflexivity|].
    split; [exact Hh|exact Hs].
Defined.
