(* ===== verification/Net.v ===== *)
(** * The network driver: sending

    Models the send path of l4ka-driver-reuse/kernel/net: the client's virtual
    network device (client.c), the server's side of the descriptor ring
    (server.c) and the ring they share (net.h and L4VMnet_idl.idl), in the
    configuration without the DP83820 interface. Address translations, the socket
    buffer allocator and the network layer of Linux are parameters. *)

From Stdlib Require Import ZArith Lia.
From stdpp Require Import base list gmap numbers.
From S2P Require Import Prelude.

Definition PAGE_SIZE : Z := 4096.
Definition PAGE_SHIFT : Z := 12.
Definition IVMnet_snd_descriptor_ring_cnt : nat := 400.

(** ** Data *)

(** [IVMnet_ring_descriptor_t]; the status byte by its bits. *)
Record ring_descriptor_t : Type := mk_ndesc {
  d_buffer : Z;
  d_buffer_len : Z;
  d_pkt_type : Z;
  d_server_owned : bool;
  d_csum : bool;
  d_fragment : bool;
  d_dropped : bool;
  d_csum_start : Z;
  d_csum_offset : Z;
  d_protocol : Z
}.
Definition nd_set_owned (b : bool) (d : ring_descriptor_t) := mk_ndesc (d_buffer d) (d_buffer_len d) (d_pkt_type d)
  b (d_csum d) (d_fragment d) (d_dropped d) (d_csum_start d) (d_csum_offset d) (d_protocol d).
Definition nd_set_csum (b : bool) (d : ring_descriptor_t) := mk_ndesc (d_buffer d) (d_buffer_len d) (d_pkt_type d)
  (d_server_owned d) b (d_fragment d) (d_dropped d) (d_csum_start d) (d_csum_offset d) (d_protocol d).
Definition nd_set_fragment (b : bool) (d : ring_descriptor_t) := mk_ndesc (d_buffer d) (d_buffer_len d) (d_pkt_type d)
  (d_server_owned d) (d_csum d) b (d_dropped d) (d_csum_start d) (d_csum_offset d) (d_protocol d).
Definition nd_set_dropped (b : bool) (d : ring_descriptor_t) := mk_ndesc (d_buffer d) (d_buffer_len d) (d_pkt_type d)
  (d_server_owned d) (d_csum d) (d_fragment d) b (d_csum_start d) (d_csum_offset d) (d_protocol d).
(** [status.raw = 0] *)
Definition nd_clear_status (d : ring_descriptor_t) := mk_ndesc (d_buffer d) (d_buffer_len d) (d_pkt_type d)
  false false false false (d_csum_start d) (d_csum_offset d) (d_protocol d).
Definition nd_set_buffer (x len : Z) (d : ring_descriptor_t) := mk_ndesc (u32 x) (u16 len) (d_pkt_type d)
  (d_server_owned d) (d_csum d) (d_fragment d) (d_dropped d) (d_csum_start d) (d_csum_offset d) (d_protocol d).
Definition nd_set_type (ty proto : Z) (d : ring_descriptor_t) := mk_ndesc (d_buffer d) (d_buffer_len d) (u8 ty)
  (d_server_owned d) (d_csum d) (d_fragment d) (d_dropped d) (d_csum_start d) (d_csum_offset d) (u16 proto).
Definition nd_set_csum_at (start offset : Z) (d : ring_descriptor_t) := mk_ndesc (d_buffer d) (d_buffer_len d) (d_pkt_type d)
  (d_server_owned d) (d_csum d) (d_fragment d) (d_dropped d) (u8 start) (u8 offset) (d_protocol d).

(** A Linux socket buffer as the client reads it. [skb_h_raw] is the offset of
    the transport header in the data. *)
Record skb_frag : Type := mk_frag { frag_page : Z; frag_offset : Z; frag_size : Z }.
Record sk_buff : Type := mk_skb {
  skb_data : Z;
  skb_headlen : Z;
  skb_pkt_type : Z;
  skb_protocol : Z;
  skb_h_raw : Z;
  skb_csum : Z;
  skb_csum_hw : bool;
  skb_frags : list skb_frag
}.

(** The socket buffer the server wraps around a packet, with its shadow. *)
Record server_skb : Type := mk_sskb {
  ss_start_frag : Z;
  ss_frag_count : Z;
  ss_data : Z;
  ss_len : Z;
  ss_data_len : Z;
  ss_pkt_type : Z;
  ss_protocol : Z;
  ss_h_raw : Z;
  ss_csum : Z;
  ss_csum_hw : bool;
  ss_frags : list skb_frag
}.

(** What the two sides ask of Linux. *)
Inductive net_event : Type :=
  | NFree (skb : positive)          (** client: [dev_kfree_skb_any] *)
  | NFlush                          (** client: [tasklet_hi_schedule] *)
  | NXmit (n : nat) (s : server_skb). (** server: [dev_queue_xmit] *)

(** The client adapter, the shared ring and the server's view of one client. *)
Record net : Type := mk_net {
  n_start_free : Z;
  n_start_dirty : Z;
  n_shadow : list (option positive);
  n_queue_stopped : bool;
  n_ring : list ring_descriptor_t;
  n_srv_free : Z;
  n_inflight : gmap nat server_skb;
  n_next : nat;
  n_events : list net_event
}.

Definition n_set_free (x : Z) n := mk_net x (n_start_dirty n) (n_shadow n) (n_queue_stopped n) (n_ring n)
  (n_srv_free n) (n_inflight n) (n_next n) (n_events n).
Definition n_set_dirty (x : Z) n := mk_net (n_start_free n) x (n_shadow n) (n_queue_stopped n) (n_ring n)
  (n_srv_free n) (n_inflight n) (n_next n) (n_events n).
Definition n_set_shadow (l : list (option positive)) n := mk_net (n_start_free n) (n_start_dirty n) l (n_queue_stopped n)
  (n_ring n) (n_srv_free n) (n_inflight n) (n_next n) (n_events n).
Definition n_set_stopped (b : bool) n := mk_net (n_start_free n) (n_start_dirty n) (n_shadow n) b
  (n_ring n) (n_srv_free n) (n_inflight n) (n_next n) (n_events n).
Definition n_set_ring (l : list ring_descriptor_t) n := mk_net (n_start_free n) (n_start_dirty n) (n_shadow n)
  (n_queue_stopped n) l (n_srv_free n) (n_inflight n) (n_next n) (n_events n).
Definition n_set_srv_free (x : Z) n := mk_net (n_start_free n) (n_start_dirty n) (n_shadow n) (n_queue_stopped n)
  (n_ring n) x (n_inflight n) (n_next n) (n_events n).
Definition n_set_inflight (m : gmap nat server_skb) n := mk_net (n_start_free n) (n_start_dirty n) (n_shadow n)
  (n_queue_stopped n) (n_ring n) (n_srv_free n) m (n_next n) (n_events n).
Definition n_set_next (x : nat) n := mk_net (n_start_free n) (n_start_dirty n) (n_shadow n) (n_queue_stopped n)
  (n_ring n) (n_srv_free n) (n_inflight n) x (n_events n).
Definition n_emit (e : net_event) n := mk_net (n_start_free n) (n_start_dirty n) (n_shadow n) (n_queue_stopped n)
  (n_ring n) (n_srv_free n) (n_inflight n) (n_next n) (n_events n ++ [e]).

(** The address spaces: the client's [virt_to_phys], and of the server's VM
    [bus_to_virt], [virt_to_phys], [page_to_bus] and the memory size. *)
Class NetEnv : Type := {
  c_virt_to_phys : Z → Z;
  s_bus_to_virt : Z → Z;
  s_virt_to_phys : Z → Z;
  s_page_to_bus : Z → Z;
  num_physpages : Z;
  MAX_SKB_FRAGS : nat;
  bus_start : Z
}.

Abbreviation MN := (M net).

(** The ring's size; [cnt] of both sides. *)
Definition ncnt : Z := IVMnet_snd_descriptor_ring_cnt.
Definition load_ndesc (i : Z) : MN ring_descriptor_t := o ← mgets (λ n, zlookup (n_ring n) i); mof_option OutOfBounds o.
Definition alter_ndesc (i : Z) (f : ring_descriptor_t → ring_descriptor_t) : MN unit :=
  d ← load_ndesc i; mmodify (λ n, n_set_ring (zinsert i (f d) (n_ring n)) n).
Definition load_shadow (i : Z) : MN (option positive) := o ← mgets (λ n, zlookup (n_shadow n) i); mof_option OutOfBounds o.
Definition store_shadow (i : Z) (o : option positive) : MN unit :=
  load_shadow i;; mmodify (λ n, n_set_shadow (zinsert i o (n_shadow n)) n).

(** [L4VMnet_ring_available] (net.h) *)
Definition L4VMnet_ring_available (start_dirty start_free : Z) : Z :=
  u16 (Z.rem (start_dirty + ncnt - (start_free + 1)) ncnt).
(** [L4VMnet_fragment_buffer] (net.h) *)
Definition L4VMnet_fragment_buffer (f : skb_frag) : Z := u32 (frag_page f * PAGE_SIZE + frag_offset f).

Section ops.
Context {E : NetEnv}.

(** ** The client (client.c) *)

Fixpoint clean_loop (fuel : nat) (cleaned : Z) : MN Z :=
  match fuel with
  | O => mfault Diverged
  | S fuel =>
      i ← mgets n_start_dirty;
      d ← load_ndesc i;
      if d_server_owned d then mret cleaned else
      s ← load_shadow i;
      match s with
      | None =>
          j ← mgets n_start_free;
          massert (bool_decide (i = j));;
          mret cleaned
      | Some skb =>
          (if d_fragment d then mret tt else mmodify (n_emit (NFree skb)));;
          store_shadow i None;;
          alter_ndesc i (nd_set_buffer 0 0);;
          mmodify (n_set_dirty (cnext ncnt i));;
          clean_loop fuel (u16 (cleaned + 1))
      end
  end.
(** Every round moves [start_dirty] over a descriptor in use. *)
Definition L4VMnet_clean_send_ring : MN unit :=
  cleaned ← clean_loop (S IVMnet_snd_descriptor_ring_cnt) 0;
  stopped ← mgets n_queue_stopped;
  if bool_decide (cleaned ≠ 0) && stopped then mmodify (n_set_stopped false) else mret tt.

(** Whether the next [n] descriptors from [i] are back from the server. *)
Fixpoint dirty_available (n : nat) (i : Z) : MN bool :=
  match n with
  | O => mret true
  | S n =>
      d ← load_ndesc i;
      if d_server_owned d then mret false else dirty_available n (Z.rem (i + 1) ncnt)
  end.
Definition L4VMnet_xmit_available (fragments : Z) : MN bool :=
  massert (bool_decide (fragments < ncnt));;
  n ← mget;
  if bool_decide (L4VMnet_ring_available (n_start_dirty n) (n_start_free n) ≤ fragments) then
    ok ← dirty_available (Z.to_nat fragments) (n_start_dirty n);
    if (ok : bool) then
      (if bool_decide (0 < fragments) then
         L4VMnet_clean_send_ring;;
         n ← mget;
         s ← load_shadow (n_start_free n);
         massert (bool_decide (s = None))
       else mret tt);;
      mret true
    else mret false
  else mret true.

(** Queueing of the fragments after descriptor [prev]. *)
Fixpoint xmit_frags (id : positive) (prev : Z) (frags : list skb_frag) : MN unit :=
  match frags with
  | [] => mret tt
  | f :: frags =>
      alter_ndesc prev (nd_set_fragment true);;
      i ← mgets n_start_free;
      d ← load_ndesc i;
      massert (negb (d_server_owned d));;
      s ← load_shadow i;
      massert (bool_decide (s = None));;
      alter_ndesc i nd_clear_status;;
      alter_ndesc i (nd_set_buffer (L4VMnet_fragment_buffer f) (frag_size f));;
      store_shadow i (Some id);;
      alter_ndesc i (nd_set_owned true);;
      mmodify (n_set_free (cnext ncnt i));;
      xmit_frags id i frags
  end.

(** [L4VMnet_xmit_frame]: 0 when the packet was taken (or dropped), 1 when the
    network layer has to keep it. *)
Definition L4VMnet_xmit_frame (id : positive) (skb : sk_buff) : MN Z :=
  h ← mgets n_start_free;
  let fragments := u16 (1 + length (skb_frags skb)) in
  if bool_decide (ncnt ≤ fragments) then mmodify (n_emit (NFree id));; mret 0 else
  ok ← L4VMnet_xmit_available fragments;
  if (ok : bool) then
    d ← load_ndesc h;
    massert (negb (d_server_owned d));;
    i ← mgets n_start_free;
    s ← load_shadow i;
    massert (bool_decide (s = None));;
    alter_ndesc h nd_clear_status;;
    alter_ndesc h (nd_set_buffer (c_virt_to_phys (skb_data skb)) (skb_headlen skb));;
    alter_ndesc h (nd_set_type (skb_pkt_type skb) (skb_protocol skb));;
    store_shadow i (Some id);;
    alter_ndesc h (nd_set_csum_at (skb_h_raw skb) (u8 (skb_h_raw skb) + skb_csum skb));;
    (if skb_csum_hw skb then alter_ndesc h (nd_set_csum true) else mret tt);;
    mmodify (n_set_free (cnext ncnt i));;
    xmit_frags id h (skb_frags skb);;
    alter_ndesc h (nd_set_owned true);;
    mmodify (n_emit NFlush);;
    mret 0
  else
    mmodify (n_set_stopped true);;
    mmodify (n_emit NFlush);;
    mret 1.

(** ** The server (server.c) *)

(** The loop that collects the fragments; [more] is the fragment bit of the
    last descriptor. *)
Fixpoint wrap_frags (fuel : nat) (more : bool) (frags : list skb_frag) (len data_len : Z) : MN (list skb_frag * Z * Z) :=
  match fuel with
  | O => mfault Diverged
  | S fuel =>
      if negb more then mret (frags, len, data_len) else
      if bool_decide (MAX_SKB_FRAGS ≤ length frags)%nat then mret (frags, len, data_len) else
      i ← mgets n_srv_free;
      d ← load_ndesc i;
      if negb (d_server_owned d) then mret (frags, len, data_len) else
      mmodify (n_set_srv_free (cnext ncnt i));;
      massert (bool_decide (d_buffer d ≠ 0));;
      massert (bool_decide (u32 (d_buffer d + bus_start) < num_physpages * PAGE_SIZE));;
      let paddr := s_virt_to_phys (s_bus_to_virt (u32 (d_buffer d + bus_start))) in
      let page := Z.shiftr paddr PAGE_SHIFT in
      massert (bool_decide (paddr ≠ 0) && bool_decide (d_buffer_len d ≠ 0));;
      massert (bool_decide (s_page_to_bus page = Z.land (d_buffer d) (Z.lnot (PAGE_SIZE - 1))));;
      wrap_frags fuel (d_fragment d)
        (frags ++ [mk_frag page (Z.land (d_buffer d) (PAGE_SIZE - 1)) (d_buffer_len d)])
        (u32 (len + d_buffer_len d)) (u32 (data_len + d_buffer_len d))
  end.

(** [alloc] is whether [alloc_skb] succeeds. *)
Definition L4VMnet_skb_wrap_packet (alloc : bool) : MN (option server_skb) :=
  i ← mgets n_srv_free;
  d ← load_ndesc i;
  if negb (d_server_owned d) then mret None else
  if d_dropped d then mret None else
  if negb alloc then mret None else
  mmodify (n_set_srv_free (cnext ncnt i));;
  massert (bool_decide (d_buffer d ≠ 0) && bool_decide (d_buffer_len d ≠ 0));;
  massert (bool_decide (u32 (d_buffer d + bus_start) < num_physpages * PAGE_SIZE));;
  let data := s_bus_to_virt (u32 (d_buffer d + bus_start)) in
  massert (bool_decide (d_buffer_len d ≠ 0) && bool_decide (data ≠ 0));;
  let tail := u32 (data + d_buffer_len d) in
  let h_raw := u32 (d_csum_start d + data) in
  let csum := u32 (d_csum_offset d + data - h_raw) in
  let hw := d_csum d && (bool_decide (data ≤ h_raw) && bool_decide (h_raw ≤ tail) && bool_decide (u32 (csum + h_raw) ≤ tail)) in
  r ← wrap_frags (S (S MAX_SKB_FRAGS)) (d_fragment d) [] (d_buffer_len d) 0;
  let '(frags, len, data_len) := r in
  massert (bool_decide (u32 (len - data_len) = d_buffer_len d));;
  alter_ndesc i (nd_set_dropped true);;
  mret (Some (mk_sskb i (length frags) data len data_len (d_pkt_type d) (d_protocol d) h_raw csum hw frags)).

(** [L4VMnet_dev_queue_client_pkt]; [real_dev] is whether the client has a
    device. *)
Definition L4VMnet_dev_queue_client_pkt (alloc real_dev : bool) : MN bool :=
  o ← L4VMnet_skb_wrap_packet alloc;
  match o with
  | None => mret false
  | Some s =>
      massert real_dev;;
      k ← mgets n_next;
      mmodify (λ n, n_set_next (S k) (n_set_inflight (<[k := s]> (n_inflight n)) n));;
      mmodify (n_emit (NXmit k s));;
      mret true
  end.

(** Release of the fragment descriptors of a socket buffer. *)
Fixpoint release_frags (n : nat) (idx : Z) : MN unit :=
  match n with
  | O => mret tt
  | S n =>
      d ← load_ndesc idx;
      massert (d_server_owned d);;
      alter_ndesc idx (nd_set_owned false);;
      release_frags n (cnext ncnt idx)
  end.
(** [L4VMnet_skb_destructor], called by Linux when the device is done with
    socket buffer [k]. The shadow is found in the head of the buffer itself, so that
    [shadow->skb == skb] is the lookup at [k]. The assertion on [frag_list] speaks of
    a field that no code here sets; the network stack below is trusted to leave it null. *)
Definition L4VMnet_skb_destructor (k : nat) : MN unit :=
  o ← mgets (λ n, n_inflight n !! k);
  s ← mof_option DanglingDeref o;
  massert (bool_decide (ss_start_frag s < ncnt));;
  d ← load_ndesc (ss_start_frag s);
  massert (d_server_owned d && d_dropped d);;
  (if d_fragment d then release_frags (Z.to_nat (ss_frag_count s)) (cnext ncnt (ss_start_frag s)) else mret tt);;
  alter_ndesc (ss_start_frag s) (nd_set_owned false);;
  mmodify (λ n, n_set_inflight (delete k (n_inflight n)) n).

(** [L4VMnet_transmit_client_pkts]: the clients of the server with their
    [operating] flags; rounds over the clients until none has a packet.
    [alloc] is whether [alloc_skb] succeeds. *)
Fixpoint tx_round (alloc : net → bool) (clients : list (bool * net)) : fault + (nat * list (bool * net)) :=
  match clients with
  | [] => inr (0%nat, [])
  | (operating, n) :: clients =>
      let r := if operating then L4VMnet_dev_queue_client_pkt (alloc n) true n else Ok false n in
      match r with
      | Err f => inl f
      | Ok sent n' =>
          match tx_round alloc clients with
          | inl f => inl f
          | inr (pkts, clients') => inr (if (sent : bool) then S pkts else pkts, (operating, n') :: clients')
          end
      end
  end.
Fixpoint tx_loop (alloc : net → bool) (fuel total : nat) (clients : list (bool * net)) : fault + (nat * list (bool * net)) :=
  match fuel with
  | O => inl Diverged
  | S fuel =>
      match tx_round alloc clients with
      | inl f => inl f
      | inr (pkts, clients') =>
          if bool_decide (pkts = 0%nat) then inr (total, clients') else tx_loop alloc fuel (total + pkts)%nat clients'
      end
  end.
(** A client has fewer packets waiting than its ring has slots. *)
Definition L4VMnet_transmit_client_pkts (alloc : net → bool) (clients : list (bool * net)) : fault + (nat * list (bool * net)) :=
  tx_loop alloc (S (length clients * IVMnet_snd_descriptor_ring_cnt)) 0 clients.
End ops.
