(* ===== verification/NetSend.v ===== *)
(** * The network send protocol

    One client ring between the client's network device and the server
    (Net.v), with the device finishing socket buffers in any order. The ring is
    a window of packets: the ones the server has given to its device, then the
    ones still queued. The file proves that the operations of both sides keep
    the window, and derives what the protocol promises. *)

From stdpp Require Import base list gmap numbers relations.
From Stdlib Require Import ZArith Lia.
From S2P Require Import Prelude Net.

Abbreviation nring := IVMnet_snd_descriptor_ring_cnt.
Abbreviation nslot := (slot IVMnet_snd_descriptor_ring_cnt).

Lemma nring_pos : (0 < nring)%nat.
Proof. unfold nring. lia. Qed.
Lemma nring_le : nring ≤ 2 ^ 16.
Proof. unfold nring. lia. Qed.
Lemma nslot_range p : 0 ≤ nslot p < nring.
Proof. apply slot_range, nring_pos. Qed.
Lemma cnext_nslot p : cnext ncnt (nslot p) = nslot (S p).
Proof. apply slot_succ; [apply nring_pos|apply nring_le]. Qed.

(** ** Framing: changes to the slots of positions [lo..hi) only *)

Definition frame {A} (lo hi : nat) (l l' : list A) : Prop :=
  length l' = length l ∧ ∀ q, (q < lo ∨ hi ≤ q)%nat → (q < lo + nring)%nat → (hi ≤ q + nring)%nat →
    zlookup l' (nslot q) = zlookup l (nslot q).

Section frame_lemmas.
Context {A : Type}.
Implicit Types (l : list A).

Lemma frame_refl lo hi l : frame lo hi l l.
Proof. done. Qed.
Lemma frame_trans lo mid hi l l1 l2 : (lo ≤ mid ≤ hi)%nat →
  frame lo mid l l1 → frame mid hi l1 l2 → frame lo hi l l2.
Proof.
  intros ? [E1 H1] [E2 H2]. split; [congruence|]. intros q ???.
  rewrite H2, H1; [done|lia..].
Qed.
Lemma frame_widen lo hi lo' hi' l l' : (lo' ≤ lo)%nat → (hi ≤ hi')%nat →
  frame lo hi l l' → frame lo' hi' l l'.
Proof. intros ?? [E H]. split; [done|]. intros. apply H; lia. Qed.
Lemma frame_join lo hi l l1 l2 : frame lo hi l l1 → frame lo hi l1 l2 → frame lo hi l l2.
Proof. intros [E1 H1] [E2 H2]. split; [congruence|]. intros. rewrite H2, H1; done. Qed.
Lemma frame_insert p x l : frame p (S p) l (zinsert (nslot p) x l).
Proof.
  split; [apply length_zinsert|]. intros q ???. apply zlookup_zinsert_ne, slot_ne; [apply nring_pos|lia..].
Qed.
End frame_lemmas.

(** ** Packets in the ring *)

(** A descriptor in use by the packet of socket buffer [id], and one that is
    free. [more] is the fragment bit. *)
Definition cell_at (R : list ring_descriptor_t) (Sh : list (option positive)) (own : bool) (id : positive)
    (p : nat) (more : bool) : Prop :=
  ∃ d, zlookup R (nslot p) = Some d ∧ zlookup Sh (nslot p) = Some (Some id) ∧
    d_server_owned d = own ∧ d_fragment d = more.
Definition free_at (R : list ring_descriptor_t) (Sh : list (option positive)) (p : nat) : Prop :=
  ∃ d, zlookup R (nslot p) = Some d ∧ zlookup Sh (nslot p) = Some None ∧ d_server_owned d = false.

Fixpoint cells_at R Sh own id (p m : nat) : Prop :=
  match m with
  | O => True
  | S m => cell_at R Sh own id p (bool_decide (m ≠ 0%nat)) ∧ cells_at R Sh own id (S p) m
  end.

(** The client's state with another ring, shadow, indices and trace. *)
Definition cl_upd (free dirty : Z) R Sh evs (n : net) : net :=
  mk_net free dirty Sh (n_queue_stopped n) R (n_srv_free n) (n_inflight n) (n_next n) (n_events n ++ evs).

Lemma wp_load_ndesc F i d n Q : zlookup (n_ring n) i = Some d → Q d n → wp F (load_ndesc i) Q n.
Proof. intros H HQ. unfold load_ndesc. wp_steps; [congruence|]. by simplify_eq. Qed.
Lemma wp_load_shadow F i o n Q : zlookup (n_shadow n) i = Some o → Q o n → wp F (load_shadow i) Q n.
Proof. intros H HQ. unfold load_shadow. wp_steps; [congruence|]. by simplify_eq. Qed.
Lemma wp_alter_ndesc F i f d n Q : zlookup (n_ring n) i = Some d →
  Q tt (n_set_ring (zinsert i (f d) (n_ring n)) n) → wp F (alter_ndesc i f) Q n.
Proof. intros H HQ. unfold alter_ndesc. apply wp_bind. by apply (wp_load_ndesc F i d). Qed.
Lemma wp_store_shadow F i x o n Q : zlookup (n_shadow n) i = Some o →
  Q tt (n_set_shadow (zinsert i x (n_shadow n)) n) → wp F (store_shadow i x) Q n.
Proof. intros H HQ. unfold store_shadow. apply wp_bind. by apply (wp_load_shadow F i o). Qed.

Lemma cell_frame R Sh R' Sh' own id p more lo hi :
  frame lo hi R R' → frame lo hi Sh Sh' → (p < lo ∨ hi ≤ p)%nat → (p < lo + nring)%nat → (hi ≤ p + nring)%nat →
  cell_at R Sh own id p more → cell_at R' Sh' own id p more.
Proof. intros [_ H1] [_ H2] ??? (d & ? & ? & ? & ?). exists d. rewrite H1, H2 by done. done. Qed.
Lemma cells_frame R Sh R' Sh' own id lo hi m p :
  frame lo hi R R' → frame lo hi Sh Sh' → (p + m ≤ lo ∨ hi ≤ p)%nat → (p + m ≤ lo + nring)%nat → (hi ≤ p + nring)%nat →
  cells_at R Sh own id p m → cells_at R' Sh' own id p m.
Proof.
  intros F1 F2. revert p. induction m as [|m IH]; intros p ???; [done|]. intros [Hc Hcs]. split.
  - eapply cell_frame; [exact F1|exact F2|lia..|done].
  - apply IH; [lia..|done].
Qed.
Lemma free_frame R Sh R' Sh' p lo hi :
  frame lo hi R R' → frame lo hi Sh Sh' → (p < lo ∨ hi ≤ p)%nat → (p < lo + nring)%nat → (hi ≤ p + nring)%nat →
  free_at R Sh p → free_at R' Sh' p.
Proof. intros [_ H1] [_ H2] ??? (d & ? & ? & ?). exists d. rewrite H1, H2 by done. done. Qed.

(** ** Cleaning *)

Definition cleaned (p m : nat) (evs : list net_event) (n n' : net) : Prop :=
  ∃ R Sh, n' = cl_upd (n_start_free n) (nslot (p + m)) R Sh evs n ∧
    frame p (p + m) (n_ring n) R ∧ frame p (p + m) (n_shadow n) Sh ∧
    ∀ q, (p ≤ q < p + m)%nat → free_at R Sh q.

Lemma cleaned_refl p n : n_start_dirty n = nslot p → cleaned p 0 [] n n.
Proof.
  intros H. exists (n_ring n), (n_shadow n). split_and!; [|done..|lia].
  rewrite Nat.add_0_r, <- H. unfold cl_upd. rewrite app_nil_r. by destruct n.
Qed.

Lemma cleaned_trans p m m' e e' n n1 n2 : (m + m' ≤ nring)%nat →
  cleaned p m e n n1 → cleaned (p + m) m' e' n1 n2 → cleaned p (m + m') (e ++ e') n n2.
Proof.
  intros Hle (R1 & S1 & -> & F1 & G1 & H1) (R2 & S2 & -> & F2 & G2 & H2). simpl in *.
  exists R2, S2. rewrite Nat.add_assoc. split_and!.
  - unfold cl_upd; simpl. by rewrite app_assoc.
  - eapply frame_trans; [|done..]. lia.
  - eapply frame_trans; [|done..]. lia.
  - intros q Hq. destruct (decide (q < p + m)%nat).
    + eapply free_frame; [exact F2|exact G2|lia..|]. apply H1. lia.
    + apply H2. lia.
Qed.

(** One round of the loop, on a descriptor the server has given back. *)
Lemma clean_round F fuel c n p id more Q :
  length (n_ring n) = nring → length (n_shadow n) = nring → n_start_dirty n = nslot p →
  cell_at (n_ring n) (n_shadow n) false id p more →
  (∀ n', cleaned p 1 (if more then [] else [NFree id]) n n' → wp F (clean_loop fuel (u16 (c + 1))) Q n') →
  wp F (clean_loop (S fuel) c) Q n.
Proof.
  intros HlR HlS Hd (d & Hr & Hs & Ho & Hm) HQ. cbn [clean_loop].
  wp_step. wp_step. rewrite Hd. wp_step. eapply wp_load_ndesc; [done|]. cbv beta. rewrite Ho.
  wp_step. eapply wp_load_shadow; [done|]. cbv beta iota.
  assert (∀ n1, n1 = cl_upd (n_start_free n) (n_start_dirty n) (n_ring n) (n_shadow n) (if more then [] else [NFree id]) n →
    wp F (store_shadow (nslot p) None;; alter_ndesc (nslot p) (nd_set_buffer 0 0);;
      mmodify (n_set_dirty (cnext ncnt (nslot p)));; clean_loop fuel (u16 (c + 1))) Q n1) as Hrest.
  { intros n1 ->. wp_step. eapply wp_store_shadow; [exact Hs|]. cbv beta. wp_step. eapply wp_alter_ndesc; [exact Hr|]. cbv beta.
    wp_step. wp_step. rewrite cnext_nslot. apply HQ.
    eexists (zinsert (nslot p) _ (n_ring n)), (zinsert (nslot p) None (n_shadow n)).
    rewrite Nat.add_1_r. split_and!; [reflexivity|apply frame_insert..|].
    intros q Hq. assert (q = p) as -> by lia. pose proof (nslot_range p). eexists.
    rewrite !zlookup_zinsert_eq by lia. done. }
  rewrite Hm. destruct more; wp_step; wp_step; apply Hrest; unfold cl_upd; rewrite ?app_nil_r; by destruct n.
Qed.

(** A packet the server has given back is cleaned as a whole, and its socket
    buffer is freed. *)
Lemma clean_packet F fuel id Q : ∀ m c n p,
  length (n_ring n) = nring → length (n_shadow n) = nring → n_start_dirty n = nslot p →
  (m ≤ nring)%nat → (0 < m)%nat → 0 ≤ c → c + m < 2 ^ 16 →
  cells_at (n_ring n) (n_shadow n) false id p m →
  (∀ n', cleaned p m [NFree id] n n' → wp F (clean_loop fuel (c + m)) Q n') →
  wp F (clean_loop (m + fuel) c) Q n.
Proof.
  induction m as [|m IH]; intros c n p HlR HlS Hd Hle Hpos Hc Hc' Hcells HQ; [lia|].
  destruct Hcells as [Hcell Hcells]. eapply clean_round; [done..|].
  intros n1 Hc1. rewrite wrap_small by lia.
  destruct (decide (m = 0%nat)) as [->|Hm].
  - replace (c + 1) with (c + 1%nat) by lia. by apply HQ.
  - pose proof Hc1 as Hc2. destruct Hc1 as (R & Sh & -> & F1 & G1 & H1).
    rewrite Nat.add_1_r in *. apply (IH (c + 1) _ (S p)); [exact (eq_trans (proj1 F1) HlR)|exact (eq_trans (proj1 G1) HlS)|done|lia..| |].
    + eapply cells_frame; [exact F1|exact G1|lia..|done].
    + intros n2 Hn2. replace (c + 1 + m) with (c + S m) by lia. apply HQ.
      rewrite bool_decide_eq_true_2 in Hc2, Hn2 by done.
      change (S m) with (1 + m)%nat. change [NFree id] with ([] ++ [NFree id]).
      eapply cleaned_trans; [lia|exact Hc2|]. by rewrite Nat.add_1_r.
Qed.

(** ** The window of packets *)

Section protocol.
Context {E : NetEnv}.

(** What the environment promises: bus addresses are physical addresses of the
    server's VM, memory is mapped away from address 0, and a ring holds any
    socket buffer. *)
Class NetEnvOk : Prop := {
  env_bus : ∀ b, 0 ≤ b < num_physpages * PAGE_SIZE → s_virt_to_phys (s_bus_to_virt b) = b;
  env_page : ∀ p, 0 ≤ p < num_physpages → s_page_to_bus p = p * PAGE_SIZE;
  env_virt : ∀ b, 0 ≤ b < num_physpages * PAGE_SIZE → 0 < s_bus_to_virt b;
  env_mem : num_physpages * PAGE_SIZE ≤ 2 ^ 32;
  env_start : 0 ≤ bus_start;
  env_frags : (S MAX_SKB_FRAGS < nring)%nat
}.

Definition frag_bytes (fs : list skb_frag) : Z := foldr (λ f a, frag_size f + a) 0 fs.

(** A fragment in the memory of the machine. *)
Record frag_ok (f : skb_frag) : Prop := {
  fo_page : 0 ≤ frag_page f < num_physpages;
  fo_offset : 0 ≤ frag_offset f < PAGE_SIZE;
  fo_addr : 0 < frag_page f * PAGE_SIZE + frag_offset f;
  fo_size : 0 < frag_size f < 2 ^ 16
}.

(** A socket buffer Linux may hand to the client device. Fragments are only
    accepted by the server of a client that starts at bus address 0. *)
Record skb_ok (skb : sk_buff) : Prop := {
  so_headlen : 0 < skb_headlen skb < 2 ^ 16;
  so_data : 0 < c_virt_to_phys (skb_data skb);
  so_mem : c_virt_to_phys (skb_data skb) + bus_start < num_physpages * PAGE_SIZE;
  so_tail : s_bus_to_virt (c_virt_to_phys (skb_data skb) + bus_start) + skb_headlen skb < 2 ^ 32;
  so_type : 0 ≤ skb_pkt_type skb < 2 ^ 8;
  so_protocol : 0 ≤ skb_protocol skb < 2 ^ 16;
  so_csum : 0 ≤ skb_h_raw skb ∧ 0 ≤ skb_csum skb ∧ skb_h_raw skb + skb_csum skb < 2 ^ 8 ∧
    skb_h_raw skb + skb_csum skb ≤ skb_headlen skb;
  so_nfrags : (length (skb_frags skb) ≤ MAX_SKB_FRAGS)%nat;
  so_frags : Forall frag_ok (skb_frags skb);
  so_start : skb_frags skb ≠ [] → bus_start = 0;
  so_bytes : skb_headlen skb + frag_bytes (skb_frags skb) < 2 ^ 32
}.

(** The socket buffer the server's device has to get for a client's one: the
    same bytes, fragments, type and checksum request. *)
Definition wrapped (start : Z) (skb : sk_buff) : server_skb :=
  let data := s_bus_to_virt (c_virt_to_phys (skb_data skb) + bus_start) in
  mk_sskb start (length (skb_frags skb)) data (skb_headlen skb + frag_bytes (skb_frags skb))
    (frag_bytes (skb_frags skb)) (skb_pkt_type skb) (skb_protocol skb) (data + skb_h_raw skb)
    (skb_csum skb) (skb_csum_hw skb) (skb_frags skb).

(** The descriptors of a packet. *)
Record head_desc (own drp : bool) (skb : sk_buff) (d : ring_descriptor_t) : Prop := {
  hd_buffer : d_buffer d = c_virt_to_phys (skb_data skb);
  hd_len : d_buffer_len d = skb_headlen skb;
  hd_type : d_pkt_type d = skb_pkt_type skb;
  hd_protocol : d_protocol d = skb_protocol skb;
  hd_start : d_csum_start d = skb_h_raw skb;
  hd_offset : d_csum_offset d = skb_h_raw skb + skb_csum skb;
  hd_csum : d_csum d = skb_csum_hw skb;
  hd_own : d_server_owned d = own;
  hd_drp : d_dropped d = drp;
  hd_more : d_fragment d = bool_decide (skb_frags skb ≠ [])
}.
Record frag_desc (own more : bool) (f : skb_frag) (d : ring_descriptor_t) : Prop := {
  fd_buffer : d_buffer d = frag_page f * PAGE_SIZE + frag_offset f;
  fd_len : d_buffer_len d = frag_size f;
  fd_own : d_server_owned d = own;
  fd_more : d_fragment d = more
}.

Fixpoint frags_at (R : list ring_descriptor_t) (Sh : list (option positive)) (own : bool) (id : positive)
    (p : nat) (fs : list skb_frag) : Prop :=
  match fs with
  | [] => True
  | f :: fs => (∃ d, zlookup R (nslot p) = Some d ∧ zlookup Sh (nslot p) = Some (Some id) ∧
      frag_desc own (bool_decide (fs ≠ [])) f d) ∧ frags_at R Sh own id (S p) fs
  end.

Definition size (skb : sk_buff) : nat := S (length (skb_frags skb)).
Definition pkt_at R Sh (own drp : bool) (pk : positive * sk_buff) (p : nat) : Prop :=
  (∃ d, zlookup R (nslot p) = Some d ∧ zlookup Sh (nslot p) = Some (Some pk.1) ∧ head_desc own drp pk.2 d) ∧
  frags_at R Sh own pk.1 (S p) (skb_frags pk.2).

Lemma frags_at_cells R Sh own id fs : ∀ p,
  frags_at R Sh own id p fs → cells_at R Sh own id p (length fs).
Proof.
  induction fs as [|f fs IH]; intros p; [done|]. intros [(d & ? & ? & Hd) Hfs]. split; [|by apply IH].
  exists d. destruct Hd. split_and!; try done. rewrite fd_more0.
  apply bool_decide_ext. destruct fs; simpl; naive_solver lia.
Qed.
Lemma pkt_at_cells R Sh own drp pk p : pkt_at R Sh own drp pk p → cells_at R Sh own pk.1 p (size pk.2).
Proof.
  intros [(d & ? & ? & Hd) Hfs]. split; [|by apply frags_at_cells].
  exists d. destruct Hd. split_and!; try done. rewrite hd_more0.
  apply bool_decide_ext. destruct (skb_frags pk.2); simpl; naive_solver lia.
Qed.

Lemma frags_frame R Sh R' Sh' own id lo hi fs : ∀ p,
  frame lo hi R R' → frame lo hi Sh Sh' → (p + length fs ≤ lo ∨ hi ≤ p)%nat →
  (p + length fs ≤ lo + nring)%nat → (hi ≤ p + nring)%nat →
  frags_at R Sh own id p fs → frags_at R' Sh' own id p fs.
Proof.
  intros p F1 F2. revert p. induction fs as [|f fs IH]; intros p ???; [done|]. simpl in *.
  intros [(d & ? & ? & Hd) Hfs]. split; [|apply IH; [lia..|done]].
  exists d. rewrite (proj2 F1), (proj2 F2) by lia. done.
Qed.
Lemma pkt_frame R Sh R' Sh' own drp pk p lo hi :
  frame lo hi R R' → frame lo hi Sh Sh' → (p + size pk.2 ≤ lo ∨ hi ≤ p)%nat →
  (p + size pk.2 ≤ lo + nring)%nat → (hi ≤ p + nring)%nat →
  pkt_at R Sh own drp pk p → pkt_at R' Sh' own drp pk p.
Proof.
  unfold size. intros F1 F2 ??? [(d & ? & ? & Hd) Hfs]. split.
  - exists d. rewrite (proj2 F1), (proj2 F2) by lia. done.
  - eapply frags_frame; [exact F1|exact F2|lia..|done].
Qed.

(** Consecutive packets from position [p] and serial number [k] on. *)
Fixpoint pkts_at (P : nat → nat → positive * sk_buff → Prop) (p k : nat) (l : list (positive * sk_buff)) (e : nat) : Prop :=
  match l with
  | [] => p = e
  | pk :: l => P k p pk ∧ pkts_at P (p + size pk.2) (S k) l e
  end.

Lemma pkts_at_le P l : ∀ p k e, pkts_at P p k l e → (p + length l ≤ e)%nat.
Proof. induction l as [|pk l IH]; simpl; intros p k e; [lia|]. intros [_ ?%IH]. unfold size in *. lia. Qed.

Lemma pkts_at_app P l1 l2 : ∀ p k e,
  pkts_at P p k (l1 ++ l2) e ↔ ∃ m, pkts_at P p k l1 m ∧ pkts_at P m (k + length l1) l2 e.
Proof.
  induction l1 as [|pk l1 IH]; simpl; intros p k e.
  - rewrite Nat.add_0_r. naive_solver.
  - rewrite IH. setoid_rewrite <- Nat.add_succ_comm. naive_solver.
Qed.

Lemma pkts_at_impl (P P' : nat → nat → positive * sk_buff → Prop) l : ∀ p k e,
  (∀ k' p' pk, (k ≤ k' < k + length l)%nat → (p ≤ p')%nat → (p' + size pk.2 ≤ e)%nat → P k' p' pk → P' k' p' pk) →
  pkts_at P p k l e → pkts_at P' p k l e.
Proof.
  induction l as [|pk l IH]; simpl; intros p k e HP; [done|]. intros [H1 H2].
  pose proof (pkts_at_le _ _ _ _ _ H2). split; [apply HP; [lia..|done]|].
  apply IH; [|done]. intros. apply HP; [lia..|done].
Qed.

(** A packet the server has taken: its socket buffer, numbered [k], is with the
    device or done. A packet that is waiting. *)
Definition sent_pkt R Sh (infl : gmap nat server_skb) (k p : nat) (pk : positive * sk_buff) : Prop :=
  (infl !! k = Some (wrapped (nslot p) pk.2) ∧ pkt_at R Sh true true pk p) ∨
  (infl !! k = None ∧ pkt_at R Sh false true pk p).
Definition queued_pkt R Sh (k p : nat) (pk : positive * sk_buff) : Prop := pkt_at R Sh true false pk p.

Lemma sent_frame R Sh R' Sh' infl infl' lo hi k p pk :
  frame lo hi R R' → frame lo hi Sh Sh' → infl' !! k = infl !! k → (p + size pk.2 ≤ lo ∨ hi ≤ p)%nat →
  (p + size pk.2 ≤ lo + nring)%nat → (hi ≤ p + nring)%nat →
  sent_pkt R Sh infl k p pk → sent_pkt R' Sh' infl' k p pk.
Proof.
  intros F1 F2 Hk ??? [[??]|[??]]; [left|right]; (split; [congruence|]);
    (eapply pkt_frame; [exact F1|exact F2|lia..|done]).
Qed.

Definition frees (evs : list net_event) : list positive :=
  omap (λ e, match e with NFree id => Some id | _ => None end) evs.
(** What the device was given, without the place in the ring. *)
Definition unplace (s : server_skb) : server_skb := mk_sskb 0 (ss_frag_count s) (ss_data s) (ss_len s) (ss_data_len s)
  (ss_pkt_type s) (ss_protocol s) (ss_h_raw s) (ss_csum s) (ss_csum_hw s) (ss_frags s).
Definition xmits (evs : list net_event) : list (nat * server_skb) :=
  omap (λ e, match e with NXmit k s => Some (k, unplace s) | _ => None end) evs.
Definition images (l : list (positive * sk_buff)) : list (nat * server_skb) := imap (λ k pk, (k, wrapped 0 pk.2)) l.

Record winv (n : net) (acc freed sent queued : list (positive * sk_buff)) (D SF F : nat) : Prop := {
  wi_acc : acc = freed ++ sent ++ queued;
  wi_lenR : length (n_ring n) = nring;
  wi_lenS : length (n_shadow n) = nring;
  wi_dirty : n_start_dirty n = nslot D;
  wi_srv : n_srv_free n = nslot SF;
  wi_free : n_start_free n = nslot F;
  wi_room : (F < D + nring)%nat;
  wi_sent : pkts_at (sent_pkt (n_ring n) (n_shadow n) (n_inflight n)) D (length freed) sent SF;
  wi_queued : pkts_at (queued_pkt (n_ring n) (n_shadow n)) SF 0 queued F;
  wi_slots : ∀ p, (F ≤ p < D + nring)%nat → free_at (n_ring n) (n_shadow n) p;
  wi_infl : ∀ k s, n_inflight n !! k = Some s → (length freed ≤ k < length freed + length sent)%nat;
  wi_next : n_next n = (length freed + length sent)%nat;
  wi_ok : Forall (λ pk, skb_ok pk.2) acc;
  wi_frees : frees (n_events n) = freed.*1;
  wi_xmits : xmits (n_events n) = images (freed ++ sent)
}.

Lemma winv_ord n acc freed sent queued D SF F : winv n acc freed sent queued D SF F →
  (D + length sent ≤ SF ∧ SF + length queued ≤ F)%nat.
Proof. intros []. split; eapply pkts_at_le; eauto. Qed.

(** The oldest packet is done: cleaning it. *)
Lemma winv_cleaned n n' acc freed pk sent queued D SF F :
  winv n acc freed (pk :: sent) queued D SF F → n_inflight n !! length freed = None →
  cleaned D (size pk.2) [NFree pk.1] n n' →
  winv n' acc (freed ++ [pk]) sent queued (D + size pk.2) SF F ∧ n_queue_stopped n' = n_queue_stopped n.
Proof.
  intros W Hk (R & Sh & -> & F1 & G1 & Hfree). split; [|done].
  pose proof (winv_ord _ _ _ _ _ _ _ _ W) as Hord. destruct W; simpl in *.
  destruct wi_sent0 as [_ Hsent]. pose proof (pkts_at_le _ _ _ _ _ Hsent).
  split; simpl; try done.
  - by rewrite <- app_assoc.
  - by rewrite (proj1 F1).
  - by rewrite (proj1 G1).
  - lia.
  - rewrite length_app, Nat.add_1_r. eapply pkts_at_impl; [|exact Hsent]. simpl.
    intros k p pk' ???. apply (sent_frame _ _ _ _ _ _ D (D + size pk.2)); try done; lia.
  - eapply pkts_at_impl; [|exact wi_queued0]. simpl.
    intros k p pk' ???. apply (pkt_frame _ _ _ _ _ _ _ _ D (D + size pk.2)); try done; lia.
  - intros p Hp. destruct (decide (p < D + nring)%nat).
    + eapply free_frame; [exact F1|exact G1|lia..|]. apply wi_slots0. lia.
    + assert (free_at R Sh (p - nring)) as (d & Hd).
      { apply Hfree. lia. }
      exists d. rewrite <- (slot_add_n nring (p - nring)) in Hd.
      replace (p - nring + nring)%nat with p in Hd by lia. done.
  - intros k s Hs. rewrite length_app. simpl. pose proof (wi_infl0 _ _ Hs).
    assert (k ≠ length freed) by congruence. lia.
  - rewrite length_app. simpl. lia.
  - unfold frees in *. rewrite omap_app, wi_frees0, fmap_app. done.
  - unfold xmits in *. rewrite omap_app, wi_xmits0, <- app_assoc, app_nil_r. done.
Qed.

(** Whether the server owns the descriptor at a position. *)
Definition owned_at (n : net) (p : nat) : Prop :=
  ∃ d, zlookup (n_ring n) (nslot p) = Some d ∧ d_server_owned d = true.

Lemma clean_blocked F fuel c n p Q :
  n_start_dirty n = nslot p → owned_at n p → Q c n → wp F (clean_loop (S fuel) c) Q n.
Proof.
  intros Hd (d & Hr & Ho) HQ. cbn [clean_loop]. wp_step. wp_step. rewrite Hd.
  wp_step. eapply wp_load_ndesc; [done|]. cbv beta. by rewrite Ho.
Qed.
Lemma clean_empty F fuel c n p Q :
  n_start_dirty n = nslot p → n_start_free n = nslot p → free_at (n_ring n) (n_shadow n) p →
  Q c n → wp F (clean_loop (S fuel) c) Q n.
Proof.
  intros Hd Hf (d & Hr & Hs & Ho) HQ. cbn [clean_loop]. wp_step. wp_step. rewrite Hd.
  wp_step. eapply wp_load_ndesc; [done|]. cbv beta. rewrite Ho.
  wp_step. eapply wp_load_shadow; [done|]. cbv beta iota. wp_step. wp_step. rewrite Hf.
  rewrite bool_decide_eq_true_2 by done. by wp_steps.
Qed.

Lemma queued_owned n pk k p : queued_pkt (n_ring n) (n_shadow n) k p pk → owned_at n p.
Proof. intros [(d & ? & ? & []) _]. by exists d. Qed.

(** What cleaning does: it frees the packets at the front that are done. *)
Record clean_post n acc freed sent queued (D SF F : nat) n' freed' sent' (D' : nat) : Prop := {
  cp_inv : winv n' acc freed' sent' queued D' SF F;
  cp_split : ∃ l, freed' = freed ++ l ∧ sent = l ++ sent';
  cp_mono : (D ≤ D')%nat;
  cp_stop : (D' < F)%nat → owned_at n' D';
  cp_queue : n_queue_stopped n' = n_queue_stopped n;
  cp_infl : n_inflight n' = n_inflight n;
  cp_frame : frame D D' (n_ring n) (n_ring n')
}.

Lemma clean_loop_ok acc queued SF F sent : ∀ freed D c n fuel,
  winv n acc freed sent queued D SF F → (F - D < fuel)%nat → 0 ≤ c → c + (F - D) < 2 ^ 16 →
  wp no_fault (clean_loop fuel c) (λ c' n', ∃ freed' sent' D',
    clean_post n acc freed sent queued D SF F n' freed' sent' D' ∧ c' = c + (D' - D)) n.
Proof.
  induction sent as [|pk sent IH]; intros freed D c n fuel W Hfuel Hc Hc'.
  - pose proof (wi_dirty _ _ _ _ _ _ _ _ W) as Hd. pose proof (winv_ord _ _ _ _ _ _ _ _ W) as Hord.
    assert (∀ Q : Z → net → Prop, Q c n → (D < F → owned_at n D)%nat → wp no_fault (clean_loop fuel c) Q n) as Hstop.
    { intros Q HQ Ho. destruct fuel; [lia|]. destruct (decide (D < F)%nat).
      - eapply clean_blocked; eauto.
      - assert (D = F) as -> by (simpl in *; lia). eapply clean_empty; [exact Hd|apply W| |done].
        apply (wi_slots _ _ _ _ _ _ _ _ W). pose proof nring_pos. lia. }
    pose proof (wi_sent _ _ _ _ _ _ _ _ W) as Hs. simpl in Hs. subst SF.
    assert ((D < F)%nat → owned_at n D) as Hq.
    { intros ?. pose proof (wi_queued _ _ _ _ _ _ _ _ W) as Hqd.
      destruct queued as [|pk queued]; simpl in Hqd; [lia|]. destruct Hqd as [Hqd _]. by eapply queued_owned. }
    apply Hstop; [|done]. exists freed, [], D. split; [|lia].
    split; [done| |lia|done..]. exists []. by rewrite app_nil_r.
  - pose proof (wi_dirty _ _ _ _ _ _ _ _ W) as Hd. pose proof (winv_ord _ _ _ _ _ _ _ _ W) as Hord.
    pose proof (wi_room _ _ _ _ _ _ _ _ W) as Hroom.
    pose proof (wi_sent _ _ _ _ _ _ _ _ W) as [Hpk Hrest]. apply pkts_at_le in Hrest.
    destruct Hpk as [[Hk Hpk]|[Hk Hpk]].
    + destruct fuel; [lia|].
      assert (owned_at n D) as Hown by (destruct Hpk as [(d & ? & ? & []) _]; by exists d).
      eapply clean_blocked; [done..|]. exists freed, (pk :: sent), D. split; [|lia].
      split; [done| |lia|done..]. exists []. by rewrite app_nil_r.
    + replace fuel with (size pk.2 + (fuel - size pk.2))%nat by lia.
      eapply (clean_packet _ _ pk.1); [apply W|apply W|done|lia|unfold size; lia|done|lia|by eapply pkt_at_cells|].
      intros n1 Hcl. destruct (winv_cleaned _ _ _ _ _ _ _ _ _ _ W Hk Hcl) as [W1 Hq1].
      eapply wp_mono; [apply (IH _ _ _ _ _ W1); lia|].
      intros c' n' (freed' & sent' & D' & [? (l & -> & ->) ??? Hi Hfr] & ->). exists ((freed ++ [pk]) ++ l), sent', D'.
      split; [|lia]. split; [done| |lia|done|congruence|..].
      * exists (pk :: l). by rewrite <- app_assoc.
      * rewrite Hi. by destruct Hcl as (R & Sh & -> & _).
      * destruct Hcl as (R & Sh & -> & F1 & _). eapply frame_trans; [|exact F1|exact Hfr]. lia.
Qed.

Lemma winv_stopped b n acc freed sent queued D SF F :
  winv n acc freed sent queued D SF F → winv (n_set_stopped b n) acc freed sent queued D SF F.
Proof. intros []; by split. Qed.

(** With the state of the network queue: it is only stopped while packets are
    outstanding, so that a completion restarts it. *)
Definition ninv n acc freed sent queued (D SF F : nat) : Prop :=
  winv n acc freed sent queued D SF F ∧ (n_queue_stopped n = true → (D < F)%nat).

Lemma clean_send_ring_ok n acc freed sent queued D SF F :
  ninv n acc freed sent queued D SF F →
  wp no_fault L4VMnet_clean_send_ring (λ _ n', ∃ l sent' D',
    ninv n' acc (freed ++ l) sent' queued D' SF F ∧ sent = l ++ sent' ∧ (D ≤ D')%nat ∧
    ((D' < F)%nat → owned_at n' D') ∧ n_inflight n' = n_inflight n ∧ frame D D' (n_ring n) (n_ring n')) n.
Proof.
  intros [W Hst]. pose proof (winv_ord _ _ _ _ _ _ _ _ W). pose proof (wi_room _ _ _ _ _ _ _ _ W).
  pose proof nring_le. unfold L4VMnet_clean_send_ring. wp_step.
  eapply wp_mono; [apply (clean_loop_ok _ _ _ _ _ _ _ _ _ _ W); lia|].
  intros c n1 (freed' & sent' & D' & [W1 (l & -> & ->) ? Hstop Hq Hi Hfr] & ->).
  wp_step. wp_step. wp_step.
  - wp_step. exists l, sent', D'. split_and!; try done. split; [by apply winv_stopped|done].
  - wp_step. exists l, sent', D'. split_and!; try done. split; [done|].
    intros Hs. rewrite Hs, andb_true_r in Heqb. apply bool_decide_eq_false in Heqb.
    assert (D' = D) as -> by lia. apply Hst. congruence.
Qed.

Lemma rem_nslot p : Z.rem (nslot p + 1) ncnt = nslot (S p).
Proof.
  rewrite <- cnext_nslot. unfold cnext. symmetry. apply wrap_small. pose proof (nslot_range p).
  pose proof nring_le. pose proof (Z.rem_bound_pos (nslot p + 1) ncnt). unfold ncnt in *. lia.
Qed.

Lemma dirty_available_ok n m : ∀ p, length (n_ring n) = nring →
  wp no_fault (dirty_available m (nslot p)) (λ b n', n' = n ∧
    if b then ∀ q, (p ≤ q < p + m)%nat → ¬ owned_at n q else ∃ q, (p ≤ q < p + m)%nat ∧ owned_at n q) n.
Proof.
  induction m as [|m IH]; intros p HlR; cbn [dirty_available].
  - wp_step. split; [done|]. lia.
  - destruct (zlookup_is_Some (n_ring n) (nslot p)) as [d Hd]; [rewrite HlR; apply nslot_range|].
    wp_step. eapply wp_load_ndesc; [done|]. cbv beta. wp_step.
    + wp_step. split; [done|]. exists p. split; [lia|]. by exists d.
    + rewrite rem_nslot. eapply wp_mono; [by apply IH|]. intros b n' [-> Hb]. split; [done|]. destruct b.
      * intros q Hq. destruct (decide (q = p)) as [->|]; [|apply Hb; lia]. intros (d' & ? & ?). congruence.
      * destruct Hb as (q & ? & ?). exists q. split; [lia|done].
Qed.

Lemma ring_available_slots D F : (D ≤ F)%nat → (F < D + nring)%nat →
  L4VMnet_ring_available (nslot D) (nslot F) = nring - 1 - (F - D).
Proof.
  intros HDF HF. unfold L4VMnet_ring_available. pose proof (nslot_range D). pose proof (nslot_range F).
  pose proof nring_le. change ncnt with (nring : Z).
  rewrite Z.rem_mod_nonneg by lia.
  assert ((nslot D + nring - (nslot F + 1)) `mod` nring = nring - 1 - (F - D)) as ->; [|apply wrap_small; lia].
  symmetry. unfold slot in *. rewrite !Nat2Z.inj_mod in *.
  pose proof (Z.div_mod D nring). pose proof (Z.div_mod F nring).
  apply (Z.mod_unique _ _ (F / nring - D / nring)); [left; lia|lia].
Qed.

Lemma owned_not_free n p : owned_at n p → ¬ free_at (n_ring n) (n_shadow n) p.
Proof. intros (d & ? & ?) (d' & ? & ? & ?). congruence. Qed.

(** [xmit_available] answers yes only when the ring has room for the packet,
    and no only while packets are outstanding. *)
Lemma xmit_available_ok n acc freed sent queued D SF F (m : nat) :
  ninv n acc freed sent queued D SF F → (0 < m < nring)%nat →
  wp no_fault (L4VMnet_xmit_available m) (λ b n',
    if b then ∃ l sent' D', ninv n' acc (freed ++ l) sent' queued D' SF F ∧ sent = l ++ sent' ∧ (F + m < D' + nring)%nat
    else n' = n ∧ (D < F)%nat) n.
Proof.
  intros Hn Hm. pose proof Hn as [W _]. pose proof (winv_ord _ _ _ _ _ _ _ _ W). pose proof (wi_room _ _ _ _ _ _ _ _ W) as Hroom.
  pose proof (wi_slots _ _ _ _ _ _ _ _ W) as Hslots.
  unfold L4VMnet_xmit_available. change ncnt with (nring : Z).
  rewrite (bool_decide_eq_true_2 (m < nring)) by lia. wp_step. wp_step; [done|]. wp_step. wp_step.
  rewrite (wi_dirty _ _ _ _ _ _ _ _ W), (wi_free _ _ _ _ _ _ _ _ W), ring_available_slots by lia.
  destruct (bool_decide _) eqn:Hav.
  - rewrite Nat2Z.id. wp_step. eapply wp_mono; [by apply dirty_available_ok, W|].
    intros b n1 [-> Hb]. destruct b.
    + rewrite bool_decide_eq_true_2 by lia. wp_step. wp_step.
      eapply wp_mono; [by apply clean_send_ring_ok|].
      intros _ n1 (l & sent' & D' & Hn1 & -> & HD & Hstop & _ & Hfr). pose proof Hn1 as [W1 _].
      pose proof (winv_ord _ _ _ _ _ _ _ _ W1).
      assert (F + m < D' + nring)%nat as HR.
      { destruct (decide (D' < F)%nat) as [Hlt|]; [|lia].
        assert (D + m ≤ D')%nat; [|lia]. destruct (decide (D + m ≤ D')%nat); [done|]. exfalso.
        apply (Hb D'); [lia|]. destruct (Hstop Hlt) as (d & Hd & Ho). exists d.
        rewrite <- (proj2 Hfr) by lia. done. }
      wp_step. wp_step. wp_step. rewrite (wi_free _ _ _ _ _ _ _ _ W1).
      destruct (wi_slots _ _ _ _ _ _ _ _ W1 F) as (d & _ & Hs & _); [lia|].
      eapply wp_load_shadow; [done|]. cbv beta. wp_step; [done|]. wp_step. eauto 10.
    + wp_step. split; [done|]. destruct Hb as (q & Hq & Ho).
      destruct (decide (D < F)%nat); [done|]. exfalso. eapply owned_not_free; [done|]. apply Hslots. lia.
  - apply bool_decide_eq_false in Hav. wp_step. exists [], sent, D. rewrite app_nil_r.
    split_and!; [done..|]. lia.
Qed.

(** ** Queueing a packet *)

Lemma frag_buffer_ok `{!NetEnvOk} f : frag_ok f →
  L4VMnet_fragment_buffer f = frag_page f * PAGE_SIZE + frag_offset f.
Proof. intros []. apply wrap_small. pose proof env_mem. unfold PAGE_SIZE in *. nia. Qed.

Definition frag_queued (f : skb_frag) (d : ring_descriptor_t) : ring_descriptor_t :=
  nd_set_owned true (nd_set_buffer (L4VMnet_fragment_buffer f) (frag_size f) (nd_clear_status d)).

(** Filling one fragment descriptor. *)
Lemma xmit_frag_round F id prev f fs n i d0 d Q :
  let R := zinsert prev (nd_set_fragment true d0) (n_ring n) in
  n_start_free n = i → prev ≠ i → zlookup (n_ring n) prev = Some d0 →
  zlookup (n_ring n) i = Some d → zlookup (n_shadow n) i = Some None → d_server_owned d = false →
  wp F (xmit_frags id i fs) Q
    (cl_upd (cnext ncnt i) (n_start_dirty n) (zinsert i (frag_queued f d) R) (zinsert i (Some id) (n_shadow n)) [] n) →
  wp F (xmit_frags id prev (f :: fs)) Q n.
Proof.
  intros R Hi Hne Hp Hd Hs Ho HQ. cbn [xmit_frags].
  pose proof (zlookup_lt _ _ _ Hd) as Hr.
  assert (zlookup R i = Some d) as HdR by (unfold R; by rewrite zlookup_zinsert_ne).
  assert (length R = length (n_ring n)) as HlR by apply length_zinsert.
  wp_step. eapply wp_alter_ndesc; [done|]. cbv beta. fold R. wp_step. wp_step. cbn [n_start_free n_set_ring]. rewrite Hi.
  wp_step. eapply wp_load_ndesc; [exact HdR|]. cbv beta. rewrite Ho. wp_step. wp_step; [done|].
  wp_step. eapply wp_load_shadow; [exact Hs|]. cbv beta. wp_step. wp_step; [done|].
  wp_step. eapply wp_alter_ndesc; [exact HdR|]. cbv beta.
  wp_step. eapply wp_alter_ndesc; [refine (zlookup_zinsert_eq _ _ _ _); simpl; lia|]. cbv beta.
  wp_step. eapply wp_store_shadow; [exact Hs|]. cbv beta.
  wp_step. eapply wp_alter_ndesc; [refine (zlookup_zinsert_eq _ _ _ _); simpl; rewrite length_zinsert; lia|]. cbv beta.
  wp_step. wp_step.
  match goal with |- wp _ _ _ ?x => replace x with
    (cl_upd (cnext ncnt i) (n_start_dirty n) (zinsert i (frag_queued f d) R) (zinsert i (Some id) (n_shadow n)) [] n) end.
  - exact HQ.
  - unfold cl_upd. rewrite app_nil_r. cbn. by rewrite !zinsert_zinsert.
Qed.

Definition mark_more (fs : list skb_frag) (d : ring_descriptor_t) : ring_descriptor_t :=
  match fs with [] => d | _ => nd_set_fragment true d end.

Lemma xmit_frags_ok `{!NetEnvOk} id fs : ∀ p n d0,
  length (n_ring n) = nring → length (n_shadow n) = nring → n_start_free n = nslot (S p) →
  zlookup (n_ring n) (nslot p) = Some d0 → (S (length fs) ≤ nring)%nat →
  (∀ q, (S p ≤ q < S p + length fs)%nat → free_at (n_ring n) (n_shadow n) q) → Forall frag_ok fs →
  wp no_fault (xmit_frags id (nslot p) fs) (λ _ n', ∃ R Sh,
    n' = cl_upd (nslot (S p + length fs)) (n_start_dirty n) R Sh [] n ∧
    frame p (S p + length fs) (n_ring n) R ∧ frame (S p) (S p + length fs) (n_shadow n) Sh ∧
    zlookup R (nslot p) = Some (mark_more fs d0) ∧ frags_at R Sh true id (S p) fs) n.
Proof.
  induction fs as [|f fs IH]; intros p n d0 HlR HlS Hf Hd0 Hle Hfree Hok.
  - simpl. wp_step. exists (n_ring n), (n_shadow n). rewrite Nat.add_0_r, <- Hf.
    split_and!; try done. unfold cl_upd. rewrite app_nil_r. by destruct n.
  - apply list.Forall_cons in Hok as [Hf1 Hok]. simpl in Hle.
    destruct (Hfree (S p)) as (d & Hd & Hs & Ho); [simpl; lia|].
    assert (nslot p ≠ nslot (S p)) as Hne by (apply slot_ne; [apply nring_pos|lia..]).
    pose proof (nslot_range (S p)). pose proof (nslot_range p).
    eapply xmit_frag_round; [done..|]. rewrite cnext_nslot.
    set (R1 := zinsert (nslot (S p)) _ _). set (Sh1 := zinsert (nslot (S p)) _ _).
    assert (frame p (S (S p)) (n_ring n) R1) as FR.
    { eapply frame_trans; [|apply frame_insert|apply frame_insert]. lia. }
    assert (frame (S p) (S (S p)) (n_shadow n) Sh1) as FS by apply frame_insert.
    eapply wp_mono; [apply (IH (S p) _ (frag_queued f d)); cbn [cl_upd n_ring n_shadow n_start_free]|].
    + by rewrite (proj1 FR).
    + by rewrite (proj1 FS).
    + done.
    + apply zlookup_zinsert_eq. rewrite length_zinsert. lia.
    + lia.
    + intros q Hq. eapply free_frame; [exact FR|eapply frame_widen; [..|exact FS]; lia|lia..|]. apply Hfree. simpl. lia.
    + done.
    + intros _ n' (R & Sh & -> & F1 & G1 & Hd1 & Hfs). cbn [cl_upd n_ring n_shadow n_start_dirty] in *.
      exists R, Sh. replace (S p + length (f :: fs))%nat with (S (S p) + length fs)%nat by (simpl; lia).
      split; [unfold cl_upd; simpl; by rewrite !app_nil_r|].
      split; [eapply frame_join; [eapply frame_widen; [..|exact FR]; lia|eapply frame_widen; [..|exact F1]; lia]|].
      split; [eapply frame_trans; [|exact FS|exact G1]; lia|].
      split.
      * rewrite (proj2 F1) by lia. unfold R1. rewrite zlookup_zinsert_ne by done. apply zlookup_zinsert_eq. lia.
      * split; [|done]. exists (mark_more fs (frag_queued f d)).
        split; [done|]. split.
        -- rewrite (proj2 G1) by lia. apply zlookup_zinsert_eq. lia.
        -- destruct Hf1 as [? ? ? Hsz]. unfold frag_queued. rewrite frag_buffer_ok by done.
           assert (u32 (frag_page f * PAGE_SIZE + frag_offset f) = frag_page f * PAGE_SIZE + frag_offset f) as Hw.
           { rewrite <- frag_buffer_ok by done. unfold L4VMnet_fragment_buffer. apply wrap_small, wrap_range. done. }
           destruct fs; split; simpl; rewrite ?Hw; try done; by apply wrap_small; lia.
Qed.

Definition head_filled (skb : sk_buff) (d : ring_descriptor_t) : ring_descriptor_t :=
  let d' := nd_set_csum_at (skb_h_raw skb) (u8 (skb_h_raw skb) + skb_csum skb)
    (nd_set_type (skb_pkt_type skb) (skb_protocol skb)
      (nd_set_buffer (c_virt_to_phys (skb_data skb)) (skb_headlen skb) (nd_clear_status d))) in
  if skb_csum_hw skb then nd_set_csum true d' else d'.

(** The frame once the ring has room. *)
Definition xmit_rest (id : positive) (skb : sk_buff) (h : Z) : MN Z :=
  xmit_frags id h (skb_frags skb);;
  alter_ndesc h (nd_set_owned true);;
  mmodify (n_emit NFlush);;
  mret 0.

Lemma xmit_frame_room F id skb n n1 h d Q :
  n_start_free n = h → (1 + length (skb_frags skb) < nring)%nat →
  wp F (L4VMnet_xmit_available (size skb)) (λ b n', b = true ∧ n' = n1) n →
  n_start_free n1 = h → zlookup (n_ring n1) h = Some d → zlookup (n_shadow n1) h = Some None → d_server_owned d = false →
  wp F (xmit_rest id skb h) Q
    (cl_upd (cnext ncnt h) (n_start_dirty n1) (zinsert h (head_filled skb d) (n_ring n1))
       (zinsert h (Some id) (n_shadow n1)) [] n1) →
  wp F (L4VMnet_xmit_frame id skb) Q n.
Proof.
  intros Hh Hfr Hav Hh1 Hd Hs Ho HQ. pose proof nring_le. pose proof (zlookup_lt _ _ _ Hd) as Hr.
  unfold L4VMnet_xmit_frame. rewrite (wrap_small 16) by lia.
  rewrite (bool_decide_eq_false_2 (ncnt ≤ _)) by (unfold ncnt; lia).
  wp_step. wp_step. rewrite Hh. wp_step.
  replace (1 + length (skb_frags skb)) with (size skb : Z) by (unfold size; lia).
  eapply wp_mono; [exact Hav|]. intros b n' [-> ->]. cbv beta iota.
  wp_step. eapply wp_load_ndesc; [exact Hd|]. cbv beta. rewrite Ho. wp_step. wp_step; [done|].
  wp_step. wp_step. rewrite Hh1.
  wp_step. eapply wp_load_shadow; [exact Hs|]. cbv beta. wp_step. wp_step; [done|].
  wp_step. eapply wp_alter_ndesc; [exact Hd|]. cbv beta.
  wp_step. eapply wp_alter_ndesc; [refine (zlookup_zinsert_eq _ _ _ _); simpl; lia|]. cbv beta.
  wp_step. eapply wp_alter_ndesc; [refine (zlookup_zinsert_eq _ _ _ _); simpl; rewrite length_zinsert; lia|]. cbv beta.
  wp_step. eapply wp_store_shadow; [exact Hs|]. cbv beta.
  wp_step. eapply wp_alter_ndesc; [refine (zlookup_zinsert_eq _ _ _ _); simpl; rewrite !length_zinsert; lia|]. cbv beta.
  unfold head_filled in HQ. destruct (skb_csum_hw skb); wp_step.
  - eapply wp_alter_ndesc; [refine (zlookup_zinsert_eq _ _ _ _); simpl; rewrite !length_zinsert; lia|]. cbv beta.
    wp_step. wp_step.
    match type of HQ with wp _ _ _ ?y => match goal with |- wp _ _ _ ?x => replace x with y; [exact HQ|] end end.
    unfold cl_upd. rewrite app_nil_r. cbn. by rewrite !zinsert_zinsert.
  - wp_step. wp_step. wp_step.
    match type of HQ with wp _ _ _ ?y => match goal with |- wp _ _ _ ?x => replace x with y; [exact HQ|] end end.
    unfold cl_upd. rewrite app_nil_r. cbn. by rewrite !zinsert_zinsert.
Qed.

Lemma head_filled_ok `{!NetEnvOk} skb d : skb_ok skb →
  head_desc true false skb (nd_set_owned true (mark_more (skb_frags skb) (head_filled skb d))).
Proof.
  intros []. pose proof env_mem. pose proof env_start.
  assert (u32 (c_virt_to_phys (skb_data skb)) = c_virt_to_phys (skb_data skb)) as Hb by (apply wrap_small; lia).
  assert (u16 (skb_headlen skb) = skb_headlen skb) as Hl by (apply wrap_small; lia).
  assert (u8 (skb_h_raw skb) = skb_h_raw skb) as Hh by (apply wrap_small; lia).
  assert (u8 (skb_h_raw skb + skb_csum skb) = skb_h_raw skb + skb_csum skb) as Hc by (apply wrap_small; lia).
  assert (u8 (skb_pkt_type skb) = skb_pkt_type skb) as Ht by (apply wrap_small; lia).
  assert (u16 (skb_protocol skb) = skb_protocol skb) as Hp by (apply wrap_small; lia).
  unfold head_filled. destruct (skb_csum_hw skb) eqn:Hcs, (skb_frags skb) eqn:Hfs; split; simpl;
    rewrite ?Hb, ?Hl, ?Hh, ?Hc, ?Ht, ?Hp, ?Hcs, ?Hfs; done.
Qed.

Lemma winv_push n acc freed sent queued D SF F pk R Sh :
  winv n acc freed sent queued D SF F → skb_ok pk.2 → (F + size pk.2 < D + nring)%nat →
  frame F (F + size pk.2) (n_ring n) R → frame F (F + size pk.2) (n_shadow n) Sh → pkt_at R Sh true false pk F →
  winv (cl_upd (nslot (F + size pk.2)) (n_start_dirty n) R Sh [NFlush] n) (acc ++ [pk]) freed sent (queued ++ [pk])
    D SF (F + size pk.2).
Proof.
  intros W Hok Hroom F1 G1 Hpk. pose proof (winv_ord _ _ _ _ _ _ _ _ W). destruct W; simpl in *.
  split; simpl; try done.
  - rewrite wi_acc0. by rewrite !app_assoc.
  - by rewrite (proj1 F1).
  - by rewrite (proj1 G1).
  - eapply pkts_at_impl; [|exact wi_sent0]. simpl. intros k p pk' ???.
    apply (sent_frame _ _ _ _ _ _ F (F + size pk.2)); try done; lia.
  - apply pkts_at_app. exists F. split; [|done].
    eapply pkts_at_impl; [|exact wi_queued0]. simpl. intros k p pk' ???.
    apply (pkt_frame _ _ _ _ _ _ _ _ F (F + size pk.2)); try done; lia.
  - intros p Hp. eapply free_frame; [exact F1|exact G1|lia..|]. apply wi_slots0. lia.
  - apply Forall_app. by split; [|constructor].
  - unfold frees in *. by rewrite omap_app, wi_frees0, app_nil_r.
  - unfold xmits in *. by rewrite omap_app, wi_xmits0, app_nil_r.
Qed.

(** The whole frame operation: the packet is queued behind the others, or the
    queue is stopped while packets are outstanding. *)
Lemma xmit_frame_ok `{!NetEnvOk} n acc freed sent queued D SF F id skb :
  ninv n acc freed sent queued D SF F → skb_ok skb →
  wp no_fault (L4VMnet_xmit_frame id skb) (λ r n',
    (r = 0 ∧ ∃ l sent' D', ninv n' (acc ++ [(id, skb)]) (freed ++ l) sent' (queued ++ [(id, skb)]) D' SF (F + size skb) ∧
      sent = l ++ sent') ∨
    (r = 1 ∧ ninv n' acc freed sent queued D SF F)) n.
Proof.
  intros Hn Hok. pose proof env_frags as Hmax. pose proof (so_nfrags _ Hok) as Hnf.
  assert (0 < size skb < nring)%nat as Hsz by (unfold size; lia).
  pose proof (xmit_available_ok _ _ _ _ _ _ _ _ _ Hn Hsz) as Hav.
  apply wp_no_fault in Hav as (b & n1 & Hrun & Hb). destruct b.
  - destruct Hb as (l & sent' & D' & [W Hst] & -> & Hroom).
    pose proof (winv_ord _ _ _ _ _ _ _ _ W). pose proof (wi_free _ _ _ _ _ _ _ _ W) as Hf.
    destruct (wi_slots _ _ _ _ _ _ _ _ W F) as (d & Hd & Hs & Ho); [lia|].
    pose proof (nslot_range F) as HrF. pose proof (wi_lenR _ _ _ _ _ _ _ _ W) as HlR. pose proof (wi_lenS _ _ _ _ _ _ _ _ W) as HlS.
    eapply xmit_frame_room; [apply Hn|unfold size in *; lia|by eapply wp_run|done..|].
    rewrite cnext_nslot. set (R1 := zinsert _ _ _). set (Sh1 := zinsert _ _ _).
    assert (frame F (S F) (n_ring n1) R1) as FR by apply frame_insert.
    assert (frame F (S F) (n_shadow n1) Sh1) as FS by apply frame_insert.
    unfold xmit_rest. wp_step.
    eapply wp_mono; [apply (xmit_frags_ok id (skb_frags skb) F _ (head_filled skb d)); cbn [cl_upd n_ring n_shadow n_start_free]|].
    + by rewrite (proj1 FR).
    + by rewrite (proj1 FS).
    + done.
    + apply zlookup_zinsert_eq. lia.
    + unfold size in *; lia.
    + unfold size in *. intros q Hq. eapply free_frame; [exact FR|exact FS|lia..|].
      apply (wi_slots _ _ _ _ _ _ _ _ W). lia.
    + apply Hok.
    + intros _ n2 (R & Sh & -> & F2 & G2 & Hd2 & Hfs). cbn [cl_upd n_ring n_shadow n_start_dirty] in *.
      wp_step. eapply wp_alter_ndesc; [exact Hd2|]. cbv beta. wp_step. wp_step. wp_step.
      left. split; [done|]. exists l, sent', D'. split; [|done]. split; [|intros; unfold size; lia].
      match goal with |- winv ?x _ _ _ _ _ _ _ => replace x with (cl_upd (nslot (F + size skb)) (n_start_dirty n1)
        (zinsert (nslot F) (nd_set_owned true (mark_more (skb_frags skb) (head_filled skb d))) R) Sh [NFlush] n1) end.
      2:{ unfold cl_upd, size. cbn. rewrite !app_nil_r. rewrite Nat.add_succ_r. done. }
      replace (S F + length (skb_frags skb))%nat with (F + size skb)%nat in * by (unfold size; lia).
      assert (frame F (F + size skb) R (zinsert (nslot F) (nd_set_owned true (mark_more (skb_frags skb) (head_filled skb d))) R)) as F3.
      { eapply frame_widen; [..|apply frame_insert]; unfold size; lia. }
      apply (winv_push _ _ _ _ _ _ _ _ (id, skb)); [done..|exact Hroom| | |].
      * eapply frame_join; [|exact F3]. eapply frame_join; [|exact F2]. eapply frame_widen; [..|exact FR]; unfold size; lia.
      * eapply frame_trans; [|exact FS|exact G2]. unfold size; lia.
      * split.
        -- eexists. split; [apply zlookup_zinsert_eq; rewrite (proj1 F2), (proj1 FR); lia|]. split; [|by apply head_filled_ok].
           unfold size in *. rewrite (proj2 G2) by lia. apply zlookup_zinsert_eq. lia.
        -- unfold size in *. cbn [fst snd]. eapply frags_frame; [apply frame_insert|apply frame_refl|lia..|done].
  - destruct Hb as [-> HDF]. destruct Hn as [W Hst]. pose proof nring_le.
    unfold L4VMnet_xmit_frame. rewrite (wrap_small 16) by (unfold size in *; lia).
    rewrite (bool_decide_eq_false_2 (ncnt ≤ _)) by (unfold ncnt, size in *; lia).
    wp_step. wp_step. wp_step.
    replace (1 + length (skb_frags skb)) with (size skb : Z) by (unfold size; lia).
    eapply wp_run; [exact Hrun|]. cbv beta iota. wp_steps. right. split; [done|].
    split; [|done]. destruct W; split; simpl in *; try done.
    + unfold frees in *. by rewrite omap_app, wi_frees0, app_nil_r.
    + unfold xmits in *. by rewrite omap_app, wi_xmits0, app_nil_r.
Qed.

(** ** The server takes a packet *)

(** The server's state with another ring and index. *)
Definition srv_upd (free : Z) R (n : net) : net := n_set_srv_free free (n_set_ring R n).

Lemma frag_translate `{!NetEnvOk} f d own more : frag_ok f → bus_start = 0 → frag_desc own more f d →
  let buf := u32 (d_buffer d + bus_start) in
  let paddr := s_virt_to_phys (s_bus_to_virt buf) in
  d_buffer d ≠ 0 ∧ buf < num_physpages * PAGE_SIZE ∧ paddr ≠ 0 ∧ d_buffer_len d ≠ 0 ∧
  s_page_to_bus (Z.shiftr paddr PAGE_SHIFT) = Z.land (d_buffer d) (Z.lnot (PAGE_SIZE - 1)) ∧
  mk_frag (Z.shiftr paddr PAGE_SHIFT) (Z.land (d_buffer d) (PAGE_SIZE - 1)) (d_buffer_len d) = f.
Proof.
  intros [] Hb []. pose proof env_mem. rewrite Hb, fd_buffer0, fd_len0, Z.add_0_r.
  assert (frag_page f * PAGE_SIZE + frag_offset f < num_physpages * PAGE_SIZE) by (unfold PAGE_SIZE in *; nia).
  rewrite wrap_small by lia. intros buf paddr.
  assert (paddr = frag_page f * PAGE_SIZE + frag_offset f) as Hp by (apply env_bus; lia).
  rewrite Hp. unfold buf.
  assert (Z.shiftr (frag_page f * PAGE_SIZE + frag_offset f) PAGE_SHIFT = frag_page f) as Hsh.
  { rewrite Z.shiftr_div_pow2 by done. change (2 ^ PAGE_SHIFT) with PAGE_SIZE.
    rewrite Z.div_add_l by done. rewrite Z.div_small by lia. lia. }
  assert (Z.land (frag_page f * PAGE_SIZE + frag_offset f) (PAGE_SIZE - 1) = frag_offset f) as Hla.
  { change (PAGE_SIZE - 1) with (Z.ones 12). rewrite Z.land_ones by done. change (2 ^ 12) with PAGE_SIZE.
    rewrite Z.add_comm, Z.mod_add by done. by apply Z.mod_small. }
  assert (Z.land (frag_page f * PAGE_SIZE + frag_offset f) (Z.lnot (PAGE_SIZE - 1)) = frag_page f * PAGE_SIZE) as Hln.
  { rewrite <- Z.ldiff_land. change (PAGE_SIZE - 1) with (Z.ones 12). rewrite Z.ldiff_ones_r by done.
    change 12 with PAGE_SHIFT. rewrite Hsh, Z.shiftl_mul_pow2 by done. done. }
  rewrite Hsh, Hla, Hln, env_page by done. split_and!; try lia. by destruct f.
Qed.

Lemma wrap_frags_ok `{!NetEnvOk} R Sh id fs : ∀ fuel acc len dlen p n,
  n_ring n = R → n_srv_free n = nslot p → frags_at R Sh true id p fs → Forall frag_ok fs →
  (fs ≠ [] → bus_start = 0) → (length acc + length fs ≤ MAX_SKB_FRAGS)%nat → (length fs < fuel)%nat →
  0 ≤ len → 0 ≤ dlen ≤ len → len + frag_bytes fs < 2 ^ 32 →
  wp no_fault (wrap_frags fuel (bool_decide (fs ≠ [])) acc len dlen) (λ r n',
    r = (acc ++ fs, len + frag_bytes fs, dlen + frag_bytes fs) ∧ n' = srv_upd (nslot (p + length fs)) R n) n.
Proof.
  induction fs as [|f fs IH]; intros fuel acc len dlen p n HR Hf Hfs Hok Hb Hmax Hfuel Hl Hdl Hby.
  - destruct fuel; [simpl in *; lia|]. cbn. rewrite app_nil_r, !Z.add_0_r, Nat.add_0_r, <- Hf, <- HR.
    split; [done|]. by destruct n.
  - destruct fuel; [simpl in *; lia|]. destruct Hfs as [(d & Hd & _ & Hdf) Hfs].
    apply list.Forall_cons in Hok as [Hf1 Hok]. pose proof (fo_size _ Hf1) as Hsz.
    assert (0 ≤ frag_bytes fs) as Hnn.
    { clear -Hok. induction Hok as [|g gs []]; simpl; lia. }
    destruct (frag_translate f d _ _ Hf1 (Hb ltac:(done)) Hdf) as (H1 & H2 & H3 & H4 & H5 & H6).
    pose proof (fd_own _ _ _ _ Hdf) as Ho. pose proof (fd_more _ _ _ _ Hdf) as Hm. pose proof (fd_len _ _ _ _ Hdf) as Hlen.
    cbn [frag_bytes foldr] in Hby. change (foldr _ _ fs) with (frag_bytes fs) in Hby. simpl in Hmax.
    cbn [wrap_frags]. rewrite (bool_decide_eq_true_2 (f :: fs ≠ [])) by done. cbn [negb].
    rewrite bool_decide_eq_false_2 by lia. wp_step. wp_step. rewrite Hf.
    wp_step. eapply wp_load_ndesc; [by rewrite HR|]. cbv beta. rewrite Ho. cbn [negb]. wp_step. wp_step.
    rewrite (bool_decide_eq_true_2 _ H1), (bool_decide_eq_true_2 _ H2), (bool_decide_eq_true_2 _ H3),
      (bool_decide_eq_true_2 _ H4), (bool_decide_eq_true_2 _ H5).
    do 4 (wp_step; wp_step; [done|]). rewrite H6, Hm, Hlen, cnext_nslot, !wrap_small by lia.
    eapply wp_mono; [apply (IH _ (acc ++ [f]) (len + frag_size f) (dlen + frag_size f) (S p))|].
    all: try done; try lia; rewrite ?length_app; simpl in *; try lia.
    + intros _. by apply Hb.
    + intros r n' [-> ->]. split; [rewrite <- app_assoc; cbn [app frag_bytes foldr]; by rewrite !Z.add_assoc|].
      rewrite Nat.add_succ_r. by destruct n.
Qed.

Lemma wrap_checksum `{!NetEnvOk} skb d own drp : skb_ok skb → head_desc own drp skb d →
  let data := s_bus_to_virt (u32 (d_buffer d + bus_start)) in
  let tail := u32 (data + d_buffer_len d) in
  let h_raw := u32 (d_csum_start d + data) in
  let csum := u32 (d_csum_offset d + data - h_raw) in
  u32 (d_buffer d + bus_start) < num_physpages * PAGE_SIZE ∧
  data = s_bus_to_virt (c_virt_to_phys (skb_data skb) + bus_start) ∧ 0 < data ∧
  h_raw = data + skb_h_raw skb ∧ csum = skb_csum skb ∧
  bool_decide (data ≤ h_raw) && bool_decide (h_raw ≤ tail) && bool_decide (u32 (csum + h_raw) ≤ tail) = true.
Proof.
  intros [] []. pose proof env_mem. pose proof env_start. rewrite hd_buffer0, hd_len0, hd_start0, hd_offset0.
  rewrite (wrap_small 32 (_ + bus_start)) by lia. intros data tail h_raw csum.
  assert (0 < data) by (apply env_virt; lia). fold data in so_tail0.
  assert (tail = data + skb_headlen skb) as -> by (apply wrap_small; lia).
  assert (h_raw = data + skb_h_raw skb) as Hh by (unfold h_raw; rewrite wrap_small; lia).
  assert (csum = skb_csum skb) as Hc by (unfold csum; rewrite Hh, wrap_small; lia).
  rewrite Hh, Hc. rewrite (wrap_small 32) by lia.
  split_and!; try done; try lia.
  rewrite !bool_decide_eq_true_2 by lia. done.
Qed.

(** The server takes a waiting packet: it gives the device the client's
    packet. *)
Lemma skb_wrap_packet_ok `{!NetEnvOk} n Sh id skb k p :
  queued_pkt (n_ring n) Sh k p (id, skb) → skb_ok skb → n_srv_free n = nslot p →
  wp no_fault (L4VMnet_skb_wrap_packet true) (λ o n', ∃ d, o = Some (wrapped (nslot p) skb) ∧
    zlookup (n_ring n) (nslot p) = Some d ∧ head_desc true false skb d ∧
    n' = srv_upd (nslot (p + size skb)) (zinsert (nslot p) (nd_set_dropped true d) (n_ring n)) n) n.
Proof.
  intros [(d & Hd & _ & Hh) Hfs] Hok Hf. cbn [fst snd] in *.
  destruct (wrap_checksum _ _ _ _ Hok Hh) as (Hmem & Hdata & Hpos & Hraw & Hcs & Hhw).
  pose proof (so_headlen _ Hok). pose proof (so_data _ Hok). pose proof (so_bytes _ Hok).
  assert (0 ≤ frag_bytes (skb_frags skb)) as Hnn.
  { pose proof (so_frags _ Hok) as HF. clear -HF. induction HF as [|g gs []]; simpl; lia. }
  pose proof (hd_len _ _ _ _ Hh) as Hlen. pose proof (hd_buffer _ _ _ _ Hh) as Hbuf.
  unfold L4VMnet_skb_wrap_packet. wp_step. wp_step. rewrite Hf. wp_step. eapply wp_load_ndesc; [done|]. cbv beta.
  rewrite (hd_own _ _ _ _ Hh), (hd_drp _ _ _ _ Hh). cbn [negb]. wp_step. wp_step.
  assert (d_buffer_len d ≠ 0) as Hl0 by lia. assert (d_buffer d ≠ 0) as Hb0 by lia.
  rewrite (bool_decide_eq_true_2 _ Hl0), (bool_decide_eq_true_2 _ Hb0), (bool_decide_eq_true_2 _ Hmem).
  wp_step. wp_step; [done|]. wp_step. wp_step; [done|]. cbv zeta. wp_step. wp_step.
  { exfalso. match goal with H : _ && bool_decide _ = false |- _ => rewrite bool_decide_eq_true_2 in H by lia end. done. }
  rewrite (hd_more _ _ _ _ Hh), Hhw, Hcs, Hraw, Hdata, andb_true_r.
  rewrite (hd_csum _ _ _ _ Hh), (hd_type _ _ _ _ Hh), (hd_protocol _ _ _ _ Hh), cnext_nslot.
  wp_step. eapply wp_mono; [eapply (wrap_frags_ok _ Sh id (skb_frags skb) _ [] _ 0 (S p)); try done; try apply Hok; simpl; try lia|].
  { pose proof (so_nfrags _ Hok). lia. }
  intros r n1 [-> ->]. rewrite Hlen. cbv beta iota zeta.
  rewrite wrap_small by lia. wp_step. wp_step.
  { exfalso. match goal with H : bool_decide _ = false |- _ => rewrite bool_decide_eq_true_2 in H by lia end. done. }
  wp_step. eapply wp_alter_ndesc; [exact Hd|]. cbv beta. wp_step.
  exists d. split; [done|]. split; [done|]. split; [done|]. unfold srv_upd, size.
  rewrite Nat.add_succ_r. by destruct n.
Qed.

Lemma queued_shift R Sh l : ∀ p k k' e, pkts_at (queued_pkt R Sh) p k l e → pkts_at (queued_pkt R Sh) p k' l e.
Proof. induction l as [|pk l IH]; simpl; [done|]. intros p k k' e [? ?]. split; [done|eauto]. Qed.

Lemma images_app l pk : images (l ++ [pk]) = images l ++ [(length l, wrapped 0 pk.2)].
Proof. unfold images. rewrite imap_app. simpl. by rewrite Nat.add_0_r. Qed.

Definition dev_given (k : nat) (s : server_skb) (free : Z) R (n : net) : net :=
  n_emit (NXmit k s) (n_set_next (S k) (n_set_inflight (<[k := s]> (n_inflight n)) (srv_upd free R n))).

Lemma winv_take n acc freed sent pk queued D SF F d :
  winv n acc freed sent (pk :: queued) D SF F →
  zlookup (n_ring n) (nslot SF) = Some d → head_desc true false pk.2 d →
  winv (dev_given (n_next n) (wrapped (nslot SF) pk.2) (nslot (SF + size pk.2))
      (zinsert (nslot SF) (nd_set_dropped true d) (n_ring n)) n) acc freed (sent ++ [pk]) queued D (SF + size pk.2) F.
Proof.
  intros W Hd Hh. pose proof (winv_ord _ _ _ _ _ _ _ _ W) as Hord. destruct W.
  destruct wi_queued0 as [Hpk Hq]. pose proof (pkts_at_le _ _ _ _ _ Hq) as Hle.
  pose proof (nslot_range SF) as Hr. simpl in *.
  assert (frame SF (S SF) (n_ring n) (zinsert (nslot SF) (nd_set_dropped true d) (n_ring n))) as FR by apply frame_insert.
  assert (1 ≤ size pk.2)%nat by (unfold size; lia).
  split; simpl; try done.
  - rewrite wi_acc0. by rewrite <- app_assoc.
  - by rewrite length_zinsert.
  - apply pkts_at_app. exists SF. split.
    + eapply pkts_at_impl; [|exact wi_sent0]. intros k p pk' ???.
      apply (sent_frame _ _ _ _ _ _ SF (S SF)); try done; try lia. apply lookup_insert_ne. lia.
    + split; [|done]. left. rewrite wi_next0, lookup_insert_eq. split; [done|].
      destruct Hpk as [(d' & Hd' & Hs & _) Hfs]. split.
      * exists (nd_set_dropped true d). rewrite zlookup_zinsert_eq by lia. split_and!; [done..|].
        destruct Hh; by split.
      * eapply frags_frame; [exact FR|apply frame_refl|unfold size in *; lia..|done].
  - apply (queued_shift _ _ _ _ 1). eapply pkts_at_impl; [|exact Hq]. intros k p pk' ???.
    apply (pkt_frame _ _ _ _ _ _ _ _ SF (S SF)); try done; lia.
  - intros p Hp. eapply free_frame; [exact FR|apply frame_refl|lia..|]. by apply wi_slots0.
  - intros k s. rewrite length_app. simpl. destruct (decide (k = n_next n)) as [->|Hk]; [lia|].
    rewrite lookup_insert_ne by done. intros ?%wi_infl0. lia.
  - rewrite length_app. simpl. lia.
  - unfold frees in *. by rewrite omap_app, wi_frees0, app_nil_r.
  - unfold xmits in *. rewrite omap_app, wi_xmits0, app_assoc, images_app, length_app, wi_next0. done.
Qed.

(** The server's step: the oldest waiting packet goes to the device; nothing
    happens without one, or without memory. *)
Lemma dev_queue_ok `{!NetEnvOk} alloc n acc freed sent queued D SF F :
  ninv n acc freed sent queued D SF F →
  wp no_fault (L4VMnet_dev_queue_client_pkt alloc true) (λ b n',
    if b then ∃ pk queued', queued = pk :: queued' ∧ ninv n' acc freed (sent ++ [pk]) queued' D (SF + size pk.2) F
    else n' = n ∧ (alloc = true → queued = [])) n.
Proof.
  intros [W Hst]. pose proof (winv_ord _ _ _ _ _ _ _ _ W) as Hord. pose proof (wi_room _ _ _ _ _ _ _ _ W).
  pose proof (wi_srv _ _ _ _ _ _ _ _ W) as Hsrv. pose proof (wi_queued _ _ _ _ _ _ _ _ W) as Hq.
  unfold L4VMnet_dev_queue_client_pkt. wp_step. destruct queued as [|pk queued].
  - simpl in Hq. subst F. destruct (wi_slots _ _ _ _ _ _ _ _ W SF) as (d & Hd & Hs & Ho); [lia|].
    unfold L4VMnet_skb_wrap_packet. wp_step. wp_step. rewrite Hsrv. wp_step. eapply wp_load_ndesc; [done|].
    cbv beta. rewrite Ho. cbn [negb]. wp_step. done.
  - destruct Hq as [Hpk _]. destruct alloc.
    + assert (skb_ok pk.2) as Hok.
      { pose proof (wi_ok _ _ _ _ _ _ _ _ W) as HF. rewrite (wi_acc _ _ _ _ _ _ _ _ W) in HF.
        apply Forall_app in HF as [_ HF]. apply Forall_app in HF as [_ HF]. by apply list.Forall_cons in HF as [? _]. }
      destruct pk as [id skb]. eapply wp_mono; [by eapply skb_wrap_packet_ok|].
      intros o n' (d & -> & Hd & Hh & ->). cbv beta iota. wp_step. wp_step; [done|]. wp_step. wp_step.
      wp_step. wp_step. wp_step. wp_step. wp_step. exists (id, skb), queued. split; [done|]. split; [|exact Hst].
      exact (winv_take _ _ _ _ (id, skb) _ _ _ _ _ W Hd Hh).
    + destruct Hpk as [(d & Hd & Hs & [])  _]. unfold L4VMnet_skb_wrap_packet. wp_step. wp_step. rewrite Hsrv.
      wp_step. eapply wp_load_ndesc; [done|]. cbv beta. rewrite hd_own0, hd_drp0. cbn [negb]. wp_step. done.
Qed.

(** ** The device is done with a socket buffer *)

Lemma release_frags_ok R Sh id fs : ∀ p n,
  n_ring n = R → length R = nring → frags_at R Sh true id p fs → (length fs ≤ nring)%nat →
  wp no_fault (release_frags (length fs) (nslot p)) (λ _ n', ∃ R', n' = n_set_ring R' n ∧
    frame p (p + length fs) R R' ∧ frags_at R' Sh false id p fs) n.
Proof.
  revert R. induction fs as [|f fs IH]; intros R p n HR HlR Hfs Hle; cbn [length release_frags].
  - wp_step. exists R. rewrite <- HR. split; [by destruct n|]. done.
  - destruct Hfs as [(d & Hd & Hs & Hf) Hfs]. simpl in Hle. pose proof (nslot_range p).
    wp_step. eapply wp_load_ndesc; [by rewrite HR|]. cbv beta. rewrite (fd_own _ _ _ _ Hf).
    wp_step. wp_step; [done|]. wp_step. eapply wp_alter_ndesc; [by rewrite HR|]. cbv beta. rewrite cnext_nslot, HR.
    set (R1 := zinsert (nslot p) (nd_set_owned false d) R).
    assert (frame p (S p) R R1) as FR by apply frame_insert.
    eapply wp_mono; [apply (IH R1 (S p)); [done|by rewrite (proj1 FR)| |lia]|].
    + eapply frags_frame; [exact FR|apply frame_refl|lia..|done].
    + intros _ n' (R' & -> & F1 & Hfs'). exists R'. split; [by destruct n|].
      replace (p + S (length fs))%nat with (S p + length fs)%nat by lia.
      split; [eapply frame_trans; [|exact FR|exact F1]; lia|].
      split; [|done]. exists (nd_set_owned false d). split.
      * rewrite (proj2 F1) by lia. apply zlookup_zinsert_eq. lia.
      * split; [done|]. destruct Hf; by split.
Qed.

Lemma skb_destructor_ok n pk k p :
  length (n_ring n) = nring → (size pk.2 < nring)%nat →
  n_inflight n !! k = Some (wrapped (nslot p) pk.2) → pkt_at (n_ring n) (n_shadow n) true true pk p →
  wp no_fault (L4VMnet_skb_destructor k) (λ _ n', ∃ R,
    n' = n_set_inflight (delete k (n_inflight n)) (n_set_ring R n) ∧ frame p (p + size pk.2) (n_ring n) R ∧
    pkt_at R (n_shadow n) false true pk p) n.
Proof.
  intros HlR Hsz Hk [(d & Hd & Hs & Hh) Hfs]. pose proof (nslot_range p) as Hr.
  unfold L4VMnet_skb_destructor. wp_step. wp_step. rewrite Hk. wp_step. wp_step; [done|]. simplify_eq.
  cbn [wrapped ss_start_frag ss_frag_count]. rewrite (bool_decide_eq_true_2 (nslot p < ncnt)) by (unfold ncnt; lia).
  wp_step. wp_step; [done|]. wp_step. eapply wp_load_ndesc; [done|]. cbv beta.
  rewrite (hd_own _ _ _ _ Hh), (hd_drp _ _ _ _ Hh). wp_step. wp_step; [done|]. wp_step.
  rewrite cnext_nslot, Nat2Z.id, (hd_more _ _ _ _ Hh).
  assert (∀ n1 R1, n1 = n_set_ring R1 n → frame (S p) (S p + length (skb_frags pk.2)) (n_ring n) R1 →
    frags_at R1 (n_shadow n) false pk.1 (S p) (skb_frags pk.2) →
    wp no_fault (alter_ndesc (nslot p) (nd_set_owned false);;
      mmodify (λ n, n_set_inflight (delete k (n_inflight n)) n)) (λ _ n', ∃ R,
      n' = n_set_inflight (delete k (n_inflight n)) (n_set_ring R n) ∧ frame p (p + size pk.2) (n_ring n) R ∧
      pkt_at R (n_shadow n) false true pk p) n1) as Hfin.
  { intros n1 R1 -> F1 Hfs1. unfold size in *.
    assert (zlookup R1 (nslot p) = Some d) as Hd1 by (rewrite (proj2 F1) by lia; done).
    wp_step. eapply wp_alter_ndesc; [exact Hd1|]. cbv beta. wp_step.
    exists (zinsert (nslot p) (nd_set_owned false d) R1). split; [by destruct n|]. split.
    - rewrite <- Nat.add_succ_comm. eapply frame_join; [eapply frame_widen; [..|exact F1]; lia|].
      eapply frame_widen; [..|apply frame_insert]; lia.
    - split.
      + eexists. split; [apply zlookup_zinsert_eq; rewrite (proj1 F1); lia|]. split; [done|]. destruct Hh; by split.
      + eapply frags_frame; [apply frame_insert|apply frame_refl|lia..|done]. }
  destruct (skb_frags pk.2) as [|f fs] eqn:Hfr.
  - rewrite bool_decide_eq_false_2 by naive_solver. wp_step. apply (Hfin _ (n_ring n)); [by destruct n|done..].
  - rewrite bool_decide_eq_true_2 by done. rewrite <- Hfr in *.
    eapply wp_mono; [eapply (release_frags_ok _ (n_shadow n) pk.1); try done; unfold size in *; lia|].
    intros _ n1 (R1 & -> & F1 & Hfs1). by eapply Hfin.
Qed.

(** The packet of a socket buffer that is with the device. *)
Lemma winv_inflight n acc freed sent queued D SF F k s :
  winv n acc freed sent queued D SF F → n_inflight n !! k = Some s →
  ∃ l1 pk l2 p e, sent = l1 ++ pk :: l2 ∧ k = (length freed + length l1)%nat ∧ e = (p + size pk.2)%nat ∧
    pkts_at (sent_pkt (n_ring n) (n_shadow n) (n_inflight n)) D (length freed) l1 p ∧
    pkts_at (sent_pkt (n_ring n) (n_shadow n) (n_inflight n)) e (S k) l2 SF ∧
    n_inflight n !! k = Some (wrapped (nslot p) pk.2) ∧ pkt_at (n_ring n) (n_shadow n) true true pk p.
Proof.
  intros W Hk. pose proof (wi_infl _ _ _ _ _ _ _ _ W _ _ Hk) as Hr. pose proof (wi_sent _ _ _ _ _ _ _ _ W) as Hs.
  destruct (lookup_lt_is_Some_2 sent (k - length freed)) as [pk Hpk]; [lia|].
  pose proof (take_drop_middle _ _ _ Hpk) as Hsp. rewrite <- Hsp in Hs.
  apply pkts_at_app in Hs as (p & H1 & H2 & H3).
  rewrite length_take_le in H2, H3 by lia. replace (length freed + (k - length freed))%nat with k in * by lia.
  eexists _, pk, _, p, _. split; [by symmetry|]. rewrite length_take_le by lia. split; [lia|]. split; [done|].
  split; [done|]. split; [done|]. destruct H2 as [[? ?]|[? ?]]; [done|congruence].
Qed.

Lemma destructor_ok n acc freed sent queued D SF F k s :
  ninv n acc freed sent queued D SF F → n_inflight n !! k = Some s →
  wp no_fault (L4VMnet_skb_destructor k) (λ _ n', ninv n' acc freed sent queued D SF F ∧
    n_inflight n' = delete k (n_inflight n)) n.
Proof.
  intros [W Hst] Hk. pose proof (winv_ord _ _ _ _ _ _ _ _ W).
  destruct (winv_inflight _ _ _ _ _ _ _ _ _ _ W Hk) as (l1 & pk & l2 & p & e & Hsp & Hkl & -> & H1 & H2 & Hk' & Hpk).
  pose proof (pkts_at_le _ _ _ _ _ H1). pose proof (pkts_at_le _ _ _ _ _ H2).
  pose proof (wi_room _ _ _ _ _ _ _ _ W).
  eapply wp_mono; [apply (skb_destructor_ok n pk k p); [apply W|lia|done..]|].
  intros _ n' (R & -> & F1 & Hpk'). split; [|done]. split; [|done].
  destruct W. split; simpl in *; try done.
  - by rewrite (proj1 F1).
  - rewrite Hsp. apply pkts_at_app. exists p. split.
    + eapply pkts_at_impl; [|exact H1]. intros k' p' pk' ???.
      apply (sent_frame _ _ _ _ _ _ p (p + size pk.2)); try done; try lia. apply lookup_delete_ne. lia.
    + rewrite <- Hkl. split; [right; by rewrite lookup_delete_eq|].
      eapply pkts_at_impl; [|exact H2]. intros k' p' pk' ???.
      apply (sent_frame _ _ _ _ _ _ p (p + size pk.2)); try done; try lia. apply lookup_delete_ne. lia.
  - eapply pkts_at_impl; [|exact wi_queued0]. intros k' p' pk' ???.
    apply (pkt_frame _ _ _ _ _ _ _ _ p (p + size pk.2)); try done; lia.
  - intros q Hq. eapply free_frame; [exact F1|apply frame_refl|lia..|]. by apply wi_slots0.
  - intros k' s' [? Hs']%lookup_delete_Some. eauto.
Qed.

(** ** The protocol *)

(** A step of either side, or of the device; [acc] lists the packets the client
    has accepted. *)
Inductive net_step : net * list (positive * sk_buff) → net * list (positive * sk_buff) → Prop :=
  | step_xmit n acc id skb r n' :
      skb_ok skb → L4VMnet_xmit_frame id skb n = Ok r n' →
      net_step (n, acc) (n', if decide (r = 0) then acc ++ [(id, skb)] else acc)
  | step_clean n acc u n' : L4VMnet_clean_send_ring n = Ok u n' → net_step (n, acc) (n', acc)
  | step_serve n acc alloc b n' : L4VMnet_dev_queue_client_pkt alloc true n = Ok b n' → net_step (n, acc) (n', acc)
  | step_done n acc k s u n' : n_inflight n !! k = Some s → L4VMnet_skb_destructor k n = Ok u n' →
      net_step (n, acc) (n', acc).

(** The state after [L4VMnet_open] and the start of the server. *)
Definition net_init (d : ring_descriptor_t) : net :=
  mk_net 0 0 (replicate nring None) false (replicate nring (nd_clear_status d)) 0 ∅ 0 [].

Definition net_reach (d : ring_descriptor_t) (n : net) (acc : list (positive * sk_buff)) : Prop :=
  rtc net_step (net_init d, []) (n, acc).

Lemma net_init_inv d : ninv (net_init d) [] [] [] [] 0 0 0.
Proof.
  split; [|done]. pose proof nring_pos. split; try done.
  intros p Hp. cbn [net_init n_ring n_shadow]. exists (nd_clear_status d). rewrite !zlookup_replicate by apply nslot_range. done.
Qed.

Definition Inv (st : net * list (positive * sk_buff)) : Prop :=
  ∃ freed sent queued D SF F, ninv st.1 st.2 freed sent queued D SF F.

Lemma net_step_inv `{!NetEnvOk} st st' : net_step st st' → Inv st → Inv st'.
Proof.
  intros Hstep (freed & sent & queued & D & SF & F & Hn). destruct Hstep; simpl in *.
  - pose proof (wp_ok _ _ _ _ _ _ (xmit_frame_ok _ _ _ _ _ _ _ _ id skb Hn ltac:(done)) ltac:(done))
      as [(-> & l & sent' & D' & Hn' & _)|[-> Hn']]; simpl; unfold Inv; eauto 10.
  - pose proof (wp_ok _ _ _ _ _ _ (clean_send_ring_ok _ _ _ _ _ _ _ _ Hn) ltac:(done)) as (l & sent' & D' & Hn' & _).
    unfold Inv; eauto 10.
  - pose proof (wp_ok _ _ _ _ _ _ (dev_queue_ok alloc _ _ _ _ _ _ _ _ Hn) ltac:(done)) as Hb.
    destruct b; [destruct Hb as (pk & q & -> & Hn')|destruct Hb as [-> _]]; unfold Inv; eauto 10.
  - pose proof (wp_ok _ _ _ _ _ _ (destructor_ok _ _ _ _ _ _ _ _ _ _ Hn ltac:(done)) ltac:(done)) as [Hn' _].
    unfold Inv; eauto 10.
Qed.

Lemma net_reach_inv `{!NetEnvOk} d n acc : net_reach d n acc →
  ∃ freed sent queued D SF F, ninv n acc freed sent queued D SF F.
Proof.
  intros Hr. change (Inv (n, acc)). unfold net_reach in Hr. revert Hr. generalize (n, acc). apply rtc_ind_r.
  - do 6 eexists. apply net_init_inv.
  - intros st st' _ Hstep ?. by eapply net_step_inv.
Qed.

(** From any reachable state the server, the device and the client finish the
    outstanding packets. *)
Lemma serve_all `{!NetEnvOk} acc freed D F queued : ∀ n sent SF,
  ninv n acc freed sent queued D SF F →
  ∃ n' , rtc net_step (n, acc) (n', acc) ∧ ninv n' acc freed (sent ++ queued) [] D F F.
Proof.
  induction queued as [|pk queued IH]; intros n sent SF Hn.
  - exists n. split; [done|]. rewrite app_nil_r. pose proof (wi_queued _ _ _ _ _ _ _ _ (proj1 Hn)) as Hq.
    simpl in Hq. by subst.
  - pose proof (dev_queue_ok true _ _ _ _ _ _ _ _ Hn) as Hw. apply wp_no_fault in Hw as (b & n1 & Hrun & Hb).
    destruct b; [|destruct Hb as [_ Hb]; discriminate (Hb eq_refl)]. destruct Hb as (pk' & q' & [= <- <-] & Hn1).
    destruct (IH _ _ _ Hn1) as (n' & Hr & Hn'). exists n'. split; [|by rewrite <- app_assoc in Hn'].
    eapply rtc_l; [by eapply step_serve|done].
Qed.

Lemma finish_all acc freed sent queued D SF F : ∀ (m : nat) n,
  base.size (n_inflight n) = m → ninv n acc freed sent queued D SF F →
  ∃ n', rtc net_step (n, acc) (n', acc) ∧ ninv n' acc freed sent queued D SF F ∧ n_inflight n' = ∅.
Proof.
  induction m as [|m IH]; intros n Hm Hn.
  - exists n. apply map_size_empty_inv in Hm. done.
  - destruct (map_choose (n_inflight n)) as (k & s & Hk); [intros E0; rewrite E0, map_size_empty in Hm; lia|].
    pose proof (destructor_ok _ _ _ _ _ _ _ _ _ _ Hn Hk) as Hw. apply wp_no_fault in Hw as (u & n1 & Hrun & Hn1 & Hi).
    destruct (IH n1) as (n' & Hr & Hn' & Hi'); [rewrite Hi, map_size_delete_Some by eauto; lia|done|].
    exists n'. split; [|done]. eapply rtc_l; [by eapply step_done|done].
Qed.

(** With no socket buffer with the device and none waiting, cleaning frees
    everything. *)
Lemma clean_all n acc freed sent D F :
  ninv n acc freed sent [] D F F → n_inflight n = ∅ →
  wp no_fault L4VMnet_clean_send_ring (λ _ n', ninv n' acc acc [] [] F F F ∧ n_inflight n' = ∅) n.
Proof.
  intros Hn Hi. eapply wp_mono; [by apply clean_send_ring_ok|].
  intros u n' (l & sent' & D' & Hn' & -> & HD & Hstop & Hi' & _). rewrite Hi in Hi'. split; [|done].
  pose proof (proj1 Hn') as W. pose proof (wi_sent _ _ _ _ _ _ _ _ W) as Hs.
  assert (sent' = []) as ->.
  { destruct sent' as [|pk sent']; [done|]. exfalso. destruct Hs as [Hpk Hs]. apply pkts_at_le in Hs.
    destruct (Hstop ltac:(unfold size in Hs; lia)) as (d & Hd & Ho). rewrite Hi' in Hpk.
    destruct Hpk as [[Hk _]|[_ [(d' & Hd' & _ & []) _]]]; [by rewrite lookup_empty in Hk|congruence]. }
  simpl in Hs. subst D'. pose proof (wi_acc _ _ _ _ _ _ _ _ W) as Hacc. rewrite !app_nil_r in Hacc.
  by rewrite <- Hacc in Hn'.
Qed.

(** ** The server's transmit loop *)

Definition waiting (n : net) (acc queued : list (positive * sk_buff)) : Prop :=
  ∃ freed sent D SF F, ninv n acc freed sent queued D SF F.

(** One round takes one packet of every operating client that has one. *)
Definition next_queue (b : bool) (q : list (positive * sk_buff)) := if b then tail q else q.

Definition tx_client (alloc : net → bool) (operating : bool) (n : net) : res net bool :=
  if operating then L4VMnet_dev_queue_client_pkt (alloc n) true n else Ok false n.

Lemma tx_client_ok `{!NetEnvOk} alloc operating n acc q : waiting n acc q →
  ∃ b n', tx_client alloc operating n = Ok b n' ∧ waiting n' acc (next_queue b q) ∧
    (b = true → q ≠ []) ∧ (operating = true → (∀ m, alloc m = true) → b = false → q = []).
Proof.
  intros (freed & sent & D & SF & F & Hn). destruct operating; simpl.
  - pose proof (dev_queue_ok (alloc n) _ _ _ _ _ _ _ _ Hn) as Hw. apply wp_no_fault in Hw as (b & n' & Hrun & Hb).
    exists b, n'. split; [done|]. destruct b.
    + destruct Hb as (pk & q' & -> & Hn'). split; [unfold waiting; eauto 10|done].
    + destruct Hb as [-> Hq]. split; [unfold waiting; eauto 10|]. split; [done|]. auto.
  - exists false, n. split; [done|]. split; [unfold waiting; eauto 10|]. done.
Qed.

(** The clients with the packets each has accepted and those that wait. *)
Abbreviation ghost := (list (positive * sk_buff) * list (positive * sk_buff))%type.
Definition clients_ok (clients : list (bool * net)) (gs : list ghost) : Prop :=
  Forall2 (λ c g, waiting c.2 g.1 g.2) clients gs.
Definition total_waiting (gs : list ghost) : nat := foldr (λ (g : ghost) a, (length g.2 + a)%nat) 0%nat gs.

Lemma tx_round_ok `{!NetEnvOk} alloc clients gs : clients_ok clients gs →
  ∃ pkts clients' gs', tx_round alloc clients = inr (pkts, clients') ∧ clients_ok clients' gs' ∧
    gs'.*1 = gs.*1 ∧ clients'.*1 = clients.*1 ∧ (total_waiting gs' + pkts)%nat = total_waiting gs ∧
    (pkts = 0%nat → (∀ m, alloc m = true) → Forall2 (λ c g, c.1 = true → g.2 = []) clients' gs').
Proof.
  induction 1 as [|[op n] [acc q] clients gs Hc _ (pkts & cs' & gs' & Hr & H1 & H2 & H3 & H4 & H5)].
  - exists 0%nat, [], []. split_and!; try done; constructor.
  - destruct (tx_client_ok alloc op n acc q Hc) as (b & n' & Hrun & Hw & Hb & Hnb).
    exists (if b then S pkts else pkts), ((op, n') :: cs'), ((acc, next_queue b q) :: gs'). split.
    { cbn [tx_round]. unfold tx_client in Hrun. by rewrite Hrun, Hr. }
    split; [by constructor|]. split; [simpl; by f_equal|]. split; [simpl; by f_equal|]. split.
    + cbn [total_waiting foldr] in *. fold (total_waiting gs') (total_waiting gs). simpl. destruct b; simpl; [|lia].
      destruct q; [by destruct Hb|]. simpl. lia.
    + destruct b; [done|]. intros ? Ha. constructor; [|auto]. simpl. auto.
Qed.

Lemma tx_loop_ok `{!NetEnvOk} alloc : ∀ fuel total clients gs,
  clients_ok clients gs → (total_waiting gs < fuel)%nat →
  ∃ pkts clients' gs', tx_loop alloc fuel total clients = inr ((total + pkts)%nat, clients') ∧ clients_ok clients' gs' ∧
    gs'.*1 = gs.*1 ∧ clients'.*1 = clients.*1 ∧
    ((∀ m, alloc m = true) → Forall2 (λ c g, c.1 = true → g.2 = []) clients' gs').
Proof.
  induction fuel as [|fuel IH]; intros total clients gs Hc Hf; [lia|]. cbn [tx_loop].
  destruct (tx_round_ok alloc _ _ Hc) as (pkts & cs' & gs' & Hr & H1 & H2 & H3 & H4 & H5). rewrite Hr.
  case_bool_decide as Hp.
  - exists 0%nat, cs', gs'. rewrite Nat.add_0_r. auto 10.
  - destruct (IH (total + pkts)%nat cs' gs' H1) as (pkts' & cs & gs'' & Hl & ? & ? & ? & ?); [lia|].
    exists (pkts + pkts')%nat, cs, gs''. rewrite Nat.add_assoc. split_and!; try done; congruence.
Qed.

Lemma waiting_bound n acc q : waiting n acc q → (length q < nring)%nat.
Proof.
  intros (freed & sent & D & SF & F & W & _). pose proof (winv_ord _ _ _ _ _ _ _ _ W).
  pose proof (wi_room _ _ _ _ _ _ _ _ W). lia.
Qed.
Lemma total_waiting_bound clients gs : clients_ok clients gs → (total_waiting gs ≤ length clients * nring)%nat.
Proof.
  induction 1 as [|c g clients gs Hc%waiting_bound _ IH]; [unfold total_waiting; simpl; lia|].
  cbn [total_waiting foldr length]. fold (total_waiting gs). lia.
Qed.
Lemma waiting_done n acc : waiting n acc [] → xmits (n_events n) = images acc.
Proof.
  intros (freed & sent & D & SF & F & W & _). rewrite (wi_xmits _ _ _ _ _ _ _ _ W), (wi_acc _ _ _ _ _ _ _ _ W).
  by rewrite app_nil_r.
Qed.
End protocol.
