(* ===== verification/NetProtocol.v ===== *)
(** * What the network send protocol promises

    The theorems on the send path of the network driver, from the window
    invariant of NetSend.v, with a sample environment for their witnesses. *)

From stdpp Require Import base list gmap numbers relations.
From Stdlib Require Import ZArith Lia.
From S2P Require Import Prelude Net NetSend.

Section claims.
Context {E : NetEnv} {Eok : NetEnvOk}.

(** C2. In every reachable state the packets the client accepted are, in order,
    those whose socket buffers it has freed, those the server has given to its
    device, and those that wait; the device got exactly the packets of the first
    two groups, each once, in the order of acceptance and with the client's data,
    fragments, lengths, protocol and checksum request. *)
Theorem net_send_in_order d n acc : net_reach d n acc →
  ∃ freed sent queued, acc = freed ++ sent ++ queued ∧ xmits (n_events n) = images (freed ++ sent).
Proof.
  intros (freed & sent & queued & D & SF & F & W & _)%net_reach_inv. exists freed, sent, queued.
  split; apply W.
Qed.

(** C26. The client frees the socket buffers it accepted in the order of acceptance,
    each once, and only those whose packet the server's device has finished: no
    freed packet is still with the device. *)
Theorem net_skb_freed_after_done d n acc : net_reach d n acc →
  ∃ m, frees (n_events n) = (take m acc).*1 ∧ (m ≤ length (xmits (n_events n)))%nat ∧
    (∀ k, (k < m)%nat → n_inflight n !! k = None).
Proof.
  intros (freed & sent & queued & D & SF & F & W & _)%net_reach_inv. exists (length freed).
  rewrite (wi_frees _ _ _ _ _ _ _ _ W), (wi_xmits _ _ _ _ _ _ _ _ W).
  rewrite (wi_acc _ _ _ _ _ _ _ _ W), take_app_length. split; [done|]. split.
  - unfold images. rewrite length_imap, length_app. lia.
  - intros k Hk. destruct (n_inflight n !! k) eqn:Hi; [|done].
    apply (wi_infl _ _ _ _ _ _ _ _ W) in Hi. lia.
Qed.

(** No operation of the client, of the server or of the device faults in a
    reachable state: no assertion of the two drivers fails, no loop runs
    without end, no index leaves its array. *)
Theorem net_send_safe d n acc : net_reach d n acc →
  (∀ id skb, skb_ok skb → ∃ r n', L4VMnet_xmit_frame id skb n = Ok r n') ∧
  (∃ n', L4VMnet_clean_send_ring n = Ok tt n') ∧
  (∀ alloc, ∃ b n', L4VMnet_dev_queue_client_pkt alloc true n = Ok b n') ∧
  (∀ k, is_Some (n_inflight n !! k) → ∃ n', L4VMnet_skb_destructor k n = Ok tt n').
Proof.
  intros (freed & sent & queued & D & SF & F & Hn)%net_reach_inv. split_and!.
  - intros id skb Hok. destruct (wp_no_fault _ _ _ (xmit_frame_ok _ _ _ _ _ _ _ _ id skb Hn Hok)) as (r & n' & ? & _). eauto.
  - destruct (wp_no_fault _ _ _ (clean_send_ring_ok _ _ _ _ _ _ _ _ Hn)) as ([] & n' & ? & _). eauto.
  - intros alloc. destruct (wp_no_fault _ _ _ (dev_queue_ok alloc _ _ _ _ _ _ _ _ Hn)) as (b & n' & ? & _). eauto.
  - intros k [s Hs]. destruct (wp_no_fault _ _ _ (destructor_ok _ _ _ _ _ _ _ _ _ _ Hn Hs)) as ([] & n' & ? & _). eauto.
Qed.

(** C31. The network queue of the client is never left stopped with nothing
    outstanding, and from every reachable state the outstanding packets can be
    finished: all packets accepted reach the device, all their socket buffers are
    freed, the whole ring is available and the queue runs. *)
Theorem net_send_drains d n acc : net_reach d n acc →
  ∃ n', rtc net_step (n, acc) (n', acc) ∧ xmits (n_events n') = images acc ∧ frees (n_events n') = acc.*1 ∧
    n_queue_stopped n' = false ∧
    L4VMnet_ring_available (n_start_dirty n') (n_start_free n') = IVMnet_snd_descriptor_ring_cnt - 1.
Proof.
  intros (freed & sent & queued & D & SF & F & Hn)%net_reach_inv.
  destruct (serve_all _ _ _ _ _ _ _ _ Hn) as (n1 & R1 & Hn1).
  destruct (finish_all _ _ _ _ _ _ _ _ _ eq_refl Hn1) as (n2 & R2 & Hn2 & Hi).
  destruct (wp_no_fault _ _ _ (clean_all _ _ _ _ _ _ Hn2 Hi)) as (u & n3 & Hrun & [W Hst] & _).
  exists n3. split.
  { etrans; [exact R1|]. etrans; [exact R2|]. eapply rtc_once, step_clean, Hrun. }
  rewrite (wi_frees _ _ _ _ _ _ _ _ W), (wi_xmits _ _ _ _ _ _ _ _ W), app_nil_r.
  rewrite (wi_dirty _ _ _ _ _ _ _ _ W), (wi_free _ _ _ _ _ _ _ _ W), ring_available_slots by (pose proof nring_pos; lia).
  split; [done|]. split; [done|]. split; [|lia].
  destruct (n_queue_stopped n3); [|done]. specialize (Hst eq_refl). lia.
Qed.

(** The server's transmit loop over its clients terminates without a fault
    whatever memory allocation does, and when every allocation succeeds, it
    leaves no packet of an operating client behind: the device has got all
    packets the client accepted. *)
Theorem transmit_client_pkts_complete d alloc clients accs :
  Forall2 (λ c acc, net_reach d c.2 acc) clients accs →
  ∃ pkts clients', L4VMnet_transmit_client_pkts alloc clients = inr (pkts, clients') ∧ clients'.*1 = clients.*1 ∧
    ((∀ m, alloc m = true) → Forall2 (λ c acc, c.1 = true → xmits (n_events c.2) = images acc) clients' accs).
Proof.
  intros Hc. assert (∃ gs, clients_ok clients gs ∧ gs.*1 = accs) as (gs & Hok & Hgs).
  { induction Hc as [|c acc clients accs Hr _ (gs & ? & ?)]; [exists []; split; [constructor|done]|].
    destruct (net_reach_inv _ _ _ Hr) as (freed & sent & queued & D & SF & F & Hn).
    exists ((acc, queued) :: gs). split; [|simpl; by f_equal]. constructor; [|done]. unfold waiting. simpl. eauto 10. }
  destruct (tx_loop_ok alloc (S (length clients * nring)) 0 clients gs Hok) as (pkts & cs & gs' & Hl & H1 & H2 & H3 & H4).
  { pose proof (total_waiting_bound _ _ Hok). lia. }
  exists pkts, cs. split; [exact Hl|]. split; [done|]. intros Ha. specialize (H4 Ha).
  rewrite <- Hgs, <- H2. clear -H1 H4. induction H1 as [|c g cs gs Hc _ IH]; [constructor|].
  apply Forall2_cons in H4 as [H H4]. simpl. constructor; [|auto]. intros Ho. apply waiting_done. by rewrite <- (H Ho).
Qed.

(** A client whose memory does not start at bus address 0 cannot send fragments
    to a server built with assertions: the server compares the page it computed
    with the client's bus address without the offset of the client, and enters
    the kernel debugger. *)
Theorem fragment_page_assert fuel frags len data_len n d :
  zlookup (n_ring n) (n_srv_free n) = Some d → d_server_owned d = true → d_buffer d ≠ 0 → d_buffer_len d ≠ 0 →
  0 ≤ d_buffer d → d_buffer d + bus_start < num_physpages * PAGE_SIZE → PAGE_SIZE ≤ bus_start →
  (length frags < MAX_SKB_FRAGS)%nat →
  wrap_frags (S fuel) true frags len data_len n = Err AssertFail.
Proof.
  intros Hd Ho Hb Hl H0 Hmem Hbus Hmax. apply wp_only_fault. pose proof env_mem.
  cbn [wrap_frags negb]. rewrite bool_decide_eq_false_2 by lia. wp_step. wp_step.
  wp_step. eapply wp_load_ndesc; [done|]. cbv beta. rewrite Ho. cbn [negb]. wp_step. wp_step.
  rewrite (wrap_small 32) by (unfold PAGE_SIZE in *; lia). rewrite env_bus by (unfold PAGE_SIZE in *; lia).
  do 4 (wp_step; wp_step; [done|]). exfalso.
  match goal with H : bool_decide (s_page_to_bus _ = _) = true |- _ => apply bool_decide_eq_true in H as Hp end.
  rewrite Z.shiftr_div_pow2 in Hp by done. change (2 ^ PAGE_SHIFT) with PAGE_SIZE in Hp.
  rewrite env_page in Hp by (split; [apply Z.div_pos|apply Z.div_lt_upper_bound]; unfold PAGE_SIZE in *; lia).
  rewrite <- Z.ldiff_land in Hp. change (PAGE_SIZE - 1) with (Z.ones 12) in Hp. rewrite Z.ldiff_ones_r in Hp by done.
  rewrite Z.shiftl_mul_pow2, Z.shiftr_div_pow2 in Hp by done. change (2 ^ 12) with PAGE_SIZE in Hp.
  unfold PAGE_SIZE in *. Z.to_euclidean_division_equations. lia.
Qed.
End claims.

(** ** A sample environment and run *)

#[local] Instance sample_env : NetEnv := {|
  c_virt_to_phys := λ x, x - 3221225472;
  s_bus_to_virt := λ b, b + 3221225472;
  s_virt_to_phys := λ x, x - 3221225472;
  s_page_to_bus := λ p, p * PAGE_SIZE;
  num_physpages := 4096;
  MAX_SKB_FRAGS := 18;
  bus_start := 0
|}.
#[local] Instance sample_env_ok : NetEnvOk.
Proof.
  split; cbn [s_virt_to_phys s_bus_to_virt s_page_to_bus num_physpages bus_start MAX_SKB_FRAGS sample_env]; intros;
    unfold PAGE_SIZE in *; try lia; unfold nring; lia.
Qed.

Definition sample_skb : sk_buff :=
  mk_skb 3221241856 60 0 8 34 16 true [mk_frag 5 128 1000; mk_frag 7 0 400].
Lemma sample_skb_ok : skb_ok sample_skb.
Proof.
  split; unfold PAGE_SIZE; cbn -[Z.lt Z.le]; try lia; try done.
  repeat constructor; unfold PAGE_SIZE; cbn -[Z.lt Z.le]; lia.
Qed.

Definition after {A} (m : MN A) (n : net) : net := match m n with Ok _ n' => n' | Err _ => n end.
Definition result {A} (m : MN A) (n : net) : option A := match m n with Ok a _ => Some a | Err _ => None end.
Lemma result_after {A} (m : MN A) n a : result m n = Some a → m n = Ok a (after m n).
Proof. unfold result, after. by destruct (m n) as [? ?|?]; intros [= ->]. Qed.

Definition sample_desc : ring_descriptor_t := mk_ndesc 0 0 0 false false false false 0 0 0.
Definition sample0 : net := net_init sample_desc.
Definition sample1 : net := after (L4VMnet_xmit_frame 1 sample_skb) sample0.
Definition sample2 : net := after (L4VMnet_xmit_frame 2 sample_skb) sample1.
Definition sample3 : net := after (L4VMnet_dev_queue_client_pkt true true) sample2.
Definition sample4 : net := after (L4VMnet_skb_destructor 0) sample3.
Definition sample5 : net := after L4VMnet_clean_send_ring sample4.
Definition sample_acc : list (positive * sk_buff) := [(1%positive, sample_skb); (2%positive, sample_skb)].

(** Two packets queued, one of them sent, finished and freed. *)
Lemma sample_reach : net_reach sample_desc sample5 sample_acc.
Proof.
  assert (result (L4VMnet_xmit_frame 1 sample_skb) sample0 = Some 0) as H1 by (vm_compute; reflexivity).
  assert (result (L4VMnet_xmit_frame 2 sample_skb) sample1 = Some 0) as H2 by (vm_compute; reflexivity).
  assert (result (L4VMnet_dev_queue_client_pkt true true) sample2 = Some true) as H3 by (vm_compute; reflexivity).
  assert (result (L4VMnet_skb_destructor 0) sample3 = Some tt) as H4 by (vm_compute; reflexivity).
  assert (result L4VMnet_clean_send_ring sample4 = Some tt) as H5 by (vm_compute; reflexivity).
  assert (n_inflight sample3 !! 0%nat = Some (wrapped 0 sample_skb)) as H6 by (vm_compute; reflexivity).
  eapply rtc_l; [exact (step_xmit sample0 [] 1 sample_skb 0 sample1 sample_skb_ok (result_after _ _ _ H1))|].
  eapply rtc_l; [exact (step_xmit sample1 _ 2 sample_skb 0 sample2 sample_skb_ok (result_after _ _ _ H2))|].
  eapply rtc_l; [exact (step_serve sample2 _ true true sample3 (result_after _ _ _ H3))|].
  eapply rtc_l; [exact (step_done sample3 _ 0 _ tt sample4 H6 (result_after _ _ _ H4))|].
  eapply rtc_l; [exact (step_clean sample4 _ tt sample5 (result_after _ _ _ H5))|]. apply rtc_refl.
Qed.
Lemma sample_forall2 : Forall2 (λ c acc, net_reach sample_desc c.2 acc) [(true, sample5); (false, sample5)] [sample_acc; sample_acc].
Proof. repeat constructor; apply sample_reach. Qed.

Lemma net_send_in_order_witness : ∃ freed sent queued, sample_acc = freed ++ sent ++ queued ∧
  xmits (n_events sample5) = images (freed ++ sent).
Proof. exact (net_send_in_order sample_desc sample5 sample_acc sample_reach). Defined.
Lemma net_skb_freed_after_done_witness : ∃ m, frees (n_events sample5) = (take m sample_acc).*1 ∧
  (m ≤ length (xmits (n_events sample5)))%nat ∧ (∀ k, (k < m)%nat → n_inflight sample5 !! k = None).
Proof. exact (net_skb_freed_after_done sample_desc sample5 sample_acc sample_reach). Defined.
Lemma net_send_safe_witness :
  (∀ id skb, skb_ok skb → ∃ r n', L4VMnet_xmit_frame id skb sample5 = Ok r n') ∧
  (∃ n', L4VMnet_clean_send_ring sample5 = Ok tt n') ∧
  (∀ alloc, ∃ b n', L4VMnet_dev_queue_client_pkt alloc true sample5 = Ok b n') ∧
  (∀ k, is_Some (n_inflight sample5 !! k) → ∃ n', L4VMnet_skb_destructor k sample5 = Ok tt n').
Proof. exact (net_send_safe sample_desc sample5 sample_acc sample_reach). Defined.
Lemma net_send_drains_witness : ∃ n', rtc net_step (sample5, sample_acc) (n', sample_acc) ∧
  xmits (n_events n') = images sample_acc ∧ frees (n_events n') = sample_acc.*1 ∧ n_queue_stopped n' = false ∧
  L4VMnet_ring_available (n_start_dirty n') (n_start_free n') = IVMnet_snd_descriptor_ring_cnt - 1.
Proof. exact (net_send_drains sample_desc sample5 sample_acc sample_reach). Defined.
Lemma transmit_client_pkts_complete_witness : ∃ pkts clients',
  L4VMnet_transmit_client_pkts (λ _, true) [(true, sample5); (false, sample5)] = inr (pkts, clients') ∧
  clients'.*1 = [true; false] ∧
  ((∀ m : net, true = true) → Forall2 (λ c acc, c.1 = true → xmits (n_events c.2) = images acc) clients' [sample_acc; sample_acc]).
Proof. exact (transmit_client_pkts_complete sample_desc (λ _, true) _ _ sample_forall2). Defined.

(** The sample run frees one packet and leaves one waiting. *)
Example sample_run : frees (n_events sample5) = [1%positive] ∧ xmits (n_events sample5) = [(0%nat, wrapped 0 sample_skb)].
Proof. split; by vm_compute. Qed.
