(* ===== verification/NetRecv.v ===== *)
(** * The network driver: receiving

    Models the receive path of l4ka-driver-reuse/kernel/net: the server's queue
    of packets for one client and its delivery by string-copy IPC (server.c), the
    client's receive ring, its device thread and its interrupt handler
    (client.c). The IPC of the L4 kernel, the allocator and the network layer of
    Linux are parameters. *)

From Stdlib Require Import ZArith Lia.
From stdpp Require Import base list gmap numbers.
From S2P Require Import Prelude.

Definition L4VMNET_SKB_RING_LEN : nat := 256.
Definition IVMnet_max_receiver_cnt : nat := 8.
Definition IVMnet_rcv_buffer_cnt : nat := 16.
Definition IVMnet_rcv_buffer_size : Z := 1600.

(** ** The server's side (server.c) *)

(** A packet in a socket buffer: its identity and [skb_headlen]. *)
Record packet : Type := mk_packet { pkt_id : positive; pkt_len : Z }.
#[global] Instance packet_eq_dec : EqDecision packet.
Proof. solve_decision. Defined.

Inductive srv_event : Type :=
  | SDrop (p : packet)                  (** [dev_kfree_skb_any] of a packet that is not queued *)
  | SFree (p : packet)                  (** [dev_kfree_skb_any] of a packet that was delivered *)
  | SMsg (tid : Z) (ps : list packet)   (** the message to a receiver thread *)
  | SFlush.                             (** [tasklet_hi_schedule] *)

(** The part of a client's structure on the receive path: the flag, the packet
    ring and the receiver threads of the shared area ([0] is [L4_nilthread]). *)
Record rcv_client : Type := mk_rcv {
  rc_operating : bool;
  rc_ring : list (option packet);
  rc_free : Z;
  rc_dirty : Z;
  rc_receiver_cnt : Z;
  rc_tids : list Z;
  rc_events : list srv_event
}.
Definition rc_set_ring l (r : rcv_client) := mk_rcv (rc_operating r) l (rc_free r) (rc_dirty r) (rc_receiver_cnt r) (rc_tids r) (rc_events r).
Definition rc_set_free x (r : rcv_client) := mk_rcv (rc_operating r) (rc_ring r) x (rc_dirty r) (rc_receiver_cnt r) (rc_tids r) (rc_events r).
Definition rc_set_dirty x (r : rcv_client) := mk_rcv (rc_operating r) (rc_ring r) (rc_free r) x (rc_receiver_cnt r) (rc_tids r) (rc_events r).
Definition rc_set_tids l (r : rcv_client) := mk_rcv (rc_operating r) (rc_ring r) (rc_free r) (rc_dirty r) (rc_receiver_cnt r) l (rc_events r).
Definition rc_emit e (r : rcv_client) := mk_rcv (rc_operating r) (rc_ring r) (rc_free r) (rc_dirty r) (rc_receiver_cnt r) (rc_tids r) (rc_events r ++ [e]).

Abbreviation MR := (M rcv_client).
Definition rcnt : Z := L4VMNET_SKB_RING_LEN.
Definition load_skb (i : Z) : MR (option packet) := o ← mgets (λ r, zlookup (rc_ring r) i); mof_option OutOfBounds o.
Definition store_skb (i : Z) (o : option packet) : MR unit := load_skb i;; mmodify (λ r, rc_set_ring (zinsert i o (rc_ring r)) r).
Definition load_tid (i : Z) : MR Z := o ← mgets (λ r, zlookup (rc_tids r) i); mof_option OutOfBounds o.
Definition store_tid (i x : Z) : MR unit := load_tid i;; mmodify (λ r, rc_set_tids (zinsert i x (rc_tids r)) r).

(** [L4VMnet_skb_ring_pending] (net.h) *)
Definition L4VMnet_skb_ring_pending (start_free start_dirty : Z) : Z := u16 (Z.rem (start_free + rcnt - start_dirty) rcnt).

(** [dirty_tx] is [atomic_read(&dirty_tx_pkt_cnt)]. *)
Definition L4VMnet_queue_pkt_to_client (dirty_tx : Z) (p : packet) : MR unit :=
  r ← mget;
  if negb (rc_operating r) then mmodify (rc_emit (SDrop p)) else
  o ← load_skb (rc_free r);
  match o with
  | Some _ => mmodify (rc_emit (SDrop p));; mmodify (rc_emit SFlush)
  | None =>
      store_skb (rc_free r) (Some p);;
      mmodify (rc_set_free (cnext rcnt (rc_free r)));;
      r ← mget;
      if bool_decide (2 < L4VMnet_skb_ring_pending (rc_free r) (rc_dirty r)) || bool_decide (dirty_tx = 0)
      then mmodify (rc_emit SFlush) else mret tt
  end.

(** The string items of a message: at most [n] more packets from [idx] on. *)
Fixpoint gather (n : nat) (idx : Z) (items : list packet) : MR (list packet) :=
  match n with
  | O => mret items
  | S n =>
      o ← load_skb idx;
      match o with
      | None => mret items
      | Some p =>
          dirty ← mgets rc_dirty;
          if bool_decide (Z.rem (idx + 1) rcnt = dirty) then mret (items ++ [p])
          else gather n (Z.rem (idx + 1) rcnt) (items ++ [p])
      end
  end.

(** The packets the receiver has got whole leave the ring. *)
Fixpoint commit (n : nat) (transferred : Z) : MR unit :=
  match n with
  | O => mret tt
  | S n =>
      if bool_decide (transferred = 0) then mret tt else
      i ← mgets rc_dirty;
      o ← load_skb i;
      p ← mof_option NullDeref o;
      if bool_decide (pkt_len p ≤ transferred) then
        mmodify (rc_emit (SFree p));;
        store_skb i None;;
        mmodify (rc_set_dirty (cnext rcnt i));;
        commit n (transferred - pkt_len p)
      else commit n 0
  end.

(** What the IPC of the L4 kernel reports: success, or its error code. *)
Inductive ipc_result : Type := IpcOk | IpcErr (code : Z).
Definition total_len (ps : list packet) : Z := foldr (λ p a, pkt_len p + a) 0 ps.

Definition L4VMnet_xmit_packets_to_client_thread (ipc : Z → list packet → ipc_result) (receiver : Z) : MR bool :=
  r ← mget;
  if bool_decide (rc_receiver_cnt r ≤ receiver) then mret false else
  tid ← load_tid receiver;
  items ← gather IVMnet_rcv_buffer_cnt (rc_dirty r) [];
  if bool_decide (items = []) then mret false else
  store_tid receiver 0;;
  mmodify (rc_emit (SMsg tid items));;
  transferred ← (match ipc tid items with
    | IpcOk => mret (u32 (total_len items))
    | IpcErr err =>
        if bool_decide (Z.land (Z.shiftr err 1) 7 ≤ 3) then store_tid receiver tid;; mret 0
        else mret (Z.shiftr err 4)
    end);
  commit (length items) transferred;;
  mret true.

Fixpoint xmit_to_receivers (ipc : Z → list packet → ipc_result) (n : nat) (receiver : Z) : MR unit :=
  match n with
  | O => mret tt
  | S n =>
      r ← mget;
      if bool_decide (rc_receiver_cnt r ≤ receiver) then mret tt else
      tid ← load_tid receiver;
      if bool_decide (tid = 0) then xmit_to_receivers ipc n (receiver + 1) else
      more ← L4VMnet_xmit_packets_to_client_thread ipc receiver;
      if (more : bool) then xmit_to_receivers ipc n (receiver + 1) else mret tt
  end.
Definition L4VMnet_xmit_packets_to_client (ipc : Z → list packet → ipc_result) : MR unit :=
  xmit_to_receivers ipc IVMnet_max_receiver_cnt 0.

(** ** The client's side (client.c) *)

Definition L4VMNET_IRQ_PKTS_AVAIL : Z := 1.
Definition L4VMNET_IRQ_RING_EMPTY : Z := 2.

(** A receive descriptor; the buffer is named by its socket buffer, [None] for
    address 0. *)
Record rcv_desc : Type := mk_rdesc { rd_buffer : option nat; rd_len : Z; rd_owned : bool }.
Definition rcv_cnt : nat := IVMnet_rcv_buffer_cnt * 4.

(** The device thread: about to look for buffers, asleep for want of them, or
    waiting for packets. *)
Inductive thread_state : Type := TPrepare | TSleep | TWait.

Inductive cl_event : Type := CRx (p : packet) (len : Z). (** [netif_rx] of a buffer with packet [p] *)

(** A receive group. [g_mem] is what the buffers hold, [g_next] names the next
    socket buffer. *)
Record rcv_group : Type := mk_group {
  g_status : Z;
  g_ring : list rcv_desc;
  g_free : Z;
  g_dirty : Z;
  g_shadow : list (option nat);
  g_thread : thread_state;
  g_mem : gmap nat packet;
  g_next : nat;
  g_events : list cl_event
}.
Definition g_set_status x g := mk_group x (g_ring g) (g_free g) (g_dirty g) (g_shadow g) (g_thread g) (g_mem g) (g_next g) (g_events g).
Definition g_set_ring l g := mk_group (g_status g) l (g_free g) (g_dirty g) (g_shadow g) (g_thread g) (g_mem g) (g_next g) (g_events g).
Definition g_set_free x g := mk_group (g_status g) (g_ring g) x (g_dirty g) (g_shadow g) (g_thread g) (g_mem g) (g_next g) (g_events g).
Definition g_set_dirty x g := mk_group (g_status g) (g_ring g) (g_free g) x (g_shadow g) (g_thread g) (g_mem g) (g_next g) (g_events g).
Definition g_set_shadow l g := mk_group (g_status g) (g_ring g) (g_free g) (g_dirty g) l (g_thread g) (g_mem g) (g_next g) (g_events g).
Definition g_set_thread t g := mk_group (g_status g) (g_ring g) (g_free g) (g_dirty g) (g_shadow g) t (g_mem g) (g_next g) (g_events g).
Definition g_set_mem m g := mk_group (g_status g) (g_ring g) (g_free g) (g_dirty g) (g_shadow g) (g_thread g) m (g_next g) (g_events g).
Definition g_set_next x g := mk_group (g_status g) (g_ring g) (g_free g) (g_dirty g) (g_shadow g) (g_thread g) (g_mem g) x (g_events g).
Definition g_emit e g := mk_group (g_status g) (g_ring g) (g_free g) (g_dirty g) (g_shadow g) (g_thread g) (g_mem g) (g_next g) (g_events g ++ [e]).

Abbreviation MG := (M rcv_group).
Definition gcnt : Z := rcv_cnt.
Definition load_rdesc (i : Z) : MG rcv_desc := o ← mgets (λ g, zlookup (g_ring g) i); mof_option OutOfBounds o.
Definition store_rdesc (i : Z) (d : rcv_desc) : MG unit := load_rdesc i;; mmodify (λ g, g_set_ring (zinsert i d (g_ring g)) g).
Definition load_rshadow (i : Z) : MG (option nat) := o ← mgets (λ g, zlookup (g_shadow g) i); mof_option OutOfBounds o.
Definition store_rshadow (i : Z) (o : option nat) : MG unit := load_rshadow i;; mmodify (λ g, g_set_shadow (zinsert i o (g_shadow g)) g).

(** The search for buffers in [rcv_thread_prepare]: whether there are enough. *)
Fixpoint count_buffers (fuel : nat) (total : nat) (i : Z) : MG bool :=
  match fuel with
  | O => mfault Diverged
  | S fuel =>
      s ← load_rshadow i;
      d ← load_rdesc i;
      if bool_decide (s = None) || negb (rd_owned d) then mret false else
      if bool_decide (IVMnet_rcv_buffer_cnt ≤ S total)%nat then mret true else
      free ← mgets g_free;
      let i := cnext gcnt i in
      if bool_decide (i = free) then mret false else count_buffers fuel (S total) i
  end.
(** One round of [rcv_thread_prepare]: the device thread goes on to wait for
    packets, or sleeps until it is woken. *)
Definition L4VMnet_rcv_thread_prepare : MG unit :=
  free ← mgets g_free;
  enough ← count_buffers IVMnet_rcv_buffer_cnt 0 free;
  (if (enough : bool) then mret tt else mmodify (λ g, g_set_status (Z.lor (g_status g) L4VMNET_IRQ_RING_EMPTY) g));;
  status ← mgets g_status;
  if bool_decide (Z.land status L4VMNET_IRQ_RING_EMPTY ≠ 0) then mmodify (g_set_thread TSleep)
  else mmodify (g_set_thread TWait).

(** The string item acceptors of [rcv_thread_wait]: the buffers and their sizes. *)
Fixpoint acceptors (n : nat) (pkt : Z) : MG (list (option nat * Z)) :=
  match n with
  | O => mret []
  | S n =>
      d ← load_rdesc pkt;
      massert (rd_owned d);;
      rest ← acceptors n (cnext gcnt pkt);
      mret ((rd_buffer d, rd_len d) :: rest)
  end.
(** The received string items, by their lengths. *)
Fixpoint swallow (lens : list Z) : MG unit :=
  match lens with
  | [] => mret tt
  | len :: lens =>
      i ← mgets g_free;
      d ← load_rdesc i;
      massert (rd_owned d);;
      store_rdesc i (mk_rdesc (rd_buffer d) (u16 len) false);;
      mmodify (g_set_free (cnext gcnt i));;
      (if bool_decide (0 < u16 len) then mmodify (λ g, g_set_status (Z.lor (g_status g) L4VMNET_IRQ_PKTS_AVAIL) g) else mret tt);;
      swallow lens
  end.
(** The kernel copies the items into the buffers in turn. *)
Fixpoint copy_items (bufs : list (option nat * Z)) (ps : list packet) (m : gmap nat packet) : gmap nat packet :=
  match bufs, ps with
  | (Some b, _) :: bufs, p :: ps => copy_items bufs ps (<[b := p]> m)
  | _, _ => m
  end.
(** [rcv_thread_wait] when the message [ps] arrives, up to the next round of
    the thread. *)
Definition L4VMnet_rcv_thread_wait (ps : list packet) : MG unit :=
  free ← mgets g_free;
  bufs ← acceptors IVMnet_rcv_buffer_cnt free;
  mmodify (λ g, g_set_mem (copy_items bufs ps (g_mem g)) g);;
  swallow (pkt_len <$> ps);;
  mmodify (g_set_thread TPrepare).

(** [walk_rcv_ring]; the wake-up IPC ends the wait of the device thread, if it
    waits. [alloc] tells which allocations of socket buffers succeed. *)
Fixpoint walk_loop (alloc : nat → bool) (fuel : nat) (transferred : nat) : MG nat :=
  match fuel with
  | O => mfault Diverged
  | S fuel =>
      i ← mgets g_dirty;
      d ← load_rdesc i;
      skb ← load_rshadow i;
      if rd_owned d then mret transferred else
      skb ← (match skb with
        | Some b =>
            if bool_decide (0 < rd_len d) then
              m ← mgets g_mem;
              p ← mof_option DanglingDeref (m !! b);
              mmodify (g_emit (CRx p (rd_len d)));;
              mret None
            else mret (Some b)
        | None => mret None
        end);
      skb ← (match skb with
        | Some b => mret (Some b)
        | None =>
            k ← mgets g_next;
            mmodify (g_set_next (S k));;
            let o := if alloc k then Some k else None in
            store_rshadow i o;;
            (if bool_decide (o = None) then store_rdesc i (mk_rdesc None 0 (rd_owned d)) else mret tt);;
            mret o
        end);
      match skb with
      | Some b =>
          store_rdesc i (mk_rdesc (Some b) IVMnet_rcv_buffer_size true);;
          mmodify (g_set_dirty (cnext gcnt i));;
          walk_loop alloc fuel (S transferred)
      | None => mret transferred
      end
  end.
Definition L4VMnet_walk_rcv_ring (alloc : nat → bool) (wake : bool) : MG unit :=
  n ← walk_loop alloc (S rcv_cnt) 0;
  if bool_decide (n ≠ 0%nat) && wake then mmodify (g_set_thread TPrepare) else mret tt.
(** The receive part of a round of [L4VMnet_irq_handler]: whether there was an
    event. *)
Definition L4VMnet_irq_handler_rcv (alloc : nat → bool) : MG bool :=
  events ← mgets g_status;
  mmodify (g_set_status 0);;
  if bool_decide (events = 0) then mret false else
  L4VMnet_walk_rcv_ring alloc (bool_decide (Z.land events L4VMNET_IRQ_RING_EMPTY ≠ 0));;
  mret true.
