(* ===== verification/NetRecvQueue.v ===== *)
(** * The server's packet queue for a client

    The receive ring of a client in the server (NetRecv.v) implements a bounded
    FIFO queue of packets, from which messages of up to sixteen packets go to the
    client. *)

From stdpp Require Import base list gmap numbers.
From Stdlib Require Import ZArith Lia.
From S2P Require Import Prelude NetRecv.

Abbreviation qlen := L4VMNET_SKB_RING_LEN.
Abbreviation qslot := (slot L4VMNET_SKB_RING_LEN).
Lemma qlen_pos : (0 < qlen)%nat.
Proof. unfold qlen. lia. Qed.
Lemma qlen_le : qlen ≤ 2 ^ 16.
Proof. unfold qlen. lia. Qed.
Lemma qslot_range p : 0 ≤ qslot p < qlen.
Proof. apply slot_range, qlen_pos. Qed.
Lemma cnext_qslot p : cnext rcnt (qslot p) = qslot (S p).
Proof. apply slot_succ; [apply qlen_pos|apply qlen_le]. Qed.
Lemma rem_qslot p : Z.rem (qslot p + 1) rcnt = qslot (S p).
Proof.
  rewrite <- cnext_qslot. unfold cnext. symmetry. apply wrap_small. pose proof (qslot_range p).
  pose proof qlen_le. pose proof (Z.rem_bound_pos (qslot p + 1) rcnt). unfold rcnt in *. lia.
Qed.

(** The ring of [r] holds the packets [q], the oldest at position [D]. *)
Record queue_at (r : rcv_client) (q : list packet) (D : nat) : Prop := {
  qa_len : length (rc_ring r) = qlen;
  qa_dirty : rc_dirty r = qslot D;
  qa_free : rc_free r = qslot (D + length q);
  qa_room : (length q ≤ qlen)%nat;
  qa_slot : ∀ i, (i < qlen)%nat → zlookup (rc_ring r) (qslot (D + i)) = Some (q !! i)
}.

Lemma wp_load_skb F i o r Q : zlookup (rc_ring r) i = Some o → Q o r → wp F (load_skb i) Q r.
Proof. intros H HQ. unfold load_skb. wp_steps; [congruence|]. by simplify_eq. Qed.
Lemma wp_store_skb F i x o r Q : zlookup (rc_ring r) i = Some o →
  Q tt (rc_set_ring (zinsert i x (rc_ring r)) r) → wp F (store_skb i x) Q r.
Proof. intros H HQ. unfold store_skb. apply wp_bind. by apply (wp_load_skb F i o). Qed.

Lemma queue_at_emit r q D e : queue_at r q D → queue_at (rc_emit e r) q D.
Proof. intros []; by split. Qed.
Lemma queue_at_tids r q D l : queue_at r q D → queue_at (rc_set_tids l r) q D.
Proof. intros []; by split. Qed.

Lemma queue_at_push r q D p : queue_at r q D → (length q < qlen)%nat →
  queue_at (rc_set_free (qslot (S (D + length q))) (rc_set_ring (zinsert (qslot (D + length q)) (Some p) (rc_ring r)) r))
    (q ++ [p]) D.
Proof.
  intros [] Hlt. split; simpl; rewrite ?length_zinsert, ?length_app; try done; simpl; try lia.
  - f_equal. lia.
  - intros i Hi. pose proof (qslot_range (D + length q)). destruct (decide (i = length q)) as [->|Hne].
    + rewrite zlookup_zinsert_eq by lia. by rewrite list_lookup_middle.
    + rewrite zlookup_zinsert_ne by (intros E; apply slot_inj in E; [lia|apply qlen_pos|lia..]).
      rewrite qa_slot0 by done. f_equal. destruct (decide (i < length q)%nat).
      * by rewrite lookup_app_l.
      * rewrite (lookup_ge_None_2 q), lookup_app_r by lia. symmetry. apply lookup_ge_None_2. simpl. lia.
Qed.

Lemma queue_at_pop r p q D : queue_at r (p :: q) D →
  queue_at (rc_set_dirty (qslot (S D)) (rc_set_ring (zinsert (qslot D) None (rc_ring r)) r)) q (S D).
Proof.
  intros []. simpl in *. pose proof (qslot_range D). split; simpl; rewrite ?length_zinsert; try done; try lia.
  - rewrite qa_free0. f_equal. lia.
  - intros i Hi. destruct (decide (i = qlen - 1)%nat) as [->|Hne].
    + replace (S (D + (qlen - 1))) with (D + qlen)%nat by (pose proof qlen_pos; lia).
      rewrite slot_add_n, zlookup_zinsert_eq by lia. f_equal. symmetry. apply lookup_ge_None_2. lia.
    + rewrite zlookup_zinsert_ne.
      * rewrite <- Nat.add_succ_r. rewrite qa_slot0 by lia. done.
      * rewrite <- Nat.add_succ_r. intros E. rewrite <- (Nat.add_0_r D) in E at 1.
        apply slot_inj in E; [lia|apply qlen_pos|lia..].
Qed.

Definition freed (evs : list srv_event) : list packet := omap (λ e, match e with SFree p => Some p | _ => None end) evs.
Definition drops (evs : list srv_event) : list packet := omap (λ e, match e with SDrop p => Some p | _ => None end) evs.
Definition messages (evs : list srv_event) : list (list packet) := omap (λ e, match e with SMsg _ ps => Some ps | _ => None end) evs.

Definition sent (evs : list srv_event) : list (Z * list packet) := omap (λ e, match e with SMsg tid ps => Some (tid, ps) | _ => None end) evs.

(** What a change to the trace adds. *)
Definition adds (evs : list srv_event) (r r' : rcv_client) : Prop :=
  rc_events r' = rc_events r ++ evs ∧ rc_operating r' = rc_operating r ∧ rc_receiver_cnt r' = rc_receiver_cnt r.

(** Queueing: the packet joins the queue; when the client is not operating or
    the ring is full, it is freed. *)
Lemma queue_pkt_ok dirty_tx p r q D : queue_at r q D →
  wp no_fault (L4VMnet_queue_pkt_to_client dirty_tx p) (λ _ r', ∃ evs, adds evs r r' ∧ rc_tids r' = rc_tids r ∧
    messages evs = [] ∧ freed evs = [] ∧
    if rc_operating r && bool_decide (length q < qlen)%nat
    then queue_at r' (q ++ [p]) D ∧ drops evs = []
    else queue_at r' q D ∧ drops evs = [p]) r.
Proof.
  intros Hq. unfold L4VMnet_queue_pkt_to_client. wp_step. wp_step. destruct (rc_operating r) eqn:Ho; cbn [negb andb].
  - destruct (decide (length q < qlen)%nat) as [Hlt|Hge].
    + assert (zlookup (rc_ring r) (rc_free r) = Some None) as Hs.
      { rewrite (qa_free _ _ _ Hq), (qa_slot _ _ _ Hq) by done. f_equal. by apply lookup_ge_None_2. }
      rewrite (bool_decide_eq_true_2 (length q < qlen)%nat) by done. wp_step. eapply wp_load_skb; [exact Hs|]. cbv beta iota.
      wp_step. eapply wp_store_skb; [exact Hs|]. cbv beta. wp_step. wp_step. wp_step. wp_step.
      rewrite (qa_free _ _ _ Hq), cnext_qslot. pose proof (queue_at_push r q D p Hq Hlt) as Hq'.
      wp_step; wp_step; [exists [SFlush]|exists []]; split_and!; unfold adds; simpl; rewrite ?app_nil_r; try done.
      by apply queue_at_emit.
    + rewrite (bool_decide_eq_false_2 (length q < qlen)%nat) by done.
      assert (length q = qlen) as Hl by (pose proof (qa_room _ _ _ Hq); lia).
      destruct (lookup_lt_is_Some_2 q 0) as [p0 Hp0]; [pose proof qlen_pos; lia|].
      assert (zlookup (rc_ring r) (rc_free r) = Some (Some p0)) as Hs.
      { rewrite (qa_free _ _ _ Hq), Hl, slot_add_n, <- (Nat.add_0_r D), (qa_slot _ _ _ Hq) by apply qlen_pos. by rewrite Hp0. }
      wp_step. eapply wp_load_skb; [exact Hs|]. cbv beta iota. wp_step. wp_step. wp_step.
      exists [SDrop p; SFlush]. split_and!; unfold adds; simpl; try rewrite <- app_assoc; try done.
      by do 2 apply queue_at_emit.
  - wp_step. exists [SDrop p]. split_and!; unfold adds; simpl; try done. by apply queue_at_emit.
Qed.

(** Gathering a message: the oldest packets. *)
Lemma gather_ok r q D : queue_at r q D → ∀ n j items, (j + n < qlen)%nat → items = take j q → (j ≤ length q)%nat →
  wp no_fault (gather n (qslot (D + j)) items) (λ l r', r' = r ∧ l = take (j + n) q) r.
Proof.
  intros Hq. induction n as [|n IH]; intros j items Hjn -> Hj; cbn [gather].
  - wp_step. by rewrite Nat.add_0_r.
  - wp_step. eapply wp_load_skb; [apply (qa_slot _ _ _ Hq); lia|]. cbv beta.
    destruct (q !! j) as [p|] eqn:Hp.
    + wp_step. wp_step. rewrite rem_qslot, (qa_dirty _ _ _ Hq). rewrite bool_decide_eq_false_2.
      * rewrite <- Nat.add_succ_r. pose proof (lookup_lt_Some _ _ _ Hp).
        eapply wp_mono; [apply (IH (S j)); [lia|by erewrite take_S_r|lia]|].
        intros l r' [-> ->]. split; [done|]. f_equal. lia.
      * rewrite <- Nat.add_succ_r. intros E. rewrite <- (Nat.add_0_r D) in E at 2.
        apply slot_inj in E; [lia|apply qlen_pos|lia..].
    + wp_step. split; [done|]. apply lookup_ge_None in Hp. rewrite !take_ge by lia. done.
Qed.

(** How many packets of a message a number of transferred bytes completes. *)
Fixpoint whole (n : nat) (transferred : Z) (q : list packet) : nat :=
  match n, q with
  | S n, p :: q => if decide (transferred ≠ 0 ∧ pkt_len p ≤ transferred) then S (whole n (transferred - pkt_len p) q) else 0
  | _, _ => 0
  end.

Lemma commit_zero n r : commit n 0 r = Ok tt r.
Proof. by destruct n. Qed.

Lemma commit_ok n : ∀ t r q D, queue_at r q D → (n ≤ length q)%nat →
  wp no_fault (commit n t) (λ _ r', ∃ evs, adds evs r r' ∧ rc_tids r' = rc_tids r ∧ messages evs = [] ∧ drops evs = [] ∧
    freed evs = take (whole n t q) q ∧ queue_at r' (drop (whole n t q) q) (D + whole n t q)) r.
Proof.
  induction n as [|n IH]; intros t r q D Hq Hn; cbn [commit].
  - wp_step. exists []. unfold adds. cbn [whole]. rewrite app_nil_r, drop_0, Nat.add_0_r. done.
  - destruct q as [|p q]; [simpl in *; lia|]. simpl in Hn. case_bool_decide as Ht.
    { wp_step. exists []. unfold adds. cbn [whole]. rewrite decide_False by naive_solver.
      rewrite app_nil_r, drop_0, Nat.add_0_r. done. }
    pose proof (qslot_range D). pose proof (qa_len _ _ _ Hq).
    assert (zlookup (rc_ring r) (rc_dirty r) = Some (Some p)) as Hs.
    { rewrite (qa_dirty _ _ _ Hq), <- (Nat.add_0_r D), (qa_slot _ _ _ Hq) by apply qlen_pos. done. }
    wp_step. wp_step. wp_step. eapply wp_load_skb; [exact Hs|]. cbv beta. cbn [mof_option]. wp_step. wp_step.
    case_bool_decide as Hlen.
    + wp_step. wp_step. wp_step. eapply wp_store_skb; [exact Hs|]. cbv beta. wp_step. wp_step.
      rewrite (qa_dirty _ _ _ Hq), cnext_qslot.
      eapply wp_mono; [apply (IH (t - pkt_len p) _ q (S D)); [|lia]|].
      { apply (queue_at_pop _ p), queue_at_emit, Hq. }
      intros _ r' (evs & (E1 & E2 & E3) & Ht' & Hm & Hdr & Hf & Hq'). exists (SFree p :: evs).
      cbn [whole]. rewrite decide_True by done. unfold adds. simpl in *.
      rewrite E1, <- app_assoc, E2, E3. split_and!; try done; [by rewrite <- Hf|].
      by rewrite Nat.add_succ_r.
    + eapply wp_run; [apply commit_zero|]. exists []. cbn [whole]. rewrite decide_False by naive_solver.
      unfold adds. rewrite app_nil_r, drop_0, Nat.add_0_r. done.
Qed.

(** ** Messages *)

Lemma wp_load_tid F i x r Q : zlookup (rc_tids r) i = Some x → Q x r → wp F (load_tid i) Q r.
Proof. intros H HQ. unfold load_tid. wp_steps; [congruence|]. by simplify_eq. Qed.
Lemma wp_store_tid F i x y r Q : zlookup (rc_tids r) i = Some y →
  Q tt (rc_set_tids (zinsert i x (rc_tids r)) r) → wp F (store_tid i x) Q r.
Proof. intros H HQ. unfold store_tid. apply wp_bind. by apply (wp_load_tid F i y). Qed.

(** A send-phase error, after which the receiver stays available. *)
Definition send_phase (res : ipc_result) : bool :=
  match res with IpcOk => false | IpcErr err => bool_decide (Z.land (Z.shiftr err 1) 7 ≤ 3) end.
(** How many packets of the message [items] the receiver has got. *)
Definition delivered (res : ipc_result) (items : list packet) : nat :=
  match res with
  | IpcOk => whole (length items) (u32 (total_len items)) items
  | IpcErr err => if send_phase res then 0 else whole (length items) (Z.shiftr err 4) items
  end.

Lemma sent_nil evs : messages evs = [] → sent evs = [].
Proof. unfold messages, sent. induction evs as [|[] evs IH]; simpl; try done; apply IH. Qed.
Lemma whole_take n t q : whole n t (take n q) = whole n t q.
Proof. revert t q. induction n as [|n IH]; intros t [|p q]; simpl; try done. case_decide; [|done]. by rewrite IH. Qed.
Lemma whole_items n t q : whole (length (take n q)) t (take n q) = whole (length (take n q)) t q.
Proof.
  rewrite <- (whole_take (length (take n q)) t q). f_equal. rewrite length_take.
  destruct (decide (n ≤ length q)%nat); [by rewrite Nat.min_l|rewrite !take_ge by lia; done].
Qed.
Lemma whole_le n t q : (whole n t q ≤ length q)%nat.
Proof. revert t q. induction n as [|n IH]; intros t [|p q]; simpl; try lia. case_decide; [|lia]. specialize (IH (t - pkt_len p) q). lia. Qed.
Lemma delivered_le res items : (delivered res items ≤ length items)%nat.
Proof. destruct res as [|err]; cbn [delivered]; [apply whole_le|]. destruct (send_phase _); [lia|apply whole_le]. Qed.
Lemma whole_zero n q : whole n 0 q = 0%nat.
Proof. by destruct n, q. Qed.

(** *** What the receiver has

    The specification of a message transfer: a message that arrives is there
    whole. An error code of L4 has the phase in bit 0, the reason in the next
    three bits and the number of bytes transferred in the rest; for reasons up
    to 3 (timeout, no such thread, cancelled) nothing was transferred, otherwise
    the receiver has the packets that lie whole within those bytes. *)
Fixpoint covered (bytes : Z) (items : list packet) : list packet :=
  match items with
  | p :: items => if bool_decide (pkt_len p ≤ bytes) then p :: covered (bytes - pkt_len p) items else []
  | [] => []
  end.
Definition received (res : ipc_result) (items : list packet) : list packet :=
  match res with
  | IpcOk => items
  | IpcErr err => if bool_decide ((err / 2) `mod` 8 ≤ 3) then [] else covered (err / 16) items
  end.
(** What the receivers of the messages of a trace have got in all. *)
Definition got (ipc : Z → list packet → ipc_result) (evs : list srv_event) : list packet :=
  mjoin ((λ m, received (ipc m.1 m.2) m.2) <$> sent evs).
(** Frames are not empty and have a length of 16 bits. *)
Definition frame_ok (p : packet) : Prop := 0 < pkt_len p < 2 ^ 16.

Lemma covered_whole t items : Forall frame_ok items → take (whole (length items) t items) items = covered t items.
Proof.
  intros Hf. revert t. induction Hf as [|p items Hp Hf IH]; intros t; [done|]. cbn [length whole covered].
  unfold frame_ok in Hp. case_decide as Hd.
  - rewrite bool_decide_eq_true_2 by lia. cbn [take]. f_equal. apply IH.
  - rewrite bool_decide_eq_false_2 by lia. done.
Qed.
(** A message that arrives is delivered whole. *)
Lemma whole_total items : Forall (λ p, 0 < pkt_len p) items → whole (length items) (total_len items) items = length items.
Proof.
  induction 1 as [|p items Hp Hf IH]; [done|]. cbn [length whole total_len foldr]. fold (total_len items).
  assert (0 ≤ total_len items) by (clear -Hf; induction Hf; simpl; lia).
  rewrite decide_True by lia. f_equal. replace (pkt_len p + total_len items - pkt_len p) with (total_len items) by lia. done.
Qed.


Lemma delivered_received res items : Forall frame_ok items → (length items ≤ IVMnet_rcv_buffer_cnt)%nat →
  take (delivered res items) items = received res items.
Proof.
  intros Hf Hl. destruct res as [|err]; cbn [delivered received send_phase].
  - rewrite wrap_small, whole_total, firstn_all; [done| |].
    + eapply Forall_impl; [|exact Hf]. unfold frame_ok. intros ? ?. lia.
    + assert (0 ≤ total_len items ≤ 2 ^ 16 * length items); [|unfold IVMnet_rcv_buffer_cnt in Hl; lia].
      clear Hl. unfold frame_ok in Hf. induction Hf as [|p items Hp Hf IH]; [done|].
      cbn [total_len foldr length]. fold (total_len items). lia.
  - change 7 with (Z.ones 3). rewrite Z.land_ones, !Z.shiftr_div_pow2 by lia. change (2 ^ 1) with 2. change (2 ^ 3) with 8.
    change (2 ^ 4) with 16. case_bool_decide; [done|]. by apply covered_whole.
Qed.

Lemma xmit_thread_ok ipc receiver r q D tid :
  queue_at r q D → 0 ≤ receiver < rc_receiver_cnt r → zlookup (rc_tids r) receiver = Some tid →
  wp no_fault (L4VMnet_xmit_packets_to_client_thread ipc receiver) (λ b r',
    let items := take IVMnet_rcv_buffer_cnt q in
    let res := ipc tid items in
    let k := delivered res items in
    if b then q ≠ [] ∧ queue_at r' (drop k q) (D + k) ∧
      rc_tids r' = zinsert receiver (if send_phase res then tid else 0) (rc_tids r) ∧
      ∃ evs, adds evs r r' ∧ messages evs = [items] ∧ drops evs = [] ∧ freed evs = take k q ∧ sent evs = [(tid, items)]
    else r' = r ∧ q = []) r.
Proof.
  intros Hq Hr Ht. pose proof (zlookup_lt _ _ _ Ht) as Hlt.
  unfold L4VMnet_xmit_packets_to_client_thread. wp_step. wp_step.
  rewrite (bool_decide_eq_false_2 (rc_receiver_cnt r ≤ receiver)) by lia.
  wp_step. eapply wp_load_tid; [exact Ht|]. cbv beta. rewrite (qa_dirty _ _ _ Hq), <- (Nat.add_0_r D).
  wp_step. eapply wp_mono; [apply (gather_ok r q D Hq _ 0 []); [unfold qlen, IVMnet_rcv_buffer_cnt; lia|done|lia]|].
  intros items r1 [-> ->]. rewrite Nat.add_0_l, Nat.add_0_r. set (items := take IVMnet_rcv_buffer_cnt q).
  case_bool_decide as Hi.
  { wp_step. split; [done|]. apply take_nil_inv in Hi as [?|?]; done. }
  assert (q ≠ []) as Hne by (intros ->; done).
  assert (length items ≤ length q)%nat as Hle by (unfold items; rewrite length_take; lia).
  wp_step. eapply wp_store_tid; [exact Ht|]. cbv beta. wp_step. wp_step. wp_step.
  set (r2 := rc_emit _ _). assert (queue_at r2 q D) as Hq2 by (by apply queue_at_emit, queue_at_tids).
  assert (∀ r3 t, queue_at r3 q D → rc_events r3 = rc_events r2 → rc_operating r3 = rc_operating r →
    rc_receiver_cnt r3 = rc_receiver_cnt r → rc_tids r3 = zinsert receiver (if send_phase (ipc tid items) then tid else 0) (rc_tids r) →
    whole (length items) t items = delivered (ipc tid items) items →
    wp no_fault (commit (length items) t;; mret true) (λ b r', let k := delivered (ipc tid items) items in
      if (b : bool) then q ≠ [] ∧ queue_at r' (drop k q) (D + k) ∧
        rc_tids r' = zinsert receiver (if send_phase (ipc tid items) then tid else 0) (rc_tids r) ∧
        ∃ evs, adds evs r r' ∧ messages evs = [items] ∧ drops evs = [] ∧ freed evs = take k q ∧ sent evs = [(tid, items)]
      else r' = r ∧ q = []) r3) as Hfin.
  { intros r3 t Hq3 He Ho Hc Htd Hw. wp_step. eapply wp_mono; [by apply commit_ok|].
    intros _ r' (evs & (E1 & E2 & E3) & Et & Hm & Hdr & Hf & Hq'). wp_step. cbv zeta.
    rewrite <- Hw. unfold items in *. rewrite whole_items. split; [done|]. split; [done|]. split; [congruence|].
    exists (SMsg tid (take IVMnet_rcv_buffer_cnt q) :: evs). unfold adds. rewrite E1, E2, E3, He. simpl.
    rewrite <- app_assoc. split_and!; try done; [by rewrite <- Hm|].
    f_equal. by apply sent_nil. }
  destruct (ipc tid items) as [|err] eqn:Hipc;
    [|change (bool_decide (Z.land (Z.shiftr err 1) 7 ≤ 3)) with (send_phase (IpcErr err)); destruct (send_phase (IpcErr err)) eqn:Hs].
  - wp_step. by apply Hfin.
  - wp_step. eapply wp_store_tid; [by apply zlookup_zinsert_eq|]. cbv beta. wp_step. apply Hfin; try done.
    + by apply queue_at_tids.
    + simpl. by rewrite zinsert_zinsert.
    + unfold delivered. rewrite Hs. apply whole_zero.
  - wp_step. apply Hfin; try done. unfold delivered. by rewrite Hs.
Qed.

(** Delivery to the receiver threads in turn. *)
Lemma xmit_to_receivers_ok ipc (n : nat) : ∀ receiver r q D,
  queue_at r q D → 0 ≤ receiver → receiver + n ≤ length (rc_tids r) →
  wp no_fault (xmit_to_receivers ipc n receiver) (λ _ r', ∃ k evs, adds evs r r' ∧ length (rc_tids r') = length (rc_tids r) ∧
    queue_at r' (drop k q) (D + k) ∧ drops evs = [] ∧ freed evs = take k q ∧ (Forall frame_ok q → freed evs = got ipc evs)) r.
Proof.
  assert (∀ r q D, queue_at r q D → ∃ k evs, adds evs r r ∧ length (rc_tids r) = length (rc_tids r) ∧
    queue_at r (drop k q) (D + k) ∧ drops evs = [] ∧ freed evs = take k q ∧ (Forall frame_ok q → freed evs = got ipc evs)) as Hnone.
  { intros r q D Hq. exists 0%nat, []. unfold adds. rewrite app_nil_r, Nat.add_0_r, drop_0. done. }
  induction n as [|n IH]; intros receiver r q D Hq Hr Hlen; cbn [xmit_to_receivers].
  - wp_step. by apply Hnone.
  - wp_step. wp_step. case_bool_decide as Hc; [wp_step; by apply Hnone|].
    destruct (zlookup_is_Some (rc_tids r) receiver) as [tid Ht]; [lia|].
    wp_step. eapply wp_load_tid; [exact Ht|]. cbv beta. case_bool_decide as Hnil.
    { eapply wp_mono; [apply (IH _ r q D Hq); lia|]. done. }
    wp_step. eapply wp_mono; [apply (xmit_thread_ok _ _ _ _ D tid Hq); [lia|done]|].
    intros b r1 Hb. destruct b; [|destruct Hb as [-> _]; wp_step; by apply Hnone].
    cbv zeta in Hb. destruct Hb as (_ & Hq1 & Ht1 & evs & (E1 & E2 & E3) & _ & Hd & Hf & Hsent). remember (delivered _ _) as k eqn:Hk.
    assert (length (rc_tids r1) = length (rc_tids r)) as Hl by (by rewrite Ht1, length_zinsert).
    eapply wp_mono; [apply (IH _ r1 _ _ Hq1); lia|].
    intros _ r' (k' & evs' & (E1' & E2' & E3') & Hl' & Hq' & Hd' & Hf' & Hg'). exists (k + k')%nat, (evs ++ evs').
    assert (Forall frame_ok q → freed (evs ++ evs') = got ipc (evs ++ evs')) as Hgot.
    { intros Hok. assert (Forall frame_ok (drop k q)) as Hok' by (by apply Forall_drop).
      unfold freed, got, sent in *. rewrite !omap_app, fmap_app, join_app, Hsent, <- (Hg' Hok'), Hf. f_equal.
      cbn [fmap list_fmap mjoin list_join fst snd]. rewrite app_nil_r, <- delivered_received, <- Hk.
      - rewrite take_take. f_equal. subst k. rewrite Nat.min_l; [done|].
        pose proof (delivered_le (ipc tid (take IVMnet_rcv_buffer_cnt q)) (take IVMnet_rcv_buffer_cnt q)) as Hle.
        rewrite length_take in Hle. lia.
      - by apply Forall_take.
      - rewrite length_take. lia. }
    rewrite <- Nat.add_assoc in Hq'. rewrite drop_drop in Hq'. unfold adds, freed, drops in *.
    rewrite !omap_app, Hd, Hd', Hf, Hf', E1', E1, app_assoc.
    split_and!; try done; try congruence; [apply take_take_drop|].
    intros Hok. specialize (Hgot Hok). by rewrite omap_app, Hf, Hf' in Hgot.
Qed.

(** The requests a server gets for a client: a frame for it, or a run of the
    flush tasklet with the outcome of its IPCs. *)
Inductive rcv_op : Type := OpQueue (dirty_tx : Z) (p : packet) | OpFlush (ipc : Z → list packet → ipc_result).

(** A run, with the packets that were queued and the packets that the client
    has got according to the outcome of the IPCs. *)
Definition rcv_event_tail (r r' : rcv_client) : list srv_event := drop (length (rc_events r)) (rc_events r').
Fixpoint rcv_run (ops : list rcv_op) (accepted has : list packet) : MR (list packet * list packet) :=
  match ops with
  | [] => mret (accepted, has)
  | OpQueue dirty_tx p :: ops =>
      r ← mget;
      L4VMnet_queue_pkt_to_client dirty_tx p;;
      r' ← mget;
      rcv_run ops (if bool_decide (drops (rc_events r') = drops (rc_events r)) then accepted ++ [p] else accepted) has
  | OpFlush ipc :: ops =>
      r ← mget;
      L4VMnet_xmit_packets_to_client ipc;;
      r' ← mget;
      rcv_run ops accepted (has ++ got ipc (rcv_event_tail r r'))
  end.
Definition op_frames_ok (op : rcv_op) : Prop := match op with OpQueue _ p => frame_ok p | OpFlush _ => True end.

Lemma rcv_run_ok ops : Forall op_frames_ok ops → ∀ accepted has r q D,
  queue_at r q D → length (rc_tids r) = IVMnet_max_receiver_cnt → Forall frame_ok q →
  accepted = has ++ q → freed (rc_events r) = has →
  wp no_fault (rcv_run ops accepted has) (λ res r', ∃ q' D', queue_at r' q' D' ∧
    res.1 = res.2 ++ q' ∧ freed (rc_events r') = res.2) r.
Proof.
  induction 1 as [|[dirty_tx p|ipc] ops Hop Hops IH]; intros accepted has r q D Hq Hl Hok -> Hhas; cbn [rcv_run].
  - wp_step. eauto.
  - wp_step. wp_step. wp_step. eapply wp_mono; [by apply queue_pkt_ok|].
    intros _ r1 (evs & (E1 & E2 & E3) & Ht & _ & Hf & Hb). wp_step. wp_step.
    assert (freed (rc_events r1) = has) as Hfr.
    { unfold freed in *. by rewrite E1, omap_app, Hf, app_nil_r. }
    assert (drops (rc_events r1) = drops (rc_events r) ++ drops evs) as Hdr by (unfold drops; by rewrite E1, omap_app).
    destruct (_ && _); destruct Hb as [Hq1 Hd]; rewrite Hdr, Hd.
    + rewrite app_nil_r, bool_decide_eq_true_2 by done.
      apply (IH _ _ r1 _ D Hq1); [congruence| |by rewrite app_assoc|done].
      apply Forall_app. split; [done|]. by constructor.
    + rewrite bool_decide_eq_false_2.
      * apply (IH _ _ r1 _ D Hq1); [congruence|done..].
      * intros H%(f_equal length). rewrite length_app in H. simpl in H. lia.
  - wp_step. wp_step. wp_step. unfold L4VMnet_xmit_packets_to_client.
    eapply wp_mono; [apply (xmit_to_receivers_ok _ _ _ _ _ _ Hq); lia|].
    intros _ r1 (k & evs & (E1 & E2 & E3) & Hl1 & Hq1 & Hd & Hf & Hg). wp_step. wp_step.
    assert (rcv_event_tail r r1 = evs) as -> by (unfold rcv_event_tail; by rewrite E1, drop_app_length).
    rewrite <- (Hg Hok), Hf.
    apply (IH _ _ r1 _ _ Hq1); [congruence|by apply Forall_drop|by rewrite <- app_assoc, take_drop|].
    unfold freed in *. by rewrite E1, omap_app, Hf, Hhas.
Qed.


(** The client's structure after [L4VMnet_attach_handler] and
    [L4VMnet_start_handler], with one receiver thread. *)
Definition rcv_init (tid : Z) : rcv_client :=
  mk_rcv true (replicate L4VMNET_SKB_RING_LEN None) 0 0 1 (tid :: replicate 7 0) [].
Lemma rcv_init_ok tid : queue_at (rcv_init tid) [] 0.
Proof.
  split; [by vm_compute|done..| |].
  - unfold qlen. simpl. lia.
  - intros i Hi. cbn [rcv_init rc_ring]. by rewrite zlookup_replicate by apply qslot_range.
Qed.
