(* ===== verification/NetRecvClient.v ===== *)
(** * The client's receive ring

    The ring of a receive group of the network client (NetRecv.v): buffers the
    device thread may fill, then received packets and slots without a buffer. The
    device thread and the interrupt handler keep that shape, and packets leave the
    ring for Linux in the order in which they arrived. *)

From stdpp Require Import base list gmap numbers.
From Stdlib Require Import ZArith Lia.
From S2P Require Import Prelude NetRecv.

Abbreviation gslot := (slot rcv_cnt).
Lemma rcv_cnt_pos : (0 < rcv_cnt)%nat.
Proof. unfold rcv_cnt, IVMnet_rcv_buffer_cnt. lia. Qed.
Lemma rcv_cnt_le : rcv_cnt ≤ 2 ^ 16.
Proof. unfold rcv_cnt, IVMnet_rcv_buffer_cnt. lia. Qed.
Lemma rcv_cnt_ge : (IVMnet_rcv_buffer_cnt < rcv_cnt)%nat.
Proof. unfold rcv_cnt, IVMnet_rcv_buffer_cnt. lia. Qed.
Lemma gslot_range p : 0 ≤ gslot p < rcv_cnt.
Proof. apply slot_range, rcv_cnt_pos. Qed.
Lemma cnext_gslot p : cnext gcnt (gslot p) = gslot (S p).
Proof. apply slot_succ; [apply rcv_cnt_pos|apply rcv_cnt_le]. Qed.
Lemma gslot_ne p q F : p ≠ q → (F ≤ p < F + rcv_cnt)%nat → (F ≤ q < F + rcv_cnt)%nat → gslot p ≠ gslot q.
Proof. intros. apply slot_ne; [apply rcv_cnt_pos|lia..]. Qed.

Definition packet_ok (p : packet) : Prop := 0 < pkt_len p ≤ IVMnet_rcv_buffer_size.

(** A buffer that belongs to the device thread, and a slot that belongs to the
    interrupt handler: with a received packet or without a buffer. *)
Definition owned_slot (g : rcv_group) (p : nat) : Prop :=
  ∃ b, zlookup (g_ring g) (gslot p) = Some (mk_rdesc (Some b) IVMnet_rcv_buffer_size true) ∧
    zlookup (g_shadow g) (gslot p) = Some (Some b).
Definition cell_ok (g : rcv_group) (p : nat) (c : option packet) : Prop :=
  match c with
  | Some pk => packet_ok pk ∧ ∃ b, zlookup (g_ring g) (gslot p) = Some (mk_rdesc (Some b) (pkt_len pk) false) ∧
      zlookup (g_shadow g) (gslot p) = Some (Some b) ∧ g_mem g !! b = Some pk
  | None => (∃ d, zlookup (g_ring g) (gslot p) = Some d ∧ rd_owned d = false) ∧ zlookup (g_shadow g) (gslot p) = Some None
  end.

Record cinv (g : rcv_group) (F W : nat) (cells : list (option packet)) : Prop := {
  ci_lenR : length (g_ring g) = rcv_cnt;
  ci_lenS : length (g_shadow g) = rcv_cnt;
  ci_free : g_free g = gslot F;
  ci_dirty : g_dirty g = gslot W;
  ci_ord : (F ≤ W)%nat;
  ci_cnt : (W + length cells = F + rcv_cnt)%nat;
  ci_owned : ∀ p, (F ≤ p < W)%nat → owned_slot g p;
  ci_cells : ∀ i c, cells !! i = Some c → cell_ok g (W + i) c;
  ci_inj : ∀ i j b, zlookup (g_shadow g) i = Some (Some b) → zlookup (g_shadow g) j = Some (Some b) → i = j;
  ci_fresh : ∀ i b, zlookup (g_shadow g) i = Some (Some b) → (b < g_next g)%nat
}.

Definition rxs (evs : list cl_event) : list (packet * Z) := (λ '(CRx p len), (p, len)) <$> evs.
(** Received packets that wait for the interrupt handler. *)
Definition waiting_pkts (cells : list (option packet)) : list packet := omap id cells.

Lemma wp_load_rdesc P i d g Q : zlookup (g_ring g) i = Some d → Q d g → wp P (load_rdesc i) Q g.
Proof. intros H HQ. unfold load_rdesc. wp_steps; [congruence|]. by simplify_eq. Qed.
Lemma wp_load_rshadow P i o g Q : zlookup (g_shadow g) i = Some o → Q o g → wp P (load_rshadow i) Q g.
Proof. intros H HQ. unfold load_rshadow. wp_steps; [congruence|]. by simplify_eq. Qed.
Lemma wp_store_rdesc P i x d g Q : zlookup (g_ring g) i = Some d →
  Q tt (g_set_ring (zinsert i x (g_ring g)) g) → wp P (store_rdesc i x) Q g.
Proof. intros H HQ. unfold store_rdesc. apply wp_bind. by apply (wp_load_rdesc P i d). Qed.
Lemma wp_store_rshadow P i x o g Q : zlookup (g_shadow g) i = Some o →
  Q tt (g_set_shadow (zinsert i x (g_shadow g)) g) → wp P (store_rshadow i x) Q g.
Proof. intros H HQ. unfold store_rshadow. apply wp_bind. by apply (wp_load_rshadow P i o). Qed.

(** ** The interrupt handler's walk *)

(** The slot at the dirty index gets the buffer [b]: the old one or a new one. *)
Definition refill (b : nat) (next : nat) (evs : list cl_event) (W : nat) (g : rcv_group) : rcv_group :=
  mk_group (g_status g) (zinsert (gslot W) (mk_rdesc (Some b) IVMnet_rcv_buffer_size true) (g_ring g)) (g_free g) (gslot (S W))
    (zinsert (gslot W) (Some b) (g_shadow g)) (g_thread g) (g_mem g) next (g_events g ++ evs).

Lemma cinv_refill g F W c cells evs : cinv g F W (c :: cells) →
  cinv (refill (g_next g) (S (g_next g)) evs W g) F (S W) cells.
Proof.
  intros []. simpl in *. pose proof (gslot_range W) as Hr.
  assert (∀ p, (F ≤ p < F + rcv_cnt)%nat → p ≠ W → gslot W ≠ gslot p) as Hne by (intros; eapply (gslot_ne _ _ F); lia).
  split; simpl; rewrite ?length_zinsert; try done; try lia.
  - intros p Hp. destruct (decide (p = W)) as [->|].
    + exists (g_next g). simpl. rewrite !zlookup_zinsert_eq by lia. done.
    + destruct (ci_owned0 p) as (b & ? & ?); [lia|]. exists b. simpl. rewrite !zlookup_zinsert_ne by (apply Hne; lia). done.
  - intros i c' Hc. pose proof (lookup_lt_Some _ _ _ Hc).
    specialize (ci_cells0 (S i) c' Hc). rewrite Nat.add_succ_r in ci_cells0.
    destruct c' as [pk|]; simpl in *; rewrite !zlookup_zinsert_ne by (apply Hne; lia); done.
  - intros i j b. rewrite !zlookup_zinsert by lia. repeat case_decide; subst; try done; try apply ci_inj0.
    + intros [= <-] ?%ci_fresh0. lia.
    + intros ?%ci_fresh0 [= <-]. lia.
  - intros i b. rewrite zlookup_zinsert by lia. case_decide; [intros [= <-]; lia|]. intros ?%ci_fresh0. lia.
Qed.

(** No buffer could be allocated: the slot is left empty. *)
Definition vacate (evs : list cl_event) (W : nat) (g : rcv_group) : rcv_group :=
  mk_group (g_status g) (zinsert (gslot W) (mk_rdesc None 0 false) (g_ring g)) (g_free g) (g_dirty g)
    (zinsert (gslot W) None (g_shadow g)) (g_thread g) (g_mem g) (S (g_next g)) (g_events g ++ evs).
Lemma cinv_vacate g F W c cells evs : cinv g F W (c :: cells) → cinv (vacate evs W g) F W (None :: cells).
Proof.
  intros []. simpl in *. pose proof (gslot_range W) as Hr.
  assert (∀ p, (F ≤ p < F + rcv_cnt)%nat → p ≠ W → gslot W ≠ gslot p) as Hne by (intros; eapply (gslot_ne _ _ F); lia).
  split; simpl; rewrite ?length_zinsert; try done; try lia.
  - intros p Hp. destruct (ci_owned0 p) as (b & ? & ?); [lia|]. exists b. simpl.
    rewrite !zlookup_zinsert_ne by (apply Hne; lia). done.
  - intros [|i] c' Hc.
    + injection Hc as <-. rewrite Nat.add_0_r. simpl. rewrite !zlookup_zinsert_eq by lia. eauto.
    + pose proof (lookup_lt_Some _ _ _ Hc). simpl in *. specialize (ci_cells0 (S i) c' Hc).
      destruct c' as [pk|]; simpl in *; rewrite !zlookup_zinsert_ne by (apply Hne; lia); done.
  - intros i j b. rewrite !zlookup_zinsert by lia. repeat case_decide; subst; try done; apply ci_inj0.
  - intros i b. rewrite zlookup_zinsert by lia. case_decide; [done|]. intros ?%ci_fresh0. lia.
Qed.

Definition rx_events (c : option packet) : list cl_event :=
  match c with Some pk => [CRx pk (pkt_len pk)] | None => [] end.

Lemma walk_round P alloc fuel n g F W c cells Q : cinv g F W (c :: cells) →
  (alloc (g_next g) = true →
     wp P (walk_loop alloc fuel (S n)) Q (refill (g_next g) (S (g_next g)) (rx_events c) W g)) →
  (alloc (g_next g) = false → Q n (vacate (rx_events c) W g)) →
  wp P (walk_loop alloc (S fuel) n) Q g.
Proof.
  intros Hi Hok Hno. pose proof (ci_cells _ _ _ _ Hi 0 c eq_refl) as Hc. rewrite Nat.add_0_r in Hc.
  pose proof (gslot_range W) as Hr. pose proof (ci_lenR _ _ _ _ Hi). pose proof (ci_lenS _ _ _ _ Hi).
  assert (∃ d, zlookup (g_ring g) (gslot W) = Some d ∧ rd_owned d = false) as (d & Hd & Ho).
  { destruct c as [pk|]; [destruct Hc as (_ & b & ? & _)|apply Hc]. eauto. }
  assert (∃ o, zlookup (g_shadow g) (gslot W) = Some o) as (o & Hs).
  { destruct c as [pk|]; [destruct Hc as (_ & b & _ & ? & _)|destruct Hc as [_ ?]]; eauto. }
  cbn [walk_loop]. wp_step. wp_step. rewrite (ci_dirty _ _ _ _ Hi).
  wp_step. eapply wp_load_rdesc; [exact Hd|]. cbv beta. wp_step. eapply wp_load_rshadow; [exact Hs|]. cbv beta.
  rewrite Ho. wp_step.
  assert (∀ g1, g_ring g1 = g_ring g → g_shadow g1 = g_shadow g → g_next g1 = g_next g →
    g1 = mk_group (g_status g) (g_ring g) (g_free g) (g_dirty g) (g_shadow g) (g_thread g) (g_mem g) (g_next g) (g_events g ++ rx_events c) →
    wp P (skb ← (k ← mgets g_next; mmodify (g_set_next (S k));;
            (let o := if alloc k then Some k else None in
            store_rshadow (gslot W) o;;
            (if bool_decide (o = None) then store_rdesc (gslot W) (mk_rdesc None 0 false) else mret tt);;
            mret o));
      match skb with
      | Some b => store_rdesc (gslot W) (mk_rdesc (Some b) IVMnet_rcv_buffer_size true);;
          mmodify (g_set_dirty (cnext gcnt (gslot W)));; walk_loop alloc fuel (S n)
      | None => mret n
      end) Q g1) as Hrest.
  { intros g1 ER ES EN ->. simpl in *. wp_step. wp_step. wp_step. wp_step. wp_step. simpl g_next. cbv zeta.
    destruct (alloc (g_next g)) eqn:Ha.
    - wp_step. eapply wp_store_rshadow; [exact Hs|]. cbv beta. rewrite bool_decide_eq_false_2 by done.
      wp_step. wp_step. wp_step. wp_step. eapply wp_store_rdesc; [exact Hd|]. cbv beta. wp_step. wp_step.
      rewrite cnext_gslot. by apply Hok.
    - wp_step. eapply wp_store_rshadow; [exact Hs|]. cbv beta. rewrite bool_decide_eq_true_2 by done.
      wp_step. eapply wp_store_rdesc; [exact Hd|]. cbv beta. wp_step. wp_step. exact (Hno eq_refl). }
  destruct c as [pk|].
  - destruct Hc as (Hpk & b & Hd' & Hs' & Hm). simplify_eq. simpl rd_len.
    rewrite bool_decide_eq_true_2 by apply Hpk. wp_step. wp_step. wp_step. rewrite Hm. cbn [mof_option]. wp_step. wp_step. wp_step. wp_step.
    by apply Hrest.
  - destruct Hc as [_ Hs']. simplify_eq. wp_step. apply Hrest; try done. rewrite app_nil_r. by destruct g.
Qed.

Lemma walk_loop_ok alloc F cells : ∀ fuel n g W,
  cinv g F W cells → (length cells < fuel)%nat →
  wp no_fault (walk_loop alloc fuel n) (λ n' g', ∃ W' cells' rx,
    cinv g' F W' cells' ∧ (W ≤ W')%nat ∧ (n' = n + (W' - W))%nat ∧ waiting_pkts cells = rx ++ waiting_pkts cells' ∧
    g_events g' = g_events g ++ ((λ p, CRx p (pkt_len p)) <$> rx) ∧ g_status g' = g_status g ∧ g_thread g' = g_thread g ∧
    ((∀ k, alloc k = true) → cells' = [])) g.
Proof.
  induction cells as [|c cells IH]; intros fuel n g W Hi Hf; (destruct fuel; [simpl in *; lia|]).
  - pose proof (ci_cnt _ _ _ _ Hi) as Hc. simpl in Hc. rewrite Nat.add_0_r in Hc.
    destruct (ci_owned _ _ _ _ Hi F) as (b & Hd & Hs); [pose proof rcv_cnt_pos; lia|].
    cbn [walk_loop]. wp_step. wp_step. rewrite (ci_dirty _ _ _ _ Hi), Hc, slot_add_n.
    wp_step. eapply wp_load_rdesc; [exact Hd|]. cbv beta. wp_step. eapply wp_load_rshadow; [exact Hs|]. cbv beta. cbn [rd_owned].
    wp_step. exists W, [], []. cbn [fmap list_fmap]. rewrite !app_nil_r. split_and!; try done; lia.
  - eapply walk_round; [exact Hi|..].
    + intros _. eapply wp_mono; [apply (IH _ _ _ (S W)); [by eapply cinv_refill|simpl in *; lia]|].
      intros n' g' (W' & cells' & rx & Hi' & HW & -> & Hw & He & Hst & Hth & Hall).
      exists W', cells', (omap id [c] ++ rx). split; [done|]. split; [lia|]. split; [lia|]. split.
      { unfold waiting_pkts in *. rewrite <- app_assoc, <- Hw. change (c :: cells) with ([c] ++ cells). apply omap_app. }
      split; [|done]. rewrite He. simpl g_events. rewrite <- app_assoc. f_equal. rewrite fmap_app. f_equal. by destruct c.
    + intros Ha. exists W, (None :: cells), (omap id [c]). split; [by eapply cinv_vacate|]. split; [lia|]. split; [lia|].
      split; [unfold waiting_pkts; change (c :: cells) with ([c] ++ cells); by rewrite omap_app|].
      split; [simpl; f_equal; by destruct c|]. split; [done|]. split; [done|]. intros Hall. by rewrite Hall in Ha.
Qed.

(** ** The device thread *)

Lemma count_buffers_ok g F W cells : cinv g F W cells → ∀ m total,
  (m + total = IVMnet_rcv_buffer_cnt)%nat → (0 < m)%nat → (F + total ≤ W)%nat →
  wp no_fault (count_buffers m total (gslot (F + total))) (λ b g', g' = g ∧
    (b = true → F + IVMnet_rcv_buffer_cnt ≤ W)%nat) g.
Proof.
  intros Hi. pose proof rcv_cnt_ge. pose proof (ci_cnt _ _ _ _ Hi) as Hcnt.
  induction m as [|m IH]; intros total Hm Hpos Hle; [lia|]. cbn [count_buffers].
  destruct (zlookup_is_Some (g_shadow g) (gslot (F + total))) as [s Hs]; [rewrite (ci_lenS _ _ _ _ Hi); apply gslot_range|].
  destruct (zlookup_is_Some (g_ring g) (gslot (F + total))) as [d Hd]; [rewrite (ci_lenR _ _ _ _ Hi); apply gslot_range|].
  wp_step. eapply wp_load_rshadow; [exact Hs|]. cbv beta. wp_step. eapply wp_load_rdesc; [exact Hd|]. cbv beta.
  destruct (bool_decide (s = None) || negb (rd_owned d)) eqn:Hfree; [wp_step; done|].
  assert (F + total < W)%nat as Hlt.
  { destruct (decide (F + total < W)%nat); [done|]. exfalso. assert (F + total = W)%nat as E by lia.
    destruct cells as [|c cells]; [simpl in *; lia|]. pose proof (ci_cells _ _ _ _ Hi 0 c eq_refl) as Hc.
    rewrite Nat.add_0_r, <- E in Hc. apply orb_false_iff in Hfree as [Hf1 Hf2]. apply bool_decide_eq_false in Hf1.
    apply negb_false_iff in Hf2. destruct c as [pk|]; simpl in Hc.
    - destruct Hc as (_ & b & ? & _). by simplify_eq.
    - destruct Hc as [_ ?]. congruence. }
  clear Hfree. case_bool_decide; [wp_step; split; [done|intros _; lia]|]. wp_step. wp_step.
  rewrite cnext_gslot, (ci_free _ _ _ _ Hi). case_bool_decide as Heq; [wp_step; done|].
  rewrite <- Nat.add_succ_r. apply IH; lia.
Qed.

Lemma acceptors_ok g F W cells : cinv g F W cells → ∀ m j, (F + j + m ≤ W)%nat →
  wp no_fault (acceptors m (gslot (F + j))) (λ l g', g' = g ∧ length l = m ∧
    ∀ i x, l !! i = Some x → ∃ b, x = (Some b, IVMnet_rcv_buffer_size) ∧
      zlookup (g_shadow g) (gslot (F + j + i)) = Some (Some b)) g.
Proof.
  intros Hi. induction m as [|m IH]; intros j Hj; cbn [acceptors].
  - wp_step. split; [done|]. split; [done|]. intros i x Hx. by rewrite lookup_nil in Hx.
  - destruct (ci_owned _ _ _ _ Hi (F + j)) as (b & Hd & Hs); [lia|].
    wp_step. eapply wp_load_rdesc; [exact Hd|]. cbv beta. wp_step. wp_step; [done|]. wp_step.
    rewrite cnext_gslot, <- Nat.add_succ_r. eapply wp_mono; [apply IH; lia|].
    intros l g' (-> & Hl & Hlk). wp_step. split; [done|]. split; [simpl; lia|].
    intros [|i] x Hx; simpl in Hx.
    + injection Hx as <-. exists b. rewrite Nat.add_0_r. done.
    + destruct (Hlk _ _ Hx) as (b' & -> & ?). exists b'. split; [done|].
      replace (F + j + S i)%nat with (F + S j + i)%nat by lia. done.
Qed.

(** Copying the items of a message into distinct buffers. *)
Lemma copy_items_ok bufs : ∀ ps m, (length ps ≤ length bufs)%nat →
  (∀ i x, bufs !! i = Some x → ∃ b, x.1 = Some b) →
  (∀ i j b x y, bufs !! i = Some x → bufs !! j = Some y → x.1 = Some b → y.1 = Some b → i = j) →
  (∀ i p, ps !! i = Some p → ∃ b x, bufs !! i = Some x ∧ x.1 = Some b ∧ copy_items bufs ps m !! b = Some p) ∧
  (∀ b, (∀ i x, (i < length ps)%nat → bufs !! i = Some x → x.1 ≠ Some b) → copy_items bufs ps m !! b = m !! b).
Proof.
  induction bufs as [|[o sz] bufs IH]; intros ps m Hlen Hsome Hinj.
  - destruct ps; [|simpl in *; lia]. split; [|done]. intros i p Hp. by rewrite lookup_nil in Hp.
  - destruct (Hsome 0%nat _ eq_refl) as [b0 Hb0]. simpl in Hb0. subst o.
    destruct ps as [|p ps]; [split; [intros i p Hp; by rewrite lookup_nil in Hp|done]|]. simpl in Hlen. cbn [copy_items].
    destruct (IH ps (<[b0 := p]> m)) as [H1 H2]; [lia| | |].
    { intros i x Hx. apply (Hsome (S i) x Hx). }
    { intros i j b x y Hx Hy ??. by apply Nat.succ_inj, (Hinj (S i) (S j) b x y). }
    split.
    + intros [|i] p' Hp'; simpl in Hp'.
      * injection Hp' as <-. exists b0, (Some b0, sz). split; [done|]. split; [done|]. rewrite H2; [apply lookup_insert_eq|].
        intros i x _ Hx E. by specialize (Hinj 0%nat (S i) b0 _ x eq_refl Hx eq_refl E).
      * destruct (H1 i p' Hp') as (b & x & ? & ? & ?). eauto.
    + intros b Hb. rewrite H2.
      * apply lookup_insert_ne. intros ->. by apply (Hb 0%nat (Some b, sz)); [simpl; lia| |].
      * intros i x Hi Hx. apply (Hb (S i) x); [simpl; lia|done].
Qed.

(** One received packet. *)
Definition received (p : nat) (b : nat) (pk : packet) (g : rcv_group) : rcv_group :=
  mk_group (Z.lor (g_status g) L4VMNET_IRQ_PKTS_AVAIL)
    (zinsert (gslot p) (mk_rdesc (Some b) (pkt_len pk) false) (g_ring g)) (gslot (S p)) (g_dirty g)
    (g_shadow g) (g_thread g) (g_mem g) (g_next g) (g_events g).

Lemma cinv_received g F W cells b pk : cinv g F W cells → (F < W)%nat → packet_ok pk →
  zlookup (g_shadow g) (gslot F) = Some (Some b) → g_mem g !! b = Some pk →
  cinv (received F b pk g) (S F) W (cells ++ [Some pk]).
Proof.
  intros [] HFW Hpk Hs Hm. pose proof (gslot_range F) as Hr.
  assert (∀ p, (F ≤ p < F + rcv_cnt)%nat → p ≠ F → gslot F ≠ gslot p) as Hne by (intros; eapply (gslot_ne _ _ F); lia).
  split; simpl; rewrite ?length_zinsert, ?length_app; simpl; try done; try lia.
  - intros p Hp. destruct (ci_owned0 p) as (b' & ? & ?); [lia|]. exists b'. simpl.
    rewrite zlookup_zinsert_ne by (apply Hne; lia). done.
  - intros i c Hc. apply lookup_app_Some in Hc as [Hc|[Hge Hc]].
    + pose proof (lookup_lt_Some _ _ _ Hc). specialize (ci_cells0 i c Hc).
      destruct c as [pk'|]; simpl in *; rewrite zlookup_zinsert_ne by (apply Hne; lia); done.
    + apply list_lookup_singleton_Some in Hc as [Hi <-]. replace (W + i)%nat with (F + rcv_cnt)%nat by lia.
      split; [done|]. exists b. simpl. rewrite slot_add_n, zlookup_zinsert_eq by lia. done.
Qed.

Lemma swallow_ok ps : ∀ g F W cells,
  cinv g F W cells → (F + length ps ≤ W)%nat → Forall packet_ok ps →
  (∀ i p, ps !! i = Some p → ∃ b, zlookup (g_shadow g) (gslot (F + i)) = Some (Some b) ∧ g_mem g !! b = Some p) →
  wp no_fault (swallow (pkt_len <$> ps)) (λ _ g', cinv g' (F + length ps) W (cells ++ (Some <$> ps)) ∧
    g_events g' = g_events g ∧ g_status g' = (if decide (ps = []) then g_status g else Z.lor (g_status g) L4VMNET_IRQ_PKTS_AVAIL)) g.
Proof.
  induction ps as [|pk ps IH]; intros g F W cells Hi Hle Hok Hbuf; cbn [fmap list_fmap swallow].
  - wp_step. rewrite Nat.add_0_r, app_nil_r. done.
  - apply list.Forall_cons in Hok as [Hpk Hok]. simpl in Hle.
    destruct (ci_owned _ _ _ _ Hi F) as (b & Hd & Hs); [lia|].
    destruct (Hbuf 0%nat pk eq_refl) as (b' & Hs' & Hm). rewrite Nat.add_0_r in Hs'. simplify_eq.
    assert (u16 (pkt_len pk) = pkt_len pk) as Hu.
    { destruct Hpk. unfold IVMnet_rcv_buffer_size in *. apply wrap_small. lia. }
    wp_step. wp_step. rewrite (ci_free _ _ _ _ Hi). wp_step. eapply wp_load_rdesc; [exact Hd|]. cbv beta.
    cbn [rd_owned rd_buffer]. wp_step. wp_step; [done|]. wp_step. eapply wp_store_rdesc; [exact Hd|]. cbv beta.
    wp_step. wp_step. rewrite Hu, cnext_gslot, bool_decide_eq_true_2 by apply Hpk. wp_step. wp_step.
    pose proof (cinv_received _ _ _ _ _ _ Hi ltac:(lia) Hpk Hs Hm) as Hi1.
    eapply wp_mono; [apply (IH (received F _ pk g) _ _ _ Hi1)|].
    + lia.
    + done.
    + intros i p Hp. destruct (Hbuf (S i) p Hp) as (b1 & ? & ?). exists b1. by rewrite Nat.add_succ_r in *.
    + intros _ g' (Hi' & He & Hst). rewrite <- app_assoc in Hi'. simpl length. rewrite Nat.add_succ_r.
      split; [done|]. split; [done|]. rewrite Hst. rewrite (decide_False (P := pk :: ps = [])) by done.
      case_decide; simpl; [done|]. by rewrite <- Z.lor_assoc, Z.lor_diag.
Qed.

(** [cinv] does not depend on the status, the thread or the events. *)
Lemma cinv_same g g' F W cells : cinv g F W cells → g_ring g' = g_ring g → g_shadow g' = g_shadow g →
  g_free g' = g_free g → g_dirty g' = g_dirty g → g_mem g' = g_mem g → g_next g' = g_next g → cinv g' F W cells.
Proof.
  intros [] ER ES EF ED EM EN. split; rewrite ?ER, ?ES, ?EF, ?ED, ?EN; try done.
  - intros p Hp. unfold owned_slot. rewrite ER, ES. by apply ci_owned0.
  - intros i c Hc. unfold cell_ok. rewrite ER, ES, EM. by apply ci_cells0.
Qed.

(** A message for the waiting device thread: all its packets are stored, in
    order. *)
Lemma rcv_thread_wait_ok ps g F W cells :
  cinv g F W cells → (F + IVMnet_rcv_buffer_cnt ≤ W)%nat → (length ps ≤ IVMnet_rcv_buffer_cnt)%nat → Forall packet_ok ps →
  wp no_fault (L4VMnet_rcv_thread_wait ps) (λ _ g', cinv g' (F + length ps) W (cells ++ (Some <$> ps)) ∧
    g_events g' = g_events g ∧ g_thread g' = TPrepare ∧
    g_status g' = (if decide (ps = []) then g_status g else Z.lor (g_status g) L4VMNET_IRQ_PKTS_AVAIL)) g.
Proof.
  intros Hi HW Hps Hok. pose proof (ci_cnt _ _ _ _ Hi) as Hcnt. unfold L4VMnet_rcv_thread_wait. wp_step. wp_step.
  rewrite (ci_free _ _ _ _ Hi), <- (Nat.add_0_r F). wp_step.
  eapply wp_mono; [apply (acceptors_ok _ _ _ _ Hi); lia|]. intros bufs g1 (-> & Hl & Hb). rewrite Nat.add_0_r in Hb |- *.
  wp_step. wp_step. wp_step.
  assert (∀ i x b, bufs !! i = Some x → x.1 = Some b → zlookup (g_shadow g) (gslot (F + i)) = Some (Some b)) as Hbs.
  { intros i x b Hx E. destruct (Hb _ _ Hx) as (b' & -> & ?). simpl in E. by simplify_eq. }
  destruct (copy_items_ok bufs ps (g_mem g)) as [Hcopy Hkeep]; [lia| | |].
  { intros i x Hx. destruct (Hb _ _ Hx) as (b & -> & _). by exists b. }
  { intros i j b x y Hx Hy Ex Ey. pose proof (lookup_lt_Some _ _ _ Hx). pose proof (lookup_lt_Some _ _ _ Hy).
    pose proof (ci_inj _ _ _ _ Hi _ _ _ (Hbs _ _ _ Hx Ex) (Hbs _ _ _ Hy Ey)) as E.
    apply slot_inj in E; [done|apply rcv_cnt_pos|lia..]. }
  eapply wp_mono; [apply (swallow_ok ps _ F W cells)|].
  - destruct Hi. split; try done. intros i c Hc. specialize (ci_cells0 i c Hc). pose proof (lookup_lt_Some _ _ _ Hc).
    destruct c as [pk|]; [|done]. destruct ci_cells0 as (Hpk & b & Hd & Hs & Hm). split; [done|]. exists b.
    split; [done|]. split; [done|]. simpl. rewrite Hkeep; [done|].
    intros j x Hj Hx E. pose proof (ci_inj0 _ _ _ Hs (Hbs _ _ _ Hx E)) as Es.
    revert Es. eapply (gslot_ne _ _ F); lia.
  - lia.
  - done.
  - intros i p Hp. destruct (Hcopy _ _ Hp) as (b & x & Hx & E & Hm). exists b. split; [by eapply Hbs|done].
  - intros _ g' (Hi' & He & Hst). wp_step. split; [by eapply cinv_same|]. done.
Qed.
