(* ===== verification/NetRecvProtocol.v ===== *)
(** * Receiving, end to end

    The server's queue for a client (NetRecvQueue.v) and the client's receive
    ring (NetRecvClient.v), composed over the IPC of the L4 kernel: frames reach
    the client's Linux in order, each once. *)

From stdpp Require Import base list gmap numbers relations.
From Stdlib Require Import ZArith Lia.
From S2P Require Import Prelude NetRecv NetRecvQueue NetRecvClient.

(** The server, the client, and the frames the server has queued for it. *)
Record rsys : Type := mk_rsys { rs_srv : rcv_client; rs_cl : rcv_group; rs_acc : list packet }.

Section receive.
(** The device thread of the client, and the error the kernel reports for a
    message without timeout to a thread that does not wait. *)
Context (dev_tid code : Z) (Hdev : dev_tid ≠ 0) (Hcode : send_phase (IpcErr code) = true).

(** The IPC of the kernel: a message is copied when the device thread waits for
    one, and otherwise fails in the send phase. *)
Definition kernel_ipc (g : rcv_group) (tid : Z) (ps : list packet) : ipc_result :=
  match g_thread g with TWait => if decide (tid = dev_tid) then IpcOk else IpcErr code | _ => IpcErr code end.

(** What the messages of a flush do to the client. *)
Definition deliver (old new : rcv_client) : MG unit :=
  t ← mgets g_thread;
  match t, drop (length (messages (rc_events old))) (messages (rc_events new)) with
  | TWait, ps :: _ => L4VMnet_rcv_thread_wait ps
  | _, _ => mret tt
  end.

(** The device thread publishes its identifier before it waits. *)
Definition publish (g : rcv_group) (r : rcv_client) : rcv_client :=
  match g_thread g with TWait => rc_set_tids (zinsert 0 dev_tid (rc_tids r)) r | _ => r end.

Inductive rstep : rsys → rsys → Prop :=
  | rs_queue r g acc dirty_tx p r' :
      packet_ok p → L4VMnet_queue_pkt_to_client dirty_tx p r = Ok tt r' →
      rstep (mk_rsys r g acc)
        (mk_rsys r' g (if decide (drops (rc_events r') = drops (rc_events r)) then acc ++ [p] else acc))
  | rs_flush r g acc r' g' :
      L4VMnet_xmit_packets_to_client (kernel_ipc g) r = Ok tt r' → deliver r r' g = Ok tt g' →
      rstep (mk_rsys r g acc) (mk_rsys r' g' acc)
  | rs_prepare r g acc g' :
      g_thread g = TPrepare → L4VMnet_rcv_thread_prepare g = Ok tt g' →
      rstep (mk_rsys r g acc) (mk_rsys (publish g' r) g' acc)
  | rs_irq r g acc alloc b g' :
      L4VMnet_irq_handler_rcv alloc g = Ok b g' → rstep (mk_rsys r g acc) (mk_rsys r g' acc).

Record rinv (s : rsys) (q : list packet) (D F W : nat) (cells : list (option packet)) : Prop := {
  ri_queue : queue_at (rs_srv s) q D;
  ri_cl : cinv (rs_cl s) F W cells;
  ri_tids : length (rc_tids (rs_srv s)) = IVMnet_max_receiver_cnt;
  ri_cnt : rc_receiver_cnt (rs_srv s) = 1;
  ri_tid : zlookup (rc_tids (rs_srv s)) 0 = Some 0 ∨ zlookup (rc_tids (rs_srv s)) 0 = Some dev_tid;
  ri_ok : Forall packet_ok q;
  ri_wait : g_thread (rs_cl s) = TWait → (F + IVMnet_rcv_buffer_cnt ≤ W)%nat;
  ri_acc : rs_acc s = (rxs (g_events (rs_cl s))).*1 ++ waiting_pkts cells ++ q;
  ri_lens : Forall (λ '(p, len), len = pkt_len p) (rxs (g_events (rs_cl s)))
}.

(** A flush of the single receiver. *)
Lemma flush_ok ipc r q D tid : queue_at r q D → length (rc_tids r) = IVMnet_max_receiver_cnt → rc_receiver_cnt r = 1 →
  zlookup (rc_tids r) 0 = Some tid →
  wp no_fault (L4VMnet_xmit_packets_to_client ipc) (λ _ r',
    let items := take IVMnet_rcv_buffer_cnt q in
    let k := delivered (ipc tid items) items in
    r' = r ∨ (tid ≠ 0 ∧ queue_at r' (drop k q) (D + k) ∧
      rc_tids r' = zinsert 0 (if send_phase (ipc tid items) then tid else 0) (rc_tids r) ∧
      ∃ evs, adds evs r r' ∧ messages evs = [items])) r.
Proof.
  intros Hq Hl Hc Ht. unfold L4VMnet_xmit_packets_to_client. change IVMnet_max_receiver_cnt with (S (S 6)).
  assert (∀ r', rc_receiver_cnt r' = 1 → xmit_to_receivers ipc (S 6) (0 + 1) r' = Ok tt r') as Hend.
  { intros r' Hr. cbn [xmit_to_receivers]. unfold mbind, M_bind, mget. by rewrite Hr. }
  generalize dependent 6%nat. intros m Hend. cbn [xmit_to_receivers]. wp_step. wp_step.
  rewrite Hc. rewrite (bool_decide_eq_false_2 (1 ≤ 0)) by lia. wp_step. eapply wp_load_tid; [exact Ht|]. cbv beta.
  case_bool_decide as H0; [eapply wp_run; [by apply Hend|]; by left|].
  wp_step. eapply wp_mono; [apply (xmit_thread_ok _ _ _ _ D tid Hq); [lia|done]|].
  intros b r1 Hb. destruct b; [|destruct Hb as [-> _]; wp_step; by left].
  cbv zeta in Hb. destruct Hb as (_ & Hq1 & Ht1 & evs & (E1 & E2 & E3) & Hm & _ & _).
  eapply wp_run; [apply Hend; congruence|]. right. split; [done|]. split; [done|]. split; [done|].
  exists evs. split; [done|]. done.
Qed.

Lemma delivered_all items : Forall packet_ok items → (length items ≤ IVMnet_rcv_buffer_cnt)%nat → delivered IpcOk items = length items.
Proof.
  intros Hok Hl. unfold delivered. rewrite wrap_small.
  - apply whole_total. eapply Forall_impl; [exact Hok|]. intros p []. done.
  - assert (0 ≤ total_len items ≤ IVMnet_rcv_buffer_size * length items).
    { clear Hl. induction Hok as [|p items [? ?] _ IH]; [done|]. cbn [total_len foldr length]. fold (total_len items). lia. }
    unfold IVMnet_rcv_buffer_size, IVMnet_rcv_buffer_cnt in *. lia.
Qed.

Lemma waiting_app a b : waiting_pkts (a ++ b) = waiting_pkts a ++ waiting_pkts b.
Proof. apply omap_app. Qed.
Lemma waiting_some ps : waiting_pkts (Some <$> ps) = ps.
Proof. unfold waiting_pkts. induction ps; [done|]. cbn. by f_equal. Qed.

Lemma rinv_queue r g acc q D F W cells dirty_tx p : rinv (mk_rsys r g acc) q D F W cells → packet_ok p →
  wp no_fault (L4VMnet_queue_pkt_to_client dirty_tx p) (λ _ r', ∃ q',
    rinv (mk_rsys r' g (if decide (drops (rc_events r') = drops (rc_events r)) then acc ++ [p] else acc)) q' D F W cells) r.
Proof.
  intros [] Hp. simpl in *. eapply wp_mono; [by apply queue_pkt_ok|].
  intros _ r' (evs & (E1 & E2 & E3) & Ht & _ & _ & Hb).
  assert (drops (rc_events r') = drops (rc_events r) ++ drops evs) as Hdr by (unfold drops; by rewrite E1, omap_app).
  destruct (_ && _); destruct Hb as [Hq' Hd]; rewrite Hd in Hdr.
  - rewrite app_nil_r in Hdr. rewrite decide_True by done. exists (q ++ [p]).
    split; simpl; rewrite ?Ht; try done; [congruence|by apply Forall_app; split; [|constructor]|].
    rewrite ri_acc0. by rewrite !app_assoc.
  - rewrite decide_False; [|intros E; rewrite E in Hdr; apply (f_equal length) in Hdr; rewrite length_app in Hdr; simpl in Hdr; lia].
    exists q. split; simpl; rewrite ?Ht; try done. congruence.
Qed.

Lemma rinv_flush r g acc q D F W cells : rinv (mk_rsys r g acc) q D F W cells →
  wp no_fault (L4VMnet_xmit_packets_to_client (kernel_ipc g)) (λ _ r',
    wp no_fault (deliver r r') (λ _ g', ∃ q' D' F' cells', rinv (mk_rsys r' g' acc) q' D' F' W cells') g) r.
Proof.
  intros R. pose proof R as []. cbn [rs_srv rs_cl rs_acc] in *.
  assert (∃ tid, zlookup (rc_tids r) 0 = Some tid ∧ (tid ≠ 0 → tid = dev_tid)) as (tid & Ht & Htid).
  { destruct ri_tid0; eexists; split; try done. }
  eapply wp_mono; [by apply (flush_ok _ _ q D tid)|]. intros [] r' Hr'. cbv zeta in Hr'.
  remember (take IVMnet_rcv_buffer_cnt q) as items eqn:Hitems. unfold deliver. wp_step. wp_step.
  destruct Hr' as [->|(Hnz & Hq' & Ht' & evs & (E1 & E2 & E3) & Hm)].
  - rewrite drop_all. destruct (g_thread g); wp_step; eauto 10.
  - pose proof (Htid Hnz) as ->. clear Htid.
    assert (messages (rc_events r') = messages (rc_events r) ++ [items]) as Hms by (unfold messages in *; by rewrite E1, omap_app, Hm).
    rewrite Hms, drop_app_length. cbv iota.
    assert (length items ≤ IVMnet_rcv_buffer_cnt)%nat as Hli by (rewrite Hitems, length_take; lia).
    assert (Forall packet_ok items) as Hoki by (rewrite Hitems; by apply Forall_take).
    assert (0 ≤ 0 < length (rc_tids r)) as Hr0 by (rewrite ri_tids0; unfold IVMnet_max_receiver_cnt; lia).
    unfold kernel_ipc in Hq', Ht'. destruct (g_thread g) eqn:Hth.
    + unfold delivered in Hq'. rewrite Hcode in Hq', Ht'. rewrite drop_0, Nat.add_0_r in Hq'. wp_step. exists q, D, F, cells.
      split; simpl; rewrite ?Ht', ?length_zinsert, ?Hth; try done; [congruence|]. right. by apply zlookup_zinsert_eq.
    + unfold delivered in Hq'. rewrite Hcode in Hq', Ht'. rewrite drop_0, Nat.add_0_r in Hq'. wp_step. exists q, D, F, cells.
      split; simpl; rewrite ?Ht', ?length_zinsert, ?Hth; try done; [congruence|]. right. by apply zlookup_zinsert_eq.
    + rewrite decide_True in Hq', Ht' by done. rewrite delivered_all in Hq' by done.
      eapply wp_mono; [by apply (rcv_thread_wait_ok items _ F W cells); auto|].
      intros _ g' (Hi' & He & Hth' & _). exists (drop (length items) q), (D + length items)%nat, (F + length items)%nat, (cells ++ (Some <$> items)).
      split; simpl; rewrite ?Ht', ?length_zinsert, ?He; try done.
      * congruence.
      * left. by apply zlookup_zinsert_eq.
      * by apply Forall_drop.
      * by rewrite Hth'.
      * rewrite ri_acc0, waiting_app, waiting_some, <- app_assoc. do 2 f_equal.
        rewrite <- (take_drop IVMnet_rcv_buffer_cnt q) at 1. rewrite <- Hitems. f_equal. rewrite Hitems, length_take.
        destruct (decide (IVMnet_rcv_buffer_cnt ≤ length q)%nat); [by rewrite Nat.min_l|]. rewrite !drop_ge by lia. done.
Qed.

Lemma rinv_prepare r g acc q D F W cells : rinv (mk_rsys r g acc) q D F W cells →
  wp no_fault L4VMnet_rcv_thread_prepare (λ _ g', rinv (mk_rsys (publish g' r) g' acc) q D F W cells) g.
Proof.
  intros R. pose proof R as []. cbn [rs_srv rs_cl rs_acc] in *.
  assert (0 ≤ 0 < length (rc_tids r)) as Hr0 by (rewrite ri_tids0; unfold IVMnet_max_receiver_cnt; lia).
  unfold L4VMnet_rcv_thread_prepare. wp_step. wp_step. rewrite (ci_free _ _ _ _ ri_cl0), <- (Nat.add_0_r F) at 1.
  wp_step. eapply wp_mono; [apply (count_buffers_ok _ _ _ _ ri_cl0); [lia|unfold IVMnet_rcv_buffer_cnt; lia|]|].
  { pose proof (ci_ord _ _ _ _ ri_cl0). lia. }
  intros b g1 [-> Hb]. wp_step.
  assert (∀ g1 st, g1 = g_set_status st g → (b = false → Z.land st L4VMNET_IRQ_RING_EMPTY ≠ 0) →
    wp no_fault (status ← mgets g_status;
      if bool_decide (Z.land status L4VMNET_IRQ_RING_EMPTY ≠ 0) then mmodify (g_set_thread TSleep) else mmodify (g_set_thread TWait))
      (λ _ g', rinv (mk_rsys (publish g' r) g' acc) q D F W cells) g1) as Hrest.
  { intros g1 st -> Hst. wp_step. wp_step. cbn [g_status g_set_status]. case_bool_decide as Hd.
    - wp_step. unfold publish. cbn [g_thread g_set_thread]. split; cbn [rs_srv rs_cl rs_acc]; try done.
      by eapply cinv_same.
    - wp_step. unfold publish. cbn [g_thread g_set_thread].
      split; cbn [rs_srv rs_cl rs_acc rc_tids rc_set_tids]; rewrite ?length_zinsert; try done.
      + by apply queue_at_tids.
      + by eapply cinv_same.
      + right. by apply zlookup_zinsert_eq.
      + intros _. apply Hb. destruct b; [done|]. exfalso. by apply Hst. }
  destruct b; wp_step.
  - apply (Hrest _ (g_status g)); [by destruct g|done].
  - eapply Hrest; [done|]. intros _ E. apply (f_equal (λ z, Z.testbit z 1)) in E.
    rewrite Z.land_spec, Z.lor_spec in E. unfold L4VMNET_IRQ_RING_EMPTY in E.
    change (Z.testbit 2 1) with true in E. rewrite orb_true_r in E. done.
Qed.

Lemma rxs_new evs rx : (rxs (evs ++ ((λ p, CRx p (pkt_len p)) <$> rx))).*1 = (rxs evs).*1 ++ rx ∧
  (Forall (λ '(p, len), len = pkt_len p) (rxs evs) →
   Forall (λ '(p, len), len = pkt_len p) (rxs (evs ++ ((λ p, CRx p (pkt_len p)) <$> rx)))).
Proof.
  unfold rxs. rewrite !fmap_app. split.
  - f_equal. induction rx; [done|]. cbn. by f_equal.
  - intros H. apply Forall_app. split; [done|]. clear. induction rx; cbn; by constructor.
Qed.

Lemma rinv_irq r g acc q D F W cells alloc : rinv (mk_rsys r g acc) q D F W cells →
  wp no_fault (L4VMnet_irq_handler_rcv alloc) (λ b g', ∃ W' cells', rinv (mk_rsys r g' acc) q D F W' cells' ∧
    (b = true → (∀ k, alloc k = true) → cells' = [])) g.
Proof.
  intros R. pose proof R as []. cbn [rs_srv rs_cl rs_acc] in *.
  unfold L4VMnet_irq_handler_rcv. wp_step. wp_step. wp_step. wp_step.
  assert (cinv (g_set_status 0 g) F W cells) as Hi by (by eapply cinv_same).
  case_bool_decide as Hev.
  - wp_step. exists W, cells. split; [|done]. by split.
  - wp_step. unfold L4VMnet_walk_rcv_ring. wp_step.
    eapply wp_mono; [apply (walk_loop_ok alloc F cells _ 0 _ W Hi)|].
    { pose proof (ci_cnt _ _ _ _ Hi). pose proof (ci_ord _ _ _ _ Hi). lia. }
    intros n g1 (W' & cells' & rx & Hi1 & HW & _ & Hw & He & Hst & Hth & Hall).
    assert (∀ t, t = g_thread g ∨ t = TPrepare →
      rinv (mk_rsys r (g_set_thread t g1) acc) q D F W' cells') as Hfin.
    { intros t Ht. split; cbn [rs_srv rs_cl rs_acc]; try done.
      - by eapply cinv_same.
      - cbn [g_thread g_set_thread]. destruct Ht as [->| ->]; [|done]. intros E. specialize (ri_wait0 E). lia.
      - cbn [g_events g_set_thread]. rewrite He, (proj1 (rxs_new _ _)). cbn [g_events g_set_status].
        by rewrite ri_acc0, Hw, <- !app_assoc.
      - cbn [g_events g_set_thread]. rewrite He. by apply rxs_new. }
    destruct (_ && _); wp_step; wp_step; exists W', cells'; (split; [|auto]).
    + apply Hfin. by right.
    + replace g1 with (g_set_thread (g_thread g) g1) by (change (g_thread g) with (g_thread (g_set_status 0 g)); rewrite <- Hth; by destruct g1). apply Hfin. by left.
Qed.

(** ** Runs *)

(** The client after [L4VMnet_open]: an empty ring, and a device thread that is
    about to look for buffers. *)
Definition group_init : rcv_group :=
  mk_group 0 (replicate rcv_cnt (mk_rdesc None 0 false)) 0 0 (replicate rcv_cnt None) TPrepare ∅ 0 [].
Definition rsys_init : rsys := mk_rsys (rcv_init dev_tid) group_init [].

Lemma rsys_init_ok : rinv rsys_init [] 0 0 0 (replicate rcv_cnt None).
Proof.
  assert (∀ i (b : nat), zlookup (replicate rcv_cnt (@None nat)) i ≠ Some (Some b)) as Hnone.
  { intros i b H. pose proof (zlookup_lt _ _ _ H) as Hi. rewrite length_replicate in Hi.
    rewrite zlookup_replicate in H by done. done. }
  split; cbn [rsys_init rs_srv rs_cl rs_acc]; try done.
  - apply rcv_init_ok.
  - split; cbn [group_init g_ring g_shadow g_free g_dirty g_next]; rewrite ?length_replicate; try done.
    + intros p Hp. lia.
    + intros i c [-> Hi]%lookup_replicate. cbn [cell_ok group_init g_ring g_shadow].
      rewrite !zlookup_replicate by apply gslot_range. eauto.
    + intros i j b H. by apply Hnone in H.
    + intros i b H. by apply Hnone in H.
  - by right.
Qed.

Definition rreach (s : rsys) : Prop := rtc rstep rsys_init s.

Lemma rstep_inv s s' : rstep s s' → (∃ q D F W cells, rinv s q D F W cells) → ∃ q D F W cells, rinv s' q D F W cells.
Proof.
  intros Hstep (q & D & F & W & cells & R). destruct Hstep.
  - destruct (wp_ok _ _ _ _ _ _ (rinv_queue _ _ _ _ _ _ _ _ dirty_tx p R H) H0) as (q' & R'). eauto 10.
  - pose proof (wp_ok _ _ _ _ _ _ (rinv_flush _ _ _ _ _ _ _ _ R) H) as Hd.
    destruct (wp_ok _ _ _ _ _ _ Hd H0) as (q' & D' & F' & cells' & R'). eauto 10.
  - pose proof (wp_ok _ _ _ _ _ _ (rinv_prepare _ _ _ _ _ _ _ _ R) H0) as R'. exists q, D, F, W, cells. exact R'.
  - destruct (wp_ok _ _ _ _ _ _ (rinv_irq _ _ _ _ _ _ _ _ alloc R) H) as (W' & cells' & R' & _). eauto 10.
Qed.
Lemma rreach_inv s : rreach s → ∃ q D F W cells, rinv s q D F W cells.
Proof.
  unfold rreach. revert s. apply rtc_ind_r; [do 5 eexists; apply rsys_init_ok|]. intros s s' _ Hs IH. by eapply rstep_inv.
Qed.

(** C3. In every reachable state the packets the server queued for the client are,
    in order, those the client has given to its Linux, those in its receive ring,
    and those in the server's queue; Linux gets each packet once, in the order of
    arrival, in a buffer that holds it, with its length. *)
Theorem net_receive_in_order s : rreach s →
  ∃ q D cells F W, queue_at (rs_srv s) q D ∧ cinv (rs_cl s) F W cells ∧
    rs_acc s = (rxs (g_events (rs_cl s))).*1 ++ waiting_pkts cells ++ q ∧
    Forall (λ '(p, len), len = pkt_len p) (rxs (g_events (rs_cl s))).
Proof.
  intros (q & D & F & W & cells & [])%rreach_inv. exists q, D, cells, F, W. done.
Qed.

(** No operation of the receive path faults in a reachable state: the device
    thread finds the buffers it promised to the kernel, a message fits them, and
    the interrupt handler ends. *)
Theorem net_receive_safe s : rreach s →
  (∀ dirty_tx p, packet_ok p → ∃ r', L4VMnet_queue_pkt_to_client dirty_tx p (rs_srv s) = Ok tt r') ∧
  (∃ r' g', L4VMnet_xmit_packets_to_client (kernel_ipc (rs_cl s)) (rs_srv s) = Ok tt r' ∧
     deliver (rs_srv s) r' (rs_cl s) = Ok tt g') ∧
  (∃ g', L4VMnet_rcv_thread_prepare (rs_cl s) = Ok tt g') ∧
  (∀ alloc, ∃ b g', L4VMnet_irq_handler_rcv alloc (rs_cl s) = Ok b g').
Proof.
  intros (q & D & F & W & cells & R)%rreach_inv. destruct s as [r g acc]. cbn [rs_srv rs_cl]. split_and!.
  - intros dirty_tx p Hp. destruct (wp_no_fault _ _ _ (rinv_queue _ _ _ _ _ _ _ _ dirty_tx p R Hp)) as ([] & r' & ? & _). eauto.
  - destruct (wp_no_fault _ _ _ (rinv_flush _ _ _ _ _ _ _ _ R)) as ([] & r' & ? & Hd).
    destruct (wp_no_fault _ _ _ Hd) as ([] & g' & ? & _). eauto.
  - destruct (wp_no_fault _ _ _ (rinv_prepare _ _ _ _ _ _ _ _ R)) as ([] & g' & ? & _). eauto.
  - intros alloc. destruct (wp_no_fault _ _ _ (rinv_irq _ _ _ _ _ _ _ _ alloc R)) as (b & g' & ? & _). eauto.
Qed.

(** Once the device thread sleeps for want of buffers and the event that
    announced it has been taken, nothing wakes it again: no run of the interrupt
    handler finds an event, and frames only pile up in the server. *)
Lemma sleep_forever s s' : g_thread (rs_cl s) = TSleep → g_status (rs_cl s) = 0 → rtc rstep s s' → rs_cl s' = rs_cl s.
Proof.
  intros Ht Hs. revert s'. apply rtc_ind_r; [done|]. intros s1 s2 _ Hstep IH. destruct Hstep; cbn [rs_cl] in *; subst.
  - done.
  - unfold deliver, mbind, M_bind, mgets in H0. rewrite Ht in H0. by injection H0.
  - congruence.
  - unfold L4VMnet_irq_handler_rcv, mbind, M_bind, mgets, mmodify in H. rewrite Hs in H. cbn in H.
    injection H as _ <-. unfold g_set_status. rewrite <- Hs. by destruct (rs_cl s).
Qed.

(** The client can get there with its first interrupt: the device thread starts
    without buffers and sleeps, the first allocation of the handler fails, and
    the client never receives a packet. *)
Theorem net_receive_can_stop : ∃ s, rreach s ∧ g_events (rs_cl s) = [] ∧
  (∀ s', rtc rstep s s' → rs_cl s' = rs_cl s).
Proof.
  set (g1 := match L4VMnet_rcv_thread_prepare group_init with Ok _ g => g | Err _ => group_init end).
  set (g2 := match L4VMnet_irq_handler_rcv (λ _, false) g1 with Ok _ g => g | Err _ => g1 end).
  assert (L4VMnet_rcv_thread_prepare group_init = Ok tt g1) as H1 by (vm_compute; reflexivity).
  assert (L4VMnet_irq_handler_rcv (λ _, false) g1 = Ok true g2) as H2 by (vm_compute; reflexivity).
  exists (mk_rsys (publish g1 (rcv_init dev_tid)) g2 []). split; [|split].
  - eapply rtc_l; [by apply rs_prepare|]. eapply rtc_l; [by eapply rs_irq|]. done.
  - vm_compute. done.
  - intros s'. apply sleep_forever; vm_compute; done.
Qed.
End receive.

(** ** A sample run: a frame is queued, delivered and given to Linux. *)

Definition gafter {A} (m : MG A) (g : rcv_group) : rcv_group := match m g with Ok _ g' => g' | Err _ => g end.
Definition gvalue {A} (m : MG A) (g : rcv_group) : option A := match m g with Ok a _ => Some a | Err _ => None end.
Definition rafter {A} (m : MR A) (r : rcv_client) : rcv_client := match m r with Ok _ r' => r' | Err _ => r end.
Definition rvalue {A} (m : MR A) (r : rcv_client) : option A := match m r with Ok a _ => Some a | Err _ => None end.
Lemma gvalue_after {A} (m : MG A) g a : gvalue m g = Some a → m g = Ok a (gafter m g).
Proof. unfold gvalue, gafter. by destruct (m g); intros [= ->]. Qed.
Lemma rvalue_after {A} (m : MR A) r a : rvalue m r = Some a → m r = Ok a (rafter m r).
Proof. unfold rvalue, rafter. by destruct (m r); intros [= ->]. Qed.

Definition sample_packet : packet := mk_packet 1 1514.
Definition sg0 : rcv_group := gafter L4VMnet_rcv_thread_prepare group_init.
Definition sg1 : rcv_group := gafter (L4VMnet_irq_handler_rcv (λ _, true)) sg0.
Definition sg2 : rcv_group := gafter L4VMnet_rcv_thread_prepare sg1.
Definition sr0 : rcv_client := publish 7 sg0 (rcv_init 7).
Definition sr1 : rcv_client := publish 7 sg2 sr0.
Definition sr2 : rcv_client := rafter (L4VMnet_queue_pkt_to_client 0 sample_packet) sr1.
Definition sr3 : rcv_client := rafter (L4VMnet_xmit_packets_to_client (kernel_ipc 7 2 sg2)) sr2.
Definition sg3 : rcv_group := gafter (deliver sr2 sr3) sg2.
Definition sg4 : rcv_group := gafter (L4VMnet_irq_handler_rcv (λ _, true)) sg3.
Definition sample_sys : rsys := mk_rsys sr3 sg4 [sample_packet].

Lemma sample_rreach : rreach 7 2 sample_sys.
Proof.
  assert (gvalue L4VMnet_rcv_thread_prepare group_init = Some tt) as H0 by (vm_compute; reflexivity).
  assert (gvalue (L4VMnet_irq_handler_rcv (λ _, true)) sg0 = Some true) as H1 by (vm_compute; reflexivity).
  assert (gvalue L4VMnet_rcv_thread_prepare sg1 = Some tt) as H2 by (vm_compute; reflexivity).
  assert (g_thread sg1 = TPrepare) as H2' by (vm_compute; reflexivity).
  assert (rvalue (L4VMnet_queue_pkt_to_client 0 sample_packet) sr1 = Some tt) as H3 by (vm_compute; reflexivity).
  assert (rvalue (L4VMnet_xmit_packets_to_client (kernel_ipc 7 2 sg2)) sr2 = Some tt) as H4 by (vm_compute; reflexivity).
  assert (gvalue (deliver sr2 sr3) sg2 = Some tt) as H5 by (vm_compute; reflexivity).
  assert (gvalue (L4VMnet_irq_handler_rcv (λ _, true)) sg3 = Some true) as H6 by (vm_compute; reflexivity).
  assert (drops (rc_events sr2) = drops (rc_events sr1)) as H7 by (vm_compute; reflexivity).
  assert (packet_ok sample_packet) as Hp by (unfold packet_ok, IVMnet_rcv_buffer_size; simpl; lia).
  eapply rtc_l; [exact (rs_prepare 7 2 (rcv_init 7) group_init [] sg0 eq_refl (gvalue_after _ _ _ H0))|].
  eapply rtc_l; [exact (rs_irq 7 2 sr0 sg0 [] _ _ sg1 (gvalue_after _ _ _ H1))|].
  eapply rtc_l; [exact (rs_prepare 7 2 sr0 sg1 [] sg2 H2' (gvalue_after _ _ _ H2))|].
  eapply rtc_l; [exact (rs_queue 7 2 sr1 sg2 [] 0 sample_packet sr2 Hp (rvalue_after _ _ _ H3))|].
  rewrite decide_True by exact H7.
  eapply rtc_l; [exact (rs_flush 7 2 sr2 sg2 _ sr3 sg3 (rvalue_after _ _ _ H4) (gvalue_after _ _ _ H5))|].
  eapply rtc_l; [exact (rs_irq 7 2 sr3 sg3 _ _ _ sg4 (gvalue_after _ _ _ H6))|]. apply rtc_refl.
Qed.

Example sample_received : rxs (g_events sg4) = [(sample_packet, 1514)].
Proof. vm_compute. reflexivity. Qed.

Lemma net_receive_in_order_witness : send_phase (IpcErr 2) = true ∧
  ∃ q D cells F W, queue_at (rs_srv sample_sys) q D ∧ cinv (rs_cl sample_sys) F W cells ∧
    rs_acc sample_sys = (rxs (g_events (rs_cl sample_sys))).*1 ++ waiting_pkts cells ++ q ∧
    Forall (λ '(p, len), len = pkt_len p) (rxs (g_events (rs_cl sample_sys))).
Proof. split; [reflexivity|]. exact (net_receive_in_order 7 2 ltac:(lia) eq_refl sample_sys sample_rreach). Defined.
Lemma net_receive_safe_witness :
  (∀ dirty_tx p, packet_ok p → ∃ r', L4VMnet_queue_pkt_to_client dirty_tx p (rs_srv sample_sys) = Ok tt r') ∧
  (∃ r' g', L4VMnet_xmit_packets_to_client (kernel_ipc 7 2 (rs_cl sample_sys)) (rs_srv sample_sys) = Ok tt r' ∧ deliver (rs_srv sample_sys) r' (rs_cl sample_sys) = Ok tt g') ∧
  (∃ g', L4VMnet_rcv_thread_prepare (rs_cl sample_sys) = Ok tt g') ∧
  (∀ alloc, ∃ b g', L4VMnet_irq_handler_rcv alloc (rs_cl sample_sys) = Ok b g').
Proof. exact (net_receive_safe 7 2 ltac:(lia) eq_refl sample_sys sample_rreach). Defined.
