(* ===== verification/NetControl.v ===== *)
(** * The network server: clients

    Models the client table and the control handlers of
    l4ka-driver-reuse/kernel/net/server.c (attach, reattach, detach, start, stop),
    the routing of inbound frames and the flush tasklet, on top of the receive
    queues of NetRecv.v and the addresses of LanAddress.v. Memory, the mapping of
    pages, and Linux's devices are inputs of the handlers. *)

From stdpp Require Import base list gmap gmultiset numbers.
From Stdlib Require Import ZArith Lia.
From S2P Require Import Prelude LanAddress NetRecv NetRecvQueue.

Definition L4VMNET_MAX_CLIENTS : nat := 16.

Inductive net_exception : Type := ex_IVMnet_no_memory | ex_IVMnet_invalid_client | ex_IVMnet_invalid_handle.

(** The calls of the handlers, and their replies with the exception and the
    handle. *)
Inductive ctl_event : Type :=
  | NReply (tid : Z) (ex : option net_exception) (handle : option Z)
  | NFpageAlloc (region : Z)
  | NFpageDealloc (region : Z)
  | NDevGet (dev : Z)
  | NDevPut (dev : Z)
  | NDevUp (dev : Z).

Record net_client : Type := mk_nc {
  nc_handle : Z;
  nc_lan : lanaddress_t;
  nc_dev : option Z;
  nc_region : Z;
  nc_rcv : rcv_client
}.
Definition nc_set_dev d (c : net_client) := mk_nc (nc_handle c) (nc_lan c) d (nc_region c) (nc_rcv c).
Definition nc_set_rcv r (c : net_client) := mk_nc (nc_handle c) (nc_lan c) (nc_dev c) (nc_region c) r.
Definition rc_set_operating b (r : rcv_client) := mk_rcv b (rc_ring r) (rc_free r) (rc_dirty r) (rc_receiver_cnt r) (rc_tids r) (rc_events r).

(** [L4VMnet_client_list] (the table), the heap of client structures, and
    [L4VMnet_server.client_list]. *)
Record net_server : Type := mk_ns {
  ns_table : list (option positive);
  ns_heap : gmap positive net_client;
  ns_list : list positive;
  ns_events : list ctl_event
}.
Definition ns_set_table t s := mk_ns t (ns_heap s) (ns_list s) (ns_events s).
Definition ns_set_heap h s := mk_ns (ns_table s) h (ns_list s) (ns_events s).
Definition ns_set_list l s := mk_ns (ns_table s) (ns_heap s) l (ns_events s).
Definition ns_emit e s := mk_ns (ns_table s) (ns_heap s) (ns_list s) (ns_events s ++ [e]).

Abbreviation MS := (M net_server).
Definition nemit (e : ctl_event) : MS unit := mmodify (ns_emit e).
Definition load_client (c : positive) : MS net_client := o ← mgets (λ s, ns_heap s !! c); mof_option DanglingDeref o.
Definition store_client (c : positive) (x : net_client) : MS unit := mmodify (λ s, ns_set_heap (<[c := x]> (ns_heap s)) s).

Definition L4VMnet_client_handle_set (handle : Z) (client : positive) : MS bool :=
  if bool_decide (L4VMNET_MAX_CLIENTS ≤ handle) then mret false else
  o ← mgets (λ s, zlookup (ns_table s) handle);
  e ← mof_option OutOfBounds o;
  match e with
  | Some _ => mret false
  | None => mmodify (λ s, ns_set_table (zinsert handle (Some client) (ns_table s)) s);; mret true
  end.
Definition L4VMnet_client_handle_lookup (handle : Z) : MS (option positive) :=
  if bool_decide (handle < L4VMNET_MAX_CLIENTS) then
    o ← mgets (λ s, zlookup (ns_table s) handle); mof_option OutOfBounds o
  else mret None.

(** The receive queue and the shared area of a new client, zeroed. *)
Definition rcv_fresh : rcv_client :=
  mk_rcv false (replicate L4VMNET_SKB_RING_LEN None) 0 0 0 (replicate IVMnet_max_receiver_cnt 0) [].

(** The reply stub of attach: with an exception only the exception is sent;
    otherwise it copies the handle and the two mappings, which must be there. *)
Definition IVMnet_Control_attach_propagate_reply (tid : Z) (handle : option Z)
    (ex : option net_exception) : MS unit :=
  match ex, handle with
  | Some e, _ => nemit (NReply tid (Some e) None)
  | None, Some h => nemit (NReply tid None (Some h))
  | None, None => mfault NullDeref
  end.

(** [space], [region], [mem] and [dev] are the results of
    [L4VM_get_client_space_info], [L4VM_fpage_alloc], [kmalloc] and
    [dev_get_by_name]. *)
Definition L4VMnet_attach_handler (tid : Z) (lan : lanaddress_t) (space : bool) (region : option Z)
    (mem : option positive) (dev : option Z) : MS unit :=
  let handle := lanaddress_get_handle lan in
  if negb space then IVMnet_Control_attach_propagate_reply tid None None else
  match region with
  | None => IVMnet_Control_attach_propagate_reply tid None (Some ex_IVMnet_no_memory)
  | Some rg =>
      nemit (NFpageAlloc rg);;
      match mem with
      | None => nemit (NFpageDealloc rg);;
          IVMnet_Control_attach_propagate_reply tid None (Some ex_IVMnet_no_memory)
      | Some c =>
          (match dev with Some d => nemit (NDevGet d) | None => mret tt end);;
          store_client c (mk_nc handle lan dev rg rcv_fresh);;
          ok ← L4VMnet_client_handle_set handle c;
          if (ok : bool) then
            mmodify (λ s, ns_set_list (c :: ns_list s) s);;
            IVMnet_Control_attach_propagate_reply tid (Some handle) None
          else
            mmodify (λ s, ns_set_heap (delete c (ns_heap s)) s);;
            nemit (NFpageDealloc rg);;
            IVMnet_Control_attach_propagate_reply tid None (Some ex_IVMnet_invalid_client)
      end
  end.

(** A handler that acts on a client it looks up by handle. *)
Definition with_handle (tid handle : Z) (m : positive → net_client → MS unit) : MS unit :=
  o ← L4VMnet_client_handle_lookup handle;
  match o with
  | None => nemit (NReply tid (Some ex_IVMnet_invalid_handle) None)
  | Some c => x ← load_client c; m c x;; nemit (NReply tid None None)
  end.
Definition L4VMnet_reattach_handler (tid handle : Z) : MS unit := with_handle tid handle (λ _ _, mret tt).
Definition L4VMnet_detach_handler (tid handle : Z) : MS unit := with_handle tid handle (λ c x,
  match nc_dev x with
  | Some d => nemit (NDevPut d);; store_client c (nc_set_dev None (nc_set_rcv (rc_set_operating false (nc_rcv x)) x))
  | None => store_client c (nc_set_rcv (rc_set_operating false (nc_rcv x)) x)
  end).
Definition L4VMnet_start_handler (tid handle : Z) : MS unit := with_handle tid handle (λ c x,
  match nc_dev x with
  | Some d => store_client c (nc_set_rcv (rc_set_operating true (nc_rcv x)) x);; nemit (NDevUp d)
  | None => mret tt
  end).
Definition L4VMnet_stop_handler (tid handle : Z) : MS unit := with_handle tid handle (λ c x,
  store_client c (nc_set_rcv (rc_set_operating false (nc_rcv x)) x)).

(** An operation on the receive queue of a client. *)
Definition on_client (c : positive) (m : MR unit) : MS unit :=
  x ← load_client c;
  match m (nc_rcv x) with
  | Ok _ r => store_client c (nc_set_rcv r x)
  | Err f => mfault f
  end.

Fixpoint flood (clone : positive → option packet) (clients : list positive) : MS unit :=
  match clients with
  | [] => mret tt
  | c :: clients =>
      (match clone c with Some p => on_client c (L4VMnet_queue_pkt_to_client 0 p) | None => mret tt end);;
      flood clone clients
  end.
(** [linux_lan] and [dst] are the addresses of the device and of the frame,
    [clone] the result of [skb_clone] per client. *)
Definition L4VMnet_absorb_frame (linux_lan dst : lanaddress_t) (p : packet) (clone : positive → option packet) : MS bool :=
  if bool_decide (align4_lsb linux_lan = align4_lsb dst) && bool_decide (align4_msb linux_lan = align4_msb dst) then mret false else
  o ← L4VMnet_client_handle_lookup (lanaddress_get_handle dst);
  match o with
  | Some c => on_client c (L4VMnet_queue_pkt_to_client 0 p);; mret true
  | None => l ← mgets ns_list; flood clone l;; mret false
  end.

Fixpoint flush_clients (ipc : positive → Z → list packet → ipc_result) (clients : list positive) : MS unit :=
  match clients with
  | [] => mret tt
  | c :: clients =>
      x ← load_client c;
      (if rc_operating (nc_rcv x) then on_client c (L4VMnet_xmit_packets_to_client (ipc c)) else mret tt);;
      flush_clients ipc clients
  end.
Definition L4VMnet_flush_tasklet_handler (ipc : positive → Z → list packet → ipc_result) : MS unit :=
  l ← mgets ns_list; flush_clients ipc l.

(** ** The tables are consistent *)

Definition region_step (X : gmultiset Z) (e : ctl_event) : gmultiset Z :=
  match e with NFpageAlloc r => X ⊎ {[+ r +]} | NFpageDealloc r => X ∖ {[+ r +]} | _ => X end.
(** The shared regions that are allocated and not freed, and those of clients. *)
Definition regions (evs : list ctl_event) : gmultiset Z := foldl region_step ∅ evs.
Definition client_region (h : gmap positive net_client) (c : positive) : gmultiset Z :=
  match h !! c with Some x => {[+ nc_region x +]} | None => ∅ end.
Definition client_regions (h : gmap positive net_client) (l : list positive) : gmultiset Z :=
  foldr (λ c X, client_region h c ⊎ X) ∅ l.

Record client_ok (x : net_client) : Prop := {
  co_handle : nc_handle x = lanaddress_get_handle (nc_lan x);
  co_dev : rc_operating (nc_rcv x) = true → nc_dev x ≠ None;
  co_queue : ∃ q D, queue_at (nc_rcv x) q D;
  co_tids : length (rc_tids (nc_rcv x)) = IVMnet_max_receiver_cnt
}.
Record nsinv (s : net_server) : Prop := {
  nsi_len : length (ns_table s) = L4VMNET_MAX_CLIENTS;
  nsi_nodup : NoDup (ns_list s);
  nsi_client : ∀ c, c ∈ ns_list s → ∃ x, ns_heap s !! c = Some x ∧ client_ok x ∧
    zlookup (ns_table s) (nc_handle x) = Some (Some c);
  nsi_table : ∀ h c, zlookup (ns_table s) h = Some (Some c) → c ∈ ns_list s ∧ ∃ x, ns_heap s !! c = Some x ∧ nc_handle x = h;
  nsi_heap : ∀ c x, ns_heap s !! c = Some x → c ∈ ns_list s;
  nsi_regions : regions (ns_events s) = client_regions (ns_heap s) (ns_list s)
}.

Definition replies (evs : list ctl_event) : list Z := omap (λ e, match e with NReply t _ _ => Some t | _ => None end) evs.
Lemma net_replies_snoc evs e : replies (evs ++ [e]) = replies evs ++ replies [e].
Proof. apply omap_app. Qed.
Lemma regions_snoc evs e : regions (evs ++ [e]) = region_step (regions evs) e.
Proof. unfold regions. by rewrite foldl_app. Qed.

Lemma client_regions_ext h h' l : (∀ c, c ∈ l → client_region h' c = client_region h c) → client_regions h' l = client_regions h l.
Proof.
  induction l as [|c l IH]; intros H; [done|]. cbn. rewrite H by set_solver. f_equal. apply IH. set_solver.
Qed.

(** The effect of a handler on the trace that does not move regions. *)
Definition quiet (e : ctl_event) : Prop := match e with NFpageAlloc _ | NFpageDealloc _ => False | _ => True end.
Lemma nsinv_emit s e : quiet e → nsinv s → nsinv (ns_emit e s).
Proof. intros He []. split; cbn [ns_emit ns_table ns_heap ns_list ns_events]; try done. rewrite regions_snoc. by destruct e. Qed.

(** A client in the table changes, keeping its handle and its region. *)
Lemma nsinv_update s c x x' : nsinv s → ns_heap s !! c = Some x → client_ok x' →
  nc_handle x' = nc_handle x → nc_region x' = nc_region x → nsinv (ns_set_heap (<[c := x']> (ns_heap s)) s).
Proof.
  intros [] Hc Hok Hh Hr. split; cbn [ns_set_heap ns_table ns_heap ns_list ns_events]; try done.
  - intros c' Hc'. destruct (decide (c' = c)) as [->|Hne].
    + rewrite lookup_insert_eq. exists x'. split; [done|]. split; [done|]. rewrite Hh.
      destruct (nsi_client0 c Hc') as (x0 & ? & ? & ?). by simplify_eq.
    + rewrite lookup_insert_ne by done. by apply nsi_client0.
  - intros h c' Ht. destruct (nsi_table0 _ _ Ht) as (? & y & Hy & Hhy). split; [done|].
    destruct (decide (c' = c)) as [->|Hne]; [rewrite lookup_insert_eq|rewrite lookup_insert_ne by done; eauto].
    simplify_eq. eauto.
  - intros c' y. destruct (decide (c' = c)) as [->|Hne]; [intros _; by eapply nsi_heap0|].
    rewrite lookup_insert_ne by done. apply nsi_heap0.
  - rewrite nsi_regions0. symmetry. apply client_regions_ext. intros c' _. unfold client_region.
    destruct (decide (c' = c)) as [->|Hne]; [by rewrite lookup_insert_eq, Hc, Hr|by rewrite lookup_insert_ne].
Qed.

Lemma handle_lookup_ok s handle : nsinv s → 0 ≤ handle →
  wp no_fault (L4VMnet_client_handle_lookup handle) (λ o s', s' = s ∧
    match o with
    | Some c => ∃ x, ns_heap s !! c = Some x ∧ c ∈ ns_list s ∧ client_ok x ∧ nc_handle x = handle
    | None => ∀ c x, c ∈ ns_list s → ns_heap s !! c = Some x → nc_handle x ≠ handle
    end) s.
Proof.
  intros [] Hh. unfold L4VMnet_client_handle_lookup. case_bool_decide as Hlt.
  - destruct (zlookup_is_Some (ns_table s) handle) as [o Ho]; [lia|].
    wp_step. wp_step. rewrite Ho. cbn [mof_option]. wp_step. split; [done|]. destruct o as [c|].
    + destruct (nsi_table0 _ _ Ho) as (Hin & x & Hx & Hhx). destruct (nsi_client0 _ Hin) as (x' & Hx' & Hok & _). simplify_eq. eauto.
    + intros c x Hin Hx E. destruct (nsi_client0 _ Hin) as (x' & ? & ? & Htab). by simplify_eq.
  - wp_step. split; [done|]. intros c x Hin Hx E. destruct (nsi_client0 _ Hin) as (x' & ? & ? & Htab). simplify_eq.
    apply zlookup_lt in Htab. lia.
Qed.

Lemma wp_load_client F c x s Q : ns_heap s !! c = Some x → Q x s → wp F (load_client c) Q s.
Proof. intros H HQ. unfold load_client. wp_steps; [congruence|]. by simplify_eq. Qed.

(** ** The handlers *)

(** What every handler does: it keeps the tables, and replies once. *)
Definition answered (tid : Z) (s s' : net_server) : Prop := nsinv s' ∧ replies (ns_events s') = replies (ns_events s) ++ [tid].

Lemma with_handle_ok tid handle m s : nsinv s → 0 ≤ handle →
  (∀ c x, ns_heap s !! c = Some x → c ∈ ns_list s → client_ok x →
     wp no_fault (m c x) (λ _ s', nsinv s' ∧ replies (ns_events s') = replies (ns_events s)) s) →
  wp no_fault (with_handle tid handle m) (λ _ s', answered tid s s') s.
Proof.
  intros Hs Hh Hm. unfold with_handle, nemit. wp_step. eapply wp_mono; [by apply handle_lookup_ok|].
  intros o s' [-> Ho]. destruct o as [c|].
  - destruct Ho as (x & Hx & Hin & Hok & _). wp_step. eapply wp_load_client; [exact Hx|]. cbv beta. wp_step.
    eapply wp_mono; [by apply Hm|]. intros _ s' [Hs' Hr]. wp_step. split; [by apply nsinv_emit|].
    cbn [ns_emit ns_events]. by rewrite net_replies_snoc, Hr.
  - wp_step. split; [by apply nsinv_emit|]. cbn [ns_emit ns_events]. by rewrite net_replies_snoc.
Qed.

Lemma queue_at_operating r q D b : queue_at r q D → queue_at (rc_set_operating b r) q D.
Proof. intros []; by split. Qed.
Lemma client_ok_operating x b : client_ok x → (b = true → nc_dev x ≠ None) →
  client_ok (nc_set_rcv (rc_set_operating b (nc_rcv x)) x).
Proof. intros [? ? (q & D & ?) ?] Hb. split; try done. exists q, D. by apply queue_at_operating. Qed.
Lemma client_ok_detach x : client_ok x → client_ok (nc_set_dev None (nc_set_rcv (rc_set_operating false (nc_rcv x)) x)).
Proof. intros [? ? (q & D & ?) ?]. split; try done. exists q, D. by apply queue_at_operating. Qed.

Lemma detach_ok tid handle s : nsinv s → 0 ≤ handle → wp no_fault (L4VMnet_detach_handler tid handle) (λ _ s', answered tid s s') s.
Proof.
  intros Hs Hh. apply with_handle_ok; [done..|]. intros c x Hx Hin Hok. unfold nemit, store_client. destruct (nc_dev x) eqn:Hd.
  - wp_step. wp_step. wp_step. split; [|by cbn [ns_set_heap ns_emit ns_events]; rewrite net_replies_snoc, app_nil_r].
    eapply (nsinv_update (ns_emit _ s)); [by apply nsinv_emit|exact Hx|by apply client_ok_detach|done|done].
  - wp_step. split; [|done]. eapply nsinv_update; [done|exact Hx|by apply client_ok_operating|done|done].
Qed.
Lemma start_ok tid handle s : nsinv s → 0 ≤ handle → wp no_fault (L4VMnet_start_handler tid handle) (λ _ s', answered tid s s') s.
Proof.
  intros Hs Hh. apply with_handle_ok; [done..|]. intros c x Hx Hin Hok. unfold nemit, store_client. destruct (nc_dev x) eqn:Hd; [|wp_step; done].
  wp_step. wp_step. wp_step. split; [|by cbn [ns_set_heap ns_emit ns_events]; rewrite net_replies_snoc, app_nil_r].
  apply nsinv_emit; [done|]. eapply nsinv_update; [done|exact Hx|apply client_ok_operating; [done|congruence]|done|done].
Qed.
Lemma stop_ok tid handle s : nsinv s → 0 ≤ handle → wp no_fault (L4VMnet_stop_handler tid handle) (λ _ s', answered tid s s') s.
Proof.
  intros Hs Hh. apply with_handle_ok; [done..|]. intros c x Hx Hin Hok. unfold nemit, store_client.
  wp_step. split; [|done]. eapply nsinv_update; [done|exact Hx|by apply client_ok_operating|done|done].
Qed.
Lemma reattach_ok tid handle s : nsinv s → 0 ≤ handle → wp no_fault (L4VMnet_reattach_handler tid handle) (λ _ s', answered tid s s') s.
Proof. intros Hs Hh. apply with_handle_ok; [done..|]. intros. wp_step. done. Qed.

Lemma get_handle_range lan : lanaddr_ok lan → 0 ≤ lanaddress_get_handle lan < 65536.
Proof.
  intros (b0 & b1 & b2 & b3 & b4 & b5 & -> & _ & _ & _ & _ & H4 & H5)%lanaddr_bytes.
  change (lanaddress_get_handle _) with (b4 + 256 * b5). unfold byte_ok in *. lia.
Qed.

Lemma rcv_fresh_queue : queue_at rcv_fresh [] 0.
Proof.
  split; [by vm_compute|done..| |].
  - unfold qlen. simpl. lia.
  - intros i Hi. cbn [rcv_fresh rc_ring]. by rewrite zlookup_replicate by apply qslot_range.
Qed.

(** A new client under a free handle. *)
Lemma nsinv_add s c x : nsinv s → ns_heap s !! c = None → client_ok x → zlookup (ns_table s) (nc_handle x) = Some None →
  nsinv (mk_ns (zinsert (nc_handle x) (Some c) (ns_table s)) (<[c := x]> (ns_heap s)) (c :: ns_list s)
    (ns_events s ++ [NFpageAlloc (nc_region x)])).
Proof.
  intros [] Hc Hok Ht. pose proof (zlookup_lt _ _ _ Ht) as Hlt.
  assert (c ∉ ns_list s) as Hni by (intros Hin; destruct (nsi_client0 _ Hin) as (? & ? & _); congruence).
  split; cbn [ns_table ns_heap ns_list ns_events].
  - by rewrite length_zinsert.
  - by apply list.NoDup_cons.
  - intros c' [->|Hin]%elem_of_cons.
    + exists x. rewrite lookup_insert_eq, zlookup_zinsert_eq by done. done.
    + assert (c' ≠ c) by congruence. destruct (nsi_client0 _ Hin) as (y & Hy & Hoky & Hty). exists y.
      rewrite lookup_insert_ne by done. split; [done|]. split; [done|]. rewrite zlookup_zinsert_ne; [done|]. congruence.
  - intros h c'. rewrite zlookup_zinsert by done. case_decide as E.
    + intros [= <-]. split; [set_solver|]. exists x. by rewrite lookup_insert_eq.
    + intros Hh. destruct (nsi_table0 _ _ Hh) as (Hin & y & Hy & ?). split; [set_solver|]. exists y.
      rewrite lookup_insert_ne by congruence. done.
  - intros c' y. destruct (decide (c' = c)) as [->|]; [set_solver|]. rewrite lookup_insert_ne by done. intros ?%nsi_heap0. set_solver.
  - rewrite regions_snoc. cbn [region_step client_regions foldr]. fold (client_regions (<[c:=x]> (ns_heap s)) (ns_list s)).
    rewrite (client_regions_ext (ns_heap s)).
    + rewrite nsi_regions0. unfold client_region. rewrite lookup_insert_eq. multiset_solver.
    + intros c' Hin. unfold client_region. rewrite lookup_insert_ne; [done|]. set_solver.
Qed.

Definition dev_gets (dev : option Z) : list ctl_event := match dev with Some d => [NDevGet d] | None => [] end.

(** A request that changed nothing but the trace. *)
Lemma answered_same tid s s' evs : nsinv s → ns_table s' = ns_table s → ns_heap s' = ns_heap s → ns_list s' = ns_list s →
  ns_events s' = ns_events s ++ evs → (∀ X, foldl region_step X evs = X) → replies evs = [tid] → answered tid s s'.
Proof.
  destruct s', s. cbn. intros [] -> -> -> -> Hr Hp. split.
  - split; try done. cbn in *. rewrite <- nsi_regions0. unfold regions. by rewrite foldl_app, Hr.
  - cbn. unfold replies in *. by rewrite omap_app, Hp.
Qed.

(** The handler after the allocations. *)
Lemma attach_enter_ok lan rg c dev s : nsinv s → lanaddr_ok lan → ns_heap s !! c = None →
  let x := mk_nc (lanaddress_get_handle lan) lan dev rg rcv_fresh in
  let s1 := mk_ns (ns_table s) (<[c := x]> (ns_heap s)) (ns_list s) (ns_events s ++ [NFpageAlloc rg] ++ dev_gets dev) in
  wp no_fault (L4VMnet_client_handle_set (lanaddress_get_handle lan) c) (λ b s', s' =
    (if b then ns_set_table (zinsert (lanaddress_get_handle lan) (Some c) (ns_table s)) s1 else s1) ∧
    b = bool_decide (zlookup (ns_table s) (lanaddress_get_handle lan) = Some None)) s1.
Proof.
  intros Hs Hlan Hc x s1. pose proof (get_handle_range _ Hlan) as Hr. pose proof (nsi_len _ Hs) as Hl.
  unfold L4VMnet_client_handle_set. case_bool_decide as Hmax.
  { wp_step. split; [done|]. symmetry. apply bool_decide_eq_false_2. intros H%zlookup_lt. lia. }
  destruct (zlookup_is_Some (ns_table s) (lanaddress_get_handle lan)) as [o Ho]; [lia|].
  wp_step. wp_step. cbn [ns_table s1]. rewrite Ho. cbn [mof_option]. wp_step. wp_step. destruct o as [c'|].
  - wp_step. split; [done|]. by rewrite bool_decide_eq_false_2.
  - wp_step. wp_step. wp_step. split; [done|]. by rewrite bool_decide_eq_true_2.
Qed.

Lemma attach_ok tid lan region mem dev s : nsinv s → lanaddr_ok lan →
  (∀ c, mem = Some c → ns_heap s !! c = None) →
  wp no_fault (L4VMnet_attach_handler tid lan true region mem dev) (λ _ s', answered tid s s' ∧
    (if bool_decide (region ≠ None ∧ mem ≠ None ∧ zlookup (ns_table s) (lanaddress_get_handle lan) = Some None)
     then ns_list s' = default xH mem :: ns_list s
     else ns_table s' = ns_table s ∧ ns_heap s' = ns_heap s ∧ ns_list s' = ns_list s)) s.
Proof.
  intros Hs Hlan Hmem.
  unfold L4VMnet_attach_handler, IVMnet_Control_attach_propagate_reply, nemit, store_client. cbn [negb].
  destruct region as [rg|].
  2:{ rewrite bool_decide_eq_false_2 by naive_solver. wp_step. split; [|done]. by eapply answered_same. }
  wp_step. wp_step. destruct mem as [c|].
  2:{ rewrite bool_decide_eq_false_2 by naive_solver. wp_step. wp_step. wp_step. split; [|done].
      eapply answered_same; try done; [cbn; rewrite <- !app_assoc; reflexivity| |done]. cbn. intros X. multiset_solver. }
  specialize (Hmem c eq_refl). set (x := mk_nc (lanaddress_get_handle lan) lan dev rg rcv_fresh).
  assert (client_ok x) as Hok by (split; try done; exists [], 0%nat; apply rcv_fresh_queue).
  wp_step. set (s1 := mk_ns (ns_table s) (<[c := x]> (ns_heap s)) (ns_list s) (ns_events s ++ [NFpageAlloc rg] ++ dev_gets dev)).
  assert (∀ (m : unit → MS unit) Q, wp no_fault (m tt) Q (ns_set_heap (ns_heap s) s1) →
    wp no_fault (match dev with Some d => mmodify (ns_emit (NDevGet d)) | None => mret tt end)
      (λ a s', wp no_fault (m a) Q s') (ns_emit (NFpageAlloc rg) s)) as Hdev.
  { intros m Q HQ. unfold s1 in HQ. destruct dev as [d|]; wp_step; unfold ns_emit; cbn in *; [by rewrite <- app_assoc|done]. }
  apply (Hdev (λ _, _)). wp_step. wp_step. wp_step.
  eapply wp_mono; [by apply (attach_enter_ok lan rg c dev s)|]. cbv zeta. intros b s' [-> Hb].
  destruct b; symmetry in Hb; [apply bool_decide_eq_true in Hb|apply bool_decide_eq_false in Hb].
  - wp_step. wp_step. wp_step. rewrite bool_decide_eq_true_2 by done. split; [|done]. split.
    + apply nsinv_emit; [done|]. pose proof (nsinv_add s c x Hs Hmem Hok Hb) as Hadd.
      destruct dev as [d|]; [|done]. pose proof (nsinv_emit _ (NDevGet d) I Hadd) as Hadd'.
      unfold ns_emit in Hadd'. cbn in Hadd'. by rewrite <- app_assoc in Hadd'.
    + cbn. unfold replies. rewrite !omap_app. destruct dev; cbn; by rewrite !app_nil_r.
  - wp_step. wp_step. wp_step. wp_step. wp_step. rewrite bool_decide_eq_false_2 by naive_solver.
    assert (delete c (<[c:=x]> (ns_heap s)) = ns_heap s) as Hdel by (by apply delete_insert_id).
    split; [|split; [done|split; [exact Hdel|done]]].
    eapply answered_same; [done|done|exact Hdel|done|cbn; rewrite <- !app_assoc; reflexivity| |].
    + intros X. destruct dev; cbn; multiset_solver.
    + by destruct dev.
Qed.

(** ** Frames *)

Lemma on_client_ok (P : rcv_client → Prop) c x m s : nsinv s → ns_heap s !! c = Some x → client_ok x →
  wp no_fault m (λ _ r', P r' ∧ rc_operating r' = rc_operating (nc_rcv x) ∧ (∃ q D, queue_at r' q D) ∧
    length (rc_tids r') = IVMnet_max_receiver_cnt) (nc_rcv x) →
  wp no_fault (on_client c m) (λ _ s', ∃ r', m (nc_rcv x) = Ok tt r' ∧ P r' ∧
    s' = ns_set_heap (<[c := nc_set_rcv r' x]> (ns_heap s)) s ∧ nsinv s') s.
Proof.
  intros Hs Hx [] Hm. apply wp_no_fault in Hm as ([] & r' & Hrun & HP & Ho & Hq & Ht).
  unfold on_client. wp_step. eapply wp_load_client; [exact Hx|]. cbv beta. rewrite Hrun. unfold store_client. wp_step.
  exists r'. split; [done|]. split; [done|]. split; [done|].
  eapply nsinv_update; [done|exact Hx| |done|done]. split; cbn; try done. by rewrite Ho.
Qed.

Lemma queue_on_client c x p s : nsinv s → ns_heap s !! c = Some x → client_ok x →
  wp no_fault (on_client c (L4VMnet_queue_pkt_to_client 0 p)) (λ _ s', ∃ r',
    L4VMnet_queue_pkt_to_client 0 p (nc_rcv x) = Ok tt r' ∧
    s' = ns_set_heap (<[c := nc_set_rcv r' x]> (ns_heap s)) s ∧ nsinv s') s.
Proof.
  intros Hs Hx Hok. eapply wp_mono; [apply (on_client_ok (λ _, True) c x); try done|naive_solver].
  destruct (co_queue _ Hok) as (q & D & Hq). eapply wp_mono; [by apply queue_pkt_ok|].
  intros _ r' (evs & (_ & E2 & _) & Ht & _ & _ & Hb). split; [done|]. split; [done|]. split.
  - destruct (_ && _); destruct Hb as [? _]; eauto.
  - rewrite Ht. apply Hok.
Qed.

(** The queue of a client after a frame was offered to it. *)
Definition offered (s s' : net_server) (c : positive) (p : packet) : Prop :=
  ∃ x r', ns_heap s !! c = Some x ∧ L4VMnet_queue_pkt_to_client 0 p (nc_rcv x) = Ok tt r' ∧
    ns_heap s' !! c = Some (nc_set_rcv r' x).
Definition same_tables (s s' : net_server) : Prop :=
  ns_table s' = ns_table s ∧ ns_list s' = ns_list s ∧ ns_events s' = ns_events s.

Lemma flood_ok clone l : ∀ s, nsinv s → NoDup l → (∀ c, c ∈ l → c ∈ ns_list s) →
  wp no_fault (flood clone l) (λ _ s', nsinv s' ∧ same_tables s s' ∧
    (∀ c, c ∈ l → match clone c with Some p => offered s s' c p | None => ns_heap s' !! c = ns_heap s !! c end) ∧
    (∀ c, c ∉ l → ns_heap s' !! c = ns_heap s !! c)) s.
Proof.
  induction l as [|c l IH]; intros s Hs Hnd Hin; cbn [flood].
  - wp_step. split; [done|]. split; [done|]. split; [set_solver|done].
  - apply list.NoDup_cons in Hnd as [Hni Hnd]. destruct (nsi_client _ Hs c) as (x & Hx & Hok & _); [set_solver|].
    wp_step. assert (∀ s1, nsinv s1 → same_tables s s1 → (∀ c', c' ≠ c → ns_heap s1 !! c' = ns_heap s !! c') →
      match clone c with Some p => offered s s1 c p | None => ns_heap s1 !! c = ns_heap s !! c end →
      wp no_fault (flood clone l) (λ _ s', nsinv s' ∧ same_tables s s' ∧
        (∀ c', c' ∈ c :: l → match clone c' with Some p => offered s s' c' p | None => ns_heap s' !! c' = ns_heap s !! c' end) ∧
        (∀ c', c' ∉ c :: l → ns_heap s' !! c' = ns_heap s !! c')) s1) as Hrest.
    { intros s1 Hs1 (T1 & T2 & T3) Hother Hc. eapply wp_mono; [apply (IH s1 Hs1 Hnd); rewrite T2; set_solver|].
      intros _ s' (Hs' & (U1 & U2 & U3) & Hl & Hnl). split; [done|]. split; [split; [congruence|split; congruence]|]. split.
      - intros c' [->|Hc']%elem_of_cons.
        + specialize (Hnl c Hni). destruct (clone c); [|congruence]. destruct Hc as (y & r & ? & ? & ?). exists y, r.
          split; [done|]. split; [done|]. congruence.
        + specialize (Hl c' Hc'). assert (c' ≠ c) as Hne by set_solver. specialize (Hother c' Hne).
          destruct (clone c'); [|congruence]. destruct Hl as (y & r & ? & ? & ?). exists y, r. split; [congruence|]. done.
      - intros c' Hc'. rewrite Hnl, Hother by set_solver. done. }
    destruct (clone c) as [p|] eqn:Hcl.
    + eapply wp_mono; [by apply queue_on_client|]. intros _ s1 (r' & Hrun & -> & Hs1). apply Hrest; try done.
      * intros c' Hne. cbn [ns_set_heap ns_heap]. by rewrite lookup_insert_ne.
      * exists x, r'. split; [done|]. split; [done|]. apply lookup_insert_eq.
    + wp_step. by apply Hrest.
Qed.

Lemma align4_eq a b : lanaddr_ok a → lanaddr_ok b → align4_lsb a = align4_lsb b → align4_msb a = align4_msb b → a = b.
Proof.
  intros Ha Hb E1 E2. rewrite <- (copy_align4 a a), <- (copy_align4 b a) by (done || apply Ha). by rewrite E1, E2.
Qed.

Lemma absorb_frame_routes_aux s linux_lan dst p clone :
  nsinv s → lanaddr_ok linux_lan → lanaddr_ok dst →
  ∃ b s', L4VMnet_absorb_frame linux_lan dst p clone s = Ok b s' ∧ nsinv s' ∧ same_tables s s' ∧
    (linux_lan = dst → b = false ∧ s' = s) ∧
    (linux_lan ≠ dst → ∀ c x, c ∈ ns_list s → ns_heap s !! c = Some x → nc_handle x = lanaddress_get_handle dst →
       b = true ∧ offered s s' c p ∧ ∀ c', c' ≠ c → ns_heap s' !! c' = ns_heap s !! c') ∧
    (linux_lan ≠ dst → (∀ c x, c ∈ ns_list s → ns_heap s !! c = Some x → nc_handle x ≠ lanaddress_get_handle dst) →
       b = false ∧ ∀ c q, c ∈ ns_list s → clone c = Some q → offered s s' c q).
Proof.
  intros Hs Hl Hd. pose proof (get_handle_range _ Hd) as Hr. apply wp_no_fault. unfold L4VMnet_absorb_frame.
  destruct (_ && _) eqn:Heq.
  { apply andb_prop in Heq as [E1%bool_decide_eq_true E2%bool_decide_eq_true].
    pose proof (align4_eq _ _ Hl Hd E1 E2). wp_step. split; [done|]. split; [done|]. split; [done|].
    split; intros Hn; by destruct Hn. }
  assert (linux_lan ≠ dst) as Hne.
  { intros ->. by rewrite !bool_decide_eq_true_2 in Heq. }
  wp_step. eapply wp_mono; [apply handle_lookup_ok; [done|lia]|]. intros o s' [-> Ho]. destruct o as [c|].
  - destruct Ho as (x & Hx & Hin & Hok & Hh). wp_step. eapply wp_mono; [by apply queue_on_client|].
    intros _ s1 (r' & Hrun & -> & Hs1). wp_step. split; [done|]. split; [done|]. split; [done|].
    split; [|intros _ Hno; by destruct (Hno c x)].
    intros _ c' x' Hin' Hx' Hh'. assert (c' = c) as ->.
    { destruct (nsi_client _ Hs _ Hin') as (y & ? & _ & T1). destruct (nsi_client _ Hs _ Hin) as (z & ? & _ & T2). simplify_eq. congruence. }
    split; [done|]. split; [exists x, r'; split; [done|]; split; [done|]; apply lookup_insert_eq|].
    intros c' Hc'. cbn [ns_set_heap ns_heap]. by rewrite lookup_insert_ne.
  - wp_step. wp_step. wp_step. eapply wp_mono; [apply (flood_ok clone _ s Hs); [apply Hs|done]|].
    intros _ s1 (Hs1 & Hst & Hoff & _). wp_step. split; [done|]. split; [done|]. split; [done|].
    split; [intros _ c x Hin Hx Hh; by destruct (Ho c x)|]. intros _ _. split; [done|]. intros c q Hin Hc. specialize (Hoff c Hin). by rewrite Hc in Hoff.
Qed.

Lemma flush_clients_ok ipc l : ∀ s, nsinv s → (∀ c, c ∈ l → c ∈ ns_list s) →
  wp no_fault (flush_clients ipc l) (λ _ s', nsinv s' ∧ same_tables s s') s.
Proof.
  induction l as [|c l IH]; intros s Hs Hin; cbn [flush_clients]; [wp_step; done|].
  destruct (nsi_client _ Hs c) as (x & Hx & Hok & _); [set_solver|].
  wp_step. eapply wp_load_client; [exact Hx|]. cbv beta. wp_step. destruct (rc_operating (nc_rcv x)) eqn:Hop.
  - destruct (co_queue _ Hok) as (q & D & Hq).
    eapply wp_mono; [apply (on_client_ok (λ _, True) c x); try done|].
    + eapply wp_mono; [apply (xmit_to_receivers_ok _ _ _ _ _ _ Hq); [lia|rewrite (co_tids _ Hok); lia]|].
      intros _ r' (k & evs & (_ & E2 & _) & Hl & Hq' & _). rewrite Hl. split; [done|]. split; [done|]. split; [eauto|apply Hok].
    + intros _ s1 (r' & _ & _ & -> & Hs1). eapply wp_mono; [apply IH; [done|]; set_solver|].
      intros _ s' [Hs' (T1 & T2 & T3)]. done.
  - wp_step. eapply wp_mono; [apply IH; [done|]; set_solver|]. done.
Qed.

(** ** The control interface *)

Inductive ctl_op : Type :=
  | CAttach (tid : Z) (lan : lanaddress_t) (space : bool) (region : option Z) (mem : option positive) (dev : option Z)
  | CReattach (tid handle : Z)
  | CDetach (tid handle : Z)
  | CStart (tid handle : Z)
  | CStop (tid handle : Z)
  | CFrame (linux_lan dst : lanaddress_t) (p : packet) (clone : positive → option packet)
  | CFlush (ipc : positive → Z → list packet → ipc_result).

(** A request as it can arrive: addresses are six bytes, handles halfwords, and
    memory that is allocated is not in use. *)
Definition ctl_valid (s : net_server) (op : ctl_op) : Prop :=
  match op with
  | CAttach _ lan _ _ mem _ => lanaddr_ok lan ∧ ∀ c, mem = Some c → ns_heap s !! c = None
  | CReattach _ h | CDetach _ h | CStart _ h | CStop _ h => 0 ≤ h < 65536
  | CFrame linux_lan dst _ _ => lanaddr_ok linux_lan ∧ lanaddr_ok dst
  | CFlush _ => True
  end.
Definition ctl_run (op : ctl_op) : MS unit :=
  match op with
  | CAttach tid lan space region mem dev => L4VMnet_attach_handler tid lan space region mem dev
  | CReattach tid h => L4VMnet_reattach_handler tid h
  | CDetach tid h => L4VMnet_detach_handler tid h
  | CStart tid h => L4VMnet_start_handler tid h
  | CStop tid h => L4VMnet_stop_handler tid h
  | CFrame linux_lan dst p clone => L4VMnet_absorb_frame linux_lan dst p clone;; mret tt
  | CFlush ipc => L4VMnet_flush_tasklet_handler ipc
  end.
Definition ctl_caller (op : ctl_op) : list Z :=
  match op with
  | CAttach tid _ _ _ _ _ | CReattach tid _ | CDetach tid _ | CStart tid _ | CStop tid _ => [tid]
  | _ => []
  end.

(** Whether the resource monitor tells the server about the caller's space. *)
Definition space_known (op : ctl_op) : bool :=
  match op with CAttach _ _ space _ _ _ => space | _ => true end.

(** Without it, attach answers without an exception and without a handle, and
    the reply stub reads the handle through NULL. *)
Lemma attach_unknown_space op s : space_known op = false → ctl_run op s = Err NullDeref.
Proof. by destruct op as [tid lan [] region mem dev| | | | | |]. Qed.

Lemma ctl_run_ok op s : nsinv s → ctl_valid s op → space_known op = true →
  wp no_fault (ctl_run op) (λ _ s', nsinv s' ∧ replies (ns_events s') = replies (ns_events s) ++ ctl_caller op) s.
Proof.
  intros Hs Hv Hsp. destruct op; cbn [ctl_run ctl_caller ctl_valid space_known] in *.
  - subst space. eapply wp_mono; [apply attach_ok; [done|apply Hv..]|]. intros _ s' [[? ?] _]. done.
  - apply reattach_ok; [done|lia].
  - apply detach_ok; [done|lia].
  - apply start_ok; [done|lia].
  - apply stop_ok; [done|lia].
  - destruct Hv as [Hl Hd]. wp_step. unfold L4VMnet_absorb_frame. rewrite app_nil_r.
    destruct (absorb_frame_routes_aux s linux_lan dst p clone Hs Hl Hd) as (b & s' & Hrun & Hs' & (_ & _ & T) & _).
    eapply wp_run; [exact Hrun|]. wp_step. by rewrite T.
  - unfold L4VMnet_flush_tasklet_handler. wp_step. wp_step.
    eapply wp_mono; [by apply flush_clients_ok|]. intros _ s' [? (_ & _ & T)]. by rewrite app_nil_r, T.
Qed.

(** The server after its module was loaded. *)
Definition server_init : net_server := mk_ns (replicate L4VMNET_MAX_CLIENTS None) ∅ [] [].
Lemma server_init_ok : nsinv server_init.
Proof.
  split; cbn [server_init ns_table ns_heap ns_list ns_events]; try done.
  - constructor.
  - intros c Hc. by apply elem_of_nil in Hc.
  - intros h c Hh. pose proof (zlookup_lt _ _ _ Hh) as Hl. rewrite length_replicate in Hl.
    rewrite zlookup_replicate in Hh by done. done.
Qed.

(** States reached by requests, with the callers that were answered. *)
Inductive ctl_reach : net_server → list Z → Prop :=
  | reach_init : ctl_reach server_init []
  | reach_op s callers op s' : ctl_reach s callers → ctl_valid s op → ctl_run op s = Ok tt s' →
      ctl_reach s' (callers ++ ctl_caller op).

Lemma ctl_reach_inv s callers : ctl_reach s callers → nsinv s ∧ replies (ns_events s) = callers.
Proof.
  induction 1 as [|s callers op s' _ [Hs Hr] Hv Hrun]; [split; [apply server_init_ok|done]|].
  destruct (space_known op) eqn:Hsp; [|by rewrite attach_unknown_space in Hrun].
  destruct (wp_ok _ _ _ _ _ _ (ctl_run_ok op s Hs Hv Hsp) Hrun) as [Hs' Hr']. split; [done|]. by rewrite Hr', Hr.
Qed.


(** Routing: a frame for the address of the Linux device is left to it; a frame
    whose address carries the handle of a client is offered to that client alone
    and absorbed; any other is offered to every client and also left to Linux.
    Nothing else in the server changes. *)
Theorem absorb_frame_routes s linux_lan dst p clone :
  nsinv s → lanaddr_ok linux_lan → lanaddr_ok dst →
  ∃ b s', L4VMnet_absorb_frame linux_lan dst p clone s = Ok b s' ∧ nsinv s' ∧ same_tables s s' ∧
    (linux_lan = dst → b = false ∧ s' = s) ∧
    (linux_lan ≠ dst → ∀ c x, c ∈ ns_list s → ns_heap s !! c = Some x → nc_handle x = lanaddress_get_handle dst →
       b = true ∧ offered s s' c p ∧ ∀ c', c' ≠ c → ns_heap s' !! c' = ns_heap s !! c') ∧
    (linux_lan ≠ dst → (∀ c x, c ∈ ns_list s → ns_heap s !! c = Some x → nc_handle x ≠ lanaddress_get_handle dst) →
       b = false ∧ ∀ c q, c ∈ ns_list s → clone c = Some q → offered s s' c q).
Proof. apply absorb_frame_routes_aux. Qed.

(** ** A sample run: two clients attach, one of them starts. *)

Definition lan0 : lanaddress_t := [2; 0; 0; 1; 0; 0].
Definition lan1 : lanaddress_t := [2; 0; 0; 1; 1; 0].
Definition safter (op : ctl_op) (s : net_server) : net_server := match ctl_run op s with Ok _ s' => s' | Err _ => s end.
Definition svalue (op : ctl_op) (s : net_server) : option unit := match ctl_run op s with Ok a _ => Some a | Err _ => None end.
Lemma svalue_after op s : svalue op s = Some tt → ctl_run op s = Ok tt (safter op s).
Proof. unfold svalue, safter. by destruct (ctl_run op s) as [[]|]. Qed.

Definition op0 : ctl_op := CAttach 11 lan0 true (Some 4096) (Some 1%positive) (Some 3).
Definition op1 : ctl_op := CAttach 12 lan1 true (Some 8192) (Some 2%positive) (Some 3).
Definition op2 : ctl_op := CStart 12 1.
Definition ss1 : net_server := safter op0 server_init.
Definition ss2 : net_server := safter op1 ss1.
Definition ss3 : net_server := safter op2 ss2.
Lemma lan0_ok : lanaddr_ok lan0.
Proof. by apply (bool_decide_unpack _). Qed.
Lemma lan1_ok : lanaddr_ok lan1.
Proof. by apply (bool_decide_unpack _). Qed.

Lemma sample_ctl_reach : ctl_reach ss3 [11; 12; 12].
Proof.
  assert (svalue op0 server_init = Some tt) as H0 by (vm_compute; reflexivity).
  assert (svalue op1 ss1 = Some tt) as H1 by (vm_compute; reflexivity).
  assert (svalue op2 ss2 = Some tt) as H2 by (vm_compute; reflexivity).
  assert (ns_heap ss1 !! 2%positive = None) as Hf by (vm_compute; reflexivity).
  apply (reach_op ss2 [11; 12] op2 ss3); [|cbn; lia|by apply svalue_after].
  apply (reach_op ss1 [11] op1 ss2); [| |by apply svalue_after].
  - apply (reach_op server_init [] op0 ss1); [constructor| |by apply svalue_after].
    split; [apply lan0_ok|]. intros c [= <-]. done.
  - split; [apply lan1_ok|]. intros c [= <-]. exact Hf.
Qed.
Lemma ss3_inv : nsinv ss3.
Proof. apply (ctl_reach_inv _ _ sample_ctl_reach). Qed.

Lemma absorb_frame_routes_witness : ∃ b s',
  L4VMnet_absorb_frame [0; 1; 2; 3; 4; 5] lan1 (mk_packet 9 60) (λ _, None) ss3 = Ok b s' ∧ nsinv s' ∧ same_tables ss3 s'.
Proof.
  destruct (absorb_frame_routes ss3 [0; 1; 2; 3; 4; 5] lan1 (mk_packet 9 60) (λ _, None) ss3_inv) as (b & s' & H1 & H2 & H3 & _).
  - by apply (bool_decide_unpack _).
  - apply lan1_ok.
  - exists b, s'. split; [exact H1|]. split; [exact H2|exact H3].
Defined.

(** A second client with a handle that is taken is refused, but the reference it
    got on the network device is not given back. *)
Definition op_dup : ctl_op := CAttach 13 lan1 true (Some 12288) (Some 5%positive) (Some 3).
Example attach_refused_keeps_device :
  omap (λ e, match e with NDevGet d => Some (d, true) | NDevPut d => Some (d, false) | _ => None end)
    (drop (length (ns_events ss3)) (ns_events (safter op_dup ss3))) = [(3, true)] ∧
  list.last (ns_events (safter op_dup ss3)) = Some (NReply 13 (Some ex_IVMnet_invalid_client) None).
Proof. split; vm_compute; reflexivity. Qed.
