(* ===== verification/NetServer.v ===== *)
(** * The network server: from a call to its answer

    Models the rest of l4ka-driver-reuse/kernel/net/server.c in the configuration
    without the DP83820 interface: the stubs of the server thread, the command
    rings of glue/vmserver.c between it and the handlers, the interrupt handler and
    the bottom half, the handlers for statistics and for the registration of a
    DP83820 ring, and the module initialisation. The handlers of NetControl.v run on
    the clients; each call is shown to be answered exactly once. *)

From stdpp Require Import base list gmap numbers.
From Stdlib Require Import ZArith Lia.
From S2P Require Import Prelude CmdRing VmMemory LanAddress Thread NetRecv NetRecvQueue NetControl.

(** ** Data *)

Inductive net_handler : Type :=
  | Hattach | Hreattach | Hdetach | Hstart | Hstop | Hupdate_stats | Hregister_dp83820_tx_ring.

(** [L4VM_server_cmd_params_t] of net/server.h *)
Inductive net_params : Type :=
  | Pattach (dev_name : Z) (lan_address : lanaddress_t)
  | Preattach (handle : Z)
  | Pdetach (handle : Z)
  | Pstart (handle : Z)
  | Pstop (handle : Z)
  | Pupdate_stats (handle : Z)
  | Pregister_dp83820_tx_ring (handle client_paddr ring_size_bytes has_extended_status : Z).

Abbreviation net_cmd := (L4VM_server_cmd_t net_handler net_params).
Abbreviation net_cmd_ring := (L4VM_server_cmd_ring_t net_handler net_params).

Definition L4VMNET_IRQ_BOTTOM_HALF_CMD : Z := 1.
Definition L4VMNET_IRQ_TOP_HALF_CMD : Z := 2.
Definition L4VMNET_IRQ_DISPATCH : Z := 4.

(** The member [dp83820_tx] of a client. *)
Record dp83820_tx : Type := mk_dptx { dt_first : Z; dt_ring_start : Z; dt_vmarea : L4VM_alligned_vmarea_t }.

Inductive nv_event : Type :=
  | NvL4 (e : l4_event)
  | NvVm (e : vm_event)
  | NvPage (e : page_event)
  | NvThread (e : thread_event)
  | NvRequestPages (tid fp : Z)     (** [IResourcemon_request_client_pages] *)
  | NvTransmit                      (** [L4VMnet_transmit_client_pkts] *)
  | NvScheduleBottomHalf            (** [schedule_task] *)
  | NvAddVirq (irq : Z)
  | NvRequestIrq (irq : Z)
  | NvFreeIrq (irq : Z)
  | NvRegister (tid : Z).           (** [L4VM_server_register_location] *)

(** [L4VMnet_server_t]: the clients, the command rings, the server's own
    interrupt words [nv_irq] and mask, those of the status page [nv_status] and
    the statistics on it, the threads and the interrupt, the status page, and
    whether [br_handle_frame_hook] is set. *)
Record nserver : Type := mk_nsv {
  nv_ctl : net_server;
  nv_dp : gmap positive dp83820_tx;
  nv_top : net_cmd_ring;
  nv_bottom : net_cmd_ring;
  nv_irq : irq_words;
  nv_mask : Z;
  nv_status : irq_words;
  nv_stats : list Z;
  nv_tid : Z;
  nv_irq_tid : Z;
  nv_main_tid : Z;
  nv_irq_no : Z;
  nv_region : option L4VM_alligned_alloc_t;
  nv_hook : bool;
  nv_trace : list nv_event
}.
Definition nv_set_ctl (x : net_server) (v : nserver) : nserver :=
  mk_nsv x (nv_dp v) (nv_top v) (nv_bottom v) (nv_irq v) (nv_mask v) (nv_status v) (nv_stats v) (nv_tid v)
    (nv_irq_tid v) (nv_main_tid v) (nv_irq_no v) (nv_region v) (nv_hook v) (nv_trace v).
Definition nv_set_dp (x : gmap positive dp83820_tx) (v : nserver) : nserver :=
  mk_nsv (nv_ctl v) x (nv_top v) (nv_bottom v) (nv_irq v) (nv_mask v) (nv_status v) (nv_stats v)
    (nv_tid v) (nv_irq_tid v) (nv_main_tid v) (nv_irq_no v) (nv_region v) (nv_hook v) (nv_trace v).
Definition nv_set_top (x : net_cmd_ring) (v : nserver) : nserver :=
  mk_nsv (nv_ctl v) (nv_dp v) x (nv_bottom v) (nv_irq v) (nv_mask v) (nv_status v) (nv_stats v) (nv_tid v)
    (nv_irq_tid v) (nv_main_tid v) (nv_irq_no v) (nv_region v) (nv_hook v) (nv_trace v).
Definition nv_set_bottom (x : net_cmd_ring) (v : nserver) : nserver :=
  mk_nsv (nv_ctl v) (nv_dp v) (nv_top v) x (nv_irq v) (nv_mask v) (nv_status v) (nv_stats v) (nv_tid v)
    (nv_irq_tid v) (nv_main_tid v) (nv_irq_no v) (nv_region v) (nv_hook v) (nv_trace v).
Definition nv_set_irq (x : irq_words) (v : nserver) : nserver :=
  mk_nsv (nv_ctl v) (nv_dp v) (nv_top v) (nv_bottom v) x (nv_mask v) (nv_status v) (nv_stats v) (nv_tid v)
    (nv_irq_tid v) (nv_main_tid v) (nv_irq_no v) (nv_region v) (nv_hook v) (nv_trace v).
Definition nv_set_mask (x : Z) (v : nserver) : nserver :=
  mk_nsv (nv_ctl v) (nv_dp v) (nv_top v) (nv_bottom v) (nv_irq v) x (nv_status v) (nv_stats v) (nv_tid v)
    (nv_irq_tid v) (nv_main_tid v) (nv_irq_no v) (nv_region v) (nv_hook v) (nv_trace v).
Definition nv_set_status (x : irq_words) (v : nserver) : nserver :=
  mk_nsv (nv_ctl v) (nv_dp v) (nv_top v) (nv_bottom v) (nv_irq v) (nv_mask v) x (nv_stats v) (nv_tid v)
    (nv_irq_tid v) (nv_main_tid v) (nv_irq_no v) (nv_region v) (nv_hook v) (nv_trace v).
Definition nv_set_stats (x : list Z) (v : nserver) : nserver :=
  mk_nsv (nv_ctl v) (nv_dp v) (nv_top v) (nv_bottom v) (nv_irq v) (nv_mask v) (nv_status v) x (nv_tid v)
    (nv_irq_tid v) (nv_main_tid v) (nv_irq_no v) (nv_region v) (nv_hook v) (nv_trace v).
Definition nv_set_tid (x : Z) (v : nserver) : nserver :=
  mk_nsv (nv_ctl v) (nv_dp v) (nv_top v) (nv_bottom v) (nv_irq v) (nv_mask v) (nv_status v) (nv_stats v) x
    (nv_irq_tid v) (nv_main_tid v) (nv_irq_no v) (nv_region v) (nv_hook v) (nv_trace v).
Definition nv_set_irq_tid (x : Z) (v : nserver) : nserver :=
  mk_nsv (nv_ctl v) (nv_dp v) (nv_top v) (nv_bottom v) (nv_irq v) (nv_mask v) (nv_status v) (nv_stats v)
    (nv_tid v) x (nv_main_tid v) (nv_irq_no v) (nv_region v) (nv_hook v) (nv_trace v).
Definition nv_set_main_tid (x : Z) (v : nserver) : nserver :=
  mk_nsv (nv_ctl v) (nv_dp v) (nv_top v) (nv_bottom v) (nv_irq v) (nv_mask v) (nv_status v) (nv_stats v)
    (nv_tid v) (nv_irq_tid v) x (nv_irq_no v) (nv_region v) (nv_hook v) (nv_trace v).
Definition nv_set_irq_no (x : Z) (v : nserver) : nserver :=
  mk_nsv (nv_ctl v) (nv_dp v) (nv_top v) (nv_bottom v) (nv_irq v) (nv_mask v) (nv_status v) (nv_stats v)
    (nv_tid v) (nv_irq_tid v) (nv_main_tid v) x (nv_region v) (nv_hook v) (nv_trace v).
Definition nv_set_region (x : option L4VM_alligned_alloc_t) (v : nserver) : nserver :=
  mk_nsv (nv_ctl v) (nv_dp v) (nv_top v) (nv_bottom v) (nv_irq v) (nv_mask v) (nv_status v) (nv_stats v)
    (nv_tid v) (nv_irq_tid v) (nv_main_tid v) (nv_irq_no v) x (nv_hook v) (nv_trace v).
Definition nv_set_hook (x : bool) (v : nserver) : nserver :=
  mk_nsv (nv_ctl v) (nv_dp v) (nv_top v) (nv_bottom v) (nv_irq v) (nv_mask v) (nv_status v) (nv_stats v)
    (nv_tid v) (nv_irq_tid v) (nv_main_tid v) (nv_irq_no v) (nv_region v) x (nv_trace v).
Definition nv_set_trace (x : list nv_event) (v : nserver) : nserver :=
  mk_nsv (nv_ctl v) (nv_dp v) (nv_top v) (nv_bottom v) (nv_irq v) (nv_mask v) (nv_status v) (nv_stats v)
    (nv_tid v) (nv_irq_tid v) (nv_main_tid v) (nv_irq_no v) (nv_region v) (nv_hook v) x.

Abbreviation MV := (M nserver).
Definition vemit (e : nv_event) : MV unit := mmodify (λ v, nv_set_trace (nv_trace v ++ [e]) v).
Definition vlog {A} (f : A → nv_event) (es : list A) (v : nserver) : nserver := nv_set_trace (nv_trace v ++ (f <$> es)) v.

(** An operation on the clients. *)
Definition on_ctl {A} (m : M net_server A) : MV A := λ v,
  match m (nv_ctl v) with Ok a s => Ok a (nv_set_ctl s v) | Err f => Err f end.

(** What the handlers get from the rest of the system: the answers of
    [L4VM_get_client_space_info], [L4VM_fpage_alloc], [kmalloc] and
    [dev_get_by_name] to an attach request, the statistics of "eth0" if there is
    such a device, [ioremap], and the resource monitor's answer to a request for
    pages of a client. *)
Class NetSrvEnv : Type := {
  at_space : Z → net_server → bool;
  at_region : net_server → option Z;
  at_mem : net_server → option positive;
  at_mem_fresh : ∀ s c, at_mem s = Some c → ns_heap s !! c = None;
  at_dev : Z → net_server → option Z;
  eth0_stats : net_server → option (Z * list Z);
  srv_ioremap : list vm_event → Z → Z;
  request_pages : Z → Z → corba_major;
  fpage_size_log2 : Z → Z → Z
}.

Section handlers.
Context {E : NetSrvEnv}.

(** ** Handlers *)

Definition L4VMnet_update_stats_handler (tid handle : Z) : MV unit :=
  o ← on_ctl (L4VMnet_client_handle_lookup handle);
  match o with
  | None => on_ctl (nemit (NReply tid (Some ex_IVMnet_invalid_handle) None))
  | Some _ =>
      s ← mgets nv_ctl;
      match eth0_stats s with
      | None => mfault NullDeref
      | Some (dev, st) =>
          on_ctl (nemit (NDevGet dev));;
          mmodify (nv_set_stats st);;
          on_ctl (nemit (NDevPut dev));;
          on_ctl (nemit (NReply tid None None))
      end
  end.

Definition L4VMnet_register_dp83820_tx_ring_handler (tid handle client_paddr client_size ext : Z) : MV unit :=
  o ← on_ctl (L4VMnet_client_handle_lookup handle);
  match o with
  | None => on_ctl (nemit (NReply tid (Some ex_IVMnet_invalid_handle) None))
  | Some c =>
      if bool_decide (ext = 0) then on_ctl (nemit (NReply tid (Some ex_IVMnet_no_memory) None)) else
      let '(res, evs) := L4VM_fpage_vmarea_get srv_ioremap (fpage_size_log2 client_paddr client_size) in
      mmodify (vlog NvVm evs);;
      match res with
      | (_, None) => on_ctl (nemit (NReply tid (Some ex_IVMnet_no_memory) None))
      | (_, Some area) =>
          mmodify (λ v, nv_set_dp (<[c := mk_dptx (default 0 (dt_first <$> nv_dp v !! c))
            (default 0 (dt_ring_start <$> nv_dp v !! c)) area]> (nv_dp v)) v);;
          vemit (NvRequestPages tid client_paddr);;
          match request_pages tid client_paddr with
          | CORBA_NO_EXCEPTION =>
              let base := L4_Address (vm_fpage area) in
              let start := base + Z.land (L4_Size (vm_fpage area) - 1) client_paddr in
              mmodify (λ v, nv_set_dp (<[c := mk_dptx client_paddr start area]> (nv_dp v)) v);;
              on_ctl (nemit (NReply tid None None))
          | _ => on_ctl (nemit (NReply tid (Some ex_IVMnet_no_memory) None))
          end
      end
  end.

(** The indirect call of a handler with its command, with the assertions every
    handler starts with. *)
Definition run_net_handler (h : net_handler) (cmd : net_cmd) : MV unit :=
  let tid := reply_to_tid cmd in
  v ← mget;
  massert (bool_decide (tid ≠ 0));;
  massert (bool_decide (nv_tid v ≠ L4_nilthread));;
  let s := nv_ctl v in
  match h, cmd_data cmd with
  | Hattach, Some (Pattach name lan) =>
      on_ctl (L4VMnet_attach_handler tid lan (at_space tid s) (at_region s) (at_mem s) (at_dev name s))
  | Hreattach, Some (Preattach h) => on_ctl (L4VMnet_reattach_handler tid h)
  | Hdetach, Some (Pdetach h) => on_ctl (L4VMnet_detach_handler tid h)
  | Hstart, Some (Pstart h) => on_ctl (L4VMnet_start_handler tid h)
  | Hstop, Some (Pstop h) => on_ctl (L4VMnet_stop_handler tid h)
  | Hupdate_stats, Some (Pupdate_stats h) => L4VMnet_update_stats_handler tid h
  | Hregister_dp83820_tx_ring, Some (Pregister_dp83820_tx_ring h pa sz ext) =>
      L4VMnet_register_dp83820_tx_ring_handler tid h pa sz ext
  | _, _ => mfault NullDeref
  end.

Definition run_net_cmd (h : net_handler) (cmd : net_cmd) (r : res nserver unit) : res nserver unit :=
  match r with Ok _ v => run_net_handler h cmd v | Err f => Err f end.

(** [L4VM_server_cmd_dispatcher] on a ring of the server. *)
Definition dispatch_ring (ring : nserver → net_cmd_ring) (set_ring : net_cmd_ring → nserver → nserver) : MV unit := λ v,
  match L4VM_server_cmd_dispatcher run_net_cmd (nv_tid v) (S L4VM_SERVER_CMD_RING_LEN) (ring v) (Ok tt v) with
  | None => Err Diverged
  | Some (_, Err f, _) => Err f
  | Some (r, Ok _ v', evs) => Ok tt (vlog NvL4 evs (set_ring r v'))
  end.

Definition L4VMnet_bottom_half_handler : MV unit := dispatch_ring nv_bottom nv_set_bottom.

(** ** The interrupt handler *)

Fixpoint net_irq_handler (fuel : nat) : MV unit :=
  match fuel with
  | O => mfault Diverged
  | S fuel =>
      v ← mget;
      let '(events, w) := irq_status_reset (nv_irq v) in
      let '(client_events, i) := irq_status_reset (nv_status v) in
      mmodify (λ v, nv_set_status i (nv_set_irq w v));;
      if bool_decide (events = 0) && bool_decide (client_events = 0) then mret tt else
      mmodify (λ v, nv_set_status (mk_irq (irq_status (nv_status v)) true)
        (nv_set_irq (mk_irq (irq_status (nv_irq v)) true) v));;
      (if bool_decide (Z.land events L4VMNET_IRQ_DISPATCH ≠ 0) || bool_decide (client_events ≠ 0)
       then vemit NvTransmit else mret tt);;
      (if bool_decide (Z.land events L4VMNET_IRQ_TOP_HALF_CMD ≠ 0)
       then dispatch_ring nv_top nv_set_top else mret tt);;
      (if bool_decide (Z.land events L4VMNET_IRQ_BOTTOM_HALF_CMD ≠ 0)
       then vemit NvScheduleBottomHalf else mret tt);;
      mmodify (λ v, nv_set_status (mk_irq (irq_status (nv_status v)) false)
        (nv_set_irq (mk_irq (irq_status (nv_irq v)) false) v));;
      net_irq_handler fuel
  end.

(** [L4VMnet_deliver_irq] *)
Definition L4VMnet_deliver_irq (ipc_failed : bool) (irq_flags : Z) : MV unit :=
  v ← mget;
  let '(w, evs) := L4VM_server_deliver_irq ipc_failed (nv_irq_tid v) (nv_irq_no v) irq_flags (nv_mask v) (nv_irq v) in
  mmodify (λ v, vlog NvL4 evs (nv_set_irq w v)).

(** ** The stubs of the server thread *)

Section stubs.
(** How the rest of the driver VM changes the server while the server thread
    waits for a free command. *)
Variable ipc : l4_event → net_cmd_ring → irq_words → nserver → bool * (net_cmd_ring * irq_words * nserver).
Variable ipc_failed : bool.
Variable fuel : nat.

Definition cmd_allocate (ring : nserver → net_cmd_ring) (set_ring : net_cmd_ring → nserver → nserver)
    (flags : Z) : MV Z := λ v,
  match L4VM_server_cmd_allocate ipc (nv_irq_tid v) (nv_irq_no v) flags (nv_mask v) fuel (ring v) (nv_irq v) v with
  | None => Err Diverged
  | Some (idx, r, w, v', evs) => Ok idx (vlog NvL4 evs (set_ring r (nv_set_irq w v')))
  end.
Definition L4VMnet_cmd_allocate_bottom : MV Z := cmd_allocate nv_bottom nv_set_bottom L4VMNET_IRQ_BOTTOM_HALF_CMD.
Definition L4VMnet_cmd_allocate_top : MV Z := cmd_allocate nv_top nv_set_top L4VMNET_IRQ_TOP_HALF_CMD.

(** A call for the bottom half, and one for the interrupt handler. *)
Definition bottom_stub (caller : Z) (params : net_params) (h : net_handler) : MV unit :=
  i ← L4VMnet_cmd_allocate_bottom;
  mmodify (λ v, nv_set_bottom (cmd_fill i caller params (nv_bottom v)) v);;
  mmodify (λ v, nv_set_bottom (cmd_publish i h (nv_bottom v)) v);;
  L4VMnet_deliver_irq ipc_failed L4VMNET_IRQ_BOTTOM_HALF_CMD.
Definition top_stub (caller : Z) (params : net_params) (h : net_handler) : MV unit :=
  i ← L4VMnet_cmd_allocate_top;
  mmodify (λ v, nv_set_top (cmd_fill i caller params (nv_top v)) v);;
  mmodify (λ v, nv_set_top (cmd_publish i h (nv_top v)) v);;
  L4VMnet_deliver_irq ipc_failed L4VMNET_IRQ_TOP_HALF_CMD.

Definition IVMnet_Control_attach_implementation (caller dev_name : Z) (lan : lanaddress_t) : MV unit :=
  bottom_stub caller (Pattach dev_name lan) Hattach.
Definition IVMnet_Control_reattach_implementation (caller handle : Z) : MV unit :=
  bottom_stub caller (Preattach handle) Hreattach.
Definition IVMnet_Control_detach_implementation (caller handle : Z) : MV unit :=
  bottom_stub caller (Pdetach handle) Hdetach.
Definition IVMnet_Control_start_implementation (caller handle : Z) : MV unit :=
  top_stub caller (Pstart handle) Hstart.
Definition IVMnet_Control_stop_implementation (caller handle : Z) : MV unit :=
  top_stub caller (Pstop handle) Hstop.
Definition IVMnet_Control_update_stats_implementation (caller handle : Z) : MV unit :=
  top_stub caller (Pupdate_stats handle) Hupdate_stats.
Definition IVMnet_Control_run_dispatcher_implementation : MV unit :=
  L4VMnet_deliver_irq ipc_failed L4VMNET_IRQ_DISPATCH.
Definition IVMnet_Control_register_dp83820_tx_ring_implementation (caller handle paddr size ext : Z) : MV unit :=
  bottom_stub caller (Pregister_dp83820_tx_ring handle paddr size ext) Hregister_dp83820_tx_ring.
End stubs.

(** ** Inbound frames *)

(** [L4VMnet_bridge_handler] of Linux 2.6.9 and later: whether the frame was
    taken. The header is uncovered for the address, and covered again for a frame
    that goes on to Linux; the result is the frame's data offset with it. *)
Definition ETH_HLEN : Z := 14.
Definition L4VMnet_bridge_handler (linux_lan dst : lanaddress_t) (p : packet) (clone : positive → option packet)
    (offset : Z) : MV (bool * Z) :=
  let offset := offset - ETH_HLEN in
  b ← on_ctl (L4VMnet_absorb_frame linux_lan dst p clone);
  if (b : bool) then mret (true, offset) else mret (false, offset + ETH_HLEN).

(** ** The module *)

(** [L4VMnet_server_alloc]: the page allocator, the size of the status page,
    [request_irq] and the creation of the server thread are inputs. *)
Definition L4VMnet_server_alloc (irq_gtid main_gtid : Z) (get_free_pages : list page_event → Z → Z) (log2size : Z)
    (request_irq thread_pages : Z) (wedge_create : Z → Z) : MV Z :=
  mmodify (nv_set_tid L4_nilthread);;
  mmodify (λ v, nv_set_main_tid main_gtid (nv_set_irq_tid irq_gtid (nv_set_mask (2 ^ 32 - 1) (nv_set_irq (mk_irq 0 false) v))));;
  let '(res, evs) := L4VM_fpage_alloc get_free_pages log2size in
  mmodify (vlog NvPage evs);;
  match res with
  | (_, None) => mret (- CmdRing.ENODEV)
  | (_, Some info) =>
      mmodify (nv_set_region (Some info));;
      mmodify (nv_set_status (mk_irq 0 false));;
      mmodify (λ v, nv_set_main_tid main_gtid (nv_set_irq_tid irq_gtid (nv_set_mask (2 ^ 32 - 1) (nv_set_irq (mk_irq 0 false) v))));;
      v ← mget;
      (if bool_decide (nv_irq_no v = 0) then mmodify (nv_set_irq_no 9) else mret tt);;
      irq ← mgets nv_irq_no;
      vemit (NvAddVirq irq);;
      if bool_decide (request_irq < 0) then
        vemit (NvPage (L4VM_fpage_dealloc info));; mret (- CmdRing.ENODEV)
      else
        vemit (NvRequestIrq irq);;
        match L4VM_thread_create true 0 thread_pages wedge_create [] with
        | Err f => mfault f
        | Ok tid evs =>
            mmodify (vlog NvThread evs);;
            mmodify (nv_set_tid tid);;
            if bool_decide (tid = L4_nilthread) then
              vemit (NvFreeIrq irq);; vemit (NvPage (L4VM_fpage_dealloc info));; mret (- CmdRing.ENODEV)
            else mret 0
        end
  end.

(** [L4VMnet_server_init_module]; [hook_taken] tells whether the bridging module
    is loaded. *)
Definition L4VMnet_server_init_module (hook_taken : bool) (irq_gtid main_gtid : Z)
    (get_free_pages : list page_event → Z → Z) (log2size request_irq thread_pages : Z) (wedge_create : Z → Z) : MV Z :=
  if hook_taken then mret (- CmdRing.ENODEV) else
  mmodify (nv_set_hook true);;
  on_ctl (mmodify (ns_set_table (replicate L4VMNET_MAX_CLIENTS None)));;
  result ← L4VMnet_server_alloc irq_gtid main_gtid get_free_pages log2size request_irq thread_pages wedge_create;
  if bool_decide (result ≠ 0) then mret result else
  tid ← mgets nv_tid;
  vemit (NvRegister tid);;
  mret 0.

(** [L4VMnet_server_exit_module] *)
Definition L4VMnet_server_exit_module : MV unit :=
  v ← mget;
  (if bool_decide (nv_tid v = L4_nilthread) then mret tt else
   match L4VM_thread_delete (nv_tid v) [] with Ok _ evs => mmodify (vlog NvThread evs) | Err f => mfault f end);;
  vemit (NvFreeIrq (nv_irq_no v));;
  info ← mof_option DanglingDeref (nv_region v);
  vemit (NvPage (L4VM_fpage_dealloc info));;
  mmodify (nv_set_hook false).
End handlers.

(** ** Calls *)

(** A command as the stubs leave it. *)
Definition params_ok (h : net_handler) (p : net_params) : Prop :=
  match h, p with
  | Hattach, Pattach _ lan => lanaddr_ok lan
  | Hreattach, Preattach x | Hdetach, Pdetach x | Hstart, Pstart x | Hstop, Pstop x
  | Hupdate_stats, Pupdate_stats x | Hregister_dp83820_tx_ring, Pregister_dp83820_tx_ring x _ _ _ => 0 ≤ x < 65536
  | _, _ => False
  end.
Definition cmd_valid (c : net_cmd) : Prop :=
  reply_to_tid c ≠ 0 ∧ ∃ h p, handler c = Some h ∧ cmd_data c = Some p ∧ params_ok h p.

(** The server is consistent and has its thread. *)
Definition srv_inv (v : nserver) : Prop := nsinv (nv_ctl v) ∧ nv_tid v ≠ L4_nilthread.
(** The callers that were answered. *)
Definition answers (v : nserver) : list Z := replies (ns_events (nv_ctl v)).
(** The work handed on. *)
Definition is_mark (e : nv_event) : Prop := match e with NvTransmit | NvScheduleBottomHalf => True | _ => False end.
#[global] Instance is_mark_dec e : Decision (is_mark e).
Proof. destruct e; (left; exact I) || (right; intros []). Defined.
Definition marks (v : nserver) : list nv_event := stdpp.base.filter is_mark (nv_trace v).

(** What a handler leaves alone. *)
Definition same_plumbing (v v' : nserver) : Prop :=
  nv_top v' = nv_top v ∧ nv_bottom v' = nv_bottom v ∧ nv_irq v' = nv_irq v ∧ nv_mask v' = nv_mask v ∧
  nv_status v' = nv_status v ∧ nv_tid v' = nv_tid v ∧ nv_irq_tid v' = nv_irq_tid v ∧ nv_irq_no v' = nv_irq_no v ∧
  marks v' = marks v.
#[global] Instance same_plumbing_preorder : PreOrder same_plumbing.
Proof.
  split; [done|]. intros v1 v2 v3 (? & ? & ? & ? & ? & ? & ? & ? & ?) (? & ? & ? & ? & ? & ? & ? & ? & ?).
  split_and!; congruence.
Qed.

Lemma marks_log {A} (f : A → nv_event) es v : (∀ a, ¬ is_mark (f a)) → marks (vlog f es v) = marks v.
Proof.
  intros Hf. unfold marks, vlog. cbn. rewrite list.filter_app.
  assert (stdpp.base.filter is_mark (f <$> es) = []) as ->; [|by rewrite app_nil_r].
  induction es as [|a es IH]; [done|]. rewrite fmap_cons, filter_cons_False by done. exact IH.
Qed.

Section served.
Context {E : NetSrvEnv}.
Hypothesis Heth0 : ∀ s, is_Some (eth0_stats s).
Hypothesis Hspace : ∀ tid s, at_space tid s = true.

(** The postcondition of a handler. *)
Definition answers_once (tid : Z) (v v' : nserver) : Prop :=
  srv_inv v' ∧ answers v' = answers v ++ [tid] ∧ same_plumbing v v'.

Lemma wp_on_ctl {A} (m : M net_server A) F Q v :
  wp F m (λ a s, Q a (nv_set_ctl s v)) (nv_ctl v) → wp F (on_ctl m) Q v.
Proof. unfold wp, on_ctl. by destruct (m (nv_ctl v)). Qed.

Lemma on_ctl_once op tid v :
  srv_inv v → ctl_valid (nv_ctl v) op → ctl_caller op = [tid] → space_known op = true →
  wp no_fault (on_ctl (ctl_run op)) (λ _ v', answers_once tid v v') v.
Proof.
  intros [Hs Ht] Hv Hc Hsp. apply wp_on_ctl. eapply wp_mono; [by apply ctl_run_ok|]. intros _ s' [Hs' Hr].
  rewrite Hc in Hr. by split_and!.
Qed.

(** A reply from a state that differs in the parts a handler may change. *)
Lemma reply_once tid ex h v v1 Q :
  srv_inv v1 → answers v1 = answers v → same_plumbing v v1 →
  (∀ v', answers_once tid v v' → Q tt v') →
  wp no_fault (on_ctl (nemit (NReply tid ex h))) Q v1.
Proof.
  intros [Hs Ht] Ha Hp HQ. apply wp_on_ctl. unfold nemit. apply wp_mmodify, HQ. split; [|split].
  - split; [by apply nsinv_emit|exact Ht].
  - unfold answers in *. cbn. by rewrite net_replies_snoc, Ha.
  - etrans; [exact Hp|]. by split_and!.
Qed.

Lemma wp_lookup handle Q v :
  srv_inv v → 0 ≤ handle → (∀ o, Q o v) → wp no_fault (on_ctl (L4VMnet_client_handle_lookup handle)) Q v.
Proof.
  intros [Hs Ht] Hh HQ. apply wp_on_ctl. eapply wp_mono; [by apply handle_lookup_ok|]. intros o s' [-> _].
  replace (nv_set_ctl (nv_ctl v) v) with v by (by destruct v). apply HQ.
Qed.

Lemma wp_quiet e Q v :
  quiet e → replies [e] = [] → srv_inv v →
  (∀ v', srv_inv v' → answers v' = answers v → same_plumbing v v' → Q tt v') →
  wp no_fault (on_ctl (nemit e)) Q v.
Proof.
  intros He Hr [Hs Ht] HQ. apply wp_on_ctl. unfold nemit. apply wp_mmodify, HQ.
  - split; [by apply nsinv_emit|exact Ht].
  - unfold answers. cbn. by rewrite net_replies_snoc, Hr, app_nil_r.
  - by split_and!.
Qed.

Lemma update_stats_ok tid handle v :
  srv_inv v → 0 ≤ handle → wp no_fault (L4VMnet_update_stats_handler tid handle) (λ _ v', answers_once tid v v') v.
Proof.
  intros Hv Hh. unfold L4VMnet_update_stats_handler. apply wp_bind, wp_lookup; [done..|]. intros [c|].
  - apply wp_bind, wp_mgets. destruct (Heth0 (nv_ctl v)) as [[dev st] ->].
    apply wp_bind, wp_quiet; [done..|]. intros v1 Hv1 Ha1 Hp1. apply wp_bind, wp_mmodify, wp_bind.
    apply wp_quiet; [done|done|exact Hv1|]. intros v2 Hv2 Ha2 Hp2.
    apply (reply_once tid None None v v2); [done|by rewrite Ha2|etrans; [exact Hp1|exact Hp2]|done].
  - by apply (reply_once tid _ _ v v).
Qed.

Lemma register_dp83820_ok tid handle pa sz ext v :
  srv_inv v → 0 ≤ handle →
  wp no_fault (L4VMnet_register_dp83820_tx_ring_handler tid handle pa sz ext) (λ _ v', answers_once tid v v') v.
Proof.
  intros Hv Hh. unfold L4VMnet_register_dp83820_tx_ring_handler. apply wp_bind, wp_lookup; [done..|].
  intros [c|]; [|by apply (reply_once tid _ _ v v)].
  case_bool_decide; [by apply (reply_once tid _ _ v v)|].
  destruct (L4VM_fpage_vmarea_get _ _) as [[err [area|]] evs].
  - apply wp_bind, wp_mmodify, wp_bind, wp_mmodify, wp_bind. unfold vemit. apply wp_mmodify.
    assert (∀ d tr, marks (nv_set_trace (nv_trace (nv_set_dp d (vlog NvVm evs v)) ++ [NvRequestPages tid tr])
      (nv_set_dp d (vlog NvVm evs v))) = marks v) as Hm.
    { intros d tr. trans (marks (vlog (λ x, NvRequestPages tid x) [tr] (vlog NvVm evs v))); [done|].
      rewrite !marks_log; done || (intros; intros []). }
    case_match; [apply wp_bind, wp_mmodify|..]; apply (reply_once tid _ _ v); try done;
      split_and!; try done; apply Hm.
  - apply wp_bind, wp_mmodify. apply (reply_once tid _ _ v); try done. split_and!; try done.
    apply marks_log. intros ? [].
Qed.

Lemma run_net_handler_ok h c v :
  srv_inv v → cmd_valid c → handler c = Some h →
  wp no_fault (run_net_handler h c) (λ _ v', answers_once (reply_to_tid c) v v') v.
Proof.
  intros Hv (Ht & h' & p & Hh' & Hp & Hok) Hh. assert (h' = h) as -> by congruence.
  unfold run_net_handler. apply wp_bind, wp_mget, wp_bind, wp_massert; [by rewrite bool_decide_eq_true_2|].
  intros _. apply wp_bind, wp_massert; [rewrite bool_decide_eq_true_2; [done|apply Hv]|]. intros _. rewrite Hp.
  destruct h, p; cbn [params_ok] in Hok; try done.
  - apply (on_ctl_once (CAttach _ _ _ _ _ _)); [done| |done|apply Hspace]. split; [done|]. intros c' ?. by apply at_mem_fresh.
  - by apply (on_ctl_once (CReattach _ _)).
  - by apply (on_ctl_once (CDetach _ _)).
  - by apply (on_ctl_once (CStart _ _)).
  - by apply (on_ctl_once (CStop _ _)).
  - apply update_stats_ok; [done|lia].
  - apply register_dp83820_ok; [done|lia].
Qed.

(** A queue of commands, run in order. *)
Lemma run_queue_ok q v :
  Forall cmd_valid q → srv_inv v →
  ∃ v', foldl (run_cmd run_net_cmd) (Ok tt v) q = Ok tt v' ∧ srv_inv v' ∧
    answers v' = answers v ++ (reply_to_tid <$> q) ∧ same_plumbing v v'.
Proof.
  intros Hq. revert v. induction Hq as [|c q Hc Hq IH]; intros v Hv.
  { exists v. by rewrite app_nil_r. }
  pose proof Hc as (_ & h & _ & Hh & _). cbn [foldl]. unfold run_cmd at 2. rewrite Hh. cbn [run_net_cmd].
  destruct (wp_no_fault _ _ _ (run_net_handler_ok h c v Hv Hc Hh)) as ([] & v1 & -> & Hv1 & Ha1 & Hp1).
  destruct (IH v1 Hv1) as (v2 & Hf & Hv2 & Ha2 & Hp2). exists v2. split_and!; [done..| |].
  - by rewrite Ha2, Ha1, <- app_assoc.
  - by etrans.
Qed.

Lemma dispatch_ring_ok ring set_ring q v :
  srv_inv v → ring_queue false q (ring v) → Forall cmd_valid q →
  ∃ r v' evs, dispatch_ring ring set_ring v = Ok tt (vlog NvL4 evs (set_ring r v')) ∧ ring_queue false [] r ∧
    srv_inv v' ∧ answers v' = answers v ++ (reply_to_tid <$> q) ∧ same_plumbing v v'.
Proof.
  intros Hv [p Hp] Hq. pose proof (rr_cap _ _ _ _ Hp) as Hcap. simpl in Hcap.
  destruct (dispatch_loop_queue run_net_cmd p q (ring v) (Ok tt v) (S L4VM_SERVER_CMD_RING_LEN) Hp)
    as (r' & Heq & Hr' & Hw); [unfold L4VM_SERVER_CMD_RING_LEN in *; lia|].
  destruct (run_queue_ok q v Hq Hv) as (v' & Hf & Hv' & Ha & Hpl).
  unfold dispatch_ring, L4VM_server_cmd_dispatcher. rewrite Heq, Hf. cbn [mbind option_bind].
  destruct (wake_server r'); eexists _, v', _; (split_and!; [reflexivity| |done..]).
  - eexists. by apply ring_repr_wake.
  - by eexists.
Qed.

Lemma bottom_half_ok q v :
  srv_inv v → ring_queue false q (nv_bottom v) → Forall cmd_valid q →
  ∃ v', L4VMnet_bottom_half_handler v = Ok tt v' ∧ srv_inv v' ∧ answers v' = answers v ++ (reply_to_tid <$> q) ∧
    ring_queue false [] (nv_bottom v') ∧ nv_top v' = nv_top v ∧ nv_irq v' = nv_irq v ∧ nv_mask v' = nv_mask v ∧
    nv_status v' = nv_status v.
Proof.
  intros Hv Hr Hq. destruct (dispatch_ring_ok nv_bottom nv_set_bottom q v Hv Hr Hq)
    as (r & v' & evs & He & Hr' & Hv' & Ha & (? & ? & ? & ? & ? & ? & ? & ? & ?)).
  eexists. split; [exact He|]. by split_and!.
Qed.

(** ** The interrupt handler *)

Definition no_events (v : nserver) : Prop := irq_status (nv_irq v) = 0 ∧ irq_status (nv_status v) = 0.

Lemma irq_handler_stops fuel v : no_events v → net_irq_handler (S fuel) v = Ok tt v.
Proof.
  intros [H1 H2]. cbn [net_irq_handler]. erewrite bind_ok by done. cbv beta. cbn [irq_status_reset].
  rewrite H1, H2. erewrite bind_ok by done. cbv beta. rewrite bool_decide_eq_true_2 by done. cbn [andb].
  destruct v as [? ? ? ? [] ? []]. cbn in *. by subst.
Qed.

(** The state between the two rounds of a run that finds an event. *)
Record irq_done (v : nserver) (qt : list net_cmd) (v' : nserver) : Prop := {
  id_inv : srv_inv v';
  id_events : no_events v';
  id_pending : irq_pending (nv_irq v') = false ∧ irq_pending (nv_status v') = false;
  id_mask : nv_mask v' = nv_mask v;
  id_answers : answers v' = answers v ++
    (if decide (Z.land (irq_status (nv_irq v)) L4VMNET_IRQ_TOP_HALF_CMD ≠ 0) then reply_to_tid <$> qt else []);
  id_top : ring_queue false
    (if decide (Z.land (irq_status (nv_irq v)) L4VMNET_IRQ_TOP_HALF_CMD ≠ 0) then [] else qt) (nv_top v');
  id_bottom : nv_bottom v' = nv_bottom v;
  id_marks : marks v' = marks v ++
    (if decide (Z.land (irq_status (nv_irq v)) L4VMNET_IRQ_DISPATCH ≠ 0 ∨ irq_status (nv_status v) ≠ 0) then [NvTransmit] else []) ++
    (if decide (Z.land (irq_status (nv_irq v)) L4VMNET_IRQ_BOTTOM_HALF_CMD ≠ 0) then [NvScheduleBottomHalf] else [])
}.

Lemma marks_emit e v : is_mark e → marks (nv_set_trace (nv_trace v ++ [e]) v) = marks v ++ [e].
Proof. intros He. unfold marks. cbn. by rewrite list.filter_app, filter_cons_True. Qed.

(** During a round: both words are reset and marked, and the commands [done] are
    answered. *)
Record irq_round (v : nserver) (done : list net_cmd) (mk : list nv_event) (v' : nserver) : Prop := {
  ir_inv : srv_inv v';
  ir_answers : answers v' = answers v ++ (reply_to_tid <$> done);
  ir_bottom : nv_bottom v' = nv_bottom v;
  ir_mask : nv_mask v' = nv_mask v;
  ir_irq : nv_irq v' = mk_irq 0 true;
  ir_status : nv_status v' = mk_irq 0 true;
  ir_marks : marks v' = marks v ++ mk
}.

Lemma round_mark (b : bool) (P : Prop) `{!Decision P} e v done mk v' Q :
  is_mark e → (b = true ↔ P) → irq_round v done mk v' →
  (∀ v'', irq_round v done (mk ++ if decide P then [e] else []) v'' → nv_top v'' = nv_top v' → Q tt v'') →
  wp no_fault (if b then vemit e else mret tt) Q v'.
Proof.
  intros He Hb [] HQ. case_decide as HP.
  - rewrite (proj2 Hb HP). unfold vemit. apply wp_mmodify, HQ; [|done]. split; try done.
    rewrite marks_emit by done. by rewrite ir_marks0, <- app_assoc.
  - destruct b; [naive_solver|]. apply wp_mret, HQ; [|done]. rewrite app_nil_r. by split.
Qed.

Lemma round_top (P : Prop) `{!Decision P} v qt mk v' Q :
  Forall cmd_valid qt → irq_round v [] mk v' → ring_queue false qt (nv_top v') →
  (∀ v'', irq_round v (if decide P then qt else []) mk v'' →
     ring_queue false (if decide P then [] else qt) (nv_top v'') → Q tt v'') →
  wp no_fault (if bool_decide P then dispatch_ring nv_top nv_set_top else mret tt) Q v'.
Proof.
  intros Hq [] Hr HQ. rewrite bool_decide_decide. destruct (decide P); [|by apply wp_mret, HQ].
  destruct (dispatch_ring_ok nv_top nv_set_top qt v' ir_inv0 Hr Hq)
    as (r & v1 & evs & He & Hr' & Hv1 & Ha & (? & ? & ? & ? & ? & ? & ? & ? & Hm)).
  eapply wp_run; [exact He|]. apply HQ; [|done]. split; try (cbn; congruence).
  - exact Hv1.
  - change (answers v1 = answers v ++ (reply_to_tid <$> qt)). by rewrite Ha, ir_answers0, app_nil_r.
  - rewrite marks_log by (intros ? []). change (marks v1 = marks v ++ mk). congruence.
Qed.

Lemma net_irq_handler_ok fuel qt v :
  srv_inv v → ring_queue false qt (nv_top v) → Forall cmd_valid qt → ¬ no_events v →
  ∃ v', net_irq_handler (S (S fuel)) v = Ok tt v' ∧ irq_done v qt v'.
Proof.
  intros Hv Hr Hq Hne. remember (S fuel) as n.
  enough (wp no_fault (net_irq_handler (S n)) (λ _ v', irq_done v qt v') v) as Hw.
  { by apply wp_no_fault in Hw as ([] & v' & ? & ?); eauto. }
  cbn [net_irq_handler]. apply wp_bind, wp_mget. cbn [irq_status_reset]. apply wp_bind, wp_mmodify.
  set (ev := irq_status (nv_irq v)). set (cev := irq_status (nv_status v)).
  assert (bool_decide (ev = 0) && bool_decide (cev = 0) = false) as ->.
  { unfold no_events in Hne. fold ev cev in Hne. repeat case_bool_decide; naive_solver. }
  apply wp_bind, wp_mmodify, wp_bind. set (v1 := nv_set_status _ _).
  assert (irq_round v [] [] v1) as Hr1 by (split; try done; by rewrite app_nil_r).
  eapply (round_mark _ (Z.land ev L4VMNET_IRQ_DISPATCH ≠ 0 ∨ cev ≠ 0) NvTransmit v [] [] v1); [exact I| |done|].
  { rewrite orb_true_iff, !bool_decide_eq_true. done. }
  intros v2 Hr2 Ht2. apply wp_bind. eapply round_top; [exact Hq|exact Hr2|by rewrite Ht2|].
  intros v3 Hr3 Ht3. apply wp_bind.
  eapply (round_mark _ (Z.land ev L4VMNET_IRQ_BOTTOM_HALF_CMD ≠ 0) NvScheduleBottomHalf); [exact I| |exact Hr3|].
  { by rewrite bool_decide_eq_true. }
  intros v4 [] Ht4. apply wp_bind, wp_mmodify. rewrite ir_irq0, ir_status0. cbn [irq_status].
  eapply wp_run; [rewrite Heqn; by apply irq_handler_stops|]. split; try done.
  - cbn. change (answers v4 = answers v ++ (if decide (Z.land ev L4VMNET_IRQ_TOP_HALF_CMD ≠ 0) then reply_to_tid <$> qt else [])).
    rewrite ir_answers0. repeat case_decide; done.
  - cbn. rewrite Ht4. exact Ht3.
Qed.

(** ** A call from its stub to its answer *)

(** Which half serves a handler. *)
Definition is_top (h : net_handler) : bool :=
  match h with Hstart | Hstop | Hupdate_stats => true | _ => false end.
Definition quiet_ipc : l4_event → net_cmd_ring → irq_words → nserver → bool * (net_cmd_ring * irq_words * nserver) :=
  λ _ r w v, (false, (r, w, v)).

(** The stub of a handler. *)
Definition stub (ipc_failed : bool) (caller : Z) (params : net_params) (h : net_handler) : MV unit :=
  if is_top h then top_stub quiet_ipc ipc_failed 1 caller params h
  else bottom_stub quiet_ipc ipc_failed 1 caller params h.

Definition is_schedule (e : nv_event) : bool := match e with NvScheduleBottomHalf => true | _ => false end.

(** The server thread takes a call, the interrupt handler runs, and the bottom
    half if it was scheduled. *)
Definition serve_call (ipc_failed : bool) (caller : Z) (params : net_params) (h : net_handler) : MV unit :=
  stub ipc_failed caller params h;;
  m0 ← mgets marks;
  net_irq_handler 2;;
  m1 ← mgets marks;
  if existsb is_schedule (drop (length m0) m1) then L4VMnet_bottom_half_handler else mret tt.

(** The slot of a call: reserved, filled and published. *)
Lemma ring_call ipc irq_tid irq_no flags mask fuel (q : list net_cmd) (r : net_cmd_ring) w (v : nserver) caller params h :
  ring_queue false q r → (length q < L4VM_SERVER_CMD_RING_LEN)%nat →
  ∃ i r1, L4VM_server_cmd_allocate ipc irq_tid irq_no flags mask (S fuel) r w v = Some (i, r1, w, v, []) ∧
    ring_queue false (q ++ [mk_cmd (Some h) caller (Some params)]) (cmd_publish i h (cmd_fill i caller params r1)).
Proof.
  intros [p Hp] Hlen. destruct (ring_repr_free_slot _ _ _ Hp) as (c & Hc & Hiff).
  pose proof (rr_free _ _ _ _ Hp) as Hfree. rewrite Nat.add_0_r in Hfree.
  pose proof (ring_repr_reserve _ _ _ Hp Hlen) as Hres.
  set (r1 := set_next_free (ring_succ (next_free r)) r) in *.
  pose proof (ring_repr_fill _ _ _ caller params Hres) as Hfill. rewrite <- Hfree in Hfill.
  assert (zlookup (cmds (cmd_fill (next_free r) caller params r1)) (next_free r) = Some (mk_cmd None caller (Some params))) as Hc1.
  { unfold cmd_fill. change (cmds r1) with (cmds r). rewrite Hc, (proj2 Hiff Hlen). cbn.
    apply zlookup_zinsert_eq. by eapply zlookup_lt. }
  rewrite Hfree in Hc1 at 2. pose proof (ring_repr_publish _ _ _ h _ Hfill Hc1) as Hpub.
  rewrite <- Hfree in Hpub. exists (next_free r), r1. split; [|by exists p].
  unfold L4VM_server_cmd_allocate. cbn [L4VM_server_cmd_allocate_loop]. rewrite Hc. cbn [mbind option_bind].
  by rewrite (proj2 Hiff Hlen).
Qed.

(** The event bit of a delivered interrupt. *)
Lemma deliver_irq_bit failed tid no mask w bit :
  0 ≤ bit < 32 → Z.testbit (irq_status (L4VM_server_deliver_irq failed tid no (2 ^ bit) mask w).1) bit = true.
Proof.
  intros Hb. unfold L4VM_server_deliver_irq.
  assert (Z.testbit (u32 (Z.lor (irq_status w) (2 ^ bit))) bit = true) as H.
  { unfold wrap. rewrite Z.mod_pow2_bits_low, Z.lor_spec, Z.pow2_bits_true, orb_true_r by lia. done. }
  by destruct (_ && _).
Qed.

Lemma land_pow2_nonzero x bit : 0 ≤ bit → Z.testbit x bit = true → Z.land x (2 ^ bit) ≠ 0.
Proof.
  intros Hb Ht H0. assert (Z.testbit (Z.land x (2 ^ bit)) bit = true) as H.
  { by rewrite Z.land_spec, Ht, Z.pow2_bits_true by lia. }
  rewrite H0, Z.bits_0 in H. done.
Qed.

Definition idle (v : nserver) : Prop :=
  srv_inv v ∧ ring_queue false [] (nv_top v) ∧ ring_queue false [] (nv_bottom v).

(** After a stub: the call is in its ring, and its event is set. *)
Lemma stub_ok failed caller params h v :
  idle v → 
  ∃ v1, stub failed caller params h v = Ok tt v1 ∧ srv_inv v1 ∧ answers v1 = answers v ∧
    ring_queue false (if is_top h then [mk_cmd (Some h) caller (Some params)] else []) (nv_top v1) ∧
    ring_queue false (if is_top h then [] else [mk_cmd (Some h) caller (Some params)]) (nv_bottom v1) ∧
    Z.testbit (irq_status (nv_irq v1)) (if is_top h then 1 else 0) = true.
Proof.
  intros (Hv & Ht & Hb). unfold stub. destruct (is_top h); [unfold top_stub|unfold bottom_stub].
  - destruct (ring_call quiet_ipc (nv_irq_tid v) (nv_irq_no v) L4VMNET_IRQ_TOP_HALF_CMD (nv_mask v) 0 [] (nv_top v)
      (nv_irq v) v caller params h Ht) as (i & r1 & Ha & Hr); [unfold L4VM_SERVER_CMD_RING_LEN; simpl; lia|].
    erewrite bind_ok by (unfold L4VMnet_cmd_allocate_top, cmd_allocate; rewrite Ha; reflexivity). cbv beta.
    erewrite bind_ok by done. cbv beta. erewrite bind_ok by done. cbv beta.
    unfold L4VMnet_deliver_irq. erewrite bind_ok by done. cbv beta.
    pose proof (deliver_irq_bit failed (nv_irq_tid v) (nv_irq_no v) (nv_mask v) (nv_irq v) 1 ltac:(lia)) as Hbit.
    match goal with |- context [L4VM_server_deliver_irq ?a ?b ?c ?d ?e ?f] =>
      change (L4VM_server_deliver_irq a b c d e f) with
        (L4VM_server_deliver_irq failed (nv_irq_tid v) (nv_irq_no v) (2 ^ 1) (nv_mask v) (nv_irq v)) end.
    destruct (L4VM_server_deliver_irq _ _ _ _ _ _) as [w evs]. eexists. split; [reflexivity|].
    split_and!; [exact Hv|done|exact Hr|exact Hb|exact Hbit].
  - destruct (ring_call quiet_ipc (nv_irq_tid v) (nv_irq_no v) L4VMNET_IRQ_BOTTOM_HALF_CMD (nv_mask v) 0 [] (nv_bottom v)
      (nv_irq v) v caller params h Hb) as (i & r1 & Ha & Hr); [unfold L4VM_SERVER_CMD_RING_LEN; simpl; lia|].
    erewrite bind_ok by (unfold L4VMnet_cmd_allocate_bottom, cmd_allocate; rewrite Ha; reflexivity). cbv beta.
    erewrite bind_ok by done. cbv beta. erewrite bind_ok by done. cbv beta.
    unfold L4VMnet_deliver_irq. erewrite bind_ok by done. cbv beta.
    pose proof (deliver_irq_bit failed (nv_irq_tid v) (nv_irq_no v) (nv_mask v) (nv_irq v) 0 ltac:(lia)) as Hbit.
    match goal with |- context [L4VM_server_deliver_irq ?a ?b ?c ?d ?e ?f] =>
      change (L4VM_server_deliver_irq a b c d e f) with
        (L4VM_server_deliver_irq failed (nv_irq_tid v) (nv_irq_no v) (2 ^ 0) (nv_mask v) (nv_irq v)) end.
    destruct (L4VM_server_deliver_irq _ _ _ _ _ _) as [w evs]. eexists. split; [reflexivity|].
    split_and!; [exact Hv|done|exact Ht|exact Hr|exact Hbit].
Qed.

Lemma events_bit v b : Z.testbit (irq_status (nv_irq v)) b = true → ¬ no_events v.
Proof. intros Hb [H0 _]. by rewrite H0, Z.bits_0 in Hb. Qed.

Lemma serve_call_ok failed caller params h v :
  idle v → caller ≠ 0 → params_ok h params →
  ∃ v', serve_call failed caller params h v = Ok tt v' ∧ idle v' ∧ answers v' = answers v ++ [caller] ∧
    no_events v' ∧ irq_pending (nv_irq v') = false ∧ irq_pending (nv_status v') = false.
Proof.
  intros Hi Hc Hp. set (c := mk_cmd (Some h) caller (Some params)).
  assert (Forall cmd_valid [c]) as Hcv by (constructor; [split; [done|by exists h, params]|done]).
  destruct (stub_ok failed caller params h v Hi) as (v1 & H1 & Hv1 & Ha1 & Ht1 & Hb1 & Hbit). fold c in Ht1, Hb1.
  assert (Forall cmd_valid (if is_top h then [c] else [])) as Hqt by (destruct (is_top h); done).
  destruct (net_irq_handler_ok 0 _ v1 Hv1 Ht1 Hqt (events_bit _ _ Hbit)) as (v2 & H2 & []).
  unfold serve_call. erewrite bind_ok by exact H1. cbv beta. erewrite bind_ok by done. cbv beta.
  erewrite bind_ok by exact H2. cbv beta. erewrite bind_ok by done. cbv beta. rewrite id_marks0, drop_app_length.
  set (B := Z.land (irq_status (nv_irq v1)) L4VMNET_IRQ_BOTTOM_HALF_CMD ≠ 0) in *.
  assert (∀ l, existsb is_schedule ((if decide (Z.land (irq_status (nv_irq v1)) L4VMNET_IRQ_DISPATCH ≠ 0 ∨ irq_status (nv_status v1) ≠ 0)
     then [NvTransmit] else []) ++ l) = existsb is_schedule l) as -> by (intros l; by case_decide).
  destruct (is_top h) eqn:Htop.
  - pose proof (land_pow2_nonzero _ 1 ltac:(lia) Hbit) as Hnz. rewrite decide_True in id_top0 by exact Hnz.
    rewrite decide_True in id_answers0 by exact Hnz.
    cbn in id_answers0.
    assert (idle v2) as Hi2 by (split_and!; [done|done|by rewrite id_bottom0]).
    destruct (existsb _ _).
    + destruct (bottom_half_ok [] v2 id_inv0) as (v3 & H3 & Hv3 & Ha3 & Hb3 & Ht3 & Hi3 & _ & Hs3);
        [by rewrite id_bottom0|done|]. exists v3. split; [done|].
      assert (idle v3) as Hid by (split; [done|]; split; [by rewrite Ht3|done]).
      split; [exact Hid|]. split; [|split_and!].
      * rewrite Ha3, id_answers0, Ha1. by rewrite app_nil_r.
      * unfold no_events. rewrite Hi3, Hs3. exact id_events0.
      * rewrite Hi3. apply id_pending0.
      * rewrite Hs3. apply id_pending0.
    + exists v2. split; [done|]. split; [exact Hi2|]. split; [by rewrite id_answers0, Ha1|].
      split; [exact id_events0|exact id_pending0].
  - pose proof (land_pow2_nonzero _ 0 ltac:(lia) Hbit) as Hnz. rewrite decide_True by exact Hnz. cbn [existsb is_schedule orb].
    destruct (bottom_half_ok [c] v2 id_inv0) as (v3 & H3 & Hv3 & Ha3 & Hb3 & Ht3 & Hi3 & _ & Hs3);
      [by rewrite id_bottom0|done|]. exists v3. split; [done|].
    assert (idle v3) as Hid by (split; [done|]; split; [rewrite Ht3; by destruct (decide (Z.land (irq_status (nv_irq v1)) L4VMNET_IRQ_TOP_HALF_CMD ≠ 0))|done]).
    split; [exact Hid|]. split; [|split_and!].
    + rewrite Ha3, id_answers0, Ha1. by destruct (decide (Z.land (irq_status (nv_irq v1)) L4VMNET_IRQ_TOP_HALF_CMD ≠ 0)); rewrite app_nil_r.
    + unfold no_events. rewrite Hi3, Hs3. exact id_events0.
    + rewrite Hi3. apply id_pending0.
    + rewrite Hs3. apply id_pending0.
Qed.

(** A sequence of calls. *)
Fixpoint serve_calls (calls : list (bool * Z * net_params * net_handler)) : MV unit :=
  match calls with
  | [] => mret tt
  | (failed, caller, params, h) :: calls => serve_call failed caller params h;; serve_calls calls
  end.
Definition call_ok (c : bool * Z * net_params * net_handler) : Prop :=
  let '(_, caller, params, h) := c in caller ≠ 0 ∧ params_ok h params.
Definition call_caller (c : bool * Z * net_params * net_handler) : Z := let '(_, caller, _, _) := c in caller.
End served.


(** ** Loading and unloading the module *)

(** What the module holds: blocks of the page allocator, stacks, interrupts. *)
Definition page_evs (tr : list nv_event) : list page_event := omap (λ e, match e with NvPage p => Some p | _ => None end) tr.
Definition thread_evs (tr : list nv_event) : list thread_event := omap (λ e, match e with NvThread p => Some p | _ => None end) tr.
Definition irq_step (l : list Z) (e : nv_event) : list Z :=
  match e with NvRequestIrq n => n :: l | NvFreeIrq n => stdpp.base.filter (.≠ n) l | _ => l end.
Definition irqs_held (tr : list nv_event) : list Z := foldl irq_step [] tr.

(** The server as it is linked: everything zero, except for the module parameter. *)
Definition zero_ring : net_cmd_ring :=
  mk_cmd_ring 0 0 false 0 (replicate L4VM_SERVER_CMD_RING_LEN (mk_cmd None L4_nilthread None)).
Definition nserver_zero (irq : Z) : nserver :=
  mk_nsv server_init ∅ zero_ring zero_ring (mk_irq 0 false) 0 (mk_irq 0 false) [] 0 0 0 irq None false [].

Lemma zero_ring_empty : ring_queue false [] zero_ring.
Proof. exists 0%nat. apply (init_repr zero_ring). done. Qed.

Lemma fpage_alloc_held gfp n :
  match L4VM_fpage_alloc gfp n with
  | (_, Some info, evs) => pages_held evs = [(al_start info, actual_log2size info - PAGE_SHIFT)]
  | (_, None, evs) => pages_held evs = []
  end.
Proof.
  unfold L4VM_fpage_alloc. set (req := if bool_decide (n < PAGE_SHIFT) then PAGE_SHIFT else n). cbv zeta.
  case_bool_decide; [done|]. case_bool_decide.
  - unfold pages_held. cbn. by rewrite bool_decide_eq_false_2.
  - set (s := gfp [] (req - PAGE_SHIFT)) in *. set (s2 := gfp _ (req - PAGE_SHIFT + 1)). case_bool_decide.
    + unfold pages_held. cbn [foldl app pages_step]. rewrite (bool_decide_eq_true_2 (0 = 0)), (bool_decide_eq_false_2 (s = 0)) by done.
      rewrite filter_cons_False by naive_solver. done.
    + rewrite pages_held_retry by done. cbn. by replace (req + 1 - PAGE_SHIFT) with (req - PAGE_SHIFT + 1) by lia.
Qed.

Lemma page_evs_log evs : page_evs (NvPage <$> evs) = evs.
Proof. induction evs as [|e evs IH]; [done|]. rewrite fmap_cons. cbn. by f_equal. Qed.
Lemma page_evs_app tr tr' : page_evs (tr ++ tr') = page_evs tr ++ page_evs tr'.
Proof. apply omap_app. Qed.
Lemma thread_evs_app tr tr' : thread_evs (tr ++ tr') = thread_evs tr ++ thread_evs tr'.
Proof. apply omap_app. Qed.
Lemma thread_evs_log evs : thread_evs (NvThread <$> evs) = evs.
Proof. induction evs as [|e evs IH]; [done|]. rewrite fmap_cons. cbn. by f_equal. Qed.
Lemma page_evs_thread evs : page_evs (NvThread <$> evs) = [].
Proof. induction evs as [|e evs IH]; [done|]. exact IH. Qed.
Lemma thread_evs_page evs : thread_evs (NvPage <$> evs) = [].
Proof. induction evs as [|e evs IH]; [done|]. exact IH. Qed.
Lemma net_irqs_held_app tr tr' : irqs_held (tr ++ tr') = foldl irq_step (irqs_held tr) tr'.
Proof. apply foldl_app. Qed.
Lemma irqs_held_page l evs : foldl irq_step l (NvPage <$> evs) = l.
Proof. revert l. induction evs as [|e evs IH]; intros l; [done|]. apply IH. Qed.
Lemma irqs_held_thread l evs : foldl irq_step l (NvThread <$> evs) = l.
Proof. revert l. induction evs as [|e evs IH]; intros l; [done|]. apply IH. Qed.
Lemma irqs_held_pages evs : irqs_held (NvPage <$> evs) = [].
Proof. apply irqs_held_page. Qed.
Create Rewrite HintDb nsv.
#[export] Hint Rewrite page_evs_app page_evs_log page_evs_thread thread_evs_app thread_evs_log thread_evs_page
  net_irqs_held_app irqs_held_page irqs_held_pages irqs_held_thread app_nil_r : nsv.
Lemma pages_held_free evs s o : pages_held evs = [(s, o)] → pages_held (evs ++ [EvFreePages s o]) = [].
Proof.
  intros H. unfold pages_held in *. rewrite foldl_app, H. cbn [foldl pages_step]. rewrite filter_cons_False by naive_solver. done.
Qed.

(** The three resources of the module. *)
Definition holds_only (v : nserver) (pages : list (Z * Z)) (stk irqs : list Z) : Prop :=
  pages_held (page_evs (nv_trace v)) = pages ∧ stacks (thread_evs (nv_trace v)) = stk ∧ irqs_held (nv_trace v) = irqs.

(** The resources of a trace that was just extended. *)
Ltac trace_simpl Htr :=
  unfold holds_only; cbn -[pages_held stacks irqs_held page_evs thread_evs]; rewrite Htr;
  repeat (autorewrite with nsv; cbn -[pages_held stacks irqs_held]).

(** Ready for calls: an empty server with its status page, thread and interrupt. *)
Definition booted (v : nserver) (stack : Z) : Prop :=
  idle v ∧ answers v = [] ∧ nv_hook v = true ∧ nv_irq_no v ≠ 0 ∧ nv_mask v = 2 ^ 32 - 1 ∧
  ∃ info, nv_region v = Some info ∧
    holds_only v [(al_start info, actual_log2size info - PAGE_SHIFT)] [stack] [nv_irq_no v].

Lemma server_alloc_ok irq_gtid main_gtid gfp log2size request_irq pages wedge v0 :
  (∀ s, wedge s ≠ L4_nilthread) → nsinv (nv_ctl v0) → answers v0 = [] → nv_trace v0 = [] → nv_hook v0 = true →
  nv_top v0 = zero_ring → nv_bottom v0 = zero_ring →
  wp no_fault (L4VMnet_server_alloc irq_gtid main_gtid gfp log2size request_irq pages wedge) (λ err v,
    (err = 0 ∧ booted v pages) ∨ (err = - CmdRing.ENODEV ∧ nv_hook v = true ∧ holds_only v [] [] [])) v0.
Proof.
  intros Hw Hs Ha Htr Hh Ht Hb. unfold L4VMnet_server_alloc.
  apply wp_bind, wp_mmodify, wp_bind, wp_mmodify.
  pose proof (fpage_alloc_held gfp log2size) as Hp. destruct (L4VM_fpage_alloc gfp log2size) as [[err [info|]] evs].
  2: { apply wp_bind, wp_mmodify, wp_mret. right. split; [done|]. split; [done|].
       trace_simpl Htr. done. }
  apply wp_bind, wp_mmodify, wp_bind, wp_mmodify, wp_bind, wp_mmodify, wp_bind, wp_mmodify, wp_bind, wp_mget.
  apply wp_bind, wp_mono with (P := λ _ v', ∃ n, n ≠ 0 ∧ v' = nv_set_irq_no n
    (nv_set_main_tid main_gtid (nv_set_irq_tid irq_gtid (nv_set_mask (2 ^ 32 - 1) (nv_set_irq (mk_irq 0 false)
      (nv_set_status (mk_irq 0 false) (nv_set_region (Some info) (vlog NvPage evs (nv_set_tid L4_nilthread v0))))))))).
  { case_bool_decide; [apply wp_mmodify; by exists 9|apply wp_mret]. eexists. split; [done|]. done. }
  intros _ _ (n & Hn & ->). apply wp_bind, wp_mgets, wp_bind. unfold vemit. apply wp_mmodify.
  case_bool_decide.
  { apply wp_bind, wp_mmodify, wp_mret. right. split; [done|]. split; [done|].
    trace_simpl Htr. split_and!; [by apply pages_held_free|done..]. }
  apply wp_bind, wp_mmodify. pose proof (thread_create_stack true 0 pages wedge []) as Hc.
  destruct (L4VM_thread_create true 0 pages wedge []) as [tid tevs|f].
  2: { destruct Hc as (_ & _ & _ & _ & Hc). by apply Hw in Hc. }
  apply wp_bind, wp_mmodify, wp_bind, wp_mmodify. case_bool_decide as Htid.
  - rewrite decide_True in Hc by done.
    apply wp_bind, wp_mmodify, wp_bind, wp_mmodify, wp_mret. right. split; [done|]. split; [done|].
    trace_simpl Htr. split_and!; [by apply pages_held_free|exact Hc|]. by rewrite decide_False by naive_solver.
  - rewrite decide_False in Hc by done. destruct Hc as (Hst & Hc).
    apply wp_mret. left. split; [done|]. unfold booted, idle, srv_inv. cbn.
    rewrite Ht, Hb. split_and!; try done; try apply zero_ring_empty.
    exists info. split; [done|]. trace_simpl Htr. done.
Qed.

(** Loading the module either fails with [-ENODEV] and holds no page, stack or
    interrupt, or leaves a server that is ready for calls with a status page, a
    server thread and an interrupt of its own. Unloading a loaded module frees the
    page and the interrupt and removes the bridge hook. A failed load leaves the
    hook set, and an unload keeps the stack of the server thread. *)
Theorem net_server_boot hook_taken irq irq_gtid main_gtid gfp log2size request_irq pages wedge :
  (∀ s, wedge s ≠ L4_nilthread) →
  ∃ err v, L4VMnet_server_init_module hook_taken irq_gtid main_gtid gfp log2size request_irq pages wedge (nserver_zero irq) = Ok err v ∧
    ((err = 0 ∧ hook_taken = false ∧ booted v pages ∧
      ∃ v', L4VMnet_server_exit_module v = Ok tt v' ∧ nv_hook v' = false ∧ holds_only v' [] [pages] []) ∨
     (err = - CmdRing.ENODEV ∧ nv_hook v = negb hook_taken ∧ holds_only v [] [] [])).
Proof.
  intros Hw. unfold L4VMnet_server_init_module. destruct hook_taken.
  { eexists _, _. split; [reflexivity|]. right. done. }
  destruct (wp_no_fault _ _ _ (server_alloc_ok irq_gtid main_gtid gfp log2size request_irq pages wedge
    (nv_set_hook true (nserver_zero irq)) Hw server_init_ok eq_refl eq_refl eq_refl eq_refl eq_refl)) as (err & v & He & Hv).
  erewrite bind_ok by done. cbv beta. erewrite bind_ok by done. cbv beta.
  erewrite bind_ok by exact He. cbv beta. destruct Hv as [[-> Hv]|(-> & Hh & Hv)].
  2: { eexists _, v. split; [reflexivity|]. by right. }
  rewrite bool_decide_eq_false_2 by lia. erewrite bind_ok by done. cbv beta. erewrite bind_ok by done. cbv beta.
  set (v1 := nv_set_trace _ v).
  assert (booted v1 pages) as Hv1.
  { destruct Hv as (Hi & Ha & Hhk & Hno & Hm & info & Hr & Hp & Hs & Hq).
    split_and!; [exact Hi|done..|]. exists info. split; [done|]. unfold holds_only, v1.
    cbn -[pages_held stacks irqs_held page_evs thread_evs]. autorewrite with nsv.
    cbn -[pages_held stacks irqs_held]. done. }
  eexists _, _. split; [reflexivity|]. left. split_and!; [done|done|exact Hv1|].
  destruct Hv1 as (((_ & Htid) & _) & _ & _ & _ & _ & info & Hr & Hp & Hs & Hq).
  unfold L4VMnet_server_exit_module. erewrite bind_ok by done. cbv beta. rewrite bool_decide_eq_false_2 by exact Htid.
  erewrite bind_ok by done. cbv beta. erewrite bind_ok by done. cbv beta. rewrite Hr. erewrite bind_ok by done.
  cbv beta. erewrite bind_ok by done. cbv beta. eexists. split; [reflexivity|]. split; [done|].
  clearbody v1. unfold holds_only. cbn -[pages_held stacks irqs_held page_evs thread_evs].
  rewrite !page_evs_app, !thread_evs_app, !net_irqs_held_app, Hq. cbn -[pages_held stacks]. rewrite !app_nil_r.
  split_and!.
  - by apply pages_held_free.
  - by rewrite stacks_snoc, Hs.
  - by rewrite decide_False by naive_solver.
Qed.

(** ** A sample server *)

#[global] Program Instance sample_srv : NetSrvEnv := {
  at_space := λ _ _, true;
  at_region := λ _, Some 4096;
  at_mem := λ s, Some (fresh (dom (ns_heap s)));
  at_dev := λ name _, Some name;
  eth0_stats := λ _, Some (1, [7]);
  srv_ioremap := λ _ _, 65536;
  request_pages := λ _ _, CORBA_NO_EXCEPTION;
  fpage_size_log2 := λ _ _, 12
}.
Next Obligation. intros s c [= <-]. apply not_elem_of_dom, is_fresh. Qed.

Lemma net_server_boot_witness :
  ∃ err v, L4VMnet_server_init_module false 11 10 (λ _ _, 8192) 12 0 4194304 (λ _, 5) (nserver_zero 0) = Ok err v ∧
    err = 0 ∧ booted v 4194304.
Proof.
  destruct (net_server_boot false 0 11 10 (λ _ _, 8192) 12 0 4194304 (λ _, 5)) as (err & v & He & Hv); [done|].
  exists err, v. split; [exact He|]. vm_compute in He. destruct Hv as [(-> & _ & Hb & _)|(-> & _)]; [done|].
  exfalso. injection He as He _. discriminate He.
Defined.

Definition booted_server : nserver :=
  match L4VMnet_server_init_module false 11 10 (λ _ _, 8192) 12 0 4194304 (λ _, 5) (nserver_zero 0) with
  | Ok _ v => v | Err _ => nserver_zero 0
  end.
Lemma booted_server_idle : idle booted_server.
Proof.
  split; [split; [apply server_init_ok|done]|]. split; apply zero_ring_empty.
Qed.

Definition sample_calls : list (bool * Z * net_params * net_handler) :=
  [(false, 33, Pattach 1 [2; 0; 0; 0; 3; 0], Hattach); (true, 33, Pstart 3, Hstart);
   (false, 34, Pupdate_stats 9, Hupdate_stats); (false, 33, Pregister_dp83820_tx_ring 3 8192 4096 1, Hregister_dp83820_tx_ring)].


(** A statistics request dereferences NULL when the driver VM has no "eth0". *)
Lemma update_stats_needs_eth0 {E : NetSrvEnv} tid handle v c :
  zlookup (ns_table (nv_ctl v)) handle = Some (Some c) → handle < L4VMNET_MAX_CLIENTS → eth0_stats (nv_ctl v) = None →
  L4VMnet_update_stats_handler tid handle v = Err NullDeref.
Proof.
  intros Ht Hh He. unfold L4VMnet_update_stats_handler.
  assert (on_ctl (L4VMnet_client_handle_lookup handle) v = Ok (Some c) v) as Hl.
  { unfold on_ctl, L4VMnet_client_handle_lookup. rewrite bool_decide_eq_true_2 by done.
    unfold mgets, mbind, M_bind. rewrite Ht. cbn. by destruct v. }
  erewrite bind_ok by exact Hl. cbv beta match. erewrite bind_ok by done. cbv beta. by rewrite He.
Qed.
