(* ===== verification/NetClient.v ===== *)
(** * The network client: opening and closing the device

    Models the remaining operations of l4ka-driver-reuse/kernel/net/client.c:
    the module initialisation, [L4VMnet_open], [L4VMnet_close] and
    [L4VMnet_get_stats], the interrupt that announces packets to the server, and
    the memory, mappings, threads and interrupts these operations take and give
    back. The rings are those of Net.v and NetRecv.v, so that what [L4VMnet_open]
    leaves is related to the initial states of the two protocols. *)

From Stdlib Require Import ZArith Lia.
From stdpp Require Import base list gmap numbers.
From S2P Require Import Prelude CmdRing VmMemory LanAddress Thread Net NetSend NetRecv NetRecvProtocol.

Definition NR_RCV_GROUP : nat := 1.

(** ** Data *)

Inductive nc_event : Type :=
  | NcVm (e : vm_event)
  | NcThread (e : thread_event)
  | NcAttach (lan : lanaddress_t)      (** [IVMnet_Control_attach] *)
  | NcStart (tid handle : Z)           (** [IVMnet_Control_start] *)
  | NcStop (tid handle : Z)            (** [IVMnet_Control_stop] *)
  | NcUpdateStats (tid handle : Z)     (** [IVMnet_Control_update_stats] *)
  | NcAddVirq (irq : Z)                (** [l4ka_wedge_add_virtual_irq] *)
  | NcRequestIrq (irq : Z).            (** [request_irq] *)

(** The words of the shared area that [L4VMnet_open] writes. *)
Record shared_words : Type := mk_shw {
  sh_irq_tid : Z;
  sh_irq_pending : Z;
  sh_receiver_cnt : Z;
  sh_tids : list Z
}.

(** A receive group: its thread and mask, its two allocations, and its ring. *)
Record group : Type := mk_grp {
  gp_no : Z;
  gp_tid : Z;
  gp_mask : Z;
  gp_cnt : Z;
  gp_shadow : option positive;
  gp_desc : option positive;
  gp_rcv : rcv_group
}.

(** [L4VMnet_client_adapter_t], the module parameter [L4VMnet_irq], the kernel
    memory in use and what was asked of the rest of the system. *)
Record adapter : Type := mk_adapter {
  a_connected : bool;
  a_lan_valid : bool;
  a_lan : lanaddress_t;
  a_server_tid : Z;
  a_handle : Z;
  a_irq_pending : bool;
  a_window : L4VM_alligned_vmarea_t;
  a_mapping : option (Z * Z);
  a_shared : shared_words;
  a_send_cnt : Z;
  a_send_shadow : option positive;
  a_net : net;
  a_groups : list group;
  a_irq : Z;
  a_kheap : gset positive;
  a_kcalls : nat;
  a_trace : list nc_event
}.
Definition a_set_connected (x : bool) (a : adapter) : adapter :=
  mk_adapter x (a_lan_valid a) (a_lan a) (a_server_tid a) (a_handle a) (a_irq_pending a) (a_window a)
    (a_mapping a) (a_shared a) (a_send_cnt a) (a_send_shadow a) (a_net a) (a_groups a) (a_irq a)
    (a_kheap a) (a_kcalls a) (a_trace a).
Definition a_set_lan_valid (x : bool) (a : adapter) : adapter :=
  mk_adapter (a_connected a) x (a_lan a) (a_server_tid a) (a_handle a) (a_irq_pending a) (a_window a)
    (a_mapping a) (a_shared a) (a_send_cnt a) (a_send_shadow a) (a_net a) (a_groups a) (a_irq a)
    (a_kheap a) (a_kcalls a) (a_trace a).
Definition a_set_lan (x : lanaddress_t) (a : adapter) : adapter :=
  mk_adapter (a_connected a) (a_lan_valid a) x (a_server_tid a) (a_handle a) (a_irq_pending a)
    (a_window a) (a_mapping a) (a_shared a) (a_send_cnt a) (a_send_shadow a) (a_net a) (a_groups a)
    (a_irq a) (a_kheap a) (a_kcalls a) (a_trace a).
Definition a_set_server_tid (x : Z) (a : adapter) : adapter :=
  mk_adapter (a_connected a) (a_lan_valid a) (a_lan a) x (a_handle a) (a_irq_pending a) (a_window a)
    (a_mapping a) (a_shared a) (a_send_cnt a) (a_send_shadow a) (a_net a) (a_groups a) (a_irq a)
    (a_kheap a) (a_kcalls a) (a_trace a).
Definition a_set_handle (x : Z) (a : adapter) : adapter :=
  mk_adapter (a_connected a) (a_lan_valid a) (a_lan a) (a_server_tid a) x (a_irq_pending a) (a_window a)
    (a_mapping a) (a_shared a) (a_send_cnt a) (a_send_shadow a) (a_net a) (a_groups a) (a_irq a)
    (a_kheap a) (a_kcalls a) (a_trace a).
Definition a_set_irq_pending (x : bool) (a : adapter) : adapter :=
  mk_adapter (a_connected a) (a_lan_valid a) (a_lan a) (a_server_tid a) (a_handle a) x (a_window a)
    (a_mapping a) (a_shared a) (a_send_cnt a) (a_send_shadow a) (a_net a) (a_groups a) (a_irq a)
    (a_kheap a) (a_kcalls a) (a_trace a).
Definition a_set_window (x : L4VM_alligned_vmarea_t) (a : adapter) : adapter :=
  mk_adapter (a_connected a) (a_lan_valid a) (a_lan a) (a_server_tid a) (a_handle a) (a_irq_pending a) x
    (a_mapping a) (a_shared a) (a_send_cnt a) (a_send_shadow a) (a_net a) (a_groups a) (a_irq a)
    (a_kheap a) (a_kcalls a) (a_trace a).
Definition a_set_mapping (x : option (Z * Z)) (a : adapter) : adapter :=
  mk_adapter (a_connected a) (a_lan_valid a) (a_lan a) (a_server_tid a) (a_handle a) (a_irq_pending a)
    (a_window a) x (a_shared a) (a_send_cnt a) (a_send_shadow a) (a_net a) (a_groups a) (a_irq a)
    (a_kheap a) (a_kcalls a) (a_trace a).
Definition a_set_shared (x : shared_words) (a : adapter) : adapter :=
  mk_adapter (a_connected a) (a_lan_valid a) (a_lan a) (a_server_tid a) (a_handle a) (a_irq_pending a)
    (a_window a) (a_mapping a) x (a_send_cnt a) (a_send_shadow a) (a_net a) (a_groups a) (a_irq a)
    (a_kheap a) (a_kcalls a) (a_trace a).
Definition a_set_send_cnt (x : Z) (a : adapter) : adapter :=
  mk_adapter (a_connected a) (a_lan_valid a) (a_lan a) (a_server_tid a) (a_handle a) (a_irq_pending a)
    (a_window a) (a_mapping a) (a_shared a) x (a_send_shadow a) (a_net a) (a_groups a) (a_irq a)
    (a_kheap a) (a_kcalls a) (a_trace a).
Definition a_set_send_shadow (x : option positive) (a : adapter) : adapter :=
  mk_adapter (a_connected a) (a_lan_valid a) (a_lan a) (a_server_tid a) (a_handle a) (a_irq_pending a)
    (a_window a) (a_mapping a) (a_shared a) (a_send_cnt a) x (a_net a) (a_groups a) (a_irq a) (a_kheap a)
    (a_kcalls a) (a_trace a).
Definition a_set_net (x : net) (a : adapter) : adapter :=
  mk_adapter (a_connected a) (a_lan_valid a) (a_lan a) (a_server_tid a) (a_handle a) (a_irq_pending a)
    (a_window a) (a_mapping a) (a_shared a) (a_send_cnt a) (a_send_shadow a) x (a_groups a) (a_irq a)
    (a_kheap a) (a_kcalls a) (a_trace a).
Definition a_set_groups (x : list group) (a : adapter) : adapter :=
  mk_adapter (a_connected a) (a_lan_valid a) (a_lan a) (a_server_tid a) (a_handle a) (a_irq_pending a)
    (a_window a) (a_mapping a) (a_shared a) (a_send_cnt a) (a_send_shadow a) (a_net a) x (a_irq a)
    (a_kheap a) (a_kcalls a) (a_trace a).
Definition a_set_irq (x : Z) (a : adapter) : adapter :=
  mk_adapter (a_connected a) (a_lan_valid a) (a_lan a) (a_server_tid a) (a_handle a) (a_irq_pending a)
    (a_window a) (a_mapping a) (a_shared a) (a_send_cnt a) (a_send_shadow a) (a_net a) (a_groups a) x
    (a_kheap a) (a_kcalls a) (a_trace a).
Definition a_set_kheap (x : gset positive) (a : adapter) : adapter :=
  mk_adapter (a_connected a) (a_lan_valid a) (a_lan a) (a_server_tid a) (a_handle a) (a_irq_pending a)
    (a_window a) (a_mapping a) (a_shared a) (a_send_cnt a) (a_send_shadow a) (a_net a) (a_groups a)
    (a_irq a) x (a_kcalls a) (a_trace a).
Definition a_set_kcalls (x : nat) (a : adapter) : adapter :=
  mk_adapter (a_connected a) (a_lan_valid a) (a_lan a) (a_server_tid a) (a_handle a) (a_irq_pending a)
    (a_window a) (a_mapping a) (a_shared a) (a_send_cnt a) (a_send_shadow a) (a_net a) (a_groups a)
    (a_irq a) (a_kheap a) x (a_trace a).
Definition a_set_trace (x : list nc_event) (a : adapter) : adapter :=
  mk_adapter (a_connected a) (a_lan_valid a) (a_lan a) (a_server_tid a) (a_handle a) (a_irq_pending a)
    (a_window a) (a_mapping a) (a_shared a) (a_send_cnt a) (a_send_shadow a) (a_net a) (a_groups a)
    (a_irq a) (a_kheap a) (a_kcalls a) x.

(** What the calls of [L4VMnet_open] come back with: the LAN address service, the
    locator, Linux' [kmalloc], [ioremap] and [request_irq], the attach call of
    the server, and the page allocator and the wedge behind
    [L4VM_thread_create]. *)
Class NetOpenEnv : Type := {
  lan_service : Z * option lanaddress_t;
  locate_server : corba_major * Z;
  kmalloc : nat → gset positive → option positive;
  kmalloc_fresh : ∀ n X p, kmalloc n X = Some p → p ∉ X;
  ioremap : list vm_event → Z → Z;
  ioremap_nonneg : ∀ evs n, 0 ≤ ioremap evs n;
  attach_reply : corba_major * (Z * (Z * Z));
  shared_sizes : Z * Z;
  nr_irqs : Z;
  request_irq : Z;
  vcpu_irq_gtid : Z;
  thread_pages : Z → Z;
  wedge_create : Z → Z
}.

Section ops.
Context {E : NetOpenEnv}.
Abbreviation MA := (M adapter).

Definition nc_emit (e : nc_event) : MA unit := mmodify (λ a, a_set_trace (a_trace a ++ [e]) a).
Definition nc_emits {A} (f : A → nc_event) (es : list A) : MA unit :=
  mmodify (λ a, a_set_trace (a_trace a ++ (f <$> es)) a).

Definition do_kmalloc : MA (option positive) :=
  a ← mget;
  mmodify (a_set_kcalls (S (a_kcalls a)));;
  match kmalloc (a_kcalls a) (a_kheap a) with
  | Some p => mmodify (a_set_kheap ({[p]} ∪ a_kheap a));; mret (Some p)
  | None => mret None
  end.
(** [kfree]; of memory that is not allocated, it is an error. *)
Definition kfree (o : option positive) : MA unit :=
  match o with
  | None => mret tt
  | Some p =>
      X ← mgets a_kheap;
      if decide (p ∈ X) then mmodify (a_set_kheap (X ∖ {[p]})) else mfault DanglingDeref
  end.

Definition load_group (i : Z) : MA group := o ← mgets (λ a, zlookup (a_groups a) i); mof_option OutOfBounds o.
Definition alter_group (i : Z) (f : group → group) : MA unit :=
  g ← load_group i; mmodify (λ a, a_set_groups (zinsert i (f g) (a_groups a)) a).
(** [for( i = 0; i < NR_RCV_GROUP; i++ )] *)
Fixpoint each_group (n : nat) (i : Z) (body : Z → MA unit) : MA unit :=
  match n with O => mret tt | S n => body i;; each_group n (i + 1) body end.
Definition for_groups (body : Z → MA unit) : MA unit := each_group NR_RCV_GROUP 0 body.

(** ** Server commands *)

Definition L4VMnet_server_stop : MA unit := a ← mget; nc_emit (NcStop (a_server_tid a) (a_handle a)).
Definition L4VMnet_server_start : MA unit := a ← mget; nc_emit (NcStart (a_server_tid a) (a_handle a)).

Definition netif_wake_queue : MA unit := mmodify (λ a, a_set_net (n_set_stopped false (a_net a)) a).
Definition netif_stop_queue : MA unit := mmodify (λ a, a_set_net (n_set_stopped true (a_net a)) a).

(** ** [L4VMnet_open] *)

(** The send ring before its shadow is allocated, and the receive rings. *)
Definition open_prepare_send : MA unit :=
  mmodify (a_set_send_cnt IVMnet_snd_descriptor_ring_cnt);;
  mmodify (λ a, a_set_net (n_set_dirty 0 (n_set_free 0 (a_net a))) a).
Definition open_prepare_rcv : MA unit := for_groups (λ i, alter_group i (λ g,
  mk_grp (gp_no g) (gp_tid g) (gp_mask g) gcnt None None (g_set_dirty 0 (g_set_free 0 (gp_rcv g))))).

Definition grp_set_shadow (o : option positive) g :=
  mk_grp (gp_no g) (gp_tid g) (gp_mask g) (gp_cnt g) o (gp_desc g) (gp_rcv g).
Definition grp_set_desc (o : option positive) g :=
  mk_grp (gp_no g) (gp_tid g) (gp_mask g) (gp_cnt g) (gp_shadow g) o (gp_rcv g).

(** The allocation of the receive rings: whether all succeeded. *)
Fixpoint open_alloc_rcv (n : nat) (i : Z) : MA bool :=
  match n with
  | O => mret true
  | S n =>
      sh ← do_kmalloc;
      alter_group i (grp_set_shadow sh);;
      ds ← do_kmalloc;
      alter_group i (grp_set_desc ds);;
      g ← load_group i;
      if bool_decide (gp_shadow g = None) || bool_decide (gp_desc g = None) then mret false
      else open_alloc_rcv n (i + 1)
  end.

(** The label [err_rcv_alloc]. *)
Definition open_free_rcv : MA unit := for_groups (λ i, g ← load_group i; kfree (gp_shadow g);; kfree (gp_desc g)).
(** The label [err_get_vm_area]. *)
Definition open_free_send : MA unit := sh ← mgets a_send_shadow; kfree sh;; open_free_rcv.
(** The labels [err_request_irq], [err_vmpic_reserve] and [err_server_register]. *)
Definition open_release : MA unit :=
  a ← mget;
  let '(w, evs) := L4VM_fpage_vmarea_release (a_window a) in
  mmodify (a_set_window w);; nc_emits NcVm evs;;
  open_free_send.

Definition zero_desc : ring_descriptor_t := mk_ndesc 0 0 0 false false false false 0 0 0.
Definition zero_rdesc : rcv_desc := mk_rdesc None 0 false.

(** "Finish up initialization": the shared area, and the rings zeroed. *)
Definition open_init_rings (handle b1 b2 : Z) : MA unit :=
  mmodify (a_set_handle handle);;
  a ← mget;
  let window_base := L4_Address (vm_fpage (a_window a)) in
  mmodify (a_set_mapping (Some (window_base + b1, window_base + b2)));;
  mmodify (a_set_shared (mk_shw L4_nilthread 0 0 (sh_tids (a_shared a))));;
  mmodify (λ a, a_set_net (n_set_shadow (replicate (Z.to_nat (a_send_cnt a)) None)
    (n_set_ring (replicate (Z.to_nat (a_send_cnt a)) zero_desc) (a_net a))) a);;
  for_groups (λ i, alter_group i (λ g, mk_grp (gp_no g) (gp_tid g) (gp_mask g) (gp_cnt g) (gp_shadow g) (gp_desc g)
    (g_set_shadow (replicate (Z.to_nat (gp_cnt g)) None) (g_set_ring (replicate (Z.to_nat (gp_cnt g)) zero_rdesc) (gp_rcv g)))));;
  mmodify (a_set_irq_pending false);;
  for_groups (λ i, alter_group i (λ g, mk_grp i L4_nilthread 0 (gp_cnt g) (gp_shadow g) (gp_desc g) (g_set_status 0 (gp_rcv g)))).

(** One receiver thread: it starts by looking for buffers. *)
Definition open_start_thread (i : Z) : MA unit :=
  match L4VM_thread_create true 8 (thread_pages i) wedge_create [] with
  | Err f => mfault f
  | Ok tid evs =>
      nc_emits NcThread evs;;
      alter_group i (λ g, mk_grp (gp_no g) tid (gp_mask g) (gp_cnt g) (gp_shadow g) (gp_desc g) (gp_rcv g));;
      if bool_decide (tid = L4_nilthread) then mret tt else
      alter_group i (λ g, mk_grp (gp_no g) (gp_tid g) (gp_mask g) (gp_cnt g) (gp_shadow g) (gp_desc g)
        (g_set_thread TPrepare (gp_rcv g)));;
      w ← mgets a_shared;
      (if decide (is_Some (zlookup (sh_tids w) (sh_receiver_cnt w))) then mret tt else mfault OutOfBounds);;
      mmodify (a_set_shared (mk_shw (sh_irq_tid w) (sh_irq_pending w) (sh_receiver_cnt w + 1)
        (zinsert (sh_receiver_cnt w) tid (sh_tids w))))
  end.

(** From the interrupt on; [err] is what the variable holds when it is reached. *)
Definition open_start (err : Z) : MA Z :=
  a ← mget;
  if bool_decide (nr_irqs < a_irq a) then open_release;; mret err else
  (if bool_decide (a_irq a = 0) then mmodify (a_set_irq 9) else mret tt);;
  irq ← mgets a_irq;
  nc_emit (NcAddVirq irq);;
  (if bool_decide (request_irq < 0) then open_release;; mret request_irq else
   nc_emit (NcRequestIrq irq);;
   mmodify (λ a, a_set_shared (mk_shw vcpu_irq_gtid (sh_irq_pending (a_shared a)) (sh_receiver_cnt (a_shared a))
     (sh_tids (a_shared a))) a);;
   for_groups open_start_thread;;
   mmodify (a_set_connected true);;
   L4VMnet_server_start;;
   netif_wake_queue;;
   for_groups (λ i, alter_group i (λ g, mk_grp (gp_no g) (gp_tid g) (2 ^ 32 - 1) (gp_cnt g) (gp_shadow g) (gp_desc g) (gp_rcv g)));;
   mret 0).

(** From the shared window on. *)
Definition open_attach : MA Z :=
  let '(res, evs) := L4VM_fpage_vmarea_get ioremap (Z.log2_up (shared_sizes.1 + shared_sizes.2)) in
  nc_emits NcVm evs;;
  match res with
  | (err, None) => open_free_send;; mret err
  | (err, Some info) =>
      mmodify (a_set_window info);;
      addr ← mof_option AssertFail (ioremap_addr info);
      massert (bool_decide (addr ≤ L4_Address (vm_fpage info)));;
      a ← mget;
      nc_emit (NcAttach (a_lan a));;
      match attach_reply with
      | (CORBA_NO_EXCEPTION, (handle, (b1, b2))) => open_init_rings handle b1 b2;; open_start err
      | _ => open_release;; mret (- CmdRing.EIO)
      end
  end.

Definition L4VMnet_open : MA Z :=
  a ← mget;
  if a_connected a then L4VMnet_server_start;; netif_wake_queue;; mret 0 else
  let lan_err := if a_lan_valid a then 0 else lan_service.1 in
  if bool_decide (lan_err ≠ 0) then mret lan_err else
  (if a_lan_valid a then mret tt else
     match lan_service.2 with Some addr => mmodify (a_set_lan addr) | None => mret tt end;;
     mmodify (a_set_lan_valid true));;
  let err := L4VM_server_locate locate_server.1 in
  if bool_decide (err ≠ 0) then mret err else
  mmodify (a_set_server_tid locate_server.2);;
  open_prepare_send;;
  sh ← do_kmalloc;
  mmodify (a_set_send_shadow sh);;
  if bool_decide (sh = None) then mret (- ENOMEM) else
  open_prepare_rcv;;
  ok ← open_alloc_rcv NR_RCV_GROUP 0;
  if (ok : bool) then open_attach else open_free_rcv;; mret (- ENOMEM).

(** ** The other operations *)

(** [L4VMnet_close] returns before it gives anything back; the statements after
    the return are not reached. *)
Definition L4VMnet_close : MA Z := netif_stop_queue;; L4VMnet_server_stop;; mret 0.

(** [L4VMnet_get_stats]: the address of the statistics, 8 bytes into the area of
    the server; after a failed call it enters the kernel debugger. *)
Definition L4VMnet_get_stats (reply : corba_major) : MA (option Z) :=
  a ← mget;
  if negb (a_connected a) then mret None else
  nc_emit (NcUpdateStats (a_server_tid a) (a_handle a));;
  match reply with
  | CORBA_NO_EXCEPTION => m ← mof_option NullDeref (a_mapping a); mret (Some (m.2 + 8))
  | _ => mfault AssertFail
  end.
End ops.

(** ** The module *)

(** The network devices the module has allocated, the one it remembers
    ([L4VMnet_adapter_list]), and those registered with Linux. *)
Record net_module : Type := mk_nm {
  nm_list : option positive;
  nm_devs : gmap positive adapter;
  nm_registered : gset positive
}.

(** A zeroed adapter; [w] and [irq] are the module parameter and what happens to
    be in the shared area. *)
Definition adapter_zero (lan : lanaddress_t) (w : shared_words) (irq : Z) : adapter :=
  mk_adapter false false lan 0 0 false (mk_vmarea None (L4_FpageLog2 0 12)) None w 0 None
    (mk_net 0 0 [] false [] 0 ∅ 0 [])
    (replicate NR_RCV_GROUP (mk_grp 0 0 0 0 None None (mk_group 0 [] 0 0 [] TSleep ∅ 0 [])))
    irq ∅ 0 [].

(** [L4VMnet_client_init_module]: [dev] is the device [alloc_etherdev] returns,
    [lan] the answer of the LAN address service, [err] that of
    [register_netdev]. *)
Definition L4VMnet_client_init_module (dev : option positive) (w : shared_words) (irq : Z)
    (lan : Z * option lanaddress_t) (err : Z) : M net_module Z :=
  match dev with
  | None => mret (- ENOMEM)
  | Some p =>
      mmodify (λ m, mk_nm (Some p) (<[p := adapter_zero (replicate 6 0) w irq]> (nm_devs m)) (nm_registered m));;
      let ok := bool_decide (lan.1 = 0) in
      mmodify (λ m, mk_nm (nm_list m) (alter (λ a, a_set_lan_valid ok
        (a_set_lan (match lan with (0, Some l) => l | _ => a_lan a end) a)) p (nm_devs m)) (nm_registered m));;
      if bool_decide (err ≠ 0) then
        mmodify (λ m, mk_nm (nm_list m) (delete p (nm_devs m)) (nm_registered m));; mret err
      else
        mmodify (λ m, mk_nm (nm_list m) (alter (λ a, a_set_net (n_set_stopped true (a_net a)) a) p (nm_devs m))
          ({[p]} ∪ nm_registered m));;
        mret 0
  end.

(** [L4VMnet_client_exit_module] *)
Definition L4VMnet_client_exit_module : M net_module unit :=
  m ← mget;
  match nm_list m with
  | None => mret tt
  | Some p =>
      (if decide (is_Some (nm_devs m !! p)) then mret tt else mfault DanglingDeref);;
      mmodify (λ m, mk_nm None (delete p (nm_devs m)) (nm_registered m ∖ {[p]}))
  end.

(** ** Announcing packets to the server *)

(** [L4VMnet_trigger_send]: [w] are the words of the server's status area,
    [reply_ok] whether the main thread of the server takes the message. *)
Definition L4VMnet_trigger_send (server_irq_no server_main_tid server_irq_tid : Z) (reply_ok : bool)
    (w : irq_words) : irq_words * list l4_event :=
  let st := u32 (Z.lor (irq_status w) 1) in
  if irq_pending w then (mk_irq st true, []) else
  (mk_irq st true,
   EvSendVirq server_irq_no server_main_tid ::
     (if reply_ok then [] else [EvSendVirq server_irq_no server_irq_tid])).

(** [L4VMnet_flush_tasklet_handler] of the client *)
Definition client_flush_tasklet_handler := L4VMnet_trigger_send.

(** ** What an adapter holds *)

Definition oset (o : option positive) : gset positive := match o with Some p => {[p]} | None => ∅ end.
Definition grp_memory (g : group) : gset positive := oset (gp_shadow g) ∪ oset (gp_desc g).
(** The kernel memory an adapter owns. *)
Definition owned (a : adapter) : gset positive := oset (a_send_shadow a) ∪ ⋃ (grp_memory <$> a_groups a).

(** The mappings made and not released. *)
Definition vm_step (l : list Z) (e : nc_event) : list Z :=
  match e with
  | NcVm (EvIoremap _ x) => if decide (x = 0) then l else x :: l
  | NcVm (EvIounmap x) => match l with [] => [] | y :: l => if decide (y = x) then l else y :: l end
  | _ => l
  end.
Definition vm_live (evs : list nc_event) : list Z := foldl vm_step [] evs.

(** The calls to the server, the wedge and Linux' interrupt handling. *)
Definition call_of (e : nc_event) : option nc_event :=
  match e with NcVm _ | NcThread _ => None | e => Some e end.
Definition calls (evs : list nc_event) : list nc_event := omap call_of evs.
Lemma calls_app evs evs' : calls (evs ++ evs') = calls evs ++ calls evs'.
Proof. apply omap_app. Qed.
Lemma calls_vm es : calls (NcVm <$> es) = [].
Proof. by induction es. Qed.
Lemma calls_threads es : calls (NcThread <$> es) = [].
Proof. by induction es. Qed.

Lemma vm_live_app evs evs' : vm_live (evs ++ evs') = foldl vm_step (vm_live evs) evs'.
Proof. apply foldl_app. Qed.
Lemma vm_live_quiet evs evs' :
  Forall (λ e, match e with NcVm _ => False | _ => True end) evs' → vm_live (evs ++ evs') = vm_live evs.
Proof.
  rewrite vm_live_app. generalize (vm_live evs). induction evs' as [|e evs' IH]; [done|].
  intros l [He Hl]%list.Forall_cons. simpl. destruct e; simpl; auto; done.
Qed.

Section theory.
Context {E : NetOpenEnv}.

(** A window is one mapping that starts below the flexpage, or none. *)
Lemma vmarea_get_live n evs :
  let '((err, o), es) := L4VM_fpage_vmarea_get ioremap n in
  match o with
  | Some w => ∃ x, err = 0 ∧ ioremap_addr w = Some x ∧ x ≤ L4_Address (vm_fpage w) ∧
      vm_live (evs ++ (NcVm <$> es)) = x :: vm_live evs
  | None => err = - ENOMEM ∧ vm_live (evs ++ (NcVm <$> es)) = vm_live evs
  end.
Proof.
  unfold L4VM_fpage_vmarea_get. set (req := if bool_decide (n < VmMemory.PAGE_SHIFT) then VmMemory.PAGE_SHIFT else n). cbv zeta.
  assert (VmMemory.PAGE_SHIFT ≤ req) as Hreq by (unfold req; case_bool_decide; lia).
  set (x := ioremap [] _). case_bool_decide as H0; [rewrite vm_live_app; done|].
  pose proof (ioremap_nonneg [] (2 ^ req)) as Hx. fold x in Hx.
  case_bool_decide as Ha; cbn [L4VM_fpage_vmarea_release ioremap_addr].
  - exists x. rewrite vm_live_app. simpl in *. rewrite decide_False by done. split_and!; [done..|lia|done].
  - set (y := ioremap ([_] ++ _) _). pose proof (ioremap_nonneg ([EvIoremap (2 ^ req) x] ++ [EvIounmap x]) (2 ^ (req + 1))) as Hy.
    fold y in Hy. case_bool_decide as Hy0.
    + rewrite vm_live_app. simpl. rewrite decide_False by done. by rewrite !decide_True.
    + exists y. rewrite vm_live_app. simpl. rewrite !(decide_False (P := x = 0)), (decide_True (P := x = x)),
        (decide_False (P := y = 0)) by done. split_and!; [done..| |done].
      assert (0 < 2 ^ req) by (apply Z.pow_pos_nonneg; unfold VmMemory.PAGE_SHIFT in *; lia).
      pose proof (Z.mod_pos_bound (y + 2 ^ req) (2 ^ req)). simpl. lia.
Qed.

Lemma do_kmalloc_spec a :
  let r := kmalloc (a_kcalls a) (a_kheap a) in
  do_kmalloc a = Ok r (a_set_kheap (oset r ∪ a_kheap a) (a_set_kcalls (S (a_kcalls a)) a)).
Proof.
  unfold do_kmalloc, mget, mmodify, mbind, M_bind. cbv zeta. destruct (kmalloc _ _) as [p|]; [done|].
  simpl. rewrite union_empty_l_L. by destruct a.
Qed.

Lemma kfree_spec o a : oset o ⊆ a_kheap a → kfree o a = Ok tt (a_set_kheap (a_kheap a ∖ oset o) a).
Proof.
  destruct o as [p|]; simpl; intros Hp.
  - unfold mgets, mbind, M_bind. rewrite decide_True by set_solver. done.
  - unfold mret, M_ret. rewrite difference_empty_L. by destruct a.
Qed.

Lemma open_free_rcv_spec a g :
  a_groups a = [g] → grp_memory g ⊆ a_kheap a → oset (gp_shadow g) ## oset (gp_desc g) →
  open_free_rcv a = Ok tt (a_set_kheap (a_kheap a ∖ grp_memory g) a).
Proof.
  intros Hg Hsub Hdis. unfold grp_memory in *. unfold open_free_rcv, for_groups, NR_RCV_GROUP. cbn [each_group].
  assert (load_group 0 a = Ok g a) as Hl by (unfold load_group, mgets, mbind, M_bind; by rewrite Hg).
  erewrite bind_ok; [reflexivity|]. rewrite (bind_ok _ _ _ _ _ Hl). cbv beta.
  erewrite bind_ok by (apply kfree_spec; set_solver). rewrite kfree_spec by (cbn; set_solver).
  cbn. by rewrite difference_difference_l_L.
Qed.

Lemma open_free_send_spec a g :
  a_groups a = [g] → owned a ⊆ a_kheap a → oset (gp_shadow g) ## oset (gp_desc g) →
  oset (a_send_shadow a) ## grp_memory g →
  open_free_send a = Ok tt (a_set_kheap (a_kheap a ∖ owned a) a).
Proof.
  intros Hg Hsub Hdis Hs. unfold owned in *. rewrite Hg in *. cbn in Hsub.
  unfold open_free_send. erewrite bind_ok by done. cbv beta.
  erewrite bind_ok by (apply kfree_spec; set_solver).
  rewrite (open_free_rcv_spec _ g) by (done || (cbn; set_solver)).
  cbn. rewrite difference_difference_l_L. by rewrite union_empty_r_L.
Qed.

Definition released (a : adapter) : adapter :=
  a_set_kheap (a_kheap a ∖ owned a)
    (a_set_trace (a_trace a ++ (NcVm <$> (L4VM_fpage_vmarea_release (a_window a)).2))
      (a_set_window (L4VM_fpage_vmarea_release (a_window a)).1 a)).

Lemma open_release_spec a g :
  a_groups a = [g] → owned a ⊆ a_kheap a → oset (gp_shadow g) ## oset (gp_desc g) →
  oset (a_send_shadow a) ## grp_memory g → open_release a = Ok tt (released a).
Proof.
  intros Hg Hsub Hdis Hs. unfold open_release. erewrite bind_ok by done. cbv beta.
  destruct (L4VM_fpage_vmarea_release (a_window a)) as [w evs] eqn:Hw.
  erewrite bind_ok by done. cbv beta. erewrite bind_ok by done. cbv beta.
  rewrite (open_free_send_spec _ g) by done. unfold released. rewrite Hw. done.
Qed.

(** [a] owns a send shadow and a receive group in memory of its own, and the
    window [x], on top of what [a0] held. *)
Record holding (a0 a : adapter) (x : Z) : Prop := {
  hd_group : ∃ g, a_groups a = [g] ∧ oset (gp_shadow g) ## oset (gp_desc g) ∧
    oset (a_send_shadow a) ## grp_memory g;
  hd_heap : a_kheap a = owned a ∪ a_kheap a0;
  hd_fresh : owned a ## a_kheap a0;
  hd_window : ioremap_addr (a_window a) = Some x;
  hd_vm : vm_live (a_trace a) = x :: vm_live (a_trace a0)
}.
(** The calls since [a0] neither registered an interrupt nor started the server. *)
Definition only_asked (a0 a : adapter) : Prop :=
  ∃ l, calls (a_trace a) = calls (a_trace a0) ++ l ∧
    Forall (λ e, match e with NcAttach _ | NcAddVirq _ => True | _ => False end) l.

(** The group with the allocations of [g]. *)
Definition same_memory (g g' : group) : Prop := gp_shadow g' = gp_shadow g ∧ gp_desc g' = gp_desc g.

Lemma Forall2_same_refl l : Forall2 same_memory l l.
Proof. induction l; constructor; done. Qed.

Lemma holding_frame a0 a a' x :
  holding a0 a x → a_send_shadow a' = a_send_shadow a → Forall2 same_memory (a_groups a) (a_groups a') →
  a_kheap a' = a_kheap a → a_window a' = a_window a → vm_live (a_trace a') = vm_live (a_trace a) →
  holding a0 a' x.
Proof.
  intros [(g & Hg & H1 & H2) H3 H4 H5 H6] Hs Hf Hk Hw Ht.
  rewrite Hg in Hf. apply Forall2_cons_inv_l in Hf as (g' & l & [Hsh Hds] & Hn & Hg').
  apply Forall2_nil_inv_l in Hn as ->.
  assert (owned a' = owned a) as Ho.
  { unfold owned. rewrite Hs, Hg, Hg'. cbn. unfold grp_memory. by rewrite Hsh, Hds. }
  split; rewrite ?Ho; try (done || congruence). exists g'. unfold grp_memory. rewrite Hsh, Hds, Hs. done.
Qed.

Lemma holding_release a0 a x :
  holding a0 a x → open_release a = Ok tt (released a) ∧
    a_kheap (released a) = a_kheap a0 ∧ vm_live (a_trace (released a)) = vm_live (a_trace a0).
Proof.
  intros [(g & Hg & H1 & H2) H3 H4 H5 H6]. split_and!.
  - apply (open_release_spec a g); [done| |done|done]. rewrite H3. set_solver.
  - cbn. rewrite H3. set_solver.
  - cbn. rewrite H5. cbn. rewrite vm_live_app, H6. simpl. by rewrite decide_True.
Qed.

(** ** Outcomes of [L4VMnet_open] *)

(** The send ring and the receive ring as [L4VMnet_open] leaves them: empty and
    zeroed, everything else as it was. *)
Definition send_opened (n : net) : net :=
  mk_net 0 0 (replicate nring None) false (replicate nring zero_desc) (n_srv_free n) (n_inflight n) (n_next n) (n_events n).
Definition rcv_opened (g : rcv_group) : rcv_group :=
  mk_group 0 (replicate rcv_cnt zero_rdesc) 0 0 (replicate rcv_cnt None) (g_thread g) (g_mem g) (g_next g) (g_events g).

(** Group 0 has a thread that looks for buffers and that the server knows of, or
    none. *)
Definition thread_ready (g : group) (w : shared_words) : Prop :=
  if decide (gp_tid g = L4_nilthread) then sh_receiver_cnt w = 0
  else g_thread (gp_rcv g) = TPrepare ∧ sh_receiver_cnt w = 1 ∧ zlookup (sh_tids w) 0 = Some (gp_tid g).

Record opened (a0 a : adapter) : Prop := {
  od_connected : a_connected a = true;
  od_holding : ∃ x, holding a0 a x;
  od_send : a_net a = send_opened (a_net a0);
  od_groups : ∃ g0 g, a_groups a0 = [g0] ∧ a_groups a = [g] ∧ thread_ready g (a_shared a) ∧ gp_mask g = 2 ^ 32 - 1 ∧
    gp_rcv g = if decide (gp_tid g = L4_nilthread) then rcv_opened (gp_rcv g0)
               else g_set_thread TPrepare (rcv_opened (gp_rcv g0));
  od_shared : sh_irq_tid (a_shared a) = vcpu_irq_gtid ∧ sh_irq_pending (a_shared a) = 0;
  od_irq : a_irq_pending a = false ∧ a_irq a = if decide (a_irq a0 = 0) then 9 else a_irq a0;
  od_server : a_server_tid a = locate_server.2 ∧ a_handle a = attach_reply.2.1;
  od_calls : calls (a_trace a) = calls (a_trace a0) ++
    [NcAttach (a_lan a); NcAddVirq (a_irq a); NcRequestIrq (a_irq a); NcStart (a_server_tid a) (a_handle a)]
}.

(** Nothing is held, except for a send shadow when a receive ring could not be
    allocated. *)
Record refused (a0 a : adapter) (leak : bool) : Prop := {
  rf_connected : a_connected a = false;
  rf_vm : vm_live (a_trace a) = vm_live (a_trace a0);
  rf_calls : only_asked a0 a;
  rf_heap : a_kheap a = (if leak then oset (a_send_shadow a) else ∅) ∪ a_kheap a0;
  rf_leak : leak = true → a_send_shadow a ≠ None ∧ oset (a_send_shadow a) ## a_kheap a0
}.

(** The outcome of a call: connected, or refused with an error; the one refusal
    that is not reported is an interrupt number out of range. *)
Definition open_outcome (a0 : adapter) (err : Z) (a : adapter) : Prop :=
  (err = 0 ∧ opened a0 a) ∨
  (∃ leak, refused a0 a leak ∧ (leak = true → err = - ENOMEM) ∧ (err = 0 → nr_irqs < a_irq a0)).

(** The wedge starts a thread on every stack it is given. *)
Definition wedge_creates : Prop := ∀ s, wedge_create s ≠ L4_nilthread.

Lemma wp_start_thread a g Q :
  wedge_creates → a_groups a = [g] → length (sh_tids (a_shared a)) = IVMnet_max_receiver_cnt →
  sh_receiver_cnt (a_shared a) = 0 →
  (∀ g' w evs, Forall (λ e, match e with NcVm _ => False | _ => True end) evs → calls evs = [] →
     same_memory g g' → gp_mask g' = gp_mask g → thread_ready g' w →
     gp_rcv g' = (if decide (gp_tid g' = L4_nilthread) then gp_rcv g else g_set_thread TPrepare (gp_rcv g)) →
     sh_irq_tid w = sh_irq_tid (a_shared a) → sh_irq_pending w = sh_irq_pending (a_shared a) →
     Q tt (a_set_shared w (a_set_groups [g'] (a_set_trace (a_trace a ++ evs) a)))) →
  wp no_fault (for_groups open_start_thread) Q a.
Proof.
  intros Hwedge Hg Hlen Hcnt HQ. unfold for_groups, NR_RCV_GROUP. cbn [each_group]. apply wp_bind.
  apply wp_mono with (P := λ _ a', Q tt a'); [|intros [] a' H; exact H]. unfold open_start_thread.
  pose proof (thread_create_stack true 8 (thread_pages 0) wedge_create []) as Hc.
  destruct (L4VM_thread_create true 8 (thread_pages 0) wedge_create []) as [tid evs|f].
  2: { destruct Hc as (_ & _ & _ & _ & Hc). by apply Hwedge in Hc. }
  assert (Forall (λ e, match e with NcVm _ => False | _ => True end) (NcThread <$> evs)) as Hev.
  { apply list.Forall_fmap, list.Forall_true. done. }
  apply wp_bind. unfold nc_emits. apply wp_mmodify, wp_bind. unfold alter_group at 1, load_group.
  apply wp_bind, wp_bind, wp_mgets. cbn [a_groups a_set_trace]. rewrite Hg. apply wp_mret, wp_mmodify.
  cbn [a_groups a_set_trace]. rewrite Hg. case_bool_decide as Ht.
  - apply wp_mret.
    refine (HQ (mk_grp (gp_no g) tid (gp_mask g) (gp_cnt g) (gp_shadow g) (gp_desc g) (gp_rcv g))
      (a_shared a) (NcThread <$> evs) Hev (calls_threads _) _ _ _ _ _ _); try done.
    + unfold thread_ready. by rewrite decide_True.
    + by rewrite decide_True.
  - apply wp_bind. unfold alter_group, load_group. apply wp_bind, wp_bind, wp_mgets. apply wp_mret, wp_mmodify.
    apply wp_bind, wp_mgets. cbn [a_shared a_set_groups a_set_trace]. rewrite Hcnt.
    assert (∃ t l, sh_tids (a_shared a) = t :: l) as (t & l & Hl) by (destruct (sh_tids (a_shared a)); [done|eauto]).
    rewrite Hl. apply wp_bind. rewrite decide_True by done. apply wp_mret, wp_mmodify.
    refine (HQ (mk_grp (gp_no g) tid (gp_mask g) (gp_cnt g) (gp_shadow g) (gp_desc g) (g_set_thread TPrepare (gp_rcv g)))
      (mk_shw (sh_irq_tid (a_shared a)) (sh_irq_pending (a_shared a)) (0 + 1) (zinsert 0 tid (t :: l)))
      (NcThread <$> evs) Hev (calls_threads _) _ _ _ _ _ _); try done.
    + unfold thread_ready. by rewrite decide_False.
    + by rewrite decide_False.
Qed.

Lemma refuse_release a0 a x err :
  holding a0 a x → a_connected a = false → only_asked a0 a → (err = 0 → nr_irqs < a_irq a0) →
  wp no_fault (open_release;; mret err) (open_outcome a0) a.
Proof.
  intros Hh Hc (l & Hl & Hf) He. destruct (holding_release a0 a x Hh) as (Hr & Hk & Hv).
  apply wp_bind. eapply wp_run; [exact Hr|]. apply wp_mret. right. exists false. split_and!; [|done|done].
  split; [done..| | |done].
  - exists l. split; [|done]. cbn. by rewrite calls_app, calls_vm, app_nil_r.
  - rewrite Hk. set_solver.
Qed.

(** A loop over the one group. *)
Lemma wp_alter_groups a g (f : Z → group → group) Q :
  a_groups a = [g] → Q tt (a_set_groups [f 0 g] a) → wp no_fault (for_groups (λ i, alter_group i (f i))) Q a.
Proof.
  intros Hg HQ. unfold for_groups, NR_RCV_GROUP. cbn [each_group]. apply wp_bind.
  unfold alter_group, load_group. apply wp_bind, wp_bind, wp_mgets. rewrite Hg. apply wp_mret, wp_mmodify, wp_mret.
  rewrite Hg. exact HQ.
Qed.

Lemma open_start_spec a0 a x g0 g :
  wedge_creates → holding a0 a x → a_connected a = false → a_irq a = a_irq a0 → a_groups a0 = [g0] → a_groups a = [g] →
  n_set_stopped false (a_net a) = send_opened (a_net a0) → gp_rcv g = rcv_opened (gp_rcv g0) →
  length (sh_tids (a_shared a)) = IVMnet_max_receiver_cnt → sh_receiver_cnt (a_shared a) = 0 →
  sh_irq_pending (a_shared a) = 0 → a_irq_pending a = false → a_server_tid a = locate_server.2 → a_handle a = attach_reply.2.1 →
  calls (a_trace a) = calls (a_trace a0) ++ [NcAttach (a_lan a)] →
  wp no_fault (open_start 0) (open_outcome a0) a.
Proof.
  intros Hwedge Hh Hc Hirq Hg0 Hg Hsend Hrcv Hlen Hcnt Hpend Hpend' Hsrv Hhdl Hcalls. unfold open_start. apply wp_bind, wp_mget.
  case_bool_decide as Hnr; [apply (refuse_release a0 a x); [done..| |congruence]|].
  { eexists. split; [exact Hcalls|]. by repeat constructor. }
  apply wp_bind, wp_mono with (P := λ _ a', a' = a_set_irq (if decide (a_irq a0 = 0) then 9 else a_irq a0) a).
  { rewrite Hirq. case_bool_decide; [apply wp_mmodify; by rewrite decide_True|].
    apply wp_mret. rewrite decide_False, <- Hirq by done. by destruct a. }
  intros _ _ ->. set (n := if decide (a_irq a0 = 0) then 9 else a_irq a0). apply wp_bind, wp_mgets, wp_bind. unfold nc_emit at 1. apply wp_mmodify.
  set (a1 := a_set_trace _ _).
  assert (holding a0 a1 x) as Hh1.
  { eapply holding_frame; [exact Hh|..]; try done; [apply Forall2_same_refl|apply vm_live_quiet; by repeat constructor]. }
  case_bool_decide as Hreq; [apply (refuse_release a0 a1 x); [done..| |lia]|].
  { eexists. split; [cbn; rewrite calls_app, Hcalls, <- app_assoc; reflexivity|]. by repeat constructor. }
  apply wp_bind. unfold nc_emit at 1. apply wp_mmodify, wp_bind, wp_mmodify, wp_bind.
  set (a2 := a_set_shared _ _).
  assert (holding a0 a2 x) as Hh2.
  { eapply holding_frame; [exact Hh1|..]; try done; [apply Forall2_same_refl|apply vm_live_quiet; by repeat constructor]. }
  apply (wp_start_thread a2 g); [done..|]. intros g' w evs Hev Hevc Hmem Hmask Htr Hrv Hit Hip.
  apply wp_bind, wp_mmodify, wp_bind. unfold L4VMnet_server_start, nc_emit. apply wp_bind, wp_mget, wp_mmodify.
  apply wp_bind. unfold netif_wake_queue. apply wp_mmodify, wp_bind.
  apply (wp_alter_groups _ g' (λ _ g, _)); [done|]. apply wp_mret. left. split; [done|]. split.
  - done.
  - exists x. eapply holding_frame; [exact Hh2|..]; try done.
    + change (Forall2 same_memory (a_groups a) [mk_grp (gp_no g') (gp_tid g') (2 ^ 32 - 1) (gp_cnt g') (gp_shadow g') (gp_desc g') (gp_rcv g')]).
      rewrite Hg. by repeat constructor; apply Hmem.
    + cbn [a_set_groups a_set_net a_set_trace a_set_connected a_set_shared a_trace].
      rewrite <- app_assoc. apply vm_live_quiet. apply list.Forall_app. split; [done|by repeat constructor].
  - exact Hsend.
  - eexists g0, _. split_and!; [done|reflexivity|exact Htr|reflexivity|]. cbn [gp_rcv gp_tid]. by rewrite Hrv, Hrcv.
  - cbn. rewrite Hit, Hip. split; [done|exact Hpend].
  - done.
  - done.
  - cbn [a_set_groups a_set_net a_set_trace a_set_connected a_set_shared a_set_irq a_trace a_lan a_irq a_server_tid a_handle a2 a1].
    rewrite !calls_app, Hcalls, Hevc, app_nil_r, <- !app_assoc. done.
Qed.

Lemma wp_init_rings a g n0 r0 h b1 b2 Q :
  a_groups a = [g] → a_send_cnt a = ncnt → gp_cnt g = gcnt →
  a_net a = n_set_dirty 0 (n_set_free 0 n0) → gp_rcv g = g_set_dirty 0 (g_set_free 0 r0) →
  (∀ a' g', a_groups a' = [g'] → same_memory g g' → a_send_shadow a' = a_send_shadow a →
     a_kheap a' = a_kheap a → a_window a' = a_window a → a_trace a' = a_trace a →
     a_connected a' = a_connected a → a_irq a' = a_irq a → n_set_stopped false (a_net a') = send_opened n0 →
     gp_rcv g' = rcv_opened r0 → sh_tids (a_shared a') = sh_tids (a_shared a) → sh_receiver_cnt (a_shared a') = 0 →
     sh_irq_pending (a_shared a') = 0 → a_irq_pending a' = false → a_server_tid a' = a_server_tid a → a_handle a' = h →
     a_lan a' = a_lan a → Q tt a') →
  wp no_fault (open_init_rings h b1 b2) Q a.
Proof.
  intros Hg Hs Hc Hn Hr HQ. unfold open_init_rings. apply wp_bind, wp_mmodify, wp_bind, wp_mget.
  cbv zeta. apply wp_bind, wp_mmodify, wp_bind, wp_mmodify, wp_bind, wp_mmodify, wp_bind.
  apply (wp_alter_groups _ g (λ _ g, _)); [exact Hg|]. apply wp_bind, wp_mmodify.
  eapply (wp_alter_groups _ _ (λ i g, _)); [reflexivity|]. eapply HQ; [reflexivity|done..| | |done|done|done|done|done|done|done].
  - cbn -[replicate Z.to_nat]. rewrite Hs, Hn. done.
  - cbn -[replicate Z.to_nat rcv_cnt]. rewrite Hc, Hr. done.
Qed.

Lemma open_attach_spec a0 a g0 g :
  wedge_creates → a_groups a0 = [g0] → a_groups a = [g] → oset (gp_shadow g) ## oset (gp_desc g) →
  oset (a_send_shadow a) ## grp_memory g → a_kheap a = owned a ∪ a_kheap a0 → owned a ## a_kheap a0 →
  vm_live (a_trace a) = vm_live (a_trace a0) → a_connected a = false → a_irq a = a_irq a0 →
  a_send_cnt a = ncnt → gp_cnt g = gcnt →
  a_net a = n_set_dirty 0 (n_set_free 0 (a_net a0)) → gp_rcv g = g_set_dirty 0 (g_set_free 0 (gp_rcv g0)) →
  length (sh_tids (a_shared a)) = IVMnet_max_receiver_cnt →
  a_server_tid a = locate_server.2 → calls (a_trace a) = calls (a_trace a0) →
  wp no_fault open_attach (open_outcome a0) a.
Proof.
  intros Hwedge Hg0 Hg H1 H2 H3 H4 Hv Hc Hirq Hs Hcnt Hn Hr Hlen Hsrv Hcalls. unfold open_attach.
  pose proof (vmarea_get_live (Z.log2_up (shared_sizes.1 + shared_sizes.2)) (a_trace a)) as Hw.
  destruct (L4VM_fpage_vmarea_get _ _) as [[err [w|]] es].
  - destruct Hw as (x & -> & Hx & Hle & Hlive).
    apply wp_bind. unfold nc_emits. apply wp_mmodify, wp_bind, wp_mmodify, wp_bind. rewrite Hx. cbn [mof_option].
    apply wp_mret, wp_bind, wp_massert; [by rewrite bool_decide_eq_true_2|]. intros _.
    apply wp_bind, wp_mget, wp_bind. unfold nc_emit. apply wp_mmodify. set (a1 := a_set_trace _ _).
    assert (holding a0 a1 x) as Hh1.
    { split; [by exists g|exact H3|exact H4|exact Hx|].
      cbn [a1 a_trace a_set_trace a_set_window]. rewrite vm_live_quiet by (by repeat constructor).
      rewrite Hlive. by f_equal. }
    assert (calls (a_trace a1) = calls (a_trace a0) ++ [NcAttach (a_lan a1)]) as Hcalls1.
    { cbn [a1 a_trace a_lan a_set_trace a_set_window]. by rewrite !calls_app, calls_vm, app_nil_r, Hcalls. }
    destruct attach_reply as [[| |] [h [b1 b2]]] eqn:Hreply;
      [|apply (refuse_release a0 a1 x); [done..|eexists; split; [exact Hcalls1|by repeat constructor]|unfold CmdRing.EIO; lia]..].
    apply wp_bind. apply (wp_init_rings a1 g (a_net a0) (gp_rcv g0)); [done..|]. intros a2 g2 Hg2 Hm Hsh Hk Hwin Ht Hcon Hir Hsr Hrr Htid Hrc Hpe Hpe' Hst Hh2 Hlan.
    apply (open_start_spec a0 a2 x g0 g2); [done| |by rewrite Hcon|by rewrite Hir|done|done|done|done|by rewrite Htid|done|done|done|by rewrite Hst|by rewrite Hreply|by rewrite Ht, Hlan].
    eapply holding_frame; [exact Hh1|done| |done|done|by rewrite Ht].
    change (a_groups a1) with (a_groups a). rewrite Hg, Hg2. by repeat constructor; apply Hm.
  - destruct Hw as (-> & Hlive). apply wp_bind. unfold nc_emits. apply wp_mmodify, wp_bind.
    eapply wp_run; [apply (open_free_send_spec _ g); [done| |done|done]|].
    { change (owned a ⊆ a_kheap a). rewrite H3. set_solver. }
    apply wp_mret. right. exists false. split_and!; [|done|unfold ENOMEM; lia].
    split; [done| | | |done].
    2:{ exists []. split; [|by constructor]. cbn. by rewrite calls_app, calls_vm, !app_nil_r. }
    { change (vm_live (a_trace a ++ (NcVm <$> es)) = vm_live (a_trace a0)). by rewrite Hlive. }
    change (a_kheap a ∖ owned a = ∅ ∪ a_kheap a0). rewrite H3. set_solver.
Qed.

Lemma open_alloc_rcv_spec a g Q :
  a_groups a = [g] → gp_cnt g = gcnt → gp_shadow g = None → gp_desc g = None →
  (∀ g' n (ok : bool), a_kheap a ## grp_memory g' → oset (gp_shadow g') ## oset (gp_desc g') →
     gp_cnt g' = gcnt → gp_rcv g' = gp_rcv g →
     Q ok (a_set_groups [g'] (a_set_kcalls n (a_set_kheap (grp_memory g' ∪ a_kheap a) a)))) →
  wp no_fault (open_alloc_rcv NR_RCV_GROUP 0) Q a.
Proof.
  intros Hg Hcnt _ _ HQ. unfold NR_RCV_GROUP. cbn [open_alloc_rcv].
  apply wp_bind. eapply wp_run; [apply do_kmalloc_spec|]. set (sh := kmalloc _ _).
  assert (a_kheap a ## oset sh) as Hsh.
  { destruct sh as [p|] eqn:Hk; [|set_solver]. apply kmalloc_fresh in Hk. set_solver. }
  apply wp_bind. unfold alter_group, load_group. apply wp_bind, wp_bind, wp_mgets.
  cbn [a_groups a_set_kheap a_set_kcalls]. rewrite Hg. apply wp_mret, wp_mmodify.
  cbn [a_groups a_set_kheap a_set_kcalls]. rewrite Hg. change (zinsert 0 ?x [g]) with [x].
  apply wp_bind. eapply wp_run; [apply do_kmalloc_spec|]. set (ds := kmalloc _ _).
  assert (oset sh ∪ a_kheap a ## oset ds) as Hds.
  { destruct ds as [p|] eqn:Hk; [|set_solver]. apply kmalloc_fresh in Hk. simpl in Hk. set_solver. }
  apply wp_bind, wp_bind, wp_bind, wp_mgets. apply wp_mret, wp_mmodify. apply wp_bind, wp_bind, wp_mgets.
  change (zinsert 0 ?x [?y]) with [x]. apply wp_mret.
  set (g' := grp_set_desc ds (grp_set_shadow sh g)).
  assert (∀ ok : bool, wp no_fault (mret ok) Q
    (a_set_groups [g'] (a_set_kcalls (S (S (a_kcalls a))) (a_set_kheap (grp_memory g' ∪ a_kheap a) a)))) as Hok.
  { intros ok. apply wp_mret. apply HQ; try done; unfold g', grp_memory; cbn; set_solver. }
  replace (grp_memory g' ∪ a_kheap a) with (oset ds ∪ (oset sh ∪ a_kheap a)) in Hok
    by (unfold g', grp_memory; cbn; set_solver).
  case_match; apply Hok.
Qed.

Lemma open_completes a :
  wedge_creates → a_connected a = false → length (a_groups a) = NR_RCV_GROUP →
  length (sh_tids (a_shared a)) = IVMnet_max_receiver_cnt →
  wp no_fault L4VMnet_open (open_outcome a) a.
Proof.
  intros Hwedge Hc Hlen Htid. destruct (a_groups a) as [|g [|? ?]] eqn:Hg; [done| |done].
  assert (∀ a' err, a_connected a' = false → vm_live (a_trace a') = vm_live (a_trace a) →
    calls (a_trace a') = calls (a_trace a) → a_kheap a' = a_kheap a → err ≠ 0 → open_outcome a err a') as Hrefuse.
  { intros a' err ? ? ? ? ?. right. exists false. split_and!; [|done..].
    split; [done..|exists []; by rewrite app_nil_r|set_solver|done]. }
  unfold L4VMnet_open. apply wp_bind, wp_mget. rewrite Hc. cbv zeta.
  case_bool_decide as Hl; [by apply wp_mret, Hrefuse|]. clear Hl.
  apply wp_bind, wp_mono with (P := λ _ a', ∃ l v, a' = a_set_lan_valid v (a_set_lan l a)).
  { destruct (a_lan_valid a) eqn:Hv; [apply wp_mret; exists (a_lan a), true; destruct a; simpl in *; by subst|].
    destruct lan_service.2 as [l|]; apply wp_bind; [apply wp_mmodify|apply wp_mret]; apply wp_mmodify;
      [by exists l, true|by exists (a_lan a), true]. }
  intros _ _ (l & v & ->). case_bool_decide as Hloc; [by apply wp_mret, Hrefuse|]. clear Hloc.
  apply wp_bind, wp_mmodify, wp_bind. unfold open_prepare_send. apply wp_bind, wp_mmodify, wp_mmodify, wp_bind.
  eapply wp_run; [apply do_kmalloc_spec|]. set (sh := kmalloc _ _).
  apply wp_bind, wp_mmodify. case_bool_decide as Hsh.
  { apply wp_mret, Hrefuse; [done..| |unfold ENOMEM; lia]. rewrite Hsh. cbn. set_solver. }
  assert (∃ p, sh = Some p) as [p Hp] by (destruct sh; [eauto|done]).
  assert (p ∉ a_kheap a) as Hpf by (apply (kmalloc_fresh _ _ _ Hp)).
  rewrite Hp. apply wp_bind. unfold open_prepare_rcv. apply (wp_alter_groups _ g (λ _ g, _)); [exact Hg|].
  apply wp_bind. eapply open_alloc_rcv_spec; [reflexivity|done..|]. intros g' n ok Hdis Hd Hcnt Hrv.
  simpl in Hdis. set (a1 := a_set_groups _ _).
  assert (a_kheap a1 = owned a1 ∪ a_kheap a) as Hk1 by (unfold owned; cbn; set_solver).
  destruct ok.
  - apply (open_attach_spec a a1 g g'); try done; cbn.
    + set_solver.
    + unfold owned; cbn. set_solver.
  - apply wp_bind. eapply wp_run; [apply (open_free_rcv_spec a1 g'); [done| |done]|].
    { rewrite Hk1. unfold owned; cbn. set_solver. }
    apply wp_mret. right. exists true. split_and!; [|done|unfold ENOMEM; lia]. split; [done|done|exists []; by rewrite app_nil_r| |].
    + rewrite Hk1. unfold owned; cbn. set_solver.
    + intros _. split; [done|]. cbn. set_solver.
Qed.
End theory.


(** ** From loading the module to running the protocols *)

(** When a device that was never open is connected, its rings are the initial
    states of the send protocol (NetSend.v) and, if the receiver thread could be
    started, of the receive protocol (NetRecvProtocol.v). *)
Lemma opened_protocols {E : NetOpenEnv} a0 a lan w irq lan' v b :
  a0 = a_set_lan lan' (a_set_lan_valid v (a_set_net (n_set_stopped b (a_net (adapter_zero lan w irq)))
         (adapter_zero lan w irq))) →
  opened a0 a →
  a_net a = net_init zero_desc ∧
  ∃ g, a_groups a = [g] ∧ (gp_tid g ≠ L4_nilthread → gp_rcv g = group_init).
Proof.
  intros -> [_ _ Hs (g0 & g & Hg0 & Hg & _ & _ & Hr) _]. split; [rewrite Hs; reflexivity|].
  exists g. split; [done|]. intros Ht. rewrite Hr, decide_False by done. injection Hg0 as <-. reflexivity.
Qed.

(** After [L4VMnet_close] and another [L4VMnet_open] the adapter is as before: the
    server is stopped and started again with the handle it gave out, and the
    queue of the device runs. Nothing is allocated or freed in between. *)
Lemma net_close_reopen {E : NetOpenEnv} a :
  a_connected a = true →
  ∃ a1 a2, L4VMnet_close a = Ok 0 a1 ∧ L4VMnet_open a1 = Ok 0 a2 ∧
    n_queue_stopped (a_net a1) = true ∧
    a2 = a_set_net (n_set_stopped false (a_net a))
      (a_set_trace (a_trace a ++ [NcStop (a_server_tid a) (a_handle a); NcStart (a_server_tid a) (a_handle a)]) a).
Proof.
  intros Hc. eexists _, _. split_and!; [reflexivity| |done|reflexivity].
  unfold L4VMnet_open. erewrite bind_ok by done. cbv beta. cbn [a_connected a_set_trace a_set_net]. rewrite Hc.
  unfold L4VMnet_server_start, netif_wake_queue, nc_emit, mbind, M_bind, mget, mmodify, mret, M_ret.
  unfold a_set_trace, a_set_net. cbn. by rewrite <- app_assoc.
Qed.

(** Loading the module and opening its device: the call of [L4VMnet_open] on the
    adapter that the initialisation leaves completes with one of its outcomes,
    and a connected adapter starts both protocols. *)
Theorem net_client_starts {E : NetOpenEnv} m p w irq lan m' a :
  wedge_creates → length (sh_tids w) = IVMnet_max_receiver_cnt →
  L4VMnet_client_init_module (Some p) w irq lan 0 m = Ok 0 m' → nm_devs m' !! p = Some a →
  ∃ err a', L4VMnet_open a = Ok err a' ∧ open_outcome a err a' ∧
    (a_connected a' = true → a_net a' = net_init zero_desc ∧
       ∃ g, a_groups a' = [g] ∧ (gp_tid g ≠ L4_nilthread → gp_rcv g = group_init)).
Proof.
  intros Hw Hlen Hinit Ha.
  assert (∃ lan' v, a = a_set_lan lan' (a_set_lan_valid v (a_set_net (n_set_stopped true (a_net (adapter_zero (replicate 6 0) w irq)))
    (adapter_zero (replicate 6 0) w irq)))) as (lan' & v & ->).
  { unfold L4VMnet_client_init_module in Hinit. cbn in Hinit. injection Hinit as <-. cbn in Ha.
    rewrite lookup_alter_eq, lookup_alter_eq, lookup_insert_eq in Ha. injection Ha as <-. by eexists _, _. }
  set (a := a_set_lan lan' _) in *.
  destruct (wp_no_fault _ _ _ (open_completes a Hw eq_refl eq_refl Hlen)) as (err & a' & Ho & Hout).
  exists err, a'. split_and!; [done..|]. intros Hc. destruct Hout as [[_ Hop]|(lk & Hr & _)].
  - eapply opened_protocols; [reflexivity|exact Hop].
  - by rewrite (rf_connected _ _ _ Hr) in Hc.
Qed.

(** ** A sample environment *)

Definition sample_kmalloc (n : nat) (X : gset positive) : option positive := Some (fresh X).
#[global] Program Instance sample_open : NetOpenEnv := {
  lan_service := (0, Some [2; 0; 0; 0; 0; 1]);
  locate_server := (CORBA_NO_EXCEPTION, 77);
  kmalloc := sample_kmalloc;
  ioremap := λ _ _, 65536;
  attach_reply := (CORBA_NO_EXCEPTION, (1, (0, 8192)));
  shared_sizes := (8192, 4096);
  nr_irqs := 16;
  request_irq := 0;
  vcpu_irq_gtid := 21;
  thread_pages := λ _, 4194304;
  wedge_create := λ _, 33
}.
Next Obligation. intros n X p [= <-]. apply is_fresh. Qed.
Next Obligation. lia. Qed.

Definition sample_words : shared_words := mk_shw 0 0 0 (replicate IVMnet_max_receiver_cnt 0).
Definition sample_adapter (irq : Z) : adapter := adapter_zero (replicate 6 0) sample_words irq.
Definition opened_adapter (irq : Z) : adapter :=
  match L4VMnet_open (sample_adapter irq) with Ok _ a => a | Err _ => sample_adapter irq end.


Lemma net_client_starts_witness :
  ∃ m' a, L4VMnet_client_init_module (Some 1%positive) sample_words 0 (0, Some [2; 0; 0; 0; 0; 1]) 0
      (mk_nm None ∅ ∅) = Ok 0 m' ∧ nm_devs m' !! 1%positive = Some a ∧
    ∃ err a', L4VMnet_open a = Ok err a' ∧ open_outcome a err a'.
Proof.
  set (r := L4VMnet_client_init_module (Some 1%positive) sample_words 0 (0, Some [2; 0; 0; 0; 0; 1]) 0 (mk_nm None ∅ ∅)).
  assert (match r with Ok e m' => (e, bool_decide (is_Some (nm_devs m' !! 1%positive))) | Err _ => (1, false) end = (0, true))
    as Hr by (vm_compute; reflexivity).
  destruct r as [e m'|f] eqn:Hm; [|discriminate Hr]. injection Hr as -> [a Ha]%bool_decide_eq_true.
  exists m', a. split_and!; [reflexivity|exact Ha|].
  destruct (net_client_starts (mk_nm None ∅ ∅) 1%positive sample_words 0 (0, Some [2; 0; 0; 0; 0; 1]) m' a)
    as (err & a' & Ho & Hout & _); [done|reflexivity|exact Hm|exact Ha|]. eauto.
Defined.

(** With an interrupt number beyond [NR_IRQS] the adapter is released and not
    connected, and the caller is told that the device is open; the server keeps
    the client attached. *)
Lemma open_bad_irq_reports_success :
  ∃ a', L4VMnet_open (sample_adapter 17) = Ok 0 a' ∧ a_connected a' = false ∧ a_kheap a' = ∅ ∧
    NcAttach [2; 0; 0; 0; 0; 1] ∈ a_trace a'.
Proof.
  assert (wedge_creates) as Hw by done.
  destruct (wp_no_fault _ _ _ (open_completes (sample_adapter 17) Hw eq_refl eq_refl eq_refl)) as (err & a' & Ho & _).
  assert (match L4VMnet_open (sample_adapter 17) with
    | Ok e a => (e, a_connected a, bool_decide (a_kheap a = ∅), bool_decide (length (a_trace a) = 3%nat), a_trace a !! 1%nat)
    | Err _ => (1, true, false, false, None) end = (0, false, true, true, Some (NcAttach [2; 0; 0; 0; 0; 1])))
    as Hc by (vm_compute; reflexivity).
  rewrite Ho in Hc. injection Hc as -> Hc Hk _ Ht. exists a'. split_and!; [done|done| |].
  - by apply bool_decide_eq_true in Hk.
  - by apply list_elem_of_lookup_2 with 1%nat.
Qed.
