(* ===== verification/Dp83820.v ===== *)
(** * The network server: the DP83820 transmit ring

    Models the part of l4ka-driver-reuse/kernel/net/server.c that serves clients
    with an emulated DP83820 network card: the descriptors of the client's transmit
    ring are linked by guest-physical addresses, and the server follows the
    transmit descriptor pointer (TXDP) of the emulated registers. Descriptors are
    wrapped into socket buffers, handed to the real device, and given back to the
    client when the device has sent them. The device may finish packets in any
    order. Address translations and the socket buffer allocator are parameters. *)

From Stdlib Require Import ZArith Lia.
From stdpp Require Import base list gmap numbers relations.
From S2P Require Import Prelude CmdRing Net.

(** ** Data *)

(** [IVMnet_dp83820_descriptor_t]: the fields the server uses. *)
Record dp_desc : Type := mk_dpd {
  dd_link : Z;
  dd_buffer : Z;
  dd_len : Z;
  dd_own : bool;
  dd_more : bool;
  dd_intr : bool;
  dd_ok : bool;
  dd_ip : bool;
  dd_tcp : bool;
  dd_udp : bool
}.
Definition dd_set_own (x : bool) (d : dp_desc) : dp_desc :=
  mk_dpd (dd_link d) (dd_buffer d) (dd_len d) x (dd_more d) (dd_intr d) (dd_ok d) (dd_ip d) (dd_tcp d)
    (dd_udp d).
Definition dd_set_more (x : bool) (d : dp_desc) : dp_desc :=
  mk_dpd (dd_link d) (dd_buffer d) (dd_len d) (dd_own d) x (dd_intr d) (dd_ok d) (dd_ip d) (dd_tcp d)
    (dd_udp d).
Definition dd_set_ok (x : bool) (d : dp_desc) : dp_desc :=
  mk_dpd (dd_link d) (dd_buffer d) (dd_len d) (dd_own d) (dd_more d) (dd_intr d) x (dd_ip d) (dd_tcp d)
    (dd_udp d).

(** The socket buffer of a packet: the link of its first descriptor, the data and
    its lengths, the checksum request and the fragments. *)
Record dp_skb : Type := mk_dpskb {
  dk_link : Z;
  dk_data : Z;
  dk_len : Z;
  dk_data_len : Z;
  dk_csum : option Z;
  dk_frags : list skb_frag
}.

Inductive dp_event : Type :=
  | DXmit (n : nat) (s : dp_skb)      (** [dev_queue_xmit] *)
  | DRaiseIrq                         (** [l4ka_wedge_raise_irq] of the server *)
  | DClientIrq.                       (** [l4ka_wedge_send_virtual_irq] to the client *)

(** The registers and the ring of one client, and the packets the device has. The counter
    [dirty_tx_pkt_cnt] is global in the source; [dp_dirty] is the share of this client in it,
    that is the number of its packets in flight. The sum is read
    only to decide whether a received frame is flushed at once. *)
Record dpst : Type := mk_dpst {
  dp_first : Z;
  dp_start : Z;
  dp_mem : gmap Z dp_desc;
  dp_txdp : Z;
  dp_isr : Z;
  dp_imr : Z;
  dp_ier : Z;
  dp_irq_pending : bool;
  dp_status : irq_words;
  dp_dirty : Z;
  dp_inflight : gmap nat dp_skb;
  dp_next : nat;
  dp_events : list dp_event
}.
Definition dp_set_mem (x : gmap Z dp_desc) (s : dpst) : dpst :=
  mk_dpst (dp_first s) (dp_start s) x (dp_txdp s) (dp_isr s) (dp_imr s) (dp_ier s) (dp_irq_pending s)
    (dp_status s) (dp_dirty s) (dp_inflight s) (dp_next s) (dp_events s).
Definition dp_set_txdp (x : Z) (s : dpst) : dpst :=
  mk_dpst (dp_first s) (dp_start s) (dp_mem s) x (dp_isr s) (dp_imr s) (dp_ier s) (dp_irq_pending s)
    (dp_status s) (dp_dirty s) (dp_inflight s) (dp_next s) (dp_events s).
Definition dp_set_isr (x : Z) (s : dpst) : dpst :=
  mk_dpst (dp_first s) (dp_start s) (dp_mem s) (dp_txdp s) x (dp_imr s) (dp_ier s) (dp_irq_pending s)
    (dp_status s) (dp_dirty s) (dp_inflight s) (dp_next s) (dp_events s).
Definition dp_set_irq_pending (x : bool) (s : dpst) : dpst :=
  mk_dpst (dp_first s) (dp_start s) (dp_mem s) (dp_txdp s) (dp_isr s) (dp_imr s) (dp_ier s) x
    (dp_status s) (dp_dirty s) (dp_inflight s) (dp_next s) (dp_events s).
Definition dp_set_status (x : irq_words) (s : dpst) : dpst :=
  mk_dpst (dp_first s) (dp_start s) (dp_mem s) (dp_txdp s) (dp_isr s) (dp_imr s) (dp_ier s)
    (dp_irq_pending s) x (dp_dirty s) (dp_inflight s) (dp_next s) (dp_events s).
Definition dp_set_dirty (x : Z) (s : dpst) : dpst :=
  mk_dpst (dp_first s) (dp_start s) (dp_mem s) (dp_txdp s) (dp_isr s) (dp_imr s) (dp_ier s)
    (dp_irq_pending s) (dp_status s) x (dp_inflight s) (dp_next s) (dp_events s).
Definition dp_set_inflight (x : gmap nat dp_skb) (s : dpst) : dpst :=
  mk_dpst (dp_first s) (dp_start s) (dp_mem s) (dp_txdp s) (dp_isr s) (dp_imr s) (dp_ier s)
    (dp_irq_pending s) (dp_status s) (dp_dirty s) x (dp_next s) (dp_events s).
Definition dp_set_next (x : nat) (s : dpst) : dpst :=
  mk_dpst (dp_first s) (dp_start s) (dp_mem s) (dp_txdp s) (dp_isr s) (dp_imr s) (dp_ier s)
    (dp_irq_pending s) (dp_status s) (dp_dirty s) (dp_inflight s) x (dp_events s).
Definition dp_set_events (x : list dp_event) (s : dpst) : dpst :=
  mk_dpst (dp_first s) (dp_start s) (dp_mem s) (dp_txdp s) (dp_isr s) (dp_imr s) (dp_ier s)
    (dp_irq_pending s) (dp_status s) (dp_dirty s) (dp_inflight s) (dp_next s) x.

(** The address translations, the limit of fragments, and the start of the
    client's memory on the bus. *)
Class DpEnv : Type := {
  dp_bus_to_virt : Z → Z;
  dp_bus_to_phys : Z → Z;
  dp_page_to_bus : Z → Z;
  dp_bus_start : Z;
  dp_MAX_SKB_FRAGS : nat;
  dp_page_to_bus_phys : ∀ b, 0 ≤ b < 2 ^ 32 →
    dp_page_to_bus (Z.shiftr (dp_bus_to_phys b) PAGE_SHIFT) = Z.land b (Z.lnot (PAGE_SIZE - 1))
}.

Section ops.
Context {E : DpEnv}.
Abbreviation MD := (M dpst).

Definition demit (e : dp_event) : MD unit := mmodify (λ s, dp_set_events (dp_events s ++ [e]) s).
Definition load_dp (a : Z) : MD dp_desc := o ← mgets (λ s, dp_mem s !! a); mof_option DanglingDeref o.
Definition store_dp (a : Z) (d : dp_desc) : MD unit := mmodify (λ s, dp_set_mem (<[a := d]> (dp_mem s)) s).

(** [get_dp83820_desc] and [get_dp83820_current_desc] *)
Definition get_dp83820_desc (s : dpst) (link : Z) : Z := u32 (link - dp_first s + dp_start s).
Definition get_dp83820_current_desc (s : dpst) : Z := get_dp83820_desc s (dp_txdp s).

Definition set_isr (bit : Z) : MD unit := mmodify (λ s, dp_set_isr (Z.lor (dp_isr s) (2 ^ bit)) s).

(** [notify_dp83820_client]; [ipc_failed] is the outcome of the IPC. *)
Definition notify_dp83820_client (ipc_failed : bool) : MD unit :=
  s ← mget;
  if negb (dp_irq_pending s) && bool_decide (Z.land (dp_isr s) (dp_imr s) ≠ 0) && bool_decide (dp_ier s ≠ 0) then
    demit DClientIrq;;
    if ipc_failed then mmodify (dp_set_irq_pending false) else mret tt
  else mret tt.

Definition reignite_transmit : MD bool :=
  s ← mget;
  d ← load_dp (get_dp83820_current_desc s);
  if negb (dd_own d) then mret false else
  mmodify (λ s, dp_set_status (mk_irq (u32 (Z.lor (irq_status (dp_status s)) 1)) true) s);;
  demit DRaiseIrq;;
  mret true.

(** The loop of the destructor over the fragments: whether one of them asks for
    an interrupt. *)
Fixpoint release_frags (fuel : nat) (link : Z) (do_irq : bool) : MD bool :=
  match fuel with
  | O => mfault Diverged
  | S fuel =>
      if bool_decide (link = 0) then mret do_irq else
      s ← mget;
      let a := get_dp83820_desc s link in
      d ← load_dp a;
      massert (dd_own d && dd_ok d);;
      let link := if dd_more d then dd_link d else 0 in
      store_dp a (dd_set_own false d);;
      release_frags fuel link (do_irq || dd_intr d)
  end.

(** [L4VMnet_skb_dp83820_destructor] of the [k]-th packet. *)
Definition L4VMnet_skb_dp83820_destructor (ipc_failed : bool) (k : nat) : MD unit :=
  s ← mget;
  skb ← mof_option DanglingDeref (dp_inflight s !! k);
  massert (bool_decide (dk_link skb ≠ 0));;
  let a := get_dp83820_desc s (dk_link skb) in
  d ← load_dp a;
  massert (dd_own d && dd_ok d);;
  let link := if dd_more d then dd_link d else 0 in
  store_dp a (dd_set_own false d);;
  mmodify (λ s, dp_set_dirty (dp_dirty s - 1) s);;
  do_irq ← release_frags (S (S dp_MAX_SKB_FRAGS)) link (dd_intr d);
  delay ← reignite_transmit;
  set_isr 6;;
  (if (do_irq : bool) then set_isr 7 else mret tt);;
  (if (delay : bool) then mret tt else notify_dp83820_client ipc_failed);;
  mmodify (λ s, dp_set_inflight (delete k (dp_inflight s)) s).

(** The fragments of a packet; [last] is the descriptor before. *)
Fixpoint wrap_dp_frags (fuel : nat) (last : Z) (fragment : nat) (frags : list skb_frag) : MD (list skb_frag) :=
  match fuel with
  | O => mfault Diverged
  | S fuel =>
      ld ← load_dp last;
      if negb (dd_more ld) then mret frags else
      if bool_decide (dp_MAX_SKB_FRAGS ≤ fragment)%nat then store_dp last (dd_set_more false ld);; mret frags else
      s ← mget;
      massert (bool_decide (dp_txdp s ≠ 0));;
      let a := get_dp83820_current_desc s in
      d ← load_dp a;
      if negb (dd_own d) then store_dp last (dd_set_more false ld);; mret frags else
      store_dp a (dd_set_ok true d);;
      mmodify (dp_set_txdp (dd_link d));;
      massert (bool_decide (dd_buffer d ≠ 0) && bool_decide (dd_len d ≠ 0));;
      let bus := u32 (dd_buffer d + dp_bus_start) in
      let page := Z.shiftr (dp_bus_to_phys bus) PAGE_SHIFT in
      massert (bool_decide (dp_page_to_bus page = Z.land bus (Z.lnot (PAGE_SIZE - 1))));;
      wrap_dp_frags fuel a (S fragment)
        (frags ++ [mk_frag page (Z.land (dd_buffer d) (PAGE_SIZE - 1)) (dd_len d)])
  end.

Definition frags_len (fs : list skb_frag) : Z := foldr (λ f n, frag_size f + n) 0 fs.

(** [L4VMnet_skb_wrap_dp83820_packet]; [alloc] is the result of [alloc_skb]. The
    header of the transport layer is at offset 34; [dk_csum] is where its checksum
    goes, for packets whose checksum the device computes. *)
Definition L4VMnet_skb_wrap_dp83820_packet (alloc : bool) : MD (option dp_skb) :=
  s ← mget;
  massert (bool_decide (dp_txdp s ≠ 0));;
  let a := get_dp83820_current_desc s in
  d ← load_dp a;
  if negb (dd_own d) then mret None else
  if dd_ok d then mret None else
  if negb alloc then mret None else
  mmodify (dp_set_txdp (dd_link d));;
  massert (bool_decide (dd_buffer d ≠ 0) && bool_decide (dd_len d ≠ 0));;
  let data := dp_bus_to_virt (u32 (dd_buffer d + dp_bus_start)) in
  csum ← (if dd_udp d then mret (Some (40 - 34)) else if dd_tcp d then mret (Some (50 - 34))
          else if dd_ip d then mfault AssertFail else mret None);
  store_dp a (dd_set_ok true d);;
  frags ← wrap_dp_frags (S (S dp_MAX_SKB_FRAGS)) a 0 [];
  let skb := mk_dpskb (dp_txdp s) data (dd_len d + frags_len frags) (frags_len frags) csum frags in
  massert (bool_decide (dk_len skb - dk_data_len skb = dd_len d));;
  mret (Some skb).

(** [L4VMnet_dev_queue_dp83820_pkt]; [real_dev] tells whether the client has its
    device. *)
Definition L4VMnet_dev_queue_dp83820_pkt (real_dev alloc : bool) : MD bool :=
  o ← L4VMnet_skb_wrap_dp83820_packet alloc;
  match o with
  | None => set_isr 9;; mret false
  | Some skb =>
      massert real_dev;;
      n ← mgets dp_next;
      mmodify (λ s, dp_set_inflight (<[n := skb]> (dp_inflight s)) (dp_set_next (S n) s));;
      demit (DXmit n skb);;
      mmodify (λ s, dp_set_dirty (dp_dirty s + 1) s);;
      mret true
  end.

(** A client of the server: whether it is operating, whether it has its device, and
    its ring. *)
Record dp_client : Type := mk_dpc { dc_operating : bool; dc_real_dev : bool; dc_st : dpst }.

(** One round of [L4VMnet_dp83820_tx_pkts] over the clients: the clients after it
    and the number of packets sent. [alloc i] is the outcome of the allocation for
    the client that has [i] clients after it. *)
Fixpoint dp_tx_round (alloc : nat → bool) (clients : list dp_client) : fault + (list dp_client * nat) :=
  match clients with
  | [] => inr ([], O)
  | c :: clients =>
      if negb (dc_operating c) then
        match dp_tx_round alloc clients with inl f => inl f | inr (cs, n) => inr (c :: cs, n) end
      else
        match L4VMnet_dev_queue_dp83820_pkt (dc_real_dev c) (alloc (length clients)) (dc_st c) with
        | Err f => inl f
        | Ok sent s =>
            match dp_tx_round alloc clients with
            | inl f => inl f
            | inr (cs, n) => inr (mk_dpc true (dc_real_dev c) s :: cs, if (sent : bool) then S n else n)
            end
        end
  end.
Fixpoint L4VMnet_dp83820_tx_pkts (fuel : nat) (alloc : nat → nat → bool) (clients : list dp_client) :
    fault + list dp_client :=
  match fuel with
  | O => inl Diverged
  | S fuel =>
      match dp_tx_round (alloc fuel) clients with
      | inl f => inl f
      | inr (cs, n) => if bool_decide (n = O) then inr cs else L4VMnet_dp83820_tx_pkts fuel alloc cs
      end
  end.
End ops.

(** ** The ring in memory

    The client's ring has [N] descriptors; [lk i] is the guest-physical address of
    descriptor [i]. Positions only grow; position [p] lives in descriptor
    [p mod N]. *)

Definition nonempty {A} (l : list A) : bool := match l with [] => false | _ => true end.

Section ring.
Context {E : DpEnv}.
Variables (N : nat) (lk : nat → Z) (first start : Z).
Hypothesis N_pos : (0 < N)%nat.
Hypothesis lk_range : ∀ i, (i < N)%nat → 0 < lk i < 2 ^ 32.
Hypothesis lk_inj : ∀ i j, (i < N)%nat → (j < N)%nat → lk i = lk j → i = j.

Definition lkp (p : nat) : Z := lk (p `mod` N).
Definition addr (p : nat) : Z := u32 (lkp p - first + start).

Lemma mod_lt p : (p `mod` N < N)%nat.
Proof using N_pos. apply Nat.mod_upper_bound. lia. Qed.
Lemma lkp_range p : 0 < lkp p < 2 ^ 32.
Proof using N_pos lk_range. apply lk_range, mod_lt. Qed.

Lemma addr_ne p q : (p < q)%nat → (q < p + N)%nat → addr p ≠ addr q.
Proof using N_pos lk_range lk_inj.
  intros H1 H2 Heq. unfold addr, wrap in Heq. pose proof (lkp_range p). pose proof (lkp_range q).
  assert (lkp p = lkp q) as Hl.
  { rewrite <- (Z.mod_small (lkp p) (2 ^ 32)), <- (Z.mod_small (lkp q) (2 ^ 32)) by lia.
    replace (lkp p) with (lkp p - first + start - (start - first)) by lia.
    replace (lkp q) with (lkp q - first + start - (start - first)) by lia.
    rewrite (Zminus_mod (lkp p - first + start)), (Zminus_mod (lkp q - first + start)). by rewrite Heq. }
  apply lk_inj in Hl; [|apply mod_lt..].
  assert (slot N p ≠ slot N q) as Hs by (apply slot_ne; lia). apply Hs. unfold slot. by rewrite Hl.
Qed.
Lemma addr_inj_window D i j : (i < N)%nat → (j < N)%nat → i ≠ j → addr (D + i) ≠ addr (D + j).
Proof using N_pos lk_range lk_inj.
  intros Hi Hj Hne. destruct (decide (i < j)%nat); [apply addr_ne; lia|]. intros Heq. symmetry in Heq.
  revert Heq. apply addr_ne; lia.
Qed.
Lemma addr_add_N p : addr (p + N) = addr p.
Proof using N_pos. unfold addr, lkp. replace (p + N)%nat with (p + 1 * N)%nat by lia. by rewrite Nat.Div0.mod_add. Qed.

(** From position [D] on the ring holds [cells], and descriptors that the client
    has not handed over. *)
Record ring_at (m : gmap Z dp_desc) (D : nat) (cells : list dp_desc) : Prop := {
  ra_cells : ∀ k d, cells !! k = Some d → m !! addr (D + k) = Some d;
  ra_free : ∀ k, (length cells ≤ k < N)%nat → ∃ d, m !! addr (D + k) = Some d ∧ dd_own d = false;
  ra_len : (length cells ≤ N)%nat
}.

Lemma ring_at_store m D cells k d0 d :
  ring_at m D cells → cells !! k = Some d0 → ring_at (<[addr (D + k) := d]> m) D (<[k := d]> cells).
Proof using N_pos lk_range lk_inj.
  intros [Hc Hf Hl] Hk. pose proof (lookup_lt_Some _ _ _ Hk) as Hlt. split.
  - intros j d'. rewrite list_lookup_insert_Some. intros [(<- & <- & _)|[Hne Hj]]; [by rewrite lookup_insert_eq|].
    pose proof (lookup_lt_Some _ _ _ Hj). rewrite lookup_insert_ne; [by apply Hc|]. apply addr_inj_window; lia.
  - rewrite length_insert. intros j Hj. rewrite lookup_insert_ne; [by apply Hf|]. apply addr_inj_window; lia.
  - by rewrite length_insert.
Qed.

(** The client writes descriptors from position [p] on. *)
Fixpoint post_descs (p : nat) (ds : list dp_desc) (m : gmap Z dp_desc) : gmap Z dp_desc :=
  match ds with [] => m | d :: ds => post_descs (S p) ds (<[addr p := d]> m) end.

Lemma ring_at_post m D cells ds :
  ring_at m D cells → (length cells + length ds ≤ N)%nat →
  ring_at (post_descs (D + length cells) ds m) D (cells ++ ds).
Proof using N_pos lk_range lk_inj.
  revert m cells. induction ds as [|d ds IH]; intros m cells [Hc Hf Hl] Hlen; simpl in *.
  { rewrite app_nil_r. by split. }
  replace (S (D + length cells)) with (D + length (cells ++ [d]))%nat by (rewrite length_app; simpl; lia).
  replace (cells ++ d :: ds) with ((cells ++ [d]) ++ ds) by (by rewrite <- app_assoc).
  apply IH; [|rewrite length_app; simpl; lia]. split.
  - intros k d'. rewrite lookup_app_Some. intros [Hk|[Hk Hd]].
    + pose proof (lookup_lt_Some _ _ _ Hk). rewrite lookup_insert_ne; [by apply Hc|]. apply addr_inj_window; lia.
    + apply list_lookup_singleton_Some in Hd as [Hk' ->].
      replace k with (length cells) by lia. apply lookup_insert_eq.
  - rewrite length_app. simpl. intros k Hk. rewrite lookup_insert_ne; [apply Hf; lia|]. apply addr_inj_window; lia.
  - rewrite length_app. simpl. lia.
Qed.

(** The client takes back descriptors at the front. *)
Lemma ring_at_reclaim m D c1 c2 :
  ring_at m D (c1 ++ c2) → Forall (λ d, dd_own d = false) c1 → ring_at m (D + length c1) c2.
Proof using N_pos.
  intros [Hc Hf Hl] Ho. rewrite length_app in *. split; [| |lia].
  - intros k d Hk. rewrite <- Nat.add_assoc. apply Hc. rewrite lookup_app_r by lia.
    by replace (length c1 + k - length c1)%nat with k by lia.
  - intros k Hk. rewrite <- Nat.add_assoc. destruct (decide (length c1 + k < N)%nat); [apply Hf; lia|].
    replace (D + (length c1 + k))%nat with (D + (length c1 + k - N) + N)%nat by lia. rewrite addr_add_N.
    destruct (lookup_lt_is_Some_2 c1 (length c1 + k - N)) as [d Hd]; [lia|].
    exists d. split; [apply Hc; rewrite lookup_app_l by lia; exact Hd|]. by apply (proj1 (Forall_lookup _ _) Ho _ _ Hd).
Qed.

(** ** Packets *)

(** The descriptors of a packet as the client posts them at position [p]. *)
Fixpoint chain_wf (p : nat) (ds : list dp_desc) : Prop :=
  match ds with
  | [] => True
  | d :: ds => dd_own d = true ∧ dd_ok d = false ∧ dd_link d = lkp (S p) ∧ dd_more d = nonempty ds ∧
      dd_buffer d ≠ 0 ∧ dd_len d ≠ 0 ∧ chain_wf (S p) ds
  end.
Definition csum_of (d : dp_desc) : option Z :=
  if dd_udp d then Some 6 else if dd_tcp d then Some 16 else None.
Definition csum_ok (d : dp_desc) : bool := dd_udp d || dd_tcp d || negb (dd_ip d).
Definition pkt_wf (p : nat) (ds : list dp_desc) : Prop :=
  (0 < length ds ≤ S dp_MAX_SKB_FRAGS)%nat ∧ chain_wf p ds ∧ ∀ d, head ds = Some d → csum_ok d = true.

(** The fragment and the socket buffer made of them. *)
Definition frag_of (d : dp_desc) : skb_frag :=
  mk_frag (Z.shiftr (dp_bus_to_phys (u32 (dd_buffer d + dp_bus_start))) PAGE_SHIFT)
    (Z.land (dd_buffer d) (PAGE_SIZE - 1)) (dd_len d).
Definition skb_of (p : nat) (ds : list dp_desc) : dp_skb :=
  match ds with
  | [] => mk_dpskb 0 0 0 0 None []
  | d :: ds => mk_dpskb (lkp p) (dp_bus_to_virt (u32 (dd_buffer d + dp_bus_start)))
      (dd_len d + frags_len (frag_of <$> ds)) (frags_len (frag_of <$> ds)) (csum_of d) (frag_of <$> ds)
  end.

(** Submitted to the device, and given back to the client. *)
Definition sent_desc (d : dp_desc) : dp_desc := dd_set_ok true d.
Definition done_desc (d : dp_desc) : dp_desc := dd_set_own false (dd_set_ok true d).

(** The part of the state a client has in memory. *)
Definition dp_at (s : dpst) (D : nat) (cells : list dp_desc) : Prop :=
  dp_first s = first ∧ dp_start s = start ∧ ring_at (dp_mem s) D cells.

Lemma dp_at_addr s D cells p : dp_at s D cells → get_dp83820_desc s (lkp p) = addr p.
Proof. intros (Hf & Hs & _). unfold get_dp83820_desc, addr. by rewrite Hf, Hs. Qed.

Lemma wp_load_dp s D cells k d Q :
  dp_at s D cells → cells !! k = Some d → Q d s → wp no_fault (load_dp (addr (D + k))) Q s.
Proof.
  intros (_ & _ & Hr) Hk HQ. unfold load_dp. apply wp_bind, wp_mgets. rewrite (ra_cells _ _ _ Hr k d Hk). done.
Qed.
Lemma dp_at_store s D cells k d0 d :
  dp_at s D cells → cells !! k = Some d0 →
  dp_at (dp_set_mem (<[addr (D + k) := d]> (dp_mem s)) s) D (<[k := d]> cells).
Proof using N_pos lk_range lk_inj. intros (? & ? & ?) Hk. split_and!; [done..|]. by eapply ring_at_store. Qed.

Lemma insert_mid {A} (pre : list A) x y post : <[length pre := y]> (pre ++ x :: post) = pre ++ y :: post.
Proof. rewrite insert_app_r_alt by lia. by rewrite Nat.sub_diag. Qed.
Lemma lookup_mid {A} (pre : list A) x post : (pre ++ x :: post) !! length pre = Some x.
Proof. by rewrite list_lookup_middle. Qed.
Lemma lookup_mid' {A} (pre : list A) x y post : (pre ++ x :: y :: post) !! S (length pre) = Some y.
Proof. replace (pre ++ x :: y :: post) with ((pre ++ [x]) ++ y :: post) by (by rewrite <- app_assoc).
  replace (S (length pre)) with (length (pre ++ [x])) by (rewrite length_app; simpl; lia). apply lookup_mid. Qed.

(** The fragment loop on the descriptors [fs] that follow the cell [l]. *)
Lemma dp_wrap_frags_ok fs : ∀ s D pre l rest fuel f acc Q,
  dp_at s D (pre ++ l :: fs ++ rest) → dd_more l = nonempty fs → chain_wf (D + S (length pre)) fs →
  dp_txdp s = lkp (D + S (length pre)) → (f + length fs ≤ dp_MAX_SKB_FRAGS)%nat → (length fs < fuel)%nat →
  (∀ m, dp_at (dp_set_txdp (lkp (D + S (length pre) + length fs)) (dp_set_mem m s)) D (pre ++ l :: (sent_desc <$> fs) ++ rest) →
     Q (acc ++ (frag_of <$> fs)) (dp_set_txdp (lkp (D + S (length pre) + length fs)) (dp_set_mem m s))) →
  wp no_fault (wrap_dp_frags fuel (addr (D + length pre)) f acc) Q s.
Proof using N_pos lk_range lk_inj.
  induction fs as [|d fs IH]; intros s D pre l rest [|fuel] f acc Q Hat Hmore Hwf Htx Hmax Hfuel HQ; simpl in Hfuel; try lia;
    cbn [wrap_dp_frags]; apply wp_bind; (eapply wp_load_dp; [exact Hat|apply lookup_mid|]); rewrite Hmore; cbn [nonempty negb].
  { apply wp_mret. rewrite app_nil_r, Nat.add_0_r in HQ. rewrite <- Htx in HQ.
    assert (dp_set_txdp (dp_txdp s) (dp_set_mem (dp_mem s) s) = s) as Heq by (by destruct s).
    rewrite <- Heq. apply (HQ (dp_mem s)). by rewrite Heq. }
  destruct Hwf as (Hown & Hok & Hlink & Hm & Hb & Hln & Hwf). simpl in Hmax.
  rewrite bool_decide_eq_false_2 by lia. apply wp_bind, wp_mget.
  pose proof (lkp_range (D + S (length pre))) as Hlk.
  apply wp_bind, wp_massert; [rewrite Htx, bool_decide_eq_true_2; [done|lia]|]. intros _.
  unfold get_dp83820_current_desc. rewrite Htx, (dp_at_addr _ _ _ _ Hat).
  apply wp_bind. replace (D + S (length pre))%nat with (D + (S (length pre)))%nat by lia.
  eapply wp_load_dp; [exact Hat|apply lookup_mid'|]. rewrite Hown. cbn [negb].
  apply wp_bind. unfold store_dp. apply wp_mmodify, wp_bind, wp_mmodify.
  apply wp_bind, wp_massert; [by rewrite !bool_decide_eq_true_2|]. intros _. cbv zeta.
  apply wp_bind, wp_massert; [rewrite bool_decide_eq_true_2; [done|]; apply dp_page_to_bus_phys, wrap_range; lia|]. intros _.
  pose proof (dp_at_store _ _ _ _ _ (dd_set_ok true d) Hat (lookup_mid' pre l d (fs ++ rest))) as Hat'.
  replace (<[S (length pre) := dd_set_ok true d]> (pre ++ l :: (d :: fs) ++ rest))
    with ((pre ++ [l]) ++ dd_set_ok true d :: fs ++ rest) in Hat'.
  2: { replace (S (length pre)) with (length (pre ++ [l])) by (rewrite length_app; simpl; lia).
       simpl. rewrite <- (insert_mid (pre ++ [l]) d). by rewrite <- app_assoc. }
  assert (length (pre ++ [l]) = S (length pre)) as Hlen by (rewrite length_app; simpl; lia).
  rewrite <- Hlen in Hat' |- *. eapply (IH _ D (pre ++ [l]) (dd_set_ok true d) rest fuel).
  - destruct Hat' as (? & ? & ?). by split_and!.
  - exact Hm.
  - rewrite Hlen. by replace (D + S (S (length pre)))%nat with (S (D + S (length pre))) by lia.
  - cbn. rewrite Hlen, Hlink. f_equal. lia.
  - lia.
  - lia.
  - intros m Hm'. rewrite Hlen in *.
    replace (D + S (S (length pre)) + length fs)%nat with (D + S (length pre) + length (d :: fs))%nat in * by (simpl; lia).
    rewrite <- app_assoc. refine (HQ m _). rewrite <- app_assoc in Hm'. exact Hm'.
Qed.

(** The release loop on the submitted descriptors [fs] at position [p]. *)
Lemma dp_release_frags_ok fs : ∀ s D pre rest fuel irq Q,
  dp_at s D (pre ++ (sent_desc <$> fs) ++ rest) → chain_wf (D + length pre) fs → (length fs < fuel)%nat →
  (∀ m, dp_at (dp_set_mem m s) D (pre ++ (done_desc <$> fs) ++ rest) → Q (irq || existsb dd_intr fs) (dp_set_mem m s)) →
  wp no_fault (release_frags fuel (if nonempty fs then lkp (D + length pre) else 0) irq) Q s.
Proof using N_pos lk_range lk_inj.
  induction fs as [|d fs IH]; intros s D pre rest [|fuel] irq Q Hat Hwf Hfuel HQ; simpl in Hfuel; try lia; cbn [release_frags nonempty].
  { rewrite bool_decide_eq_true_2 by done. apply wp_mret.
    assert (dp_set_mem (dp_mem s) s = s) as Heq by (by destruct s). rewrite <- Heq. rewrite orb_false_r in HQ. apply (HQ (dp_mem s)). by rewrite Heq. }
  destruct Hwf as (Hown & Hok & Hlink & Hm & Hb & Hln & Hwf). pose proof (lkp_range (D + length pre)).
  rewrite bool_decide_eq_false_2 by lia. apply wp_bind, wp_mget. cbv zeta. rewrite (dp_at_addr _ _ _ _ Hat).
  cbn [fmap list_fmap app] in Hat. apply wp_bind. eapply wp_load_dp; [exact Hat|apply lookup_mid|].
  apply wp_bind, wp_massert; [unfold sent_desc; cbn; by rewrite Hown|]. intros _. apply wp_bind.
  unfold store_dp. apply wp_mmodify.
  pose proof (dp_at_store _ _ _ _ _ (dd_set_own false (sent_desc d)) Hat (lookup_mid pre _ _)) as Hat'.
  rewrite insert_mid in Hat'.
  replace (if dd_more (sent_desc d) then dd_link (sent_desc d) else 0) with
    (if nonempty fs then lkp (D + length (pre ++ [done_desc d])) else 0).
  2: { unfold sent_desc; cbn. rewrite Hm, Hlink, length_app. simpl. by replace (S (D + length pre)) with (D + (length pre + 1))%nat by lia. }
  eapply (IH _ D (pre ++ [done_desc d]) rest).
  - rewrite <- app_assoc. exact Hat'.
  - rewrite length_app. simpl. by replace (D + (length pre + 1))%nat with (S (D + length pre)) by lia.
  - lia.
  - intros m Hm'. rewrite <- orb_assoc. apply (HQ m). rewrite <- app_assoc in Hm'. exact Hm'.
Qed.

(** ** The client, the server and the device *)

Definition tlen (l : list (list dp_desc)) : nat := length (concat l).
Lemma tlen_app l1 l2 : tlen (l1 ++ l2) = (tlen l1 + tlen l2)%nat.
Proof. unfold tlen. by rewrite concat_app, length_app. Qed.
Lemma tlen_cons ds l : tlen (ds :: l) = (length ds + tlen l)%nat.
Proof. unfold tlen. simpl. by rewrite length_app. Qed.

Fixpoint pkts_wf (p : nat) (l : list (list dp_desc)) : Prop :=
  match l with [] => True | ds :: l => pkt_wf p ds ∧ pkts_wf (p + length ds) l end.
(** The socket buffers of packets that start at position [p]. *)
Fixpoint skbs (p : nat) (l : list (list dp_desc)) : list dp_skb :=
  match l with [] => [] | ds :: l => skb_of p ds :: skbs (p + length ds) l end.

Lemma pkts_wf_app p l1 l2 : pkts_wf p (l1 ++ l2) ↔ pkts_wf p l1 ∧ pkts_wf (p + tlen l1) l2.
Proof.
  revert p. induction l1 as [|ds l1 IH]; intros p; simpl.
  - unfold tlen. simpl. rewrite Nat.add_0_r. tauto.
  - rewrite IH, tlen_cons, Nat.add_assoc. tauto.
Qed.
Lemma skbs_app p l1 l2 : skbs p (l1 ++ l2) = skbs p l1 ++ skbs (p + tlen l1) l2.
Proof.
  revert p. induction l1 as [|ds l1 IH]; intros p; simpl.
  - unfold tlen. simpl. by rewrite Nat.add_0_r.
  - by rewrite IH, tlen_cons, Nat.add_assoc.
Qed.
Lemma length_skbs p l : length (skbs p l) = length l.
Proof. revert p. induction l as [|ds l IH]; intros p; simpl; [done|]. by rewrite IH. Qed.

(** The packets given to the device, with their numbers. *)
Definition xmits (evs : list dp_event) : list (nat * dp_skb) :=
  omap (λ e, match e with DXmit n s => Some (n, s) | _ => None end) evs.
Lemma xmits_app e1 e2 : xmits (e1 ++ e2) = xmits e1 ++ xmits e2.
Proof. apply omap_app. Qed.

(** A submitted packet and whether the device has finished it. *)
Definition sent_cells (x : list dp_desc * bool) : list dp_desc := (if x.2 then done_desc else sent_desc) <$> x.1.
Definition cells (sent : list (list dp_desc * bool)) (posted : list (list dp_desc)) : list dp_desc :=
  concat (sent_cells <$> sent) ++ concat posted.

Lemma length_sent_cells l : length (concat (sent_cells <$> l)) = tlen l.*1.
Proof.
  unfold tlen. induction l as [|[ds b] l IH]; [done|]. rewrite !fmap_cons. cbn [concat fst].
  rewrite !length_app, IH. unfold sent_cells. by rewrite length_fmap.
Qed.

(** The client has taken back the packets [old]; the device has or had [sent],
    and [posted] wait in the ring. *)
Record dinv (s : dpst) (old : list (list dp_desc)) (sent : list (list dp_desc * bool))
    (posted : list (list dp_desc)) : Prop := {
  dv_at : dp_at s (tlen old) (cells sent posted);
  dv_wf : pkts_wf (tlen old) (sent.*1 ++ posted);
  dv_txdp : dp_txdp s = lkp (tlen old + tlen sent.*1);
  dv_next : dp_next s = (length old + length sent)%nat;
  dv_inflight : ∀ k skb, dp_inflight s !! k = Some skb ↔ ∃ j ds, sent !! j = Some (ds, false) ∧
    k = (length old + j)%nat ∧ skb = skb_of (tlen old + tlen (take j sent.*1)) ds;
  dv_dirty : dp_dirty s = size (dp_inflight s);
  dv_xmits : xmits (dp_events s) = imap pair (skbs 0 (old ++ sent.*1))
}.

(** What the registers of the client and the words of the server do not change. *)
Definition dframe (s s' : dpst) : Prop :=
  dp_first s' = dp_first s ∧ dp_start s' = dp_start s ∧ dp_mem s' = dp_mem s ∧ dp_txdp s' = dp_txdp s ∧
  dp_next s' = dp_next s ∧ dp_inflight s' = dp_inflight s ∧ dp_dirty s' = dp_dirty s ∧
  xmits (dp_events s') = xmits (dp_events s).
#[local] Instance dframe_preorder : PreOrder dframe.
Proof. split; [by intros s|]. intros s1 s2 s3 H1 H2. unfold dframe in *. intuition congruence. Qed.

Lemma dinv_frame s s' old sent posted : dinv s old sent posted → dframe s s' → dinv s' old sent posted.
Proof.
  intros [(? & ? & ?) ? ? ? Hi ? ?] (E1 & E2 & E3 & E4 & E5 & E6 & E7 & E8).
  split; try congruence; rewrite ?E6; try done. split_and!; congruence.
Qed.

(** Every position of the window, and the one after it, is in memory. *)
Lemma dp_at_total s D cs k : dp_at s D cs → (k ≤ N)%nat → ∃ d, dp_mem s !! addr (D + k) = Some d.
Proof using N_pos.
  intros (_ & _ & [Hc Hf Hl]) Hk.
  assert (∀ j, (j < N)%nat → ∃ d, dp_mem s !! addr (D + j) = Some d) as Hj.
  { intros j Hj. destruct (decide (j < length cs)%nat) as [Hlt|].
    - destruct (lookup_lt_is_Some_2 cs j Hlt) as [d Hd]. eauto.
    - destruct (Hf j) as (d & ? & _); [lia|]. eauto. }
  destruct (decide (k < N)%nat); [by apply Hj|]. replace k with (0 + N)%nat by lia.
  rewrite Nat.add_assoc, addr_add_N. by apply Hj.
Qed.

Lemma dinv_window s old sent posted : dinv s old sent posted → (tlen sent.*1 + tlen posted ≤ N)%nat.
Proof.
  intros [(_ & _ & [_ _ Hl]) _ _ _ _ _ _]. unfold cells in Hl. rewrite length_app, length_sent_cells in Hl. exact Hl.
Qed.

(** With nothing posted, the current descriptor does not start a packet. *)
Lemma current_idle s old sent :
  dinv s old sent [] → ∃ d, dp_mem s !! addr (tlen old + tlen sent.*1) = Some d ∧ (dd_own d = false ∨ dd_ok d = true).
Proof using N_pos.
  intros Hv. pose proof (dinv_window _ _ _ _ Hv) as Hw. destruct Hv as [(_ & _ & [Hc Hf Hl]) Hwf _ _ _ _ _].
  unfold cells in *. simpl in *. rewrite app_nil_r in *. rewrite length_sent_cells in *.
  destruct (decide (tlen sent.*1 < N)%nat).
  { destruct (Hf (tlen sent.*1)) as (d & Hd & Ho); [lia|]. eauto. }
  replace (tlen old + tlen sent.*1)%nat with (tlen old + 0 + N)%nat by lia. rewrite addr_add_N. destruct sent as [|[ds b] sent]; [unfold tlen in *; simpl in *; lia|].
  destruct Hwf as [[Hlen _] _]. destruct ds as [|d ds]; [simpl in Hlen; lia|]. simpl in Hc.
  destruct b; (eexists; split; [by apply (Hc 0%nat)|]); [by left|by right].
Qed.

(** Giving the next posted packet to the device. *)
Lemma wrap_ok s old sent ds posted Q :
  dinv s old sent (ds :: posted) →
  (∀ m, dp_at (dp_set_mem m s) (tlen old) (cells (sent ++ [(ds, false)]) posted) →
     Q (Some (skb_of (tlen old + tlen sent.*1) ds))
       (dp_set_txdp (lkp (tlen old + tlen (sent ++ [(ds, false)]).*1)) (dp_set_mem m s))) →
  wp no_fault (L4VMnet_skb_wrap_dp83820_packet true) Q s.
Proof using N_pos lk_range lk_inj.
  intros [Hat Hwf Htx Hn Hi Hd Hx] HQ. unfold L4VMnet_skb_wrap_dp83820_packet.
  set (D := tlen old) in *. set (pre := concat (sent_cells <$> sent)).
  assert (length pre = tlen sent.*1) as Hpre by apply length_sent_cells.
  apply pkts_wf_app in Hwf as [_ [[Hlen [Hch Hcs]] _]]. destruct ds as [|d fs]; [simpl in Hlen; lia|].
  specialize (Hcs d eq_refl). destruct Hch as (Hown & Hok & Hlink & Hm & Hb & Hln & Hch).
  assert (cells sent ((d :: fs) :: posted) = pre ++ d :: fs ++ concat posted) as Hcells by done. rewrite Hcells in Hat.
  apply wp_bind, wp_mget. pose proof (lkp_range (D + tlen sent.*1)).
  apply wp_bind, wp_massert; [rewrite Htx, bool_decide_eq_true_2; [done|lia]|]. intros _. cbv zeta.
  unfold get_dp83820_current_desc. rewrite Htx, (dp_at_addr _ _ _ _ Hat). rewrite <- Hpre.
  apply wp_bind. eapply wp_load_dp; [exact Hat|apply lookup_mid|]. rewrite Hown, Hok. cbn [negb].
  apply wp_bind, wp_mmodify, wp_bind, wp_massert; [by rewrite !bool_decide_eq_true_2|]. intros _.
  apply wp_bind, wp_mono with (P := λ c s', c = csum_of d ∧ s' = dp_set_txdp (dd_link d) s).
  { unfold csum_of, csum_ok in *. destruct (dd_udp d); [by apply wp_mret|]. destruct (dd_tcp d); [by apply wp_mret|].
    destruct (dd_ip d); [done|]. by apply wp_mret. }
  intros csum _ [-> ->]. apply wp_bind. unfold store_dp. apply wp_mmodify.
  pose proof (dp_at_store _ _ _ _ _ (dd_set_ok true d) Hat (lookup_mid pre _ _)) as Hat'. rewrite insert_mid in Hat'.
  apply wp_bind. eapply (dp_wrap_frags_ok fs _ D pre (dd_set_ok true d) (concat posted)).
  - destruct Hat' as (? & ? & ?). by split_and!.
  - exact Hm.
  - rewrite <- Hpre in Hch. by replace (D + S (length pre))%nat with (S (D + length pre)) by lia.
  - cbn. rewrite Hlink, <- Hpre. f_equal. lia.
  - simpl in Hlen. lia.
  - simpl in Hlen. lia.
  - intros m Hm'. cbn [app]. apply wp_bind, wp_massert; [rewrite bool_decide_eq_true_2; [done|cbn; lia]|]. intros _.
    apply wp_mret. rewrite Hpre.
    replace (D + S (tlen sent.*1) + length fs)%nat with (D + tlen (sent ++ [(d :: fs, false)]).*1)%nat in *.
    2: { rewrite fmap_app, tlen_app. cbn [fmap list_fmap fst]. rewrite tlen_cons. unfold tlen at 2. simpl. lia. }
    rewrite Hpre in Hm'.
    replace (D + S (tlen sent.*1) + length fs)%nat with (D + tlen (sent ++ [(d :: fs, false)]).*1)%nat in Hm'.
    2: { rewrite fmap_app, tlen_app. cbn [fmap list_fmap fst]. rewrite tlen_cons. unfold tlen at 2. simpl. lia. }
    refine (HQ m _). destruct Hm' as (? & ? & Hr). split_and!; [done..|].
    unfold cells. rewrite fmap_app, concat_app. cbn [fmap list_fmap concat]. rewrite app_nil_r, <- app_assoc.
    exact Hr.
Qed.

Lemma dinv_queue s old sent posted alloc :
  dinv s old sent posted →
  wp no_fault (L4VMnet_dev_queue_dp83820_pkt true alloc) (λ b s',
    match posted with
    | ds :: posted' => if alloc then b = true ∧ dinv s' old (sent ++ [(ds, false)]) posted'
                       else b = false ∧ dinv s' old sent posted
    | [] => b = false ∧ dinv s' old sent []
    end) s.
Proof using N_pos lk_range lk_inj.
  intros Hv. unfold L4VMnet_dev_queue_dp83820_pkt.
  assert (∀ d, dp_mem s !! addr (tlen old + tlen sent.*1) = Some d → (dd_own d = false ∨ dd_ok d = true ∨ alloc = false) →
    L4VMnet_skb_wrap_dp83820_packet alloc s = Ok None s) as Hnone.
  { intros d Hd Hc. unfold L4VMnet_skb_wrap_dp83820_packet. pose proof (lkp_range (tlen old + tlen sent.*1)).
    erewrite bind_ok by done. cbv beta. rewrite (dv_txdp _ _ _ _ Hv), bool_decide_eq_true_2 by lia.
    erewrite bind_ok by done. cbv beta zeta. unfold get_dp83820_current_desc.
    rewrite (dv_txdp _ _ _ _ Hv), (dp_at_addr _ _ _ _ (dv_at _ _ _ _ Hv)).
    erewrite bind_ok by (unfold load_dp, mgets, mbind, M_bind; by rewrite Hd). cbv beta.
    destruct (dd_own d), (dd_ok d), alloc; naive_solver. }
  assert (dinv (dp_set_isr (Z.lor (dp_isr s) (2 ^ 9)) s) old sent posted) as Hisr by (by eapply dinv_frame; [exact Hv|]).
  destruct posted as [|ds posted].
  { destruct (current_idle _ _ _ Hv) as (d & Hd & Hc). apply wp_bind.
    eapply wp_run; [apply (Hnone d Hd); naive_solver|]. unfold set_isr. apply wp_bind, wp_mmodify, wp_mret. done. }
  destruct alloc.
  2: { destruct (dp_at_total _ _ _ (tlen sent.*1) (dv_at _ _ _ _ Hv)) as [d Hd];
         [pose proof (dinv_window _ _ _ _ Hv); lia|]. apply wp_bind.
       eapply wp_run; [apply (Hnone d Hd); naive_solver|]. unfold set_isr. apply wp_bind, wp_mmodify, wp_mret. done. }
  apply wp_bind. eapply wrap_ok; [exact Hv|]. intros m Hm. destruct Hv as [Hat Hwf Htx Hn Hi Hd Hx].
  apply wp_bind, wp_massert; [done|]. intros _. apply wp_bind, wp_mgets, wp_bind, wp_mmodify, wp_bind.
  unfold demit. apply wp_mmodify, wp_bind, wp_mmodify, wp_mret. split; [done|].
  assert (dp_inflight s !! dp_next s = None) as Hfresh.
  { destruct (dp_inflight s !! dp_next s) as [skb|] eqn:He; [|done].
    apply Hi in He as (j & ds' & Hj & Hk & _). apply lookup_lt_Some in Hj. lia. }
  split; cbn [dp_mem dp_txdp dp_next dp_inflight dp_dirty dp_events dp_first dp_start dp_set_dirty dp_set_events
    dp_set_inflight dp_set_next dp_set_txdp dp_set_mem].
  - destruct Hm as (? & ? & ?). by split_and!.
  - rewrite fmap_app, <- app_assoc. exact Hwf.
  - done.
  - rewrite Hn, length_app. simpl. lia.
  - intros k skb. rewrite lookup_insert_Some, Hi, fmap_app. change ([(ds, false)].*1) with [ds]. split.
    + intros [[<- <-]|[Hne (j & ds' & Hj & -> & ->)]].
      * exists (length sent), ds. rewrite lookup_app_r, Nat.sub_diag by lia.
        rewrite take_app_le, take_ge by (rewrite length_fmap; lia). done.
      * exists j, ds'. pose proof (lookup_lt_Some _ _ _ Hj). rewrite lookup_app_l by lia.
        rewrite take_app_le by (rewrite length_fmap; lia). done.
    + intros (j & ds' & Hj & -> & ->). apply lookup_app_Some in Hj as [Hj|[Hge Hj]].
      * pose proof (lookup_lt_Some _ _ _ Hj). right. split; [lia|]. exists j, ds'.
        rewrite take_app_le by (rewrite length_fmap; lia). done.
      * apply list_lookup_singleton_Some in Hj as [Hz [= <-]]. left. replace j with (length sent) by lia.
        rewrite take_app_le, take_ge by (rewrite length_fmap; lia). split; [lia|done].
  - rewrite map_size_insert_None by done. lia.
  - rewrite xmits_app, Hx, fmap_app. change ([(ds, false)].*1) with [ds].
    rewrite (app_assoc old sent.*1 [ds]), (skbs_app 0 (old ++ sent.*1) [ds]), imap_app. f_equal.
    cbn [skbs imap]. unfold compose. rewrite length_skbs, length_app, length_fmap, Nat.add_0_r, <- Hn, tlen_app. done.
Qed.

(** What a finished packet tells: with descriptors to send, the server's handler is
    raised; otherwise the client, when its registers ask for it. *)
Definition wants_irq (s : dpst) : bool :=
  negb (dp_irq_pending s) && bool_decide (Z.land (dp_isr s) (dp_imr s) ≠ 0) && bool_decide (dp_ier s ≠ 0).
Definition told (s s' : dpst) (do_irq : bool) : Prop :=
  dp_isr s' = Z.lor (Z.lor (dp_isr s) (2 ^ 6)) (if do_irq then 2 ^ 7 else 0) ∧
  ∃ d, dp_mem s' !! get_dp83820_current_desc s' = Some d ∧
    dp_events s' = dp_events s ++ if dd_own d then [DRaiseIrq] else
      if wants_irq (dp_set_isr (dp_isr s') s) then [DClientIrq] else [].

Lemma tell_ok s D cs k do_irq ipc (rest : M dpst unit) Q :
  dp_at s D cs → dp_txdp s = lkp (D + k) → (k ≤ N)%nat →
  (∀ s', dframe s s' → told s s' do_irq → wp no_fault rest Q s') →
  wp no_fault (delay ← reignite_transmit; set_isr 6;; (if do_irq then set_isr 7 else mret tt);;
    (if (delay : bool) then mret tt else notify_dp83820_client ipc);; rest) Q s.
Proof using N_pos.
  intros Hat Htx Hk HQ. unfold reignite_transmit. apply wp_bind, wp_bind, wp_mget.
  destruct (dp_at_total _ _ _ _ Hat Hk) as [d Hd].
  assert (get_dp83820_current_desc s = addr (D + k)) as Hcur.
  { unfold get_dp83820_current_desc. by rewrite Htx, (dp_at_addr _ _ _ _ Hat). }
  rewrite Hcur. apply wp_bind. unfold load_dp. apply wp_bind, wp_mgets. rewrite Hd. apply wp_mret.
  assert (∀ s', dframe s s' → dp_mem s' !! get_dp83820_current_desc s' = Some d) as Hcur'.
  { intros s' (E1 & E2 & E3 & E4 & _). unfold get_dp83820_current_desc, get_dp83820_desc in *.
    by rewrite E1, E2, E3, E4, Hcur. }
  assert (∀ s', dframe s s' → dp_isr s' = Z.lor (Z.lor (dp_isr s) (2 ^ 6)) (if do_irq then 2 ^ 7 else 0) →
    dp_events s' = dp_events s ++ (if dd_own d then [DRaiseIrq] else
      if wants_irq (dp_set_isr (dp_isr s') s) then [DClientIrq] else []) → wp no_fault rest Q s') as HQ'
    by (intros s' Hf H1 H2; apply HQ; [done|]; unfold told; eauto).
  clear HQ Hcur'. unfold set_isr, demit, notify_dp83820_client. unfold wants_irq in HQ'.
  destruct (dd_own d) eqn:Hown; cbn [negb].
  - apply wp_bind, wp_mmodify, wp_bind, wp_mmodify, wp_mret, wp_bind, wp_mmodify, wp_bind.
    destruct do_irq; [apply wp_mmodify|apply wp_mret]; apply wp_bind, wp_mret, HQ'; unfold dframe; cbn;
      by rewrite ?xmits_app, ?app_nil_r, ?Z.lor_0_r.
  - apply wp_mret, wp_bind, wp_mmodify, wp_bind.
    destruct do_irq; [apply wp_mmodify|apply wp_mret]; apply wp_bind, wp_bind, wp_mget.
    all: match goal with |- context [if ?b then _ else _] => destruct b eqn:Hb end.
    all: match type of Hb with
         | _ = true => apply wp_bind, wp_mmodify; destruct ipc; [apply wp_mmodify|apply wp_mret]
         | _ => apply wp_mret
         end.
    all: cbv beta; apply HQ'; unfold dframe; cbn in *; rewrite ?xmits_app, ?app_nil_r, ?Z.lor_0_r, ?Hb, ?app_nil_r; done.
Qed.

(** The cells of the window around one submitted packet. *)
Lemma cells_split sent posted j ds b b' :
  sent !! j = Some (ds, b) → ∃ pre rest, length pre = tlen (take j sent.*1) ∧
    cells sent posted = pre ++ sent_cells (ds, b) ++ rest ∧
    cells (<[j := (ds, b')]> sent) posted = pre ++ sent_cells (ds, b') ++ rest.
Proof.
  intros Hj. pose proof (lookup_lt_Some _ _ _ Hj). pose proof (take_drop_middle _ _ _ Hj) as Heq.
  exists (concat (sent_cells <$> take j sent)), (concat (sent_cells <$> drop (S j) sent) ++ concat posted).
  split_and!.
  - by rewrite length_sent_cells, fmap_take.
  - unfold cells. rewrite <- Heq at 1. rewrite fmap_app, concat_app, fmap_cons. cbn [concat]. by rewrite <- !app_assoc.
  - rewrite insert_take_drop by done. unfold cells. rewrite fmap_app, concat_app, fmap_cons. cbn [concat]. by rewrite <- !app_assoc.
Qed.
Lemma fst_insert sent j (ds : list dp_desc) (b b' : bool) : sent !! j = Some (ds, b) → (<[j := (ds, b')]> sent).*1 = sent.*1.
Proof. intros Hj. rewrite list_fmap_insert. apply list_insert_id. by rewrite list_lookup_fmap, Hj. Qed.
Lemma pkts_wf_lookup p l j ds : pkts_wf p l → l !! j = Some ds → pkt_wf (p + tlen (take j l)) ds.
Proof.
  intros Hwf Hj. rewrite <- (take_drop_middle _ _ _ Hj) in Hwf. apply pkts_wf_app in Hwf as [_ [Hp _]]. exact Hp.
Qed.

(** The device finishes the [j]-th submitted packet. *)
Lemma dinv_finish s old sent posted j ds ipc :
  dinv s old sent posted → sent !! j = Some (ds, false) →
  wp no_fault (L4VMnet_skb_dp83820_destructor ipc (length old + j))
    (λ _ s', dinv s' old (<[j := (ds, true)]> sent) posted ∧ told s s' (existsb dd_intr ds) ∧
       dp_inflight s' = delete (length old + j)%nat (dp_inflight s)) s.
Proof using N_pos lk_range lk_inj.
  intros Hv Hj. pose proof (dinv_window _ _ _ _ Hv) as Hwin. destruct Hv as [Hat Hwf Htx Hn Hi Hd Hx].
  unfold L4VMnet_skb_dp83820_destructor. apply wp_bind, wp_mget, wp_bind.
  assert (dp_inflight s !! (length old + j)%nat = Some (skb_of (tlen old + tlen (take j sent.*1)) ds)) as Hk
    by (apply Hi; eauto 6). rewrite Hk. apply wp_mret.
  destruct (cells_split sent posted j ds false true Hj) as (pre & rest & Hpre & Hc & Hc').
  assert (pkt_wf (tlen old + tlen (take j sent.*1)) ds) as [Hlen [Hch _]].
  { pose proof (pkts_wf_app (tlen old) sent.*1 posted) as [Ha _]. destruct (Ha Hwf) as [Hs _].
    eapply pkts_wf_lookup; [exact Hs|]. by rewrite list_lookup_fmap, Hj. }
  destruct ds as [|d fs]; [simpl in Hlen; lia|]. rewrite Hc in Hat. rewrite <- Hpre in *.
  destruct Hch as (Hown & Hok & Hlink & Hm & Hb & Hln & Hch). cbn [skb_of dk_link].
  pose proof (lkp_range (tlen old + length pre)).
  apply wp_bind, wp_massert; [rewrite bool_decide_eq_true_2; [done|lia]|]. intros _. cbv zeta.
  rewrite (dp_at_addr _ _ _ _ Hat). unfold sent_cells in Hat. cbn [fst snd fmap list_fmap app] in Hat.
  apply wp_bind. eapply wp_load_dp; [exact Hat|apply lookup_mid|].
  apply wp_bind, wp_massert; [unfold sent_desc; cbn; by rewrite Hown|]. intros _. apply wp_bind.
  unfold store_dp. apply wp_mmodify, wp_bind, wp_mmodify.
  pose proof (dp_at_store _ _ _ _ _ (dd_set_own false (sent_desc d)) Hat (lookup_mid pre _ _)) as Hat'.
  rewrite insert_mid in Hat'.
  replace (if dd_more (sent_desc d) then dd_link (sent_desc d) else 0) with
    (if nonempty fs then lkp (tlen old + length (pre ++ [done_desc d])) else 0).
  2: { unfold sent_desc; cbn. rewrite Hm, Hlink, length_app. simpl.
       by replace (S (tlen old + length pre)) with (tlen old + (length pre + 1))%nat by lia. }
  apply wp_bind. eapply (dp_release_frags_ok fs _ (tlen old) (pre ++ [done_desc d]) rest).
  - rewrite <- app_assoc. destruct Hat' as (? & ? & ?). by split_and!.
  - rewrite length_app. simpl. by replace (tlen old + (length pre + 1))%nat with (S (tlen old + length pre)) by lia.
  - simpl in Hlen. lia.
  - intros m Hm'. rewrite <- app_assoc in Hm'. eapply tell_ok; [exact Hm'|exact Htx|lia|].
    intros s' Hf Ht. apply wp_mmodify. split; [|split; [exact Ht|]].
    2: { destruct Hf as (_ & _ & _ & _ & _ & E6 & _). cbn. by rewrite E6. }
    eapply (dinv_frame (dp_set_inflight (delete (length old + j)%nat (dp_inflight s))
      (dp_set_mem m (dp_set_dirty (dp_dirty s - 1) s)))).
    + split; rewrite ?(fst_insert _ _ _ _ true Hj); try done.
      * rewrite Hc'. exact Hm'.
      * by rewrite length_insert.
      * intros k skb. cbn. rewrite lookup_delete_Some, Hi. setoid_rewrite list_lookup_insert_Some. split.
        -- intros (Hne & j' & ds' & Hj' & -> & ->). exists j', ds'. split_and!; [|done..]. right. split; [|done]. lia.
        -- intros (j' & ds' & [(-> & [=] & _)|[Hne Hj']] & -> & ->). split; [lia|]. eauto 6.
      * cbn. rewrite map_size_delete_Some by eauto. assert (0 < size (dp_inflight s))%nat.
        { destruct (size (dp_inflight s)) eqn:Hz; [|lia].
          apply map_size_empty_inv in Hz. rewrite Hz in Hk. done. }
        lia.
    + destruct Hf as (E1 & E2 & E3 & E4 & E5 & E6 & E7 & E8). unfold dframe. cbn in *. rewrite E6. by split_and!.
Qed.

(** The client posts a packet behind those in the ring. *)
Lemma dinv_post s old sent posted ds :
  dinv s old sent posted → pkt_wf (tlen old + tlen (sent.*1 ++ posted)) ds → (tlen (sent.*1 ++ posted) + length ds ≤ N)%nat →
  dinv (dp_set_mem (post_descs (tlen old + tlen (sent.*1 ++ posted)) ds (dp_mem s)) s) old sent (posted ++ [ds]).
Proof using N_pos lk_range lk_inj.
  intros [(Hf & Hs & Hat) Hwf Htx Hn Hi Hd Hx] Hp Hl.
  assert (length (cells sent posted) = tlen (sent.*1 ++ posted)) as Hlen.
  { unfold cells. by rewrite length_app, length_sent_cells, tlen_app. }
  split; try done.
  - split_and!; [done..|]. cbn. rewrite <- Hlen in *.
    replace (cells sent (posted ++ [ds])) with (cells sent posted ++ ds).
    2: { unfold cells. rewrite concat_app. cbn. by rewrite app_nil_r, app_assoc. }
    by apply ring_at_post.
  - rewrite app_assoc. apply pkts_wf_app. split; [done|]. by split.
Qed.

(** The client finds the first packet given back. *)
Lemma dinv_reclaim s old sent posted ds live :
  dinv s old sent posted → sent.*1 ++ posted = ds :: live →
  (∀ i, (i < length ds)%nat → ∃ d, dp_mem s !! addr (tlen old + i) = Some d ∧ dd_own d = false) →
  ∃ sent', sent = (ds, true) :: sent' ∧ dinv s (old ++ [ds]) sent' posted.
Proof using N_pos.
  intros [(Hf & Hs & Hat) Hwf Htx Hn Hi Hd Hx] Heq Hfree.
  assert (∀ d, head (cells sent posted) = Some d → dd_own d = false) as Hhead.
  { intros d Hh. destruct (cells sent posted) as [|d' cs] eqn:Hcs; [done|]. injection Hh as ->.
    destruct (Hfree 0%nat) as (d' & Hd' & Ho).
    { rewrite Heq in Hwf. destruct Hwf as [[? _] _]. lia. }
    rewrite (ra_cells _ _ _ Hat 0 d eq_refl) in Hd'. by injection Hd' as ->. }
  rewrite Heq in Hwf. destruct Hwf as [[Hlen [Hch Hcs]] Hwf]. destruct ds as [|d fs]; [simpl in Hlen; lia|].
  destruct Hch as (Hown & _).
  destruct sent as [|[ds b] sent]; simpl in Heq.
  { subst. unfold cells in Hhead. simpl in Hhead. rewrite (Hhead d eq_refl) in Hown. done. }
  injection Heq as -> <-. destruct b.
  2: { unfold cells in Hhead. simpl in Hhead. specialize (Hhead _ eq_refl). cbn in Hhead. congruence. }
  exists sent. split; [done|]. assert (tlen (old ++ [d :: fs]) = tlen old + length (d :: fs))%nat as Ht.
  { rewrite tlen_app, tlen_cons. unfold tlen at 2. simpl. lia. }
  split; rewrite ?Ht; try done.
  - split_and!; [done..|]. replace (length (d :: fs)) with (length (done_desc <$> d :: fs)) by (by rewrite length_fmap).
    apply ring_at_reclaim; [unfold cells in *; by rewrite app_assoc|]. apply Forall_fmap, Forall_true. done.
  - rewrite Htx, fmap_cons. cbn [fst]. rewrite tlen_cons. f_equal. lia.
  - rewrite Hn, length_app. simpl. lia.
  - intros k skb. rewrite Hi. rewrite length_app. split.
    + intros ([|j] & ds' & Hj & -> & ->); [done|]. exists j, ds'. split; [done|]. split; [simpl; lia|].
      rewrite fmap_cons. cbn [take fst]. rewrite tlen_cons. f_equal. lia.
    + intros (j & ds' & Hj & -> & ->). exists (S j), ds'. split; [done|]. split; [simpl; lia|].
      rewrite fmap_cons. cbn [take fst]. rewrite tlen_cons. f_equal. lia.
  - rewrite Hx. by rewrite <- app_assoc.
Qed.

(** ** Interleavings

    The client posts packets, reads the [own] bits and writes its registers; the
    server sends; the device finishes packets in any order. [old] are the packets
    the client has taken back and [live] the others it has posted. *)
Record dp_world : Type := mk_dpw { dw_srv : dpst; dw_old : list (list dp_desc); dw_live : list (list dp_desc) }.

Definition dp_registers (isr imr ier : Z) (pending : bool) (status : irq_words) (s : dpst) : dpst :=
  mk_dpst (dp_first s) (dp_start s) (dp_mem s) (dp_txdp s) isr imr ier pending status (dp_dirty s) (dp_inflight s)
    (dp_next s) (dp_events s).

Inductive dp_step : dp_world → dp_world → Prop :=
  | DPost s old live ds :
      pkt_wf (tlen old + tlen live) ds → (tlen live + length ds ≤ N)%nat →
      dp_step (mk_dpw s old live)
        (mk_dpw (dp_set_mem (post_descs (tlen old + tlen live) ds (dp_mem s)) s) old (live ++ [ds]))
  | DReclaim s old ds live :
      (∀ i, (i < length ds)%nat → ∃ d, dp_mem s !! addr (tlen old + i) = Some d ∧ dd_own d = false) →
      dp_step (mk_dpw s old (ds :: live)) (mk_dpw s (old ++ [ds]) live)
  | DRegisters s old live isr imr ier pending status :
      dp_step (mk_dpw s old live) (mk_dpw (dp_registers isr imr ier pending status s) old live)
  | DQueue s old live alloc b s' :
      L4VMnet_dev_queue_dp83820_pkt true alloc s = Ok b s' → dp_step (mk_dpw s old live) (mk_dpw s' old live)
  | DFinish s old live ipc k s' :
      L4VMnet_skb_dp83820_destructor ipc k s = Ok tt s' → dp_step (mk_dpw s old live) (mk_dpw s' old live).

(** The ring of a client that has registered it: no descriptor is handed over. *)
Definition dp_init (s : dpst) : Prop :=
  dp_first s = first ∧ dp_start s = start ∧ dp_txdp s = lkp 0 ∧ dp_next s = 0%nat ∧ dp_inflight s = ∅ ∧ dp_dirty s = 0 ∧
  dp_events s = [] ∧ ∀ i, (i < N)%nat → ∃ d, dp_mem s !! addr i = Some d ∧ dd_own d = false.
Definition dp_reachable (w : dp_world) : Prop := ∃ s, dp_init s ∧ rtc dp_step (mk_dpw s [] []) w.

Definition dgood (w : dp_world) : Prop :=
  ∃ sent posted, dinv (dw_srv w) (dw_old w) sent posted ∧ dw_live w = sent.*1 ++ posted.

Lemma dgood_init s : dp_init s → dgood (mk_dpw s [] []).
Proof using N_pos.
  intros (? & ? & Htx & Hn & Hi & Hd & Hev & Hm). exists [], []. split; [|done]. split; cbn.
  - split_and!; [done..|]. split; [done| |simpl; lia]. intros k Hk. apply Hm. lia.
  - done.
  - exact Htx.
  - done.
  - intros k skb. rewrite Hi, lookup_empty. split; [done|]. intros (j & ds & Hj & _). done.
  - by rewrite Hi, map_size_empty, Hd.
  - by rewrite Hev.
Qed.

Lemma dgood_inflight s old live k skb :
  dgood (mk_dpw s old live) → dp_inflight s !! k = Some skb →
  ∃ sent posted j ds, dinv s old sent posted ∧ live = sent.*1 ++ posted ∧ sent !! j = Some (ds, false) ∧ k = (length old + j)%nat.
Proof. intros (sent & posted & Hv & Hl) Hk. apply (dv_inflight _ _ _ _ Hv) in Hk as (j & ds & Hj & -> & _). eauto 10. Qed.

Lemma dgood_step w w' : dgood w → dp_step w w' → dgood w'.
Proof using N_pos lk_range lk_inj.
  intros Hg Hstep. destruct Hstep as [s old live ds Hp Hl|s old ds live Hfree|s old live isr imr ier pending status
    |s old live alloc b s' Hrun|s old live ipc k s' Hrun]; pose proof Hg as (sent & posted & Hv & Hlive); cbn in Hv, Hlive.
  - subst. exists sent, (posted ++ [ds]). split; [by apply dinv_post|]. cbn. by rewrite app_assoc.
  - destruct (dinv_reclaim _ _ _ _ _ _ Hv (eq_sym Hlive) Hfree) as (sent' & -> & Hv'). exists sent', posted.
    split; [done|]. simpl in Hlive. by injection Hlive.
  - exists sent, posted. split; [|done]. eapply dinv_frame; [exact Hv|]. by unfold dframe.
  - pose proof (wp_ok _ _ _ _ _ _ (dinv_queue _ _ _ _ alloc Hv) Hrun) as Hq. destruct posted as [|ds posted].
    + destruct Hq. by exists sent, [].
    + destruct alloc; destruct Hq as [-> Hq]; [|by exists sent, (ds :: posted)].
      exists (sent ++ [(ds, false)]), posted. split; [done|]. cbn. subst. by rewrite fmap_app, <- app_assoc.
  - destruct (dp_inflight s !! k) as [skb|] eqn:Hk.
    + destruct (dgood_inflight _ _ _ _ _ Hg Hk) as (sent' & posted' & j & ds & Hv' & -> & Hj & ->).
      pose proof (wp_ok _ _ _ _ _ _ (dinv_finish _ _ _ _ _ _ ipc Hv' Hj) Hrun) as [Hq _].
      exists (<[j := (ds, true)]> sent'), posted'. split; [done|]. cbn. by rewrite (fst_insert _ _ _ _ true Hj).
    + unfold L4VMnet_skb_dp83820_destructor in Hrun. erewrite bind_ok in Hrun by done. cbv beta in Hrun. by rewrite Hk in Hrun.
Qed.
Lemma dgood_reachable w : dp_reachable w → dgood w.
Proof using N_pos lk_range lk_inj.
  intros (s & Hs & Hr). apply dgood_init in Hs. revert Hs. induction Hr; eauto using dgood_step.
Qed.

(** What the ring shows of a descriptor [d] of packet [k]: as posted, submitted to the
    device, or given back. *)
Definition shown (s : dpst) (k : nat) (d : dp_desc) : dp_desc :=
  if bool_decide (dp_next s ≤ k)%nat then d
  else match dp_inflight s !! k with Some _ => sent_desc d | None => done_desc d end.

Lemma concat_lookup (l : list (list dp_desc)) j ds i d :
  l !! j = Some ds → ds !! i = Some d → concat l !! (tlen (take j l) + i)%nat = Some d.
Proof.
  intros Hj Hi. assert (concat l = concat (take j l) ++ ds ++ concat (drop (S j) l)) as ->.
  { rewrite <- (take_drop_middle _ _ _ Hj) at 1. by rewrite concat_app. }
  rewrite lookup_app_r by (unfold tlen; lia). replace (tlen (take j l) + i - length (concat (take j l)))%nat with i by (unfold tlen; lia).
  rewrite lookup_app_l; [done|]. by eapply lookup_lt_Some.
Qed.

Lemma dinv_shown s old sent posted j ds i d :
  dinv s old sent posted → (sent.*1 ++ posted) !! j = Some ds → ds !! i = Some d →
  dp_mem s !! addr (tlen old + tlen (take j (sent.*1 ++ posted)) + i) = Some (shown s (length old + j) d).
Proof.
  intros [(_ & _ & Hat) Hwf Htx Hn Hi Hd Hx] Hj Hds. unfold shown. rewrite Hn, <- Nat.add_assoc.
  apply (ra_cells _ _ _ Hat). apply lookup_app_Some in Hj as [Hj|[Hge Hj]].
  - assert (j < length sent)%nat as Hlt by (apply lookup_lt_Some in Hj; by rewrite length_fmap in Hj).
    rewrite bool_decide_eq_false_2 by lia. rewrite take_app_le by (rewrite length_fmap; lia).
    rewrite list_lookup_fmap in Hj. destruct (sent !! j) as [[ds' b]|] eqn:Hs; [|done]. simpl in Hj. injection Hj as ->. rename Hs into Hj.
    destruct (cells_split sent posted j ds b b Hj) as (pre & rest & Hpre & -> & _). rewrite <- Hpre.
    pose proof (lookup_lt_Some _ _ _ Hds). rewrite lookup_app_r by lia.
    replace (length pre + i - length pre)%nat with i by lia.
    rewrite lookup_app_l by (unfold sent_cells; rewrite length_fmap; simpl; lia).
    unfold sent_cells. cbn [fst snd]. rewrite list_lookup_fmap, Hds. cbn [fmap option_fmap option_map]. f_equal.
    destruct (dp_inflight s !! (length old + j)%nat) as [skb|] eqn:Hk.
    + apply Hi in Hk as (j' & ds' & Hj' & Hjj & _). replace j' with j in Hj' by lia. rewrite Hj in Hj'. by simplify_eq.
    + destruct b; [done|]. assert (is_Some (dp_inflight s !! (length old + j)%nat)) as [? Hk']; [|congruence].
      eexists. apply Hi. eauto.
  - rewrite length_fmap in *. rewrite bool_decide_eq_true_2 by lia. unfold cells. rewrite take_app_ge by (rewrite length_fmap; lia).
    rewrite tlen_app, length_fmap. rewrite lookup_app_r by (rewrite length_sent_cells; lia). rewrite length_sent_cells.
    replace (tlen sent.*1 + tlen (take (j - length sent) posted) + i - tlen sent.*1)%nat
      with (tlen (take (j - length sent) posted) + i)%nat by lia. by eapply concat_lookup.
Qed.

Lemma skbs_lookup p l j ds : l !! j = Some ds → skbs p l !! j = Some (skb_of (p + tlen (take j l)) ds).
Proof.
  revert p j. induction l as [|ds' l IH]; intros p [|j] Hj; try done; simpl in *.
  - injection Hj as ->. unfold tlen. simpl. by rewrite Nat.add_0_r.
  - rewrite (IH _ _ Hj), tlen_cons. by rewrite Nat.add_assoc.
Qed.
Lemma take_skbs p l n : take n (skbs p l) = skbs p (take n l).
Proof. revert p n. induction l as [|ds l IH]; intros p [|n]; try done. simpl. by rewrite IH. Qed.

(** C12. The device gets the packets the client posts, in their order, each once and
    with the data of its descriptors. A packet the device has is in no other state
    than submitted, a descriptor is given back when the device has finished its
    packet, and the client never takes back one that is in flight. *)
Theorem dp83820_in_order w : dp_reachable w →
  let pkts := dw_old w ++ dw_live w in let n := dp_next (dw_srv w) in
  (length (dw_old w) ≤ n ≤ length pkts)%nat ∧
  xmits (dp_events (dw_srv w)) = imap pair (skbs 0 (take n pkts)) ∧
  (∀ k skb, dp_inflight (dw_srv w) !! k = Some skb → (length (dw_old w) ≤ k < n)%nat ∧ skbs 0 pkts !! k = Some skb) ∧
  dp_dirty (dw_srv w) = size (dp_inflight (dw_srv w)) ∧
  ∀ k ds i d, (length (dw_old w) ≤ k)%nat → pkts !! k = Some ds → ds !! i = Some d →
    dp_mem (dw_srv w) !! addr (tlen (take k pkts) + i) = Some (shown (dw_srv w) k d).
Proof using N_pos lk_range lk_inj.
  intros Hr pkts n. apply dgood_reachable in Hr as (sent & posted & Hv & Hl). pose proof Hv as [Hat Hwf Htx Hn Hi Hd Hx].
  assert (take n pkts = dw_old w ++ sent.*1) as Htake.
  { unfold n, pkts. rewrite Hn, Hl, app_assoc, take_app_le, take_ge by (rewrite length_app, length_fmap; lia). done. }
  split_and!.
  - unfold n. lia.
  - unfold n, pkts. rewrite Hn, Hl, !length_app, length_fmap. lia.
  - by rewrite Htake.
  - intros k skb Hk. apply Hi in Hk as (j & ds & Hj & -> & ->). pose proof (lookup_lt_Some _ _ _ Hj). unfold n. split; [lia|].
    assert (pkts !! (length (dw_old w) + j)%nat = Some ds) as Hp.
    { unfold pkts. rewrite lookup_app_r by lia. replace (length (dw_old w) + j - length (dw_old w))%nat with j by lia.
      rewrite Hl, lookup_app_l by (rewrite length_fmap; lia). by rewrite list_lookup_fmap, Hj. }
    rewrite (skbs_lookup 0 _ _ _ Hp). simpl. unfold pkts.
    rewrite take_app_add, tlen_app, Hl, take_app_le by (rewrite length_fmap; lia). done.
  - done.
  - intros k ds i d Hk Hp Hds. unfold pkts in *. rewrite lookup_app_r in Hp by lia. rewrite Hl in Hp.
    replace k with (length (dw_old w) + (k - length (dw_old w)))%nat by lia.
    rewrite take_app_add, tlen_app, Hl. by eapply dinv_shown.
Qed.

(** No interleaving makes the server fault: it can always look for the next packet,
    whatever the allocator does, and every packet of the device can be finished,
    which raises the transmit interrupts of the client and tells the server or the
    client of it. *)
Theorem dp83820_no_fault w : dp_reachable w →
  (∀ alloc, ∃ b s', L4VMnet_dev_queue_dp83820_pkt true alloc (dw_srv w) = Ok b s' ∧
     (b = true ↔ alloc = true ∧ (dp_next (dw_srv w) < length (dw_old w ++ dw_live w))%nat)) ∧
  ∀ k skb ipc, dp_inflight (dw_srv w) !! k = Some skb → ∃ s' ds,
     (dw_old w ++ dw_live w) !! k = Some ds ∧
     L4VMnet_skb_dp83820_destructor ipc k (dw_srv w) = Ok tt s' ∧
     dp_inflight s' = delete k (dp_inflight (dw_srv w)) ∧ told (dw_srv w) s' (existsb dd_intr ds).
Proof using N_pos lk_range lk_inj.
  intros Hr. apply dgood_reachable in Hr as Hg. pose proof Hg as (sent & posted & Hv & Hl). split.
  - intros alloc. destruct (wp_no_fault _ _ _ (dinv_queue _ _ _ _ alloc Hv)) as (b & s' & Hrun & Hq).
    exists b, s'. split; [done|]. rewrite (dv_next _ _ _ _ Hv), Hl, !length_app, length_fmap.
    destruct posted as [|ds posted], alloc; destruct Hq as [-> _]; simpl; split; (done || lia || intros [? ?]; (done || lia)).
  - intros k skb ipc Hk. destruct w as [s old live]. cbn in *.
    destruct (dgood_inflight _ _ _ _ _ Hg Hk) as (sent' & posted' & j & ds & Hv' & -> & Hj & ->).
    destruct (wp_no_fault _ _ _ (dinv_finish _ _ _ _ _ _ ipc Hv' Hj)) as ([] & s' & Hrun & _ & Ht & Hd).
    exists s', ds. split_and!; try done. pose proof (lookup_lt_Some _ _ _ Hj). rewrite lookup_app_r by lia.
    replace (length old + j - length old)%nat with j by lia. rewrite lookup_app_l by (rewrite length_fmap; lia).
    by rewrite list_lookup_fmap, Hj.
Qed.
End ring.

(** ** Sending for all clients *)

Section clients.
Context {E : DpEnv}.

(** The ring of a client, with the packets taken back and the others posted. *)
Record dp_ring : Type := mk_dpr {
  rg_N : nat; rg_lk : nat → Z; rg_first : Z; rg_start : Z;
  rg_old : list (list dp_desc); rg_live : list (list dp_desc)
}.
Definition rg_pkts (r : dp_ring) : list (list dp_desc) := rg_old r ++ rg_live r.
Definition lk_ok (N : nat) (lk : nat → Z) : Prop :=
  (0 < N)%nat ∧ (∀ i, (i < N)%nat → 0 < lk i < 2 ^ 32) ∧ ∀ i j, (i < N)%nat → (j < N)%nat → lk i = lk j → i = j.
Definition client_ok (c : dp_client) (r : dp_ring) : Prop :=
  dc_real_dev c = true ∧ lk_ok (rg_N r) (rg_lk r) ∧
  dp_reachable (rg_N r) (rg_lk r) (rg_first r) (rg_start r) (mk_dpw (dc_st c) (rg_old r) (rg_live r)).
(** The packets of a client, and of all, not yet given to the device. *)
Definition pending (c : dp_client) (r : dp_ring) : nat := length (rg_pkts r) - dp_next (dc_st c).
Definition all_pending (cs : list dp_client) (rs : list dp_ring) : nat := sum_list (zip_with pending cs rs).
(** What sending leaves of a client. *)
Definition same_client (c c' : dp_client) : Prop :=
  dc_operating c' = dc_operating c ∧ (dc_operating c = false → c' = c).

Lemma client_queue c r alloc :
  client_ok c r → ∃ b s, L4VMnet_dev_queue_dp83820_pkt (dc_real_dev c) alloc (dc_st c) = Ok b s ∧
    client_ok (mk_dpc true (dc_real_dev c) s) r ∧
    pending c r = ((if (b : bool) then 1 else 0) + pending (mk_dpc true (dc_real_dev c) s) r)%nat ∧
    (b = false → alloc = true → pending c r = 0%nat).
Proof.
  intros (Hreal & Hlk & Hr). pose proof Hlk as (HN & Hrange & Hinj).
  pose proof (dgood_reachable _ _ _ _ HN Hrange Hinj _ Hr) as (sent & posted & Hv & Hl). cbn in Hv, Hl.
  destruct (wp_no_fault _ _ _ (dinv_queue _ _ _ _ HN Hrange Hinj _ _ _ _ alloc Hv)) as (b & s & Hrun & Hq).
  exists b, s. rewrite Hreal. split_and!; [done|..].
  - split_and!; [done..|]. destruct Hr as (s0 & Hs0 & Hsteps). exists s0. split; [done|].
    eapply rtc_r; [exact Hsteps|]. cbn. by eapply DQueue.
  - unfold pending, rg_pkts. cbn. rewrite Hl, (dv_next _ _ _ _ _ _ _ _ Hv), !length_app, length_fmap.
    destruct posted as [|ds posted]; [|destruct alloc]; destruct Hq as [-> Hv']; rewrite (dv_next _ _ _ _ _ _ _ _ Hv');
      rewrite ?length_app; simpl; lia.
  - unfold pending, rg_pkts. rewrite Hl, (dv_next _ _ _ _ _ _ _ _ Hv), !length_app, length_fmap.
    intros -> ->. destruct posted as [|ds posted]; destruct Hq as [Hb _]; [simpl; lia|done].
Qed.

Lemma tx_round alloc clients rings :
  Forall2 client_ok clients rings → ∃ cs n, dp_tx_round alloc clients = inr (cs, n) ∧
    Forall2 client_ok cs rings ∧ Forall2 same_client clients cs ∧
    all_pending clients rings = (n + all_pending cs rings)%nat ∧
    (n = 0%nat → (∀ i, alloc i = true) → Forall2 (λ c r, dc_operating c = true → pending c r = 0%nat) cs rings).
Proof.
  induction 1 as [|c r clients rings Hc Hcs (cs & n & Hrun & Hok & Hsame & Hp & Hz)].
  { exists [], 0%nat. split_and!; done. }
  cbn [dp_tx_round]. rewrite Hrun. destruct (dc_operating c) eqn:Hop; cbn [negb].
  - destruct (client_queue c r (alloc (length clients)) Hc) as (b & s & -> & Hc' & Hpc & Hbz).
    eexists _, _. split; [done|]. split_and!.
    + by constructor.
    + constructor; [|done]. unfold same_client. by rewrite Hop.
    + unfold all_pending in *. cbn [zip_with]. cbn [sum_list sum_list_with] in *. rewrite Hpc. simpl. destruct b; lia.
    + destruct b; [done|]. intros Hn Hal. constructor; [|by apply Hz]. intros _. specialize (Hbz eq_refl (Hal _)). lia.
  - eexists _, _. split; [done|]. split_and!.
    + by constructor.
    + constructor; [done|]. done.
    + unfold all_pending in *. simpl. lia.
    + intros Hn Hal. constructor; [congruence|by apply Hz].
Qed.

Lemma same_client_trans c1 c2 c3 : same_client c1 c2 → same_client c2 c3 → same_client c1 c3.
Proof. intros [H1 H2] [H3 H4]. split; [congruence|]. intros Hf. rewrite <- (H2 Hf). apply H4. congruence. Qed.

Lemma sent_all c r :
  client_ok c r → pending c r = 0%nat →
  xmits (dp_events (dc_st c)) = imap pair (skbs (rg_N r) (rg_lk r) 0 (rg_pkts r)).
Proof.
  intros (_ & (HN & Hrange & Hinj) & Hr) Hp.
  apply (dgood_reachable _ _ _ _ HN Hrange Hinj) in Hr as (sent & posted & Hv & Hl). cbn in Hv, Hl.
  unfold pending, rg_pkts in *. rewrite Hl, (dv_next _ _ _ _ _ _ _ _ Hv), !length_app, length_fmap in Hp.
  destruct posted; [|simpl in Hp; lia]. rewrite app_nil_r in Hl. by rewrite Hl, (dv_xmits _ _ _ _ _ _ _ _ Hv).
Qed.

(** C36. The loop over the clients ends: more rounds than packets waiting are enough for
    any outcomes of the allocator. Clients that do not operate are left alone, and
    when no allocation fails everything the others have posted is with the device. *)
Theorem dp83820_tx_terminates alloc fuel clients rings :
  Forall2 client_ok clients rings → (all_pending clients rings < fuel)%nat →
  ∃ cs, L4VMnet_dp83820_tx_pkts fuel alloc clients = inr cs ∧
    Forall2 client_ok cs rings ∧ Forall2 same_client clients cs ∧
    ((∀ i j, alloc i j = true) → Forall2 (λ c r, dc_operating c = true →
       xmits (dp_events (dc_st c)) = imap pair (skbs (rg_N r) (rg_lk r) 0 (rg_pkts r))) cs rings).
Proof.
  revert clients. induction fuel as [|fuel IH]; intros clients Hok Hf; [lia|]. cbn [L4VMnet_dp83820_tx_pkts].
  destruct (tx_round (alloc fuel) clients rings Hok) as (cs & n & -> & Hok' & Hsame & Hp & Hz).
  destruct (decide (n = 0%nat)) as [->|Hn].
  - rewrite bool_decide_eq_true_2 by done. exists cs. split_and!; [done..|]. intros Hal.
    specialize (Hz eq_refl (Hal fuel)). clear -Hz Hok'. revert Hz. induction Hok' as [|c r cs rs Hc Hcs IH]; inversion_clear 1; constructor; auto.
    intros Hop. apply sent_all; auto.
  - rewrite bool_decide_eq_false_2 by done. destruct (IH cs Hok') as (cs' & Hrun & Hok'' & Hsame' & Hall); [lia|].
    exists cs'. split_and!; [done..| |done]. eapply list.Forall2_trans; [|exact Hsame|exact Hsame'].
    intros c1 c2 c3. apply same_client_trans.
Qed.
End clients.

(** ** A ring of four descriptors *)

Module Wit.
Definition env_phys (p : Z) : Z := Z.shiftl p PAGE_SHIFT.
Lemma env_page b : 0 ≤ b < 2 ^ 32 → env_phys (Z.shiftr b PAGE_SHIFT) = Z.land b (Z.lnot (PAGE_SIZE - 1)).
Proof.
  intros _. unfold env_phys. rewrite <- Z.ldiff_ones_r by (vm_compute; discriminate). rewrite Z.ldiff_land. done.
Qed.
#[local] Instance env : DpEnv := {|
  dp_bus_to_virt b := u32 (b + 3221225472); dp_bus_to_phys b := b; dp_page_to_bus := env_phys; dp_bus_start := 65536;
  dp_MAX_SKB_FRAGS := 2; dp_page_to_bus_phys := env_page |}.

Definition N : nat := 4.
Definition lk (i : nat) : Z := 8192 + 16 * Z.of_nat i.
Definition first : Z := 8192.
Definition start : Z := 3489660928.
Lemma N_pos : (0 < N)%nat. Proof. unfold N. lia. Qed.
Lemma lk_range i : (i < N)%nat → 0 < lk i < 2 ^ 32. Proof. unfold N, lk. lia. Qed.
Lemma lk_inj i j : (i < N)%nat → (j < N)%nat → lk i = lk j → i = j. Proof. unfold lk. lia. Qed.

Definition idle_desc (i : nat) : dp_desc := mk_dpd (lk (S i `mod` N)) 0 0 false false false false false false false.
Definition s0 : dpst :=
  mk_dpst first start (list_to_map ((λ i, (addr N lk first start i, idle_desc i)) <$> seq 0 N)) (lk 0) 0 64 1 false
    (mk_irq 0 false) 0 ∅ 0 [].
(** A TCP packet of two descriptors, and the states in which it is posted and sent. *)
Definition pkt : list dp_desc :=
  [mk_dpd (lk 1) 20480 54 true true false false true true false; mk_dpd (lk 2) 24600 1000 true false true false false false false].
Definition s1 : dpst := dp_set_mem (post_descs N lk first start 0 pkt (dp_mem s0)) s0.
Definition s2 : dpst := match L4VMnet_dev_queue_dp83820_pkt true true s1 with Ok _ s => s | Err _ => s1 end.

Lemma init : dp_init N lk first start s0.
Proof.
  unfold dp_init. split_and!; try reflexivity. intros i Hi. unfold N in Hi.
  destruct i as [|[|[|[|i]]]]; try lia; eexists; split; vm_compute; reflexivity.
Qed.
Lemma pkt_ok : pkt_wf N lk 0 pkt.
Proof.
  split; [simpl; lia|]. split; [|by intros ? [= <-]]. simpl. by split_and!.
Qed.
Lemma reach1 : dp_reachable N lk first start (mk_dpw s1 [] [pkt]).
Proof.
  exists s0. split; [exact init|]. apply rtc_once. apply (DPost N lk first start s0 [] [] pkt); [exact pkt_ok|].
  unfold tlen, N. simpl. lia.
Qed.
Lemma run2 : L4VMnet_dev_queue_dp83820_pkt true true s1 = Ok true s2.
Proof. vm_compute. reflexivity. Qed.
Lemma reach2 : dp_reachable N lk first start (mk_dpw s2 [] [pkt]).
Proof.
  destruct reach1 as (s & Hs & Hr). exists s. split; [done|]. eapply rtc_r; [exact Hr|]. by eapply DQueue, run2.
Qed.

Lemma dp83820_in_order_witness :
  dp_reachable N lk first start (mk_dpw s2 [] [pkt]) ∧
  xmits (dp_events s2) = [(0%nat, mk_dpskb 8192 3221311488 1054 1000 (Some 16) [mk_frag 22 24 1000])] ∧
  (1 ≤ 1)%nat.
Proof.
  split; [exact reach2|]. split; [vm_compute; reflexivity|].
  pose proof (dp83820_in_order N lk first start N_pos lk_range lk_inj (mk_dpw s2 [] [pkt]) reach2) as [H _].
  exact (proj2 H).
Defined.
Lemma dp83820_no_fault_witness :
  dp_reachable N lk first start (mk_dpw s2 [] [pkt]) ∧
  ∃ s', L4VMnet_skb_dp83820_destructor false 0 s2 = Ok tt s' ∧ dp_isr s' = 192 ∧ dp_inflight s' = ∅.
Proof.
  split; [exact reach2|].
  destruct (proj2 (dp83820_no_fault N lk first start N_pos lk_range lk_inj (mk_dpw s2 [] [pkt]) reach2) 0%nat
    (mk_dpskb 8192 3221311488 1054 1000 (Some 16) [mk_frag 22 24 1000]) false) as (s' & ds & Hp & Hrun & Hd & Ht & _).
  - vm_compute. reflexivity.
  - exists s'. split; [exact Hrun|]. injection Hp as <-. split; [rewrite Ht; vm_compute; reflexivity|].
    rewrite Hd. vm_compute. reflexivity.
Defined.
Lemma dp83820_tx_terminates_witness :
  (all_pending [mk_dpc true true s1; mk_dpc false true s1]
     [mk_dpr N lk first start [] [pkt]; mk_dpr N lk first start [] [pkt]] = 2)%nat ∧
  ∃ cs, L4VMnet_dp83820_tx_pkts 3 (λ _ _, true) [mk_dpc true true s1; mk_dpc false true s1] = inr cs.
Proof.
  split; [vm_compute; reflexivity|].
  destruct (dp83820_tx_terminates (λ _ _, true) 3 [mk_dpc true true s1; mk_dpc false true s1]
    [mk_dpr N lk first start [] [pkt]; mk_dpr N lk first start [] [pkt]]) as (cs & Hrun & _).
  - repeat constructor; first [exact lk_inj | exact reach1 | apply lk_range; assumption | vm_compute; lia].
  - vm_compute. lia.
  - exists cs. exact Hrun.
Defined.
End Wit.
