(* ===== verification/Pic.v ===== *)
(** * The virtual interrupt controllers

    Models the wedge's pair of 8259A controllers (afterburn-wedge/device/i8259a.h
    and i8259a.cc) and the interrupt logic around them (ia32/intlogic.h), in the
    configuration without local APIC and without QEMU. The calls to the backend
    for real devices are recorded. *)

From Stdlib Require Import ZArith Lia.
From stdpp Require Import base list numbers.
From S2P Require Import Prelude.

(** ** Words *)

(** [lsb] (ia32/bitops.h): the instruction [bsf], the lowest bit that is set;
    it is used on words that are not 0. *)
Fixpoint bsf (n : nat) (i w : Z) : Z :=
  match n with
  | O => 0
  | S n => if Z.testbit w i then i else bsf n (i + 1) w
  end.
Definition lsb (w : Z) : Z := bsf 32 0 w.
Definition bit_set (b w : Z) : Z := Z.lor w (Z.shiftl 1 b).
Definition bit_clear (b w : Z) : Z := Z.land w (Z.lnot (Z.shiftl 1 b)).
Definition bit_test (b w : Z) : bool := Z.testbit w b.

(** ** One controller (i8259a.h) *)

Inductive mode_e : Type := ocw_mode | icw2_mode | icw3_mode | icw4_mode.

Record i8259a_t : Type := mk_pic {
  icw1 : Z;
  icw2 : Z;
  icw3 : Z;
  icw4 : Z;
  mode : mode_e;
  irq_in_service : Z;
  irq_request : Z;
  irq_mask : Z;
  ocw_read : Z
}.
Definition p_set_icw1 x p := mk_pic x (icw2 p) (icw3 p) (icw4 p) (mode p) (irq_in_service p) (irq_request p) (irq_mask p) (ocw_read p).
Definition p_set_icw2 x p := mk_pic (icw1 p) x (icw3 p) (icw4 p) (mode p) (irq_in_service p) (irq_request p) (irq_mask p) (ocw_read p).
Definition p_set_icw3 x p := mk_pic (icw1 p) (icw2 p) x (icw4 p) (mode p) (irq_in_service p) (irq_request p) (irq_mask p) (ocw_read p).
Definition p_set_icw4 x p := mk_pic (icw1 p) (icw2 p) (icw3 p) x (mode p) (irq_in_service p) (irq_request p) (irq_mask p) (ocw_read p).
Definition p_set_mode x p := mk_pic (icw1 p) (icw2 p) (icw3 p) (icw4 p) x (irq_in_service p) (irq_request p) (irq_mask p) (ocw_read p).
Definition p_set_isr x p := mk_pic (icw1 p) (icw2 p) (icw3 p) (icw4 p) (mode p) x (irq_request p) (irq_mask p) (ocw_read p).
Definition p_set_irr x p := mk_pic (icw1 p) (icw2 p) (icw3 p) (icw4 p) (mode p) (irq_in_service p) x (irq_mask p) (ocw_read p).
Definition p_set_imr x p := mk_pic (icw1 p) (icw2 p) (icw3 p) (icw4 p) (mode p) (irq_in_service p) (irq_request p) x (ocw_read p).
Definition p_set_ocw x p := mk_pic (icw1 p) (icw2 p) (icw3 p) (icw4 p) (mode p) (irq_in_service p) (irq_request p) (irq_mask p) x.

(** The configuration words as they are stored, and their fields. *)
Definition icw1_raw (v : Z) : Z := Z.lor (Z.land v 0xb) 0x10.
Definition master_only (p : i8259a_t) : bool := Z.testbit (icw1 p) 1.
Definition icw4_enabled (p : i8259a_t) : bool := Z.testbit (icw1 p) 0.
Definition icw2_raw (v : Z) : Z := Z.land v 0xf8.
Definition get_idt_offset (p : i8259a_t) : Z := icw2 p.
Definition icw4_raw (v : Z) : Z := Z.land v 0x1f.
Definition is_auto_eoi (p : i8259a_t) : bool := Z.testbit (icw4 p) 1.

(** Operation command words. *)
Definition is_icw1 (v : Z) : bool := Z.testbit v 4.
Definition is_ocw3 (v : Z) : bool := Z.testbit v 3.
Definition get_op (v : Z) : Z := Z.land (Z.shiftr v 5) 7.
Definition is_specific_eoi (v : Z) : bool := bool_decide (get_op v = 3).
Definition is_non_specific_eoi (v : Z) : bool := bool_decide (get_op v = 1).
Definition is_read_request (v : Z) : bool := Z.testbit v 1.
Definition is_poll_mode (v : Z) : bool := Z.testbit v 2.
Definition is_read_isr (v : Z) : bool := Z.testbit v 0.

Definition seoi (irq : Z) (p : i8259a_t) : bool * i8259a_t :=
  if bit_test irq (irq_in_service p) then (true, p_set_isr (bit_clear irq (irq_in_service p)) p) else (false, p).
(** [eoi]: the interrupt it acknowledged, if any. *)
Definition eoi (p : i8259a_t) : option Z * i8259a_t :=
  if bool_decide (irq_in_service p ≠ 0) then
    let irq := lsb (irq_in_service p) in
    match seoi irq p with (true, p) => (Some irq, p) | (false, p) => (None, p) end
  else (None, p).

Definition mode_succ (m : mode_e) : mode_e :=
  match m with ocw_mode => icw2_mode | icw2_mode => icw3_mode | icw3_mode => icw4_mode | icw4_mode => ocw_mode end.
Definition mode_eqb (a b : mode_e) : bool :=
  match a, b with ocw_mode, ocw_mode | icw2_mode, icw2_mode | icw3_mode, icw3_mode | icw4_mode, icw4_mode => true | _, _ => false end.
Definition next_mode (p : i8259a_t) : i8259a_t :=
  let m := mode_succ (mode p) in
  let m := if mode_eqb m icw3_mode && master_only p then mode_succ m else m in
  let m := if mode_eqb m icw4_mode && negb (icw4_enabled p) then mode_succ m else m in
  p_set_mode m p.
Definition reset_mode (p : i8259a_t) : i8259a_t := p_set_mode icw2_mode p.

(** The constructor; the other members of the static object are 0. *)
Definition i8259a_init : i8259a_t := mk_pic 0 0 0 0 ocw_mode 0 0 0xff 2.

(** ** The interrupt logic (intlogic.h) *)

Inductive backend_event : Type := EnableDevice (irq : Z) | UnmaskDevice (irq : Z).

(** [irq_vectors] is the summary word of the CPU: bit 0 for the master, bit 1
    for the slave. *)
Record intlogic_t : Type := mk_il {
  master : i8259a_t;
  slave : i8259a_t;
  hwirq_latch : Z;
  hwirq_mask : Z;
  hwirq_squash : Z;
  irq_vectors : Z;
  il_events : list backend_event
}.
Definition il_set_master x l := mk_il x (slave l) (hwirq_latch l) (hwirq_mask l) (hwirq_squash l) (irq_vectors l) (il_events l).
Definition il_set_slave x l := mk_il (master l) x (hwirq_latch l) (hwirq_mask l) (hwirq_squash l) (irq_vectors l) (il_events l).
Definition set_hwirq_latch b l := mk_il (master l) (slave l) (bit_set b (hwirq_latch l)) (hwirq_mask l) (hwirq_squash l) (irq_vectors l) (il_events l).
Definition set_hwirq_mask b l := mk_il (master l) (slave l) (hwirq_latch l) (bit_set b (hwirq_mask l)) (hwirq_squash l) (irq_vectors l) (il_events l).
Definition clear_hwirq_mask b l := mk_il (master l) (slave l) (hwirq_latch l) (bit_clear b (hwirq_mask l)) (hwirq_squash l) (irq_vectors l) (il_events l).
Definition set_irq_vector irq l := mk_il (master l) (slave l) (hwirq_latch l) (hwirq_mask l) (hwirq_squash l) (bit_set (Z.shiftr irq 3) (irq_vectors l)) (il_events l).
Definition clear_irq_vector irq l := mk_il (master l) (slave l) (hwirq_latch l) (hwirq_mask l) (hwirq_squash l) (bit_clear (Z.shiftr irq 3) (irq_vectors l)) (il_events l).
Definition il_emit e l := mk_il (master l) (slave l) (hwirq_latch l) (hwirq_mask l) (hwirq_squash l) (irq_vectors l) (il_events l ++ [e]).
Definition is_hwirq_squashed b l : bool := bit_test b (hwirq_squash l).

(** The two controllers by the interrupt base they are used with. *)
Inductive chip : Type := Master | Slave.
#[global] Instance chip_eq_dec : EqDecision chip.
Proof. solve_decision. Defined.
Definition base (c : chip) : Z := match c with Master => 0 | Slave => 8 end.
Definition get_chip (c : chip) (l : intlogic_t) : i8259a_t := match c with Master => master l | Slave => slave l end.
Definition set_chip (c : chip) (p : i8259a_t) (l : intlogic_t) : intlogic_t :=
  match c with Master => il_set_master p l | Slave => il_set_slave p l end.
Definition upd_chip (c : chip) (f : i8259a_t → i8259a_t) (l : intlogic_t) : intlogic_t := set_chip c (f (get_chip c l)) l.

(** ** The controllers' operations (i8259a.cc) *)

(** [i8259a_t::pending_vector]: the vector and the interrupt. *)
Definition pic_pending_vector (c : chip) (l : intlogic_t) : option (Z * Z) * intlogic_t :=
  let p := get_chip c l in
  let masked_irr := Z.land (irq_request p) (Z.lnot (irq_mask p)) in
  if bool_decide (masked_irr = 0) then (None, clear_irq_vector (base c) l) else
  let pic_irq := lsb masked_irr in
  let p := p_set_irr (bit_clear pic_irq (irq_request p)) p in
  let p := if is_auto_eoi p then p else p_set_isr (bit_set pic_irq (irq_in_service p)) p in
  let l := set_chip c p l in
  let l := if bool_decide (Z.land (irq_request p) (Z.lnot (irq_mask p)) = 0) then clear_irq_vector (base c) l else l in
  (Some (pic_irq + get_idt_offset p, pic_irq + base c), l).

Definition pic_raise (c : chip) (pic_irq : Z) (l : intlogic_t) : intlogic_t :=
  upd_chip c (λ p, p_set_irr (bit_set pic_irq (irq_request p)) p) l.
Definition pic_signal (c : chip) (pic_irq : Z) (l : intlogic_t) : intlogic_t :=
  if bool_decide (Z.land (irq_mask (get_chip c l)) (Z.shiftl 1 pic_irq) = 0) then set_irq_vector (pic_irq + base c) l else l.

(** [i8259a_t::reraise_vector] *)
Definition pic_reraise_vector (c : chip) (vector : Z) (l : intlogic_t) : intlogic_t :=
  let off := get_idt_offset (get_chip c l) in
  if bool_decide (vector < off) || bool_decide (off + 8 ≤ vector) then l else
  pic_signal c (vector - off) (pic_raise c (vector - off) l).

(** [i8259a_t::raise_irq] *)
Definition pic_raise_irq (c : chip) (irq : Z) : M intlogic_t unit :=
  let pic_irq := u32 (irq - base c) in
  massert (bool_decide (pic_irq < 8));;
  mmodify (pic_raise c pic_irq);;
  mmodify (set_hwirq_mask irq);;
  mmodify (pic_signal c pic_irq).

(** Reads of the ports. *)
Definition port_a_read (c : chip) (l : intlogic_t) : Z * intlogic_t :=
  let p := get_chip c l in
  if is_poll_mode (ocw_read p) then
    match eoi p with (Some irq, p) => (irq, set_chip c p l) | (None, p) => (7, set_chip c p l) end
  else if is_read_isr (ocw_read p) then (u8 (irq_in_service p), l) else (u8 (irq_request p), l).
Definition port_b_read (c : chip) (l : intlogic_t) : Z :=
  if mode_eqb (mode (get_chip c l)) ocw_mode then u8 (irq_mask (get_chip c l)) else 0xff.

(** The end of [port_a_write]: [irq] is the number [eoi] gave. *)
Definition unmask_after_eoi (o : option Z) (l : intlogic_t) : intlogic_t :=
  match o with
  | Some irq =>
      if negb (is_hwirq_squashed irq l) && bit_test irq (hwirq_mask l)
      then il_emit (UnmaskDevice irq) (clear_hwirq_mask irq l) else l
  | None => l
  end.
Definition port_a_write (c : chip) (value : Z) (l : intlogic_t) : intlogic_t :=
  if is_icw1 value then
    upd_chip c (λ p,
      let p := p_set_icw1 (icw1_raw value) p in
      let p := if icw4_enabled p then p else p_set_icw4 (icw4_raw 0) p in
      p_set_imr 0xff (reset_mode p)) l
  else if is_ocw3 value then
    (if is_read_request value || is_poll_mode value then upd_chip c (p_set_ocw value) l else l)
  else if is_specific_eoi value || is_non_specific_eoi value then
    let '(o, p) := eoi (get_chip c l) in unmask_after_eoi o (set_chip c p l)
  else l.

(** The loops of [port_b_write] over the bits of a word. *)
Fixpoint for_bits (fuel : nat) (f : Z → intlogic_t → intlogic_t) (w : Z) : M intlogic_t unit :=
  if bool_decide (w = 0) then mret tt else
  match fuel with
  | O => mfault Diverged
  | S fuel => mmodify (f (lsb w));; for_bits fuel f (bit_clear (lsb w) w)
  end.
(** A word has 32 bits. *)
Definition each_bit (f : Z → intlogic_t → intlogic_t) (w : Z) : M intlogic_t unit := for_bits 32 f w.

Definition hw_mask (imr b : Z) : Z := u32 (Z.lor (Z.shiftl imr b) (Z.lnot (Z.shiftl 0xff b))).
Definition not32 (w : Z) : Z := u32 (Z.lnot w).

Definition port_b_write (c : chip) (value : Z) : M intlogic_t unit :=
  l ← mget;
  match mode (get_chip c l) with
  | ocw_mode =>
      let old := irq_mask (get_chip c l) in
      mmodify (upd_chip c (p_set_imr value));;
      (if bool_decide (Z.land (Z.land (irq_request (get_chip c l)) old) (Z.lnot value) ≠ 0)
       then mmodify (set_irq_vector (base c)) else mret tt);;
      let old_hwirq_mask := hw_mask old (base c) in
      let new_hwirq_mask := hw_mask value (base c) in
      l ← mget;
      each_bit (λ irq l, il_emit (EnableDevice irq) (set_hwirq_latch irq l))
        (Z.land (Z.land (not32 new_hwirq_mask) (not32 (hwirq_latch l))) (not32 (hwirq_squash l)));;
      l ← mget;
      each_bit (λ irq l, il_emit (UnmaskDevice irq) (clear_hwirq_mask irq l))
        (Z.land (Z.land (Z.land old_hwirq_mask (not32 new_hwirq_mask)) (hwirq_mask l)) (not32 (hwirq_squash l)))
  | icw2_mode => mmodify (upd_chip c (λ p, next_mode (p_set_icw2 (icw2_raw value) p)))
  | icw3_mode => mmodify (upd_chip c (λ p, next_mode (p_set_icw3 value p)))
  | icw4_mode => mmodify (upd_chip c (λ p, next_mode (p_set_icw4 (icw4_raw value) p)))
  end.

(** ** The interrupt logic's operations (intlogic.h) *)

Definition raise_irq (irq : Z) : M intlogic_t unit :=
  mmodify (set_hwirq_mask irq);;
  if bool_decide (irq < 8) then pic_raise_irq Master irq
  else if bool_decide (irq < 16) then pic_raise_irq Slave irq else mret tt.

Definition pending_vector (l : intlogic_t) : option (Z * Z) * intlogic_t :=
  if bool_decide (irq_vectors l = 0) then (None, l) else
  let '(r, l) := if bool_decide (irq_request (master l) ≠ 0) then pic_pending_vector Master l else (None, l) in
  match r with
  | Some v => (Some v, l)
  | None => if bool_decide (irq_request (slave l) ≠ 0) then pic_pending_vector Slave l else (None, l)
  end.

Definition reraise_vector (vector : Z) (l : intlogic_t) : intlogic_t :=
  pic_reraise_vector Slave vector (pic_reraise_vector Master vector l).

(** The constructor; which real interrupts are squashed depends on the
    configuration. With L4Ka and device pass-through they are 0, 2, 3, 4, 8 and 9. *)
Definition l4ka_squash : Z := fold_right (λ b w, bit_set b w) 0 [4; 3; 0; 9; 8; 2].
Definition intlogic_init (squash : Z) : intlogic_t := mk_il i8259a_init i8259a_init 0 0 squash 0 [].
