(* ===== verification/PicSpec.v ===== *)
(** * The virtual interrupt controllers: what they promise

    The pair of controllers of Pic.v implements an interrupt controller on sets of
    interrupts with fixed priorities; the summary word of the CPU never hides a
    deliverable interrupt; the initialisation sequence programs the vectors; mask
    writes enable and unmask exactly the right real devices. *)

From Stdlib Require Import ZArith Lia.
From stdpp Require Import base list numbers.
From S2P Require Import Prelude Pic.

(** ** Bits *)

Lemma bsf_spec (n : nat) : ∀ i w, 0 ≤ i → (∃ j, i ≤ j < i + n ∧ Z.testbit w j = true) →
  i ≤ bsf n i w < i + n ∧ Z.testbit w (bsf n i w) = true ∧ ∀ j, i ≤ j < bsf n i w → Z.testbit w j = false.
Proof.
  induction n as [|n IH]; intros i w Hi (j & Hj & Ht); [lia|]. cbn [bsf].
  destruct (Z.testbit w i) eqn:E; [split; [lia|]; split; [done|]; lia|].
  destruct (IH (i + 1) w) as (H1 & H2 & H3); [lia| |].
  - exists j. split; [|done]. destruct (decide (j = i)) as [->|]; [congruence|lia].
  - split; [lia|]. split; [done|]. intros k Hk. destruct (decide (k = i)) as [->|]; [done|]. apply H3. lia.
Qed.

Lemma word_bit w n : 0 < w < 2 ^ n → ∃ j, 0 ≤ j < n ∧ Z.testbit w j = true.
Proof.
  intros Hw. exists (Z.log2 w). split; [|apply Z.bit_log2; lia].
  split; [apply Z.log2_nonneg|]. apply Z.log2_lt_pow2; lia.
Qed.
Lemma word_high w n j : 0 ≤ w < 2 ^ n → n ≤ j → Z.testbit w j = false.
Proof.
  intros Hw Hj. destruct (decide (w = 0)) as [->|]; [apply Z.bits_0|].
  apply Z.bits_above_log2; [lia|]. assert (Z.log2 w < n) by (apply Z.log2_lt_pow2; lia). lia.
Qed.

(** The lowest bit of a word. *)
Lemma lsb_spec (n : Z) w : 0 ≤ n ≤ 32 → 0 < w < 2 ^ n →
  0 ≤ lsb w < n ∧ Z.testbit w (lsb w) = true ∧ ∀ j, 0 ≤ j < lsb w → Z.testbit w j = false.
Proof.
  intros Hn Hw. destruct (word_bit w n Hw) as (j & Hj & Ht).
  destruct (bsf_spec 32 0 w) as (H1 & H2 & H3); [lia|exists j; split; [lia|done]|].
  unfold lsb. split; [|done]. split; [lia|].
  destruct (decide (bsf 32 0 w < n)); [done|]. rewrite (word_high w n) in H2 by lia. done.
Qed.

Lemma bit_set_spec b w j : 0 ≤ b → 0 ≤ j → Z.testbit (bit_set b w) j = Z.testbit w j || bool_decide (j = b).
Proof.
  intros Hb Hj. unfold bit_set. rewrite Z.lor_spec, Z.shiftl_spec by lia. f_equal.
  case_bool_decide; [subst; by rewrite Z.sub_diag|].
  destruct (decide (j < b)); [by rewrite Z.testbit_neg_r by lia|]. change 1 with (2 ^ 0). apply Z.pow2_bits_false. lia.
Qed.
Lemma bit_clear_spec b w j : 0 ≤ b → 0 ≤ j → Z.testbit (bit_clear b w) j = Z.testbit w j && negb (bool_decide (j = b)).
Proof.
  intros Hb Hj. unfold bit_clear. rewrite Z.land_spec, Z.lnot_spec by lia. f_equal.
  pose proof (bit_set_spec b 0 j Hb Hj) as H. unfold bit_set in H. by rewrite Z.lor_0_l, Z.bits_0 in H; cbn in H; rewrite H.
Qed.
(** A word is below [2 ^ n] when its bits from [n] on are clear. *)
Lemma bits_bound w n : 0 ≤ n → 0 ≤ w → (∀ j, n ≤ j → Z.testbit w j = false) → 0 ≤ w < 2 ^ n.
Proof.
  intros Hn Hw Hj. split; [done|]. destruct (decide (w = 0)) as [->|]; [apply Z.pow_pos_nonneg; lia|].
  apply Z.log2_lt_pow2; [lia|]. destruct (decide (Z.log2 w < n)); [done|].
  pose proof (Z.bit_log2 w ltac:(lia)). rewrite Hj in * by lia. done.
Qed.
Lemma bit_set_range b w n : 0 ≤ b < n → 0 ≤ w < 2 ^ n → 0 ≤ bit_set b w < 2 ^ n.
Proof.
  intros Hb Hw. apply bits_bound; [lia| |].
  - unfold bit_set. apply Z.lor_nonneg. split; [lia|]. apply Z.shiftl_nonneg. lia.
  - intros j Hj. rewrite bit_set_spec, (word_high w n), bool_decide_eq_false_2 by lia. done.
Qed.
Lemma land_range a b n : 0 ≤ n → 0 ≤ a < 2 ^ n → 0 ≤ Z.land a b < 2 ^ n.
Proof.
  intros Hn Ha. apply bits_bound; [done|apply Z.land_nonneg; lia|].
  intros j Hj. by rewrite Z.land_spec, (word_high a n) by lia.
Qed.
Lemma bit_clear_range b w n : 0 ≤ n → 0 ≤ w < 2 ^ n → 0 ≤ bit_clear b w < 2 ^ n.
Proof. apply land_range. Qed.

(** A word is 0 when its bits are clear. *)
Lemma zero_bits w n : 0 ≤ w < 2 ^ n → w = 0 ↔ ∀ j, 0 ≤ j < n → Z.testbit w j = false.
Proof.
  intros Hw. split; [intros -> j _; apply Z.bits_0|]. intros H. destruct (decide (w = 0)); [done|].
  destruct (word_bit w n) as (j & Hj & Ht); [lia|]. rewrite H in Ht by done. done.
Qed.
Lemma masked_spec irr imr j : 0 ≤ j → Z.testbit (Z.land irr (Z.lnot imr)) j = Z.testbit irr j && negb (Z.testbit imr j).
Proof. intros. by rewrite Z.land_spec, Z.lnot_spec. Qed.
#[export] Hint Rewrite bit_set_spec bit_clear_spec masked_spec using lia : bits.

(** ** The controller on sets of interrupts *)

(** Interrupts 0 to 15: which are requested, masked and in service. *)
Record ctrl : Type := mk_ctrl { c_req : Z → bool; c_msk : Z → bool; c_isr : Z → bool }.
Definition upd (f : Z → bool) (i : Z) (b : bool) : Z → bool := λ j, if decide (j = i) then b else f j.
(** The lowest of the interrupts [i..i+n) with a property. *)
Fixpoint lowest (n : nat) (i : Z) (f : Z → bool) : option Z :=
  match n with O => None | S n => if f i then Some i else lowest n (i + 1) f end.

Lemma lowest_spec (n : nat) f : ∀ i, match lowest n i f with
  | Some k => i ≤ k < i + n ∧ f k = true ∧ ∀ j, i ≤ j < k → f j = false
  | None => ∀ j, i ≤ j < i + n → f j = false
  end.
Proof.
  induction n as [|n IH]; intros i; cbn [lowest]; [lia|]. destruct (f i) eqn:E; [split; [lia|]; split; [done|]; lia|].
  specialize (IH (i + 1)). destruct (lowest n (i + 1) f).
  - destruct IH as (? & ? & Hl). split; [lia|]. split; [done|]. intros j Hj. destruct (decide (j = i)) as [->|]; [done|]. apply Hl. lia.
  - intros j Hj. destruct (decide (j = i)) as [->|]; [done|]. apply IH. lia.
Qed.
Lemma lowest_Some (n : nat) f i k : i ≤ k < i + n → f k = true → (∀ j, i ≤ j < k → f j = false) → lowest n i f = Some k.
Proof.
  intros Hk Hf Hl. pose proof (lowest_spec n f i) as H. destruct (lowest n i f) as [k'|].
  - destruct H as (Hk' & Hf' & Hl'). f_equal. destruct (Z.lt_trichotomy k k') as [?|[?|?]]; [|done|].
    + rewrite Hl' in Hf by lia. done.
    + rewrite Hl in Hf' by lia. done.
  - rewrite H in Hf by done. done.
Qed.
Lemma lowest_None (n : nat) f i : (∀ j, i ≤ j < i + n → f j = false) → lowest n i f = None.
Proof.
  intros Hl. pose proof (lowest_spec n f i) as H. destruct (lowest n i f); [|done]. destruct H as (? & Hf & _).
  rewrite Hl in Hf by done. done.
Qed.
Lemma lowest_app (n m : nat) f : ∀ i, lowest (n + m) i f = match lowest n i f with Some k => Some k | None => lowest m (i + n) f end.
Proof.
  induction n as [|n IH]; intros i; cbn [lowest Nat.add]; [by rewrite Z.add_0_r|]. destruct (f i); [done|]. rewrite IH.
  by replace (i + 1 + n) with (i + S n) by lia.
Qed.

(** The operations of the specification. *)
Definition pending_of (s : ctrl) (j : Z) : bool := c_req s j && negb (c_msk s j).
Definition c_raise (i : Z) (s : ctrl) : ctrl := mk_ctrl (upd (c_req s) i true) (c_msk s) (c_isr s).
Definition c_take (aeoi : bool) (k : Z) (s : ctrl) : ctrl :=
  mk_ctrl (upd (c_req s) k false) (c_msk s) (if aeoi then c_isr s else upd (c_isr s) k true).
Definition c_mask (c : chip) (v : Z) (s : ctrl) : ctrl :=
  mk_ctrl (c_req s) (λ j, if decide (base c ≤ j < base c + 8) then Z.testbit v (j - base c) else c_msk s j) (c_isr s).
Definition c_eoi (c : chip) (s : ctrl) : ctrl :=
  match lowest 8 (base c) (c_isr s) with Some k => mk_ctrl (c_req s) (c_msk s) (upd (c_isr s) k false) | None => s end.

(** ** The simulation relation *)

Record pic_wf (p : i8259a_t) : Prop := {
  wf_isr : 0 ≤ irq_in_service p < 2 ^ 8;
  wf_irr : 0 ≤ irq_request p < 2 ^ 8;
  wf_imr : 0 ≤ irq_mask p < 2 ^ 8
}.
Definition masked_irr (p : i8259a_t) : Z := Z.land (irq_request p) (Z.lnot (irq_mask p)).
Lemma masked_irr_range p : pic_wf p → 0 ≤ masked_irr p < 2 ^ 8.
Proof. intros []. apply land_range; lia. Qed.

Record pic_rel (l : intlogic_t) (s : ctrl) : Prop := {
  pr_wf : ∀ c, pic_wf (get_chip c l);
  pr_req : ∀ c j, 0 ≤ j < 8 → c_req s (base c + j) = Z.testbit (irq_request (get_chip c l)) j;
  pr_msk : ∀ c j, 0 ≤ j < 8 → c_msk s (base c + j) = Z.testbit (irq_mask (get_chip c l)) j;
  pr_isr : ∀ c j, 0 ≤ j < 8 → c_isr s (base c + j) = Z.testbit (irq_in_service (get_chip c l)) j;
  pr_sum : ∀ c, masked_irr (get_chip c l) ≠ 0 → Z.testbit (irq_vectors l) (Z.shiftr (base c) 3) = true
}.

Lemma get_set_chip c c' p l : get_chip c (set_chip c' p l) = if decide (c = c') then p else get_chip c l.
Proof. by destruct c, c'. Qed.

Lemma base_sum c : Z.shiftr (base c) 3 = match c with Master => 0 | Slave => 1 end.
Proof. by destruct c. Qed.

(** A step of one controller: what has to be shown of it. *)
Lemma pic_rel_step l s l' s' c :
  pic_rel l s → pic_wf (get_chip c l') → (∀ c', c' ≠ c → get_chip c' l' = get_chip c' l) →
  (∀ j, 0 ≤ j < 8 → c_req s' (base c + j) = Z.testbit (irq_request (get_chip c l')) j ∧
     c_msk s' (base c + j) = Z.testbit (irq_mask (get_chip c l')) j ∧
     c_isr s' (base c + j) = Z.testbit (irq_in_service (get_chip c l')) j) →
  (∀ k, ¬ (base c ≤ k < base c + 8) → c_req s' k = c_req s k ∧ c_msk s' k = c_msk s k ∧ c_isr s' k = c_isr s k) →
  (masked_irr (get_chip c l') ≠ 0 → Z.testbit (irq_vectors l') (Z.shiftr (base c) 3) = true) →
  (∀ c', c' ≠ c → Z.testbit (irq_vectors l) (Z.shiftr (base c') 3) = true → Z.testbit (irq_vectors l') (Z.shiftr (base c') 3) = true) →
  pic_rel l' s'.
Proof.
  intros [] Hwf Hother Hc Hk Hsum Hsum'.
  assert (∀ c' j, 0 ≤ j < 8 → c' ≠ c → ¬ (base c ≤ base c' + j < base c + 8)) as Hout.
  { intros [] j Hj; destruct c; cbn; try done; lia. }
  split; intros c'; destruct (decide (c' = c)) as [->|Hne]; try done; try (intros j Hj; by apply Hc);
    rewrite ?Hother by done; auto; intros j Hj; destruct (Hk _ (Hout c' j Hj Hne)) as (E1 & E2 & E3); rewrite ?E1, ?E2, ?E3; auto.
Qed.

Lemma sum_set c c' l : Z.testbit (irq_vectors (set_irq_vector (base c) l)) (Z.shiftr (base c') 3) =
  Z.testbit (irq_vectors l) (Z.shiftr (base c') 3) || bool_decide (c' = c).
Proof. rewrite !base_sum. unfold set_irq_vector. cbn [irq_vectors]. rewrite base_sum. rewrite bit_set_spec by (destruct c, c'; lia). by destruct c, c'. Qed.
Lemma sum_clear c c' l : Z.testbit (irq_vectors (clear_irq_vector (base c) l)) (Z.shiftr (base c') 3) =
  Z.testbit (irq_vectors l) (Z.shiftr (base c') 3) && negb (bool_decide (c' = c)).
Proof. rewrite !base_sum. unfold clear_irq_vector. cbn [irq_vectors]. rewrite base_sum. rewrite bit_clear_spec by (destruct c, c'; lia). by destruct c, c'. Qed.
Lemma shift_base c j : 0 ≤ j < 8 → Z.shiftr (j + base c) 3 = Z.shiftr (base c) 3.
Proof.
  intros Hj. rewrite !Z.shiftr_div_pow2 by lia. change (2 ^ 3) with 8. destruct c; cbn [base].
  - by rewrite Z.add_0_r, Z.div_small.
  - change 8 with (1 * 8) at 1. rewrite Z.div_add by lia. by rewrite Z.div_small.
Qed.

(** Raising: the request is recorded and, unless masked, announced. *)
Lemma pic_raise_sim c j l s : 0 ≤ j < 8 → pic_rel l s → pic_rel (pic_signal c j (pic_raise c j l)) (c_raise (base c + j) s).
Proof.
  intros Hj R. set (l1 := pic_raise c j l).
  assert (get_chip c l1 = p_set_irr (bit_set j (irq_request (get_chip c l))) (get_chip c l)) as Hg by (by destruct c).
  assert (∀ c', get_chip c' (pic_signal c j l1) = get_chip c' l1) as Hs by (intros c'; unfold pic_signal; case_bool_decide; by destruct c').
  assert (Z.testbit (irq_mask (get_chip c l)) j = false ↔ Z.land (irq_mask (get_chip c l)) (Z.shiftl 1 j) = 0) as Hm.
  { rewrite (zero_bits _ 8); [|apply land_range; [lia|apply R]]. split.
    - intros Hf i Hi. pose proof (bit_set_spec j 0 i ltac:(lia) ltac:(lia)) as Hb. unfold bit_set in Hb. rewrite Z.lor_0_l, Z.bits_0 in Hb.
      rewrite Z.land_spec, Hb. cbn. case_bool_decide; [subst; by rewrite Hf|apply andb_false_r].
    - intros H. specialize (H j Hj). rewrite Z.land_spec, Z.shiftl_spec, Z.sub_diag, andb_true_r in H by lia. done. }
  pose proof (pr_wf _ _ R c) as [].
  apply (pic_rel_step l s _ _ c); try done.
  - rewrite Hs, Hg. split; cbn; try done. by apply bit_set_range.
  - intros c' Hne. rewrite Hs. by destruct c, c'.
  - intros i Hi. rewrite Hs, Hg. cbn. unfold upd. rewrite bit_set_spec by lia. rewrite (pr_msk _ _ R), (pr_isr _ _ R) by done.
    split; [|done]. destruct (decide (i = j)) as [->|Hne].
    + by rewrite decide_True, bool_decide_eq_true_2, orb_true_r.
    + rewrite decide_False, bool_decide_eq_false_2, orb_false_r by lia. by apply R.
  - intros k Hk. cbn. unfold upd. rewrite decide_False by lia. done.
  - rewrite Hs, Hg. intros Hne. unfold pic_signal. assert (get_chip c l1 = p_set_irr (bit_set j (irq_request (get_chip c l))) (get_chip c l)) as -> by done.
    cbn [irq_mask p_set_irr]. case_bool_decide as Hz.
    + unfold set_irq_vector. cbn [irq_vectors]. rewrite shift_base by done. rewrite bit_set_spec, bool_decide_eq_true_2 by (rewrite ?base_sum; destruct c; done || lia).
      apply orb_true_r.
    + assert (irq_vectors l1 = irq_vectors l) as -> by (by destruct c). apply (pr_sum _ _ R). intros E. apply Hne. unfold masked_irr in *. cbn.
      apply (zero_bits _ 8); [apply land_range; [lia|by apply bit_set_range]|]. intros i Hi. rewrite masked_spec, bit_set_spec by lia.
      apply (zero_bits _ 8) with (j := i) in E; [|apply land_range; [lia|done]|done]. rewrite masked_spec in E by lia.
      case_bool_decide; [|by rewrite orb_false_r]. subst. rewrite orb_true_r. cbn. destruct (Z.testbit (irq_mask (get_chip c l)) j) eqn:Ht; [done|].
      exfalso. by apply Hz, Hm.
  - intros c' Hne Hb. assert (irq_vectors l1 = irq_vectors l) as Hv by (by destruct c).
    unfold pic_signal. case_bool_decide; [|by rewrite Hv]. unfold set_irq_vector. cbn [irq_vectors].
    rewrite shift_base by done. rewrite bit_set_spec by (rewrite !base_sum; destruct c, c'; lia). by rewrite Hv, Hb.
Qed.

(** The lowest deliverable interrupt of a controller. *)
Lemma pending_bit l s c j : pic_rel l s → 0 ≤ j < 8 → pending_of s (base c + j) = Z.testbit (masked_irr (get_chip c l)) j.
Proof. intros R Hj. unfold pending_of, masked_irr. rewrite masked_spec by lia. by rewrite (pr_req _ _ R), (pr_msk _ _ R). Qed.
Lemma lowest_pending l s c : pic_rel l s →
  lowest 8 (base c) (pending_of s) =
    if bool_decide (masked_irr (get_chip c l) = 0) then None else Some (lsb (masked_irr (get_chip c l)) + base c).
Proof.
  intros R. pose proof (masked_irr_range _ (pr_wf _ _ R c)) as Hr. case_bool_decide as Hz.
  - apply lowest_None. intros j Hj. replace j with (base c + (j - base c)) by lia. rewrite (pending_bit l) by (done || lia).
    rewrite Hz. apply Z.bits_0.
  - destruct (lsb_spec 8 (masked_irr (get_chip c l))) as (H1 & H2 & H3); [lia..|].
    apply lowest_Some; [lia| |].
    + rewrite Z.add_comm. by rewrite (pending_bit l).
    + intros j Hj. replace j with (base c + (j - base c)) by lia. rewrite (pending_bit l) by (done || lia). apply H3. lia.
Qed.

Lemma sum_clear_other c c' l l' : c' ≠ c → irq_vectors l' = irq_vectors l → Z.testbit (irq_vectors l) (Z.shiftr (base c') 3) = true →
  Z.testbit (irq_vectors (clear_irq_vector (base c) l')) (Z.shiftr (base c') 3) = true.
Proof. intros Hne E H. rewrite sum_clear, E, H, bool_decide_eq_false_2 by done. done. Qed.

(** Delivery by one controller. *)
Lemma pic_pending_sim c l s : pic_rel l s →
  match lowest 8 (base c) (pending_of s) with
  | Some k => ∃ l', pic_pending_vector c l = (Some (k - base c + get_idt_offset (get_chip c l), k), l') ∧
      pic_rel l' (c_take (is_auto_eoi (get_chip c l)) k s)
  | None => ∃ l', pic_pending_vector c l = (None, l') ∧ pic_rel l' s ∧ ∀ c', get_chip c' l' = get_chip c' l
  end.
Proof.
  intros R. rewrite (lowest_pending _ _ _ R). pose proof (pr_wf _ _ R c) as Hwf. pose proof (masked_irr_range _ Hwf) as Hr.
  unfold pic_pending_vector. change (Z.land (irq_request (get_chip c l)) (Z.lnot (irq_mask (get_chip c l)))) with (masked_irr (get_chip c l)).
  case_bool_decide as Hz.
  - eexists. split; [done|]. assert (∀ c', get_chip c' (clear_irq_vector (base c) l) = get_chip c' l) as Hg by (by intros []).
    split; [|done]. apply (pic_rel_step l s _ _ c); rewrite ?Hg; try done.
    + intros j Hj. split; [|split]; by apply R.
    + intros c' Hne. by apply (sum_clear_other c c' l l).
  - destruct (lsb_spec 8 (masked_irr (get_chip c l))) as (H1 & H2 & H3); [lia..|].
    set (k := lsb (masked_irr (get_chip c l))) in *. set (p := get_chip c l) in *.
    set (p1 := if is_auto_eoi _ then _ else _).
    assert (irq_request p1 = bit_clear k (irq_request p) ∧ irq_mask p1 = irq_mask p ∧ get_idt_offset p1 = get_idt_offset p ∧
      irq_in_service p1 = if is_auto_eoi p then irq_in_service p else bit_set k (irq_in_service p)) as (E1 & E2 & E3 & E4).
    { unfold p1. change (is_auto_eoi (p_set_irr _ p)) with (is_auto_eoi p). by destruct (is_auto_eoi p). }
    rewrite Z.add_simpl_r, E3. eexists. split; [done|]. destruct Hwf.
    set (l' := if bool_decide _ then _ else _).
    assert (∀ c', get_chip c' l' = if decide (c' = c) then p1 else get_chip c' l) as Hg.
    { intros c'. unfold l'. case_bool_decide; destruct c, c'; done. }
    assert (irq_vectors (set_chip c p1 l) = irq_vectors l) as Hv by (by destruct c).
    apply (pic_rel_step l s _ _ c); try done.
    + rewrite Hg, decide_True by done. split; rewrite ?E1, ?E2, ?E4.
      * destruct (is_auto_eoi p); [done|by apply bit_set_range].
      * by apply bit_clear_range.
      * done.
    + intros c' Hne. by rewrite Hg, decide_False.
    + intros j Hj. rewrite Hg, decide_True, E1, E2, E4 by done. cbn [c_take c_req c_msk c_isr]. unfold upd. rewrite bit_clear_spec by lia.
      rewrite (pr_msk _ _ R) by done. split; [|split; [done|]].
      * destruct (decide (j = k)) as [->|Hne].
        -- rewrite decide_True, bool_decide_eq_true_2 by lia. by rewrite andb_false_r.
        -- rewrite decide_False, bool_decide_eq_false_2, andb_true_r by lia. by apply R.
      * destruct (is_auto_eoi p); [by apply R|]. rewrite bit_set_spec by lia. destruct (decide (j = k)) as [->|Hne].
        -- rewrite decide_True, bool_decide_eq_true_2 by lia. by rewrite orb_true_r.
        -- rewrite decide_False, bool_decide_eq_false_2, orb_false_r by lia. by apply R.
    + intros i Hi. cbn [c_take c_req c_msk c_isr]. unfold upd. rewrite decide_False by lia. destruct (is_auto_eoi p); [done|]. by rewrite decide_False by lia.
    + rewrite Hg, decide_True by done. intros Hne. unfold l'. rewrite bool_decide_eq_false_2 by done. rewrite Hv.
      apply (pr_sum _ _ R). fold p. done.
    + intros c' Hne Hb. unfold l'. case_bool_decide; [|by rewrite Hv]. by apply (sum_clear_other c c' l).
Qed.

(** ** The whole logic *)

Definition chip_of (k : Z) : chip := if decide (k < 8) then Master else Slave.
(** Offset and automatic end of interrupt of both controllers, which must be in
    operation. *)
Record config : Type := mk_cfg { cfg_off : chip → Z; cfg_aeoi : chip → bool }.
Definition has_cfg (g : config) (l : intlogic_t) : Prop :=
  ∀ c, get_idt_offset (get_chip c l) = cfg_off g c ∧ is_auto_eoi (get_chip c l) = cfg_aeoi g c ∧ mode (get_chip c l) = ocw_mode.
(** A controller whose configuration words are untouched. *)
Definition same_cfg (l l' : intlogic_t) : Prop := ∀ c, icw2 (get_chip c l') = icw2 (get_chip c l) ∧
  icw4 (get_chip c l') = icw4 (get_chip c l) ∧ mode (get_chip c l') = mode (get_chip c l).
Lemma same_cfg_has g l l' : same_cfg l l' → has_cfg g l → has_cfg g l'.
Proof.
  intros Hs Hg c. destruct (Hs c) as (E1 & E2 & E3), (Hg c) as (H1 & H2 & H3).
  unfold get_idt_offset, is_auto_eoi in *. rewrite E1, E2, E3. done.
Qed.

Definition c_deliver (g : config) (s : ctrl) : option (Z * Z) * ctrl :=
  match lowest 16 0 (pending_of s) with
  | Some k => (Some (k - base (chip_of k) + cfg_off g (chip_of k), k), c_take (cfg_aeoi g (chip_of k)) k s)
  | None => (None, s)
  end.

Lemma lowest_chip c s k : lowest 8 (base c) (pending_of s) = Some k → chip_of k = c.
Proof.
  pose proof (lowest_spec 8 (pending_of s) (base c)) as H. intros E. rewrite E in H. destruct H as (H & _).
  unfold chip_of. destruct c; cbn [base] in H; case_decide; (done || lia).
Qed.

Lemma pic_pending_cfg c l : same_cfg l (pic_pending_vector c l).2.
Proof.
  intros c'. unfold pic_pending_vector. case_bool_decide; [by destruct c, c'|]. cbv zeta. cbn [snd].
  destruct (is_auto_eoi _); case_bool_decide; destruct c, c'; done.
Qed.
Lemma same_cfg_trans l1 l2 l3 : same_cfg l1 l2 → same_cfg l2 l3 → same_cfg l1 l3.
Proof. intros H1 H2 c. destruct (H1 c) as (-> & -> & ->) || destruct (H1 c) as (E1 & E2 & E3). destruct (H2 c) as (F1 & F2 & F3). split_and!; congruence. Qed.

(** One controller, asked only when it has a request. *)
Definition ask (c : chip) (l : intlogic_t) : option (Z * Z) * intlogic_t :=
  if bool_decide (irq_request (get_chip c l) ≠ 0) then pic_pending_vector c l else (None, l).
Lemma ask_sim c g l s : pic_rel l s → has_cfg g l →
  match lowest 8 (base c) (pending_of s) with
  | Some k => ∃ l', ask c l = (Some (k - base c + cfg_off g c, k), l') ∧ pic_rel l' (c_take (cfg_aeoi g c) k s) ∧ has_cfg g l'
  | None => ∃ l', ask c l = (None, l') ∧ pic_rel l' s ∧ has_cfg g l' ∧ ∀ c', get_chip c' l' = get_chip c' l
  end.
Proof.
  intros R Hg. destruct (Hg c) as (E1 & E2 & E3). pose proof (pic_pending_sim c l s R) as H. pose proof (pic_pending_cfg c l) as Hc.
  unfold ask. case_bool_decide as Hr.
  - destruct (lowest _ _ _).
    + destruct H as (l' & Hl & R'). rewrite E1 in Hl. rewrite E2 in R'. exists l'. split; [done|]. split; [done|].
      eapply same_cfg_has; [|done]. by rewrite Hl in Hc.
    + destruct H as (l' & Hl & R' & Hsame). exists l'. split; [done|]. split; [done|]. split; [|done].
      eapply same_cfg_has; [|done]. by rewrite Hl in Hc.
  - assert (irq_request (get_chip c l) = 0) as E by (by destruct (decide (irq_request (get_chip c l) = 0))).
    rewrite (lowest_pending _ _ _ R), bool_decide_eq_true_2; [eauto 10|]. unfold masked_irr. by rewrite E.
Qed.

Lemma pending_vector_sim g l s : pic_rel l s → has_cfg g l →
  ∃ l', pending_vector l = ((c_deliver g s).1, l') ∧ pic_rel l' (c_deliver g s).2 ∧ has_cfg g l'.
Proof.
  intros R Hg. unfold c_deliver. change 16%nat with (8 + 8)%nat. rewrite lowest_app. change (0 + 8%nat) with (base Slave).
  change (lowest 8 0) with (lowest 8 (base Master)).
  unfold pending_vector. case_bool_decide as Hv.
  - assert (∀ c, lowest 8 (base c) (pending_of s) = None) as Hn.
    { intros c. rewrite (lowest_pending _ _ _ R). case_bool_decide as Hm; [done|]. pose proof (pr_sum _ _ R c Hm) as Hb.
      by rewrite Hv, Z.bits_0 in Hb. }
    rewrite !Hn. eauto.
  - change (if bool_decide (irq_request (master l) ≠ 0) then pic_pending_vector Master l else (None, l)) with (ask Master l).
    pose proof (ask_sim Master g l s R Hg) as H1. destruct (lowest 8 (base Master) (pending_of s)) as [k|] eqn:E1.
    + destruct H1 as (l' & -> & R' & Hg'). exists l'. rewrite (lowest_chip _ _ _ E1). done.
    + destruct H1 as (l1 & -> & R1 & Hg1 & Hsame).
      change (if bool_decide (irq_request (slave l1) ≠ 0) then pic_pending_vector Slave l1 else (None, l1)) with (ask Slave l1).
      pose proof (ask_sim Slave g l1 s R1 Hg1) as H2. destruct (lowest 8 (base Slave) (pending_of s)) as [k|] eqn:E2.
      * destruct H2 as (l' & -> & R' & Hg'). exists l'. rewrite (lowest_chip _ _ _ E2). done.
      * destruct H2 as (l' & -> & R' & Hg' & _). eauto.
Qed.

(** ** The loops over bits *)

#[local] Notation filter := stdpp.base.filter.
Lemma filter_none {A} (P : A → Prop) `{∀ x, Decision (P x)} (l : list A) : (∀ x, x ∈ l → ¬ P x) → filter P l = [].
Proof.
  induction l as [|x l IH]; intros Hn; [done|]. rewrite filter_cons_False by (apply Hn; left).
  apply IH. intros y Hy. apply Hn. by right.
Qed.
Lemma filter_same {A} (P Q : A → Prop) `{∀ x, Decision (P x)} `{∀ x, Decision (Q x)} (l : list A) : (∀ x, x ∈ l → P x ↔ Q x) → filter P l = filter Q l.
Proof.
  induction l as [|x l IH]; intros Hn; [done|]. rewrite !filter_cons, IH by (intros y Hy; apply Hn; by right).
  assert (P x ↔ Q x) by (apply Hn; left). do 2 case_decide; tauto || done.
Qed.

Definition bits_from (i w : Z) : list Z := filter (λ j, Z.testbit w j = true) (seqZ i (32 - i)).
Lemma bits_from_skip i b w : 0 ≤ i ≤ b → b < 32 → (∀ j, i ≤ j < b → Z.testbit w j = false) → Z.testbit w b = true →
  bits_from i w = b :: bits_from (b + 1) w.
Proof.
  intros Hi Hb Hl Ht. unfold bits_from. replace (32 - i) with ((b - i) + (32 - b)) by lia.
  rewrite seqZ_app, list.filter_app by lia. replace (i + (b - i)) with b by lia.
  assert (filter (λ j, Z.testbit w j = true) (seqZ i (b - i)) = []) as ->.
  { apply filter_none. intros j Hj%elem_of_seqZ. rewrite Hl by lia. done. }
  cbn [app]. rewrite seqZ_cons by lia. rewrite filter_cons_True by done. f_equal. f_equal. f_equal; lia.
Qed.
Lemma bits_from_ext i w w' : (∀ j, i ≤ j < 32 → Z.testbit w j = Z.testbit w' j) → bits_from i w = bits_from i w'.
Proof.
  intros H. unfold bits_from. apply filter_same. intros j Hj%elem_of_seqZ. rewrite H by lia. done.
Qed.

Lemma for_bits_ok (f : Z → intlogic_t → intlogic_t) : ∀ (fuel : nat) i w l, 0 ≤ w < 2 ^ 32 → 0 ≤ i ≤ 32 → 32 - i ≤ fuel →
  (∀ j, 0 ≤ j < i → Z.testbit w j = false) →
  for_bits fuel f w l = Ok tt (foldl (λ l b, f b l) l (bits_from i w)).
Proof.
  induction fuel as [|fuel IH]; intros i w l Hw Hi Hf Hlow; cbn [for_bits]; case_bool_decide as Hz.
  1,3: assert (bits_from i w = []) as ->; [|done]; unfold bits_from; apply filter_none; intros j _;
    rewrite Hz, Z.bits_0; done.
  - exfalso. apply Hz, (zero_bits w 32); [done|]. intros j Hj. apply Hlow. lia.
  - destruct (lsb_spec 32 w) as (H1 & H2 & H3); [lia..|]. set (b := lsb w) in *.
    assert (i ≤ b) by (destruct (decide (i ≤ b)); [done|]; rewrite Hlow in H2 by lia; done).
    rewrite (bits_from_skip i b) by (done || lia || (intros; apply H3; lia)).
    unfold mbind, M_bind, mmodify. cbn [foldl]. rewrite (IH (b + 1)); [|by apply bit_clear_range|lia|lia|].
    + f_equal. f_equal. apply bits_from_ext. intros j Hj. rewrite bit_clear_spec, bool_decide_eq_false_2, andb_true_r by lia. done.
    + intros j Hj. rewrite bit_clear_spec by lia. destruct (decide (j = b)) as [->|]; [by rewrite bool_decide_eq_true_2, andb_false_r|].
      rewrite bool_decide_eq_false_2, andb_true_r by done. apply H3. lia.
Qed.
Lemma each_bit_ok f w l : 0 ≤ w < 2 ^ 32 → each_bit f w l = Ok tt (foldl (λ l b, f b l) l (bits_from 0 w)).
Proof. intros Hw. apply for_bits_ok; [done|lia..]. Qed.

Lemma u32_bit w j : 0 ≤ j < 32 → Z.testbit (u32 w) j = Z.testbit w j.
Proof. intros Hj. apply Z.mod_pow2_bits_low. lia. Qed.
Lemma not32_bit w j : 0 ≤ j < 32 → Z.testbit (not32 w) j = negb (Z.testbit w j).
Proof. intros Hj. unfold not32. rewrite u32_bit by done. apply Z.lnot_spec. lia. Qed.
Lemma hw_mask_bit imr c j : 0 ≤ imr < 2 ^ 8 → 0 ≤ j < 32 →
  Z.testbit (hw_mask imr (base c)) j = if decide (base c ≤ j < base c + 8) then Z.testbit imr (j - base c) else true.
Proof.
  intros Hi Hj. assert (0 ≤ base c) by (destruct c; cbn; lia). unfold hw_mask.
  rewrite u32_bit, Z.lor_spec, Z.lnot_spec, !Z.shiftl_spec by lia. change 255 with (Z.ones 8). case_decide.
  - rewrite Z.ones_spec_low by lia. apply orb_false_r.
  - destruct (decide (j < base c)); [rewrite !Z.testbit_neg_r by lia; done|].
    rewrite Z.ones_spec_high by lia. apply orb_true_r.
Qed.

(** Which real interrupts a mask write enables and unmasks. *)
Definition newly_enabled (c : chip) (v : Z) (l : intlogic_t) (j : Z) : Prop :=
  base c ≤ j < base c + 8 ∧ Z.testbit v (j - base c) = false ∧ Z.testbit (hwirq_latch l) j = false ∧ Z.testbit (hwirq_squash l) j = false.
Definition device_unmasked (c : chip) (v : Z) (l : intlogic_t) (j : Z) : Prop :=
  base c ≤ j < base c + 8 ∧ Z.testbit (irq_mask (get_chip c l)) (j - base c) = true ∧ Z.testbit v (j - base c) = false ∧
  Z.testbit (hwirq_mask l) j = true ∧ Z.testbit (hwirq_squash l) j = false.
#[global] Instance newly_enabled_dec c v l j : Decision (newly_enabled c v l j).
Proof. unfold newly_enabled. apply _. Defined.
#[global] Instance device_unmasked_dec c v l j : Decision (device_unmasked c v l j).
Proof. unfold device_unmasked. apply _. Defined.
Definition irqs_with (P : Z → Prop) `{∀ j, Decision (P j)} : list Z := filter P (seqZ 0 32).

Lemma bits_irqs w (P : Z → Prop) `{∀ j, Decision (P j)} : (∀ j, 0 ≤ j < 32 → Z.testbit w j = true ↔ P j) → bits_from 0 w = irqs_with P.
Proof. intros HP. unfold bits_from, irqs_with. apply filter_same. intros j Hj%elem_of_seqZ. apply HP. lia. Qed.

(** The effect of the two loops on the state. *)
Lemma enable_fold bs : ∀ l, foldl (λ l irq, il_emit (EnableDevice irq) (set_hwirq_latch irq l)) l bs =
  mk_il (master l) (slave l) (foldl (λ w b, bit_set b w) (hwirq_latch l) bs) (hwirq_mask l) (hwirq_squash l) (irq_vectors l)
    (il_events l ++ (EnableDevice <$> bs)).
Proof.
  induction bs as [|b bs IH]; intros l; cbn [foldl fmap list_fmap]; [rewrite app_nil_r; by destruct l|]. rewrite IH. cbn.
  by rewrite <- app_assoc.
Qed.
Lemma unmask_fold bs : ∀ l, foldl (λ l irq, il_emit (UnmaskDevice irq) (clear_hwirq_mask irq l)) l bs =
  mk_il (master l) (slave l) (hwirq_latch l) (foldl (λ w b, bit_clear b w) (hwirq_mask l) bs) (hwirq_squash l) (irq_vectors l)
    (il_events l ++ (UnmaskDevice <$> bs)).
Proof.
  induction bs as [|b bs IH]; intros l; cbn [foldl fmap list_fmap]; [rewrite app_nil_r; by destruct l|]. rewrite IH. cbn.
  by rewrite <- app_assoc.
Qed.

(** The words of real interrupts stay words. *)
Record il_wf (l : intlogic_t) : Prop := {
  ilw_latch : 0 ≤ hwirq_latch l < 2 ^ 32;
  ilw_mask : 0 ≤ hwirq_mask l < 2 ^ 32;
  ilw_squash : 0 ≤ hwirq_squash l < 2 ^ 32
}.

Definition mask_written (c : chip) (v : Z) (l : intlogic_t) : intlogic_t :=
  let l1 := upd_chip c (p_set_imr v) l in
  if bool_decide (Z.land (Z.land (irq_request (get_chip c l)) (irq_mask (get_chip c l))) (Z.lnot v) ≠ 0) then set_irq_vector (base c) l1 else l1.

Lemma port_b_write_ok c v l : il_wf l → (∀ c, pic_wf (get_chip c l)) → 0 ≤ v < 2 ^ 8 → mode (get_chip c l) = ocw_mode →
  port_b_write c v l = Ok tt (let l1 := mask_written c v l in
    mk_il (master l1) (slave l1) (foldl (λ w b, bit_set b w) (hwirq_latch l) (irqs_with (newly_enabled c v l)))
      (foldl (λ w b, bit_clear b w) (hwirq_mask l) (irqs_with (device_unmasked c v l))) (hwirq_squash l) (irq_vectors l1)
      (il_events l ++ (EnableDevice <$> irqs_with (newly_enabled c v l)) ++ (UnmaskDevice <$> irqs_with (device_unmasked c v l)))).
Proof.
  intros [Hla Hma Hsq] Hwf Hv Hm. pose proof (Hwf c) as [_ _ Himr]. set (l1 := mask_written c v l).
  assert (hwirq_latch l1 = hwirq_latch l ∧ hwirq_mask l1 = hwirq_mask l ∧ hwirq_squash l1 = hwirq_squash l ∧ il_events l1 = il_events l)
    as (E1 & E2 & E3 & E4) by (unfold l1, mask_written; cbv zeta; case_bool_decide; by destruct c).
  assert (∀ w, 0 ≤ not32 w < 2 ^ 32) as Hn32 by (intros w; by apply wrap_range).
  assert (∀ w b, 0 ≤ hw_mask w b < 2 ^ 32) as Hhw by (intros w b; by apply wrap_range).
  unfold port_b_write. erewrite (bind_ok _ _ _ l l) by done. cbv beta. rewrite Hm. cbv zeta.
  erewrite (bind_ok _ _ _ tt (upd_chip c (p_set_imr v) l)) by done. cbv beta.
  erewrite (bind_ok _ _ _ tt l1) by (unfold l1, mask_written; cbv zeta; case_bool_decide; done). cbv beta.
  erewrite (bind_ok _ _ _ l1 l1) by done. cbv beta.
  erewrite bind_ok by (apply each_bit_ok; repeat apply land_range; done || lia). cbv beta. rewrite enable_fold.
  erewrite bind_ok by done. cbv beta. cbn [hwirq_mask hwirq_squash]. rewrite each_bit_ok by (repeat apply land_range; done || lia).
  rewrite unmask_fold. cbn [master slave hwirq_latch hwirq_mask hwirq_squash irq_vectors il_events].
  rewrite E1, E2, E3, E4, <- app_assoc.
  rewrite (bits_irqs _ (newly_enabled c v l)), (bits_irqs _ (device_unmasked c v l)); [done|..].
  - intros j Hj. unfold device_unmasked. rewrite !Z.land_spec, !not32_bit, !hw_mask_bit by done.
    destruct (decide (base c ≤ j < base c + 8)); rewrite !andb_true_iff, !negb_true_iff; naive_solver.
  - intros j Hj. unfold newly_enabled. rewrite !Z.land_spec, !not32_bit, !hw_mask_bit by done.
    destruct (decide (base c ≤ j < base c + 8)); rewrite !andb_true_iff, !negb_true_iff; naive_solver.
Qed.

(** A mask write, seen by the specification. *)
Lemma set_bits_range bs : (∀ b, b ∈ bs → 0 ≤ b < 32) → ∀ w, 0 ≤ w < 2 ^ 32 → 0 ≤ foldl (λ w b, bit_set b w) w bs < 2 ^ 32.
Proof.
  induction bs as [|b bs IH]; intros Hb w Hw; cbn [foldl]; [done|]. apply IH; [intros; apply Hb; by right|].
  apply bit_set_range; [|done]. apply Hb. left.
Qed.
Lemma clear_bits_range bs : ∀ w, 0 ≤ w < 2 ^ 32 → 0 ≤ foldl (λ w b, bit_clear b w) w bs < 2 ^ 32.
Proof. induction bs as [|b bs IH]; intros w Hw; cbn [foldl]; [done|]. by apply IH, bit_clear_range. Qed.
Lemma irqs_with_range (P : Z → Prop) `{∀ j, Decision (P j)} j : j ∈ irqs_with P → 0 ≤ j < 32.
Proof. unfold irqs_with. rewrite list_elem_of_filter, elem_of_seqZ. lia. Qed.

Lemma mask_written_chip c v l c' : get_chip c' (mask_written c v l) = if decide (c' = c) then p_set_imr v (get_chip c l) else get_chip c' l.
Proof. unfold mask_written. cbv zeta. case_bool_decide; by destruct c, c'. Qed.

Lemma mask_written_rel c v l s : 0 ≤ v < 2 ^ 8 → pic_rel l s → pic_rel (mask_written c v l) (c_mask c v s).
Proof.
  intros Hv R. pose proof (pr_wf _ _ R c) as []. apply (pic_rel_step l s _ _ c); try done.
  - rewrite mask_written_chip, decide_True by done. by split.
  - intros c' Hne. by rewrite mask_written_chip, decide_False.
  - intros j Hj. rewrite mask_written_chip, decide_True by done. cbn. rewrite decide_True by lia.
    replace (base c + j - base c) with j by lia. split; [|split]; (done || by apply R).
  - intros k Hk. cbn. by rewrite decide_False.
  - rewrite mask_written_chip, decide_True by done. unfold mask_written. cbv zeta. set (l1 := upd_chip c (p_set_imr v) l).
    assert (irq_vectors l1 = irq_vectors l) as Hs by (by destruct c). intros Hne. case_bool_decide as Hz.
    + by rewrite sum_set, bool_decide_eq_true_2, orb_true_r.
    + rewrite Hs. apply (pr_sum _ _ R). intros E. apply Hne. unfold masked_irr in *. cbn.
      apply (zero_bits _ 8); [apply land_range; lia|]. intros j Hj. rewrite masked_spec by lia.
      apply (zero_bits _ 8) with (j := j) in E; [|apply land_range; [lia|done]|done]. rewrite masked_spec in E by lia.
      apply (zero_bits _ 8) with (j := j) in Hz; [|repeat apply land_range; lia|done].
      rewrite !Z.land_spec, Z.lnot_spec in Hz by lia.
      destruct (Z.testbit (irq_request _) j), (Z.testbit (irq_mask _) j), (Z.testbit v j); done.
  - intros c' Hne Hb. unfold mask_written. cbv zeta. set (l1 := upd_chip c (p_set_imr v) l).
    assert (irq_vectors l1 = irq_vectors l) as Hs by (by destruct c). case_bool_decide; [|by rewrite Hs].
    by rewrite sum_set, Hs, Hb.
Qed.

(** The relation depends only on the controllers and the summary word. *)
Lemma pic_rel_core l l' s : (∀ c, get_chip c l' = get_chip c l) → irq_vectors l' = irq_vectors l → pic_rel l s → pic_rel l' s.
Proof. intros Hc Hv []. split; intros c; rewrite ?Hc, ?Hv; auto. Qed.

(** Everything the simulation keeps. *)
Record pic_ok (g : config) (l : intlogic_t) (s : ctrl) : Prop := {
  po_rel : pic_rel l s;
  po_cfg : has_cfg g l;
  po_wf : il_wf l
}.

Lemma port_b_write_sim g c v l s : 0 ≤ v < 2 ^ 8 → pic_ok g l s → ∃ l', port_b_write c v l = Ok tt l' ∧ pic_ok g l' (c_mask c v s).
Proof.
  intros Hv [R Hg Hw]. destruct (Hg c) as (_ & _ & Hm). rewrite port_b_write_ok by (done || apply R).
  eexists. split; [done|]. cbv zeta. split.
  - eapply pic_rel_core, mask_written_rel; [by intros []|done..].
  - intros c'. pose proof (mask_written_chip c v l c') as Hc. destruct (Hg c') as (E1 & E2 & E3).
    destruct c'; cbn [get_chip master slave] in *; rewrite Hc; case_decide; subst; done.
  - destruct Hw. split; cbn; [apply set_bits_range|apply clear_bits_range|]; try done. apply irqs_with_range.
Qed.

(** The end of an interrupt. *)
Lemma eoi_lowest c l s : pic_rel l s → eoi (get_chip c l) =
  match lowest 8 (base c) (c_isr s) with
  | Some k => (Some (k - base c), p_set_isr (bit_clear (k - base c) (irq_in_service (get_chip c l))) (get_chip c l))
  | None => (None, get_chip c l)
  end.
Proof.
  intros R. pose proof (pr_wf _ _ R c) as [Hw _ _]. unfold eoi. case_bool_decide as Hz.
  - destruct (lsb_spec 8 (irq_in_service (get_chip c l))) as (H1 & H2 & H3); [lia..|]. set (k := lsb _) in *.
    rewrite (lowest_Some _ _ _ (base c + k)); [|lia| |].
    + replace (base c + k - base c) with k by lia. unfold seoi, bit_test. by rewrite H2.
    + by rewrite (pr_isr _ _ R).
    + intros j Hj. replace j with (base c + (j - base c)) by lia. rewrite (pr_isr _ _ R) by lia. apply H3. lia.
  - rewrite lowest_None; [done|]. intros j Hj. replace j with (base c + (j - base c)) by lia.
    rewrite (pr_isr _ _ R) by lia. rewrite Hz. apply Z.bits_0.
Qed.

Definition is_eoi (v : Z) : bool := negb (is_icw1 v) && negb (is_ocw3 v) && (is_specific_eoi v || is_non_specific_eoi v).

Lemma unmask_after_eoi_core o l c : get_chip c (unmask_after_eoi o l) = get_chip c l ∧ irq_vectors (unmask_after_eoi o l) = irq_vectors l.
Proof. destruct o; cbn; [|done]. destruct (negb _ && _); by destruct c. Qed.
Lemma unmask_after_eoi_wf o l : il_wf l → il_wf (unmask_after_eoi o l).
Proof. intros Hw. destruct o; cbn; [|done]. destruct (negb _ && _); [|done]. destruct Hw. split; cbn; try done. by apply bit_clear_range. Qed.
Lemma set_chip_wf c p l : il_wf l → il_wf (set_chip c p l).
Proof. intros []. by split; destruct c. Qed.

Lemma port_a_write_sim g c v l s : is_eoi v = true → pic_ok g l s → pic_ok g (port_a_write c v l) (c_eoi c s).
Proof.
  intros Hv [R Hg Hw]. unfold is_eoi in Hv. apply andb_true_iff in Hv as [[H1%negb_true_iff H2%negb_true_iff]%andb_true_iff H3].
  unfold port_a_write, c_eoi. rewrite H1, H2, H3, (eoi_lowest _ _ _ R). pose proof (lowest_spec 8 (c_isr s) (base c)) as Hl.
  pose proof (pr_wf _ _ R c) as []. destruct (lowest _ _ _) as [k|]; cbv beta iota zeta.
  - destruct Hl as (Hk & Hb & _). set (p := p_set_isr _ _). set (l1 := set_chip c p l).
    assert (∀ c', get_chip c' l1 = if decide (c' = c) then p else get_chip c' l) as Hc by (intros c'; apply get_set_chip).
    split; [|eapply same_cfg_has; [|done]|by apply unmask_after_eoi_wf, set_chip_wf].
    + eapply pic_rel_core; [intros; apply unmask_after_eoi_core|by apply (unmask_after_eoi_core _ _ Master)|].
      apply (pic_rel_step l s _ _ c); try done.
      * rewrite Hc, decide_True by done. split; cbn; try done. by apply bit_clear_range.
      * intros c' Hne. by rewrite Hc, decide_False.
      * intros j Hj. rewrite Hc, decide_True by done. cbn. unfold upd. rewrite bit_clear_spec by lia.
        split; [by apply R|]. split; [by apply R|]. destruct (decide (j = k - base c)) as [->|].
        -- by rewrite decide_True, bool_decide_eq_true_2, andb_false_r by lia.
        -- rewrite decide_False, bool_decide_eq_false_2, andb_true_r by lia. by apply R.
      * intros i Hi. cbn. unfold upd. by rewrite decide_False by lia.
      * rewrite Hc, decide_True by done. intros Hne. replace (irq_vectors l1) with (irq_vectors l) by (by destruct c). by apply (pr_sum _ _ R).
      * intros c' _. by destruct c.
    + intros c'. destruct (unmask_after_eoi_core (Some (k - base c)) l1 c') as [-> _]. rewrite Hc. by case_decide; subst.
  - assert (∀ c', get_chip c' (set_chip c (get_chip c l) l) = get_chip c' l) as Hc by (by destruct c; intros []).
    split; [|eapply same_cfg_has; [|done]|by apply unmask_after_eoi_wf, set_chip_wf].
    + eapply pic_rel_core; [apply Hc|by destruct c|done].
    + intros c'. cbn [unmask_after_eoi]. by rewrite Hc.
Qed.

(** Raising through [intlogic_t]. *)
Lemma raise_core_cfg c j l : same_cfg l (pic_signal c j (pic_raise c j l)).
Proof. intros c'. unfold pic_signal. case_bool_decide; by destruct c, c'. Qed.
Lemma raise_core_wf c j l : il_wf l → il_wf (pic_signal c j (pic_raise c j l)).
Proof. intros []. unfold pic_signal. case_bool_decide; by destruct c. Qed.
Lemma raise_core_ok g c j l s : 0 ≤ j < 8 → pic_ok g l s → pic_ok g (pic_signal c j (pic_raise c j l)) (c_raise (base c + j) s).
Proof.
  intros Hj [R Hg Hw]. split; [by apply pic_raise_sim|eapply same_cfg_has; [apply raise_core_cfg|done]|by apply raise_core_wf].
Qed.
Lemma hwirq_mask_ok g b l s : 0 ≤ b < 32 → pic_ok g l s → pic_ok g (set_hwirq_mask b l) s.
Proof.
  intros Hb [R Hg []]. split.
  - by apply (pic_rel_core l); [intros []|..].
  - intros []; [apply (Hg Master)|apply (Hg Slave)].
  - split; cbn; try done. by apply bit_set_range.
Qed.

Lemma pic_raise_irq_sim g c irq l s : base c ≤ irq < base c + 8 → pic_ok g l s →
  ∃ l', pic_raise_irq c irq l = Ok tt l' ∧ pic_ok g l' (c_raise irq s).
Proof.
  intros Hi Ho. assert (0 ≤ base c ≤ 8) by (destruct c; cbn; lia). set (j := irq - base c).
  assert (u32 j = j) as Hj by (apply Z.mod_small; unfold j; lia).
  unfold pic_raise_irq. fold j. rewrite Hj. rewrite bool_decide_eq_true_2 by (unfold j; lia).
  exists (pic_signal c j (set_hwirq_mask irq (pic_raise c j l))). split; [done|].
  replace irq with (base c + j) at 2 by (unfold j; lia).
  replace (pic_signal c j (set_hwirq_mask irq (pic_raise c j l))) with (pic_signal c j (pic_raise c j (set_hwirq_mask irq l))) by (by destruct c).
  apply raise_core_ok; [unfold j; lia|]. by apply hwirq_mask_ok; [lia|].
Qed.
Lemma raise_irq_sim g irq l s : 0 ≤ irq < 16 → pic_ok g l s → ∃ l', raise_irq irq l = Ok tt l' ∧ pic_ok g l' (c_raise irq s).
Proof.
  intros Hi Ho. unfold raise_irq. erewrite bind_ok by done. cbv beta. apply (hwirq_mask_ok _ irq) in Ho; [|lia].
  case_bool_decide; [apply pic_raise_irq_sim; [cbn; lia|done]|].
  rewrite bool_decide_eq_true_2 by lia. apply pic_raise_irq_sim; [cbn; lia|done].
Qed.

(** Delivery keeps the words of the real interrupts. *)
Lemma pic_pending_wf c l : il_wf l → il_wf (pic_pending_vector c l).2.
Proof.
  intros []. unfold pic_pending_vector. case_bool_decide; [by split|]. cbv zeta. cbn [snd]. case_bool_decide; destruct c; by split.
Qed.
Lemma ask_wf c l : il_wf l → il_wf (ask c l).2.
Proof. intros. unfold ask. case_bool_decide; [by apply pic_pending_wf|done]. Qed.
Lemma pending_vector_wf l : il_wf l → il_wf (pending_vector l).2.
Proof.
  intros Hw. unfold pending_vector. case_bool_decide; [done|].
  pose proof (ask_wf Master l Hw) as H1. unfold ask in H1. cbn [get_chip] in H1.
  destruct (if bool_decide (irq_request (master l) ≠ 0) then _ else _) as [r l1]. cbn [snd] in H1.
  destruct r; [done|]. apply (ask_wf Slave l1 H1).
Qed.

(** A vector that could not be delivered is raised again. *)
Definition c_reraise (g : config) (c : chip) (v : Z) (s : ctrl) : ctrl :=
  if decide (cfg_off g c ≤ v < cfg_off g c + 8) then c_raise (base c + (v - cfg_off g c)) s else s.
Lemma pic_reraise_sim g c v l s : pic_ok g l s → pic_ok g (pic_reraise_vector c v l) (c_reraise g c v s).
Proof.
  intros Ho. destruct (po_cfg _ _ _ Ho c) as (E & _ & _). unfold pic_reraise_vector, c_reraise. rewrite E. cbv zeta. case_decide.
  - rewrite !bool_decide_eq_false_2 by lia. cbn [orb]. apply raise_core_ok; [lia|done].
  - destruct (bool_decide (v < _)) eqn:E1; [done|]. apply bool_decide_eq_false in E1. rewrite bool_decide_eq_true_2 by lia. done.
Qed.

(** ** Sequences of operations *)

Inductive pic_op : Type :=
  | IRaise (irq : Z)
  | IDeliver
  | IMask (c : chip) (v : Z)
  | IEoi (c : chip) (v : Z)
  | IReraise (v : Z).
Definition op_ok (o : pic_op) : Prop :=
  match o with
  | IRaise irq => 0 ≤ irq < 16
  | IMask _ v => 0 ≤ v < 2 ^ 8
  | IEoi _ v => is_eoi v = true
  | IDeliver | IReraise _ => True
  end.
Definition pic_exec (o : pic_op) : M intlogic_t (option (Z * Z)) :=
  match o with
  | IRaise irq => raise_irq irq;; mret None
  | IDeliver => λ l, let '(r, l') := pending_vector l in Ok r l'
  | IMask c v => port_b_write c v;; mret None
  | IEoi c v => mmodify (port_a_write c v);; mret None
  | IReraise v => mmodify (reraise_vector v);; mret None
  end.
Definition c_step (g : config) (o : pic_op) (s : ctrl) : option (Z * Z) * ctrl :=
  match o with
  | IRaise irq => (None, c_raise irq s)
  | IDeliver => c_deliver g s
  | IMask c v => (None, c_mask c v s)
  | IEoi c _ => (None, c_eoi c s)
  | IReraise v => (None, c_reraise g Slave v (c_reraise g Master v s))
  end.
Fixpoint pic_run (ops : list pic_op) : M intlogic_t (list (option (Z * Z))) :=
  match ops with
  | [] => mret []
  | o :: ops => r ← pic_exec o; rs ← pic_run ops; mret (r :: rs)
  end.
Fixpoint c_run (g : config) (ops : list pic_op) (s : ctrl) : list (option (Z * Z)) * ctrl :=
  match ops with
  | [] => ([], s)
  | o :: ops => let '(r, s) := c_step g o s in let '(rs, s) := c_run g ops s in (r :: rs, s)
  end.

Lemma pic_exec_sim g o l s : op_ok o → pic_ok g l s → ∃ l', pic_exec o l = Ok (c_step g o s).1 l' ∧ pic_ok g l' (c_step g o s).2.
Proof.
  intros Hok Ho. destruct o as [irq| |c v|c v|v]; cbn [pic_exec c_step op_ok fst snd] in *.
  - destruct (raise_irq_sim g irq l s Hok Ho) as (l' & E & Ho'). erewrite bind_ok by done. eauto.
  - destruct (pending_vector_sim g l s (po_rel _ _ _ Ho) (po_cfg _ _ _ Ho)) as (l' & E & R & Hg).
    pose proof (pending_vector_wf l (po_wf _ _ _ Ho)) as Hw. rewrite E in *. cbn [snd] in Hw. exists l'. by split.
  - destruct (port_b_write_sim g c v l s Hok Ho) as (l' & E & Ho'). erewrite bind_ok by done. eauto.
  - erewrite bind_ok by done. eexists. split; [done|]. by apply port_a_write_sim.
  - erewrite bind_ok by done. eexists. split; [done|]. by apply pic_reraise_sim, pic_reraise_sim.
Qed.

(** ** Programming a controller *)

Definition pic_program (c : chip) (v1 v2 v3 v4 : Z) : M intlogic_t unit :=
  mmodify (port_a_write c v1);;
  port_b_write c v2;;
  (if Z.testbit v1 1 then mret tt else port_b_write c v3);;
  (if Z.testbit v1 0 then port_b_write c v4 else mret tt).

Lemma icw1_raw_bits v : Z.testbit (icw1_raw v) 0 = Z.testbit v 0 ∧ Z.testbit (icw1_raw v) 1 = Z.testbit v 1.
Proof. unfold icw1_raw. rewrite !Z.lor_spec, !Z.land_spec. cbn [Z.testbit]. by rewrite !andb_true_r, !orb_false_r. Qed.
Lemma icw4_raw_aeoi v : Z.testbit (icw4_raw v) 1 = Z.testbit v 1.
Proof. unfold icw4_raw. rewrite Z.land_spec. apply andb_true_r. Qed.

(** What programming leaves in the controller. *)
Definition programmed (v1 v2 v3 v4 : Z) (p : i8259a_t) : i8259a_t :=
  mk_pic (icw1_raw v1) (icw2_raw v2) (if Z.testbit v1 1 then icw3 p else v3)
    (if Z.testbit v1 0 then icw4_raw v4 else icw4_raw 0) ocw_mode (irq_in_service p) (irq_request p) 0xff (ocw_read p).

Lemma set_chip_twice c p q l : set_chip c q (set_chip c p l) = set_chip c q l.
Proof. by destruct c. Qed.
Lemma get_set_same c p l : get_chip c (set_chip c p l) = p.
Proof. by destruct c. Qed.
(** The next mode, by the two bits of ICW1 that matter. *)
Definition mode_after (m : mode_e) (b0 b1 : bool) : mode_e :=
  match m, b1, b0 with
  | ocw_mode, _, _ => icw2_mode
  | icw2_mode, false, _ => icw3_mode
  | icw2_mode, true, true | icw3_mode, _, true => icw4_mode
  | _, _, _ => ocw_mode
  end.
Lemma next_mode_eq p v : icw1 p = icw1_raw v → next_mode p = p_set_mode (mode_after (mode p) (Z.testbit v 0) (Z.testbit v 1)) p.
Proof.
  intros E. unfold next_mode, master_only, icw4_enabled. rewrite E. destruct (icw1_raw_bits v) as [-> ->].
  by destruct (mode p), (Z.testbit v 0), (Z.testbit v 1).
Qed.
Lemma icw_step c p v v1 l f : mode p ≠ ocw_mode → icw1 (f p) = icw1_raw v1 →
  f = match mode p with icw2_mode => p_set_icw2 (icw2_raw v) | icw3_mode => p_set_icw3 v | _ => p_set_icw4 (icw4_raw v) end →
  port_b_write c v (set_chip c p l) = Ok tt (set_chip c (p_set_mode (mode_after (mode (f p)) (Z.testbit v1 0) (Z.testbit v1 1)) (f p)) l).
Proof.
  intros Hm E Hf. unfold port_b_write. erewrite bind_ok by done. cbv beta. rewrite get_set_same. subst f.
  destruct (mode p); [done|..]; unfold mmodify, upd_chip; by rewrite get_set_same, set_chip_twice, (next_mode_eq _ v1) by done.
Qed.

Lemma pic_program_chip c v1 v2 v3 v4 l : is_icw1 v1 = true →
  pic_program c v1 v2 v3 v4 l = Ok tt (set_chip c (programmed v1 v2 v3 v4 (get_chip c l)) l).
Proof.
  intros H1. unfold pic_program, port_a_write. erewrite bind_ok by (cbv [mmodify]; rewrite H1; done). cbv beta. unfold upd_chip.
  destruct (icw1_raw_bits v1) as (B0 & B1). unfold icw4_enabled. cbv zeta. change (icw1 (p_set_icw1 ?x _)) with x. rewrite B0.
  set (p0 := p_set_imr _ _).
  assert (mode p0 = icw2_mode ∧ icw1 p0 = icw1_raw v1) as (M0 & I0) by (unfold p0; by destruct (Z.testbit v1 0)).
  erewrite bind_ok by (apply (icw_step c p0 v2 v1 l (p_set_icw2 (icw2_raw v2))); by rewrite ?M0). cbv beta.
  change (mode (p_set_icw2 (icw2_raw v2) p0)) with (mode p0). rewrite M0.
  unfold programmed, p0. destruct (Z.testbit v1 0) eqn:E0, (Z.testbit v1 1) eqn:E1; cbn [mode_after].
  - erewrite bind_ok by done. cbv beta. rewrite (icw_step _ _ v4 v1 l (p_set_icw4 (icw4_raw v4))) by done. by destruct (get_chip c l).
  - erewrite bind_ok by (by apply (icw_step _ _ v3 v1 l (p_set_icw3 v3))). cbv beta. rewrite E0, E1. 
    rewrite (icw_step _ _ v4 v1 l (p_set_icw4 (icw4_raw v4))) by done. by destruct (get_chip c l).
  - done.
  - erewrite bind_ok by (by apply (icw_step _ _ v3 v1 l (p_set_icw3 v3))). cbv beta. rewrite E0, E1. by destruct (get_chip c l).
Qed.

(** The bits of the real-interrupt words after the loops. *)
Lemma set_bits_spec bs : (∀ b, b ∈ bs → 0 ≤ b) → ∀ w j, 0 ≤ j →
  Z.testbit (foldl (λ w b, bit_set b w) w bs) j = Z.testbit w j || bool_decide (j ∈ bs).
Proof.
  induction bs as [|b bs IH]; intros Hb w j Hj; cbn [foldl]; [by rewrite orb_false_r|].
  assert (0 ≤ b) by (apply Hb; left). rewrite IH by (done || (intros; apply Hb; by right)). rewrite bit_set_spec by done. rewrite <- orb_assoc. f_equal.
  apply eq_bool_prop_intro. rewrite orb_True, !bool_decide_spec. by rewrite elem_of_cons.
Qed.
Lemma clear_bits_spec bs : (∀ b, b ∈ bs → 0 ≤ b) → ∀ w j, 0 ≤ j →
  Z.testbit (foldl (λ w b, bit_clear b w) w bs) j = Z.testbit w j && negb (bool_decide (j ∈ bs)).
Proof.
  induction bs as [|b bs IH]; intros Hb w j Hj; cbn [foldl]; [by rewrite andb_true_r|].
  assert (0 ≤ b) by (apply Hb; left). rewrite IH by (done || (intros; apply Hb; by right)). rewrite bit_clear_spec by done. rewrite <- andb_assoc, <- negb_orb. do 2 f_equal.
  apply eq_bool_prop_intro. rewrite orb_True, !bool_decide_spec. by rewrite elem_of_cons.
Qed.
Lemma elem_of_irqs_with (P : Z → Prop) `{∀ j, Decision (P j)} j : (P j → 0 ≤ j < 32) → j ∈ irqs_with P ↔ P j.
Proof. intros HP. unfold irqs_with. rewrite list_elem_of_filter, elem_of_seqZ. naive_solver lia. Qed.
Lemma irqs_member (P : Z → Prop) `{∀ j, Decision (P j)} j : (P j → 0 ≤ j < 32) → bool_decide (j ∈ irqs_with P) = bool_decide (P j).
Proof. intros HP. apply bool_decide_ext. by apply elem_of_irqs_with. Qed.

(** ** Claims *)

(** The set-based controller of a state whose controllers are in operation. *)
Definition abstract_of (l : intlogic_t) : ctrl :=
  let bit f j := if decide (j < 8) then Z.testbit (f (master l)) j else Z.testbit (f (slave l)) (j - 8) in
  mk_ctrl (bit irq_request) (bit irq_mask) (bit irq_in_service).
Definition config_of (l : intlogic_t) : config :=
  mk_cfg (λ c, get_idt_offset (get_chip c l)) (λ c, is_auto_eoi (get_chip c l)).

(** C6. The pair of controllers implements an interrupt controller with fixed
    priorities: raises, deliveries, mask writes, ends of interrupt and re-raised
    vectors, in any order and number, run without a failed assertion, and each
    delivery gives the vector of the lowest-numbered requested and unmasked
    interrupt of the sixteen if there is one, and none otherwise. The CPU's summary
    word, the early exits on it and on a request word of 0, never hide one. *)
Theorem pic_refines g l s ops : pic_ok g l s → Forall op_ok ops →
  ∃ l', pic_run ops l = Ok (c_run g ops s).1 l' ∧ pic_ok g l' (c_run g ops s).2.
Proof.
  intros Ho Hf. revert l s Ho. induction Hf as [|o ops Hok _ IH]; intros l s Ho; cbn [pic_run c_run]; [by eexists|].
  destruct (pic_exec_sim g o l s Hok Ho) as (l1 & E & Ho1). erewrite bind_ok by done. cbv beta.
  destruct (c_step g o s) as [r s1]. destruct (IH l1 s1 Ho1) as (l2 & E2 & Ho2). erewrite bind_ok by done.
  cbn [fst snd] in *. destruct (c_run g ops s1) as [rs s2]. by exists l2.
Qed.

(** Programming a controller with ICW1 to ICW4, as the guest does at boot: from any
    state, in any of the four forms of the sequence (cascaded or single, with or
    without ICW4), it ends in operation, with all its interrupts masked, the vector
    offset [v2 & 0xf8], automatic EOI exactly when ICW4 is sent with bit 1, the
    requests and the interrupts in service kept, and the other controller as it was. *)
Theorem pic_programs c v1 v2 v3 v4 l s : is_icw1 v1 = true → pic_rel l s →
  ∃ l', pic_program c v1 v2 v3 v4 l = Ok tt l' ∧ pic_rel l' (c_mask c 0xff s) ∧
    mode (get_chip c l') = ocw_mode ∧ get_idt_offset (get_chip c l') = Z.land v2 0xf8 ∧
    is_auto_eoi (get_chip c l') = Z.testbit v1 0 && Z.testbit v4 1 ∧
    (∀ c', c' ≠ c → get_chip c' l' = get_chip c' l) ∧ il_events l' = il_events l.
Proof.
  intros H1 R. rewrite pic_program_chip by done. eexists. split; [done|]. rewrite get_set_same.
  pose proof (pr_wf _ _ R c) as []. split; [|split; [done|split; [done|split; [|split]]]].
  - apply (pic_rel_step l s _ _ c); rewrite ?get_set_same; try done.
    + intros c' Hne. by rewrite get_set_chip, decide_False.
    + intros j Hj. cbn [c_mask c_req c_msk c_isr programmed irq_request irq_mask irq_in_service]. rewrite decide_True by lia.
      replace (base c + j - base c) with j by lia. split; [|split]; (done || by apply R).
    + intros k Hk. cbn. by rewrite decide_False.
    + intros Hz. exfalso. apply Hz. unfold masked_irr. cbn [programmed irq_request irq_mask].
      apply (zero_bits _ 8); [by apply land_range|]. intros j Hj. rewrite masked_spec by lia.
      change 255 with (Z.ones 8). rewrite Z.ones_spec_low by lia. apply andb_false_r.
    + intros c' _. by destruct c.
  - unfold is_auto_eoi, programmed. cbn [icw4]. destruct (Z.testbit v1 0); [|done]. apply icw4_raw_aeoi.
  - intros c' Hne. by rewrite get_set_chip, decide_False.
  - by destruct c.
Qed.

(** A mask write to a controller in operation reaches the real devices exactly:
    it enables, once and in ascending order, the interrupts of this controller that
    become unmasked, were never enabled and are not squashed, and afterwards
    unmasks those that were masked by the guest before, are masked in hardware and
    are not squashed; the latch gains the former, the hardware mask loses the
    latter, and nothing else of the two words changes. *)
Theorem mask_write_devices c v l : il_wf l → (∀ c, pic_wf (get_chip c l)) → 0 ≤ v < 2 ^ 8 → mode (get_chip c l) = ocw_mode →
  ∃ l', port_b_write c v l = Ok tt l' ∧ irq_mask (get_chip c l') = v ∧
    il_events l' = il_events l ++ (EnableDevice <$> irqs_with (newly_enabled c v l)) ++ (UnmaskDevice <$> irqs_with (device_unmasked c v l)) ∧
    (∀ j, 0 ≤ j → Z.testbit (hwirq_latch l') j = Z.testbit (hwirq_latch l) j || bool_decide (newly_enabled c v l j)) ∧
    (∀ j, 0 ≤ j → Z.testbit (hwirq_mask l') j = Z.testbit (hwirq_mask l) j && negb (bool_decide (device_unmasked c v l j))).
Proof.
  intros Hw Hp Hv Hm. rewrite port_b_write_ok by done. eexists. split; [done|]. cbv zeta.
  assert (0 ≤ base c ≤ 8) by (destruct c; cbn; lia). split; [|split; [done|split]].
  - pose proof (mask_written_chip c v l c) as Hc. rewrite decide_True in Hc by done. by destruct c; cbn in *; rewrite Hc.
  - intros j Hj. cbn [hwirq_latch]. rewrite set_bits_spec by (done || (intros b Hb%irqs_with_range; lia)).
    f_equal. apply irqs_member. unfold newly_enabled. lia.
  - intros j Hj. cbn [hwirq_mask]. rewrite clear_bits_spec by (done || (intros b Hb%irqs_with_range; lia)).
    do 2 f_equal. apply irqs_member. unfold device_unmasked. lia.
Qed.

(** ** A machine that has booted *)

Definition booted : intlogic_t :=
  Eval vm_compute in match (pic_program Master 0x11 0x20 4 1;; pic_program Slave 0x11 0x28 2 1) (intlogic_init l4ka_squash) with
  | Ok _ l => l
  | Err _ => intlogic_init l4ka_squash
  end.
Lemma booted_programmed : (pic_program Master 0x11 0x20 4 1;; pic_program Slave 0x11 0x28 2 1) (intlogic_init l4ka_squash) = Ok tt booted.
Proof. vm_compute. reflexivity. Qed.
Lemma byte_wf isr irr imr i1 i2 i3 i4 m o : bool_decide (0 ≤ isr < 2 ^ 8) && bool_decide (0 ≤ irr < 2 ^ 8) && bool_decide (0 ≤ imr < 2 ^ 8) = true →
  pic_wf (mk_pic i1 i2 i3 i4 m isr irr imr o).
Proof. rewrite !andb_true_iff, !bool_decide_eq_true. intros [[]]. by split. Qed.

Lemma abstract_rel l : (∀ c, pic_wf (get_chip c l)) → (∀ c, masked_irr (get_chip c l) = 0) → pic_rel l (abstract_of l).
Proof.
  intros Hw Hz. split; [done|..]; try (intros c j Hj; destruct c; cbn; [by rewrite decide_True by lia|
    rewrite decide_False by lia; f_equal; lia]). intros c Hc. by rewrite Hz in Hc.
Qed.
Lemma booted_ok : pic_ok (config_of booted) booted (abstract_of booted).
Proof.
  split; [apply abstract_rel|..].
  - intros []; by apply byte_wf.
  - by intros [].
  - by intros [].
  - by split.
Qed.

Lemma pic_refines_witness : ∃ l',
  pic_run [IMask Master 0xf8; IMask Slave 0x00; IRaise 12; IRaise 1; IRaise 0; IDeliver; IEoi Master 0x20; IDeliver; IDeliver; IDeliver]
    booted = Ok [None; None; None; None; None; Some (0x20, 0); None; Some (0x21, 1); Some (0x2c, 12); None] l'.
Proof.
  destruct (pic_refines (config_of booted) booted (abstract_of booted)
    [IMask Master 0xf8; IMask Slave 0x00; IRaise 12; IRaise 1; IRaise 0; IDeliver; IEoi Master 0x20; IDeliver; IDeliver; IDeliver]) as (l' & H & _).
  - apply booted_ok.
  - repeat constructor; cbn; (lia || done).
  - exists l'. exact H.
Defined.
Lemma pic_programs_witness : ∃ l', pic_program Slave 0x11 0x28 2 3 (intlogic_init 0) = Ok tt l' ∧ get_idt_offset (slave l') = 0x28 ∧
  is_auto_eoi (slave l') = true.
Proof.
  destruct (pic_programs Slave 0x11 0x28 2 3 (intlogic_init 0) (abstract_of (intlogic_init 0))) as (l' & H & _ & _ & H1 & H2 & _).
  - reflexivity.
  - apply abstract_rel; [intros []; by apply byte_wf|by intros []].
  - exists l'. split; [exact H|]. split; [exact H1|exact H2].
Defined.
Lemma mask_write_devices_witness : ∃ l', port_b_write Slave 0xef booted = Ok tt l' ∧ il_events l' = [EnableDevice 12].
Proof.
  destruct (mask_write_devices Slave 0xef booted) as (l' & H & _ & H1 & _).
  - apply booted_ok.
  - apply booted_ok.
  - lia.
  - reflexivity.
  - exists l'. split; [exact H|]. exact H1.
Defined.

(** An end of interrupt at the slave acts on the wrong real interrupt: the number
    it passes on is local to the controller. After interrupt 14 was delivered and
    acknowledged with OCW2 0x20 at the slave, its hardware mask bit is still set and
    its device was not unmasked, while interrupt 6, which is requested but neither
    delivered nor acknowledged, is unmasked. *)
Theorem slave_eoi_wrong_irq : ∃ l',
  (pic_run [IMask Master 0xbf; IMask Slave 0xbf; IRaise 14; IDeliver; IRaise 6; IEoi Slave 0x20];; mget) booted = Ok l' l' ∧
  Z.testbit (hwirq_mask l') 14 = true ∧ UnmaskDevice 14 ∉ il_events l' ∧
  irq_request (master l') = 0x40 ∧ Z.testbit (hwirq_mask l') 6 = false ∧ UnmaskDevice 6 ∈ il_events l'.
Proof.
  eexists. split; [vm_compute; reflexivity|]. split; [done|]. split; [|split; [done|split; [done|]]].
  - cbn. intros H. repeat (apply elem_of_cons in H as [?|H]; [done|]). by apply elem_of_nil in H.
  - cbn. repeat constructor.
Qed.

(** A specific EOI ignores the level it names: with interrupts 1 and 3 in service,
    acknowledging 3 (OCW2 0x63) takes 1 out of service. *)
Example specific_eoi_ignores_level :
  let p := p_set_isr 0x0a i8259a_init in
  irq_in_service (master (port_a_write Master 0x63 (il_set_master p (intlogic_init 0)))) = 0x08.
Proof. reflexivity. Qed.
