(* ===== verification/Apic.v ===== *)
(** * The virtual APICs

    Models the wedge's local APIC (afterburn-wedge/device/lapic.h, lapic.cc), its
    I/O APICs (device/i82093.h, i82093.cc) and the interrupt logic with APICs
    (ia32/intlogic.h, intlogic.cc), for any number of virtual CPUs. A local APIC is
    the page of 1024 words the guest sees, an I/O APIC its registers; bit fields are
    read and written in these words. The 8259A pair behind the virtual wire is that of
    Pic.v. The bit instructions take a bit number of a 32-bit word in memory; a
    number above 31 reaches into the words behind it and is a fault here. *)

From Stdlib Require Import ZArith Lia.
From stdpp Require Import base list numbers.
From S2P Require Import Prelude Pic.

(** ** Words and fields *)

(** [n] bits from bit [lo] on. *)
Definition bf (lo n w : Z) : Z := Z.land (Z.shiftr w lo) (Z.ones n).
Definition bf_set (lo n x w : Z) : Z := Z.lor (Z.ldiff w (Z.shiftl (Z.ones n) lo)) (Z.shiftl (Z.land x (Z.ones n)) lo).
Definition flag (b : bool) : Z := if b then 1 else 0.

(** [msb] (ia32/bitops.h): the instruction [bsr]; undefined for 0. *)
Definition msb (w : Z) : Z := Z.log2 w.
(** [1 << n] on IA-32. *)
Definition shl1 (n : Z) : Z := Z.shiftl 1 (Z.land n 31).

(** ** The local APIC (lapic.h) *)

Definition wd (raw : list Z) (i : Z) : Z := default 0 (zlookup raw i).
Definition upd_wd (i : Z) (f : Z → Z) (raw : list Z) : list Z := zinsert i (f (wd raw i)) raw.
(** The field of [n] bits from bit [lo] on of word [i]. *)
Definition get_f (i lo n : Z) (raw : list Z) : Z := bf lo n (wd raw i).
Definition set_f (i lo n x : Z) (raw : list Z) : list Z := upd_wd i (bf_set lo n x) raw.
Definition set_w (i x : Z) (raw : list Z) : list Z := zinsert i x raw.

(** [rr_sel_t] *)
Inductive rr_sel_t : Type := lapic_rr_isr | lapic_rr_tmr | lapic_rr_irr.
Definition rr_base (s : rr_sel_t) : Z := match s with lapic_rr_isr => 0x100 | lapic_rr_tmr => 0x180 | lapic_rr_irr => 0x200 end.
#[global] Instance rr_sel_eq_dec : EqDecision rr_sel_t.
Proof. solve_decision. Defined.

(** Indices of words: the byte offset of a register divided by 4. *)
Definition W_ENABLED : Z := 0x08 / 4.
Definition W_ID : Z := 0x20 / 4.
Definition W_VER : Z := 0x30 / 4.
Definition W_LDR : Z := 0xd0 / 4.
Definition W_DFR : Z := 0xe0 / 4.
Definition W_SVR : Z := 0xf0 / 4.
Definition W_ICRLO : Z := 0x300 / 4.
Definition W_ICRHI : Z := 0x310 / 4.
Definition W_TIMER : Z := 0x320 / 4.
Definition W_THERMAL : Z := 0x330 / 4.
Definition W_PMC : Z := 0x340 / 4.
Definition W_LINT0 : Z := 0x350 / 4.
Definition W_LINT1 : Z := 0x360 / 4.
Definition W_ERROR : Z := 0x370 / 4.
Definition W_INIT_COUNT : Z := 0x380 / 4.
Definition W_DIV_CONF : Z := 0x3e0 / 4.
Definition W_V_TO_PIN : Z := 0x400 / 4.

Definition so_to_raw (s : rr_sel_t) (offset : Z) : Z := Z.shiftr (rr_base s + offset) 2.
Definition sb_to_raw (s : rr_sel_t) (bit : Z) : Z := Z.shiftr (rr_base s + Z.land (Z.shiftr bit 1) (Z.lnot 0xf)) 2.

Definition msb_rr_cluster (s : rr_sel_t) (cluster : Z) (raw : list Z) : Z :=
  if bool_decide (cluster = 0) then 0 else
  let cluster_bit := Z.land (Z.shiftl (msb cluster) 3) (Z.lnot 0x1f) in
  let cluster_raw := wd raw (sb_to_raw s cluster_bit) in
  if bool_decide (cluster_raw ≠ 0) then cluster_bit + msb cluster_raw else 0.

(** The last line indexes the array with the byte offset [rr_sel]. *)
Definition msb_rr (s : rr_sel_t) (raw : list Z) : Z :=
  let at_ (o : Z) := wd raw (so_to_raw s o) in
  if bool_decide (at_ 0x70 ≠ 0) then msb (at_ 0x70) + 0xe0 else
  if bool_decide (at_ 0x60 ≠ 0) then msb (at_ 0x60) + 0xc0 else
  if bool_decide (at_ 0x50 ≠ 0) then msb (at_ 0x50) + 0xa0 else
  if bool_decide (at_ 0x40 ≠ 0) then msb (at_ 0x40) + 0x80 else
  if bool_decide (at_ 0x30 ≠ 0) then msb (at_ 0x30) + 0x60 else
  if bool_decide (at_ 0x20 ≠ 0) then msb (at_ 0x20) + 0x40 else
  if bool_decide (at_ 0x10 ≠ 0) then msb (at_ 0x10) + 0x20 else
  if bool_decide (at_ 0 ≠ 0) then msb (wd raw (rr_base s)) else 0.

Definition bit_set_rr (bit : Z) (s : rr_sel_t) (raw : list Z) : list Z := upd_wd (sb_to_raw s bit) (bit_set (Z.land bit 0x1f)) raw.
Definition bit_clear_rr (bit : Z) (s : rr_sel_t) (raw : list Z) : list Z := upd_wd (sb_to_raw s bit) (bit_clear (Z.land bit 0x1f)) raw.
Definition bit_test_rr (bit : Z) (s : rr_sel_t) (raw : list Z) : bool := bit_test (Z.land bit 0x1f) (wd raw (sb_to_raw s bit)).

(** [virt_magic]: the letters VLAPICV0 as two words. *)
Definition lapic_virt_magic : Z * Z := (0x50414c56, 0x30564349).
Definition is_valid_lapic (raw : list Z) : bool :=
  bool_decide (wd raw 0 = lapic_virt_magic.1) && bool_decide (wd raw 1 = lapic_virt_magic.2).

Definition LAPIC_DM_FIXED : Z := 0.
Definition LAPIC_DM_NMI : Z := 4.
Definition LAPIC_DM_INIT : Z := 5.
Definition LAPIC_DM_STARTUP : Z := 6.
Definition LAPIC_DM_EXTINT : Z := 7.
Definition LAPIC_DF_FLAT : Z := 0xf.

Definition lapic_is_enabled (raw : list Z) : bool := bool_decide (wd raw W_ENABLED ≠ 0).
Definition is_virtual_wire (raw : list Z) : bool :=
  bool_decide (get_f W_LINT0 8 3 raw = LAPIC_DM_EXTINT) && bool_decide (get_f W_LINT0 16 1 raw = 0).
Definition lapic_get_id (raw : list Z) : Z := get_f W_ID 24 8 raw.
Definition lid_matches (ldest : Z) (raw : list Z) : bool := bool_decide (Z.land (get_f W_LDR 24 8 raw) ldest ≠ 0).

(** [v_to_pin]: the I/O APIC and the interrupt of a vector. *)
Definition w_pin (vector : Z) : Z := W_V_TO_PIN + 2 * vector + 1.
Definition w_ioapic (vector : Z) : Z := W_V_TO_PIN + 2 * vector.
Definition lapic_get_reg (reg : Z) (raw : list Z) : Z := wd raw (reg / 4).
Definition addr_to_reg (addr : Z) : Z := Z.land addr 0xfff.

Fixpoint init_pins (n : nat) (raw : list Z) : list Z :=
  match n with O => raw | S n => set_w (w_pin n) 256 (set_w (w_ioapic n) 0 (init_pins n raw)) end.
Definition lapic_init (id : Z) (bsp : bool) : list Z :=
  let raw := replicate 1024 0 in
  let raw := set_w 1 lapic_virt_magic.2 (set_w 0 lapic_virt_magic.1 raw) in
  let raw := set_w W_ENABLED 0 raw in
  let raw := set_f W_VER 16 8 0x5 (set_f W_VER 0 8 0x10 raw) in
  let raw := set_w W_DFR 0xffffffff raw in
  let raw := set_w W_SVR 0x1ff raw in
  let raw := fold_left (λ raw w, set_w w 0x10000 raw) [W_LINT0; W_LINT1; W_ERROR; W_PMC; W_THERMAL; W_TIMER] raw in
  let raw := set_f W_ID 24 8 id raw in
  let raw := if bsp then
      let raw := set_f W_LINT0 16 1 0 (set_f W_LINT0 8 3 LAPIC_DM_EXTINT raw) in
      let raw := set_f W_LINT1 15 1 1 (set_f W_LINT1 16 1 0 (set_f W_LINT1 8 3 LAPIC_DM_NMI raw)) in
      set_w W_ENABLED 1 (set_f W_SVR 8 1 1 raw)
    else raw in
  init_pins 256 raw.

(** ** The I/O APIC (i82093.h) *)

Definition IOAPIC_MAX_REDIR_ENTRIES : Z := 64.

(** [io_raw] holds the identification, version and arbitration registers and from
    word 16 on the redirection table, two words per entry. *)
Record i82093_t : Type := mk_io {
  io_regsel : Z;
  io_regwin : Z;
  io_irq_base : Z;
  io_raw : list Z
}.
Definition io_set_regsel (x : Z) (i : i82093_t) : i82093_t :=
  mk_io x (io_regwin i) (io_irq_base i) (io_raw i).
Definition io_set_regwin (x : Z) (i : i82093_t) : i82093_t :=
  mk_io (io_regsel i) x (io_irq_base i) (io_raw i).
Definition io_set_irq_base (x : Z) (i : i82093_t) : i82093_t :=
  mk_io (io_regsel i) (io_regwin i) x (io_raw i).
Definition io_set_raw (x : list Z) (i : i82093_t) : i82093_t :=
  mk_io (io_regsel i) (io_regwin i) (io_irq_base i) x.
Definition rw (i : i82093_t) (entry : Z) : Z := wd (io_raw i) (16 + 2 * entry).
Definition rw_hi (i : i82093_t) (entry : Z) : Z := wd (io_raw i) (16 + 2 * entry + 1).
Definition upd_rw (entry : Z) (f : Z → Z) (i : i82093_t) : i82093_t := io_set_raw (upd_wd (16 + 2 * entry) f (io_raw i)) i.
Definition upd_rw_hi (entry : Z) (f : Z → Z) (i : i82093_t) : i82093_t := io_set_raw (upd_wd (16 + 2 * entry + 1) f (io_raw i)) i.

(** The fields of the two words. *)
Definition r_vec (w : Z) : Z := bf 0 8 w.
Definition r_del (w : Z) : Z := bf 8 3 w.
Definition r_dstm (w : Z) : Z := bf 11 1 w.
Definition r_trg (w : Z) : Z := bf 15 1 w.
Definition r_msk (w : Z) : Z := bf 16 1 w.
Definition r_old_dstm (w : Z) : Z := bf 18 1 w.
Definition r_pdst (w : Z) : Z := bf 24 4 w.
Definition r_old_pdst (w : Z) : Z := bf 16 4 w.
Definition r_ldst (w : Z) : Z := bf 24 8 w.
Definition r_old_ldst (w : Z) : Z := bf 16 8 w.

(** The constructor. *)
Definition i82093_init : i82093_t := mk_io 0 0 0 (set_f 1 16 8 0x17 (set_f 1 0 8 0x13 (replicate 144 0))).
Definition io_set_id (x : Z) (i : i82093_t) : i82093_t := io_set_raw (set_f 0 24 4 x (io_raw i)) i.
Definition io_get_id (i : i82093_t) : Z := get_f 0 24 4 (io_raw i).
Definition set_max_redir_entry (x : Z) (i : i82093_t) : i82093_t := io_set_raw (set_f 1 16 8 x (io_raw i)) i.
Definition get_max_redir_entry (i : i82093_t) : Z := get_f 1 16 8 (io_raw i).
Definition is_valid_ioapic (i : i82093_t) : bool := bool_decide (io_get_id i ≠ 0xf).

(** ** The machine *)

Inductive apic_event : Type :=
  | AUnmask (irq : Z)               (** [backend_unmask_device_interrupt] *)
  | AEnable (irq vcpu : Z)          (** [backend_enable_device_interrupt] *)
  | ADisable (irq vcpu : Z)         (** [backend_disable_device_interrupt] *)
  | AStartup (vcpu : Z)             (** [vcpu_t::startup] *)
  | ADebugger.                      (** [DEBUGGER_ENTER], after which execution goes on *)

(** [ap_cur] is the virtual CPU that runs; [ap_vectors] are the summary words of the
    CPUs, [ap_status] their startup states (0 off, 1 booting another, 2 on). *)
Record apic_t : Type := mk_apic {
  ap_cur : Z;
  ap_lapics : list (list Z);
  ap_vectors : list Z;
  ap_ioapics : list i82093_t;
  ap_hwirq_to_ioapic : list (option Z);
  ap_pic : intlogic_t;
  ap_status : list Z;
  ap_events : list apic_event
}.
Definition ap_set_cur (x : Z) (s : apic_t) : apic_t :=
  mk_apic x (ap_lapics s) (ap_vectors s) (ap_ioapics s) (ap_hwirq_to_ioapic s) (ap_pic s) (ap_status s)
    (ap_events s).
Definition ap_set_lapics (x : list (list Z)) (s : apic_t) : apic_t :=
  mk_apic (ap_cur s) x (ap_vectors s) (ap_ioapics s) (ap_hwirq_to_ioapic s) (ap_pic s) (ap_status s)
    (ap_events s).
Definition ap_set_vectors (x : list Z) (s : apic_t) : apic_t :=
  mk_apic (ap_cur s) (ap_lapics s) x (ap_ioapics s) (ap_hwirq_to_ioapic s) (ap_pic s) (ap_status s)
    (ap_events s).
Definition ap_set_ioapics (x : list i82093_t) (s : apic_t) : apic_t :=
  mk_apic (ap_cur s) (ap_lapics s) (ap_vectors s) x (ap_hwirq_to_ioapic s) (ap_pic s) (ap_status s)
    (ap_events s).
Definition ap_set_hwirq_to_ioapic (x : list (option Z)) (s : apic_t) : apic_t :=
  mk_apic (ap_cur s) (ap_lapics s) (ap_vectors s) (ap_ioapics s) x (ap_pic s) (ap_status s) (ap_events s).
Definition ap_set_pic (x : intlogic_t) (s : apic_t) : apic_t :=
  mk_apic (ap_cur s) (ap_lapics s) (ap_vectors s) (ap_ioapics s) (ap_hwirq_to_ioapic s) x (ap_status s)
    (ap_events s).
Definition ap_set_status (x : list Z) (s : apic_t) : apic_t :=
  mk_apic (ap_cur s) (ap_lapics s) (ap_vectors s) (ap_ioapics s) (ap_hwirq_to_ioapic s) (ap_pic s) x
    (ap_events s).
Definition ap_set_events (x : list apic_event) (s : apic_t) : apic_t :=
  mk_apic (ap_cur s) (ap_lapics s) (ap_vectors s) (ap_ioapics s) (ap_hwirq_to_ioapic s) (ap_pic s)
    (ap_status s) x.

Class ApicEnv : Type := {
  CONFIG_NR_VCPUS : Z;
  CONFIG_MAX_IOAPICS : Z;
  (** The address of the array of I/O APICs, which are a page each. *)
  ioapic_base : Z
}.

Section ops.
Context {E : ApicEnv}.
Abbreviation MA := (M apic_t).

Definition nr_vcpus (s : apic_t) : Z := length (ap_lapics s).
Definition ap_emit (e : apic_event) : MA unit := mmodify (λ s, ap_set_events (ap_events s ++ [e]) s).
Definition debugger_enter : MA unit := ap_emit ADebugger.

(** [get_lapic] *)
Definition load_lapic (d : Z) : MA (list Z) := o ← mgets (λ s, zlookup (ap_lapics s) d); mof_option OutOfBounds o.
Definition upd_lapic (d : Z) (f : list Z → list Z) : MA unit :=
  raw ← load_lapic d; mmodify (λ s, ap_set_lapics (zinsert d (f raw) (ap_lapics s)) s).
Definition cur_lapic : MA (list Z) := d ← mgets ap_cur; load_lapic d.
Definition upd_cur_lapic (f : list Z → list Z) : MA unit := d ← mgets ap_cur; upd_lapic d f.

(** The summary word of the current CPU: one bit for eight vectors. *)
Definition get_irq_vectors : MA Z := o ← mgets (λ s, zlookup (ap_vectors s) (ap_cur s)); mof_option OutOfBounds o.
Definition upd_irq_vectors (f : Z → Z) : MA unit :=
  w ← get_irq_vectors; mmodify (λ s, ap_set_vectors (zinsert (ap_cur s) (f w) (ap_vectors s)) s).
Definition in_word (bit : Z) : MA unit := if bool_decide (0 ≤ bit < 32) then mret tt else mfault OutOfBounds.
Definition cpu_set_irq_vector (vector : Z) : MA unit := in_word (Z.shiftr vector 3);; upd_irq_vectors (bit_set (Z.shiftr vector 3)).
Definition cpu_clear_irq_vector (vector : Z) : MA unit := in_word (Z.shiftr vector 3);; upd_irq_vectors (bit_clear (Z.shiftr vector 3)).

(** The words of the interrupt logic for real interrupts. *)
Definition on_il {A} (f : intlogic_t → A * intlogic_t) : MA A :=
  s ← mget; let '(a, l) := f (ap_pic s) in mmodify (ap_set_pic l);; mret a.
Definition hw_set_mask (irq : Z) : MA unit := in_word irq;; on_il (λ l, (tt, set_hwirq_mask irq l)).
Definition hw_test_and_clear_mask (irq : Z) : MA bool :=
  in_word irq;; on_il (λ l, (bit_test irq (hwirq_mask l), clear_hwirq_mask irq l)).
Definition hw_test_and_set_latch (irq : Z) : MA bool :=
  in_word irq;; on_il (λ l, (bit_test irq (hwirq_latch l), set_hwirq_latch irq l)).
Definition hw_is_squashed (irq : Z) : MA bool := mgets (λ s, is_hwirq_squashed (Z.land irq 31) (ap_pic s)).

(** [v_to_pin] *)
Definition get_pin (vector : Z) (raw : list Z) : Z := wd raw (w_pin vector).
(** A pointer to an I/O APIC as the word that holds it, and back. *)
Definition ioapic_ptr (j : Z) : Z := ioapic_base + 4096 * j.
Definition get_ioapic (vector : Z) (raw : list Z) : option Z :=
  let w := wd raw (w_ioapic vector) in if bool_decide (w = 0) then None else Some ((w - ioapic_base) / 4096).

(** ** [local_apic_t::raise_vector] and [pending_vector] *)

(** [d] is the local APIC; [from] the I/O APIC. *)
Definition lapic_raise_vector (d vector irq : Z) (reraise from_eoi : bool) (from : option Z) : MA unit :=
  massert (bool_decide (vector ≤ 256));;
  if bool_decide (vector > 15) then
    (if reraise then upd_lapic d (bit_clear_rr vector lapic_rr_isr)
     else massert (bool_decide (vector < 256));; upd_lapic d (set_w (w_pin vector) irq));;
    upd_lapic d (bit_set_rr vector lapic_rr_irr);;
    cpu_set_irq_vector (vector + 16);;
    (if from_eoi then
       massert (bool_decide (vector < 256));;
       upd_lapic d (set_w (w_ioapic vector) (match from with Some j => ioapic_ptr j | None => 0 end));;
       upd_lapic d (bit_set_rr vector lapic_rr_tmr)
     else mret tt)
  else mret tt.

Definition lapic_raise_timer_irq : MA unit :=
  raw ← cur_lapic; d ← mgets ap_cur;
  if bool_decide (get_f W_TIMER 16 1 raw = 0) then lapic_raise_vector d (get_f W_TIMER 0 8 raw) 0 false false None else mret tt.

(** The vector and the interrupt. *)
Definition lapic_pending_vector : MA (option (Z * Z)) :=
  raw ← cur_lapic; cur ← mgets ap_cur;
  massert (bool_decide (cur = lapic_get_id raw));;
  let vector := msb_rr lapic_rr_irr raw in
  let vector_in_service := msb_rr lapic_rr_isr raw in
  if bool_decide (Z.shiftr vector 4 > Z.shiftr vector_in_service 4) && bool_decide (vector > 15) then
    upd_cur_lapic (bit_clear_rr vector lapic_rr_irr);;
    upd_cur_lapic (bit_set_rr vector lapic_rr_isr);;
    massert (bool_decide (vector < 256));;
    mret (Some (vector, get_pin vector raw))
  else mret None.

(** ** The I/O APIC's operations (i82093.cc) *)

Definition load_io (j : Z) : MA i82093_t := o ← mgets (λ s, zlookup (ap_ioapics s) j); mof_option OutOfBounds o.
Definition upd_io (j : Z) (f : i82093_t → i82093_t) : MA unit :=
  i ← load_io j; mmodify (λ s, ap_set_ioapics (zinsert j (f i) (ap_ioapics s)) s).

(** The virtual CPUs below [n] whose logical identification matches. *)
Fixpoint logical_mask (n : nat) (ldst : Z) : MA Z :=
  match n with
  | O => mret 0
  | S n =>
      ret ← logical_mask n ldst;
      raw ← load_lapic n;
      massert (bool_decide (get_f W_DFR 28 4 raw = LAPIC_DF_FLAT));;
      mret (if lid_matches ldst raw then Z.lor ret (shl1 n) else ret)
  end.

Definition get_redir_entry_dest_mask (j entry : Z) (old : bool) : MA Z :=
  massert (bool_decide (CONFIG_NR_VCPUS < 32));;
  i ← load_io j; s ← mget;
  let lo := rw i entry in let hi := rw_hi i entry in
  if bool_decide ((if old then r_old_dstm lo else r_dstm lo) = 0) then
    mret (Z.land (shl1 (if old then r_old_pdst hi else r_pdst hi)) (shl1 (nr_vcpus s) - 1))
  else logical_mask (length (ap_lapics s)) (if old then r_old_ldst hi else r_ldst hi).

(** Telling the device of [irq], whose entry must have a destination. *)
Definition unmask_device (j entry irq : Z) : MA unit :=
  squashed ← hw_is_squashed irq;
  if (squashed : bool) then mret tt else
  masked ← hw_test_and_clear_mask irq;
  if (masked : bool) then
    mask ← get_redir_entry_dest_mask j entry false;
    massert (bool_decide (mask ≠ 0));;
    ap_emit (AUnmask irq)
  else mret tt.

(** The loop over the bits of a destination mask. *)
Fixpoint each_dest (fuel : nat) (mask : Z) (body : Z → MA unit) : MA unit :=
  if bool_decide (mask = 0) then mret tt else
  match fuel with
  | O => mfault Diverged
  | S fuel => body (lsb mask);; each_dest fuel (bit_clear (lsb mask) mask) body
  end.

(** [i82093_t::raise_irq] *)
Definition ioapic_raise_irq (j irq : Z) (reraise : bool) : MA unit :=
  i ← load_io j;
  let entry := u32 (irq - io_irq_base i) in
  massert (bool_decide (entry < IOAPIC_MAX_REDIR_ENTRIES));;
  let w := rw i entry in
  if bool_decide (r_vec w ≤ 15) then mret tt else
  if bool_decide (r_msk w = 0) then
    mask ← get_redir_entry_dest_mask j entry false;
    (if bool_decide (r_trg w = 1) then upd_io j (upd_rw entry (bit_set 14)) else unmask_device j entry irq);;
    let from_eoi := bool_decide (r_trg w = 1) && bool_decide (r_del w ≤ 1) in
    let from := if bool_decide (r_trg w = 1) then Some j else None in
    each_dest 32 mask (λ d,
      (if bool_decide (CONFIG_NR_VCPUS ≤ d) then debugger_enter else mret tt);;
      lapic_raise_vector d (r_vec w) irq reraise from_eoi from)
  else if bool_decide (r_trg w = 1) then upd_io j (upd_rw entry (bit_set 17))
  else unmask_device j entry irq.

(** [i82093_t::eoi] *)
Definition ioapic_eoi (j hwirq : Z) : MA unit :=
  i ← load_io j;
  let entry := u32 (hwirq - io_irq_base i) in
  massert (bool_decide (entry < IOAPIC_MAX_REDIR_ENTRIES));;
  if bit_test 14 (rw i entry) then
    upd_io j (upd_rw entry (bit_clear 14));;
    unmask_device j entry hwirq;;
    i ← load_io j;
    if bit_test 17 (rw i entry) then
      upd_io j (upd_rw entry (bit_clear 17));;
      debugger_enter;;
      ioapic_raise_irq j hwirq true
    else mret tt
  else mret tt.

Definition first_dest (mask : Z) : Z := if bool_decide (mask ≠ 0) then lsb mask else CONFIG_NR_VCPUS.

(** [i82093_t::enable_redir_entry_hwirq] *)
Definition enable_redir_entry_hwirq (j entry : Z) : MA unit :=
  i ← load_io j;
  let hwirq := u32 (entry + io_irq_base i) in
  new_mask ← get_redir_entry_dest_mask j entry false;
  let new_dest := first_dest new_mask in
  latched ← hw_test_and_set_latch hwirq;
  (if (latched : bool) then
     old_mask ← get_redir_entry_dest_mask j entry true;
     let old_dest := first_dest old_mask in
     if bool_decide (old_dest ≠ new_dest) then
       (if bool_decide (old_dest ≠ CONFIG_NR_VCPUS) then ap_emit (ADisable hwirq old_dest) else mret tt);;
       (if bool_decide (new_dest ≠ CONFIG_NR_VCPUS) then ap_emit (AEnable hwirq new_dest) else mret tt)
     else mret tt
   else if bool_decide (new_dest ≠ CONFIG_NR_VCPUS) then ap_emit (AEnable hwirq new_dest) else mret tt);;
  upd_io j (upd_rw entry (λ w, bf_set 18 1 (r_dstm w) w));;
  i ← load_io j;
  if bool_decide (r_dstm (rw i entry) = 0) then upd_io j (upd_rw_hi entry (λ w, bf_set 16 4 (r_pdst w) w))
  else upd_io j (upd_rw_hi entry (λ w, bf_set 16 8 (r_ldst w) w)).

(** The lower and the upper half of a redirection entry are written. *)
Definition ioapic_write_low (j entry value : Z) : MA unit :=
  i ← load_io j;
  let hwirq := u32 (entry + io_irq_base i) in
  let save_msk := r_msk (rw i entry) in
  upd_io j (upd_rw entry (λ w,
    bf_set 0 8 (bf 0 8 value) (bf_set 8 3 (bf 8 3 value) (bf_set 11 1 (bf 11 1 value) (bf_set 13 1 (bf 13 1 value)
      (bf_set 15 1 (bf 15 1 value) (bf_set 16 1 (bf 16 1 value) (bf_set 11 1 (bf 11 1 value) w))))))));;
  if bool_decide (r_msk value = 0) && bool_decide (save_msk = 1) then
    enable_redir_entry_hwirq j entry;;
    i ← load_io j;
    if bit_test 17 (rw i entry) then
      upd_io j (upd_rw entry (bit_clear 17));;
      debugger_enter;;
      ioapic_raise_irq j hwirq true
    else mret tt
  else mret tt.
Definition ioapic_write_high (j entry value : Z) : MA unit :=
  i ← load_io j;
  (if bool_decide (r_dstm (rw i entry) = 0) then upd_io j (upd_rw_hi entry (bf_set 24 4 (r_pdst value)))
   else upd_io j (upd_rw_hi entry (bf_set 24 8 (r_ldst value))));;
  i ← load_io j;
  if bool_decide (r_msk (rw i entry) = 0) then enable_redir_entry_hwirq j entry else mret tt.
(** The case of the redirection registers, with the entry in the array. *)
Definition ioapic_write_redir (j regsel value : Z) : MA unit :=
  let entry := Z.shiftr (u32 (regsel - 0x10)) 1 in
  if bool_decide (entry < IOAPIC_MAX_REDIR_ENTRIES) then
    if bool_decide (Z.land regsel 1 = 0) then ioapic_write_low j entry value else ioapic_write_high j entry value
  else mfault OutOfBounds.

(** [i82093_t::write]. The case of the version and arbitration registers has no
    [break]. *)
Definition ioapic_write (j value reg : Z) : MA unit :=
  if bool_decide (reg = 0x0) then
    upd_io j (io_set_regsel value);;
    if bool_decide (value < 16 + 2 * IOAPIC_MAX_REDIR_ENTRIES) then upd_io j (λ i, io_set_regwin (wd (io_raw i) value) i)
    else mret tt
  else if bool_decide (reg = 0x10) then
    i ← load_io j;
    let regsel := io_regsel i in
    if bool_decide (regsel = 0) then upd_io j (io_set_id (bf 24 4 value)) else
    if bool_decide (regsel = 1) || bool_decide (regsel = 2) then debugger_enter;; ioapic_write_redir j regsel value else
    if bool_decide (0x10 ≤ regsel ≤ 0x3f) then ioapic_write_redir j regsel value else debugger_enter
  else debugger_enter.
(** [ioapic_read_patch]: a read of the select or of the window register. *)
Definition ioapic_read (j : Z) (window : bool) : MA Z := i ← load_io j; mret (if window then io_regwin i else io_regsel i).

(** ** [local_apic_t::write] *)

Definition LAPIC_SH_NO : Z := 0.
Definition LAPIC_SH_SELF : Z := 1.
Definition LAPIC_SH_ALL : Z := 2.

(** The end of interrupt. *)
Definition lapic_write_eoi : MA unit :=
  raw ← cur_lapic;
  let vector := msb_rr lapic_rr_isr raw in
  if bool_decide (vector > 15) && bit_test_rr vector lapic_rr_isr raw then
    upd_cur_lapic (bit_clear_rr vector lapic_rr_isr);;
    raw ← cur_lapic;
    (if bool_decide (msb_rr_cluster lapic_rr_isr vector raw = 0) then cpu_clear_irq_vector (vector + 16) else mret tt);;
    massert (bool_decide (vector < 256));;
    let irq := get_pin vector raw in
    upd_cur_lapic (bit_clear_rr vector lapic_rr_tmr);;
    match bit_test_rr vector lapic_rr_tmr raw, get_ioapic vector raw with
    | true, Some j =>
        i ← load_io j;
        massert (is_valid_ioapic i);;
        massert (bool_decide (irq < 256));;
        ioapic_eoi j irq
    | _, _ => mret tt
    end
  else mret tt.

(** The destinations of an interrupt between processors. *)
Definition icr_dest_mask (raw : list Z) : MA Z :=
  s ← mget;
  let n := nr_vcpus s in
  let all := shl1 n - 1 in
  let sh := get_f W_ICRLO 18 2 raw in
  if bool_decide (sh = LAPIC_SH_NO) then
    if bool_decide (get_f W_ICRLO 11 1 raw = 0) then mret (shl1 (get_f W_ICRHI 24 8 raw))
    else logical_mask (length (ap_lapics s)) (get_f W_ICRHI 24 8 raw)
  else if bool_decide (sh = LAPIC_SH_SELF) then mret (shl1 (lapic_get_id raw))
  else if bool_decide (sh = LAPIC_SH_ALL) then mret all
  else mret (Z.land all (Z.lnot (shl1 (lapic_get_id raw)))).

(** One destination of a startup interrupt. *)
Definition lapic_startup (d : Z) : MA unit :=
  s ← mget;
  me ← mof_option OutOfBounds (zlookup (ap_status s) (ap_cur s));
  if bool_decide (me = 1) then mret tt else
  st ← mof_option OutOfBounds (zlookup (ap_status s) d);
  if bool_decide (st ≠ 0) then mret tt else ap_emit (AStartup d).

Definition lapic_write_icrlo (value : Z) : MA unit :=
  upd_cur_lapic (λ raw,
    set_f W_ICRLO 18 2 (bf 18 2 value) (set_f W_ICRLO 15 1 (bf 15 1 value) (set_f W_ICRLO 14 1 (bf 14 1 value)
      (set_f W_ICRLO 11 1 (bf 11 1 value) (set_f W_ICRLO 8 3 (bf 8 3 value) (set_f W_ICRLO 0 8 (bf 0 8 value) raw))))));;
  s ← mget;
  massert (bool_decide (nr_vcpus s < 32));;
  raw ← cur_lapic;
  mask ← icr_dest_mask raw;
  if bool_decide (shl1 (nr_vcpus s) ≤ mask) then debugger_enter else
  let mode := get_f W_ICRLO 8 3 raw in
  if bool_decide (mode = LAPIC_DM_FIXED) then
    each_dest 32 mask (λ d, s ← mget;
      if bool_decide (d < nr_vcpus s) then lapic_raise_vector d (get_f W_ICRLO 0 8 raw) 256 false false None else mret tt)
  else if bool_decide (mode = LAPIC_DM_INIT) then mret tt
  else if bool_decide (mode = LAPIC_DM_STARTUP) then each_dest 32 mask lapic_startup
  else debugger_enter.

Definition lapic_write_lvt (w value : Z) : MA unit :=
  upd_cur_lapic (λ raw, set_f w 0 8 (bf 0 8 value) (set_f w 8 3 (bf 8 3 value) (set_f w 13 1 (bf 13 1 value)
    (set_f w 15 1 (bf 15 1 value) (set_f w 16 1 (bf 16 1 value) raw))))).

Definition lapic_write (value reg : Z) : MA unit :=
  raw ← cur_lapic; cur ← mgets ap_cur;
  massert (bool_decide (cur = lapic_get_id raw));;
  if bool_decide (reg = 0x030) then mret tt else
  if bool_decide (reg = 0x0d0) then upd_cur_lapic (set_f W_LDR 24 8 (bf 24 8 value)) else
  if bool_decide (reg = 0x0e0) then
    upd_cur_lapic (set_f W_DFR 28 4 (bf 28 4 value));;
    if bool_decide (bf 28 4 value = LAPIC_DF_FLAT) then mret tt else debugger_enter
  else
  if bool_decide (reg = 0x080) then
    if bool_decide (bf 4 4 value = 0) && bool_decide (bf 0 4 value = 0) then mret tt else debugger_enter
  else
  if bool_decide (reg = 0x0b0) then lapic_write_eoi else
  if bool_decide (reg = 0x0f0) then
    upd_cur_lapic (λ raw, set_f W_SVR 8 1 (bf 8 1 value) (set_f W_SVR 9 1 (bf 9 1 value) (set_f W_SVR 0 8 (bf 0 8 value) raw)));;
    if bool_decide (bf 8 1 value ≠ 0) then upd_cur_lapic (set_w W_ENABLED 1) else debugger_enter
  else
  if bool_decide (reg = 0x320) then
    upd_cur_lapic (λ raw, set_f W_TIMER 17 1 (bf 17 1 value) (set_f W_TIMER 16 1 (bf 16 1 value) (set_f W_TIMER 0 8 (bf 0 8 value) raw)));;
    if bool_decide (bf 17 1 value = 0) && bool_decide (bf 16 1 value = 0) then debugger_enter else mret tt
  else
  if bool_decide (reg = 0x350) then lapic_write_lvt W_LINT0 value else
  if bool_decide (reg = 0x340) then lapic_write_lvt W_PMC value else
  if bool_decide (reg = 0x360) then lapic_write_lvt W_LINT1 value else
  if bool_decide (reg = 0x370) then lapic_write_lvt W_ERROR value else
  if bool_decide (reg = 0x280) then mret tt else
  if bool_decide (reg = 0x300) then lapic_write_icrlo value else
  if bool_decide (reg = 0x310) then upd_cur_lapic (set_f W_ICRHI 24 8 (bf 24 8 value)) else
  if bool_decide (reg = 0x3e0) then
    upd_cur_lapic (λ raw, set_f W_DIV_CONF 3 1 (bf 3 1 value) (set_f W_DIV_CONF 1 1 (bf 1 1 value) (set_f W_DIV_CONF 0 1 (bf 0 1 value) raw)))
  else
  if bool_decide (reg = 0x380) then upd_cur_lapic (set_w W_INIT_COUNT value) else
  debugger_enter.

(** The entry points of the guest. *)
Definition check_id : MA unit := raw ← cur_lapic; cur ← mgets ap_cur; massert (bool_decide (lapic_get_id raw = cur)).
Definition lapic_write_patch (value addr : Z) : MA unit := check_id;; lapic_write value (addr_to_reg addr).
Definition lapic_read_patch (addr : Z) : MA Z := check_id;; raw ← cur_lapic; mret (lapic_get_reg (addr_to_reg addr) raw).
Definition lapic_xchg_patch (value addr : Z) : MA Z :=
  check_id;; raw ← cur_lapic; lapic_write value (addr_to_reg addr);; debugger_enter;;
  mret (lapic_get_reg (addr_to_reg addr) raw).

(** ** The interrupt logic with APICs (intlogic.h) *)

(** The 8259A pair works on the summary word of the current CPU. *)
Definition il_set_vectors (w : Z) (l : intlogic_t) : intlogic_t :=
  mk_il (master l) (slave l) (hwirq_latch l) (hwirq_mask l) (hwirq_squash l) w (il_events l).
Definition on_pic {A} (f : M intlogic_t A) : MA A := λ s,
  match zlookup (ap_vectors s) (ap_cur s) with
  | None => Err OutOfBounds
  | Some w =>
      match f (il_set_vectors w (ap_pic s)) with
      | Err e => Err e
      | Ok a l => Ok a (ap_set_vectors (zinsert (ap_cur s) (irq_vectors l) (ap_vectors s)) (ap_set_pic l s))
      end
  end.
Definition lift_il {A} (f : intlogic_t → A * intlogic_t) : M intlogic_t A := λ l, let '(a, l) := f l in Ok a l.

Definition hwirq_get_ioapic (hwirq : Z) : MA (option Z) :=
  s ← mget;
  o ← mof_option AssertFail (zlookup (ap_hwirq_to_ioapic s) hwirq);
  match o with
  | None => mret None
  | Some j => i ← load_io j; massert (is_valid_ioapic i);; mret (Some j)
  end.
Definition hwirq_register_ioapic (hwirq j : Z) : MA unit :=
  massert (bool_decide (hwirq < 256));;
  i ← load_io j;
  massert (is_valid_ioapic i);;
  mmodify (λ s, ap_set_hwirq_to_ioapic (zinsert hwirq (Some j) (ap_hwirq_to_ioapic s)) s).

Definition apic_raise_irq (irq : Z) : MA unit :=
  hw_set_mask irq;;
  raw ← cur_lapic;
  (if bool_decide (irq = 0) then if lapic_is_enabled raw then lapic_raise_timer_irq else mret tt
   else
     o ← hwirq_get_ioapic irq;
     match o with Some j => ioapic_raise_irq j irq false | None => debugger_enter end);;
  raw ← cur_lapic;
  if negb (is_virtual_wire raw) || bool_decide (irq > 16) then mret tt else
  massert (bool_decide (lapic_get_id raw = 0));;
  if bool_decide (irq < 8) then on_pic (pic_raise_irq Master irq)
  else if bool_decide (irq < 16) then on_pic (pic_raise_irq Slave irq) else mret tt.

Definition apic_pending_vector : MA (option (Z * Z)) :=
  w ← get_irq_vectors;
  if bool_decide (w = 0) then mret None else
  raw ← cur_lapic; cur ← mgets ap_cur;
  massert (bool_decide (lapic_get_id raw = cur));;
  massert (is_valid_lapic raw);;
  o ← (if lapic_is_enabled raw then lapic_pending_vector else mret None);
  match o with
  | Some r => mret (Some r)
  | None =>
      raw ← cur_lapic;
      if negb (is_virtual_wire raw) then mret None else
      massert (bool_decide (lapic_get_id raw = 0));;
      on_pic (lift_il pending_vector)
  end.

Definition apic_reraise_vector (vector : Z) : MA unit :=
  d ← mgets ap_cur;
  lapic_raise_vector d vector 0 true false None;;
  raw ← cur_lapic;
  if negb (is_virtual_wire raw) then mret tt else
  massert (bool_decide (lapic_get_id raw = 0));;
  on_pic (lift_il (λ l, (tt, reraise_vector vector l))).

(** [init_virtual_apics] (intlogic.cc), without the tables for ACPI. *)
Definition virtual_irq_sources : Z := 10.
Definition gsi_per_ioapic : Z := 24.
Fixpoint register_gsis (n : nat) (gsi j : Z) : MA unit :=
  match n with O => mret tt | S n => hwirq_register_ioapic gsi j;; register_gsis n (gsi + 1) j end.
Definition init_ioapic (irq_sources start_id j : Z) : MA unit :=
  let gsi_min := gsi_per_ioapic * j in
  let gsi_max := Z.min (gsi_min + gsi_per_ioapic) irq_sources - 1 in
  upd_io j (io_set_id (start_id + j));;
  upd_io j (io_set_irq_base (gsi_per_ioapic * j));;
  upd_io j (set_max_redir_entry (gsi_max - gsi_min));;
  register_gsis (Z.to_nat (gsi_max - gsi_min + 1)) gsi_min j.
Fixpoint for_ioapics (n : nat) (j : Z) (body : Z → MA unit) : MA unit :=
  match n with O => mret tt | S n => body j;; for_ioapics n (j + 1) body end.
Definition init_virtual_apics (real_irq_sources num_vcpus : Z) : MA unit :=
  let irq_sources := real_irq_sources + virtual_irq_sources in
  let nr_ioapics := irq_sources / gsi_per_ioapic + (if bool_decide (irq_sources `mod` gsi_per_ioapic ≠ 0) then 1 else 0) in
  let start_id := num_vcpus + 1 in
  if bool_decide (CONFIG_MAX_IOAPICS ≤ nr_ioapics) then mfault KernelPanic else
  for_ioapics (Z.to_nat nr_ioapics) 0 (init_ioapic irq_sources start_id);;
  for_ioapics (Z.to_nat (CONFIG_MAX_IOAPICS - nr_ioapics)) nr_ioapics (λ j, upd_io j (io_set_id 0xf)).

(** The machine before the interrupt logic is set up: [squash] are the real
    interrupts that are not passed on. *)
Definition apic_boot (vcpus : nat) (squash : Z) : apic_t :=
  mk_apic 0 ((λ i : nat, lapic_init i (bool_decide (i = 0%nat))) <$> seq 0 vcpus) (replicate vcpus 0)
    (replicate (Z.to_nat CONFIG_MAX_IOAPICS) i82093_init) (replicate 256 None) (intlogic_init squash)
    ((λ i : nat, if bool_decide (i = 0%nat) then 2 else 0) <$> seq 0 vcpus) [].
End ops.
