(* ===== verification/ApicSpec.v ===== *)
(** * The virtual APICs: what they promise

    The registers of the local APIC page as sets of vectors, the local APIC as a
    controller with priorities in classes of sixteen vectors, well-formedness of all
    registers, the way of an interrupt from a device through an I/O APIC to the end of
    interrupt, and the set-up of the I/O APICs. *)

From Stdlib Require Import ZArith Lia.
From stdpp Require Import base list gmap sets numbers.
From S2P Require Import Prelude Pic PicSpec Apic.

(** ** Words of the page *)

Definition u32_ok (w : Z) : Prop := 0 ≤ w < 2 ^ 32.
Definition page_ok (n : nat) (raw : list Z) : Prop := length raw = n ∧ Forall u32_ok raw.

Lemma wd_ok n raw i : page_ok n raw → u32_ok (wd raw i).
Proof.
  intros [_ Hf]. unfold wd. destruct (zlookup raw i) as [w|] eqn:Hw; [|unfold u32_ok; simpl; lia]. simpl.
  unfold zlookup in Hw. destruct (decide (0 ≤ i)); [|done]. by apply (proj1 (Forall_lookup _ _) Hf _ _ Hw).
Qed.
Lemma zinsert_ok n raw i x : page_ok n raw → u32_ok x → page_ok n (zinsert i x raw).
Proof.
  intros [Hl Hf] Hx. split; [by rewrite length_zinsert|]. unfold zinsert. case_decide; [|done].
  by apply Forall_insert.
Qed.
Lemma upd_wd_ok n raw i f : page_ok n raw → (∀ w, u32_ok w → u32_ok (f w)) → page_ok n (upd_wd i f raw).
Proof. intros Hp Hf. apply zinsert_ok; [done|]. apply Hf. by eapply wd_ok. Qed.

Lemma wd_zinsert n raw i j x : page_ok n raw → 0 ≤ i < n → wd (zinsert i x raw) j = if decide (i = j) then x else wd raw j.
Proof. intros [Hl _] Hi. unfold wd. rewrite zlookup_zinsert by lia. by case_decide. Qed.
Lemma wd_upd n raw i j f : page_ok n raw → 0 ≤ i < n → wd (upd_wd i f raw) j = if decide (i = j) then f (wd raw i) else wd raw j.
Proof. intros. unfold upd_wd. by erewrite wd_zinsert. Qed.

(** Fields. *)
Lemma bf_testbit lo n w k : 0 ≤ lo → 0 ≤ n → 0 ≤ k → Z.testbit (bf lo n w) k = bool_decide (k < n) && Z.testbit w (lo + k).
Proof.
  intros. unfold bf. rewrite Z.land_spec, Z.shiftr_spec, Z.testbit_ones by lia.
  rewrite (Z.add_comm k lo). destruct (Z.testbit w (lo + k)); simpl; [|by rewrite andb_false_r].
  rewrite andb_true_r. destruct (decide (k < n)).
  - rewrite bool_decide_eq_true_2 by lia. apply andb_true_intro; split; [apply Z.leb_le|apply Z.ltb_lt]; lia.
  - rewrite bool_decide_eq_false_2 by lia. apply andb_false_intro2, Z.ltb_ge. lia.
Qed.
Lemma bf_range lo n w : 0 ≤ n → 0 ≤ bf lo n w < 2 ^ n.
Proof. intros. unfold bf. rewrite Z.land_ones by lia. apply Z.mod_pos_bound, Z.pow_pos_nonneg; lia. Qed.
Lemma bf_set_testbit lo n x w k : 0 ≤ lo → 0 ≤ n → 0 ≤ k →
  Z.testbit (bf_set lo n x w) k = if bool_decide (lo ≤ k < lo + n) then Z.testbit x (k - lo) else Z.testbit w k.
Proof.
  intros. unfold bf_set. rewrite Z.lor_spec, Z.ldiff_spec, !Z.shiftl_spec, Z.land_spec by lia.
  destruct (decide (lo ≤ k)).
  - rewrite !Z.testbit_ones by lia. destruct (decide (k < lo + n)).
    + rewrite bool_decide_eq_true_2 by lia.
      assert ((0 <=? k - lo) && (k - lo <? n) = true) as -> by (apply andb_true_intro; split; [apply Z.leb_le|apply Z.ltb_lt]; lia).
      simpl. by rewrite andb_false_r, andb_true_r.
    + rewrite bool_decide_eq_false_2 by lia.
      assert ((0 <=? k - lo) && (k - lo <? n) = false) as -> by (apply andb_false_intro2, Z.ltb_ge; lia).
      simpl. by rewrite andb_false_r, andb_true_r, orb_false_r.
  - rewrite bool_decide_eq_false_2 by lia. rewrite !(Z.testbit_neg_r _ (k - lo)) by lia. simpl. by rewrite andb_true_r, orb_false_r.
Qed.
Lemma u32_bits w : 0 ≤ w → (∀ k, 32 ≤ k → Z.testbit w k = false) → u32_ok w.
Proof. intros. apply bits_bound; auto; lia. Qed.
Lemma u32_high w k : u32_ok w → 32 ≤ k → Z.testbit w k = false.
Proof. intros. apply (word_high w 32); auto; lia. Qed.
Lemma bf_set_ok lo n x w : 0 ≤ lo → 0 ≤ n → lo + n ≤ 32 → u32_ok w → u32_ok (bf_set lo n x w).
Proof.
  intros ? ? ? Hw. apply u32_bits.
  - unfold bf_set. apply Z.lor_nonneg. split; [apply Z.ldiff_nonneg; left; apply Hw|].
    apply Z.shiftl_nonneg, Z.land_nonneg. right. rewrite Z.ones_equiv. pose proof (Z.pow_pos_nonneg 2 n). lia.
  - intros k Hk. rewrite bf_set_testbit by lia. rewrite bool_decide_eq_false_2 by lia. by apply u32_high.
Qed.
Lemma bit_set_ok b w : 0 ≤ b < 32 → u32_ok w → u32_ok (bit_set b w).
Proof. intros. by apply bit_set_range. Qed.
Lemma bit_clear_ok b w : u32_ok w → u32_ok (bit_clear b w).
Proof. intros. by apply (bit_clear_range b w 32). Qed.

(** ** The request registers as sets *)

Lemma land31 v : Z.land v 31 = v `mod` 32.
Proof. change 31 with (Z.ones 5). by rewrite Z.land_ones by lia. Qed.
Definition rr_word (s : rr_sel_t) : Z := match s with lapic_rr_isr => 64 | lapic_rr_tmr => 96 | lapic_rr_irr => 128 end.
Lemma rr_word_eq s : rr_base s / 4 = rr_word s.
Proof. by destruct s. Qed.
Lemma sb_index s v : sb_to_raw s v = rr_word s + 4 * (v / 32).
Proof.
  unfold sb_to_raw. change (Z.lnot 15) with (Z.lnot (Z.ones 4)).
  rewrite <- Z.ldiff_land, Z.ldiff_ones_r, Z.shiftr_shiftr, Z.shiftl_mul_pow2 by lia. change (1 + 4) with 5.
  rewrite !Z.shiftr_div_pow2 by lia. change (2 ^ 5) with 32. change (2 ^ 4) with 16. change (2 ^ 2) with 4.
  replace (rr_base s + v / 32 * 16) with (rr_base s + 4 * (v / 32) * 4) by lia. rewrite Z.div_add, rr_word_eq by lia. done.
Qed.
Lemma so_index s k : so_to_raw s (16 * k) = rr_word s + 4 * k.
Proof.
  unfold so_to_raw. rewrite Z.shiftr_div_pow2 by lia. change (2 ^ 2) with 4.
  replace (rr_base s + 16 * k) with (rr_base s + 4 * k * 4) by lia. rewrite Z.div_add, rr_word_eq by lia. done.
Qed.
Lemma sb_range s v : 0 ≤ v < 256 → 64 ≤ sb_to_raw s v < 160.
Proof. intros. rewrite sb_index. pose proof (Z.div_pos v 32). assert (v / 32 < 8) by (apply Z.div_lt_upper_bound; lia). destruct s; unfold rr_word; lia. Qed.
Lemma sb_inj s s' v v' : 0 ≤ v < 256 → 0 ≤ v' < 256 → sb_to_raw s v = sb_to_raw s' v' → s = s' ∧ v / 32 = v' / 32.
Proof.
  intros ? ?. rewrite !sb_index. pose proof (Z.div_pos v 32). pose proof (Z.div_pos v' 32).
  assert (v / 32 < 8) by (apply Z.div_lt_upper_bound; lia). assert (v' / 32 < 8) by (apply Z.div_lt_upper_bound; lia).
  destruct s, s'; unfold rr_word; intros; split; (done || lia).
Qed.
Lemma vec_eq v v' : v / 32 = v' / 32 → v `mod` 32 = v' `mod` 32 → v = v'.
Proof. intros. rewrite (Z.div_mod v 32), (Z.div_mod v' 32) by lia. lia. Qed.

Lemma bit_test_upd s s' v v' f raw :
  page_ok 1024 raw → 0 ≤ v < 256 → 0 ≤ v' < 256 →
  bit_test_rr v s (upd_wd (sb_to_raw s' v') f raw) =
    if decide (s = s' ∧ v / 32 = v' / 32) then bit_test (v `mod` 32) (f (wd raw (sb_to_raw s' v'))) else bit_test_rr v s raw.
Proof.
  intros Hp Hv Hv'. pose proof (sb_range s' v' Hv'). unfold bit_test_rr. rewrite land31. erewrite wd_upd by (done || lia).
  destruct (decide (s = s' ∧ v / 32 = v' / 32)) as [[-> Hd]|Hn].
  - rewrite decide_True; [done|]. by rewrite !sb_index, Hd.
  - rewrite decide_False; [done|]. intros Heq. symmetry in Heq. by apply sb_inj in Heq.
Qed.
Lemma bit_test_set s s' v v' raw : page_ok 1024 raw → 0 ≤ v < 256 → 0 ≤ v' < 256 →
  bit_test_rr v s (bit_set_rr v' s' raw) = bit_test_rr v s raw || bool_decide (s = s' ∧ v = v').
Proof.
  intros Hp Hv Hv'. unfold bit_set_rr. rewrite bit_test_upd by done. rewrite land31.
  pose proof (Z.mod_pos_bound v 32). pose proof (Z.mod_pos_bound v' 32).
  destruct (decide (s = s' ∧ v / 32 = v' / 32)) as [[-> Hd]|Hn].
  - unfold bit_test, bit_test_rr. rewrite bit_set_spec by lia. f_equal.
    + unfold bit_test. by rewrite land31, !sb_index, Hd.
    + apply bool_decide_ext. split; [intros; split; [done|by apply vec_eq]|]. by intros [_ ->].
  - rewrite bool_decide_eq_false_2; [by rewrite orb_false_r|]. intros [-> ->]. by apply Hn.
Qed.
Lemma bit_test_clear s s' v v' raw : page_ok 1024 raw → 0 ≤ v < 256 → 0 ≤ v' < 256 →
  bit_test_rr v s (bit_clear_rr v' s' raw) = bit_test_rr v s raw && negb (bool_decide (s = s' ∧ v = v')).
Proof.
  intros Hp Hv Hv'. unfold bit_clear_rr. rewrite bit_test_upd by done. rewrite land31.
  pose proof (Z.mod_pos_bound v 32). pose proof (Z.mod_pos_bound v' 32).
  destruct (decide (s = s' ∧ v / 32 = v' / 32)) as [[-> Hd]|Hn].
  - unfold bit_test, bit_test_rr. rewrite bit_clear_spec by lia. f_equal; [|f_equal].
    + unfold bit_test. by rewrite land31, !sb_index, Hd.
    + apply bool_decide_ext. split; [intros; split; [done|by apply vec_eq]|]. by intros [_ ->].
  - rewrite bool_decide_eq_false_2; [by rewrite andb_true_r|]. intros [-> ->]. by apply Hn.
Qed.

(** The word of vectors [32 k] to [32 k + 31]. *)
Definition rr_wd (s : rr_sel_t) (k : Z) (raw : list Z) : Z := wd raw (rr_word s + 4 * k).
Lemma bit_test_word s v raw : bit_test_rr v s raw = Z.testbit (rr_wd s (v / 32) raw) (v `mod` 32).
Proof. unfold bit_test_rr, bit_test, rr_wd. by rewrite land31, sb_index. Qed.

(** [v] is the highest vector with its bit set, or 0 when there is none. *)
Definition is_top (P : Z → bool) (v : Z) : Prop :=
  (v = 0 ∧ ∀ u, 0 ≤ u < 256 → P u = false) ∨ (0 < v < 256 ∧ P v = true ∧ ∀ u, v < u < 256 → P u = false).
Lemma is_top_eq P v v' : is_top P v → is_top P v' → v = v'.
Proof.
  intros [[-> H]|(Hv & Ht & H)] [[-> H']|(Hv' & Ht' & H')]; [done|rewrite H in Ht' by lia; done|rewrite H' in Ht by lia; done|].
  destruct (Z.lt_trichotomy v v') as [Hlt|[?|Hlt]]; [rewrite H in Ht' by lia; done|done|rewrite H' in Ht by lia; done].
Qed.

(** One step of the search: word [k] is not empty and those above are. *)
Lemma msb_word s k raw : page_ok 1024 raw → 1 ≤ k < 8 → rr_wd s k raw ≠ 0 → (∀ k', k < k' < 8 → rr_wd s k' raw = 0) →
  is_top (λ u, bit_test_rr u s raw) (msb (rr_wd s k raw) + 32 * k).
Proof.
  intros Hp Hk Hw Hab. set (w := rr_wd s k raw) in *. assert (u32_ok w) as Hok by (unfold w, rr_wd; by eapply wd_ok).
  unfold u32_ok in Hok. assert (0 ≤ msb w < 32) as Hm.
  { unfold msb. split; [apply Z.log2_nonneg|]. apply Z.log2_lt_pow2; lia. }
  assert ((msb w + 32 * k) / 32 = k) as Hd by (rewrite Z.mul_comm, Z.div_add, Z.div_small by lia; lia).
  assert ((msb w + 32 * k) `mod` 32 = msb w) as Hmod by (rewrite Z.mul_comm, Z.mod_add, Z.mod_small by lia; lia).
  right. split_and!; [lia|lia| |].
  - rewrite bit_test_word, Hd, Hmod. apply Z.bit_log2. lia.
  - intros u Hu. rewrite bit_test_word. assert (k ≤ u / 32) by (apply Z.div_le_lower_bound; lia).
    assert (u / 32 < 8) by (apply Z.div_lt_upper_bound; lia). destruct (decide (u / 32 = k)) as [He|].
    + rewrite He. fold w. apply Z.bits_above_log2; [lia|]. pose proof (Z.div_mod u 32). unfold msb in *. lia.
    + rewrite Hab by lia. apply Z.bits_0.
Qed.

Lemma msb_rr_top s raw : page_ok 1024 raw → rr_wd s 0 raw = 0 → is_top (λ u, bit_test_rr u s raw) (msb_rr s raw).
Proof.
  intros Hp H0. unfold msb_rr.
  change 0x70 with (16 * 7). change 0x60 with (16 * 6). change 0x50 with (16 * 5). change 0x40 with (16 * 4).
  change 0x30 with (16 * 3). change 0x20 with (16 * 2). change 0x10 with (16 * 1). rewrite !so_index.
  change 0xe0 with (32 * 7). change 0xc0 with (32 * 6). change 0xa0 with (32 * 5). change 0x80 with (32 * 4).
  repeat match goal with |- context [wd raw (rr_word s + 4 * ?k)] => change (wd raw (rr_word s + 4 * k)) with (rr_wd s k raw) end.
  repeat match goal with |- is_top _ (if bool_decide (?w ≠ 0) then _ else _) =>
    destruct (decide (w = 0)); [rewrite (bool_decide_eq_false_2 (w ≠ 0)) by lia|rewrite (bool_decide_eq_true_2 (w ≠ 0)) by done] end.
  all: try (apply msb_word; [done|lia|done|]; intros k' Hk'; assert (k' = 1 ∨ k' = 2 ∨ k' = 3 ∨ k' = 4 ∨ k' = 5 ∨ k' = 6 ∨ k' = 7) as Hc by lia;
    destruct Hc as [->|[->|[->|[->|[->|[->| ->]]]]]]; (done || lia)).
  - left. split; [done|]. intros u Hu. rewrite bit_test_word. pose proof (Z.div_pos u 32).
    assert (u / 32 < 8) by (apply Z.div_lt_upper_bound; lia).
    assert (rr_wd s (u / 32) raw = 0) as ->; [|apply Z.bits_0].
    assert (u / 32 = 0 ∨ u / 32 = 1 ∨ u / 32 = 2 ∨ u / 32 = 3 ∨ u / 32 = 4 ∨ u / 32 = 5 ∨ u / 32 = 6 ∨ u / 32 = 7) as Hc by lia.
    destruct Hc as [->|[->|[->|[->|[->|[->|[->| ->]]]]]]]; done.
  - exfalso. match goal with H : wd raw (so_to_raw s 0) ≠ 0 |- _ => apply H end. change 0 with (16 * 0) at 1. by rewrite so_index.
Qed.

(** ** The specification of a local APIC *)

(** Vectors requested and in service, and the interrupt each vector stands for. *)
Record lapic_spec : Type := mk_ls { ls_irr : gset Z; ls_isr : gset Z; ls_pin : gmap Z Z }.

Definition highest (X : gset Z) : Z := foldr Z.max 0 (elements X).
Inductive lapic_op : Type := LRaise (vector irq : Z) | LPending | LEoi | LReraise (vector : Z).

(** The highest request is served when its class of sixteen vectors is above that of
    everything in service. *)
Definition ls_step (o : lapic_op) (s : lapic_spec) : option (Z * Z) * lapic_spec :=
  match o with
  | LRaise v irq => (None, mk_ls ({[v]} ∪ ls_irr s) (ls_isr s) (<[v := irq]> (ls_pin s)))
  | LPending =>
      let v := highest (ls_irr s) in
      if bool_decide (highest (ls_isr s) / 16 < v / 16) then
        (Some (v, default 256 (ls_pin s !! v)), mk_ls (ls_irr s ∖ {[v]}) ({[v]} ∪ ls_isr s) (ls_pin s))
      else (None, s)
  | LEoi => (None, mk_ls (ls_irr s) (ls_isr s ∖ {[highest (ls_isr s)]}) (ls_pin s))
  | LReraise v => (None, mk_ls ({[v]} ∪ ls_irr s) (ls_isr s ∖ {[v]}) (ls_pin s))
  end.
Fixpoint ls_run (ops : list lapic_op) (s : lapic_spec) : list (option (Z * Z)) * lapic_spec :=
  match ops with
  | [] => ([], s)
  | o :: ops => let '(r, s) := ls_step o s in let '(rs, s) := ls_run ops s in (r :: rs, s)
  end.

Lemma highest_top (X : gset Z) : (∀ v, v ∈ X → 0 < v < 256) → is_top (λ u, bool_decide (u ∈ X)) (highest X).
Proof.
  intros HX. unfold highest.
  assert (∀ l : list Z, (∀ v, v ∈ l → 0 < v < 256) →
    (foldr Z.max 0 l = 0 ∧ l = [] ∨ foldr Z.max 0 l ∈ l) ∧ ∀ u, u ∈ l → u ≤ foldr Z.max 0 l) as Hl.
  { induction l as [|x l IH]; intros Hb; [split; [by left|by intros u Hu%elem_of_nil]|].
    destruct IH as [Hin Hle]; [intros; apply Hb; by right|]. cbn [foldr]. split.
    - right. pose proof (Hb x ltac:(by left)). destruct (Z.max_spec x (foldr Z.max 0 l)) as [[Hlt ->]|[Hlt ->]]; [|by left].
      destruct Hin as [[Hz _]|Hin]; [lia|by right].
    - intros u [->|Hu]%elem_of_cons; [lia|]. specialize (Hle u Hu). lia. }
  destruct (Hl (elements X)) as [[[Hz Hn]|Hin] Hle]; [intros v; rewrite elem_of_elements; apply HX| |].
  - left. split; [done|]. intros u Hu. apply bool_decide_eq_false_2. rewrite <- elem_of_elements, Hn. apply not_elem_of_nil.
  - apply elem_of_elements in Hin. right. split_and!; [by apply HX..|by apply bool_decide_eq_true_2|].
    intros u Hu. apply bool_decide_eq_false_2. intros Hx%elem_of_elements. specialize (Hle u Hx). lia.
Qed.

(** ** The simulation *)

(** The page [raw] is in the state [s]; the vectors [T] are level-triggered and wait
    for the end of interrupt. *)
Record lrel (T : gset Z) (raw : list Z) (s : lapic_spec) : Prop := {
  lr_page : page_ok 1024 raw;
  lr_irr : ∀ v, 0 ≤ v < 256 → bit_test_rr v lapic_rr_irr raw = bool_decide (v ∈ ls_irr s);
  lr_isr : ∀ v, 0 ≤ v < 256 → bit_test_rr v lapic_rr_isr raw = bool_decide (v ∈ ls_isr s);
  lr_tmr : ∀ v, 0 ≤ v < 256 → bit_test_rr v lapic_rr_tmr raw = bool_decide (v ∈ T);
  lr_pin : ∀ v, 0 ≤ v < 256 → wd raw (w_pin v) = default 256 (ls_pin s !! v);
  lr_irr_range : ∀ v, v ∈ ls_irr s → 32 ≤ v < 240;
  lr_isr_range : ∀ v, v ∈ ls_isr s → 32 ≤ v < 240
}.

Lemma word0_zero s raw : page_ok 1024 raw → (∀ v, 0 ≤ v < 32 → bit_test_rr v s raw = false) → rr_wd s 0 raw = 0.
Proof.
  intros Hp Hb. apply (zero_bits _ 32).
  - unfold rr_wd. by apply (wd_ok 1024).
  - intros k Hk. specialize (Hb k Hk). by rewrite bit_test_word, Z.div_small, Z.mod_small in Hb by lia.
Qed.
Lemma is_top_ext P P' v : (∀ u, 0 ≤ u < 256 → P u = P' u) → is_top P v → is_top P' v.
Proof.
  intros He [[-> H]|(Hv & Ht & H)]; [left|right].
  - split; [done|]. intros u Hu. rewrite <- He by done. by apply H.
  - split_and!; [lia|lia|by rewrite <- He by lia|]. intros u Hu. rewrite <- He by lia. by apply H.
Qed.
Lemma msb_rr_highest s raw (X : gset Z) :
  page_ok 1024 raw → (∀ v, 0 ≤ v < 256 → bit_test_rr v s raw = bool_decide (v ∈ X)) → (∀ v, v ∈ X → 32 ≤ v < 256) →
  msb_rr s raw = highest X.
Proof.
  intros Hp Hb HX. eapply is_top_eq; [|apply highest_top].
  - eapply is_top_ext; [|apply msb_rr_top; [done|]]; [by intros u Hu; rewrite <- Hb|].
    apply word0_zero; [done|]. intros v Hv. rewrite Hb by lia. apply bool_decide_eq_false_2. intros H%HX. lia.
  - intros v Hv%HX. lia.
Qed.
Lemma highest_in (X : gset Z) : (∀ v, v ∈ X → 32 ≤ v < 240) → highest X = 0 ∧ X = ∅ ∨ highest X ∈ X.
Proof.
  intros HX. destruct (highest_top X) as [[-> H]|(Hv & Ht & _)]; [intros v Hv%HX; lia| |].
  - left. split; [done|]. apply set_eq. intros u. split; [|set_solver]. intros Hu. specialize (HX u Hu).
    specialize (H u ltac:(lia)). apply bool_decide_eq_false_1 in H. done.
  - right. by apply bool_decide_eq_true_1 in Ht.
Qed.

(** The pins do not overlap the request registers, nor one another. *)
Lemma bit_test_set_w v s i x raw : page_ok 1024 raw → 0 ≤ v < 256 → 256 ≤ i < 1024 → bit_test_rr v s (set_w i x raw) = bit_test_rr v s raw.
Proof.
  intros Hp Hv Hi. pose proof (sb_range s v Hv). unfold bit_test_rr, set_w. erewrite wd_zinsert by (done || lia).
  by rewrite decide_False by lia.
Qed.
Lemma wd_upd_rr v s f i raw : page_ok 1024 raw → 0 ≤ v < 256 → (i < 64 ∨ 160 ≤ i) → wd (upd_wd (sb_to_raw s v) f raw) i = wd raw i.
Proof. intros Hp Hv Hi. pose proof (sb_range s v Hv). erewrite wd_upd by (done || lia). by rewrite decide_False by lia. Qed.
Lemma rr_set_ok v s raw : 0 ≤ v < 256 → page_ok 1024 raw → page_ok 1024 (bit_set_rr v s raw).
Proof. intros Hv Hp. apply upd_wd_ok; [done|]. intros. apply bit_set_ok; [|done]. rewrite land31. apply Z.mod_pos_bound. lia. Qed.
Lemma rr_clear_ok v s raw : page_ok 1024 raw → page_ok 1024 (bit_clear_rr v s raw).
Proof. intros Hp. apply upd_wd_ok; [done|]. intros. by apply bit_clear_ok. Qed.
Lemma wd_set_rr v s i raw : page_ok 1024 raw → 0 ≤ v < 256 → (i < 64 ∨ 160 ≤ i) → wd (bit_set_rr v s raw) i = wd raw i.
Proof. intros. by apply wd_upd_rr. Qed.
Lemma wd_clear_rr v s i raw : page_ok 1024 raw → 0 ≤ v < 256 → (i < 64 ∨ 160 ≤ i) → wd (bit_clear_rr v s raw) i = wd raw i.
Proof. intros. by apply wd_upd_rr. Qed.

Lemma w_pin_eq v : w_pin v = 257 + 2 * v.
Proof. unfold w_pin, W_V_TO_PIN. change (0x400 / 4) with 256. lia. Qed.
Lemma w_ioapic_eq v : w_ioapic v = 256 + 2 * v.
Proof. done. Qed.

Lemma lrel_raise T raw s v irq :
  lrel T raw s → 32 ≤ v < 240 → u32_ok irq →
  lrel T (bit_set_rr v lapic_rr_irr (set_w (w_pin v) irq raw)) (ls_step (LRaise v irq) s).2.
Proof.
  intros [Hp Hirr Hisr Htmr Hpin Hr1 Hr2] Hv Hirq. set (r1 := set_w (w_pin v) irq raw).
  pose proof (w_pin_eq v).
  assert (page_ok 1024 r1) as Hp1 by (by apply zinsert_ok).
  split; cbn [ls_step snd ls_irr ls_isr ls_pin].
  - by apply rr_set_ok; [lia|].
  - intros u Hu. rewrite bit_test_set by (done || lia). unfold r1. rewrite bit_test_set_w, Hirr by (done || lia).
    rewrite <- bool_decide_or. apply bool_decide_ext. clear. set_solver.
  - intros u Hu. rewrite bit_test_set by (done || lia). unfold r1. rewrite bit_test_set_w, Hisr by (done || lia).
    rewrite (bool_decide_eq_false_2 (lapic_rr_isr = lapic_rr_irr ∧ _)) by naive_solver. by rewrite orb_false_r.
  - intros u Hu. rewrite bit_test_set by (done || lia). unfold r1. rewrite bit_test_set_w, Htmr by (done || lia).
    rewrite (bool_decide_eq_false_2 (lapic_rr_tmr = lapic_rr_irr ∧ _)) by naive_solver. by rewrite orb_false_r.
  - intros u Hu. pose proof (w_pin_eq u). rewrite wd_set_rr by (done || lia).
    unfold r1, set_w. erewrite wd_zinsert by (done || lia). destruct (decide (u = v)) as [->|Hne].
    + rewrite decide_True by lia. by rewrite lookup_insert_eq.
    + rewrite decide_False by lia. rewrite lookup_insert_ne by done. by apply Hpin.
  - intros u [->%elem_of_singleton|Hu]%elem_of_union; by auto.
  - done.
Qed.

(** A page that differs in the request registers only. *)
Lemma lrel_bits T T' raw s raw' irr isr :
  lrel T raw s → page_ok 1024 raw' → (∀ i, i < 64 ∨ 160 ≤ i → wd raw' i = wd raw i) →
  (∀ u, 0 ≤ u < 256 → bit_test_rr u lapic_rr_irr raw' = bool_decide (u ∈ irr) ∧
     bit_test_rr u lapic_rr_isr raw' = bool_decide (u ∈ isr) ∧ bit_test_rr u lapic_rr_tmr raw' = bool_decide (u ∈ T')) →
  (∀ v, v ∈ irr → 32 ≤ v < 240) → (∀ v, v ∈ isr → 32 ≤ v < 240) → lrel T' raw' (mk_ls irr isr (ls_pin s)).
Proof.
  intros [Hp Hirr Hisr Htmr Hpin Hr1 Hr2] Hp' Hw Hb H1 H2. split; cbn; try done; try (intros u Hu; by apply Hb).
  intros v Hv. pose proof (w_pin_eq v). rewrite Hw by lia. by apply Hpin.
Qed.
Ltac rr_bits := rewrite ?bit_test_set, ?bit_test_clear by (auto using rr_set_ok, rr_clear_ok; lia).

Lemma move_bits s s' v raw : page_ok 1024 raw → 0 ≤ v < 256 →
  page_ok 1024 (bit_set_rr v s (bit_clear_rr v s' raw)) ∧
  (∀ i, i < 64 ∨ 160 ≤ i → wd (bit_set_rr v s (bit_clear_rr v s' raw)) i = wd raw i) ∧
  ∀ t u, 0 ≤ u < 256 → bit_test_rr u t (bit_set_rr v s (bit_clear_rr v s' raw)) =
    bit_test_rr u t raw && negb (bool_decide (t = s' ∧ u = v)) || bool_decide (t = s ∧ u = v).
Proof.
  intros Hp Hv. pose proof (rr_clear_ok v s' raw Hp) as Hp'. split_and!; [by apply rr_set_ok|..].
  - intros i Hi. rewrite wd_set_rr, wd_clear_rr; auto.
  - intros t u Hu. rewrite bit_test_set, bit_test_clear by done. done.
Qed.

Ltac sel_cases := repeat match goal with
  | |- context [bool_decide (?a = ?b ∧ ?u = ?v)] =>
      first [rewrite (bool_decide_eq_false_2 (a = b ∧ u = v)) by (intros [? _]; discriminate)
            |rewrite (bool_decide_ext (a = b ∧ u = v) (u = v)) by (split; [by intros [_ ?]|by intros ?])] end.

Lemma lrel_take T raw s v : lrel T raw s → v ∈ ls_irr s →
  lrel T (bit_set_rr v lapic_rr_isr (bit_clear_rr v lapic_rr_irr raw)) (mk_ls (ls_irr s ∖ {[v]}) ({[v]} ∪ ls_isr s) (ls_pin s)).
Proof.
  intros Hl Hv. pose proof (lr_irr_range _ _ _ Hl v Hv) as Hr. pose proof Hl as [Hp Hirr Hisr Htmr Hpin Hr1 Hr2].
  destruct (move_bits lapic_rr_isr lapic_rr_irr v raw Hp) as (Hp' & Hw & Hb); [lia|].
  eapply lrel_bits; [exact Hl|done|done| |intros w [Hw' _]%elem_of_difference; by auto|intros w [->%elem_of_singleton|Hw']%elem_of_union; by auto].
  intros u Hu. rewrite !Hb by lia. sel_cases. rewrite Hirr, Hisr, Htmr by lia. split_and!; [..|by rewrite andb_true_r, orb_false_r].
  - rewrite orb_false_r, <- bool_decide_not, <- bool_decide_and. apply bool_decide_ext. clear. set_solver.
  - rewrite andb_true_r, <- bool_decide_or. apply bool_decide_ext. clear. set_solver.
Qed.
Lemma lrel_reraise T raw s v : lrel T raw s → 32 ≤ v < 240 →
  lrel T (bit_set_rr v lapic_rr_irr (bit_clear_rr v lapic_rr_isr raw)) (ls_step (LReraise v) s).2.
Proof.
  intros Hl Hr. pose proof Hl as [Hp Hirr Hisr Htmr Hpin Hr1 Hr2].
  destruct (move_bits lapic_rr_irr lapic_rr_isr v raw Hp) as (Hp' & Hw & Hb); [lia|].
  eapply lrel_bits; [exact Hl|done|done| |intros w [->%elem_of_singleton|Hw']%elem_of_union; by auto|intros w [Hw' _]%elem_of_difference; by auto].
  intros u Hu. rewrite !Hb by lia. sel_cases. rewrite Hirr, Hisr, Htmr by lia. split_and!; [..|by rewrite andb_true_r, orb_false_r].
  - rewrite andb_true_r, <- bool_decide_or. apply bool_decide_ext. clear. set_solver.
  - rewrite orb_false_r, <- bool_decide_not, <- bool_decide_and. apply bool_decide_ext. clear. set_solver.
Qed.
Lemma lrel_eoi T raw s v : lrel T raw s → 0 ≤ v < 256 →
  lrel (T ∖ {[v]}) (bit_clear_rr v lapic_rr_tmr (bit_clear_rr v lapic_rr_isr raw)) (mk_ls (ls_irr s) (ls_isr s ∖ {[v]}) (ls_pin s)).
Proof.
  intros Hl Hr. pose proof Hl as [Hp Hirr Hisr Htmr Hpin Hr1 Hr2]. pose proof (rr_clear_ok v lapic_rr_isr raw Hp) as Hp'.
  eapply lrel_bits; [exact Hl|by apply rr_clear_ok| | |done|intros w [Hw' _]%elem_of_difference; by auto].
  - intros i Hi. by rewrite !wd_clear_rr.
  - intros u Hu. rewrite !bit_test_clear by done. sel_cases. rewrite Hirr, Hisr, Htmr by lia. split_and!; [by rewrite !andb_true_r|..];
      rewrite andb_true_r, <- bool_decide_not, <- bool_decide_and; apply bool_decide_ext; clear; set_solver.
Qed.

(** ** The current CPU *)

Section cur.
Context {E : ApicEnv}.

(** The page and the summary word of the current CPU. *)
Definition at_cur (raw : list Z) (s : apic_t) : Prop :=
  zlookup (ap_lapics s) (ap_cur s) = Some raw ∧ is_Some (zlookup (ap_vectors s) (ap_cur s)).
(** Nothing changes but the page and the summary word of the current CPU. *)
Definition cur_only (s s' : apic_t) : Prop :=
  ap_cur s' = ap_cur s ∧ ap_ioapics s' = ap_ioapics s ∧ ap_hwirq_to_ioapic s' = ap_hwirq_to_ioapic s ∧ ap_pic s' = ap_pic s ∧
  ap_status s' = ap_status s ∧ ap_events s' = ap_events s ∧ length (ap_lapics s') = length (ap_lapics s) ∧
  ∀ d, d ≠ ap_cur s → zlookup (ap_lapics s') d = zlookup (ap_lapics s) d ∧ zlookup (ap_vectors s') d = zlookup (ap_vectors s) d.
#[global] Instance cur_only_preorder : PreOrder cur_only.
Proof.
  split; [by intros s|]. intros s1 s2 s3 (E1 & E2 & E3 & E4 & E5 & E6 & E7 & E8) (F1 & F2 & F3 & F4 & F5 & F6 & F7 & F8).
  split_and!; try congruence. intros d Hd. rewrite E1 in F8. destruct (E8 d Hd), (F8 d Hd). split; congruence.
Qed.

Lemma wp_upd_lapic d raw f s (Q : unit → apic_t → Prop) :
  zlookup (ap_lapics s) d = Some raw → Q tt (ap_set_lapics (zinsert d (f raw) (ap_lapics s)) s) → wp no_fault (upd_lapic d f) Q s.
Proof. intros Hd HQ. unfold upd_lapic, load_lapic. apply wp_bind, wp_bind, wp_mgets. rewrite Hd. by apply wp_mret, wp_mmodify. Qed.
Lemma wp_upd_at raw f s d (Q : unit → apic_t → Prop) :
  at_cur raw s → d = ap_cur s → (∀ s', at_cur (f raw) s' → cur_only s s' → ap_vectors s' = ap_vectors s → Q tt s') →
  wp no_fault (upd_lapic d f) Q s.
Proof.
  intros [Hl Hv] -> HQ. apply (wp_upd_lapic _ raw); [done|]. apply HQ; [|split_and!; try done|done].
  - split; [|done]. cbn. apply zlookup_zinsert_eq. by eapply zlookup_lt.
  - cbn. apply length_zinsert.
  - intros d Hd. cbn. rewrite zlookup_zinsert_ne by done. done.
Qed.
Lemma wp_upd_vectors w f s (Q : unit → apic_t → Prop) :
  zlookup (ap_vectors s) (ap_cur s) = Some w →
  Q tt (ap_set_vectors (zinsert (ap_cur s) (f w) (ap_vectors s)) s) → wp no_fault (upd_irq_vectors f) Q s.
Proof.
  intros Hw HQ. unfold upd_irq_vectors, get_irq_vectors. apply wp_bind, wp_bind, wp_mgets. rewrite Hw. by apply wp_mret, wp_mmodify.
Qed.
Lemma wp_vectors_at raw f s (Q : unit → apic_t → Prop) :
  at_cur raw s → (∀ s', at_cur raw s' → cur_only s s' → Q tt s') → wp no_fault (upd_irq_vectors f) Q s.
Proof.
  intros [Hl [w Hv]] HQ. apply (wp_upd_vectors w); [done|]. apply HQ; [|split_and!; try done].
  - split; [done|]. cbn. rewrite zlookup_zinsert_eq by (by eapply zlookup_lt). done.
  - intros d Hd. cbn. rewrite zlookup_zinsert_ne by done. done.
Qed.
Lemma wp_in_word b s (Q : unit → apic_t → Prop) : 0 ≤ b < 32 → Q tt s → wp no_fault (in_word b) Q s.
Proof. intros Hb HQ. unfold in_word. rewrite bool_decide_eq_true_2 by done. by apply wp_mret. Qed.
Lemma wp_cur_lapic raw s (Q : list Z → apic_t → Prop) : at_cur raw s → Q raw s → wp no_fault cur_lapic Q s.
Proof. intros [Hl _] HQ. unfold cur_lapic, load_lapic. apply wp_bind, wp_mgets, wp_bind, wp_mgets. rewrite Hl. by apply wp_mret. Qed.

Lemma cluster_bit v : 0 ≤ v < 240 → 0 ≤ Z.shiftr (v + 16) 3 < 32.
Proof.
  intros. rewrite Z.shiftr_div_pow2 by lia. change (2 ^ 3) with 8.
  split; [apply Z.div_pos; lia|apply Z.div_lt_upper_bound; lia].
Qed.

(** A vector is raised at the current CPU, anew or again. *)
Lemma raise_vector_at raw s v irq (Q : unit → apic_t → Prop) :
  at_cur raw s → 32 ≤ v < 240 →
  (∀ s', at_cur (bit_set_rr v lapic_rr_irr (set_w (w_pin v) irq raw)) s' → cur_only s s' → Q tt s') →
  wp no_fault (lapic_raise_vector (ap_cur s) v irq false false None) Q s.
Proof.
  intros Hat Hv HQ. unfold lapic_raise_vector. rewrite !(bool_decide_eq_true_2 (v ≤ 256)), !(bool_decide_eq_true_2 (v > 15)), !(bool_decide_eq_true_2 (v < 256)) by lia.
  apply wp_bind, wp_massert; [done|]. intros _. apply wp_bind, wp_bind, wp_massert; [done|]. intros _.
  eapply wp_upd_at; [exact Hat|done|]. intros s1 H1 C1 _. apply wp_bind. eapply wp_upd_at; [exact H1|symmetry; apply C1|].
  intros s2 H2 C2 _. apply wp_bind. unfold cpu_set_irq_vector. apply wp_bind, wp_in_word; [apply cluster_bit; lia|].
  eapply wp_vectors_at; [exact H2|]. intros s3 H3 C3. apply wp_mret, HQ; [done|]. by etrans; [|etrans].
Qed.
Lemma reraise_vector_at raw s v (Q : unit → apic_t → Prop) :
  at_cur raw s → 32 ≤ v < 240 →
  (∀ s', at_cur (bit_set_rr v lapic_rr_irr (bit_clear_rr v lapic_rr_isr raw)) s' → cur_only s s' → Q tt s') →
  wp no_fault (lapic_raise_vector (ap_cur s) v 0 true false None) Q s.
Proof.
  intros Hat Hv HQ. unfold lapic_raise_vector. rewrite !(bool_decide_eq_true_2 (v ≤ 256)), !(bool_decide_eq_true_2 (v > 15)) by lia.
  apply wp_bind, wp_massert; [done|]. intros _. apply wp_bind.
  eapply wp_upd_at; [exact Hat|done|]. intros s1 H1 C1 _. apply wp_bind. eapply wp_upd_at; [exact H1|symmetry; apply C1|].
  intros s2 H2 C2 _. apply wp_bind. unfold cpu_set_irq_vector. apply wp_bind, wp_in_word; [apply cluster_bit; lia|].
  eapply wp_vectors_at; [exact H2|]. intros s3 H3 C3. apply wp_mret, HQ; [done|]. by etrans; [|etrans].
Qed.

Lemma shiftr4 v : Z.shiftr v 4 = v / 16.
Proof. by rewrite Z.shiftr_div_pow2 by lia. Qed.

Lemma pending_at T raw s ls :
  at_cur raw s → lrel T raw ls → lapic_get_id raw = ap_cur s →
  wp no_fault lapic_pending_vector (λ r s', r = (ls_step LPending ls).1 ∧ cur_only s s' ∧ ap_vectors s' = ap_vectors s ∧
    ∃ raw', at_cur raw' s' ∧ lrel T raw' (ls_step LPending ls).2 ∧ ∀ i, i < 64 ∨ 160 ≤ i → wd raw' i = wd raw i) s.
Proof.
  intros Hat Hl Hid. pose proof Hl as [Hp Hirr Hisr Htmr Hpin Hr1 Hr2]. unfold lapic_pending_vector.
  apply wp_bind. eapply wp_cur_lapic; [exact Hat|]. apply wp_bind, wp_mgets, wp_bind, wp_massert; [by rewrite bool_decide_eq_true_2|].
  intros _. cbv zeta. rewrite (msb_rr_highest _ _ (ls_irr ls) Hp Hirr), (msb_rr_highest _ _ (ls_isr ls) Hp Hisr);
    [|intros v Hv%Hr2; lia|intros v Hv%Hr1; lia]. rewrite !shiftr4. cbn [ls_step].
  destruct (highest_in _ Hr1) as [[Hz He]|Hin].
  { assert (0 ≤ highest (ls_isr ls)) by (destruct (highest_in _ Hr2) as [[-> _]|H%Hr2]; lia).
    assert (0 ≤ highest (ls_isr ls) / 16) by (apply Z.div_pos; lia). rewrite Hz, Z.div_0_l by lia. rewrite !(bool_decide_eq_false_2 (highest (ls_isr ls) / 16 < 0)) by lia.
    rewrite (bool_decide_eq_false_2 (0 > highest (ls_isr ls) / 16)) by lia. apply wp_mret. split_and!; try done. eauto. }
  specialize (Hr1 _ Hin) as Hr. rewrite (bool_decide_eq_true_2 (_ > 15)) by lia. rewrite andb_true_r.
  rewrite (bool_decide_ext (highest (ls_irr ls) / 16 > highest (ls_isr ls) / 16) (highest (ls_isr ls) / 16 < highest (ls_irr ls) / 16)) by lia.
  destruct (bool_decide (highest (ls_isr ls) / 16 < highest (ls_irr ls) / 16)).
  2: { apply wp_mret. split_and!; try done. eauto. }
  set (v := highest (ls_irr ls)) in *. unfold upd_cur_lapic. apply wp_bind, wp_bind, wp_mgets.
  eapply wp_upd_at; [exact Hat|done|]. intros s1 H1 C1 V1. apply wp_bind, wp_bind, wp_mgets.
  eapply wp_upd_at; [exact H1|done|]. intros s2 H2 C2 V2. apply wp_bind, wp_massert; [rewrite bool_decide_eq_true_2; [done|lia]|].
  intros _. apply wp_mret. cbn [fst snd]. split_and!; [|by etrans|congruence|].
  - f_equal. f_equal. unfold get_pin. apply Hpin. lia.
  - eexists. split_and!; [exact H2|by apply lrel_take|].
    intros i Hi. apply move_bits; (done || lia).
Qed.

(** The end of interrupt at the local APIC; the rest informs the I/O APIC. *)
Definition eoi_tail (v : Z) (raw : list Z) : M apic_t unit :=
  match get_ioapic v raw with
  | Some j => i ← load_io j; massert (is_valid_ioapic i);; massert (bool_decide (get_pin v raw < 256));; ioapic_eoi j (get_pin v raw)
  | None => mret tt
  end.
Lemma eoi_step T raw s ls (Q : unit → apic_t → Prop) :
  at_cur raw s → lrel T raw ls → highest (ls_isr ls) ∈ ls_isr ls →
  (∀ s' raw', at_cur raw' s' → cur_only s s' → lrel (T ∖ {[highest (ls_isr ls)]}) raw' (ls_step LEoi ls).2 →
     (∀ i, i < 64 ∨ 160 ≤ i → wd raw' i = wd raw i) →
     wp no_fault (if bool_decide (highest (ls_isr ls) ∈ T) then eoi_tail (highest (ls_isr ls)) raw else mret tt) Q s') →
  wp no_fault lapic_write_eoi Q s.
Proof.
  intros Hat Hl Hin HQ. pose proof Hl as [Hp Hirr Hisr Htmr Hpin Hr1 Hr2]. unfold lapic_write_eoi.
  apply wp_bind. eapply wp_cur_lapic; [exact Hat|]. cbv zeta.
  rewrite (msb_rr_highest _ _ (ls_isr ls) Hp Hisr) by (intros v Hv%Hr2; lia). cbn [ls_step] in *.
  specialize (Hr2 _ Hin) as Hr. set (v := highest (ls_isr ls)) in *. rewrite (bool_decide_eq_true_2 (v > 15)) by lia.
  rewrite Hisr, (bool_decide_eq_true_2 (v ∈ ls_isr _)) by (done || lia). cbn [andb]. unfold upd_cur_lapic.
  apply wp_bind, wp_bind, wp_mgets. eapply wp_upd_at; [exact Hat|done|]. intros s1 H1 C1 _.
  apply wp_bind. eapply wp_cur_lapic; [exact H1|]. apply wp_bind.
  apply wp_mono with (P := λ _ s2, at_cur (bit_clear_rr v lapic_rr_isr raw) s2 ∧ cur_only s1 s2).
  { match goal with |- wp _ (if ?b then _ else _) _ _ => destruct b end; [|by apply wp_mret]. unfold cpu_clear_irq_vector. apply wp_bind, wp_in_word; [apply cluster_bit; lia|].
    eapply wp_vectors_at; [exact H1|]. auto. }
  intros _ s2 [H2 C2]. apply wp_bind, wp_massert; [rewrite bool_decide_eq_true_2; [done|lia]|]. intros _.
  apply wp_bind, wp_bind, wp_mgets. eapply wp_upd_at; [exact H2|done|]. intros s3 H3 C3 _.
  pose proof (rr_clear_ok v lapic_rr_isr raw Hp). pose proof (w_pin_eq v). pose proof (w_ioapic_eq v).
  assert (get_pin v (bit_clear_rr v lapic_rr_isr raw) = get_pin v raw) as Epin by (unfold get_pin; rewrite wd_clear_rr; (done || lia)).
  assert (get_ioapic v (bit_clear_rr v lapic_rr_isr raw) = get_ioapic v raw) as Eio by (unfold get_ioapic; rewrite wd_clear_rr; (done || lia)).
  specialize (HQ s3 _ H3). rewrite bit_test_clear, Htmr by (done || lia). sel_cases. rewrite andb_true_r, Epin, Eio.
  assert (cur_only s s3) as C by (etrans; [exact C1|]; etrans; [exact C2|exact C3]).
  specialize (HQ C (lrel_eoi T raw ls v Hl ltac:(lia)) ltac:(intros i Hi; rewrite !wd_clear_rr; (done || lia))).
  unfold eoi_tail in HQ. destruct (bool_decide (v ∈ T)); [|exact HQ]. by destruct (get_ioapic v raw).
Qed.
Lemma eoi_at raw s ls :
  at_cur raw s → lrel ∅ raw ls →
  wp no_fault lapic_write_eoi (λ _ s', cur_only s s' ∧
    ∃ raw', at_cur raw' s' ∧ lrel ∅ raw' (ls_step LEoi ls).2 ∧ ∀ i, i < 64 ∨ 160 ≤ i → wd raw' i = wd raw i) s.
Proof.
  intros Hat Hl. destruct (highest_in _ (lr_isr_range _ _ _ Hl)) as [[Hz He]|Hin].
  { unfold lapic_write_eoi. apply wp_bind. eapply wp_cur_lapic; [exact Hat|]. cbv zeta. pose proof Hl as [Hp Hirr Hisr Htmr Hpin Hr1 Hr2].
    rewrite (msb_rr_highest _ _ (ls_isr ls) Hp Hisr) by (intros v Hv%Hr2; lia). cbn [ls_step].
    rewrite Hz. cbn. apply wp_mret. split; [done|]. exists raw. split; [done|]. split; [|done].
    replace (mk_ls (ls_irr ls) (ls_isr ls ∖ {[0]}) (ls_pin ls)) with ls; [done|]. destruct ls as [irr isr pin]; cbn in *.
    subst isr. by f_equal. }
  eapply eoi_step; [exact Hat|exact Hl|done|]. intros s' raw' Hat' Hc Hl' Hw.
  rewrite bool_decide_eq_false_2 by (apply not_elem_of_empty). apply wp_mret. split; [done|]. exists raw'.
  split_and!; [done| |done].
  replace (∅ : gset Z) with (∅ ∖ {[highest (ls_isr ls)]} : gset Z) by (clear; set_solver). exact Hl'.
Qed.
End cur.

(** ** The page after its initialisation *)

Lemma wd_ne raw i j x : i ≠ j → wd (zinsert i x raw) j = wd raw j.
Proof. intros. unfold wd. by rewrite zlookup_zinsert_ne. Qed.
Lemma set_f_ok n i lo k x raw : 0 ≤ lo → 0 ≤ k → lo + k ≤ 32 → page_ok n raw → page_ok n (set_f i lo k x raw).
Proof. intros. apply upd_wd_ok; [done|]. intros. by apply bf_set_ok. Qed.
Lemma set_w_ok n i x raw : u32_ok x → page_ok n raw → page_ok n (set_w i x raw).
Proof. intros. by apply zinsert_ok. Qed.
Lemma zero_page n : page_ok n (replicate n 0).
Proof. split; [apply length_replicate|]. apply Forall_replicate. unfold u32_ok. lia. Qed.
Ltac page_ok_tac := repeat first [apply zero_page | apply set_f_ok; [lia|lia|lia|] | apply set_w_ok; [unfold u32_ok; (lia || done)|]].

Lemma init_pins_low n raw i : i < 256 → wd (init_pins n raw) i = wd raw i.
Proof.
  intros Hi. induction n as [|n IH]; [done|]. cbn [init_pins]. unfold set_w. pose proof (w_pin_eq n). pose proof (w_ioapic_eq n).
  rewrite !wd_ne by lia. done.
Qed.
Lemma init_pins_ok n raw : page_ok 1024 raw → page_ok 1024 (init_pins n raw).
Proof. intros Hp. induction n as [|n IH]; [done|]. cbn [init_pins]. page_ok_tac. done. Qed.
Lemma init_pins_pin n raw v : page_ok 1024 raw → (n ≤ 256)%nat → 0 ≤ v < n → wd (init_pins n raw) (w_pin v) = 256 ∧ wd (init_pins n raw) (w_ioapic v) = 0.
Proof.
  intros Hp. induction n as [|n IH]; intros Hn Hv; [lia|]. cbn [init_pins]. unfold set_w.
  pose proof (w_pin_eq n). pose proof (w_ioapic_eq n). pose proof (w_pin_eq v). pose proof (w_ioapic_eq v).
  pose proof (init_pins_ok n raw Hp) as Hok. assert (page_ok 1024 (zinsert (w_ioapic n) 0 (init_pins n raw))) as Hok2
    by (apply zinsert_ok; [done|unfold u32_ok; lia]).
  destruct (decide (v = n)) as [->|Hne].
  - rewrite (wd_zinsert 1024), decide_True by (done || lia). split; [done|].
    rewrite wd_ne by lia. by rewrite (wd_zinsert 1024), decide_True by (done || lia).
  - rewrite !wd_ne by lia. apply IH; lia.
Qed.

Lemma lapic_init_page id bsp : page_ok 1024 (lapic_init id bsp).
Proof. unfold lapic_init, fold_left. apply init_pins_ok. destruct bsp; page_ok_tac. Qed.
Lemma lapic_init_rr id bsp i : 64 ≤ i < 160 → wd (lapic_init id bsp) i = 0.
Proof.
  intros Hi. unfold lapic_init, fold_left. rewrite init_pins_low by lia.
  assert (wd (replicate 1024 0) i = 0) as H0 by (unfold wd; by rewrite zlookup_replicate by lia).
  destruct bsp; unfold set_f, set_w, upd_wd;
    rewrite !wd_ne by (vm_compute; lia || (intros Heq; vm_compute in Heq; lia)); exact H0.
Qed.
Lemma wd_upd_eq n raw i f : page_ok n raw → 0 ≤ i < n → wd (upd_wd i f raw) i = f (wd raw i).
Proof. intros. erewrite wd_upd by done. by rewrite decide_True. Qed.
Lemma bf_bf_set lo n x w : 0 ≤ lo → 0 ≤ n → bf lo n (bf_set lo n x w) = Z.land x (Z.ones n).
Proof.
  intros. apply Z.bits_inj'. intros k Hk. rewrite bf_testbit, Z.land_spec, Z.testbit_ones by lia.
  rewrite bf_set_testbit by lia. destruct (decide (k < n)).
  - rewrite !bool_decide_eq_true_2 by lia. replace (lo + k - lo) with k by lia. simpl.
    replace ((0 <=? k) && (k <? n)) with true; [by rewrite andb_true_r|]. symmetry. apply andb_true_intro. split; [apply Z.leb_le|apply Z.ltb_lt]; lia.
  - rewrite (bool_decide_eq_false_2 (k < n)) by lia. simpl. symmetry. apply andb_false_intro2, andb_false_intro2, Z.ltb_ge. lia.
Qed.

Lemma lapic_init_id id bsp : 0 ≤ id < 256 → lapic_get_id (lapic_init id bsp) = id.
Proof.
  intros Hid. unfold lapic_get_id, get_f.
  assert (wd (lapic_init id bsp) W_ID = bf_set 24 8 id 0) as ->.
  { destruct bsp; vm_compute; reflexivity. }
  rewrite bf_bf_set, Z.land_ones, Z.mod_small by lia. done.
Qed.
Lemma lrel_init id bsp : lrel ∅ (lapic_init id bsp) (mk_ls ∅ ∅ ∅).
Proof.
  pose proof (lapic_init_page id bsp) as Hp.
  assert (∀ s u, 0 ≤ u < 256 → bit_test_rr u s (lapic_init id bsp) = false) as Hb.
  { intros s u Hu. unfold bit_test_rr, bit_test. rewrite lapic_init_rr by (by apply sb_range). apply Z.bits_0. }
  split; cbn [ls_irr ls_isr ls_pin]; [done|intros u Hu; by rewrite Hb..| |set_solver|set_solver].
  intros v Hv. rewrite lookup_empty. unfold lapic_init, fold_left. apply init_pins_pin; [destruct bsp; page_ok_tac|done|lia].
Qed.

(** ** The local APIC implements its specification *)

Section refine.
Context {E : ApicEnv}.

(** What the rest of the wedge and the guest do to the local APIC of the current CPU:
    a device or timer raises a vector, the wedge asks for one, the guest writes the
    end-of-interrupt register, a vector could not be delivered and is raised again. *)
Definition lop_run (o : lapic_op) : M apic_t (option (Z * Z)) :=
  d ← mgets ap_cur;
  match o with
  | LRaise v irq => lapic_raise_vector d v irq false false None;; mret None
  | LPending => lapic_pending_vector
  | LEoi => lapic_write 0 0x0b0;; mret None
  | LReraise v => lapic_raise_vector d v 0 true false None;; mret None
  end.
Fixpoint lops_run (ops : list lapic_op) : M apic_t (list (option (Z * Z))) :=
  match ops with
  | [] => mret []
  | o :: ops => r ← lop_run o; rs ← lops_run ops; mret (r :: rs)
  end.
Definition lop_ok (o : lapic_op) : Prop :=
  match o with LRaise v irq => 32 ≤ v < 240 ∧ u32_ok irq | LReraise v => 32 ≤ v < 240 | _ => True end.

Lemma id_frame raw raw' : (∀ i, i < 64 ∨ 160 ≤ i → wd raw' i = wd raw i) → lapic_get_id raw' = lapic_get_id raw.
Proof. intros Hw. unfold lapic_get_id, get_f. rewrite Hw; [done|]. vm_compute. by left. Qed.

Lemma lop_run_ok o s raw ls :
  at_cur raw s → lrel ∅ raw ls → lapic_get_id raw = ap_cur s → lop_ok o →
  wp no_fault (lop_run o) (λ r s', r = (ls_step o ls).1 ∧ cur_only s s' ∧
    ∃ raw', at_cur raw' s' ∧ lrel ∅ raw' (ls_step o ls).2 ∧ lapic_get_id raw' = ap_cur s') s.
Proof.
  intros Hat Hl Hid Ho. unfold lop_run. apply wp_bind, wp_mgets. pose proof (lr_page _ _ _ Hl) as Hp. destruct o as [v irq| | |v]; cbn in Ho.
  - destruct Ho as [Hv Hi]. apply wp_bind. eapply raise_vector_at; [exact Hat|done|]. intros s' Hat' Hc. apply wp_mret.
    split_and!; [done..|]. eexists. split_and!; [exact Hat'|by apply lrel_raise|]. rewrite (proj1 Hc), <- Hid. pose proof (w_pin_eq v).
    unfold lapic_get_id, get_f. rewrite wd_set_rr; [|by apply zinsert_ok|lia|vm_compute; by left].
    unfold set_w. rewrite wd_ne; [done|]. change W_ID with 8. lia.
  - eapply wp_mono; [by apply pending_at|]. intros r s' (-> & Hc & _ & raw' & Hat' & Hl' & Hw). split_and!; [done..|].
    exists raw'. split_and!; [done..|]. by rewrite (id_frame _ _ Hw), (proj1 Hc).
  - apply wp_bind. unfold lapic_write. apply wp_bind. eapply wp_cur_lapic; [exact Hat|]. apply wp_bind, wp_mgets, wp_bind, wp_massert; [by rewrite bool_decide_eq_true_2|].
    intros _. rewrite !(bool_decide_eq_false_2 (0x0b0 = _)) by lia.
    rewrite (bool_decide_eq_true_2 (0x0b0 = 0x0b0)) by done. eapply wp_mono; [by eapply eoi_at|]. intros _ s' (Hc & raw' & Hat' & Hl' & Hw).
    apply wp_mret. split_and!; [done..|]. exists raw'. split_and!; [done..|]. by rewrite (id_frame _ _ Hw), (proj1 Hc).
  - apply wp_bind. eapply reraise_vector_at; [exact Hat|done|]. intros s' Hat' Hc. apply wp_mret. split_and!; [done..|].
    eexists. split_and!; [exact Hat'|by apply lrel_reraise|]. rewrite (proj1 Hc), <- Hid. apply id_frame.
    intros i Hi. apply move_bits; (done || lia).
Qed.

(** C7. The local APIC refines a controller with priorities: for every sequence of raised
    vectors, queries, ends of interrupt and re-raised vectors nothing faults, the
    answers are those of the specification on sets (the highest requested vector,
    with its interrupt, when its class of sixteen is above everything in service),
    and no other CPU or controller changes. Vectors are between 32 and 239. *)
Theorem lapic_refines ops s raw ls :
  at_cur raw s → lrel ∅ raw ls → lapic_get_id raw = ap_cur s → Forall lop_ok ops →
  ∃ s' raw', lops_run ops s = Ok (ls_run ops ls).1 s' ∧ cur_only s s' ∧ at_cur raw' s' ∧ lrel ∅ raw' (ls_run ops ls).2.
Proof.
  intros Hat Hl Hid Hops. revert s raw ls Hat Hl Hid. induction Hops as [|o ops Ho Hops IH]; intros s raw ls Hat Hl Hid.
  { exists s, raw. split_and!; done. }
  destruct (wp_no_fault _ _ _ (lop_run_ok o s raw ls Hat Hl Hid Ho)) as (r & s1 & Hrun & -> & Hc & raw1 & Hat1 & Hl1 & Hid1).
  destruct (IH s1 raw1 _ Hat1 Hl1 Hid1) as (s2 & raw2 & Hrun2 & Hc2 & Hat2 & Hl2). cbn [lops_run ls_run].
  destruct (ls_step o ls) as [r ls1]. cbn [fst snd] in *. destruct (ls_run ops ls1) as [rs ls2]. cbn [fst snd] in *.
  exists s2, raw2. split_and!; [|by etrans|done..]. erewrite bind_ok by exact Hrun. cbv beta. erewrite bind_ok by exact Hrun2. done.
Qed.
End refine.
