(* ===== verification/ApicTypes.v ===== *)
(** * The virtual APICs: their registers stay well-formed

    Every register of every controller is a 32-bit word, the tables keep their sizes,
    and the pointers from vectors to I/O APICs stay in the array, whatever the guest
    writes and whichever interrupts are raised. *)

From Stdlib Require Import ZArith Lia.
From stdpp Require Import base list gmap sets numbers.
From S2P Require Import Prelude Pic PicSpec Apic ApicSpec.

Record io_ok (i : i82093_t) : Prop := {
  ik_raw : page_ok 144 (io_raw i);
  ik_sel : u32_ok (io_regsel i);
  ik_win : u32_ok (io_regwin i);
  ik_base : u32_ok (io_irq_base i)
}.
Record il_ok (l : intlogic_t) : Prop := {
  il_latch : u32_ok (hwirq_latch l);
  il_mask : u32_ok (hwirq_mask l);
  il_vectors : u32_ok (irq_vectors l)
}.

Section types.
Context {E : ApicEnv}.

Record apic_wf (s : apic_t) : Prop := {
  wf_pages : Forall (page_ok 1024) (ap_lapics s);
  wf_vectors : Forall u32_ok (ap_vectors s);
  wf_ioapics : Forall io_ok (ap_ioapics s);
  wf_nioapics : Z.of_nat (length (ap_ioapics s)) = CONFIG_MAX_IOAPICS;
  wf_table : length (ap_hwirq_to_ioapic s) = 256%nat;
  wf_pic : u32_ok (hwirq_latch (ap_pic s)) ∧ u32_ok (hwirq_mask (ap_pic s))
}.

Hypothesis pointers_ok : 0 < ioapic_base ∧ ioapic_base + 4096 * CONFIG_MAX_IOAPICS ≤ 2 ^ 32.

(** [m] keeps the machine well-formed. *)
Definition keeps {A} (m : M apic_t A) : Prop := ∀ s, apic_wf s → wp (λ _, True) m (λ _ s', apic_wf s') s.

Lemma keeps_mret {A} (a : A) : keeps (mret a).
Proof. intros s Hs. by apply wp_mret. Qed.
Lemma keeps_mfault {A} f : keeps (mfault f : M apic_t A).
Proof. intros s Hs. by apply wp_mfault. Qed.
Lemma keeps_bind {A B} (m : M apic_t A) (k : A → M apic_t B) : keeps m → (∀ a, keeps (k a)) → keeps (m ≫= k).
Proof. intros Hm Hk s Hs. apply wp_bind. eapply wp_mono; [by apply Hm|]. intros a s' Hs'. by apply Hk. Qed.
Lemma keeps_mget {B} (k : apic_t → M apic_t B) : (∀ s, apic_wf s → keeps (k s)) → keeps (mget ≫= k).
Proof. intros Hk s Hs. apply wp_bind, wp_mget. by apply Hk. Qed.
Lemma keeps_mgets {A B} (f : apic_t → A) (k : A → M apic_t B) : (∀ a, keeps (k a)) → keeps (mgets f ≫= k).
Proof. intros Hk s Hs. apply wp_bind, wp_mgets. by apply Hk. Qed.
Lemma keeps_massert b : keeps (massert b : M apic_t unit).
Proof. intros s Hs. unfold massert. destruct b; [by apply wp_mret|by apply wp_mfault]. Qed.
Lemma keeps_if {A} (b : bool) (m1 m2 : M apic_t A) : keeps m1 → keeps m2 → keeps (if b then m1 else m2).
Proof. by destruct b. Qed.
Lemma keeps_mof {A} f (o : option A) : keeps (mof_option f o : M apic_t A).
Proof. destruct o; [apply keeps_mret|apply keeps_mfault]. Qed.

Lemma forall_zlookup {A} (P : A → Prop) l i x : Forall P l → zlookup l i = Some x → P x.
Proof. intros Hf Hx. unfold zlookup in Hx. destruct (decide (0 ≤ i)); [|done]. by apply (proj1 (Forall_lookup _ _) Hf _ _ Hx). Qed.
Lemma forall_zinsert {A} (P : A → Prop) l i x : Forall P l → P x → Forall P (zinsert i x l).
Proof. intros Hf Hx. unfold zinsert. case_decide; [|done]. by apply Forall_insert. Qed.

Lemma keeps_emit e : keeps (ap_emit e).
Proof. intros s [? ? ? ? ? ?]. by apply wp_mmodify. Qed.
Lemma keeps_load_lapic {B} d (k : list Z → M apic_t B) : (∀ raw, page_ok 1024 raw → keeps (k raw)) → keeps (load_lapic d ≫= k).
Proof.
  intros Hk s Hs. unfold load_lapic. apply wp_bind, wp_bind, wp_mgets. destruct (zlookup (ap_lapics s) d) as [raw|] eqn:Hd; [|done].
  apply wp_mret. apply Hk; [|done]. by eapply forall_zlookup; [apply wf_pages|].
Qed.
Lemma keeps_cur_lapic {B} (k : list Z → M apic_t B) : (∀ raw, page_ok 1024 raw → keeps (k raw)) → keeps (cur_lapic ≫= k).
Proof.
  intros Hk s Hs. unfold cur_lapic. apply wp_bind, wp_bind, wp_mgets. apply wp_mono with (P := λ raw s', page_ok 1024 raw ∧ apic_wf s').
  2: { intros raw s' [H1 H2]. exact (Hk raw H1 s' H2). }
  unfold load_lapic. apply wp_bind, wp_mgets. destruct (zlookup (ap_lapics s) (ap_cur s)) as [raw|] eqn:Hd; [|done].
  apply wp_mret. split; [by eapply forall_zlookup; [apply wf_pages|]|done].
Qed.
Lemma keeps_upd_lapic d f : (∀ raw, page_ok 1024 raw → page_ok 1024 (f raw)) → keeps (upd_lapic d f).
Proof.
  intros Hf. unfold upd_lapic. apply keeps_load_lapic. intros raw Hraw s [? ? ? ? ? ?]. apply wp_mmodify.
  split; try done. apply forall_zinsert; auto.
Qed.
Lemma keeps_upd_cur f : (∀ raw, page_ok 1024 raw → page_ok 1024 (f raw)) → keeps (upd_cur_lapic f).
Proof. intros Hf. unfold upd_cur_lapic. apply keeps_mgets. intros d. by apply keeps_upd_lapic. Qed.
Lemma keeps_load_io {B} j (k : i82093_t → M apic_t B) :
  (∀ i, io_ok i → 0 ≤ j < CONFIG_MAX_IOAPICS → keeps (k i)) → keeps (load_io j ≫= k).
Proof.
  intros Hk s Hs. unfold load_io. apply wp_bind, wp_bind, wp_mgets. destruct (zlookup (ap_ioapics s) j) as [i|] eqn:Hd; [|done].
  apply wp_mret. apply Hk; [by eapply forall_zlookup; [apply wf_ioapics|]| |done].
  apply zlookup_lt in Hd. rewrite <- (wf_nioapics _ Hs). lia.
Qed.
Lemma keeps_upd_io j f : (∀ i, io_ok i → io_ok (f i)) → keeps (upd_io j f).
Proof.
  intros Hf. unfold upd_io. apply keeps_load_io. intros i Hi _ s [? ? ? ? ? ?]. apply wp_mmodify.
  split; try done; cbn; [apply forall_zinsert; auto|by rewrite length_zinsert].
Qed.
Lemma keeps_vectors f : (∀ w, u32_ok w → u32_ok (f w)) → keeps (upd_irq_vectors f).
Proof.
  intros Hf s Hs. unfold upd_irq_vectors, get_irq_vectors. apply wp_bind, wp_bind, wp_mgets.
  destruct (zlookup (ap_vectors s) (ap_cur s)) as [w|] eqn:Hw; [|done]. apply wp_mret, wp_mmodify.
  pose proof (forall_zlookup _ _ _ _ (wf_vectors _ Hs) Hw). destruct Hs. split; try done. apply forall_zinsert; auto.
Qed.
Lemma keeps_get_vectors : keeps get_irq_vectors.
Proof. unfold get_irq_vectors. apply keeps_mgets. intros. apply keeps_mof. Qed.

(** A bit number is checked before it is used. *)
Lemma keeps_in_word {B} b (m : M apic_t B) : (0 ≤ b < 32 → keeps m) → keeps (in_word b;; m).
Proof.
  intros Hm s Hs. apply wp_bind. unfold in_word. case_bool_decide; [|by apply wp_mfault]. apply wp_mret. by apply Hm.
Qed.
Lemma keeps_on_il {A} (f : intlogic_t → A * intlogic_t) :
  (∀ l, u32_ok (hwirq_latch l) ∧ u32_ok (hwirq_mask l) → u32_ok (hwirq_latch (f l).2) ∧ u32_ok (hwirq_mask (f l).2)) → keeps (on_il f).
Proof.
  intros Hf s [? ? ? ? ? Hp]. unfold on_il. apply wp_bind, wp_mget. specialize (Hf _ Hp). destruct (f (ap_pic s)) as [a l].
  by apply wp_bind, wp_mmodify, wp_mret.
Qed.
Lemma keeps_hw_set_mask irq : keeps (hw_set_mask irq).
Proof. apply keeps_in_word. intros Hb. apply keeps_on_il. intros l [? ?]. split; [done|]. by apply bit_set_ok. Qed.
Lemma keeps_hw_clear_mask irq : keeps (hw_test_and_clear_mask irq).
Proof. apply keeps_in_word. intros Hb. apply keeps_on_il. intros l [? ?]. split; [done|]. by apply bit_clear_ok. Qed.
Lemma keeps_hw_latch irq : keeps (hw_test_and_set_latch irq).
Proof. apply keeps_in_word. intros Hb. apply keeps_on_il. intros l [? ?]. split; [by apply bit_set_ok|done]. Qed.
Lemma keeps_set_vector v : keeps (cpu_set_irq_vector v).
Proof. apply keeps_in_word. intros Hb. apply keeps_vectors. intros. by apply bit_set_ok. Qed.
Lemma keeps_clear_vector v : keeps (cpu_clear_irq_vector v).
Proof. apply keeps_in_word. intros Hb. apply keeps_vectors. intros. by apply bit_clear_ok. Qed.

Lemma bit_set_rr_keeps v s raw : page_ok 1024 raw → page_ok 1024 (bit_set_rr v s raw).
Proof. intros Hp. apply upd_wd_ok; [done|]. intros. apply bit_set_ok; [|done]. rewrite land31. apply Z.mod_pos_bound. lia. Qed.

(** Walks through a body with the rules above. *)
Create HintDb keeps.
Ltac keeps_step := match goal with
  | |- keeps (mret _) => apply keeps_mret
  | |- keeps (mfault _) => apply keeps_mfault
  | |- keeps (massert _) => apply keeps_massert
  | |- keeps (mof_option _ _) => apply keeps_mof
  | |- keeps (ap_emit _) => apply keeps_emit
  | |- keeps get_irq_vectors => apply keeps_get_vectors
  | |- keeps (hw_set_mask _) => apply keeps_hw_set_mask
  | |- keeps (hw_test_and_clear_mask _) => apply keeps_hw_clear_mask
  | |- keeps (hw_test_and_set_latch _) => apply keeps_hw_latch
  | |- keeps (cpu_set_irq_vector _) => apply keeps_set_vector
  | |- keeps (cpu_clear_irq_vector _) => apply keeps_clear_vector
  | H : context [keeps _] |- keeps _ => apply H
  | |- keeps (load_lapic _ ≫= _) => apply keeps_load_lapic; intros ? ?
  | |- keeps (cur_lapic ≫= _) => apply keeps_cur_lapic; intros ? ?
  | |- keeps (load_io _ ≫= _) => apply keeps_load_io; intros ? ? ?
  | |- keeps (mget ≫= _) => apply keeps_mget; intros ? ?
  | |- keeps (mgets _ ≫= _) => apply keeps_mgets; intros ?
  | |- keeps (upd_lapic _ _) => apply keeps_upd_lapic; intros ? ?
  | |- keeps (upd_cur_lapic _) => apply keeps_upd_cur; intros ? ?
  | |- keeps (if _ then _ else _) => apply keeps_if
  | |- keeps (_ ≫= _) => apply keeps_bind; [|intros ?]
  | |- page_ok 1024 (bit_set_rr _ _ _) => apply bit_set_rr_keeps
  | |- page_ok 1024 (bit_clear_rr _ _ _) => apply rr_clear_ok
  | |- page_ok _ (set_f _ _ _ _ _) => apply set_f_ok; [lia|lia|lia|]
  | |- page_ok _ _ => assumption
  | |- _ => solve [eauto with keeps nocore]
  end.
Ltac keeps_tac := repeat (cbv zeta beta; keeps_step).

Lemma keeps_raise_vector d v irq reraise from_eoi from :
  0 ≤ v → u32_ok irq → (∀ j, from = Some j → 0 ≤ j < CONFIG_MAX_IOAPICS) →
  keeps (lapic_raise_vector d v irq reraise from_eoi from).
Proof using pointers_ok.
  intros Hv Hirq Hfrom. unfold lapic_raise_vector. keeps_tac.
  - by apply set_w_ok.
  - apply set_w_ok; [|done]. destruct from as [j|]; [|unfold u32_ok; lia]. specialize (Hfrom j eq_refl).
    unfold ioapic_ptr, u32_ok. lia.
Qed.
Lemma get_f_ok i lo n raw : 0 ≤ n ≤ 32 → u32_ok (get_f i lo n raw).
Proof. intros Hn. unfold get_f, u32_ok. pose proof (bf_range lo n (wd raw i)). assert (2 ^ n ≤ 2 ^ 32) by (apply Z.pow_le_mono_r; lia). lia. Qed.
Lemma bf_nonneg lo n w : 0 ≤ n → 0 ≤ bf lo n w.
Proof. intros. by apply bf_range. Qed.
Lemma keeps_timer : keeps lapic_raise_timer_irq.
Proof using pointers_ok.
  unfold lapic_raise_timer_irq. keeps_tac. apply keeps_raise_vector; [by apply bf_nonneg|unfold u32_ok; lia|done].
Qed.
Lemma keeps_lapic_pending : keeps lapic_pending_vector.
Proof. unfold lapic_pending_vector. keeps_tac. Qed.

Lemma keeps_logical n ldst : keeps (logical_mask n ldst).
Proof. induction n as [|n IH]; cbn [logical_mask]; keeps_tac. Qed.
#[local] Hint Resolve keeps_logical : keeps.
Lemma keeps_dest_mask j entry old : keeps (get_redir_entry_dest_mask j entry old).
Proof. unfold get_redir_entry_dest_mask. keeps_tac. Qed.
#[local] Hint Resolve keeps_dest_mask : keeps.
Lemma keeps_unmask j entry irq : keeps (unmask_device j entry irq).
Proof. unfold unmask_device, hw_is_squashed. keeps_tac. Qed.
#[local] Hint Resolve keeps_unmask : keeps.
Lemma keeps_each_dest fuel mask body : (∀ d, keeps (body d)) → keeps (each_dest fuel mask body).
Proof. intros Hb. revert mask. induction fuel as [|fuel IH]; intros mask; cbn [each_dest]; keeps_tac. Qed.
Lemma upd_rw_ok e f i : (∀ w, u32_ok w → u32_ok (f w)) → io_ok i → io_ok (upd_rw e f i).
Proof. intros Hf [? ? ? ?]. split; try done. by apply upd_wd_ok. Qed.
Lemma upd_rw_hi_ok e f i : (∀ w, u32_ok w → u32_ok (f w)) → io_ok i → io_ok (upd_rw_hi e f i).
Proof. intros Hf [? ? ? ?]. split; try done. by apply upd_wd_ok. Qed.
Lemma keeps_ioapic_raise j irq reraise : u32_ok irq → keeps (ioapic_raise_irq j irq reraise).
Proof using pointers_ok.
  intros Hirq. unfold ioapic_raise_irq, debugger_enter. keeps_tac.
  - apply keeps_upd_io. intros. apply upd_rw_ok; [|done]. intros. by apply bit_set_ok.
  - apply keeps_each_dest. intros d. keeps_tac. apply keeps_raise_vector; [by apply bf_nonneg|done|].
    intros j'. case_bool_decide; naive_solver.
  - apply keeps_upd_io. intros. apply upd_rw_ok; [|done]. intros. by apply bit_set_ok.
Qed.
Lemma keeps_ioapic_eoi j irq : u32_ok irq → keeps (ioapic_eoi j irq).
Proof using pointers_ok.
  intros Hirq. unfold ioapic_eoi, debugger_enter. keeps_tac.
  1,2: apply keeps_upd_io; intros; apply upd_rw_ok; [|done]; intros; by apply bit_clear_ok.
  by apply keeps_ioapic_raise.
Qed.
Lemma keeps_enable j entry : keeps (enable_redir_entry_hwirq j entry).
Proof.
  unfold enable_redir_entry_hwirq. keeps_tac.
  - apply keeps_upd_io. intros. apply upd_rw_ok; [|done]. intros. apply bf_set_ok; (done || lia).
  - apply keeps_upd_io. intros. apply upd_rw_hi_ok; [|done]. intros. apply bf_set_ok; (done || lia).
  - apply keeps_upd_io. intros. apply upd_rw_hi_ok; [|done]. intros. apply bf_set_ok; (done || lia).
Qed.
#[local] Hint Resolve keeps_enable : keeps.
Lemma u32_mod x : u32_ok (u32 x).
Proof. unfold u32_ok. apply wrap_range. lia. Qed.
Lemma keeps_write_redir j regsel value : keeps (ioapic_write_redir j regsel value).
Proof using pointers_ok.
  unfold ioapic_write_redir, ioapic_write_low, ioapic_write_high, debugger_enter. keeps_tac.
  - apply keeps_upd_io. intros. apply upd_rw_ok; [|done]. intros. repeat (apply bf_set_ok; [lia..|]). done.
  - apply keeps_upd_io. intros. apply upd_rw_ok; [|done]. intros. by apply bit_clear_ok.
  - apply keeps_ioapic_raise, u32_mod.
  - apply keeps_upd_io. intros. apply upd_rw_hi_ok; [|done]. intros. apply bf_set_ok; (done || lia).
  - apply keeps_upd_io. intros. apply upd_rw_hi_ok; [|done]. intros. apply bf_set_ok; (done || lia).
Qed.
#[local] Hint Resolve keeps_write_redir : keeps.
Lemma keeps_ioapic_write j value reg : u32_ok value → keeps (ioapic_write j value reg).
Proof using pointers_ok.
  intros Hv. unfold ioapic_write, debugger_enter. keeps_tac.
  - apply keeps_upd_io. intros ? [? ? ? ?]. by split.
  - apply keeps_upd_io. intros ? [? ? ? ?]. split; try done. by apply (wd_ok 144).
  - apply keeps_upd_io. intros ? [? ? ? ?]. split; try done. cbn. apply set_f_ok; (done || lia).
Qed.

Lemma wd_u32 raw i : page_ok 1024 raw → u32_ok (wd raw i).
Proof. apply wd_ok. Qed.
Lemma keeps_write_eoi : keeps lapic_write_eoi.
Proof using pointers_ok.
  unfold lapic_write_eoi. keeps_tac.
  case_match; keeps_tac.
  apply keeps_ioapic_eoi. by apply wd_u32.
Qed.
#[local] Hint Resolve keeps_write_eoi : keeps.
Lemma keeps_icr_mask raw : keeps (icr_dest_mask raw).
Proof. unfold icr_dest_mask. keeps_tac. Qed.
#[local] Hint Resolve keeps_icr_mask : keeps.
Lemma keeps_icrlo value : keeps (lapic_write_icrlo value).
Proof using pointers_ok.
  unfold lapic_write_icrlo, debugger_enter. keeps_tac.
  - apply keeps_each_dest. intros d. keeps_tac. apply keeps_raise_vector; [by apply bf_nonneg|unfold u32_ok; lia|done].
  - apply keeps_each_dest. intros d. unfold lapic_startup. keeps_tac.
Qed.
#[local] Hint Resolve keeps_icrlo : keeps.
Lemma keeps_lvt w value : keeps (lapic_write_lvt w value).
Proof. unfold lapic_write_lvt. keeps_tac. Qed.
#[local] Hint Resolve keeps_lvt : keeps.
Lemma keeps_lapic_write value reg : u32_ok value → keeps (lapic_write value reg).
Proof using pointers_ok.
  intros Hv. unfold lapic_write, debugger_enter. keeps_tac.
  all: apply set_w_ok; [unfold u32_ok in *; lia|done].
Qed.

(** The 8259A pair keeps its words, too. *)
Lemma keeps_on_pic {A} (f : M intlogic_t A) : (∀ l, il_ok l → wp (λ _, True) f (λ _ l', il_ok l') l) → keeps (on_pic f).
Proof.
  intros Hf s Hs. unfold on_pic, wp. destruct (zlookup (ap_vectors s) (ap_cur s)) as [w|] eqn:Hw; [|done].
  assert (il_ok (il_set_vectors w (ap_pic s))) as Hl.
  { destruct (wf_pic _ Hs). split; try done. by eapply forall_zlookup; [apply wf_vectors|]. }
  specialize (Hf _ Hl). unfold wp in Hf. destruct (f _) as [a l'|e]; [|done]. destruct Hf as [? ? ?], Hs. split; try done.
  by apply forall_zinsert.
Qed.
Lemma il_set_vector_ok b l : 0 ≤ Z.shiftr b 3 < 32 → il_ok l → il_ok (set_irq_vector b l).
Proof. intros Hb [? ? ?]. split; try done. by apply bit_set_ok. Qed.
Lemma il_clear_vector_ok b l : il_ok l → il_ok (clear_irq_vector b l).
Proof. intros [? ? ?]. split; try done. by apply bit_clear_ok. Qed.
Lemma il_set_chip_ok c p l : il_ok l → il_ok (set_chip c p l).
Proof. intros [? ? ?]. by destruct c. Qed.
Lemma il_signal_ok c b l : 0 ≤ b < 8 → il_ok l → il_ok (pic_signal c b l).
Proof.
  intros Hb Hl. unfold pic_signal. case_bool_decide; [|done]. apply il_set_vector_ok; [|done].
  rewrite Z.shiftr_div_pow2 by lia. change (2 ^ 3) with 8. destruct c; cbn [base]; split; (apply Z.div_pos; lia) || apply Z.div_lt_upper_bound; lia.
Qed.
Lemma keeps_pic_raise c irq : 0 ≤ irq < 256 → keeps (on_pic (pic_raise_irq c irq)).
Proof.
  intros Hi. apply keeps_on_pic. intros l Hl. unfold pic_raise_irq. apply wp_bind.
  destruct (decide (u32 (irq - base c) < 8)) as [Hb|Hb].
  2: { unfold massert. rewrite bool_decide_eq_false_2 by done. by apply wp_mfault. }
  unfold massert. rewrite bool_decide_eq_true_2 by done. apply wp_mret, wp_bind, wp_mmodify, wp_bind, wp_mmodify, wp_mmodify.
  pose proof (wrap_range 32 (irq - base c)). assert (irq < 16) as H16.
  { destruct c; cbn [base] in *; [rewrite wrap_small in Hb by lia; lia|]. destruct (decide (irq < 8)); [lia|]. rewrite wrap_small in Hb by lia. lia. }
  apply il_signal_ok; [lia|]. unfold pic_raise, upd_chip.
  destruct (il_set_chip_ok c (p_set_irr (bit_set (u32 (irq - base c)) (irq_request (get_chip c l))) (get_chip c l)) l Hl).
  split; try done. apply bit_set_ok; [lia|done].
Qed.
Lemma pic_pending_ok c l : il_ok l → il_ok (pic_pending_vector c l).2.
Proof.
  intros Hl. unfold pic_pending_vector. case_bool_decide; [by apply il_clear_vector_ok|]. cbn [snd].
  case_bool_decide; [apply il_clear_vector_ok|]; by apply il_set_chip_ok.
Qed.
Lemma keeps_pic_pending : keeps (on_pic (lift_il pending_vector)).
Proof.
  apply keeps_on_pic. intros l Hl. unfold lift_il, wp, pending_vector. case_bool_decide; [done|].
  destruct (if bool_decide (irq_request (master l) ≠ 0) then pic_pending_vector Master l else (None, l)) as [r l1] eqn:H1.
  assert (il_ok l1) as Hl1.
  { case_bool_decide; [|by simplify_eq]. pose proof (pic_pending_ok Master l Hl) as Hm. by rewrite H1 in Hm. }
  destruct r; [done|]. destruct (bool_decide (irq_request (slave l1) ≠ 0)); [|done]. pose proof (pic_pending_ok Slave l1 Hl1) as H2. by destruct (pic_pending_vector Slave l1).
Qed.
Lemma pic_reraise_ok c v l : il_ok l → il_ok (pic_reraise_vector c v l).
Proof.
  intros Hl. unfold pic_reraise_vector. destruct (bool_decide (v < _)) eqn:H1; [done|]. destruct (bool_decide (_ + 8 ≤ v)) eqn:H2; [done|].
  apply bool_decide_eq_false_1 in H1, H2. cbn [orb]. apply il_signal_ok; [lia|]. by apply il_set_chip_ok.
Qed.
Lemma keeps_pic_reraise v : keeps (on_pic (lift_il (λ l, (tt, reraise_vector v l)))).
Proof. apply keeps_on_pic. intros l Hl. unfold lift_il, wp, reraise_vector. by apply pic_reraise_ok, pic_reraise_ok. Qed.

Lemma keeps_get_ioapic hwirq : keeps (hwirq_get_ioapic hwirq).
Proof. unfold hwirq_get_ioapic. keeps_tac. case_match; keeps_tac. Qed.
#[local] Hint Resolve keeps_get_ioapic keeps_timer keeps_lapic_pending : keeps.
Lemma keeps_raise_irq irq : 0 ≤ irq < 256 → keeps (apic_raise_irq irq).
Proof using pointers_ok.
  intros Hi. unfold apic_raise_irq, debugger_enter. keeps_tac.
  - case_match; keeps_tac. apply keeps_ioapic_raise. unfold u32_ok. lia.
  - by apply keeps_pic_raise.
  - by apply keeps_pic_raise.
Qed.
Lemma keeps_pending : keeps apic_pending_vector.
Proof. unfold apic_pending_vector. keeps_tac. case_match; keeps_tac. apply keeps_pic_pending. Qed.
Lemma keeps_reraise v : 0 ≤ v → keeps (apic_reraise_vector v).
Proof using pointers_ok.
  intros Hv. unfold apic_reraise_vector. keeps_tac; [|apply keeps_pic_reraise].
  apply keeps_raise_vector; [done|unfold u32_ok; lia|done].
Qed.
Lemma keeps_register hwirq j : keeps (hwirq_register_ioapic hwirq j).
Proof.
  unfold hwirq_register_ioapic. keeps_tac. intros s [? ? ? ? Hl ?]. apply wp_mmodify. split; try done. cbn. by rewrite length_zinsert.
Qed.
#[local] Hint Resolve keeps_register : keeps.
Lemma keeps_register_gsis n : ∀ gsi j, keeps (register_gsis n gsi j).
Proof. induction n as [|n IH]; intros gsi j; cbn [register_gsis]; keeps_tac. Qed.
#[local] Hint Resolve keeps_register_gsis : keeps.
Lemma keeps_set_id j x : keeps (upd_io j (io_set_id x)).
Proof. apply keeps_upd_io. intros ? [? ? ? ?]. split; try done. cbn. apply set_f_ok; (done || lia). Qed.
Lemma keeps_init_ioapic sources start j : 0 ≤ j < 2 ^ 16 → keeps (init_ioapic sources start j).
Proof.
  intros Hj. unfold init_ioapic. keeps_tac; [apply keeps_set_id|..].
  - apply keeps_upd_io. intros ? [? ? ? ?]. split; try done. cbn. unfold u32_ok, gsi_per_ioapic. lia.
  - apply keeps_upd_io. intros ? [? ? ? ?]. split; try done. cbn. apply set_f_ok; (done || lia).
Qed.
Lemma keeps_for_ioapics (n : nat) body : ∀ j, (∀ i, j ≤ i < j + n → keeps (body i)) → keeps (for_ioapics n j body).
Proof.
  induction n as [|n IH]; intros j Hb; cbn [for_ioapics]; [apply keeps_mret|]. apply keeps_bind; [apply Hb; lia|]. intros _.
  apply IH. intros i Hi. apply Hb. lia.
Qed.
Lemma keeps_init sources vcpus : 0 ≤ sources < 2 ^ 16 → keeps (init_virtual_apics sources vcpus).
Proof.
  intros Hs. unfold init_virtual_apics. cbv zeta. apply keeps_if; [apply keeps_mfault|].
  set (nr := (sources + virtual_irq_sources) / gsi_per_ioapic + (if bool_decide ((sources + virtual_irq_sources) `mod` gsi_per_ioapic ≠ 0) then 1 else 0)).
  assert (0 ≤ nr < 2 ^ 16) as Hnr.
  { unfold nr, virtual_irq_sources, gsi_per_ioapic. assert (0 ≤ (sources + 10) / 24 < 2 ^ 15); [|case_match; lia].
    split; [apply Z.div_pos; lia|apply Z.div_lt_upper_bound; lia]. }
  apply keeps_bind; [|intros _].
  - apply keeps_for_ioapics. intros j Hj. apply keeps_init_ioapic. lia.
  - apply keeps_for_ioapics. intros j Hj. apply keeps_set_id.
Qed.

(** The calls into the interrupt logic: by devices, by the wedge, and by the guest
    through the registers of its local APIC and of the I/O APICs. *)
Inductive apic_call : Type :=
  | CInit (sources vcpus : Z)
  | CRaise (irq : Z)
  | CPending
  | CReraise (vector : Z)
  | CLapicWrite (value addr : Z)
  | CLapicRead (addr : Z)
  | CIoapicWrite (j value reg : Z)
  | CSwitch (vcpu : Z).            (** another virtual CPU runs *)
Definition call_ok (c : apic_call) : Prop :=
  match c with
  | CInit sources _ => 0 ≤ sources < 2 ^ 16
  | CRaise irq => 0 ≤ irq < 256
  | CReraise v => 0 ≤ v
  | CLapicWrite value _ | CIoapicWrite _ value _ => u32_ok value
  | _ => True
  end.
Definition run_call (c : apic_call) : M apic_t unit :=
  match c with
  | CInit sources vcpus => init_virtual_apics sources vcpus
  | CRaise irq => apic_raise_irq irq
  | CPending => apic_pending_vector;; mret tt
  | CReraise v => apic_reraise_vector v
  | CLapicWrite value addr => lapic_write_patch value addr
  | CLapicRead addr => lapic_read_patch addr;; mret tt
  | CIoapicWrite j value reg => ioapic_write j value reg
  | CSwitch d => mmodify (ap_set_cur d)
  end.
Fixpoint run_calls (cs : list apic_call) : M apic_t unit :=
  match cs with [] => mret tt | c :: cs => run_call c;; run_calls cs end.

Lemma keeps_check_id : keeps check_id.
Proof. unfold check_id. keeps_tac. Qed.
Lemma keeps_call c : call_ok c → keeps (run_call c).
Proof using pointers_ok.
  intros Hc. destruct c; cbn in Hc |- *.
  - by apply keeps_init.
  - by apply keeps_raise_irq.
  - apply keeps_bind; [apply keeps_pending|intros; apply keeps_mret].
  - by apply keeps_reraise.
  - apply keeps_bind; [apply keeps_check_id|intros _; by apply keeps_lapic_write].
  - apply keeps_bind; [|intros; apply keeps_mret]. unfold lapic_read_patch. keeps_tac. apply keeps_check_id.
  - by apply keeps_ioapic_write.
  - intros s [? ? ? ? ? ?]. by apply wp_mmodify.
Qed.

(** Whatever devices raise and the guest writes, every register of the local APICs,
    the I/O APICs and the CPUs' summary words is a 32-bit word, and the pages and
    tables keep their sizes. *)
Theorem apic_registers_typed cs s s' :
  apic_wf s → Forall call_ok cs → run_calls cs s = Ok tt s' → apic_wf s'.
Proof using pointers_ok.
  intros Hs Hcs. revert s Hs. induction Hcs as [|c cs Hc Hcs IH]; intros s Hs Hrun; [by injection Hrun as <-|].
  cbn [run_calls] in Hrun. apply bind_ok_inv in Hrun as ([] & s1 & Hrun1 & Hrun2).
  eapply IH; [|exact Hrun2]. exact (wp_ok _ _ _ _ _ _ (keeps_call c Hc s Hs) Hrun1).
Qed.
End types.
