(* ===== verification/ApicIrq.v ===== *)
(** * The virtual APICs: the way of an interrupt

    The set-up of the I/O APICs gives every interrupt source its controller. A
    level-triggered interrupt goes from the device through its redirection entry to
    the local APIC and, at the end of interrupt, back to the device. Two runs show
    where interrupts are lost. *)

From Stdlib Require Import ZArith Lia.
From stdpp Require Import base list gmap sets numbers.
From S2P Require Import Prelude Pic PicSpec Apic ApicSpec ApicTypes.

Section init.
Context {E : ApicEnv}.

(** ** [init_virtual_apics] *)

Lemma io_id_set x i : page_ok 144 (io_raw i) → 0 ≤ x < 16 → io_get_id (io_set_id x i) = x.
Proof.
  intros Hp Hx. unfold io_get_id, io_set_id, get_f, set_f. cbn [io_raw io_set_raw]. erewrite wd_upd_eq by (done || lia).
  rewrite bf_bf_set, Z.land_ones, Z.mod_small by lia. done.
Qed.

(** An I/O APIC set up for its part of the interrupts. *)
Definition gsi_count (sources j : Z) : Z := Z.min (gsi_per_ioapic * j + gsi_per_ioapic) sources - gsi_per_ioapic * j.
Definition configured (sources start j : Z) : i82093_t :=
  set_max_redir_entry (gsi_count sources j - 1) (io_set_irq_base (gsi_per_ioapic * j) (io_set_id (start + j) i82093_init)).

Lemma i82093_init_page : page_ok 144 (io_raw i82093_init).
Proof. unfold i82093_init. cbn [io_raw]. repeat (apply set_f_ok; [lia..|]). apply zero_page. Qed.
Lemma configured_id sources start j : 0 ≤ start + j < 16 → io_get_id (configured sources start j) = start + j.
Proof.
  intros Hj. etrans; [|apply (io_id_set (start + j) i82093_init); [apply i82093_init_page|done]].
  unfold configured, set_max_redir_entry, io_get_id, get_f, set_f, upd_wd. cbn [io_raw io_set_raw io_set_irq_base]. by rewrite wd_ne.
Qed.

Lemma register_gsis_ok (n : nat) : ∀ gsi j s i,
  zlookup (ap_ioapics s) j = Some i → is_valid_ioapic i = true → 0 ≤ gsi → gsi + n ≤ 256 → length (ap_hwirq_to_ioapic s) = 256%nat →
  ∃ hw, register_gsis n gsi j s = Ok tt (ap_set_hwirq_to_ioapic hw s) ∧ length hw = 256%nat ∧
    ∀ g, zlookup hw g = if decide (gsi ≤ g < gsi + n) then Some (Some j) else zlookup (ap_hwirq_to_ioapic s) g.
Proof.
  induction n as [|n IH]; intros gsi j s i Hi Hv Hg Hn Hl.
  { exists (ap_hwirq_to_ioapic s). cbn [register_gsis]. split_and!; [by destruct s|done|]. intros g. by rewrite decide_False by lia. }
  cbn [register_gsis]. set (s1 := ap_set_hwirq_to_ioapic (zinsert gsi (Some j) (ap_hwirq_to_ioapic s)) s).
  assert (hwirq_register_ioapic gsi j s = Ok tt s1) as Hrun.
  { unfold hwirq_register_ioapic, massert, load_io. rewrite bool_decide_eq_true_2 by lia. erewrite bind_ok by done. cbv beta.
    erewrite bind_ok by (unfold mgets, mbind, M_bind; cbn; by rewrite Hi). cbv beta. rewrite Hv. by erewrite bind_ok by done. }
  destruct (IH (gsi + 1) j s1 i) as (hw & Hr & Hlen & Hz); [done|done|lia|lia|cbn; by rewrite length_zinsert|].
  exists hw. split_and!; [|done|].
  - erewrite bind_ok by exact Hrun. cbv beta. rewrite Hr. done.
  - intros g. rewrite Hz. cbn. destruct (decide (g = gsi)) as [->|Hne].
    + rewrite decide_False, decide_True by lia. apply zlookup_zinsert_eq. lia.
    + rewrite zlookup_zinsert_ne by done. destruct (decide (gsi + 1 ≤ g < gsi + 1 + n)); [by rewrite decide_True by lia|by rewrite decide_False by lia].
Qed.

Lemma upd_io_run j i f s : zlookup (ap_ioapics s) j = Some i → upd_io j f s = Ok tt (ap_set_ioapics (zinsert j (f i) (ap_ioapics s)) s).
Proof. intros Hi. unfold upd_io, load_io. erewrite bind_ok by (unfold mgets, mbind, M_bind; cbn; by rewrite Hi). done. Qed.

(** The state after the first [k] I/O APICs were set up. *)
Record set_up (s0 : apic_t) (sources start k : Z) (s : apic_t) : Prop := {
  su_len : length (ap_ioapics s) = length (ap_ioapics s0);
  su_io : ∀ j, zlookup (ap_ioapics s) j = if decide (0 ≤ j < k) then Some (configured sources start j) else zlookup (ap_ioapics s0) j;
  su_hwlen : length (ap_hwirq_to_ioapic s) = 256%nat;
  su_hw : ∀ g, zlookup (ap_hwirq_to_ioapic s) g =
    if decide (0 ≤ g < Z.min (gsi_per_ioapic * k) sources) then Some (Some (g / gsi_per_ioapic)) else zlookup (ap_hwirq_to_ioapic s0) g;
  su_rest : ap_set_ioapics (ap_ioapics s0) (ap_set_hwirq_to_ioapic (ap_hwirq_to_ioapic s0) s) = s0
}.

Lemma init_ioapic_ok s0 sources start k s :
  set_up s0 sources start k s → zlookup (ap_ioapics s0) k = Some i82093_init → sources ≤ 256 → 0 ≤ k → gsi_per_ioapic * k < sources →
  0 ≤ start → start + k < 15 →
  ∃ s', init_ioapic sources start k s = Ok tt s' ∧ set_up s0 sources start (k + 1) s'.
Proof.
  intros [Hlen Hio Hhl Hhw Hrest] Hk Hs Hk0 Hks Hst Hid. unfold gsi_per_ioapic in *.
  assert (zlookup (ap_ioapics s) k = Some i82093_init) as Hk' by (rewrite Hio; by rewrite decide_False by lia).
  pose proof (zlookup_lt _ _ _ Hk') as Hkl. set (c := configured sources start k).
  set (s1 := ap_set_ioapics (zinsert k c (ap_ioapics s)) s).
  assert (is_valid_ioapic c = true) as Hv.
  { unfold is_valid_ioapic, c. rewrite configured_id by lia. apply bool_decide_eq_true_2. lia. }
  assert (zlookup (ap_ioapics s1) k = Some c) as Hc by (apply zlookup_zinsert_eq; lia).
  destruct (register_gsis_ok (Z.to_nat (gsi_count sources k)) (24 * k) k s1 c Hc Hv) as (hw & Hrun & Hl & Hz).
  { lia. } { unfold gsi_count, gsi_per_ioapic. lia. } { done. }
  exists (ap_set_hwirq_to_ioapic hw s1). split.
  - unfold init_ioapic. erewrite bind_ok by (by apply upd_io_run). cbv beta.
    erewrite bind_ok by (apply upd_io_run; cbn; apply zlookup_zinsert_eq; lia). cbv beta.
    erewrite bind_ok by (apply upd_io_run; cbn; apply zlookup_zinsert_eq; rewrite length_zinsert; lia). cbv beta.
    cbn [ap_ioapics ap_set_ioapics]. rewrite !zinsert_zinsert. unfold gsi_per_ioapic.
    replace (Z.min (24 * k + 24) sources - 1 - 24 * k + 1) with (gsi_count sources k) by (unfold gsi_count, gsi_per_ioapic; lia).
    replace (Z.min (24 * k + 24) sources - 1 - 24 * k) with (gsi_count sources k - 1) by (unfold gsi_count, gsi_per_ioapic; lia).
    exact Hrun.
  - split; cbn.
    + by rewrite length_zinsert.
    + intros j. destruct (decide (j = k)) as [->|Hne].
      * rewrite zlookup_zinsert_eq by lia. by rewrite decide_True by lia.
      * rewrite zlookup_zinsert_ne, Hio by done. destruct (decide (0 ≤ j < k)); [by rewrite decide_True by lia|by rewrite decide_False by lia].
    + done.
    + intros g. rewrite Hz. cbn. rewrite Hhw. unfold gsi_count, gsi_per_ioapic in *.
      destruct (decide (24 * k ≤ g < 24 * k + Z.to_nat (Z.min (24 * k + 24) sources - 24 * k))) as [Hg|Hg].
      * rewrite decide_True by lia. do 2 f_equal. apply Z.div_unique with (g - 24 * k); lia.
      * destruct (decide (0 ≤ g < Z.min (24 * k) sources)); [by rewrite decide_True by lia|by rewrite decide_False by lia].
    + rewrite <- Hrest at 3. by destruct s.
Qed.

Lemma for_ioapics_ok (n : nat) : ∀ k s0 sources start s,
  set_up s0 sources start k s → sources ≤ 256 → 0 ≤ k → gsi_per_ioapic * (k + n - 1) < sources → 0 ≤ start → start + k + n ≤ 15 →
  (∀ j, 0 ≤ j < k + n → zlookup (ap_ioapics s0) j = Some i82093_init) →
  ∃ s', for_ioapics n k (init_ioapic sources start) s = Ok tt s' ∧ set_up s0 sources start (k + n) s'.
Proof.
  induction n as [|n IH]; intros k s0 sources start s Hs Hsrc Hk Hlt Hst Hid Hi.
  { exists s. rewrite Z.add_0_r. by split. }
  destruct (init_ioapic_ok s0 sources start k s Hs) as (s1 & Hrun & Hs1); [apply Hi; lia|lia|lia|unfold gsi_per_ioapic in *; lia|lia|lia|].
  destruct (IH (k + 1) s0 sources start s1 Hs1) as (s2 & Hrun2 & Hs2); [lia|lia| |lia|lia|intros; apply Hi; lia|].
  { unfold gsi_per_ioapic in *. lia. }
  exists s2. cbn [for_ioapics]. split; [by erewrite bind_ok by exact Hrun|]. by replace (k + S n) with (k + 1 + n) by lia.
Qed.

Lemma mark_invalid_ok (n : nat) : ∀ k s, 0 ≤ k → k + n ≤ length (ap_ioapics s) →
  ∃ ios, for_ioapics n k (λ j, upd_io j (io_set_id 0xf)) s = Ok tt (ap_set_ioapics ios s) ∧
    ∀ j, zlookup ios j = if decide (k ≤ j < k + n) then io_set_id 0xf <$> zlookup (ap_ioapics s) j else zlookup (ap_ioapics s) j.
Proof.
  induction n as [|n IH]; intros k s Hk Hn.
  { exists (ap_ioapics s). split; [by destruct s|]. intros j. by rewrite decide_False by lia. }
  destruct (zlookup_is_Some (ap_ioapics s) k) as [i Hi]; [lia|].
  destruct (IH (k + 1) (ap_set_ioapics (zinsert k (io_set_id 0xf i) (ap_ioapics s)) s)) as (ios & Hrun & Hz); [lia|cbn; rewrite length_zinsert; lia|].
  exists ios. cbn [for_ioapics]. split; [erewrite bind_ok by (by apply upd_io_run); exact Hrun|].
  intros j. rewrite Hz. cbn. destruct (decide (j = k)) as [->|Hne].
  - rewrite decide_False, decide_True, zlookup_zinsert_eq, Hi by lia. done.
  - rewrite zlookup_zinsert_ne by done. destruct (decide (k + 1 ≤ j < k + 1 + n)); [by rewrite decide_True by lia|by rewrite decide_False by lia].
Qed.

Definition nr_ioapics (sources : Z) : Z :=
  sources / gsi_per_ioapic + (if bool_decide (sources `mod` gsi_per_ioapic ≠ 0) then 1 else 0).
Lemma nr_ioapics_spec sources : 0 < sources → 24 * (nr_ioapics sources - 1) < sources ≤ 24 * nr_ioapics sources.
Proof.
  intros Hs. unfold nr_ioapics, gsi_per_ioapic. pose proof (Z.div_mod sources 24). pose proof (Z.mod_pos_bound sources 24).
  case_bool_decide; lia.
Qed.
Lemma configured_max sources start j : 0 < gsi_count sources j ≤ 24 → get_max_redir_entry (configured sources start j) = gsi_count sources j - 1.
Proof.
  intros Hc. unfold configured, set_max_redir_entry, get_max_redir_entry, get_f, set_f. cbn [io_raw io_set_raw io_set_irq_base].
  erewrite (wd_upd_eq 144); [|apply set_f_ok; [lia..|apply i82093_init_page]|lia].
  rewrite bf_bf_set, Z.land_ones, Z.mod_small by lia. done.
Qed.

(** The interrupt [g] lies in the redirection table of [i]. *)
Definition serves (i : i82093_t) (g : Z) : Prop :=
  is_valid_ioapic i = true ∧ io_irq_base i ≤ g ≤ io_irq_base i + get_max_redir_entry i.

(** C20. The set-up of the I/O APICs divides the interrupt sources among them: every
    source has exactly one valid controller whose table contains it, the one it is
    registered with, other interrupts have none, and the controllers that are not
    needed are marked invalid. *)
Theorem init_apics_partition vcpus squash real :
  0 ≤ real → real + virtual_irq_sources ≤ 256 → nr_ioapics (real + virtual_irq_sources) < CONFIG_MAX_IOAPICS →
  Z.of_nat vcpus + 1 + nr_ioapics (real + virtual_irq_sources) ≤ 15 →
  ∃ s, init_virtual_apics real (Z.of_nat vcpus) (apic_boot vcpus squash) = Ok tt s ∧
    (∀ g, 0 ≤ g < real + virtual_irq_sources → ∃ j i, zlookup (ap_hwirq_to_ioapic s) g = Some (Some j) ∧
       zlookup (ap_ioapics s) j = Some i ∧ serves i g ∧ ∀ j' i', zlookup (ap_ioapics s) j' = Some i' → serves i' g → j' = j) ∧
    (∀ g, real + virtual_irq_sources ≤ g < 256 → zlookup (ap_hwirq_to_ioapic s) g = Some None) ∧
    ∀ j i, nr_ioapics (real + virtual_irq_sources) ≤ j → zlookup (ap_ioapics s) j = Some i → is_valid_ioapic i = false.
Proof.
  intros Hr H256 Hmax Hids. set (sources := real + virtual_irq_sources) in *. assert (0 < sources) as Hpos by (unfold sources, virtual_irq_sources; lia).
  pose proof (nr_ioapics_spec sources Hpos) as Hnr. set (nr := nr_ioapics sources) in *. set (s0 := apic_boot vcpus squash).
  assert (∀ j, 0 ≤ j < CONFIG_MAX_IOAPICS → zlookup (ap_ioapics s0) j = Some i82093_init) as Hio0 by (intros j Hj; apply zlookup_replicate; lia).
  assert (∀ g, 0 ≤ g < 256 → zlookup (ap_hwirq_to_ioapic s0) g = Some None) as Hhw0 by (intros g Hg; by apply zlookup_replicate).
  assert (set_up s0 sources (vcpus + 1) 0 s0) as Hs0.
  { split; try done; intros x; by rewrite decide_False by (unfold gsi_per_ioapic; lia). }
  destruct (for_ioapics_ok (Z.to_nat nr) 0 s0 sources (vcpus + 1) s0 Hs0) as (s1 & Hrun1 & [Hl1 Hio1 Hhl1 Hhw1 _]);
    [lia|lia|unfold gsi_per_ioapic; lia|lia|lia|intros; apply Hio0; lia|].
  replace (0 + Z.to_nat nr) with nr in * by lia.
  assert (length (ap_ioapics s1) = Z.to_nat CONFIG_MAX_IOAPICS) as Hl by (rewrite Hl1; apply length_replicate).
  destruct (mark_invalid_ok (Z.to_nat (CONFIG_MAX_IOAPICS - nr)) nr s1) as (ios & Hrun2 & Hz); [lia|lia|].
  exists (ap_set_ioapics ios s1). cbn [ap_ioapics ap_set_ioapics ap_hwirq_to_ioapic].
  assert (∀ j i, nr ≤ j → zlookup ios j = Some i → is_valid_ioapic i = false) as Hinv.
  { intros j i Hj Hi. rewrite Hz in Hi. destruct (decide (j < CONFIG_MAX_IOAPICS)).
    - rewrite decide_True, Hio1, decide_False, Hio0 in Hi by lia. injection Hi as <-. unfold is_valid_ioapic.
      rewrite io_id_set by (apply i82093_init_page || lia). done.
    - rewrite decide_False in Hi by lia. apply zlookup_lt in Hi. lia. }
  assert (∀ j, 0 ≤ j < nr → zlookup ios j = Some (configured sources (vcpus + 1) j)) as Hval.
  { intros j Hj. rewrite Hz, decide_False, Hio1, decide_True by lia. done. }
  assert (∀ j g, 0 ≤ j < nr → serves (configured sources (vcpus + 1) j) g ↔ 24 * j ≤ g < Z.min (24 * j + 24) sources) as Hsv.
  { intros j g Hj. unfold serves, is_valid_ioapic. rewrite configured_id, configured_max by (unfold gsi_count, gsi_per_ioapic; lia).
    rewrite bool_decide_eq_true_2 by lia. cbn. unfold gsi_count, gsi_per_ioapic. naive_solver lia. }
  split_and!; [| | |done].
  - unfold init_virtual_apics. fold sources. fold (nr_ioapics sources). fold nr. cbv zeta. rewrite bool_decide_eq_false_2 by lia.
    erewrite bind_ok by exact Hrun1. exact Hrun2.
  - intros g Hg. assert (0 ≤ g / 24 < nr) as Hj by (split; [apply Z.div_pos; lia|apply Z.div_lt_upper_bound; lia]).
    pose proof (Z.div_mod g 24 ltac:(lia)). pose proof (Z.mod_pos_bound g 24 ltac:(lia)).
    exists (g / 24), (configured sources (vcpus + 1) (g / 24)). split_and!.
    + rewrite Hhw1, decide_True by (unfold gsi_per_ioapic; lia). done.
    + by apply Hval.
    + apply Hsv; lia.
    + intros j' i' Hi' Hs'. destruct (decide (nr ≤ j')) as [Hge|Hlt].
      { destruct Hs' as [Hs' _]. by rewrite (Hinv _ _ Hge Hi') in Hs'. }
      pose proof (zlookup_lt _ _ _ Hi'). rewrite Hval in Hi' by lia. injection Hi' as <-. apply Hsv in Hs'; lia.
  - intros g Hg. rewrite Hhw1, decide_False by (unfold gsi_per_ioapic; lia). apply Hhw0. lia.
Qed.
End init.

(** ** A level-triggered interrupt *)

Section level.
Context {E : ApicEnv}.

Lemma shl1_pow n : 0 ≤ n < 32 → shl1 n = 2 ^ n.
Proof. intros Hn. unfold shl1. by rewrite land31, Z.mod_small, Z.shiftl_mul_pow2, Z.mul_1_l by lia. Qed.
Lemma lsb_pow n : 0 ≤ n < 32 → lsb (2 ^ n) = n.
Proof.
  intros Hn. assert (0 < 2 ^ n) by (apply Z.pow_pos_nonneg; lia). assert (2 ^ n < 2 ^ 32) by (apply Z.pow_lt_mono_r; lia).
  destruct (lsb_spec 32 (2 ^ n)) as (Hr & Hb & _); [lia|lia|]. rewrite Z.pow2_bits_eqb in Hb by lia. apply Z.eqb_eq in Hb. done.
Qed.
Lemma clear_pow n : 0 ≤ n → bit_clear n (2 ^ n) = 0.
Proof.
  intros Hn. apply Z.bits_inj'. intros k Hk. rewrite bit_clear_spec, Z.bits_0, Z.pow2_bits_eqb by lia.
  destruct (Z.eqb_spec n k) as [->|]; [by rewrite bool_decide_eq_true_2|done].
Qed.

(** The I/O APIC [i] sends interrupt [irq], level-triggered and not masked, as [v] to
    the current CPU alone. *)
Record routes (s : apic_t) (i : i82093_t) (irq v : Z) : Prop := {
  ro_page : page_ok 144 (io_raw i);
  ro_entry : 0 ≤ irq - io_irq_base i < 64;
  ro_valid : is_valid_ioapic i = true;
  ro_vec : r_vec (rw i (irq - io_irq_base i)) = v;
  ro_del : r_del (rw i (irq - io_irq_base i)) ≤ 1;
  ro_trg : r_trg (rw i (irq - io_irq_base i)) = 1;
  ro_msk : r_msk (rw i (irq - io_irq_base i)) = 0;
  ro_dstm : r_dstm (rw i (irq - io_irq_base i)) = 0;
  ro_dest : r_pdst (rw_hi i (irq - io_irq_base i)) = ap_cur s;
  ro_pnd : bit_test 17 (rw i (irq - io_irq_base i)) = false
}.
Definition cpus_ok (s : apic_t) : Prop := 0 ≤ ap_cur s < nr_vcpus s ∧ nr_vcpus s ≤ CONFIG_NR_VCPUS < 32.

Lemma dest_mask_cur s j i e :
  zlookup (ap_ioapics s) j = Some i → cpus_ok s → r_dstm (rw i e) = 0 → r_pdst (rw_hi i e) = ap_cur s →
  get_redir_entry_dest_mask j e false s = Ok (2 ^ ap_cur s) s.
Proof.
  intros Hi [Hc Hn] Hm Hd. unfold get_redir_entry_dest_mask, massert, load_io. rewrite bool_decide_eq_true_2 by lia.
  erewrite bind_ok by done. cbv beta. erewrite bind_ok by (unfold mgets, mbind, M_bind; cbn; by rewrite Hi). cbv beta.
  erewrite bind_ok by done. cbv beta zeta. rewrite Hm, Hd, bool_decide_eq_true_2 by done. unfold mret, M_ret. f_equal.
  rewrite !shl1_pow by lia. replace (2 ^ nr_vcpus s - 1) with (Z.ones (nr_vcpus s)) by (rewrite Z.ones_equiv; lia).
  rewrite Z.land_ones by lia. apply Z.mod_small. split; [apply Z.pow_nonneg; lia|apply Z.pow_lt_mono_r; lia].
Qed.
Lemma each_dest_zero fuel body : each_dest fuel 0 body = mret tt.
Proof. by destruct fuel. Qed.
Lemma each_dest_one (fuel : nat) n body (Q : unit → apic_t → Prop) s :
  (0 < fuel)%nat → 0 ≤ n < 32 → wp no_fault (body n) Q s → wp no_fault (each_dest fuel (2 ^ n) body) Q s.
Proof.
  intros Hf Hn Hb. assert (0 < 2 ^ n) by (apply Z.pow_pos_nonneg; lia). destruct fuel as [|fuel]; [lia|]. cbn [each_dest].
  rewrite bool_decide_eq_false_2 by lia. rewrite lsb_pow, clear_pow by lia. apply wp_bind. eapply wp_mono; [exact Hb|].
  intros [] s' HQ. rewrite each_dest_zero. by apply wp_mret.
Qed.

(** The words of an entry after a change of the bit for an interrupt out. *)
Lemma wd_upd_other raw i k f : i ≠ k → wd (upd_wd i f raw) k = wd raw k.
Proof. intros. unfold upd_wd. by apply wd_ne. Qed.
Lemma rw_upd i e f : page_ok 144 (io_raw i) → 0 ≤ e < 64 → rw (upd_rw e f i) e = f (rw i e).
Proof. intros Hp He. unfold rw, upd_rw. cbn. erewrite wd_upd_eq by (done || lia). done. Qed.
Lemma rw_hi_upd i e f : rw_hi (upd_rw e f i) e = rw_hi i e.
Proof. unfold rw_hi, upd_rw. cbn. rewrite wd_upd_other by lia. done. Qed.
Lemma valid_upd i e f : 0 ≤ e → is_valid_ioapic (upd_rw e f i) = is_valid_ioapic i.
Proof. intros He. unfold is_valid_ioapic, io_get_id, get_f, upd_rw. cbn [io_raw io_set_raw]. rewrite wd_upd_other by lia. done. Qed.
Lemma bf_bit_set lo n b w : 0 ≤ lo → 0 ≤ n → 0 ≤ b → (b < lo ∨ lo + n ≤ b) → bf lo n (bit_set b w) = bf lo n w.
Proof.
  intros ? ? ? Hb. apply Z.bits_inj'. intros k Hk. rewrite !bf_testbit by lia. destruct (decide (k < n)).
  - rewrite bit_set_spec, (bool_decide_eq_false_2 (lo + k = b)), orb_false_r by lia. done.
  - by rewrite bool_decide_eq_false_2 by lia.
Qed.

(** The entry while the interrupt is out: only bit 14 differs. *)
Lemma routes_out s i irq v : routes s i irq v → routes s (upd_rw (irq - io_irq_base i) (bit_set 14) i) irq v.
Proof.
  intros [Hp He Hv H1 H2 H3 H4 H5 H6 H7]. set (e := irq - io_irq_base i) in *.
  assert (io_irq_base (upd_rw e (bit_set 14) i) = io_irq_base i) as Hb by done.
  split; rewrite ?Hb; fold e; rewrite ?rw_upd, ?rw_hi_upd by done; try done.
  - apply upd_wd_ok; [done|]. intros. by apply bit_set_ok.
  - by rewrite valid_upd by lia.
  - unfold r_vec. rewrite bf_bit_set by lia. done.
  - unfold r_del. rewrite bf_bit_set by lia. done.
  - unfold r_trg. rewrite bf_bit_set by lia. done.
  - unfold r_msk. rewrite bf_bit_set by lia. done.
  - unfold r_dstm. rewrite bf_bit_set by lia. done.
  - unfold bit_test in *. rewrite bit_set_spec by lia. by rewrite H7.
Qed.
Lemma routes_state s s' i irq v : ap_cur s' = ap_cur s → routes s i irq v → routes s' i irq v.
Proof. intros Hc [? ? ? ? ? ? ? ? Hd ?]. split; try done. by rewrite Hc. Qed.
Lemma cpus_ok_state s s' : ap_cur s' = ap_cur s → length (ap_lapics s') = length (ap_lapics s) → cpus_ok s → cpus_ok s'.
Proof. unfold cpus_ok, nr_vcpus. intros -> ->. done. Qed.

(** The vector is raised by an I/O APIC that waits for the end of interrupt. *)
Definition level_raw (v irq j : Z) (raw : list Z) : list Z :=
  bit_set_rr v lapic_rr_tmr (set_w (w_ioapic v) (ioapic_ptr j) (bit_set_rr v lapic_rr_irr (set_w (w_pin v) irq raw))).
Lemma raise_level_at raw s v irq j (Q : unit → apic_t → Prop) :
  at_cur raw s → 32 ≤ v < 240 →
  (∀ s', at_cur (level_raw v irq j raw) s' → cur_only s s' →
     (∃ w, zlookup (ap_vectors s') (ap_cur s') = Some w ∧ w ≠ 0) → Q tt s') →
  wp no_fault (lapic_raise_vector (ap_cur s) v irq false true (Some j)) Q s.
Proof.
  intros Hat Hv HQ. unfold lapic_raise_vector.
  rewrite !(bool_decide_eq_true_2 (v ≤ 256)), !(bool_decide_eq_true_2 (v > 15)), !(bool_decide_eq_true_2 (v < 256)) by lia.
  apply wp_bind, wp_massert; [done|]. intros _. apply wp_bind, wp_bind, wp_massert; [done|]. intros _.
  eapply wp_upd_at; [exact Hat|done|]. intros s1 H1 C1 _. apply wp_bind. eapply wp_upd_at; [exact H1|symmetry; apply C1|].
  intros s2 H2 C2 _. apply wp_bind. unfold cpu_set_irq_vector. apply wp_bind, wp_in_word; [apply cluster_bit; lia|].
  pose proof H2 as [Hl2 [w Hw]]. eapply wp_upd_vectors; [exact Hw|].
  set (s3 := ap_set_vectors _ s2). assert (at_cur (bit_set_rr v lapic_rr_irr (set_w (w_pin v) irq raw)) s3) as H3.
  { split; [done|]. cbn. rewrite zlookup_zinsert_eq by (by eapply zlookup_lt). done. }
  assert (cur_only s2 s3) as C3. { split_and!; try done. intros d Hd. cbn. rewrite zlookup_zinsert_ne by done. done. }
  assert (cur_only s s3) as C by (etrans; [exact C1|]; etrans; [exact C2|exact C3]).
  apply wp_bind, wp_massert; [done|]. intros _. apply wp_bind. eapply wp_upd_at; [exact H3|symmetry; apply C|].
  intros s4 H4 C4 V4. eapply wp_upd_at; [exact H4|rewrite (proj1 C4); symmetry; apply C|]. intros s5 H5 C5 V5.
  assert (cur_only s3 s5) as C35 by (etrans; [exact C4|exact C5]).
  apply HQ; [exact H5|by etrans|]. exists (bit_set (Z.shiftr (v + 16) 3) w). rewrite V5, V4, (proj1 C35). cbn.
  split; [apply zlookup_zinsert_eq; by eapply zlookup_lt|]. intros Hz.
  pose proof (cluster_bit v ltac:(lia)) as Hcb. pose proof (bit_set_spec (Z.shiftr (v + 16) 3) w (Z.shiftr (v + 16) 3)) as Hb.
  rewrite Hz, Z.bits_0, bool_decide_eq_true_2, orb_true_r in Hb by done. discriminate Hb; lia.
Qed.
Lemma lrel_level T raw ls v irq j : lrel T raw ls → 32 ≤ v < 240 → u32_ok irq → u32_ok (ioapic_ptr j) →
  lrel ({[v]} ∪ T) (level_raw v irq j raw) (ls_step (LRaise v irq) ls).2.
Proof.
  intros Hl Hv Hirq Hptr. pose proof (lrel_raise T raw ls v irq Hl Hv Hirq) as Hl1. unfold level_raw.
  set (raw1 := bit_set_rr v lapic_rr_irr (set_w (w_pin v) irq raw)) in *. set (ls1 := (ls_step (LRaise v irq) ls).2) in *.
  pose proof Hl1 as [Hp Hirr Hisr Htmr Hpin Hr1 Hr2]. pose proof (w_ioapic_eq v).
  assert (page_ok 1024 (set_w (w_ioapic v) (ioapic_ptr j) raw1)) as Hp2 by (by apply set_w_ok).
  split; [by apply rr_set_ok; [lia|]|..|done|done].
  1-3: intros u Hu; rewrite bit_test_set, bit_test_set_w by (done || lia); sel_cases; rewrite ?Hirr, ?Hisr, ?Htmr, ?orb_false_r by lia; try done.
  - rewrite <- bool_decide_or. apply bool_decide_ext. clear. set_solver.
  - intros u Hu. pose proof (w_pin_eq u). rewrite wd_set_rr by (done || lia). unfold set_w. rewrite wd_ne by lia. by apply Hpin.
Qed.

(** Runs of the parts on real interrupts. *)
Lemma load_io_run s j i : zlookup (ap_ioapics s) j = Some i → load_io j s = Ok i s.
Proof. intros Hi. unfold load_io, mgets, mbind, M_bind. cbn. by rewrite Hi. Qed.
Lemma hw_set_mask_run irq s : 0 ≤ irq < 32 → hw_set_mask irq s = Ok tt (ap_set_pic (set_hwirq_mask irq (ap_pic s)) s).
Proof. intros Hi. unfold hw_set_mask, in_word. by rewrite bool_decide_eq_true_2. Qed.
Lemma get_ioapic_run s irq j i : zlookup (ap_hwirq_to_ioapic s) irq = Some (Some j) → zlookup (ap_ioapics s) j = Some i →
  is_valid_ioapic i = true → hwirq_get_ioapic irq s = Ok (Some j) s.
Proof.
  intros Ht Hi Hv. unfold hwirq_get_ioapic. erewrite bind_ok by done. cbv beta. rewrite Ht. erewrite bind_ok by done. cbv beta iota.
  erewrite bind_ok by (by apply load_io_run). cbv beta. by rewrite Hv.
Qed.
Lemma unmask_run s j i irq v : zlookup (ap_ioapics s) j = Some i → cpus_ok s → routes s i irq v → 0 ≤ irq < 32 →
  is_hwirq_squashed irq (ap_pic s) = false → bit_test irq (hwirq_mask (ap_pic s)) = true →
  unmask_device j (irq - io_irq_base i) irq s =
    Ok tt (ap_set_events (ap_events s ++ [AUnmask irq]) (ap_set_pic (clear_hwirq_mask irq (ap_pic s)) s)).
Proof.
  intros Hi Hc Hr Hirq Hsq Hm. unfold unmask_device, hw_is_squashed, hw_test_and_clear_mask.
  erewrite bind_ok by done. cbv beta. rewrite land31, Z.mod_small, Hsq by lia.
  erewrite bind_ok by (unfold in_word; rewrite bool_decide_eq_true_2 by done; done). cbv beta. rewrite Hm.
  set (s' := ap_set_pic _ s). erewrite bind_ok by (eapply (dest_mask_cur s'); [exact Hi|exact Hc|apply Hr|apply Hr]). cbv beta.
  destruct Hc as [Hc _]. assert (0 < 2 ^ ap_cur s') by (apply Z.pow_pos_nonneg; cbn; lia).
  rewrite (bool_decide_eq_true_2 (2 ^ ap_cur s' ≠ 0)) by lia. done.
Qed.
Lemma entry_small irq b : 0 ≤ irq - b < 64 → u32 (irq - b) = irq - b.
Proof. intros H. unfold u32. rewrite Z.mod_small; [done|]. lia. Qed.

(** The I/O APIC after the interrupt went out, and what does not change. *)
Definition out_entry (i : i82093_t) (irq : Z) : i82093_t := upd_rw (irq - io_irq_base i) (bit_set 14) i.
Lemma ioapic_raise_level raw s j i irq v (Q : unit → apic_t → Prop) :
  at_cur raw s → cpus_ok s → routes s i irq v → zlookup (ap_ioapics s) j = Some i → 32 ≤ v < 240 →
  (∀ s', at_cur (level_raw v irq j raw) s' → cur_only (ap_set_ioapics (zinsert j (out_entry i irq) (ap_ioapics s)) s) s' →
     (∃ w, zlookup (ap_vectors s') (ap_cur s') = Some w ∧ w ≠ 0) → Q tt s') →
  wp no_fault (ioapic_raise_irq j irq false) Q s.
Proof.
  intros Hat Hc Hr Hi Hv HQ. pose proof Hr as [Hp He Hval H1 H2 H3 H4 H5 H6 H7]. unfold ioapic_raise_irq.
  apply wp_bind. eapply wp_run; [by apply load_io_run|]. cbv zeta. rewrite entry_small by done. apply wp_bind, wp_massert.
  { rewrite bool_decide_eq_true_2; [done|]. unfold IOAPIC_MAX_REDIR_ENTRIES. lia. }
  intros _. rewrite H1, H3, H4, (bool_decide_eq_false_2 (v ≤ 15)), (bool_decide_eq_true_2 (_ ≤ 1)) by (done || lia).
  rewrite !(bool_decide_eq_true_2 (0 = 0)), !(bool_decide_eq_true_2 (1 = 1)) by done. cbn [andb].
  apply wp_bind. eapply wp_run; [by eapply dest_mask_cur|]. apply wp_bind. eapply wp_run; [by apply upd_io_run|].
  set (s1 := ap_set_ioapics _ s) in *. destruct Hc as [Hc1 Hc2]. apply each_dest_one; [lia|lia|].
  rewrite (bool_decide_eq_false_2 (CONFIG_NR_VCPUS ≤ ap_cur s)) by lia. apply wp_bind, wp_mret.
  change (ap_cur s) with (ap_cur s1). by apply (raise_level_at raw s1).
Qed.

(** Words outside the request registers and below the table of pins. *)
Lemma level_raw_low v irq j raw i : page_ok 1024 raw → u32_ok irq → u32_ok (ioapic_ptr j) → 0 ≤ v < 256 → i < 64 ∨ 160 ≤ i < 256 →
  wd (level_raw v irq j raw) i = wd raw i.
Proof.
  intros Hp Hirq Hj Hv Hi. pose proof (w_pin_eq v). pose proof (w_ioapic_eq v). unfold level_raw.
  assert (page_ok 1024 (bit_set_rr v lapic_rr_irr (set_w (w_pin v) irq raw))) by (apply rr_set_ok; [done|by apply set_w_ok]).
  rewrite wd_set_rr; [|by apply set_w_ok|done|lia]. unfold set_w at 1. rewrite wd_ne by lia.
  rewrite wd_set_rr; [|by apply set_w_ok|done|lia]. unfold set_w. by rewrite wd_ne by lia.
Qed.
Lemma level_raw_ioapic v irq j raw : page_ok 1024 raw → u32_ok irq → u32_ok (ioapic_ptr j) → 0 ≤ v < 256 →
  wd (level_raw v irq j raw) (w_ioapic v) = ioapic_ptr j.
Proof.
  intros Hp Hirq Hj Hv. pose proof (w_ioapic_eq v). unfold level_raw.
  assert (page_ok 1024 (bit_set_rr v lapic_rr_irr (set_w (w_pin v) irq raw))) by (apply rr_set_ok; [done|by apply set_w_ok]).
  rewrite wd_set_rr; [|by apply set_w_ok|done|lia]. unfold set_w at 1. erewrite wd_zinsert by (done || lia). by rewrite decide_True.
Qed.

Lemma raise_irq_level raw s j i irq v (Q : unit → apic_t → Prop) :
  at_cur raw s → page_ok 1024 raw → cpus_ok s → routes s i irq v → zlookup (ap_ioapics s) j = Some i →
  zlookup (ap_hwirq_to_ioapic s) irq = Some (Some j) → 0 < irq < 32 → 32 ≤ v < 240 → u32_ok (ioapic_ptr j) → is_virtual_wire raw = false →
  (∀ s', at_cur (level_raw v irq j raw) s' →
     cur_only (ap_set_ioapics (zinsert j (out_entry i irq) (ap_ioapics s)) (ap_set_pic (set_hwirq_mask irq (ap_pic s)) s)) s' →
     (∃ w, zlookup (ap_vectors s') (ap_cur s') = Some w ∧ w ≠ 0) → Q tt s') →
  wp no_fault (apic_raise_irq irq) Q s.
Proof.
  intros Hat Hp Hc Hr Hi Ht Hirq Hv Hj Hw HQ. unfold apic_raise_irq. apply wp_bind. eapply wp_run; [apply hw_set_mask_run; lia|].
  set (s1 := ap_set_pic _ s) in *. apply wp_bind. eapply (wp_cur_lapic raw); [done|]. rewrite (bool_decide_eq_false_2 (irq = 0)) by lia.
  apply wp_bind, wp_bind. eapply wp_run; [apply (get_ioapic_run s1 irq j i); [done..|apply Hr]|]. cbv beta iota.
  eapply (ioapic_raise_level raw s1); [done|done|by apply (routes_state s)|done|done|]. intros s2 Hat2 Hc2 Hz. apply wp_bind. eapply wp_cur_lapic; [exact Hat2|].
  assert (is_virtual_wire (level_raw v irq j raw) = false) as ->; [|apply wp_mret; by apply HQ].
  rewrite <- Hw. unfold is_virtual_wire, get_f. rewrite level_raw_low; try done; [unfold u32_ok; lia|lia|]. right. vm_compute. done.
Qed.

(** The highest of a set with a vector of a class above all others. *)
Lemma highest_above (X : gset Z) v : 32 ≤ v < 240 → (∀ u, u ∈ X → 0 < u ∧ u / 16 < v / 16) → highest ({[v]} ∪ X) = v.
Proof.
  intros Hv HX. assert (∀ u, u ∈ X → 0 < u < v) as Hlt.
  { intros u Hu%HX. destruct (decide (u < v)); [lia|]. pose proof (Z.div_le_mono v u 16). lia. }
  eapply is_top_eq; [apply highest_top|].
  - intros u [->%elem_of_singleton|Hu%Hlt]%elem_of_union; lia.
  - right. split_and!; [lia|lia|apply bool_decide_eq_true_2; set_solver|]. intros u Hu. apply bool_decide_eq_false_2.
    intros [->%elem_of_singleton|Hu'%Hlt]%elem_of_union; lia.
Qed.
Lemma highest_class (X : gset Z) c : 0 < c → (∀ u, u ∈ X → 32 ≤ u < 240 ∧ u / 16 < c) → highest X / 16 < c.
Proof. intros Hc HX. destruct (highest_in X) as [[-> _]|Hin%HX]; [intros u Hu%HX; lia|done|lia]. Qed.

(** The request reaches the wedge's query. *)
Lemma pending_level T raw s ls v (Q : option (Z * Z) → apic_t → Prop) :
  at_cur raw s → lrel T raw ls → lapic_get_id raw = ap_cur s → is_valid_lapic raw = true → lapic_is_enabled raw = true →
  (∃ w, zlookup (ap_vectors s) (ap_cur s) = Some w ∧ w ≠ 0) →
  highest (ls_irr ls) = v → highest (ls_isr ls) / 16 < v / 16 →
  (∀ s' raw', at_cur raw' s' → cur_only s s' → (∀ i, i < 64 ∨ 160 ≤ i → wd raw' i = wd raw i) →
     lrel T raw' (mk_ls (ls_irr ls ∖ {[v]}) ({[v]} ∪ ls_isr ls) (ls_pin ls)) → Q (Some (v, default 256 (ls_pin ls !! v))) s') →
  wp no_fault apic_pending_vector Q s.
Proof.
  intros Hat Hl Hid Hval Hen (w & Hw & Hnz) Hh Hcl HQ. unfold apic_pending_vector, get_irq_vectors.
  apply wp_bind, wp_bind, wp_mgets. rewrite Hw. apply wp_mret. rewrite bool_decide_eq_false_2 by done.
  apply wp_bind. eapply wp_cur_lapic; [exact Hat|]. apply wp_bind, wp_mgets, wp_bind, wp_massert; [by rewrite bool_decide_eq_true_2|].
  intros _. apply wp_bind, wp_massert; [by rewrite Hval|]. intros _. rewrite Hen. apply wp_bind. eapply wp_mono; [by apply pending_at|].
  cbn [ls_step]. rewrite Hh, bool_decide_eq_true_2 by done. cbn [fst snd]. intros r s' (-> & Hc & _ & raw' & Hat' & Hl' & Hf).
  apply wp_mret. by eapply HQ.
Qed.

(** Clearing a bit that was set takes the change back. *)
Lemma clear_set b w : 0 ≤ b → bit_test b w = false → bit_clear b (bit_set b w) = w.
Proof.
  intros Hb Hw. apply Z.bits_inj'. intros k Hk. rewrite bit_clear_spec, bit_set_spec by lia. unfold bit_test in Hw.
  destruct (decide (k = b)) as [->|]; [by rewrite !bool_decide_eq_true_2, Hw by done|].
  by rewrite !bool_decide_eq_false_2, orb_false_r, andb_true_r by done.
Qed.
Lemma out_entry_back i irq : page_ok 144 (io_raw i) → 0 ≤ irq - io_irq_base i < 64 → bit_test 14 (rw i (irq - io_irq_base i)) = false →
  upd_rw (irq - io_irq_base i) (bit_clear 14) (out_entry i irq) = i.
Proof.
  intros Hp He Hb. unfold out_entry, upd_rw. set (e := irq - io_irq_base i) in *. cbn [io_raw io_set_raw io_regsel io_regwin io_irq_base].
  destruct i as [sel win base raw]. unfold io_set_raw. cbn [io_raw io_regsel io_regwin io_irq_base] in *. f_equal.
  unfold upd_wd at 1. erewrite wd_upd_eq by (done || lia). unfold upd_wd. rewrite zinsert_zinsert. unfold rw in Hb. cbn [io_raw] in Hb.
  rewrite clear_set by (done || lia). destruct Hp as [Hl _]. destruct (zlookup_is_Some raw (16 + 2 * e)) as [x Hx]; [lia|].
  unfold wd. rewrite Hx. cbn. by apply zinsert_id.
Qed.
Lemma clear_set_mask irq l : 0 ≤ irq → bit_test irq (hwirq_mask l) = false → clear_hwirq_mask irq (set_hwirq_mask irq l) = l.
Proof. intros Hi Hm. unfold clear_hwirq_mask, set_hwirq_mask. destruct l; cbn in *. by rewrite clear_set. Qed.

(** The end of interrupt at the I/O APIC. *)
Lemma ioapic_eoi_run s j i irq v :
  cpus_ok s → routes s i irq v → zlookup (ap_ioapics s) j = Some (out_entry i irq) → 0 ≤ irq < 32 →
  bit_test 14 (rw i (irq - io_irq_base i)) = false →
  is_hwirq_squashed irq (ap_pic s) = false → bit_test irq (hwirq_mask (ap_pic s)) = true →
  ioapic_eoi j irq s = Ok tt (ap_set_events (ap_events s ++ [AUnmask irq])
    (ap_set_pic (clear_hwirq_mask irq (ap_pic s)) (ap_set_ioapics (zinsert j i (ap_ioapics s)) s))).
Proof.
  intros Hc Hr Hj Hirq H14 Hsq Hm. pose proof Hr as [Hp He Hval H1 H2 H3 H4 H5 H6 H7]. pose proof (zlookup_lt _ _ _ Hj).
  unfold ioapic_eoi. erewrite bind_ok by (by apply load_io_run). cbv beta zeta. change (io_irq_base (out_entry i irq)) with (io_irq_base i).
  rewrite entry_small by done. unfold massert. rewrite bool_decide_eq_true_2 by (unfold IOAPIC_MAX_REDIR_ENTRIES; lia).
  erewrite bind_ok by done. cbv beta. assert (bit_test 14 (rw (out_entry i irq) (irq - io_irq_base i)) = true) as ->.
  { unfold out_entry. rewrite rw_upd by done. unfold bit_test. rewrite bit_set_spec, bool_decide_eq_true_2 by (done || lia). apply orb_true_r. }
  erewrite bind_ok by (by apply upd_io_run). cbv beta. rewrite out_entry_back by done. set (s1 := ap_set_ioapics _ s).
  assert (zlookup (ap_ioapics s1) j = Some i) as Hj1 by (apply zlookup_zinsert_eq; lia).
  erewrite bind_ok by (apply (unmask_run s1 j i irq v); [done|done|by apply (routes_state s)|done..]). cbv beta.
  erewrite bind_ok by (by apply load_io_run). cbv beta. by rewrite H7.
Qed.

Lemma lapic_write_eoi_reg raw s x : at_cur raw s → lapic_get_id raw = ap_cur s → lapic_write x 0x0b0 s = lapic_write_eoi s.
Proof.
  intros [Ha _] Hid. unfold lapic_write. erewrite bind_ok by (unfold cur_lapic, load_lapic, mgets, mbind, M_bind; cbn; by rewrite Ha).
  cbv beta. erewrite bind_ok by done. cbv beta. rewrite (bool_decide_eq_true_2 (ap_cur s = _)) by done. erewrite bind_ok by done. cbv beta.
  rewrite !(bool_decide_eq_false_2 (0x0b0 = _)) by lia. by rewrite (bool_decide_eq_true_2 (0x0b0 = 0x0b0)).
Qed.
(** The stages of a delivery; [out] is the machine with the device masked and its
    entry waiting. *)
Section cycle.
Variables (s : apic_t) (raw : list Z) (ls : lapic_spec) (T : gset Z) (j : Z) (i : i82093_t) (irq v : Z).
Definition out : apic_t :=
  ap_set_ioapics (zinsert j (out_entry i irq) (ap_ioapics s)) (ap_set_pic (set_hwirq_mask irq (ap_pic s)) s).
Hypotheses (Hl : lrel T raw ls) (Hirq : 0 < irq < 32) (Hv : 32 ≤ v < 240) (Hptr : 0 < ioapic_ptr j < 2 ^ 32)
  (Hcl : ∀ u, u ∈ ls_irr ls ∪ ls_isr ls → u / 16 < v / 16).

Lemma cycle_pending s1 :
  at_cur (level_raw v irq j raw) s1 → cur_only out s1 → (∃ w, zlookup (ap_vectors s1) (ap_cur s1) = Some w ∧ w ≠ 0) →
  lapic_get_id raw = ap_cur s → is_valid_lapic raw = true → lapic_is_enabled raw = true →
  ∃ s2 raw2, apic_pending_vector s1 = Ok (Some (v, irq)) s2 ∧ cur_only out s2 ∧ at_cur raw2 s2 ∧
    wd raw2 (w_ioapic v) = ioapic_ptr j ∧ lapic_get_id raw2 = ap_cur s2 ∧
    lrel ({[v]} ∪ T) raw2 (mk_ls (ls_irr ls) ({[v]} ∪ ls_isr ls) (<[v := irq]> (ls_pin ls))).
Proof using Hl Hirq Hv Hptr Hcl.
  intros Hat1 Hc1 Hz Hid Hval Hen. pose proof (lr_page _ _ _ Hl) as Hp.
  pose proof (lr_irr_range _ _ _ Hl) as Hr1. pose proof (lr_isr_range _ _ _ Hl) as Hr2.
  assert (u32_ok irq) as Hirq32 by (unfold u32_ok; lia). assert (u32_ok (ioapic_ptr j)) as Hptr32 by (unfold u32_ok; lia).
  assert (∀ k, k < 64 → wd (level_raw v irq j raw) k = wd raw k) as Hlow by (intros; apply level_raw_low; (done || lia)).
  pose proof (lrel_level T raw ls v irq j Hl Hv Hirq32 Hptr32) as Hl1.
  assert (v ∉ ls_irr ls) as Hni by (intros Hin; specialize (Hcl v ltac:(set_solver)); lia).
  edestruct (λ Q H1 H2 H3 H5 H6 H7, wp_no_fault _ _ _ (pending_level _ _ s1 _ v Q Hat1 Hl1 H1 H2 H3 Hz H5 H6 H7)) as (r & s2 & Hrun & HQ).
  - rewrite (proj1 Hc1). change (ap_cur out) with (ap_cur s). rewrite <- Hid. unfold lapic_get_id, get_f. by rewrite Hlow.
  - rewrite <- Hval. unfold is_valid_lapic. by rewrite !Hlow.
  - rewrite <- Hen. unfold lapic_is_enabled. by rewrite Hlow.
  - apply highest_above; [done|]. intros u Hu. specialize (Hr1 u Hu). specialize (Hcl u ltac:(set_solver)). lia.
  - apply highest_class; [apply Z.div_str_pos; lia|]. intros u Hu. split; [by apply Hr2|]. apply Hcl. set_solver.
  - intros s2 raw2 Hat2 Hc2 Hf Hl2. instantiate (1 := λ r s2, r = Some (v, irq) ∧ cur_only out s2 ∧ ∃ raw2, at_cur raw2 s2 ∧
      wd raw2 (w_ioapic v) = ioapic_ptr j ∧ lapic_get_id raw2 = ap_cur s2 ∧
      lrel ({[v]} ∪ T) raw2 (mk_ls (ls_irr ls) ({[v]} ∪ ls_isr ls) (<[v := irq]> (ls_pin ls)))). cbn.
    split_and!; [by rewrite lookup_insert_eq|by etrans|]. exists raw2. split_and!; [done|..].
    + rewrite Hf; [apply level_raw_ioapic; (done || lia)|]. rewrite w_ioapic_eq. lia.
    + rewrite (id_frame _ _ Hf), (proj1 Hc2), (proj1 Hc1). change (ap_cur out) with (ap_cur s). rewrite <- Hid. unfold lapic_get_id, get_f. by rewrite Hlow.
    + cbn in Hl2. replace (({[v]} ∪ ls_irr ls) ∖ {[v]}) with (ls_irr ls) in Hl2; [exact Hl2|]. clear -Hni. set_solver.
  - destruct HQ as (-> & Hc2 & raw2 & ?). exists s2, raw2. split_and!; tauto.
Qed.

Lemma cycle_eoi s2 raw2 :
  at_cur raw2 s2 → cur_only out s2 → wd raw2 (w_ioapic v) = ioapic_ptr j → lapic_get_id raw2 = ap_cur s2 →
  lrel ({[v]} ∪ T) raw2 (mk_ls (ls_irr ls) ({[v]} ∪ ls_isr ls) (<[v := irq]> (ls_pin ls))) →
  cpus_ok s → routes s i irq v → zlookup (ap_ioapics s) j = Some i →
  is_hwirq_squashed irq (ap_pic s) = false → bit_test irq (hwirq_mask (ap_pic s)) = false →
  bit_test 14 (rw i (irq - io_irq_base i)) = false → v ∉ T →
  ∃ s3 raw3, lapic_write 0 0x0b0 s2 = Ok tt s3 ∧ ap_events s3 = ap_events s ++ [AUnmask irq] ∧
    ap_ioapics s3 = ap_ioapics s ∧ ap_pic s3 = ap_pic s ∧ at_cur raw3 s3 ∧
    lrel T raw3 (mk_ls (ls_irr ls) (ls_isr ls) (<[v := irq]> (ls_pin ls))).
Proof using Hl Hirq Hv Hptr Hcl.
  intros Hat2 Hc2 Hio Hid Hl2 Hc Hr Hi Hsq Hm H14 HT. pose proof (lr_isr_range _ _ _ Hl) as Hr2.
  assert (v ∉ ls_isr ls) as Hns by (intros Hin; specialize (Hcl v ltac:(set_solver)); lia).
  set (ls2 := mk_ls _ _ _) in Hl2. assert (highest (ls_isr ls2) = v) as Hh.
  { apply highest_above; [done|]. intros u Hu. specialize (Hr2 u Hu). specialize (Hcl u ltac:(set_solver)). lia. }
  edestruct (λ Q H1 H2, wp_no_fault _ _ _ (eoi_step _ _ s2 _ Q Hat2 Hl2 H1 H2)) as ([] & s3 & Hrun & HQ).
  - rewrite Hh. cbn. set_solver.
  - rewrite Hh. intros s' raw' Hat' Hc' Hl' Hf. rewrite bool_decide_eq_true_2 by set_solver.
    assert (cur_only out s') as (E1 & E2 & E3 & E4 & E5 & E6 & E7 & _) by (by etrans).
    assert (zlookup (ap_ioapics s') j = Some (out_entry i irq)) as Hj.
    { rewrite E2. cbn. apply zlookup_zinsert_eq. by eapply zlookup_lt. }
    unfold eoi_tail, get_ioapic, get_pin. rewrite Hio, (bool_decide_eq_false_2 (ioapic_ptr j = 0)) by lia.
    assert ((ioapic_ptr j - ioapic_base) / 4096 = j) as -> by (unfold ioapic_ptr; rewrite Z.add_simpl_l, Z.mul_comm, Z.div_mul; lia).
    rewrite (lr_pin _ _ _ Hl2) by lia. cbn. rewrite lookup_insert_eq. cbn.
    apply wp_bind. eapply wp_run; [by apply load_io_run|]. apply wp_bind, wp_massert.
    { unfold out_entry. rewrite valid_upd by (apply Hr). by rewrite (ro_valid _ _ _ _ Hr). }
    intros _. apply wp_bind, wp_massert; [rewrite bool_decide_eq_true_2; [done|lia]|]. intros _.
    eapply wp_run.
    + apply (ioapic_eoi_run s' j i irq v); try done; [by apply (cpus_ok_state s)|by apply (routes_state s)|lia|..]; rewrite E4; cbn; [done|].
      unfold bit_test. rewrite bit_set_spec, bool_decide_eq_true_2 by (done || lia). apply orb_true_r.
    + instantiate (1 := λ _ s3, ap_events s3 = ap_events s ++ [AUnmask irq] ∧ ap_ioapics s3 = ap_ioapics s ∧ ap_pic s3 = ap_pic s ∧
        ∃ raw3, at_cur raw3 s3 ∧ lrel T raw3 (mk_ls (ls_irr ls) (ls_isr ls) (<[v := irq]> (ls_pin ls)))).
      cbn. rewrite E2, E4, E6. cbn. split_and!; [done|by rewrite zinsert_zinsert; apply zinsert_id|apply clear_set_mask; (done || lia)|].
      exists raw'. split; [done|]. replace (({[v]} ∪ T) ∖ {[v]}) with T in Hl' by (clear -HT; set_solver). cbn in Hl', Hh. rewrite Hh in Hl'.
      replace (({[v]} ∪ ls_isr ls) ∖ {[v]}) with (ls_isr ls) in Hl'; [exact Hl'|]. clear -Hns. set_solver.
  - destruct HQ as (? & ? & ? & raw3 & ? & ?). exists s3, raw3. split_and!; try done. by rewrite (lapic_write_eoi_reg raw2).
Qed.
End cycle.

(** C10. The way of a level-triggered interrupt [irq] that the I/O APIC [j] sends as
    vector [v] to the current CPU, in a class above everything requested or in
    service there: the device raises it, the wedge's query delivers it with its
    interrupt number while the device stays masked, and the end of interrupt unmasks
    the device and leaves the I/O APIC, the interrupt logic and the request registers
    as they were before. *)
Theorem apic_level_cycle s raw ls T j i irq v :
  at_cur raw s → lrel T raw ls → lapic_get_id raw = ap_cur s → is_valid_lapic raw = true → lapic_is_enabled raw = true →
  is_virtual_wire raw = false → cpus_ok s → routes s i irq v → zlookup (ap_ioapics s) j = Some i →
  zlookup (ap_hwirq_to_ioapic s) irq = Some (Some j) → 0 < irq < 32 → 32 ≤ v < 240 → 0 < ioapic_ptr j < 2 ^ 32 →
  is_hwirq_squashed irq (ap_pic s) = false → bit_test irq (hwirq_mask (ap_pic s)) = false →
  bit_test 14 (rw i (irq - io_irq_base i)) = false → v ∉ T →
  (∀ u, u ∈ ls_irr ls ∪ ls_isr ls → u / 16 < v / 16) →
  ∃ s1 s2 s3 raw3,
    apic_raise_irq irq s = Ok tt s1 ∧
    apic_pending_vector s1 = Ok (Some (v, irq)) s2 ∧ ap_events s2 = ap_events s ∧ bit_test irq (hwirq_mask (ap_pic s2)) = true ∧
    lapic_write 0 0x0b0 s2 = Ok tt s3 ∧ ap_events s3 = ap_events s ++ [AUnmask irq] ∧
    ap_ioapics s3 = ap_ioapics s ∧ ap_pic s3 = ap_pic s ∧
    at_cur raw3 s3 ∧ lrel T raw3 (mk_ls (ls_irr ls) (ls_isr ls) (<[v := irq]> (ls_pin ls))).
Proof.
  intros Hat Hl Hid Hval Hen Hvw Hc Hr Hi Ht Hirq Hv Hptr Hsq Hm H14 HT Hcl.
  assert (u32_ok (ioapic_ptr j)) as Hptr32 by (unfold u32_ok; lia).
  destruct (wp_no_fault _ _ _ (raise_irq_level raw s j i irq v
    (λ _ s1, at_cur (level_raw v irq j raw) s1 ∧ cur_only (out s j i irq) s1 ∧ ∃ w, zlookup (ap_vectors s1) (ap_cur s1) = Some w ∧ w ≠ 0)
    Hat (lr_page _ _ _ Hl) Hc Hr Hi Ht Hirq Hv Hptr32 Hvw ltac:(done))) as ([] & s1 & Hrun1 & Hat1 & Hc1 & Hz1).
  destruct (cycle_pending s raw ls T j i irq v Hl Hirq Hv Hptr Hcl s1 Hat1 Hc1 Hz1 Hid Hval Hen) as (s2 & raw2 & Hrun2 & Hc2 & Hat2 & Hio2 & Hid2 & Hl2).
  destruct (cycle_eoi s raw ls T j i irq v Hl Hirq Hv Hptr Hcl s2 raw2 Hat2 Hc2 Hio2 Hid2 Hl2 Hc Hr Hi Hsq Hm H14 HT) as (s3 & raw3 & Hrun3 & He & Hio & Hpic & Hat3 & Hl3).
  exists s1, s2, s3, raw3. destruct Hc2 as (_ & _ & _ & Ep & _ & Ee & _). split_and!; try done. rewrite Ep. cbn. unfold bit_test.
  rewrite bit_set_spec, bool_decide_eq_true_2 by (done || lia). apply orb_true_r.
Qed.
End level.
