(* ===== verification/ApicRuns.v ===== *)
(** * The virtual APICs: runs

    A machine with two virtual CPUs and 24 real interrupts, the runs on it that meet
    the hypotheses of the theorems on APICs, and the runs in which requests are lost or
    registers overrun. *)

From Stdlib Require Import ZArith Lia.
From stdpp Require Import base list gmap sets numbers.
From S2P Require Import Prelude Pic PicSpec Apic ApicSpec ApicTypes ApicIrq.

#[local] Instance pc_env : ApicEnv := {| CONFIG_NR_VCPUS := 2; CONFIG_MAX_IOAPICS := 4; ioapic_base := 0x100000 |}.

(** ** The machine *)

Lemma apic_boot_wf vcpus squash : apic_wf (apic_boot vcpus squash).
Proof.
  unfold apic_boot. split; cbn [ap_lapics ap_vectors ap_ioapics ap_hwirq_to_ioapic ap_pic].
  - apply Forall_fmap, Forall_true. intros k. unfold compose. apply lapic_init_page.
  - apply Forall_replicate. unfold u32_ok. lia.
  - apply Forall_replicate. split; [apply i82093_init_page|unfold i82093_init, u32_ok; cbn [io_regsel io_regwin io_irq_base]; lia..].
  - by rewrite length_replicate.
  - apply length_replicate.
  - cbn. unfold u32_ok. lia.
Qed.

(** The guest masks LINT0, so that the 8259A pair is off, and programs the entry of
    interrupt 5: level-triggered, vector 0x41, to CPU 0. *)
Definition guest_setup : M apic_t unit :=
  init_virtual_apics 24 2;; lapic_write_patch 0x10000 0x350;;
  ioapic_write 0 (16 + 2 * 5) 0;; ioapic_write 0 0x8041 0x10.
Definition run_state {S A} (d : S) (m : M S A) (s : S) : S := match m s with Ok _ s' => s' | Err _ => d end.
Definition pc : apic_t := run_state (apic_boot 2 0) guest_setup (apic_boot 2 0).
Definition page0 : list Z := default [] (zlookup (ap_lapics pc) 0).
Definition io0 : i82093_t := default i82093_init (zlookup (ap_ioapics pc) 0).

Definition masked_lint0 : list Z :=
  set_f W_LINT0 0 8 0 (set_f W_LINT0 8 3 0 (set_f W_LINT0 13 1 0 (set_f W_LINT0 15 1 0 (set_f W_LINT0 16 1 1 (lapic_init 0 true))))).
Lemma page0_eq : page0 = masked_lint0.
Proof. vm_compute. reflexivity. Qed.

(** Words below the table of pins and outside the request registers do not count. *)
Lemma lrel_words T raw raw' ls : lrel T raw ls → page_ok 1024 raw' → (∀ i, 64 ≤ i < 160 ∨ 256 ≤ i → wd raw' i = wd raw i) → lrel T raw' ls.
Proof.
  intros [Hp Hirr Hisr Htmr Hpin Hr1 Hr2] Hp' Hw. split; try done.
  1-3: intros u Hu; unfold bit_test_rr; rewrite Hw by (left; by apply sb_range); by (apply Hirr || apply Hisr || apply Htmr).
  intros u Hu. pose proof (w_pin_eq u). rewrite Hw by lia. by apply Hpin.
Qed.
Lemma page0_rel : lrel ∅ page0 (mk_ls ∅ ∅ ∅).
Proof.
  rewrite page0_eq. eapply lrel_words; [apply (lrel_init 0 true)| |].
  - unfold masked_lint0. repeat (apply set_f_ok; [lia..|]). apply lapic_init_page.
  - intros i Hi. assert (W_LINT0 = 212) as Hw by reflexivity. unfold masked_lint0, set_f, upd_wd. rewrite Hw, !wd_ne by lia. done.
Qed.
Lemma page0_at : at_cur page0 pc.
Proof. split; [|eexists]; vm_compute; reflexivity. Qed.
Lemma page0_id : lapic_get_id page0 = ap_cur pc.
Proof. vm_compute. reflexivity. Qed.

Lemma io0_page : page_ok 144 (io_raw io0).
Proof. split; [vm_compute; reflexivity|]. apply (bool_decide_eq_true_1 (Forall (λ w, 0 ≤ w < 2 ^ 32) (io_raw io0))). vm_compute. reflexivity. Qed.
Lemma io0_routes : routes pc io0 5 0x41.
Proof. split; [apply io0_page|..]; vm_compute; first [reflexivity|discriminate|split; (discriminate || reflexivity)]. Qed.

(** ** Witnesses *)

Ltac calc := vm_compute; reflexivity.

Lemma lapic_refines_witness :
  ∃ s' raw', lops_run [LRaise 0x41 5; LRaise 0x52 7; LPending; LPending; LEoi; LPending; LReraise 0x41; LPending] pc =
      Ok [None; None; Some (0x52, 7); None; None; Some (0x41, 5); None; Some (0x41, 5)] s' ∧ at_cur raw' s'.
Proof.
  destruct (lapic_refines [LRaise 0x41 5; LRaise 0x52 7; LPending; LPending; LEoi; LPending; LReraise 0x41; LPending]
    pc page0 (mk_ls ∅ ∅ ∅) page0_at page0_rel page0_id) as (s' & raw' & Hrun & _ & Hat & _).
  - repeat constructor; cbn; unfold u32_ok; lia.
  - exists s', raw'. split; [|exact Hat]. rewrite Hrun. vm_compute. reflexivity.
Defined.

Lemma pc_pointers : 0 < ioapic_base ∧ ioapic_base + 4096 * CONFIG_MAX_IOAPICS ≤ 2 ^ 32.
Proof. vm_compute. split; [reflexivity|discriminate]. Qed.
Definition traffic : list apic_call :=
  [CInit 24 2; CLapicWrite 0x10000 0x350; CIoapicWrite 0 26 0; CIoapicWrite 0 0x8041 0x10;
   CRaise 5; CPending; CLapicWrite 0 0xb0; CIoapicWrite 0 0x12345 0x10].
Definition after_traffic : apic_t := run_state pc (run_calls traffic) (apic_boot 2 0).
Lemma traffic_runs : run_calls traffic (apic_boot 2 0) = Ok tt after_traffic.
Proof. vm_compute. reflexivity. Qed.
Lemma apic_registers_typed_witness : apic_wf after_traffic.
Proof.
  refine (apic_registers_typed pc_pointers traffic (apic_boot 2 0) after_traffic (apic_boot_wf 2 0) _ traffic_runs).
  repeat constructor; cbn; unfold u32_ok; lia.
Defined.

Lemma init_apics_partition_witness : ∃ s, init_virtual_apics 24 2 (apic_boot 2 0) = Ok tt s ∧
  zlookup (ap_hwirq_to_ioapic s) 40 = Some None ∧ ∃ j i, zlookup (ap_hwirq_to_ioapic s) 30 = Some (Some j) ∧ serves i 30.
Proof.
  destruct (init_apics_partition 2 0 24) as (s & Hrun & Hs & Hn & _); [lia|vm_compute; discriminate|vm_compute; reflexivity|vm_compute; discriminate|].
  exists s. split; [exact Hrun|]. split; [apply Hn; vm_compute; split; (reflexivity || discriminate)|].
  destruct (Hs 30) as (j & i & Hj & _ & Hi & _); [vm_compute; split; (reflexivity || discriminate)|]. by exists j, i.
Defined.

Lemma apic_level_cycle_witness : ∃ s1 s2 s3, apic_raise_irq 5 pc = Ok tt s1 ∧ apic_pending_vector s1 = Ok (Some (0x41, 5)) s2 ∧
  lapic_write 0 0x0b0 s2 = Ok tt s3 ∧ ap_events s3 = ap_events pc ++ [AUnmask 5] ∧ ap_ioapics s3 = ap_ioapics pc.
Proof.
  destruct (apic_level_cycle pc page0 (mk_ls ∅ ∅ ∅) ∅ 0 io0 5 0x41 page0_at page0_rel page0_id) as (s1 & s2 & s3 & _ & H1 & H2 & _ & _ & H3 & H4 & H5 & _);
    [calc|calc|calc| |exact io0_routes|calc|calc|lia|lia| |calc|calc|calc| | |].
  - vm_compute. split; split; (reflexivity || discriminate).
  - vm_compute. split; reflexivity.
  - apply not_elem_of_empty.
  - intros u Hu. exfalso. revert Hu. cbn. clear. set_solver.
  - exists s1, s2, s3. split_and!; assumption.
Defined.

(** ** Requests that are lost, registers that overrun *)

Definition same_group : M apic_t (option (Z * Z)) :=
  lops_run [LRaise 0x41 5; LPending; LRaise 0x42 6; LEoi];; apic_pending_vector.
(** A request of the group of vectors whose summary bit the end of interrupt clears is
    not found any more, although it is the highest and nothing is in service. *)
Theorem eoi_hides_request :
  (∃ s, same_group pc = Ok None s ∧ bit_test_rr 0x42 lapic_rr_irr (default [] (zlookup (ap_lapics s) 0)) = true) ∧
  (ls_run [LRaise 0x41 5; LPending; LRaise 0x42 6; LEoi; LPending] (mk_ls ∅ ∅ ∅)).1 !! 4%nat = Some (Some (0x42, 6)).
Proof. split; [eexists; split|]; calc. Qed.

Definition ipi : M apic_t (option (Z * Z)) :=
  lapic_write (Z.shiftl 1 24) 0x310;; lapic_write 0x50 0x300;; mmodify (ap_set_cur 1);; apic_pending_vector.
(** An interrupt between processors: CPU 0 sends vector 0x50 to CPU 1, whose request
    register has it, but the summary word that is set is that of the sender. *)
Theorem ipi_not_seen :
  ∃ s, ipi pc = Ok None s ∧ bit_test_rr 0x50 lapic_rr_irr (default [] (zlookup (ap_lapics s) 1)) = true ∧ ap_vectors s = [0x1000; 0].
Proof. eexists. split_and!; calc. Qed.

(** A vector of the highest class, an interrupt number above 31 of a virtual source
    and a write to the version register reach beyond their word or table. *)
Theorem apic_overruns :
  lapic_raise_vector 0 0xf0 5 false false None pc = Err OutOfBounds ∧
  apic_raise_irq 33 pc = Err OutOfBounds ∧ zlookup (ap_hwirq_to_ioapic pc) 33 = Some (Some 1) ∧
  (ioapic_write 0 1 0;; ioapic_write 0 0 0x10) pc = Err OutOfBounds.
Proof. split_and!; calc. Qed.
