(* ===== verification/Ide.v ===== *)
(** * The IDE disks of the wedge

    Models afterburn-wedge/device/ide.h and ide.cc in the configuration with
    programmed I/O only (CONFIG_DEVICE_I82371AB off): the registers and commands of the
    four drives, and the client of the block server behind them. The guest talks to the
    drives through ports; the drives pass requests to the block server in a ring of
    descriptors; a thread of the wedge takes the answers from the ring. The locks of
    the ring return without locking in the source. The block server (Block.v and the
    files after it) is here what its interface says: it reads or writes the sectors of
    a request on the disk of the connection, and gives the descriptor back. *)

From Stdlib Require Import ZArith Lia.
From stdpp Require Import base list numbers strings.
From S2P Require Import Prelude Pic.

Definition IDE_MAX_DEVICES : Z := 4.
Definition IDE_MAX_READ_WRITE_MULTIPLE : Z := 8.
Definition IDE_SECTOR_SIZE : Z := 512.
Definition IDE_IOBUFFER_SIZE : Z := 65536.
Definition IDE_IOBUFFER_BLOCKS : Z := IDE_IOBUFFER_SIZE / IDE_SECTOR_SIZE.
Definition IVMblock_descriptor_ring_size : nat := 400.

Definition IDE_CMD_DATA_NONE : Z := 0.
Definition IDE_CMD_DATA_OUT : Z := 1.
Definition IDE_CMD_DATA_IN : Z := 2.

(** ** A drive *)

(** Registers are bytes, [dv_io_buffer] the bytes of the buffer. *)
Record ide_device_t : Type := mk_dev {
  dv_reg_status : Z;
  dv_reg_error : Z;
  dv_reg_device : Z;
  dv_reg_dev_control : Z;
  dv_reg_feature : Z;
  dv_reg_lba_high : Z;
  dv_reg_lba_mid : Z;
  dv_reg_lba_low : Z;
  dv_reg_nsector : Z;
  dv_reg_alt_status : Z;
  dv_io_buffer : list Z;
  dv_io_buffer_index : Z;
  dv_io_buffer_size : Z;
  dv_serial : list Z;
  dv_lba_sector : Z;
  dv_cylinder : Z;
  dv_head : Z;
  dv_sector : Z;
  dv_data_transfer : Z;
  dv_req_sectors : Z;
  dv_mult_sectors : Z;
  dv_udma_mode : Z;
  dv_dma : Z;
  dv_present : bool;
  dv_cdrom : bool
}.
Definition dv_set_reg_status (x : Z) (d : ide_device_t) : ide_device_t :=
  mk_dev x (dv_reg_error d) (dv_reg_device d) (dv_reg_dev_control d) (dv_reg_feature d)
    (dv_reg_lba_high d) (dv_reg_lba_mid d) (dv_reg_lba_low d) (dv_reg_nsector d) (dv_reg_alt_status d)
    (dv_io_buffer d) (dv_io_buffer_index d) (dv_io_buffer_size d) (dv_serial d) (dv_lba_sector d)
    (dv_cylinder d) (dv_head d) (dv_sector d) (dv_data_transfer d) (dv_req_sectors d) (dv_mult_sectors d)
    (dv_udma_mode d) (dv_dma d) (dv_present d) (dv_cdrom d).
Definition dv_set_reg_error (x : Z) (d : ide_device_t) : ide_device_t :=
  mk_dev (dv_reg_status d) x (dv_reg_device d) (dv_reg_dev_control d) (dv_reg_feature d)
    (dv_reg_lba_high d) (dv_reg_lba_mid d) (dv_reg_lba_low d) (dv_reg_nsector d) (dv_reg_alt_status d)
    (dv_io_buffer d) (dv_io_buffer_index d) (dv_io_buffer_size d) (dv_serial d) (dv_lba_sector d)
    (dv_cylinder d) (dv_head d) (dv_sector d) (dv_data_transfer d) (dv_req_sectors d) (dv_mult_sectors d)
    (dv_udma_mode d) (dv_dma d) (dv_present d) (dv_cdrom d).
Definition dv_set_reg_device (x : Z) (d : ide_device_t) : ide_device_t :=
  mk_dev (dv_reg_status d) (dv_reg_error d) x (dv_reg_dev_control d) (dv_reg_feature d)
    (dv_reg_lba_high d) (dv_reg_lba_mid d) (dv_reg_lba_low d) (dv_reg_nsector d) (dv_reg_alt_status d)
    (dv_io_buffer d) (dv_io_buffer_index d) (dv_io_buffer_size d) (dv_serial d) (dv_lba_sector d)
    (dv_cylinder d) (dv_head d) (dv_sector d) (dv_data_transfer d) (dv_req_sectors d) (dv_mult_sectors d)
    (dv_udma_mode d) (dv_dma d) (dv_present d) (dv_cdrom d).
Definition dv_set_reg_dev_control (x : Z) (d : ide_device_t) : ide_device_t :=
  mk_dev (dv_reg_status d) (dv_reg_error d) (dv_reg_device d) x (dv_reg_feature d) (dv_reg_lba_high d)
    (dv_reg_lba_mid d) (dv_reg_lba_low d) (dv_reg_nsector d) (dv_reg_alt_status d) (dv_io_buffer d)
    (dv_io_buffer_index d) (dv_io_buffer_size d) (dv_serial d) (dv_lba_sector d) (dv_cylinder d)
    (dv_head d) (dv_sector d) (dv_data_transfer d) (dv_req_sectors d) (dv_mult_sectors d) (dv_udma_mode d)
    (dv_dma d) (dv_present d) (dv_cdrom d).
Definition dv_set_reg_feature (x : Z) (d : ide_device_t) : ide_device_t :=
  mk_dev (dv_reg_status d) (dv_reg_error d) (dv_reg_device d) (dv_reg_dev_control d) x (dv_reg_lba_high d)
    (dv_reg_lba_mid d) (dv_reg_lba_low d) (dv_reg_nsector d) (dv_reg_alt_status d) (dv_io_buffer d)
    (dv_io_buffer_index d) (dv_io_buffer_size d) (dv_serial d) (dv_lba_sector d) (dv_cylinder d)
    (dv_head d) (dv_sector d) (dv_data_transfer d) (dv_req_sectors d) (dv_mult_sectors d) (dv_udma_mode d)
    (dv_dma d) (dv_present d) (dv_cdrom d).
Definition dv_set_reg_lba_high (x : Z) (d : ide_device_t) : ide_device_t :=
  mk_dev (dv_reg_status d) (dv_reg_error d) (dv_reg_device d) (dv_reg_dev_control d) (dv_reg_feature d) x
    (dv_reg_lba_mid d) (dv_reg_lba_low d) (dv_reg_nsector d) (dv_reg_alt_status d) (dv_io_buffer d)
    (dv_io_buffer_index d) (dv_io_buffer_size d) (dv_serial d) (dv_lba_sector d) (dv_cylinder d)
    (dv_head d) (dv_sector d) (dv_data_transfer d) (dv_req_sectors d) (dv_mult_sectors d) (dv_udma_mode d)
    (dv_dma d) (dv_present d) (dv_cdrom d).
Definition dv_set_reg_lba_mid (x : Z) (d : ide_device_t) : ide_device_t :=
  mk_dev (dv_reg_status d) (dv_reg_error d) (dv_reg_device d) (dv_reg_dev_control d) (dv_reg_feature d)
    (dv_reg_lba_high d) x (dv_reg_lba_low d) (dv_reg_nsector d) (dv_reg_alt_status d) (dv_io_buffer d)
    (dv_io_buffer_index d) (dv_io_buffer_size d) (dv_serial d) (dv_lba_sector d) (dv_cylinder d)
    (dv_head d) (dv_sector d) (dv_data_transfer d) (dv_req_sectors d) (dv_mult_sectors d) (dv_udma_mode d)
    (dv_dma d) (dv_present d) (dv_cdrom d).
Definition dv_set_reg_lba_low (x : Z) (d : ide_device_t) : ide_device_t :=
  mk_dev (dv_reg_status d) (dv_reg_error d) (dv_reg_device d) (dv_reg_dev_control d) (dv_reg_feature d)
    (dv_reg_lba_high d) (dv_reg_lba_mid d) x (dv_reg_nsector d) (dv_reg_alt_status d) (dv_io_buffer d)
    (dv_io_buffer_index d) (dv_io_buffer_size d) (dv_serial d) (dv_lba_sector d) (dv_cylinder d)
    (dv_head d) (dv_sector d) (dv_data_transfer d) (dv_req_sectors d) (dv_mult_sectors d) (dv_udma_mode d)
    (dv_dma d) (dv_present d) (dv_cdrom d).
Definition dv_set_reg_nsector (x : Z) (d : ide_device_t) : ide_device_t :=
  mk_dev (dv_reg_status d) (dv_reg_error d) (dv_reg_device d) (dv_reg_dev_control d) (dv_reg_feature d)
    (dv_reg_lba_high d) (dv_reg_lba_mid d) (dv_reg_lba_low d) x (dv_reg_alt_status d) (dv_io_buffer d)
    (dv_io_buffer_index d) (dv_io_buffer_size d) (dv_serial d) (dv_lba_sector d) (dv_cylinder d)
    (dv_head d) (dv_sector d) (dv_data_transfer d) (dv_req_sectors d) (dv_mult_sectors d) (dv_udma_mode d)
    (dv_dma d) (dv_present d) (dv_cdrom d).
Definition dv_set_reg_alt_status (x : Z) (d : ide_device_t) : ide_device_t :=
  mk_dev (dv_reg_status d) (dv_reg_error d) (dv_reg_device d) (dv_reg_dev_control d) (dv_reg_feature d)
    (dv_reg_lba_high d) (dv_reg_lba_mid d) (dv_reg_lba_low d) (dv_reg_nsector d) x (dv_io_buffer d)
    (dv_io_buffer_index d) (dv_io_buffer_size d) (dv_serial d) (dv_lba_sector d) (dv_cylinder d)
    (dv_head d) (dv_sector d) (dv_data_transfer d) (dv_req_sectors d) (dv_mult_sectors d) (dv_udma_mode d)
    (dv_dma d) (dv_present d) (dv_cdrom d).
Definition dv_set_io_buffer (x : list Z) (d : ide_device_t) : ide_device_t :=
  mk_dev (dv_reg_status d) (dv_reg_error d) (dv_reg_device d) (dv_reg_dev_control d) (dv_reg_feature d)
    (dv_reg_lba_high d) (dv_reg_lba_mid d) (dv_reg_lba_low d) (dv_reg_nsector d) (dv_reg_alt_status d) x
    (dv_io_buffer_index d) (dv_io_buffer_size d) (dv_serial d) (dv_lba_sector d) (dv_cylinder d)
    (dv_head d) (dv_sector d) (dv_data_transfer d) (dv_req_sectors d) (dv_mult_sectors d) (dv_udma_mode d)
    (dv_dma d) (dv_present d) (dv_cdrom d).
Definition dv_set_io_buffer_index (x : Z) (d : ide_device_t) : ide_device_t :=
  mk_dev (dv_reg_status d) (dv_reg_error d) (dv_reg_device d) (dv_reg_dev_control d) (dv_reg_feature d)
    (dv_reg_lba_high d) (dv_reg_lba_mid d) (dv_reg_lba_low d) (dv_reg_nsector d) (dv_reg_alt_status d)
    (dv_io_buffer d) x (dv_io_buffer_size d) (dv_serial d) (dv_lba_sector d) (dv_cylinder d) (dv_head d)
    (dv_sector d) (dv_data_transfer d) (dv_req_sectors d) (dv_mult_sectors d) (dv_udma_mode d) (dv_dma d)
    (dv_present d) (dv_cdrom d).
Definition dv_set_io_buffer_size (x : Z) (d : ide_device_t) : ide_device_t :=
  mk_dev (dv_reg_status d) (dv_reg_error d) (dv_reg_device d) (dv_reg_dev_control d) (dv_reg_feature d)
    (dv_reg_lba_high d) (dv_reg_lba_mid d) (dv_reg_lba_low d) (dv_reg_nsector d) (dv_reg_alt_status d)
    (dv_io_buffer d) (dv_io_buffer_index d) x (dv_serial d) (dv_lba_sector d) (dv_cylinder d) (dv_head d)
    (dv_sector d) (dv_data_transfer d) (dv_req_sectors d) (dv_mult_sectors d) (dv_udma_mode d) (dv_dma d)
    (dv_present d) (dv_cdrom d).
Definition dv_set_serial (x : list Z) (d : ide_device_t) : ide_device_t :=
  mk_dev (dv_reg_status d) (dv_reg_error d) (dv_reg_device d) (dv_reg_dev_control d) (dv_reg_feature d)
    (dv_reg_lba_high d) (dv_reg_lba_mid d) (dv_reg_lba_low d) (dv_reg_nsector d) (dv_reg_alt_status d)
    (dv_io_buffer d) (dv_io_buffer_index d) (dv_io_buffer_size d) x (dv_lba_sector d) (dv_cylinder d)
    (dv_head d) (dv_sector d) (dv_data_transfer d) (dv_req_sectors d) (dv_mult_sectors d) (dv_udma_mode d)
    (dv_dma d) (dv_present d) (dv_cdrom d).
Definition dv_set_lba_sector (x : Z) (d : ide_device_t) : ide_device_t :=
  mk_dev (dv_reg_status d) (dv_reg_error d) (dv_reg_device d) (dv_reg_dev_control d) (dv_reg_feature d)
    (dv_reg_lba_high d) (dv_reg_lba_mid d) (dv_reg_lba_low d) (dv_reg_nsector d) (dv_reg_alt_status d)
    (dv_io_buffer d) (dv_io_buffer_index d) (dv_io_buffer_size d) (dv_serial d) x (dv_cylinder d)
    (dv_head d) (dv_sector d) (dv_data_transfer d) (dv_req_sectors d) (dv_mult_sectors d) (dv_udma_mode d)
    (dv_dma d) (dv_present d) (dv_cdrom d).
Definition dv_set_cylinder (x : Z) (d : ide_device_t) : ide_device_t :=
  mk_dev (dv_reg_status d) (dv_reg_error d) (dv_reg_device d) (dv_reg_dev_control d) (dv_reg_feature d)
    (dv_reg_lba_high d) (dv_reg_lba_mid d) (dv_reg_lba_low d) (dv_reg_nsector d) (dv_reg_alt_status d)
    (dv_io_buffer d) (dv_io_buffer_index d) (dv_io_buffer_size d) (dv_serial d) (dv_lba_sector d) x
    (dv_head d) (dv_sector d) (dv_data_transfer d) (dv_req_sectors d) (dv_mult_sectors d) (dv_udma_mode d)
    (dv_dma d) (dv_present d) (dv_cdrom d).
Definition dv_set_head (x : Z) (d : ide_device_t) : ide_device_t :=
  mk_dev (dv_reg_status d) (dv_reg_error d) (dv_reg_device d) (dv_reg_dev_control d) (dv_reg_feature d)
    (dv_reg_lba_high d) (dv_reg_lba_mid d) (dv_reg_lba_low d) (dv_reg_nsector d) (dv_reg_alt_status d)
    (dv_io_buffer d) (dv_io_buffer_index d) (dv_io_buffer_size d) (dv_serial d) (dv_lba_sector d)
    (dv_cylinder d) x (dv_sector d) (dv_data_transfer d) (dv_req_sectors d) (dv_mult_sectors d)
    (dv_udma_mode d) (dv_dma d) (dv_present d) (dv_cdrom d).
Definition dv_set_sector (x : Z) (d : ide_device_t) : ide_device_t :=
  mk_dev (dv_reg_status d) (dv_reg_error d) (dv_reg_device d) (dv_reg_dev_control d) (dv_reg_feature d)
    (dv_reg_lba_high d) (dv_reg_lba_mid d) (dv_reg_lba_low d) (dv_reg_nsector d) (dv_reg_alt_status d)
    (dv_io_buffer d) (dv_io_buffer_index d) (dv_io_buffer_size d) (dv_serial d) (dv_lba_sector d)
    (dv_cylinder d) (dv_head d) x (dv_data_transfer d) (dv_req_sectors d) (dv_mult_sectors d)
    (dv_udma_mode d) (dv_dma d) (dv_present d) (dv_cdrom d).
Definition dv_set_data_transfer (x : Z) (d : ide_device_t) : ide_device_t :=
  mk_dev (dv_reg_status d) (dv_reg_error d) (dv_reg_device d) (dv_reg_dev_control d) (dv_reg_feature d)
    (dv_reg_lba_high d) (dv_reg_lba_mid d) (dv_reg_lba_low d) (dv_reg_nsector d) (dv_reg_alt_status d)
    (dv_io_buffer d) (dv_io_buffer_index d) (dv_io_buffer_size d) (dv_serial d) (dv_lba_sector d)
    (dv_cylinder d) (dv_head d) (dv_sector d) x (dv_req_sectors d) (dv_mult_sectors d) (dv_udma_mode d)
    (dv_dma d) (dv_present d) (dv_cdrom d).
Definition dv_set_req_sectors (x : Z) (d : ide_device_t) : ide_device_t :=
  mk_dev (dv_reg_status d) (dv_reg_error d) (dv_reg_device d) (dv_reg_dev_control d) (dv_reg_feature d)
    (dv_reg_lba_high d) (dv_reg_lba_mid d) (dv_reg_lba_low d) (dv_reg_nsector d) (dv_reg_alt_status d)
    (dv_io_buffer d) (dv_io_buffer_index d) (dv_io_buffer_size d) (dv_serial d) (dv_lba_sector d)
    (dv_cylinder d) (dv_head d) (dv_sector d) (dv_data_transfer d) x (dv_mult_sectors d) (dv_udma_mode d)
    (dv_dma d) (dv_present d) (dv_cdrom d).
Definition dv_set_mult_sectors (x : Z) (d : ide_device_t) : ide_device_t :=
  mk_dev (dv_reg_status d) (dv_reg_error d) (dv_reg_device d) (dv_reg_dev_control d) (dv_reg_feature d)
    (dv_reg_lba_high d) (dv_reg_lba_mid d) (dv_reg_lba_low d) (dv_reg_nsector d) (dv_reg_alt_status d)
    (dv_io_buffer d) (dv_io_buffer_index d) (dv_io_buffer_size d) (dv_serial d) (dv_lba_sector d)
    (dv_cylinder d) (dv_head d) (dv_sector d) (dv_data_transfer d) (dv_req_sectors d) x (dv_udma_mode d)
    (dv_dma d) (dv_present d) (dv_cdrom d).
Definition dv_set_udma_mode (x : Z) (d : ide_device_t) : ide_device_t :=
  mk_dev (dv_reg_status d) (dv_reg_error d) (dv_reg_device d) (dv_reg_dev_control d) (dv_reg_feature d)
    (dv_reg_lba_high d) (dv_reg_lba_mid d) (dv_reg_lba_low d) (dv_reg_nsector d) (dv_reg_alt_status d)
    (dv_io_buffer d) (dv_io_buffer_index d) (dv_io_buffer_size d) (dv_serial d) (dv_lba_sector d)
    (dv_cylinder d) (dv_head d) (dv_sector d) (dv_data_transfer d) (dv_req_sectors d) (dv_mult_sectors d)
    x (dv_dma d) (dv_present d) (dv_cdrom d).
Definition dv_set_dma (x : Z) (d : ide_device_t) : ide_device_t :=
  mk_dev (dv_reg_status d) (dv_reg_error d) (dv_reg_device d) (dv_reg_dev_control d) (dv_reg_feature d)
    (dv_reg_lba_high d) (dv_reg_lba_mid d) (dv_reg_lba_low d) (dv_reg_nsector d) (dv_reg_alt_status d)
    (dv_io_buffer d) (dv_io_buffer_index d) (dv_io_buffer_size d) (dv_serial d) (dv_lba_sector d)
    (dv_cylinder d) (dv_head d) (dv_sector d) (dv_data_transfer d) (dv_req_sectors d) (dv_mult_sectors d)
    (dv_udma_mode d) x (dv_present d) (dv_cdrom d).
Definition dv_set_present (x : bool) (d : ide_device_t) : ide_device_t :=
  mk_dev (dv_reg_status d) (dv_reg_error d) (dv_reg_device d) (dv_reg_dev_control d) (dv_reg_feature d)
    (dv_reg_lba_high d) (dv_reg_lba_mid d) (dv_reg_lba_low d) (dv_reg_nsector d) (dv_reg_alt_status d)
    (dv_io_buffer d) (dv_io_buffer_index d) (dv_io_buffer_size d) (dv_serial d) (dv_lba_sector d)
    (dv_cylinder d) (dv_head d) (dv_sector d) (dv_data_transfer d) (dv_req_sectors d) (dv_mult_sectors d)
    (dv_udma_mode d) (dv_dma d) x (dv_cdrom d).
Definition dv_set_cdrom (x : bool) (d : ide_device_t) : ide_device_t :=
  mk_dev (dv_reg_status d) (dv_reg_error d) (dv_reg_device d) (dv_reg_dev_control d) (dv_reg_feature d)
    (dv_reg_lba_high d) (dv_reg_lba_mid d) (dv_reg_lba_low d) (dv_reg_nsector d) (dv_reg_alt_status d)
    (dv_io_buffer d) (dv_io_buffer_index d) (dv_io_buffer_size d) (dv_serial d) (dv_lba_sector d)
    (dv_cylinder d) (dv_head d) (dv_sector d) (dv_data_transfer d) (dv_req_sectors d) (dv_mult_sectors d)
    (dv_udma_mode d) (dv_dma d) (dv_present d) x.

(** The bits of the status, error, device and control registers. *)
Definition ST_ERR : Z := 0.
Definition ST_DRQ : Z := 3.
Definition ST_DSC : Z := 4.
Definition ST_DRDY : Z := 6.
Definition ST_BSY : Z := 7.
Definition ER_ABRT : Z := 2.
Definition DV_DEV : Z := 4.
Definition DV_LBA : Z := 6.
Definition DC_NIEN : Z := 1.
Definition DC_SRST : Z := 2.

Definition get_sector (d : ide_device_t) : Z :=
  Z.lor (Z.lor (Z.lor (dv_reg_lba_low d) (Z.shiftl (dv_reg_lba_mid d) 8)) (Z.shiftl (dv_reg_lba_high d) 16))
    (Z.shiftl (Z.land (dv_reg_device d) 0x0f) 24).
Definition set_sector (sec : Z) (d : ide_device_t) : ide_device_t :=
  dv_set_reg_device (u8 (Z.lor (Z.land (dv_reg_device d) 0xf0) (Z.shiftr sec 24)))
    (dv_set_reg_lba_high (u8 (Z.shiftr sec 16)) (dv_set_reg_lba_mid (u8 (Z.shiftr sec 8)) (dv_set_reg_lba_low (u8 sec) d))).
Definition set_cmd_wait (d : ide_device_t) : ide_device_t :=
  dv_set_reg_error 0 (dv_set_reg_status (bit_set ST_DSC (bit_set ST_DRDY 0)) d).
Definition set_data_wait (d : ide_device_t) : ide_device_t :=
  dv_set_reg_error 0 (dv_set_reg_status (bit_set ST_DSC (bit_set ST_DRDY (bit_set ST_DRQ 0))) d).
Definition abort_command (d : ide_device_t) : ide_device_t :=
  let st := bit_set ST_DRDY (bit_set ST_ERR 0) in
  dv_set_reg_error (bit_set ER_ABRT 0) (dv_set_reg_alt_status st (dv_set_reg_status st d)).
Definition set_signature (d : ide_device_t) : ide_device_t :=
  let d := dv_set_reg_lba_low 0x1 (dv_set_reg_device 0x00 (dv_set_reg_nsector 0x01 (dv_set_reg_error 0x01 d))) in
  if dv_cdrom d then dv_set_reg_lba_high 0xeb (dv_set_reg_lba_mid 0x14 d)
  else dv_set_reg_lba_high 0x00 (dv_set_reg_lba_mid 0x00 d).
Definition init_device (d : ide_device_t) : ide_device_t :=
  dv_set_udma_mode 0 (dv_set_dma 0 (dv_set_reg_error 0 (dv_set_reg_alt_status 0 (dv_set_reg_status 0 d)))).
Definition calculate_chs (d : ide_device_t) : ide_device_t :=
  let max := dv_lba_sector d / 1008 in
  dv_set_cylinder (if bool_decide (max > 16383) then 16383 else max) (dv_set_sector 63 (dv_set_head 16 d)).
Definition bsy (d : ide_device_t) : ide_device_t := dv_set_reg_status (bit_set ST_BSY (dv_reg_status d)) d.

(** A half-word of a buffer, little-endian. *)
Definition get16 (b : list Z) (i : Z) : option Z :=
  lo ← zlookup b i; hi ← zlookup b (i + 1); Some (lo + 256 * hi).
Definition put16 (b : list Z) (i v : Z) : option (list Z) :=
  if bool_decide (0 ≤ i ∧ i + 1 < length b) then Some (zinsert (i + 1) (u8 (Z.shiftr v 8)) (zinsert i (u8 v) b)) else None.

(** ** The controller *)

(** [rd_page] is the physical address of the buffer of a drive, named by the drive. *)
Record rdesc : Type := mk_rd {
  rd_handle : Z;
  rd_size : Z;
  rd_offset : Z;
  rd_page : Z;
  rd_client_data : option Z;
  rd_do_write : bool;
  rd_server_owned : bool;
  rd_server_err : bool
}.
Inductive ide_event : Type :=
  | IRaise (irq : Z)                (** [intlogic_t::raise_irq] *)
  | INotify                         (** the block server is notified *)
  | IVirtual (irq : Z)              (** the interrupt becomes a virtual one and is not squashed any more *)
  | IThread                         (** the thread of [ide_irq_loop] starts *)
  | IDebugger.                      (** [DEBUGGER_ENTER], after which execution goes on *)

(** Drive [d] is drive [d mod 2] of channel [d / 2]. [id_disks] are the disks behind
    the connections of the block server. *)
Record ide_t : Type := mk_ide {
  id_devs : list ide_device_t;
  id_current : list Z;
  id_handle : Z;
  id_ring : list rdesc;
  id_start_free : Z;
  id_start_dirty : Z;
  id_irq_status : Z;
  id_irq_pending : bool;
  id_client_irq_pending : bool;
  id_disks : list (list Z);
  id_events : list ide_event
}.
Definition id_set_devs (x : list ide_device_t) (s : ide_t) : ide_t :=
  mk_ide x (id_current s) (id_handle s) (id_ring s) (id_start_free s) (id_start_dirty s) (id_irq_status s)
    (id_irq_pending s) (id_client_irq_pending s) (id_disks s) (id_events s).
Definition id_set_current (x : list Z) (s : ide_t) : ide_t :=
  mk_ide (id_devs s) x (id_handle s) (id_ring s) (id_start_free s) (id_start_dirty s) (id_irq_status s)
    (id_irq_pending s) (id_client_irq_pending s) (id_disks s) (id_events s).
Definition id_set_handle (x : Z) (s : ide_t) : ide_t :=
  mk_ide (id_devs s) (id_current s) x (id_ring s) (id_start_free s) (id_start_dirty s) (id_irq_status s)
    (id_irq_pending s) (id_client_irq_pending s) (id_disks s) (id_events s).
Definition id_set_ring (x : list rdesc) (s : ide_t) : ide_t :=
  mk_ide (id_devs s) (id_current s) (id_handle s) x (id_start_free s) (id_start_dirty s) (id_irq_status s)
    (id_irq_pending s) (id_client_irq_pending s) (id_disks s) (id_events s).
Definition id_set_start_free (x : Z) (s : ide_t) : ide_t :=
  mk_ide (id_devs s) (id_current s) (id_handle s) (id_ring s) x (id_start_dirty s) (id_irq_status s)
    (id_irq_pending s) (id_client_irq_pending s) (id_disks s) (id_events s).
Definition id_set_start_dirty (x : Z) (s : ide_t) : ide_t :=
  mk_ide (id_devs s) (id_current s) (id_handle s) (id_ring s) (id_start_free s) x (id_irq_status s)
    (id_irq_pending s) (id_client_irq_pending s) (id_disks s) (id_events s).
Definition id_set_irq_status (x : Z) (s : ide_t) : ide_t :=
  mk_ide (id_devs s) (id_current s) (id_handle s) (id_ring s) (id_start_free s) (id_start_dirty s) x
    (id_irq_pending s) (id_client_irq_pending s) (id_disks s) (id_events s).
Definition id_set_irq_pending (x : bool) (s : ide_t) : ide_t :=
  mk_ide (id_devs s) (id_current s) (id_handle s) (id_ring s) (id_start_free s) (id_start_dirty s)
    (id_irq_status s) x (id_client_irq_pending s) (id_disks s) (id_events s).
Definition id_set_client_irq_pending (x : bool) (s : ide_t) : ide_t :=
  mk_ide (id_devs s) (id_current s) (id_handle s) (id_ring s) (id_start_free s) (id_start_dirty s)
    (id_irq_status s) (id_irq_pending s) x (id_disks s) (id_events s).
Definition id_set_disks (x : list (list Z)) (s : ide_t) : ide_t :=
  mk_ide (id_devs s) (id_current s) (id_handle s) (id_ring s) (id_start_free s) (id_start_dirty s)
    (id_irq_status s) (id_irq_pending s) (id_client_irq_pending s) x (id_events s).
Definition id_set_events (x : list ide_event) (s : ide_t) : ide_t :=
  mk_ide (id_devs s) (id_current s) (id_handle s) (id_ring s) (id_start_free s) (id_start_dirty s)
    (id_irq_status s) (id_irq_pending s) (id_client_irq_pending s) (id_disks s) x.

Abbreviation MI := (M ide_t).

Definition id_emit (e : ide_event) : MI unit := mmodify (λ s, id_set_events (id_events s ++ [e]) s).
Definition debugger : MI unit := id_emit IDebugger.
Definition load_dev (d : Z) : MI ide_device_t := o ← mgets (λ s, zlookup (id_devs s) d); mof_option OutOfBounds o.
Definition upd_dev (d : Z) (f : ide_device_t → ide_device_t) : MI unit :=
  dv ← load_dev d; mmodify (λ s, id_set_devs (zinsert d (f dv) (id_devs s)) s).
Definition load_rd (i : Z) : MI rdesc := o ← mgets (λ s, zlookup (id_ring s) i); mof_option OutOfBounds o.
Definition store_rd (i : Z) (r : rdesc) : MI unit := mmodify (λ s, id_set_ring (zinsert i r (id_ring s)) s).
Definition channel_irq (ch : Z) : Z := if bool_decide (ch ≠ 0) then 15 else 14.

(** [ide_device_t::raise_irq] *)
Definition ide_raise_irq (d : Z) : MI unit :=
  dv ← load_dev d; if bit_test DC_NIEN (dv_reg_dev_control dv) then mret tt else id_emit (IRaise (channel_irq (d / 2))).

(** [ide_t::l4vm_transfer_block] *)
Definition l4vm_transfer_block (block size : Z) (write : bool) (d : Z) : MI unit :=
  s ← mget;
  r ← load_rd (id_start_free s);
  massert (negb (rd_server_owned r));;
  mmodify (id_set_start_free (cnext IVMblock_descriptor_ring_size (id_start_free s)));;
  store_rd (id_start_free s) (mk_rd (id_handle s) size block d (Some d) write true false);;
  mmodify (λ s, id_set_irq_pending true (id_set_irq_status (Z.lor (id_irq_status s) 1) s));;
  id_emit INotify.

(** ** Commands *)

Definition chunk (req : Z) : Z := if bool_decide (req > IDE_IOBUFFER_BLOCKS) then IDE_IOBUFFER_BLOCKS else req.
Definition nsectors (dv : ide_device_t) : Z := if bool_decide (dv_reg_nsector dv ≠ 0) then dv_reg_nsector dv else 256.

(** [read_sectors] up to the request, and the rest. *)
Definition read_submit (d : Z) : MI (Z * Z) :=
  dv ← load_dev d;
  let n := nsectors dv in
  upd_dev d (dv_set_req_sectors n);;
  sector ← (if bit_test DV_LBA (dv_reg_device dv) then mret (get_sector dv) else debugger;; mret 0);
  l4vm_transfer_block sector (chunk n * IDE_SECTOR_SIZE) false d;;
  mret (sector, chunk n).
Definition read_finish (d sector n : Z) : MI unit :=
  upd_dev d (λ dv, bsy (set_sector (sector + n) (dv_set_req_sectors (u16 (dv_req_sectors dv - n))
    (dv_set_io_buffer_size (IDE_SECTOR_SIZE * n) (dv_set_io_buffer_index 0 (dv_set_data_transfer IDE_CMD_DATA_IN dv)))))).
Definition read_sectors (d : Z) : MI unit := p ← read_submit d; read_finish d p.1 p.2.

Definition write_sectors (d : Z) : MI unit :=
  dv ← load_dev d;
  let n := nsectors dv in
  upd_dev d (dv_set_req_sectors n);;
  (if bit_test DV_LBA (dv_reg_device dv) then mret tt else debugger);;
  upd_dev d (λ dv, set_data_wait (dv_set_req_sectors (u16 (n - chunk n)) (dv_set_io_buffer_index 0
    (dv_set_io_buffer_size (IDE_SECTOR_SIZE * chunk n) (dv_set_data_transfer IDE_CMD_DATA_OUT dv)))));;
  upd_dev d (λ dv, dv_set_reg_status (bit_set ST_DRDY (dv_reg_status dv)) dv);;
  ide_raise_irq d.

(** *** Identification *)

Definition setw (w v : Z) (b : list Z) : list Z := zinsert (2 * w + 1) (u8 (Z.shiftr v 8)) (zinsert (2 * w) (u8 v) b).
(** [padstr]: the characters of a string in swapped pairs, padded with blanks. *)
Fixpoint padstr (len : nat) (off : Z) (src : list Z) (b : list Z) : list Z :=
  match len with
  | O => b
  | S len =>
      match src with
      | c :: src' => if bool_decide (c ≠ 0) then padstr len (off + 1) src' (zinsert (Z.lxor off 1) c b)
                     else padstr len (off + 1) src (zinsert (Z.lxor off 1) 32 b)
      | [] => padstr len (off + 1) [] (zinsert (Z.lxor off 1) 32 b)
      end
  end.
Definition str (s : string) : list Z := (λ a, Z.of_N (Ascii.N_of_ascii a)) <$> String.list_ascii_of_string s.
Definition setws (l : list (Z * Z)) (b : list Z) : list Z := fold_left (λ b p, setw p.1 p.2 b) l b.

Definition identify_words (dv : ide_device_t) (kind : Z) (model : list Z) (len : nat) (b : list Z) : list Z :=
  let b := setws [(0, kind); (1, dv_cylinder dv); (3, dv_head dv); (6, dv_sector dv)] b in
  let b := padstr len (2 * 27) model (padstr 8 (2 * 23) (str "l4ka 0.1") (padstr 20 (2 * 10) (dv_serial dv) b)) in
  setws [(47, Z.lor 0x8000 IDE_MAX_READ_WRITE_MULTIPLE); (49, 0x0300); (53, 2); (59, Z.lor 0x0100 1);
    (60, dv_lba_sector dv); (61, Z.shiftr (dv_lba_sector dv) 16); (64, 3); (67, 120); (68, 120); (80, 0x0070); (81, 0x0019);
    (82, 0x4200); (83, Z.shiftl 1 14); (84, Z.shiftl 1 14); (85, 0); (86, 0); (87, Z.shiftl 1 14);
    (88, if bool_decide (dv_dma dv ≠ 0) then Z.lor 7 (Z.shiftl 1 (dv_udma_mode dv + 8)) else 7);
    (93, Z.lor (Z.shiftl 1 14) 1); (100, 0)] b.
Definition clear512 (b : list Z) : list Z := replicate 512 0 ++ drop 512 b.
Definition data_in_sector (dv : ide_device_t) : ide_device_t :=
  dv_set_data_transfer IDE_CMD_DATA_IN (dv_set_io_buffer_size IDE_SECTOR_SIZE (dv_set_io_buffer_index 0 (set_data_wait dv))).

Definition identify (d : Z) : MI unit :=
  upd_dev d (λ dv, data_in_sector
    (dv_set_io_buffer (identify_words dv 0xff02 (str "L4KA AFTERBURNER HARDDISK") 40 (clear512 (dv_io_buffer dv))) dv)).
Definition identify_cdrom (d : Z) : MI unit :=
  dv ← load_dev d;
  if negb (dv_cdrom dv) then upd_dev d abort_command else
  upd_dev d (λ dv, data_in_sector
    (dv_set_io_buffer (let b := clear512 (dv_io_buffer dv) in
       if dv_present dv then identify_words dv 0x0503 (str "L4KA AFTERBURNER CD-ROM") 38 b else b) dv)).

Definition read_packet (d : Z) : MI unit :=
  dv ← load_dev d; if negb (dv_cdrom dv) then upd_dev d abort_command else debugger.
(** Without the bus master both DMA commands are refused. *)
Definition read_dma (d : Z) : MI unit := upd_dev d abort_command;; ide_raise_irq d.
Definition write_dma (d : Z) : MI unit := upd_dev d abort_command;; ide_raise_irq d.
Definition set_features (d : Z) : MI unit :=
  dv ← load_dev d;
  if bool_decide (dv_reg_feature dv = 0x03) then
    if bool_decide (Z.shiftr (dv_reg_nsector dv) 3 = 0x0) then upd_dev d (λ dv, set_cmd_wait (dv_set_dma 0 dv))
    else if bool_decide (Z.shiftr (dv_reg_nsector dv) 3 = 0x8) then
      upd_dev d (λ dv, set_cmd_wait (dv_set_udma_mode (Z.land (dv_reg_nsector dv) 0x7) (dv_set_dma 1 dv)))
    else upd_dev d abort_command
  else upd_dev d abort_command.

Definition IDE_CMD_IDENTIFY_DEVICE : Z := 0xEC.
Definition IDE_CMD_IDENTIFY_PACKET_DEVICE : Z := 0xA1.
Definition IDE_CMD_READ_DMA : Z := 0xC8.
Definition IDE_CMD_READ_SECTORS : Z := 0x20.
Definition IDE_CMD_SET_FEATURES : Z := 0xEF.
Definition IDE_CMD_SET_MULTIPLE_MODE : Z := 0xC6.
Definition IDE_CMD_WRITE_DMA : Z := 0xCA.
Definition IDE_CMD_WRITE_SECTORS : Z := 0x30.
Definition IDE_CMD_INITIALIZE_DEVICE_PARAMETERS : Z := 0x91.
Definition IDE_CMD_RECALIBRATE : Z := 0x10.
(** IDLE, IDLE_IMMEDIATE, MEDIA_EJECT, MEDIA_LOCK, MEDIA_UNLOCK, NOP and PACKET fall
    through to [read_packet]. *)
Definition packet_cmds : list Z := [0xE3; 0xE1; 0xED; 0xDE; 0xDF; 0x00; 0xA0].

(** The remaining commands are unsupported, known or not, with the same answer. *)
Definition ide_command (d cmd : Z) : MI unit :=
  dv ← load_dev d;
  massert (dv_present dv);;
  if bool_decide (cmd = IDE_CMD_IDENTIFY_DEVICE) then identify d;; ide_raise_irq d else
  if bool_decide (cmd = IDE_CMD_IDENTIFY_PACKET_DEVICE) then identify_cdrom d;; ide_raise_irq d else
  if bool_decide (cmd = IDE_CMD_READ_DMA) then read_dma d else
  if bool_decide (cmd = IDE_CMD_READ_SECTORS) then read_sectors d else
  if bool_decide (cmd = IDE_CMD_SET_FEATURES) then set_features d;; ide_raise_irq d else
  if bool_decide (cmd = IDE_CMD_SET_MULTIPLE_MODE) then
    (if bool_decide (dv_reg_nsector dv > IDE_MAX_READ_WRITE_MULTIPLE) then upd_dev d abort_command
     else upd_dev d (λ dv, set_cmd_wait (dv_set_mult_sectors (dv_reg_nsector dv) dv)));;
    ide_raise_irq d
  else
  if bool_decide (cmd = IDE_CMD_WRITE_DMA) then write_dma d else
  if bool_decide (cmd = IDE_CMD_WRITE_SECTORS) then write_sectors d else
  if bool_decide (cmd = IDE_CMD_INITIALIZE_DEVICE_PARAMETERS) || bool_decide (cmd = IDE_CMD_RECALIBRATE) then
    upd_dev d set_cmd_wait;; ide_raise_irq d
  else
  (if bool_decide (cmd ∈ packet_cmds) then read_packet d else mret tt);;
  upd_dev d abort_command;;
  ide_raise_irq d.

(** ** The data register *)

(** More sectors of the command: the next request and the counters. *)
Definition next_chunk (d : Z) (write : bool) : MI unit :=
  dv ← load_dev d;
  let n := chunk (dv_req_sectors dv) in
  l4vm_transfer_block (get_sector dv) (n * IDE_SECTOR_SIZE) write d;;
  upd_dev d (λ dv, bsy (set_sector (get_sector dv + n) (dv_set_io_buffer_size (n * IDE_SECTOR_SIZE)
    (dv_set_io_buffer_index 0 (dv_set_req_sectors (u16 (dv_req_sectors dv - n)) dv))))).

Definition io_data_read (d : Z) : MI Z :=
  dv ← load_dev d;
  if bool_decide (dv_data_transfer dv ≠ IDE_CMD_DATA_IN) then mret 0xff else
  data ← mof_option OutOfBounds (get16 (dv_io_buffer dv) (dv_io_buffer_index dv));
  let index := u32 (dv_io_buffer_index dv + 2) in
  upd_dev d (dv_set_io_buffer_index index);;
  if bool_decide (index >= dv_io_buffer_size dv) then
    (if bool_decide (dv_req_sectors dv > 0) then next_chunk d false
     else upd_dev d (λ dv, set_cmd_wait (dv_set_data_transfer IDE_CMD_DATA_NONE dv)));;
    mret data
  else
    (if bool_decide (index `mod` IDE_SECTOR_SIZE = 0) then ide_raise_irq d else mret tt);;
    mret data.

Definition io_data_write (d value : Z) : MI unit :=
  dv ← load_dev d;
  if bool_decide (dv_data_transfer dv ≠ IDE_CMD_DATA_OUT) then mret tt else
  b ← mof_option OutOfBounds (put16 (dv_io_buffer dv) (dv_io_buffer_index dv) value);
  let index := u32 (dv_io_buffer_index dv + 2) in
  upd_dev d (λ dv, dv_set_io_buffer_index index (dv_set_io_buffer b dv));;
  if bool_decide (index >= dv_io_buffer_size dv) then
    if bool_decide (dv_req_sectors dv > 0) then next_chunk d true
    else
      upd_dev d bsy;;
      l4vm_transfer_block (get_sector dv) (dv_io_buffer_size dv) true d
  else if bool_decide (index `mod` IDE_SECTOR_SIZE = 0) then ide_raise_irq d else mret tt.

(** ** The ports *)

Definition drive (ch d : Z) : Z := 2 * ch + d.
Definition upd_both (ch : Z) (f : ide_device_t → ide_device_t) : MI unit := upd_dev (drive ch 0) f;; upd_dev (drive ch 1) f.
Definition get_current (ch : Z) : MI Z := o ← mgets (λ s, zlookup (id_current s) ch); mof_option OutOfBounds o.

Definition reset_status (dv : ide_device_t) : ide_device_t := dv_set_reg_status (Z.land (dv_reg_status dv) (Z.lnot 0xD)) dv.
Definition software_reset (ch : Z) : MI unit :=
  d0 ← load_dev (drive ch 0); d1 ← load_dev (drive ch 1);
  (if dv_present d0 then
     upd_dev (drive ch 0) (λ dv, set_signature (reset_status
       (if negb (dv_present d1) then dv_set_reg_error (bit_clear 7 (dv_reg_error dv)) dv
        else dv_set_reg_device (bit_clear DV_DEV (dv_reg_device dv)) dv)))
   else mret tt);;
  (if dv_present d1 then
     upd_dev (drive ch 1) (λ dv, set_signature (reset_status (dv_set_reg_device (bit_clear DV_DEV (dv_reg_device dv)) dv)))
   else mret tt).

Definition write_register (ch reg value : Z) : MI unit :=
  if bool_decide (reg = 0) then c ← get_current ch; io_data_write (drive ch c) value else
  if bool_decide (reg = 1) then upd_both ch (dv_set_reg_feature (u8 value)) else
  if bool_decide (reg = 2) then upd_both ch (dv_set_reg_nsector (u8 value)) else
  if bool_decide (reg = 3) then upd_both ch (dv_set_reg_lba_low (u8 value)) else
  if bool_decide (reg = 4) then upd_both ch (dv_set_reg_lba_mid (u8 value)) else
  if bool_decide (reg = 5) then upd_both ch (dv_set_reg_lba_high (u8 value)) else
  if bool_decide (reg = 6) then
    upd_both ch (dv_set_reg_device (u8 value));;
    mmodify (λ s, id_set_current (zinsert ch (if bit_test 4 value then 1 else 0) (id_current s)) s)
  else
  if bool_decide (reg = 7) then ide_command (drive ch 0) value else
  if bool_decide (reg = 14) then
    d0 ← load_dev (drive ch 0);
    let srst := bit_test DC_SRST (dv_reg_dev_control d0) in
    (if negb srst && bit_test 2 value then upd_both ch bsy
     else if srst && negb (bit_test 2 value) then
       upd_both ch (λ dv, dv_set_reg_status (bit_clear ST_BSY (dv_reg_status dv)) dv);; software_reset ch
     else mret tt);;
    upd_both ch (dv_set_reg_dev_control (u8 value))
  else mret tt.

Definition read_register (ch reg : Z) : MI Z :=
  c ← get_current ch;
  dv ← load_dev (drive ch c);
  if negb (dv_present dv) then mret 0 else
  if bool_decide (reg = 0) then io_data_read (drive ch c) else
  mret (if bool_decide (reg = 1) then dv_reg_error dv else
        if bool_decide (reg = 2) then dv_reg_nsector dv else
        if bool_decide (reg = 3) then dv_reg_lba_low dv else
        if bool_decide (reg = 4) then dv_reg_lba_mid dv else
        if bool_decide (reg = 5) then dv_reg_lba_high dv else
        if bool_decide (reg = 6) then dv_reg_device dv else
        if bool_decide (reg = 7) || bool_decide (reg = 14) then dv_reg_status dv else 0).

(** The channel and register of a port. *)
Definition port_reg (port : Z) : option (Z * Z) :=
  let reg := Z.land port 0xf in
  let base := Z.ldiff port 0xf in
  if bool_decide (base = 0x1F0) then Some (0, reg) else
  if bool_decide (base = 0x3F0) then Some (0, reg + 8) else
  if bool_decide (base = 0x170) then Some (1, reg) else
  if bool_decide (base = 0x370) then Some (1, reg + 8) else None.
(** [ide_portio]; a read from an unknown port leaves the value as it was. *)
Definition ide_in (port value : Z) : MI Z :=
  match port_reg port with Some (ch, reg) => read_register ch reg | None => mret value end.
Definition ide_out (port value : Z) : MI unit :=
  match port_reg port with Some (ch, reg) => write_register ch reg (u16 value) | None => mret tt end.

(** ** The answers of the block server *)

Definition complete_desc (r : rdesc) : MI unit :=
  if rd_server_err r then debugger else
  d ← mof_option AssertFail (rd_client_data r);
  dv ← load_dev d;
  if bool_decide (dv_data_transfer dv = IDE_CMD_DATA_IN) then upd_dev d set_data_wait;; ide_raise_irq d
  else if bool_decide (dv_data_transfer dv = IDE_CMD_DATA_OUT) then
    (if bool_decide (dv_req_sectors dv > 0) then upd_dev d set_data_wait else upd_dev d set_cmd_wait);;
    ide_raise_irq d
  else debugger.
(** One round of [ide_irq_loop]: the inner loop ends at a descriptor of the server or at
    the end of the ring, after at most all descriptors. *)
Fixpoint irq_drain (fuel : nat) : MI unit :=
  s ← mget;
  if bool_decide (id_start_dirty s = id_start_free s) then mret tt else
  match fuel with
  | O => mfault Diverged
  | S fuel =>
      r ← load_rd (id_start_dirty s);
      if rd_server_owned r then mret tt else
      complete_desc r;;
      mmodify (λ s, id_set_start_dirty (cnext IVMblock_descriptor_ring_size (id_start_dirty s)) s);;
      irq_drain fuel
  end.
Definition ide_irq_round : MI unit :=
  mmodify (id_set_client_irq_pending false);; irq_drain IVMblock_descriptor_ring_size.

(** What the block server does with the descriptor in slot [k]. *)
Definition set_owner (o e : bool) (r : rdesc) : rdesc :=
  mk_rd (rd_handle r) (rd_size r) (rd_offset r) (rd_page r) (rd_client_data r) (rd_do_write r) o e.
Definition slice (off len : nat) (l : list Z) : list Z := take len (drop off l).
Definition splice (off : nat) (x l : list Z) : list Z := take off l ++ x ++ drop (off + length x) l.
Definition srv_serve (k : Z) : MI unit :=
  r ← load_rd k;
  if negb (rd_server_owned r) then mret tt else
  s ← mget;
  match zlookup (id_disks s) (rd_handle r) with
  | None => store_rd k (set_owner false true r)
  | Some disk =>
      let off := Z.to_nat (512 * rd_offset r) in
      if bool_decide (512 * rd_offset r + rd_size r ≤ length disk) then
        (if rd_do_write r then
           dv ← load_dev (rd_page r);
           mmodify (λ s, id_set_disks (zinsert (rd_handle r) (splice off (take (Z.to_nat (rd_size r)) (dv_io_buffer dv)) disk) (id_disks s)) s)
         else upd_dev (rd_page r) (λ dv, dv_set_io_buffer (splice 0 (slice off (Z.to_nat (rd_size r)) disk) (dv_io_buffer dv)) dv));;
        store_rd k (set_owner false false r)
      else store_rd k (set_owner false true r)
  end.

(** ** Initialisation *)

(** What the command line, the probe and the attach call say of a drive: the name, the
    device number parsed from it, the size in sectors and the flags. *)
Record drive_cfg : Type := mk_cfg {
  dc_name : list Z;
  dc_major : Z;
  dc_minor : Z;
  dc_probe : option (Z * Z);
  dc_attach : bool
}.
Definition GENHD_FL_CD : Z := 8.

(** [strncpy] into 20 bytes, then commas become zeroes. *)
Fixpoint strncpy (n : nat) (src : list Z) : list Z :=
  match n, src with
  | O, _ => []
  | S n, c :: src => if bool_decide (c = 0) then replicate (S n) 0 else c :: strncpy n src
  | S n, [] => replicate (S n) 0
  end.
Definition save_serial (name : list Z) : list Z := (λ c, if bool_decide (c = 44) then 48 else c) <$> strncpy 20 name.

Definition init_drive (cfg : option drive_cfg) (dv : ide_device_t) : ide_device_t :=
  let dv := set_signature (init_device dv) in
  match cfg with
  | None => dv
  | Some c =>
      if bool_decide (dc_major c > 258) || bool_decide (dc_minor c > 255) then dv else
      let dv := dv_set_serial (save_serial (dc_name c)) dv in
      match dc_probe c with
      | None => dv
      | Some (size, flags) =>
          if negb (dc_attach c) then dv else
          let dv := calculate_chs (dv_set_lba_sector size dv) in
          let dv := dv_set_present true (dv_set_cdrom (bool_decide (Z.land flags GENHD_FL_CD ≠ 0)) dv) in
          dv_set_reg_status (bit_set ST_DRDY (dv_reg_status dv)) dv
      end
  end.
Fixpoint init_drives (n : nat) (cfgs : list (option drive_cfg)) (i : Z) : MI unit :=
  match n with
  | O => mret tt
  | S n => upd_dev i (init_drive (default None (zlookup cfgs i)));; init_drives n cfgs (i + 1)
  end.
(** [ide_t::init]: [reg] is the handle the server gave, if it was found and accepted the
    client, [thread] tells whether the thread could be created. *)
Definition ide_init (reg : option Z) (cfgs : list (option drive_cfg)) (thread : bool) : MI unit :=
  match reg with
  | None => mret tt
  | Some h =>
      mmodify (id_set_handle h);;
      mmodify (λ s, id_set_start_dirty 0 (id_set_start_free 0 s));;
      init_drives (Z.to_nat IDE_MAX_DEVICES) cfgs 0;;
      mmodify (id_set_current [0; 0]);;
      id_emit (IVirtual 14);;
      id_emit (IVirtual 15);;
      if thread then id_emit IThread else debugger
  end.

(** The objects before, with the ring of a new client of the server. *)
Definition dev_zero : ide_device_t :=
  mk_dev 0 0 0 0 0 0 0 0 0 0 (replicate (Z.to_nat IDE_IOBUFFER_SIZE) 0) 0 0 (replicate 20 0) 0 0 0 0 0 0 0 0 0 false false.
Definition rd_zero : rdesc := mk_rd 0 0 0 0 None false false false.
Definition ide_zero (disks : list (list Z)) : ide_t :=
  mk_ide (replicate (Z.to_nat IDE_MAX_DEVICES) dev_zero) [0; 0] 0 (replicate IVMblock_descriptor_ring_size rd_zero) 0 0 0 false false disks [].
