(* ===== verification/IdeSpec.v ===== *)
(** * The IDE disks: what they promise

    A guest that follows the protocol of programmed I/O sees a disk: it reads what is
    on the sectors it names and writes what it sends, whatever came before. Writes of
    more sectors than the buffer holds, further data after a full buffer, and an answer
    of the block server during a command break this. *)

From Stdlib Require Import ZArith Lia.
From stdpp Require Import base list numbers.
From S2P Require Import Prelude Pic PicSpec Ide.

Lemma wp_bind_inv {S A B} F (m : M S A) (k : A → M S B) Q s : wp F (m ≫= k) Q s → wp F m (λ a s', wp F (k a) Q s') s.
Proof. unfold wp, mbind, M_bind. by destruct (m s). Qed.

(** ** Half-words and bytes *)

Fixpoint words (l : list Z) : list Z := match l with lo :: hi :: l => lo + 256 * hi :: words l | _ => [] end.
Definition bytes (ws : list Z) : list Z := ws ≫= λ w, [u8 w; u8 (Z.shiftr w 8)].

Lemma length_bytes ws : length (bytes ws) = (2 * length ws)%nat.
Proof. induction ws as [|w ws IH]; [done|]. cbn in *. unfold bytes in IH. lia. Qed.
Lemma bytes_app xs ys : bytes (xs ++ ys) = bytes xs ++ bytes ys.
Proof. apply bind_app. Qed.
Lemma words_app (n : nat) : ∀ x y, length x = (2 * n)%nat → words (x ++ y) = words x ++ words y.
Proof.
  induction n as [|n IH]; intros x y Hx; [by destruct x|]. destruct x as [|a [|b x]]; [done|cbn in Hx; lia|].
  cbn in *. f_equal. apply IH. lia.
Qed.
Lemma length_words (n : nat) : ∀ x, length x = (2 * n)%nat → length (words x) = n.
Proof.
  induction n as [|n IH]; intros x Hx; [by destruct x|]. destruct x as [|a [|b x]]; [done|cbn in Hx; lia|]. cbn in *. f_equal. apply IH. lia.
Qed.
Lemma word_split w : 0 ≤ w < 2 ^ 16 → u8 w + 256 * u8 (Z.shiftr w 8) = w.
Proof.
  intros Hw. unfold wrap. rewrite Z.shiftr_div_pow2 by lia. change (2 ^ 8) with 256.
  assert (0 ≤ w / 256 < 256) by (split; [apply Z.div_pos; lia|apply Z.div_lt_upper_bound; lia]).
  rewrite (Z.mod_small (w / 256)) by lia. pose proof (Z.div_mod w 256). lia.
Qed.
Lemma words_bytes ws : Forall (λ w, 0 ≤ w < 2 ^ 16) ws → words (bytes ws) = ws.
Proof. induction 1 as [|w ws Hw _ IH]; [done|]. cbn. rewrite word_split by done. f_equal. exact IH. Qed.

(** The half-word at [2 i] of a buffer. *)
Lemma get16_words b (i : nat) w : words b !! i = Some w → get16 b (2 * i) = Some w.
Proof.
  revert b. induction i as [|i IH]; intros b Hw.
  - destruct b as [|lo [|hi b]]; [done..|]. cbn in Hw. injection Hw as <-. done.
  - destruct b as [|lo [|hi b]]; [done..|]. cbn in Hw. specialize (IH b Hw). unfold get16, zlookup in *.
    rewrite !decide_True in * by lia. replace (Z.to_nat (2 * S i)) with (S (S (Z.to_nat (2 * i)))) by lia.
    replace (Z.to_nat (2 * S i + 1)) with (S (S (Z.to_nat (2 * i + 1)))) by lia. exact IH.
Qed.
Lemma put16_app pre lo hi post v :
  put16 (pre ++ lo :: hi :: post) (length pre) v = Some (pre ++ u8 v :: u8 (Z.shiftr v 8) :: post).
Proof.
  unfold put16. rewrite bool_decide_eq_true_2 by (rewrite length_app; cbn; lia). f_equal. unfold zinsert. rewrite !decide_True by lia.
  replace (Z.to_nat (length pre + 1)) with (length pre + 1)%nat by lia. rewrite Nat2Z.id.
  replace (length pre) with (length pre + 0)%nat at 2 by lia. by rewrite !insert_app_r.
Qed.

(** ** Guests *)

Definition IDE_DATA : Z := 0x1F0.
Definition select (lba n cmd : Z) : MI unit :=
  ide_out 0x1F2 n;; ide_out 0x1F3 (Z.land lba 0xff);; ide_out 0x1F4 (Z.land (Z.shiftr lba 8) 0xff);;
  ide_out 0x1F5 (Z.land (Z.shiftr lba 16) 0xff);; ide_out 0x1F6 (Z.lor 0xE0 (Z.shiftr lba 24));; ide_out 0x1F7 cmd.
(** The guest reads the status register and gives up when it is not as expected. *)
Definition expect (P : Z → bool) : MI unit := st ← ide_in 0x1F7 0; massert (P st).
Definition busy (st : Z) : bool := bit_test ST_BSY st.
Definition data_request (st : Z) : bool := bool_decide (st = 0x58).
Definition done_ok (st : Z) : bool := bool_decide (st = 0x50).
Fixpoint pio_in (n : nat) : MI (list Z) :=
  match n with O => mret [] | S n => w ← ide_in IDE_DATA 0; ws ← pio_in n; mret (w :: ws) end.
Fixpoint pio_out (ws : list Z) : MI unit :=
  match ws with [] => mret tt | w :: ws => ide_out IDE_DATA w;; pio_out ws end.
(** The block server answers the oldest request and the wedge's thread runs. *)
Definition server_turn : MI unit := k ← mgets id_start_dirty; srv_serve k;; ide_irq_round.

Definition first_chunk (n : nat) : nat := Nat.min n 128.
Definition read_session (lba : Z) (n : nat) : MI (list Z) :=
  select lba n IDE_CMD_READ_SECTORS;; expect busy;; server_turn;; expect data_request;;
  ws ← pio_in (256 * first_chunk n);
  (if bool_decide (n ≤ 128)%nat then expect done_ok;; mret ws else
   expect busy;; server_turn;; expect data_request;;
   ws' ← pio_in (256 * (n - 128)); expect done_ok;; mret (ws ++ ws')).
Definition write_session (lba : Z) (ws : list Z) : MI unit :=
  select lba (length ws / 256)%nat IDE_CMD_WRITE_SECTORS;; expect data_request;;
  pio_out ws;; expect busy;; server_turn;; expect done_ok.

(** ** The simulation *)

Abbreviation RING := IVMblock_descriptor_ring_size.

(** Drive 0 is [dv], its disk is [disk], [p] requests were answered and [o] is out. *)
Record at_drive (s : ide_t) (p : nat) (o : option rdesc) (dv : ide_device_t) (disk : list Z) : Prop := {
  ad_devs : length (id_devs s) = 4%nat;
  ad_dev : zlookup (id_devs s) 0 = Some dv;
  ad_cur : length (id_current s) = 2%nat;
  ad_disk : zlookup (id_disks s) (id_handle s) = Some disk;
  ad_ring : length (id_ring s) = RING;
  ad_dirty : id_start_dirty s = slot RING p;
  ad_free : id_start_free s = slot RING (match o with Some _ => S p | None => p end);
  ad_owned : ∀ k r, zlookup (id_ring s) k = Some r → rd_server_owned r = true → k = slot RING p ∧ o = Some r;
  ad_out : ∀ r, o = Some r → zlookup (id_ring s) (slot RING p) = Some r ∧ rd_server_owned r = true ∧ rd_handle r = id_handle s
}.
Definition selected (s : ide_t) : Prop := zlookup (id_current s) 0 = Some 0.

Lemma wp_load_drive s p o dv disk (Q : ide_device_t → ide_t → Prop) : at_drive s p o dv disk → Q dv s → wp no_fault (load_dev 0) Q s.
Proof. intros Ha HQ. unfold load_dev. apply wp_bind, wp_mgets. rewrite (ad_dev _ _ _ _ _ Ha). by apply wp_mret. Qed.
Lemma wp_upd_dev s p o dv disk f (Q : unit → ide_t → Prop) : at_drive s p o dv disk →
  (∀ s', at_drive s' p o (f dv) disk → id_current s' = id_current s → Q tt s') → wp no_fault (upd_dev 0 f) Q s.
Proof.
  intros Ha HQ. unfold upd_dev. apply wp_bind. eapply wp_load_drive; [exact Ha|]. apply wp_mmodify, HQ; [|done].
  destruct Ha as [Hl Hd Hc Hk Hr H1 H2 H3 H4]. split; try done; cbn; [by rewrite length_zinsert|]. apply zlookup_zinsert_eq. lia.
Qed.
Lemma wp_upd_other s p o dv disk j f (Q : unit → ide_t → Prop) : at_drive s p o dv disk → 0 < j < 4 →
  (∀ s', at_drive s' p o dv disk → id_current s' = id_current s → Q tt s') → wp no_fault (upd_dev j f) Q s.
Proof.
  intros Ha Hj HQ. unfold upd_dev, load_dev. pose proof Ha as [Hl Hd Hc Hk Hr H1 H2 H3 H4].
  destruct (zlookup_is_Some (id_devs s) j) as [d1 Hd1]; [lia|]. apply wp_bind, wp_bind, wp_mgets. rewrite Hd1. apply wp_mret, wp_mmodify, HQ; [|done].
  split; try done; cbn; [by rewrite length_zinsert|]. rewrite zlookup_zinsert_ne by lia. done.
Qed.
Lemma wp_upd_both s p o dv disk f (Q : unit → ide_t → Prop) : at_drive s p o dv disk →
  (∀ s', at_drive s' p o (f dv) disk → id_current s' = id_current s → Q tt s') → wp no_fault (upd_both 0 f) Q s.
Proof.
  intros Ha HQ. unfold upd_both. apply wp_bind. eapply (wp_upd_dev s); [exact Ha|]. intros s1 H1 C1.
  eapply (wp_upd_other s1 p o _ disk 1); [exact H1|lia|]. intros s2 H2 C2. apply HQ; [done|congruence].
Qed.
Lemma wp_emit s p o dv disk e (Q : unit → ide_t → Prop) : at_drive s p o dv disk →
  (∀ s', at_drive s' p o dv disk → id_current s' = id_current s → Q tt s') → wp no_fault (id_emit e) Q s.
Proof. intros Ha HQ. apply wp_mmodify, HQ; [|done]. by destruct Ha as [? ? ? ? ? ? ? ? ?]. Qed.
Lemma wp_raise s p o dv disk (Q : unit → ide_t → Prop) : at_drive s p o dv disk →
  (∀ s', at_drive s' p o dv disk → id_current s' = id_current s → Q tt s') → wp no_fault (ide_raise_irq 0) Q s.
Proof.
  intros Ha HQ. unfold ide_raise_irq. apply wp_bind. eapply wp_load_drive; [exact Ha|].
  destruct (bit_test _ _); [by apply wp_mret, HQ|]. by eapply wp_emit.
Qed.

(** A request is entered into the ring. *)
Definition request (h block size : Z) (write : bool) : rdesc := mk_rd h size block 0 (Some 0) write true false.
Lemma slot_next p : cnext RING (slot RING p) = slot RING (S p).
Proof. apply slot_succ; unfold RING; lia. Qed.
Lemma slot_ok p : 0 ≤ slot RING p < RING.
Proof. apply slot_range. unfold RING. lia. Qed.

Lemma wp_transfer s p dv disk block size write (Q : unit → ide_t → Prop) : at_drive s p None dv disk →
  (∀ s', at_drive s' p (Some (request (id_handle s') block size write)) dv disk → id_current s' = id_current s → Q tt s') →
  wp no_fault (l4vm_transfer_block block size write 0) Q s.
Proof.
  intros [Hl Hd Hc Hk Hr H1 H2 H3 H4] HQ. pose proof (slot_ok p). cbn in H2. unfold l4vm_transfer_block. apply wp_bind, wp_mget.
  destruct (zlookup_is_Some (id_ring s) (id_start_free s)) as [r Hr0]; [rewrite Hr, H2; lia|].
  apply wp_bind. unfold load_rd. apply wp_bind, wp_mgets. rewrite Hr0. apply wp_mret. apply wp_bind, wp_massert.
  { destruct (rd_server_owned r) eqn:Ho; [|done]. by destruct (H3 _ _ Hr0 Ho). }
  intros _. apply wp_bind, wp_mmodify, wp_bind, wp_mmodify, wp_bind, wp_mmodify, wp_mmodify, HQ; [|done].
  assert (slot RING p < length (id_ring s)) by (rewrite Hr; lia).
  split; cbn; try done.
  - by rewrite length_zinsert.
  - by rewrite H2, slot_next.
  - rewrite H2. intros k r' Hk' Ho. destruct (decide (slot RING p = k)) as [<-|Hne].
    + rewrite zlookup_zinsert_eq in Hk' by lia. by injection Hk' as <-.
    + rewrite zlookup_zinsert_ne in Hk' by done. by destruct (H3 _ _ Hk' Ho).
  - intros r' [= <-]. rewrite H2, zlookup_zinsert_eq by lia. done.
Qed.

(** The request is answered but not yet taken from the ring. *)
Record answered (s : ide_t) (p : nat) (r : rdesc) (dv : ide_device_t) (disk : list Z) : Prop := {
  an_devs : length (id_devs s) = 4%nat;
  an_dev : zlookup (id_devs s) 0 = Some dv;
  an_cur : length (id_current s) = 2%nat;
  an_disk : zlookup (id_disks s) (id_handle s) = Some disk;
  an_ring : length (id_ring s) = RING;
  an_dirty : id_start_dirty s = slot RING p;
  an_free : id_start_free s = slot RING (S p);
  an_owned : ∀ k r, zlookup (id_ring s) k = Some r → rd_server_owned r = false;
  an_desc : zlookup (id_ring s) (slot RING p) = Some r
}.
Lemma not_owned s p r dv disk x k r' : at_drive s p (Some r) dv disk → rd_server_owned x = false →
  zlookup (zinsert (slot RING p) x (id_ring s)) k = Some r' → rd_server_owned r' = false.
Proof.
  intros Ha Hx Hk. pose proof (slot_ok p). destruct (decide (slot RING p = k)) as [<-|Hne].
  - rewrite zlookup_zinsert_eq in Hk by (rewrite (ad_ring _ _ _ _ _ Ha); lia). by injection Hk as <-.
  - rewrite zlookup_zinsert_ne in Hk by done. destruct (rd_server_owned r') eqn:Ho; [|done].
    by destruct (ad_owned _ _ _ _ _ Ha _ _ Hk Ho).
Qed.
Definition served_dev (block size : Z) (write : bool) (disk : list Z) (dv : ide_device_t) : ide_device_t :=
  if write then dv else dv_set_io_buffer (splice 0 (slice (Z.to_nat (512 * block)) (Z.to_nat size) disk) (dv_io_buffer dv)) dv.
Definition served_disk (block size : Z) (write : bool) (dv : ide_device_t) (disk : list Z) : list Z :=
  if write then splice (Z.to_nat (512 * block)) (take (Z.to_nat size) (dv_io_buffer dv)) disk else disk.
Lemma wp_serve s p h block size write dv disk (Q : unit → ide_t → Prop) :
  at_drive s p (Some (request h block size write)) dv disk → 512 * block + size ≤ length disk →
  (∀ s', answered s' p (set_owner false false (request h block size write)) (served_dev block size write disk dv)
       (served_disk block size write dv disk) → id_current s' = id_current s → Q tt s') →
  wp no_fault (srv_serve (slot RING p)) Q s.
Proof.
  intros Ha Hs HQ. pose proof Ha as [Hl Hd Hc Hk Hr H1 H2 H3 H4]. destruct (H4 _ eq_refl) as (Hrd & _ & Hh). cbn in Hh. subst h.
  pose proof (slot_ok p) as Hsl. unfold srv_serve. apply wp_bind. unfold load_rd. apply wp_bind, wp_mgets. rewrite Hrd. apply wp_mret. cbn [request rd_server_owned negb rd_handle rd_offset rd_size rd_page rd_do_write].
  apply wp_bind, wp_mget. rewrite Hk. rewrite bool_decide_eq_true_2 by done.
  assert (slot RING p < length (id_ring s)) as Hlt by (rewrite Hr; lia).
  pose proof (λ k r', not_owned s p _ dv disk (set_owner false false (request (id_handle s) block size write)) k r' Ha eq_refl) as Hno.
  destruct write; unfold served_dev, served_disk in HQ.
  - apply wp_bind, wp_bind. eapply wp_load_drive; [exact Ha|]. apply wp_mmodify, wp_mmodify, HQ; [|done].
    split; cbn; try done; [apply zlookup_zinsert_eq; by eapply zlookup_lt|by rewrite length_zinsert|apply zlookup_zinsert_eq; lia].
  - unfold upd_dev. apply wp_bind, wp_bind. eapply wp_load_drive; [exact Ha|]. apply wp_mmodify, wp_mmodify, HQ; [|done].
    split; cbn; try done; [by rewrite length_zinsert|apply zlookup_zinsert_eq; lia|by rewrite length_zinsert|apply zlookup_zinsert_eq; lia].
Qed.

(** The state of the drive when the wedge's thread takes the answer. *)
Definition completed (dv : ide_device_t) : ide_device_t :=
  if bool_decide (dv_data_transfer dv = IDE_CMD_DATA_IN) then set_data_wait dv
  else if bool_decide (dv_req_sectors dv > 0) then set_data_wait dv else set_cmd_wait dv.
Definition transferring (dv : ide_device_t) : Prop := dv_data_transfer dv = IDE_CMD_DATA_IN ∨ dv_data_transfer dv = IDE_CMD_DATA_OUT.

Lemma wp_complete s p h block size write dv disk (Q : unit → ide_t → Prop) :
  answered s p (set_owner false false (request h block size write)) dv disk → transferring dv →
  (∀ s', answered s' p (set_owner false false (request h block size write)) (completed dv) disk → id_current s' = id_current s → Q tt s') →
  wp no_fault (complete_desc (set_owner false false (request h block size write))) Q s.
Proof.
  intros [Hl Hd Hc Hk Hr H1 H2 H3 H4] Ht HQ. unfold complete_desc. cbn [set_owner request rd_server_err rd_client_data mof_option].
  apply wp_bind, wp_mret. unfold load_dev. apply wp_bind, wp_bind, wp_mgets. rewrite Hd. apply wp_mret.
  assert (∀ f, (∀ s', answered s' p (set_owner false false (request h block size write)) (f dv) disk → id_current s' = id_current s → Q tt s') →
    wp no_fault (upd_dev 0 f;; ide_raise_irq 0) Q s) as Hupd.
  { intros f Hf. unfold upd_dev, load_dev. apply wp_bind, wp_bind, wp_bind, wp_mgets. rewrite Hd. apply wp_mret, wp_mmodify.
    unfold ide_raise_irq, load_dev. apply wp_bind, wp_bind, wp_mgets. cbn [id_devs id_set_devs]. rewrite zlookup_zinsert_eq by lia. apply wp_mret.
    destruct (bit_test _ _); [apply wp_mret|apply wp_mmodify]; apply Hf; try done; split; cbn; try done;
      rewrite ?length_zinsert; try done; apply zlookup_zinsert_eq; lia. }
  unfold completed in HQ. destruct Ht as [Ht|Ht]; rewrite Ht in *.
  - rewrite bool_decide_eq_true_2 in * by done. by apply Hupd.
  - rewrite (bool_decide_eq_false_2 (IDE_CMD_DATA_OUT = IDE_CMD_DATA_IN)) in * by done.
    rewrite (bool_decide_eq_true_2 (IDE_CMD_DATA_OUT = IDE_CMD_DATA_OUT)) by done. destruct (bool_decide (dv_req_sectors dv > 0)); by apply Hupd.
Qed.
Lemma wp_round s p h block size write dv disk (Q : unit → ide_t → Prop) :
  answered s p (set_owner false false (request h block size write)) dv disk → transferring dv →
  (∀ s', at_drive s' (S p) None (completed dv) disk → id_current s' = id_current s → Q tt s') →
  wp no_fault ide_irq_round Q s.
Proof.
  intros Ha Ht HQ. unfold ide_irq_round. apply wp_bind, wp_mmodify. set (s0 := id_set_client_irq_pending false s).
  assert (answered s0 p (set_owner false false (request h block size write)) dv disk) as Ha0 by (by destruct Ha).
  change (id_current s) with (id_current s0) in HQ. clearbody s0. clear Ha s. pose proof Ha0 as [Hl Hd Hc Hk Hr H1 H2 H3 H4].
  pose proof (slot_ne 400 ltac:(lia) p (S p) ltac:(lia) ltac:(lia) ltac:(lia)) as Hne.
  change (irq_drain RING) with (irq_drain (S 399)). cbn [irq_drain]. apply wp_bind, wp_mget. rewrite H1, H2.
  rewrite bool_decide_eq_false_2 by exact Hne. unfold load_rd. apply wp_bind, wp_bind, wp_mgets. rewrite H4. apply wp_mret.
  cbn [set_owner rd_server_owned]. apply wp_bind. eapply (wp_complete s0); [done|done|]. intros s1 [Gl Gd Gc Gk Gr G1 G2 G3 G4] C1.
  apply wp_bind, wp_mmodify. change (irq_drain 399) with (irq_drain (S 398)). cbn [irq_drain]. apply wp_bind, wp_mget. cbn [id_start_dirty id_start_free id_set_start_dirty].
  rewrite G1, G2, slot_next, bool_decide_eq_true_2 by done. apply wp_mret, HQ; [|done].
  split; cbn; try done. intros k r Hk' Ho. by rewrite (G3 k r Hk') in Ho.
Qed.
Lemma wp_turn s p h block size write dv disk (Q : unit → ide_t → Prop) :
  at_drive s p (Some (request h block size write)) dv disk → 512 * block + size ≤ length disk → transferring dv →
  (∀ s', at_drive s' (S p) None (completed (served_dev block size write disk dv)) (served_disk block size write dv disk) →
     id_current s' = id_current s → Q tt s') →
  wp no_fault server_turn Q s.
Proof.
  intros Ha Hs Ht HQ. unfold server_turn. apply wp_bind, wp_mgets, wp_bind. rewrite (ad_dirty _ _ _ _ _ Ha).
  eapply wp_serve; [exact Ha|done|]. intros s1 H1 C1. eapply wp_round; [exact H1|by destruct write|]. intros s2 H2 C2. apply HQ; [done|congruence].
Qed.

(** ** Sector numbers *)

Lemma wrap_testbit w x k : 0 ≤ w → 0 ≤ k → Z.testbit (wrap w x) k = bool_decide (k < w) && Z.testbit x k.
Proof.
  intros. unfold wrap. destruct (decide (k < w)).
  - by rewrite Z.mod_pow2_bits_low, bool_decide_eq_true_2 by lia.
  - by rewrite Z.mod_pow2_bits_high, bool_decide_eq_false_2 by lia.
Qed.
Lemma land_u8 x : Z.land x 0xff = u8 x.
Proof. change 0xff with (Z.ones 8). by rewrite Z.land_ones by lia. Qed.
Lemma u8_u16 x : u8 (u16 x) = u8 x.
Proof.
  apply Z.bits_inj'. intros k Hk. rewrite !wrap_testbit by lia. destruct (decide (k < 8)).
  - by rewrite (bool_decide_eq_true_2 (k < 16)) by lia.
  - by rewrite bool_decide_eq_false_2 by lia.
Qed.
Lemma u8_u8 x : u8 (u8 x) = u8 x.
Proof. apply wrap_small, wrap_range. lia. Qed.
Lemma high_nibble sec : 0 ≤ sec < 2 ^ 28 → 0 ≤ Z.shiftr sec 24 < 16.
Proof.
  intros. rewrite Z.shiftr_div_pow2 by lia. split; [apply Z.div_pos; lia|apply Z.div_lt_upper_bound; lia].
Qed.

Record names (d : ide_device_t) (sec : Z) : Prop := {
  nm_low : dv_reg_lba_low d = u8 sec;
  nm_mid : dv_reg_lba_mid d = u8 (Z.shiftr sec 8);
  nm_high : dv_reg_lba_high d = u8 (Z.shiftr sec 16);
  nm_dev : Z.land (dv_reg_device d) 0x0f = Z.shiftr sec 24
}.
Lemma names_sector d sec : 0 ≤ sec < 2 ^ 28 → names d sec → get_sector d = sec.
Proof.
  intros Hs [H1 H2 H3 H4]. unfold get_sector. rewrite H1, H2, H3, H4. apply Z.bits_inj'. intros k Hk.
  rewrite !Z.lor_spec, !Z.shiftl_spec, wrap_testbit by lia.
  destruct (decide (k < 8)).
  { rewrite (Z.testbit_neg_r _ (k - 8)), (Z.testbit_neg_r _ (k - 16)), (Z.testbit_neg_r _ (k - 24)), bool_decide_eq_true_2 by lia.
    cbn. by rewrite !orb_false_r. }
  rewrite (bool_decide_eq_false_2 (k < 8)), wrap_testbit, Z.shiftr_spec by lia. replace (k - 8 + 8) with k by lia. cbn [andb orb].
  destruct (decide (k < 16)).
  { rewrite (Z.testbit_neg_r _ (k - 16)), (Z.testbit_neg_r _ (k - 24)), bool_decide_eq_true_2 by lia. cbn. by rewrite !orb_false_r. }
  rewrite (bool_decide_eq_false_2 (k - 8 < 8)), wrap_testbit, Z.shiftr_spec by lia. replace (k - 16 + 16) with k by lia. cbn [andb orb].
  destruct (decide (k < 24)).
  { rewrite (Z.testbit_neg_r _ (k - 24)), bool_decide_eq_true_2 by lia. cbn. by rewrite !orb_false_r. }
  rewrite (bool_decide_eq_false_2 (k - 16 < 8)), Z.shiftr_spec by lia. by replace (k - 24 + 24) with k by lia.
Qed.
Lemma low_nibble x : 0 ≤ x < 16 → Z.land x 0x0f = x.
Proof. intros. change 0x0f with (Z.ones 4). rewrite Z.land_ones by lia. by apply Z.mod_small. Qed.
Lemma set_sector_names sec d : 0 ≤ sec < 2 ^ 28 → names (set_sector sec d) sec.
Proof.
  intros Hs. split; try done. unfold set_sector. cbn [dv_reg_device dv_set_reg_device]. rewrite <- land_u8, <- Z.land_assoc.
  change (Z.land 0xff 0x0f) with 0x0f. cbn [dv_reg_device dv_set_reg_lba_high dv_set_reg_lba_mid dv_set_reg_lba_low].
  rewrite Z.land_lor_distr_l, <- Z.land_assoc. change (Z.land 0xf0 0x0f) with 0. rewrite Z.land_0_r, Z.lor_0_l.
  apply low_nibble. by apply high_nibble.
Qed.

(** ** Selecting sectors *)

Definition with_regs (lba n : Z) (dv : ide_device_t) : ide_device_t :=
  dv_set_reg_device (u8 (u16 (Z.lor 0xE0 (Z.shiftr lba 24)))) (dv_set_reg_lba_high (u8 (u16 (Z.land (Z.shiftr lba 16) 0xff)))
    (dv_set_reg_lba_mid (u8 (u16 (Z.land (Z.shiftr lba 8) 0xff))) (dv_set_reg_lba_low (u8 (u16 (Z.land lba 0xff)))
      (dv_set_reg_nsector (u8 (u16 n)) dv)))).
Lemma device_reg lba : 0 ≤ lba < 2 ^ 28 → u8 (u16 (Z.lor 0xE0 (Z.shiftr lba 24))) = Z.lor 0xE0 (Z.shiftr lba 24).
Proof.
  intros Hl. rewrite u8_u16. apply wrap_small. pose proof (high_nibble lba Hl). split; [apply Z.lor_nonneg; lia|].
  apply (bits_bound _ 8); [lia|apply Z.lor_nonneg; lia|]. intros k Hk. rewrite Z.lor_spec.
  rewrite (word_high 0xE0 8), (word_high (Z.shiftr lba 24) 8) by lia. done.
Qed.
Lemma with_regs_names lba n dv : 0 ≤ lba < 2 ^ 28 → names (with_regs lba n dv) lba.
Proof.
  intros Hl. unfold with_regs. split; cbn; rewrite ?land_u8, ?u8_u16, ?u8_u8; try done.
  rewrite <- (u8_u16 (Z.lor _ _)), device_reg, Z.land_lor_distr_l by done. change (Z.land 0xE0 0x0f) with 0. rewrite Z.lor_0_l.
  apply low_nibble. by apply high_nibble.
Qed.
Lemma with_regs_lba lba n dv : 0 ≤ lba < 2 ^ 28 → bit_test DV_LBA (dv_reg_device (with_regs lba n dv)) = true.
Proof. intros Hl. unfold with_regs. cbn [dv_reg_device dv_set_reg_device]. rewrite device_reg by done. unfold bit_test. by rewrite Z.lor_spec. Qed.
Lemma with_regs_nsectors lba n dv : 1 ≤ n ≤ 256 → nsectors (with_regs lba n dv) = n.
Proof.
  intros Hn. unfold nsectors, with_regs. cbn. rewrite u8_u16. destruct (decide (n = 256)) as [->|].
  - done.
  - rewrite wrap_small, bool_decide_eq_true_2 by lia. done.
Qed.

Lemma out_command cmd : ide_out 0x1F7 cmd = ide_command 0 (u16 cmd).
Proof. done. Qed.
Lemma wp_select s p o dv disk lba n cmd (Q : unit → ide_t → Prop) : at_drive s p o dv disk → 0 ≤ lba < 2 ^ 28 →
  (∀ s', at_drive s' p o (with_regs lba n dv) disk → selected s' → wp no_fault (ide_command 0 (u16 cmd)) Q s') →
  wp no_fault (select lba n cmd) Q s.
Proof.
  intros Ha Hl HQ. unfold select.
  change (ide_out 0x1F2 n) with (upd_both 0 (dv_set_reg_nsector (u8 (u16 n)))).
  change (ide_out 0x1F3 ?v) with (upd_both 0 (dv_set_reg_lba_low (u8 (u16 v)))).
  change (ide_out 0x1F4 ?v) with (upd_both 0 (dv_set_reg_lba_mid (u8 (u16 v)))).
  change (ide_out 0x1F5 ?v) with (upd_both 0 (dv_set_reg_lba_high (u8 (u16 v)))).
  change (ide_out 0x1F6 ?v) with (upd_both 0 (dv_set_reg_device (u8 (u16 v)));;
    mmodify (λ s, id_set_current (zinsert 0 (if bit_test 4 (u16 v) then 1 else 0) (id_current s)) s)).
  apply wp_bind. eapply wp_upd_both; [exact Ha|]. intros s1 H1 C1. apply wp_bind. eapply wp_upd_both; [exact H1|]. intros s2 H2 C2.
  apply wp_bind. eapply wp_upd_both; [exact H2|]. intros s3 H3 C3. apply wp_bind. eapply wp_upd_both; [exact H3|]. intros s4 H4 C4.
  apply wp_bind, wp_bind. eapply wp_upd_both; [exact H4|]. intros s5 H5 C5. apply wp_mmodify. rewrite out_command. apply HQ.
  - destruct H5 as [? ? ? ? ? ? ? ? ?]. split; try done. cbn. by rewrite length_zinsert.
  - unfold selected. cbn [id_current id_set_current]. rewrite zlookup_zinsert_eq by (rewrite (ad_cur _ _ _ _ _ H5); lia). f_equal.
    assert (bit_test 4 (u16 (Z.lor 0xE0 (Z.shiftr lba 24))) = false) as ->; [|done].
    unfold bit_test. rewrite wrap_testbit, Z.lor_spec, Z.shiftr_spec by lia. rewrite (word_high lba 28) by lia. done.
Qed.

(** ** The guest reads and writes the data register *)

Lemma in_data s p o dv disk v (Q : Z → ide_t → Prop) : at_drive s p o dv disk → selected s → dv_present dv = true →
  wp no_fault (io_data_read 0) Q s → wp no_fault (ide_in IDE_DATA v) Q s.
Proof.
  intros Ha Hs Hp HQ. change (ide_in IDE_DATA v) with (read_register 0 0). unfold read_register, get_current.
  apply wp_bind, wp_bind, wp_mgets. rewrite Hs. apply wp_mret. apply wp_bind. eapply wp_load_drive; [exact Ha|]. rewrite Hp. exact HQ.
Qed.
Lemma wp_expect s p o dv disk P (Q : unit → ide_t → Prop) : at_drive s p o dv disk → selected s → dv_present dv = true →
  P (dv_reg_status dv) = true → Q tt s → wp no_fault (expect P) Q s.
Proof.
  intros Ha Hs Hp HP HQ. unfold expect. change (ide_in 0x1F7 0) with (read_register 0 7). unfold read_register, get_current.
  apply wp_bind, wp_bind, wp_bind, wp_mgets. rewrite Hs. apply wp_mret. apply wp_bind. eapply wp_load_drive; [exact Ha|]. rewrite Hp.
  apply wp_mret. change (wp no_fault (massert (P (dv_reg_status dv))) Q s). by rewrite HP.
Qed.

(** A transfer from the drive: [i] of [m] half-words are read. *)
Record reading (dv : ide_device_t) (i m : nat) : Prop := {
  re_mode : dv_data_transfer dv = IDE_CMD_DATA_IN;
  re_index : dv_io_buffer_index dv = 2 * i;
  re_size : dv_io_buffer_size dv = 2 * m;
  re_bound : m ≤ 32768;
  re_buffer : Z.of_nat (length (dv_io_buffer dv)) = 65536;
  re_present : dv_present dv = true
}.
Lemma u32_index (i : nat) : i < 32768 → u32 (2 * i + 2) = 2 * S i.
Proof. intros. rewrite wrap_small by lia. lia. Qed.
Lemma reading_word dv i m : reading dv i m → (i < m)%nat → ∃ w, words (dv_io_buffer dv) !! i = Some w ∧ get16 (dv_io_buffer dv) (2 * i) = Some w.
Proof.
  intros [_ _ _ Hm Hb _] Hi. destruct (lookup_lt_is_Some_2 (words (dv_io_buffer dv)) i) as [w Hw].
  { rewrite (length_words (Z.to_nat 32768)); lia. }
  exists w. split; [done|]. by apply get16_words.
Qed.

Lemma wp_read_step s p dv disk i m (Q : Z → ide_t → Prop) : at_drive s p None dv disk → selected s → reading dv i m → (S i < m)%nat →
  (∀ w s', words (dv_io_buffer dv) !! i = Some w → at_drive s' p None (dv_set_io_buffer_index (2 * S i) dv) disk → selected s' → Q w s') →
  wp no_fault (ide_in IDE_DATA 0) Q s.
Proof.
  intros Ha Hs Hr Hi HQ. destruct (reading_word dv i m Hr ltac:(lia)) as (w & Hw & Hg). pose proof Hr as [H1 H2 H3 H4 H5 H6].
  eapply in_data; [exact Ha|done|done|]. unfold io_data_read. apply wp_bind. eapply wp_load_drive; [exact Ha|].
  rewrite H1, H2, H3, Hg, u32_index by lia. rewrite (bool_decide_eq_false_2 (IDE_CMD_DATA_IN ≠ IDE_CMD_DATA_IN)) by auto. cbn [mof_option].
  apply wp_bind, wp_mret, wp_bind. eapply wp_upd_dev; [exact Ha|]. intros s1 A1 C1. rewrite bool_decide_eq_false_2 by lia.
  assert (selected s1) as S1 by (unfold selected; by rewrite C1).
  apply wp_bind. match goal with |- wp _ (if ?b then _ else _) _ _ => destruct b end; [|by apply wp_mret, wp_mret, HQ].
  eapply wp_raise; [exact A1|]. intros s2 A2 C2. apply wp_mret, HQ; [done..|]. unfold selected. by rewrite C2.
Qed.
Lemma wp_pio_in (k : nat) : ∀ i m s p dv disk (Q : list Z → ide_t → Prop),
  at_drive s p None dv disk → selected s → reading dv i m → (i + k < m)%nat →
  (∀ s', at_drive s' p None (dv_set_io_buffer_index (2 * (i + k)%nat) dv) disk → selected s' →
     Q (take k (drop i (words (dv_io_buffer dv)))) s') →
  wp no_fault (pio_in k) Q s.
Proof.
  induction k as [|k IH]; intros i m s p dv disk Q Ha Hs Hr Hi HQ; cbn [pio_in].
  { apply wp_mret. rewrite Nat.add_0_r in HQ. apply HQ; [|done]. rewrite <- (re_index _ _ _ Hr). by destruct dv. }
  apply wp_bind. eapply wp_read_step; [exact Ha|done|exact Hr|lia|]. intros w s1 Hw A1 S1. apply wp_bind.
  eapply (IH (S i) m s1); [exact A1|done| |lia|].
  { destruct Hr as [? ? ? ? ? ?]. by split. }
  intros s2 A2 S2. apply wp_mret. rewrite (drop_S _ _ _ Hw) in HQ. apply HQ; [|done].
  replace (i + S k)%nat with (S i + k)%nat by lia. by destruct dv.
Qed.
Lemma wp_pio_in_app (a b : nat) s (Q : list Z → ide_t → Prop) :
  wp no_fault (pio_in a) (λ ws s', wp no_fault (pio_in b) (λ ws' s'', Q (ws ++ ws') s'') s') s → wp no_fault (pio_in (a + b)) Q s.
Proof.
  revert s Q. induction a as [|a IH]; intros s Q H; [exact H|]. cbn [pio_in Nat.add] in *. apply wp_bind.
  apply wp_bind_inv in H. eapply wp_mono; [exact H|]. cbv beta. intros w s1 H1. apply wp_bind, IH.
  apply wp_bind_inv in H1. eapply wp_mono; [exact H1|]. cbv beta. intros ws s2 H2. eapply wp_mono; [exact H2|]. done.
Qed.

(** The drive at rest, with a request out, and with data for the guest. *)
Record usable (dv : ide_device_t) : Prop := { us_present : dv_present dv = true; us_buffer : Z.of_nat (length (dv_io_buffer dv)) = 65536 }.
Record armed (dv : ide_device_t) (req l : Z) (c : nat) : Prop := {
  ar_usable : usable dv;
  ar_mode : dv_data_transfer dv = IDE_CMD_DATA_IN;
  ar_index : dv_io_buffer_index dv = 0;
  ar_size : dv_io_buffer_size dv = 512 * c;
  ar_req : dv_req_sectors dv = req;
  ar_names : names dv l;
  ar_busy : busy (dv_reg_status dv) = true;
  ar_bound : (1 ≤ c ≤ 128)%nat
}.
Record filled (dv : ide_device_t) (req l : Z) (c : nat) (data : list Z) : Prop := {
  fi_usable : usable dv;
  fi_reading : reading dv 0 (256 * c);
  fi_req : dv_req_sectors dv = req;
  fi_names : names dv l;
  fi_status : dv_reg_status dv = 0x58;
  fi_bound : (1 ≤ c ≤ 128)%nat;
  fi_data : take (256 * c) (words (dv_io_buffer dv)) = data
}.

Lemma chunk_range req : 0 < req → 1 ≤ chunk req ≤ 128 ∧ chunk req ≤ req.
Proof. intros. unfold chunk, IDE_IOBUFFER_BLOCKS, IDE_IOBUFFER_SIZE, IDE_SECTOR_SIZE. change (65536 / 512) with 128. case_bool_decide; lia. Qed.
Lemma bsy_busy dv : busy (dv_reg_status (bsy dv)) = true.
Proof. unfold busy, bsy, bit_test. cbn [dv_reg_status dv_set_reg_status]. rewrite bit_set_spec, bool_decide_eq_true_2 by (done || (unfold ST_BSY; lia)). apply orb_true_r. Qed.
Lemma names_bsy dv l : names dv l → names (bsy dv) l.
Proof. by intros [? ? ? ?]. Qed.

Lemma slice_length off len (l : list Z) : (off + len ≤ length l)%nat → length (slice off len l) = len.
Proof. intros. unfold slice. rewrite length_take, length_drop. lia. Qed.
Lemma splice0 (x b : list Z) : splice 0 x b = x ++ drop (length x) b.
Proof. done. Qed.

Lemma wp_turn_read s p h lba req l (c : nat) dv disk (Q : unit → ide_t → Prop) :
  at_drive s p (Some (request h lba (c * 512) false)) dv disk → selected s → armed dv req l c → 0 ≤ lba → 512 * (lba + c) ≤ length disk →
  (∀ s' dv', at_drive s' (S p) None dv' disk → selected s' →
     filled dv' req l c (words (slice (Z.to_nat (512 * lba)) (512 * c) disk)) → Q tt s') →
  wp no_fault server_turn Q s.
Proof.
  intros Ha Hs Hr Hlba Hlen HQ. destruct Hr as [[Hp Hb] H1 H2 H3 H4 H5 H6 H7].
  eapply wp_turn; [exact Ha|lia|by left|]. intros s' A1 C1. eapply HQ; [exact A1|unfold selected; by rewrite C1|].
  unfold completed, served_dev. cbn [dv_data_transfer dv_set_io_buffer]. rewrite H1, bool_decide_eq_true_2 by done.
  set (X := slice (Z.to_nat (512 * lba)) (512 * c) disk). replace (Z.to_nat (c * 512)) with (512 * c)%nat by lia. fold X.
  assert (length X = 512 * c)%nat as HX by (apply slice_length; lia).
  assert (Z.of_nat (length (splice 0 X (dv_io_buffer dv))) = 65536) as Hbuf by (rewrite splice0, length_app, length_drop, HX; lia).
  split; [by split| |done|by destruct H5|done|done|].
  - split; [done|etrans; [exact H2|done]|etrans; [exact H3|lia]|lia|done|done].
  - change (take (256 * c) (words (splice 0 X (dv_io_buffer dv))) = words X). rewrite splice0, (words_app (256 * c)) by lia. rewrite take_app_length'; [done|]. symmetry. apply length_words. lia.
Qed.

(** The data of a chunk, then the end of the command or the next request. *)
Lemma wp_drain s p req l c data dv disk (Q : list Z → ide_t → Prop) :
  at_drive s p None dv disk → selected s → filled dv req l c data → 0 ≤ l → l + chunk req < 2 ^ 28 → 0 ≤ req < 2 ^ 16 →
  (req = 0 → ∀ s' dv', at_drive s' p None dv' disk → selected s' → usable dv' → dv_reg_status dv' = 0x50 → Q data s') →
  (0 < req → ∀ s' dv', at_drive s' p (Some (request (id_handle s') l (chunk req * 512) false)) dv' disk → selected s' →
     armed dv' (req - chunk req) (l + chunk req) (Z.to_nat (chunk req)) → Q data s') →
  wp no_fault (pio_in (256 * c)) Q s.
Proof.
  intros Ha Hs [[Hp Hb] Hr H1 H2 H3 H4 H5] Hl Hl2 Hreq Q0 Q1. replace (256 * c)%nat with (256 * c - 1 + 1)%nat by lia.
  apply wp_pio_in_app. eapply (wp_pio_in _ 0 (256 * c)); [exact Ha|done|exact Hr|lia|]. intros s1 A1 S1. cbn [pio_in].
  set (dv1 := dv_set_io_buffer_index _ dv) in A1. assert (reading dv1 (256 * c - 1) (256 * c)) as Hr1.
  { by destruct Hr as [? ? ? ? ? ?]. }
  destruct (reading_word dv1 (256 * c - 1) (256 * c) Hr1 ltac:(lia)) as (w & Hw & Hg). pose proof Hr1 as [G1 G2 G3 G4 G5 G6].
  assert (take (256 * c - 1) (drop 0 (words (dv_io_buffer dv))) ++ [w] = data) as Hdata.
  { change (dv_io_buffer dv1) with (dv_io_buffer dv) in Hw. rewrite drop_0, <- H5. replace (256 * c)%nat with (S (256 * c - 1)) at 2 by lia. by rewrite (take_S_r _ _ _ Hw). }
  apply wp_bind. eapply in_data; [exact A1|done|done|]. unfold io_data_read. apply wp_bind. eapply wp_load_drive; [exact A1|].
  rewrite G1, G2, G3, Hg, u32_index by lia. rewrite (bool_decide_eq_false_2 (IDE_CMD_DATA_IN ≠ IDE_CMD_DATA_IN)) by auto. cbn [mof_option].
  apply wp_bind, wp_mret, wp_bind. eapply wp_upd_dev; [exact A1|]. intros s2 A2 C2. rewrite bool_decide_eq_true_2 by lia.
  change (dv_req_sectors dv1) with (dv_req_sectors dv). rewrite H1. set (dv2 := dv_set_io_buffer_index _ dv1) in A2.
  apply wp_bind. destruct (decide (req = 0)) as [->|Hne].
  - rewrite bool_decide_eq_false_2 by lia. eapply wp_upd_dev; [exact A2|]. intros s3 A3 C3. apply wp_mret, wp_bind, wp_mret, wp_mret.
    rewrite Hdata. eapply Q0; [done|exact A3|unfold selected; by rewrite C3, C2|done|done].
  - rewrite bool_decide_eq_true_2 by lia. unfold next_chunk. apply wp_bind. eapply wp_load_drive; [exact A2|].
    change (dv_req_sectors dv2) with (dv_req_sectors dv). rewrite H1. pose proof (chunk_range req ltac:(lia)) as Hch.
    assert (get_sector dv2 = l) as Hsec by (apply names_sector; [lia|by destruct H2]). rewrite Hsec.
    apply wp_bind. eapply wp_transfer; [exact A2|]. intros s3 A3 C3. eapply wp_upd_dev; [exact A3|]. intros s4 A4 C4.
    apply wp_mret, wp_bind, wp_mret, wp_mret. rewrite Hdata. cbv beta in A4. rewrite Hsec in A4.
    assert (id_handle s4 = id_handle s3) as Hh.
    { destruct (ad_out _ _ _ _ _ A4 _ eq_refl) as (_ & _ & Hh). by symmetry. }
    eapply Q1; [lia|rewrite Hh; exact A4|unfold selected; by rewrite C4, C3, C2|].
    split; cbn [bsy dv_data_transfer dv_io_buffer_index dv_io_buffer_size dv_req_sectors]; try done.
    + change (chunk req * 512 = 512 * Z.to_nat (chunk req)). lia.
    + change (u16 (dv_req_sectors dv - chunk req) = req - chunk req). rewrite H1. apply wrap_small. lia.
    + apply names_bsy, set_sector_names. lia.
    + apply bsy_busy.
    + lia.
Qed.

Lemma usable_regs lba n dv : usable dv → usable (with_regs lba n dv).
Proof. by intros [? ?]. Qed.
Lemma wp_start_read s p dv disk lba (n : nat) (Q : unit → ide_t → Prop) :
  at_drive s p None dv disk → selected s → usable dv → names dv lba → bit_test DV_LBA (dv_reg_device dv) = true →
  nsectors dv = n → (1 ≤ n ≤ 256)%nat → 0 ≤ lba → lba + n < 2 ^ 28 →
  (∀ s' dv', at_drive s' p (Some (request (id_handle s') lba (first_chunk n * 512) false)) dv' disk → selected s' →
     armed dv' (n - first_chunk n)%nat (lba + first_chunk n) (first_chunk n) → Q tt s') →
  wp no_fault (ide_command 0 (u16 IDE_CMD_READ_SECTORS)) Q s.
Proof.
  intros Ha Hs Hu Hn Hb Hns Hr Hlba Hl2 HQ. change (ide_command 0 (u16 IDE_CMD_READ_SECTORS)) with
    (dv ← load_dev 0; massert (dv_present dv);; read_sectors 0).
  apply wp_bind. eapply wp_load_drive; [exact Ha|]. apply wp_bind, wp_massert; [by rewrite (us_present _ Hu)|]. intros _.
  unfold read_sectors, read_submit. apply wp_bind, wp_bind. eapply wp_load_drive; [exact Ha|]. rewrite Hns, Hb. cbv zeta.
  apply wp_bind. eapply wp_upd_dev; [exact Ha|]. intros s1 A1 C1. apply wp_bind, wp_mret. rewrite (names_sector dv lba) by (done || lia).
  assert (chunk n = first_chunk n) as ->.
  { unfold chunk, first_chunk, IDE_IOBUFFER_BLOCKS, IDE_IOBUFFER_SIZE, IDE_SECTOR_SIZE. change (65536 / 512) with 128. case_bool_decide; lia. }
  set (c := first_chunk n) in *. assert (1 ≤ c ≤ 128 ∧ c ≤ n)%nat as Hc by (unfold c, first_chunk; lia).
  apply wp_bind. eapply wp_transfer; [exact A1|]. intros s2 A2 C2. apply wp_mret. unfold read_finish. cbn [fst snd].
  eapply wp_upd_dev; [exact A2|]. intros s3 A3 C3.
  assert (id_handle s3 = id_handle s2) as Hh by (destruct (ad_out _ _ _ _ _ A3 _ eq_refl) as (_ & _ & Hh); by symmetry).
  eapply HQ; [rewrite Hh; exact A3|unfold selected; by rewrite C3, C2, C1|].
  split; [by destruct Hu|done|done|done| | |apply bsy_busy|lia].
  - change (u16 (n - c) = (n - c)%nat). rewrite wrap_small by lia. lia.
  - apply names_bsy, set_sector_names. lia.
Qed.

Lemma slice_app off a b (l : list Z) : slice off (a + b) l = slice off a l ++ slice (off + a) b l.
Proof. unfold slice. by rewrite <- drop_drop, take_take_drop. Qed.
Definition at_rest (s : ide_t) (disk : list Z) : Prop := ∃ p dv, at_drive s p None dv disk ∧ usable dv.

Lemma read_session_ok s disk lba (n : nat) :
  at_rest s disk → (1 ≤ n ≤ 256)%nat → 0 ≤ lba → 512 * (lba + n) ≤ length disk → lba + n < 2 ^ 28 →
  wp no_fault (read_session lba n) (λ ws s', ws = words (slice (Z.to_nat (512 * lba)) (512 * n) disk) ∧ at_rest s' disk) s.
Proof.
  intros (p & dv & Ha & Hu) Hn Hlba Hlen Hl2. unfold read_session. set (c := first_chunk n).
  assert (1 ≤ c ≤ 128 ∧ c ≤ n)%nat as Hc by (unfold c, first_chunk; lia).
  apply wp_bind. eapply wp_select; [exact Ha|lia|]. intros s1 A1 S1.
  eapply (wp_start_read s1 p _ disk lba n); [exact A1|done|by apply usable_regs|apply with_regs_names; lia|
    apply with_regs_lba; lia|apply with_regs_nsectors; lia|done|done|done|]. fold c. intros s2 dv2 A2 S2 R2.
  apply wp_bind. eapply wp_expect; [exact A2|done|apply R2|apply R2|]. apply wp_bind. eapply wp_turn_read; [exact A2|done|exact R2|done|lia|].
  intros s3 dv3 A3 S3 F3. apply wp_bind. eapply wp_expect; [exact A3|done|apply F3|by rewrite (fi_status _ _ _ _ _ F3)|].
  apply wp_bind. destruct (decide (n ≤ 128)%nat) as [Hle|Hgt].
  - assert (c = n) as Hcn by (unfold c, first_chunk; lia).
    eapply wp_drain; [exact A3|done|exact F3|lia|rewrite Hcn, Nat.sub_diag; change (chunk 0%nat) with 0; lia|lia| |intros; exfalso; lia].
    intros _ s4 dv4 A4 S4 U4 St4. rewrite bool_decide_eq_true_2 by done. apply wp_bind.
    eapply wp_expect; [exact A4|done|apply U4|by rewrite St4|]. apply wp_mret. rewrite Hcn. split; [done|]. by exists (S p), dv4.
  - assert (c = 128%nat) as Hcn by (unfold c, first_chunk; lia). assert (chunk (n - c)%nat = (n - c)%nat) as Hch.
    { unfold chunk, IDE_IOBUFFER_BLOCKS, IDE_IOBUFFER_SIZE, IDE_SECTOR_SIZE. change (65536 / 512) with 128. rewrite bool_decide_eq_false_2 by lia. lia. }
    eapply wp_drain; [exact A3|done|exact F3|lia|rewrite Hch; lia|lia|intros; exfalso; lia|]. rewrite Hch. intros _ s4 dv4 A4 S4 R4. rewrite Nat2Z.id in R4.
    rewrite bool_decide_eq_false_2 by done. apply wp_bind. eapply wp_expect; [exact A4|done|apply R4|apply R4|].
    apply wp_bind. eapply wp_turn_read; [exact A4|done|exact R4|lia|lia|]. intros s5 dv5 A5 S5 F5.
    apply wp_bind. eapply wp_expect; [exact A5|done|apply F5|by rewrite (fi_status _ _ _ _ _ F5)|].
    replace (n - 128)%nat with (n - c)%nat by lia. apply wp_bind. eapply wp_drain; [exact A5|done|exact F5|lia|..|intros; exfalso; lia].
    { replace ((n - c)%nat - (n - c)%nat) with 0 by lia. change (chunk 0) with 0. lia. } { lia. }
    intros _ s6 dv6 A6 S6 U6 St6. apply wp_bind. eapply wp_expect; [exact A6|done|apply U6|by rewrite St6|]. apply wp_mret.
    split; [|by exists (S (S p)), dv6]. replace (512 * n)%nat with (512 * c + 512 * (n - c))%nat by lia.
    rewrite slice_app, (words_app (256 * c)) by (rewrite slice_length; lia). do 3 f_equal. lia.
Qed.

(** ** Writing *)

Lemma u8_shift w : u8 (Z.shiftr (u16 w) 8) = u8 (Z.shiftr w 8).
Proof.
  apply Z.bits_inj'. intros k Hk. rewrite !wrap_testbit, !Z.shiftr_spec, wrap_testbit by lia. destruct (decide (k < 8)).
  - by rewrite (bool_decide_eq_true_2 (k + 8 < 16)) by lia.
  - by rewrite bool_decide_eq_false_2 by lia.
Qed.

(** A transfer to the drive: the half-words [ws] of [m] are in the buffer. *)
Record writing (dv : ide_device_t) (ws : list Z) (m : nat) (req lba : Z) : Prop := {
  wr_usable : usable dv;
  wr_mode : dv_data_transfer dv = IDE_CMD_DATA_OUT;
  wr_index : dv_io_buffer_index dv = 2 * length ws;
  wr_size : dv_io_buffer_size dv = 2 * m;
  wr_bound : m ≤ 32768;
  wr_data : take (2 * length ws) (dv_io_buffer dv) = bytes ws;
  wr_req : dv_req_sectors dv = req;
  wr_names : names dv lba
}.
(** The drive after one more half-word. *)
Definition stored (w : Z) (dv : ide_device_t) (b : list Z) : ide_device_t :=
  dv_set_io_buffer_index (u32 (dv_io_buffer_index dv + 2)) (dv_set_io_buffer b dv).
Lemma writing_step dv ws m req lba w : writing dv ws m req lba → (length ws < m)%nat →
  ∃ b, put16 (dv_io_buffer dv) (dv_io_buffer_index dv) (u16 w) = Some b ∧ writing (stored w dv b) (ws ++ [w]) m req lba.
Proof.
  intros [[Hp Hb] H1 H2 H3 H4 H5 H6 H7] Hm. set (rest := drop (2 * length ws) (dv_io_buffer dv)).
  assert (dv_io_buffer dv = bytes ws ++ rest) as Hbuf by (rewrite <- H5; unfold rest; by rewrite take_drop).
  assert (2 ≤ length rest)%nat as Hrest by (unfold rest; rewrite length_drop; lia).
  destruct rest as [|lo [|hi rest']] eqn:Hre; [cbn in Hrest; lia..|].
  exists (bytes ws ++ u8 (u16 w) :: u8 (Z.shiftr (u16 w) 8) :: rest'). pose proof (length_bytes ws) as Hlb. split.
  - rewrite Hbuf, H2. replace (2 * length ws) with (Z.of_nat (length (bytes ws))) by lia. apply put16_app.
  - assert (length (bytes ws ++ lo :: hi :: rest') = length (bytes ws ++ u8 (u16 w) :: u8 (Z.shiftr (u16 w) 8) :: rest')) as Hll
      by (rewrite !length_app; done).
    split; try done.
    + split; [done|]. change (Z.of_nat (length (bytes ws ++ u8 (u16 w) :: u8 (Z.shiftr (u16 w) 8) :: rest')) = 65536). rewrite <- Hll, <- Hbuf. done.
    + change (u32 (dv_io_buffer_index dv + 2) = 2 * length (ws ++ [w])). rewrite H2, u32_index, length_app by lia. cbn. lia.
    + change (take (2 * length (ws ++ [w])) (bytes ws ++ u8 (u16 w) :: u8 (Z.shiftr (u16 w) 8) :: rest') = bytes (ws ++ [w])).
      rewrite length_app, bytes_app, u8_u16, u8_shift. replace (2 * (length ws + length [w]))%nat with (length (bytes ws) + 2)%nat by (cbn; lia).
      by rewrite take_app_add.
    + by destruct H7.
Qed.

Lemma out_data s w (Q : unit → ide_t → Prop) : selected s → wp no_fault (io_data_write 0 (u16 w)) Q s → wp no_fault (ide_out IDE_DATA w) Q s.
Proof.
  intros Hs HQ. change (ide_out IDE_DATA w) with (c ← get_current 0; io_data_write (drive 0 c) (u16 w)). unfold get_current.
  apply wp_bind, wp_bind, wp_mgets. rewrite Hs. apply wp_mret. exact HQ.
Qed.
(** The word is stored; what follows depends on the counters. *)
Lemma wp_store s p dv disk ws m req lba w (Q : unit → ide_t → Prop) :
  at_drive s p None dv disk → selected s → writing dv ws m req lba → (length ws < m)%nat →
  (∀ s' dv', at_drive s' p None dv' disk → selected s' → writing dv' (ws ++ [w]) m req lba →
     wp no_fault (if bool_decide (S (length ws) = m) then (if bool_decide (req > 0) then next_chunk 0 true else upd_dev 0 bsy;; l4vm_transfer_block lba (2 * m) true 0)
       else if bool_decide ((2 * S (length ws)) `mod` 512 = 0) then ide_raise_irq 0 else mret tt) Q s') →
  0 ≤ lba < 2 ^ 28 → wp no_fault (ide_out IDE_DATA w) Q s.
Proof.
  intros Ha Hs Hw Hm HQ Hlba. destruct (writing_step dv ws m req lba w Hw Hm) as (b & Hb & Hw'). pose proof Hw as [H0 H1 H2 H3 H4 H5 H6 H7].
  apply out_data; [done|]. unfold io_data_write. apply wp_bind. eapply wp_load_drive; [exact Ha|].
  rewrite H1, (bool_decide_eq_false_2 (IDE_CMD_DATA_OUT ≠ IDE_CMD_DATA_OUT)) by auto. rewrite Hb. cbn [mof_option].
  apply wp_bind, wp_mret, wp_bind. eapply wp_upd_dev; [exact Ha|]. intros s1 A1 C1.
  specialize (HQ s1 _ A1 ltac:(unfold selected; by rewrite C1) Hw'). cbv zeta. rewrite H2, H3, u32_index, H6, (names_sector dv lba) by (done || lia).
  destruct (decide (S (length ws) = m)) as [He|Hne].
  - rewrite (bool_decide_eq_true_2 (S (length ws) = m)) in HQ by done. rewrite (bool_decide_eq_true_2 (_ >= _)) by lia. exact HQ.
  - rewrite (bool_decide_eq_false_2 (S (length ws) = m)) in HQ by done. rewrite (bool_decide_eq_false_2 (_ >= _)) by lia. exact HQ.
Qed.
Lemma wp_pio_out xs : ∀ ws s p dv disk m req lba (Q : unit → ide_t → Prop),
  at_drive s p None dv disk → selected s → writing dv ws m req lba → (length ws + length xs < m)%nat → 0 ≤ lba < 2 ^ 28 →
  (∀ s' dv', at_drive s' p None dv' disk → selected s' → writing dv' (ws ++ xs) m req lba → Q tt s') →
  wp no_fault (pio_out xs) Q s.
Proof.
  induction xs as [|x xs IH]; intros ws s p dv disk m req lba Q Ha Hs Hw Hm Hlba HQ; cbn [pio_out].
  { apply wp_mret. eapply HQ; [exact Ha|done|by rewrite app_nil_r]. }
  cbn in Hm. apply wp_bind. eapply wp_store; [exact Ha|done|exact Hw|lia| |done]. intros s1 dv1 A1 S1 W1.
  rewrite bool_decide_eq_false_2 by lia. assert (∀ s2, at_drive s2 p None dv1 disk → selected s2 → wp no_fault (pio_out xs) Q s2) as Hgo.
  { intros s2 A2 S2. eapply (IH (ws ++ [x])); [exact A2|done|exact W1|rewrite length_app; cbn; lia|done|].
    intros s3 dv3 A3 S3 W3. eapply HQ; [exact A3|done|]. by rewrite <- app_assoc in W3. }
  match goal with |- wp _ (if ?b then _ else _) _ _ => destruct b end; [|by apply wp_mret, Hgo].
  eapply wp_raise; [exact A1|]. intros s2 A2 C2. apply Hgo; [done|]. unfold selected. by rewrite C2.
Qed.
Lemma wp_pio_out_app xs ys s (Q : unit → ide_t → Prop) :
  wp no_fault (pio_out xs) (λ _ s', wp no_fault (pio_out ys) Q s') s → wp no_fault (pio_out (xs ++ ys)) Q s.
Proof.
  revert s Q. induction xs as [|x xs IH]; intros s Q H; [exact H|]. cbn [pio_out app] in *. apply wp_bind. apply wp_bind_inv in H.
  eapply wp_mono; [exact H|]. cbv beta. intros [] s1 H1. by apply IH.
Qed.

(** The buffer is full and a request is out. *)
Record full (dv : ide_device_t) (ws : list Z) (req : Z) : Prop := {
  fu_usable : usable dv;
  fu_mode : dv_data_transfer dv = IDE_CMD_DATA_OUT;
  fu_data : take (2 * length ws) (dv_io_buffer dv) = bytes ws;
  fu_req : dv_req_sectors dv = req;
  fu_busy : busy (dv_reg_status dv) = true
}.
Lemma wp_fill ws s p dv disk m req lba (Q : unit → ide_t → Prop) :
  at_drive s p None dv disk → selected s → writing dv [] m req lba → length ws = m → (0 < m)%nat →
  0 ≤ lba → lba + chunk req < 2 ^ 28 → 0 ≤ req < 2 ^ 16 →
  (∀ s' dv' size req', at_drive s' p (Some (request (id_handle s') lba size true)) dv' disk → selected s' → full dv' ws req' →
     (req = 0 → size = 2 * m ∧ req' = 0 ∧ dv_io_buffer_index dv' = 2 * m) →
     (0 < req → size = chunk req * 512 ∧ req' = req - chunk req) → Q tt s') →
  wp no_fault (pio_out ws) Q s.
Proof.
  intros Ha Hs Hw Hlen Hm Hlba Hl2 Hreq HQ. destruct (exists_last (l := ws)) as (xs & w & ->); [intros ->; cbn in Hlen; lia|].
  rewrite length_app in Hlen. cbn in Hlen. pose proof (chunk_range req) as Hcr. assert (lba < 2 ^ 28).
  { destruct (decide (req = 0)) as [->|]; [|lia]. change (chunk 0) with 0 in Hl2. lia. }
  apply wp_pio_out_app. eapply (wp_pio_out xs []); [exact Ha|done|exact Hw|cbn; lia|lia|]. cbn [app]. intros s1 dv1 A1 S1 W1.
  cbn [pio_out]. apply wp_bind. eapply wp_store; [exact A1|done|exact W1|lia| |lia]. intros s2 dv2 A2 S2 [U2 M2 I2 Z2 B2 D2 R2 N2].
  rewrite bool_decide_eq_true_2 by lia. destruct (decide (req = 0)) as [->|Hne].
  - rewrite bool_decide_eq_false_2 by lia. apply wp_bind. eapply wp_upd_dev; [exact A2|]. intros s3 A3 C3. eapply wp_transfer; [exact A3|].
    intros s4 A4 C4. apply wp_mret. eapply HQ; [exact A4|unfold selected; by rewrite C4, C3| |intros _; split_and!; [done|done|]|intros; exfalso; lia].
    + split; [by destruct U2|done|done|done|apply bsy_busy].
    + etrans; [exact I2|]. rewrite length_app. cbn. lia.
  - rewrite bool_decide_eq_true_2 by lia. unfold next_chunk. apply wp_bind. eapply wp_load_drive; [exact A2|].
    rewrite R2, (names_sector dv2 lba) by (done || lia). apply wp_bind. eapply wp_transfer; [exact A2|]. intros s3 A3 C3.
    eapply wp_upd_dev; [exact A3|]. intros s4 A4 C4. apply wp_mret.
    assert (id_handle s4 = id_handle s3) as Hh by (destruct (ad_out _ _ _ _ _ A4 _ eq_refl) as (_ & _ & Hh); by symmetry).
    eapply (HQ s4 _ (chunk req * 512) (req - chunk req)); [rewrite Hh; exact A4|unfold selected; by rewrite C4, C3| |intros; exfalso; lia|done].
    split; [by destruct U2|done|done| |apply bsy_busy]. change (u16 (dv_req_sectors dv2 - chunk req) = req - chunk req). rewrite R2. apply wrap_small. lia.
Qed.
Lemma wp_turn_write s p h lba size req ws dv disk (Q : unit → ide_t → Prop) :
  at_drive s p (Some (request h lba size true)) dv disk → selected s → full dv ws req → 0 ≤ size ≤ 2 * length ws →
  512 * lba + size ≤ length disk →
  (∀ s', at_drive s' (S p) None (if bool_decide (req > 0) then set_data_wait dv else set_cmd_wait dv)
       (splice (Z.to_nat (512 * lba)) (take (Z.to_nat size) (bytes ws)) disk) → selected s' → Q tt s') →
  wp no_fault server_turn Q s.
Proof.
  intros Ha Hs [[Hp Hb] H1 H2 H3 H4] Hsz Hlen HQ. eapply wp_turn; [exact Ha|done|by right|]. intros s' A1 C1.
  unfold completed, served_dev, served_disk in A1. rewrite H1, H3 in A1. rewrite (bool_decide_eq_false_2 (IDE_CMD_DATA_OUT = IDE_CMD_DATA_IN)) in A1 by done.
  apply HQ; [|unfold selected; by rewrite C1].
  rewrite <- H2, take_take. replace (Z.to_nat size `min` (2 * length ws))%nat with (Z.to_nat size) by lia. exact A1.
Qed.

Lemma wp_start_write s p dv disk lba (n : nat) (Q : unit → ide_t → Prop) :
  at_drive s p None dv disk → selected s → usable dv → names dv lba → bit_test DV_LBA (dv_reg_device dv) = true →
  nsectors dv = n → (1 ≤ n ≤ 256)%nat →
  (∀ s' dv', at_drive s' p None dv' disk → selected s' → dv_reg_status dv' = 0x58 →
     writing dv' [] (256 * first_chunk n) (n - first_chunk n)%nat lba → Q tt s') →
  wp no_fault (ide_command 0 (u16 IDE_CMD_WRITE_SECTORS)) Q s.
Proof.
  intros Ha Hs Hu Hn Hb Hns Hr HQ. change (ide_command 0 (u16 IDE_CMD_WRITE_SECTORS)) with
    (dv ← load_dev 0; massert (dv_present dv);; write_sectors 0).
  apply wp_bind. eapply wp_load_drive; [exact Ha|]. apply wp_bind, wp_massert; [by rewrite (us_present _ Hu)|]. intros _.
  unfold write_sectors. apply wp_bind. eapply wp_load_drive; [exact Ha|]. rewrite Hns, Hb. cbv zeta.
  apply wp_bind. eapply wp_upd_dev; [exact Ha|]. intros s1 A1 C1. apply wp_bind, wp_mret, wp_bind.
  eapply wp_upd_dev; [exact A1|]. intros s2 A2 C2. apply wp_bind. eapply wp_upd_dev; [exact A2|]. intros s3 A3 C3.
  eapply wp_raise; [exact A3|]. intros s4 A4 C4. eapply HQ; [exact A4|unfold selected; by rewrite C4, C3, C2, C1|done|].
  assert (chunk n = first_chunk n) as Hch.
  { unfold chunk, first_chunk, IDE_IOBUFFER_BLOCKS, IDE_IOBUFFER_SIZE, IDE_SECTOR_SIZE. change (65536 / 512) with 128. case_bool_decide; lia. }
  assert (1 ≤ first_chunk n ≤ 128 ∧ first_chunk n ≤ n)%nat as Hc by (unfold first_chunk; lia).
  split; [by destruct Hu|done|done| |lia|done| |by destruct Hn].
  - change (512 * chunk n = 2 * (256 * first_chunk n)%nat). rewrite Hch. lia.
  - change (u16 (n - chunk n) = (n - first_chunk n)%nat). rewrite Hch, wrap_small by lia. lia.
Qed.

Lemma write_session_ok s disk lba (n : nat) ws :
  at_rest s disk → length ws = (256 * n)%nat → (1 ≤ n ≤ 128)%nat → 0 ≤ lba → 512 * (lba + n) ≤ length disk → lba + n < 2 ^ 28 →
  wp no_fault (write_session lba ws) (λ _ s', at_rest s' (splice (Z.to_nat (512 * lba)) (bytes ws) disk)) s.
Proof.
  intros (p & dv & Ha & Hu) Hws Hn Hlba Hlen Hl2. unfold write_session.
  replace (length ws / 256)%nat with n by (rewrite Hws, Nat.mul_comm, Nat.div_mul; lia). assert (first_chunk n = n) as Hc by (unfold first_chunk; lia).
  apply wp_bind. eapply wp_select; [exact Ha|lia|]. intros s1 A1 S1.
  eapply (wp_start_write s1 p _ disk lba n); [exact A1|done|by apply usable_regs|apply with_regs_names; lia|
    apply with_regs_lba; lia|apply with_regs_nsectors; lia|lia|]. rewrite Hc, Nat.sub_diag. intros s2 dv2 A2 S2 St2 W2.
  apply wp_bind. eapply wp_expect; [exact A2|done|apply W2|by rewrite St2|]. apply wp_bind.
  eapply (wp_fill ws); [exact A2|done|exact W2|done|lia|lia|change (chunk 0%nat) with 0; lia|lia|]. intros s3 dv3 size req A3 S3 F3 E3 _.
  destruct (E3 eq_refl) as (-> & -> & _). apply wp_bind. eapply wp_expect; [exact A3|done|apply F3|apply F3|].
  apply wp_bind. eapply wp_turn_write; [exact A3|done|exact F3|lia|lia|]. rewrite bool_decide_eq_false_2 by lia. intros s4 A4 S4.
  eapply wp_expect; [exact A4|done|apply F3|done|]. exists (S p), (set_cmd_wait dv3). split; [|by destruct F3 as [[? ?] ? ? ? ?]].
  rewrite take_ge in A4; [done|]. rewrite length_bytes. lia.
Qed.

(** ** A disk *)

(** What the guest does, and what it is on a disk of bytes. *)
Inductive disk_op : Type := DRead (lba : Z) (n : nat) | DWrite (lba : Z) (ws : list Z).
Definition disk_step (o : disk_op) (disk : list Z) : list Z * list Z :=
  match o with
  | DRead lba n => (words (slice (Z.to_nat (512 * lba)) (512 * n) disk), disk)
  | DWrite lba ws => ([], splice (Z.to_nat (512 * lba)) (bytes ws) disk)
  end.
Fixpoint disk_run (ops : list disk_op) (disk : list Z) : list (list Z) * list Z :=
  match ops with
  | [] => ([], disk)
  | o :: ops => let '(r, disk) := disk_step o disk in let '(rs, disk) := disk_run ops disk in (r :: rs, disk)
  end.
Definition op_run (o : disk_op) : MI (list Z) :=
  match o with DRead lba n => read_session lba n | DWrite lba ws => write_session lba ws;; mret [] end.
Fixpoint ops_run (ops : list disk_op) : MI (list (list Z)) :=
  match ops with [] => mret [] | o :: ops => r ← op_run o; rs ← ops_run ops; mret (r :: rs) end.
(** The sectors are on the disk of [len] bytes; at most 256 are read and 128 written. *)
Definition sectors_ok (len : nat) (lba : Z) (n : nat) : Prop := 0 ≤ lba ∧ 512 * (lba + n) ≤ len ∧ lba + n < 2 ^ 28.
Definition dop_ok (len : nat) (o : disk_op) : Prop :=
  match o with
  | DRead lba n => (1 ≤ n ≤ 256)%nat ∧ sectors_ok len lba n
  | DWrite lba ws => length ws = (256 * (length ws / 256))%nat ∧ (1 ≤ length ws / 256 ≤ 128)%nat ∧ sectors_ok len lba (length ws / 256)
  end.

Lemma length_splice off (x l : list Z) : (off + length x ≤ length l)%nat → length (splice off x l) = length l.
Proof. intros. unfold splice. rewrite !length_app, length_take, length_drop. lia. Qed.
Lemma op_run_ok o s disk : at_rest s disk → dop_ok (length disk) o →
  wp no_fault (op_run o) (λ r s', r = (disk_step o disk).1 ∧ at_rest s' (disk_step o disk).2 ∧ length (disk_step o disk).2 = length disk) s.
Proof.
  intros Hs Ho. destruct o as [lba n|lba ws]; cbn [op_run disk_step fst snd].
  - destruct Ho as (Hn & H1 & H2 & H3). eapply wp_mono; [by apply read_session_ok|]. intros ws s' [Hw Hr]. done.
  - destruct Ho as (Hl & Hn & H1 & H2 & H3). apply wp_bind. eapply wp_mono; [by apply (write_session_ok s disk lba (length ws / 256) ws)|]. intros [] s' Hr.
    apply wp_mret. split_and!; [done..|]. apply length_splice. rewrite length_bytes. lia.
Qed.
Lemma ops_run_ok ops : ∀ s disk, at_rest s disk → Forall (dop_ok (length disk)) ops →
  ∃ s', ops_run ops s = Ok (disk_run ops disk).1 s' ∧ at_rest s' (disk_run ops disk).2.
Proof.
  induction ops as [|o ops IH]; intros s disk Hs Hok; [by exists s|]. apply Forall_cons_1 in Hok as [Ho Hok].
  destruct (wp_no_fault _ _ _ (op_run_ok o s disk Hs Ho)) as (r & s1 & Hrun & -> & Hr1 & Hl1). cbn [ops_run disk_run].
  destruct (disk_step o disk) as [r disk1]. cbn [fst snd] in *. rewrite <- Hl1 in Hok. destruct (IH s1 disk1 Hr1 Hok) as (s2 & Hrun2 & Hr2).
  destruct (disk_run ops disk1) as [rs disk2]. cbn [fst snd] in *. exists s2. split; [|done]. erewrite bind_ok by exact Hrun. cbv beta.
  by erewrite bind_ok by exact Hrun2.
Qed.

(** The set-up leaves drive 0 at rest when its disk could be attached. *)
Record attached (c : drive_cfg) : Prop := {
  at_major : dc_major c ≤ 258;
  at_minor : dc_minor c ≤ 255;
  at_probe : is_Some (dc_probe c);
  at_attach : dc_attach c = true
}.
Lemma set_signature_buffer d : dv_io_buffer (set_signature d) = dv_io_buffer d.
Proof. unfold set_signature. cbv zeta. match goal with |- dv_io_buffer (if ?b then _ else _) = _ => destruct b end; reflexivity. Qed.
Lemma calculate_chs_buffer d : dv_io_buffer (calculate_chs d) = dv_io_buffer d.
Proof. reflexivity. Qed.
Lemma init_drive_usable c dv : attached c → Z.of_nat (length (dv_io_buffer dv)) = 65536 → usable (init_drive (Some c) dv).
Proof.
  intros [H1 H2 [[size flags] H3] H4] Hb. unfold init_drive. rewrite !bool_decide_eq_false_2, H3, H4 by lia. cbn [orb negb]. cbv zeta.
  assert (dv_io_buffer (set_signature (init_device dv)) = dv_io_buffer dv) as Hd by (rewrite set_signature_buffer; reflexivity).
  generalize dependent (set_signature (init_device dv)). intros d Hd.
  assert (dv_io_buffer (calculate_chs (dv_set_lba_sector size (dv_set_serial (save_serial (dc_name c)) d))) = dv_io_buffer dv) as Hd2
    by (rewrite calculate_chs_buffer; exact Hd).
  generalize dependent (calculate_chs (dv_set_lba_sector size (dv_set_serial (save_serial (dc_name c)) d))). intros d2 Hd2.
  split; [reflexivity|]. change (Z.of_nat (length (dv_io_buffer d2)) = 65536). by rewrite Hd2.
Qed.
Lemma init_at h cfgs c disks disk : zlookup cfgs 0 = Some (Some c) → zlookup disks h = Some disk →
  ∃ s, ide_init (Some h) cfgs true (ide_zero disks) = Ok tt s ∧ at_drive s 0 None (init_drive (Some c) dev_zero) disk.
Proof.
  intros Hc Hd. enough (wp no_fault (ide_init (Some h) cfgs true) (λ _ s, at_drive s 0 None (init_drive (Some c) dev_zero) disk) (ide_zero disks)) as Hwp
    by (destruct (wp_no_fault _ _ _ Hwp) as ([] & s & ? & ?); eauto).
  unfold ide_init, ide_zero. generalize dev_zero as z. intros z.
  apply wp_bind, wp_mmodify, wp_bind, wp_mmodify. change (Z.to_nat IDE_MAX_DEVICES) with 4%nat. cbn [init_drives]. rewrite Hc.
  apply wp_bind, wp_bind. eapply (wp_upd_dev _ 0 None z disk).
  { split; try done; cbn [id_ring id_set_handle id_set_start_dirty id_set_start_free].
    intros k r Hk Ho. unfold zlookup in Hk. destruct (decide (0 ≤ k)); [|done]. apply lookup_replicate in Hk as [-> _]. done. }
  intros s1 A1 _. cbn [default] in A1. apply wp_bind. eapply wp_upd_other; [exact A1|lia|]. intros s2 A2 _. apply wp_bind. eapply wp_upd_other; [exact A2|lia|]. intros s3 A3 _.
  apply wp_bind. eapply wp_upd_other; [exact A3|lia|]. intros s4 A4 _. apply wp_mret, wp_bind, wp_mmodify.
  apply wp_bind, wp_mmodify, wp_bind, wp_mmodify, wp_mmodify. by destruct A4 as [? ? ? ? ? ? ? ? ?].
Qed.
Lemma dev_zero_buffer : Z.of_nat (length (dv_io_buffer dev_zero)) = 65536.
Proof. unfold dev_zero. cbn [dv_io_buffer]. by rewrite length_replicate. Qed.
Lemma init_rest h cfgs c disks disk :
  zlookup cfgs 0 = Some (Some c) → attached c → zlookup disks h = Some disk →
  ∃ s, ide_init (Some h) cfgs true (ide_zero disks) = Ok tt s ∧ at_rest s disk.
Proof.
  intros Hc Hat Hd. destruct (init_at h cfgs c disks disk Hc Hd) as (s & Hrun & Ha). exists s. split; [done|].
  exists 0%nat, (init_drive (Some c) dev_zero). split; [done|]. apply init_drive_usable; [done|apply dev_zero_buffer].
Qed.

(** C8. A guest that follows the protocol of programmed I/O has a disk: from the set-up of
    the drives on, whatever sequence of reads (of up to 256 sectors) and writes (of up
    to 128) it performs, nothing faults, the status register is as the guest expects at
    every stage, each read returns the sectors as the writes before left them, and the
    disk behind the block server holds exactly what was written. *)
Theorem ide_disk_refines h cfgs c disks disk ops :
  zlookup cfgs 0 = Some (Some c) → attached c → zlookup disks h = Some disk → Forall (dop_ok (length disk)) ops →
  ∃ s, (ide_init (Some h) cfgs true;; ops_run ops) (ide_zero disks) = Ok (disk_run ops disk).1 s ∧
    zlookup (id_disks s) (id_handle s) = Some (disk_run ops disk).2.
Proof.
  intros Hc Hat Hd Hops. destruct (init_rest h cfgs c disks disk Hc Hat Hd) as (s1 & Hrun1 & Hr1).
  destruct (ops_run_ok ops s1 disk Hr1 Hops) as (s2 & Hrun2 & p & dv & Ha & _). exists s2.
  split; [by erewrite bind_ok by exact Hrun1|apply Ha].
Qed.
