(* ===== verification/IdeHazards.v ===== *)
(** * The IDE disks: identification, and where a guest is misled

    The identification block reports the size and the geometry of the disk. Writes of
    more than 128 sectors end early, a full buffer is overrun, and runs on a small
    machine show the commands to the second drive, to an absent drive and to a second
    disk, an error of the server, and an answer that comes too early. *)

From Stdlib Require Import ZArith Lia.
From stdpp Require Import base list numbers strings.
From S2P Require Import Prelude Pic PicSpec Ide IdeSpec.

(** ** The identification block *)

Lemma words_get b (i : nat) lo hi : zlookup b (2 * i) = Some lo → zlookup b (2 * i + 1) = Some hi → words b !! i = Some (lo + 256 * hi).
Proof.
  revert b. induction i as [|i IH]; intros b H1 H2.
  - destruct b as [|x [|y b]]; [done..|]. cbn in *. by injection H1 as ->; injection H2 as ->.
  - unfold zlookup in *. rewrite !decide_True in H1, H2 by lia. replace (Z.to_nat (2 * S i)) with (S (S (Z.to_nat (2 * i)))) in H1 by lia.
    replace (Z.to_nat (2 * S i + 1)) with (S (S (Z.to_nat (2 * i + 1)))) in H2 by lia. destruct b as [|x [|y b]]; [done..|].
    cbn in H1, H2 |- *. apply IH; unfold zlookup; by rewrite decide_True by lia.
Qed.

(** The half-word [i] of a buffer is [v]. *)
Definition word_is (b : list Z) (i v : Z) : Prop := zlookup b (2 * i) = Some (u8 v) ∧ zlookup b (2 * i + 1) = Some (u8 (Z.shiftr v 8)).
Lemma setw_is b i v : 0 ≤ i → 2 * i + 1 < length b → word_is (setw i v b) i v.
Proof.
  intros. unfold setw. split.
  - rewrite zlookup_zinsert_ne by lia. apply zlookup_zinsert_eq. lia.
  - apply zlookup_zinsert_eq. rewrite length_zinsert. lia.
Qed.
Lemma setw_other b i j v w : i ≠ j → word_is b j w → word_is (setw i v b) j w.
Proof. intros Hne [H1 H2]. unfold setw. split; rewrite !zlookup_zinsert_ne by lia; done. Qed.
Lemma setws_other l : ∀ b j w, j ∉ l.*1 → word_is b j w → word_is (setws l b) j w.
Proof.
  induction l as [|[i v] l IH]; intros b j w Hj Hw; [done|]. cbn in Hj. apply not_elem_of_cons in Hj as [Hj1 Hj2].
  unfold setws. cbn [fold_left]. apply IH; [done|]. by apply setw_other.
Qed.
Lemma length_setw i v b : length (setw i v b) = length b.
Proof. unfold setw. by rewrite !length_zinsert. Qed.
Lemma length_setws l : ∀ b, length (setws l b) = length b.
Proof. induction l as [|[i v] l IH]; intros b; [done|]. unfold setws. cbn [fold_left]. rewrite IH. apply length_setw. Qed.
(** A word written once in a list of words. *)
Lemma setws_is l1 l2 b i v : 0 ≤ i → 2 * i + 1 < length b → i ∉ l2.*1 → word_is (setws (l1 ++ (i, v) :: l2) b) i v.
Proof.
  intros. unfold setws. rewrite fold_left_app. cbn [fold_left]. apply setws_other; [done|]. apply setw_is; [done|]. by rewrite length_setws.
Qed.

Lemma lxor1 x : 0 ≤ x → Z.lxor x 1 = if bool_decide (x `mod` 2 = 0) then x + 1 else x - 1.
Proof.
  intros Hx. assert (∃ q, x = 2 * q ∨ x = 2 * q + 1) as (q & [-> | ->]).
  { exists (x / 2). pose proof (Z.div_mod x 2 ltac:(lia)). pose proof (Z.mod_pos_bound x 2 ltac:(lia)). lia. }
  - rewrite bool_decide_eq_true_2 by (rewrite Z.mul_comm; apply Z.mod_mul; lia). apply Z.bits_inj'. intros k Hk. rewrite Z.lxor_spec.
    destruct (decide (k = 0)) as [->|]; [by rewrite Z.testbit_odd_0, Z.testbit_even_0|]. replace k with (Z.succ (k - 1)) by lia.
    rewrite Z.testbit_odd_succ, Z.testbit_even_succ by lia. change 1 with (2 * 0 + 1) at 2. rewrite Z.testbit_odd_succ, Z.bits_0 by lia. apply xorb_false_r.
  - rewrite bool_decide_eq_false_2 by (rewrite Z.add_comm, Z.mul_comm, Z.mod_add; [done|lia]). replace (2 * q + 1 - 1) with (2 * q) by lia.
    apply Z.bits_inj'. intros k Hk. rewrite Z.lxor_spec.
    destruct (decide (k = 0)) as [->|]; [by rewrite Z.testbit_odd_0, Z.testbit_even_0|]. replace k with (Z.succ (k - 1)) by lia.
    rewrite Z.testbit_odd_succ, Z.testbit_even_succ by lia. change 1 with (2 * 0 + 1) at 2. rewrite Z.testbit_odd_succ, Z.bits_0 by lia. apply xorb_false_r.
Qed.
(** A string stays within its words [lo] to [hi - 1]. *)
Lemma padstr_other n : ∀ off src b lo hi k, 0 ≤ lo → 2 * lo ≤ off → off + Z.of_nat n ≤ 2 * hi → k < 2 * lo ∨ 2 * hi ≤ k →
  zlookup (padstr n off src b) k = zlookup b k.
Proof.
  induction n as [|n IH]; intros off src b lo hi k Hlo H1 H2 Hk; [done|].
  assert (∀ c, zlookup (zinsert (Z.lxor off 1) c b) k = zlookup b k) as Hx.
  { intros c. apply zlookup_zinsert_ne. rewrite lxor1 by lia. pose proof (Z.div_mod off 2 ltac:(lia)). pose proof (Z.mod_pos_bound off 2 ltac:(lia)).
    case_bool_decide; lia. }
  cbn [padstr]. destruct src as [|c src]; [|case_bool_decide]; (rewrite (IH _ _ _ lo hi); [apply Hx|lia|lia|lia|done]).
Qed.
Lemma padstr_word n off src b lo hi i v : 0 ≤ lo → 2 * lo ≤ off → off + Z.of_nat n ≤ 2 * hi → i < lo ∨ hi ≤ i →
  word_is b i v → word_is (padstr n off src b) i v.
Proof. intros ? ? ? ? [H1 H2]. split; (rewrite (padstr_other _ _ _ _ lo hi); [done|lia..]). Qed.
Lemma length_padstr n : ∀ off src b, length (padstr n off src b) = length b.
Proof.
  induction n as [|n IH]; intros off src b; [done|]. cbn [padstr]. destruct src as [|c src]; [|case_bool_decide]; by rewrite IH, length_zinsert.
Qed.

Ltac not_key := apply (bool_decide_unpack _); vm_compute; exact I.
(** Splits a list of words at word [i]. *)
Ltac split_at l i :=
  let rec go acc l :=
    lazymatch l with
    | (i, ?v) :: ?r => let a := eval cbn [rev app] in (rev acc) in change (setws _) with (setws (a ++ (i, v) :: r))
    | ?x :: ?r => go (x :: acc) r
    end in
  go (@nil (Z * Z)) l.
Lemma length_identify dv kind model len b : length (identify_words dv kind model len b) = length b.
Proof. unfold identify_words. by rewrite length_setws, !length_padstr, length_setws. Qed.
Lemma length_clear512 b : (512 ≤ length b)%nat → length (clear512 b) = length b.
Proof. intros. unfold clear512. rewrite length_app, length_replicate, length_drop. lia. Qed.

(** The geometry is written before the strings, the size after them. *)
Lemma identify_geometry dv kind model (len : nat) b : (len ≤ 40)%nat → (512 ≤ length b)%nat →
  let w := identify_words dv kind model len b in
  word_is w 1 (dv_cylinder dv) ∧ word_is w 3 (dv_head dv) ∧ word_is w 6 (dv_sector dv).
Proof.
  intros Hlen Hb w.
  assert (∀ i v, i = 1 ∨ i = 3 ∨ i = 6 → word_is (setws [(0, kind); (1, dv_cylinder dv); (3, dv_head dv); (6, dv_sector dv)] b) i v → word_is w i v) as Hw.
  { intros i v Hi Hv. unfold w, identify_words. apply setws_other; [destruct Hi as [->|[->| ->]]; not_key|].
    apply (padstr_word _ _ _ _ 27 47); [lia..|]. apply (padstr_word _ _ _ _ 23 27); [lia..|]. by apply (padstr_word _ _ _ _ 10 20); [lia..|]. }
  split_and!; apply Hw; auto.
  - apply (setws_is [(0, kind)] [(3, dv_head dv); (6, dv_sector dv)]); [lia|lia|not_key].
  - apply (setws_is [(0, kind); (1, dv_cylinder dv)] [(6, dv_sector dv)]); [lia|lia|not_key].
  - apply (setws_is [(0, kind); (1, dv_cylinder dv); (3, dv_head dv)] []); [lia|lia|not_key].
Qed.
Lemma identify_size dv kind model len b : (512 ≤ length b)%nat →
  let w := identify_words dv kind model len b in
  word_is w 47 (Z.lor 0x8000 8) ∧ word_is w 60 (dv_lba_sector dv) ∧ word_is w 61 (Z.shiftr (dv_lba_sector dv) 16).
Proof.
  intros Hb w. unfold w, identify_words. set (b1 := padstr _ _ _ _).
  assert (512 ≤ length b1)%nat as Hb1 by (unfold b1; by rewrite !length_padstr, length_setws). clearbody b1.
  split_and!; match goal with |- word_is (setws ?l _) ?i ?v => split_at l i end; apply setws_is; (lia || not_key).
Qed.

Definition identify_session : MI (list Z) :=
  select 0 0 IDE_CMD_IDENTIFY_DEVICE;; expect data_request;; ws ← pio_in 256; expect done_ok;; mret ws.

Lemma word_is_words b (n i : nat) v : word_is b i v → (i < n)%nat → take n (words b) !! i = Some (u8 v + 256 * u8 (Z.shiftr v 8)).
Proof. intros [H1 H2] Hi. rewrite lookup_take_lt by done. by apply words_get. Qed.
Lemma size_split x : 0 ≤ x < 2 ^ 32 →
  u8 x + 256 * u8 (Z.shiftr x 8) + 65536 * (u8 (Z.shiftr x 16) + 256 * u8 (Z.shiftr (Z.shiftr x 16) 8)) = x.
Proof.
  intros Hx. rewrite Z.shiftr_shiftr by lia. change (16 + 8) with 24. unfold wrap. rewrite !Z.shiftr_div_pow2 by lia.
  change (2 ^ 8) with 256. change (2 ^ 16) with (256 * 256). change (2 ^ 24) with (256 * 256 * 256).
  rewrite <- !Z.div_div by lia. set (a := x / 256). set (b := a / 256). set (c := b / 256).
  pose proof (Z.div_mod x 256). pose proof (Z.div_mod a 256). pose proof (Z.div_mod b 256). fold a in H. fold b in H0. fold c in H1.
  assert (0 ≤ c < 256). { unfold c, b, a. rewrite !Z.div_div by lia. split; [apply Z.div_pos; lia|apply Z.div_lt_upper_bound; lia]. }
  rewrite (Z.mod_small c) by lia. lia.
Qed.

(** IDENTIFY answers with a block of 256 half-words that holds the number of sectors of
    the disk, in two words, and the geometry computed from it; afterwards the drive is
    at rest again. *)
Theorem identify_reports s p dv disk :
  at_drive s p None dv disk → usable dv → dv_req_sectors dv = 0 → 0 ≤ dv_lba_sector dv < 2 ^ 32 →
  0 ≤ dv_cylinder dv < 2 ^ 16 → 0 ≤ dv_head dv < 2 ^ 16 → 0 ≤ dv_sector dv < 2 ^ 16 →
  ∃ ws s' lo hi, identify_session s = Ok ws s' ∧ at_rest s' disk ∧ length ws = 256%nat ∧
    ws !! 60%nat = Some lo ∧ ws !! 61%nat = Some hi ∧ lo + 65536 * hi = dv_lba_sector dv ∧
    ws !! 1%nat = Some (dv_cylinder dv) ∧ ws !! 3%nat = Some (dv_head dv) ∧ ws !! 6%nat = Some (dv_sector dv) ∧ ws !! 47%nat = Some 0x8008.
Proof.
  intros Ha Hu Hreq Hls Hcy Hhd Hsc. set (x := dv_lba_sector dv) in *. set (blk := λ dv, identify_words dv 0xff02 (str "L4KA AFTERBURNER HARDDISK") 40 (clear512 (dv_io_buffer dv))).
  set (d0 := with_regs 0 0 dv). set (d1 := data_in_sector (dv_set_io_buffer (blk d0) d0)).
  enough (wp no_fault identify_session (λ ws s', ws = take 256 (words (dv_io_buffer d1)) ∧ at_rest s' disk) s) as Hwp.
  { destruct (wp_no_fault _ _ _ Hwp) as (ws & s' & Hrun & -> & Hr). change (dv_io_buffer d1) with (blk d0).
    assert (512 ≤ length (dv_io_buffer d0))%nat as Hlb by (change (dv_io_buffer d0) with (dv_io_buffer dv); destruct Hu; lia).
    assert (512 ≤ length (clear512 (dv_io_buffer d0)))%nat as Hlc by (by rewrite length_clear512).
    destruct (identify_geometry d0 0xff02 (str "L4KA AFTERBURNER HARDDISK") 40 _ ltac:(lia) Hlc) as (G1 & G3 & G6).
    destruct (identify_size d0 0xff02 (str "L4KA AFTERBURNER HARDDISK") 40 _ Hlc) as (G47 & G60 & G61). fold (blk d0) in G1, G3, G6, G47, G60, G61.
    pose proof (λ (i : nat) v H, word_is_words (blk d0) 256 i v H) as Hget.
    eexists _, s', _, _. split_and!; [exact Hrun|done| |exact (Hget 60%nat _ G60 ltac:(lia))|exact (Hget 61%nat _ G61 ltac:(lia))|by apply size_split|..].
    - rewrite length_take, (length_words (Z.to_nat 32768)); [lia|]. change (dv_io_buffer d1) with (blk d0). unfold blk. cbv beta. rewrite length_identify, length_clear512 by done.
      change (dv_io_buffer d0) with (dv_io_buffer dv). destruct Hu. lia.
    - etrans; [exact (Hget 1%nat _ G1 ltac:(lia))|]. f_equal. by apply word_split.
    - etrans; [exact (Hget 3%nat _ G3 ltac:(lia))|]. f_equal. by apply word_split.
    - etrans; [exact (Hget 6%nat _ G6 ltac:(lia))|]. f_equal. by apply word_split.
    - etrans; [exact (Hget 47%nat _ G47 ltac:(lia))|]. reflexivity. }
  unfold identify_session. apply wp_bind. eapply wp_select; [exact Ha|lia|]. fold d0. intros s1 A1 S1.
  change (ide_command 0 (u16 IDE_CMD_IDENTIFY_DEVICE)) with (dv ← load_dev 0; massert (dv_present dv);; identify 0;; ide_raise_irq 0).
  apply wp_bind. eapply wp_load_drive; [exact A1|]. apply wp_bind, wp_massert; [change (dv_present d0) with (dv_present dv); by rewrite (us_present _ Hu)|].
  intros _. apply wp_bind. unfold identify. eapply wp_upd_dev; [exact A1|]. intros s2 A2 C2. fold (blk d0) d1 in A2. eapply wp_raise; [exact A2|]. intros s3 A3 C3.
  assert (selected s3) as S3 by (unfold selected; by rewrite C3, C2).
  assert (usable d1) as U1.
  { split; [apply Hu|]. change (dv_io_buffer d1) with (blk d0). unfold blk. cbv beta. rewrite length_identify, length_clear512; change (dv_io_buffer d0) with (dv_io_buffer dv); destruct Hu; lia. }
  assert (filled d1 0 0 1 (take 256 (words (dv_io_buffer d1)))) as F1.
  { split; [done| |done|pose proof (with_regs_names 0 0 dv ltac:(lia)) as [? ? ? ?]; by split|done|lia|done].
    split; [done..| |apply U1|apply U1]. lia. }
  apply wp_bind. eapply wp_expect; [exact A3|done|apply U1|done|]. apply wp_bind. change 256%nat with (256 * 1)%nat.
  eapply wp_drain; [exact A3|done|exact F1|lia|change (chunk 0) with 0; lia|lia| |intros; exfalso; lia]. intros _ s4 dv4 A4 S4 U4 St4.
  apply wp_bind. eapply wp_expect; [exact A4|done|apply U4|by rewrite St4|]. apply wp_mret. split; [done|]. by exists p, dv4.
Qed.

(** ** Large writes and the end of the buffer *)

Definition large_write (lba : Z) (n : nat) (ws : list Z) : MI unit :=
  select lba n IDE_CMD_WRITE_SECTORS;; expect data_request;; pio_out ws;; expect busy;; server_turn;; expect done_ok.

(** A write of more than 128 sectors ends too early: when the guest has sent the first
    128 of [n] sectors, the drive passes on only [n - 128] of them and then reports the
    command as complete, with no request for more data. *)
Theorem ide_large_write_loses s disk lba (n : nat) ws :
  at_rest s disk → (128 < n ≤ 256)%nat → length ws = (256 * 128)%nat → 0 ≤ lba → 512 * (lba + n) ≤ length disk → lba + n < 2 ^ 28 →
  ∃ s', large_write lba n ws s = Ok tt s' ∧
    zlookup (id_disks s') (id_handle s') = Some (splice (Z.to_nat (512 * lba)) (take (512 * (n - 128)) (bytes ws)) disk).
Proof.
  intros (p & dv & Ha & Hu) Hn Hws Hlba Hlen Hl2. enough (wp no_fault (large_write lba n ws)
    (λ _ s', zlookup (id_disks s') (id_handle s') = Some (splice (Z.to_nat (512 * lba)) (take (512 * (n - 128)) (bytes ws)) disk)) s) as Hwp
    by (destruct (wp_no_fault _ _ _ Hwp) as ([] & s' & ? & ?); eauto).
  assert (first_chunk n = 128%nat) as Hc by (unfold first_chunk; lia). assert (chunk (n - 128)%nat = (n - 128)%nat) as Hch.
  { unfold chunk, IDE_IOBUFFER_BLOCKS, IDE_IOBUFFER_SIZE, IDE_SECTOR_SIZE. change (65536 / 512) with 128. rewrite bool_decide_eq_false_2 by lia. lia. }
  unfold large_write. apply wp_bind. eapply wp_select; [exact Ha|lia|]. intros s1 A1 S1.
  eapply (wp_start_write s1 p _ disk lba n); [exact A1|done|by apply usable_regs|apply with_regs_names; lia|
    apply with_regs_lba; lia|apply with_regs_nsectors; lia|lia|]. rewrite Hc. intros s2 dv2 A2 S2 St2 W2.
  apply wp_bind. eapply wp_expect; [exact A2|done|apply W2|by rewrite St2|]. apply wp_bind.
  eapply (wp_fill ws); [exact A2|done|exact W2|done|lia|lia|rewrite Hch; lia|lia|]. intros s3 dv3 size req A3 S3 F3 _ E3.
  destruct (E3 ltac:(lia)) as (-> & ->). rewrite Hch in *. apply wp_bind. eapply wp_expect; [exact A3|done|apply F3|apply F3|].
  apply wp_bind. eapply wp_turn_write; [exact A3|done|exact F3|lia|lia|]. rewrite bool_decide_eq_false_2 by lia. intros s4 A4 S4.
  eapply wp_expect; [exact A4|done|apply F3|done|]. rewrite (ad_disk _ _ _ _ _ A4). do 3 f_equal. lia.
Qed.

(** After a write that fills the buffer the drive still takes data: the next half-word
    is stored behind the buffer, where the physical address of the buffer is kept. *)
Theorem ide_buffer_overrun s disk lba ws w :
  at_rest s disk → length ws = (256 * 128)%nat → 0 ≤ lba → 512 * (lba + 128) ≤ length disk → lba + 128 < 2 ^ 28 →
  (write_session lba ws;; ide_out IDE_DATA w) s = Err OutOfBounds.
Proof.
  intros (p & dv & Ha & Hu) Hws Hlba Hlen Hl2. apply wp_only_fault, wp_bind.
  enough (wp no_fault (write_session lba ws) (λ _ s', selected s' ∧ ∃ p dv disk, at_drive s' p None dv disk ∧ usable dv ∧
    dv_data_transfer dv = IDE_CMD_DATA_OUT ∧ dv_io_buffer_index dv = 65536) s) as Hwp.
  { destruct (wp_no_fault _ _ _ Hwp) as ([] & s' & Hrun & Hs & p' & dv' & disk' & A' & U' & M' & I'). eapply wp_run; [exact Hrun|].
    change (ide_out IDE_DATA w) with (c ← get_current 0; io_data_write (drive 0 c) (u16 w)). unfold get_current, io_data_write, load_dev.
    apply wp_bind, wp_bind, wp_mgets. rewrite Hs. apply wp_mret, wp_bind, wp_bind, wp_mgets. change (drive 0 0) with 0.
    rewrite (ad_dev _ _ _ _ _ A'). apply wp_mret. rewrite M', (bool_decide_eq_false_2 (IDE_CMD_DATA_OUT ≠ IDE_CMD_DATA_OUT)) by auto. apply wp_bind.
    unfold put16. rewrite bool_decide_eq_false_2; [by apply wp_mfault|]. rewrite I', (us_buffer _ U'). lia. }
  unfold write_session. replace (length ws / 256)%nat with 128%nat by (rewrite Hws, Nat.mul_comm, Nat.div_mul; lia).
  assert (first_chunk 128 = 128%nat) as Hc by reflexivity.
  apply wp_bind. eapply wp_select; [exact Ha|lia|]. intros s1 A1 S1.
  eapply (wp_start_write s1 p _ disk lba 128); [exact A1|done|by apply usable_regs|apply with_regs_names; lia|
    apply with_regs_lba; lia|apply with_regs_nsectors; lia|lia|]. rewrite Hc, Nat.sub_diag. intros s2 dv2 A2 S2 St2 W2.
  apply wp_bind. eapply wp_expect; [exact A2|done|apply W2|by rewrite St2|]. apply wp_bind.
  eapply (wp_fill ws); [exact A2|done|exact W2|done|lia|lia|change (chunk 0%nat) with 0; lia|lia|]. intros s3 dv3 size req A3 S3 F3 E3 _.
  destruct (E3 eq_refl) as (-> & -> & I3). apply wp_bind. eapply wp_expect; [exact A3|done|apply F3|apply F3|].
  apply wp_bind. eapply wp_turn_write; [exact A3|done|exact F3|rewrite Hws; lia|lia|]. rewrite bool_decide_eq_false_2 by lia. intros s4 A4 S4.
  eapply wp_expect; [exact A4|done|apply F3|done|]. split; [done|]. eexists _, _, _. split; [exact A4|]. split; [by destruct F3 as [[? ?] ? ? ? ?]|].
  split; [apply F3|]. etrans; [exact I3|lia].
Qed.

(** ** Runs on a small machine *)

(** Disks of eight sectors whose bytes are all [v]; the first and the second drive of
    the first channel and the first of the second channel are attached. *)
Definition small_disk (v : Z) : list Z := replicate 4096 v.
Definition cfg (minor : Z) : drive_cfg := mk_cfg [51; 44; 48 + minor] 3 minor (Some (8, 0)) true.
Definition three_drives : list (option drive_cfg) := [Some (cfg 0); Some (cfg 1); Some (cfg 2); None].
Definition three_disks : list (list Z) := [small_disk 17; small_disk 34; small_disk 51].
Definition observe {A B} (f : A → ide_t → B) (m : MI A) (s : ide_t) : option B := match m s with Ok a s' => Some (f a s') | Err _ => None end.
Definition status (d : Z) (s : ide_t) : Z := default 0 (dv_reg_status <$> zlookup (id_devs s) d).
Definition idle_ring (s : ide_t) : bool := bool_decide (id_start_dirty s = id_start_free s).
Definition boot : MI unit := ide_init (Some 0) three_drives true.

(** A command to the second drive of a channel is executed by the first. *)
Theorem command_ignores_selection :
  observe (λ _ s, (id_current s, status 0 s, status 1 s)) (boot;; ide_out 0x1F6 0xF0;; ide_out 0x1F7 IDE_CMD_IDENTIFY_DEVICE) (ide_zero three_disks) =
  Some ([1; 0], 0x58, 0x40).
Proof. vm_compute. reflexivity. Qed.
(** A command to a channel without a first drive fails an assertion. *)
Theorem absent_drive_asserts :
  (ide_init (Some 0) [Some (cfg 0)] true;; ide_out 0x177 IDE_CMD_IDENTIFY_DEVICE) (ide_zero three_disks) = Err AssertFail.
Proof. vm_compute. reflexivity. Qed.
(** The first drive of the second channel, whose disk is the third, reads the first. *)
Definition read_second_channel : MI Z :=
  boot;; ide_out 0x172 1;; ide_out 0x173 0;; ide_out 0x174 0;; ide_out 0x175 0;; ide_out 0x176 0xE0;;
  ide_out 0x177 IDE_CMD_READ_SECTORS;; server_turn;; ide_in 0x170 0.
Theorem second_channel_reads_first_disk : observe (λ w _, w) read_second_channel (ide_zero three_disks) = Some (17 + 256 * 17).
Proof. vm_compute. reflexivity. Qed.
(** When the block server reports an error the drive stays busy for ever. *)
Theorem server_error_hangs_drive :
  observe (λ _ s, (busy (status 0 s), idle_ring s)) (boot;; select 100 1 IDE_CMD_READ_SECTORS;; server_turn;; server_turn) (ide_zero three_disks) =
  Some (true, true).
Proof. vm_compute. reflexivity. Qed.
(** The server answers a read before the drive is marked busy: the answer is lost, the
    drive is busy and no request is out. *)
Definition early_answer : MI unit :=
  boot;; ide_out 0x1F2 1;; ide_out 0x1F3 0;; ide_out 0x1F6 0xE0;; r ← read_submit 0; server_turn;; read_finish 0 r.1 r.2.
Theorem early_answer_hangs_drive : observe (λ _ s, (busy (status 0 s), idle_ring s)) early_answer (ide_zero three_disks) = Some (true, true).
Proof. vm_compute. reflexivity. Qed.

(** ** Witnesses *)

Lemma cfg_attached minor : minor ≤ 255 → attached (cfg minor).
Proof. intros. split; cbn; [lia|done|by eexists|done]. Qed.
Definition sector_of (v : Z) : list Z := replicate 256 v.

Lemma ide_disk_refines_witness :
  ∃ s, (ide_init (Some 0) three_drives true;; ops_run [DRead 3 1; DWrite 3 (sector_of 0xabcd); DRead 2 2]) (ide_zero three_disks) =
    Ok [sector_of (17 + 256 * 17); []; sector_of (17 + 256 * 17) ++ sector_of 0xabcd] s.
Proof.
  destruct (ide_disk_refines 0 three_drives (cfg 0) three_disks (small_disk 17) [DRead 3 1; DWrite 3 (sector_of 0xabcd); DRead 2 2]) as (s & Hrun & _).
  - reflexivity.
  - apply cfg_attached. lia.
  - reflexivity.
  - assert (length (small_disk 17) = 4096%nat) as -> by apply length_replicate.
    assert (length (sector_of 0xabcd) = 256%nat) as Hs by apply length_replicate.
    repeat constructor; cbn [dop_ok]; rewrite ?Hs; change (256 / 256)%nat with 1%nat; unfold sectors_ok; try lia.
  - exists s. rewrite Hrun. vm_compute. reflexivity.
Defined.

(** A larger disk, of 140 sectors, and the words of 128 sectors. *)
Definition large_disk : list Z := replicate (512 * 140) 0.
Definition many_words : list Z := replicate (256 * 128) 7.
Lemma large_rest : ∃ s, ide_init (Some 0) three_drives true (ide_zero [large_disk]) = Ok tt s ∧ at_rest s large_disk.
Proof. apply (init_rest 0 three_drives (cfg 0)); [reflexivity|apply cfg_attached; lia|reflexivity]. Qed.

Lemma ide_large_write_loses_witness : ∃ s s', at_rest s large_disk ∧ large_write 0 130 many_words s = Ok tt s' ∧
  zlookup (id_disks s') (id_handle s') = Some (splice 0 (take (512 * 2) (bytes many_words)) large_disk).
Proof.
  destruct large_rest as (s & _ & Hs). destruct (ide_large_write_loses s large_disk 0 130 many_words Hs) as (s' & Hrun & Hd).
  - lia.
  - apply length_replicate.
  - lia.
  - unfold large_disk. rewrite length_replicate. lia.
  - lia.
  - exists s, s'. split; [exact Hs|]. split; [exact Hrun|]. exact Hd.
Defined.
Lemma ide_buffer_overrun_witness : ∃ s, at_rest s large_disk ∧ (write_session 0 many_words;; ide_out IDE_DATA 1) s = Err OutOfBounds.
Proof.
  destruct large_rest as (s & _ & Hs). exists s. split; [exact Hs|]. apply (ide_buffer_overrun s large_disk 0 many_words 1 Hs).
  - apply length_replicate.
  - lia.
  - unfold large_disk. rewrite length_replicate. lia.
  - lia.
Defined.

(** The first drive after the set-up. *)
Definition drive0 : ide_device_t := init_drive (Some (cfg 0)) dev_zero.
Lemma identify_reports_witness : ∃ s ws s', at_drive s 0 None drive0 (small_disk 17) ∧ identify_session s = Ok ws s' ∧ ws !! 6%nat = Some 63.
Proof.
  destruct (init_at 0 three_drives (cfg 0) three_disks (small_disk 17) eq_refl eq_refl) as (s & _ & Hs).
  destruct (identify_reports s 0 drive0 (small_disk 17) Hs) as (ws & s' & lo & hi & Hrun & _ & _ & _ & _ & _ & _ & _ & H6 & _).
  - apply init_drive_usable; [by apply cfg_attached|apply dev_zero_buffer].
  - reflexivity.
  - vm_compute. split; [discriminate|reflexivity].
  - vm_compute. split; [discriminate|reflexivity].
  - vm_compute. split; [discriminate|reflexivity].
  - vm_compute. split; [discriminate|reflexivity].
  - exists s, ws, s'. split; [exact Hs|]. split; [exact Hrun|]. exact H6.
Defined.
