(* ===== verification/Rtc.v ===== *)
(** * The real-time clock

    Models the calendar of common/aftertime.cc, the clock of device/rtc.h and the
    registers of device/mc146818rtc.cc of the wedge (the configuration without QEMU), with
    [backend_get_unix_seconds] of l4ka/backend.cc. The L4 clock, the size of memory, the
    geometry of the disks and the place of the wedge are parameters.

    The theorems: the calendar is that of [next_day] for every 32-bit time, half a day
    late; a guest that reads the registers gets one consistent time and date, and a year
    that is never right; the periodic timer is silent when it is polled often. *)

From Stdlib Require Import ZArith Lia.
From stdpp Require Import base list numbers.
From S2P Require Import Prelude.

(** ** The calendar *)

(** Arithmetic of [word_t]. *)
Definition wadd (a b : Z) : Z := u32 (a + b).
Definition wsub (a b : Z) : Z := u32 (a - b).
Definition wmul (a b : Z) : Z := u32 (a * b).

Definition gregorian_to_julian_day (year month day : Z) : Z :=
  let m12 := wsub month 14 / 12 in
  wsub (wadd (wsub (wadd (wmul 1461 (wadd (wadd year 4800) m12) / 4)
      (wmul 367 (wsub (wsub month 2) (wmul 12 m12)) / 12))
    (wmul 3 (wadd (wadd year 4900) m12 / 100) / 4)) day) 32075.
Definition julian_day_to_gregorian (jd : Z) : Z * Z * Z :=
  let l := wadd jd 68569 in
  let n := wmul 4 l / 146097 in
  let l := wsub l (wadd (wmul 146097 n) 3 / 4) in
  let i := wmul 4000 (wadd l 1) / 1461001 in
  let l := wadd (wsub l (wmul 1461 i / 4)) 31 in
  let j := wmul 80 l / 2447 in
  let day := wsub l (wmul 2447 j / 80) in
  let l := j / 11 in
  let month := wsub (wadd j 2) (wmul 12 l) in
  let year := wadd (wadd (wmul 100 (wsub n 49)) i) l in
  (year, month, day).
Definition unix_to_gregorian (unix_seconds : Z) : (Z * Z * Z) * (Z * Z * Z) :=
  let jd := wadd (wadd unix_seconds (12 * 3600) / (24 * 3600)) 2440587 in
  let date := julian_day_to_gregorian jd in
  let seconds := unix_seconds `mod` 60 in
  let unix_seconds := unix_seconds / 60 in
  let minutes := unix_seconds `mod` 60 in
  let unix_seconds := unix_seconds / 60 in
  let hours := unix_seconds `mod` 24 in
  (date, (hours, minutes, seconds)).
Definition day_of_week (year month day : Z) : Z :=
  let a := wsub 14 month / 12 in
  let y := wsub year a in
  let m := wsub (wadd month (wmul 12 a)) 2 in
  wadd (wadd (wsub (wadd (wadd day y) (y / 4)) (y / 100)) (y / 400)) (wmul 31 m / 12) `mod` 7.

(** *** The reference *)

Definition is_leap (y : Z) : bool :=
  bool_decide (y `mod` 4 = 0) && (negb (bool_decide (y `mod` 100 = 0)) || bool_decide (y `mod` 400 = 0)).
Definition month_length (y m : Z) : Z :=
  if bool_decide (m = 2) then (if is_leap y then 29 else 28)
  else if bool_decide (m = 4) || bool_decide (m = 6) || bool_decide (m = 9) || bool_decide (m = 11) then 30 else 31.
Definition next_day (d : Z * Z * Z) : Z * Z * Z :=
  let '(y, m, d) := d in
  if bool_decide (d < month_length y m) then (y, m, d + 1)
  else if bool_decide (m < 12) then (y, m + 1, 1) else (y + 1, 1, 1).
(** The date [n] days after the last day of 1969. *)
Definition date_after (n : nat) : Z * Z * Z := Nat.iter n next_day (1969, 12, 31).

(** *** The calendar is the reference *)

(** The conversion without words. *)
Definition jd_date (jd : Z) : Z * Z * Z :=
  let l := jd + 68569 in
  let n := 4 * l / 146097 in
  let l := l - (146097 * n + 3) / 4 in
  let i := 4000 * (l + 1) / 1461001 in
  let x := l - 1461 * i / 4 in
  let j := 80 * (x + 31) / 2447 in
  (100 * (n - 49) + i + j / 11, j + 2 - 12 * (j / 11), x + 31 - 2447 * j / 80).
(** Years begin in March here: year [i] of century [n], day [x]. *)
Definition day_number (n i x : Z) : Z := (146097 * n + 3) / 4 + 1461 * i / 4 + x.
Definition year_length (n i : Z) : Z :=
  if decide (i < 99) then 1461 * (i + 1) / 4 - 1461 * i / 4 else (146097 * (n + 1) + 3) / 4 - (146097 * n + 3) / 4 - 1461 * 99 / 4.
Lemma day_number_split L : 0 ≤ L → ∃ n i x, L = day_number n i x ∧ 0 ≤ n ∧ 0 ≤ i ≤ 99 ∧ 0 ≤ x < year_length n i.
Proof.
  intros HL. set (n := 4 * L / 146097). set (l := L - (146097 * n + 3) / 4). set (i := 4000 * (l + 1) / 1461001).
  assert (0 ≤ n) by (subst n; apply Z.div_pos; lia).
  assert ((146097 * n + 3) / 4 ≤ L < (146097 * (n + 1) + 3) / 4) by (subst n; Z.to_euclidean_division_equations; lia).
  assert (0 ≤ l ≤ 36524) by (subst l; Z.to_euclidean_division_equations; lia).
  assert (0 ≤ i ≤ 99) by (subst i; Z.to_euclidean_division_equations; lia).
  assert (1461 * i / 4 ≤ l < 1461 * (i + 1) / 4) by (subst i; clearbody l; Z.to_euclidean_division_equations; lia).
  exists n, i, (l - 1461 * i / 4). unfold day_number, year_length. split_and!; try lia. case_decide; [lia|].
  assert (i = 99) as -> by lia. lia.
Qed.
Lemma jd_date_split n i x : 0 ≤ n → 0 ≤ i ≤ 99 → 0 ≤ x < year_length n i →
  let j := 80 * (x + 31) / 2447 in
  jd_date (day_number n i x - 68569) = (100 * (n - 49) + i + j / 11, j + 2 - 12 * (j / 11), x + 31 - 2447 * j / 80).
Proof.
  intros Hn Hi Hx j. unfold jd_date. replace (day_number n i x - 68569 + 68569) with (day_number n i x) by lia.
  assert (4 * day_number n i x / 146097 = n) as ->.
  { unfold day_number, year_length in *. case_decide; Z.to_euclidean_division_equations; lia. }
  cbv zeta. replace (day_number n i x - (146097 * n + 3) / 4) with (1461 * i / 4 + x) by (unfold day_number; lia).
  assert (4000 * (1461 * i / 4 + x + 1) / 1461001 = i) as ->.
  { unfold year_length in *. case_decide; Z.to_euclidean_division_equations; lia. }
  replace (1461 * i / 4 + x - 1461 * i / 4) with x by lia. done.
Qed.
(** The month and the day of day [x] of a year; the flag is for January and February. *)
Definition month_day (x : Z) : Z * Z * Z :=
  let j := 80 * (x + 31) / 2447 in (j / 11, j + 2 - 12 * (j / 11), x + 31 - 2447 * j / 80).
Definition month_step (x : Z) : bool :=
  let '(c, m, d) := month_day x in
  let '(c', m', d') := month_day (x + 1) in
  bool_decide (0 ≤ c ≤ 1) && bool_decide (1 ≤ m ≤ 12) && bool_decide (1 ≤ d) &&
  bool_decide (d ≤ month_length 1 m) && bool_decide (m = 2 → d < 28) &&
  bool_decide ((c', m', d') = if bool_decide (d < month_length 1 m) then (c, m, d + 1) else if bool_decide (m < 12) then (c, m + 1, 1) else (c + 1, 1, 1)).
Lemma month_steps : forallb month_step (Z.of_nat <$> seq 0 364) = true.
Proof. vm_compute. reflexivity. Qed.
Lemma month_step_ok x : 0 ≤ x < 364 → month_step x = true.
Proof.
  intros Hx. pose proof month_steps as H. rewrite forallb_forall in H. apply H. apply list_elem_of_In, list_elem_of_fmap.
  exists (Z.to_nat x). split; [lia|]. apply elem_of_seq. lia.
Qed.
Lemma month_length_other y m : m ≠ 2 → month_length y m = month_length 1 m.
Proof. intros Hm. unfold month_length. by rewrite !(bool_decide_false (m = 2)). Qed.
Definition year_date (y x : Z) : Z * Z * Z := let '(c, m, d) := month_day x in (y + c, m, d).
(** The year beginning in March of year [y] has a 29th of February when [y + 1] is leap. *)
Lemma year_date_next y x : 0 ≤ x < 364 → next_day (year_date y x) = year_date y (x + 1).
Proof.
  intros Hx. pose proof (month_step_ok x Hx) as H. unfold month_step, year_date in *.
  destruct (month_day x) as [[c m] d], (month_day (x + 1)) as [[c' m'] d'].
  rewrite !andb_true_iff, !bool_decide_eq_true in H. destruct H as [[[[[H1 H2] H3] H4] H5] H6]. unfold next_day.
  destruct (decide (m = 2)) as [->|Hm].
  - specialize (H5 eq_refl). change (month_length 1 2) with 28 in *. rewrite bool_decide_true in H6 by lia.
    rewrite bool_decide_true; [injection H6 as -> -> ->; done|]. unfold month_length. simpl. destruct (is_leap _); lia.
  - rewrite (month_length_other (y + c) m Hm). repeat case_bool_decide; injection H6 as -> -> ->; f_equal; f_equal; lia.
Qed.
Lemma year_date_feb28 y : next_day (year_date y 364) = if is_leap (y + 1) then year_date y 365 else year_date (y + 1) 0.
Proof.
  change (year_date y 364) with (y + 1, 2, 28). change (year_date y 365) with (y + 1, 2, 29). change (year_date (y + 1) 0) with (y + 1 + 0, 3, 1).
  unfold next_day. change (month_length (y + 1) 2) with (if is_leap (y + 1) then 29 else 28). rewrite Z.add_0_r. by destruct (is_leap _).
Qed.
Lemma year_date_feb29 y : is_leap (y + 1) = true → next_day (year_date y 365) = year_date (y + 1) 0.
Proof.
  intros Hl. change (year_date y 365) with (y + 1, 2, 29). change (year_date (y + 1) 0) with (y + 1 + 0, 3, 1).
  unfold next_day. change (month_length (y + 1) 2) with (if is_leap (y + 1) then 29 else 28). rewrite Z.add_0_r. by rewrite Hl.
Qed.
Lemma year_length_leap n i : 0 ≤ i ≤ 99 → year_length n i = if is_leap (100 * (n - 49) + i + 1) then 366 else 365.
Proof.
  intros Hi. unfold year_length, is_leap. case_decide.
  - assert ((100 * (n - 49) + i + 1) `mod` 100 ≠ 0) by (Z.to_euclidean_division_equations; lia).
    rewrite (bool_decide_false (_ `mod` 100 = 0)) by done. simpl. rewrite andb_true_r. case_bool_decide; Z.to_euclidean_division_equations; lia.
  - assert (i = 99) as -> by lia. replace (100 * (n - 49) + 99 + 1) with (100 * (n - 48)) by lia.
    rewrite (bool_decide_true ((100 * (n - 48)) `mod` 100 = 0)) by (Z.to_euclidean_division_equations; lia). simpl.
    repeat case_bool_decide; simpl; Z.to_euclidean_division_equations; lia.
Qed.
(** The date of the next day number is the next day. *)
Lemma jd_date_next jd : 0 ≤ jd + 68569 → jd_date (jd + 1) = next_day (jd_date jd).
Proof.
  intros Hjd. destruct (day_number_split (jd + 68569) Hjd) as (n & i & x & HL & Hn & Hi & Hx).
  assert (∀ n i x, 0 ≤ n → 0 ≤ i ≤ 99 → 0 ≤ x < year_length n i → jd_date (day_number n i x - 68569) = year_date (100 * (n - 49) + i) x) as Hd.
  { intros n' i' x' H1 H2 H3. rewrite (jd_date_split n' i' x' H1 H2 H3). done. }
  replace jd with (day_number n i x - 68569) by lia. rewrite Hd by done.
  pose proof (year_length_leap n i Hi) as Hlen.
  destruct (decide (x + 1 < year_length n i)) as [Hin|Hend].
  - replace (day_number n i x - 68569 + 1) with (day_number n i (x + 1) - 68569) by (unfold day_number; lia). rewrite Hd by lia.
    destruct (decide (x = 364)) as [->|]; [rewrite year_date_feb28; destruct (is_leap _); [done|lia]|].
    symmetry. apply year_date_next. destruct (is_leap _); lia.
  - assert (next_day (year_date (100 * (n - 49) + i) x) = year_date (100 * (n - 49) + i + 1) 0) as ->.
    { destruct (is_leap _) eqn:Hl; [assert (x = 365) as -> by lia; by apply year_date_feb29|].
      assert (x = 364) as -> by lia. by rewrite year_date_feb28, Hl. }
    destruct (decide (i < 99)).
    + replace (day_number n i x - 68569 + 1) with (day_number n (i + 1) 0 - 68569)
        by (unfold day_number, year_length in *; rewrite decide_True in * by done; lia).
      rewrite Hd; [f_equal; lia|lia|lia|]. unfold year_length. case_decide; Z.to_euclidean_division_equations; lia.
    + assert (i = 99) as -> by lia. unfold year_length in Hend, Hx. rewrite decide_False in Hend, Hx by lia.
      replace (day_number n 99 x - 68569 + 1) with (day_number (n + 1) 0 0 - 68569) by (unfold day_number; change (1461 * 0 / 4) with 0; lia).
      rewrite Hd; [f_equal; lia|lia|lia|]. rewrite year_length_leap by lia. clear. destruct (is_leap _); lia.
Qed.
Lemma jd_date_after (i : nat) : jd_date (2440587 + i) = date_after i.
Proof.
  induction i as [|i IH]; [done|]. replace (2440587 + S i) with (2440587 + i + 1) by lia.
  rewrite jd_date_next by lia. by rewrite IH.
Qed.

(** No word wraps for the days of 32-bit times. *)
Ltac unwrap := unfold wadd, wsub, wmul; repeat match goal with |- context [wrap 32 ?x] =>
  lazymatch x with context [wrap 32 _] => fail | _ => rewrite (wrap_small 32 x) by (Z.to_euclidean_division_equations; lia) end end.
Lemma julian_day_range jd : 2440587 ≤ jd ≤ 2490299 → julian_day_to_gregorian jd = jd_date jd.
Proof.
  intros Hjd. unfold julian_day_to_gregorian, jd_date.
  set (l := jd + 68569). assert (wadd jd 68569 = l) as -> by (unwrap; done).
  assert (2509156 ≤ l ≤ 2558868) by lia. clearbody l.
  assert (wmul 4 l = 4 * l) as -> by (unwrap; done). set (n := 4 * l / 146097).
  assert (68 ≤ n ≤ 70) by (subst n; Z.to_euclidean_division_equations; lia).
  assert ((146097 * n + 3) / 4 ≤ l < (146097 * (n + 1) + 3) / 4) by (subst n; Z.to_euclidean_division_equations; lia). clearbody n.
  assert (wsub l (wadd (wmul 146097 n) 3 / 4) = l - (146097 * n + 3) / 4) as -> by (unwrap; done).
  set (l1 := l - (146097 * n + 3) / 4). assert (0 ≤ l1 ≤ 36524) by (subst l1; Z.to_euclidean_division_equations; lia). clearbody l1.
  assert (wmul 4000 (wadd l1 1) = 4000 * (l1 + 1)) as -> by (unwrap; done).
  set (i := 4000 * (l1 + 1) / 1461001). assert (0 ≤ i ≤ 99) by (subst i; Z.to_euclidean_division_equations; lia).
  assert (1461 * i / 4 ≤ l1 < 1461 * (i + 1) / 4) by (subst i; Z.to_euclidean_division_equations; lia). clearbody i.
  assert (wadd (wsub l1 (wmul 1461 i / 4)) 31 = l1 - 1461 * i / 4 + 31) as -> by (unwrap; done).
  set (x := l1 - 1461 * i / 4). assert (0 ≤ x ≤ 366) by (subst x; Z.to_euclidean_division_equations; lia). clearbody x.
  assert (wmul 80 (x + 31) = 80 * (x + 31)) as -> by (unwrap; done). set (j := 80 * (x + 31) / 2447).
  assert (1 ≤ j ≤ 12) by (subst j; Z.to_euclidean_division_equations; lia).
  assert (2447 * j / 80 ≤ x + 31) by (subst j; Z.to_euclidean_division_equations; lia). clearbody j.
  assert (0 ≤ j / 11 ≤ 1) by (Z.to_euclidean_division_equations; lia).
  assert (12 * (j / 11) ≤ j + 2) by (Z.to_euclidean_division_equations; lia).
  f_equal; [f_equal|]; unwrap; done.
Qed.

(** *** Weekdays *)
Definition dow (d : Z * Z * Z) : Z :=
  let '(y, m, d) := d in
  let a := (14 - m) / 12 in
  let y := y - a in
  (d + y + y / 4 - y / 100 + y / 400 + 31 * (m + 12 * a - 2) / 12) `mod` 7.
Definition valid_date (d : Z * Z * Z) : Prop := let '(y, m, d) := d in 1 ≤ m ≤ 12 ∧ 1 ≤ d ≤ month_length y m.
Lemma mod7_next a b : (b - a - 1) `mod` 7 = 0 → b `mod` 7 = (a `mod` 7 + 1) `mod` 7.
Proof. intros. Z.to_euclidean_division_equations. lia. Qed.
Lemma dow_next d : valid_date d → dow (next_day d) = (dow d + 1) `mod` 7.
Proof.
  destruct d as [[y m] d]. intros [Hm Hd]. unfold next_day.
  case_bool_decide as Hin.
  { unfold dow. apply mod7_next. Z.to_euclidean_division_equations. lia. }
  assert (d = month_length y m) as -> by lia. clear Hd Hin.
  assert (m = 1 ∨ m = 2 ∨ m = 3 ∨ m = 4 ∨ m = 5 ∨ m = 6 ∨ m = 7 ∨ m = 8 ∨ m = 9 ∨ m = 10 ∨ m = 11 ∨ m = 12) as Hm' by lia.
  destruct_or? Hm'; subst m; simpl.
  2: { unfold dow, month_length, is_leap. simpl. repeat case_bool_decide; simpl; apply mod7_next; Z.to_euclidean_division_equations; lia. }
  all: unfold dow, month_length; simpl; apply mod7_next; Z.to_euclidean_division_equations; lia.
Qed.
Lemma next_day_valid d : valid_date d → valid_date (next_day d).
Proof.
  destruct d as [[y m] d]. intros [Hm Hd]. unfold next_day. assert (∀ y m, 28 ≤ month_length y m) as H28.
  { intros. unfold month_length. repeat case_match; lia. }
  pose proof (H28 y (m + 1)). pose proof (H28 (y + 1) 1). repeat case_bool_decide; split; lia.
Qed.
Lemma date_after_valid n : valid_date (date_after n).
Proof. induction n as [|n IH]; [by vm_compute|]. by apply next_day_valid. Qed.
Lemma date_after_dow n : dow (date_after n) = (n + 3) `mod` 7.
Proof.
  induction n as [|n IH]; [done|]. unfold date_after. rewrite Nat.iter_succ. fold (date_after n).
  rewrite dow_next by apply date_after_valid. rewrite IH. Z.to_euclidean_division_equations. lia.
Qed.
Definition year_of (d : Z * Z * Z) : Z := d.1.1.
Lemma date_after_year i j : (i ≤ j)%nat → year_of (date_after i) ≤ year_of (date_after j).
Proof.
  induction 1 as [|j _ IH]; [done|]. unfold date_after at 2. rewrite Nat.iter_succ. fold (date_after j).
  destruct (date_after j) as [[y m] d]. unfold next_day, year_of in *. repeat case_bool_decide; simpl in *; lia.
Qed.
Lemma date_after_years i : Z.of_nat i ≤ 49711 → 1969 ≤ year_of (date_after i) ≤ 2106.
Proof.
  intros Hi. split; [exact (date_after_year 0 i ltac:(lia))|].
  etrans; [apply (date_after_year i (Z.to_nat 49711)); lia|]. rewrite <- jd_date_after, Z2Nat.id by lia. by vm_compute.
Qed.
Lemma day_of_week_spec i : Z.of_nat i ≤ 49711 → let '(y, m, d) := date_after i in day_of_week y m d = (i + 3) `mod` 7.
Proof.
  intros Hi. rewrite <- date_after_dow. pose proof (date_after_years i Hi) as Hy. pose proof (date_after_valid i) as Hv.
  destruct (date_after i) as [[y m] d]. destruct Hv as [Hm Hd]. unfold year_of in Hy. simpl in Hy.
  assert (d ≤ 31) by (unfold month_length in Hd; repeat case_match; lia). unfold day_of_week, dow.
  assert (wsub 14 m = 14 - m) as -> by (unwrap; done). set (a := (14 - m) / 12).
  assert (m ≤ 2 ∧ a = 1 ∨ 3 ≤ m ∧ a = 0) by (subst a; Z.to_euclidean_division_equations; lia). clearbody a.
  assert (wsub y a = y - a) as -> by (unwrap; done). set (y1 := y - a). assert (1968 ≤ y1 ≤ 2106) by lia. clearbody y1.
  assert (wsub (wadd m (wmul 12 a)) 2 = m + 12 * a - 2) as -> by (unwrap; done). set (m1 := m + 12 * a - 2).
  assert (1 ≤ m1 ≤ 12) by lia. clearbody m1.
  assert (0 ≤ y1 / 4 ≤ 600 ∧ 0 ≤ y1 / 100 ≤ 30 ∧ 0 ≤ y1 / 400 ≤ 6 ∧ 0 ≤ 31 * m1 / 12 ≤ 40) as (? & ? & ? & ?)
    by (Z.to_euclidean_division_equations; lia).
  unwrap. done.
Qed.

(** Every 32-bit time: the date is that of the calendar, which turns at noon. *)
Lemma unix_to_gregorian_spec t : 0 ≤ t < 2 ^ 32 →
  unix_to_gregorian t = (date_after (Z.to_nat (u32 (t + 43200) / 86400)), ((t / 3600) `mod` 24, (t / 60) `mod` 60, t `mod` 60)).
Proof.
  intros Ht. unfold unix_to_gregorian. change (12 * 3600) with 43200. change (24 * 3600) with 86400.
  assert (0 ≤ u32 (t + 43200) < 2 ^ 32) as Hu by (apply (wrap_range 32); lia). unfold wadd at 2. set (u := u32 (t + 43200)) in *. clearbody u.
  assert (0 ≤ u / 86400 ≤ 49711) by (Z.to_euclidean_division_equations; lia).
  assert (wadd (u / 86400) 2440587 = 2440587 + Z.of_nat (Z.to_nat (u / 86400))) as -> by (unwrap; lia).
  rewrite julian_day_range, jd_date_after by lia. by rewrite Z.div_div by lia.
Qed.

(** ** The clock *)

(** What the registers report of the machine, and what a shift by -1 gives, which C
    leaves undefined. *)
Class RtcEnv : Type := {
  phys_size : Z;
  CONFIG_DEVICE_IDE : bool;
  ide_present : Z → bool;
  ide_cylinder : Z → Z;
  ide_head : Z → Z;
  ide_sector : Z → Z;
  wedge_paddr : Z;
  wedge_end_paddr : Z;
  shift_minus_1 : Z
}.

(** The members of [rtc_t], the bytes kept by the registers, the index register and the
    interrupts raised. *)
Record rtc_t : Type := mk_rtc {
  last_update : Z;
  seconds : Z; minutes : Z; hours : Z; week_day : Z; day : Z; month : Z; year : Z;
  periodic_freq : Z;
  periodic_enabled : bool;
  last_tick_us : Z;
  system_flags : Z;
  cmos_01 : Z; cmos_03 : Z; cmos_05 : Z; cmos_0a : Z; cmos_0b : Z; cmos_0c : Z; cmos_0d : Z; cmos_0f : Z;
  addr_port : Z;
  rtc_irqs : list Z
}.
Definition rtc_set_time (lu s mi h w d mo y : Z) (r : rtc_t) : rtc_t :=
  mk_rtc lu s mi h w d mo y (periodic_freq r) (periodic_enabled r) (last_tick_us r) (system_flags r)
    (cmos_01 r) (cmos_03 r) (cmos_05 r) (cmos_0a r) (cmos_0b r) (cmos_0c r) (cmos_0d r) (cmos_0f r) (addr_port r) (rtc_irqs r).
Definition rtc_set_periodic (freq : Z) (enabled : bool) (tick : Z) (irqs : list Z) (r : rtc_t) : rtc_t :=
  mk_rtc (last_update r) (seconds r) (minutes r) (hours r) (week_day r) (day r) (month r) (year r) freq enabled tick (system_flags r)
    (cmos_01 r) (cmos_03 r) (cmos_05 r) (cmos_0a r) (cmos_0b r) (cmos_0c r) (cmos_0d r) (cmos_0f r) (addr_port r) irqs.
Definition rtc_set_flags (x : Z) (r : rtc_t) : rtc_t :=
  mk_rtc (last_update r) (seconds r) (minutes r) (hours r) (week_day r) (day r) (month r) (year r)
    (periodic_freq r) (periodic_enabled r) (last_tick_us r) x
    (cmos_01 r) (cmos_03 r) (cmos_05 r) (cmos_0a r) (cmos_0b r) (cmos_0c r) (cmos_0d r) (cmos_0f r) (addr_port r) (rtc_irqs r).
Definition rtc_set_bytes (a1 a3 a5 aa ab af : Z) (r : rtc_t) : rtc_t :=
  mk_rtc (last_update r) (seconds r) (minutes r) (hours r) (week_day r) (day r) (month r) (year r)
    (periodic_freq r) (periodic_enabled r) (last_tick_us r) (system_flags r) a1 a3 a5 aa ab (cmos_0c r) (cmos_0d r) af (addr_port r) (rtc_irqs r).
Definition rtc_set_addr (x : Z) (r : rtc_t) : rtc_t :=
  mk_rtc (last_update r) (seconds r) (minutes r) (hours r) (week_day r) (day r) (month r) (year r)
    (periodic_freq r) (periodic_enabled r) (last_tick_us r) (system_flags r)
    (cmos_01 r) (cmos_03 r) (cmos_05 r) (cmos_0a r) (cmos_0b r) (cmos_0c r) (cmos_0d r) (cmos_0f r) x (rtc_irqs r).

Abbreviation MT := (M rtc_t).
Definition mc146818_irq : Z := 8.

Section rtc.
Context {E : RtcEnv}.

(** [clock] is the value of [L4_SystemClock], in microseconds. *)
Definition backend_get_unix_seconds (clock : Z) : Z := u32 (clock / (1000 * 1000)).
Definition bin_to_bcd (bin : Z) : Z := u8 (Z.lor (Z.shiftl (bin / 10) 4) (bin `mod` 10)).
Definition do_update (clock : Z) : MT unit :=
  let t := backend_get_unix_seconds clock in
  let '((y, m, d), (h, mins, s)) := unix_to_gregorian t in
  mmodify (rtc_set_time t (u8 s) (u8 mins) (u8 h) (u8 (day_of_week (u8 y) (u8 m) (u8 d))) (u8 d) (u8 m) (u8 y)).
Definition raise_rtc_irq (irq : Z) : MT unit :=
  mmodify (λ r, rtc_set_periodic (periodic_freq r) (periodic_enabled r) (last_tick_us r) (rtc_irqs r ++ [irq]) r).
Definition enable_periodic : MT unit := mmodify (λ r, rtc_set_periodic (periodic_freq r) true (last_tick_us r) (rtc_irqs r) r).
Definition disable_periodic : MT unit := mmodify (λ r, rtc_set_periodic (periodic_freq r) false (last_tick_us r) (rtc_irqs r) r).
Definition set_periodic_frequency (freq : Z) : MT unit :=
  mmodify (λ r, rtc_set_periodic (u32 freq) (periodic_enabled r) (last_tick_us r) (rtc_irqs r) r).
Definition periodic_tick (now_us : Z) : MT unit :=
  r ← mget;
  if negb (periodic_enabled r) then mret tt else
  let delta := u64 (now_us - last_tick_us r) in
  mmodify (λ r, rtc_set_periodic (periodic_freq r) (periodic_enabled r) now_us (rtc_irqs r) r);;
  if decide (periodic_freq r = 0) then mfault DivByZero else
  if bool_decide (delta > 1000 * 1000 / periodic_freq r) then raise_rtc_irq mc146818_irq else mret tt.
Definition set_system_flags (flags : Z) : MT unit := mmodify (rtc_set_flags (u8 flags)).

(** The rate field of register A. *)
Definition rate_frequency (raw : Z) : Z :=
  let rate := Z.land raw 15 in if bool_decide (rate = 0) then shift_minus_1 else Z.shiftr 32768 (rate - 1).
Definition update_in_progress : Z := 128.
Definition cmos_0a_read (clock : Z) : MT Z :=
  mmodify (λ r, rtc_set_bytes (cmos_01 r) (cmos_03 r) (cmos_05 r) (Z.lxor (cmos_0a r) update_in_progress) (cmos_0b r) (cmos_0f r) r);;
  r ← mget;
  (if bool_decide (Z.land (cmos_0a r) update_in_progress = 0) then do_update clock else mret tt);;
  mgets cmos_0a.
Definition cmos_0a_write (v : Z) : MT unit :=
  mmodify (λ r, rtc_set_bytes (cmos_01 r) (cmos_03 r) (cmos_05 r) v (cmos_0b r) (cmos_0f r) r);;
  set_periodic_frequency (rate_frequency v).
Definition enable_periodic_interrupt : Z := 64.
Definition cmos_0b_write (v : Z) : MT unit :=
  mmodify (λ r, rtc_set_bytes (cmos_01 r) (cmos_03 r) (cmos_05 r) (cmos_0a r) v (cmos_0f r) r);;
  if bool_decide (Z.land v enable_periodic_interrupt ≠ 0) then enable_periodic;; raise_rtc_irq mc146818_irq
  else disable_periodic.

(** Registers 10h to 3fh. *)
Definition extended_kb : Z := Z.min (u32 (Z.shiftr phys_size 10 - 0x400)) 0xffff.
Definition extended_64kb : Z := Z.min (if bool_decide (phys_size > 0x01000000) then u32 (Z.shiftr phys_size 16 - 0x100) else 0) 0xffff.
Definition low_byte (x : Z) : Z := Z.land x 0xff.
Definition high_byte (x : Z) : Z := Z.land (Z.shiftr x 8) 0xff.
Definition if_present (d v : Z) : Z := if ide_present d then v else 0.
(** The nine bytes of disk [d] from 1bh or 24h on. *)
Definition disk_byte (d i : Z) : Z :=
  default 0 (zlookup [if_present d (low_byte (ide_cylinder d)); if_present d (high_byte (ide_cylinder d)); if_present d (ide_head d);
    0xff; 0xff; if_present d (Z.lor 0xc0 (if bool_decide (ide_head d > 8) then 8 else 0));
    if_present d (low_byte (ide_cylinder d)); if_present d (high_byte (ide_cylinder d)); if_present d (ide_sector d)] i).
Definition cmos_10_3f (port flags : Z) : option Z :=
  let at_ (x : Z) := bool_decide (port = x) in
  if at_ 0x10 then Some 0
  else if at_ 0x11 then Some 0xc4
  else if at_ 0x12 then
    Some (if CONFIG_DEVICE_IDE then Z.lor (if ide_present 0 then 0xf0 else 0) (if ide_present 1 then 0x0f else 0) else 0)
  else if at_ 0x13 then Some 0
  else if at_ 0x14 then Some 0x0f
  else if at_ 0x15 then Some (Z.land 640 0xff)
  else if at_ 0x16 then Some (Z.land (Z.shiftr 640 8) 0xff)
  else if at_ 0x17 then Some (low_byte extended_kb)
  else if at_ 0x18 then Some (high_byte extended_kb)
  else if CONFIG_DEVICE_IDE && (at_ 0x19 || at_ 0x1a) then Some 0x2f
  else if CONFIG_DEVICE_IDE && bool_decide (0x1b ≤ port ≤ 0x23) then Some (disk_byte 0 (port - 0x1b))
  else if CONFIG_DEVICE_IDE && bool_decide (0x24 ≤ port ≤ 0x2c) then Some (disk_byte 1 (port - 0x24))
  else if at_ 0x2d then Some flags
  else if at_ 0x2e || at_ 0x2f then Some 0
  else if at_ 0x30 then Some (low_byte extended_kb)
  else if at_ 0x31 then Some (high_byte extended_kb)
  else if at_ 0x34 then Some (low_byte extended_64kb)
  else if at_ 0x35 then Some (high_byte extended_64kb)
  else if at_ 0x37 then Some 0
  else if at_ 0x38 then Some 0
  else if at_ 0x39 then Some 0x1111
  else if at_ 0x3a then Some 0
  else if at_ 0x3d then Some 0x32
  else None.
Definition cmos_10_3f_read (port : Z) : MT Z :=
  flags ← mgets system_flags;
  v ← mof_option AssertFail (cmos_10_3f port flags);
  mret (u8 v).
Definition cmos_10_3f_write (port v : Z) : MT unit := if bool_decide (port = 0x2d) then set_system_flags v else mret tt.

(** [CMOS_registers\[port\]->read] and [write]. *)
Definition cmos_read (port clock : Z) : MT Z :=
  let at_ (x : Z) := bool_decide (port = x) in
  if at_ 0x00 then do_update clock;; s ← mgets seconds; mret (bin_to_bcd s)
  else if at_ 0x01 then mgets cmos_01
  else if at_ 0x02 then x ← mgets minutes; mret (bin_to_bcd x)
  else if at_ 0x03 then mgets cmos_03
  else if at_ 0x04 then x ← mgets hours; mret (bin_to_bcd x)
  else if at_ 0x05 then mgets cmos_05
  else if at_ 0x06 then x ← mgets week_day; mret (bin_to_bcd x)
  else if at_ 0x07 then x ← mgets day; mret (bin_to_bcd x)
  else if at_ 0x08 then x ← mgets month; mret (bin_to_bcd x)
  else if at_ 0x09 then x ← mgets year; mret (bin_to_bcd x)
  else if at_ 0x0a then cmos_0a_read clock
  else if at_ 0x0b then mgets cmos_0b
  else if at_ 0x0c then mgets cmos_0c
  else if at_ 0x0d then mgets cmos_0d
  else if at_ 0x0e then mret 0
  else if at_ 0x0f then mgets cmos_0f
  else cmos_10_3f_read port.
Definition cmos_write (port v : Z) : MT unit :=
  let at_ (x : Z) := bool_decide (port = x) in
  if at_ 0x01 then mmodify (λ r, rtc_set_bytes v (cmos_03 r) (cmos_05 r) (cmos_0a r) (cmos_0b r) (cmos_0f r) r)
  else if at_ 0x03 then mmodify (λ r, rtc_set_bytes (cmos_01 r) v (cmos_05 r) (cmos_0a r) (cmos_0b r) (cmos_0f r) r)
  else if at_ 0x05 then mmodify (λ r, rtc_set_bytes (cmos_01 r) (cmos_03 r) v (cmos_0a r) (cmos_0b r) (cmos_0f r) r)
  else if at_ 0x0a then cmos_0a_write v
  else if at_ 0x0b then cmos_0b_write v
  else if at_ 0x0f then mmodify (λ r, rtc_set_bytes (cmos_01 r) (cmos_03 r) (cmos_05 r) (cmos_0a r) (cmos_0b r) v r)
  else if bool_decide (0x10 ≤ port) then cmos_10_3f_write port v
  else mret tt.
(** The registers 80h and 81h of the wedge. *)
Definition MB4 : Z := 0x400000.
Definition ROUND_UP (x a : Z) : Z := u32 (Z.land (u32 (x + (a - 1))) (u32 (Z.lnot (a - 1)))).
Definition cmos_ab_read (port : Z) : Z :=
  if bool_decide (port = 0x80) then u8 (Z.shiftr wedge_paddr 20)
  else u8 (Z.shiftr (ROUND_UP (u32 (wedge_end_paddr - wedge_paddr)) MB4) 20).

(** A port access; the result is the value after it. *)
Definition mc146818rtc_portio (port value : Z) (read : bool) (clock : Z) : MT Z :=
  if bool_decide (port = 0x70) then
    if read then mgets addr_port else mmodify (rtc_set_addr (u32 value));; mret value
  else if bool_decide (port = 0x71) then
    a ← mgets addr_port;
    if bool_decide (a ≤ 0x3f) then
      if read then cmos_read a clock else cmos_write a (u8 value);; mret value
    else if bool_decide (0x80 ≤ a ≤ 0x81) then mret (if read then cmos_ab_read a else value)
    else mfault AssertFail
  else mret value.
Definition legacy_0x92 (value : Z) (read : bool) : MT Z :=
  if read then mgets system_flags else set_system_flags value;; mret value.
Definition rtc_set_cmos_data (addr value : Z) : MT unit := if bool_decide (addr ≤ 0x3f) then cmos_write addr (u8 value) else mret tt.
(** The static objects after their constructors. *)
Definition rtc_init : rtc_t :=
  mk_rtc 0 0 0 0 0 0 0 0 (rate_frequency 0x26) false 0 0x20 0 0 0 0x26 2 0 0 0 0 [].
End rtc.

(** ** What a guest reads *)

Definition bcd_to_bin (b : Z) : Z := b / 16 * 10 + b `mod` 16.
Lemma bcd_all : forallb (λ x, bool_decide (bcd_to_bin (bin_to_bcd x) = x)) (Z.of_nat <$> seq 0 100) = true.
Proof. vm_compute. reflexivity. Qed.
Lemma bcd_roundtrip x : 0 ≤ x < 100 → bcd_to_bin (bin_to_bcd x) = x.
Proof.
  intros Hx. pose proof bcd_all as H. rewrite forallb_forall in H. specialize (H x). apply bool_decide_eq_true in H; [done|].
  apply list_elem_of_In, list_elem_of_fmap. exists (Z.to_nat x). split; [lia|]. apply elem_of_seq. lia.
Qed.
(** The year register never shows the last two digits of the year. *)
Lemma bcd_years : forallb (λ y, negb (bool_decide (bcd_to_bin (bin_to_bcd (u8 y)) = y `mod` 100))) (Z.of_nat <$> seq 1969 138) = true.
Proof. vm_compute. reflexivity. Qed.
Lemma bcd_year y : 1969 ≤ y ≤ 2106 → bcd_to_bin (bin_to_bcd (u8 y)) ≠ y `mod` 100.
Proof.
  intros Hy. pose proof bcd_years as H. rewrite forallb_forall in H. specialize (H y).
  rewrite negb_true_iff, bool_decide_eq_false in H. apply H.
  apply list_elem_of_In, list_elem_of_fmap. exists (Z.to_nat y). split; [lia|]. apply elem_of_seq. lia.
Qed.

(** The date of a Unix time. *)
Definition civil (t : Z) : Z * Z * Z := Nat.iter (Z.to_nat (t / 86400)) next_day (1970, 1, 1).
Lemma date_civil t : 0 ≤ t < 2 ^ 32 - 43200 →
  civil t = (if decide (12 ≤ (t / 3600) `mod` 24) then date_after (Z.to_nat (u32 (t + 43200) / 86400))
             else next_day (date_after (Z.to_nat (u32 (t + 43200) / 86400)))).
Proof.
  intros Ht. assert (∀ n, Nat.iter n next_day (1970, 1, 1) = date_after (S n)) as Hs.
  { intros n. unfold date_after. by rewrite Nat.iter_succ_r. }
  unfold civil. rewrite Hs, (wrap_small 32) by lia. case_decide as Hh.
  - f_equal. Z.to_euclidean_division_equations. lia.
  - replace (Z.to_nat ((t + 43200) / 86400)) with (Z.to_nat (t / 86400)); [done|]. f_equal. Z.to_euclidean_division_equations. lia.
Qed.

Section guest.
Context {E : RtcEnv}.
Definition read_cmos (reg clock : Z) : MT Z :=
  mc146818rtc_portio 0x70 reg false clock;; mc146818rtc_portio 0x71 0 true clock.
(** Seconds first, as Linux does; the clock goes on while the others are read. *)
Definition read_clock (c0 c1 c2 c3 c4 c5 : Z) : MT ((Z * Z * Z) * (Z * Z * Z)) :=
  s ← read_cmos 0 c0; mi ← read_cmos 2 c1; h ← read_cmos 4 c2;
  d ← read_cmos 7 c3; mo ← read_cmos 8 c4; y ← read_cmos 9 c5;
  mret ((bcd_to_bin y, bcd_to_bin mo, bcd_to_bin d), (bcd_to_bin h, bcd_to_bin mi, bcd_to_bin s)).

Lemma read_cmos_run reg clock s : reg ≤ 0x3f → 0 ≤ reg → read_cmos reg clock s = cmos_read reg clock (rtc_set_addr reg s).
Proof.
  intros H1 H0. unfold read_cmos, mc146818rtc_portio. unfold mbind, M_bind, mmodify, mgets, mret, M_ret. simpl.
  rewrite (wrap_small 32) by lia. by rewrite bool_decide_true by done.
Qed.
Lemma read_clock_run c0 c1 c2 c3 c4 c5 s :
  let t := backend_get_unix_seconds c0 in
  let '((y, mo, d), (h, mi, sec)) := unix_to_gregorian t in
  ∃ s', read_clock c0 c1 c2 c3 c4 c5 s =
    Ok ((bcd_to_bin (bin_to_bcd (u8 y)), bcd_to_bin (bin_to_bcd (u8 mo)), bcd_to_bin (bin_to_bcd (u8 d))),
        (bcd_to_bin (bin_to_bcd (u8 h)), bcd_to_bin (bin_to_bcd (u8 mi)), bcd_to_bin (bin_to_bcd (u8 sec)))) s'.
Proof.
  intros t. destruct (unix_to_gregorian t) as [[[y mo] d] [[h mi] sec]] eqn:Hg. subst t. eexists.
  unfold read_clock. unfold mbind at 1, M_bind at 1. rewrite read_cmos_run by lia.
  unfold cmos_read at 1. rewrite bool_decide_true by done. unfold do_update. rewrite Hg. reflexivity.
Qed.

(** C21. A guest reads a consistent time, and a date that is half a day late. Whatever state the
    clock is in, reading seconds, minutes, hours, day, month and year through the ports
    gives, as decimal digits, the time of day at the moment when the seconds were
    read, however long the other reads take; from noon on the day and the
    month are those of the Gregorian calendar, before noon those of the day before; the year
    is never the last two digits of the year. *)
Theorem rtc_clock c0 c1 c2 c3 c4 c5 s :
  let t := backend_get_unix_seconds c0 in
  t < 2 ^ 32 - 43200 →
  ∃ s' date y mo d,
    read_clock c0 c1 c2 c3 c4 c5 s = Ok ((y, mo, d), ((t / 3600) `mod` 24, (t / 60) `mod` 60, t `mod` 60)) s' ∧
    civil t = (if decide (12 ≤ (t / 3600) `mod` 24) then date else next_day date) ∧
    date.1.2 = mo ∧ date.2 = d ∧ date.1.1 `mod` 100 ≠ y.
Proof.
  intros t Ht. assert (0 ≤ t < 2 ^ 32) as Hr by (apply (wrap_range 32); lia).
  pose proof (read_clock_run c0 c1 c2 c3 c4 c5 s) as Hrun. cbv zeta in Hrun. fold t in Hrun.
  rewrite unix_to_gregorian_spec in Hrun by done. set (i := Z.to_nat (u32 (t + 43200) / 86400)) in *.
  assert (Z.of_nat i ≤ 49711) as Hi.
  { pose proof (wrap_range 32 (t + 43200) ltac:(lia)). subst i. rewrite Z2Nat.id by (apply Z.div_pos; lia).
    apply Z.lt_succ_r, Z.div_lt_upper_bound; lia. }
  pose proof (date_after_years i Hi) as Hy. pose proof (date_after_valid i) as Hv.
  pose proof (date_civil t ltac:(lia)) as Hc. fold i in Hc.
  destruct (date_after i) as [[y mo] d]. destruct Hrun as [s' Hrun]. destruct Hv as [Hmo Hd]. unfold year_of in Hy. simpl in Hy.
  assert (d ≤ 31) by (unfold month_length in Hd; repeat case_match; lia).
  assert (∀ a b, 0 < b ≤ 60 → 0 ≤ a `mod` b < 100) as Hmod by (intros a b Hb; pose proof (Z.mod_pos_bound a b); lia).
  assert (∀ x, 0 ≤ x < 100 → bcd_to_bin (bin_to_bcd (u8 x)) = x) as Hb by (intros x Hx; rewrite (wrap_small 8) by lia; by apply bcd_roundtrip).
  rewrite (Hb mo), (Hb d), (Hb ((t / 3600) `mod` 24)), (Hb ((t / 60) `mod` 60)), (Hb (t `mod` 60)) in Hrun by (lia || apply Hmod; lia).
  exists s', (y, mo, d), (bcd_to_bin (bin_to_bcd (u8 y))), mo, d. split_and!; try done. simpl. apply not_eq_sym, bcd_year. lia.
Qed.
End guest.

(** ** Whatever the guest does *)

Section invariant.
Context {E : RtcEnv}.

Inductive rtc_event : Type :=
  | EvPort (port value : Z) (read : bool) (clock : Z)
  | EvA20 (value : Z) (read : bool)
  | EvTick (now_us : Z).
Definition do_rtc_event (e : rtc_event) : MT unit :=
  match e with
  | EvPort port value read clock => mc146818rtc_portio port value read clock;; mret tt
  | EvA20 value read => legacy_0x92 value read;; mret tt
  | EvTick now_us => periodic_tick now_us
  end.
(** The guest selects registers that exist. *)
Definition register_exists (reg : Z) : Prop :=
  0 ≤ reg < 0x10 ∨ (0x10 ≤ reg ≤ 0x3f ∧ ∀ flags, cmos_10_3f reg flags ≠ None) ∨ 0x80 ≤ reg ≤ 0x81.
Definition event_ok (e : rtc_event) : Prop :=
  match e with EvPort port value read _ => port = 0x70 → read = false → register_exists (u32 value) | _ => True end.
Inductive rtc_reachable : rtc_t → Prop :=
  | reach_init : rtc_reachable rtc_init
  | reach_step s s' e : rtc_reachable s → event_ok e → do_rtc_event e s = Ok tt s' → rtc_reachable s'.

Definition byte (x : Z) : Prop := 0 ≤ x < 256.
(** The clock as it is constructed, and the clock that shows the Unix time [t], in the
    calendar that turns at noon; the year is cut to a byte, and so is the year from which the
    weekday is computed. *)
Definition never_updated (s : rtc_t) : Prop :=
  [last_update s; seconds s; minutes s; hours s; week_day s; day s; month s; year s] = replicate 8 0.
Definition shows (t : Z) (s : rtc_t) : Prop :=
  let '(y, m, d) := date_after (Z.to_nat (u32 (t + 43200) / 86400)) in
  [last_update s; seconds s; minutes s; hours s; week_day s; day s; month s; year s] =
    [t; t `mod` 60; (t / 60) `mod` 60; (t / 3600) `mod` 24; day_of_week (u8 y) m d; d; m; u8 y].
Record rtc_wf (s : rtc_t) : Prop := {
  wf_time : never_updated s ∨ ∃ t, 0 ≤ t < 2 ^ 32 ∧ shows t s;
  wf_bytes : Forall byte [cmos_01 s; cmos_03 s; cmos_05 s; cmos_0a s; cmos_0b s; cmos_0c s; cmos_0d s; cmos_0f s; system_flags s];
  wf_freq : periodic_freq s = u32 (rate_frequency (cmos_0a s));
  wf_addr : register_exists (addr_port s)
}.
Lemma byte_u8 x : byte (u8 x).
Proof. apply (wrap_range 8). lia. Qed.

(** The ranges of the registers. *)
Lemma shows_range t s : shows t s →
  0 ≤ seconds s < 60 ∧ 0 ≤ minutes s < 60 ∧ 0 ≤ hours s < 24 ∧ 1 ≤ day s ≤ 31 ∧ 1 ≤ month s ≤ 12 ∧
  0 ≤ week_day s < 7 ∧ 0 ≤ year s < 256.
Proof.
  unfold shows. set (i := Z.to_nat _). pose proof (date_after_valid i) as Hv. destruct (date_after i) as [[y m] d].
  destruct Hv as [Hm Hd]. assert (d ≤ 31) by (unfold month_length in Hd; repeat case_match; lia).
  intros [= _ -> -> -> -> -> -> ->].
  pose proof (Z.mod_pos_bound t 60). pose proof (Z.mod_pos_bound (t / 60) 60). pose proof (Z.mod_pos_bound (t / 3600) 24).
  pose proof (byte_u8 y). assert (0 ≤ day_of_week (u8 y) m d < 7) by (apply Z.mod_pos_bound; lia).
  unfold byte in *. lia.
Qed.

Lemma do_update_wf F clock (Q : unit → rtc_t → Prop) s : rtc_wf s → (∀ s', rtc_wf s' → addr_port s' = addr_port s → cmos_0a s' = cmos_0a s → Q tt s') → wp F (do_update clock) Q s.
Proof.
  intros [Ht Hb Hf Ha] HQ. unfold do_update.
  assert (0 ≤ backend_get_unix_seconds clock < 2 ^ 32) as Hr by (apply (wrap_range 32); lia).
  rewrite unix_to_gregorian_spec by done. set (t := backend_get_unix_seconds clock) in *.
  set (i := Z.to_nat (u32 (t + 43200) / 86400)). pose proof (date_after_valid i) as Hv. destruct (date_after i) as [[y m] d] eqn:Hi.
  destruct Hv as [Hm Hd]. assert (d ≤ 31) by (unfold month_length in Hd; repeat case_match; lia).
  pose proof (Z.mod_pos_bound t 60). pose proof (Z.mod_pos_bound (t / 60) 60). pose proof (Z.mod_pos_bound (t / 3600) 24).
  assert (0 ≤ day_of_week (u8 y) m d < 7) by (apply Z.mod_pos_bound; lia).
  wp_step. apply HQ; [|done..]. split; simpl; try done. right. exists t. split; [done|].
  unfold shows. fold i. rewrite Hi. simpl. rewrite (wrap_small 8 m), (wrap_small 8 d) by lia. by rewrite !(wrap_small 8) by lia.
Qed.
Lemma toggle_all :
  forallb (λ a, bool_decide (Z.land (Z.lxor a update_in_progress) 15 = Z.land a 15) && bool_decide (0 ≤ Z.lxor a update_in_progress < 256))
    (Z.of_nat <$> seq 0 256) = true.
Proof. vm_compute. reflexivity. Qed.
Lemma rate_toggle a : byte a → rate_frequency (Z.lxor a update_in_progress) = rate_frequency a ∧ byte (Z.lxor a update_in_progress).
Proof.
  intros Ha. pose proof toggle_all as H. rewrite forallb_forall in H. specialize (H a).
  rewrite andb_true_iff, !bool_decide_eq_true in H. destruct H as [H1 H2].
  - apply list_elem_of_In, list_elem_of_fmap. exists (Z.to_nat a). unfold byte in Ha. split; [lia|]. apply elem_of_seq. lia.
  - unfold rate_frequency. by rewrite H1.
Qed.

Ltac all_bytes := rewrite ?list.Forall_cons; split_and!; first [assumption|apply byte_u8|apply list.Forall_nil; exact I|done].
Lemma wp_total {A} F (m : MT A) P Q s : wp no_fault m P s → (∀ a s', P a s' → Q a s') → wp F m Q s.
Proof. unfold wp. destruct (m s); [auto|done]. Qed.
(** Every operation keeps the registers well-formed; only a tick can fault. *)
Ltac wf_same H := destruct H as [Ht Hb Hf Ha]; split; simpl; done.
Lemma cmos_read_wf reg clock s : rtc_wf s → addr_port s = reg → reg ≤ 0x3f →
  wp no_fault (cmos_read reg clock) (λ v s', byte v ∧ rtc_wf s') s.
Proof.
  intros Hwf Hreg Hle. pose proof Hwf as [Ht Hb Hf Ha]. rewrite Hreg in Ha.
  rewrite !list.Forall_cons in Hb. destruct Hb as (? & ? & ? & ? & ? & ? & ? & ? & ? & _). unfold cmos_read. cbv zeta.
  case_bool_decide; [wp_step; apply do_update_wf; [done|]; intros s' Hs' _ _; do 3 wp_step; split; [apply byte_u8|done]|].
  do 9 (case_bool_decide; [repeat wp_step; split; [first [assumption|apply byte_u8]|done]|]).
  case_bool_decide.
  { unfold cmos_0a_read. wp_step. wp_step. destruct (rate_toggle (cmos_0a s)) as [Hrate Hbyte]; [done|].
    set (s1 := rtc_set_bytes _ _ _ _ _ _ s).
    assert (rtc_wf s1) as Hwf1.
    { split; simpl; [done|all_bytes|by rewrite Hrate|by rewrite Hreg]. }
    wp_step. wp_step. wp_step. case_bool_decide.
    - apply do_update_wf; [done|]. intros s' Hs' _ Ha'. wp_step. split; [by rewrite Ha'|done].
    - wp_step. wp_step. by split. }
  do 5 (case_bool_decide; [repeat wp_step; split; [first [assumption|done]|done]|]).
  unfold cmos_10_3f_read. wp_step. wp_step. wp_step. apply wp_mof_option.
  - intros Hn. destruct Ha as [?|[[_ Hex]|?]]; [lia|by destruct (Hex _ Hn)|lia].
  - intros v _. wp_step. split; [apply byte_u8|done].
Qed.
Lemma cmos_write_wf reg v s : rtc_wf s → byte v → wp no_fault (cmos_write reg v) (λ _ s', rtc_wf s') s.
Proof.
  intros Hwf Hv. pose proof Hwf as [Ht Hb Hf Ha]. rewrite !list.Forall_cons in Hb. destruct Hb as (? & ? & ? & ? & ? & ? & ? & ? & ? & _).
  unfold cmos_write, cmos_0a_write, cmos_0b_write, cmos_10_3f_write, set_system_flags, enable_periodic, disable_periodic, raise_rtc_irq,
    set_periodic_frequency. cbv zeta.
  repeat (case_bool_decide; [repeat (wp_step || case_bool_decide); split; simpl; first [done|all_bytes]|]).
  by wp_step.
Qed.
Lemma do_rtc_event_wf e s : rtc_wf s → event_ok e →
  wp (λ f, f = DivByZero ∧ periodic_freq s = 0 ∧ ∃ now, e = EvTick now) (do_rtc_event e) (λ _ s', rtc_wf s') s.
Proof.
  intros Hwf Hok. destruct e as [port value read clock|value read|now]; simpl.
  - wp_step. unfold mc146818rtc_portio. case_bool_decide; [destruct read; repeat wp_step; [done|]|].
    + destruct Hwf as [Ht Hb Hf Ha]. split; simpl; try done. by apply Hok.
    + case_bool_decide; [|by repeat wp_step]. wp_step. wp_step. case_bool_decide.
      * destruct read.
        -- eapply wp_total; [by eapply cmos_read_wf|]. intros v s' [_ Hs']. by wp_step.
        -- wp_step. eapply wp_total; [eapply cmos_write_wf; [done|apply byte_u8]|]. intros v s' Hs'. by repeat wp_step.
      * pose proof (wf_addr _ Hwf) as Ha. destruct Ha as [?|[?|Hab]]; [lia|lia|]. rewrite bool_decide_true by lia. by repeat wp_step.
  - wp_step. unfold legacy_0x92, set_system_flags. destruct read; repeat wp_step; [done|].
    destruct Hwf as [Ht Hb Hf Ha]. rewrite !list.Forall_cons in Hb. destruct Hb as (? & ? & ? & ? & ? & ? & ? & ? & ? & _).
    split; simpl; first [done|all_bytes].
  - unfold periodic_tick, raise_rtc_irq. wp_step. wp_step. destruct (periodic_enabled s); simpl; [|by wp_step].
    destruct Hwf as [Ht Hb Hf Ha]. wp_step. wp_step. case_decide; [apply wp_mfault; eauto|].
    case_bool_decide; wp_step; split; simpl; done.
Qed.
Lemma rtc_init_wf : rtc_wf rtc_init.
Proof.
  split; try done; [by left|repeat constructor; done|left; simpl; lia].
Qed.
Lemma rtc_reachable_wf s : rtc_reachable s → rtc_wf s.
Proof.
  induction 1 as [|s s' e _ IH Hok Hs]; [apply rtc_init_wf|]. exact (wp_ok _ _ _ _ _ _ (do_rtc_event_wf e s IH Hok) Hs).
Qed.
(** C22. The registers are right. In every state that port accesses to existing registers,
    accesses to the gate of address line 20 and ticks can lead to, the time registers are as
    constructed (all zero) or show together one Unix time: seconds, minutes and hours of that
    time, month and day of its date in the calendar of [next_day] (which turns at noon), the
    year cut to a byte and the weekday computed from that. So seconds and minutes are
    0-59, hours 0-23, day 1-31 and month 1-12 once the clock was read, the weekday 0-6 (the source's
    comment says 1-7), and the year a byte (the comment says 0-99). The
    other registers are bytes, the periodic frequency is the one that register A selects, and the
    next access ends without fault; a tick faults at most by dividing by a frequency
    of zero, which the code leaves undefined for rate 0. *)
Theorem rtc_registers_ok s e :
  rtc_reachable s → event_ok e →
  rtc_wf s ∧
  (never_updated s ∨
   0 ≤ seconds s < 60 ∧ 0 ≤ minutes s < 60 ∧ 0 ≤ hours s < 24 ∧ 1 ≤ day s ≤ 31 ∧ 1 ≤ month s ≤ 12 ∧
   0 ≤ week_day s < 7 ∧ 0 ≤ year s < 256) ∧
  match do_rtc_event e s with
  | Ok _ s' => rtc_wf s'
  | Err f => f = DivByZero ∧ Z.land (cmos_0a s) 15 = 0 ∧ ∃ now, e = EvTick now
  end.
Proof.
  intros Hs Hok. pose proof (rtc_reachable_wf s Hs) as Hwf. split; [done|].
  split; [destruct (wf_time s Hwf) as [?|(t & _ & Ht)]; [by left|right; by eapply shows_range]|].
  pose proof (do_rtc_event_wf e s Hwf Hok) as Hw. unfold wp in Hw. destruct (do_rtc_event e s) as [[] s'|f]; [done|].
  destruct Hw as (-> & Hz & He). split_and!; try done. destruct Hwf as [_ _ Hf _]. rewrite Hz in Hf. unfold rate_frequency in Hf.
  case_bool_decide as Hr; [done|]. exfalso.
  assert (1 ≤ Z.land (cmos_0a s) 15 ≤ 15) as Hrange.
  { pose proof (Z.land_ones (cmos_0a s) 4 ltac:(lia)) as Hl. change (Z.ones 4) with 15 in Hl.
    pose proof (Z.mod_pos_bound (cmos_0a s) (2 ^ 4)). change (2 ^ 4) with 16 in *. lia. }
  set (k := Z.land (cmos_0a s) 15) in *. clearbody k.
  assert (k = 1 ∨ k = 2 ∨ k = 3 ∨ k = 4 ∨ k = 5 ∨ k = 6 ∨ k = 7 ∨ k = 8 ∨ k = 9 ∨ k = 10 ∨ k = 11 ∨ k = 12 ∨ k = 13 ∨ k = 14 ∨ k = 15) as Hk by lia.
  clear -Hf Hk. destruct_or? Hk; subst k; discriminate Hf.
Qed.

(** *** The periodic timer *)

Fixpoint ticks (l : list Z) : MT unit := match l with [] => mret tt | t :: l => periodic_tick t;; ticks l end.
(** Each time at most a period after the one before. *)
Fixpoint polled (period last : Z) (l : list Z) : Prop :=
  match l with [] => True | t :: l => last ≤ t ≤ last + period ∧ t < 2 ^ 64 ∧ polled period t l end.
(** When the timer is looked at at least once in a period, it never fires: each look
    restarts the period. *)
Lemma periodic_starves l s :
  0 ≤ last_tick_us s → periodic_freq s ≠ 0 → polled (1000 * 1000 / periodic_freq s) (last_tick_us s) l →
  ∃ s', ticks l s = Ok tt s' ∧ rtc_irqs s' = rtc_irqs s.
Proof.
  revert s. induction l as [|t l IH]; intros s Hlast Hf Hp; [by eexists|]. destruct Hp as (Ht & Ht64 & Hp).
  simpl. unfold mbind, M_bind, periodic_tick at 1. unfold mbind, M_bind, mget. destruct (periodic_enabled s) eqn:He; simpl.
  - rewrite decide_False by done. unfold wrap. rewrite Z.mod_small by lia. rewrite bool_decide_false by lia.
    destruct (IH (rtc_set_periodic (periodic_freq s) true t (rtc_irqs s) s)) as (s' & Hs' & Hi); simpl; [lia|done|done|].
    exists s'. by rewrite <- He in *.
  - assert (∀ l s, periodic_enabled s = false → ticks l s = Ok tt s) as Hoff.
    { clear. induction l as [|t l IH]; intros s He; [done|]. simpl. unfold mbind, M_bind, periodic_tick at 1.
      unfold mbind, M_bind, mget. rewrite He. simpl. by apply IH. }
    exists s. by rewrite Hoff.
Qed.
End invariant.

(** ** Runs *)

Module RtcRuns.
#[export] Instance env : RtcEnv := {
  phys_size := 0x8000000; CONFIG_DEVICE_IDE := true; ide_present d := bool_decide (d = 0);
  ide_cylinder _ := 1000; ide_head _ := 16; ide_sector _ := 63;
  wedge_paddr := 0x1000000; wedge_end_paddr := 0x1600000; shift_minus_1 := 0
}.
(** 13 February 2009, 23:31:30. *)
Definition clock : Z := 1234567890 * 1000000.
Lemma rtc_clock_witness :
  backend_get_unix_seconds clock < 2 ^ 32 - 43200 ∧
  ∃ s' date y mo d, read_clock clock clock clock clock clock (clock + 5000000) rtc_init = Ok ((y, mo, d), (23, 31, 30)) s' ∧
    civil (backend_get_unix_seconds clock) = date ∧ date.1.2 = mo ∧ date.2 = d ∧ date.1.1 `mod` 100 ≠ y.
Proof.
  split; [vm_compute; reflexivity|].
  destruct (rtc_clock clock clock clock clock clock (clock + 5000000) rtc_init) as (s' & date & y & mo & d & H1 & H2 & H3 & H4 & H5);
    [vm_compute; reflexivity|].
  exists s', date, y, mo, d. split; [exact H1|]. split; [|split; [exact H3|split; [exact H4|exact H5]]].
  revert H2. case_decide as Hd; [intros H2; exact H2|]. exfalso. apply Hd. vm_compute. discriminate.
Defined.
(** After the seconds were read. *)
Definition read_once : rtc_t := match do_rtc_event (EvPort 0x71 0 true clock) rtc_init with Ok _ s => s | Err _ => rtc_init end.
Lemma rtc_registers_ok_witness :
  rtc_wf read_once ∧ 1 ≤ day read_once ≤ 31 ∧
  match do_rtc_event (EvPort 0x70 0x0a false 0) read_once with Ok _ s' => rtc_wf s' | Err f => False end.
Proof.
  destruct (rtc_registers_ok read_once (EvPort 0x70 0x0a false 0)) as (H1 & H2 & H3).
  - apply (reach_step rtc_init _ (EvPort 0x71 0 true clock)); [exact reach_init|discriminate|by vm_compute].
  - intros _ _. left. vm_compute. split; [discriminate|reflexivity].
  - split; [exact H1|]. split; [|exact H3]. destruct H2 as [H2|H2]; [vm_compute in H2; discriminate H2|apply H2].
Defined.

(** At 8 in the morning the guest reads the day before; the year 2008 is read as 56. *)
Definition morning : Z := 1212998400 * 1000000. (* 9 June 2008, 8:00 *)
Example morning_is_the_day_before :
  match read_clock morning morning morning morning morning morning rtc_init with Ok (date, time) _ => date = (56, 6, 8) ∧ time = (8, 0, 0) | Err _ => False end.
Proof. vm_compute. split; reflexivity. Qed.
(** The day of the week is computed from a year that was cut to eight bits, and counted
    from 0: the 9th of June 2008 was a Monday, the second day of the week. *)
Example weekday_wrong :
  match (read_cmos 0 (morning + 6 * 3600 * 1000000);; read_cmos 6 morning) rtc_init with Ok w _ => w = 0 | Err _ => False end ∧
  day_of_week 2008 6 9 = 1.
Proof. vm_compute. split; reflexivity. Qed.
(** [month - 14] wraps: the conversion to Julian days is wrong for 1 January 2000, which is
    day 2451545. *)
Example julian_day_wrong : gregorian_to_julian_day 2000 1 1 ≠ 2451545.
Proof. vm_compute. discriminate. Qed.
(** Bit 7 of the index disables NMIs; with it a register is not found. *)
Example nmi_bit_faults : read_cmos (0x80 + 0x0b) 0 rtc_init = Err AssertFail.
Proof. vm_compute. reflexivity. Qed.
(** Rate 0 with the periodic interrupt on: the next tick divides by zero. *)
Example rate_zero_divides :
  (mc146818rtc_portio 0x70 0x0a false 0;; mc146818rtc_portio 0x71 0x20 false 0;; mc146818rtc_portio 0x70 0x0b false 0;;
   mc146818rtc_portio 0x71 0x42 false 0;; periodic_tick 1000000) rtc_init = Err DivByZero.
Proof. vm_compute. reflexivity. Qed.
End RtcRuns.
