(* ===== verification/Pit.v ===== *)
(** * The interval timer

    Models device/i8254.cc of the wedge with [muldiv64] of l4ka/intmath.h: three counters
    that are computed from the L4 clock when they are read, and the timer interrupt of
    channel 0, which the interrupt loop of the wedge polls.

    The clock is read several times in one operation; the readings are an arbitrary
    sequence [clock_at]. The time of each interrupt is recorded.

    The theorems: no access faults and the registers stay in range; a count that was
    latched is read back whole and is the one an ideal counter has; interrupts are
    a period apart and none that is due is left out. *)

From Stdlib Require Import ZArith Lia.
From stdpp Require Import base list numbers.
From S2P Require Import Prelude.

Definition RW_STATE_LSB : Z := 1.
Definition RW_STATE_MSB : Z := 2.
Definition RW_STATE_WORD0 : Z := 3.
Definition RW_STATE_WORD1 : Z := 4.
Definition PIT_FREQ : Z := 1193181.
Definition TIMER_DISABLED : Z := 0.
Definition TIMER_PERIODIC : Z := 1.
Definition TIMER_ONESHOT : Z := 2.
Definition DIV_ROUND (x y : Z) : Z := (x + y / 2) / y.

Record channel : Type := mk_channel {
  ch_count : Z;
  ch_latched_count : Z;
  ch_count_latched : Z;
  ch_status_latched : Z;
  ch_status : Z;
  ch_read_state : Z;
  ch_write_state : Z;
  ch_write_latch : Z;
  ch_rw_mode : Z;
  ch_mode : Z;
  ch_bcd : Z;
  ch_gate : Z
}.
Definition ch_set_count x c := mk_channel x (ch_latched_count c) (ch_count_latched c) (ch_status_latched c) (ch_status c)
  (ch_read_state c) (ch_write_state c) (ch_write_latch c) (ch_rw_mode c) (ch_mode c) (ch_bcd c) (ch_gate c).
Definition ch_set_latch x y c := mk_channel (ch_count c) x y (ch_status_latched c) (ch_status c)
  (ch_read_state c) (ch_write_state c) (ch_write_latch c) (ch_rw_mode c) (ch_mode c) (ch_bcd c) (ch_gate c).
Definition ch_set_status x y c := mk_channel (ch_count c) (ch_latched_count c) (ch_count_latched c) x y
  (ch_read_state c) (ch_write_state c) (ch_write_latch c) (ch_rw_mode c) (ch_mode c) (ch_bcd c) (ch_gate c).
Definition ch_set_read_state x c := mk_channel (ch_count c) (ch_latched_count c) (ch_count_latched c) (ch_status_latched c) (ch_status c)
  x (ch_write_state c) (ch_write_latch c) (ch_rw_mode c) (ch_mode c) (ch_bcd c) (ch_gate c).
Definition ch_set_write x y c := mk_channel (ch_count c) (ch_latched_count c) (ch_count_latched c) (ch_status_latched c) (ch_status c)
  (ch_read_state c) x y (ch_rw_mode c) (ch_mode c) (ch_bcd c) (ch_gate c).
Definition ch_set_mode access mode bcd c := mk_channel (ch_count c) (ch_latched_count c) (ch_count_latched c) (ch_status_latched c) (ch_status c)
  access access (ch_write_latch c) access mode bcd (ch_gate c).
Definition ch_set_init mode gate c := mk_channel (ch_count c) (ch_latched_count c) (ch_count_latched c) (ch_status_latched c) (ch_status c)
  (ch_read_state c) (ch_write_state c) (ch_write_latch c) (ch_rw_mode c) mode (ch_bcd c) gate.
Definition ch_set_gate x c := mk_channel (ch_count c) (ch_latched_count c) (ch_count_latched c) (ch_status_latched c) (ch_status c)
  (ch_read_state c) (ch_write_state c) (ch_write_latch c) (ch_rw_mode c) (ch_mode c) (ch_bcd c) x.

(** [pit_reads] counts the readings of the clock, [pit_irqs] are the interrupts, newest
    first: the time and the period in force. *)
Record pit_t : Type := mk_pit {
  pit_channels : list channel;
  count_load_time : list Z;
  speaker_data_on : Z;
  ch0_period : Z;
  ch0_timer_mode : Z;
  pit_reads : nat;
  pit_irqs : list (Z * Z)
}.
Definition pit_set_channels x p := mk_pit x (count_load_time p) (speaker_data_on p) (ch0_period p) (ch0_timer_mode p) (pit_reads p) (pit_irqs p).
Definition pit_set_load_time x p := mk_pit (pit_channels p) x (speaker_data_on p) (ch0_period p) (ch0_timer_mode p) (pit_reads p) (pit_irqs p).
Definition pit_set_speaker x p := mk_pit (pit_channels p) (count_load_time p) x (ch0_period p) (ch0_timer_mode p) (pit_reads p) (pit_irqs p).
Definition pit_set_period x p := mk_pit (pit_channels p) (count_load_time p) (speaker_data_on p) x (ch0_timer_mode p) (pit_reads p) (pit_irqs p).
Definition pit_set_timer_mode x p := mk_pit (pit_channels p) (count_load_time p) (speaker_data_on p) (ch0_period p) x (pit_reads p) (pit_irqs p).
Definition pit_set_reads x p := mk_pit (pit_channels p) (count_load_time p) (speaker_data_on p) (ch0_period p) (ch0_timer_mode p) x (pit_irqs p).
Definition pit_set_irqs x p := mk_pit (pit_channels p) (count_load_time p) (speaker_data_on p) (ch0_period p) (ch0_timer_mode p) (pit_reads p) x.
Abbreviation MP := (M pit_t).

Class PitEnv : Type := { clock_at : nat → Z }.

(** [(a * b) / c] with a 96-bit product. *)
Definition muldiv64 (a b c : Z) : Z :=
  let low := u32 a in
  let high := Z.shiftr a 32 in
  let rl := low * b in
  let rh := u64 (high * b + Z.shiftr rl 32) in
  u32 (rh / c) * 2 ^ 32 + u32 (u64 (Z.shiftl (rh `mod` c) 32 + Z.land rl 0xffffffff) / c).

Section pit.
Context {E : PitEnv}.

Definition L4_SystemClock : MP Z :=
  p ← mget; mmodify (pit_set_reads (S (pit_reads p)));; mret (clock_at (pit_reads p)).
Definition get_ch (i : Z) : MP channel := p ← mget; mof_option OutOfBounds (zlookup (pit_channels p) i).
Definition upd_ch (i : Z) (f : channel → channel) : MP unit :=
  c ← get_ch i; mmodify (λ p, pit_set_channels (zinsert i (f c) (pit_channels p)) p).
Definition get_load_time (i : Z) : MP Z := p ← mget; mof_option OutOfBounds (zlookup (count_load_time p) i).
Definition set_load_time (i t : Z) : MP unit :=
  get_load_time i;; mmodify (λ p, pit_set_load_time (zinsert i t (count_load_time p)) p).
(** The oscillations since the count was loaded. *)
Definition elapsed (i : Z) : MP Z :=
  now ← L4_SystemClock; t ← get_load_time i; mret (muldiv64 (u64 (now - t)) PIT_FREQ 1000000).
Definition modulo (a b : Z) : MP Z := if decide (b = 0) then mfault DivByZero else mret (a `mod` b).

Definition pit_get_count (i : Z) : MP Z :=
  d ← elapsed i;
  c ← get_ch i;
  let mode_is (x : Z) := bool_decide (ch_mode c = x) in
  if mode_is 0 || mode_is 1 || mode_is 4 || mode_is 5 then mret (Z.land (u64 (ch_count c - d)) 0xffff)
  else if mode_is 3 then r ← modulo (u64 (2 * d)) (ch_count c); mret (ch_count c - r)
  else r ← modulo d (ch_count c); mret (ch_count c - r).
Definition pit_get_out (i : Z) : MP Z :=
  d ← elapsed i;
  s ← get_ch i;
  let mode_is (x : Z) := bool_decide (ch_mode s = x) in
  if mode_is 1 then mret (Z.b2z (bool_decide (d < ch_count s)))
  else if mode_is 2 then r ← modulo d (ch_count s); mret (Z.b2z (bool_decide (r = 0) && bool_decide (d ≠ 0)))
  else if mode_is 3 then r ← modulo d (ch_count s); mret (Z.b2z (bool_decide (r < Z.shiftr (ch_count s + 1) 1)))
  else if mode_is 4 || mode_is 5 then mret (Z.b2z (bool_decide (d = ch_count s)))
  else mret (Z.b2z (bool_decide (d >= ch_count s))).
Definition pit_set_gate (i val : Z) : MP unit :=
  s ← get_ch i;
  let mode_is (x : Z) := bool_decide (ch_mode s = x) in
  (if (mode_is 1 || mode_is 5 || mode_is 2 || mode_is 3) && bool_decide (ch_gate s < val)
   then now ← L4_SystemClock; set_load_time i now else mret tt);;
  upd_ch i (ch_set_gate val).
Definition pit_get_gate (i : Z) : MP Z := s ← get_ch i; mret (ch_gate s).
Definition pit_load_count (i val : Z) : MP unit :=
  let val := if bool_decide (val = 0) then 0x10000 else val in
  now ← L4_SystemClock;
  set_load_time i now;;
  upd_ch i (ch_set_count val);;
  if bool_decide (i ≠ 0) then mret tt else
  mmodify (pit_set_period (u32 (DIV_ROUND (val * 1000000) PIT_FREQ)));;
  s ← get_ch i;
  mmodify (pit_set_timer_mode (if bool_decide (ch_mode s = 2) then TIMER_PERIODIC
    else if bool_decide (ch_mode s = 1) then TIMER_ONESHOT else TIMER_DISABLED)).
Definition pit_latch_count (i : Z) : MP unit :=
  c ← get_ch i;
  if bool_decide (ch_count_latched c = 0) then
    n ← pit_get_count i;
    upd_ch i (ch_set_latch (u16 n) (ch_rw_mode c))
  else mret tt.
Definition pit_latch_status (i : Z) : MP unit :=
  c ← get_ch i;
  if bool_decide (ch_status_latched c = 0) then
    out ← pit_get_out i;
    upd_ch i (ch_set_status 1
      (u8 (Z.lor (Z.lor (Z.lor (Z.shiftl out 7) (Z.shiftl (ch_rw_mode c) 4)) (Z.shiftl (ch_mode c) 1)) (ch_bcd c))))
  else mret tt.

(** The read-back command for the channels from [i] on. *)
Fixpoint read_back (n : nat) (i val : Z) : MP unit :=
  match n with
  | O => mret tt
  | S n =>
      (if bool_decide (Z.land val (Z.shiftl 2 i) ≠ 0) then
         (if bool_decide (Z.land val 0x20 = 0) then pit_latch_count i else mret tt);;
         (if bool_decide (Z.land val 0x10 = 0) then pit_latch_status i else mret tt)
       else mret tt);;
      read_back n (i + 1) val
  end.
Definition control_word (val : Z) : MP unit :=
  let i := Z.shiftr val 6 in
  if bool_decide (i = 3) then read_back 3 0 val else
  let access := Z.land (Z.shiftr val 4) 3 in
  if bool_decide (access = 0) then pit_latch_count i else
  let mode := Z.land (Z.shiftr val 1) 7 in
  upd_ch i (ch_set_mode access (if bool_decide (mode > 5) then mode - 4 else mode) (Z.land val 1)).
Definition write_count (i val : Z) : MP unit :=
  s ← get_ch i;
  if bool_decide (ch_write_state s = RW_STATE_MSB) then pit_load_count i (Z.shiftl val 8)
  else if bool_decide (ch_write_state s = RW_STATE_WORD0) then upd_ch i (ch_set_write RW_STATE_WORD1 val)
  else if bool_decide (ch_write_state s = RW_STATE_WORD1) then
    pit_load_count i (Z.lor (ch_write_latch s) (Z.shiftl val 8));;
    upd_ch i (λ c, ch_set_write RW_STATE_WORD0 (ch_write_latch c) c)
  else pit_load_count i val.
Definition pit_ioport_write (addr val : Z) : MP unit :=
  let val := Z.land val 0xff in
  let addr := Z.land addr 3 in
  if bool_decide (addr = 3) then control_word val else write_count addr val.
Definition read_latched (i : Z) (s : channel) : MP Z :=
  if bool_decide (ch_count_latched s = RW_STATE_MSB) then
    upd_ch i (ch_set_latch (ch_latched_count s) 0);; mret (Z.shiftr (ch_latched_count s) 8)
  else if bool_decide (ch_count_latched s = RW_STATE_WORD0) then
    upd_ch i (ch_set_latch (ch_latched_count s) RW_STATE_MSB);; mret (Z.land (ch_latched_count s) 0xff)
  else upd_ch i (ch_set_latch (ch_latched_count s) 0);; mret (Z.land (ch_latched_count s) 0xff).
Definition read_count (i : Z) (s : channel) : MP Z :=
  count ← pit_get_count i;
  if bool_decide (ch_read_state s = RW_STATE_MSB) then mret (Z.land (Z.shiftr count 8) 0xff)
  else if bool_decide (ch_read_state s = RW_STATE_WORD0) then
    upd_ch i (ch_set_read_state RW_STATE_WORD1);; mret (Z.land count 0xff)
  else if bool_decide (ch_read_state s = RW_STATE_WORD1) then
    upd_ch i (ch_set_read_state RW_STATE_WORD0);; mret (Z.land (Z.shiftr count 8) 0xff)
  else mret (Z.land count 0xff).
Definition pit_ioport_read (addr : Z) : MP Z :=
  let i := Z.land addr 3 in
  s ← get_ch i;
  if bool_decide (ch_status_latched s ≠ 0) then upd_ch i (ch_set_status 0 (ch_status s));; mret (ch_status s)
  else if bool_decide (ch_count_latched s ≠ 0) then read_latched i s
  else read_count i s.

Fixpoint init_channels (n : nat) (i : Z) : MP unit :=
  match n with
  | O => mret tt
  | S n =>
      upd_ch i (ch_set_init 0xff (Z.b2z (bool_decide (i ≠ 2))));;
      pit_load_count i 0;;
      init_channels n (i + 1)
  end.
Definition pit_init : MP unit := init_channels 3 0.
Definition pit_get_remaining_usecs : MP Z :=
  p ← mget;
  if bool_decide (ch0_timer_mode p = TIMER_DISABLED) then mret 54925 else
  now ← L4_SystemClock;
  t ← get_load_time 0;
  let d := u32 (now - t) in
  if bool_decide (d >= ch0_period p) then mret 0 else mret (u32 (ch0_period p - d)).
Definition pit_handle_timer_interrupt : MP unit :=
  p ← mget;
  if bool_decide (ch0_timer_mode p = TIMER_DISABLED) then mret tt else
  now ← L4_SystemClock;
  t ← get_load_time 0;
  let d := u32 (now - t) in
  if bool_decide (d >= ch0_period p) then
    now' ← L4_SystemClock;
    set_load_time 0 now';;
    (if bool_decide (ch0_timer_mode p = TIMER_ONESHOT) then mmodify (pit_set_timer_mode TIMER_DISABLED) else mret tt);;
    mmodify (λ p, pit_set_irqs ((now, ch0_period p) :: pit_irqs p) p)
  else mret tt.

Definition handle_pit_io (port val bit_width : Z) (read : bool) : MP Z :=
  if bool_decide (bit_width ≠ 8) then mret val
  else if negb read then pit_ioport_write port val;; mret val
  else if bool_decide (Z.land port 3 ≠ 3) then pit_ioport_read port else mret val.
Definition speaker_ioport_write (val : Z) : MP unit :=
  mmodify (pit_set_speaker (Z.land (Z.shiftr val 1) 1));; pit_set_gate 2 (Z.land val 1).
Definition speaker_ioport_read : MP Z :=
  now ← L4_SystemClock;
  let refresh_clock := Z.land (Z.shiftr (u32 now) 4) 1 in
  p ← mget;
  gate ← pit_get_gate 2;
  out ← pit_get_out 2;
  mret (Z.lor (Z.lor (Z.lor (Z.shiftl (speaker_data_on p) 1) gate) (Z.shiftl out 5)) (Z.shiftl refresh_clock 4)).
Definition handle_speaker_io (val bit_width : Z) (read : bool) : MP Z :=
  if bool_decide (bit_width ≠ 8) then mret val
  else if read then speaker_ioport_read else speaker_ioport_write val;; mret val.
Definition i8254_portio (port value bit_width : Z) (read : bool) : MP Z :=
  if bool_decide (port = 0x61) then handle_speaker_io value bit_width read else handle_pit_io port value bit_width read.
(** The static state before [pit_init]. *)
Definition pit_zero : pit_t := mk_pit (replicate 3 (mk_channel 0 0 0 0 0 0 0 0 0 0 0 0)) [0; 0; 0] 0 0 0 0 [].
End pit.

(** ** The product of 96 bits *)

Lemma low32 x : Z.land x 0xffffffff = x `mod` 2 ^ 32.
Proof. change 0xffffffff with (Z.ones 32). by rewrite Z.land_ones. Qed.
(** Division of two words by one, a word at a time. *)
Lemma long_division h l c : 0 ≤ l < 2 ^ 32 → 0 < c →
  (h * 2 ^ 32 + l) / c = h / c * 2 ^ 32 + ((h `mod` c) * 2 ^ 32 + l) / c ∧ ((h `mod` c) * 2 ^ 32 + l) / c < 2 ^ 32.
Proof.
  intros Hl Hc. pose proof (Z.mod_pos_bound h c Hc). split.
  - rewrite (Z.div_mod h c) at 1 by lia.
    replace ((c * (h / c) + h `mod` c) * 2 ^ 32 + l) with (h / c * 2 ^ 32 * c + ((h `mod` c) * 2 ^ 32 + l)) by ring.
    by rewrite Z.div_add_l by lia.
  - apply Z.div_lt_upper_bound; nia.
Qed.
Lemma muldiv64_spec a b c :
  0 ≤ a < 2 ^ 64 → 0 ≤ b < 2 ^ 32 → 0 < c < 2 ^ 32 → muldiv64 a b c = u64 (a * b / c).
Proof.
  intros Ha Hb Hc. unfold muldiv64. rewrite low32, !Z.shiftr_div_pow2, Z.shiftl_mul_pow2 by lia.
  change (u32 a) with (a `mod` 2 ^ 32). pose proof (Z.mod_pos_bound a (2 ^ 32) ltac:(lia)) as Hlow.
  assert (0 ≤ a / 2 ^ 32 < 2 ^ 32) as Hhigh by (split; [apply Z.div_pos|apply Z.div_lt_upper_bound]; lia).
  assert (a = a / 2 ^ 32 * 2 ^ 32 + a `mod` 2 ^ 32) as Ea by (rewrite (Z.div_mod a (2 ^ 32)) at 1; lia).
  set (low := a `mod` 2 ^ 32) in *. set (high := a / 2 ^ 32) in *. set (rl := low * b).
  assert (0 ≤ rl ≤ (2 ^ 32 - 1) * (2 ^ 32 - 1)) as Hrl by (subst rl; nia).
  assert (0 ≤ rl / 2 ^ 32 < 2 ^ 32 - 1) by (split; [apply Z.div_pos|apply Z.div_lt_upper_bound]; lia).
  assert (0 ≤ high * b ≤ (2 ^ 32 - 1) * (2 ^ 32 - 1)) by nia.
  rewrite (wrap_small 64 (high * b + rl / 2 ^ 32)) by lia. set (rh := high * b + rl / 2 ^ 32).
  pose proof (Z.mod_pos_bound rl (2 ^ 32) ltac:(lia)) as Hl. pose proof (Z.mod_pos_bound rh c ltac:(lia)) as Hm.
  rewrite (wrap_small 64) by lia. destruct (long_division rh (rl `mod` 2 ^ 32) c Hl ltac:(lia)) as [E Hlt].
  assert (a * b = rh * 2 ^ 32 + rl `mod` 2 ^ 32) as ->.
  { subst rh. rewrite Ea at 1. subst rl. pose proof (Z.div_mod (low * b) (2 ^ 32) ltac:(lia)). lia. }
  rewrite E. rewrite (wrap_small 32 ((_ + _) / c)) by (split; [apply Z.div_pos; lia|done]).
  unfold wrap. assert (0 ≤ ((rh `mod` c) * 2 ^ 32 + rl `mod` 2 ^ 32) / c) by (apply Z.div_pos; lia).
  set (q := rh / c). set (r := ((rh `mod` c) * 2 ^ 32 + rl `mod` 2 ^ 32) / c) in *. clearbody q r. clear -H1 Hlt.
  Z.to_euclidean_division_equations. lia.
Qed.

(** ** The invariant *)

Record chan_wf (c : channel) : Prop := {
  cw_count : 1 ≤ ch_count c ≤ 65536;
  cw_latched : 0 ≤ ch_latched_count c < 2 ^ 16;
  cw_count_latched : 0 ≤ ch_count_latched c ≤ 3;
  cw_status_latched : 0 ≤ ch_status_latched c ≤ 1;
  cw_status : 0 ≤ ch_status c < 2 ^ 8;
  cw_read : 0 ≤ ch_read_state c ≤ 4;
  cw_write : 0 ≤ ch_write_state c ≤ 4;
  cw_write_latch : 0 ≤ ch_write_latch c < 2 ^ 8;
  cw_rw_mode : 0 ≤ ch_rw_mode c ≤ 3;
  cw_mode : 0 ≤ ch_mode c ≤ 5 ∨ ch_mode c = 0xff;
  cw_bcd : 0 ≤ ch_bcd c ≤ 1;
  cw_gate : 0 ≤ ch_gate c ≤ 1
}.
(** Interrupts, newest first: each comes a period after the one before at least. *)
Fixpoint spaced (irqs : list (Z * Z)) : Prop :=
  match irqs with
  | (t, period) :: ((t', _) :: _) as rest => t' + period ≤ t ∧ spaced rest
  | _ => True
  end.
Definition period_of (count : Z) : Z := DIV_ROUND (count * 1000000) PIT_FREQ.

Section proofs.
Context {E : PitEnv}.

Record pit_ok (p : pit_t) : Prop := {
  po_channels : length (pit_channels p) = 3%nat;
  po_times : length (count_load_time p) = 3%nat;
  po_wf : Forall chan_wf (pit_channels p);
  po_speaker : 0 ≤ speaker_data_on p ≤ 1;
  po_mode : 0 ≤ ch0_timer_mode p ≤ 2;
  po_period c : zlookup (pit_channels p) 0 = Some c → ch0_period p = period_of (ch_count c);
  po_clock i t n : zlookup (count_load_time p) i = Some t → (pit_reads p ≤ n)%nat → t ≤ clock_at n;
  po_spaced : spaced (pit_irqs p);
  po_irqs t x : head (pit_irqs p) = Some x → zlookup (count_load_time p) 0 = Some t → x.1 ≤ t
}.

(** From every good state [m] returns a value with [R] and leaves a good state. *)
Definition yields {A} (m : MP A) (R : A → Prop) : Prop := ∀ p, pit_ok p → wp no_fault m (λ a p', R a ∧ pit_ok p') p.
Abbreviation keeps m := (yields m (λ _, True)).

Lemma yields_bind {A B} (m : MP A) (k : A → MP B) R Q : yields m R → (∀ a, R a → yields (k a) Q) → yields (m ≫= k) Q.
Proof. intros Hm Hk p Hp. apply wp_bind. eapply wp_mono; [by apply Hm|]. simpl. intros a p' [Ha Hp']. by apply Hk. Qed.
Lemma yields_ret {A} (a : A) (R : A → Prop) : R a → yields (mret a) R.
Proof. intros Ha p Hp. by apply wp_mret. Qed.
Lemma yields_mono {A} (m : MP A) (R Q : A → Prop) : yields m R → (∀ a, R a → Q a) → yields m Q.
Proof. intros Hm HQ p Hp. eapply wp_mono; [by apply Hm|]. simpl. intros a p' [Ha Hp']. auto. Qed.
Lemma yields_if {A} (b : bool) (m1 m2 : MP A) R : (b = true → yields m1 R) → (b = false → yields m2 R) → yields (if b then m1 else m2) R.
Proof. destruct b; auto. Qed.
Lemma yields_get_ch i : 0 ≤ i < 3 → yields (get_ch i) chan_wf.
Proof.
  intros Hi p Hp. unfold get_ch. wp_steps.
  - destruct (zlookup_is_Some (pit_channels p) i) as [c Hc]; [rewrite (po_channels p Hp); lia|congruence].
  - split; [|done]. eapply list.Forall_forall; [apply (po_wf p Hp)|].
    unfold zlookup in *. case_decide; [by eapply list_elem_of_lookup_2|done].
Qed.
Lemma yields_get_load_time i : 0 ≤ i < 3 → yields (get_load_time i) (λ _, True).
Proof.
  intros Hi p Hp. unfold get_load_time. wp_steps; [|done].
  destruct (zlookup_is_Some (count_load_time p) i) as [c Hc]; [rewrite (po_times p Hp); lia|congruence].
Qed.
Lemma yields_clock : keeps L4_SystemClock.
Proof.
  intros p Hp. unfold L4_SystemClock. wp_steps. split; [done|]. destruct p, Hp; constructor; simpl in *; try done.
  intros i t n Ht Hn. apply (po_clock0 i); [done|lia].
Qed.
Lemma chan_wf_lookup p i c : pit_ok p → zlookup (pit_channels p) i = Some c → chan_wf c.
Proof.
  intros Hp Hc. eapply list.Forall_forall; [apply (po_wf p Hp)|].
  unfold zlookup in Hc. case_decide; [by eapply list_elem_of_lookup_2|done].
Qed.
Lemma chan_wf_insert p i c : pit_ok p → chan_wf c → Forall chan_wf (zinsert i c (pit_channels p)).
Proof. intros Hp Hc. unfold zinsert. case_decide; [apply Forall_insert; [apply (po_wf p Hp)|done]|apply (po_wf p Hp)]. Qed.
Lemma yields_upd_ch i f : 0 ≤ i < 3 → (∀ c, chan_wf c → chan_wf (f c) ∧ ch_count (f c) = ch_count c) → keeps (upd_ch i f).
Proof.
  intros Hi Hf p Hp. unfold upd_ch, get_ch. wp_steps.
  { destruct (zlookup_is_Some (pit_channels p) i) as [c Hc]; [rewrite (po_channels p Hp); lia|congruence]. }
  split; [done|]. pose proof (chan_wf_lookup p i _ Hp ltac:(done)) as Hc. destruct (Hf _ Hc) as [Hw Hcount].
  pose proof (chan_wf_insert p i _ Hp Hw) as Hall. pose proof Hp as [].
  constructor; simpl; try done; [by rewrite length_zinsert|].
  intros c0. destruct (decide (i = 0)) as [->|Hne].
  - rewrite zlookup_zinsert_eq by (rewrite po_channels0; lia). intros [= <-]. rewrite Hcount. by apply po_period0.
  - rewrite zlookup_zinsert_ne by done. by apply po_period0.
Qed.
(** Reading the clock for the load time of a channel. *)
Lemma pit_ok_reload p i (n : nat) : 0 ≤ i < 3 → (∀ i j, (i ≤ j)%nat → clock_at i ≤ clock_at j) → pit_ok p → (pit_reads p ≤ n)%nat →
  pit_ok (pit_set_load_time (zinsert i (clock_at n) (count_load_time p)) (pit_set_reads (S n) p)).
Proof.
  intros Hi mono Hp Hn. pose proof Hp as []. constructor; simpl; try done; [by rewrite length_zinsert|..].
  - intros j t k Hj Hk. rewrite zlookup_zinsert in Hj by (rewrite po_times0; lia). case_decide; [injection Hj as <-; apply mono; lia|].
    apply (po_clock0 j); [done|lia].
  - intros t x Hx Ht. rewrite zlookup_zinsert in Ht by (rewrite po_times0; lia). case_decide; [|by eauto].
    injection Ht as <-. destruct (zlookup_is_Some (count_load_time p) 0) as [t0 Ht0]; [rewrite po_times0; lia|].
    etrans; [by eapply po_irqs0|]. by eapply po_clock0.
Qed.

Lemma elapsed_yields i : 0 ≤ i < 3 → yields (elapsed i) (λ d, 0 ≤ d < 2 ^ 64).
Proof.
  intros Hi. eapply yields_bind; [apply yields_clock|intros now _]. eapply yields_bind; [by apply yields_get_load_time|intros t _].
  apply yields_ret. rewrite muldiv64_spec; [apply wrap_range; lia|apply wrap_range; lia|unfold PIT_FREQ; lia|lia].
Qed.
Lemma yields_modulo a b : 0 < b → yields (modulo a b) (λ r, 0 ≤ r < b).
Proof. intros Hb. unfold modulo. rewrite decide_False by lia. apply yields_ret, Z.mod_pos_bound, Hb. Qed.
Lemma land_low x k : 0 ≤ k → 0 ≤ Z.land x (Z.ones k) < 2 ^ k.
Proof. intros. rewrite Z.land_ones by done. apply Z.mod_pos_bound. lia. Qed.
Lemma land_ff x : 0 ≤ Z.land x 0xff < 256.
Proof. apply (land_low x 8). lia. Qed.
Lemma land_3 x : 0 ≤ Z.land x 3 ≤ 3.
Proof. pose proof (land_low x 2 ltac:(lia)) as H. change (Z.ones 2) with 3 in H. lia. Qed.
Lemma land_1 x : 0 ≤ Z.land x 1 ≤ 1.
Proof. pose proof (land_low x 1 ltac:(lia)) as H. change (Z.ones 1) with 1 in H. lia. Qed.
Lemma pit_get_count_yields i : 0 ≤ i < 3 → yields (pit_get_count i) (λ n, 0 ≤ n ≤ 65536).
Proof.
  intros Hi. eapply yields_bind; [by apply elapsed_yields|intros d _]. eapply yields_bind; [by apply yields_get_ch|intros c Hc]. cbv zeta.
  pose proof (cw_count c Hc).
  repeat (apply yields_if; intros ?); [apply yields_ret; pose proof (land_low (u64 (ch_count c - d)) 16 ltac:(lia)) as H'; change (Z.ones 16) with 0xffff in H'; lia|..];
    (eapply yields_bind; [apply yields_modulo; lia|intros r Hr; simpl in Hr]; apply yields_ret; lia).
Qed.
Lemma b2z_range b : 0 ≤ Z.b2z b ≤ 1.
Proof. destruct b; simpl; lia. Qed.
Lemma pit_get_out_yields i : 0 ≤ i < 3 → yields (pit_get_out i) (λ n, 0 ≤ n ≤ 1).
Proof.
  intros Hi. eapply yields_bind; [by apply elapsed_yields|intros d _]. eapply yields_bind; [by apply yields_get_ch|intros c Hc]. cbv zeta.
  pose proof (cw_count c Hc).
  repeat (apply yields_if; intros ?); first [apply yields_ret, b2z_range|
    eapply yields_bind; [apply yields_modulo; lia|intros r Hr]; apply yields_ret, b2z_range].
Qed.

Ltac chan := let c := fresh in let Hc := fresh in
  intros c Hc; split; [destruct Hc; constructor; simpl; try done; try lia|done].
Hypothesis mono : ∀ i j, (i ≤ j)%nat → clock_at i ≤ clock_at j.

Lemma yields_set_gate i val : 0 ≤ i < 3 → 0 ≤ val ≤ 1 → keeps (pit_set_gate i val).
Proof.
  intros Hi Hv. unfold pit_set_gate. eapply yields_bind; [by apply yields_get_ch|intros c Hc]. cbv zeta.
  eapply (yields_bind _ _ (λ _, True)); [|intros _ _; apply yields_upd_ch; [done|chan]].
  apply yields_if; intros _; [|by apply yields_ret].
  intros p Hp. unfold L4_SystemClock, set_load_time, get_load_time. wp_steps.
  - simpl in *. destruct (zlookup_is_Some (count_load_time p) i) as [t Ht]; [rewrite (po_times p Hp); lia|congruence].
  - split; [done|]. by apply (pit_ok_reload p i (pit_reads p)).
Qed.
Lemma pit_ok_load p i n c val mode : pit_ok p → 0 ≤ i < 3 → zlookup (pit_channels p) i = Some c → 1 ≤ val ≤ 65536 → 0 ≤ mode ≤ 2 →
  (pit_reads p ≤ n)%nat →
  pit_ok (mk_pit (zinsert i (ch_set_count val c) (pit_channels p)) (zinsert i (clock_at n) (count_load_time p)) (speaker_data_on p)
    (if decide (i = 0) then period_of val else ch0_period p) (if decide (i = 0) then mode else ch0_timer_mode p) (S n) (pit_irqs p)).
Proof.
  intros Hp Hi Hc Hv Hm Hn. pose proof (pit_ok_reload p i n Hi mono Hp Hn) as [].
  assert (chan_wf (ch_set_count val c)) as Hw by (destruct (chan_wf_lookup p i c Hp Hc); constructor; simpl; try done; lia).
  pose proof (chan_wf_insert p i _ Hp Hw). simpl in *. constructor; simpl; try done.
  - by rewrite length_zinsert.
  - case_decide; done.
  - intros c0. case_decide; [subst i; rewrite zlookup_zinsert_eq by (rewrite po_channels0; lia); by intros [= <-]|].
    rewrite zlookup_zinsert_ne by done. by apply po_period0.
Qed.
Lemma period_small val : 1 ≤ val ≤ 65536 → u32 (DIV_ROUND (val * 1000000) PIT_FREQ) = period_of val ∧ 1 ≤ period_of val ≤ 54925.
Proof.
  intros Hv. assert (1 ≤ period_of val ≤ 54925) as Hr by (unfold period_of, DIV_ROUND, PIT_FREQ; Z.to_euclidean_division_equations; lia).
  split; [|done]. change (u32 (period_of val) = period_of val). apply wrap_small. lia.
Qed.
Lemma yields_load_count i val : 0 ≤ i < 3 → 0 ≤ val < 65536 → keeps (pit_load_count i val).
Proof.
  intros Hi Hv p Hp. unfold pit_load_count. set (v := if bool_decide (val = 0) then 0x10000 else val).
  assert (1 ≤ v ≤ 65536) as Hv' by (subst v; case_bool_decide; lia). clearbody v. clear val Hv.
  destruct (zlookup_is_Some (count_load_time p) i) as [t Ht]; [rewrite (po_times p Hp); lia|].
  destruct (zlookup_is_Some (pit_channels p) i) as [c Hc]; [rewrite (po_channels p Hp); lia|].
  assert (∀ mode, 0 ≤ mode ≤ 2 → _) as Hload by exact (λ mode Hm, pit_ok_load p i (pit_reads p) c v mode Hp Hi Hc Hv' Hm (le_n _)).
  destruct (period_small v Hv') as [Hper _].
  unfold wp, L4_SystemClock, set_load_time, get_load_time, upd_ch, get_ch, mbind, M_bind, mret, M_ret, mget, mmodify, mof_option. simpl.
  rewrite Ht. simpl. rewrite Hc. simpl. case_bool_decide as Hi0; simpl.
  - split; [done|]. specialize (Hload 0 ltac:(lia)). by rewrite !decide_False in Hload by done.
  - assert (i = 0) as -> by lia. rewrite zlookup_zinsert_eq by (rewrite (po_channels p Hp); lia). simpl. rewrite Hper. split; [done|].
    repeat case_bool_decide; [apply (Hload 1)|apply (Hload 2)|apply (Hload 0)]; lia.
Qed.

Lemma yields_latch_count i : 0 ≤ i < 3 → keeps (pit_latch_count i).
Proof.
  intros Hi. unfold pit_latch_count. eapply yields_bind; [by apply yields_get_ch|intros c Hc]. pose proof (cw_rw_mode c Hc).
  apply yields_if; intros _; [|by apply yields_ret]. eapply yields_bind; [by apply pit_get_count_yields|intros n _].
  apply yields_upd_ch; [done|]. pose proof (wrap_range 16 n ltac:(lia)). chan.
Qed.
Lemma yields_latch_status i : 0 ≤ i < 3 → keeps (pit_latch_status i).
Proof.
  intros Hi. unfold pit_latch_status. eapply yields_bind; [by apply yields_get_ch|intros c Hc].
  apply yields_if; intros _; [|by apply yields_ret]. eapply yields_bind; [by apply pit_get_out_yields|intros n _].
  apply yields_upd_ch; [done|]. match goal with |- context [wrap 8 ?x] => pose proof (wrap_range 8 x ltac:(lia)) end. chan.
Qed.
Lemma yields_read_back n i val : 0 ≤ i → i + Z.of_nat n ≤ 3 → keeps (read_back n i val).
Proof.
  revert i. induction n as [|n IH]; intros i Hi Hn; [by apply yields_ret|]. simpl.
  eapply (yields_bind _ _ (λ _, True)); [|intros _ _; apply IH; lia].
  apply yields_if; intros _; [|by apply yields_ret].
  eapply (yields_bind _ _ (λ _, True)); [|intros _ _]; (apply yields_if; intros _; [|by apply yields_ret]);
    [apply yields_latch_count|apply yields_latch_status]; lia.
Qed.
Lemma yields_control_word val : 0 ≤ val < 256 → keeps (control_word val).
Proof.
  intros Hv. assert (0 ≤ Z.shiftr val 6 ≤ 3) as Hi by (rewrite Z.shiftr_div_pow2 by lia; Z.to_euclidean_division_equations; lia).
  unfold control_word. cbv zeta. apply yields_if; intros Hch; [by apply yields_read_back|].
  apply bool_decide_eq_false in Hch. apply yields_if; intros _; [apply yields_latch_count; lia|].
  apply yields_upd_ch; [lia|]. pose proof (land_3 (Z.shiftr val 4)). pose proof (land_1 val).
  assert (0 ≤ Z.land (Z.shiftr val 1) 7 ≤ 7) by (pose proof (land_low (Z.shiftr val 1) 3 ltac:(lia)) as H'; change (Z.ones 3) with 7 in H'; lia).
  chan; case_bool_decide; lia.
Qed.
Lemma lor_bytes x y : 0 ≤ x < 256 → 0 ≤ y < 256 → Z.lor x (Z.shiftl y 8) = x + 256 * y.
Proof.
  intros Hx Hy. pose proof (Z.add_lor_land x (Z.shiftl y 8)) as H.
  assert (Z.land x (Z.shiftl y 8) = 0) as Hz.
  { apply Z.bits_inj'. intros n Hn. rewrite Z.land_spec, Z.bits_0. destruct (decide (n < 8)).
    - rewrite Z.shiftl_spec_low by done. apply andb_false_r.
    - rewrite <- (Z.mod_small x (2 ^ 8)) by lia. rewrite Z.mod_pow2_bits_high by lia. done. }
  rewrite Hz, Z.shiftl_mul_pow2 in H by lia. rewrite Z.shiftl_mul_pow2 by lia. lia.
Qed.
Lemma yields_write_count i val : 0 ≤ i < 3 → 0 ≤ val < 256 → keeps (write_count i val).
Proof.
  intros Hi Hv. unfold write_count. eapply yields_bind; [by apply yields_get_ch|intros c Hc]. pose proof (cw_write_latch c Hc).
  unfold RW_STATE_MSB, RW_STATE_WORD0, RW_STATE_WORD1.
  apply yields_if; intros _; [apply yields_load_count; [done|rewrite Z.shiftl_mul_pow2; lia]|].
  apply yields_if; intros _; [apply yields_upd_ch; [done|]; chan|].
  apply yields_if; intros _; [|apply yields_load_count; lia].
  eapply (yields_bind _ _ (λ _, True)); [apply yields_load_count; [done|rewrite lor_bytes; lia]|intros _ _].
  apply yields_upd_ch; [done|]. chan.
Qed.
Lemma yields_ioport_write addr val : keeps (pit_ioport_write addr val).
Proof.
  unfold pit_ioport_write. cbv zeta. pose proof (land_3 addr). pose proof (land_ff val).
  apply yields_if; intros Ha; [by apply yields_control_word|]. apply bool_decide_eq_false in Ha. apply yields_write_count; lia.
Qed.
Lemma yields_read_latched i s : 0 ≤ i < 3 → chan_wf s → yields (read_latched i s) (λ v, 0 ≤ v < 256).
Proof.
  intros Hi Hs. pose proof (cw_latched s Hs). unfold read_latched, RW_STATE_MSB, RW_STATE_WORD0. pose proof (land_ff (ch_latched_count s)).
  repeat (apply yields_if; intros ?);
    (eapply (yields_bind _ _ (λ _, True)); [apply yields_upd_ch; [done|]; chan|intros _ _; apply yields_ret]); try done.
  rewrite Z.shiftr_div_pow2 by lia. Z.to_euclidean_division_equations. lia.
Qed.
Lemma yields_read_count i s : 0 ≤ i < 3 → yields (read_count i s) (λ v, 0 ≤ v < 256).
Proof.
  intros Hi. unfold read_count, RW_STATE_MSB, RW_STATE_WORD0, RW_STATE_WORD1. eapply yields_bind; [by apply pit_get_count_yields|intros n _].
  repeat (apply yields_if; intros ?); try (apply yields_ret, land_ff);
    (eapply (yields_bind _ _ (λ _, True)); [apply yields_upd_ch; [done|]; chan|intros _ _; apply yields_ret, land_ff]).
Qed.
Lemma yields_ioport_read addr : Z.land addr 3 ≠ 3 → yields (pit_ioport_read addr) (λ v, 0 ≤ v < 256).
Proof.
  intros Ha. pose proof (land_3 addr). unfold pit_ioport_read. cbv zeta.
  eapply yields_bind; [apply yields_get_ch; lia|intros c Hc]. pose proof (cw_status c Hc).
  apply yields_if; intros _.
  { eapply (yields_bind _ _ (λ _, True)); [apply yields_upd_ch; [lia|]; chan|intros _ _; by apply yields_ret]. }
  apply yields_if; intros _; [apply yields_read_latched|apply yields_read_count]; first [done|lia].
Qed.
Definition fired (p : pit_t) : pit_t :=
  mk_pit (pit_channels p) (zinsert 0 (clock_at (S (pit_reads p))) (count_load_time p)) (speaker_data_on p) (ch0_period p)
    (if bool_decide (ch0_timer_mode p = TIMER_ONESHOT) then TIMER_DISABLED else ch0_timer_mode p) (S (S (pit_reads p)))
    ((clock_at (pit_reads p), ch0_period p) :: pit_irqs p).
Lemma poll_spec p t : zlookup (count_load_time p) 0 = Some t → ch0_timer_mode p ≠ TIMER_DISABLED →
  pit_handle_timer_interrupt p =
  Ok tt (if bool_decide (u32 (clock_at (pit_reads p) - t) >= ch0_period p) then fired p else pit_set_reads (S (pit_reads p)) p).
Proof.
  intros Ht Hm. unfold pit_handle_timer_interrupt, L4_SystemClock, set_load_time, get_load_time, mbind, M_bind, mret, M_ret, mget, mmodify, mof_option. simpl.
  rewrite bool_decide_false by done. simpl. rewrite Ht. simpl. case_bool_decide; [|done]. simpl. rewrite Ht. simpl.
  unfold fired. by case_bool_decide.
Qed.
Lemma wrap_le w x : 0 ≤ w → 0 ≤ x → wrap w x ≤ x.
Proof. intros. apply Z.mod_le; lia. Qed.
Lemma pit_ok_fired p t : pit_ok p → zlookup (count_load_time p) 0 = Some t → u32 (clock_at (pit_reads p) - t) >= ch0_period p → pit_ok (fired p).
Proof.
  intros Hp Ht Hd. pose proof (pit_ok_reload p 0 (S (pit_reads p)) ltac:(lia) mono Hp ltac:(lia)) as [].
  assert (t + ch0_period p ≤ clock_at (pit_reads p)) as Hdue.
  { pose proof (po_clock p Hp 0 t (pit_reads p) Ht (le_n _)). pose proof (wrap_le 32 (clock_at (pit_reads p) - t)). lia. }
  unfold fired. simpl in *. constructor; simpl; try done.
  - case_bool_decide; unfold TIMER_DISABLED; lia.
  - destruct (pit_irqs p) as [|[t' per'] l] eqn:Hl; [done|]. split; [|done].
    pose proof (po_irqs p Hp t (t', per') ltac:(by rewrite Hl) Ht). simpl in *. lia.
  - intros t0 x [= <-]. rewrite zlookup_zinsert_eq by (rewrite (po_times p Hp); lia). intros [= <-]. apply mono. lia.
Qed.
Lemma pit_ok_read p : pit_ok p → pit_ok (pit_set_reads (S (pit_reads p)) p).
Proof. intros []. constructor; simpl; try done. intros i t n Ht Hn. apply (po_clock0 i); [done|lia]. Qed.
Lemma yields_poll : keeps pit_handle_timer_interrupt.
Proof.
  intros p Hp. destruct (zlookup_is_Some (count_load_time p) 0) as [t Ht]; [rewrite (po_times p Hp); lia|].
  destruct (decide (ch0_timer_mode p = TIMER_DISABLED)) as [Hm|Hm].
  { unfold pit_handle_timer_interrupt. wp_step. wp_step. rewrite bool_decide_true by done. by wp_step. }
  eapply wp_run; [by apply poll_spec|]. split; [done|]. case_bool_decide; [by eapply pit_ok_fired|by apply pit_ok_read].
Qed.
(** In good states a period is 54925 microseconds at most. *)
Lemma period_bounds p : pit_ok p → 1 ≤ ch0_period p ≤ 54925.
Proof.
  intros Hp. destruct (zlookup_is_Some (pit_channels p) 0) as [c Hc]; [rewrite (po_channels p Hp); lia|].
  rewrite (po_period p Hp c Hc). apply period_small. exact (cw_count c (chan_wf_lookup p 0 c Hp Hc)).
Qed.
Definition remaining (p : pit_t) (t : Z) : Z :=
  let d := u32 (clock_at (pit_reads p) - t) in if bool_decide (d >= ch0_period p) then 0 else ch0_period p - d.
Lemma remaining_spec p t : pit_ok p → zlookup (count_load_time p) 0 = Some t → ch0_timer_mode p ≠ TIMER_DISABLED →
  pit_get_remaining_usecs p = Ok (remaining p t) (pit_set_reads (S (pit_reads p)) p).
Proof.
  intros Hp Ht Hm. unfold pit_get_remaining_usecs, L4_SystemClock, get_load_time, mbind, M_bind, mret, M_ret, mget, mmodify, mof_option. simpl.
  rewrite bool_decide_false by done. simpl. rewrite Ht. simpl. unfold remaining.
  pose proof (wrap_range 32 (clock_at (pit_reads p) - t) ltac:(lia)). pose proof (period_bounds p Hp).
  case_bool_decide; [done|]. by rewrite (wrap_small 32 (ch0_period p - _)) by lia.
Qed.
Lemma remaining_range p t : pit_ok p → 0 ≤ remaining p t ≤ 54925.
Proof.
  intros Hp. pose proof (period_bounds p Hp). pose proof (wrap_range 32 (clock_at (pit_reads p) - t) ltac:(lia)).
  unfold remaining. cbv zeta. case_bool_decide; lia.
Qed.
Lemma yields_remaining : yields pit_get_remaining_usecs (λ v, 0 ≤ v ≤ 54925).
Proof.
  intros p Hp. destruct (zlookup_is_Some (count_load_time p) 0) as [t Ht]; [rewrite (po_times p Hp); lia|].
  destruct (decide (ch0_timer_mode p = TIMER_DISABLED)) as [Hm|Hm].
  { unfold pit_get_remaining_usecs. wp_step. wp_step. rewrite bool_decide_true by done. wp_step. split; [lia|done]. }
  eapply wp_run; [by apply remaining_spec|]. split; [by apply remaining_range|by apply pit_ok_read].
Qed.
Lemma pit_ok_speaker v p : 0 ≤ v ≤ 1 → pit_ok p → pit_ok (pit_set_speaker v p).
Proof. intros Hv []. by constructor. Qed.
Lemma yields_speaker_write val : keeps (speaker_ioport_write val).
Proof.
  eapply (yields_bind _ _ (λ _, True)); [|intros _ _; apply yields_set_gate; [lia|apply land_1]].
  intros p Hp. wp_step. split; [done|]. apply pit_ok_speaker; [apply land_1|done].
Qed.
Lemma lor_range k x y : 0 < k → 0 ≤ x < 2 ^ k → 0 ≤ y < 2 ^ k → 0 ≤ Z.lor x y < 2 ^ k.
Proof.
  intros Hk Hx Hy. assert (0 ≤ Z.lor x y) by (apply Z.lor_nonneg; lia). split; [done|].
  assert (∀ z, 0 ≤ z < 2 ^ k → Z.log2 z < k) as Hlog.
  { intros z Hz. destruct (decide (z = 0)) as [->|]; [simpl; lia|apply Z.log2_lt_pow2; lia]. }
  destruct (decide (Z.lor x y = 0)) as [->|]; [lia|]. apply Z.log2_lt_pow2; [lia|]. rewrite Z.log2_lor by lia.
  apply Z.max_lub_lt; auto.
Qed.
Lemma yields_speaker_read : yields speaker_ioport_read (λ v, 0 ≤ v < 256).
Proof.
  unfold speaker_ioport_read. eapply yields_bind; [apply yields_clock|intros now _]. cbv zeta.
  eapply (yields_bind _ _ (λ p, 0 ≤ speaker_data_on p ≤ 1)); [intros p Hp; wp_step; split; [apply (po_speaker p Hp)|done]|intros q Hq].
  eapply (yields_bind _ _ (λ g, 0 ≤ g ≤ 1)).
  { eapply yields_bind; [by apply yields_get_ch|intros c Hc]. apply yields_ret. apply (cw_gate c Hc). }
  intros g Hg. eapply yields_bind; [by apply pit_get_out_yields|intros o Ho]. apply yields_ret. simpl in Ho.
  pose proof (land_1 (Z.shiftr (u32 now) 4)). repeat apply (lor_range 8); try (rewrite Z.shiftl_mul_pow2 by lia); lia.
Qed.

(** *** Reachable states *)

Inductive pit_op : Type :=
  | PitIo (port value bit_width : Z) (read : bool)
  | PitPoll
  | PitRemaining.
Definition pit_run_op (op : pit_op) : MP Z :=
  match op with
  | PitIo port value bit_width read => i8254_portio port value bit_width read
  | PitPoll => pit_handle_timer_interrupt;; mret 0
  | PitRemaining => pit_get_remaining_usecs
  end.
Definition pit_result (op : pit_op) (v : Z) : Prop :=
  match op with
  | PitIo port value bit_width read =>
      if bool_decide (bit_width = 8) && read && negb (bool_decide (port ≠ 0x61) && bool_decide (Z.land port 3 = 3)) then 0 ≤ v < 256 else v = value
  | PitPoll => True
  | PitRemaining => 0 ≤ v ≤ 54925
  end.
Inductive pit_reach : pit_t → Prop :=
  | reach_init p : pit_init pit_zero = Ok tt p → pit_reach p
  | reach_op op p v p' : pit_reach p → pit_run_op op p = Ok v p' → pit_reach p'.

Lemma yields_op op : yields (pit_run_op op) (pit_result op).
Proof.
  unfold pit_result. destruct op as [port value bit_width read| |]; simpl; [|eapply yields_bind; [apply yields_poll|intros _ _; by apply yields_ret]|apply yields_remaining].
  unfold i8254_portio, handle_speaker_io, handle_pit_io.
  destruct (decide (bit_width = 8)) as [->|Hw].
  2: { rewrite (bool_decide_true (bit_width ≠ 8)), (bool_decide_false (bit_width = 8)) by done. simpl. apply yields_if; intros _; by apply yields_ret. }
  rewrite (bool_decide_false (8 ≠ 8)), (bool_decide_true (8 = 8)) by naive_solver. simpl. destruct (decide (port = 0x61)) as [->|Hp]; simpl.
  - destruct read; simpl; [apply yields_speaker_read|eapply yields_bind; [apply yields_speaker_write|intros _ _; by apply yields_ret]].
  - rewrite (bool_decide_false (port = 0x61)), (bool_decide_true (port ≠ 0x61)) by done. simpl.
    destruct read; simpl; [|eapply yields_bind; [apply yields_ioport_write|intros _ _; by apply yields_ret]].
    destruct (decide (Z.land port 3 = 3)) as [H3|H3].
    + rewrite (bool_decide_false (Z.land port 3 ≠ 3)), (bool_decide_true (Z.land port 3 = 3)) by naive_solver. by apply yields_ret.
    + rewrite (bool_decide_true (Z.land port 3 ≠ 3)), (bool_decide_false (Z.land port 3 = 3)) by done. by apply yields_ioport_read.
Qed.
Definition pit_start : pit_t :=
  let c gate := mk_channel 65536 0 0 0 0 0 0 0 0 0xff 0 gate in
  mk_pit [c 1; c 1; c 0] [clock_at 0; clock_at 1; clock_at 2] 0 54925 0 3 [].
Lemma pit_init_spec : pit_init pit_zero = Ok tt pit_start.
Proof. vm_compute. reflexivity. Qed.
Lemma pit_start_ok : pit_ok pit_start.
Proof.
  constructor; simpl; try done.
  - repeat apply list.Forall_cons_2; [constructor; simpl; lia..|by apply list.Forall_nil_2].
  all: try lia.
  - by intros c [= <-].
  - intros i t n Ht Hn. unfold zlookup in Ht. case_decide; [|done].
    destruct (Z.to_nat i) as [|[|[|]]]; simpl in Ht; simplify_eq; apply mono; lia.
Qed.
Lemma pit_reach_ok p : pit_reach p → pit_ok p.
Proof.
  induction 1 as [p Hp|op p v p' _ IH Hop].
  - rewrite pit_init_spec in Hp. injection Hp as <-. apply pit_start_ok.
  - pose proof (yields_op op p IH) as H. by destruct (wp_ok _ _ _ _ _ _ H Hop).
Qed.

(** *** Programming a channel *)

(** The guest programs channel [i]: mode, both bytes of the count. *)
Definition control_byte (i access mode : Z) : Z := Z.lor (Z.shiftl i 6) (Z.lor (Z.shiftl access 4) (Z.shiftl mode 1)).
Definition program (i mode lo hi : Z) : MP unit :=
  i8254_portio 0x43 (control_byte i 3 mode) 8 false;;
  i8254_portio (0x40 + i) lo 8 false;;
  i8254_portio (0x40 + i) hi 8 false;;
  mret tt.
Definition initial_count (lo hi : Z) : Z := if bool_decide (lo + 256 * hi = 0) then 0x10000 else lo + 256 * hi.
Definition programmed (mode lo hi : Z) (c : channel) : channel :=
  mk_channel (initial_count lo hi) (ch_latched_count c) (ch_count_latched c) (ch_status_latched c) (ch_status c) 3 3 lo 3 mode 0 (ch_gate c).
Definition timer_mode_of (mode : Z) : Z :=
  if bool_decide (mode = 2) then TIMER_PERIODIC else if bool_decide (mode = 1) then TIMER_ONESHOT else TIMER_DISABLED.
Definition program_result (i mode lo hi : Z) (c : channel) (p : pit_t) : pit_t :=
  mk_pit (zinsert i (programmed mode lo hi c) (pit_channels p)) (zinsert i (clock_at (pit_reads p)) (count_load_time p)) (speaker_data_on p)
    (if bool_decide (i ≠ 0) then ch0_period p else period_of (initial_count lo hi))
    (if bool_decide (i ≠ 0) then ch0_timer_mode p else timer_mode_of mode) (S (pit_reads p)) (pit_irqs p).
(** The cases of channels and modes. *)
Lemma channel_cases i : 0 ≤ i < 3 → i = 0 ∨ i = 1 ∨ i = 2.
Proof. lia. Qed.
Lemma mode_cases x : 0 ≤ x ≤ 5 → x = 0 ∨ x = 1 ∨ x = 2 ∨ x = 3 ∨ x = 4 ∨ x = 5.
Proof. lia. Qed.
Lemma control_spec i mode p c : 0 ≤ i < 3 → 0 ≤ mode ≤ 5 → zlookup (pit_channels p) i = Some c →
  i8254_portio 0x43 (control_byte i 3 mode) 8 false p =
  Ok (control_byte i 3 mode) (pit_set_channels (zinsert i (ch_set_mode 3 mode 0 c) (pit_channels p)) p).
Proof.
  intros Hi%channel_cases Hm%mode_cases Hc. change (i8254_portio 0x43 ?v 8 false) with (control_word (Z.land v 0xff);; mret (M := M pit_t) v).
  set (b := Z.land (control_byte i 3 mode) 0xff).
  assert (Z.shiftr b 6 = i ∧ Z.land (Z.shiftr b 4) 3 = 3 ∧ Z.land (Z.shiftr b 1) 7 = mode ∧ Z.land b 1 = 0) as (H6 & H4 & H1 & H0).
  { subst b. clear Hc. destruct_or! Hi; destruct_or! Hm; subst; by vm_compute. }
  clearbody b. unfold control_word, upd_ch, get_ch, mbind, M_bind. rewrite H6, H4, H1, H0.
  rewrite !bool_decide_false by lia. simpl. by rewrite Hc.
Qed.
Lemma data_write_spec i val p : 0 ≤ i < 3 → 0 ≤ val < 256 → i8254_portio (0x40 + i) val 8 false p = (write_count i val;; mret val) p.
Proof.
  intros Hi Hv. assert (Z.land val 0xff = val) as E8 by (change 0xff with (Z.ones 8); rewrite Z.land_ones by lia; apply Z.mod_small; lia).
  apply channel_cases in Hi. unfold i8254_portio, handle_pit_io, pit_ioport_write. rewrite E8. by destruct_or! Hi; subst.
Qed.
Lemma load_count_run i v p c t : 0 ≤ i < length (pit_channels p) → zlookup (pit_channels p) i = Some c → zlookup (count_load_time p) i = Some t →
  0 ≤ v < 65536 → let n := if bool_decide (v = 0) then 0x10000 else v in
  pit_load_count i v p = Ok tt (mk_pit (zinsert i (ch_set_count n c) (pit_channels p)) (zinsert i (clock_at (pit_reads p)) (count_load_time p))
    (speaker_data_on p) (if bool_decide (i ≠ 0) then ch0_period p else period_of n)
    (if bool_decide (i ≠ 0) then ch0_timer_mode p else timer_mode_of (ch_mode c)) (S (pit_reads p)) (pit_irqs p)).
Proof.
  intros Hi Hc Ht Hv n. unfold pit_load_count. fold n. cbv zeta. assert (1 ≤ n ≤ 65536) as Hn by (subst n; case_bool_decide; lia). clearbody n.
  destruct (period_small n Hn) as [Hper _].
  unfold L4_SystemClock, set_load_time, get_load_time, upd_ch, get_ch, mbind, M_bind, mret, M_ret, mget, mmodify, mof_option. simpl.
  rewrite Ht. simpl. rewrite Hc. simpl. case_bool_decide as Hi0; simpl; [done|]. rewrite zlookup_zinsert_eq by done. simpl. by rewrite Hper.
Qed.
Lemma get_ch_run i p c : zlookup (pit_channels p) i = Some c → get_ch i p = Ok c p.
Proof. intros Hc. unfold get_ch, mget, mbind, M_bind, mof_option. by rewrite Hc. Qed.
Lemma upd_ch_run i f p c : zlookup (pit_channels p) i = Some c → upd_ch i f p = Ok tt (pit_set_channels (zinsert i (f c) (pit_channels p)) p).
Proof. intros Hc. unfold upd_ch. by mstep (get_ch_run i p c Hc). Qed.
Lemma write_low i lo p c : zlookup (pit_channels p) i = Some c → ch_write_state c = RW_STATE_WORD0 →
  write_count i lo p = Ok tt (pit_set_channels (zinsert i (ch_set_write RW_STATE_WORD1 lo c) (pit_channels p)) p).
Proof.
  intros Hc Hs. unfold write_count. mstep (get_ch_run i p c Hc). rewrite Hs. simpl. by apply upd_ch_run.
Qed.
Lemma write_high i hi p c t : 0 ≤ i < length (pit_channels p) → zlookup (pit_channels p) i = Some c → zlookup (count_load_time p) i = Some t →
  ch_write_state c = RW_STATE_WORD1 → 0 ≤ ch_write_latch c < 256 → 0 ≤ hi < 256 → let n := initial_count (ch_write_latch c) hi in
  write_count i hi p = Ok tt (mk_pit (zinsert i (ch_set_write RW_STATE_WORD0 (ch_write_latch c) (ch_set_count n c)) (pit_channels p))
    (zinsert i (clock_at (pit_reads p)) (count_load_time p))
    (speaker_data_on p) (if bool_decide (i ≠ 0) then ch0_period p else period_of n)
    (if bool_decide (i ≠ 0) then ch0_timer_mode p else timer_mode_of (ch_mode c)) (S (pit_reads p)) (pit_irqs p)).
Proof.
  intros Hi Hc Ht Hs Hl Hhi n. unfold write_count. mstep (get_ch_run i p c Hc). rewrite Hs. simpl.
  rewrite lor_bytes by done. mstep (load_count_run i (ch_write_latch c + 256 * hi) p c t Hi Hc Ht ltac:(lia)).
  erewrite upd_ch_run by (simpl; by apply zlookup_zinsert_eq).
  unfold pit_set_channels. simpl. by rewrite zinsert_zinsert.
Qed.
Lemma program_spec i mode lo hi p c : pit_ok p → 0 ≤ i < 3 → 0 ≤ mode ≤ 5 → 0 ≤ lo < 256 → 0 ≤ hi < 256 →
  zlookup (pit_channels p) i = Some c → program i mode lo hi p = Ok tt (program_result i mode lo hi c p).
Proof.
  intros Hp Hi Hm Hlo Hhi Hc. pose proof (po_channels p Hp) as Hlen. pose proof (po_times p Hp) as Hlen'.
  destruct (zlookup_is_Some (count_load_time p) i) as [t Ht]; [lia|].
  unfold program. mstep (control_spec i mode p c Hi Hm Hc).
  assert (zlookup (zinsert i (ch_set_mode 3 mode 0 c) (pit_channels p)) i = Some (ch_set_mode 3 mode 0 c)) as Hc1 by (apply zlookup_zinsert_eq; lia).
  pose proof (write_low i lo (pit_set_channels _ p) _ Hc1 eq_refl) as H1. simpl in H1. rewrite zinsert_zinsert in H1.
  match type of H1 with _ ?p1 = Ok _ ?p2 => assert (i8254_portio (0x40 + i) lo 8 false p1 = Ok lo p2) as Hw1 by (rewrite data_write_spec by done; by mstep H1) end.
  mstep Hw1. clear H1 Hw1.
  set (c2 := ch_set_write RW_STATE_WORD1 lo (ch_set_mode 3 mode 0 c)).
  assert (zlookup (zinsert i c2 (pit_channels p)) i = Some c2) as Hc2 by (apply zlookup_zinsert_eq; lia).
  assert (0 ≤ i < length (zinsert i c2 (pit_channels p))) as Hi2 by (rewrite length_zinsert; lia).
  pose proof (write_high i hi (pit_set_channels _ p) c2 t Hi2 Hc2 Ht eq_refl Hlo Hhi) as H2.
  simpl in H2. rewrite zinsert_zinsert in H2. unfold mbind at 1, M_bind at 1. rewrite data_write_spec by done. by mstep H2.
Qed.
Lemma yields_program i mode lo hi : keeps (program i mode lo hi).
Proof.
  unfold program. do 3 (eapply yields_bind; [apply (yields_op (PitIo _ _ 8 false))|intros _ _]). by apply yields_ret.
Qed.
Lemma program_ok i mode lo hi p c : pit_ok p → 0 ≤ i < 3 → 0 ≤ mode ≤ 5 → 0 ≤ lo < 256 → 0 ≤ hi < 256 →
  zlookup (pit_channels p) i = Some c → pit_ok (program_result i mode lo hi c p).
Proof.
  intros Hp Hi Hm Hlo Hhi Hc. pose proof (yields_program i mode lo hi p Hp) as H.
  by destruct (wp_ok _ _ _ _ _ _ H (program_spec i mode lo hi p c Hp Hi Hm Hlo Hhi Hc)).
Qed.

(** *** The ticks of channel 0 *)

Fixpoint polls (n : nat) : MP unit :=
  match n with O => mret tt | S n => pit_handle_timer_interrupt;; polls n end.
Definition last_tick (t0 : Z) (irqs : list (Z * Z)) : Z := match irqs with [] => t0 | (t, _) :: _ => t end.
(** Every tick, newest first, is a period after the one before, [2 * g] late at most. *)
Fixpoint ticking (per g t0 : Z) (irqs : list (Z * Z)) : Prop :=
  match irqs with
  | [] => True
  | (t, per') :: rest => per' = per ∧ last_tick t0 rest + per ≤ t ≤ last_tick t0 rest + per + 2 * g ∧ ticking per g t0 rest
  end.
Lemma polls_tick g t0 old per n p t new :
  (∀ i, clock_at (S i) ≤ clock_at i + g) → 0 ≤ g → g + per < 2 ^ 32 →
  pit_ok p → ch0_timer_mode p = TIMER_PERIODIC → ch0_period p = per → zlookup (count_load_time p) 0 = Some t →
  pit_irqs p = new ++ old → ticking per g t0 new → last_tick t0 new ≤ t ≤ last_tick t0 new + g → clock_at (pit_reads p) ≤ t + per + g →
  ∃ p' new', polls n p = Ok tt p' ∧ pit_irqs p' = new' ++ old ∧ ticking per g t0 new' ∧
    clock_at (pit_reads p') ≤ last_tick t0 new' + per + 2 * g.
Proof.
  intros Hg Hg0 Hsum. revert p t new. induction n as [|n IH]; intros p t new Hp Hm Hper Ht Hirq Htick Hlast Hnow; simpl.
  { exists p, new. split_and!; [done..|lia]. }
  assert (ch0_timer_mode p ≠ TIMER_DISABLED) as Hm' by (rewrite Hm; done). mstep (poll_spec p t Ht Hm').
  pose proof (po_clock p Hp 0 t (pit_reads p) Ht (le_n _)) as Hle. pose proof (Hg (pit_reads p)) as Hg1.
  rewrite (wrap_small 32) by lia. case_bool_decide as Hd.
  - eapply (IH (fired p) (clock_at (S (pit_reads p))) ((clock_at (pit_reads p), per) :: new)).
    + eapply pit_ok_fired; [done|done|]. rewrite (wrap_small 32) by lia. done.
    + unfold fired. simpl. by rewrite Hm.
    + done.
    + unfold fired. simpl. apply zlookup_zinsert_eq. rewrite (po_times p Hp). lia.
    + unfold fired. simpl. by rewrite Hper, Hirq.
    + simpl. split_and!; [done|lia..|done].
    + simpl. pose proof (mono (pit_reads p) (S (pit_reads p)) ltac:(lia)). lia.
    + unfold fired. simpl. pose proof (Hg (S (pit_reads p))). pose proof (period_bounds p Hp). lia.
  - eapply (IH (pit_set_reads (S (pit_reads p)) p) t new); try done; [by apply pit_ok_read|]. simpl. lia.
Qed.
End proofs.

(** C25. In every state that port accesses, polls and queries can reach from [pit_init], with
    a clock that does not run backwards: the next operation completes, what it reads from
    a register is a byte, the time to the next tick is 54925 microseconds at most; the
    registers are in range, the count is never zero (it is a divisor), the period is that
    of the count; and interrupts are a period apart. *)
Theorem pit_registers_ok {E : PitEnv} p :
  (∀ i j, (i ≤ j)%nat → clock_at i ≤ clock_at j) → pit_reach p →
  Forall chan_wf (pit_channels p) ∧ (∀ c, zlookup (pit_channels p) 0 = Some c → ch0_period p = period_of (ch_count c)) ∧
  1 ≤ ch0_period p ≤ 54925 ∧ spaced (pit_irqs p) ∧
  ∀ op, ∃ v p', pit_run_op op p = Ok v p' ∧ pit_result op v.
Proof.
  intros mono Hr. pose proof (pit_reach_ok mono p Hr) as Hp. split_and!; try apply Hp; try (by apply period_bounds).
  intros op. destruct (wp_no_fault _ _ _ (yields_op mono op p Hp)) as (v & p' & H & Hv & _). eauto.
Qed.

(** C23. The guest starts the periodic timer, from any reachable state, and the wedge polls it
    [n] times, [g] microseconds apart at most: there are ticks of the programmed period,
    none early, each [2 * g] late at most after the one before, and none that is due is
    left out. *)
Theorem pit_ticks {E : PitEnv} p lo hi g n :
  (∀ i, clock_at i ≤ clock_at (S i) ≤ clock_at i + g) → 0 ≤ g < 2 ^ 31 → pit_reach p → 0 ≤ lo < 256 → 0 ≤ hi < 256 →
  let per := period_of (initial_count lo hi) in
  let t0 := clock_at (pit_reads p) in
  ∃ p' ticks, (program 0 2 lo hi;; polls n) p = Ok tt p' ∧ pit_irqs p' = ticks ++ pit_irqs p ∧ ticking per g t0 ticks ∧
    clock_at (pit_reads p') ≤ last_tick t0 ticks + per + 2 * g.
Proof.
  intros Hg Hg31 Hr Hlo Hhi per t0.
  assert (∀ i j, (i ≤ j)%nat → clock_at i ≤ clock_at j) as mono.
  { intros i j Hij. induction Hij as [|j _ IH]; [done|]. pose proof (Hg j). lia. }
  pose proof (pit_reach_ok mono p Hr) as Hp. pose proof (po_channels p Hp) as Hlen.
  destruct (zlookup_is_Some (pit_channels p) 0) as [c Hc]; [lia|].
  mstep (program_spec 0 2 lo hi p c Hp ltac:(lia) ltac:(lia) Hlo Hhi Hc).
  pose proof (program_ok mono 0 2 lo hi p c Hp ltac:(lia) ltac:(lia) Hlo Hhi Hc) as Hok.
  assert (1 ≤ per ≤ 54925) by (apply period_small; unfold initial_count; case_bool_decide; lia).
  apply (polls_tick mono g t0 (pit_irqs p) per n (program_result 0 2 lo hi c p) t0 []); try done; try lia.
  - intros i. apply Hg.
  - simpl. apply zlookup_zinsert_eq. rewrite (po_times p Hp). lia.
  - simpl. lia.
  - simpl. pose proof (Hg (pit_reads p)). subst t0. lia.
Qed.

(** ** Reading a counter *)

(** An 8254 counter, an oscillation at a time: modes 2 and 3 reload, the others wrap. *)
Definition counter_step (mode n c : Z) : Z :=
  if bool_decide (mode = 2) then (if bool_decide (c = 1) then n else c - 1)
  else if bool_decide (mode = 3) then (if bool_decide (c = 2) then n else c - 2)
  else (c - 1) `mod` 65536.
Definition counter (mode n : Z) (d : nat) : Z := Nat.iter d (counter_step mode n) n.
Lemma reload_step n k d : 0 < k → 0 < n → n `mod` k = 0 → 0 ≤ d →
  n - (k * (d + 1)) `mod` n = if bool_decide (n - (k * d) `mod` n = k) then n else n - (k * d) `mod` n - k.
Proof.
  intros Hk Hn Hd Hd0. apply Z.mod_divide in Hd as [q ->]; [|lia].
  rewrite !(Z.mul_comm k), !Z.mul_mod_distr_r by lia. assert (0 < q) by nia. pose proof (Z.mod_pos_bound d q ltac:(lia)).
  assert ((d + 1) `mod` q = if decide (d `mod` q = q - 1) then 0 else d `mod` q + 1) as ->.
  { pose proof (Z.div_mod d q ltac:(lia)). case_decide.
    - symmetry. apply Z.mod_unique_pos with (d / q + 1); lia.
    - symmetry. apply Z.mod_unique_pos with (d / q); lia. }
  case_decide; case_bool_decide; nia.
Qed.
Lemma counter_spec mode n d : 0 ≤ mode ≤ 5 → 1 ≤ n ≤ 65536 → (mode = 3 → n `mod` 2 = 0) →
  u16 (counter mode n d) = u16 (if bool_decide (mode = 2) then n - d `mod` n else if bool_decide (mode = 3) then n - (2 * d) `mod` n else n - d).
Proof.
  intros Hm Hn Heven. unfold counter, counter_step. repeat case_bool_decide; try lia.
  - f_equal. induction d as [|d IH]; [simpl; rewrite Z.mod_0_l; lia|]. rewrite Nat.iter_succ, IH.
    pose proof (reload_step n 1 d ltac:(lia) ltac:(lia) (Z.mod_1_r n) ltac:(lia)) as H'. rewrite !Z.mul_1_l in H'.
    replace (Z.of_nat (S d)) with (d + 1) by lia. by rewrite H'.
  - f_equal. induction d as [|d IH]; [simpl; rewrite Z.mod_0_l; lia|]. rewrite Nat.iter_succ, IH.
    replace (Z.of_nat (S d)) with (d + 1) by lia. rewrite (reload_step n 2 d) by (auto with lia). done.
  - induction d as [|d IH]; [f_equal; simpl; lia|]. rewrite Nat.iter_succ. unfold wrap in *.
    rewrite Z.mod_mod by lia. change (2 ^ 16) with 65536 in *. rewrite <- Zminus_mod_idemp_l, IH, Zminus_mod_idemp_l. f_equal. lia.
Qed.

Section reading.
Context {E : PitEnv}.

Lemma get_count_run i p c t : zlookup (pit_channels p) i = Some c → zlookup (count_load_time p) i = Some t →
  0 ≤ clock_at (pit_reads p) - t < 2 ^ 62 → 1 ≤ ch_count c ≤ 65536 → 0 ≤ ch_mode c ≤ 5 → (ch_mode c = 3 → ch_count c `mod` 2 = 0) →
  ∃ v, pit_get_count i p = Ok v (pit_set_reads (S (pit_reads p)) p) ∧
    u16 v = u16 (counter (ch_mode c) (ch_count c) (Z.to_nat ((clock_at (pit_reads p) - t) * PIT_FREQ / 1000000))).
Proof.
  intros Hc Ht Hd Hn Hm Heven. set (n := ch_count c) in *. set (x := clock_at (pit_reads p) - t) in *.
  assert (0 ≤ x * PIT_FREQ / 1000000 < 2 ^ 63) as Hq by (unfold PIT_FREQ; split; [apply Z.div_pos|apply Z.div_lt_upper_bound]; lia).
  assert (elapsed i p = Ok (x * PIT_FREQ / 1000000) (pit_set_reads (S (pit_reads p)) p)) as He.
  { unfold elapsed, L4_SystemClock, get_load_time, mbind, M_bind, mget, mmodify, mof_option. simpl. rewrite Ht. simpl.
    rewrite muldiv64_spec; [|apply wrap_range; lia|unfold PIT_FREQ; lia|lia]. fold x. rewrite (wrap_small 64 x) by lia.
    by rewrite (wrap_small 64) by lia. }
  set (d := x * PIT_FREQ / 1000000) in *. clearbody d x.
  rewrite counter_spec, Z2Nat.id by (done || lia). unfold pit_get_count. mstep He.
  mstep (get_ch_run i (pit_set_reads (S (pit_reads p)) p) c Hc). fold n.
  assert (∀ a, modulo a n = mret (a `mod` n)) as Hmod by (intros a; unfold modulo; by rewrite decide_False by lia).
  rewrite !Hmod. apply mode_cases in Hm.
  destruct_or! Hm; rewrite Hm; simpl; (eexists; split; [done|]); try done.
  3: { by rewrite (wrap_small 64) by lia. }
  all: change 0xffff with (Z.ones 16); rewrite Z.land_ones by lia; unfold wrap; rewrite Z.mod_mod by lia.
  all: apply Z.mod_mod_divide; by exists (2 ^ 48).
Qed.

(** The guest latches channel [i] and reads both bytes of the count. *)
Definition read_latch (i : Z) : MP Z :=
  i8254_portio 0x43 (control_byte i 0 0) 8 false;;
  x ← i8254_portio (0x40 + i) 0 8 true;
  y ← i8254_portio (0x40 + i) 0 8 true;
  mret (x + 256 * y).
Lemma latch_spec i p : 0 ≤ i < 3 → i8254_portio 0x43 (control_byte i 0 0) 8 false p = (pit_latch_count i;; mret (control_byte i 0 0)) p.
Proof. intros Hi%channel_cases. by destruct_or! Hi; subst. Qed.
Lemma data_read_spec i p : 0 ≤ i < 3 → i8254_portio (0x40 + i) 0 8 true p = pit_ioport_read i p.
Proof. intros Hi%channel_cases. by destruct_or! Hi; subst. Qed.
Lemma read_first i p c : 0 ≤ i < 3 → zlookup (pit_channels p) i = Some c → ch_status_latched c = 0 → ch_count_latched c = RW_STATE_WORD0 →
  pit_ioport_read i p = Ok (Z.land (ch_latched_count c) 0xff) (pit_set_channels (zinsert i (ch_set_latch (ch_latched_count c) RW_STATE_MSB c) (pit_channels p)) p).
Proof.
  intros Hi Hc Hs Hl. assert (Z.land i 3 = i) as E3 by (apply channel_cases in Hi; by destruct_or! Hi; subst).
  unfold pit_ioport_read. rewrite E3. cbv zeta. mstep (get_ch_run i p c Hc). rewrite Hs, Hl. simpl. unfold read_latched. rewrite Hl. simpl.
  by mstep (upd_ch_run i (ch_set_latch (ch_latched_count c) RW_STATE_MSB) p c Hc).
Qed.
Lemma read_second i p c : 0 ≤ i < 3 → zlookup (pit_channels p) i = Some c → ch_status_latched c = 0 → ch_count_latched c = RW_STATE_MSB →
  pit_ioport_read i p = Ok (Z.shiftr (ch_latched_count c) 8) (pit_set_channels (zinsert i (ch_set_latch (ch_latched_count c) 0 c) (pit_channels p)) p).
Proof.
  intros Hi Hc Hs Hl. assert (Z.land i 3 = i) as E3 by (apply channel_cases in Hi; by destruct_or! Hi; subst).
  unfold pit_ioport_read. rewrite E3. cbv zeta. mstep (get_ch_run i p c Hc). rewrite Hs, Hl. simpl. unfold read_latched. rewrite Hl. simpl.
  by mstep (upd_ch_run i (ch_set_latch (ch_latched_count c) 0) p c Hc).
Qed.
Lemma read_latch_spec i p c v q : 0 ≤ i < 3 → 0 ≤ i < length (pit_channels q) → pit_channels q = pit_channels p →
  zlookup (pit_channels p) i = Some c → ch_status_latched c = 0 → ch_count_latched c = 0 → ch_rw_mode c = RW_STATE_WORD0 →
  pit_get_count i p = Ok v q → read_latch i p = Ok (u16 v) (pit_set_channels (zinsert i (ch_set_latch (u16 v) 0 c) (pit_channels q)) q).
Proof.
  intros Hi Hlen Hq Hc Hs Hl Hrw Hv. set (c1 := ch_set_latch (u16 v) RW_STATE_WORD0 c). set (q1 := pit_set_channels (zinsert i c1 (pit_channels q)) q).
  assert (pit_latch_count i p = Ok tt q1) as H0.
  { unfold pit_latch_count. mstep (get_ch_run i p c Hc). rewrite Hl. simpl. mstep Hv. rewrite Hrw. apply upd_ch_run. by rewrite Hq. }
  assert (i8254_portio 0x43 (control_byte i 0 0) 8 false p = Ok (control_byte i 0 0) q1) as H1 by (rewrite latch_spec by done; by mstep H0).
  assert (zlookup (pit_channels q1) i = Some c1) as Hc1 by (by apply zlookup_zinsert_eq).
  unfold read_latch. mstep H1. pose proof (read_first i q1 c1 Hi Hc1 Hs eq_refl) as H2. rewrite <- data_read_spec in H2 by done.
  set (c2 := ch_set_latch _ RW_STATE_MSB c1) in H2. mstep H2.
  assert (zlookup (zinsert i c2 (pit_channels q1)) i = Some c2) as Hc2 by (apply zlookup_zinsert_eq; simpl; by rewrite length_zinsert).
  pose proof (read_second i (pit_set_channels (zinsert i c2 (pit_channels q1)) q1) c2 Hi Hc2 Hs eq_refl) as H3.
  rewrite <- data_read_spec in H3 by done. mstep H3. subst q1 c2 c1. unfold mret, M_ret. f_equal.
  - simpl. pose proof (wrap_range 16 v ltac:(lia)). change 0xff with (Z.ones 8). rewrite Z.land_ones, Z.shiftr_div_pow2 by lia. Z.to_euclidean_division_equations. lia.
  - unfold pit_set_channels. simpl. by rewrite !zinsert_zinsert.
Qed.
End reading.

(** C24. A guest programs a channel in one of the modes 0 to 5, in mode 3 with an even
    count (the source doubts its formula for odd ones), latches it and reads the two
    bytes, from any reachable state in which neither the status nor the count of the channel
    is latched: it gets the value that an 8254 counter has after the oscillations between
    the two moments, and nothing is latched any more. The clock does not go back, and less
    than 2^62 microseconds pass between the two moments. *)
Theorem pit_latched_read {E : PitEnv} p i mode lo hi c :
  (∀ i j, (i ≤ j)%nat → clock_at i ≤ clock_at j) → pit_reach p → 0 ≤ i < 3 → 0 ≤ mode ≤ 5 → 0 ≤ lo < 256 → 0 ≤ hi < 256 →
  (mode = 3 → lo `mod` 2 = 0) → zlookup (pit_channels p) i = Some c → ch_status_latched c = 0 → ch_count_latched c = 0 →
  let x := clock_at (S (pit_reads p)) - clock_at (pit_reads p) in x < 2 ^ 62 →
  ∃ p' c', (program i mode lo hi;; read_latch i) p = Ok (u16 (counter mode (initial_count lo hi) (Z.to_nat (x * PIT_FREQ / 1000000)))) p' ∧
    zlookup (pit_channels p') i = Some c' ∧ ch_status_latched c' = 0 ∧ ch_count_latched c' = 0.
Proof.
  intros mono Hr Hi Hm Hlo Hhi Heven Hc Hs Hl x Hx. pose proof (pit_reach_ok mono p Hr) as Hp. pose proof (po_channels p Hp) as Hlen.
  mstep (program_spec i mode lo hi p c Hp Hi Hm Hlo Hhi Hc). set (p1 := program_result i mode lo hi c p).
  assert (zlookup (pit_channels p1) i = Some (programmed mode lo hi c)) as Hc1 by (apply zlookup_zinsert_eq; lia).
  assert (zlookup (count_load_time p1) i = Some (clock_at (pit_reads p))) as Ht1 by (apply zlookup_zinsert_eq; rewrite (po_times p Hp); lia).
  assert (1 ≤ initial_count lo hi ≤ 65536) as Hn by (unfold initial_count; case_bool_decide; lia).
  destruct (get_count_run i p1 _ _ Hc1 Ht1) as (v & Hv & Hval); simpl.
  - pose proof (mono (pit_reads p) (S (pit_reads p)) ltac:(lia)). subst x. lia.
  - done.
  - done.
  - intros H3. specialize (Heven H3). unfold initial_count. case_bool_decide; [done|]. Z.to_euclidean_division_equations. lia.
  - simpl in Hval. fold x in Hval. rewrite <- Hval.
    assert (0 ≤ i < length (pit_channels p1)) as Hi1 by (simpl; rewrite length_zinsert; lia).
    eexists _, _. split; [exact (read_latch_spec i p1 _ v (pit_set_reads (S (pit_reads p1)) p1) Hi Hi1 eq_refl Hc1 Hs Hl eq_refl Hv)|].
    split; [by apply zlookup_zinsert_eq|done].
Qed.

(** Channel 0 ticks in modes 1 and 2 only: in the others, square waves (mode 3) included,
    the timer is off and no poll raises an interrupt. *)
Lemma other_modes_silent {E : PitEnv} p mode lo hi n :
  (∀ i j, (i ≤ j)%nat → clock_at i ≤ clock_at j) → pit_reach p → mode = 0 ∨ 3 ≤ mode ≤ 5 → 0 ≤ lo < 256 → 0 ≤ hi < 256 →
  ∃ p', (program 0 mode lo hi;; polls n) p = Ok tt p' ∧ pit_irqs p' = pit_irqs p.
Proof.
  intros mono Hr Hm Hlo Hhi. pose proof (pit_reach_ok mono p Hr) as Hp. pose proof (po_channels p Hp) as Hlen.
  destruct (zlookup_is_Some (pit_channels p) 0) as [c Hc]; [lia|].
  mstep (program_spec 0 mode lo hi p c Hp ltac:(lia) ltac:(lia) Hlo Hhi Hc).
  assert (ch0_timer_mode (program_result 0 mode lo hi c p) = TIMER_DISABLED) as Hoff.
  { simpl. unfold timer_mode_of. by rewrite !bool_decide_false by lia. }
  assert (∀ n p, ch0_timer_mode p = TIMER_DISABLED → polls n p = Ok tt p) as Hpolls.
  { clear. intros n p Hoff. induction n as [|n IH]; [done|]. simpl. unfold mbind, M_bind at 1.
    unfold pit_handle_timer_interrupt, mbind, M_bind, mget. rewrite bool_decide_true by done. simpl. done. }
  eexists. split; [by apply Hpolls|done].
Qed.

Module PitRuns.
(** A clock that is read every 700 microseconds. *)
Definition env : PitEnv := {| clock_at n := 700 * n |}.
#[local] Existing Instance env.
Lemma clock_mono i j : (i ≤ j)%nat → clock_at i ≤ clock_at j.
Proof. simpl. lia. Qed.
Lemma start_reach : pit_reach pit_start.
Proof. apply reach_init, pit_init_spec. Qed.
(** Period 1000: the ticks come at every second poll and its own reading, 2100 microseconds
    apart, because the period starts anew at the tick. *)
Example ticks_drift :
  match (program 0 2 0xa9 4;; polls 6) pit_start with
  | Ok _ p => pit_irqs p = [(7700, 1000); (5600, 1000); (3500, 1000)]
  | Err _ => False
  end.
Proof. vm_compute. reflexivity. Qed.
(** Read back 700 microseconds, 835 oscillations, later. *)
Example square_wave_read :
  match (program 2 3 0 1;; read_latch 2) pit_start with Ok v _ => v = 122 | Err _ => False end ∧ counter 3 256 835 = 122.
Proof. vm_compute. auto. Qed.

(** Witnesses. *)
Lemma pit_registers_ok_witness : Forall chan_wf (pit_channels pit_start) ∧ ∃ v p', pit_run_op (PitIo 0x40 0 8 true) pit_start = Ok v p' ∧ 0 ≤ v < 256.
Proof.
  destruct (pit_registers_ok pit_start clock_mono start_reach) as (H & _ & _ & _ & Hop). split; [exact H|].
  exact (Hop (PitIo 0x40 0 8 true)).
Defined.
Lemma pit_ticks_witness : ∃ p' ticks, (program 0 2 0xa9 4;; polls 6) pit_start = Ok tt p' ∧ pit_irqs p' = ticks ++ [] ∧
  ticking 1000 700 2100 ticks ∧ clock_at (pit_reads p') ≤ last_tick 2100 ticks + 1000 + 2 * 700.
Proof.
  change 1000 with (period_of (initial_count 0xa9 4)). change 2100 with (clock_at (pit_reads pit_start)). change [] with (pit_irqs pit_start).
  apply (pit_ticks pit_start 0xa9 4 700 6); [intros i; simpl; lia|lia|exact start_reach|lia|lia].
Defined.
Lemma pit_latched_read_witness : ∃ p' c', (program 2 3 0 1;; read_latch 2) pit_start =
    Ok (u16 (counter 3 (initial_count 0 1) (Z.to_nat ((clock_at (S (pit_reads pit_start)) - clock_at (pit_reads pit_start)) * PIT_FREQ / 1000000)))) p' ∧
  zlookup (pit_channels p') 2 = Some c' ∧ ch_status_latched c' = 0 ∧ ch_count_latched c' = 0.
Proof.
  apply (pit_latched_read pit_start 2 3 0 1 (mk_channel 65536 0 0 0 0 0 0 0 0 0xff 0 0));
    [exact clock_mono|exact start_reach|lia..|reflexivity|reflexivity|reflexivity|reflexivity|simpl; lia].
Defined.
End PitRuns.
