(* ===== verification/Earm.v ===== *)
(** * Energy accounting

    Models block/earm_server.c, the accounts that the block server keeps of the energy
    its clients use, and the throttling in block/server.c that depends on them. The
    account page shared with the resource monitor is an array of 64-bit words in the
    layout of l4ka-interfaces/earm_idl.idl, so that an index past the end of a member
    reads what follows it. The clock, the processor number and the energy read from the
    processor's counters (glue/earm.c) are inputs of each operation.

    The theorems: every request is charged to its client; the idle energy charged to
    all clients never exceeds what the disk used ([earm_ledger]); a query returns the
    client's costs and two words that are not its own ([get_counter_overreads]); between two
    budget updates a client passes the gate once more than its budget ([throttle_limits]). *)

From Stdlib Require Import ZArith Lia.
From stdpp Require Import base list numbers.
From S2P Require Import Prelude Block.

Definition UUID_IEarm_ResCPU_Max : Z := 15.
Definition UUID_IEarm_ResDisk : Z := 16.
Definition UUID_IEarm_ResMax : Z := 17.
Definition LD_BIO_RECALC : Z := 7.
Definition BIO_RECALC : Z := Z.shiftl 1 LD_BIO_RECALC.
Definition IDLE_RECALC_THRESHOLD : Z := 10.
Definition LD_IDLE_RECALC_USEC : Z := 16.
Definition DISK_IDLE_POWER : Z := 4083.
Definition DISK_ACTIVE_POWER : Z := 6714.
Definition DISK_TRANSFER_RATE : Z := 57.
Definition DISK_ENERGY_PER_BYTE : Z := (DISK_ACTIVE_POWER - DISK_IDLE_POWER) / DISK_TRANSFER_RATE.
Definition L4VMBLOCK_EARM_UPDATE_BIO_BUDGET_PERIOD : Z := 3.
Definition L4VMBLOCK_EARM_ACCOUNT_PERIOD : Z := 5.

(** A signed 64-bit word. *)
Definition s64 (x : Z) : Z := let y := u64 x in if bool_decide (y < 2 ^ 63) then y else y - 2 ^ 64.

(** [domain_info_t] in the page: the limit, then two arrays. *)
Definition info_words : Z := 1 + UUID_IEarm_ResMax + UUID_IEarm_ResMax.
Definition a_limit (logid : Z) : Z := info_words * logid.
Definition a_base_cost (logid u : Z) : Z := info_words * logid + 1 + u.
Definition a_access_cost (logid u : Z) : Z := info_words * logid + 1 + UUID_IEarm_ResMax + u.

(** The state: the cache of clients (thread and log identifier), the page, the counters.
    [em_timers] are the expiry times of pending timers. *)
Record earm_t : Type := mk_em {
  em_clients : list (Z * Z);
  em_client_count : Z;
  em_mem : list Z;
  em_bio_count : Z;
  em_bio_size : Z;
  em_active_count : Z;
  em_idle_count : Z;
  em_cpu_unaccounted : Z;
  em_cpu_idle_power : Z;
  em_cpu_bio_energy : Z;
  em_last : Z;
  em_old_bio_count : Z;
  em_bio_counter : list Z;
  em_bio_budget : list Z;
  em_timers : list Z;
  em_kdb : Z                    (** stops in the kernel debugger *)
}.
Definition em_set_clients (x : list (Z * Z)) (s : earm_t) : earm_t :=
  mk_em x (em_client_count s) (em_mem s) (em_bio_count s) (em_bio_size s) (em_active_count s)
    (em_idle_count s) (em_cpu_unaccounted s) (em_cpu_idle_power s) (em_cpu_bio_energy s) (em_last s)
    (em_old_bio_count s) (em_bio_counter s) (em_bio_budget s) (em_timers s) (em_kdb s).
Definition em_set_client_count (x : Z) (s : earm_t) : earm_t :=
  mk_em (em_clients s) x (em_mem s) (em_bio_count s) (em_bio_size s) (em_active_count s) (em_idle_count s)
    (em_cpu_unaccounted s) (em_cpu_idle_power s) (em_cpu_bio_energy s) (em_last s) (em_old_bio_count s)
    (em_bio_counter s) (em_bio_budget s) (em_timers s) (em_kdb s).
Definition em_set_mem (x : list Z) (s : earm_t) : earm_t :=
  mk_em (em_clients s) (em_client_count s) x (em_bio_count s) (em_bio_size s) (em_active_count s)
    (em_idle_count s) (em_cpu_unaccounted s) (em_cpu_idle_power s) (em_cpu_bio_energy s) (em_last s)
    (em_old_bio_count s) (em_bio_counter s) (em_bio_budget s) (em_timers s) (em_kdb s).
Definition em_set_bio_count (x : Z) (s : earm_t) : earm_t :=
  mk_em (em_clients s) (em_client_count s) (em_mem s) x (em_bio_size s) (em_active_count s)
    (em_idle_count s) (em_cpu_unaccounted s) (em_cpu_idle_power s) (em_cpu_bio_energy s) (em_last s)
    (em_old_bio_count s) (em_bio_counter s) (em_bio_budget s) (em_timers s) (em_kdb s).
Definition em_set_bio_size (x : Z) (s : earm_t) : earm_t :=
  mk_em (em_clients s) (em_client_count s) (em_mem s) (em_bio_count s) x (em_active_count s)
    (em_idle_count s) (em_cpu_unaccounted s) (em_cpu_idle_power s) (em_cpu_bio_energy s) (em_last s)
    (em_old_bio_count s) (em_bio_counter s) (em_bio_budget s) (em_timers s) (em_kdb s).
Definition em_set_active_count (x : Z) (s : earm_t) : earm_t :=
  mk_em (em_clients s) (em_client_count s) (em_mem s) (em_bio_count s) (em_bio_size s) x (em_idle_count s)
    (em_cpu_unaccounted s) (em_cpu_idle_power s) (em_cpu_bio_energy s) (em_last s) (em_old_bio_count s)
    (em_bio_counter s) (em_bio_budget s) (em_timers s) (em_kdb s).
Definition em_set_idle_count (x : Z) (s : earm_t) : earm_t :=
  mk_em (em_clients s) (em_client_count s) (em_mem s) (em_bio_count s) (em_bio_size s) (em_active_count s)
    x (em_cpu_unaccounted s) (em_cpu_idle_power s) (em_cpu_bio_energy s) (em_last s) (em_old_bio_count s)
    (em_bio_counter s) (em_bio_budget s) (em_timers s) (em_kdb s).
Definition em_set_cpu_unaccounted (x : Z) (s : earm_t) : earm_t :=
  mk_em (em_clients s) (em_client_count s) (em_mem s) (em_bio_count s) (em_bio_size s) (em_active_count s)
    (em_idle_count s) x (em_cpu_idle_power s) (em_cpu_bio_energy s) (em_last s) (em_old_bio_count s)
    (em_bio_counter s) (em_bio_budget s) (em_timers s) (em_kdb s).
Definition em_set_cpu_idle_power (x : Z) (s : earm_t) : earm_t :=
  mk_em (em_clients s) (em_client_count s) (em_mem s) (em_bio_count s) (em_bio_size s) (em_active_count s)
    (em_idle_count s) (em_cpu_unaccounted s) x (em_cpu_bio_energy s) (em_last s) (em_old_bio_count s)
    (em_bio_counter s) (em_bio_budget s) (em_timers s) (em_kdb s).
Definition em_set_cpu_bio_energy (x : Z) (s : earm_t) : earm_t :=
  mk_em (em_clients s) (em_client_count s) (em_mem s) (em_bio_count s) (em_bio_size s) (em_active_count s)
    (em_idle_count s) (em_cpu_unaccounted s) (em_cpu_idle_power s) x (em_last s) (em_old_bio_count s)
    (em_bio_counter s) (em_bio_budget s) (em_timers s) (em_kdb s).
Definition em_set_last (x : Z) (s : earm_t) : earm_t :=
  mk_em (em_clients s) (em_client_count s) (em_mem s) (em_bio_count s) (em_bio_size s) (em_active_count s)
    (em_idle_count s) (em_cpu_unaccounted s) (em_cpu_idle_power s) (em_cpu_bio_energy s) x
    (em_old_bio_count s) (em_bio_counter s) (em_bio_budget s) (em_timers s) (em_kdb s).
Definition em_set_old_bio_count (x : Z) (s : earm_t) : earm_t :=
  mk_em (em_clients s) (em_client_count s) (em_mem s) (em_bio_count s) (em_bio_size s) (em_active_count s)
    (em_idle_count s) (em_cpu_unaccounted s) (em_cpu_idle_power s) (em_cpu_bio_energy s) (em_last s) x
    (em_bio_counter s) (em_bio_budget s) (em_timers s) (em_kdb s).
Definition em_set_bio_counter (x : list Z) (s : earm_t) : earm_t :=
  mk_em (em_clients s) (em_client_count s) (em_mem s) (em_bio_count s) (em_bio_size s) (em_active_count s)
    (em_idle_count s) (em_cpu_unaccounted s) (em_cpu_idle_power s) (em_cpu_bio_energy s) (em_last s)
    (em_old_bio_count s) x (em_bio_budget s) (em_timers s) (em_kdb s).
Definition em_set_bio_budget (x : list Z) (s : earm_t) : earm_t :=
  mk_em (em_clients s) (em_client_count s) (em_mem s) (em_bio_count s) (em_bio_size s) (em_active_count s)
    (em_idle_count s) (em_cpu_unaccounted s) (em_cpu_idle_power s) (em_cpu_bio_energy s) (em_last s)
    (em_old_bio_count s) (em_bio_counter s) x (em_timers s) (em_kdb s).
Definition em_set_timers (x : list Z) (s : earm_t) : earm_t :=
  mk_em (em_clients s) (em_client_count s) (em_mem s) (em_bio_count s) (em_bio_size s) (em_active_count s)
    (em_idle_count s) (em_cpu_unaccounted s) (em_cpu_idle_power s) (em_cpu_bio_energy s) (em_last s)
    (em_old_bio_count s) (em_bio_counter s) (em_bio_budget s) x (em_kdb s).
Definition em_set_kdb (x : Z) (s : earm_t) : earm_t :=
  mk_em (em_clients s) (em_client_count s) (em_mem s) (em_bio_count s) (em_bio_size s) (em_active_count s)
    (em_idle_count s) (em_cpu_unaccounted s) (em_cpu_idle_power s) (em_cpu_bio_energy s) (em_last s)
    (em_old_bio_count s) (em_bio_counter s) (em_bio_budget s) (em_timers s) x.

Class EarmEnv : Type := {
  L4_LOG_MAX_LOGIDS : Z;
  L4VM_LOGID_OFFSET : Z
}.

Section earm.
Context {E : EarmEnv}.
Abbreviation ME := (M earm_t).

Definition load_cost (a : Z) : ME Z := o ← mgets (λ s, zlookup (em_mem s) a); mof_option OutOfBounds o.
Definition store_cost (a x : Z) : ME unit :=
  load_cost a;; mmodify (λ s, em_set_mem (zinsert a x (em_mem s)) s).
Definition add_cost (a x : Z) : ME unit := v ← load_cost a; mmodify (λ s, em_set_mem (zinsert a (u64 (v + x)) (em_mem s)) s).

(** The loop over the cached clients. *)
Fixpoint find_client (tid : Z) (l : list (Z * Z)) : option Z :=
  match l with [] => None | (t, logid) :: l => if bool_decide (t = tid) then Some logid else find_client tid l end.
(** [tid_to_logid]; [space] is the answer of the resource monitor, [mem] whether
    [kmalloc] finds memory for the new entry. [L4_KDB_Enter] stops in the kernel
    debugger, from which the operator lets the thread go on. *)
Definition tid_to_logid (tid : Z) (space : option Z) (mem : bool) : ME (option Z) :=
  s ← mget;
  match find_client tid (em_clients s) with
  | Some logid => mret (Some logid)
  | None =>
      match space with
      | None => mmodify (λ s, em_set_kdb (em_kdb s + 1) s);; mret None
      | Some sp =>
          let logid := u32 (sp + L4VM_LOGID_OFFSET) in
          if negb mem then mfault NullDeref else
          mmodify (λ s, em_set_client_count (em_client_count s + 1) (em_set_clients ((tid, logid) :: em_clients s) s));;
          mret (Some logid)
      end
  end.

(** The loop over the clients. *)
Fixpoint charge_idle (l : list (Z * Z)) (cpu cpu_energy disk_energy : Z) : ME unit :=
  match l with
  | [] => mret tt
  | (_, logid) :: l =>
      massert (bool_decide (logid < L4_LOG_MAX_LOGIDS));;
      add_cost (a_base_cost logid cpu) cpu_energy;;
      add_cost (a_base_cost logid UUID_IEarm_ResDisk) disk_energy;;
      charge_idle l cpu cpu_energy disk_energy
  end.
(** The estimate of the idle power, from the reading [e] of the counters. *)
Definition recalc_idle (e : Z) : ME unit :=
  s ← mget;
  (if bool_decide (em_bio_count s = em_old_bio_count s) then
     mmodify (em_set_active_count 0);;
     mmodify (λ s, em_set_idle_count (u32 (em_idle_count s + 1)) s);;
     s ← mget;
     if bool_decide (em_idle_count s > IDLE_RECALC_THRESHOLD) then
       mmodify (λ s, em_set_cpu_unaccounted 0 (em_set_cpu_idle_power
         (Z.shiftr (u64 (u64 (em_cpu_idle_power s * 15) + Z.shiftr e LD_IDLE_RECALC_USEC)) 4) s))
     else mret tt
   else mmodify (em_set_idle_count 0));;
  mmodify (λ s, em_set_old_bio_count (em_bio_count s) s).

Definition account_idle_cost (idle : bool) (now cpu e : Z) : ME unit :=
  s ← mget;
  let usec := u64 (now - em_last s) in
  mmodify (em_set_last now);;
  if bool_decide (usec > 0x100000000) then mret tt else
  let cpu_idle_energy := u64 (em_cpu_idle_power s * usec) in
  mmodify (λ s, em_set_cpu_unaccounted (s64 (em_cpu_unaccounted s - cpu_idle_energy)) s);;
  (if idle then recalc_idle e else mret tt);;
  let disk_idle_energy := u64 (DISK_IDLE_POWER * usec) in
  s ← mget;
  let n := em_client_count s in
  let share (x : Z) := if bool_decide (n > 1) then x / n else x in
  charge_idle (em_clients s) cpu (share cpu_idle_energy) (share disk_idle_energy).

(** The timer [account]. *)
Definition account (jiffies now cpu e : Z) : ME unit :=
  account_idle_cost true now cpu e;;
  mmodify (λ s, em_set_timers ((jiffies + L4VMBLOCK_EARM_ACCOUNT_PERIOD) :: em_timers s) s).

Definition calc_cpu_bio_energy (now cpu e : Z) : ME unit :=
  mmodify (λ s, em_set_cpu_unaccounted (s64 (em_cpu_unaccounted s + e)) s);;
  mmodify (λ s, em_set_cpu_unaccounted (s64 (em_cpu_unaccounted s - u64 (Z.shiftl (em_cpu_bio_energy s) LD_BIO_RECALC))) s);;
  account_idle_cost false now cpu e;;
  mmodify (λ s, em_set_cpu_bio_energy
    (if bool_decide (em_cpu_unaccounted s > 0) then Z.shiftr (em_cpu_unaccounted s) LD_BIO_RECALC else 0) s).

(** A request of [size] bytes of the client in address space [space] is done; the
    results are the energies of the disk and of the processor. *)
Definition L4VMblock_earm_end_io (space size now cpu e : Z) : ME (Z * Z) :=
  mmodify (λ s, em_set_bio_count (u32 (em_bio_count s + 1)) (em_set_bio_size (u32 (em_bio_size s + size)) s));;
  let logid := u32 (space + L4VM_LOGID_OFFSET) in
  let disk_energy := u32 (DISK_ENERGY_PER_BYTE * size) in
  cpu_energy ← mgets em_cpu_bio_energy;
  massert (bool_decide (logid < L4_LOG_MAX_LOGIDS));;
  massert (bool_decide (cpu < UUID_IEarm_ResMax));;
  add_cost (a_access_cost logid UUID_IEarm_ResDisk) disk_energy;;
  add_cost (a_access_cost logid cpu) cpu_energy;;
  s ← mget;
  (if bool_decide (Z.land (em_bio_count s) (BIO_RECALC - 1) = 0) then calc_cpu_bio_energy now cpu e else mret tt);;
  mret (disk_energy, cpu_energy).

(** [IEarm_Resource_get_counter]: the loop runs to [UUID_IEarm_ResMax] inclusive. *)
Fixpoint sum_costs (n : nat) (u logid counter : Z) : ME Z :=
  match n with
  | O => mret counter
  | S n =>
      b ← load_cost (a_base_cost logid u);
      a ← load_cost (a_access_cost logid u);
      sum_costs n (u + 1) logid (u64 (u64 (counter + b) + a))
  end.
Definition IEarm_Resource_get_counter (tid : Z) (space : option Z) (mem : bool) (now cpu e : Z) : ME (Z * Z) :=
  o ← tid_to_logid tid space mem;
  match o with
  | None => mret (0, 0)
  | Some logid =>
      account_idle_cost false now cpu e;;
      counter ← sum_costs (Z.to_nat (UUID_IEarm_ResMax + 1)) 0 logid 0;
      mret (Z.shiftr counter 32, u32 counter)
  end.

(** [L4VMblock_earm_server]: the accounts are cleared. *)
Fixpoint for_z {A} (n : nat) (i : Z) (body : Z → M A unit) : M A unit :=
  match n with O => mret tt | S n => body i;; for_z n (i + 1) body end.
Definition clear_accounts : ME unit :=
  for_z (Z.to_nat L4_LOG_MAX_LOGIDS) 0 (λ logid, for_z (Z.to_nat UUID_IEarm_ResMax) 0 (λ u,
    store_cost (a_base_cost logid u) 0;; store_cost (a_access_cost logid u) 0)).

(** ** Throttling *)

Definition L4VMblock_earm_eas_get_throttle (space : Z) : ME Z := v ← load_cost (a_limit (u32 (space + L4VM_LOGID_OFFSET))); mret (u32 v).
(** The timer [update_bio_budget]; [spaces] are the address spaces of the clients that
    are there. The call of [L4VMblock_process_client_io] is left to the caller. *)
Fixpoint update_budgets (idx : Z) (spaces : list (option Z)) : ME unit :=
  match spaces with
  | [] => mret tt
  | None :: spaces => update_budgets (idx + 1) spaces
  | Some space :: spaces =>
      mmodify (λ s, em_set_bio_counter (zinsert idx 0 (em_bio_counter s)) s);;
      b ← L4VMblock_earm_eas_get_throttle space;
      mmodify (λ s, em_set_bio_budget (zinsert idx b (em_bio_budget s)) s);;
      update_budgets (idx + 1) spaces
  end.
Definition update_bio_budget (jiffies : Z) (spaces : list (option Z)) : ME unit :=
  update_budgets 0 spaces;;
  mmodify (λ s, em_set_timers ((jiffies + L4VMBLOCK_EARM_UPDATE_BIO_BUDGET_PERIOD) :: em_timers s) s).
(** The gate in [L4VMblock_process_io_queue]: may the client be served? *)
Definition bio_gate (idx : Z) : ME bool :=
  s ← mget;
  c ← mof_option OutOfBounds (zlookup (em_bio_counter s) idx);
  b ← mof_option OutOfBounds (zlookup (em_bio_budget s) idx);
  if bool_decide (c > b) then mret false
  else mmodify (λ s, em_set_bio_counter (zinsert idx (u32 (c + 1)) (em_bio_counter s)) s);; mret true.
End earm.

(** ** Sums of accounts *)

Fixpoint zsum (n : nat) (f : Z → Z) : Z := match n with O => 0 | S n => zsum n f + f (Z.of_nat n) end.
Lemma zsum_ext n f g : (∀ i, 0 ≤ i < Z.of_nat n → f i = g i) → zsum n f = zsum n g.
Proof. induction n; simpl; [done|]. intros H. rewrite IHn, H; [done|lia|]. intros; apply H; lia. Qed.
Lemma zsum_zero n : zsum n (λ _, 0) = 0.
Proof. induction n as [|n IH]; [done|]. cbn [zsum]. by rewrite IH. Qed.
Lemma zsum_update n f g k : 0 ≤ k < Z.of_nat n → (∀ i, i ≠ k → f i = g i) → zsum n f = zsum n g + (f k - g k).
Proof.
  intros Hk H. induction n as [|n IH]; [lia|]. simpl.
  destruct (decide (k = Z.of_nat n)) as [->|].
  - rewrite (zsum_ext n f g); [lia|]. intros; apply H; lia.
  - rewrite IH, (H (Z.of_nat n)) by lia. lia.
Qed.
Lemma zsum_nonneg n f : (∀ i, 0 ≤ i < Z.of_nat n → 0 ≤ f i) → 0 ≤ zsum n f.
Proof. induction n; simpl; [done|]. intros H. pose proof (H (Z.of_nat n)). assert (0 ≤ zsum n f); [apply IHn; intros; apply H|]; lia. Qed.
Lemma zsum_member n f k : (∀ i, 0 ≤ i < Z.of_nat n → 0 ≤ f i) → 0 ≤ k < Z.of_nat n → f k ≤ zsum n f.
Proof.
  intros H Hk. rewrite (zsum_update n f (λ i, if decide (i = k) then 0 else f i) k Hk).
  - rewrite decide_True by done. enough (0 ≤ zsum n (λ i, if decide (i = k) then 0 else f i)) by lia.
    apply zsum_nonneg. intros i Hi. case_decide; auto with lia.
  - intros i Hi. by rewrite decide_False.
Qed.

(** ** The books *)

Section books.
Context {E : EarmEnv}.

Definition cost (s : earm_t) (a : Z) : Z := default 0 (zlookup (em_mem s) a).
Definition valid_logid (logid : Z) : Prop := 0 ≤ logid < L4_LOG_MAX_LOGIDS.
Definition idle_total (s : earm_t) : Z :=
  zsum (Z.to_nat L4_LOG_MAX_LOGIDS) (λ logid, cost s (a_base_cost logid UUID_IEarm_ResDisk)).
Record em_ok (s : earm_t) : Prop := {
  ok_size : info_words * L4_LOG_MAX_LOGIDS < length (em_mem s);
  ok_count : em_client_count s = length (em_clients s);
  ok_clients : Forall (λ c, valid_logid c.2) (em_clients s);
  ok_base : ∀ logid, valid_logid logid → 0 ≤ cost s (a_base_cost logid UUID_IEarm_ResDisk);
  ok_counter : length (em_bio_counter s) = L4VMBLOCK_MAX_CLIENTS;
  ok_budget : length (em_bio_budget s) = L4VMBLOCK_MAX_CLIENTS
}.
(** From [s] to [s'] the clients' idle accounts of the disk grew by [d] in all. *)
Record charges (d : Z) (s s' : earm_t) : Prop := {
  ch_clients : em_clients s' = em_clients s;
  ch_count : em_client_count s' = em_client_count s;
  ch_last : em_last s' = em_last s;
  ch_kdb : em_kdb s' = em_kdb s;
  ch_counter : em_bio_counter s' = em_bio_counter s;
  ch_budget : em_bio_budget s' = em_bio_budget s;
  ch_size : length (em_mem s') = length (em_mem s);
  ch_access : ∀ logid, valid_logid logid → cost s' (a_access_cost logid UUID_IEarm_ResDisk) = cost s (a_access_cost logid UUID_IEarm_ResDisk);
  ch_base : ∀ logid, valid_logid logid → 0 ≤ cost s' (a_base_cost logid UUID_IEarm_ResDisk);
  ch_total : idle_total s' = idle_total s + d
}.

Ltac addresses := unfold valid_logid, a_limit, a_base_cost, a_access_cost, info_words, UUID_IEarm_ResMax, UUID_IEarm_ResDisk in *.

Lemma charges_ok d s s' : em_ok s → charges d s s' → em_ok s'.
Proof. intros [] []. split; [by rewrite ch_size0|congruence|by rewrite ch_clients0|done|congruence..]. Qed.
Lemma charges_trans d1 d2 s s1 s2 : charges d1 s s1 → charges d2 s1 s2 → charges (d1 + d2) s s2.
Proof.
  intros [] []. split; try congruence; auto; [|lia]. intros logid Hl. rewrite (ch_access1 logid Hl). auto.
Qed.
Lemma charges_same s s' :
  em_ok s → em_clients s' = em_clients s → em_client_count s' = em_client_count s → em_last s' = em_last s →
  em_bio_counter s' = em_bio_counter s → em_bio_budget s' = em_bio_budget s → em_mem s' = em_mem s → em_kdb s' = em_kdb s → charges 0 s s'.
Proof.
  intros Hok H1 H2 H3 H4 H5 H6 H7. destruct Hok. unfold idle_total, cost in *.
  split; try done; unfold idle_total, cost; rewrite ?H6; auto with lia.
Qed.
Lemma idle_total_nonneg s : em_ok s → 0 ≤ idle_total s.
Proof. intros Hok. apply zsum_nonneg. intros i Hi. apply (ok_base s Hok). unfold valid_logid. lia. Qed.

Lemma load_cost_wp F a Q s : 0 ≤ a < length (em_mem s) → Q (cost s a) s → wp F (load_cost a) Q s.
Proof.
  intros Ha HQ. unfold load_cost. wp_steps.
  - destruct (zlookup_is_Some (em_mem s) a Ha). congruence.
  - unfold cost in HQ. by rewrite H in HQ.
Qed.
Lemma add_cost_wp F a x Q s :
  0 ≤ a < length (em_mem s) → Q tt (em_set_mem (zinsert a (u64 (cost s a + x)) (em_mem s)) s) → wp F (add_cost a x) Q s.
Proof. intros Ha HQ. unfold add_cost. wp_step. apply load_cost_wp; [done|]. wp_step. done. Qed.
Lemma cost_store s a x b :
  0 ≤ a < length (em_mem s) → cost (em_set_mem (zinsert a x (em_mem s)) s) b = if decide (a = b) then x else cost s b.
Proof. intros Ha. unfold cost. simpl. rewrite zlookup_zinsert by done. by case_decide. Qed.

(** A store to any word that is not a disk account changes none of them. *)
Lemma charges_other a x s :
  em_ok s → 0 ≤ a < length (em_mem s) →
  (∀ logid, a ≠ a_base_cost logid UUID_IEarm_ResDisk ∧ a ≠ a_access_cost logid UUID_IEarm_ResDisk) →
  charges 0 s (em_set_mem (zinsert a x (em_mem s)) s).
Proof.
  intros Hok Ha Hne. split; try done; simpl; rewrite ?length_zinsert; try done.
  - intros logid _. rewrite cost_store by done. rewrite decide_False; [done|]. naive_solver.
  - intros logid Hl. rewrite cost_store by done. rewrite decide_False; [by apply Hok|]. naive_solver.
  - unfold idle_total. rewrite Z.add_0_r. apply zsum_ext. intros i _. rewrite cost_store by done.
    rewrite decide_False; [done|]. naive_solver.
Qed.
Lemma charges_disk logid x s :
  em_ok s → valid_logid logid → 0 ≤ x → idle_total s + x < 2 ^ 64 →
  let a := a_base_cost logid UUID_IEarm_ResDisk in
  charges x s (em_set_mem (zinsert a (u64 (cost s a + x)) (em_mem s)) s).
Proof.
  intros Hok Hl Hx Ht a. pose proof (ok_size s Hok). pose proof (ok_base s Hok) as Hb.
  assert (0 ≤ a < length (em_mem s)) as Ha by (subst a; addresses; lia).
  assert (cost s a ≤ idle_total s) as Hm.
  { apply (zsum_member _ (λ l, cost s (a_base_cost l UUID_IEarm_ResDisk)) logid).
    - intros i Hi. apply Hb. unfold valid_logid. lia.
    - unfold valid_logid in Hl. lia. }
  pose proof (Hb logid Hl) as Hb'. fold a in Hb'.
  rewrite wrap_small by lia. split; try done; simpl; rewrite ?length_zinsert; try done.
  - intros l' _. rewrite cost_store by done. rewrite decide_False; [done|]. subst a; addresses; lia.
  - intros l' Hl'. rewrite cost_store by done. case_decide; [lia|]. by apply Hb.
  - unfold idle_total. erewrite (zsum_update _ _ (λ l, cost s (a_base_cost l UUID_IEarm_ResDisk)) logid).
    + cbv beta. rewrite cost_store by done. subst a. rewrite decide_True by done. lia.
    + unfold valid_logid in Hl. lia.
    + intros i Hi. cbv beta. rewrite cost_store by done. rewrite decide_False; [done|]. subst a; addresses; lia.
Qed.

Lemma charge_idle_wp l cpu ce de : ∀ s,
  em_ok s → Forall (λ c, valid_logid c.2) l → 0 ≤ cpu ≤ UUID_IEarm_ResCPU_Max → 0 ≤ de →
  idle_total s + length l * de < 2 ^ 64 →
  wp no_fault (charge_idle l cpu ce de) (λ _ s', charges (length l * de) s s') s.
Proof.
  unfold UUID_IEarm_ResCPU_Max. induction l as [|[tid logid] l IH]; intros s Hok Hl Hcpu Hde Ht; simpl.
  - wp_steps. by apply charges_same.
  - inversion Hl as [|? ? Hv Hl']; subst. simpl in Hv. pose proof (ok_size s Hok). simpl length in *.
    wp_step. wp_step; [unfold valid_logid in Hv; case_bool_decide; lia|].
    wp_step. apply add_cost_wp; [addresses; lia|].
    set (s1 := em_set_mem _ s).
    assert (charges 0 s s1) as Hc1. { apply charges_other; [done|addresses; lia|]. intros l'. addresses. lia. }
    pose proof (charges_ok _ _ _ Hok Hc1) as Hok1. pose proof (ch_total _ _ _ Hc1).
    wp_step. apply add_cost_wp; [rewrite (ch_size _ _ _ Hc1); addresses; lia|].
    set (s2 := em_set_mem _ s1).
    assert (charges de s1 s2) as Hc2. { apply charges_disk; [done..|nia]. }
    pose proof (charges_ok _ _ _ Hok1 Hc2) as Hok2. pose proof (ch_total _ _ _ Hc2).
    eapply wp_mono; [apply IH; try done; nia|]. intros ? s3 Hc3.
    replace (Z.of_nat (S (length l)) * de) with (0 + (de + length l * de)) by lia.
    eauto using charges_trans.
Qed.

Lemma recalc_idle_wp e s : em_ok s → wp no_fault (recalc_idle e) (λ _ s', charges 0 s s') s.
Proof. intros Hok. unfold recalc_idle. wp_steps; by apply charges_same. Qed.

(** What the books promise: [led] is the number of bytes moved for each client. *)
Record books (t0 : Z) (led : Z → Z) (s : earm_t) : Prop := {
  bk_ok : em_ok s;
  bk_disk : ∀ logid, valid_logid logid → cost s (a_access_cost logid UUID_IEarm_ResDisk) = u64 (DISK_ENERGY_PER_BYTE * led logid);
  bk_idle : idle_total s ≤ DISK_IDLE_POWER * (em_last s - t0);
  bk_time : 0 ≤ t0 ≤ em_last s ∧ em_last s < 2 ^ 50
}.
Lemma books_charges t0 led s s' d :
  books t0 led s → charges d s s' → idle_total s + d ≤ DISK_IDLE_POWER * (em_last s - t0) → books t0 led s'.
Proof.
  intros [Hok Hd Hi Ht] Hc Hle. split; [by eapply charges_ok| | |]; rewrite ?(ch_last _ _ _ Hc); [|rewrite (ch_total _ _ _ Hc)|]; try done.
  intros logid Hl. rewrite (ch_access _ _ _ Hc) by done. auto.
Qed.
Lemma books_same t0 led s s' : books t0 led s → charges 0 s s' → books t0 led s'.
Proof. intros Hb Hc. eapply books_charges; [done..|]. rewrite Z.add_0_r. apply Hb. Qed.
Lemma books_last t0 led s now :
  books t0 led s → em_last s ≤ now < 2 ^ 50 → books t0 led (em_set_last now s).
Proof.
  intros [[Hs Hn Hc Hb Ha Ha'] Hd Hi Ht] Hnow. split; [by split|done| |simpl; lia].
  change (idle_total (em_set_last now s)) with (idle_total s). simpl. unfold DISK_IDLE_POWER in *. lia.
Qed.

Lemma account_idle_cost_wp idle now cpu e t0 led s :
  books t0 led s → em_last s ≤ now < 2 ^ 50 → 0 ≤ cpu ≤ UUID_IEarm_ResCPU_Max →
  wp no_fault (account_idle_cost idle now cpu e) (λ _ s', books t0 led s' ∧ em_last s' = now ∧
    em_clients s' = em_clients s ∧ em_kdb s' = em_kdb s) s.
Proof.
  intros Hb Hnow Hcpu. unfold account_idle_cost. pose proof (bk_time _ _ _ Hb) as Ht.
  pose proof (bk_idle _ _ _ Hb) as Hi. pose proof (idle_total_nonneg s (bk_ok _ _ _ Hb)) as Hi0.
  wp_step. wp_step. cbv zeta. rewrite (wrap_small 64 (now - em_last s)) by lia.
  pose proof (books_last _ _ _ _ Hb Hnow) as Hb1. wp_step. wp_step.
  assert (idle_total (em_set_last now s) = idle_total s) as Hi1 by done.
  set (s1 := em_set_last now s) in *.
  assert (em_clients s1 = em_clients s ∧ em_last s1 = now ∧ em_kdb s1 = em_kdb s) as (Hc1 & Hl1 & Hk1) by done. clearbody s1.
  case_bool_decide as Hu; [by wp_steps|]. cbv zeta.
  wp_step. wp_step. wp_step. set (s2 := em_set_cpu_unaccounted _ s1).
  assert (charges 0 s1 s2) as H2 by (apply charges_same; try done; apply Hb1). clearbody s2.
  eapply (wp_mono _ _ (λ _ s3, charges 0 s1 s3)).
  { destruct idle; [|by wp_steps].
    eapply wp_mono; [apply recalc_idle_wp; eapply charges_ok; [apply Hb1|done]|].
    intros ? s3 H3. rewrite <- (Z.add_0_r 0). by eapply charges_trans. }
  intros ? s3 H3. pose proof (charges_ok _ _ _ (bk_ok _ _ _ Hb1) H3) as Hok3.
  wp_step. wp_step. set (de := u64 (DISK_IDLE_POWER * (now - em_last s))).
  assert (de = DISK_IDLE_POWER * (now - em_last s)) as Hde by (apply wrap_small; unfold DISK_IDLE_POWER; lia).
  rewrite (ok_count _ Hok3). set (n := length (em_clients s3)).
  set (d := if bool_decide (n > 1) then de / n else de).
  assert (0 ≤ d ∧ n * d ≤ de) as [Hd0 Hd].
  { unfold d, DISK_IDLE_POWER in *. case_bool_decide.
    - split; [apply Z.div_pos; lia|]. apply Z.mul_div_le. lia.
    - split; [lia|]. assert (Z.of_nat n = 0 ∨ Z.of_nat n = 1) as [-> | ->]; lia. }
  pose proof (ch_total _ _ _ H3) as Ht3.
  eapply wp_mono; [apply charge_idle_wp; try done; [apply Hok3|]|].
  { fold n. unfold DISK_IDLE_POWER in *. lia. }
  intros ? s4 H4. cbv beta. pose proof (charges_trans _ _ _ _ _ H3 H4) as H5.
  split_and!; [eapply books_charges; [done..|]| | |].
  - fold n. rewrite Hl1, Hi1. unfold DISK_IDLE_POWER in *. lia.
  - by rewrite (ch_last _ _ _ H5).
  - by rewrite (ch_clients _ _ _ H5).
  - by rewrite (ch_kdb _ _ _ H5).
Qed.

Lemma books_ext t0 led led' s : (∀ l, led l = led' l) → books t0 led s → books t0 led' s.
Proof. intros He [Hok Hd Hi Ht]. split; try done. intros logid Hl. rewrite Hd, He; done. Qed.

(** One more request on the books. *)
Definition book (led : Z → Z) (logid size l : Z) : Z := led l + if decide (l = logid) then size else 0.
Lemma books_disk t0 led s logid size :
  books t0 led s → valid_logid logid → 0 ≤ size < 2 ^ 26 →
  let a := a_access_cost logid UUID_IEarm_ResDisk in
  books t0 (book led logid size) (em_set_mem (zinsert a (u64 (cost s a + u32 (DISK_ENERGY_PER_BYTE * size))) (em_mem s)) s).
Proof.
  intros [Hok Hd Hi Ht] Hl Hsz a. pose proof (ok_size s Hok).
  assert (0 ≤ a < length (em_mem s)) as Ha by (subst a; addresses; lia).
  set (s' := em_set_mem _ s).
  assert (∀ l, cost s' (a_base_cost l UUID_IEarm_ResDisk) = cost s (a_base_cost l UUID_IEarm_ResDisk)) as Hbase.
  { intros l. unfold s'. rewrite cost_store by done. rewrite decide_False; [done|]. subst a. addresses. lia. }
  split; [destruct Hok; split; try done| | |done].
  - simpl. rewrite length_zinsert. done.
  - intros l Hl'. rewrite Hbase. auto.
  - intros l Hl'. unfold s', book. rewrite cost_store by done.
    destruct (decide (l = logid)) as [->|].
    + rewrite decide_True by done. subst a. rewrite Hd by done.
      rewrite (wrap_small 32) by (change DISK_ENERGY_PER_BYTE with 46; lia).
      unfold wrap. rewrite Z.add_mod_idemp_l by done. f_equal. lia.
    + rewrite decide_False; [|subst a; addresses; lia]. rewrite Hd, Z.add_0_r by done. done.
  - replace (idle_total s') with (idle_total s); [done|]. apply zsum_ext. intros. by rewrite Hbase.
Qed.

Lemma calc_cpu_bio_energy_wp now cpu e t0 led s :
  books t0 led s → em_last s ≤ now < 2 ^ 50 → 0 ≤ cpu ≤ UUID_IEarm_ResCPU_Max →
  wp no_fault (calc_cpu_bio_energy now cpu e) (λ _ s', books t0 led s' ∧ em_last s' = now ∧ em_kdb s' = em_kdb s) s.
Proof.
  intros Hb Hnow Hcpu. unfold calc_cpu_bio_energy. do 5 wp_step.
  eapply wp_mono; [apply account_idle_cost_wp; [eapply books_same; [apply Hb|apply charges_same; try done; apply Hb]|done..]|].
  intros ? s' (Hb' & Hl' & _ & Hk'). wp_step. split; [|done].
  eapply books_same; [done|]. apply charges_same; try done. apply Hb'.
Qed.

Lemma end_io_wp space size now cpu e t0 led s :
  let logid := u32 (space + L4VM_LOGID_OFFSET) in
  books t0 led s → valid_logid logid → 0 ≤ size < 2 ^ 26 → em_last s ≤ now < 2 ^ 50 → 0 ≤ cpu ≤ UUID_IEarm_ResCPU_Max →
  wp no_fault (L4VMblock_earm_end_io space size now cpu e)
    (λ r s', books t0 (book led logid size) s' ∧ em_last s ≤ em_last s' ≤ now ∧ em_kdb s' = em_kdb s ∧
      r.1 = DISK_ENERGY_PER_BYTE * size) s.
Proof.
  intros logid Hb Hl Hsz Hnow Hcpu. unfold L4VMblock_earm_end_io. wp_step. wp_step. set (s1 := em_set_bio_count _ _).
  assert (charges 0 s s1) as H1 by (apply charges_same; try done; apply Hb).
  pose proof (books_same _ _ _ _ Hb H1) as Hb1. cbv zeta. wp_step. wp_step. fold logid.
  do 2 (wp_step; wp_step; [unfold valid_logid, UUID_IEarm_ResMax, UUID_IEarm_ResCPU_Max in *; case_bool_decide; lia|]).
  pose proof (ok_size _ (bk_ok _ _ _ Hb1)).
  wp_step. apply add_cost_wp; [addresses; lia|].
  pose proof (books_disk _ _ _ _ _ Hb1 Hl Hsz) as Hb2. cbv zeta in Hb2. set (s2 := em_set_mem _ s1) in *.
  wp_step. pose proof (ok_size _ (bk_ok _ _ _ Hb2)). unfold UUID_IEarm_ResCPU_Max in Hcpu.
  apply add_cost_wp; [addresses; lia|].
  set (a := a_access_cost logid cpu). set (s3 := em_set_mem _ s2).
  assert (charges 0 s2 s3) as Hc3.
  { apply charges_other; [apply Hb2|subst a; addresses; lia|]. intros l. subst a. addresses. lia. }
  pose proof (books_same _ _ _ _ Hb2 Hc3) as Hb3. assert (em_last s3 = em_last s ∧ em_kdb s3 = em_kdb s) as [Hl3 Hk3] by done. clearbody s3.
  wp_step. wp_step. wp_step.
  eapply (wp_mono _ _ (λ _ s', books t0 (book led logid size) s' ∧ em_last s ≤ em_last s' ≤ now ∧ em_kdb s' = em_kdb s)).
  - clear H H0. case_bool_decide; [|wp_step; split_and!; [done|lia..|done]].
    eapply wp_mono; [apply calc_cpu_bio_energy_wp; try done; lia|]. intros ? s' (? & -> & ->). split_and!; [done|lia..|done].
  - intros ? s' (? & ? & ?). wp_step. split_and!; try done; try lia. simpl. apply wrap_small. change DISK_ENERGY_PER_BYTE with 46. lia.
Qed.

Lemma find_client_in tid l logid : find_client tid l = Some logid → (tid, logid) ∈ l.
Proof.
  induction l as [|[t d] l IH]; simpl; [done|]. case_bool_decide; intros; simplify_eq; [left|right; auto].
Qed.
(** The account a query is for. *)
Definition logid_of (tid : Z) (space : option Z) (s : earm_t) : option Z :=
  match find_client tid (em_clients s) with Some logid => Some logid | None => (λ sp, u32 (sp + L4VM_LOGID_OFFSET)) <$> space end.
Lemma tid_to_logid_wp tid space t0 led s :
  books t0 led s → (∀ sp, space = Some sp → valid_logid (u32 (sp + L4VM_LOGID_OFFSET))) →
  wp no_fault (tid_to_logid tid space true) (λ o s', books t0 led s' ∧ em_last s' = em_last s ∧ em_mem s' = em_mem s ∧
    em_kdb s' = em_kdb s + (if decide (logid_of tid space s = None) then 1 else 0) ∧
    o = logid_of tid space s ∧ ∀ logid, o = Some logid → valid_logid logid) s.
Proof.
  intros Hb Hsp. unfold tid_to_logid, logid_of. wp_step. wp_step.
  destruct (find_client tid (em_clients s)) as [logid|] eqn:Hf.
  { wp_step. split_and!; try done; [simpl; lia|]. intros ? [= <-]. apply find_client_in in Hf.
    pose proof (ok_clients _ (bk_ok _ _ _ Hb)) as Hc. by apply (proj1 (list.Forall_forall _ _) Hc) in Hf. }
  destruct Hb as [[Hs Hn Hc Hb Ha Ha'] Hd Hi Ht].
  destruct space as [sp|]; cbn [negb fmap option_fmap option_map]; wp_steps; simpl.
  - pose proof (Hsp _ eq_refl). split_and!; try done; [|lia|naive_solver].
    split; try done. split; try done; simpl; [rewrite Hn; simpl; lia|]. by constructor.
  - split_and!; try done.
Qed.

(** *** Queries *)

(** Base and access costs of the resources below [n]. *)
Definition costs (s : earm_t) (n : nat) (logid : Z) : Z :=
  zsum n (λ u, cost s (a_base_cost logid u) + cost s (a_access_cost logid u)).
Lemma zsum_shift n f : zsum (S n) f = f 0 + zsum n (λ i, f (i + 1)).
Proof.
  induction n as [|n IH]; [cbn [zsum]; change (Z.of_nat 0) with 0; lia|]. change (zsum (S (S n)) f) with (zsum (S n) f + f (Z.of_nat (S n))).
  rewrite IH, Nat2Z.inj_succ. cbn [zsum]. unfold Z.succ. lia.
Qed.
Lemma sum_costs_wp (n : nat) : ∀ u logid c s,
  valid_logid logid → 0 ≤ u → u + n ≤ UUID_IEarm_ResMax + 1 → info_words * L4_LOG_MAX_LOGIDS < length (em_mem s) →
  wp no_fault (sum_costs n u logid (u64 c)) (λ r s', s' = s ∧
    r = u64 (c + zsum n (λ i, cost s (a_base_cost logid (u + i)) + cost s (a_access_cost logid (u + i))))) s.
Proof.
  induction n as [|n IH]; intros u logid c s Hl Hu Hn Hs.
  - wp_steps. simpl. by rewrite Z.add_0_r.
  - simpl sum_costs. unfold UUID_IEarm_ResMax in Hn.
    wp_step. apply load_cost_wp; [addresses; lia|]. wp_step. apply load_cost_wp; [addresses; lia|].
    set (b := cost s (a_base_cost logid u)). set (a := cost s (a_access_cost logid u)).
    replace (u64 (u64 (u64 c + b) + a)) with (u64 (c + b + a)) by (unfold wrap; rewrite Z.add_mod_idemp_l, <- (Z.add_assoc (c `mod` _)), Z.add_mod_idemp_l, Z.add_assoc; done).
    eapply wp_mono; [apply IH; unfold UUID_IEarm_ResMax; try done; lia|].
    intros r s' [-> ->]. split; [done|]. f_equal. rewrite zsum_shift, !Z.add_0_r. fold a b.
    rewrite (zsum_ext n _ (λ i, cost s (a_base_cost logid (u + (i + 1))) + cost s (a_access_cost logid (u + (i + 1))))); [lia|].
    intros i _. by rewrite <- !Z.add_assoc, (Z.add_comm 1).
Qed.

(** The two words the last round of the loop reads. *)
Lemma last_round s logid :
  costs s 18 logid = costs s 17 logid + cost s (a_access_cost logid 0) + cost s (a_limit (logid + 1)).
Proof.
  unfold costs. change 18%nat with (S 17). cbn [zsum]. change (Z.of_nat 17) with 17.
  replace (a_base_cost logid 17) with (a_access_cost logid 0) by (addresses; lia).
  replace (a_access_cost logid 17) with (a_limit (logid + 1)) by (addresses; lia). lia.
Qed.

Lemma get_counter_wp tid space now cpu e t0 led s :
  books t0 led s → (∀ sp, space = Some sp → valid_logid (u32 (sp + L4VM_LOGID_OFFSET))) →
  em_last s ≤ now < 2 ^ 50 → 0 ≤ cpu ≤ UUID_IEarm_ResCPU_Max →
  wp no_fault (IEarm_Resource_get_counter tid space true now cpu e) (λ r s', books t0 led s' ∧ em_last s ≤ em_last s' ≤ now ∧
    em_kdb s' = em_kdb s + (if decide (logid_of tid space s = None) then 1 else 0) ∧
    match logid_of tid space s with
    | None => r = (0, 0)
    | Some logid => r.1 * 2 ^ 32 + r.2 = u64 (costs s' 17 logid + cost s' (a_access_cost logid 0) + cost s' (a_limit (logid + 1)))
    end) s.
Proof.
  intros Hb Hsp Hnow Hcpu. unfold IEarm_Resource_get_counter. wp_step.
  eapply wp_mono; [by apply tid_to_logid_wp|]. intros o s1 (Hb1 & Hl1 & _ & Hk1 & Hof & Ho).
  rewrite <- Hof in *. destruct o as [logid|]; [|wp_steps; split_and!; [done|lia..|done|done]].
  wp_step. eapply wp_mono; [apply account_idle_cost_wp; try done; lia|]. intros ? s2 (Hb2 & Hl2 & _ & Hk2).
  wp_step. change 0 with (u64 0) at 2.
  eapply wp_mono; [apply sum_costs_wp; [by apply Ho|lia|done|apply Hb2]|]. intros r s3 [-> ->].
  wp_step. split_and!; [done|lia..|by rewrite Hk2|].
  change (Z.to_nat (UUID_IEarm_ResMax + 1)) with 18%nat. cbn [fst snd]. rewrite Z.add_0_l.
  rewrite <- last_round. unfold costs. set (x := u64 _). clearbody x.
  unfold wrap. rewrite Z.shiftr_div_pow2 by done. pose proof (Z.div_mod x (2 ^ 32)). lia.
Qed.

(** *** Throttling *)

Lemma get_throttle_wp space Q s :
  em_ok s → valid_logid (u32 (space + L4VM_LOGID_OFFSET)) →
  Q (u32 (cost s (a_limit (u32 (space + L4VM_LOGID_OFFSET))))) s → wp no_fault (L4VMblock_earm_eas_get_throttle space) Q s.
Proof.
  intros Hok Hl HQ. unfold L4VMblock_earm_eas_get_throttle. pose proof (ok_size _ Hok). wp_step.
  apply load_cost_wp; [addresses; lia|]. by wp_step.
Qed.
Definition spaces_ok (spaces : list (option Z)) : Prop :=
  ∀ sp, Some sp ∈ spaces → valid_logid (u32 (sp + L4VM_LOGID_OFFSET)).
(** The arrays after a budget update: each client present starts with count 0 and the
    limit on its account. *)
Record budgeted (idx : Z) (spaces : list (option Z)) (s s' : earm_t) : Prop := {
  bg_clients : em_clients s' = em_clients s;
  bg_count : em_client_count s' = em_client_count s;
  bg_last : em_last s' = em_last s;
  bg_kdb : em_kdb s' = em_kdb s;
  bg_mem : em_mem s' = em_mem s;
  bg_counters : length (em_bio_counter s') = length (em_bio_counter s);
  bg_budgets : length (em_bio_budget s') = length (em_bio_budget s);
  bg_before : ∀ i, i < idx → zlookup (em_bio_counter s') i = zlookup (em_bio_counter s) i ∧
    zlookup (em_bio_budget s') i = zlookup (em_bio_budget s) i;
  bg_set : ∀ i sp, zlookup spaces i = Some (Some sp) → 0 ≤ idx → idx + i < length (em_bio_counter s) →
    length (em_bio_counter s) = length (em_bio_budget s) →
    zlookup (em_bio_counter s') (idx + i) = Some 0 ∧
    zlookup (em_bio_budget s') (idx + i) = Some (u32 (cost s (a_limit (u32 (sp + L4VM_LOGID_OFFSET)))))
}.
Lemma em_ok_arrays s s' :
  em_ok s → em_clients s' = em_clients s → em_client_count s' = em_client_count s → em_mem s' = em_mem s →
  length (em_bio_counter s') = length (em_bio_counter s) → length (em_bio_budget s') = length (em_bio_budget s) → em_ok s'.
Proof.
  intros [] Hc Hn Hm H1 H2. unfold cost in *. split; unfold cost; rewrite ?Hm, ?Hc; try done; congruence.
Qed.
Lemma budgeted_ok idx spaces s s' : em_ok s → budgeted idx spaces s s' → em_ok s'.
Proof.
  intros Hok []. by apply (em_ok_arrays s).
Qed.
Lemma zlookup_cons {A} (x : A) l i : 0 ≤ i → zlookup (x :: l) i = if decide (i = 0) then Some x else zlookup l (i - 1).
Proof.
  intros Hi. unfold zlookup. rewrite decide_True by done. case_decide; [by subst|]. rewrite decide_True by lia.
  by replace (Z.to_nat i) with (S (Z.to_nat (i - 1))) by lia.
Qed.
Lemma update_budgets_wp spaces : ∀ idx s,
  em_ok s → spaces_ok spaces → 0 ≤ idx → wp no_fault (update_budgets idx spaces) (λ _ s', budgeted idx spaces s s') s.
Proof.
  induction spaces as [|o spaces IH]; intros idx s Hok Hsp Hi; simpl.
  - wp_steps. split; try done. intros i sp Hl. unfold zlookup in Hl. case_decide; done.
  - assert (spaces_ok spaces) as Hsp' by (intros sp ?; apply Hsp; by right).
    assert (∀ i sp, zlookup (o :: spaces) i = Some (Some sp) → 0 ≤ i ∧ (i = 0 ∧ o = Some sp ∨ i ≠ 0 ∧ zlookup spaces (i - 1) = Some (Some sp))) as Hcons.
    { intros i sp Hl. pose proof (zlookup_lt _ _ _ Hl). split; [lia|]. rewrite zlookup_cons in Hl by lia. case_decide; naive_solver. }
    destruct o as [sp|].
    + wp_step. wp_step. set (s1 := em_set_bio_counter _ s). wp_step.
      assert (em_ok s1) as Hok1 by (apply (em_ok_arrays s); simpl; rewrite ?length_zinsert; done).
      apply get_throttle_wp; [done|apply Hsp; left|]. wp_step. wp_step. set (s2 := em_set_bio_budget _ s1).
      assert (em_ok s2) as Hok2 by (apply (em_ok_arrays s1); simpl; rewrite ?length_zinsert; done).
      eapply wp_mono; [apply IH; try done; lia|]. intros ? s3 [].
      split; try done; [rewrite bg_counters0|rewrite bg_budgets0| |]; simpl; rewrite ?length_zinsert; try done.
      * intros i Hlt. destruct (bg_before0 i) as [-> ->]; [lia|]. simpl. rewrite !zlookup_zinsert_ne by lia. done.
      * intros i sp' Hl _ Hlen Heq. destruct (Hcons _ _ Hl) as (? & [[-> [= ->]]|[? Hl']]).
        -- destruct (bg_before0 (idx + 0)) as [-> ->]; [lia|]. simpl. rewrite Z.add_0_r in *.
           rewrite !zlookup_zinsert_eq by (rewrite <- ?Heq; lia). done.
        -- specialize (bg_set0 (i - 1) sp'). simpl in bg_set0. rewrite !length_zinsert in bg_set0.
           replace (idx + 1 + (i - 1)) with (idx + i) in bg_set0 by lia. apply bg_set0; auto with lia.
    + eapply wp_mono; [apply IH; try done; lia|]. intros ? s3 []. split; try done.
      * intros i Hlt. apply bg_before0. lia.
      * intros i sp' Hl _ Hlen Heq. destruct (Hcons _ _ Hl) as (? & [[-> [=]]|[? Hl']]).
        specialize (bg_set0 (i - 1) sp'). replace (idx + 1 + (i - 1)) with (idx + i) in bg_set0 by lia. apply bg_set0; auto with lia.
Qed.

(** A sequence of calls of the gate, for any clients. *)
Fixpoint gates (l : list Z) : M earm_t (list bool) :=
  match l with [] => mret [] | i :: l => p ← bio_gate i; ps ← gates l; mret (p :: ps) end.
Fixpoint passes (idx : Z) (l : list Z) (ps : list bool) : Z :=
  match l, ps with i :: l, p :: ps => (if bool_decide (i = idx) && p then 1 else 0) + passes idx l ps | _, _ => 0 end.
Fixpoint calls (idx : Z) (l : list Z) : Z :=
  match l with [] => 0 | i :: l => (if bool_decide (i = idx) then 1 else 0) + calls idx l end.
Lemma calls_nonneg idx l : 0 ≤ calls idx l.
Proof. induction l; simpl; [done|]. case_bool_decide; lia. Qed.
Lemma bio_gate_wp i s :
  length (em_bio_counter s) = length (em_bio_budget s) → 0 ≤ i < length (em_bio_counter s) →
  wp no_fault (bio_gate i) (λ p s', ∃ c b, zlookup (em_bio_counter s) i = Some c ∧ zlookup (em_bio_budget s) i = Some b ∧
    p = bool_decide (c ≤ b) ∧ s' = (if p then em_set_bio_counter (zinsert i (u32 (c + 1)) (em_bio_counter s)) s else s)) s.
Proof.
  intros Hlen Hi. destruct (zlookup_is_Some _ _ Hi) as [c Hc].
  destruct (zlookup_is_Some (em_bio_budget s) i) as [b Hb]; [lia|]. unfold bio_gate.
  wp_step. wp_step. wp_step. rewrite Hc. cbn [mof_option]. wp_step. wp_step. rewrite Hb. cbn [mof_option]. wp_step.
  case_bool_decide; wp_steps; exists c, b; [rewrite bool_decide_false by lia|rewrite bool_decide_true by lia]; done.
Qed.
Lemma gates_wp idx b l : ∀ c s,
  length (em_bio_counter s) = length (em_bio_budget s) → Forall (λ i, 0 ≤ i < length (em_bio_counter s)) l →
  zlookup (em_bio_counter s) idx = Some c → zlookup (em_bio_budget s) idx = Some b →
  0 ≤ c < 2 ^ 32 → 0 ≤ b < 2 ^ 32 → (b ≠ 2 ^ 32 - 1 → c ≤ b + 1) →
  wp no_fault (gates l) (λ ps _, passes idx l ps = if decide (b = 2 ^ 32 - 1) then calls idx l else Z.min (calls idx l) (b + 1 - c)) s.
Proof.
  induction l as [|i l IH]; intros c s Hlen Hl Hc Hb Hc0 Hb0 Hle; simpl.
  - wp_step. case_decide; lia.
  - inversion Hl as [|? ? Hi Hl']; subst. pose proof (calls_nonneg idx l).
    wp_step. eapply wp_mono; [by apply bio_gate_wp|]. intros p s' (c' & b' & Hc' & Hb' & Hp & ->).
    assert (∃ c2, (c2 = if bool_decide (i = idx) && p then u32 (c + 1) else c) ∧
      zlookup (em_bio_counter (if p then em_set_bio_counter (zinsert i (u32 (c' + 1)) (em_bio_counter s)) s else s)) idx = Some c2) as (c2 & Hc2 & Hlk).
    { clear Hp. eexists; split; [done|]. destruct p; simpl; [|by rewrite andb_false_r].
      rewrite zlookup_zinsert by done. case_bool_decide; [|by rewrite decide_False]. subst. rewrite decide_True by done. simpl. congruence. }
    set (s' := if p then _ else s) in *.
    assert (length (em_bio_counter s') = length (em_bio_counter s) ∧ em_bio_budget s' = em_bio_budget s) as [Hlen' Hbud].
    { subst s'. destruct p; simpl; rewrite ?length_zinsert; done. }
    assert (bool_decide (i = idx) = true → p = bool_decide (c ≤ b)) as Hpi.
    { intros ?%bool_decide_eq_true; subst i. rewrite Hc in Hc'. rewrite Hb in Hb'. injection Hc' as ->. injection Hb' as ->. done. }
    assert (bool_decide (i = idx) && p = true → c ≤ b) as Hcb.
    { intros [Hi1 ->]%andb_true_iff. apply Hpi in Hi1. symmetry in Hi1. by apply bool_decide_eq_true in Hi1. }
    assert (b ≠ 2 ^ 32 - 1 → bool_decide (i = idx) && p = true → c2 = c + 1) as Hsucc.
    { intros Hne Ht. rewrite Ht in Hc2. rewrite Hc2. apply Hcb in Ht. apply wrap_small. lia. }
    pose proof (wrap_range 32 (c + 1)).
    wp_step. eapply wp_mono; [apply (IH c2); rewrite ?Hlen', ?Hbud; try done|].
    + subst c2. destruct (_ && _); lia.
    + intros Hne. destruct (bool_decide (i = idx) && p) eqn:Hip; [|lia]. rewrite Hsucc by done. specialize (Hcb eq_refl). lia.
    + intros ps s2 Hps. wp_step. rewrite Hps. destruct (bool_decide (i = idx)) eqn:Hix; simpl in *.
      * specialize (Hpi eq_refl). destruct p; symmetry in Hpi; [apply bool_decide_eq_true in Hpi|apply bool_decide_eq_false in Hpi];
          case_decide; try lia.
      * subst c2. case_decide; lia.
Qed.

(** *** The accounts are cleared when the server starts *)

Lemma for_z_wp {A} F (I : Z → A → Prop) body (n : nat) : ∀ i s,
  I i s → (∀ j s, i ≤ j < i + n → I j s → wp F (body j) (λ _ s', I (j + 1) s') s) →
  wp F (for_z n i body) (λ _ s', I (i + n) s') s.
Proof.
  induction n as [|n IH]; intros i s Hi Hb; simpl.
  - wp_step. by rewrite Z.add_0_r.
  - wp_step. eapply wp_mono; [apply Hb; [lia|done]|]. intros ? s' Hs'.
    replace (i + Z.of_nat (S n)) with (i + 1 + n) by lia. apply IH; [done|]. intros j s2 ?. apply Hb. lia.
Qed.
(** The page differs only in its words, and the costs below ([logid], [u]) are 0. *)
Definition cleared (s0 : earm_t) (logid u : Z) (s : earm_t) : Prop :=
  ∃ m, s = em_set_mem m s0 ∧ length m = length (em_mem s0) ∧
    ∀ l v, 0 ≤ l → 0 ≤ v < UUID_IEarm_ResMax → l < logid ∨ (l = logid ∧ v < u) →
      cost s (a_base_cost l v) = 0 ∧ cost s (a_access_cost l v) = 0.
Lemma store_cost_wp F a x Q s :
  0 ≤ a < length (em_mem s) → Q tt (em_set_mem (zinsert a x (em_mem s)) s) → wp F (store_cost a x) Q s.
Proof. intros Ha HQ. unfold store_cost. wp_step. apply load_cost_wp; [done|]. by wp_step. Qed.
Lemma clear_one_wp s0 logid u s :
  info_words * L4_LOG_MAX_LOGIDS < length (em_mem s0) → valid_logid logid → 0 ≤ u < UUID_IEarm_ResMax → cleared s0 logid u s →
  wp no_fault (store_cost (a_base_cost logid u) 0;; store_cost (a_access_cost logid u) 0) (λ _ s', cleared s0 logid (u + 1) s') s.
Proof.
  intros Hs Hl Hu (m & -> & Hm & Hz).
  wp_step. apply store_cost_wp; [simpl; rewrite Hm; addresses; lia|].
  apply store_cost_wp; [simpl; rewrite length_zinsert, Hm; addresses; lia|]. simpl.
  eexists. split; [reflexivity|]. split; [by rewrite !length_zinsert|]. intros l v Hl0 Hv Hlt.
  specialize (Hz l v Hl0 Hv). unfold cost in *. simpl in *.
  rewrite !zlookup_zinsert by (rewrite ?length_zinsert, Hm; addresses; lia).
  repeat case_decide; simpl; split; try done; apply Hz; addresses; lia.
Qed.
Lemma clear_accounts_wp s :
  0 ≤ L4_LOG_MAX_LOGIDS → em_ok s → 0 ≤ em_last s < 2 ^ 50 →
  wp no_fault clear_accounts (λ _ s', books (em_last s) (λ _, 0) s' ∧ em_last s' = em_last s ∧ em_kdb s' = em_kdb s) s.
Proof.
  intros Hmax Hok Ht. pose proof (ok_size _ Hok) as Hs. unfold clear_accounts.
  eapply wp_mono; [apply (for_z_wp _ (λ logid s', cleared s logid 0 s'))|].
  - exists (em_mem s). split; [by destruct s|]. split; [done|]. lia.
  - intros logid s1 Hl H1. eapply wp_mono; [apply (for_z_wp _ (λ u s', cleared s logid u s')); [done|]|].
    + intros u s2 Hu H2. apply clear_one_wp; try done. unfold valid_logid. lia.
    + intros ? s2 (m & -> & Hm & Hz). exists m. split; [done|]. split; [done|]. intros l v ? Hv ?. apply Hz; try done.
      unfold UUID_IEarm_ResMax in *. lia.
  - intros ? s1 (m & -> & Hm & Hz). split; [|done].
    assert (∀ l, valid_logid l → cost (em_set_mem m s) (a_base_cost l UUID_IEarm_ResDisk) = 0 ∧
      cost (em_set_mem m s) (a_access_cost l UUID_IEarm_ResDisk) = 0) as Hz'.
    { intros l Hl. unfold valid_logid in Hl. apply Hz; unfold UUID_IEarm_ResDisk, UUID_IEarm_ResMax; lia. }
    split; [destruct Hok; split; try done; simpl; rewrite ?Hm; try done| | |simpl; lia].
    + intros l Hl. destruct (Hz' l Hl) as [-> _]. done.
    + intros l Hl. destruct (Hz' l Hl) as [_ ->]. done.
    + unfold idle_total. rewrite (zsum_ext _ _ (λ _, 0)).
      * simpl. enough (zsum (Z.to_nat L4_LOG_MAX_LOGIDS) (λ _, 0) = 0) as ->; [lia|apply zsum_zero].
      * intros i Hi. apply Hz'. unfold valid_logid. lia.
Qed.

(** *** Runs *)

Inductive earm_event : Type :=
  | EvEndIo (space size now cpu e : Z)
  | EvAccount (jiffies now cpu e : Z)
  | EvQuery (tid : Z) (space : option Z) (mem : bool) (now cpu e : Z)
  | EvBudget (jiffies : Z) (spaces : list (option Z))
  | EvGate (idx : Z).
Definition do_event (ev : earm_event) : M earm_t unit :=
  match ev with
  | EvEndIo space size now cpu e => L4VMblock_earm_end_io space size now cpu e;; mret tt
  | EvAccount jiffies now cpu e => account jiffies now cpu e
  | EvQuery tid space mem now cpu e => IEarm_Resource_get_counter tid space mem now cpu e;; mret tt
  | EvBudget jiffies spaces => update_bio_budget jiffies spaces
  | EvGate idx => bio_gate idx;; mret tt
  end.
Fixpoint do_events (l : list earm_event) : M earm_t unit :=
  match l with [] => mret tt | ev :: l => do_event ev;; do_events l end.
(** The time of an event, and what makes it possible: clients with accounts, requests
    below 64 MB, processors that have a number in the page, client slots of the server,
    and memory for the entry of a new client. *)
Definition ev_now (t : Z) (ev : earm_event) : Z :=
  match ev with EvEndIo _ _ now _ _ | EvAccount _ now _ _ | EvQuery _ _ _ now _ _ => now | _ => t end.
Definition ev_ok (ev : earm_event) : Prop :=
  match ev with
  | EvEndIo space size _ cpu _ => valid_logid (u32 (space + L4VM_LOGID_OFFSET)) ∧ 0 ≤ size < 2 ^ 26 ∧ 0 ≤ cpu ≤ UUID_IEarm_ResCPU_Max
  | EvAccount _ _ cpu _ => 0 ≤ cpu ≤ UUID_IEarm_ResCPU_Max
  | EvQuery _ space mem _ cpu _ => mem = true ∧ (∀ sp, space = Some sp → valid_logid (u32 (sp + L4VM_LOGID_OFFSET))) ∧ 0 ≤ cpu ≤ UUID_IEarm_ResCPU_Max
  | EvBudget _ spaces => spaces_ok spaces
  | EvGate idx => 0 ≤ idx < L4VMBLOCK_MAX_CLIENTS
  end.
(** The resource monitor knows who asks. *)
Definition ev_known (ev : earm_event) : Prop :=
  match ev with EvQuery _ space _ _ _ _ => space ≠ None | _ => True end.
Fixpoint evs_ok (t : Z) (l : list earm_event) : Prop :=
  match l with [] => True | ev :: l => ev_ok ev ∧ t ≤ ev_now t ev < 2 ^ 50 ∧ evs_ok (ev_now t ev) l end.
(** The bytes moved for a client. *)
Fixpoint bytes (logid : Z) (l : list earm_event) : Z :=
  match l with
  | [] => 0
  | EvEndIo space size _ _ _ :: l => (if decide (logid = u32 (space + L4VM_LOGID_OFFSET)) then size else 0) + bytes logid l
  | _ :: l => bytes logid l
  end.
End books.

Section runs.
Context {E : EarmEnv}.

Lemma do_event_wp ev t0 led s :
  books t0 led s → ev_ok ev → em_last s ≤ ev_now (em_last s) ev < 2 ^ 50 →
  wp no_fault (do_event ev) (λ _ s', books t0 (λ l, led l + bytes l [ev]) s' ∧
    em_last s ≤ em_last s' ≤ ev_now (em_last s) ev ∧ (ev_known ev → em_kdb s' = em_kdb s)) s.
Proof.
  intros Hb Hev Hnow. pose proof (bk_ok _ _ _ Hb) as Hok.
  assert (∀ s', books t0 led s' → (∀ l, bytes l [ev] = 0) → books t0 (λ l, led l + bytes l [ev]) s') as Hzero.
  { intros s' Hs' Hz. apply (books_ext _ led); [|done]. intros l. rewrite Hz. lia. }
  destruct ev as [space size now cpu e|j now cpu e|tid space mem now cpu e|j spaces|idx]; simpl in Hev, Hnow; simpl do_event.
  - destruct Hev as (? & ? & ?). wp_step. eapply wp_mono; [by apply end_io_wp|]. intros r s' (Hs' & ? & ? & _). wp_step.
    split; [|simpl; split; [lia|done]]. eapply books_ext; [|done]. intros l. unfold book. simpl. lia.
  - unfold account. wp_step. eapply wp_mono; [by apply account_idle_cost_wp|]. intros ? s' (Hs' & Hl & _ & Hk). wp_step.
    split; [|simpl; split; [lia|done]]. apply Hzero; [|done]. eapply books_same; [done|]. apply charges_same; try done. apply Hs'.
  - destruct Hev as (-> & ? & ?). wp_step. eapply wp_mono; [by apply get_counter_wp|]. intros r s' (Hs' & ? & Hk & _).
    wp_step. split; [by apply Hzero|simpl; split; [lia|]]. intros Hsp. rewrite Hk, decide_False; [lia|].
    unfold logid_of. destruct (find_client tid (em_clients s)), space; done.
  - unfold update_bio_budget. wp_step. eapply wp_mono; [by apply update_budgets_wp|]. intros ? s' Hg. wp_step.
    pose proof (budgeted_ok _ _ _ _ Hok Hg) as Hok'. pose proof (bg_mem _ _ _ _ Hg) as Hm. pose proof (bg_last _ _ _ _ Hg) as Hl.
    pose proof (bg_kdb _ _ _ _ Hg) as Hk. split; [|simpl in *; split; [lia|done]]. apply Hzero; [|done]. destruct Hb as [_ Hd Hi Ht].
    unfold idle_total, cost in *. split; unfold idle_total, cost; simpl; rewrite ?Hm, ?Hl; try done.
    apply (em_ok_arrays s'); done.
  - wp_step. eapply wp_mono; [apply bio_gate_wp; destruct Hok; lia|]. intros p s' (c & b & _ & _ & _ & ->). wp_step.
    destruct p; (split; [apply Hzero; [|done]|simpl; split; [lia|done]]); [|done].
    destruct Hb as [_ Hd Hi Ht]. split; try done. apply (em_ok_arrays s); try done. simpl. by rewrite length_zinsert.
Qed.
Lemma bytes_cons logid ev l : bytes logid (ev :: l) = bytes logid [ev] + bytes logid l.
Proof. destruct ev; simpl; lia. Qed.
Lemma evs_ok_sooner t t' l : t' ≤ t → evs_ok t l → evs_ok t' l.
Proof.
  revert t t'. induction l as [|ev l IH]; intros t t' Ht; [done|]. intros (H1 & H2 & H3). split; [done|].
  destruct ev; simpl in *; (split; [lia|]); eauto.
Qed.
Lemma do_events_wp l : ∀ t0 led s,
  books t0 led s → evs_ok (em_last s) l →
  wp no_fault (do_events l) (λ _ s', books t0 (λ x, led x + bytes x l) s' ∧
    (Forall ev_known l → em_kdb s' = em_kdb s)) s.
Proof.
  induction l as [|ev l IH]; intros t0 led s Hb Hl; simpl do_events.
  - wp_step. split; [|done]. eapply books_ext; [|done]. intros x. simpl. lia.
  - destruct Hl as (H1 & H2 & H3). wp_step. eapply wp_mono; [by apply do_event_wp|]. intros ? s' (Hb' & Hl' & Hk').
    eapply wp_mono; [apply IH; [done|eapply evs_ok_sooner; [|done]; lia]|]. intros ? s2. cbv beta. intros [Hb2 Hk2].
    split; [|intros [? ?]%list.Forall_cons; rewrite Hk2 by done; auto]. eapply books_ext; [|done]. intros x. cbv beta. rewrite (bytes_cons x ev l). lia.
Qed.

(** C11. The accounts are right: after the server has cleared them, over every possible
    sequence of completed requests, account timers, queries, budget updates and gate
    checks, no step faults, the access account of each client for the disk holds the
    energy of exactly the bytes moved for it (modulo the 64-bit word), and the idle
    energy charged to all clients together is at most what the disk used since; as
    long as the resource monitor knows every caller of a query, the kernel debugger is
    not entered. An event is possible ([evs_ok]) when its client has an account, a
    request is below 64 MB (so that its energy fits 32 bits), the processor's number is
    at most 15, a new client finds memory for its entry, and the clock goes forward and
    stays below 2^50 microseconds. *)
Theorem earm_ledger s evs :
  0 ≤ L4_LOG_MAX_LOGIDS → em_ok s → 0 ≤ em_last s < 2 ^ 50 → evs_ok (em_last s) evs →
  ∃ s', (clear_accounts;; do_events evs) s = Ok tt s' ∧
    (∀ logid, valid_logid logid → cost s' (a_access_cost logid UUID_IEarm_ResDisk) = u64 (DISK_ENERGY_PER_BYTE * bytes logid evs)) ∧
    0 ≤ idle_total s' ≤ DISK_IDLE_POWER * (em_last s' - em_last s) ∧
    (Forall ev_known evs → em_kdb s' = em_kdb s).
Proof.
  intros Hmax Hok Ht Hev.
  assert (wp no_fault (clear_accounts;; do_events evs) (λ _ s', books (em_last s) (λ l, 0 + bytes l evs) s' ∧
    (Forall ev_known evs → em_kdb s' = em_kdb s)) s) as Hwp.
  { wp_step. eapply wp_mono; [by apply clear_accounts_wp|]. intros ? s1 (Hb & Hl & Hk). rewrite <- Hk. apply do_events_wp; [done|by rewrite Hl]. }
  apply wp_no_fault in Hwp as ([] & s' & Hrun & [Hok' Hd Hi _] & Hk). exists s'. split_and!; try done. by apply idle_total_nonneg.
Qed.

(** A query answers with more than the client's costs: its loop runs over 18 resources
    where there are 17, so the sum also holds the client's access cost of processor 0 a
    second time and the energy limit of the next client. A caller that the resource
    monitor does not know gets 0, after a stop in the kernel debugger. *)
Theorem get_counter_overreads t0 led s tid space now cpu e :
  books t0 led s → (∀ sp, space = Some sp → valid_logid (u32 (sp + L4VM_LOGID_OFFSET))) →
  em_last s ≤ now < 2 ^ 50 → 0 ≤ cpu ≤ UUID_IEarm_ResCPU_Max →
  ∃ hi lo s', IEarm_Resource_get_counter tid space true now cpu e s = Ok (hi, lo) s' ∧
    hi * 2 ^ 32 + lo =
      match logid_of tid space s with
      | None => 0
      | Some logid => u64 (costs s' 17 logid + cost s' (a_access_cost logid 0) + cost s' (a_limit (logid + 1)))
      end.
Proof.
  intros Hb Hsp Hnow Hcpu.
  destruct (wp_no_fault _ _ _ (get_counter_wp tid space now cpu e t0 led s Hb Hsp Hnow Hcpu)) as ([hi lo] & s' & Hrun & _ & _ & _ & Hr).
  exists hi, lo, s'. split; [done|]. destruct (logid_of tid space s); [done|]. by simplify_eq.
Qed.

(** C35. Throttling works to within one request: after a budget update gives the client of
    slot [idx] the budget [b] of its account, of any sequence of calls of the gate, for
    all clients in any order, the client's calls pass exactly as long as there were at
    most [b] before; [b] the largest word lets all pass. *)
Theorem throttle_limits s jiffies spaces idx sp l :
  em_ok s → spaces_ok spaces → zlookup spaces idx = Some (Some sp) → 0 ≤ idx < L4VMBLOCK_MAX_CLIENTS →
  Forall (λ i, 0 ≤ i < L4VMBLOCK_MAX_CLIENTS) l →
  let b := u32 (cost s (a_limit (u32 (sp + L4VM_LOGID_OFFSET)))) in
  ∃ ps s', (update_bio_budget jiffies spaces;; gates l) s = Ok ps s' ∧
    passes idx l ps = if decide (b = 2 ^ 32 - 1) then calls idx l else Z.min (calls idx l) (b + 1).
Proof.
  intros Hok Hsp Hidx Hi Hl b. apply wp_no_fault. wp_step. unfold update_bio_budget. wp_step.
  eapply wp_mono; [by apply update_budgets_wp|]. intros ? s1 Hg. wp_step.
  pose proof (budgeted_ok _ _ _ _ Hok Hg) as Hok1. pose proof (wrap_range 32 (cost s (a_limit (u32 (sp + L4VM_LOGID_OFFSET))))).
  destruct (bg_set _ _ _ _ Hg idx sp Hidx) as [Hc Hb]; [done|rewrite (ok_counter _ Hok); lia| |].
  { by rewrite (ok_counter _ Hok), (ok_budget _ Hok). }
  rewrite Z.add_0_l in Hc, Hb. eapply wp_mono; [apply (gates_wp idx b l 0); simpl; try done|].
  - by rewrite (ok_counter _ Hok1), (ok_budget _ Hok1).
  - by rewrite (ok_counter _ Hok1).
  - subst b. lia.
  - lia.
  - intros ps s2 ->. by rewrite Z.sub_0_r.
Qed.
End runs.

(** ** Concrete runs

    Two clients (log identifiers 3 and 4), five accounts. *)
Module EarmRuns.
#[local] Ltac by_eval := vm_compute; repeat split; congruence.
Definition env : EarmEnv := {| L4_LOG_MAX_LOGIDS := 5; L4VM_LOGID_OFFSET := 2 |}.
#[local] Existing Instance env.
(** Limits are 2 for every client; other words of the page are not cleared. *)
Definition page : list Z := mjoin (replicate 6 (2 :: replicate 34 7)).
Definition s0 : earm_t :=
  mk_em [(11, 3)] 1 page 0 0 0 0 0 0 0 1000 0 (replicate 8 9) (replicate 8 9) [] 0.
Definition evs : list earm_event :=
  [EvEndIo 1 4096 1500 0 70; EvQuery 12 (Some 2) true 2000 1 0; EvAccount 5 3000 0 9; EvEndIo 2 512 3500 1 70; EvGate 1].
Lemma s0_ok : em_ok s0.
Proof.
  split; try done; [by repeat constructor|]. intros logid Hl. unfold valid_logid in Hl; simpl in Hl.
  assert (logid = 0 ∨ logid = 1 ∨ logid = 2 ∨ logid = 3 ∨ logid = 4) as Hin by lia.
  destruct_or? Hin; subst; vm_compute; discriminate.
Qed.
Lemma evs_fine : evs_ok (em_last s0) evs.
Proof. simpl. split_and!; try done; try (by intros ? [= <-]). Qed.
(** Client 4 moved 512 bytes and client 3 moved 4096. *)
Lemma earm_ledger_witness :
  ∃ s', (clear_accounts;; do_events evs) s0 = Ok tt s' ∧ cost s' (a_access_cost 3 UUID_IEarm_ResDisk) = 46 * 4096.
Proof.
  destruct (earm_ledger s0 evs) as (s' & Hrun & Hd & _); [by_eval|exact s0_ok|by_eval|exact evs_fine|].
  exists s'. split; [exact Hrun|]. rewrite (Hd 3); [reflexivity|]. split; vm_compute; congruence.
Defined.
Definition s1 : earm_t := match clear_accounts s0 with Ok _ s => s | Err _ => s0 end.
Lemma s1_books : books 1000 (λ _, 0) s1.
Proof.
  assert (0 ≤ L4_LOG_MAX_LOGIDS) as H1 by by_eval. assert (0 ≤ em_last s0 < 2 ^ 50) as H2 by by_eval.
  destruct (wp_no_fault _ _ _ (clear_accounts_wp s0 H1 s0_ok H2)) as (u & s' & Hrun & Hb & _).
  unfold s1. rewrite Hrun. exact Hb.
Qed.
Definition answer : Z := match IEarm_Resource_get_counter 12 (Some 2) true 2000 1 0 s1 with Ok (hi, lo) _ => hi * 2 ^ 32 + lo | Err _ => -1 end.
(** A new client is charged its half of the idle energy; the answer is 2 more. *)
Lemma get_counter_overreads_witness : answer = 4083 * 1000 / 2 + 2 ∧
  ∃ hi lo s', IEarm_Resource_get_counter 12 (Some 2) true 2000 1 0 s1 = Ok (hi, lo) s' ∧
    hi * 2 ^ 32 + lo = u64 (costs s' 17 4 + cost s' (a_access_cost 4 0) + cost s' (a_limit (4 + 1))).
Proof.
  split; [by vm_compute|].
  destruct (get_counter_overreads 1000 (λ _, 0) s1 12 (Some 2) 2000 1 0 s1_books) as (hi & lo & s' & Hrun & Hr);
    [by intros ? [= <-]|by_eval|by_eval|]. 
  assert (logid_of 12 (Some 2) s1 = Some 4) as Hl by by_eval. rewrite Hl in Hr.
  exists hi, lo, s'. split; [exact Hrun|exact Hr].
Defined.
(** Without memory for its entry, the query of a new client dereferences NULL; a query of a
    caller that nobody knows stops in the kernel debugger and answers 0. *)
Example query_without_memory : IEarm_Resource_get_counter 12 (Some 2) false 2000 1 0 s1 = Err NullDeref.
Proof. by vm_compute. Qed.
Example query_of_unknown :
  match IEarm_Resource_get_counter 12 None true 2000 1 0 s1 with Ok r s => (r, em_kdb s) | Err _ => ((1, 1), 0) end
    = ((0, 0), 1).
Proof. by vm_compute. Qed.
(** With a limit of 2, three of five calls pass. *)
Lemma throttle_limits_witness :
  ∃ ps s', (update_bio_budget 0 [None; Some 1; Some 2];; gates [1; 1; 2; 1; 1; 2; 1]) s0 = Ok ps s' ∧
    passes 1 [1; 1; 2; 1; 1; 2; 1] ps = 3.
Proof.
  destruct (throttle_limits s0 0 [None; Some 1; Some 2] 1 1 [1; 1; 2; 1; 1; 2; 1]) as (ps & s' & Hrun & Hp).
  - exact s0_ok.
  - intros sp Hin. rewrite !elem_of_cons, elem_of_nil in Hin. destruct_or? Hin; simplify_eq; done.
  - reflexivity.
  - done.
  - by repeat constructor.
  - exists ps, s'. split; [exact Hrun|]. rewrite Hp. by vm_compute.
Defined.
End EarmRuns.
