(* ===== verification/Rewrite.v ===== *)
(** * The rewriter of guest instructions

    Models ia32/rewrite_stackless.cc, ia32/rewrite_stackless.h, ia32/instr.h, ia32/ops.h
    and l4ka/rewrite_stackless.h of the wedge for the L4Ka back end. A guest kernel is
    built with room (no-ops) around its sensitive instructions; before it starts, the
    wedge overwrites each of these blocks with calls of its own functions.

    Memory is a function from addresses to bytes; a pointer into the code is an address.
    A failed [ASSERT] is a fault; [DEBUGGER_ENTER] is counted, and execution goes on. The
    build options and the addresses of the wedge's functions and of its virtual processor
    are fields of [RewriteEnv]. *)

From Stdlib Require Import ZArith Lia.
From stdpp Require Import base list functions numbers.
From S2P Require Import Prelude.

(** ** Operation codes *)

Definition OP_NOP1 : Z := 0x90.
Definition OP_2BYTE : Z := 0x0f.
Definition OP_UD2 : Z := 0x0b.
Definition OP_WBINVD : Z := 0x09.
Definition OP_INVD : Z := 0x08.
Definition OP_PUSHF : Z := 0x9c.
Definition OP_POPF : Z := 0x9d.
Definition OP_LLTL : Z := 0x00.
Definition OP_LDTL : Z := 0x01.
Definition OP_MOV_IMM32 : Z := 0xb8.
Definition OP_MOV_TOMEM32 : Z := 0x89.
Definition OP_MOV_FROMMEM32 : Z := 0x8b.
Definition OP_MOV_TOSEG : Z := 0x8e.
Definition OP_MOV_FROMSEG : Z := 0x8c.
Definition OP_MOV_TOCREG : Z := 0x22.
Definition OP_MOV_FROMSEGOFS : Z := 0xa1.
Definition OP_MOV_TOSEGOFS : Z := 0xa3.
Definition OP_PUSH_CS : Z := 0x0e.
Definition OP_PUSH_SS : Z := 0x16.
Definition OP_PUSH_DS : Z := 0x1e.
Definition OP_PUSH_ES : Z := 0x06.
Definition OP_PUSH_FS : Z := 0xa0.
Definition OP_PUSH_GS : Z := 0xa8.
Definition OP_POP_DS : Z := 0x1f.
Definition OP_POP_ES : Z := 0x07.
Definition OP_POP_SS : Z := 0x17.
Definition OP_POP_FS : Z := 0xa1.
Definition OP_POP_GS : Z := 0xa9.
Definition OP_MOV_TODREG : Z := 0x23.
Definition OP_MOV_FROMCREG : Z := 0x20.
Definition OP_MOV_FROMDREG : Z := 0x21.
Definition OP_CLTS : Z := 0x06.
Definition OP_STI : Z := 0xfb.
Definition OP_CLI : Z := 0xfa.
Definition OP_CALL_REL32 : Z := 0xe8.
Definition OP_JMP_REL32 : Z := 0xe9.
Definition OP_JMP_FAR : Z := 0xea.
Definition OP_JMP_NEAR_ZERO : Z := 0x74.
Definition OP_PUSH_REG : Z := 0x50.
Definition OP_PUSH_IMM8 : Z := 0x6a.
Definition OP_PUSH_IMM32 : Z := 0x68.
Definition OP_POP_REG : Z := 0x58.
Definition OP_CPUID : Z := 0xa2.
Definition OP_LRET : Z := 0xcb.
Definition OP_IRET : Z := 0xcf.
Definition OP_INT : Z := 0xcd.
Definition OP_INT3 : Z := 0xcc.
Definition OP_WRMSR : Z := 0x30.
Definition OP_RDMSR : Z := 0x32.
Definition OP_HLT : Z := 0xf4.
Definition OP_LSS : Z := 0xb2.
Definition OP_OUT : Z := 0xe7.
Definition OP_OUTB : Z := 0xe6.
Definition OP_OUT_DX : Z := 0xef.
Definition OP_OUTB_DX : Z := 0xee.
Definition OP_IN : Z := 0xe5.
Definition OP_INB : Z := 0xe4.
Definition OP_INB_DX : Z := 0xec.
Definition OP_IN_DX : Z := 0xed.
Definition OP_INS_DX : Z := 0x6d.
Definition OP_OUTS_DX : Z := 0x6f.
Definition OP_INSB_DX : Z := 0x6c.
Definition OP_OUTSB_DX : Z := 0x6e.
Definition OP_REG_EAX : Z := 0.
Definition OP_REG_ECX : Z := 1.
Definition OP_REG_EDX : Z := 2.
Definition OP_REG_ESP : Z := 4.
Definition OP_REG_ESI : Z := 6.
Definition OP_REG_EDI : Z := 7.
Definition prefix_lock : Z := 0xf0.
Definition prefix_repne : Z := 0xf2.
Definition prefix_rep : Z := 0xf3.
Definition prefix_operand_size : Z := 0x66.
Definition prefix_address_size : Z := 0x67.
Definition prefix_cs : Z := 0x2e.
Definition prefix_ss : Z := 0x36.
Definition prefix_ds : Z := 0x3e.
Definition prefix_es : Z := 0x26.
Definition prefix_fs : Z := 0x64.
Definition prefix_gs : Z := 0x65.

(** ** Operand bytes *)

Definition mode_indirect : Z := 0.
Definition mode_indirect_disp8 : Z := 1.
Definition mode_indirect_disp : Z := 2.
Definition mode_reg : Z := 3.
Definition get_mode (modrm : Z) : Z := Z.shiftr modrm 6.
Definition get_reg (modrm : Z) : Z := Z.land (Z.shiftr modrm 3) 7.
Definition get_rm (modrm : Z) : Z := Z.land modrm 7.
Definition get_opcode (modrm : Z) : Z := get_reg modrm.
Definition is_register_mode (modrm : Z) : bool := bool_decide (get_mode modrm = mode_reg).
(** Assignment to the bit fields. *)
Definition mk_modrm (mod_ reg rm : Z) : Z := Z.land mod_ 3 * 64 + Z.land reg 7 * 8 + Z.land rm 7.
Definition with_reg (modrm reg : Z) : Z := mk_modrm (get_mode modrm) reg (get_rm modrm).
Definition with_mod (modrm mod_ : Z) : Z := mk_modrm mod_ (get_reg modrm) (get_rm modrm).
Definition base_esp : Z := 4.
Definition base_none_ebp : Z := 5.
Definition get_base (sib : Z) : Z := Z.land sib 7.
Definition is_no_base (sib : Z) : bool := bool_decide (get_base sib = base_none_ebp).

(** A 32-bit word in memory order. *)
Definition bytes32 (v : Z) : list Z := [u8 v; u8 (Z.shiftr v 8); u8 (Z.shiftr v 16); u8 (Z.shiftr v 24)].
Definition word32 (l : list Z) : Z :=
  match l with b0 :: b1 :: b2 :: b3 :: _ => b0 + 2 ^ 8 * b1 + 2 ^ 16 * b2 + 2 ^ 24 * b3 | _ => 0 end.

(** ** The environment *)

Inductive burn_func : Type :=
  | burn_wrmsr | burn_rdmsr | burn_interruptible_hlt | burn_out | burn_outs | burn_cpuid | burn_in | burn_ins
  | burn_int | burn_iret | burn_lret | burn_lidt | burn_lgdt | burn_invlpg | burn_lldt | burn_ltr | burn_str
  | burn_clts | burn_cli | burn_sti | burn_deliver_interrupt | burn_popf | burn_pushf
  | burn_write_cr0 | burn_write_cr2 | burn_write_cr3 | burn_write_cr4 | burn_read_cr
  | burn_write_dr | burn_read_dr | burn_ud2 | burn_unimplemented
  | burn_write_cs | burn_write_ds | burn_write_es | burn_write_fs | burn_write_gs | burn_write_ss
  | burn_read_cs | burn_read_ds | burn_read_es | burn_read_fs | burn_read_gs | burn_read_ss
  | burn_lss | burn_invd | burn_wbinvd | burn_mov_tofsofs | burn_mov_fromfsofs
  | device_8259_0x20_in | device_8259_0x21_in | device_8259_0xa0_in | device_8259_0xa1_in
  | device_8259_0x20_out | device_8259_0x21_out | device_8259_0xa0_out | device_8259_0xa1_out.
(** The members of the virtual processor that rewritten code accesses in place. *)
Inductive cpu_field : Type := cpu_flags | cpu_irq_vectors | cpu_cs | cpu_ss | cpu_ds | cpu_es | cpu_fs | cpu_gs | cpu_cr0 | cpu_cr2 | cpu_cr3 | cpu_cr4.

Class RewriteEnv : Type := {
  addr_of : burn_func → Z;
  cpu_addr : cpu_field → Z;
  get_kernel_vaddr : Z;
  hardware_segments : bool;
  CONFIG_IA32_STRICT_IRQ : bool;
  CONFIG_DEVICE_APIC : bool;
  CONFIG_CALLOUT_VCPULOCAL : bool;
  (** what the local variables hold before they are set *)
  uninit_modrm : Z;
  uninit_suffixes : list Z
}.

(** ** State *)

(** [rw_remain] are the fifteen statistics of the space left; [rw_debugger] counts how often
    the kernel debugger was entered. *)
Record rw_t : Type := mk_rw {
  rw_mem : Z → Z;
  rw_stack_offset : Z;
  rw_curr_virt_addr : Z;
  rw_remain : list Z;
  rw_debugger : nat
}.
Definition rw_set_mem (x : Z → Z) (s : rw_t) : rw_t := mk_rw x (rw_stack_offset s) (rw_curr_virt_addr s) (rw_remain s) (rw_debugger s).
Definition rw_set_stack_offset (x : Z) (s : rw_t) : rw_t := mk_rw (rw_mem s) x (rw_curr_virt_addr s) (rw_remain s) (rw_debugger s).
Definition rw_set_curr_virt_addr (x : Z) (s : rw_t) : rw_t := mk_rw (rw_mem s) (rw_stack_offset s) x (rw_remain s) (rw_debugger s).
Definition rw_set_remain (x : list Z) (s : rw_t) : rw_t := mk_rw (rw_mem s) (rw_stack_offset s) (rw_curr_virt_addr s) x (rw_debugger s).
Definition rw_set_debugger (x : nat) (s : rw_t) : rw_t := mk_rw (rw_mem s) (rw_stack_offset s) (rw_curr_virt_addr s) (rw_remain s) x.
Definition cli_remain : Z := 0.
Definition sti_remain : Z := 1.
Definition popf_remain : Z := 2.
Definition pushf_remain : Z := 3.
Definition iret_remain : Z := 4.
Definition pop_ds_remain : Z := 5.
Definition pop_es_remain : Z := 6.
Definition hlt_remain : Z := 7.
Definition push_ds_remain : Z := 8.
Definition push_es_remain : Z := 9.
Definition push_fs_remain : Z := 10.
Definition push_gs_remain : Z := 11.
Definition read_seg_remain : Z := 12.
Definition write_seg_remain : Z := 13.
Definition mov_segofs_remain : Z := 14.

Abbreviation MR := (M rw_t).

Definition load8 (p : Z) : MR Z := mgets (λ s, rw_mem s p).
Definition store8 (p b : Z) : MR unit := mmodify (λ s, rw_set_mem (<[p := u8 b]> (rw_mem s)) s).
Fixpoint load_bytes (p : Z) (n : nat) : MR (list Z) :=
  match n with O => mret [] | S n => b ← load8 p; l ← load_bytes (p + 1) n; mret (b :: l) end.
Definition load32 (p : Z) : MR Z := l ← load_bytes p 4; mret (word32 l).
(** Store bytes at [newops]; the result is the address behind them. *)
Fixpoint emit (newops : Z) (bs : list Z) : MR Z :=
  match bs with [] => mret newops | b :: bs => store8 newops b;; emit (newops + 1) bs end.
Definition add_stack_offset (n : Z) : MR unit := mmodify (λ s, rw_set_stack_offset (u32 (rw_stack_offset s + n)) s).
(** The kernel debugger returns, and the caller goes on. *)
Definition debugger_enter : MR unit := mmodify (λ s, rw_set_debugger (S (rw_debugger s)) s).

Definition update_remain (i nop_start end_ : Z) : MR unit :=
  if bool_decide (end_ >= nop_start) then
    mmodify (λ s, rw_set_remain (match zlookup (rw_remain s) i with
      | Some r => zinsert i (Z.min r (end_ - nop_start)) (rw_remain s) | None => rw_remain s end) s)
  else mret tt.

(** ** Emitting instructions *)

Section emit.
Context {E : RewriteEnv}.

Definition btr_mem32_immediate (newops address immediate : Z) : MR Z :=
  emit newops ([0x0f; 0xba; mk_modrm mode_indirect 6 5] ++ bytes32 address ++ [immediate]).
Definition bts_mem32_immediate (newops address immediate : Z) : MR Z :=
  emit newops ([0x0f; 0xba; mk_modrm mode_indirect 5 5] ++ bytes32 address ++ [immediate]).
Definition push_mem32 (newops address : Z) : MR Z :=
  p ← emit newops ([0xff; mk_modrm mode_indirect 6 5] ++ bytes32 address);
  add_stack_offset 4;; mret p.
Definition pop_mem32 (newops address : Z) : MR Z :=
  p ← emit newops ([0x8f; mk_modrm mode_indirect 0 5] ++ bytes32 address);
  add_stack_offset (-4);; mret p.
Definition mov_mem32_to_reg (newops address reg : Z) : MR Z :=
  emit newops ([0x8b; mk_modrm mode_indirect reg 5] ++ bytes32 address).
Definition mov_imm32_to_reg (newops imm32 reg : Z) : MR Z :=
  emit newops ([0xc7; mk_modrm mode_reg reg 0] ++ bytes32 imm32).
Definition mov_reg_to_mem32 (newops reg address : Z) : MR Z :=
  emit newops ([0x89; mk_modrm mode_indirect reg 5] ++ bytes32 address).
Definition mov_reg_to_reg (newops src_reg dst_reg : Z) : MR Z :=
  emit newops [0x89; mk_modrm mode_reg src_reg dst_reg].
Definition clean_stack (opstream bytes : Z) : MR Z := emit opstream [0x83; mk_modrm mode_reg 0 4; bytes].
Definition push_byte (opstream value : Z) : MR Z :=
  p ← emit opstream [OP_PUSH_IMM8; value]; add_stack_offset 4;; mret p.
Definition push_word (opstream value : Z) : MR Z :=
  p ← emit opstream (OP_PUSH_IMM32 :: bytes32 value); add_stack_offset 4;; mret p.
Definition insert_operand_size_prefix (newops : Z) : MR Z := emit newops [prefix_operand_size].

(** [append_modrm]: the rest of an operand; [suffixes] are the six bytes that followed
    the operand byte of the guest's instruction. The byte at [newops - 2] is the operand
    byte just emitted when there is a second one. *)
Definition append_modrm (newops modrm : Z) (suffixes : list Z) : MR Z :=
  if bool_decide (get_mode modrm = mode_reg) then mret newops else
  let sib := if bool_decide (get_rm modrm = 4) then hd 0 suffixes else 0 in
  let esp_relative := bool_decide (get_rm modrm = 4) && bool_decide (get_base sib = base_esp) in
  newops ← (if bool_decide (get_rm modrm = 4) then emit newops [sib] else mret newops);
  let suffixes := if bool_decide (get_rm modrm = 4) then tl suffixes else suffixes in
  stack_offset ← mgets rw_stack_offset;
  let disp32 := u32 (word32 suffixes + (if esp_relative then stack_offset else 0)) in
  if bool_decide (get_mode modrm = mode_indirect) then
    if bool_decide (get_rm modrm = 5) then emit newops (bytes32 disp32)
    else if bool_decide (get_rm modrm = 4) && is_no_base sib then emit newops (bytes32 disp32)
    else if esp_relative then
      store8 (newops - 2) (with_mod modrm mode_indirect_disp8);;
      emit newops [stack_offset]
    else mret newops
  else if bool_decide (get_mode modrm = mode_indirect_disp8) then
    emit newops [hd 0 suffixes + (if esp_relative then stack_offset else 0)]
  else emit newops (bytes32 disp32).
Definition push_modrm (newops modrm : Z) (suffixes : list Z) : MR Z :=
  let modrm := with_reg modrm 6 in
  p ← emit newops [0xff; modrm]; add_stack_offset 4;; append_modrm p modrm suffixes.
Definition pop_modrm (newops modrm : Z) (suffixes : list Z) : MR Z :=
  let modrm := with_reg modrm 0 in
  p ← emit newops [0x8f; modrm]; add_stack_offset (-4);; append_modrm p modrm suffixes.
Definition mov_to_modrm (newops src_reg modrm : Z) (suffixes : list Z) : MR Z :=
  let modrm := with_reg modrm src_reg in p ← emit newops [0x89; modrm]; append_modrm p modrm suffixes.
Definition mov_from_modrm (newops dst_reg modrm : Z) (suffixes : list Z) : MR Z :=
  let modrm := with_reg modrm dst_reg in p ← emit newops [0x8b; modrm]; append_modrm p modrm suffixes.
Definition lea_modrm (newops dst_reg modrm : Z) (suffixes : list Z) : MR Z :=
  let modrm := with_reg modrm dst_reg in p ← emit newops [0x8d; modrm]; append_modrm p modrm suffixes.
Definition movzx_modrm (newops dst_reg modrm : Z) (suffixes : list Z) : MR Z :=
  let modrm := with_reg modrm dst_reg in p ← emit newops [0x0f; 0xb7; modrm]; append_modrm p modrm suffixes.
Definition cmp_mem_imm8 (opstream mem_addr imm8 : Z) : MR Z :=
  emit opstream ([0x83; mk_modrm mode_indirect 7 5] ++ bytes32 mem_addr ++ [imm8]).
Definition push_reg (opstream regname : Z) : MR Z :=
  p ← emit opstream [OP_PUSH_REG + regname]; add_stack_offset 4;; mret p.
Definition pop_reg (newops regname : Z) : MR Z :=
  p ← emit newops [OP_POP_REG + regname]; add_stack_offset (-4);; mret p.
Definition op_popf (newops : Z) : MR Z := emit newops [OP_POPF].
Definition op_pushf (newops : Z) : MR Z := emit newops [OP_PUSHF].
Definition op_jmp (opstream func : Z) : MR Z :=
  v ← mgets rw_curr_virt_addr; emit opstream (OP_JMP_REL32 :: bytes32 (func - (opstream + 5 + v))).
Definition jmp_short_zero (opstream target : Z) : MR Z :=
  emit opstream [OP_JMP_NEAR_ZERO; target - (opstream + 2)].
Definition op_call (opstream func : Z) : MR Z :=
  v ← mgets rw_curr_virt_addr; emit opstream (OP_CALL_REL32 :: bytes32 (func - (opstream + 5 + v))).
Definition set_reg (opstream reg value : Z) : MR Z := emit opstream ((OP_MOV_IMM32 + reg) :: bytes32 value).

(** *** Sequences for segment registers, flags and control registers

    With [CONFIG_CALLOUT_VCPULOCAL] they call the wedge, otherwise they access the virtual
    processor in place. *)

Definition call_burn (newops : Z) (f : burn_func) : MR Z := op_call newops (addr_of f).
Definition read_seg_callout (newops : Z) (f : burn_func) : MR Z := p ← push_reg newops OP_REG_EAX; call_burn p f.
Definition write_seg_callout (newops : Z) (f : burn_func) : MR Z := p ← call_burn newops f; clean_stack p 4.
Definition newops_pushf (newops : Z) : MR Z :=
  if CONFIG_CALLOUT_VCPULOCAL then p ← op_pushf newops; call_burn p burn_pushf
  else push_mem32 newops (cpu_addr cpu_flags).
Definition newops_cli (newops : Z) : MR Z :=
  if CONFIG_CALLOUT_VCPULOCAL then call_burn newops burn_cli else btr_mem32_immediate newops (cpu_addr cpu_flags) 9.
Definition newops_push_seg (newops : Z) (f : burn_func) (c : cpu_field) : MR Z :=
  if CONFIG_CALLOUT_VCPULOCAL then read_seg_callout newops f else push_mem32 newops (cpu_addr c).
Definition newops_pop_seg (newops : Z) (f : burn_func) (c : cpu_field) : MR Z :=
  if CONFIG_CALLOUT_VCPULOCAL then write_seg_callout newops f else pop_mem32 newops (cpu_addr c).
Definition newops_pushcs (newops : Z) : MR Z := newops_push_seg newops burn_read_cs cpu_cs.
Definition newops_pushss (newops : Z) : MR Z := newops_push_seg newops burn_read_ss cpu_ss.
Definition newops_popss (newops : Z) : MR Z := newops_pop_seg newops burn_write_ss cpu_ss.
Definition newops_pushds (newops : Z) : MR Z := newops_push_seg newops burn_read_ds cpu_ds.
Definition newops_popds (newops : Z) : MR Z := newops_pop_seg newops burn_write_ds cpu_ds.
Definition newops_pushes (newops : Z) : MR Z := newops_push_seg newops burn_read_es cpu_es.
Definition newops_popes (newops : Z) : MR Z := newops_pop_seg newops burn_write_es cpu_es.
Definition newops_pushfs (newops : Z) : MR Z := newops_push_seg newops burn_read_fs cpu_fs.
Definition newops_popfs (newops : Z) : MR Z := newops_pop_seg newops burn_write_fs cpu_fs.
Definition newops_pushgs (newops : Z) : MR Z := newops_push_seg newops burn_read_gs cpu_gs.
Definition newops_popgs (newops : Z) : MR Z := newops_pop_seg newops burn_write_gs cpu_gs.

(** The segment register a field of an operand names. *)
Definition seg_write (reg : Z) : option (burn_func * cpu_field) :=
  zlookup [(burn_write_es, cpu_es); (burn_write_cs, cpu_cs); (burn_write_ss, cpu_ss); (burn_write_ds, cpu_ds);
    (burn_write_fs, cpu_fs); (burn_write_gs, cpu_gs)] reg.
Definition seg_read (reg : Z) : option (burn_func * cpu_field) :=
  zlookup [(burn_read_es, cpu_es); (burn_read_cs, cpu_cs); (burn_read_ss, cpu_ss); (burn_read_ds, cpu_ds);
    (burn_read_fs, cpu_fs); (burn_read_gs, cpu_gs)] reg.
Definition cr_field (reg : Z) : option cpu_field :=
  default None (zlookup [Some cpu_cr0; None; Some cpu_cr2; Some cpu_cr3; Some cpu_cr4] reg).

Definition mov_toseg_callout (newops modrm : Z) (suffixes : list Z) : MR Z :=
  p ← (if is_register_mode modrm then push_reg newops (get_rm modrm) else
    p ← push_reg newops OP_REG_EAX;
    p ← insert_operand_size_prefix p;
    p ← mov_from_modrm p OP_REG_EAX modrm suffixes;
    push_reg p OP_REG_EAX);
  p ← (match seg_write (get_reg modrm) with Some (f, _) => call_burn p f | None => debugger_enter;; mret p end);
  p ← clean_stack p 4;
  if is_register_mode modrm then mret p else pop_reg p OP_REG_EAX.
Definition mov_toseg_inline (newops modrm : Z) (suffixes : list Z) : MR Z :=
  match seg_write (get_reg modrm) with
  | None => debugger_enter;; mret newops
  | Some (_, c) =>
      if is_register_mode modrm then mov_reg_to_mem32 newops (get_rm modrm) (cpu_addr c)
      else p ← push_modrm newops modrm suffixes; pop_mem32 p (cpu_addr c)
  end.
Definition newops_mov_toseg (newops modrm : Z) (suffixes : list Z) : MR Z :=
  if CONFIG_CALLOUT_VCPULOCAL then mov_toseg_callout newops modrm suffixes else mov_toseg_inline newops modrm suffixes.
Definition movfromseg_callout (newops modrm : Z) (suffixes : list Z) : MR Z :=
  p ← (if is_register_mode modrm then mret newops else push_reg newops OP_REG_EAX);
  p ← push_reg p OP_REG_EAX;
  p ← (match seg_read (get_reg modrm) with Some (f, _) => call_burn p f | None => debugger_enter;; mret p end);
  if is_register_mode modrm then pop_reg p (get_rm modrm) else
  p ← pop_reg p OP_REG_EAX;
  p ← insert_operand_size_prefix p;
  p ← mov_to_modrm p OP_REG_EAX modrm suffixes;
  pop_reg p OP_REG_EAX.
(** An unknown segment returns the null pointer. *)
Definition movfromseg_inline (newops modrm : Z) (suffixes : list Z) : MR Z :=
  match seg_read (get_reg modrm) with
  | None => mret 0
  | Some (_, c) =>
      if is_register_mode modrm then mov_mem32_to_reg newops (cpu_addr c) (get_rm modrm)
      else p ← push_mem32 newops (cpu_addr c); pop_modrm p modrm suffixes
  end.
Definition newops_movfromseg (newops modrm : Z) (suffixes : list Z) : MR Z :=
  if CONFIG_CALLOUT_VCPULOCAL then movfromseg_callout newops modrm suffixes else movfromseg_inline newops modrm suffixes.
Definition movfromcreg_callout (newops modrm : Z) : MR Z :=
  massert (is_register_mode modrm);;
  massert (bool_decide (get_reg modrm ≠ 1) && bool_decide (get_reg modrm ≤ 4));;
  p ← push_reg newops OP_REG_EAX;
  p ← push_byte p (get_reg modrm);
  p ← call_burn p burn_read_cr;
  p ← clean_stack p 4;
  pop_reg p (get_rm modrm).
Definition movfromcreg_inline (newops modrm : Z) (suffixes : list Z) : MR Z :=
  match cr_field (get_reg modrm) with
  | None => debugger_enter;; mret newops
  | Some c =>
      if is_register_mode modrm then mov_mem32_to_reg newops (cpu_addr c) (get_rm modrm)
      else p ← push_mem32 newops (cpu_addr c); pop_modrm p modrm suffixes
  end.
Definition newops_movfromcreg (newops modrm : Z) (suffixes : list Z) : MR Z :=
  if CONFIG_CALLOUT_VCPULOCAL then movfromcreg_callout newops modrm else movfromcreg_inline newops modrm suffixes.
End emit.

(** ** Patching one instruction *)

Section patch.
Context {E : RewriteEnv}.

Definition port_in (port : Z) : option burn_func :=
  if bool_decide (port = 0x20) then Some device_8259_0x20_in
  else if bool_decide (port = 0x21) then Some device_8259_0x21_in
  else if bool_decide (port = 0xa0) then Some device_8259_0xa0_in
  else if bool_decide (port = 0xa1) then Some device_8259_0xa1_in else None.
Definition port_out (port : Z) : option burn_func :=
  if bool_decide (port = 0x20) then Some device_8259_0x20_out
  else if bool_decide (port = 0x21) then Some device_8259_0x21_out
  else if bool_decide (port = 0xa0) then Some device_8259_0xa0_out
  else if bool_decide (port = 0xa1) then Some device_8259_0xa1_out else None.
(** [apply_port_in_patchup] and [apply_port_out_patchup]: the address and [handled]. *)
Definition apply_port_patchup (newops : Z) (which : option burn_func) : MR (Z * bool) :=
  mmodify (rw_set_stack_offset 0);;
  match which with
  | None => mret (newops, false)
  | Some f =>
      p ← push_reg newops OP_REG_ECX;
      p ← push_reg p OP_REG_EDX;
      p ← call_burn p f;
      p ← pop_reg p OP_REG_EDX;
      p ← pop_reg p OP_REG_ECX;
      mret (p, true)
  end.
Definition apply_port_in_patchup (newops port : Z) : MR (Z * bool) := apply_port_patchup newops (port_in port).
Definition apply_port_out_patchup (newops port : Z) : MR (Z * bool) := apply_port_patchup newops (port_out port).
Definition init_patchup : MR unit := mmodify (rw_set_curr_virt_addr 0).

(** The prefixes seen. *)
Record prefixes : Type := mk_prefixes { rep_prefix : bool; operand_size_prefix : bool; segment_prefix : bool }.

Definition push_width (newops : Z) (pf : prefixes) : MR Z := push_byte newops (if operand_size_prefix pf then 16 else 32).
(** A port given as immediate and not handled in place. *)
Definition port_imm (newops value : Z) (patch : Z → Z → MR (Z * bool)) (width : Z → MR Z) (f : burn_func) : MR Z :=
  '(p, handled) ← patch newops value;
  if (handled : bool) then mret p else
  p ← width p;
  p ← push_word p value;
  p ← call_burn p f;
  clean_stack p 8.
(** A port in [EDX]. *)
Definition port_dx (newops : Z) (width : Z → MR Z) (f : burn_func) : MR Z :=
  p ← width newops;
  p ← push_reg p OP_REG_EDX;
  p ← call_burn p f;
  clean_stack p 8.
(** String transfers. Without a prefix register 1 is pushed. *)
Definition port_string (newops : Z) (pf : prefixes) (width : Z → MR Z) (reg : Z) (f : burn_func) : MR Z :=
  p ← width newops;
  p ← (if rep_prefix pf then push_reg p OP_REG_ECX else push_reg p 1);
  p ← push_reg p reg;
  p ← call_burn p f;
  clean_stack p 12.
Definition byte_width (newops : Z) : MR Z := push_byte newops 0x8.

(** Moves between registers and [fs:] memory; [opstream] is at the operation code and
    the prefix is read again one byte before it. *)
Definition seg_call (newops prefix : Z) (f : burn_func) (stop : bool) : MR Z :=
  if bool_decide (prefix = prefix_fs) then call_burn newops f
  else if bool_decide (prefix = prefix_gs) then debugger_enter;; mret newops
  else if stop then debugger_enter;; mret newops else mret newops.
Definition mov_tomem32 (opstream newops end_ : Z) (pf : prefixes) : MR Z :=
  massert (segment_prefix pf);;
  let opstream := opstream - 1 in
  prefix ← load8 opstream;
  modrm ← load8 (opstream + 2);
  suffixes ← load_bytes (opstream + 3) 6;
  p ← push_reg newops (get_reg modrm);
  p ← push_reg p (get_reg modrm);
  p ← lea_modrm p (get_reg modrm) modrm suffixes;
  p ← push_reg p (get_reg modrm);
  p ← seg_call p prefix burn_mov_tofsofs true;
  p ← clean_stack p 8;
  p ← pop_reg p (get_reg modrm);
  update_remain mov_segofs_remain p end_;; mret p.
Definition mov_frommem32 (opstream newops end_ : Z) (pf : prefixes) : MR Z :=
  massert (segment_prefix pf);;
  let opstream := opstream - 1 in
  prefix ← load8 opstream;
  modrm ← load8 (opstream + 2);
  suffixes ← load_bytes (opstream + 3) 6;
  p ← lea_modrm newops (get_reg modrm) modrm suffixes;
  p ← push_reg p (get_reg modrm);
  p ← seg_call p prefix burn_mov_fromfsofs false;
  p ← pop_reg p (get_reg modrm);
  update_remain mov_segofs_remain p end_;; mret p.
Definition mov_tosegofs (opstream newops end_ : Z) (pf : prefixes) : MR Z :=
  massert (segment_prefix pf);;
  let opstream := opstream - 1 in
  prefix ← load8 opstream;
  value ← load32 (opstream + 2);
  load_bytes (opstream + 3) 6;;
  p ← push_reg newops OP_REG_EAX;
  p ← push_reg p OP_REG_EAX;
  p ← push_word p value;
  p ← seg_call p prefix burn_mov_tofsofs true;
  p ← clean_stack p 8;
  p ← pop_reg p (get_reg uninit_modrm);
  update_remain mov_segofs_remain p end_;; mret p.
Definition mov_fromsegofs (opstream newops end_ : Z) (pf : prefixes) : MR Z :=
  massert (segment_prefix pf);;
  let opstream := opstream - 1 in
  prefix ← load8 opstream;
  value ← load32 (opstream + 2);
  load_bytes (opstream + 3) 6;;
  p ← push_word newops value;
  p ← seg_call p prefix burn_mov_fromfsofs false;
  p ← pop_reg p OP_REG_EAX;
  update_remain mov_segofs_remain p end_;; mret p.

Definition patch_popf (newops end_ : Z) : MR Z :=
  p ← (if CONFIG_IA32_STRICT_IRQ then
         if negb CONFIG_DEVICE_APIC then
           p ← pop_mem32 newops (cpu_addr cpu_flags);
           p ← cmp_mem_imm8 p (cpu_addr cpu_irq_vectors) 0;
           p ← jmp_short_zero p end_;
           p ← call_burn p burn_deliver_interrupt;
           pop_mem32 p (cpu_addr cpu_flags)
         else p ← call_burn newops burn_popf; op_popf p
       else p ← pop_mem32 newops (cpu_addr cpu_flags); update_remain popf_remain p end_;; mret p);
  update_remain popf_remain p end_;; mret p.
Definition patch_sti (newops end_ : Z) : MR Z :=
  p ← (if CONFIG_IA32_STRICT_IRQ then
         if negb CONFIG_DEVICE_APIC then
           p ← bts_mem32_immediate newops (cpu_addr cpu_flags) 9;
           p ← cmp_mem_imm8 p (cpu_addr cpu_irq_vectors) 0;
           p ← jmp_short_zero p end_;
           call_burn p burn_deliver_interrupt
         else call_burn newops burn_sti
       else bts_mem32_immediate newops (cpu_addr cpu_flags) 9);
  update_remain sti_remain p end_;; mret p.
Definition and_remain (m : MR Z) (i end_ : Z) : MR Z := p ← m; update_remain i p end_;; mret p.
(** A case that leaves the instruction to hardware segments. *)
Definition unless_segments (newops : Z) (m : MR Z) : MR Z := if hardware_segments then mret newops else m.

(** Operation codes of two bytes; [None] is [return false]. *)
Definition burn_write_cr (reg : Z) : option burn_func :=
  default None (zlookup [Some burn_write_cr0; None; Some burn_write_cr2; Some burn_write_cr3; Some burn_write_cr4] reg).
Definition some (m : MR Z) : MR (option Z) := p ← m; mret (Some p).
Definition patch_lltl (opstream newops : Z) : MR (option Z) :=
  modrm ← load8 (opstream + 2);
  suffixes ← load_bytes (opstream + 3) 6;
  p ← push_reg newops OP_REG_EAX;
  p ← movzx_modrm p OP_REG_EAX modrm suffixes;
  match zlookup [None; Some burn_str; Some burn_lldt; Some burn_ltr] (get_opcode modrm) with
  | Some (Some f) => p ← call_burn p f; some (pop_reg p OP_REG_EAX)
  | _ => mret None
  end.
Definition patch_ldtl (opstream newops : Z) : MR (option Z) :=
  modrm ← load8 (opstream + 2);
  suffixes ← load_bytes (opstream + 3) 6;
  p ← push_reg newops OP_REG_EAX;
  p ← lea_modrm p OP_REG_EAX modrm suffixes;
  match zlookup [Some burn_unimplemented; Some burn_unimplemented; Some burn_lgdt; Some burn_lidt;
      Some burn_unimplemented; None; Some burn_unimplemented; Some burn_invlpg] (get_opcode modrm) with
  | Some (Some f) => p ← call_burn p f; some (pop_reg p OP_REG_EAX)
  | _ => mret None
  end.
Definition patch_lss (opstream newops : Z) : MR Z :=
  modrm ← load8 (opstream + 2);
  suffixes ← load_bytes (opstream + 3) 6;
  p ← push_reg newops OP_REG_EAX;
  p ← lea_modrm p OP_REG_EAX modrm suffixes;
  p ← call_burn p burn_lss;
  p ← pop_reg p OP_REG_EAX;
  mov_from_modrm p OP_REG_ESP modrm suffixes.
Definition patch_fromdreg (opstream newops : Z) : MR Z :=
  modrm ← load8 (opstream + 2);
  massert (is_register_mode modrm);;
  p ← push_reg newops OP_REG_EAX;
  p ← push_byte p (get_reg modrm);
  p ← call_burn p burn_read_dr;
  p ← clean_stack p 4;
  pop_reg p (get_rm modrm).
Definition patch_tocreg (opstream newops : Z) : MR Z :=
  modrm ← load8 (opstream + 2);
  massert (is_register_mode modrm);;
  massert (bool_decide (get_reg modrm ≠ 1) && bool_decide (get_reg modrm ≤ 4));;
  p ← push_reg newops (get_rm modrm);
  f ← mof_option NullDeref (burn_write_cr (get_reg modrm));
  p ← call_burn p f;
  clean_stack p 4.
Definition patch_todreg (opstream newops : Z) : MR Z :=
  modrm ← load8 (opstream + 2);
  massert (is_register_mode modrm);;
  p ← push_reg newops (get_rm modrm);
  p ← push_byte p (get_reg modrm);
  p ← call_burn p burn_write_dr;
  clean_stack p 8.
Definition patch_2byte (opstream newops end_ : Z) : MR (option Z) :=
  op ← load8 (opstream + 1);
  let at_ (x : Z) := bool_decide (op = x) in
  if at_ OP_WBINVD then some (call_burn newops burn_wbinvd)
  else if at_ OP_INVD then some (call_burn newops burn_invd)
  else if at_ OP_UD2 then some (call_burn newops burn_ud2)
  else if at_ OP_PUSH_FS then some (unless_segments newops (and_remain (newops_pushfs newops) push_fs_remain end_))
  else if at_ OP_POP_FS then some (unless_segments newops (newops_popfs newops))
  else if at_ OP_PUSH_GS then some (unless_segments newops (and_remain (newops_pushgs newops) push_gs_remain end_))
  else if at_ OP_POP_GS then some (unless_segments newops (newops_popgs newops))
  else if at_ OP_CPUID then some (call_burn newops burn_cpuid)
  else if at_ OP_LSS then some (patch_lss opstream newops)
  else if at_ OP_MOV_FROMCREG then
    modrm ← load8 (opstream + 2); some (newops_movfromcreg newops modrm uninit_suffixes)
  else if at_ OP_MOV_FROMDREG then some (patch_fromdreg opstream newops)
  else if at_ OP_MOV_TOCREG then some (patch_tocreg opstream newops)
  else if at_ OP_MOV_TODREG then some (patch_todreg opstream newops)
  else if at_ OP_CLTS then some (call_burn newops burn_clts)
  else if at_ OP_LLTL then patch_lltl opstream newops
  else if at_ OP_LDTL then patch_ldtl opstream newops
  else if at_ OP_WRMSR then some (call_burn newops burn_wrmsr)
  else if at_ OP_RDMSR then some (call_burn newops burn_rdmsr)
  else mret None.

(** The cases of one byte behind the prefixes. *)
Definition patch_int (newops value : Z) : MR Z :=
  p ← push_word newops value;
  p ← call_burn p burn_int;
  emit p [0xeb; -12].
Definition patch_jmp_far (opstream newops : Z) : MR Z :=
  mmodify (rw_set_curr_virt_addr get_kernel_vaddr);;
  jmp_target ← load32 (opstream + 1);
  seg ← load_bytes (opstream + 5) 2;
  let segment := match seg with [b0; b1] => b0 + 2 ^ 8 * b1 | _ => 0 end in
  p ← push_word newops segment;
  p ← push_word p jmp_target;
  op_jmp p (addr_of burn_write_cs).
Definition patch_1byte (opstream newops end_ : Z) (pf : prefixes) (op : Z) : MR (option Z) :=
  let at_ (x : Z) := bool_decide (op = x) in
  if at_ OP_HLT then some (and_remain (call_burn newops burn_interruptible_hlt) hlt_remain end_)
  else if at_ OP_INT3 then store8 (end_ - 1) op;; store8 opstream OP_NOP1;; mret (Some newops)
  else if at_ OP_INT then value ← load8 (opstream + 1); some (patch_int newops value)
  else if at_ OP_IRET then some (and_remain (op_jmp newops (addr_of burn_iret)) iret_remain end_)
  else if at_ OP_LRET then some (op_jmp newops (addr_of burn_lret))
  else if at_ OP_JMP_FAR then some (patch_jmp_far opstream newops)
  else if at_ OP_OUT then
    value ← load8 (opstream + 1); some (port_imm newops value apply_port_out_patchup (λ p, push_width p pf) burn_out)
  else if at_ OP_OUT_DX then some (port_dx newops (λ p, push_width p pf) burn_out)
  else if at_ OP_OUTB then
    value ← load8 (opstream + 1); some (port_imm newops value apply_port_out_patchup byte_width burn_out)
  else if at_ OP_OUTB_DX then some (port_dx newops byte_width burn_out)
  else if at_ OP_OUTS_DX then some (port_string newops pf (λ p, push_width p pf) OP_REG_ESI burn_outs)
  else if at_ OP_OUTSB_DX then some (port_string newops pf byte_width OP_REG_ESI burn_outs)
  else if at_ OP_IN then
    value ← load8 (opstream + 1); some (port_imm newops value apply_port_in_patchup (λ p, push_width p pf) burn_in)
  else if at_ OP_IN_DX then some (port_dx newops (λ p, push_width p pf) burn_in)
  else if at_ OP_INB then
    value ← load8 (opstream + 1); some (port_imm newops value apply_port_in_patchup byte_width burn_in)
  else if at_ OP_INB_DX then some (port_dx newops byte_width burn_in)
  else if at_ OP_INS_DX then some (port_string newops pf (λ p, push_width p pf) OP_REG_EDI burn_ins)
  else if at_ OP_INSB_DX then some (port_string newops pf byte_width OP_REG_EDI burn_ins)
  else if at_ OP_PUSHF then some (and_remain (newops_pushf newops) pushf_remain end_)
  else if at_ OP_POPF then some (patch_popf newops end_)
  else if at_ OP_MOV_TOMEM32 then some (mov_tomem32 opstream newops end_ pf)
  else if at_ OP_MOV_FROMMEM32 then some (mov_frommem32 opstream newops end_ pf)
  else if at_ OP_MOV_TOSEGOFS then some (mov_tosegofs opstream newops end_ pf)
  else if at_ OP_MOV_FROMSEGOFS then some (mov_fromsegofs opstream newops end_ pf)
  else if at_ OP_MOV_TOSEG then
    some (unless_segments newops (
      modrm ← load8 (opstream + 1);
      suffixes ← load_bytes (opstream + 2) 6;
      and_remain (newops_mov_toseg opstream modrm suffixes) write_seg_remain end_))
  else if at_ OP_PUSH_CS then some (unless_segments newops (newops_pushcs newops))
  else if at_ OP_PUSH_SS then some (unless_segments newops (newops_pushss newops))
  else if at_ OP_POP_SS then some (unless_segments newops (newops_popss newops))
  else if at_ OP_PUSH_DS then some (unless_segments newops (and_remain (newops_pushds newops) push_ds_remain end_))
  else if at_ OP_POP_DS then some (unless_segments newops (and_remain (newops_popds newops) pop_ds_remain end_))
  else if at_ OP_PUSH_ES then some (unless_segments newops (and_remain (newops_pushes newops) push_es_remain end_))
  else if at_ OP_POP_ES then some (unless_segments newops (and_remain (newops_popes newops) pop_es_remain end_))
  else if at_ OP_MOV_FROMSEG then
    some (unless_segments newops (
      modrm ← load8 (opstream + 1);
      suffixes ← load_bytes (opstream + 2) 6;
      and_remain (newops_movfromseg newops modrm suffixes) read_seg_remain end_))
  else if at_ OP_CLI then some (and_remain (newops_cli newops) cli_remain end_)
  else if at_ OP_STI then some (patch_sti newops end_)
  else if at_ OP_2BYTE then patch_2byte opstream newops end_
  else mret None.

(** The loop over prefixes; a prefix becomes a no-op. The prefixes CS, SS, DS and ES leave
    the loop. *)
Fixpoint patch_loop (fuel : nat) (opstream newops end_ : Z) (pf : prefixes) : MR (option Z) :=
  match fuel with
  | O => mfault Diverged
  | S fuel =>
      op ← load8 opstream;
      let at_ (x : Z) := bool_decide (op = x) in
      if at_ prefix_lock then p ← emit newops [OP_NOP1]; patch_loop fuel (opstream + 1) p end_ pf
      else if at_ prefix_repne then
        debugger_enter;; p ← emit newops [OP_NOP1]; patch_loop fuel (opstream + 1) p end_ pf
      else if at_ prefix_rep then
        p ← emit newops [OP_NOP1];
        patch_loop fuel (opstream + 1) p end_ (mk_prefixes true (operand_size_prefix pf) (segment_prefix pf))
      else if at_ prefix_operand_size then
        p ← emit newops [OP_NOP1];
        patch_loop fuel (opstream + 1) p end_ (mk_prefixes (rep_prefix pf) true (segment_prefix pf))
      else if at_ prefix_address_size then p ← emit newops [OP_NOP1]; patch_loop fuel (opstream + 1) p end_ pf
      else if at_ prefix_cs || at_ prefix_ss || at_ prefix_ds || at_ prefix_es then some (emit newops [OP_NOP1])
      else if at_ prefix_fs || at_ prefix_gs then
        p ← emit newops [OP_NOP1];
        patch_loop fuel (opstream + 1) p end_ (mk_prefixes (rep_prefix pf) (operand_size_prefix pf) true)
      else patch_1byte opstream newops end_ pf op
  end.
(** The check at the end: did the new instructions fit? *)
Definition fits (r : option Z) (opstream_end : Z) : bool :=
  match r with None => false | Some newops => negb (bool_decide (newops > opstream_end)) end.
(** The loop over prefixes is not bounded by the block: it ends at the first byte that is not
    one of them, in the block or behind it. [fuel] bounds its rounds; it does not depend on
    the block. *)
Definition apply_patchup (fuel : nat) (opstream opstream_end : Z) : MR bool :=
  mmodify (rw_set_stack_offset 0);;
  r ← patch_loop fuel opstream opstream opstream_end (mk_prefixes false false false);
  mret (fits r opstream_end).

(** All entries of a table, up to the first failure. *)
Fixpoint apply_all (fuel : nat) (l : list (Z * Z)) (vaddr_offset : Z) : MR bool :=
  match l with
  | [] => mret true
  | (start, end_) :: l =>
      good ← apply_patchup fuel (start - vaddr_offset) (end_ - vaddr_offset);
      if (good : bool) then apply_all fuel l vaddr_offset else mret false
  end.
Definition arch_apply_patchups (fuel : nat) (patchups : list (Z * Z)) (vaddr_offset : Z) : MR bool :=
  init_patchup;; apply_all fuel patchups vaddr_offset.
(** The annotations give the beginning and the length of each block. *)
Definition vmi_apply_patchups (fuel : nat) (annotations : list (Z * Z)) (vaddr_offset : Z) : MR bool :=
  init_patchup;;
  apply_all fuel ((λ a, (a.1, a.1 + a.2)) <$> annotations) vaddr_offset.

(** ** Device accesses *)

(** The source to [EAX] and the address to [EDX]. *)
Definition source_and_target (newops modrm : Z) (suffixes : list Z) : MR Z :=
  if bool_decide (get_reg modrm = OP_REG_EAX) then lea_modrm newops OP_REG_EDX modrm suffixes
  else if bool_decide (get_reg modrm ≠ OP_REG_EDX) then
    p ← lea_modrm newops OP_REG_EDX modrm suffixes;
    mov_reg_to_reg p (get_reg modrm) OP_REG_EAX
  else if bool_decide (get_rm modrm = 0) then
    p ← mov_reg_to_reg newops OP_REG_EDX OP_REG_ECX;
    p ← lea_modrm p OP_REG_EDX modrm suffixes;
    mov_reg_to_reg p OP_REG_ECX OP_REG_EAX
  else
    p ← mov_reg_to_reg newops OP_REG_EDX OP_REG_EAX;
    lea_modrm p OP_REG_EDX modrm suffixes.
Definition push_eax_ecx_edx (newops : Z) : MR Z :=
  p ← push_reg newops OP_REG_EAX; p ← push_reg p OP_REG_ECX; push_reg p OP_REG_EDX.
Definition pop_edx_ecx_eax (newops : Z) : MR Z :=
  p ← pop_reg newops OP_REG_EDX; p ← pop_reg p OP_REG_ECX; pop_reg p OP_REG_EAX.
(** [0x09], [0x21], [0x89]: or, and, move of a register to the device. *)
Definition device_write (opstream newops func : Z) : MR Z :=
  modrm ← load8 (opstream + 1);
  suffixes ← load_bytes (opstream + 2) 6;
  p ← push_eax_ecx_edx newops;
  p ← source_and_target p modrm suffixes;
  massert (bool_decide (func ≠ 0));;
  p ← op_call p func;
  pop_edx_ecx_eax p.
Definition device_write_moffs (opstream newops func : Z) : MR Z :=
  suffixes ← load_bytes (opstream + 1) 6;
  p ← push_eax_ecx_edx newops;
  p ← set_reg p OP_REG_EDX (word32 suffixes);
  massert (bool_decide (func ≠ 0));;
  p ← op_call p func;
  pop_edx_ecx_eax p.
Definition device_read_moffs (newops func : Z) : MR Z :=
  addr ← load32 (newops + 1);
  p ← mov_imm32_to_reg newops addr OP_REG_EAX;
  p ← push_reg p OP_REG_ECX;
  p ← push_reg p OP_REG_EDX;
  massert (bool_decide (func ≠ 0));;
  p ← op_call p func;
  p ← pop_reg p OP_REG_EDX;
  pop_reg p OP_REG_ECX.
Definition push_unless (newops reg target : Z) : MR Z :=
  if bool_decide (target ≠ reg) then push_reg newops reg else mret newops.
(** The result in [EAX] to its register, the others restored. *)
Definition deliver_result (newops reg : Z) : MR Z :=
  p ← (if bool_decide (reg = OP_REG_EDX) then mov_reg_to_reg newops OP_REG_EAX OP_REG_EDX else pop_reg newops OP_REG_EDX);
  p ← (if bool_decide (reg = OP_REG_ECX) then mov_reg_to_reg p OP_REG_EAX OP_REG_ECX else pop_reg p OP_REG_ECX);
  p ← (if bool_decide (reg ≠ OP_REG_EAX) && bool_decide (reg ≠ OP_REG_ECX) && bool_decide (reg ≠ OP_REG_EDX)
       then mov_reg_to_reg p OP_REG_EAX reg else mret p);
  if bool_decide (reg ≠ OP_REG_EAX) then pop_reg p OP_REG_EAX else mret p.
Definition device_read (opstream newops func : Z) : MR Z :=
  modrm ← load8 (opstream + 1);
  suffixes ← load_bytes (opstream + 2) 6;
  p ← push_unless newops OP_REG_EAX (get_reg modrm);
  p ← push_unless p OP_REG_ECX (get_reg modrm);
  p ← push_unless p OP_REG_EDX (get_reg modrm);
  p ← lea_modrm p OP_REG_EAX modrm suffixes;
  massert (bool_decide (func ≠ 0));;
  p ← op_call p func;
  deliver_result p (get_reg modrm).
Definition device_xchg (opstream newops func : Z) : MR Z :=
  modrm ← load8 (opstream + 1);
  suffixes ← load_bytes (opstream + 2) 6;
  p ← push_unless newops OP_REG_EAX (get_reg modrm);
  p ← push_unless p OP_REG_ECX (get_reg modrm);
  p ← push_unless p OP_REG_EDX (get_reg modrm);
  p ← source_and_target p modrm suffixes;
  massert (bool_decide (func ≠ 0));;
  p ← op_call p func;
  deliver_result p (get_reg modrm).

(** The functions for one device; 0 is none. *)
Record device_funcs : Type := mk_funcs { read_func : Z; write_func : Z; xchg_func : Z; or_func : Z; and_func : Z }.
Definition patch_device (opstream newops : Z) (f : device_funcs) : MR (option Z) :=
  op ← load8 opstream;
  let at_ (x : Z) := bool_decide (op = x) in
  if at_ 0x09 then some (device_write opstream newops (or_func f))
  else if at_ 0x21 then some (device_write opstream newops (and_func f))
  else if at_ 0x89 then some (device_write opstream newops (write_func f))
  else if at_ 0xa3 then some (device_write_moffs opstream newops (write_func f))
  else if at_ 0xa1 then some (device_read_moffs newops (read_func f))
  else if at_ 0x8b then some (device_read opstream newops (read_func f))
  else if at_ 0x87 then some (device_xchg opstream newops (xchg_func f))
  else mret None.
Definition apply_device_patchup (opstream opstream_end : Z) (f : device_funcs) : MR bool :=
  mmodify (rw_set_stack_offset 0);;
  r ← patch_device opstream opstream f;
  mret (fits r opstream_end).
(** The results are not looked at. *)
Fixpoint arch_apply_device_patchups (patchups : list (Z * Z)) (vaddr_offset : Z) (f : device_funcs) : MR bool :=
  match patchups with
  | [] => mret true
  | (start, end_) :: l =>
      apply_device_patchup (start - vaddr_offset) (end_ - vaddr_offset) f;;
      arch_apply_device_patchups l vaddr_offset f
  end.

(** Test and clear of a bit in a page-table entry; the bit is in [EAX], and the old value of
    the bit is left there. *)
Definition bitop_clear (opstream newops clear_bit_func : Z) : MR Z :=
  modrm ← load8 (opstream + 1);
  suffixes ← load_bytes (opstream + 2) 6;
  massert (bool_decide (get_reg modrm = OP_REG_EAX));;
  p ← push_reg newops OP_REG_ECX;
  p ← push_reg p OP_REG_EDX;
  p ← lea_modrm p OP_REG_EDX modrm suffixes;
  massert (bool_decide (clear_bit_func ≠ 0));;
  p ← op_call p clear_bit_func;
  p ← pop_reg p OP_REG_EDX;
  pop_reg p OP_REG_ECX.
Definition patch_bitop (opstream newops clear_bit_func : Z) : MR (option Z) :=
  op ← load8 opstream;
  let opstream := if bool_decide (op = prefix_lock) then opstream + 1 else opstream in
  op ← load8 opstream;
  if bool_decide (op ≠ 0x0f) then mret None else
  let opstream := opstream + 1 in
  op ← load8 opstream;
  if bool_decide (op = 0xb3) then some (bitop_clear opstream newops clear_bit_func)
  else mret None.
Definition apply_bitop_patchup (opstream opstream_end clear_bit_func set_bit_func : Z) : MR bool :=
  massert (bool_decide (set_bit_func = 0));;
  mmodify (rw_set_stack_offset 0);;
  r ← patch_bitop opstream opstream clear_bit_func;
  mret (fits r opstream_end).
Fixpoint arch_apply_bitop_patchups (patchups : list (Z * Z)) (vaddr_offset clear_bit_func set_bit_func : Z) : MR bool :=
  match patchups with
  | [] => mret true
  | (start, end_) :: l =>
      apply_bitop_patchup (start - vaddr_offset) (end_ - vaddr_offset) clear_bit_func set_bit_func;;
      arch_apply_bitop_patchups l vaddr_offset clear_bit_func set_bit_func
  end.
End patch.
