(* ===== verification/Ia32.v ===== *)
(** * Instructions of the processor

    The reference for the code that the rewriter emits: a decoder for the instructions
    it uses, written from the encoding rules of the IA-32 architecture, and a machine
    that executes them. Words of memory are kept at their addresses; a call of the wedge
    is one step, given by a function [callee] that obeys the C calling conventions. *)

From Stdlib Require Import ZArith Lia.
From stdpp Require Import base list functions numbers.
From S2P Require Import Prelude Rewrite.

Inductive operand : Type :=
  | OReg (r : Z)
  | OMem (base : option Z) (index : option (Z * Z)) (disp : Z).
Inductive instr : Type :=
  | INop | IPushf | IPopf
  | IPush (r : Z) | IPop (r : Z) | IPushImm (v : Z) | IPushM (o : operand) | IPopM (o : operand)
  | IAddEsp (v : Z) | ICmp (o : operand) (v : Z) | IBts (o : operand) (b : Z) | IBtr (o : operand) (b : Z)
  | ILea (r : Z) (o : operand) | IMovzx (r : Z) (o : operand) | IMovImm (o : operand) (v : Z)
  | IMovTo (w16 : bool) (o : operand) (r : Z) | IMovFrom (w16 : bool) (r : Z) (o : operand)
  | ICall (target : Z) | IJmp (target : Z) | IJz (target : Z).

(** ** Decoding *)

(** A byte as a signed number, in 32 bits. *)
Definition sext8 (b : Z) : Z := if bool_decide (b < 128) then b else u32 (b - 256).

(** The register field, the operand and the number of bytes it takes. *)
Definition decode_sib (md sib : Z) (rest : list Z) : operand * nat :=
  let base := Z.land sib 7 in
  let idx := Z.land (Z.shiftr sib 3) 7 in
  let index := if bool_decide (idx = 4) then None else Some (idx, 2 ^ (Z.shiftr sib 6)) in
  if bool_decide (md = 0) then
    if bool_decide (base = 5) then (OMem None index (word32 rest), 6%nat) else (OMem (Some base) index 0, 2%nat)
  else if bool_decide (md = 1) then (OMem (Some base) index (sext8 (hd 0 rest)), 3%nat)
  else (OMem (Some base) index (word32 rest), 6%nat).
Definition decode_operand (bs : list Z) : option (Z * operand * nat) :=
  match bs with
  | [] => None
  | modrm :: rest =>
      let md := Z.shiftr modrm 6 in
      let reg := Z.land (Z.shiftr modrm 3) 7 in
      let rm := Z.land modrm 7 in
      let '(o, n) :=
        if bool_decide (md = 3) then (OReg rm, 1%nat)
        else if bool_decide (rm = 4) then decode_sib md (hd 0 rest) (tl rest)
        else if bool_decide (md = 0) then
          if bool_decide (rm = 5) then (OMem None None (word32 rest), 5%nat) else (OMem (Some rm) None 0, 1%nat)
        else if bool_decide (md = 1) then (OMem (Some rm) None (sext8 (hd 0 rest)), 2%nat)
        else (OMem (Some rm) None (word32 rest), 5%nat)
      in Some (reg, o, n)
  end.
(** An operation code followed by an operand. *)
Definition with_operand (bs : list Z) (k : nat) (f : Z → operand → option instr) : option (instr * nat) :=
  match decode_operand bs with
  | Some (reg, o, n) => match f reg o with Some i => Some (i, (k + n)%nat) | None => None end
  | None => None
  end.
(** ... and a byte or a word. *)
Definition with_operand_imm (bs : list Z) (k m : nat) (f : Z → operand → list Z → option instr) : option (instr * nat) :=
  match decode_operand bs with
  | Some (reg, o, n) => match f reg o (drop n bs) with Some i => Some (i, (k + n + m)%nat) | None => None end
  | None => None
  end.
Definition ext (reg n : Z) (i : instr) : option instr := if bool_decide (reg = n) then Some i else None.

Definition decode (ip : Z) (bs : list Z) : option (instr * nat) :=
  match bs with
  | [] => None
  | op :: rest =>
      let at_ (x : Z) := bool_decide (op = x) in
      if at_ 0x90 then Some (INop, 1%nat)
      else if at_ 0x9c then Some (IPushf, 1%nat)
      else if at_ 0x9d then Some (IPopf, 1%nat)
      else if bool_decide (0x50 ≤ op < 0x58) then Some (IPush (op - 0x50), 1%nat)
      else if bool_decide (0x58 ≤ op < 0x60) then Some (IPop (op - 0x58), 1%nat)
      else if at_ 0x6a then Some (IPushImm (sext8 (hd 0 rest)), 2%nat)
      else if at_ 0x68 then Some (IPushImm (word32 rest), 5%nat)
      else if bool_decide (0xb8 ≤ op < 0xc0) then Some (IMovImm (OReg (op - 0xb8)) (word32 rest), 5%nat)
      else if at_ 0xe8 then Some (ICall (u32 (ip + 5 + word32 rest)), 5%nat)
      else if at_ 0xe9 then Some (IJmp (u32 (ip + 5 + word32 rest)), 5%nat)
      else if at_ 0xeb then Some (IJmp (u32 (ip + 2 + sext8 (hd 0 rest))), 2%nat)
      else if at_ 0x74 then Some (IJz (u32 (ip + 2 + sext8 (hd 0 rest))), 2%nat)
      else if at_ 0x8d then with_operand rest 1 (λ reg o, Some (ILea reg o))
      else if at_ 0x89 then with_operand rest 1 (λ reg o, Some (IMovTo false o reg))
      else if at_ 0x8b then with_operand rest 1 (λ reg o, Some (IMovFrom false reg o))
      else if at_ 0x8f then with_operand rest 1 (λ reg o, ext reg 0 (IPopM o))
      else if at_ 0xff then with_operand rest 1 (λ reg o, ext reg 6 (IPushM o))
      else if at_ 0xc7 then with_operand_imm rest 1 4 (λ reg o l, ext reg 0 (IMovImm o (word32 l)))
      else if at_ 0x83 then
        with_operand_imm rest 1 1 (λ reg o l,
          if bool_decide (reg = 0) then match o with OReg 4 => Some (IAddEsp (sext8 (hd 0 l))) | _ => None end
          else ext reg 7 (ICmp o (sext8 (hd 0 l))))
      else if at_ 0x66 then
        match rest with
        | op2 :: rest =>
            if bool_decide (op2 = 0x89) then with_operand rest 2 (λ reg o, Some (IMovTo true o reg))
            else if bool_decide (op2 = 0x8b) then with_operand rest 2 (λ reg o, Some (IMovFrom true reg o))
            else None
        | [] => None
        end
      else if at_ 0x0f then
        match rest with
        | op2 :: rest =>
            if bool_decide (op2 = 0xb7) then with_operand rest 2 (λ reg o, Some (IMovzx reg o))
            else if bool_decide (op2 = 0xba) then
              with_operand_imm rest 2 1 (λ reg o l,
                if bool_decide (reg = 5) then Some (IBts o (hd 0 l)) else ext reg 6 (IBtr o (hd 0 l)))
            else None
        | [] => None
        end
      else None
  end.

(** [bs], at [ip], is the encoding of [i], whatever follows it. *)
Definition encodes (ip : Z) (bs : list Z) (i : instr) : Prop := ∀ rest, decode ip (bs ++ rest) = Some (i, length bs).
Inductive codes : Z → list Z → list instr → Prop :=
  | codes_nil ip : codes ip [] []
  | codes_cons ip b i bs l : encodes ip b i → codes (ip + length b) bs l → codes ip (b ++ bs) (i :: l).

Lemma codes_app ip bs l bs' l' : codes ip bs l → codes (ip + length bs) bs' l' → codes ip (bs ++ bs') (l ++ l').
Proof.
  induction 1 as [ip|ip b i bs l He Hc IH]; simpl; intros H'; [by rewrite Z.add_0_r in H'|].
  rewrite <- app_assoc. apply codes_cons; [done|]. apply IH. rewrite length_app in H'. by replace (ip + length b + length bs) with (ip + Z.of_nat (length b + length bs)) by lia.
Qed.
Lemma codes_one ip b i : encodes ip b i → codes ip b [i].
Proof. intros He. rewrite <- (app_nil_r b). apply codes_cons; [done|constructor]. Qed.
Lemma codes_snoc ip bs l b i : codes ip bs l → encodes (ip + length bs) b i → codes ip (bs ++ b) (l ++ [i]).
Proof. intros Hc He. apply codes_app; [done|]. by apply codes_one. Qed.

(** ** The machine *)

(** A call: where to, with which [EAX] and [EDX], and what it returned in [EAX]. *)
Record call_t : Type := mk_call { call_target : Z; call_eax : Z; call_edx : Z; call_result : Z }.
Record core_t : Type := mk_core {
  c_regs : Z → Z;
  c_stack : Z → Z;
  c_calls : list call_t
}.
Definition EAX := OP_REG_EAX.
Definition ECX := OP_REG_ECX.
Definition EDX := OP_REG_EDX.
Definition ESP := OP_REG_ESP.

(** The effective address of an operand in memory. *)
Definition ea (regs : Z → Z) (o : operand) : Z :=
  match o with
  | OReg _ => 0
  | OMem b x d =>
      u32 ((match b with Some r => regs r | None => 0 end) +
           (match x with Some (r, k) => regs r * k | None => 0 end) + d)
  end.

Section machine.
(** The code called: it gets the target and the registers and returns [EAX], [ECX], [EDX]
    and the stack; the other registers are as before. *)
Context (callee : Z → (Z → Z) → (Z → Z) → (Z * Z * Z) * (Z → Z)).

Definition set (r v : Z) (c : core_t) : core_t := mk_core (<[r := v]> (c_regs c)) (c_stack c) (c_calls c).
Definition push (v : Z) (c : core_t) : core_t :=
  let sp := u32 (c_regs c ESP - 4) in mk_core (<[ESP := sp]> (c_regs c)) (<[sp := v]> (c_stack c)) (c_calls c).
Definition exec (i : instr) (c : core_t) : option core_t :=
  match i with
  | INop => Some c
  | IPush r => Some (push (c_regs c r) c)
  | IPushImm v => Some (push v c)
  | IPop r => Some (set r (c_stack c (c_regs c ESP)) (set ESP (u32 (c_regs c ESP + 4)) c))
  | IAddEsp v => Some (set ESP (u32 (c_regs c ESP + v)) c)
  | ILea r (OMem b x d) => Some (set r (ea (c_regs c) (OMem b x d)) c)
  | IMovTo false (OReg d) r => Some (set d (c_regs c r) c)
  | IMovImm (OReg r) v => Some (set r v c)
  | ICall t =>
      let '((a, cx, dx), stk) := callee t (c_regs c) (c_stack c) in
      Some (mk_core (<[EAX := a]> (<[ECX := cx]> (<[EDX := dx]> (c_regs c)))) stk
        (c_calls c ++ [mk_call t (c_regs c EAX) (c_regs c EDX) a]))
  | _ => None
  end.
Fixpoint exec_all (l : list instr) (c : core_t) : option core_t :=
  match l with [] => Some c | i :: l => c ← exec i c; exec_all l c end.

(** Fetch, decode, execute, with the code at address [p] of [code] running at [p + v]. No
    instruction takes more than 16 bytes. *)
Definition fetch (code : Z → Z) (p : Z) : list Z := code <$> (Z.add p ∘ Z.of_nat <$> seq 0 16).
Definition step (code : Z → Z) (v : Z) (st : Z * core_t) : option (Z * core_t) :=
  '(i, n) ← decode st.1 (fetch code (st.1 - v));
  c ← exec i st.2;
  Some (st.1 + Z.of_nat n, c).
Fixpoint steps (n : nat) (code : Z → Z) (v : Z) (st : Z * core_t) : option (Z * core_t) :=
  match n with O => Some st | S n => st ← step code v st; steps n code v st end.
End machine.

(** *** Running the code of a block *)

Lemma decode_operand_length bs reg o n : decode_operand bs = Some (reg, o, n) → (n ≤ 6)%nat.
Proof.
  unfold decode_operand, decode_sib. destruct bs; [done|].
  repeat case_match; intros; simplify_eq; lia.
Qed.
Lemma with_operand_length bs k f i n : with_operand bs k f = Some (i, n) → (n ≤ k + 6)%nat.
Proof.
  unfold with_operand. destruct (decode_operand bs) as [[[r o] m]|] eqn:Hd; [|done]. apply decode_operand_length in Hd.
  case_match; intros; simplify_eq. lia.
Qed.
Lemma with_operand_imm_length bs k m f i n : with_operand_imm bs k m f = Some (i, n) → (n ≤ k + 6 + m)%nat.
Proof.
  unfold with_operand_imm. destruct (decode_operand bs) as [[[r o] j]|] eqn:Hd; [|done]. apply decode_operand_length in Hd.
  case_match; intros; simplify_eq. lia.
Qed.
Lemma decode_length ip bs i n : decode ip bs = Some (i, n) → (n ≤ 16)%nat.
Proof.
  unfold decode. cbv zeta. intros Hd.
  repeat (case_match; try done); simplify_eq; try lia;
    first [apply with_operand_length in Hd | apply with_operand_imm_length in Hd]; lia.
Qed.

#[local] Arguments fetch : simpl never.
#[local] Arguments decode : simpl never.
Lemma fetch_bytes code p bs (b rest : list Z) :
  bs = b ++ rest → (length b ≤ 16)%nat → (∀ i x, bs !! i = Some x → code (p + Z.of_nat i) = x) → ∃ r, fetch code p = b ++ r.
Proof.
  intros -> Hlen Hc. exists (drop (length b) (fetch code p)). rewrite <- (take_drop (length b) (fetch code p)) at 1. f_equal.
  apply list_eq. intros i. destruct (decide (i < length b)%nat) as [Hi|Hi].
  - rewrite lookup_take_lt by done. unfold fetch. rewrite !list_lookup_fmap, lookup_seq_lt by lia. simpl.
    destruct (lookup_lt_is_Some_2 b i Hi) as [x Hx]. rewrite Hx. f_equal. apply Hc. by apply lookup_app_l_Some.
  - rewrite lookup_take_ge by lia. symmetry. apply lookup_ge_None. lia.
Qed.
(** A block that holds the code of [l] executes [l]. *)
Lemma steps_codes callee code v ip bs l c c' :
  codes ip bs l → (∀ i x, bs !! i = Some x → code (ip - v + Z.of_nat i) = x) → exec_all callee l c = Some c' →
  steps callee (length l) code v (ip, c) = Some (ip + length bs, c').
Proof.
  intros Hc. revert c. induction Hc as [ip|ip b i bs l He Hc IH]; intros c Hcode Hex; simpl in *.
  - injection Hex as ->. by rewrite Z.add_0_r.
  - unfold step. simpl. pose proof (He []) as Hlen. apply decode_length in Hlen.
    destruct (fetch_bytes code (ip - v) (b ++ bs) b bs eq_refl Hlen Hcode) as [r Hf]. rewrite Hf, He. simpl.
    destruct (exec callee i c) as [c1|]; [|done]. simpl in *. rewrite IH; [f_equal; f_equal; rewrite length_app; lia| |done].
    intros j x Hj. replace (ip + length b - v + j) with (ip - v + Z.of_nat (length b + j)) by lia. apply Hcode.
    rewrite lookup_app_r by lia. by replace (length b + j - length b)%nat with j by lia.
Qed.
