(* ===== verification/RewriteSpec.v ===== *)
(** * What the rewriter leaves in a block

    The emitters of Rewrite.v produce encodings of the decoder of Ia32.v. For every
    instruction that can be patched, and for every build option, a block that is patched
    successfully holds a sequence of instructions whose calls and jumps go to functions
    of the wedge or stay in the block ([patched]). *)

From Stdlib Require Import ZArith Lia.
From stdpp Require Import base list functions numbers.
From S2P Require Import Prelude Rewrite Ia32.

(** ** Bytes and fields *)

Definition is_byte (b : Z) : Prop := 0 ≤ b < 256.
Lemma u8_byte b : is_byte b → u8 b = b.
Proof. intros H. apply wrap_small. exact H. Qed.
Lemma u8_is_byte b : is_byte (u8 b).
Proof. apply (wrap_range 8). lia. Qed.

Lemma word32_bytes32 v l : word32 (bytes32 v ++ l) = u32 v.
Proof.
  unfold bytes32, word32, wrap. simpl. rewrite !Z.shiftr_div_pow2 by lia.
  pose proof (Z.div_mod v (2 ^ 8)). pose proof (Z.div_mod (v / 2 ^ 8) (2 ^ 8)). pose proof (Z.div_mod (v / 2 ^ 16) (2 ^ 8)).
  rewrite !Z.div_div in * by lia. change (2 ^ 8 * 2 ^ 8) with (2 ^ 16) in *. change (2 ^ 16 * 2 ^ 8) with (2 ^ 24) in *.
  pose proof (Z.div_mod (v / 2 ^ 24) (2 ^ 8)). rewrite Z.div_div in * by lia. change (2 ^ 24 * 2 ^ 8) with (2 ^ 32) in *.
  pose proof (Z.div_mod v (2 ^ 32)). lia.
Qed.
Lemma length_bytes32 v : length (bytes32 v) = 4%nat.
Proof. done. Qed.
Lemma u8_bytes32 v : u8 <$> bytes32 v = bytes32 v.
Proof. unfold bytes32. simpl. rewrite !(u8_byte (u8 _)) by apply u8_is_byte. done. Qed.

Lemma land7 x : Z.land x 7 = x `mod` 8.
Proof. change 7 with (Z.ones 3). by rewrite Z.land_ones. Qed.
Lemma land3 x : Z.land x 3 = x `mod` 4.
Proof. change 3 with (Z.ones 2). by rewrite Z.land_ones. Qed.
Lemma get_reg_range m : 0 ≤ get_reg m < 8.
Proof. unfold get_reg. rewrite land7. apply Z.mod_pos_bound. lia. Qed.
Lemma get_rm_range m : 0 ≤ get_rm m < 8.
Proof. unfold get_rm. rewrite land7. apply Z.mod_pos_bound. lia. Qed.
Lemma get_mode_range m : is_byte m → 0 ≤ get_mode m < 4.
Proof. unfold is_byte, get_mode. rewrite Z.shiftr_div_pow2 by lia. change (2 ^ 6) with 64. intros. split; [apply Z.div_pos|apply Z.div_lt_upper_bound]; lia. Qed.
Lemma mk_modrm_byte a b c : is_byte (mk_modrm a b c).
Proof.
  unfold is_byte, mk_modrm. rewrite land3, !land7.
  pose proof (Z.mod_pos_bound a 4). pose proof (Z.mod_pos_bound b 8). pose proof (Z.mod_pos_bound c 8). lia.
Qed.
Lemma mk_modrm_fields a b c :
  0 ≤ a < 4 → 0 ≤ b < 8 → 0 ≤ c < 8 →
  get_mode (mk_modrm a b c) = a ∧ get_reg (mk_modrm a b c) = b ∧ get_rm (mk_modrm a b c) = c.
Proof.
  intros Ha Hb Hc. unfold get_mode, get_reg, get_rm, mk_modrm. rewrite land3, !land7, !Z.shiftr_div_pow2 by lia.
  rewrite !(Z.mod_small a), !(Z.mod_small b), !(Z.mod_small c) by lia. change (2 ^ 6) with 64. change (2 ^ 3) with 8.
  split_and!.
  - symmetry. apply (Z.div_unique _ _ _ (b * 8 + c)); lia.
  - replace ((a * 64 + b * 8 + c) / 8) with (a * 8 + b) by (apply (Z.div_unique _ _ _ c); lia).
    symmetry. apply (Z.mod_unique _ _ a); lia.
  - symmetry. apply (Z.mod_unique _ _ (a * 8 + b)); lia.
Qed.
Lemma with_reg_fields m r :
  is_byte m → 0 ≤ r < 8 → get_mode (with_reg m r) = get_mode m ∧ get_reg (with_reg m r) = r ∧ get_rm (with_reg m r) = get_rm m.
Proof. intros Hm Hr. apply mk_modrm_fields; [by apply get_mode_range|done|apply get_rm_range]. Qed.
Lemma with_mod_fields m a :
  0 ≤ a < 4 → get_mode (with_mod m a) = a ∧ get_reg (with_mod m a) = get_reg m ∧ get_rm (with_mod m a) = get_rm m.
Proof. intros Ha. apply mk_modrm_fields; [done|apply get_reg_range|apply get_rm_range]. Qed.

(** ** Operands *)

(** The operand byte and the bytes behind it that [append_modrm] leaves. *)
Definition emitted_operand (so modrm : Z) (suffixes : list Z) : Z * list Z :=
  if bool_decide (get_mode modrm = mode_reg) then (modrm, []) else
  let sib := hd 0 suffixes in
  let esp := bool_decide (get_rm modrm = 4) && bool_decide (get_base sib = base_esp) in
  let pre := if bool_decide (get_rm modrm = 4) then [sib] else [] in
  let sfx := if bool_decide (get_rm modrm = 4) then tl suffixes else suffixes in
  let disp32 := bytes32 (u32 (word32 sfx + (if esp then so else 0))) in
  if bool_decide (get_mode modrm = mode_indirect) then
    if bool_decide (get_rm modrm = 5) then (modrm, disp32)
    else if bool_decide (get_rm modrm = 4) && is_no_base sib then (modrm, pre ++ disp32)
    else if esp then (with_mod modrm mode_indirect_disp8, pre ++ [u8 so])
    else (modrm, pre)
  else if bool_decide (get_mode modrm = mode_indirect_disp8) then
    (modrm, pre ++ [u8 (hd 0 sfx + (if esp then so else 0))])
  else (modrm, pre ++ disp32).
Definition operand_at (bs : list Z) : operand := match decode_operand bs with Some (_, o, _) => o | None => OReg 0 end.
Definition adjusted (so modrm : Z) (suffixes : list Z) : operand :=
  operand_at ((emitted_operand so modrm suffixes).1 :: (emitted_operand so modrm suffixes).2).

(** The emitted bytes decode to one operand, whatever follows. *)

(** The decoder on the fields of the operand byte. *)
Definition operand_of (md rm : Z) (rest : list Z) : operand * nat :=
  if bool_decide (md = 3) then (OReg rm, 1%nat)
  else if bool_decide (rm = 4) then decode_sib md (hd 0 rest) (tl rest)
  else if bool_decide (md = 0) then
    if bool_decide (rm = 5) then (OMem None None (word32 rest), 5%nat) else (OMem (Some rm) None 0, 1%nat)
  else if bool_decide (md = 1) then (OMem (Some rm) None (sext8 (hd 0 rest)), 2%nat)
  else (OMem (Some rm) None (word32 rest), 5%nat).
Lemma decode_operand_fields m rest :
  decode_operand (m :: rest) =
    Some (get_reg m, (operand_of (get_mode m) (get_rm m) rest).1, (operand_of (get_mode m) (get_rm m) rest).2).
Proof.
  change (decode_operand (m :: rest)) with
    (let '(o, n) := operand_of (get_mode m) (get_rm m) rest in Some (get_reg m, o, n)).
  by destruct (operand_of _ _ _).
Qed.
Lemma emitted_modrm so modrm suffixes :
  get_reg (emitted_operand so modrm suffixes).1 = get_reg modrm ∧ get_rm (emitted_operand so modrm suffixes).1 = get_rm modrm.
Proof.
  destruct (with_mod_fields modrm mode_indirect_disp8) as (F1 & F2 & F3); [done|].
  unfold emitted_operand. repeat (case_bool_decide || case_match); simpl; auto.
Qed.
(** The emitted bytes decode to one operand, whatever follows. *)
Lemma decode_emitted so modrm suffixes rest m bs :
  is_byte modrm → emitted_operand so modrm suffixes = (m, bs) →
  decode_operand (m :: bs ++ rest) = Some (get_reg modrm, adjusted so modrm suffixes, S (length bs)).
Proof.
  intros Hm He. pose proof (get_mode_range modrm Hm) as Hr.
  pose proof (emitted_modrm so modrm suffixes) as [E1 E2]. rewrite He in E1, E2. simpl in E1, E2.
  unfold adjusted, operand_at. rewrite He. cbn [fst snd]. rewrite !decode_operand_fields, E1, E2.
  enough (operand_of (get_mode m) (get_rm modrm) (bs ++ rest) = ((operand_of (get_mode m) (get_rm modrm) bs).1, S (length bs))) as ->; [done|].
  destruct (with_mod_fields modrm mode_indirect_disp8) as (F1 & _ & _); [done|].
  unfold emitted_operand, is_no_base, get_base, base_none_ebp, base_esp in He. unfold mode_reg, mode_indirect, mode_indirect_disp8 in *.
  assert (get_mode modrm = 0 ∨ get_mode modrm = 1 ∨ get_mode modrm = 2 ∨ get_mode modrm = 3) as Hmd by lia.
  unfold operand_of, decode_sib.
  destruct_or? Hmd; rewrite Hmd in He; simpl in He;
    repeat (case_bool_decide || case_match); simplify_eq; try rewrite F1 in *; try rewrite Hmd in *; simpl in *; try done; try lia.
Qed.

(** ** Emission *)

(** Memory with [bs] written at [p]. *)
Definition wr (p : Z) (bs : list Z) (m : Z → Z) (a : Z) : Z :=
  if decide (p ≤ a < p + length bs) then nth (Z.to_nat (a - p)) bs 0 else m a.
Lemma wr_nil p m a : wr p [] m a = m a.
Proof. unfold wr. rewrite decide_False; [done|]. simpl. lia. Qed.
Lemma wr_app p bs bs' m a : wr (p + length bs) bs' (wr p bs m) a = wr p (bs ++ bs') m a.
Proof.
  unfold wr. rewrite length_app. repeat case_decide; try lia; try done.
  - rewrite app_nth2 by lia. f_equal. lia.
  - rewrite app_nth1 by lia. done.
Qed.
Lemma wr_ext p bs m m' : (∀ a, m a = m' a) → ∀ a, wr p bs m a = wr p bs m' a.
Proof. intros H a. unfold wr. by rewrite H. Qed.
Lemma wr_cons p b bs m a : wr p (b :: bs) m a = wr (p + 1) bs (<[p := b]> m) a.
Proof.
  change (b :: bs) with ([b] ++ bs). rewrite <- wr_app. apply wr_ext. intros a'. unfold wr. simpl.
  destruct (decide (p = a')) as [->|].
  - rewrite fn_lookup_insert, decide_True by lia. by replace (a' - a') with 0 by lia.
  - rewrite fn_lookup_insert_ne by done. rewrite decide_False by lia. done.
Qed.
Lemma wr_below p bs m a : a < p → wr p bs m a = m a.
Proof. intros. unfold wr. rewrite decide_False; [done|lia]. Qed.
(** Replacing one of the bytes. *)
Lemma wr_replace p bs m (i : nat) b a :
  (i < length bs)%nat → (<[p + i := b]> (wr p bs m)) a = wr p (<[i := b]> bs) m a.
Proof.
  intros Hi. destruct (decide (a = p + i)) as [->|Hne].
  - rewrite fn_lookup_insert. unfold wr. rewrite length_insert, decide_True by lia.
    replace (Z.to_nat (p + i - p)) with i by lia.
    symmetry. apply nth_lookup_Some. by apply list_lookup_insert_eq.
  - rewrite fn_lookup_insert_ne by done. unfold wr. rewrite length_insert. case_decide; [|done].
    rewrite !nth_lookup, list_lookup_insert_ne by lia. done.
Qed.

Lemma emit_wp F bs : ∀ p Q s,
  (∀ m, (∀ a, m a = wr p (u8 <$> bs) (rw_mem s) a) → Q (p + length bs) (rw_set_mem m s)) → wp F (emit p bs) Q s.
Proof.
  induction bs as [|b bs IH]; intros p Q s HQ; simpl.
  - wp_step. replace p with (p + length (@nil Z)) at 1 by (simpl; lia).
    destruct s. apply HQ. intros a. by rewrite wr_nil.
  - unfold store8. wp_step. wp_step. apply IH. simpl. intros m Hm.
    replace (p + 1 + length bs) with (p + Z.of_nat (S (length bs))) by lia. apply HQ.
    intros a. rewrite Hm, fmap_cons, wr_cons. done.
Qed.

(** *** Encodings *)

Lemma u32_add_u32 a b : u32 (a + u32 b) = u32 (a + b).
Proof. unfold wrap. by rewrite Z.add_mod_idemp_r. Qed.
Lemma small8 r : 0 ≤ r < 8 → r = 0 ∨ r = 1 ∨ r = 2 ∨ r = 3 ∨ r = 4 ∨ r = 5 ∨ r = 6 ∨ r = 7.
Proof. lia. Qed.
Ltac each_reg H := apply small8 in H; destruct_or? H; subst.

Lemma enc_nop ip : encodes ip (u8 <$> [OP_NOP1]) INop.
Proof. by intros rest. Qed.
Lemma enc_pushf ip : encodes ip (u8 <$> [OP_PUSHF]) IPushf.
Proof. by intros rest. Qed.
Lemma enc_popf ip : encodes ip (u8 <$> [OP_POPF]) IPopf.
Proof. by intros rest. Qed.
Lemma enc_push_reg ip r : 0 ≤ r < 8 → encodes ip (u8 <$> [OP_PUSH_REG + r]) (IPush r).
Proof. intros Hr rest. each_reg Hr; reflexivity. Qed.
Lemma enc_pop_reg ip r : 0 ≤ r < 8 → encodes ip (u8 <$> [OP_POP_REG + r]) (IPop r).
Proof. intros Hr rest. each_reg Hr; reflexivity. Qed.
Lemma enc_push_byte ip b : encodes ip (u8 <$> [OP_PUSH_IMM8; b]) (IPushImm (sext8 (u8 b))).
Proof. by intros rest. Qed.
Lemma enc_push_word ip v : encodes ip (u8 <$> (OP_PUSH_IMM32 :: bytes32 v)) (IPushImm (u32 v)).
Proof. intros rest. rewrite fmap_cons, u8_bytes32, <- (word32_bytes32 v rest). reflexivity. Qed.
Lemma enc_set_reg ip r v : 0 ≤ r < 8 → encodes ip (u8 <$> ((OP_MOV_IMM32 + r) :: bytes32 v)) (IMovImm (OReg r) (u32 v)).
Proof. intros Hr rest. rewrite fmap_cons, u8_bytes32, <- (word32_bytes32 v rest). each_reg Hr; reflexivity. Qed.
Lemma enc_call ip func : encodes ip (u8 <$> (OP_CALL_REL32 :: bytes32 (func - (ip + 5)))) (ICall (u32 func)).
Proof.
  intros rest. rewrite fmap_cons, u8_bytes32.
  replace (u32 func) with (u32 (ip + 5 + word32 (bytes32 (func - (ip + 5)) ++ rest))); [reflexivity|].
  rewrite word32_bytes32, u32_add_u32. f_equal. lia.
Qed.
Lemma enc_jmp ip func : encodes ip (u8 <$> (OP_JMP_REL32 :: bytes32 (func - (ip + 5)))) (IJmp (u32 func)).
Proof.
  intros rest. rewrite fmap_cons, u8_bytes32.
  replace (u32 func) with (u32 (ip + 5 + word32 (bytes32 (func - (ip + 5)) ++ rest))); [reflexivity|].
  rewrite word32_bytes32, u32_add_u32. f_equal. lia.
Qed.
Lemma enc_jmp8 ip d : encodes ip (u8 <$> [0xeb; d]) (IJmp (u32 (ip + 2 + sext8 (u8 d)))).
Proof. by intros rest. Qed.
Lemma enc_jz ip d : encodes ip (u8 <$> [OP_JMP_NEAR_ZERO; d]) (IJz (u32 (ip + 2 + sext8 (u8 d)))).
Proof. by intros rest. Qed.
Lemma enc_add_esp ip b : encodes ip (u8 <$> [0x83; mk_modrm mode_reg 0 4; b]) (IAddEsp (sext8 (u8 b))).
Proof. by intros rest. Qed.
Lemma enc_mov_rr ip s d : 0 ≤ s < 8 → 0 ≤ d < 8 → encodes ip (u8 <$> [0x89; mk_modrm mode_reg s d]) (IMovTo false (OReg d) s).
Proof. intros Hs Hd rest. each_reg Hs; each_reg Hd; reflexivity. Qed.
Lemma enc_mov_imm ip v : encodes ip (u8 <$> ([0xc7; mk_modrm mode_reg 0 0] ++ bytes32 v)) (IMovImm (OReg 0) (u32 v)).
Proof. intros rest. rewrite fmap_app, u8_bytes32, <- (word32_bytes32 v rest). reflexivity. Qed.

(** Operands that are an address in place. *)
Definition at_address (a : Z) : operand := OMem None None (u32 a).
Lemma enc_push_mem ip a : encodes ip (u8 <$> ([0xff; mk_modrm mode_indirect 6 5] ++ bytes32 a)) (IPushM (at_address a)).
Proof. intros rest. rewrite fmap_app, u8_bytes32. unfold at_address. rewrite <- (word32_bytes32 a rest). reflexivity. Qed.
Lemma enc_pop_mem ip a : encodes ip (u8 <$> ([0x8f; mk_modrm mode_indirect 0 5] ++ bytes32 a)) (IPopM (at_address a)).
Proof. intros rest. rewrite fmap_app, u8_bytes32. unfold at_address. rewrite <- (word32_bytes32 a rest). reflexivity. Qed.
Lemma enc_mov_mem_reg ip a r : 0 ≤ r < 8 →
  encodes ip (u8 <$> ([0x8b; mk_modrm mode_indirect r 5] ++ bytes32 a)) (IMovFrom false r (at_address a)).
Proof. intros Hr rest. rewrite fmap_app, u8_bytes32. unfold at_address. rewrite <- (word32_bytes32 a rest). each_reg Hr; reflexivity. Qed.
Lemma enc_mov_reg_mem ip a r : 0 ≤ r < 8 →
  encodes ip (u8 <$> ([0x89; mk_modrm mode_indirect r 5] ++ bytes32 a)) (IMovTo false (at_address a) r).
Proof. intros Hr rest. rewrite fmap_app, u8_bytes32. unfold at_address. rewrite <- (word32_bytes32 a rest). each_reg Hr; reflexivity. Qed.
Lemma enc_bts ip a b : encodes ip (u8 <$> ([0x0f; 0xba; mk_modrm mode_indirect 5 5] ++ bytes32 a ++ [b])) (IBts (at_address a) (u8 b)).
Proof. intros rest. rewrite !fmap_app, u8_bytes32. unfold at_address. rewrite <- (word32_bytes32 a (u8 b :: rest)). reflexivity. Qed.
Lemma enc_btr ip a b : encodes ip (u8 <$> ([0x0f; 0xba; mk_modrm mode_indirect 6 5] ++ bytes32 a ++ [b])) (IBtr (at_address a) (u8 b)).
Proof. intros rest. rewrite !fmap_app, u8_bytes32. unfold at_address. rewrite <- (word32_bytes32 a (u8 b :: rest)). reflexivity. Qed.
Lemma enc_cmp ip a b : encodes ip (u8 <$> ([0x83; mk_modrm mode_indirect 7 5] ++ bytes32 a ++ [b])) (ICmp (at_address a) (sext8 (u8 b))).
Proof. intros rest. rewrite !fmap_app, u8_bytes32. unfold at_address. rewrite <- (word32_bytes32 a (u8 b :: rest)). reflexivity. Qed.

(** Instructions with an operand taken from the guest. *)
Inductive operand_code : list Z → (Z → operand → instr) → Prop :=
  | oc_lea : operand_code [0x8d] ILea
  | oc_movzx : operand_code [0x0f; 0xb7] IMovzx
  | oc_mov_to : operand_code [0x89] (λ r o, IMovTo false o r)
  | oc_mov_from : operand_code [0x8b] (λ r o, IMovFrom false r o)
  | oc_mov_to16 : operand_code [0x66; 0x89] (λ r o, IMovTo true o r)
  | oc_mov_from16 : operand_code [0x66; 0x8b] (λ r o, IMovFrom true r o).
Lemma enc_operand ip op f so modrm suffixes m bs :
  operand_code op f → is_byte modrm → emitted_operand so modrm suffixes = (m, bs) →
  encodes ip (op ++ m :: bs) (f (get_reg modrm) (adjusted so modrm suffixes)).
Proof.
  intros Hop Hm He rest. pose proof (decode_emitted so modrm suffixes rest m bs Hm He) as Hd.
  assert (∀ k g, with_operand (m :: bs ++ rest) k g = match g (get_reg modrm) (adjusted so modrm suffixes) with
    Some i => Some (i, (k + S (length bs))%nat) | None => None end) as Hw.
  { intros k g. unfold with_operand. by rewrite Hd. }
  destruct Hop; simpl; rewrite ?Hw; done.
Qed.
Lemma enc_push_pop_operand ip so modrm suffixes m bs :
  is_byte modrm → emitted_operand so modrm suffixes = (m, bs) →
  (get_reg modrm = 6 → encodes ip (0xff :: m :: bs) (IPushM (adjusted so modrm suffixes))) ∧
  (get_reg modrm = 0 → encodes ip (0x8f :: m :: bs) (IPopM (adjusted so modrm suffixes))).
Proof.
  intros Hm He. split; intros Hr rest; pose proof (decode_emitted so modrm suffixes rest m bs Hm He) as Hd;
    (assert (∀ k g, with_operand (m :: bs ++ rest) k g = match g (get_reg modrm) (adjusted so modrm suffixes) with
      Some i => Some (i, (k + S (length bs))%nat) | None => None end) as Hw by (intros k g; unfold with_operand; by rewrite Hd));
    simpl; rewrite Hw, Hr; done.
Qed.

Lemma u8_all bs : Forall is_byte (u8 <$> bs).
Proof. apply Forall_fmap, Forall_true. intros b. apply u8_is_byte. Qed.
Lemma u8_bytes bs : Forall is_byte bs → u8 <$> bs = bs.
Proof. induction 1 as [|b bs Hb _ IH]; [done|]. by rewrite fmap_cons, IH, (u8_byte b). Qed.
(** The bytes of an operand behind the one at [p - 1]. *)
Lemma emit_more F m0 q pre bs p Q s :
  (∀ a, rw_mem s a = wr q pre m0 a) → p = q + length pre → Forall is_byte bs →
  (∀ m', (∀ a, m' a = wr q (pre ++ bs) m0 a) → Q (p + length bs) (rw_set_mem m' s)) → wp F (emit p bs) Q s.
Proof.
  intros Hmem -> Hbs HQ. apply emit_wp. intros m' Hm'. apply HQ. intros a. rewrite (u8_bytes bs Hbs) in Hm'.
  rewrite Hm', <- wr_app. by apply wr_ext.
Qed.
Lemma bytes32_bytes v : Forall is_byte (bytes32 v).
Proof. unfold bytes32. repeat constructor; apply u8_is_byte. Qed.
Lemma bytes2 a b : is_byte a → is_byte b → Forall is_byte [a; b].
Proof. intros. constructor; [done|]. by apply Forall_singleton. Qed.
Lemma hd_byte l : Forall is_byte l → is_byte (hd 0 l).
Proof. destruct 1; done. Qed.
Lemma tl_bytes l : Forall is_byte l → Forall is_byte (tl l).
Proof. by destruct 1. Qed.

(** The displacement behind the operand bytes [pre]. *)
Lemma append_disp F m0 q p pre modrm sfx (x : Z) Q s bs :
  (∀ a, rw_mem s a = wr q pre m0 a) → p = q + length pre →
  bs = (if bool_decide (get_mode modrm = mode_indirect_disp8) then [u8 (hd 0 sfx + x)] else bytes32 (u32 (word32 sfx + x))) →
  (∀ m', (∀ a, m' a = wr q (pre ++ bs) m0 a) → Q (p + length bs) (rw_set_mem m' s)) →
  wp F (if bool_decide (get_mode modrm = mode_indirect_disp8)
        then emit p [hd 0 sfx + x] else emit p (bytes32 (u32 (word32 sfx + x)))) Q s.
Proof.
  intros Hmem Hp -> HQ. case_bool_decide.
  - apply emit_wp. intros m' Hm'. apply HQ. intros a. rewrite Hm', Hp, <- wr_app. by apply wr_ext.
  - eapply (emit_more _ m0 q pre); [done..|apply bytes32_bytes|]. auto.
Qed.
Lemma append_wp F m0 q p pre modrm sfx m bs Q s :
  is_byte modrm → Forall is_byte sfx → (∀ a, rw_mem s a = wr q (pre ++ [modrm]) m0 a) → p = q + length pre + 1 →
  emitted_operand (rw_stack_offset s) modrm sfx = (m, bs) →
  (∀ m', (∀ a, m' a = wr q (pre ++ m :: bs) m0 a) → Q (p + length bs) (rw_set_mem m' s)) →
  wp F (append_modrm p modrm sfx) Q s.
Proof.
  intros Hm Hsfx Hmem Hp He HQ. unfold append_modrm. unfold emitted_operand in He.
  case_bool_decide as Hreg.
  { simplify_eq. wp_step. replace (q + length pre + 1) with (q + length pre + 1 + length (@nil Z)) at 1 by (simpl; lia). destruct s. by apply HQ. }
  destruct (bool_decide (get_rm modrm = 4)) eqn:Hrm; cbn [andb] in He |- *.
  - apply bool_decide_eq_true in Hrm.
    wp_step. eapply (emit_more _ m0 q (pre ++ [modrm])); [done|rewrite length_app; simpl; lia|repeat constructor; by apply hd_byte..|].
    intros m1 Hm1. rewrite <- app_assoc in Hm1. cbn [app] in Hm1. cbn [length]. cbv zeta. wp_step. wp_step.
    set (s1 := rw_set_mem m1 s). change (rw_stack_offset s1) with (rw_stack_offset s).
    set (so := rw_stack_offset s) in *. set (esp := bool_decide (get_base (hd 0 sfx) = base_esp)) in *.
    assert (∀ bs2 m2, bs = hd 0 sfx :: bs2 → (∀ a, m2 a = wr q (pre ++ m :: hd 0 sfx :: bs2) m0 a) → Q (p + 1%nat + length bs2) (rw_set_mem m2 s1)) as HQ1.
    { intros bs2 m2 -> Hm2. specialize (HQ m2 Hm2). cbn [length] in HQ.
      replace (p + 1%nat + length bs2) with (p + Z.of_nat (S (length bs2))) by lia. by destruct s. }
    assert (p + 1%nat = q + length (pre ++ [modrm; hd 0 sfx])) as Hp1 by (rewrite length_app; simpl; lia).
    assert (∀ bs2 m2, m = modrm → bs = hd 0 sfx :: bs2 → (∀ a, m2 a = wr q ((pre ++ [modrm; hd 0 sfx]) ++ bs2) m0 a) →
      Q (p + 1%nat + length bs2) (rw_set_mem m2 s1)) as HQ2.
    { intros bs2 m2 -> -> Hm2. apply HQ1; [done|]. intros a. rewrite Hm2, <- app_assoc. done. }
    case_bool_decide as Hind.
    + rewrite !(bool_decide_false (get_rm modrm = 5)) in He |- * by lia.
      destruct (is_no_base (hd 0 sfx)).
      * injection He as <- <-. eapply (emit_more _ m0 q (pre ++ [modrm; hd 0 sfx])); [done..|apply bytes32_bytes|]. intros m2 Hm2. by apply HQ2.
      * destruct esp.
        -- injection He as <- <-. unfold store8. wp_step. wp_step. apply emit_wp. intros m2 Hm2.
           cbn [length]. change (rw_set_mem m2 (rw_set_mem _ s1)) with (rw_set_mem m2 s1). apply (HQ1 [u8 so]); [done|].
           intros a. rewrite Hm2. cbn [rw_set_mem rw_mem fmap list_fmap].
           rewrite (u8_byte (with_mod _ _)) by apply mk_modrm_byte.
           change (pre ++ ?x :: ?y :: [u8 so]) with (pre ++ ([x; y] ++ [u8 so])).
           rewrite app_assoc, <- wr_app, length_app. rewrite length_app in Hp1. cbn [length] in *.
           rewrite <- Hp1. replace (p + 1%nat - 2) with (q + length pre) by lia. apply wr_ext. intros a'.
           transitivity ((<[q + length pre := with_mod modrm mode_indirect_disp8]> (wr q (pre ++ [modrm; hd 0 sfx]) m0)) a').
           { destruct (decide (a' = q + length pre)) as [->|]; [by rewrite !fn_lookup_insert|]. rewrite !fn_lookup_insert_ne by done. apply Hm1. }
           rewrite wr_replace by (rewrite length_app; simpl; lia). f_equal.
           rewrite insert_app_r_alt by lia. by rewrite Nat.sub_diag.
        -- injection He as <- <-. wp_step. specialize (HQ2 [] m1 eq_refl eq_refl). cbn [length] in HQ2.
           replace (p + 1%nat + 0%nat) with (p + 1%nat) in HQ2 by lia. apply HQ2. intros a. by rewrite app_nil_r.
    + eapply (append_disp _ m0 q _ (pre ++ [modrm; hd 0 sfx]) modrm (tl sfx)); [done..|].
      intros m2 Hm2. case_bool_decide; injection He as <- <-; by apply HQ2.
  - apply bool_decide_eq_false in Hrm. wp_step. wp_step. cbv zeta. wp_step. wp_step.
    assert (∀ m2, m = modrm → (∀ a, m2 a = wr q ((pre ++ [modrm]) ++ bs) m0 a) → Q (p + length bs) (rw_set_mem m2 s)) as HQ2.
    { intros m2 -> Hm2. apply HQ. intros a. rewrite Hm2, <- app_assoc. done. }
    assert (p = q + length (pre ++ [modrm])) as Hp1 by (rewrite length_app; simpl; lia).
    case_bool_decide as Hind.
    + case_bool_decide.
      * injection He as <- <-. eapply (emit_more _ m0 q (pre ++ [modrm])); [done..|apply bytes32_bytes|]. intros m2 Hm2. by apply HQ2.
      * injection He as <- <-. wp_step. replace p with (p + length (@nil Z)) at 1 by (simpl; lia). destruct s. apply HQ2; [done|].
        intros a. by rewrite app_nil_r.
    + eapply (append_disp _ m0 q _ (pre ++ [modrm]) modrm sfx 0); [done..|].
      intros m2 Hm2. case_bool_decide; injection He as <- <-; by apply HQ2.
Qed.

(** ** The code emitted so far

    From [start] to [p] there is the code of [l], in a memory that was [m0], running at
    an offset of [v]; [so] bytes were pushed. *)
Definition emitted (m0 : Z → Z) (start v p : Z) (l : list instr) (so : Z) (s : rw_t) : Prop :=
  ∃ bs, (∀ a, rw_mem s a = wr start bs m0 a) ∧ p = start + length bs ∧ codes (start + v) bs l ∧
    rw_curr_virt_addr s = v ∧ rw_stack_offset s = so ∧ Forall is_byte bs.

(** Unfold the function that a [wp] goal runs. *)
Ltac head_of m := lazymatch m with ?f _ => head_of f | _ => m end.
Ltac unfold_wp := lazymatch goal with |- wp _ ?m _ _ => let h := head_of m in unfold h end.

Section emission.
Context {E : RewriteEnv} (F : fault → Prop) (m0 : Z → Z) (start v : Z).
Implicit Types (p so : Z) (l : list instr) (s : rw_t).
Abbreviation em := (emitted m0 start v).

Lemma em_emit bs i p l so s Q :
  em p l so s → encodes (p + v) (u8 <$> bs) i →
  (∀ s', em (p + length bs) (l ++ [i]) so s' → Q (p + length bs) s') → wp F (emit p bs) Q s.
Proof.
  intros (b0 & Hm & Hp & Hc & Hv & Hso & Hb0) He HQ. eapply (emit_wp F bs). intros m' Hm'. apply HQ.
  exists (b0 ++ (u8 <$> bs)). split_and!; [| |apply codes_snoc; [done|]|done..|by apply Forall_app_2, u8_all].
  - intros a. simpl. rewrite Hm', Hp, <- wr_app. by apply wr_ext.
  - rewrite length_app, length_fmap. lia.
  - by replace (start + v + length b0) with (p + v) by lia.
Qed.
Lemma em_offset n p l so s Q :
  em p l so s → (∀ s', em p l (u32 (so + n)) s' → Q tt s') → wp F (add_stack_offset n) Q s.
Proof.
  intros (b0 & Hm & Hp & Hc & Hv & Hso & Hb0) HQ. unfold add_stack_offset. wp_step. apply HQ. exists b0. by rewrite Hso.
Qed.
Lemma em_remain i a b p l so s Q : em p l so s → (∀ s', em p l so s' → Q tt s') → wp F (update_remain i a b) Q s.
Proof. intros (b0 & ?) HQ. unfold update_remain. wp_steps; apply HQ; by exists b0. Qed.

Lemma em_debugger p l so s Q : em p l so s → (∀ s', em p l so s' → Q tt s') → wp F debugger_enter Q s.
Proof. intros (b0 & ?) HQ. unfold debugger_enter. wp_step. apply HQ. by exists b0. Qed.

(** Emitters that only store bytes, and those that count what is pushed. *)
Ltac plain L := intros Hem HQ; unfold_wp; eapply em_emit; [exact Hem|apply L; auto|exact HQ].
Ltac counted L := intros Hem HQ; unfold_wp; wp_step; (eapply em_emit; [exact Hem|apply L; auto|]); intros s1 Hem1; wp_step;
  (eapply em_offset; [exact Hem1|]); intros s2 Hem2; wp_step; by apply HQ.

Lemma push_reg_em r p l so s Q : 0 ≤ r < 8 →
  em p l so s → (∀ s', em (p + 1) (l ++ [IPush r]) (u32 (so + 4)) s' → Q (p + 1) s') → wp F (push_reg p r) Q s.
Proof. intros Hr. counted enc_push_reg. Qed.
Lemma pop_reg_em r p l so s Q : 0 ≤ r < 8 →
  em p l so s → (∀ s', em (p + 1) (l ++ [IPop r]) (u32 (so + -4)) s' → Q (p + 1) s') → wp F (pop_reg p r) Q s.
Proof. intros Hr. counted enc_pop_reg. Qed.
Lemma push_byte_em b p l so s Q :
  em p l so s → (∀ s', em (p + 2) (l ++ [IPushImm (sext8 (u8 b))]) (u32 (so + 4)) s' → Q (p + 2) s') → wp F (push_byte p b) Q s.
Proof. counted enc_push_byte. Qed.
Lemma push_word_em x p l so s Q :
  em p l so s → (∀ s', em (p + 5) (l ++ [IPushImm (u32 x)]) (u32 (so + 4)) s' → Q (p + 5) s') → wp F (push_word p x) Q s.
Proof. counted enc_push_word. Qed.
Lemma push_mem32_em a p l so s Q :
  em p l so s → (∀ s', em (p + 6) (l ++ [IPushM (at_address a)]) (u32 (so + 4)) s' → Q (p + 6) s') → wp F (push_mem32 p a) Q s.
Proof. counted enc_push_mem. Qed.
Lemma pop_mem32_em a p l so s Q :
  em p l so s → (∀ s', em (p + 6) (l ++ [IPopM (at_address a)]) (u32 (so + -4)) s' → Q (p + 6) s') → wp F (pop_mem32 p a) Q s.
Proof. counted enc_pop_mem. Qed.
Lemma clean_stack_em b p l so s Q :
  em p l so s → (∀ s', em (p + 3) (l ++ [IAddEsp (sext8 (u8 b))]) so s' → Q (p + 3) s') → wp F (clean_stack p b) Q s.
Proof. plain enc_add_esp. Qed.
Lemma nop_em p l so s Q : em p l so s → (∀ s', em (p + 1) (l ++ [INop]) so s' → Q (p + 1) s') → wp F (emit p [OP_NOP1]) Q s.
Proof. intros Hem HQ. eapply em_emit; [exact Hem|apply enc_nop|exact HQ]. Qed.
Lemma op_pushf_em p l so s Q : em p l so s → (∀ s', em (p + 1) (l ++ [IPushf]) so s' → Q (p + 1) s') → wp F (op_pushf p) Q s.
Proof. plain enc_pushf. Qed.
Lemma op_popf_em p l so s Q : em p l so s → (∀ s', em (p + 1) (l ++ [IPopf]) so s' → Q (p + 1) s') → wp F (op_popf p) Q s.
Proof. plain enc_popf. Qed.
Lemma jmp8_em d p l so s Q :
  em p l so s → (∀ s', em (p + 2) (l ++ [IJmp (u32 (p + v + 2 + sext8 (u8 d)))]) so s' → Q (p + 2) s') → wp F (emit p [0xeb; d]) Q s.
Proof. intros Hem HQ. eapply em_emit; [exact Hem|apply enc_jmp8|exact HQ]. Qed.
Lemma jmp_short_zero_em t p l so s Q :
  em p l so s → (∀ s', em (p + 2) (l ++ [IJz (u32 (p + v + 2 + sext8 (u8 (t - (p + 2)))))]) so s' → Q (p + 2) s') → wp F (jmp_short_zero p t) Q s.
Proof. plain enc_jz. Qed.
Lemma cmp_mem_em a b p l so s Q :
  em p l so s → (∀ s', em (p + 7) (l ++ [ICmp (at_address a) (sext8 (u8 b))]) so s' → Q (p + 7) s') → wp F (cmp_mem_imm8 p a b) Q s.
Proof. plain enc_cmp. Qed.
Lemma bts_em a b p l so s Q :
  em p l so s → (∀ s', em (p + 8) (l ++ [IBts (at_address a) (u8 b)]) so s' → Q (p + 8) s') → wp F (bts_mem32_immediate p a b) Q s.
Proof. plain enc_bts. Qed.
Lemma btr_em a b p l so s Q :
  em p l so s → (∀ s', em (p + 8) (l ++ [IBtr (at_address a) (u8 b)]) so s' → Q (p + 8) s') → wp F (btr_mem32_immediate p a b) Q s.
Proof. plain enc_btr. Qed.
Lemma mov_mem_reg_em a r p l so s Q : 0 ≤ r < 8 →
  em p l so s → (∀ s', em (p + 6) (l ++ [IMovFrom false r (at_address a)]) so s' → Q (p + 6) s') → wp F (mov_mem32_to_reg p a r) Q s.
Proof. intros Hr. plain enc_mov_mem_reg. Qed.
Lemma mov_reg_mem_em a r p l so s Q : 0 ≤ r < 8 →
  em p l so s → (∀ s', em (p + 6) (l ++ [IMovTo false (at_address a) r]) so s' → Q (p + 6) s') → wp F (mov_reg_to_mem32 p r a) Q s.
Proof. intros Hr. plain enc_mov_reg_mem. Qed.
Lemma mov_rr_em a b p l so s Q : 0 ≤ a < 8 → 0 ≤ b < 8 →
  em p l so s → (∀ s', em (p + 2) (l ++ [IMovTo false (OReg b) a]) so s' → Q (p + 2) s') → wp F (mov_reg_to_reg p a b) Q s.
Proof. intros Ha Hb. plain enc_mov_rr. Qed.
Lemma mov_imm_em x p l so s Q :
  em p l so s → (∀ s', em (p + 6) (l ++ [IMovImm (OReg 0) (u32 x)]) so s' → Q (p + 6) s') → wp F (mov_imm32_to_reg p x 0) Q s.
Proof. plain enc_mov_imm. Qed.
Lemma set_reg_em r x p l so s Q : 0 ≤ r < 8 →
  em p l so s → (∀ s', em (p + 5) (l ++ [IMovImm (OReg r) (u32 x)]) so s' → Q (p + 5) s') → wp F (set_reg p r x) Q s.
Proof. intros Hr. plain enc_set_reg. Qed.
Lemma op_call_em f p l so s Q :
  em p l so s → (∀ s', em (p + 5) (l ++ [ICall (u32 f)]) so s' → Q (p + 5) s') → wp F (op_call p f) Q s.
Proof.
  intros Hem HQ. unfold op_call. wp_step. wp_step. pose proof Hem as (b0 & _ & _ & _ & Hv & _). rewrite Hv.
  eapply em_emit; [exact Hem| |exact HQ]. replace (p + 5 + v) with (p + v + 5) by lia. apply enc_call.
Qed.
Lemma op_jmp_em f p l so s Q :
  em p l so s → (∀ s', em (p + 5) (l ++ [IJmp (u32 f)]) so s' → Q (p + 5) s') → wp F (op_jmp p f) Q s.
Proof.
  intros Hem HQ. unfold op_jmp. wp_step. wp_step. pose proof Hem as (b0 & _ & _ & _ & Hv & _). rewrite Hv.
  eapply em_emit; [exact Hem| |exact HQ]. replace (p + 5 + v) with (p + v + 5) by lia. apply enc_jmp.
Qed.

(** *** Operands of the guest *)

Lemma emitted_length so modrm sfx m bs : emitted_operand so modrm sfx = (m, bs) → (length bs ≤ 5)%nat.
Proof. unfold emitted_operand. repeat (case_bool_decide || case_match); intros; simplify_eq; simpl; lia. Qed.
Lemma emitted_bytes so modrm sfx m bs :
  is_byte modrm → Forall is_byte sfx → emitted_operand so modrm sfx = (m, bs) → Forall is_byte (m :: bs).
Proof.
  intros Hm Hsfx. pose proof (hd_byte _ Hsfx). assert (∀ x, Forall is_byte [u8 x]) by (intros; apply Forall_singleton, u8_is_byte).
  assert (∀ x, Forall is_byte (hd 0 sfx :: bytes32 x)) by (intros; constructor; [done|apply bytes32_bytes]).
  assert (∀ x, Forall is_byte [hd 0 sfx; u8 x]) by (intros; apply bytes2; [done|apply u8_is_byte]).
  unfold emitted_operand.
  repeat (case_bool_decide || case_match); intros; simplify_eq; simpl; (constructor; [done || apply mk_modrm_byte|]);
    try done; try apply bytes32_bytes; auto; by apply Forall_singleton.
Qed.
(** The operation code and the operand byte are out and the stack is counted. *)
Lemma em_append b0 op f modrm sfx l so s p Q :
  is_byte modrm → Forall is_byte sfx →
  (∀ a, rw_mem s a = wr start ((b0 ++ op) ++ [modrm]) m0 a) → p = start + length b0 + length op + 1 →
  codes (start + v) b0 l → rw_curr_virt_addr s = v → rw_stack_offset s = so → Forall is_byte (b0 ++ op) →
  (∀ ip m bs, emitted_operand so modrm sfx = (m, bs) → encodes ip (op ++ m :: bs) f) →
  (∀ p' s', p ≤ p' ≤ p + 5 → em p' (l ++ [f]) so s' → Q p' s') →
  wp F (append_modrm p modrm sfx) Q s.
Proof.
  intros Hm Hsfx Hmem Hp Hc Hv Hso Hb0 Henc HQ. destruct (emitted_operand so modrm sfx) as [m bs] eqn:He.
  pose proof (emitted_length _ _ _ _ _ He). rewrite <- Hso in He.
  eapply (append_wp F m0 start p (b0 ++ op)); [done|done|done|rewrite length_app; lia|done|]. intros m' Hm'.
  apply HQ; [lia|]. exists (b0 ++ op ++ m :: bs). split_and!; [by rewrite app_assoc| |apply codes_snoc; [done|by apply Henc]|done..|].
  - rewrite !length_app. simpl. lia.
  - rewrite app_assoc. apply Forall_app_2; [done|]. exact (emitted_bytes _ _ _ _ _ Hm Hsfx He).
Qed.
Lemma em_operand op f modrm sfx p l so s Q :
  operand_code op f → Forall is_byte op → is_byte modrm → Forall is_byte sfx → em p l so s →
  (∀ p' s', p + length op + 1 ≤ p' ≤ p + length op + 6 → em p' (l ++ [f (get_reg modrm) (adjusted so modrm sfx)]) so s' → Q p' s') →
  wp F (p' ← emit p (op ++ [modrm]); append_modrm p' modrm sfx) Q s.
Proof.
  intros Hop Hb Hm Hsfx (b0 & Hmem & Hp & Hc & Hv & Hso & Hb0) HQ. wp_step.
  eapply (emit_more F m0 start b0); [done..|apply Forall_app; split; [done|by apply Forall_singleton]|]. intros m1 Hm1.
  eapply (em_append b0 op (f (get_reg modrm) (adjusted so modrm sfx))); try done.
  - intros a. simpl. by rewrite Hm1, <- app_assoc.
  - rewrite length_app. simpl. lia.
  - by apply Forall_app_2.
  - intros ip m bs He. by apply enc_operand.
  - intros p' s'. rewrite length_app. simpl. intros. apply HQ; [lia|done].
Qed.
Lemma adjusted_with_reg so modrm r sfx : is_byte modrm → 0 ≤ r < 8 → adjusted so (with_reg modrm r) sfx = adjusted so modrm sfx.
Proof.
  intros Hm Hr. destruct (with_reg_fields modrm r Hm Hr) as (E1 & E2 & E3).
  pose proof (with_mod_fields modrm mode_indirect_disp8 ltac:(done)) as (G1 & G2 & G3).
  pose proof (with_mod_fields (with_reg modrm r) mode_indirect_disp8 ltac:(done)) as (G4 & G5 & G6).
  unfold adjusted, operand_at. rewrite !decode_operand_fields.
  assert ((emitted_operand so (with_reg modrm r) sfx).2 = (emitted_operand so modrm sfx).2 ∧
    get_mode (emitted_operand so (with_reg modrm r) sfx).1 = get_mode (emitted_operand so modrm sfx).1 ∧
    get_rm (emitted_operand so (with_reg modrm r) sfx).1 = get_rm (emitted_operand so modrm sfx).1) as (-> & -> & ->); [|done].
  unfold emitted_operand. rewrite !E1, !E3. repeat (case_bool_decide || case_match); simpl; split_and!; congruence.
Qed.

Ltac by_operand oc := intros Hr Hm Hsfx Hem HQ; unfold_wp; cbv zeta;
  eapply (em_operand _ _ _ _ _ _ _ _ _ oc); [repeat constructor; done|apply mk_modrm_byte|exact Hsfx|exact Hem|];
  intros p' s' Hp'; cbn [length] in Hp'; destruct (with_reg_fields _ _ Hm Hr) as (_ & -> & _);
  rewrite adjusted_with_reg by done; apply HQ; lia.
Lemma lea_em r modrm sfx p l so s Q : 0 ≤ r < 8 → is_byte modrm → Forall is_byte sfx → em p l so s →
  (∀ p' s', p + 2 ≤ p' ≤ p + 7 → em p' (l ++ [ILea r (adjusted so modrm sfx)]) so s' → Q p' s') → wp F (lea_modrm p r modrm sfx) Q s.
Proof. by_operand oc_lea. Qed.
Lemma movzx_em r modrm sfx p l so s Q : 0 ≤ r < 8 → is_byte modrm → Forall is_byte sfx → em p l so s →
  (∀ p' s', p + 3 ≤ p' ≤ p + 8 → em p' (l ++ [IMovzx r (adjusted so modrm sfx)]) so s' → Q p' s') → wp F (movzx_modrm p r modrm sfx) Q s.
Proof. by_operand oc_movzx. Qed.
Lemma mov_from_em r modrm sfx p l so s Q : 0 ≤ r < 8 → is_byte modrm → Forall is_byte sfx → em p l so s →
  (∀ p' s', p + 2 ≤ p' ≤ p + 7 → em p' (l ++ [IMovFrom false r (adjusted so modrm sfx)]) so s' → Q p' s') →
  wp F (mov_from_modrm p r modrm sfx) Q s.
Proof. by_operand oc_mov_from. Qed.

(** Pushes and pops of an operand count the stack before the operand is adjusted. *)
Lemma em_push_pop op r d modrm sfx p l so s Q f :
  is_byte op → 0 ≤ r < 8 → is_byte modrm → Forall is_byte sfx → em p l so s →
  (∀ so' ip m bs, emitted_operand so' (with_reg modrm r) sfx = (m, bs) → encodes ip (op :: m :: bs) (f (adjusted so' (with_reg modrm r) sfx))) →
  (∀ p' s', p + 2 ≤ p' ≤ p + 7 → em p' (l ++ [f (adjusted (u32 (so + d)) modrm sfx)]) (u32 (so + d)) s' → Q p' s') →
  wp F (p' ← emit p [op; with_reg modrm r]; add_stack_offset d;; append_modrm p' (with_reg modrm r) sfx) Q s.
Proof.
  intros Hop Hr Hm Hsfx (b0 & Hmem & Hp & Hc & Hv & Hso & Hb0) Henc HQ. wp_step.
  eapply (emit_more F m0 start b0); [done..|apply bytes2; [done|apply mk_modrm_byte]|]. intros m1 Hm1.
  unfold add_stack_offset. wp_step. wp_step.
  eapply (em_append b0 [op] (f (adjusted (u32 (so + d)) (with_reg modrm r) sfx)) _ _ l (u32 (so + d))); try done.
  - apply mk_modrm_byte.
  - intros a. simpl. by rewrite Hm1, <- app_assoc.
  - simpl. lia.
  - simpl. by rewrite Hso.
  - apply Forall_app_2; [done|by apply Forall_singleton].
  - intros ip m bs He. by apply Henc.
  - intros p' s'. cbn [length]. rewrite adjusted_with_reg by done. intros. apply HQ; [lia|done].
Qed.
Lemma push_modrm_em modrm sfx p l so s Q : is_byte modrm → Forall is_byte sfx → em p l so s →
  (∀ p' s', p + 2 ≤ p' ≤ p + 7 → em p' (l ++ [IPushM (adjusted (u32 (so + 4)) modrm sfx)]) (u32 (so + 4)) s' → Q p' s') →
  wp F (push_modrm p modrm sfx) Q s.
Proof.
  intros Hm Hsfx Hem HQ. unfold push_modrm. cbv zeta. eapply em_push_pop; try done.
  intros so' ip m bs He. eapply enc_push_pop_operand; [apply mk_modrm_byte|done|]. by apply with_reg_fields.
Qed.
Lemma pop_modrm_em modrm sfx p l so s Q : is_byte modrm → Forall is_byte sfx → em p l so s →
  (∀ p' s', p + 2 ≤ p' ≤ p + 7 → em p' (l ++ [IPopM (adjusted (u32 (so + -4)) modrm sfx)]) (u32 (so + -4)) s' → Q p' s') →
  wp F (pop_modrm p modrm sfx) Q s.
Proof.
  intros Hm Hsfx Hem HQ. unfold pop_modrm. cbv zeta. eapply em_push_pop; try done.
  intros so' ip m bs He. eapply enc_push_pop_operand; [apply mk_modrm_byte|done|]. by apply with_reg_fields.
Qed.

(** Moves of 16 bits: the prefix and the instruction are emitted one after the other. *)
Lemma em_prefixed op f r modrm sfx p l so s Q :
  operand_code [0x66; op] f → is_byte op → 0 ≤ r < 8 → is_byte modrm → Forall is_byte sfx → em p l so s →
  (∀ p' s', p + 3 ≤ p' ≤ p + 8 → em p' (l ++ [f r (adjusted so modrm sfx)]) so s' → Q p' s') →
  wp F (insert_operand_size_prefix p) (λ p1 s1,
    wp F (p2 ← emit p1 [op; with_reg modrm r]; append_modrm p2 (with_reg modrm r) sfx) Q s1) s.
Proof.
  intros Hoc Hop Hr Hm Hsfx (b0 & Hmem & Hp & Hc & Hv & Hso & Hb0) HQ. unfold insert_operand_size_prefix.
  eapply (emit_more F m0 start b0); [done..|by apply Forall_singleton|]. intros m1 Hm1. wp_step.
  eapply (emit_more F m0 start (b0 ++ [prefix_operand_size])); [done|rewrite length_app; simpl; lia|apply bytes2; [done|apply mk_modrm_byte]|].
  intros m2 Hm2. destruct (with_reg_fields _ _ Hm Hr) as (_ & Hreg & _).
  eapply (em_append b0 [0x66; op] (f (get_reg (with_reg modrm r)) (adjusted so (with_reg modrm r) sfx))); try done.
  - apply mk_modrm_byte.
  - intros a. simpl. rewrite Hm2, <- !app_assoc. done.
  - simpl. lia.
  - apply Forall_app_2; [done|by apply bytes2].
  - intros ip m bs He. apply enc_operand; [done|apply mk_modrm_byte|done].
  - intros p' s'. cbn [length]. rewrite Hreg, adjusted_with_reg by done. intros. apply HQ; [lia|done].
Qed.
Lemma mov_from16_em {A} (k : Z → MR A) modrm sfx p l so s Q : is_byte modrm → Forall is_byte sfx → em p l so s →
  (∀ p' s', p + 3 ≤ p' ≤ p + 8 → em p' (l ++ [IMovFrom true OP_REG_EAX (adjusted so modrm sfx)]) so s' → wp F (k p') Q s') →
  wp F (p1 ← insert_operand_size_prefix p; p2 ← mov_from_modrm p1 OP_REG_EAX modrm sfx; k p2) Q s.
Proof.
  intros Hm Hsfx Hem HQ. wp_step.
  eapply wp_mono; [by eapply (em_prefixed _ _ _ _ _ _ _ _ _ (λ p' s', wp F (k p') Q s') oc_mov_from16)|].
  intros p1 s1 H1. by wp_step.
Qed.
Lemma mov_to16_em {A} (k : Z → MR A) modrm sfx p l so s Q : is_byte modrm → Forall is_byte sfx → em p l so s →
  (∀ p' s', p + 3 ≤ p' ≤ p + 8 → em p' (l ++ [IMovTo true (adjusted so modrm sfx) OP_REG_EAX]) so s' → wp F (k p') Q s') →
  wp F (p1 ← insert_operand_size_prefix p; p2 ← mov_to_modrm p1 OP_REG_EAX modrm sfx; k p2) Q s.
Proof.
  intros Hm Hsfx Hem HQ. wp_step.
  eapply wp_mono; [by eapply (em_prefixed _ _ _ _ _ _ _ _ _ (λ p' s', wp F (k p') Q s') oc_mov_to16)|].
  intros p1 s1 H1. by wp_step.
Qed.
Lemma em_reset p l so s Q : em p l so s → (∀ s', em p l 0 s' → Q tt s') → wp F (mmodify (rw_set_stack_offset 0)) Q s.
Proof. intros (b0 & ?) HQ. wp_step. apply HQ. exists b0. naive_solver. Qed.
End emission.

(** ** Reading the guest's instruction *)

Definition bytes_at (m : Z → Z) (a : Z) (n : nat) : list Z := m <$> (Z.add a ∘ Z.of_nat <$> seq 0 n).
Lemma bytes_at_S m a n : bytes_at m a (S n) = m a :: bytes_at m (a + 1) n.
Proof.
  unfold bytes_at. simpl. rewrite Z.add_0_r. f_equal. f_equal. rewrite <- fmap_S_seq, <- list_fmap_compose.
  apply list_fmap_ext. intros i x _. simpl. lia.
Qed.
Lemma load_bytes_wp F n : ∀ a Q s, Q (bytes_at (rw_mem s) a n) s → wp F (load_bytes a n) Q s.
Proof.
  induction n as [|n IH]; intros a Q s HQ; simpl; [by wp_step|]. unfold load8. wp_step. wp_step. wp_step.
  apply IH. wp_step. by rewrite <- bytes_at_S.
Qed.
Lemma bytes_at_bytes m a n : (∀ x, a ≤ x → is_byte (m x)) → Forall is_byte (bytes_at m a n).
Proof.
  revert a. induction n as [|n IH]; intros a Hm; [by constructor|]. rewrite bytes_at_S. constructor; [apply Hm; lia|].
  apply IH. intros. apply Hm. lia.
Qed.
Lemma em_byte m0 start v p l so s a : emitted m0 start v p l so s → (∀ x, is_byte (m0 x)) → p ≤ a → is_byte (rw_mem s a).
Proof. intros (bs & Hm & -> & _) Hb Ha. rewrite Hm. unfold wr. rewrite decide_False by lia. apply Hb. Qed.

(** *** No-ops in place of prefixes *)
Lemma codes_nops n : ∀ ip, codes ip (replicate n OP_NOP1) (replicate n INop).
Proof.
  induction n as [|n IH]; intros ip; simpl; [constructor|]. change (OP_NOP1 :: replicate n OP_NOP1) with ([OP_NOP1] ++ replicate n OP_NOP1).
  apply codes_cons; [by intros rest|apply IH].
Qed.
Lemma nops_bytes n : Forall is_byte (replicate n OP_NOP1).
Proof. by apply Forall_replicate. Qed.
Definition nops_done (m0 : Z → Z) (start p : Z) (s : rw_t) : Prop :=
  ∃ n : nat, (∀ a, rw_mem s a = wr start (replicate n OP_NOP1) m0 a) ∧ p = start + n ∧ rw_stack_offset s = 0.
Lemma nops_done_em m0 start p s :
  nops_done m0 start p s → ∃ n, emitted m0 start (rw_curr_virt_addr s) p (replicate n INop) 0 s.
Proof. intros (n & Hm & -> & Hso). exists n, (replicate n OP_NOP1). rewrite length_replicate. split_and!; auto using codes_nops, nops_bytes. Qed.
Lemma nops_done_next m0 start p s m1 :
  nops_done m0 start p s → (∀ a, m1 a = wr p (u8 <$> [OP_NOP1]) (rw_mem s) a) → nops_done m0 start (p + 1) (rw_set_mem m1 s).
Proof.
  intros (n & Hm & -> & Hso) H1. exists (S n). rewrite replicate_S_end. split_and!; [|lia|done].
  intros a. simpl. rewrite H1, <- wr_app, length_replicate. by apply wr_ext.
Qed.

Lemma nops_done_debugger m0 start p s n : nops_done m0 start p s → nops_done m0 start p (rw_set_debugger n s).
Proof. intros (k & ?). by exists k. Qed.

(** ** Patched blocks *)

Section patched.
Context {E : RewriteEnv} (m0 : Z → Z) (start end_ : Z) (bytes_ok : ∀ a, is_byte (m0 a)).
(** Calls go to the wedge, jumps there or into the block. *)
Definition ok_instr (v : Z) (i : instr) : Prop :=
  match i with
  | ICall t => ∃ f, t = u32 (addr_of f)
  | IJmp t => (∃ f, t = u32 (addr_of f)) ∨ ∃ a, start ≤ a < end_ ∧ t = u32 (a + v)
  | IJz t => t = u32 (end_ + v)
  | _ => True
  end.
(** The block starts with such code, running at an offset of [v], and nothing else of the
    block was changed, but for a breakpoint that moves to its last byte. *)
Definition block_holds (v : Z) (m : Z → Z) : Prop :=
  ∃ bs l, (∀ (i : nat) b, bs !! i = Some b → m (start + i) = b) ∧ start + length bs ≤ end_ ∧
    codes (start + v) bs l ∧ Forall (ok_instr v) l ∧
    ∀ a, start + length bs ≤ a < end_ → m a = m0 a ∨ a = end_ - 1 ∧ m a = OP_INT3.
Definition patched (s : rw_t) : Prop :=
  (∀ a, ¬ (start ≤ a < end_) → rw_mem s a = m0 a) ∧ (∀ a, is_byte (rw_mem s a)) ∧ block_holds (rw_curr_virt_addr s) (rw_mem s).
Definition patch_post (v0 : Z) (r : option Z) (s : rw_t) : Prop :=
  (∀ a, a < start → rw_mem s a = m0 a) ∧ (rw_curr_virt_addr s = v0 ∨ rw_curr_virt_addr s = get_kernel_vaddr) ∧ match r with Some q => q ≤ end_ → patched s | None => True end.

Lemma em_patched v p l so s : emitted m0 start v p l so s → p ≤ end_ → Forall (ok_instr v) l → patched s.
Proof.
  intros (bs & Hm & -> & Hc & <- & _ & Hb) Hp Hl. split_and!.
  - intros a Ha. rewrite Hm. unfold wr. rewrite decide_False; [done|lia].
  - intros a. rewrite Hm. unfold wr. case_decide; [|done].
    destruct (lookup_lt_is_Some_2 bs (Z.to_nat (a - start))) as [x Hx]; [lia|]. rewrite (nth_lookup_Some _ _ _ _ Hx).
    by eapply Forall_lookup_1 in Hx.
  - exists bs, l. split_and!; try done.
    + intros i b Hi. pose proof (lookup_lt_Some _ _ _ Hi). rewrite Hm. unfold wr.
      rewrite decide_True by lia. replace (Z.to_nat (start + i - start)) with i by lia. by apply nth_lookup_Some.
    + intros a Ha. left. rewrite Hm. unfold wr. rewrite decide_False; [done|lia].
Qed.
Lemma em_post v0 v p l so s :
  (v = v0 ∨ v = get_kernel_vaddr) →
  emitted m0 start v p l so s → (p ≤ end_ → Forall (ok_instr v) l) → patch_post v0 (Some p) s.
Proof.
  intros Hv Hem Hl. pose proof Hem as (bs & Hm & _ & _ & Hv' & _). split_and!.
  - intros a Ha. by rewrite Hm, wr_below.
  - by rewrite Hv'.
  - intros Hp. by eapply em_patched; auto.
Qed.
Lemma em_none v0 v p l so s : (v = v0 ∨ v = get_kernel_vaddr) → emitted m0 start v p l so s → patch_post v0 None s.
Proof. intros Hv (bs & Hm & _ & _ & Hv' & _). split_and!; [|by rewrite Hv'|done]. intros a Ha. by rewrite Hm, wr_below. Qed.
Lemma nops_ok v n : Forall (ok_instr v) (replicate n INop).
Proof. apply Forall_replicate. exact I. Qed.
Lemma jz_target v p : p + 2 ≤ end_ ≤ p + 129 → u32 (p + v + 2 + sext8 (u8 (end_ - (p + 2)))) = u32 (end_ + v).
Proof.
  intros Hp. rewrite (wrap_small 8) by lia. unfold sext8. rewrite bool_decide_true by lia. f_equal. lia.
Qed.
Lemma jmp_back v p : start ≤ p < end_ → ok_instr v (IJmp (u32 (p + 5 + 5 + v + 2 + sext8 (u8 (-12))))).
Proof.
  intros Hp. right. exists p. split; [done|]. change (sext8 (u8 (-12))) with (2 ^ 32 - 12).
  unfold wrap. rewrite <- (Z.mod_add (p + v) 1) by done. f_equal. lia.
Qed.
End patched.
