(* ===== verification/RewritePatch.v ===== *)
(** * Every patched block is well formed

    The theorem over all operation codes and build options: a block that
    [apply_patchup] accepts contains code of the wedge only, and nothing else of memory
    is changed; and for each instruction of a table written from the architecture's
    operation codes ([translation]), the block holds exactly the code the table names. *)

From Stdlib Require Import ZArith Lia.
From stdpp Require Import base list functions numbers sets.
From S2P Require Import Prelude Rewrite Ia32 RewriteSpec.

Definition assert_only (f : fault) : Prop := f = AssertFail.

(** ** Automation *)

Ltac fields :=
  match goal with
  | |- 0 ≤ get_reg _ < 8 => apply get_reg_range
  | |- 0 ≤ get_rm _ < 8 => apply get_rm_range
  | |- 0 ≤ _ < 8 => done
  | |- is_byte _ => first [assumption | eapply em_byte; [eassumption|assumption|lia]]
  | |- Forall is_byte _ => first [assumption | apply bytes_at_bytes; intros; eapply em_byte; [eassumption|assumption|lia]]
  end.
(** One step of an emitter; the code so far is a hypothesis [emitted]. *)
Ltac em_next := let s := fresh "s" in let H := fresh "Hem" in intros s H.
Ltac em_next_op := let p := fresh "p" in let s := fresh "s" in let Hp := fresh "Hp" in let H := fresh "Hem" in intros p s Hp H.
Ltac em_step :=
  cbv zeta;
  lazymatch goal with
  | |- wp _ (insert_operand_size_prefix _ ≫= (λ _, mov_from_modrm _ _ _ _ ≫= _)) _ _ =>
      eapply mov_from16_em; [fields|fields|eassumption|em_next_op]
  | |- wp _ (insert_operand_size_prefix _ ≫= (λ _, mov_to_modrm _ _ _ _ ≫= _)) _ _ =>
      eapply mov_to16_em; [fields|fields|eassumption|em_next_op]
  | |- wp _ (push_reg _ _) _ _ => eapply push_reg_em; [fields|eassumption|em_next]
  | |- wp _ (pop_reg _ _) _ _ => eapply pop_reg_em; [fields|eassumption|em_next]
  | |- wp _ (push_byte _ _) _ _ => eapply push_byte_em; [eassumption|em_next]
  | |- wp _ (push_word _ _) _ _ => eapply push_word_em; [eassumption|em_next]
  | |- wp _ (push_mem32 _ _) _ _ => eapply push_mem32_em; [eassumption|em_next]
  | |- wp _ (pop_mem32 _ _) _ _ => eapply pop_mem32_em; [eassumption|em_next]
  | |- wp _ (clean_stack _ _) _ _ => eapply clean_stack_em; [eassumption|em_next]
  | |- wp _ (op_pushf _) _ _ => eapply op_pushf_em; [eassumption|em_next]
  | |- wp _ (op_popf _) _ _ => eapply op_popf_em; [eassumption|em_next]
  | |- wp _ (jmp_short_zero _ _) _ _ => eapply jmp_short_zero_em; [eassumption|em_next]
  | |- wp _ (emit _ [0xeb; _]) _ _ => eapply jmp8_em; [eassumption|em_next]
  | |- wp _ (cmp_mem_imm8 _ _ _) _ _ => eapply cmp_mem_em; [eassumption|em_next]
  | |- wp _ (bts_mem32_immediate _ _ _) _ _ => eapply bts_em; [eassumption|em_next]
  | |- wp _ (btr_mem32_immediate _ _ _) _ _ => eapply btr_em; [eassumption|em_next]
  | |- wp _ (mov_mem32_to_reg _ _ _) _ _ => eapply mov_mem_reg_em; [fields|eassumption|em_next]
  | |- wp _ (mov_reg_to_mem32 _ _ _) _ _ => eapply mov_reg_mem_em; [fields|eassumption|em_next]
  | |- wp _ (mov_reg_to_reg _ _ _) _ _ => eapply mov_rr_em; [fields|fields|eassumption|em_next]
  | |- wp _ (mov_imm32_to_reg _ _ 0) _ _ => eapply mov_imm_em; [eassumption|em_next]
  | |- wp _ (set_reg _ _ _) _ _ => eapply set_reg_em; [fields|eassumption|em_next]
  | |- wp _ (op_call _ _) _ _ => eapply op_call_em; [eassumption|em_next]
  | |- wp _ (call_burn _ _) _ _ => eapply op_call_em; [eassumption|em_next]
  | |- wp _ (op_jmp _ _) _ _ => eapply op_jmp_em; [eassumption|em_next]
  | |- wp _ (lea_modrm _ _ _ _) _ _ => eapply lea_em; [fields|fields|fields|eassumption|em_next_op]
  | |- wp _ (movzx_modrm _ _ _ _) _ _ => eapply movzx_em; [fields|fields|fields|eassumption|em_next_op]
  | |- wp _ (mov_from_modrm _ _ _ _) _ _ => eapply mov_from_em; [fields|fields|fields|eassumption|em_next_op]
  | |- wp _ (push_modrm _ _ _) _ _ => eapply push_modrm_em; [fields|fields|eassumption|em_next_op]
  | |- wp _ (pop_modrm _ _ _) _ _ => eapply pop_modrm_em; [fields|fields|eassumption|em_next_op]
  | |- wp _ (update_remain _ _ _) _ _ => eapply em_remain; [eassumption|em_next]
  | |- wp _ (mmodify (rw_set_stack_offset 0)) _ _ => eapply em_reset; [eassumption|em_next]
  | |- wp _ (load_bytes _ _) _ _ => apply load_bytes_wp
  | |- wp _ (load8 _) _ _ => unfold load8; apply wp_mgets; cbv beta
  | |- wp _ debugger_enter _ _ => eapply em_debugger; [eassumption|em_next]
  | |- wp _ (massert _) _ _ => apply wp_massert; [intros ?; first [reflexivity|congruence]|intros ?]
  | _ => wp_step
  end.
Ltac unfold_em :=
  lazymatch goal with |- wp _ ?m _ _ => let h := head_of m in
    lazymatch h with
    | @port_imm => unfold port_imm | @port_dx => unfold port_dx | @port_string => unfold port_string
    | @push_width => unfold push_width | @byte_width => unfold byte_width
    | @apply_port_in_patchup => unfold apply_port_in_patchup, apply_port_patchup
    | @apply_port_out_patchup => unfold apply_port_out_patchup, apply_port_patchup
    | @seg_call => unfold seg_call | @patch_popf => unfold patch_popf | @patch_sti => unfold patch_sti
    | @and_remain => unfold and_remain | @unless_segments => unfold unless_segments
    | @newops_pushf => unfold newops_pushf | @newops_cli => unfold newops_cli
    | @newops_push_seg => unfold newops_push_seg | @newops_pop_seg => unfold newops_pop_seg
    | @read_seg_callout => unfold read_seg_callout | @write_seg_callout => unfold write_seg_callout
    | @newops_pushcs => unfold newops_pushcs | @newops_pushss => unfold newops_pushss | @newops_popss => unfold newops_popss
    | @newops_pushds => unfold newops_pushds | @newops_popds => unfold newops_popds
    | @newops_pushes => unfold newops_pushes | @newops_popes => unfold newops_popes
    | @newops_pushfs => unfold newops_pushfs | @newops_popfs => unfold newops_popfs
    | @newops_pushgs => unfold newops_pushgs | @newops_popgs => unfold newops_popgs
    | @newops_mov_toseg => unfold newops_mov_toseg | @newops_movfromseg => unfold newops_movfromseg
    | @newops_movfromcreg => unfold newops_movfromcreg
    | @mov_toseg_callout => unfold mov_toseg_callout | @mov_toseg_inline => unfold mov_toseg_inline
    | @movfromseg_callout => unfold movfromseg_callout | @movfromseg_inline => unfold movfromseg_inline
    | @movfromcreg_callout => unfold movfromcreg_callout | @movfromcreg_inline => unfold movfromcreg_inline
    | @mov_tomem32 => unfold mov_tomem32 | @mov_frommem32 => unfold mov_frommem32
    | @mov_tosegofs => unfold mov_tosegofs | @mov_fromsegofs => unfold mov_fromsegofs
    | @patch_lltl => unfold patch_lltl | @patch_ldtl => unfold patch_ldtl | @patch_lss => unfold patch_lss
    | @patch_fromdreg => unfold patch_fromdreg | @patch_tocreg => unfold patch_tocreg | @patch_todreg => unfold patch_todreg
    | @patch_int => unfold patch_int | @load32 => unfold load32 | @some => unfold some
    end
  end.
Ltac em_steps := repeat (first [unfold_em | em_step]; cbv beta).
(** The calls and jumps of the code so far. *)
Ltac ok_targets :=
  repeat (apply Forall_app_2; [|apply Forall_singleton; first
    [exact I | eexists; reflexivity | left; eexists; reflexivity | apply jz_target; lia | apply jmp_back; lia]]);
  apply nops_ok.

Section patch.
Context {E : RewriteEnv} (m0 : Z → Z) (start end_ : Z).
Hypothesis bytes_ok : ∀ a, is_byte (m0 a).
Hypothesis suffixes_ok : Forall is_byte uninit_suffixes.
Hypothesis short_block : end_ - start ≤ 128.
Abbreviation post := (patch_post m0 start end_).
Abbreviation virt := rw_curr_virt_addr.

Lemma em_anyway v0 v p l so s q : (v = v0 ∨ v = get_kernel_vaddr) →
  emitted m0 start v p l so s → p ≤ end_ → Forall (ok_instr start end_ v) l → post v0 (Some q) s.
Proof.
  intros Hv Hem Hp Hl. destruct (em_post m0 start end_ bytes_ok v0 v p l so s Hv Hem (λ _, Hl)) as (Hb & Hv' & Hq). split_and!; auto.
Qed.
Ltac finish := first
  [ eapply em_post; [exact bytes_ok| |eassumption|]; [by auto|intros ?; ok_targets]
  | eapply em_none; [|eassumption]; by auto
  | eapply em_anyway; [|eassumption|lia|]; [by auto|ok_targets] ].
Ltac branch :=
  lazymatch goal with |- wp _ (if ?b then _ else _) _ _ => destruct b; [solve [em_steps; finish]|] end.

(** The assertions leave only control registers that have a function. *)
Lemma burn_write_cr_some r : 0 ≤ r < 8 → bool_decide (r ≠ 1) && bool_decide (r ≤ 4) = true → ∃ f, burn_write_cr r = Some f.
Proof. intros Hr [H1%bool_decide_eq_true H2%bool_decide_eq_true]%andb_true_iff. each_reg Hr; try lia; by eexists. Qed.
Lemma tocreg_ok p s n :
  emitted m0 start (rw_curr_virt_addr s) p (replicate n INop) 0 s → start ≤ p < end_ →
  wp assert_only (some (patch_tocreg p p)) (post (virt s)) s.
Proof.
  intros Hem Hp. unfold some, patch_tocreg. do 7 em_step. do 2 em_step.
  destruct (burn_write_cr_some _ (get_reg_range _) ltac:(eassumption)) as [f Hf].
  em_steps; [congruence|]. finish.
Qed.
Lemma patch_2byte_ok p s n :
  emitted m0 start (rw_curr_virt_addr s) p (replicate n INop) 0 s → start ≤ p < end_ →
  wp assert_only (patch_2byte p p end_) (post (virt s)) s.
Proof.
  intros Hem Hp. unfold patch_2byte. wp_step. unfold load8 at 1. wp_step. cbv zeta.
  do 11 branch. case_match; [by eapply tocreg_ok|].
  repeat branch. wp_step. finish.
Qed.

(** The far jump: from here on the code runs at the guest's addresses. *)
Lemma jmp_far_ok p s :
  nops_done m0 start p s → start ≤ p < end_ → wp assert_only (some (patch_jmp_far p p)) (post (virt s)) s.
Proof.
  intros Hn Hp. unfold some, patch_jmp_far. wp_step. wp_step. wp_step.
  assert (nops_done m0 start p (rw_set_curr_virt_addr get_kernel_vaddr s)) as Hn' by (destruct Hn as (n & ?); by exists n).
  apply nops_done_em in Hn' as [n Hem]. em_steps. all: finish.
Qed.
(** The breakpoint moves to the last byte of the block. *)
Lemma int3_ok p s :
  nops_done m0 start p s → start ≤ p < end_ → ∀ op, op = OP_INT3 →
  wp assert_only (store8 (end_ - 1) op;; store8 p OP_NOP1;; mret (Some p)) (post (virt s)) s.
Proof.
  intros (n & Hm & -> & _) Hp op ->. unfold store8. do 5 wp_step.
  unfold patch_post, patched. cbn [rw_mem rw_set_mem].
  set (m1 := <[start + n:=u8 OP_NOP1]> (<[end_ - 1:=u8 OP_INT3]> (rw_mem s))).
  assert (∀ a, m1 a = if decide (start ≤ a < start + S n) then OP_NOP1 else if decide (a = end_ - 1) then OP_INT3 else m0 a) as Hm1.
  { intros a. subst m1. unfold insert, fn_insert. repeat case_decide; try lia; try done; rewrite Hm; unfold wr; rewrite length_replicate.
    - rewrite decide_True by lia. by rewrite nth_lookup, lookup_replicate_2 by lia.
    - by rewrite decide_False by lia. }
  clearbody m1. split; [intros a Ha; rewrite Hm1, !decide_False by lia; done|].
  split; [by left|]. intros _. split_and!.
  - intros a Ha. rewrite Hm1, !decide_False by lia. done.
  - intros a. rewrite Hm1. repeat case_decide; done.
  - exists (replicate (S n) OP_NOP1), (replicate (S n) INop). rewrite length_replicate.
    split_and!; [|lia|apply codes_nops|apply nops_ok|].
    + intros i b Hi. apply lookup_replicate in Hi as [-> Hi]. by rewrite Hm1, decide_True by lia.
    + intros a Ha. rewrite Hm1, decide_False by lia. case_decide; auto.
Qed.
Lemma patch_1byte_ok p s pf op :
  nops_done m0 start p s → start ≤ p < end_ → wp assert_only (patch_1byte p p end_ pf op) (post (virt s)) s.
Proof.
  intros Hn Hp. pose proof Hn as Hem. apply nops_done_em in Hem as [n Hem]. unfold patch_1byte. cbv zeta.
  branch. case_bool_decide; [by apply int3_ok|]. branch. branch. branch. case_match; [by apply jmp_far_ok|].
  repeat branch. case_match; [by eapply patch_2byte_ok|]. wp_step. finish.
Qed.

(** *** Prefixes *)
Definition is_prefix (b : Z) : Prop :=
  b ∈ [prefix_lock; prefix_repne; prefix_rep; prefix_operand_size; prefix_address_size; prefix_fs; prefix_gs].
Lemma patch_loop_ok q (fuel : nat) : ∀ p pf s,
  nops_done m0 start p s → start ≤ p ≤ q → q < end_ → ¬ is_prefix (m0 q) → q - p < fuel →
  wp assert_only (patch_loop fuel p p end_ pf) (post (virt s)) s.
Proof.
  induction fuel as [|fuel IH]; intros p pf s Hn Hp Hq Hpre Hfuel; [lia|]. simpl.
  wp_step. unfold load8. wp_step.
  assert (rw_mem s p = m0 p) as Hop.
  { destruct Hn as (n & Hm & Hp' & _). rewrite Hm. unfold wr. rewrite length_replicate, decide_False by lia. done. }
  rewrite Hop. set (op := m0 p) in *.
  assert (∀ x pf' s1, op = x → is_prefix x → nops_done m0 start p s1 → virt s1 = virt s →
    wp assert_only (p' ← emit p [OP_NOP1]; patch_loop fuel (p + 1) p' end_ pf') (post (virt s)) s1) as Hnext1.
  { intros x pf' s1 Hx Hx' Hn1 Hv1. wp_step. apply emit_wp. intros m1 Hm1. cbn [length]. assert (p ≠ q) by (intros ->; by subst x).
    replace (p + 1%nat) with (p + 1) by lia. rewrite <- Hv1. change (virt s1) with (virt (rw_set_mem m1 s1)).
    apply IH; try done; try lia. by apply nops_done_next. }
  assert (∀ x pf', op = x → is_prefix x → wp assert_only (p' ← emit p [OP_NOP1]; patch_loop fuel (p + 1) p' end_ pf') (post (virt s)) s) as Hnext by eauto.
  unfold is_prefix in Hnext.
  case_bool_decide; [eapply Hnext; [eassumption|set_solver]|].
  case_bool_decide.
  { wp_step. unfold debugger_enter. wp_step. eapply Hnext1; [eassumption|unfold is_prefix; set_solver|by apply nops_done_debugger|done]. }
  do 3 (case_bool_decide; [eapply Hnext; [eassumption|set_solver]|]).
  destruct (_ || _ || _ || _).
  { apply nops_done_em in Hn as [n Hem]. unfold some. wp_step. eapply nop_em; [eassumption|]. intros s1 Hem1. wp_step.
    eapply em_post; [done| |eassumption|]; [by auto|]. intros _. ok_targets. }
  destruct (bool_decide (op = prefix_fs) || bool_decide (op = prefix_gs)) eqn:Hfs.
  { apply orb_true_iff in Hfs as [Hx|Hx]; apply bool_decide_eq_true in Hx; (eapply Hnext; [eassumption|set_solver]). }
  apply patch_1byte_ok; [done|lia].
Qed.
Lemma apply_patchup_ok (fuel : nat) s q :
  (∀ a, rw_mem s a = m0 a) → start ≤ q < end_ → ¬ is_prefix (m0 q) → 128 ≤ fuel →
  wp assert_only (apply_patchup fuel start end_) (λ b s', (virt s' = virt s ∨ virt s' = get_kernel_vaddr) ∧
    (b = true → patched m0 start end_ s')) s.
Proof.
  intros Hm Hq Hpre Hfuel. unfold apply_patchup. wp_step. wp_step. wp_step.
  eapply wp_mono; [apply (patch_loop_ok q)|]; try done; try lia.
  - exists 0%nat. split_and!; [|simpl; lia|done]. intros a. simpl. by rewrite wr_nil.
  - intros r s' (Hb & Hv & Hr). wp_step. split; [done|]. destruct r as [newops|]; simpl; [|done].
    intros Hf%negb_true_iff%bool_decide_eq_false. apply Hr. lia.
Qed.
End patch.

(** ** What an instruction becomes

    The table is written from the operation codes of the architecture (Intel's manual), not
    from the constants of the rewriter. [q] is the address of the operation code, [v] the
    offset at which the block runs, [end_] its end. *)

Section translation.
Context {E : RewriteEnv}.
Definition wedge_call (f : burn_func) : instr := ICall (u32 (addr_of f)).
Definition wedge_jump (f : burn_func) : instr := IJmp (u32 (addr_of f)).
Definition in_cpu (c : cpu_field) : operand := at_address (cpu_addr c).
(** A segment register to the stack and back. With hardware segments the instruction stays. *)
Definition seg_push (f : burn_func) (c : cpu_field) : list instr :=
  if hardware_segments then [] else if CONFIG_CALLOUT_VCPULOCAL then [IPush EAX; wedge_call f] else [IPushM (in_cpu c)].
Definition seg_pop (f : burn_func) (c : cpu_field) : list instr :=
  if hardware_segments then [] else if CONFIG_CALLOUT_VCPULOCAL then [wedge_call f; IAddEsp 4] else [IPopM (in_cpu c)].
(** The ports of the two interrupt controllers. *)
Definition pic_out (port : Z) : option burn_func :=
  match port with
  | 0x20 => Some device_8259_0x20_out | 0x21 => Some device_8259_0x21_out
  | 0xa0 => Some device_8259_0xa0_out | 0xa1 => Some device_8259_0xa1_out | _ => None
  end.
Definition pic_in (port : Z) : option burn_func :=
  match port with
  | 0x20 => Some device_8259_0x20_in | 0x21 => Some device_8259_0x21_in
  | 0xa0 => Some device_8259_0xa0_in | 0xa1 => Some device_8259_0xa1_in | _ => None
  end.
(** An access of [w] bits: to a constant port, to the port in [EDX], of a string. *)
Definition io_imm (w port : Z) (pic : option burn_func) (f : burn_func) : list instr :=
  match pic with
  | Some g => [IPush ECX; IPush EDX; wedge_call g; IPop EDX; IPop ECX]
  | None => [IPushImm w; IPushImm (u32 port); wedge_call f; IAddEsp 8]
  end.
Definition io_dx (w : Z) (f : burn_func) : list instr := [IPushImm w; IPush EDX; wedge_call f; IAddEsp 8].
Definition io_string (w reg : Z) (f : burn_func) : list instr := [IPushImm w; IPush ECX; IPush reg; wedge_call f; IAddEsp 12].
(** The interrupt flag of the virtual processor is set; a pending interrupt is delivered. *)
Definition deliver_pending (end_ v : Z) : list instr :=
  [ICmp (in_cpu cpu_irq_vectors) 0; IJz (u32 (end_ + v)); wedge_call burn_deliver_interrupt].
Definition sti_code (end_ v : Z) : list instr :=
  if CONFIG_IA32_STRICT_IRQ then
    if negb CONFIG_DEVICE_APIC then IBts (in_cpu cpu_flags) 9 :: deliver_pending end_ v else [wedge_call burn_sti]
  else [IBts (in_cpu cpu_flags) 9].
Definition popf_code (end_ v : Z) : list instr :=
  if CONFIG_IA32_STRICT_IRQ then
    if negb CONFIG_DEVICE_APIC then IPopM (in_cpu cpu_flags) :: deliver_pending end_ v ++ [IPopM (in_cpu cpu_flags)]
    else [wedge_call burn_popf; IPopf]
  else [IPopM (in_cpu cpu_flags)].
(** The segment registers and the control registers by number: how each is read and written. *)
Definition segment (r : Z) : option (burn_func * burn_func * cpu_field) :=
  match r with
  | 0 => Some (burn_read_es, burn_write_es, cpu_es) | 1 => Some (burn_read_cs, burn_write_cs, cpu_cs)
  | 2 => Some (burn_read_ss, burn_write_ss, cpu_ss) | 3 => Some (burn_read_ds, burn_write_ds, cpu_ds)
  | 4 => Some (burn_read_fs, burn_write_fs, cpu_fs) | 5 => Some (burn_read_gs, burn_write_gs, cpu_gs) | _ => None
  end.
Definition control (r : Z) : option (burn_func * cpu_field) :=
  match r with
  | 0 => Some (burn_write_cr0, cpu_cr0) | 2 => Some (burn_write_cr2, cpu_cr2) | 3 => Some (burn_write_cr3, cpu_cr3)
  | 4 => Some (burn_write_cr4, cpu_cr4) | _ => None
  end.
Definition to_segment (modrm : Z) : list instr :=
  match segment (get_reg modrm) with
  | Some (_, f, c) =>
      if CONFIG_CALLOUT_VCPULOCAL then [IPush (get_rm modrm); wedge_call f; IAddEsp 4] else [IMovTo false (in_cpu c) (get_rm modrm)]
  | None => []
  end.
Definition from_segment (modrm : Z) : list instr :=
  match segment (get_reg modrm) with
  | Some (f, _, c) =>
      if CONFIG_CALLOUT_VCPULOCAL then [IPush EAX; wedge_call f; IPop (get_rm modrm)] else [IMovFrom false (get_rm modrm) (in_cpu c)]
  | None => []
  end.
Definition read_numbered (modrm : Z) (f : burn_func) : list instr :=
  [IPush EAX; IPushImm (get_reg modrm); wedge_call f; IAddEsp 4; IPop (get_rm modrm)].
Definition from_control (modrm : Z) : list instr :=
  match control (get_reg modrm) with
  | Some (_, c) => if CONFIG_CALLOUT_VCPULOCAL then read_numbered modrm burn_read_cr else [IMovFrom false (get_rm modrm) (in_cpu c)]
  | None => []
  end.
Definition to_control (modrm : Z) : list instr :=
  match control (get_reg modrm) with Some (f, _) => [IPush (get_rm modrm); wedge_call f; IAddEsp 4] | None => [] end.
(** The groups [0x0f 0x00] (on the value) and [0x0f 0x01] (on the address). *)
Definition group_00 (r : Z) : option burn_func :=
  match r with 1 => Some burn_str | 2 => Some burn_lldt | 3 => Some burn_ltr | _ => None end.
Definition group_01 (r : Z) : option burn_func :=
  match r with 2 => Some burn_lgdt | 3 => Some burn_lidt | 7 => Some burn_invlpg | 5 => None | _ => Some burn_unimplemented end.
(** In [EAX] the operand or its address; one word is on the stack. *)
Definition with_eax (load : instr) (f : option burn_func) : list instr :=
  match f with Some f => [IPush EAX; load; wedge_call f; IPop EAX] | None => [] end.
Definition translation2 (op modrm : Z) (sfx : list Z) : list instr :=
  match op with
  | 0x09 => [wedge_call burn_wbinvd] | 0x08 => [wedge_call burn_invd] | 0x0b => [wedge_call burn_ud2]
  | 0xa0 => seg_push burn_read_fs cpu_fs | 0xa1 => seg_pop burn_write_fs cpu_fs
  | 0xa8 => seg_push burn_read_gs cpu_gs | 0xa9 => seg_pop burn_write_gs cpu_gs
  | 0xa2 => [wedge_call burn_cpuid] | 0x06 => [wedge_call burn_clts]
  | 0x30 => [wedge_call burn_wrmsr] | 0x32 => [wedge_call burn_rdmsr]
  | 0x20 => from_control modrm | 0x22 => to_control modrm
  | 0x21 => read_numbered modrm burn_read_dr
  | 0x23 => [IPush (get_rm modrm); IPushImm (get_reg modrm); wedge_call burn_write_dr; IAddEsp 8]
  | 0x00 => with_eax (IMovzx EAX (adjusted 4 modrm sfx)) (group_00 (get_reg modrm))
  | 0x01 => with_eax (ILea EAX (adjusted 4 modrm sfx)) (group_01 (get_reg modrm))
  | 0xb2 => with_eax (ILea EAX (adjusted 4 modrm sfx)) (Some burn_lss) ++ [IMovFrom false ESP (adjusted 0 modrm sfx)]
  | _ => []
  end.
Definition translation (m : Z → Z) (q end_ v : Z) (size16 : bool) : list instr :=
  let w := if size16 then 16 else 32 in
  let next := m (q + 1) in
  match m q with
  | 0xf4 => [wedge_call burn_interruptible_hlt]
  | 0xcc => [INop]
  | 0xcd => [IPushImm (u32 next); wedge_call burn_int; IJmp (u32 (q + v))]
  | 0xcf => [wedge_jump burn_iret] | 0xcb => [wedge_jump burn_lret]
  | 0xea => [IPushImm (u32 (m (q + 5) + 2 ^ 8 * m (q + 6))); IPushImm (u32 (word32 (bytes_at m (q + 1) 4))); wedge_jump burn_write_cs]
  | 0xe7 => io_imm w next (pic_out next) burn_out | 0xe6 => io_imm 8 next (pic_out next) burn_out
  | 0xe5 => io_imm w next (pic_in next) burn_in | 0xe4 => io_imm 8 next (pic_in next) burn_in
  | 0xef => io_dx w burn_out | 0xee => io_dx 8 burn_out | 0xed => io_dx w burn_in | 0xec => io_dx 8 burn_in
  | 0x6f => io_string w 6 burn_outs | 0x6e => io_string 8 6 burn_outs
  | 0x6d => io_string w 7 burn_ins | 0x6c => io_string 8 7 burn_ins
  | 0x9c => if CONFIG_CALLOUT_VCPULOCAL then [IPushf; wedge_call burn_pushf] else [IPushM (in_cpu cpu_flags)]
  | 0x9d => popf_code end_ v
  | 0xfa => if CONFIG_CALLOUT_VCPULOCAL then [wedge_call burn_cli] else [IBtr (in_cpu cpu_flags) 9]
  | 0xfb => sti_code end_ v
  | 0x0e => seg_push burn_read_cs cpu_cs
  | 0x16 => seg_push burn_read_ss cpu_ss | 0x17 => seg_pop burn_write_ss cpu_ss
  | 0x1e => seg_push burn_read_ds cpu_ds | 0x1f => seg_pop burn_write_ds cpu_ds
  | 0x06 => seg_push burn_read_es cpu_es | 0x07 => seg_pop burn_write_es cpu_es
  | 0x8e => if hardware_segments then [] else to_segment next
  | 0x8c => if hardware_segments then [] else from_segment next
  | 0x0f => translation2 next (m (q + 2)) (bytes_at m (q + 3) 6)
  | _ => []
  end.
End translation.

(** ** Instructions that are always accepted *)

Definition simple_op (b : Z) : Prop :=
  b ∈ [OP_HLT; OP_INT3; OP_INT; OP_IRET; OP_LRET; OP_JMP_FAR; OP_OUT; OP_OUT_DX; OP_OUTB; OP_OUTB_DX; OP_OUTS_DX; OP_OUTSB_DX;
    OP_IN; OP_IN_DX; OP_INB; OP_INB_DX; OP_INS_DX; OP_INSB_DX; OP_PUSHF; OP_POPF; OP_PUSH_CS; OP_PUSH_SS; OP_POP_SS;
    OP_PUSH_DS; OP_POP_DS; OP_PUSH_ES; OP_POP_ES; OP_CLI; OP_STI].
Definition simple_op2 (b : Z) : Prop :=
  b ∈ [OP_WBINVD; OP_INVD; OP_UD2; OP_PUSH_FS; OP_POP_FS; OP_PUSH_GS; OP_POP_GS; OP_CPUID; OP_CLTS; OP_WRMSR; OP_RDMSR].
(** A move between registers of a register that exists. *)
Definition reg_move {A} (table : Z → option A) (modrm : Z) : Prop := is_register_mode modrm = true ∧ is_Some (table (get_reg modrm)).
(** The two-byte instructions with an operand. *)
Definition operand_op2 (b modrm : Z) : Prop :=
  (b = OP_MOV_FROMCREG ∨ b = OP_MOV_TOCREG) ∧ reg_move control modrm ∨
  (b = OP_MOV_FROMDREG ∨ b = OP_MOV_TODREG) ∧ is_register_mode modrm = true ∨
  b = OP_LLTL ∧ is_Some (group_00 (get_reg modrm)) ∨
  b = OP_LDTL ∧ is_register_mode modrm = false ∧ is_Some (group_01 (get_reg modrm)) ∨
  b = OP_LSS ∧ is_register_mode modrm = false.
(** The instruction at [q] is one of the table. *)
Definition supported (m : Z → Z) (q : Z) : Prop :=
  simple_op (m q) ∨
  (m q = OP_MOV_TOSEG ∨ m q = OP_MOV_FROMSEG) ∧ reg_move segment (m (q + 1)) ∨
  m q = OP_2BYTE ∧ (simple_op2 (m (q + 1)) ∨ operand_op2 (m (q + 1)) (m (q + 2))).

(** A conditional on constants. *)
Lemma wp_if_true {S A} F (b : bool) (m m' : M S A) Q s : b = true → wp F m Q s → wp F (if b then m else m') Q s.
Proof. by intros ->. Qed.
Lemma wp_if_false {S A} F (b : bool) (m m' : M S A) Q s : b = false → wp F m' Q s → wp F (if b then m else m') Q s.
Proof. by intros ->. Qed.
Ltac known_branch :=
  lazymatch goal with |- wp _ (if ?b then _ else _) _ _ =>
    let b' := eval vm_compute in b in
    lazymatch b' with
    | true => apply wp_if_true; [vm_compute; reflexivity|]
    | false => apply wp_if_false; [vm_compute; reflexivity|]
    end end.
Ltac each_elem H := repeat (apply elem_of_cons in H as [H|H]; [subst|]); [..|by apply not_elem_of_nil in H].

Lemma port_out_pic port : port_out port = pic_out port.
Proof.
  unfold port_out. repeat (case_bool_decide; [by subst|]). unfold pic_out. by repeat case_match.
Qed.
Lemma port_in_pic port : port_in port = pic_in port.
Proof.
  unfold port_in. repeat (case_bool_decide; [by subst|]). unfold pic_in. by repeat case_match.
Qed.
Lemma reg_imm r : 0 ≤ r < 8 → sext8 (u8 r) = r.
Proof. intros Hr. each_reg Hr; reflexivity. Qed.
Lemma jz_end v p end_ : p + 2 ≤ end_ ≤ p + 129 → IJz (u32 (p + v + 2 + sext8 (u8 (end_ - (p + 2))))) = IJz (u32 (end_ + v)).
Proof. intros. f_equal. by apply jz_target. Qed.
Lemma jmp_int v p : IJmp (u32 (p + 5 + 5 + v + 2 + sext8 (u8 (-12)))) = IJmp (u32 (p + v)).
Proof.
  f_equal. change (sext8 (u8 (-12))) with (2 ^ 32 - 12). unfold wrap. rewrite <- (Z.mod_add (p + v) 1) by done. f_equal. lia.
Qed.

Section accept.
Context {E : RewriteEnv} (m0 : Z → Z) (start end_ : Z).
Hypothesis bytes_ok : ∀ a, is_byte (m0 a).
Hypothesis suffixes_ok : Forall is_byte uninit_suffixes.
Hypothesis short_block : end_ - start ≤ 128.

(** [emitted] up to [p' ≤ p + 30], with [code] behind the no-ops. *)
Definition exactly (v p : Z) (nops : list instr) (code : list instr) (r : option Z) (s : rw_t) : Prop :=
  ∃ p' so, r = Some p' ∧ p' ≤ p + 30 ∧ emitted m0 start v p' (nops ++ code) so s.
Lemma exactly_intro v p nops code p' l so s :
  p' ≤ p + 30 → emitted m0 start v p' l so s → l = nops ++ code → exactly v p nops code (Some p') s.
Proof. intros Hp Hem ->. by exists p', so. Qed.
(** The entry of the table for a known operation code. *)
Ltac by_table :=
  lazymatch goal with
  | |- context [translation2 ?op ?modrm ?sfx] =>
      let op' := eval vm_compute in op in change (translation2 op modrm sfx) with (translation2 op' modrm sfx)
  end; cbn [translation2]; unfold seg_push, seg_pop, with_eax.
Ltac by_table1 H :=
  lazymatch type of H with ?op = ?c => unfold translation; rewrite H; let c' := eval vm_compute in c in change c with c'; cbv iota zeta end.
Ltac same_code :=
  rewrite ?app_nil_r; rewrite <- ?app_assoc; cbn [app]; rewrite ?jmp_int, ?reg_imm by apply get_reg_range; rewrite ?jz_end by lia; reflexivity.
Ltac exact_code := eapply exactly_intro; [lia|eassumption|same_code].

Lemma simple_op2_exact p s v nops modrm sfx :
  emitted m0 start v p nops 0 s → simple_op2 (rw_mem s (p + 1)) →
  wp no_fault (patch_2byte p p end_) (exactly v p nops (translation2 (rw_mem s (p + 1)) modrm sfx)) s.
Proof.
  intros Hem Hop. unfold patch_2byte. wp_step. unfold load8 at 1. wp_step. cbv zeta. unfold simple_op2 in Hop.
  set (op := rw_mem s (p + 1)) in *. clearbody op.
  each_elem Hop; repeat known_branch; by_table; em_steps; exact_code.
Qed.
Lemma control_found r f c : control r = Some (f, c) →
  cr_field r = Some c ∧ burn_write_cr r = Some f ∧ bool_decide (r ≠ 1) && bool_decide (r ≤ 4) = true.
Proof. unfold control. by repeat (case_match; try done); intros [= <- <-]. Qed.
Lemma segment_found r f g c : segment r = Some (f, g, c) → seg_read r = Some (f, c) ∧ seg_write r = Some (g, c).
Proof. unfold segment. by repeat (case_match; try done); intros [= <- <- <-]. Qed.
Lemma group_00_found r f : group_00 r = Some f → zlookup [None; Some burn_str; Some burn_lldt; Some burn_ltr] r = Some (Some f).
Proof. unfold group_00. by repeat (case_match; try done); intros [= <-]. Qed.
Lemma group_01_found r f : 0 ≤ r < 8 → group_01 r = Some f →
  zlookup [Some burn_unimplemented; Some burn_unimplemented; Some burn_lgdt; Some burn_lidt;
      Some burn_unimplemented; None; Some burn_unimplemented; Some burn_invlpg] r = Some (Some f).
Proof. intros Hr. each_reg Hr; by intros [= <-]. Qed.
Lemma operand_op2_exact p s v nops :
  emitted m0 start v p nops 0 s → start ≤ p → operand_op2 (rw_mem s (p + 1)) (rw_mem s (p + 2)) →
  wp no_fault (patch_2byte p p end_) (exactly v p nops (translation2 (rw_mem s (p + 1)) (rw_mem s (p + 2)) (bytes_at (rw_mem s) (p + 3) 6))) s.
Proof.
  intros Hem Hp Hop. unfold patch_2byte. wp_step. unfold load8 at 1. wp_step. cbv zeta.
  destruct Hop as [[[-> | ->] [Hmode [[f c] Hc]]]|[[[-> | ->] Hmode]|[[-> [f Hf]]|[(-> & Hmode & [f Hf])|[-> Hmode]]]]]; repeat known_branch.
  - by_table. unfold from_control. rewrite Hc. destruct (control_found _ _ _ Hc) as (Hf & _ & Ha).
    em_steps; try congruence; simplify_eq; exact_code.
  - by_table. unfold to_control. rewrite Hc. destruct (control_found _ _ _ Hc) as (_ & Hf & Ha).
    em_steps; try congruence; simplify_eq; exact_code.
  - by_table. em_steps; exact_code.
  - by_table. em_steps; exact_code.
  - by_table. rewrite Hf. apply group_00_found in Hf. change get_reg with get_opcode in Hf. em_steps; simplify_eq; exact_code.
  - by_table. rewrite Hf. apply group_01_found in Hf; [|apply get_reg_range]. change get_reg with get_opcode in Hf. em_steps; simplify_eq; exact_code.
  - by_table. em_steps. exact_code.
Qed.

(** The instructions of one byte but the far jump and the breakpoint. *)
Lemma simple_op_exact p s v nops pf :
  emitted m0 start v p nops 0 s → start ≤ p → p + 30 ≤ end_ → simple_op (rw_mem s p) → rw_mem s p ≠ OP_INT3 → rw_mem s p ≠ OP_JMP_FAR →
  wp no_fault (patch_1byte p p end_ pf (rw_mem s p)) (exactly v p nops (translation (rw_mem s) p end_ v (operand_size_prefix pf))) s.
Proof.
  intros Hem Hp Hend Hop H1 H2. unfold simple_op in Hop. unfold patch_1byte. cbv zeta.
  each_elem Hop; try done; by_table1 Hop; repeat known_branch; unfold popf_code, sti_code, deliver_pending, io_imm, seg_push, seg_pop.
  all: rewrite <- ?port_out_pic, <- ?port_in_pic; destruct pf as [rep size seg]; destruct size.
  all: em_steps; try congruence. all: simplify_eq; exact_code.
Qed.
Lemma segment_move_exact p s v nops pf :
  emitted m0 start v p nops 0 s → rw_mem s p = OP_MOV_TOSEG ∨ rw_mem s p = OP_MOV_FROMSEG → reg_move segment (rw_mem s (p + 1)) →
  wp no_fault (patch_1byte p p end_ pf (rw_mem s p)) (exactly v p nops (translation (rw_mem s) p end_ v (operand_size_prefix pf))) s.
Proof.
  intros Hem Hop [Hmode [[[f g] c] Hc]]. destruct (segment_found _ _ _ _ Hc) as [Hf Hg]. unfold patch_1byte. cbv zeta.
  destruct Hop as [Hop|Hop]; by_table1 Hop; unfold to_segment, from_segment; rewrite Hc; repeat known_branch.
  all: em_steps; try congruence. all: simplify_eq; exact_code.
Qed.
Lemma jmp_far_exact p s nops pf v :
  emitted m0 start get_kernel_vaddr p nops 0 (rw_set_curr_virt_addr get_kernel_vaddr s) → rw_mem s p = OP_JMP_FAR →
  wp no_fault (patch_1byte p p end_ pf (rw_mem s p)) (exactly get_kernel_vaddr p nops (translation (rw_mem s) p end_ v (operand_size_prefix pf))) s.
Proof.
  intros Hem Hop. unfold patch_1byte. cbv zeta. by_table1 Hop. repeat known_branch. unfold some, patch_jmp_far. wp_step. wp_step. wp_step.
  unfold load32. do 2 wp_step. apply load_bytes_wp. wp_step. wp_step. apply load_bytes_wp. cbn [rw_mem rw_set_curr_virt_addr].
  replace (bytes_at (rw_mem s) (p + 5) 2) with [rw_mem s (p + 5); rw_mem s (p + 6)]
    by (rewrite !bytes_at_S; do 3 f_equal; lia).
  em_steps. exact_code.
Qed.
End accept.

(** ** A block after the rewriter *)

Section block.
Context {E : RewriteEnv}.
(** A far jump leaves physical mode: this block and those behind it run at virtual addresses. *)
Definition runs_at (m : Z → Z) (v q : Z) : Z := if decide (m q = OP_JMP_FAR) then get_kernel_vaddr else v.
(** A breakpoint moves to the last byte. *)
Definition int3_moved (m : Z → Z) (q end_ : Z) : Z → Z := if decide (m q = OP_INT3) then <[end_ - 1 := OP_INT3]> m else m.
Definition size16 (m : Z → Z) (start q : Z) : bool := bool_decide (prefix_operand_size ∈ bytes_at m start (Z.to_nat (q - start))).
(** [m'] has in the block no-ops for the prefixes, the translation of the instruction at
    [q], and what was there before in [m] behind it. *)
Definition holds_translation (m m' : Z → Z) (start end_ v q : Z) : Prop :=
  ∃ bs, start + length bs ≤ end_ ∧
    codes (start + v) bs (replicate (Z.to_nat (q - start)) INop ++ translation m q end_ v (size16 m start q)) ∧
    ∀ a, start ≤ a < end_ → m' a = wr start bs (int3_moved m q end_) a.

Lemma bytes_at_agree m m' a (n : nat) : (∀ x, a ≤ x < a + n → m x = m' x) → bytes_at m a n = bytes_at m' a n.
Proof.
  revert a. induction n as [|n IH]; intros a Heq; [done|]. rewrite !bytes_at_S, (Heq a) by lia. f_equal. apply IH. intros. apply Heq. lia.
Qed.
Lemma bytes_at_snoc m a n : bytes_at m a (S n) = bytes_at m a n ++ [m (a + n)].
Proof. unfold bytes_at. by rewrite seq_S, !fmap_app. Qed.
Lemma translation_ext m m' q end_ v w : (∀ x, q ≤ x < q + 9 → m x = m' x) → translation m q end_ v w = translation m' q end_ v w.
Proof.
  intros Heq. unfold translation. rewrite !(Heq q), !(Heq (q + 1)), !(Heq (q + 2)), !(Heq (q + 5)), !(Heq (q + 6)) by lia.
  by rewrite !(bytes_at_agree m m') by (intros; apply Heq; lia).
Qed.
Lemma supported_ext m m' q : m q = m' q → m (q + 1) = m' (q + 1) → m (q + 2) = m' (q + 2) → supported m q → supported m' q.
Proof. unfold supported. by intros -> -> ->. Qed.

(** What stands in the block decides. *)
Lemma holds_translation_same m m1 m' m1' start end_ v q :
  start ≤ q → q + 30 ≤ end_ → (∀ a, start ≤ a < end_ → m a = m1 a ∧ m' a = m1' a) →
  holds_translation m m' start end_ v q → holds_translation m1 m1' start end_ v q.
Proof.
  intros Hq Hend Heq (bs & Hlen & Hc & Hm). exists bs. split_and!; [done| |].
  - unfold size16 in *. rewrite <- (translation_ext m m1) by (intros; apply Heq; lia).
    rewrite <- (bytes_at_agree m m1) by (intros; apply Heq; lia). done.
  - intros a Ha. destruct (Heq a Ha) as [H1 <-]. rewrite Hm by done. unfold wr. case_decide; [done|]. unfold int3_moved.
    destruct (Heq q ltac:(lia)) as [-> _]. case_decide; [|done]. unfold insert, fn_insert. by case_decide.
Qed.

Section loop.
Context (m0 : Z → Z) (start end_ : Z).
Hypothesis bytes_ok : ∀ a, is_byte (m0 a).
Hypothesis suffixes_ok : Forall is_byte uninit_suffixes.
Hypothesis short_block : end_ - start ≤ 128.

Definition block_post (v q : Z) (r : option Z) (s : rw_t) : Prop :=
  fits r end_ = true ∧ rw_curr_virt_addr s = runs_at m0 v q ∧ holds_translation m0 (rw_mem s) start end_ (runs_at m0 v q) q.
Lemma exactly_post v q w r s :
  q + 30 ≤ end_ → m0 q ≠ OP_INT3 → w = size16 m0 start q →
  exactly m0 start (runs_at m0 v q) q (replicate (Z.to_nat (q - start)) INop) (translation m0 q end_ (runs_at m0 v q) w) r s →
  block_post v q r s.
Proof.
  intros Hend Hop -> (p & so & -> & Hp & bs & Hm & -> & Hc & Hv & _). split_and!; [|done|].
  - simpl. by rewrite bool_decide_false by lia.
  - exists bs. split_and!; [lia|done|]. intros a _. unfold int3_moved. by rewrite decide_False.
Qed.
Lemma nops_done_exact p s : start ≤ p → nops_done m0 start p s →
  emitted m0 start (rw_curr_virt_addr s) p (replicate (Z.to_nat (p - start)) INop) 0 s ∧ ∀ a, p ≤ a → rw_mem s a = m0 a.
Proof.
  intros Hp (n & Hm & -> & Hso). replace (Z.to_nat (start + n - start)) with n by lia. split.
  - exists (replicate n OP_NOP1). rewrite length_replicate. split_and!; auto using codes_nops, nops_bytes.
  - intros a Ha. rewrite Hm. unfold wr. rewrite length_replicate, decide_False by lia. done.
Qed.
Lemma int3_exact q s pf : start ≤ q → q + 30 ≤ end_ → nops_done m0 start q s → m0 q = OP_INT3 →
  wp no_fault (patch_1byte q q end_ pf OP_INT3) (block_post (rw_curr_virt_addr s) q) s.
Proof.
  intros Hq Hend (n & Hm & -> & Hso) Hop. unfold patch_1byte. cbv zeta. repeat known_branch. unfold store8. do 5 wp_step.
  assert (runs_at m0 (rw_curr_virt_addr s) (start + n) = rw_curr_virt_addr s) as Hrun by (unfold runs_at; by rewrite Hop).
  split_and!; [simpl; by rewrite bool_decide_false by lia|by rewrite Hrun|]. rewrite Hrun.
  exists (replicate (S n) OP_NOP1). rewrite length_replicate. split_and!; [lia| |].
  - unfold translation. rewrite Hop. replace (Z.to_nat (start + n - start)) with n by lia.
    change OP_INT3 with 0xcc. cbv iota zeta. rewrite <- replicate_S_end. apply codes_nops.
  - intros a Ha. unfold int3_moved. rewrite decide_True by done. cbn [rw_mem rw_set_mem]. unfold wr. rewrite length_replicate.
    unfold insert, fn_insert. repeat case_decide; try lia; subst; rewrite ?Hm; unfold wr; rewrite ?length_replicate;
      repeat case_decide; try lia; try done; rewrite ?nth_lookup, ?lookup_replicate_2 by lia; done.
Qed.
Lemma supported_exact q s pf :
  start ≤ q → q + 30 ≤ end_ → nops_done m0 start q s → supported m0 q → operand_size_prefix pf = size16 m0 start q →
  wp no_fault (patch_1byte q q end_ pf (m0 q)) (block_post (rw_curr_virt_addr s) q) s.
Proof.
  intros Hq Hend Hn Hop Hw. destruct (decide (m0 q = OP_INT3)) as [Hi|Hi]; [rewrite Hi; by apply int3_exact|].
  destruct (nops_done_exact q s Hq Hn) as [Hem Heq].
  set (nops := replicate (Z.to_nat (q - start)) INop) in *.
  eapply wp_mono; [|intros r s'; exact (exactly_post (rw_curr_virt_addr s) q (operand_size_prefix pf) r s' Hend Hi Hw)].
  rewrite <- (translation_ext (rw_mem s) m0) by (intros; apply Heq; lia). rewrite <- (Heq q) by lia. unfold runs_at. rewrite <- (Heq q) by lia.
  apply (supported_ext m0 (rw_mem s)) in Hop; [|by rewrite Heq by lia..].
  destruct (decide (rw_mem s q = OP_JMP_FAR)) as [Hj|Hj].
  - apply jmp_far_exact; [|done].
    apply (nops_done_exact q (rw_set_curr_virt_addr get_kernel_vaddr s)); [done|]. destruct Hn as (n & Hn). by exists n.
  - rewrite <- (Heq q) in Hi by lia. destruct Hop as [Hop|[[Hop Hmv]|[Hop H2]]].
    + by apply simple_op_exact.
    + by apply segment_move_exact.
    + unfold patch_1byte, translation. cbv zeta. rewrite Hop. repeat known_branch. change OP_2BYTE with 0x0f. cbv iota.
      destruct H2; [by apply simple_op2_exact|by apply operand_op2_exact].
Qed.
Lemma size16_next p : start ≤ p → size16 m0 start (p + 1) = size16 m0 start p || bool_decide (m0 p = prefix_operand_size).
Proof.
  intros Hp. unfold size16. replace (Z.to_nat (p + 1 - start)) with (S (Z.to_nat (p - start))) by lia.
  rewrite bytes_at_snoc. replace (start + Z.to_nat (p - start)) with p by lia.
  apply eq_true_iff_eq. rewrite orb_true_iff, !bool_decide_eq_true. set_solver.
Qed.
Lemma patch_loop_exact q (fuel : nat) : ∀ p pf s,
  nops_done m0 start p s → start ≤ p ≤ q → q + 30 ≤ end_ → supported m0 q → (∀ x, p ≤ x < q → is_prefix (m0 x)) →
  operand_size_prefix pf = size16 m0 start p → q - p < fuel →
  wp no_fault (patch_loop fuel p p end_ pf) (block_post (rw_curr_virt_addr s) q) s.
Proof.
  induction fuel as [|fuel IH]; intros p pf s Hn Hp Hend Hop Hpre Hw Hfuel; [lia|]. simpl. wp_step. unfold load8. wp_step.
  destruct (nops_done_exact p s ltac:(lia) Hn) as [_ Heq]. rewrite (Heq p) by lia.
  destruct (decide (p = q)) as [->|Hne].
  - pose proof (supported_exact q s pf ltac:(lia) Hend Hn Hop Hw) as Hok.
    destruct Hop as [Hop|[[[Hop|Hop] _]|[Hop _]]]; [|rewrite Hop in *; repeat known_branch; exact Hok..].
    unfold simple_op in Hop. set (op := m0 q) in *. clearbody op. each_elem Hop; repeat known_branch; exact Hok.
  - assert (∀ pf' s1, nops_done m0 start p s1 → rw_curr_virt_addr s1 = rw_curr_virt_addr s →
      operand_size_prefix pf' = size16 m0 start (p + 1) →
      wp no_fault (p' ← emit p [OP_NOP1]; patch_loop fuel (p + 1) p' end_ pf') (block_post (rw_curr_virt_addr s) q) s1) as Hnext.
    { intros pf' s1 Hn1 <- Hw'. wp_step. apply emit_wp. intros m1 Hm1. cbn [length]. replace (p + 1%nat) with (p + 1) by lia.
      change (rw_curr_virt_addr s1) with (rw_curr_virt_addr (rw_set_mem m1 s1)).
      apply IH; try lia; [by apply nops_done_next|done| |done]. intros. apply Hpre. lia. }
    assert (is_prefix (m0 p)) as Hh by (apply Hpre; lia). rewrite size16_next in Hnext by lia. rewrite <- Hw in Hnext.
    unfold is_prefix in Hh. set (op := m0 p) in *. clearbody op.
    each_elem Hh; repeat known_branch; try (apply Hnext; [done..|]; cbn [operand_size_prefix]; by rewrite ?orb_false_r, ?orb_true_r).
Qed.
Lemma apply_patchup_exact (fuel : nat) s q :
  (∀ a, rw_mem s a = m0 a) → start ≤ q → q + 30 ≤ end_ → supported m0 q → (∀ x, start ≤ x < q → is_prefix (m0 x)) → 128 ≤ fuel →
  ∃ s', apply_patchup fuel start end_ s = Ok true s' ∧ rw_curr_virt_addr s' = runs_at m0 (rw_curr_virt_addr s) q ∧
    holds_translation m0 (rw_mem s') start end_ (runs_at m0 (rw_curr_virt_addr s) q) q.
Proof.
  intros Hm Hq Hend Hop Hpre Hfuel.
  enough (wp no_fault (apply_patchup fuel start end_) (λ b s', b = true ∧ rw_curr_virt_addr s' = runs_at m0 (rw_curr_virt_addr s) q ∧
    holds_translation m0 (rw_mem s') start end_ (runs_at m0 (rw_curr_virt_addr s) q) q) s) as Hw.
  { apply wp_no_fault in Hw as (b & s' & -> & -> & Hx). by exists s'. }
  unfold apply_patchup. do 3 wp_step. eapply wp_mono; [apply (patch_loop_exact q); try done; try lia|].
  - exists 0%nat. split_and!; [|simpl; lia|done]. intros a. simpl. by rewrite wr_nil.
  - unfold size16. by rewrite Z.sub_diag.
  - intros r s' (Hfit & Hv & Hh). wp_step. by rewrite Hfit.
Qed.
End loop.
End block.

(** ** The table of a kernel *)

Section table.
Context {E : RewriteEnv} (fuel : nat) (vaddr_offset : Z).
Hypothesis fuel_ok : 128 ≤ fuel.
Definition covers (e : Z * Z) (a : Z) : Prop := e.1 - vaddr_offset ≤ a < e.2 - vaddr_offset.
(** An entry whose block holds an operation code behind at most prefixes. *)
Definition entry_ok (m : Z → Z) (e : Z * Z) : Prop := e.2 - e.1 ≤ 128 ∧ ∃ q, covers e q ∧ ¬ is_prefix (m q).
Definition disjoint_blocks (l : list (Z * Z)) : Prop :=
  ∀ i j e e', l !! i = Some e → l !! j = Some e' → i ≠ j → ∀ a, covers e a → ¬ covers e' a.

Lemma block_holds_same m0 m0' start end_ v m m' :
  block_holds m0 start end_ v m → (∀ a, start ≤ a < end_ → m' a = m a ∧ m0' a = m0 a) → block_holds m0' start end_ v m'.
Proof.
  intros (bs & l & Hb & Hlen & Hc & Hl & Hrest) Heq. exists bs, l. split_and!; try done.
  - intros i b Hi. pose proof (lookup_lt_Some _ _ _ Hi). destruct (Heq (start + i)) as [-> _]; [lia|]. auto.
  - intros a Ha. destruct (Heq a) as [-> ->]; [lia|]. auto.
Qed.
Definition table_done (l : list (Z * Z)) (m m' : Z → Z) : Prop :=
  (∀ a, (∀ e, e ∈ l → ¬ covers e a) → m' a = m a) ∧
  ∀ e, e ∈ l → ∃ v, (v = 0 ∨ v = get_kernel_vaddr) ∧ block_holds m (e.1 - vaddr_offset) (e.2 - vaddr_offset) v m'.
Lemma apply_all_ok l : ∀ s,
  (∀ a, is_byte (rw_mem s a)) → Forall is_byte uninit_suffixes → disjoint_blocks l → Forall (entry_ok (rw_mem s)) l →
  (rw_curr_virt_addr s = 0 ∨ rw_curr_virt_addr s = get_kernel_vaddr) →
  wp assert_only (apply_all fuel l vaddr_offset) (λ good s', good = true → table_done l (rw_mem s) (rw_mem s')) s.
Proof.
  induction l as [|[b e] l IH]; intros s Hbytes Huninit Hdis Hok Hv; simpl.
  - wp_step. intros _. split; [done|]. intros e He. by apply not_elem_of_nil in He.
  - inversion Hok as [|? ? [Hshort (q & Hq & Hpre)] Hok']; subst. unfold covers in Hq; simpl in *. wp_step.
    eapply wp_mono; [eapply (apply_patchup_ok (rw_mem s) _ _ Hbytes Huninit); [lia|done|exact Hq|done|done]|].
    intros good s1 [Hv1 Hp]. destruct good; [|by wp_step]. destruct (Hp eq_refl) as (Hout & Hb1 & Hblk).
    assert (∀ e' a, e' ∈ l → covers e' a → ¬ covers (b, e) a) as Hdis1.
    { intros e' a [j Hj]%list_elem_of_lookup Ha Hc. by apply (Hdis 0%nat (S j) (b, e) e' eq_refl Hj ltac:(lia) a). }
    eapply wp_mono; [apply IH; try done|].
    + intros i j e1 e2 H1 H2 Hij. apply (Hdis (S i) (S j)); [done..|lia].
    + apply list.Forall_forall. intros e' He'. destruct (proj1 (list.Forall_forall _ _) Hok' e' He') as [Hs (q' & Hq' & Hpre')].
      split; [done|]. exists q'. split; [done|]. rewrite Hout; [done|]. by apply (Hdis1 e').
    + destruct Hv1 as [-> | ->]; auto.
    + intros good s2 Hd Hg. destruct (Hd Hg) as [Hsame Hall]. split.
      * intros a Ha. rewrite Hsame; [apply Hout, (Ha (b, e)); by left|]. intros e' He'. apply Ha. by right.
      * intros e' [->|He']%elem_of_cons.
        -- exists (rw_curr_virt_addr s1). split; [destruct Hv1 as [-> | ->]; auto|]. eapply block_holds_same; [done|].
           intros a Ha. split; [|done]. apply Hsame. intros e1 He1 Hc. by apply (Hdis1 e1 a He1 Hc).
        -- destruct (Hall e' He') as (v & Hv' & Hh). exists v. split; [done|]. eapply block_holds_same; [done|].
           intros a Ha. split; [done|]. symmetry. apply Hout. by apply (Hdis1 e').
Qed.

(** The entry holds at [q] an instruction of the table, behind prefixes, with 30 bytes left. *)
Definition entry_at (m : Z → Z) (e : Z * Z) (q : Z) : Prop :=
  e.1 - vaddr_offset ≤ q ∧ q + 30 ≤ e.2 - vaddr_offset ∧ supported m q ∧ ∀ x, e.1 - vaddr_offset ≤ x < q → is_prefix (m x).
Definition entry_supported (m : Z → Z) (e : Z * Z) : Prop := ∃ q, entry_at m e q.
(** All entries hold the translations; [v] is where the first of them runs. *)
Fixpoint all_translated (m m' : Z → Z) (v : Z) (l : list (Z * Z)) : Prop :=
  match l with
  | [] => True
  | e :: l => ∃ q, entry_at m e q ∧ holds_translation m m' (e.1 - vaddr_offset) (e.2 - vaddr_offset) (runs_at m v q) q ∧
      all_translated m m' (runs_at m v q) l
  end.
Lemma entry_at_same m m' e q : (∀ a, covers e a → m a = m' a) → entry_at m e q → entry_at m' e q.
Proof.
  intros Heq (Hq & Hlen & Hs & Hh). unfold covers in Heq. split_and!; [done..| |].
  - eapply supported_ext; [apply Heq; lia..|done].
  - intros x Hx. rewrite <- Heq by lia. auto.
Qed.
Lemma all_translated_same m m1 m' l : ∀ v,
  (∀ e a, e ∈ l → covers e a → m a = m1 a) → all_translated m m' v l → all_translated m1 m' v l.
Proof.
  induction l as [|e l IH]; intros v Heq; [done|]. intros (q & Hat & Hh & Hl).
  assert (∀ a, covers e a → m a = m1 a) as He by (intros; apply (Heq e); [left|done]). pose proof Hat as (Hq & Hlen & _).
  exists q. replace (runs_at m1 v q) with (runs_at m v q) by (unfold runs_at; rewrite He; [done|unfold covers; lia]).
  split_and!; [by apply (entry_at_same m)| |apply IH; [|done]; intros e' a He'; apply Heq; by right].
  eapply holds_translation_same; [done..| |done]. intros a Ha. split; [by apply He|done].
Qed.
Lemma apply_all_exact l : ∀ s,
  (∀ a, is_byte (rw_mem s a)) → Forall is_byte uninit_suffixes → disjoint_blocks l → Forall (entry_ok (rw_mem s)) l →
  (rw_curr_virt_addr s = 0 ∨ rw_curr_virt_addr s = get_kernel_vaddr) → Forall (entry_supported (rw_mem s)) l →
  ∃ s', apply_all fuel l vaddr_offset s = Ok true s' ∧ all_translated (rw_mem s) (rw_mem s') (rw_curr_virt_addr s) l.
Proof.
  induction l as [|[b e] l IH]; intros s Hbytes Huninit Hdis Hok Hv Hsup; [by eexists|].
  inversion Hok as [|? ? [Hshort (q & Hq & Hpre)] Hok']; inversion Hsup as [|? ? (q1 & Hat) Hsup']; subst.
  pose proof Hat as (Hq1 & Hlen & Hs & Hh). unfold covers in Hq; simpl in *.
  destruct (apply_patchup_exact (rw_mem s) (b - vaddr_offset) (e - vaddr_offset) Hbytes Huninit ltac:(lia) fuel s q1)
    as (s1 & Hs1 & Hv1 & Hh1); try done.
  destruct (wp_ok _ _ _ _ _ _ (apply_patchup_ok (rw_mem s) (b - vaddr_offset) (e - vaddr_offset) Hbytes Huninit ltac:(lia) fuel s q ltac:(done) Hq Hpre fuel_ok) Hs1)
    as [Hv1' (Hout & Hb1 & _)]; [done|].
  assert (∀ e' a, e' ∈ l → covers e' a → ¬ covers (b, e) a) as Hdis1.
  { intros e' a [j Hj]%list_elem_of_lookup Ha Hc. by apply (Hdis 0%nat (S j) (b, e) e' eq_refl Hj ltac:(lia) a). }
  assert (∀ e' a, e' ∈ l → covers e' a → rw_mem s1 a = rw_mem s a) as Hsame by (intros e' a He' Ha; apply Hout; by apply (Hdis1 e')).
  assert (disjoint_blocks l) as Hdis' by (intros i j e1 e2 H1 H2 Hij; apply (Hdis (S i) (S j)); [done..|lia]).
  assert (Forall (entry_ok (rw_mem s1)) l) as Hok1.
  { apply list.Forall_forall. intros e' He'. destruct (proj1 (list.Forall_forall _ _) Hok' e' He') as [Hs2 (q' & Hq' & Hpre')].
    split; [done|]. exists q'. split; [done|]. by rewrite (Hsame e'). }
  assert (rw_curr_virt_addr s1 = 0 ∨ rw_curr_virt_addr s1 = get_kernel_vaddr) as Hv2 by (destruct Hv1' as [-> | ->]; auto).
  destruct (IH s1) as (s' & Hs' & Hall); try done.
  { apply list.Forall_forall. intros e' He'. destruct (proj1 (list.Forall_forall _ _) Hsup' e' He') as [q' Hq'].
    exists q'. apply (entry_at_same (rw_mem s)); [|done]. intros a Ha. by rewrite (Hsame e'). }
  exists s'. split; [unfold mbind, M_bind; by rewrite Hs1|]. rewrite Hv1 in Hall. exists q1. split_and!; [done| |].
  - eapply holds_translation_same; [done..| |exact Hh1]. intros a Ha. split; [done|]. symmetry.
    destruct (wp_ok _ _ _ _ _ _ (apply_all_ok l s1 Hb1 Huninit Hdis' Hok1 Hv2) Hs') as [Hframe _]; [done|].
    apply Hframe. intros e' He' Hc. by apply (Hdis1 e' a).
  - eapply all_translated_same; [|exact Hall]. intros e' a He' Ha. by rewrite (Hsame e').
Qed.

End table.
