(* ===== verification/RewriteDevice.v ===== *)
(** * Device accesses: the patched block does what the guest's instruction meant

    [apply_device_patchup] replaces a move, or, and or exchange between a register and
    the memory of an emulated device by a call. The theorem: on the machine of Ia32.v the
    block calls the function of the access with the address that the guest's operand
    denoted before the block, and the value of its register; afterwards the register of
    the instruction holds the result and all other registers and the stack are as
    before. *)

From Stdlib Require Import ZArith Lia.
From stdpp Require Import base list functions numbers.
From S2P Require Import Prelude Rewrite Ia32 RewriteSpec RewritePatch.

(** ** Words *)

Lemma u32_u32_add a b : u32 (u32 a + b) = u32 (a + b).
Proof. unfold wrap. by rewrite Z.add_mod_idemp_l. Qed.
Lemma u32_u32_sub a b : u32 (u32 a - b) = u32 (a - b).
Proof. unfold wrap. by rewrite Zminus_mod_idemp_l. Qed.
Lemma u32_ne a b : 0 < a - b < 2 ^ 32 → u32 a ≠ u32 b.
Proof.
  unfold wrap. intros H Heq. pose proof (Z.div_mod a (2 ^ 32)). pose proof (Z.div_mod b (2 ^ 32)).
  assert (a - b = 2 ^ 32 * (a / 2 ^ 32 - b / 2 ^ 32)) by lia. nia.
Qed.
Lemma u32_cong a b : (∃ k, a = b + k * 2 ^ 32) → u32 a = u32 b.
Proof. intros [k ->]. unfold wrap. by rewrite Z.mod_add. Qed.

(** ** Operands are moved with the stack *)

Definition uses (o : operand) (r : Z) : Prop :=
  match o with OReg _ => False | OMem b x _ => b = Some r ∨ ∃ k, x = Some (r, k) end.
(** An 8-bit displacement from the stack pointer leaves room for what is pushed. *)
Definition disp8_room (so modrm : Z) (suffixes : list Z) : Prop :=
  get_mode modrm = 1 → get_rm modrm = 4 → get_base (hd 0 suffixes) = 4 → hd 0 (tl suffixes) < 128 →
  hd 0 (tl suffixes) + so < 128.
Lemma sext8_shift d so : is_byte d → 0 ≤ so ≤ 12 → (d < 128 → d + so < 128) → u32 (sext8 (u8 (d + so))) = u32 (sext8 d + so).
Proof.
  intros Hd Hso Hroom. unfold is_byte in Hd. unfold sext8.
  destruct (decide (d < 128)) as [Hlt|Hge].
  - rewrite (wrap_small 8) by lia. rewrite !bool_decide_true by lia. done.
  - rewrite (bool_decide_false (d < 128)) by lia. rewrite u32_u32_add.
    destruct (decide (d + so < 256)).
    + rewrite (wrap_small 8) by lia. rewrite bool_decide_false by lia. unfold wrap. rewrite Z.mod_mod by lia. f_equal. lia.
    + assert (u8 (d + so) = d + so - 256) as ->.
      { unfold wrap. symmetry. apply (Z.mod_unique _ _ 1); lia. }
      rewrite bool_decide_true by lia. f_equal. lia.
Qed.
Lemma u32_add_cong a b d d' : u32 d' = u32 d → u32 (a + b + d') = u32 (a + b + d).
Proof. intros H. rewrite <- (u32_add_u32 _ d'), <- (u32_add_u32 _ d). by rewrite H. Qed.
Lemma ea_same (R R' : Z → Z) b x d d' :
  (∀ r, uses (OMem b x d) r → R' r = R r) → u32 d' = u32 d → ea R' (OMem b x d') = ea R (OMem b x d).
Proof.
  intros Hu Hd. unfold ea. rewrite (u32_add_cong _ _ d d' Hd). f_equal. f_equal. f_equal.
  - destruct b; [apply Hu; by left|done].
  - destruct x as [[r k]|]; [|done]. rewrite (Hu r); [done|]. right. by exists k.
Qed.
Lemma ea_esp (R R' : Z → Z) x d d' so :
  R' ESP = u32 (R ESP - so) → (∀ r k, x = Some (r, k) → R' r = R r) → u32 d' = u32 (d + so) →
  ea R' (OMem (Some ESP) x d') = ea R (OMem (Some ESP) x d).
Proof.
  intros Hsp Hx Hd. unfold ea. rewrite (u32_add_cong _ _ _ _ Hd), Hsp.
  set (i' := match x with Some (r, k) => R' r * k | None => 0 end). set (i := match x with Some (r, k) => R r * k | None => 0 end).
  assert (i' = i) as -> by (subst i i'; destruct x as [[r k]|]; [by rewrite (Hx r k)|done]).
  rewrite <- !Z.add_assoc, u32_u32_add. f_equal. lia.
Qed.
Lemma index_not_esp sib r k :
  (if bool_decide (Z.land (Z.shiftr sib 3) 7 = 4) then None else Some (Z.land (Z.shiftr sib 3) 7, 2 ^ Z.shiftr sib 6)) = Some (r, k) → r ≠ ESP.
Proof. case_bool_decide; [done|]. intros [= <- _]. done. Qed.
Lemma u32_idem x : u32 (u32 x) = u32 x.
Proof. unfold wrap. by rewrite Z.mod_mod. Qed.

#[local] Arguments word32 : simpl never.
#[local] Arguments bytes32 : simpl never.
#[local] Arguments ea : simpl never.
#[local] Arguments sext8 : simpl never.
#[local] Arguments uses : simpl never.
Lemma word32_bytes v : word32 (bytes32 v) = u32 v.
Proof. rewrite <- (app_nil_r (bytes32 v)). apply word32_bytes32. Qed.

(** The adjusted operand, executed after [so] bytes were pushed, denotes the address that
    the operand denoted before. *)
Lemma adjusted_ea so modrm sfx reg o n :
  is_byte modrm → Forall is_byte sfx → (2 ≤ length sfx)%nat → 0 ≤ so ≤ 12 → disp8_room so modrm sfx →
  get_mode modrm ≠ 3 → decode_operand (modrm :: sfx) = Some (reg, o, n) →
  ∃ b x d, adjusted so modrm sfx = OMem b x d ∧
    ∀ R R' : Z → Z, R' ESP = u32 (R ESP - so) → (∀ r, uses o r → r ≠ ESP → R' r = R r) → ea R' (OMem b x d) = ea R o.
Proof.
  intros Hm Hsfx Hlen Hso Hroom Hmd Hd. pose proof (get_mode_range modrm Hm) as Hr.
  destruct sfx as [|b0 [|b1 sfx]]; simpl in Hlen; try lia.
  inversion Hsfx as [|? ? Hb0 Hs1]; subst. inversion Hs1 as [|? ? Hb1 _]; subst.
  pose proof (emitted_modrm so modrm (b0 :: b1 :: sfx)) as [_ E2].
  destruct (with_mod_fields modrm mode_indirect_disp8) as (F1 & _ & _); [done|].
  unfold adjusted, operand_at. rewrite decode_operand_fields. rewrite E2. rewrite decode_operand_fields in Hd. injection Hd as _ Ho _.
  unfold emitted_operand, is_no_base, get_base, base_none_ebp, base_esp, mode_reg, mode_indirect, mode_indirect_disp8 in *.
  unfold operand_of, decode_sib, disp8_room, get_base in *. cbn [hd tl] in *.
  assert (get_mode modrm = 0 ∨ get_mode modrm = 1 ∨ get_mode modrm = 2) as Hmd' by lia.
  destruct_or? Hmd'; rewrite Hmd' in *; simpl in *;
    repeat (case_bool_decide; simpl in *; try (rewrite F1 in *; simpl in *); try lia; try done); subst o;
    rewrite ?word32_bytes, ?Z.add_0_r; eexists _, _, _; (split; [reflexivity|]); intros R R' Hsp Hu.
  all: try (apply ea_same; [intros r Hr'; apply Hu; [exact Hr'|]; destruct Hr' as [[= <-]|[k [= <- _]]]; assumption|];
    rewrite ?u32_idem, ?(u8_byte b0), ?(u8_byte b1) by done; done).
  all: (match goal with H : Z.land ?x 7 = 4 |- context [Z.land ?x 7] => rewrite H in Hu |- * end); (apply (ea_esp _ _ _ _ _ so); [done| |]);
    [intros r k [=]; subst; (apply Hu; [right; by eexists|assumption])|]; rewrite ?u32_idem; try done.
  all: try (rewrite (u8_byte so) by (unfold is_byte; lia); unfold sext8; by rewrite bool_decide_true by lia).
  all: apply sext8_shift; auto.
Qed.

(** ** Executing the block *)

(** The calling convention: the words at and above the stack pointer are kept. *)
Definition cdecl (callee : Z → (Z → Z) → (Z → Z) → (Z * Z * Z) * (Z → Z)) : Prop :=
  ∀ t R stk k, 0 ≤ k < 2 ^ 29 → (callee t R stk).2 (u32 (R ESP + 4 * k)) = stk (u32 (R ESP + 4 * k)).

Section run.
Context (callee : Z → (Z → Z) → (Z → Z) → (Z * Z * Z) * (Z → Z)) (Hcallee : cdecl callee).
(** The registers and the stack at the start of the block. *)
Context (R stk0 : Z → Z).

(** In the block: the registers [rs] were pushed, and the others hold [rg]. *)
Record in_block (rs : list Z) (rg : Z → Z) (calls : list call_t) (c : core_t) : Prop := {
  ib_regs : ∀ r, r ≠ ESP → c_regs c r = rg r;
  ib_esp : c_regs c ESP = u32 (R ESP - 4 * length rs);
  ib_saved : ∀ i r, rs !! i = Some r → c_stack c (u32 (R ESP - 4 * (Z.of_nat i + 1))) = R r;
  ib_kept : ∀ k, 0 ≤ k < 2 ^ 28 → c_stack c (u32 (R ESP + 4 * k)) = stk0 (u32 (R ESP + 4 * k));
  ib_calls : c_calls c = calls;
  ib_few : (length rs ≤ 3)%nat
}.
Definition runs (l : list instr) (c : core_t) (Q : core_t → Prop) : Prop := ∃ c', exec_all callee l c = Some c' ∧ Q c'.
Lemma runs_nil c (Q : core_t → Prop) : Q c → runs [] c Q.
Proof. intros. by exists c. Qed.
Lemma runs_cons i l c c1 Q : exec callee i c = Some c1 → runs l c1 Q → runs (i :: l) c Q.
Proof. intros He (c' & Hx & HQ). exists c'. simpl. by rewrite He. Qed.

Lemma run_push r rs rg calls l c Q :
  in_block rs rg calls c → r ≠ ESP → rg r = R r → (length rs ≤ 2)%nat →
  (∀ c', in_block (rs ++ [r]) rg calls c' → runs l c' Q) → runs (IPush r :: l) c Q.
Proof.
  intros [Hr Hsp Hs Hk Hc Hf] Hne HR Hlen HQ. eapply runs_cons; [reflexivity|]. apply HQ. unfold push.
  assert (u32 (c_regs c ESP - 4) = u32 (R ESP - 4 * (length rs + 1))) as Hsp' by (rewrite Hsp, u32_u32_sub; f_equal; lia).
  split; cbn [c_regs c_stack c_calls]; rewrite ?Hsp'.
  - intros r' Hr'. rewrite fn_lookup_insert_ne by done. auto.
  - rewrite fn_lookup_insert, length_app. simpl. f_equal. lia.
  - intros i r' Hi. rewrite (Hr r) by done. destruct (decide (i = length rs)) as [->|].
    + rewrite fn_lookup_insert. rewrite list_lookup_middle in Hi by done. by simplify_eq.
    + pose proof (lookup_lt_Some _ _ _ Hi) as Hlt. rewrite length_app in Hlt. simpl in Hlt.
      rewrite fn_lookup_insert_ne; [apply Hs; rewrite lookup_app_l in Hi by lia; done|].
      apply not_eq_sym, u32_ne. lia.
  - intros k Hk'. rewrite fn_lookup_insert_ne; [auto|]. apply not_eq_sym, u32_ne. lia.
  - done.
  - rewrite length_app. simpl. lia.
Qed.
Lemma run_pop r r0 rs rg calls l c Q :
  in_block (rs ++ [r0]) rg calls c → r ≠ ESP →
  (∀ c', in_block rs (<[r := R r0]> rg) calls c' → runs l c' Q) → runs (IPop r :: l) c Q.
Proof.
  intros [Hr Hsp Hs Hk Hc Hf] Hne HQ. eapply runs_cons; [reflexivity|]. apply HQ. unfold set.
  rewrite length_app in Hsp, Hf. simpl in Hsp, Hf.
  assert (c_stack c (c_regs c ESP) = R r0) as Htop.
  { rewrite Hsp. replace (R ESP - 4 * Z.of_nat (length rs + 1)) with (R ESP - 4 * (length rs + 1)) by lia.
    apply Hs. by apply list_lookup_middle. }
  split; cbn [c_regs c_stack c_calls].
  - intros r' Hr'. destruct (decide (r = r')) as [->|]; [by rewrite !fn_lookup_insert|].
    rewrite !fn_lookup_insert_ne by done. auto.
  - rewrite fn_lookup_insert_ne by done. rewrite fn_lookup_insert, Hsp, u32_u32_add. f_equal. lia.
  - intros i r' Hi. apply Hs. by apply lookup_app_l_Some.
  - done.
  - done.
  - lia.
Qed.
Lemma run_set i r x rs rg calls l c Q :
  in_block rs rg calls c → r ≠ ESP → exec callee i c = Some (set r x c) →
  (∀ c', in_block rs (<[r := x]> rg) calls c' → runs l c' Q) → runs (i :: l) c Q.
Proof.
  intros [Hr Hsp Hs Hk Hc Hf] Hne He HQ. eapply runs_cons; [exact He|]. apply HQ. unfold set.
  split; cbn [c_regs c_stack c_calls]; try done.
  - intros r' Hr'. destruct (decide (r = r')) as [->|]; [by rewrite !fn_lookup_insert|].
    rewrite !fn_lookup_insert_ne by done. auto.
  - by rewrite fn_lookup_insert_ne.
Qed.
Lemma run_mov d r rs rg calls l c Q :
  in_block rs rg calls c → d ≠ ESP → r ≠ ESP →
  (∀ c', in_block rs (<[d := rg r]> rg) calls c' → runs l c' Q) → runs (IMovTo false (OReg d) r :: l) c Q.
Proof. intros Hin Hd Hr HQ. eapply run_set; [exact Hin|exact Hd| |exact HQ]. simpl. by rewrite (ib_regs _ _ _ _ Hin r Hr). Qed.
Lemma run_imm d x rs rg calls l c Q :
  in_block rs rg calls c → d ≠ ESP →
  (∀ c', in_block rs (<[d := x]> rg) calls c' → runs l c' Q) → runs (IMovImm (OReg d) x :: l) c Q.
Proof. intros Hin Hd HQ. eapply run_set; [exact Hin|exact Hd|reflexivity|exact HQ]. Qed.
Lemma run_call t rs rg calls l c Q :
  in_block rs rg calls c →
  (∀ a cx dx c', in_block rs (<[EAX := a]> (<[ECX := cx]> (<[EDX := dx]> rg))) (calls ++ [mk_call t (rg EAX) (rg EDX) a]) c' → runs l c' Q) →
  runs (ICall t :: l) c Q.
Proof.
  intros [Hr Hsp Hs Hk Hc Hf] HQ. pose proof (Hcallee t (c_regs c) (c_stack c)) as Hcd.
  destruct (callee t (c_regs c) (c_stack c)) as [[[a cx] dx] stk] eqn:Hcall. simpl in Hcd.
  eapply runs_cons; [simpl; by rewrite Hcall|]. apply (HQ a cx dx).
  assert (∀ k, 0 ≤ k < 2 ^ 28 + 3 → stk (u32 (R ESP - 4 * length rs + 4 * k)) = c_stack c (u32 (R ESP - 4 * length rs + 4 * k))) as Hst.
  { intros k Hk'. rewrite <- !(u32_u32_add (R ESP - 4 * length rs)), <- Hsp. apply Hcd. lia. }
  split; cbn [c_regs c_stack c_calls].
  - intros r Hne. unfold insert, fn_insert. repeat case_decide; auto.
  - by rewrite !fn_lookup_insert_ne by done.
  - intros i r Hi. pose proof (lookup_lt_Some _ _ _ Hi).
    replace (R ESP - 4 * (Z.of_nat i + 1)) with (R ESP - 4 * length rs + 4 * (length rs - i - 1)) by lia.
    rewrite Hst by lia. rewrite <- (Hs i r Hi). f_equal. f_equal. lia.
  - intros k Hk'. replace (R ESP + 4 * k) with (R ESP - 4 * length rs + 4 * (k + length rs)) by lia.
    rewrite Hst by lia. replace (R ESP - 4 * length rs + 4 * (k + length rs)) with (R ESP + 4 * k) by lia. by apply Hk.
  - rewrite Hc, (Hr EAX), (Hr EDX) by done. done.
  - done.
Qed.
(** The address: the operand denotes what it did at the start of the block. *)
Lemma run_lea r modrm sfx reg o n rs rg calls l c Q :
  is_byte modrm → Forall is_byte sfx → (2 ≤ length sfx)%nat → disp8_room 12 modrm sfx →
  get_mode modrm ≠ 3 → decode_operand (modrm :: sfx) = Some (reg, o, n) →
  in_block rs rg calls c → r ≠ ESP → (∀ x, uses o x → x ≠ ESP → rg x = R x) →
  (∀ c', in_block rs (<[r := ea R o]> rg) calls c' → runs l c' Q) →
  runs (ILea r (adjusted (4 * length rs) modrm sfx) :: l) c Q.
Proof.
  intros Hm Hsfx Hlen Hroom Hmd Hd Hin Hr Hu HQ. pose proof (ib_few _ _ _ _ Hin).
  destruct (adjusted_ea (4 * length rs) modrm sfx reg o n) as (b & x & d & -> & Hea); try done; [lia| |].
  { intros H1 H2 H3 H4. specialize (Hroom H1 H2 H3 H4). lia. }
  eapply run_set; [exact Hin|exact Hr| |exact HQ]. simpl. rewrite (Hea R); [done| |].
  - apply Hin.
  - intros y Hy Hne. rewrite (ib_regs _ _ _ _ Hin y Hne). auto.
Qed.
End run.

(** ** What a device access means *)

Inductive access : Type := Read | Write | Xchg.
#[global] Instance access_eq : EqDecision access.
Proof. solve_decision. Defined.
(** From [c] to [c'] the function was called once, for the address [a] and the register
    [reg]. *)
Definition access_done (k : access) (func reg a : Z) (c c' : core_t) : Prop :=
  let R := c_regs c in
  ∃ result,
    c_calls c' = c_calls c ++ [mk_call (u32 func)
      (match k with Read => a | _ => R reg end) (match k with Read => R EDX | _ => a end) result] ∧
    (∀ r, 0 ≤ r < 8 → c_regs c' r = if decide (k ≠ Write ∧ r = reg) then result else R r) ∧
    (∀ j, 0 ≤ j < 2 ^ 28 → c_stack c' (u32 (R ESP + 4 * j)) = c_stack c (u32 (R ESP + 4 * j))).

(** The code [l] performs the access, whatever is called. *)
Definition performs (k : access) (func reg : Z) (a : (Z → Z) → Z) (l : list instr) : Prop :=
  ∀ callee c, cdecl callee → 0 ≤ c_regs c ESP < 2 ^ 32 →
    runs callee l c (access_done k func reg (a (c_regs c)) c).

Lemma start_block c : 0 ≤ c_regs c ESP < 2 ^ 32 → in_block (c_regs c) (c_stack c) [] (c_regs c) (c_calls c) c.
Proof. intros Hsp. split; try done; [|simpl; lia]. simpl. rewrite Z.sub_0_r. symmetry. by apply wrap_small. Qed.
Lemma end_block k func reg a R stk0 rg calls c c' :
  R = c_regs c → stk0 = c_stack c → 0 ≤ R ESP < 2 ^ 32 → reg ≠ ESP →
  in_block R stk0 [] rg calls c' →
  (∃ result, calls = c_calls c ++ [mk_call (u32 func) (match k with Read => a | _ => R reg end) (match k with Read => R EDX | _ => a end) result] ∧
    ∀ r, 0 ≤ r < 8 → r ≠ ESP → rg r = if decide (k ≠ Write ∧ r = reg) then result else R r) →
  access_done k func reg a c c'.
Proof.
  intros -> -> Hsp Hreg [Hr Hesp _ Hk Hc _] (result & -> & Hrg). exists result. split_and!; [done| |done].
  intros r Hr8. destruct (decide (r = ESP)) as [->|Hne]; [|by rewrite Hr, Hrg].
  rewrite decide_False by naive_solver. rewrite Hesp. simpl. rewrite Z.sub_0_r. by apply wrap_small.
Qed.

(** The registers of the address are as at the start. *)
Ltac registers_kept :=
  let x := fresh "x" in let Hx := fresh "Hx" in intros x Hx _;
  first [reflexivity | rewrite fn_lookup_insert_ne; [reflexivity|]; intros <-;
    first [contradiction | match goal with H : ∀ x, uses _ x → x = EAX |- _ => by specialize (H _ Hx) end]].
Ltac run_step :=
  lazymatch goal with
  | H : in_block _ _ ?rs _ _ ?c |- runs _ (ILea _ (adjusted ?so _ _) :: _) ?c _ =>
      change so with (4 * Z.of_nat (length rs)); eapply run_lea; [eassumption..|exact H|done|registers_kept|]; intros ? ?
  | |- runs _ (IPush _ :: _) _ _ => eapply run_push; [eassumption|done|done|simpl; lia|]; intros ? ?
  | |- runs _ (IPop _ :: _) _ _ => eapply run_pop; [eassumption|done|]; intros ? ?
  | |- runs _ (IMovTo false (OReg _) _ :: _) _ _ => eapply run_mov; [eassumption|done|done|]; intros ? ?
  | |- runs _ (IMovImm (OReg _) _ :: _) _ _ => eapply run_imm; [eassumption|done|]; intros ? ?
  | |- runs _ (ICall _ :: _) _ _ => eapply run_call; [assumption|eassumption|]; intros ? ? ? ? ?
  | |- runs _ [] _ _ => apply runs_nil
  end.

(** An operand without a SIB byte uses its base register only. *)
Lemma uses_rm modrm sfx reg o n r :
  decode_operand (modrm :: sfx) = Some (reg, o, n) → get_rm modrm ≠ 4 → uses o r → r = get_rm modrm.
Proof.
  rewrite decode_operand_fields. intros [= _ <- _] Hrm. unfold operand_of, uses.
  rewrite (bool_decide_false (get_rm modrm = 4)) by done. repeat case_bool_decide; simpl; naive_solver.
Qed.

Ltac known_assert :=
  lazymatch goal with |- wp _ (massert _) _ _ =>
    apply wp_massert; [let H := fresh in intros H%bool_decide_eq_false; exfalso; apply H; (assumption || reflexivity)|intros _] end.
Ltac dev_steps := repeat (first
  [ known_branch
  | known_assert
  | lazymatch goal with |- wp _ ?m _ _ => let h := head_of m in
      lazymatch h with
      | @push_unless => unfold push_unless | @deliver_result => unfold deliver_result
      | @source_and_target => unfold source_and_target | @push_eax_ecx_edx => unfold push_eax_ecx_edx
      | @pop_edx_ecx_eax => unfold pop_edx_ecx_eax
      end end
  | em_step ]; cbv beta).
(** Run the code of a block; the registers are compared one by one at the end. *)
Ltac run_code :=
  let callee := fresh "callee" in let c := fresh "c" in let Hc := fresh "Hc" in let Hsp := fresh "Hsp" in
  intros callee c Hc Hsp; pose proof (start_block c Hsp); cbn [app]; repeat run_step;
  (eapply end_block; [reflexivity|reflexivity|exact Hsp|done|eassumption|]); eexists; (split; [reflexivity|]);
  let r := fresh "r" in let Hr := fresh "Hr" in intros r Hr ?; each_reg Hr; done.
Ltac emitted_code := split; [lia|]; eexists _, _; split; [eassumption|].

(** The emitter [m] leaves code that performs the access, in at most 27 bytes. *)
Definition emits (m0 : Z → Z) (start func reg : Z) (m : MR Z) (k : access) (a : (Z → Z) → Z) : Prop :=
  ∀ s, (∀ x, rw_mem s x = m0 x) → rw_stack_offset s = 0 →
    wp no_fault m (λ p' s', start < p' ≤ start + 27 ∧ ∃ l so, emitted m0 start (rw_curr_virt_addr s) p' l so s' ∧ performs k func reg a l) s.
Lemma emitted_nothing m0 start s : (∀ x, rw_mem s x = m0 x) → rw_stack_offset s = 0 → emitted m0 start (rw_curr_virt_addr s) start [] 0 s.
Proof. exists []. split_and!; try done; [intros a; by rewrite wr_nil|simpl; lia|constructor]. Qed.
Lemma bytes_at_ext (m m' : Z → Z) a k : (∀ x, m x = m' x) → bytes_at m a k = bytes_at m' a k.
Proof. intros H. unfold bytes_at. apply list_fmap_ext. auto. Qed.

Section device.
Context {E : RewriteEnv} (m0 : Z → Z) (start : Z) (func : Z).
Hypothesis bytes_ok : ∀ a, is_byte (m0 a).
(** The operation code of the guest's instruction is at [pos]. *)
Context (pos : Z).
Let modrm : Z := m0 (pos + 1).
Let sfx : list Z := bytes_at m0 (pos + 2) 6.
Context (reg : Z) (o : operand) (n : nat).
Hypothesis Hdec : decode_operand (modrm :: sfx) = Some (reg, o, n).
Hypothesis Hmem : get_mode modrm ≠ 3.
Hypothesis Hroom : disp8_room 12 modrm sfx.
Hypothesis Hreg : reg ≠ ESP.

Lemma modrm_byte : is_byte modrm.
Proof. apply bytes_ok. Qed.
Lemma sfx_bytes : Forall is_byte sfx.
Proof. apply bytes_at_bytes. auto. Qed.
Lemma sfx_length : (2 ≤ length sfx)%nat.
Proof. unfold sfx, bytes_at. rewrite !length_fmap, length_seq. lia. Qed.
Lemma reg_of_modrm : get_reg modrm = reg.
Proof. rewrite decode_operand_fields in Hdec. congruence. Qed.
Lemma reg_range : 0 ≤ reg < 8.
Proof. rewrite <- reg_of_modrm. apply get_reg_range. Qed.
Ltac dev_start :=
  let Hg := fresh "Hg" in let Hm := fresh "Hm" in let Hso := fresh "Hso" in let s := fresh "s" in
  intros Hf s Hm Hso; pose proof modrm_byte; pose proof sfx_bytes; pose proof sfx_length; pose proof reg_of_modrm as Hg;
  pose proof (emitted_nothing m0 start s Hm Hso); pose proof reg_range;
  unfold_wp; do 4 em_step; cbv beta; try unfold source_and_target; rewrite Hm, (bytes_at_ext _ _ _ _ Hm); fold modrm sfx; rewrite Hg; clear Hg.
Ltac each_case := let Hr := fresh "Hr" in pose proof reg_range as Hr; revert Hdec Hreg; each_reg Hr; intros Hdec' Hreg'.

Lemma device_read_ok : func ≠ 0 → emits m0 start func reg (device_read pos start func) Read (λ R, ea R o).
Proof.
  dev_start. each_case; try (exfalso; apply Hreg'; reflexivity).
  all: dev_steps; emitted_code; run_code.
Qed.
Lemma bitop_clear_ok : reg = EAX → func ≠ 0 → emits m0 start func reg (bitop_clear pos start func) Xchg (λ R, ea R o).
Proof. intros Ha. dev_start. clear Hreg. subst reg. dev_steps. emitted_code. run_code. Qed.

(** The source is in [EDX]: it goes through [ECX] when the address is in [EAX] itself, else
    directly to [EAX], which the address must not need then. *)
Hypothesis no_clash : reg = EDX → get_rm modrm ≠ 0 → ¬ uses o EAX.
Ltac edx_cases Hdec :=
  let H := fresh "Hrm" in destruct (decide (get_rm modrm = 0)) as [H|H];
  [ rewrite (bool_decide_true (get_rm modrm = 0)) by exact H;
    assert (∀ x, uses o x → x = EAX) by (intros x Hx; rewrite (uses_rm _ _ _ _ _ x Hdec); [done|by rewrite H|done])
  | rewrite (bool_decide_false (get_rm modrm = 0)) by exact H; pose proof (no_clash eq_refl H) ].
Lemma device_write_ok : func ≠ 0 → emits m0 start func reg (device_write pos start func) Write (λ R, ea R o).
Proof.
  dev_start. revert no_clash. each_case; try (exfalso; apply Hreg'; reflexivity); intros no_clash.
  3: edx_cases Hdec'.
  all: dev_steps; emitted_code; run_code.
Qed.
Lemma device_xchg_ok : func ≠ 0 → emits m0 start func reg (device_xchg pos start func) Xchg (λ R, ea R o).
Proof.
  dev_start. revert no_clash. each_case; try (exfalso; apply Hreg'; reflexivity); intros no_clash.
  3: edx_cases Hdec'.
  all: dev_steps; emitted_code; run_code.
Qed.
End device.

(** The forms with an address in place of an operand. *)
Section moffs.
Context {E : RewriteEnv} (m0 : Z → Z) (start func : Z).
Let address : Z := word32 (bytes_at m0 (start + 1) 4).

Lemma word32_suffixes : word32 (bytes_at m0 (start + 1) 6) = address.
Proof. unfold address. by rewrite !bytes_at_S. Qed.
Lemma device_write_moffs_ok :
  func ≠ 0 → emits m0 start func EAX (device_write_moffs start start func) Write (λ R, ea R (OMem None None address)).
Proof.
  intros Hf s Hm Hso. pose proof (emitted_nothing m0 start s Hm Hso). unfold device_write_moffs. do 2 em_step.
  rewrite (bytes_at_ext _ _ _ _ Hm), word32_suffixes. dev_steps. emitted_code. run_code.
Qed.
Lemma device_read_moffs_ok :
  func ≠ 0 → emits m0 start func EAX (device_read_moffs start func) Read (λ R, ea R (OMem None None address)).
Proof.
  intros Hf s Hm Hso. pose proof (emitted_nothing m0 start s Hm Hso). unfold device_read_moffs, load32. do 4 em_step.
  rewrite (bytes_at_ext _ _ _ _ Hm). fold address.
  change (mov_imm32_to_reg start address OP_REG_EAX) with (mov_imm32_to_reg start address 0). dev_steps. emitted_code. run_code.
Qed.
End moffs.

(** ** Patched accesses *)

(** The access of a guest's instruction: its kind, the function for it, its register and
    its operand in memory. *)
Definition with_access (m : Z → Z) (a : Z) (k : access) (func : Z) : option (access * Z * Z * operand) :=
  '(reg, o, _) ← decode_operand (bytes_at m (a + 1) 7); Some (k, func, reg, o).
Definition guest_access (m : Z → Z) (a : Z) (f : device_funcs) : option (access * Z * Z * operand) :=
  let at_ (x : Z) := bool_decide (m a = x) in
  if at_ 0x09 then with_access m a Write (or_func f)
  else if at_ 0x21 then with_access m a Write (and_func f)
  else if at_ 0x89 then with_access m a Write (write_func f)
  else if at_ 0xa3 then Some (Write, write_func f, EAX, OMem None None (word32 (bytes_at m (a + 1) 4)))
  else if at_ 0xa1 then Some (Read, read_func f, EAX, OMem None None (word32 (bytes_at m (a + 1) 4)))
  else if at_ 0x8b then with_access m a Read (read_func f)
  else if at_ 0x87 then with_access m a Xchg (xchg_func f)
  else None.
Definition in_memory (o : operand) : Prop := match o with OReg _ => False | OMem _ _ _ => True end.

(** The operands that the emitted code finds again: not too far above the stack pointer
    for an 8-bit displacement, and not in [EAX] when [EDX] is written through a SIB
    byte. *)
Definition operand_ok (m : Z → Z) (a : Z) (k : access) (reg : Z) (o : operand) : Prop :=
  in_memory o ∧ reg ≠ ESP ∧ disp8_room 12 (m (a + 1)) (bytes_at m (a + 2) 6) ∧
  (k ≠ Read → reg = EDX → get_rm (m (a + 1)) ≠ 0 → ¬ uses o EAX).

Definition runs_access (m : Z → Z) (v start end_ : Z) (k : access) (func reg : Z) (o : operand) : Prop :=
  ∀ callee c, cdecl callee → 0 ≤ c_regs c ESP < 2 ^ 32 →
    ∃ n q c', start < q ≤ end_ ∧ steps callee n m v (start + v, c) = Some (q + v, c') ∧
      access_done k func reg (ea (c_regs c) o) c c'.
(** The block starts with code that performs the access. *)
Definition holds_access (m : Z → Z) (v start end_ : Z) (k : access) (func reg : Z) (o : operand) : Prop :=
  ∃ bs l, (∀ (i : nat) b, bs !! i = Some b → m (start + i) = b) ∧ start < start + length bs ≤ end_ ∧
    codes (start + v) bs l ∧ performs k func reg (λ R, ea R o) l.
Lemma holds_access_runs m v start end_ k func reg o :
  holds_access m v start end_ k func reg o → runs_access m v start end_ k func reg o.
Proof.
  intros (bs & l & Hm & Hlen & Hc & Hp) callee c Hcd Hsp. destruct (Hp callee c Hcd Hsp) as (c' & Hx & Hd).
  exists (length l), (start + length bs), c'. split_and!; [lia|lia| |done].
  replace (start + length bs + v) with (start + v + length bs) by lia. eapply steps_codes; [done| |done].
  intros i x Hi. rewrite <- (Hm i x Hi). f_equal. lia.
Qed.
Lemma holds_access_same m m' v start end_ k func reg o :
  holds_access m v start end_ k func reg o → (∀ a, start ≤ a < end_ → m' a = m a) → holds_access m' v start end_ k func reg o.
Proof.
  intros (bs & l & Hm & Hlen & Hc & Hp) Heq. exists bs, l. split_and!; try done; try lia.
  intros i b Hi. pose proof (lookup_lt_Some _ _ _ Hi). rewrite Heq by lia. auto.
Qed.
Definition access_patched (m0 : Z → Z) (start end_ : Z) (k : access) (func reg : Z) (o : operand) (s : rw_t) : Prop :=
  (∀ a, ¬ (start ≤ a < end_) → rw_mem s a = m0 a) ∧
  (∀ a, is_byte (rw_mem s a)) ∧
  holds_access (rw_mem s) (rw_curr_virt_addr s) start end_ k func reg o.

Lemma emitted_patched m0 start end_ v q l so s k func reg o :
  (∀ a, is_byte (m0 a)) →
  emitted m0 start v q l so s → start < q ≤ end_ → performs k func reg (λ R, ea R o) l →
  access_patched m0 start end_ k func reg o s ∧ rw_curr_virt_addr s = v.
Proof.
  intros Hbytes (bs & Hm & -> & Hc & Hv & _ & Hb) Hq Hp. split; [|done]. split_and!.
  - intros a Ha. rewrite Hm. unfold wr. rewrite decide_False; [done|lia].
  - intros a. rewrite Hm. unfold wr. case_decide; [|done].
    destruct (lookup_lt_is_Some_2 bs (Z.to_nat (a - start))) as [x Hx]; [lia|]. rewrite (nth_lookup_Some _ _ _ _ Hx).
    by eapply Forall_lookup_1 in Hx.
  - exists bs, l. rewrite Hv. split_and!; try done; try lia.
    intros i x Hi. pose proof (lookup_lt_Some _ _ _ Hi). rewrite Hm. unfold wr. rewrite decide_True by lia.
    replace (Z.to_nat _) with i by lia. by apply nth_lookup_Some.
Qed.
Definition patched_to (m0 : Z → Z) (start end_ v : Z) (k : access) (func reg : Z) (o : operand) (r : option Z) (s : rw_t) : Prop :=
  fits r end_ = true ∧ access_patched m0 start end_ k func reg o s ∧ rw_curr_virt_addr s = v.
Lemma emits_patched {E : RewriteEnv} m m0 start end_ k func reg o s :
  (∀ a, is_byte (m0 a)) → emits m0 start func reg m k (λ R, ea R o) →
  (∀ x, rw_mem s x = m0 x) → rw_stack_offset s = 0 → start + 27 ≤ end_ →
  wp no_fault (some m) (patched_to m0 start end_ (rw_curr_virt_addr s) k func reg o) s.
Proof.
  intros Hb He Hm Hso Hlen. unfold some. wp_step. eapply wp_mono; [by apply He|].
  intros q s' (Hq & l & so & Hem & Hp). wp_step. split; [simpl; rewrite bool_decide_false by lia; done|].
  eapply emitted_patched; [done|done|lia|done].
Qed.

Section block.
Context {E : RewriteEnv} (m0 : Z → Z) (start end_ : Z).
Hypothesis bytes_ok : ∀ a, is_byte (m0 a).
Hypothesis long_enough : start + 27 ≤ end_.

Lemma with_access_inv a k func k' func' reg o :
  with_access m0 a k func = Some (k', func', reg, o) →
  k' = k ∧ func' = func ∧ ∃ n, decode_operand (m0 (a + 1) :: bytes_at m0 (a + 2) 6) = Some (reg, o, n).
Proof.
  unfold with_access. rewrite bytes_at_S. replace (a + 1 + 1) with (a + 2) by lia.
  destruct (decode_operand _) as [[[r o'] n]|]; [|done]. intros [= <- <- <- <-]. eauto.
Qed.
Lemma memory_mode modrm sfx reg o n : decode_operand (modrm :: sfx) = Some (reg, o, n) → in_memory o → get_mode modrm ≠ 3.
Proof.
  rewrite decode_operand_fields. intros [= _ <- _] Ho Hmd. unfold operand_of in Ho. by rewrite Hmd in Ho.
Qed.
Ltac by_emitter L :=
  apply emits_patched; [assumption| |first [assumption|reflexivity]..]; eapply L; try eassumption; try (by eapply memory_mode); by auto.
Lemma patch_device_ok f k func reg o s1 :
  guest_access m0 start f = Some (k, func, reg, o) → operand_ok m0 start k reg o → func ≠ 0 →
  (∀ a, rw_mem s1 a = m0 a) → rw_stack_offset s1 = 0 →
  wp no_fault (patch_device start start f) (patched_to m0 start end_ (rw_curr_virt_addr s1) k func reg o) s1.
Proof.
  intros Hg (Ho & Hreg & Hroom & Hclash) Hf Hm Hso. unfold patch_device, guest_access in *.
  wp_step. unfold load8. wp_step. rewrite Hm. cbv zeta in *.
  case_bool_decide; [apply with_access_inv in Hg as (-> & -> & n & Hd); by_emitter device_write_ok|].
  case_bool_decide; [apply with_access_inv in Hg as (-> & -> & n & Hd); by_emitter device_write_ok|].
  case_bool_decide; [apply with_access_inv in Hg as (-> & -> & n & Hd); by_emitter device_write_ok|].
  case_bool_decide; [injection Hg as <- <- <- <-; by_emitter device_write_moffs_ok|].
  case_bool_decide; [injection Hg as <- <- <- <-; by_emitter device_read_moffs_ok|].
  case_bool_decide; [apply with_access_inv in Hg as (-> & -> & n & Hd); by_emitter device_read_ok|].
  case_bool_decide; [apply with_access_inv in Hg as (-> & -> & n & Hd); by_emitter device_xchg_ok|done].
Qed.
Lemma apply_device_patchup_ok f k func reg o s :
  guest_access m0 start f = Some (k, func, reg, o) → operand_ok m0 start k reg o → func ≠ 0 → (∀ a, rw_mem s a = m0 a) →
  wp no_fault (apply_device_patchup start end_ f)
    (λ b s', b = true ∧ access_patched m0 start end_ k func reg o s' ∧ rw_curr_virt_addr s' = rw_curr_virt_addr s) s.
Proof.
  intros Hg Ho Hf Hm. unfold apply_device_patchup. do 3 wp_step.
  eapply wp_mono; [by eapply (patch_device_ok f k func reg o (rw_set_stack_offset 0 s))|]. intros r s' H. by wp_step.
Qed.

(** Test and clear of a bit: the bit goes to the function in [EAX], the address in [EDX]. *)
Lemma apply_bitop_patchup_ok clear_bit_func reg o n pos s :
  pos = (if decide (m0 start = prefix_lock) then start + 2 else start + 1) → m0 (pos - 1) = 0x0f → m0 pos = 0xb3 →
  decode_operand (m0 (pos + 1) :: bytes_at m0 (pos + 2) 6) = Some (reg, o, n) → reg = EAX → in_memory o →
  disp8_room 12 (m0 (pos + 1)) (bytes_at m0 (pos + 2) 6) → clear_bit_func ≠ 0 → (∀ a, rw_mem s a = m0 a) →
  wp no_fault (apply_bitop_patchup start end_ clear_bit_func 0)
    (λ b s', b = true ∧ access_patched m0 start end_ Xchg clear_bit_func EAX o s' ∧ rw_curr_virt_addr s' = rw_curr_virt_addr s) s.
Proof.
  intros Hpos Hop1 Hop2 Hd -> Ho Hroom Hf Hm. unfold apply_bitop_patchup. wp_step. apply wp_massert; [done|intros _]. do 3 wp_step.
  eapply wp_mono with (P := patched_to m0 start end_ (rw_curr_virt_addr s) Xchg clear_bit_func EAX o); [|intros r s' H; by wp_step].
  unfold patch_bitop, load8. do 4 wp_step. cbn [rw_mem rw_set_stack_offset]. rewrite !Hm.
  replace (if bool_decide (m0 start = prefix_lock) then start + 1 else start) with (pos - 1) by (rewrite Hpos; repeat case_decide; repeat case_bool_decide; done || lia).
  rewrite Hop1, (bool_decide_false (0x0f ≠ 0x0f)) by lia. wp_step. apply wp_mgets. cbn [rw_mem rw_set_stack_offset].
  replace (pos - 1 + 1) with pos by lia. rewrite Hm, Hop2, bool_decide_true by done.
  change (rw_curr_virt_addr s) with (rw_curr_virt_addr (rw_set_stack_offset 0 s)). by_emitter bitop_clear_ok.
Qed.
End block.

(** ** The table of a device *)

Section table.
Context {E : RewriteEnv} (vaddr_offset : Z) (f : device_funcs).
(** An entry for an access that has a function, with room for the call. *)
Definition device_entry (m : Z → Z) (e : Z * Z) (k : access) (func reg : Z) (o : operand) : Prop :=
  guest_access m (e.1 - vaddr_offset) f = Some (k, func, reg, o) ∧ operand_ok m (e.1 - vaddr_offset) k reg o ∧
  func ≠ 0 ∧ e.1 + 27 ≤ e.2.
Definition device_entry_ok (m : Z → Z) (e : Z * Z) : Prop := ∃ k func reg o, device_entry m e k func reg o.
Definition device_table_done (l : list (Z * Z)) (m m' : Z → Z) (v : Z) : Prop :=
  (∀ a, (∀ e, e ∈ l → ¬ covers vaddr_offset e a) → m' a = m a) ∧
  ∀ e k func reg o, e ∈ l → device_entry m e k func reg o →
    holds_access m' v (e.1 - vaddr_offset) (e.2 - vaddr_offset) k func reg o.

(** An entry depends on the bytes of its own block. *)
Lemma bytes_at_same m m' a n : (∀ x, a ≤ x < a + Z.of_nat n → m' x = m x) → bytes_at m' a n = bytes_at m a n.
Proof.
  revert a. induction n as [|n IH]; intros a H; [done|]. rewrite !bytes_at_S. f_equal; [apply H; lia|]. apply IH. intros. apply H. lia.
Qed.
Lemma device_entry_same m m' e k func reg o :
  (∀ a, covers vaddr_offset e a → m' a = m a) → device_entry m e k func reg o → device_entry m' e k func reg o.
Proof.
  intros Heq (Hg & Ho & Hf & Hlen). unfold covers in Heq. set (p := e.1 - vaddr_offset) in *.
  assert (∀ x, p ≤ x < p + 27 → m' x = m x) as Hsame by (intros; apply Heq; lia).
  split_and!; [| |done|done]; fold p.
  - unfold guest_access, with_access in *.
    rewrite (Hsame p), (bytes_at_same m m' (p + 1) 7), (bytes_at_same m m' (p + 1) 4) by (intros; try apply Hsame; lia). done.
  - unfold operand_ok in *. rewrite (Hsame (p + 1)), (bytes_at_same m m' (p + 2) 6) by (intros; try apply Hsame; lia). done.
Qed.
Lemma device_table_ok l : ∀ s,
  (∀ a, is_byte (rw_mem s a)) → disjoint_blocks vaddr_offset l → Forall (device_entry_ok (rw_mem s)) l →
  wp no_fault (arch_apply_device_patchups l vaddr_offset f)
    (λ good s', good = true ∧ rw_curr_virt_addr s' = rw_curr_virt_addr s ∧
      device_table_done l (rw_mem s) (rw_mem s') (rw_curr_virt_addr s)) s.
Proof.
  induction l as [|[b e] l IH]; intros s Hbytes Hdis Hok; simpl.
  - wp_step. split_and!; [done..|]. split; [done|]. intros ? ? ? ? ? He. by apply not_elem_of_nil in He.
  - inversion Hok as [|? ? (k & func & reg & o & (Hg & Ho & Hf & Hlen)) Hok']; subst. simpl in *. wp_step.
    eapply wp_mono; [eapply (apply_device_patchup_ok (rw_mem s)); [done|lia|done..]|].
    intros good s1 (_ & (Hout & Hb1 & Hblk) & Hv).
    assert (∀ e' a, e' ∈ l → covers vaddr_offset e' a → ¬ covers vaddr_offset (b, e) a) as Hdis1.
    { intros e' a [j Hj]%list_elem_of_lookup Ha Hc. by apply (Hdis 0%nat (S j) (b, e) e' eq_refl Hj ltac:(lia) a). }
    assert (∀ e' a, e' ∈ l → covers vaddr_offset e' a → rw_mem s1 a = rw_mem s a) as Hsame1.
    { intros e' a He' Ha. apply Hout. by apply (Hdis1 e'). }
    eapply wp_mono; [apply IH; [done| |]|].
    + intros i j e1 e2 H1 H2 Hij. apply (Hdis (S i) (S j)); [done..|lia].
    + apply list.Forall_forall. intros e' He'. destruct (proj1 (list.Forall_forall _ _) Hok' e' He') as (k' & func' & reg' & o' & Hd).
      exists k', func', reg', o'. eapply device_entry_same; [|done]. eauto.
    + intros good' s2 (-> & Hv2 & Hsame & Hall). rewrite Hv in *. split_and!; [done..|]. split.
      * intros a Ha. rewrite Hsame; [apply Hout, (Ha (b, e)); by left|]. intros e' He'. apply Ha. by right.
      * intros e' k' func' reg' o' [->|He']%elem_of_cons Hd.
        -- destruct Hd as (Hg' & _). simpl in Hg'. rewrite Hg in Hg'. injection Hg' as <- <- <- <-.
           eapply holds_access_same; [done|]. intros a Ha. apply Hsame. intros e1 He1 Hc. by apply (Hdis1 e1 a He1 Hc).
        -- apply Hall; [done|]. eapply device_entry_same; [|done]. eauto.
Qed.

(** C4. Device accesses are emulated faithfully, for the operands that the rewriter can
    translate. The table consists of disjoint blocks ([device_entry]) that each hold a move, or,
    and, or exchange with a device, with 27 bytes of room, a function given for the access, and
    an operand that [operand_ok] admits: it is in memory, the register is not [ESP], an 8-bit
    displacement from [ESP] stays positive with the 12 bytes that are pushed, and a write from
    [EDX] through a SIB byte does not use [EAX] in its address. (Outside of that the code goes
    wrong: [disp8_wraps], [edx_through_eax], [short_block_reported_done].) Then the rewriter succeeds
    and changes nothing outside the blocks; afterwards, for every function called that obeys
    the calling convention, the processor runs from the start of each block into it, calling
    the function of the access once, with the address that the guest's operand denotes and
    the value of its register. The register of a read or an exchange holds the result; all
    other registers and the stack are as before. *)
Theorem device_table_correct s table :
  (∀ a, is_byte (rw_mem s a)) → disjoint_blocks vaddr_offset table → Forall (device_entry_ok (rw_mem s)) table →
  ∃ s', arch_apply_device_patchups table vaddr_offset f s = Ok true s' ∧
    (∀ a, (∀ e, e ∈ table → ¬ covers vaddr_offset e a) → rw_mem s' a = rw_mem s a) ∧
    ∀ e k func reg o, e ∈ table → device_entry (rw_mem s) e k func reg o →
      runs_access (rw_mem s') (rw_curr_virt_addr s) (e.1 - vaddr_offset) (e.2 - vaddr_offset) k func reg o.
Proof.
  intros Hb Hd Hok. destruct (wp_no_fault _ _ _ (device_table_ok table s Hb Hd Hok)) as (good & s' & Hr & -> & _ & Hout & Hall).
  exists s'. split_and!; [done..|]. intros. apply holds_access_runs. eauto.
Qed.
End table.
