(* ===== verification/RewriteRuns.v ===== *)
(** * The rewriter on concrete code

    Instances of the theorems of RewritePatch.v and RewriteDevice.v, and runs of the
    rewriter on instructions that it does not translate as it should. *)

From Stdlib Require Import ZArith Lia.
From stdpp Require Import base list functions numbers.
From S2P Require Import Prelude Rewrite Ia32 RewriteSpec RewritePatch RewriteDevice.

Module RewriteWitness.
(** A build that accesses the virtual processor in place. *)
#[export] Instance env : RewriteEnv := {
  addr_of f := match f with burn_outs => 0xe0000100 | burn_mov_fromfsofs => 0xe0000200 | _ => 0xe0000000 end;
  cpu_addr _ := 0xe1000000;
  get_kernel_vaddr := 0xc0000000;
  hardware_segments := false;
  CONFIG_IA32_STRICT_IRQ := true;
  CONFIG_DEVICE_APIC := false;
  CONFIG_CALLOUT_VCPULOCAL := false;
  uninit_modrm := 0;
  uninit_suffixes := replicate 6 0
}.
(** The bytes [bs] at [0x1000], no-ops elsewhere. *)
Definition code (bs : list Z) (a : Z) : Z := if decide (0x1000 ≤ a) then nth (Z.to_nat (a - 0x1000)) bs OP_NOP1 else OP_NOP1.
Definition state (bs : list Z) : rw_t := mk_rw (code bs) 0 0 (replicate 15 100) 0.
Lemma code_bytes bs a : Forall is_byte bs → is_byte (code bs a).
Proof.
  intros Hb. unfold code. case_decide; [|done]. rewrite nth_lookup. destruct (bs !! _) eqn:He; [|done]. by eapply Forall_lookup_1 in He.
Qed.
Lemma bytes_decide bs : forallb (λ b, (0 <=? b) && (b <? 256)) bs = true → Forall is_byte bs.
Proof.
  intros H. apply list.Forall_forall. intros b Hb. rewrite forallb_forall in H. apply list_elem_of_In in Hb. specialize (H b Hb).
  unfold is_byte. lia.
Qed.

(** Disable interrupts, then [out] to a port after a prefix: two blocks of 32 bytes. *)
Definition kernel : list Z := 0xfa :: replicate 31 OP_NOP1 ++ [prefix_operand_size; OP_OUT_DX].
Definition table : list (Z * Z) := [(0xc0001000, 0xc0001020); (0xc0001020, 0xc0001040)].
Lemma table_disjoint : disjoint_blocks 0xc0000000 table.
Proof.
  intros i j e e' Hi Hj Hij a Ha Hb. unfold covers, table in *.
  destruct i as [|[|i]], j as [|[|j]]; simpl in *; simplify_eq; simpl in *; lia.
Qed.
Lemma not_prefix b : bool_decide (is_prefix b) = false → ¬ is_prefix b.
Proof. apply bool_decide_eq_false. Qed.
Lemma is_simple b : bool_decide (simple_op b) = true → simple_op b.
Proof. apply bool_decide_eq_true. Qed.
Lemma is_a_prefix b : bool_decide (is_prefix b) = true → is_prefix b.
Proof. apply bool_decide_eq_true. Qed.

(** A write of [ECX] to the local APIC, and a read through the stack pointer to [EBX]. *)
Definition driver : list Z := [0x89; 0x0d] ++ bytes32 0xfee00300 ++ replicate 26 OP_NOP1 ++ [0x8b; 0x5c; 0x24; 0x08].
Definition funcs : device_funcs := mk_funcs 0xe0000300 0xe0000400 0 0 0.
(** A function that answers [0x42] and uses [ECX] and [EDX] as it likes. *)
Definition answer (t : Z) (R stk : Z → Z) : (Z * Z * Z) * (Z → Z) := ((0x42, 7, 9), stk).
Definition core : core_t := mk_core (λ r, if decide (r = ESP) then 0x8000 else r) (λ _, 0) [].
Lemma device_table_correct_witness :
  ∃ s', arch_apply_device_patchups table 0xc0000000 funcs (state driver) = Ok true s' ∧
    ∃ n q c' result, steps answer n (rw_mem s') 0 (0x1020, core) = Some (q, c') ∧
      c_calls c' = [mk_call 0xe0000300 0x8008 EDX result] ∧ c_regs c' 3 = result ∧ c_regs c' ECX = ECX.
Proof.
  destruct (device_table_correct 0xc0000000 funcs (state driver) table) as (s' & Hr & _ & Hruns).
  - intros a. apply code_bytes, bytes_decide. reflexivity.
  - exact table_disjoint.
  - constructor; [|constructor; [|constructor]].
    + exists Write, 0xe0000400, ECX, (OMem None None 0xfee00300). split; [reflexivity|]. split; [|split; [discriminate|simpl; lia]].
      split; [exact I|]. split; [discriminate|]. split; [intros H; vm_compute in H; discriminate|]. intros _ H. discriminate.
    + exists Read, 0xe0000300, 3, (OMem (Some ESP) None 8). split; [reflexivity|]. split; [|split; [discriminate|simpl; lia]].
      split; [exact I|]. split; [discriminate|]. split; [intros _ _ _ _; vm_compute; reflexivity|]. intros H. by destruct H.
  - exists s'. split; [exact Hr|].
    destruct (Hruns (0xc0001020, 0xc0001040) Read 0xe0000300 3 (OMem (Some ESP) None 8)) with (callee := answer) (c := core)
      as (n & q & c' & _ & Hs & result & Hc & Hregs & _).
    + right. left.
    + split; [reflexivity|]. split; [|split; [discriminate|simpl; lia]].
      split; [exact I|]. split; [discriminate|]. split; [intros _ _ _ _; vm_compute; reflexivity|]. intros H. by destruct H.
    + intros t R stk k _. reflexivity.
    + vm_compute. split; [discriminate|reflexivity].
    + change (rw_curr_virt_addr (state driver)) with 0 in Hs. rewrite (Z.add_0_r q) in Hs. exists n, q, c', result.
      split; [exact Hs|]. split; [exact Hc|]. split; [exact (Hregs 3 ltac:(lia))|exact (Hregs ECX ltac:(vm_compute; split; [discriminate|reflexivity]))].
Defined.
End RewriteWitness.

(** ** What is not translated as it should be *)

Module RewriteHazards.
Import RewriteWitness.

(** The bytes of the first block after it was patched, when that was reported as done. *)
Definition patched_bytes (r : res rw_t bool) (n : nat) : option (list Z) :=
  match r with Ok true s => Some (bytes_at (rw_mem s) 0x1000 n) | _ => None end.
Definition patch (bs : list Z) (len : Z) : res rw_t bool := apply_patchup 128 0x1000 (0x1000 + len) (state bs).
Definition patch_dev (bs : list Z) (len : Z) : res rw_t bool :=
  apply_device_patchup 0x1000 (0x1000 + len) funcs (state bs).

(** A segment prefix ends the patch: behind it the sensitive instruction (here [popf])
    is left in the block, and the block is reported as done. *)
Example segment_prefix_unpatched : patched_bytes (patch [prefix_ds; OP_POPF] 32) 2 = Some [OP_NOP1; OP_POPF].
Proof. vm_compute. reflexivity. Qed.

(** A string output of one item passes [ECX] as its count: the same code is emitted with
    and without the repeat prefix, which only becomes a no-op. *)
Example outs_count_is_ecx :
  ∃ bs, patched_bytes (patch [OP_OUTSB_DX] 32) 12 = Some bs ∧ bs !! 2%nat = Some (OP_PUSH_REG + OP_REG_ECX) ∧
    patched_bytes (patch [prefix_rep; OP_OUTSB_DX] 32) 4 = Some (OP_NOP1 :: take 3 bs).
Proof. eexists. split; [vm_compute; reflexivity|]. split; vm_compute; reflexivity. Qed.

(** A load through [fs]: the prefix was overwritten before it is read again, so that the
    code loads the address itself ([lea], [push], [pop]) and calls nothing. *)
Example fs_load_loads_address :
  patched_bytes (patch [prefix_fs; OP_MOV_FROMMEM32; 0x03] 32) 5 = Some [OP_NOP1; 0x8d; mk_modrm 0 0 3; OP_PUSH_REG; OP_POP_REG].
Proof. vm_compute. reflexivity. Qed.

(** A block of prefixes only: the loop goes on behind it, removes the breakpoint it finds
    there, and the block is reported as done. *)
Example prefixes_run_past_block :
  match patch [prefix_rep; prefix_rep; OP_INT3] 2 with
  | Ok good s => good = true ∧ bytes_at (rw_mem s) 0x1000 3 = [OP_NOP1; OP_INT3; OP_NOP1] | Err _ => False end.
Proof. vm_compute. split; reflexivity. Qed.
(** The debugger is entered for a [repne] prefix, and the rewriter goes on. *)
Example repne_goes_on :
  match patch [prefix_repne; OP_CLI] 32 with
  | Ok good s => good = true ∧ rw_debugger s = 1%nat ∧ rw_mem s 0x1000 = OP_NOP1 | Err _ => False end.
Proof. vm_compute. split_and!; reflexivity. Qed.

(** A block that is too short is overrun before it is refused. *)
Example short_block_overrun :
  match patch_dev ([0x8b; 0x03] ++ [OP_STI]) 2 with Ok good s => good = false ∧ rw_mem s 0x1002 ≠ OP_STI | Err _ => False end.
Proof. vm_compute. split; [reflexivity|discriminate]. Qed.
(** ... and the table of a device reports success nevertheless. *)
Example short_block_reported_done :
  match arch_apply_device_patchups [(0x1000, 0x1002)] 0 funcs (state ([0x8b; 0x03] ++ [OP_STI])) with
  | Ok good s => good = true ∧ rw_mem s 0x1002 ≠ OP_STI | Err _ => False end.
Proof. vm_compute. split; [reflexivity|discriminate]. Qed.

(** The first call made by the patched access, run from [core]. *)
Definition first_call (r : res rw_t bool) (n : nat) : option call_t :=
  match r with
  | Ok true s => match steps answer n (rw_mem s) 0 (0x1000, core) with Some (_, c) => head (c_calls c) | None => None end
  | _ => None
  end.
(** [mov %edx, (%eax,%ecx,1)]: [EAX] is overwritten with the value before the address is
    computed. The address is [1], the function gets [3]. *)
Example edx_through_eax :
  option_map call_edx (first_call (patch_dev [0x89; 0x14; 0x08] 32) 6) = Some 3 ∧
  (ea (c_regs core) <$> (snd <$> guest_access (code [0x89; 0x14; 0x08]) 0x1000 funcs)) = Some 1.
Proof. vm_compute. split; reflexivity. Qed.
(** [mov 0x7c(%esp), %ebx]: with the three registers pushed the 8-bit displacement becomes
    negative. *)
Example disp8_wraps :
  option_map call_eax (first_call (patch_dev [0x8b; 0x5c; 0x24; 0x7c] 32) 5) = Some (0x8000 + 0x7c - 256) ∧
  (ea (c_regs core) <$> (snd <$> guest_access (code [0x8b; 0x5c; 0x24; 0x7c]) 0x1000 funcs)) = Some (0x8000 + 0x7c).
Proof. vm_compute. split; reflexivity. Qed.
(** A segment register loaded from the stack, in place: the push is counted before the
    operand is adjusted, so that the word above is read. *)
Example push_operand_off_by_four :
  patched_bytes (patch [OP_MOV_TOSEG; 0x5c; 0x24; 0x08] 32) 4 = Some [0xff; 0x74; 0x24; 0x0c].
Proof. vm_compute. reflexivity. Qed.
(** A read of an unknown segment register is reported as done and left as it is. *)
Example unknown_segment_done : patched_bytes (patch [OP_MOV_FROMSEG; 0xf0] 32) 2 = Some [OP_MOV_FROMSEG; 0xf0].
Proof. vm_compute. reflexivity. Qed.
End RewriteHazards.
