(* ===== verification/Pci.v ===== *)
(** * The PCI configuration-space server: definitions

    Models kernel/pci/server.c and server.h: client VMs register devices of the
    driver VM by vendor and device id and then read and write their configuration
    space. Clients and their devices are kept in Linux lists of allocated objects;
    the heap and the links are explicit, so that an access to freed memory is a
    fault. *)

From stdpp Require Import base list gmap numbers.
From Stdlib Require Import ZArith Lia.
From S2P Require Import Prelude CmdRing.

(** ** Data *)

(** The [struct list_head]s of the module: the list of clients, the node of a
    client in it, the head of a client's device list, the node of a device. *)
Inductive lnode : Type := LClients | LClient (p : positive) | LDevs (p : positive) | LDev (q : positive).
#[global] Instance lnode_eq_dec : EqDecision lnode.
Proof. solve_decision. Defined.
#[global] Instance lnode_countable : Countable lnode.
Proof.
  refine (inj_countable' (λ n, match n with LClients => inl tt | LClient p => inr (inl p)
      | LDevs p => inr (inr (inl p)) | LDev q => inr (inr (inr q)) end)
    (λ x, match x with inl _ => LClients | inr (inl p) => LClient p | inr (inr (inl p)) => LDevs p | inr (inr (inr q)) => LDev q end) _).
  by intros [].
Defined.
Record list_head : Type := mk_lh { l_next : lnode; l_prev : lnode }.

(** [L4VMpci_dev_t]; [pd_dev] is the pointer to the [struct pci_dev]. The links
    are in the map of links. Of [L4VMpci_client_t] remains the thread. *)
Record L4VMpci_dev_t : Type := mk_pdev { pd_dev : Z; pd_writable : Z; pd_idx : Z }.
Record L4VMpci_client_t : Type := mk_pclient { pc_tid : Z }.

(** [L4VM_server_cmd_params_t]. [reg.devs] always points to the receive buffer of
    the server thread, so that only the number is kept. *)
Inductive pci_params : Type :=
  | PPreg (dev_num : Z)
  | PPdereg (tid : Z)
  | PPrw (idx reg len offset val : Z).
Inductive pci_handler : Type := HPregister | HPderegister | HPread | HPwrite.
Abbreviation pci_cmd := (L4VM_server_cmd_t pci_handler pci_params).
Abbreviation pci_ring := (L4VM_server_cmd_ring_t pci_handler pci_params).

Inductive pci_ex : Type := ex_IVMpci_unknown | ex_IVMpci_invalid_client.
Inductive pci_reply : Type :=
  | RRegister | RDeregister | RRead (val ret : Z) | RWrite (ret : Z) | RException (x : pci_ex).
Inductive pci_event : Type :=
  | PReply (sender client : Z) (r : pci_reply)
  | PCfgRead (dev reg len : Z)
  | PCfgWrite (dev reg len val : Z)
  | PKdb
  | PScheduleBottomHalf
  | PAddVirtualIrq (irq : Z)
  | PRequestIrq (irq : Z)
  | PFreeIrq (irq : Z)
  | PL4 (e : l4_event).

Definition L4VMPCI_IRQ_BOTTOM_HALF_CMD : Z := 1.
Definition L4VMPCI_IRQ_TOP_HALF_CMD : Z := 2.
(** The size of [dev_ids] in [IVMpci_Control_server]. *)
Definition DEV_IDS : nat := 20.
(** [ENOMEM] of Linux. *)
Definition PCI_ENOMEM : Z := 12.

(** Linux: the devices on the bus, accesses to configuration space (the value a
    read stores, if it stores one, and the result code), and [kmalloc], which gives
    NULL or memory that is not in use. *)
Class PciEnv : Type := {
  cfg : Type;
  pci_find_device : Z → Z → option Z;
  pci_read_config : Z → Z → Z → cfg → option Z * Z * cfg;
  pci_write_config : Z → Z → Z → Z → cfg → Z * cfg;
  client_malloc : gmap positive L4VMpci_client_t → option positive;
  client_malloc_fresh : ∀ h p, client_malloc h = Some p → h !! p = None;
  dev_malloc : gmap positive L4VMpci_dev_t → option positive;
  dev_malloc_fresh : ∀ h p, dev_malloc h = Some p → h !! p = None
}.

(** [L4VMpci_server_t], the heap, the receive buffer of the server thread. *)
Record L4VMpci_server_t {E : PciEnv} : Type := mk_pci {
  ps_server_tid : Z;
  ps_my_irq_tid : Z;
  ps_my_main_tid : Z;
  ps_irq : irq_words;
  ps_irq_mask : Z;
  L4VMpci_server_irq : Z;
  ps_links : gmap lnode list_head;
  ps_clients : gmap positive L4VMpci_client_t;
  ps_devs : gmap positive L4VMpci_dev_t;
  ps_top : pci_ring;
  ps_bottom : pci_ring;
  ps_dev_ids : list (Z * Z);
  ps_cfg : cfg;
  ps_trace : list pci_event
}.

Section pci.
Context {E : PciEnv}.
Implicit Types (s : L4VMpci_server_t).
Abbreviation MP := (M L4VMpci_server_t).

Definition ps_set_links x s := mk_pci E (ps_server_tid s) (ps_my_irq_tid s) (ps_my_main_tid s) (ps_irq s) (ps_irq_mask s) (L4VMpci_server_irq s)
  x (ps_clients s) (ps_devs s) (ps_top s) (ps_bottom s) (ps_dev_ids s) (ps_cfg s) (ps_trace s).
Definition ps_set_clients x s := mk_pci E (ps_server_tid s) (ps_my_irq_tid s) (ps_my_main_tid s) (ps_irq s) (ps_irq_mask s) (L4VMpci_server_irq s)
  (ps_links s) x (ps_devs s) (ps_top s) (ps_bottom s) (ps_dev_ids s) (ps_cfg s) (ps_trace s).
Definition ps_set_devs x s := mk_pci E (ps_server_tid s) (ps_my_irq_tid s) (ps_my_main_tid s) (ps_irq s) (ps_irq_mask s) (L4VMpci_server_irq s)
  (ps_links s) (ps_clients s) x (ps_top s) (ps_bottom s) (ps_dev_ids s) (ps_cfg s) (ps_trace s).
Definition ps_set_irq x s := mk_pci E (ps_server_tid s) (ps_my_irq_tid s) (ps_my_main_tid s) x (ps_irq_mask s) (L4VMpci_server_irq s)
  (ps_links s) (ps_clients s) (ps_devs s) (ps_top s) (ps_bottom s) (ps_dev_ids s) (ps_cfg s) (ps_trace s).
Definition ps_set_top x s := mk_pci E (ps_server_tid s) (ps_my_irq_tid s) (ps_my_main_tid s) (ps_irq s) (ps_irq_mask s) (L4VMpci_server_irq s)
  (ps_links s) (ps_clients s) (ps_devs s) x (ps_bottom s) (ps_dev_ids s) (ps_cfg s) (ps_trace s).
Definition ps_set_bottom x s := mk_pci E (ps_server_tid s) (ps_my_irq_tid s) (ps_my_main_tid s) (ps_irq s) (ps_irq_mask s) (L4VMpci_server_irq s)
  (ps_links s) (ps_clients s) (ps_devs s) (ps_top s) x (ps_dev_ids s) (ps_cfg s) (ps_trace s).
Definition ps_set_dev_ids x s := mk_pci E (ps_server_tid s) (ps_my_irq_tid s) (ps_my_main_tid s) (ps_irq s) (ps_irq_mask s) (L4VMpci_server_irq s)
  (ps_links s) (ps_clients s) (ps_devs s) (ps_top s) (ps_bottom s) x (ps_cfg s) (ps_trace s).
Definition ps_set_cfg x s := mk_pci E (ps_server_tid s) (ps_my_irq_tid s) (ps_my_main_tid s) (ps_irq s) (ps_irq_mask s) (L4VMpci_server_irq s)
  (ps_links s) (ps_clients s) (ps_devs s) (ps_top s) (ps_bottom s) (ps_dev_ids s) x (ps_trace s).
Definition plog e s := mk_pci E (ps_server_tid s) (ps_my_irq_tid s) (ps_my_main_tid s) (ps_irq s) (ps_irq_mask s) (L4VMpci_server_irq s)
  (ps_links s) (ps_clients s) (ps_devs s) (ps_top s) (ps_bottom s) (ps_dev_ids s) (ps_cfg s) (ps_trace s ++ [e]).
Definition pemit (e : pci_event) : MP unit := mmodify (plog e).

(** ** Lists (Linux list.h) *)

Definition load_link (n : lnode) : MP list_head := o ← mgets (λ s, ps_links s !! n); mof_option DanglingDeref o.
Definition store_link (n : lnode) (l : list_head) : MP unit := mmodify (λ s, ps_set_links (<[n := l]> (ps_links s)) s).
Definition list_add (new head : lnode) : MP unit :=
  h ← load_link head;
  let next := l_next h in
  l ← load_link next;
  store_link next (mk_lh (l_next l) new);;
  l ← load_link new;
  store_link new (mk_lh next head);;
  l ← load_link head;
  store_link head (mk_lh new (l_prev l)).

Definition load_client (p : positive) : MP L4VMpci_client_t := o ← mgets (λ s, ps_clients s !! p); mof_option DanglingDeref o.
Definition load_dev (q : positive) : MP L4VMpci_dev_t := o ← mgets (λ s, ps_devs s !! q); mof_option DanglingDeref o.

(** A list cannot have more nodes than there are links. *)
Definition list_fuel s : nat := S (size (ps_links s)).

(** ** Client management *)

Definition L4VMpci_server_create_client (tid : Z) : MP (option positive) :=
  o ← mgets (λ s, client_malloc (ps_clients s));
  match o with
  | Some p =>
      mmodify (λ s, ps_set_clients (<[p := mk_pclient tid]> (ps_clients s)) s);;
      store_link (LClient p) (mk_lh (LClient p) (LClient p));;
      store_link (LDevs p) (mk_lh (LDevs p) (LDevs p));;
      list_add (LClient p) LClients;;
      mret (Some p)
  | None => mret None
  end.

(** The loop frees the element it stands on and then follows its link. *)
Fixpoint free_devs (fuel : nat) (head elem : lnode) : MP unit :=
  match fuel with
  | O => mfault Diverged
  | S fuel =>
      if bool_decide (elem = head) then mret tt else
      match elem with
      | LDev q =>
          load_dev q;;
          mmodify (λ s, ps_set_devs (delete q (ps_devs s)) (ps_set_links (delete (LDev q) (ps_links s)) s));;
          l ← load_link elem;
          free_devs fuel head (l_next l)
      | _ => mfault DanglingDeref
      end
  end.
Definition L4VMpci_server_deregister_client (p : positive) : MP unit :=
  fuel ← mgets list_fuel;
  h ← load_link (LDevs p);
  free_devs fuel (LDevs p) (l_next h);;
  mmodify (λ s, ps_set_clients (delete p (ps_clients s))
    (ps_set_links (delete (LClient p) (delete (LDevs p) (ps_links s))) s)).

(** [dev] is NULL when the device was not found; the message printed before the
    device is linked reads its bus number. *)
Definition L4VMpci_client_add_device (p : positive) (idx : Z) (dev : option Z) (writable : Z) : MP Z :=
  o ← mgets (λ s, dev_malloc (ps_devs s));
  match o with
  | Some q =>
      store_link (LDev q) (mk_lh (LDev q) (LDev q));;
      d ← mof_option NullDeref dev;
      mmodify (λ s, ps_set_devs (<[q := mk_pdev d writable idx]> (ps_devs s)) s);;
      list_add (LDev q) (LDevs p);;
      mret 0
  | None => mret (- PCI_ENOMEM)
  end.

Fixpoint find_client (fuel : nat) (tid : Z) (elem : lnode) : MP (option positive) :=
  match fuel with
  | O => mfault Diverged
  | S fuel =>
      match elem with
      | LClient p =>
          c ← load_client p;
          if bool_decide (pc_tid c = tid) then mret (Some p) else
          l ← load_link elem;
          find_client fuel tid (l_next l)
      | LClients => mret None
      | _ => mfault DanglingDeref
      end
  end.
Definition L4VMpci_server_lookup_client (tid : Z) : MP (option positive) :=
  fuel ← mgets list_fuel;
  h ← load_link LClients;
  find_client fuel tid (l_next h).

Fixpoint find_device (fuel : nat) (head : lnode) (idx : Z) (elem : lnode) : MP (option positive) :=
  match fuel with
  | O => mfault Diverged
  | S fuel =>
      if bool_decide (elem = head) then mret None else
      match elem with
      | LDev q =>
          d ← load_dev q;
          if bool_decide (pd_idx d = idx) then mret (Some q) else
          l ← load_link elem;
          find_device fuel head idx (l_next l)
      | _ => mfault DanglingDeref
      end
  end.
Definition L4VMpci_server_lookup_device (p : positive) (idx : Z) : MP (option positive) :=
  fuel ← mgets list_fuel;
  h ← load_link (LDevs p);
  find_device fuel (LDevs p) idx (l_next h).

(** ** Request handling *)

(** The reply is sent as the server thread ([L4_Set_VirtualSender]). *)
Definition propagate_reply (client : Z) (r : pci_reply) : MP unit :=
  s ← mget;
  pemit (PReply (ps_server_tid s) client r).

(** The loop of the registration over the device ids [idx], [idx + 1], …, [n] of
    them; the receive buffer is read at each index. *)
Fixpoint register_loop (n : nat) (idx : Z) (tid : Z) (client : option positive) : MP (option pci_ex) :=
  match n with
  | O => mret None
  | S n =>
      ids ← mgets ps_dev_ids;
      id ← mof_option OutOfBounds (zlookup ids idx);
      let dev := pci_find_device id.1 id.2 in
      client ← (match client with Some p => mret (Some p) | None => L4VMpci_server_create_client tid end);
      match client with
      | None => mret (Some ex_IVMpci_unknown)
      | Some p =>
          err ← L4VMpci_client_add_device p idx dev 1;
          (if bool_decide (err ≠ 0) then pemit PKdb else mret tt);;
          register_loop n (idx + 1) tid (Some p)
      end
  end.
Definition L4VMpci_server_register_handler (tid dev_num : Z) : MP unit :=
  x ← register_loop (Z.to_nat dev_num) 0 tid None;
  propagate_reply tid (match x with Some x => RException x | None => RRegister end).

Definition L4VMpci_server_deregister_handler (tid param_tid : Z) : MP unit :=
  client ← L4VMpci_server_lookup_client param_tid;
  match client with
  | Some p => L4VMpci_server_deregister_client p;; propagate_reply tid RDeregister
  | None => propagate_reply tid (RException ex_IVMpci_invalid_client)
  end.

(** The byte and word reads store into the low bytes of [val], which is 0. *)
Definition read_config (dev reg len : Z) : MP (Z * Z) :=
  if bool_decide (len = 1 ∨ len = 2 ∨ len = 4) then
    s ← mget;
    let '(v, ret, c) := pci_read_config len dev reg (ps_cfg s) in
    mmodify (ps_set_cfg c);;
    pemit (PCfgRead dev reg len);;
    mret (match v with Some v => v `mod` 2 ^ (8 * len) | None => 0 end, ret)
  else mret (0, 0).
Definition L4VMpci_server_read_handler (tid idx reg len offset : Z) : MP unit :=
  let reg := u32 (reg * 4 + offset) in
  client ← L4VMpci_server_lookup_client tid;
  match client with
  | None => propagate_reply tid (RException ex_IVMpci_invalid_client)
  | Some p =>
      dev ← L4VMpci_server_lookup_device p idx;
      match dev with
      | Some q =>
          d ← load_dev q;
          r ← read_config (pd_dev d) reg len;
          propagate_reply tid (RRead r.1 r.2)
      | None => propagate_reply tid (RRead 0xFFFFFFFF 0)
      end
  end.

Definition write_config (dev reg len val : Z) : MP Z :=
  if bool_decide (len = 1 ∨ len = 2 ∨ len = 4) then
    s ← mget;
    let val := val `mod` 2 ^ (8 * len) in
    let '(ret, c) := pci_write_config len dev reg val (ps_cfg s) in
    mmodify (ps_set_cfg c);;
    pemit (PCfgWrite dev reg len val);;
    mret ret
  else mret 0.
Definition L4VMpci_server_write_handler (tid idx reg len offset val : Z) : MP unit :=
  let reg := u32 (reg * 4 + offset) in
  client ← L4VMpci_server_lookup_client tid;
  match client with
  | None => propagate_reply tid (RException ex_IVMpci_invalid_client)
  | Some p =>
      dev ← L4VMpci_server_lookup_device p idx;
      match dev with
      | Some q =>
          d ← load_dev q;
          ret ← (if bool_decide (pd_writable d = 1) then write_config (pd_dev d) reg len val else mret 0);
          propagate_reply tid (RWrite ret)
      | None => propagate_reply tid (RWrite 0)
      end
  end.

(** ** Commands and interrupts *)

(** The indirect call of a command's handler; the parameters are those of the
    union the stub stored. *)
Definition run_pci_handler (h : pci_handler) (cmd : pci_cmd) : MP unit :=
  p ← mof_option NullDeref (cmd_data cmd);
  match h, p with
  | HPregister, PPreg dev_num => L4VMpci_server_register_handler (reply_to_tid cmd) dev_num
  | HPderegister, PPdereg tid => L4VMpci_server_deregister_handler (reply_to_tid cmd) tid
  | HPread, PPrw idx reg len offset _ => L4VMpci_server_read_handler (reply_to_tid cmd) idx reg len offset
  | HPwrite, PPrw idx reg len offset val => L4VMpci_server_write_handler (reply_to_tid cmd) idx reg len offset val
  | _, _ => mfault DanglingDeref
  end.
Definition run_pci_res (h : pci_handler) (cmd : pci_cmd) (r : res L4VMpci_server_t unit) : res L4VMpci_server_t unit :=
  match r with Ok _ s => run_pci_handler h cmd s | Err f => Err f end.
Definition dispatch_pci (ring : L4VMpci_server_t → pci_ring) (set_ring : pci_ring → L4VMpci_server_t → L4VMpci_server_t) : MP unit := λ s,
  match L4VM_server_cmd_dispatcher run_pci_res (ps_server_tid s) (S L4VM_SERVER_CMD_RING_LEN) (ring s) (Ok tt s) with
  | None => Err Diverged
  | Some (_, Err f, _) => Err f
  | Some (r, Ok _ s', evs) => Ok tt (foldl (λ s e, plog (PL4 e) s) (set_ring r s') evs)
  end.
Definition L4VMpci_bottom_half_handler : MP unit := dispatch_pci ps_bottom ps_set_bottom.

Definition pci_pending (b : bool) s := ps_set_irq (mk_irq (irq_status (ps_irq s)) b) s.
Fixpoint L4VMpci_irq_handler (fuel : nat) : MP unit :=
  match fuel with
  | O => mfault Diverged
  | S fuel =>
      s ← mget;
      let '(events, w) := irq_status_reset (ps_irq s) in
      mmodify (ps_set_irq w);;
      if bool_decide (events = 0) then mret tt else
      mmodify (pci_pending true);;
      (if bool_decide (Z.land events L4VMPCI_IRQ_TOP_HALF_CMD ≠ 0) then dispatch_pci ps_top ps_set_top else mret tt);;
      (if bool_decide (Z.land events L4VMPCI_IRQ_BOTTOM_HALF_CMD ≠ 0) then pemit PScheduleBottomHalf else mret tt);;
      mmodify (pci_pending false);;
      L4VMpci_irq_handler fuel
  end.

(** ** The server thread *)

Definition L4VMpci_deliver_irq (ipc_failed : bool) (irq_flags : Z) : MP unit :=
  s ← mget;
  let '(w, evs) := L4VM_server_deliver_irq ipc_failed (ps_my_irq_tid s) (L4VMpci_server_irq s) irq_flags (ps_irq_mask s) (ps_irq s) in
  mmodify (λ s, foldl (λ s e, plog (PL4 e) s) (ps_set_irq w s) evs).

Section stubs.
(** What the rest of the driver VM does while the server thread waits. *)
Variable ipc : l4_event → pci_ring → irq_words → L4VMpci_server_t → bool * (pci_ring * irq_words * L4VMpci_server_t).
Variable ipc_failed : bool.
Variable fuel : nat.

Definition L4VMpci_cmd_allocate_bottom : MP Z := λ s,
  match L4VM_server_cmd_allocate ipc (ps_my_irq_tid s) (L4VMpci_server_irq s) L4VMPCI_IRQ_BOTTOM_HALF_CMD
          (ps_irq_mask s) fuel (ps_bottom s) (ps_irq s) s with
  | None => Err Diverged
  | Some (idx, r, w, s', evs) => Ok idx (foldl (λ s e, plog (PL4 e) s) (ps_set_bottom r (ps_set_irq w s')) evs)
  end.
Definition pci_stub (caller : Z) (params : pci_params) (h : pci_handler) : MP unit :=
  cmd_idx ← L4VMpci_cmd_allocate_bottom;
  mmodify (λ s, ps_set_bottom (cmd_fill cmd_idx caller params (ps_bottom s)) s);;
  mmodify (λ s, ps_set_bottom (cmd_publish cmd_idx h (ps_bottom s)) s);;
  L4VMpci_deliver_irq ipc_failed L4VMPCI_IRQ_BOTTOM_HALF_CMD.
Definition IVMpci_Control_register_implementation (caller dev_num : Z) : MP unit := pci_stub caller (PPreg dev_num) HPregister.
Definition IVMpci_Control_deregister_implementation (caller tid : Z) : MP unit := pci_stub caller (PPdereg tid) HPderegister.
Definition IVMpci_Control_read_implementation (caller idx reg len offset : Z) : MP unit :=
  pci_stub caller (PPrw idx reg len offset 0) HPread.
Definition IVMpci_Control_write_implementation (caller idx reg len offset val : Z) : MP unit :=
  pci_stub caller (PPrw idx reg len offset val) HPwrite.

(** The server loop receives the ids of a registration into [dev_ids], which has
    room for 20, and calls the stub; there is one buffer for all requests. *)
Definition receive_ids (ids : list (Z * Z)) : MP unit :=
  mmodify (λ s, ps_set_dev_ids (ids ++ drop (length ids) (ps_dev_ids s)) s).
Definition IVMpci_Control_server_register (caller : Z) (ids : list (Z * Z)) : MP unit :=
  receive_ids ids;;
  IVMpci_Control_register_implementation caller (length ids).
End stubs.

(** [L4VMpci_server_init_module] in the configuration without IO-APIC; the
    arguments are the threads of the virtual CPU and the results of [NR_IRQS],
    [request_irq], [L4VM_thread_create] and the locator. *)
Definition L4VMpci_server_init_module (irq_gtid main_gtid nr_irqs request_irq thread_create : Z) (locator : corba_major) : MP Z :=
  mmodify (λ s, mk_pci E (ps_server_tid s) irq_gtid main_gtid (mk_irq 0 false) (2 ^ 32 - 1)
    (if bool_decide (L4VMpci_server_irq s = 0) then 3 else L4VMpci_server_irq s)
    (ps_links s) (ps_clients s) (ps_devs s) (L4VM_server_cmd_init (ps_top s)) (L4VM_server_cmd_init (ps_bottom s))
    (ps_dev_ids s) (ps_cfg s) (ps_trace s));;
  s ← mget;
  let irq := L4VMpci_server_irq s in
  if bool_decide (nr_irqs ≤ irq) then mret (- PCI_ENOMEM) else
  pemit (PAddVirtualIrq irq);;
  if bool_decide (request_irq < 0) then mret request_irq else
  pemit (PRequestIrq irq);;
  mmodify (λ s, mk_pci E thread_create (ps_my_irq_tid s) (ps_my_main_tid s) (ps_irq s) (ps_irq_mask s) (L4VMpci_server_irq s)
    (ps_links s) (ps_clients s) (ps_devs s) (ps_top s) (ps_bottom s) (ps_dev_ids s) (ps_cfg s) (ps_trace s));;
  if bool_decide (thread_create = L4_nilthread) then pemit (PFreeIrq irq);; mret (- PCI_ENOMEM) else
  let err := L4VM_server_register_location locator in
  if bool_decide (err ≠ 0) then pemit (PFreeIrq irq);; mret err else
  mret 0.
End pci.
