(* ===== verification/PciSpec.v ===== *)
(** * The PCI configuration-space server: what it promises

    The server of Pci.v refines a table from client threads to devices: the bottom
    half answers every queued request once and in order, with the device the caller
    registered under the index it names. The last part shows what happens outside
    this contract. *)

From stdpp Require Import base list gmap numbers.
From Stdlib Require Import ZArith Lia.
From S2P Require Import Prelude CmdRing Pci.

(** ** Chains of links *)

Definition lnext (L : gmap lnode list_head) (n : lnode) : option lnode := l_next <$> L !! n.

(** From [a] the links lead over the nodes [ns] to [h]. *)
Fixpoint chain (L : gmap lnode list_head) (a : lnode) (ns : list lnode) (h : lnode) : Prop :=
  match ns with
  | [] => lnext L a = Some h
  | n :: ns => lnext L a = Some n ∧ chain L n ns h
  end.

Lemma chain_frame L L' ns h : ∀ a, (∀ n, n ∈ a :: ns → lnext L' n = lnext L n) → chain L a ns h → chain L' a ns h.
Proof.
  induction ns as [|n ns IH]; intros a Hf; cbn [chain].
  - by rewrite Hf by left.
  - intros [H1 H2]. rewrite Hf by left. split; [done|]. apply IH; [|done]. intros m Hm. apply Hf. by right.
Qed.
Lemma chain_head L a ns h : chain L a ns h → lnext L a = Some (default h (head ns)).
Proof. destruct ns; [done|]. by intros [? _]. Qed.
Lemma chain_in L ns h : ∀ a n, chain L a ns h → n ∈ a :: ns → is_Some (L !! n).
Proof.
  induction ns as [|m ns IH]; intros a n Hc Hn.
  - apply list_elem_of_singleton in Hn as ->. cbn in Hc. unfold lnext in Hc. by destruct (L !! a).
  - destruct Hc as [H1 H2]. apply elem_of_cons in Hn as [->|Hn]; [|by apply (IH m)]. unfold lnext in H1. by destruct (L !! a).
Qed.

(** There is fuel for every list. *)
Lemma chain_fuel L a ns h : chain L a ns h → NoDup ns → (length ns ≤ size L)%nat.
Proof.
  intros Hc Hnd. rewrite <- (size_list_to_set (C := gset lnode)) by done. rewrite <- size_dom. apply subseteq_size.
  intros n Hn%elem_of_list_to_set. apply elem_of_dom. apply (chain_in L ns h a); [done|]. by right.
Qed.

Section pci_spec.
Context {E : PciEnv}.
Implicit Types (s : L4VMpci_server_t).

Lemma wp_load_link F n l s Q : ps_links s !! n = Some l → Q l s → wp F (load_link n) Q s.
Proof. intros Hn HQ. unfold load_link. wp_step. wp_step. rewrite Hn. by apply wp_mret. Qed.
Lemma wp_load_pclient F p c s Q : ps_clients s !! p = Some c → Q c s → wp F (load_client p) Q s.
Proof. intros Hn HQ. unfold load_client. wp_step. wp_step. rewrite Hn. by apply wp_mret. Qed.
Lemma wp_load_dev F q d s Q : ps_devs s !! q = Some d → Q d s → wp F (load_dev q) Q s.
Proof. intros Hn HQ. unfold load_dev. wp_step. wp_step. rewrite Hn. by apply wp_mret. Qed.

(** [list_add] puts the new node between the head and its successor. *)
Lemma list_add_ok F new head nx s Q :
  lnext (ps_links s) head = Some nx → is_Some (ps_links s !! nx) → is_Some (ps_links s !! new) → new ≠ head → new ≠ nx →
  (∀ L', lnext L' head = Some new → lnext L' new = Some nx → (∀ n, n ≠ new → n ≠ head → lnext L' n = lnext (ps_links s) n) →
    Q tt (ps_set_links L' s)) →
  wp F (list_add new head) Q s.
Proof.
  intros Hh [lx Hx] [ln Hn] Hne Hnx HQ. unfold lnext in Hh. destruct (ps_links s !! head) as [lh|] eqn:El; [|done].
  injection Hh as Hh. unfold list_add. wp_step. apply (wp_load_link _ _ lh); [done|]. cbv zeta. rewrite Hh.
  wp_step. apply (wp_load_link _ _ lx); [done|]. unfold store_link. wp_step. wp_step. wp_step.
  apply (wp_load_link _ _ ln). { cbn. by rewrite lookup_insert_ne by done. }
  wp_step. wp_step. wp_step.
  assert (∃ lh', (<[new := mk_lh nx head]> (<[nx := mk_lh (l_next lx) new]> (ps_links s)) : gmap _ _) !! head = Some lh') as [lh' Hlh'].
  { rewrite lookup_insert_ne by done. destruct (decide (nx = head)) as [->|]; [rewrite lookup_insert_eq|rewrite lookup_insert_ne by done]; eauto. }
  apply (wp_load_link _ _ lh'); [done|]. wp_step.
  apply (HQ (<[head := mk_lh new (l_prev lh')]> (<[new := mk_lh nx head]> (<[nx := mk_lh (l_next lx) new]> (ps_links s))))).
  - unfold lnext. by rewrite lookup_insert_eq.
  - unfold lnext. by rewrite lookup_insert_ne, lookup_insert_eq.
  - intros n H1 H2. unfold lnext. cbn. rewrite !lookup_insert_ne by done.
    destruct (decide (n = nx)) as [->|]; [by rewrite lookup_insert_eq, Hx|by rewrite lookup_insert_ne].
Qed.

(** ** The table *)

(** Client threads, the latest first, with their devices by index, the latest
    first. *)
Abbreviation table := (list (Z * list (Z * Z))).
Definition spec_client (tid : Z) (a : table) : option (list (Z * Z)) := snd <$> List.find (λ e, bool_decide (e.1 = tid)) a.
Definition spec_dev (idx : Z) (ds : list (Z * Z)) : option Z := snd <$> List.find (λ e, bool_decide (e.1 = idx)) ds.

(** Addresses of the clients and of their devices. *)
Abbreviation cells := (list (positive * list positive)).
Definition dev_at s (q : positive) (d : Z * Z) : Prop := ps_devs s !! q = Some (mk_pdev d.2 1 d.1).
Definition cell_at s (c : positive * list positive) (e : Z * list (Z * Z)) : Prop :=
  ps_clients s !! c.1 = Some (mk_pclient e.1) ∧ Forall2 (dev_at s) c.2 e.2 ∧
  chain (ps_links s) (LDevs c.1) (LDev <$> c.2) (LDevs c.1).
Record pci_at s (cs : cells) (a : table) : Prop := {
  pa_clients : chain (ps_links s) LClients (LClient <$> cs.*1) LClients;
  pa_cells : Forall2 (cell_at s) cs a;
  pa_nodup : NoDup cs.*1;
  pa_nodup_devs : NoDup (concat cs.*2)
}.
Definition pci_rel s (a : table) : Prop := ∃ cs, pci_at s cs a.

(** ** Lookups *)

Lemma spec_client_cons tid e a : spec_client tid (e :: a) = if bool_decide (e.1 = tid) then Some e.2 else spec_client tid a.
Proof. unfold spec_client. cbn [List.find]. by destruct (bool_decide (e.1 = tid)). Qed.
Lemma spec_dev_cons idx d ds : spec_dev idx (d :: ds) = if bool_decide (d.1 = idx) then Some d.2 else spec_dev idx ds.
Proof. unfold spec_dev. cbn [List.find]. by destruct (bool_decide (d.1 = idx)). Qed.

Lemma find_client_ok F tid s : ∀ cs a prev nx fuel,
  chain (ps_links s) prev (LClient <$> cs.*1) LClients → lnext (ps_links s) prev = Some nx →
  Forall2 (cell_at s) cs a → (length cs < fuel)%nat →
  wp F (find_client fuel tid nx) (λ r s', s' = s ∧
    match r with
    | Some p => ∃ qs ds, (p, qs) ∈ cs ∧ cell_at s (p, qs) (tid, ds) ∧ spec_client tid a = Some ds
    | None => spec_client tid a = None
    end) s.
Proof.
  induction cs as [|[p qs] cs IH]; intros a prev nx fuel Hc Hn Hf Hfuel; (destruct fuel as [|fuel]; [cbn in Hfuel; lia|]).
  - cbn in Hc. apply Forall2_nil_inv_l in Hf as ->. rewrite Hc in Hn. injection Hn as <-. cbn [find_client]. by apply wp_mret.
  - apply Forall2_cons_inv_l in Hf as ([t ds] & a' & He & Hf & ->). destruct Hc as [Hp Hc]. rewrite Hp in Hn. injection Hn as <-.
    destruct He as (Hcl & Hd & Hch). cbn [fst snd] in *. cbn [find_client]. wp_step. apply (wp_load_pclient _ _ (mk_pclient t)); [done|]. cbv beta.
    rewrite spec_client_cons. cbn [fst snd pc_tid]. case_bool_decide as Ht.
    + subst t. apply wp_mret. split; [done|]. exists qs, ds. split; [left|]. done.
    + pose proof (chain_head _ _ _ _ Hc) as Hh. unfold lnext in Hh. destruct (ps_links s !! LClient p) as [l|] eqn:El; [|done].
      wp_step. apply (wp_load_link _ _ l); [done|]. cbv beta. eapply wp_mono; [apply (IH a' (LClient p) (l_next l)); try done|].
      * unfold lnext. by rewrite El.
      * cbn in Hfuel. lia.
      * intros r s' (-> & Hr). split; [done|]. destruct r as [p'|]; [|done]. destruct Hr as (qs' & ds' & Hin & Hr). exists qs', ds'. split; [by right|done].
Qed.

Lemma find_device_ok F idx p s : ∀ qs ds prev nx fuel,
  chain (ps_links s) prev (LDev <$> qs) (LDevs p) → lnext (ps_links s) prev = Some nx →
  Forall2 (dev_at s) qs ds → (length qs < fuel)%nat →
  wp F (find_device fuel (LDevs p) idx nx) (λ r s', s' = s ∧
    match r with
    | Some q => ∃ dev, ps_devs s !! q = Some (mk_pdev dev 1 idx) ∧ spec_dev idx ds = Some dev
    | None => spec_dev idx ds = None
    end) s.
Proof.
  induction qs as [|q qs IH]; intros ds prev nx fuel Hc Hn Hf Hfuel; (destruct fuel as [|fuel]; [cbn in Hfuel; lia|]).
  - cbn in Hc. apply Forall2_nil_inv_l in Hf as ->. rewrite Hc in Hn. injection Hn as <-. cbn [find_device].
    rewrite bool_decide_eq_true_2 by done. by apply wp_mret.
  - apply Forall2_cons_inv_l in Hf as ([i dev] & ds' & He & Hf & ->). destruct Hc as [Hp Hc]. rewrite Hp in Hn. injection Hn as <-.
    unfold dev_at in He. cbn [fst snd] in *. cbn [find_device]. rewrite bool_decide_eq_false_2 by done.
    wp_step. apply (wp_load_dev _ _ _ _ _ He). cbv beta. rewrite spec_dev_cons. cbn [fst snd pd_idx]. case_bool_decide as Ht.
    + subst i. apply wp_mret. split; [done|]. by exists dev.
    + pose proof (chain_head _ _ _ _ Hc) as Hh. unfold lnext in Hh. destruct (ps_links s !! LDev q) as [l|] eqn:El; [|done].
      wp_step. apply (wp_load_link _ _ l); [done|]. cbv beta. apply (IH ds' (LDev q)); try done.
      * unfold lnext. by rewrite El.
      * cbn in Hfuel. lia.
Qed.

Lemma link_of L a n : lnext L a = Some n → ∃ l, L !! a = Some l ∧ l_next l = n.
Proof. unfold lnext. destruct (L !! a) as [l|]; [|done]. intros [= <-]. eauto. Qed.

Lemma cells_fuel s cs a : pci_at s cs a → (length cs < list_fuel s)%nat.
Proof.
  intros [Hc _ Hnd _]. apply chain_fuel in Hc.
  - rewrite !length_fmap in Hc. unfold list_fuel. lia.
  - apply NoDup_fmap_2; [|done]. intros x y. congruence.
Qed.

Lemma lookup_client_ok F tid s cs a : pci_at s cs a →
  wp F (L4VMpci_server_lookup_client tid) (λ r s', s' = s ∧
    match r with
    | Some p => ∃ qs ds, (p, qs) ∈ cs ∧ cell_at s (p, qs) (tid, ds) ∧ spec_client tid a = Some ds
    | None => spec_client tid a = None
    end) s.
Proof.
  intros Ha. pose proof (cells_fuel _ _ _ Ha). destruct Ha as [Hc Hf _ _]. unfold L4VMpci_server_lookup_client. wp_step. wp_step. wp_step.
  pose proof (chain_head _ _ _ _ Hc) as Hh. destruct (link_of _ _ _ Hh) as (l & El & En). apply (wp_load_link _ _ l); [done|]. cbv beta.
  rewrite En. by eapply find_client_ok.
Qed.

Lemma devs_nodup s cs a p qs : pci_at s cs a → (p, qs) ∈ cs → NoDup qs.
Proof.
  intros [_ _ _ Hnd] [i Hi]%list_elem_of_lookup. revert i Hi. induction cs as [|[p' qs'] cs IH]; intros i Hi; [done|].
  cbn in Hnd. apply list.NoDup_app in Hnd as (H1 & _ & H2). destruct i as [|i]; [by injection Hi as -> ->|]. by apply (IH H2 i).
Qed.
Lemma lookup_device_ok F idx p qs tid ds s cs a : pci_at s cs a → (p, qs) ∈ cs → cell_at s (p, qs) (tid, ds) →
  wp F (L4VMpci_server_lookup_device p idx) (λ r s', s' = s ∧
    match r with
    | Some q => ∃ dev, ps_devs s !! q = Some (mk_pdev dev 1 idx) ∧ spec_dev idx ds = Some dev
    | None => spec_dev idx ds = None
    end) s.
Proof.
  intros Ha Hin (_ & Hd & Hch). cbn [fst snd] in *. pose proof (devs_nodup _ _ _ _ _ Ha Hin) as Hnd.
  unfold L4VMpci_server_lookup_device. wp_step. wp_step. wp_step.
  pose proof (chain_head _ _ _ _ Hch) as Hh. destruct (link_of _ _ _ Hh) as (l & El & En). apply (wp_load_link _ _ l); [done|]. cbv beta.
  rewrite En. eapply find_device_ok; try done. apply chain_fuel in Hch.
  - rewrite length_fmap in Hch. unfold list_fuel. lia.
  - apply NoDup_fmap_2; [|done]. intros x y. congruence.
Qed.

(** ** Registration *)

(** Everything but the heap. *)
Definition pci_rest s := (ps_server_tid s, ps_irq s, ps_top s, ps_bottom s, ps_dev_ids s, ps_cfg s, ps_trace s).

Lemma pcell_frame s s' c e : cell_at s c e → ps_clients s' !! c.1 = ps_clients s !! c.1 →
  (∀ q, q ∈ c.2 → ps_devs s' !! q = ps_devs s !! q ∧ lnext (ps_links s') (LDev q) = lnext (ps_links s) (LDev q)) →
  lnext (ps_links s') (LDevs c.1) = lnext (ps_links s) (LDevs c.1) → cell_at s' c e.
Proof.
  intros (H1 & H2 & H3) Hc Hd Hh. split; [by rewrite Hc|]. split.
  - assert (∀ q, q ∈ c.2 → ps_devs s' !! q = ps_devs s !! q) as Hd' by (intros; by apply Hd). clear - H2 Hd'.
    induction H2 as [|q d qs ds Hq _ IH]; constructor.
    + unfold dev_at. rewrite Hd' by left. done.
    + apply IH. intros. apply Hd'. by right.
  - eapply chain_frame; [|done]. intros n [->|Hn]%elem_of_cons; [done|]. apply list_elem_of_fmap in Hn as (q & -> & Hq). by apply Hd.
Qed.

Lemma cells_known s cs a p : Forall2 (cell_at s) cs a → p ∈ cs.*1 → is_Some (ps_clients s !! p).
Proof.
  induction 1 as [|[p' qs] [t ds] cs a (Hc & _) _ IH]; intros Hp; [by apply elem_of_nil in Hp|].
  apply elem_of_cons in Hp as [->|Hp]; [by eexists|by apply IH].
Qed.
Lemma devs_known s cs a q : Forall2 (cell_at s) cs a → q ∈ concat cs.*2 → is_Some (ps_devs s !! q).
Proof.
  induction 1 as [|[p' qs] [t ds] cs a (_ & Hd & _) _ IH]; intros Hq; [by apply elem_of_nil in Hq|].
  cbn in Hq. apply elem_of_app in Hq as [Hq|Hq]; [|by apply IH]. cbn [fst snd] in Hd.
  apply list_elem_of_lookup in Hq as [i Hi]. destruct (Forall2_lookup_l _ _ _ _ _ Hd Hi) as (d & _ & Hdd). by eexists.
Qed.
Lemma pcells_frame s s' cs a : Forall2 (cell_at s) cs a →
  (∀ p, p ∈ cs.*1 → ps_clients s' !! p = ps_clients s !! p ∧ lnext (ps_links s') (LDevs p) = lnext (ps_links s) (LDevs p)) →
  (∀ q, q ∈ concat cs.*2 → ps_devs s' !! q = ps_devs s !! q ∧ lnext (ps_links s') (LDev q) = lnext (ps_links s) (LDev q)) →
  Forall2 (cell_at s') cs a.
Proof.
  induction 1 as [|c e cs a Hc _ IH]; intros Hp Hq; constructor.
  - eapply pcell_frame; [done|..]; try (apply Hp; by left). intros q Hq'. apply Hq. cbn. apply elem_of_app. by left.
  - apply IH; intros x Hx; [apply Hp; by right|apply Hq]. cbn. apply elem_of_app. by right.
Qed.

(** [kmalloc] always finds memory. *)
Class PciAllocTotal : Prop := {
  client_malloc_total : ∀ h, is_Some (client_malloc h);
  dev_malloc_total : ∀ h, is_Some (dev_malloc h)
}.

Lemma create_client_ok F {T : PciAllocTotal} tid s cs a : pci_at s cs a →
  wp F (L4VMpci_server_create_client tid) (λ r s', ∃ p, r = Some p ∧ pci_at s' ((p, []) :: cs) ((tid, []) :: a) ∧ pci_rest s' = pci_rest s) s.
Proof.
  intros Ha. destruct (client_malloc_total (ps_clients s)) as [p Hp]. pose proof (client_malloc_fresh _ _ Hp) as Hf.
  destruct Ha as [Hc Hcs Hnd Hndd]. assert (p ∉ cs.*1) as Hnp by (intros Hin; destruct (cells_known _ _ _ _ Hcs Hin); congruence).
  unfold L4VMpci_server_create_client, store_link. wp_step. wp_step. rewrite Hp. do 6 wp_step.
  pose proof (chain_head _ _ _ _ Hc) as Hh. set (nx := default LClients _) in Hh.
  assert (∀ n, n ∈ LClients :: (LClient <$> cs.*1) → n ≠ LClient p ∧ n ≠ LDevs p) as Hout.
  { intros n [->|(p' & -> & Hp')%list_elem_of_fmap]%elem_of_cons; [done|]. split; [|done]. congruence. }
  assert (nx ∈ LClients :: (LClient <$> cs.*1)) as Hnx.
  { unfold nx. destruct (LClient <$> cs.*1); cbn; [left|right; left]. }
  pose proof (chain_in _ _ _ _ _ Hc Hnx) as Hsome. destruct (Hout _ Hnx) as [N1 N2].
  wp_step. eapply (list_add_ok _ _ _ nx); cbn [ps_links ps_set_links ps_set_clients].
  - unfold lnext. by rewrite !lookup_insert_ne.
  - by rewrite !lookup_insert_ne.
  - rewrite lookup_insert_ne, lookup_insert_eq by done. by eexists.
  - done.
  - done.
  - intros L' H1 H2 H3. apply wp_mret. exists p. split; [done|]. split; [|done].
    assert (∀ n, n ≠ LClient p → n ≠ LDevs p → n ≠ LClients → lnext L' n = lnext (ps_links s) n) as Hfr.
    { intros n M1 M2 M3. rewrite H3 by done. unfold lnext. by rewrite !lookup_insert_ne. }
    split; cbn [ps_links ps_clients ps_devs ps_set_links ps_set_clients].
    + rewrite fmap_cons. cbn [fst]. rewrite fmap_cons. split; [done|]. destruct (cs.*1) as [|p1 ps] eqn:Ecs; [done|].
      destruct Hc as [Hc1 Hc2]. split; [done|]. eapply chain_frame; [|exact Hc2].
      intros n Hn. destruct (Hout n) as [M1 M2]; [by right|]. apply Hfr; [done..|]. intros ->.
      apply elem_of_cons in Hn as [?|(? & ? & _)%list_elem_of_fmap]; done.
    + constructor.
      * split; [apply lookup_insert_eq|]. split; [constructor|]. cbn. rewrite H3 by done. unfold lnext. by rewrite lookup_insert_eq.
      * eapply pcells_frame; [done|..]; cbn.
        -- intros p' Hp'. assert (p' ≠ p) by congruence. rewrite lookup_insert_ne by done. split; [done|]. apply Hfr; congruence.
        -- intros q Hq. split; [done|]. by apply Hfr.
    + rewrite fmap_cons. by constructor.
    + done.
Qed.

Lemma add_device_ok F {T : PciAllocTotal} p idx dev qs tid ds s cs a : pci_at s ((p, qs) :: cs) ((tid, ds) :: a) →
  wp F (L4VMpci_client_add_device p idx (Some dev) 1) (λ r s', r = 0 ∧
    (∃ q, pci_at s' ((p, q :: qs) :: cs) ((tid, (idx, dev) :: ds) :: a)) ∧ pci_rest s' = pci_rest s) s.
Proof.
  intros Ha. destruct (dev_malloc_total (ps_devs s)) as [q Hq]. pose proof (dev_malloc_fresh _ _ Hq) as Hf.
  destruct Ha as [Hc Hcs Hnd Hndd].
  assert (q ∉ concat ((p, qs) :: cs).*2) as Hnq by (intros Hin; destruct (devs_known _ _ _ _ Hcs Hin); congruence).
  apply list.Forall2_cons in Hcs as [(Hcl & Hds & Hch) Hcs]. cbn [fst snd] in *.
  cbn [fmap list_fmap concat] in Hnq. rewrite elem_of_app in Hnq. apply Decidable.not_or in Hnq as [Hnq1 Hnq2].
  unfold L4VMpci_client_add_device, store_link. wp_step. wp_step. rewrite Hq. wp_step. wp_step.
  apply wp_bind. cbn [mof_option]. apply wp_mret. wp_step. wp_step.
  pose proof (chain_head _ _ _ _ Hch) as Hh. set (nx := default (LDevs p) _) in Hh.
  assert (∀ n, n ∈ LDevs p :: (LDev <$> qs) → n ≠ LDev q) as Hout.
  { intros n [->|(q' & -> & Hq')%list_elem_of_fmap]%elem_of_cons; [done|]. intros [= ->]. done. }
  assert (nx ∈ LDevs p :: (LDev <$> qs)) as Hnx.
  { unfold nx. destruct (LDev <$> qs); cbn; [left|right; left]. }
  pose proof (chain_in _ _ _ _ _ Hch Hnx) as Hsome. pose proof (Hout _ Hnx) as N1.
  wp_step. eapply (list_add_ok _ _ _ nx); cbn [ps_links ps_set_links ps_set_devs].
  - unfold lnext. by rewrite !lookup_insert_ne.
  - by rewrite !lookup_insert_ne.
  - rewrite lookup_insert_eq by done. by eexists.
  - done.
  - done.
  - intros L' H1 H2 H3. apply wp_mret. split; [done|]. split; [|done]. exists q.
    assert (∀ n, n ≠ LDev q → n ≠ LDevs p → lnext L' n = lnext (ps_links s) n) as Hfr.
    { intros n M1 M2. rewrite H3 by done. unfold lnext. by rewrite !lookup_insert_ne. }
    rewrite fmap_cons in Hnd; apply list.NoDup_cons in Hnd as [Hnp Hnd].
    split; cbn [ps_links ps_clients ps_devs ps_set_links ps_set_devs].
    + eapply chain_frame; [|exact Hc]. intros n [->|(p' & -> & Hp')%list_elem_of_fmap]%elem_of_cons; by apply Hfr.
    + constructor.
      * split; [done|]. split; cbn [fst snd].
        -- constructor; [apply lookup_insert_eq|]. clear - Hds Hnq1. induction Hds as [|q1 d qs ds Hd _ IH]; constructor.
           ++ unfold dev_at in *. cbn. rewrite lookup_insert_ne; [done|]. intros ->. apply Hnq1. left.
           ++ apply IH. intros Hin. apply Hnq1. by right.
        -- rewrite fmap_cons. split; [done|]. destruct qs as [|q1 qs]; [done|]. destruct Hch as [Hc1 Hc2]. split; [done|].
           eapply chain_frame; [|exact Hc2]. intros n Hn. apply Hfr; [apply Hout; by right|]. intros ->.
           apply elem_of_cons in Hn as [?|(? & ? & _)%list_elem_of_fmap]; done.
      * eapply pcells_frame; [done|..]; cbn.
        -- intros p' Hp'. split; [done|]. apply Hfr; [done|]. intros [= ->]. done.
        -- intros q' Hq'. assert (q' ≠ q) by congruence. rewrite lookup_insert_ne by done. split; [done|]. apply Hfr; congruence.
    + by constructor.
    + cbn in *. constructor; [|done]. rewrite elem_of_app. tauto.
Qed.

(** ** Requests and their specification *)

Inductive pci_req : Type :=
  | QRegister (tid : Z) (ids : list (Z * Z))
  | QRead (tid idx reg len offset : Z)
  | QWrite (tid idx reg len offset val : Z).

Definition id_dev (id : Z * Z) : option Z := pci_find_device id.1 id.2.
(** The devices of the ids from index [i] on, the last first, before [ds]. *)
Fixpoint reg_devs (i : Z) (ids : list (Z * Z)) (ds : list (Z * Z)) : list (Z * Z) :=
  match ids with
  | [] => ds
  | id :: ids => reg_devs (i + 1) ids ((i, default 0 (id_dev id)) :: ds)
  end.
Definition req_ok (r : pci_req) : Prop := match r with QRegister _ ids => Forall (λ id, is_Some (id_dev id)) ids | _ => True end.

(** Table and configuration space before and after; the events. *)
Definition spec_access (srv tid : Z) (a : table) (idx : Z) (nodev : pci_reply) (k : Z → list pci_event * pci_reply * cfg) (c : cfg)
    : list pci_event * cfg :=
  match spec_client tid a with
  | None => ([PReply srv tid (RException ex_IVMpci_invalid_client)], c)
  | Some ds =>
      match spec_dev idx ds with
      | None => ([PReply srv tid nodev], c)
      | Some dev => let '(ev, r, c) := k dev in (ev ++ [PReply srv tid r], c)
      end
  end.
Definition spec_step (srv : Z) (r : pci_req) (a : table) (c : cfg) : list pci_event * table * cfg :=
  match r with
  | QRegister tid ids =>
      ([PReply srv tid RRegister], match ids with [] => a | _ => (tid, reg_devs 0 ids []) :: a end, c)
  | QRead tid idx reg len offset =>
      let reg := u32 (reg * 4 + offset) in
      let '(ev, c) := spec_access srv tid a idx (RRead 0xFFFFFFFF 0) (λ dev,
        if bool_decide (len = 1 ∨ len = 2 ∨ len = 4) then
          let '(v, ret, c) := pci_read_config len dev reg c in
          ([PCfgRead dev reg len], RRead (match v with Some v => v `mod` 2 ^ (8 * len) | None => 0 end) ret, c)
        else ([], RRead 0 0, c)) c in
      (ev, a, c)
  | QWrite tid idx reg len offset val =>
      let reg := u32 (reg * 4 + offset) in
      let '(ev, c) := spec_access srv tid a idx (RWrite 0) (λ dev,
        if bool_decide (len = 1 ∨ len = 2 ∨ len = 4) then
          let val := val `mod` 2 ^ (8 * len) in
          let '(ret, c) := pci_write_config len dev reg val c in
          ([PCfgWrite dev reg len val], RWrite ret, c)
        else ([], RWrite 0, c)) c in
      (ev, a, c)
  end.
Fixpoint spec_run (srv : Z) (rs : list pci_req) (a : table) (c : cfg) : list pci_event * table * cfg :=
  match rs with
  | [] => ([], a, c)
  | r :: rs =>
      let '(ev, a, c) := spec_step srv r a c in
      let '(evs, a, c) := spec_run srv rs a c in (ev ++ evs, a, c)
  end.

(** The request a queued command stands for, given the receive buffer. *)
Definition req_of (buf : list (Z * Z)) (c : pci_cmd) : option pci_req :=
  match handler c, cmd_data c with
  | Some HPregister, Some (PPreg n) =>
      if bool_decide (n ≤ length buf) then Some (QRegister (reply_to_tid c) (take (Z.to_nat n) buf)) else None
  | Some HPread, Some (PPrw idx reg len offset _) => Some (QRead (reply_to_tid c) idx reg len offset)
  | Some HPwrite, Some (PPrw idx reg len offset val) => Some (QWrite (reply_to_tid c) idx reg len offset val)
  | _, _ => None
  end.

(** ** The handlers *)

(** The relation depends only on the heap. *)
Lemma cell_at_heap s s' c e : ps_links s' = ps_links s → ps_clients s' = ps_clients s → ps_devs s' = ps_devs s → cell_at s c e → cell_at s' c e.
Proof. intros H1 H2 H3 Hc. eapply pcell_frame; [done|by rewrite H2|intros; by rewrite H1, H3|by rewrite H1]. Qed.
Lemma pci_at_heap s s' cs a : ps_links s' = ps_links s → ps_clients s' = ps_clients s → ps_devs s' = ps_devs s → pci_at s cs a → pci_at s' cs a.
Proof.
  intros H1 H2 H3 [Hc Hf Hn Hnd]. split; [by rewrite H1| |done..].
  eapply (list.Forall2_impl (cell_at s)); [exact Hf|]. intros. by apply (cell_at_heap s).
Qed.

(** What a handler leaves, for the events [ev], the table [a] and the
    configuration space [c] of the specification. *)
Definition served s (ev : list pci_event) (a : table) (c : cfg) s' : Prop :=
  pci_rel s' a ∧ ps_trace s' = ps_trace s ++ ev ∧ ps_cfg s' = c ∧ ps_server_tid s' = ps_server_tid s ∧
  ps_dev_ids s' = ps_dev_ids s ∧ ps_bottom s' = ps_bottom s ∧ ps_top s' = ps_top s ∧ ps_irq s' = ps_irq s.

Lemma reply_ok F tid r s s0 ev a c : served s0 ev a c s →
  wp F (propagate_reply tid r) (λ _, served s0 (ev ++ [PReply (ps_server_tid s0) tid r]) a c) s.
Proof.
  intros ([cs Ha] & Ht & Hc & Hs & Hd & Hb & Hto & Hi). unfold propagate_reply, pemit. do 3 wp_step. rewrite Hs. split_and!; try done.
  - exists cs. by eapply pci_at_heap; [..|exact Ha].
  - cbn. by rewrite Ht, app_assoc.
Qed.
Lemma served_refl s a : pci_rel s a → served s [] a (ps_cfg s) s.
Proof. intros Ha. split_and!; try done. by rewrite app_nil_r. Qed.
Lemma served_same s s' a : pci_rel s' a → pci_rest s' = pci_rest s → served s [] a (ps_cfg s) s'.
Proof. intros Ha Hr. injection Hr as ???????. split_and!; try done. by rewrite app_nil_r. Qed.

Lemma served_cfg s a c e : pci_rel s a → served s [e] a c (plog e (ps_set_cfg c s)).
Proof. intros [cs Ha]. split_and!; try done. exists cs. by eapply pci_at_heap; [..|exact Ha]. Qed.

(** Reads and writes. *)
Lemma access_ok F tid idx nodev k s a (act : L4VMpci_dev_t → M L4VMpci_server_t unit) :
  pci_rel s a →
  (∀ dev, wp F (act (mk_pdev dev 1 idx)) (λ _, let '(ev, r, c) := k dev in served s (ev ++ [PReply (ps_server_tid s) tid r]) a c) s) →
  wp F (client ← L4VMpci_server_lookup_client tid;
    match client with
    | None => propagate_reply tid (RException ex_IVMpci_invalid_client)
    | Some p =>
        dev ← L4VMpci_server_lookup_device p idx;
        match dev with
        | Some q => d ← load_dev q; act d
        | None => propagate_reply tid nodev
        end
    end) (λ _, let '(ev, c) := spec_access (ps_server_tid s) tid a idx nodev k (ps_cfg s) in served s ev a c) s.
Proof.
  intros [cs Ha] Hact. assert (served s [] a (ps_cfg s) s) as H0 by (apply served_refl; by exists cs).
  wp_step. eapply wp_mono; [by apply lookup_client_ok|]. cbv beta. intros r s1 (-> & Hr). unfold spec_access.
  destruct r as [p|]; [|rewrite Hr; by apply (reply_ok _ _ _ _ _ [])]. destruct Hr as (qs & ds & Hin & Hcell & ->).
  wp_step. eapply wp_mono; [by eapply lookup_device_ok|]. cbv beta. intros r s1 (-> & Hr).
  destruct r as [q|]; [|rewrite Hr; by apply (reply_ok _ _ _ _ _ [])]. destruct Hr as (dev & Hq & ->).
  wp_step. apply (wp_load_dev _ _ _ _ _ Hq). cbv beta. specialize (Hact dev). by destruct (k dev) as [[ev r'] c].
Qed.

Definition ids_at (buf : list (Z * Z)) (idx : Z) (ids : list (Z * Z)) : Prop := ∀ (j : nat) id, ids !! j = Some id → zlookup buf (idx + j) = Some id.
Lemma ids_at_cons buf idx id ids : ids_at buf idx (id :: ids) → zlookup buf idx = Some id ∧ ids_at buf (idx + 1) ids.
Proof.
  intros H. split; [rewrite <- (H 0%nat id) by done; f_equal; lia|]. intros j id' Hj. rewrite <- (H (S j) id') by done. f_equal. lia.
Qed.

Lemma register_loop_ok F {T : PciAllocTotal} tid ids : ∀ idx p qs ds s cs a,
  pci_at s ((p, qs) :: cs) ((tid, ds) :: a) → ids_at (ps_dev_ids s) idx ids → Forall (λ id, is_Some (id_dev id)) ids →
  wp F (register_loop (length ids) idx tid (Some p)) (λ r s', r = None ∧ pci_rel s' ((tid, reg_devs idx ids ds) :: a) ∧ pci_rest s' = pci_rest s) s.
Proof.
  induction ids as [|id ids IH]; intros idx p qs ds s cs a Ha Hi Hf; cbn [length register_loop reg_devs].
  - apply wp_mret. split; [done|]. split; [by eexists|done].
  - apply ids_at_cons in Hi as [Hid Hi]. apply list.Forall_cons in Hf as [[dev Hdev] Hf]. wp_step. wp_step. rewrite Hid.
    apply wp_bind. cbn [mof_option]. apply wp_mret. wp_step. apply wp_mret. cbv beta iota. unfold id_dev in Hdev. rewrite Hdev.
    wp_step. eapply wp_mono; [by apply add_device_ok|]. cbv beta. intros err s1 (-> & (q & Ha1) & Hr).
    rewrite bool_decide_eq_false_2 by lia. wp_step. apply wp_mret. unfold id_dev. rewrite Hdev. cbn [default].
    injection Hr as E1 E2 E3 E4 E5 E6 E7. eapply wp_mono; [eapply IH; [exact Ha1|by rewrite E5|done]|].
    cbv beta. intros r s2 (-> & Ha2 & Hr2). split; [done|]. split; [done|]. rewrite Hr2. unfold pci_rest. congruence.
Qed.

(** The first round with the client created is that of the loop. *)
Lemma register_first F tid n idx id p s Q : zlookup (ps_dev_ids s) idx = Some id →
  wp F (register_loop (S n) idx tid (Some p)) Q s →
  wp F (err ← L4VMpci_client_add_device p idx (pci_find_device id.1 id.2) 1;
    (if bool_decide (err ≠ 0) then pemit PKdb else mret tt);; register_loop n (idx + 1) tid (Some p)) Q s.
Proof. intros Hid. unfold wp. cbn [register_loop]. unfold mbind, M_bind, mgets, mret, M_ret. by rewrite Hid. Qed.
Lemma ids_at_take buf n : ids_at buf 0 (take n buf).
Proof.
  intros j id Hj. apply lookup_take_Some in Hj as [Hj _]. rewrite Z.add_0_l. unfold zlookup. rewrite decide_True by lia. by rewrite Nat2Z.id.
Qed.

Lemma register_ok F {T : PciAllocTotal} tid ids s a : pci_rel s a → ids_at (ps_dev_ids s) 0 ids → Forall (λ id, is_Some (id_dev id)) ids →
  wp F (register_loop (length ids) 0 tid None) (λ r s', r = None ∧
    pci_rel s' (match ids with [] => a | _ => (tid, reg_devs 0 ids []) :: a end) ∧ pci_rest s' = pci_rest s) s.
Proof.
  intros [cs Ha] Hi Hf. destruct ids as [|id ids]; [apply wp_mret; split; [done|]; split; [by exists cs|done]|].
  pose proof (ids_at_cons _ _ _ _ Hi) as [Hid _]. cbn [length register_loop]. wp_step. wp_step. rewrite Hid.
  apply wp_bind. cbn [mof_option]. apply wp_mret. wp_step. eapply wp_mono; [by apply create_client_ok|].
  cbv beta. intros r s1 (p & -> & Ha1 & Hr). injection Hr as E1 E2 E3 E4 E5 E6 E7.
  pose proof (register_loop_ok F tid (id :: ids) 0 p [] [] s1 cs a Ha1 ltac:(by rewrite E5) Hf) as Hl.
  apply (register_first _ _ _ _ id) in Hl; [|by rewrite E5]. eapply wp_mono; [exact Hl|]. cbv beta. intros r s2 (-> & Hl2 & Hr2).
  split; [done|]. split; [done|]. rewrite Hr2. unfold pci_rest. congruence.
Qed.

(** An id without a device. *)
Lemma add_device_missing {T : PciAllocTotal} Q p idx s : wp (λ f, f = NullDeref) (L4VMpci_client_add_device p idx None 1) Q s.
Proof.
  destruct (dev_malloc_total (ps_devs s)) as [q Hq]. unfold L4VMpci_client_add_device, store_link. wp_step. wp_step. rewrite Hq. by do 3 wp_step.
Qed.
Lemma register_loop_missing {T : PciAllocTotal} tid ids : ∀ idx p qs ds s cs a,
  pci_at s ((p, qs) :: cs) ((tid, ds) :: a) → ids_at (ps_dev_ids s) idx ids → Exists (λ id, id_dev id = None) ids →
  wp (λ f, f = NullDeref) (register_loop (length ids) idx tid (Some p)) (λ _ _, False) s.
Proof.
  induction ids as [|id ids IH]; intros idx p qs ds s cs a Ha Hi He; [by apply Exists_nil in He|].
  cbn [length register_loop]. apply ids_at_cons in Hi as [Hid Hi]. wp_step. wp_step. rewrite Hid.
  apply wp_bind. cbn [mof_option]. apply wp_mret. wp_step. apply wp_mret. cbv beta iota. wp_step.
  destruct (id_dev id) as [dev|] eqn:Hdev; unfold id_dev in Hdev; rewrite Hdev; [|apply add_device_missing].
  eapply wp_mono; [by apply add_device_ok|]. cbv beta. intros err s1 (-> & (q & Ha1) & Hr).
  rewrite bool_decide_eq_false_2 by lia. wp_step. apply wp_mret. injection Hr as E1 E2 E3 E4 E5 E6 E7.
  eapply IH; [exact Ha1|by rewrite E5|]. apply Exists_cons in He as [He|He]; [|done]. unfold id_dev in He. congruence.
Qed.

(** Every request is served as specified. *)
Lemma pci_handler_ok F {T : PciAllocTotal} h cmd r s a : handler cmd = Some h → req_of (ps_dev_ids s) cmd = Some r → req_ok r → pci_rel s a →
  wp F (run_pci_handler h cmd) (λ _, let '(ev, a', c) := spec_step (ps_server_tid s) r a (ps_cfg s) in served s ev a' c) s.
Proof.
  intros Hh Hr Hok Ha. unfold req_of in Hr. rewrite Hh in Hr. unfold run_pci_handler. destruct (cmd_data cmd) as [d|]; [|by destruct h].
  apply wp_bind. cbn [mof_option]. apply wp_mret.
  destruct h, d as [n|?|idx reg len offset val]; try done; cbn [spec_step].
  - case_bool_decide as Hn; [|done]. injection Hr as <-. unfold L4VMpci_server_register_handler. cbn [spec_step].
    set (ids := take (Z.to_nat n) (ps_dev_ids s)) in *.
    replace (Z.to_nat n) with (length ids) by (unfold ids; rewrite length_take; lia). wp_step.
    eapply wp_mono; [apply (register_ok _ _ ids s a Ha); [|exact Hok]|].
    + apply ids_at_take.
    + cbv beta. intros x s1 (-> & Ha1 & Hrest). apply (reply_ok _ _ _ _ _ []). by apply served_same.
  - injection Hr as <-. unfold L4VMpci_server_read_handler. cbv zeta. cbn [spec_step]. set (k := (λ dev : Z, _ : list pci_event * pci_reply * cfg)).
    eapply wp_mono; [apply (access_ok F (reply_to_tid cmd) idx (RRead 0xFFFFFFFF 0) k s a
      (λ d, r ← read_config (pd_dev d) (u32 (reg * 4 + offset)) len; propagate_reply (reply_to_tid cmd) (RRead r.1 r.2)) Ha)|].
    + intros dev. unfold k, read_config. cbn [pd_dev]. apply wp_bind. case_bool_decide.
      * wp_step. wp_step. destruct (pci_read_config _ _ _ _) as [[v ret] c]. unfold pemit. do 5 wp_step. cbn [fst snd].
        apply reply_ok. by apply served_cfg.
      * apply wp_mret. by apply (reply_ok _ _ _ _ _ []), served_refl.
    + cbv beta. intros _ s1. by destruct (spec_access _ _ _ _ _ _ _).
  - injection Hr as <-. unfold L4VMpci_server_write_handler. cbv zeta. cbn [spec_step]. set (k := (λ dev : Z, _ : list pci_event * pci_reply * cfg)).
    eapply wp_mono; [apply (access_ok F (reply_to_tid cmd) idx (RWrite 0) k s a
      (λ d, ret ← (if bool_decide (pd_writable d = 1) then write_config (pd_dev d) (u32 (reg * 4 + offset)) len val else mret 0);
        propagate_reply (reply_to_tid cmd) (RWrite ret)) Ha)|].
    + intros dev. unfold k, write_config. cbn [pd_dev pd_writable]. rewrite (bool_decide_eq_true_2 (1 = 1)) by done. apply wp_bind. case_bool_decide.
      * wp_step. wp_step. cbv zeta. destruct (pci_write_config _ _ _ _ _) as [ret c]. unfold pemit. do 5 wp_step.
        apply reply_ok. by apply served_cfg.
      * apply wp_mret. by apply (reply_ok _ _ _ _ _ []), served_refl.
    + cbv beta. intros _ s1. by destruct (spec_access _ _ _ _ _ _ _).
Qed.

(** ** Queues of commands *)

Lemma served_trans s ev a c s1 ev' a' c' s2 : served s ev a c s1 → served s1 ev' a' c' s2 → served s (ev ++ ev') a' c' s2.
Proof.
  intros (_ & T1 & _ & S1 & D1 & B1 & P1 & I1) (R & T2 & C & S2 & D2 & B2 & P2 & I2). split_and!; try congruence. by rewrite T2, T1, app_assoc.
Qed.

Lemma pci_queue_ok {T : PciAllocTotal} q : ∀ rs s a, mapM (req_of (ps_dev_ids s)) q = Some rs → Forall req_ok rs → pci_rel s a →
  ∃ s', foldl (run_cmd run_pci_res) (Ok tt s) q = Ok tt s' ∧
    let '(ev, a', c) := spec_run (ps_server_tid s) rs a (ps_cfg s) in served s ev a' c s'.
Proof.
  induction q as [|cmd q IH]; intros rs s a Hq Hf Ha; cbn [mapM] in Hq.
  - injection Hq as <-. exists s. split; [done|]. by apply served_refl.
  - destruct (req_of _ cmd) as [r|] eqn:Er; [|done]. cbn in Hq. destruct (mapM _ q) as [rs'|] eqn:Eq; [|done]. injection Hq as <-.
    apply list.Forall_cons in Hf as [Hr Hf]. assert (∃ h, handler cmd = Some h) as [h Hh].
    { unfold req_of in Er. destruct (handler cmd); [eauto|done]. }
    destruct (wp_no_fault _ _ _ (pci_handler_ok no_fault h cmd r s a Hh Er Hr Ha)) as ([] & s1 & Hrun & Hs1).
    cbn [foldl spec_run]. unfold run_cmd at 2. rewrite Hh. cbn [run_pci_res]. rewrite Hrun.
    destruct (spec_step _ r a _) as [[ev a1] c1]. pose proof Hs1 as (Ha1 & _ & Hc & Hsrv & Hd & _).
    destruct (IH rs' s1 a1) as (s2 & Hrun2 & Hs2); [by rewrite Hd|done|done|]. exists s2. split; [done|].
    rewrite Hc, Hsrv in Hs2. destruct (spec_run _ rs' a1 c1) as [[evs a2] c2]. by eapply served_trans.
Qed.
End pci_spec.

(** ** Claims *)

(** C34. When every device that a queued registration names exists (without, see
    [pci_register_unknown_faults]) and [kmalloc] always finds memory, the bottom half serves
    every queued registration, read and write as the table specifies. A registration
    registers the devices that are in the receive buffer when it is served, which a later
    call may have overwritten ([pci_register_overwritten]). From a ring holding the commands
    of the requests [rs], read so, it does not fault, answers every caller once and in order, makes exactly the specified
    accesses to configuration space, with the device that the calling thread
    registered under the index it names and with the value cut to the width of the
    access, and leaves the ring empty and the table updated. *)
Theorem pci_bottom_half_serves {E : PciEnv} {T : PciAllocTotal} (q : list pci_cmd) rs (s : L4VMpci_server_t) a :
  pci_rel s a → ring_queue false q (ps_bottom s) → mapM (req_of (ps_dev_ids s)) q = Some rs → Forall req_ok rs →
  ∃ s', L4VMpci_bottom_half_handler s = Ok tt s' ∧
    let '(ev, a', c) := spec_run (ps_server_tid s) rs a (ps_cfg s) in
    pci_rel s' a' ∧ ps_cfg s' = c ∧ ring_queue false [] (ps_bottom s') ∧
    ps_trace s' = ps_trace s ++ ev ++ (if wake_server (ps_bottom s) then [PL4 (EvReply (ps_server_tid s))] else []).
Proof.
  intros Ha [p Hp] Hq Hf. pose proof (rr_cap _ _ _ _ Hp) as Hcap. cbn in Hcap.
  destruct (pci_queue_ok q rs s a Hq Hf Ha) as (s1 & Hrun & Hs1).
  destruct (dispatch_loop_queue run_pci_res p q (ps_bottom s) (Ok tt s) (S L4VM_SERVER_CMD_RING_LEN) Hp) as (r' & Heq & Hr' & Hw); [lia|].
  unfold L4VMpci_bottom_half_handler, dispatch_pci, L4VM_server_cmd_dispatcher. rewrite Heq. cbn [mbind option_bind]. rewrite Hrun, Hw.
  destruct (spec_run _ rs a _) as [[ev a'] c]. destruct Hs1 as ([cs Ha'] & Ht & Hc & _).
  destruct (wake_server (ps_bottom s)); (eexists; split; [done|]); cbn; rewrite ?Ht, <- ?app_assoc, ?app_nil_r.
  - split_and!; try done; [exists cs; by eapply pci_at_heap; [..|exact Ha']|]. eexists. by apply ring_repr_wake.
  - split_and!; try done; [exists cs; by eapply pci_at_heap; [..|exact Ha']|]. by eexists.
Qed.

(** Deregistering uses freed memory: whenever the client is known and has a device,
    as every client the server registered has, the handler frees the device's node
    and then follows its link. *)
Theorem pci_deregister_use_after_free {E : PciEnv} (s : L4VMpci_server_t) a caller tid d ds :
  pci_rel s a → spec_client tid a = Some (d :: ds) → L4VMpci_server_deregister_handler caller tid s = Err DanglingDeref.
Proof.
  intros [cs Ha] Hc. apply wp_only_fault. unfold L4VMpci_server_deregister_handler. wp_step.
  eapply wp_mono; [by apply lookup_client_ok|]. cbv beta. intros r s1 (-> & Hr). destruct r as [p|]; [|congruence].
  destruct Hr as (qs & ds' & Hin & (_ & Hds & Hch) & Hc'). assert (ds' = d :: ds) as -> by congruence. cbn [fst snd] in *.
  destruct qs as [|q qs]; [by inversion Hds|]. apply list.Forall2_cons in Hds as [Hd _]. destruct Hch as [Hn _].
  destruct (link_of _ _ _ Hn) as (l & El & Enx). unfold L4VMpci_server_deregister_client, list_fuel.
  do 4 wp_step. apply (wp_load_link _ _ l); [done|]. rewrite Enx. cbv beta. wp_step. cbn [free_devs].
  rewrite bool_decide_eq_false_2 by done. wp_step. apply (wp_load_dev _ _ _ _ _ Hd). do 3 wp_step. unfold load_link. do 2 wp_step.
  cbn. by rewrite lookup_delete_eq.
Qed.

(** A registration that names a device the driver VM does not have stops the driver
    VM: the message about the new device dereferences the NULL pointer the search
    returned. The interface has an exception for unknown devices. *)
Theorem pci_register_unknown_faults {E : PciEnv} {T : PciAllocTotal} (s : L4VMpci_server_t) a tid n :
  pci_rel s a → n ≤ length (ps_dev_ids s) → Exists (λ id, id_dev id = None) (take (Z.to_nat n) (ps_dev_ids s)) →
  L4VMpci_server_register_handler tid n s = Err NullDeref.
Proof.
  intros [cs Ha] Hn He. apply wp_only_fault. unfold L4VMpci_server_register_handler. set (ids := take _ _) in *.
  replace (Z.to_nat n) with (length ids) by (unfold ids; rewrite length_take; lia). wp_step.
  assert (ids_at (ps_dev_ids s) 0 ids) as Hi by apply ids_at_take.
  eapply wp_mono with (P := λ _ _, False); [|done]. destruct ids as [|id ids]; [by apply Exists_nil in He|].
  pose proof (ids_at_cons _ _ _ _ Hi) as [Hid _]. cbn [length register_loop]. wp_step. wp_step. rewrite Hid.
  apply wp_bind. cbn [mof_option]. apply wp_mret. wp_step. eapply wp_mono; [by apply create_client_ok|].
  cbv beta. intros r s1 (p & -> & Ha1 & Hr). injection Hr as E1 E2 E3 E4 E5 E6 E7.
  pose proof (register_loop_missing tid (id :: ids) 0 p [] [] s1 cs a Ha1 ltac:(by rewrite E5) He) as Hl.
  by apply (register_first _ _ _ _ _ _ _ _ ltac:(by rewrite E5)) in Hl.
Qed.

(** The interrupts held after the events of a run. *)
Definition irqs_held (evs : list pci_event) : Z :=
  foldr (λ e n, match e with PRequestIrq _ => n + 1 | PFreeIrq _ => n - 1 | _ => n end) 0 evs.
Lemma irqs_held_app l l' : irqs_held (l ++ l') = irqs_held l + irqs_held l'.
Proof. unfold irqs_held. induction l as [|e l IH]; [done|]. cbn [app foldr]. rewrite IH. destruct e; lia. Qed.

(** The initialisation either fails with an error code, holding no interrupt, or
    leaves the server ready: its tables as they were, two empty command rings, no
    pending interrupt, one interrupt held, a valid server thread. *)
Theorem pci_init_ready {E : PciEnv} (s : L4VMpci_server_t) a irq_gtid main_gtid nr_irqs request_irq thread locator :
  pci_rel s a → length (cmds (ps_top s)) = L4VM_SERVER_CMD_RING_LEN → length (cmds (ps_bottom s)) = L4VM_SERVER_CMD_RING_LEN →
  wp no_fault (L4VMpci_server_init_module irq_gtid main_gtid nr_irqs request_irq thread locator) (λ err s',
    err < 0 ∧ irqs_held (ps_trace s') = irqs_held (ps_trace s) ∨
    err = 0 ∧ irqs_held (ps_trace s') = irqs_held (ps_trace s) + 1 ∧ pci_rel s' a ∧
      ring_queue false [] (ps_top s') ∧ ring_queue false [] (ps_bottom s') ∧
      ps_irq s' = mk_irq 0 false ∧ ps_server_tid s' ≠ L4_nilthread) s.
Proof.
  intros [cs Ha] Ht Hb. unfold L4VMpci_server_init_module, PCI_ENOMEM, pemit.
  wp_steps; rewrite ?bool_decide_eq_true, ?bool_decide_eq_false in *; cbn [ps_trace plog]; rewrite ?irqs_held_app; cbn [irqs_held foldr].
  1,2,3: left; lia.
  - left. split; [|lia]. destruct locator; cbn in *; unfold ENODEV, EIO; lia.
  - right. split_and!; try done; [lia|exists cs; by eapply pci_at_heap; [..|exact Ha]|exists 0%nat; by apply init_repr..].
Qed.

(** ** Concrete runs *)

(** A machine with the devices of one vendor; configuration space is one word. *)
#[local] Instance sample_pci_env : PciEnv := {|
  cfg := Z;
  pci_find_device := λ v d, if bool_decide (v = 0x8086) then Some (1000 + d) else None;
  pci_read_config := λ _ _ _ c, (Some c, 0, c);
  pci_write_config := λ _ _ _ v _, (0, v);
  client_malloc := λ h, Some (fresh (dom h));
  client_malloc_fresh := λ h p H, eq_ind _ (λ p, h !! p = None) (not_elem_of_dom_1 _ _ (is_fresh (dom h))) _ (Some_inj _ _ H);
  dev_malloc := λ h, Some (fresh (dom h));
  dev_malloc_fresh := λ h p H, eq_ind _ (λ p, h !! p = None) (not_elem_of_dom_1 _ _ (is_fresh (dom h))) _ (Some_inj _ _ H)
|}.
#[local] Instance sample_alloc_total : PciAllocTotal.
Proof. split; intros; by eexists. Qed.

Definition idle_pci_ring : pci_ring := mk_cmd_ring 0 0 false 5 (replicate 8 (mk_cmd None 0 None)).
Definition idle_pci : L4VMpci_server_t :=
  mk_pci sample_pci_env 5 11 10 (mk_irq 0 false) 255 3 {[LClients := mk_lh LClients LClients]} ∅ ∅ idle_pci_ring idle_pci_ring
    (replicate DEV_IDS (0, 0)) 0x12345678 [].
Lemma idle_pci_rel : pci_rel idle_pci [].
Proof. exists []. split; [done|constructor|constructor|constructor]. Qed.

Definition pci_after (m : M L4VMpci_server_t unit) (s : L4VMpci_server_t) : L4VMpci_server_t :=
  match m s with Ok _ s' => s' | Err _ => s end.
Abbreviation quiet := (λ (_ : l4_event) (r : pci_ring) (w : irq_words) (s : L4VMpci_server_t), (false, (r, w, s))).

(** Thread 33 registers a device, writes a byte to its register 5 and reads a word. *)
Definition called_pci : L4VMpci_server_t :=
  pci_after (IVMpci_Control_server_register quiet false 1 33 [(0x8086, 4)];;
    IVMpci_Control_write_implementation quiet false 1 33 0 1 1 1 0x1ab;;
    IVMpci_Control_read_implementation quiet false 1 33 0 1 2 0) idle_pci.
Abbreviation called_cmds := [mk_cmd (Some HPregister) 33 (Some (PPreg 1)); mk_cmd (Some HPwrite) 33 (Some (PPrw 0 1 1 1 0x1ab));
  mk_cmd (Some HPread) 33 (Some (PPrw 0 1 2 0 0))] (only parsing).
Lemma called_pci_queue : ring_queue false called_cmds (ps_bottom called_pci).
Proof.
  exists 0%nat. split; try reflexivity.
  - cbn. unfold L4VM_SERVER_CMD_RING_LEN. lia.
  - intros i c Hq. do 3 (destruct i as [|i]; [injection Hq as <-; vm_compute; eauto|]). done.
  - intros i Hi. cbn in Hi. unfold L4VM_SERVER_CMD_RING_LEN in Hi. do 3 (destruct i as [|i]; [lia|]).
    do 5 (destruct i as [|i]; [eexists; split; vm_compute; reflexivity|]). lia.
Qed.
Lemma called_pci_rel : pci_rel called_pci [].
Proof. exists []. split; [done|constructor|constructor|constructor]. Qed.

Lemma pci_bottom_half_serves_witness : ∃ s', L4VMpci_bottom_half_handler called_pci = Ok tt s' ∧
  ps_trace s' = ps_trace called_pci ++ [PReply 5 33 RRegister; PCfgWrite 1004 5 1 0xab; PReply 5 33 (RWrite 0);
    PCfgRead 1004 4 2; PReply 5 33 (RRead 0xab 0)].
Proof.
  destruct (pci_bottom_half_serves called_cmds
    [QRegister 33 [(0x8086, 4)]; QWrite 33 0 1 1 1 0x1ab; QRead 33 0 1 2 0] called_pci []) as (s' & Hrun & _ & _ & _ & Ht).
  - apply called_pci_rel.
  - apply called_pci_queue.
  - vm_compute. reflexivity.
  - repeat constructor. by eexists.
  - exists s'. split; [exact Hrun|exact Ht].
Defined.

Definition registered_pci : L4VMpci_server_t := pci_after L4VMpci_bottom_half_handler called_pci.
Lemma registered_pci_rel : pci_rel registered_pci [(33, [(0, 1004)])].
Proof.
  exists [(1%positive, [1%positive])]. split.
  - split; vm_compute; reflexivity.
  - constructor; [|constructor]. split; [vm_compute; reflexivity|]. split.
    + constructor; [vm_compute; reflexivity|constructor].
    + split; vm_compute; reflexivity.
  - apply NoDup_singleton.
  - apply NoDup_singleton.
Qed.
Lemma pci_deregister_use_after_free_witness : L4VMpci_server_deregister_handler 33 33 registered_pci = Err DanglingDeref.
Proof. apply (pci_deregister_use_after_free registered_pci [(33, [(0, 1004)])] 33 33 (0, 1004) []); [apply registered_pci_rel|reflexivity]. Defined.

Lemma pci_register_unknown_faults_witness :
  L4VMpci_server_register_handler 33 1 (ps_set_dev_ids [(0x10ec, 0x8139)] idle_pci) = Err NullDeref.
Proof.
  apply (pci_register_unknown_faults (ps_set_dev_ids [(0x10ec, 0x8139)] idle_pci) [] 33 1).
  - exists []. split; [done|constructor|constructor|constructor].
  - cbn. lia.
  - left. reflexivity.
Defined.

(** The device ids of a registration are read from the one receive buffer of the
    server thread when the bottom half runs. If a second client registers before
    that, the first client gets the second client's device: after thread 33 asked
    for device 4 and thread 44 for device 7, thread 33 owns device 7. *)
Theorem pci_register_overwritten :
  List.filter (λ e, match e with PL4 _ => false | _ => true end)
    (ps_trace (pci_after (
      IVMpci_Control_server_register quiet false 1 33 [(0x8086, 4)];;
      IVMpci_Control_server_register quiet false 1 44 [(0x8086, 7)];;
      L4VMpci_bottom_half_handler;;
      L4VMpci_server_read_handler 33 0 0 4 0) idle_pci)) =
  [PReply 5 33 RRegister; PReply 5 44 RRegister; PCfgRead 1007 0 4; PReply 5 33 (RRead 0x12345678 0)].
Proof. vm_compute. reflexivity. Qed.

(** A client without devices, left by a failed allocation, is freed but stays in
    the list of clients; the next lookup reads freed memory. *)
Example pci_deregister_stays_linked :
  (L4VMpci_server_create_client 33;; L4VMpci_server_deregister_handler 33 33;; L4VMpci_server_read_handler 44 0 0 4 0) idle_pci = Err DanglingDeref.
Proof. vm_compute. reflexivity. Qed.
